(* ===== verification/_CoqProject ===== *)
-Q . S2P
Prelude.v
Words.v
Text.v
Secrets.v
CoapBlock.v
CoapMessage.v
CoapRouter.v
DtlsCache.v
CoapServer.v
CoapServerSpec.v
FailureTracker.v
OtpStore.v
NameMatch.v
EnrollAuthz.v
Errors.v
Schema.v
AuditLog.v
AuditSpec.v
Calendar.v
X509.v
Hsm.v
HsmSpec.v
Issuance.v
Der.v
ExampleLibs.v
IssuanceSpec.v
HaPool.v
CaBackend.v
StarManager.v
StarRenewal.v
StarSpec.v
StarCoverage.v
Transfer.v
DogtagPool.v
Labels.v
BasicOtp.v
CsrAttrs.v
Enroll.v
EnrollSpec.v
DerReader.v
Ocsp.v
ReaderExample.v
OcspSpec.v
Revocation.v
RevocationSpec.v
EstAuth.v
EstAuthSpec.v
Cmp.v
CmpSpec.v
CoapBridge.v
CoapBridgeSpec.v
KeyGen.v
ServerKeygen.v
ServerKeygenSpec.v
StarRoutes.v
StarRoutesSpec.v
StarRestart.v
CmsAuth.v
CmsAuthSpec.v
Cmc.v
CmcSpec.v
CmsEst.v
CmsEstSpec.v
RenewalInfo.v
Admin.v
AdminSpec.v
AdminStatus.v
OtpLife.v
Crl.v
Config.v
DogtagClient.v
DogtagClientSpec.v
Kra.v
Tls.v
Service.v
ServiceSpec.v
AuditReview.v
StarService.v
Startup.v
