(* ===== verification/Prelude.v ===== *)
(** * A verification development of kipuka

    kipuka is an EST (RFC 7030) enrollment server: devices ask it for
    certificates over HTTPS and over CoAP/DTLS, in EST, in EST under CMS
    (RFC 8295) and in CMP (RFC 9810); it authenticates and authorizes them,
    sends their requests to a CA, keeps an audit trail, and renews
    short-term certificates (STAR, RFC 8739) by itself.  This library
    translates the decision-making parts of its Rust code into executable
    Rocq functions and proves what makes each of them correct.

    ** How the code is translated

    A Rust function becomes a function of its arguments, its object's
    state, and the clock readings it makes; it returns the new state and its
    result.  [Result] with a possible panic is [outcome] of this file.
    Instants and durations are numbers of nanoseconds unless a file says
    otherwise.  Machine integers are [Z] with the wrap-around written out
    (Words.v), [f64] is the Standard Library's [spec_float], [str]
    is the list of its UTF-8 bytes as a [string] (Text.v), a [HashMap] is a
    [gmap], a table of the database a list of records.  Where the code
    iterates a hash map, the order is a parameter (or, in the timer of the
    CoAP server, an input), so a theorem holds for every order.  Each object
    is behind one lock held for a whole operation, so operations are atomic
    steps, and an interleaving of concurrent calls is a list of steps; an
    operation that gives the lock up between two accesses is modelled as two
    steps (the validation of one-time passwords, the renewal of an order).  A
    handler of an HTTP request is one step of the server unless its file says
    otherwise.  What a handler reads from outside (clock, random bytes, which
    SQL statement fails and how, the answers of other servers) is a record
    that the theorems quantify over, so they hold with any statement failing
    at any point.

    Code outside the repository is a parameter.  The interfaces are classes
    with one operation per function or field the program uses; what a theorem
    needs of an implementation is a class of laws, and an instance of both
    shows that the laws can hold:
    - [X509Lib] (the certificate library; laws [TimeLaws], [OidLaws];
      instance in ExampleLibs), [CmsOids], [AttributeOids];
    - [Encoder] with [EncoderLaws] (writing DER; ExampleLibs) and [Decoder]
      with [Consumes] (reading it; ReaderExample);
    - [OcspLib], [CrlLib] (answers and lists that are read),
      [CrlBuilderLib] (lists that are made), [GssLib] (Kerberos), [CmpLib]
      with [CmpLaws], [CmsLib], [CmcLib], [KeyGenLib], [SskgLib];
    - [StarText] with [TimeTextLaws] and [RenewalText] with
      [RenewalTextLaws] (texts of times), and section variables for SHA-256,
      base64, JSON and [Debug] texts;
    - [UrlLib] (URLs), [Cryptoki] with [CryptokiLaws] (PKCS#11 modules),
      [OpensslLib], [RustlsLib] with [WebPkiLaws] (TLS), [SqlBackend] with
      [ColumnLaws] (a database that is migrated); instances in HsmSpec,
      Tls and Schema; [OpensslProbe] (OpenSSL as the liveness check uses it);
    - [DogtagJson], [KraJson] (answers of Dogtag), [KraCrypto] with [KraLaws],
      what OpenSSL promises of its ciphers and of RSA;
    - [Transport] (DTLS and the socket), [ProbeEnv], [BackendEnv] and
      [RenewalEnv] (other servers).
    Interfaces of the program itself are classes too: [EstHandler], what the
    CoAP server serves, of which CoapBridge gives the program's instance, and
    [OtpStore] with its laws [OtpStoreLaws], against which the validator is
    verified and which the in-memory store is shown to satisfy.

    ** The files

    Shared: Prelude (outcomes, list and map lemmas, hints, tactics), Words
    (machine integers and doubles), Text (strings and URLs), Calendar
    (chrono's dates), Errors (src/error.rs), X509 (src/auth/certificate.rs
    over the interface), Der, DerReader (the hand-written and the library's
    walks over DER), Transfer (PKCS#7 and bodies of EST).  Where a component
    has a file X and no file XSpec, its theorems are the second part of X.

    Configuration, database and start (src/config, src/db, src/tls,
    src/main.rs, crates/kipuka-hsm).
    - Secrets: references of secrets and their backends; Config: the sections, their defaults and
      validation, and the resolution of every secret.
    - Schema: the SQL of every migration and the run
      that executes them.
    - Hsm, HsmSpec: slots, key pairs, key URIs, signatures in a module.
    - Tls: listeners, client certificates, the stapler.
    - Startup: [run] from the file of the configuration to the
      listeners and the state that the other files start from.

    CoAP server (crates/kipuka-coap/src).  A datagram goes through the DTLS
    connection of its peer; each record is a CoAP message; a request is
    deduplicated, assembled from blocks, routed, handled, and its response
    cut into blocks.
    - CoapBlock, CoapMessage, CoapRouter, DtlsCache: the error
      type, block options with assembler and disassembler, the codec,
      content formats and routing, sessions.
    - CoapServer, CoapServerSpec: [process_datagram] and what it calls, and
      the main loop [run] with its timer and receive arms.
    - CoapBridge, CoapBridgeSpec: src/routes/coap.rs, the EST handler behind
      it, which shares issuance and authorization with the HTTP handlers.

    Authentication and authorization (src/auth, crates/kipuka-otp,
    crates/kipuka-util).
    - FailureTracker, OtpStore, BasicOtp: lockouts, one-time passwords, and
      a login with one, whose refusals are events of the audit trail.
    - NameMatch, EnrollAuthz: IP addresses, RFC 6125 matching, the policy of a label.
    - EstAuth, EstAuthSpec: headers, and the extractor that tries
      TLS certificate, one-time password and Kerberos as the label permits.
    - Ocsp, OcspSpec, Revocation, RevocationSpec: the revocation check of
      client certificates.
    - CmsAuth, CmsAuthSpec: authentication by a signed CMS message.

    CA selection (src/ha, src/ca/pool.rs): HaPool, CaBackend.  Dogtag as a CA
    (crates/kipuka-dogtag): DogtagPool; DogtagClient, DogtagClientSpec, the
    client of its REST interface, against any server that answers by what it
    has been sent; Kra, the client of the key recovery authority.

    Issuing (src/ca): Issuance, IssuanceSpec (the checks on a request and the
    certificate built), KeyGen.

    Endpoints (src/routes).  Labels has the configuration a request resolves
    to and the tables handlers write, AuditLog and AuditSpec the audit trail
    (src/audit).
    - Enroll, EnrollSpec: simpleenroll, simplereenroll, cacerts; CsrAttrs.
    - ServerKeygen, ServerKeygenSpec; Cmc, CmcSpec (fullcmc); CmsEst,
      CmsEstSpec (the four operations under CMS).
    - Cmp, CmpSpec: CMP messages, protection, enrollment and revocation.
    - RenewalInfo: renewal windows.
    - Admin, AdminSpec: the administration interface; AdminStatus: its
      status pages (health.rs, cas.rs), each health check an event of the
      trail; OtpLife: the life of one-time passwords over administration,
      logins and clean-up.

    STAR (src/star, src/routes/star.rs): StarManager, StarRenewal, StarSpec,
    StarCoverage (orders and their renewal), StarRoutes, StarRoutesSpec (the
    endpoints, their tables and the renewal cycle on them), StarRestart (reading
    the tables back, which may write that an order is active again).
    StarRenewal has the cycle over an abstract library, for its coverage;
    [renewal_tick] of StarRoutes the same cycle with the tables, the audit
    trail and issuance, for the server as a whole.

    Tasks (src/main.rs): Crl, the revocation lists of the CAs.

    The whole: Service composes the calls of all protocols, of
    administrators, logins, the ticks of tasks and the shutdown into one
    transition function of the server's state, with one audit trail;
    ServiceSpec shows every call to be a sequence of four kinds of change and
    derives the server's invariants and what follows over any sequence of
    calls; StarService that calls keep the orders' tables and memory fitting;
    AuditReview has an auditor who reads the trail meanwhile.  Startup reads
    the tables a server left ([tables_of]) from the database through
    [boot_tables] and makes the state of the next server of them.

    Instances for examples and witnesses: ExampleLibs, ReaderExample, and the last section of the Spec files.

    ** What the theorems show

    The whole server: tables and audit trail stay well-formed over any calls
    of any protocol with any failures, and nothing on record is lost, over a
    restart too; a review of the trail misses nothing and ends, if its pages
    have more than one event (with one it does not, a defect); a revocation over CMP ends the
    revocation lists of its CA (a defect).

    CoAP server: a request is handled at most once within the exchange
    lifetime however often it is retransmitted; a block-wise upload over a
    transport that loses nothing reaches the handler exactly once and
    whole; the handler only runs for the holder of a certificate, in every
    state the main loop reaches; the tables are bounded; peers do not
    influence each other; the message codec round trips and never panics; the
    assembler is sound and inverse to the disassembler.  With the bridge: a
    retransmitted enrollment issues no second certificate.

    Authentication: a locked-out principal stays refused; a token is never
    used more often than it allows under any interleaving of validations,
    and never more often than operators granted over any administration; the
    matching functions against declarative definitions; authorization
    accepts exactly what the configuration allows; a request is authenticated
    only by a method its label permits and with what the method asks for; an
    OCSP answer counts only if the issuer or its delegate signed it for this
    certificate and time; a CMS message only with a signature that a trust
    anchor vouches for; an administrator only by token or certificate, and
    only an operator changes anything.

    Issuing: a certificate is for a proved key, in the requester's name, with
    names the label permits and never a CA certificate; its validity is
    within all bounds; what a refusal leaves; what each endpoint
    stores and answers; a CMP answer is bound to its request; a private key
    is never answered in the clear under CMS; a revocation list has exactly
    the revoked certificates.

    CA selection: each strategy picks only available and allowed CAs, with
    its promised distribution; the circuit breaker and the retry queue
    refine their specifications; routing terminates, and reaches a working
    CA when the retries suffice.  A request that goes to Dogtag is submitted
    once, and what is answered is the certificate it gave for it; a key that
    is wrapped in either of the two ways is recovered, under a session key
    that is sent encrypted only.

    STAR: cancellation is final; orders are bounded; a renewal is committed
    before it is published; under cycles frequent enough an order always
    has a valid certificate to serve; a restarted server serves every order
    as the one before did.

    Audit: the trail is an unbroken append-only chain under any mix of
    writers and failures, and two verifying trails with one newest hash,
    whose fields are free of the separator, are the same or exhibit a
    collision.

    Configuration and start: what passes validation has unique, known CAs
    and one default; every secret is what its own reference names; a run of
    the migrations executes the pending statements in order up to the first
    failure; a key URI is read back as written; a listener admits the clients
    its section says, and comes up with a key in a module only if that key
    signs for its certificate; a server that has started can serve every
    label, and continues where the last one ended: certificates, orders,
    passwords and the audit chain go on, lockouts do not.

    ** Bounds and fuel

    Loops over untrusted bytes recurse on fuel that is the number of bytes or
    one more; each round consumes at least one, and a lemma per loop shows
    that fuel never runs out: [parse_safe] (CoAP options), [der_walk_safe]
    and the lemmas about [Consumes] and [ensures] (the DER walks of OCSP
    answers, distribution points, CMS messages and key identifiers).  [trim]
    recurses on the length of its string.  [route_loop] has the fuel
    [max_retries + 1] of the loop it models; [route_enrollment_total] proves
    it is enough, for [max_retries] below 2^32 - 1.  Hypotheses that bound a
    counter (2^32 uses of a token, 2^64 round-robin selections) stand where
    the code's counter wraps.

    ** What is not modelled

    - Glue to libraries: the OpenSSL context of the DTLS server and its
      reading of PEM files, rustls, sockets of systemd and the file system.
      rustls enters a theorem by [admits], its documented use of a verifier.
    - The loops that accept connections and wait for the end of open ones,
      and the rotation of the audit file (which nothing writes).
    - SQL beyond the statements named: a statement is its effect on lists of
      records, the migrations the list of the texts that are executed, the
      rows of a database a function of it.
    - crates/kipuka-est, which only the command-line client uses, and the
      tools themselves.
    - src/ca/init.rs, which nothing calls; tracing and metrics. *)
From Stdlib Require Export Ascii ZArith Lia Bool.
From stdpp Require Export base tactics numbers list gmap strings fin_maps.
From stdpp Require Export pretty sorting.

#[export] Set Default Goal Selector "!".
#[export] Set Warnings "-clear-no-such-hyp".

(** ** Results of fallible Rust code

    [Ok]/[Err] are the two constructors of [Result]; [Panic] is the
    third outcome a Rust function can have (an index out of range, an
    [unwrap] of [None]).  A function that never indexes never returns
    [Panic]; that a function with indexing does not either is a theorem. *)
Inductive outcome (T E : Type) : Type :=
  | Ok (t : T)
  | Err (e : E)
  | Panic.
Arguments Ok {T E} t.
Arguments Err {T E} e.
Arguments Panic {T E}.

(** The [?] operator. *)
Definition obind {T U E} (c : outcome T E) (k : T -> outcome U E) : outcome U E :=
  match c with
  | Ok t => k t
  | Err e => Err e
  | Panic => Panic
  end.

(** [Result::map] *)
Definition omap_ok {T U E} (f : T -> U) (c : outcome T E) : outcome U E :=
  match c with
  | Ok t => Ok (f t)
  | Err e => Err e
  | Panic => Panic
  end.

(** [Result::map_err] *)
Definition map_err {T E F} (f : E -> F) (c : outcome T E) : outcome T F :=
  match c with
  | Ok t => Ok t
  | Err e => Err (f e)
  | Panic => Panic
  end.

(** [Option::ok_or] *)
Definition ok_or {T E} (o : option T) (e : E) : outcome T E :=
  match o with
  | Some t => Ok t
  | None => Err e
  end.

(** [Result::ok] *)
Definition outcome_ok {T E} (c : outcome T E) : option T :=
  match c with
  | Ok t => Some t
  | _ => None
  end.

Declare Scope kipuka_scope.
Delimit Scope kipuka_scope with kipuka.

Notation "'let?' x ':=' c 'in' k" := (obind c (fun x => k))
  (at level 10, x pattern at level 0, c at level 100, k at level 200)
  : kipuka_scope.
Open Scope kipuka_scope.

(** A step of a handler: the state it leaves, and its result.  What follows
    runs only after [Ok]; the state of a failure is kept. *)
Definition sbind {S T U E} (c : S * outcome T E) (k : S -> T -> S * outcome U E) : S * outcome U E :=
  match c with
  | (s, Ok t) => k s t
  | (s, Err e) => (s, Err e)
  | (s, Panic) => (s, Panic)
  end.
Notation "'let!' ( s , x ) ':=' c 'in' k" := (sbind c (fun s x => k))
  (at level 10, s name, x pattern at level 0, c at level 100, k at level 200)
  : kipuka_scope.

Lemma sbind_inv {S T U E} (c : S * outcome T E) (k : S -> T -> S * outcome U E) s' u :
  sbind c k = (s', u) ->
  (exists s t, c = (s, Ok t) /\ k s t = (s', u)) \/
  (exists o, c = (s', o) /\ (forall t, o <> Ok t) /\ forall t, u <> Ok t).
Proof.
  destruct c as [s [t|e|]]; simpl; [eauto|..]; intros [= <- <-]; right; eexists; by split_and!.
Qed.

(** Does the computation return instead of panicking? *)
Definition returns {T E} (c : outcome T E) : Prop := c <> Panic.

Lemma obind_returns {T U E} (c : outcome T E) (k : T -> outcome U E) :
  returns c -> (forall t, c = Ok t -> returns (k t)) -> returns (obind c k).
Proof. destruct c; unfold returns; simpl; naive_solver. Qed.

Lemma obind_Ok {T U E} (c : outcome T E) (k : T -> outcome U E) u :
  obind c k = Ok u <-> exists t, c = Ok t /\ k t = Ok u.
Proof. destruct c; simpl; naive_solver. Qed.

Lemma obind_Ok_1 {T U E} (c : outcome T E) (k : T -> outcome U E) u :
  obind c k = Ok u -> exists t, c = Ok t /\ k t = Ok u.
Proof. apply obind_Ok. Qed.

Lemma obind_Err_1 {T U E} (c : outcome T E) (k : T -> outcome U E) e :
  obind c k = Err e -> c = Err e \/ exists t, c = Ok t /\ k t = Err e.
Proof. destruct c; simpl; intros E'; [right; eauto|left; congruence|done]. Qed.

Lemma obind_eq {T U E} (c : outcome T E) (k : T -> outcome U E) t :
  c = Ok t -> obind c k = k t.
Proof. by intros ->. Qed.

Lemma ok_or_Ok {T E} (o : option T) (e : E) t : ok_or o e = Ok t <-> o = Some t.
Proof. destruct o; simpl; naive_solver. Qed.

Lemma map_err_Ok {T E F} (f : E -> F) (c : outcome T E) t : map_err f c = Ok t <-> c = Ok t.
Proof. destruct c; simpl; naive_solver. Qed.

Lemma ok_or_returns {T E} (o : option T) (e : E) : returns (ok_or o e).
Proof. by destruct o. Qed.

(** [ensures c P]: [c] does not panic, and what it returns satisfies [P]. *)
Definition ensures {T E} (c : outcome T E) (P : T -> Prop) : Prop :=
  match c with
  | Ok t => P t
  | Err _ => True
  | Panic => False
  end.

Lemma ensures_bind {T U E} (P : T -> Prop) (Q : U -> Prop)
    (c : outcome T E) (k : T -> outcome U E) :
  ensures c P -> (forall t, P t -> ensures (k t) Q) -> ensures (obind c k) Q.
Proof. destruct c; simpl; auto. Qed.

Lemma ensures_mono {T E} (P Q : T -> Prop) (c : outcome T E) :
  ensures c P -> (forall t, P t -> Q t) -> ensures c Q.
Proof. destruct c; simpl; auto. Qed.

Lemma ensures_returns {T E} (P : T -> Prop) (c : outcome T E) : ensures c P -> returns c.
Proof. unfold returns. by destruct c. Qed.

Lemma ensures_Ok {T E} (P : T -> Prop) (c : outcome T E) t : ensures c P -> c = Ok t -> P t.
Proof. by intros H ->. Qed.

Lemma ensures_ok_or {T E} (P : T -> Prop) (o : option T) (e : E) :
  (forall t, o = Some t -> P t) -> ensures (ok_or o e) P.
Proof. destruct o; simpl; auto. Qed.

(** ** Automation *)

Create HintDb kipuka.
#[export] Hint Resolve obind_returns ok_or_returns : kipuka.

(** [inv_ok H]: decompose [H : obind c k = Ok u] into its steps. *)
Ltac inv_ok H :=
  let t := fresh "t" in let H1 := fresh "H" in
  apply obind_Ok_1 in H; destruct H as (t & H1 & H).

(** The same, one step, with the names given. *)
Tactic Notation "take_ok" hyp(H) "as" ident(t) ident(E) :=
  apply obind_Ok_1 in H; destruct H as (t & E & H).

(** Case analysis on every [if] and [match] scrutinee of the goal (of a
    hypothesis), keeping the equations and closing the absurd branches. *)
Ltac split_cases := repeat (case_match; simplify_eq/=; try done).
Ltac case_in H :=
  match type of H with
  | context [match ?x with _ => _ end] =>
      lazymatch x with context [match _ with _ => _ end] => fail | _ => destruct x eqn:? end
  end.
Ltac split_cases_in H := repeat (case_in H; simplify_eq/=; try done).

(** Boolean tests as propositions. *)
Ltac breflect :=
  repeat match goal with
  | H : negb _ = true |- _ => apply negb_true_iff in H
  | H : negb _ = false |- _ => apply negb_false_iff in H
  | H : (_ && _)%bool = true |- _ => apply andb_true_iff in H as [? ?]
  | H : (_ || _)%bool = false |- _ => apply orb_false_iff in H as [? ?]
  | H : (_ && _)%bool = false |- _ => apply andb_false_iff in H
  | H : (_ || _)%bool = true |- _ => apply orb_true_iff in H
  | H : (_ <? _)%Z = true |- _ => apply Z.ltb_lt in H
  | H : (_ <? _)%Z = false |- _ => apply Z.ltb_ge in H
  | H : (_ <=? _)%Z = true |- _ => apply Z.leb_le in H
  | H : (_ <=? _)%Z = false |- _ => apply Z.leb_gt in H
  | H : (_ =? _)%Z = true |- _ => apply Z.eqb_eq in H
  | H : (_ =? _)%Z = false |- _ => apply Z.eqb_neq in H
  | H : (_ <? _)%nat = true |- _ => apply Nat.ltb_lt in H
  | H : (_ <? _)%nat = false |- _ => apply Nat.ltb_ge in H
  | H : (_ <=? _)%nat = true |- _ => apply Nat.leb_le in H
  | H : (_ <=? _)%nat = false |- _ => apply Nat.leb_gt in H
  | H : (_ =? _)%nat = true |- _ => apply Nat.eqb_eq in H
  | H : (_ =? _)%nat = false |- _ => apply Nat.eqb_neq in H
  | H : bool_decide _ = true |- _ => apply bool_decide_eq_true in H
  | H : bool_decide _ = false |- _ => apply bool_decide_eq_false in H
  end.
Ltac blia := breflect; simpl in *; lia.

(** ** [HashMap] and [Vec] helpers *)

(** [HashMap::retain] *)
Definition map_retain `{Countable K} {V} (p : K -> V -> bool) (m : gmap K V) : gmap K V :=
  filter (fun kv => p kv.1 kv.2 = true) m.

Section MapRetain.
Context `{Countable K} {V : Type}.
Implicit Types (m : gmap K V) (p : K -> V -> bool).

Lemma map_retain_lookup_Some p m k v :
  map_retain p m !! k = Some v <-> m !! k = Some v /\ p k v = true.
Proof. unfold map_retain. by rewrite map_lookup_filter_Some. Qed.

Lemma map_retain_lookup_None p m k :
  map_retain p m !! k = None <->
  m !! k = None \/ exists v, m !! k = Some v /\ p k v = false.
Proof.
  unfold map_retain. rewrite map_lookup_filter_None. split.
  - intros [?|Hp]; [by left|]. destruct (m !! k) as [v|] eqn:E; [|by left].
    right. exists v. split; [done|]. apply not_true_is_false. by apply Hp.
  - intros [?|(v & Hv & Hp)]; [by left|]. right. intros w Hw. simpl. congruence.
Qed.

Lemma map_retain_subseteq p m : map_retain p m ⊆ m.
Proof. apply map_filter_subseteq. Qed.

Lemma map_retain_size_le p m : (size (map_retain p m) <= size m)%nat.
Proof.
  rewrite <- !size_dom. apply subseteq_size, subseteq_dom, map_retain_subseteq.
Qed.

Lemma map_retain_all p m :
  (forall k v, m !! k = Some v -> p k v = true) -> map_retain p m = m.
Proof.
  intros Hp. apply map_eq. intros k.
  destruct (m !! k) as [v|] eqn:E.
  - apply map_retain_lookup_Some. naive_solver.
  - apply map_retain_lookup_None. by left.
Qed.

Lemma size_insert_le m k v : (size (<[k:=v]> m) <= S (size m))%nat.
Proof. rewrite map_size_insert. case_match; simpl; lia. Qed.

Lemma size_insert_some m k v w : m !! k = Some w -> size (<[k:=v]> m) = size m.
Proof. intros E. rewrite map_size_insert. by rewrite E. Qed.

Lemma size_delete_le m k : (size (delete k m) <= size m)%nat.
Proof. rewrite map_size_delete. case_match; simpl; lia. Qed.
End MapRetain.

#[export] Hint Resolve map_retain_size_le size_delete_le : kipuka.

(** [Iterator::min_by_key] keeps the first of several minima. *)
Fixpoint min_by_key {A} (key : A -> Z) (l : list A) : option A :=
  match l with
  | [] => None
  | x :: l' =>
      match min_by_key key l' with
      | Some y => if (key x <=? key y)%Z then Some x else Some y
      | None => Some x
      end
  end.

Lemma min_by_key_Some {A} (key : A -> Z) l x : min_by_key key l = Some x ->
  x ∈ l /\ forall y, y ∈ l -> (key x <= key y)%Z.
Proof.
  revert x. induction l as [|a l IH]; simpl; [done|]. intros x E.
  destruct (min_by_key key l) as [y|] eqn:Ey.
  - destruct (IH y eq_refl) as [Hin Hmin].
    destruct (Z.leb_spec (key a) (key y)); injection E as <-.
    + split; [by left|]. intros z Hz. apply elem_of_cons in Hz as [->|Hz]; [lia|].
      specialize (Hmin z Hz). lia.
    + split; [by right|]. intros z Hz. apply elem_of_cons in Hz as [->|Hz]; [lia|by auto].
  - injection E as <-. destruct l as [|b l]; [|simpl in Ey; repeat case_match; done].
    split; [by left|]. intros z Hz. apply elem_of_cons in Hz as [->|Hz]; [lia|].
    by apply elem_of_nil in Hz.
Qed.

Lemma min_by_key_None {A} (key : A -> Z) l : min_by_key key l = None -> l = [].
Proof. destruct l; simpl; [done|]. repeat case_match; done. Qed.

Lemma min_by_key_first {A} (key : A -> Z) l x : min_by_key key l = Some x ->
  exists l1 l2, l = l1 ++ x :: l2 /\ forall y, y ∈ l1 -> (key x < key y)%Z.
Proof.
  revert x. induction l as [|a l IH]; simpl; [done|]. intros x E.
  destruct (min_by_key key l) as [y|] eqn:Ey.
  - destruct (IH y eq_refl) as (l1 & l2 & -> & Hl1).
    destruct (Z.leb_spec (key a) (key y)); injection E as <-.
    + exists [], (l1 ++ y :: l2). split; [done|]. by intros z ?%elem_of_nil.
    + exists (a :: l1), l2. split; [done|]. intros z Hz.
      apply elem_of_cons in Hz as [->|Hz]; [lia|by auto].
  - injection E as <-. exists [], l. split; [done|]. by intros z ?%elem_of_nil.
Qed.

(** [n] consecutive values of a sequence.  When the sequence is periodic with
    period [n], any [n] of them are one period up to order. *)
Definition window {A} (f : Z -> A) (start : Z) (n : nat) : list A :=
  map (fun i => f (start + Z.of_nat i)%Z) (seq 0 n).

Lemma window_ext {A} (f g : Z -> A) s t n :
  (forall i, (i < n)%nat -> f (s + Z.of_nat i)%Z = g (t + Z.of_nat i)%Z) ->
  window f s n = window g t n.
Proof. intros H. apply map_ext_in. intros i Hi%in_seq. apply H. lia. Qed.

Lemma window_app {A} (f : Z -> A) s n m :
  window f s (n + m) = window f s n ++ window f (s + Z.of_nat n) m.
Proof.
  unfold window. rewrite seq_app, map_app. f_equal. simpl.
  apply list_eq. intros i. rewrite !list_lookup_fmap.
  destruct (decide (i < m)%nat).
  - rewrite !lookup_seq_lt by done. simpl. do 2 f_equal. lia.
  - by rewrite !lookup_seq_ge by lia.
Qed.

Lemma window_rotate {A} (f : Z -> A) start n :
  (0 <= start)%Z -> (forall z, (0 <= z)%Z -> f (z + Z.of_nat n)%Z = f z) ->
  window f start n ≡ₚ window f 0 n.
Proof.
  intros Hs Hf. revert start Hs. apply natlike_ind; [done|]. intros z Hz IH.
  rewrite <- IH. destruct n as [|n]; [done|].
  change (S n) with (1 + n)%nat at 2. rewrite (window_app f z 1 n).
  replace (S n) with (n + 1)%nat by lia.
  rewrite (window_app f (Z.succ z) n 1). rewrite Permutation_app_comm.
  replace (z + Z.of_nat 1)%Z with (Z.succ z) by lia. apply Permutation_app_tail.
  unfold window. simpl. rewrite !Z.add_0_r, <- (Hf z) by done.
  by replace (z + Z.of_nat (S n))%Z with (Z.succ z + Z.of_nat n)%Z by lia.
Qed.

(** Repeated application, for runs of a deterministic step over inputs. *)
Fixpoint run_steps {S I} (step : S -> I -> S) (s : S) (l : list I) : S :=
  match l with
  | [] => s
  | i :: l' => run_steps step (step s i) l'
  end.

(** An invariant of every step is an invariant of every run. *)
Lemma run_steps_inv {S I} (step : S -> I -> S) (P : S -> Prop) s l :
  (forall s i, P s -> P (step s i)) -> P s -> P (run_steps step s l).
Proof. intros Hstep. revert s. induction l as [|i l IH]; simpl; auto. Qed.

Lemma run_steps_app {S I} (step : S -> I -> S) s l1 l2 :
  run_steps step s (l1 ++ l2) = run_steps step (run_steps step s l1) l2.
Proof. revert s. induction l1 as [|i l1 IH]; simpl; auto. Qed.

(** [List.find] gives the first element that satisfies the test. *)
Lemma find_first {A} (f : A -> bool) (l : list A) :
  (exists k x, List.find f l = Some x /\ l !! k = Some x /\ f x = true /\
     forall j, (j < k)%nat -> exists y, l !! j = Some y /\ f y = false) \/
  (List.find f l = None /\ forall x, In x l -> f x = false).
Proof.
  induction l as [|a l IH]; simpl; [by right|]. destruct (f a) eqn:Ea.
  - left. exists 0%nat, a. split_and!; [done..|lia].
  - destruct IH as [(k & x & -> & Hk & Hx & Hj)|[-> Hn]].
    + left. exists (S k), x. split_and!; [done..|]. intros [|j] Hlt; [by exists a|].
      apply Hj. lia.
    + right. split; [done|]. by intros x [<-|Hx]; [|apply Hn].
Qed.
