(* ===== verification/Words.v ===== *)
(** * Machine integers and byte strings

    Rust's unsigned integers are [Z] with their range as a predicate and
    their wrap-around written out; a [Vec<u8>] is a [list Z]. *)
From S2P Require Import Prelude.
Open Scope Z_scope.

Definition u8 (z : Z) : Prop := 0 <= z < 2 ^ 8.
Definition u16 (z : Z) : Prop := 0 <= z < 2 ^ 16.
Definition u32 (z : Z) : Prop := 0 <= z < 2 ^ 32.
Definition u64 (z : Z) : Prop := 0 <= z < 2 ^ 64.

(** [as u8], [as u16], ...: truncation. *)
Definition as_u8 (z : Z) : Z := z mod 2 ^ 8.
Definition as_u16 (z : Z) : Z := z mod 2 ^ 16.
Definition as_u32 (z : Z) : Z := z mod 2 ^ 32.
Definition as_u64 (z : Z) : Z := z mod 2 ^ 64.
(** [as i64] on an unsigned value. *)
Definition as_i64 (z : Z) : Z := (z + 2 ^ 63) mod 2 ^ 64 - 2 ^ 63.

(** [u16::checked_add] *)
Definition checked_add_u16 (a b : Z) : option Z :=
  if a + b <? 2 ^ 16 then Some (a + b) else None.

Abbreviation bytes := (list Z).

(** ** Time

    An [Instant] and a [Duration] are nanoseconds. *)
Definition SECS : Z := 1000000000.
(** [Instant::elapsed], [Instant::duration_since]: saturating at zero. *)
Definition elapsed (now t : Z) : Z := Z.max 0 (now - t).
(** [StatusCode::is_success] *)
Definition is_success (code : Z) : bool := (200 <=? code) && (code <? 300).

(** [u16::to_be_bytes], [u16::from_be_bytes] *)
Definition u16_to_be_bytes (z : Z) : bytes := [Z.shiftr z 8; Z.land z 255].
Definition u16_from_be_bytes (hi lo : Z) : Z := Z.lor (Z.shiftl hi 8) lo.

(** ** Bit operations as arithmetic *)

Lemma land_mask x n : 0 <= n -> Z.land x (2 ^ n - 1) = x mod 2 ^ n.
Proof.
  intros Hn. replace (2 ^ n - 1) with (Z.ones n) by (rewrite Z.ones_equiv; lia).
  by apply Z.land_ones.
Qed.

Lemma lor_shiftl_add a b n :
  0 <= n -> 0 <= b < 2 ^ n -> Z.lor (Z.shiftl a n) b = a * 2 ^ n + b.
Proof.
  intros Hn Hb. rewrite <- Z.shiftl_mul_pow2 by done.
  symmetry. rewrite Z.add_nocarry_lxor, Z.lxor_lor; [done|..];
    apply Z.bits_inj'; intros i Hi; rewrite Z.land_spec, Z.bits_0;
    (destruct (decide (i < n)) as [Hlt|Hge];
      [rewrite Z.shiftl_spec_low by lia; done
      |replace b with (b mod 2 ^ n) by (apply Z.mod_small; lia);
       rewrite Z.mod_pow2_bits_high by lia; by rewrite andb_false_r]).
Qed.

Lemma land_3 x : Z.land x 3 = x mod 4.
Proof. exact (land_mask x 2 ltac:(lia)). Qed.
Lemma land_7 x : Z.land x 7 = x mod 8.
Proof. exact (land_mask x 3 ltac:(lia)). Qed.
Lemma land_15 x : Z.land x 15 = x mod 16.
Proof. exact (land_mask x 4 ltac:(lia)). Qed.
Lemma land_31 x : Z.land x 31 = x mod 32.
Proof. exact (land_mask x 5 ltac:(lia)). Qed.
Lemma land_127 x : Z.land x 127 = x mod 128.
Proof. exact (land_mask x 7 ltac:(lia)). Qed.
Lemma land_255 x : Z.land x 255 = x mod 256.
Proof. exact (land_mask x 8 ltac:(lia)). Qed.

Lemma shiftr_div x n : 0 <= n -> Z.shiftr x n = x / 2 ^ n.
Proof. apply Z.shiftr_div_pow2. Qed.

Create Rewrite HintDb words.
#[export] Hint Rewrite land_3 land_7 land_15 land_31 land_127 land_255 : words.
#[export] Hint Rewrite Z.shiftl_mul_pow2 Z.shiftr_div_pow2 using lia : words.


(** Turn masks and shifts by constants into [mod] and [/], powers of two
    into numerals, and finish with [lia]. *)
Ltac pow_consts :=
  change (2 ^ 1) with 2 in *; change (2 ^ 2) with 4 in *;
  change (2 ^ 3) with 8 in *; change (2 ^ 4) with 16 in *;
  change (2 ^ 5) with 32 in *; change (2 ^ 6) with 64 in *;
  change (2 ^ 7) with 128 in *; change (2 ^ 8) with 256 in *;
  change (2 ^ 16) with 65536 in *; change (2 ^ 24) with 16777216 in *;
  change (2 ^ 28) with 268435456 in *; change (2 ^ 32) with 4294967296 in *;
  change (2 ^ 63) with 9223372036854775808 in *;
  change (2 ^ 64) with 18446744073709551616 in *.
Ltac words_norm :=
  unfold as_u8, as_u16, as_u32, as_u64, as_i64, u8, u16, u32, u64 in *;
  autorewrite with words in *; pow_consts.
Ltac word_lia := words_norm; Z.div_mod_to_equations; lia.

Lemma u16_be_roundtrip z : u16 z ->
  u16_from_be_bytes (Z.shiftr z 8) (Z.land z 255) = z.
Proof.
  intros Hz. unfold u16_from_be_bytes. rewrite land_255.
  rewrite lor_shiftl_add by (try apply Z.mod_pos_bound; lia). word_lia.
Qed.

Lemma u16_from_be_bytes_range hi lo : u8 hi -> u8 lo -> u16 (u16_from_be_bytes hi lo).
Proof.
  intros Hh Hl. unfold u16_from_be_bytes. rewrite lor_shiftl_add by (words_norm; lia). word_lia.
Qed.

Lemma u16_to_be_bytes_range z : u16 z -> Forall u8 (u16_to_be_bytes z).
Proof. intros Hz. unfold u16_to_be_bytes. repeat constructor; word_lia. Qed.

Lemma as_u8_range z : u8 (as_u8 z).
Proof. apply Z.mod_pos_bound. lia. Qed.
Lemma as_u16_range z : u16 (as_u16 z).
Proof. apply Z.mod_pos_bound. lia. Qed.
Lemma as_u32_range z : u32 (as_u32 z).
Proof. apply Z.mod_pos_bound. lia. Qed.
#[export] Hint Resolve as_u8_range as_u16_range as_u32_range u16_to_be_bytes_range : kipuka.

(** * Doubles

    Rust's [f64] is the Standard Library's [spec_float] at 53 bits of
    precision, with the casts and comparisons the program uses. *)
From Stdlib Require Import SpecFloat.

Open Scope Z_scope.

Definition f64 : Type := spec_float.
Definition f64_prec : Z := 53.
Definition f64_emax : Z := 1024.
Definition f64_zero : f64 := S754_zero false.
(** [as f64] on an integer: round to nearest, ties to even. *)
Definition f64_of_Z (z : Z) : f64 := binary_normalize f64_prec f64_emax z 0 false.
Definition f64_add : f64 -> f64 -> f64 := SFadd f64_prec f64_emax.
Definition f64_sub : f64 -> f64 -> f64 := SFsub f64_prec f64_emax.
Definition f64_mul : f64 -> f64 -> f64 := SFmul f64_prec f64_emax.
Definition f64_div : f64 -> f64 -> f64 := SFdiv f64_prec f64_emax.

(** The doubles nearest to some decimals. *)
Definition f64_0_1 : f64 := S754_finite false 7205759403792794 (-56).
Definition f64_0_3 : f64 := S754_finite false 5404319552844595 (-54).
Definition f64_0_5 : f64 := S754_finite false 4503599627370496 (-53).
Definition f64_0_7 : f64 := S754_finite false 6305039478318694 (-53).
Definition f64_0_9 : f64 := S754_finite false 8106479329266893 (-53).

Definition f64_gt (a b : f64) : bool :=
  match SFcompare a b with Some Gt => true | _ => false end.
Definition f64_leb (a b : f64) : bool :=
  match SFcompare a b with Some (Lt | Eq) => true | _ => false end.

(** Rounding towards zero. *)
Definition f64_trunc (x : f64) : Z :=
  match x with
  | S754_finite s m e =>
      let a := if 0 <=? e then Zpos m * 2 ^ e else Zpos m / 2 ^ (- e) in
      if s then - a else a
  | _ => 0
  end.

(** [as i64], [as u64]: saturating, zero for a NaN. *)
Definition f64_as_i64 (x : f64) : Z :=
  match x with
  | S754_infinity true => - 2 ^ 63
  | S754_infinity false => 2 ^ 63 - 1
  | _ => Z.max (- 2 ^ 63) (Z.min (2 ^ 63 - 1) (f64_trunc x))
  end.
Definition f64_as_u64 (x : f64) : Z :=
  match x with
  | S754_infinity true => 0
  | S754_infinity false => 2 ^ 64 - 1
  | _ => Z.max 0 (Z.min (2 ^ 64 - 1) (f64_trunc x))
  end.

(** [x.floor().max(1.0) as u64]: below one, and for a NaN, it is one; from
    one on the floor is the truncation. *)
Definition f64_floor_max_1 (x : f64) : Z := Z.max 1 (f64_as_u64 x).

Lemma f64_as_i64_range x : - 2 ^ 63 <= f64_as_i64 x < 2 ^ 63.
Proof. unfold f64_as_i64. repeat case_match; lia. Qed.
Lemma f64_as_u64_range x : u64 (f64_as_u64 x).
Proof. unfold f64_as_u64, u64. repeat case_match; lia. Qed.
