(* ===== verification/Text.v ===== *)
(** * Rust strings

    A [str] is a [string] whose characters are its UTF-8 bytes.  The
    functions are those of Rust's [str] that the program calls; each is
    byte-wise except [trim], which removes the code points with the
    Unicode White_Space property. *)
From S2P Require Import Prelude Words.
Open Scope Z_scope.

#[global] Arguments String.append !_ _ / : simpl nomatch.

Definition byte_of (c : Ascii.ascii) : Z := Z.of_N (Ascii.N_of_ascii c).

Definition byte_to_ascii (b : Z) : Ascii.ascii := Ascii.ascii_of_N (Z.to_N b).

(** Strings from and to byte vectors. *)
Fixpoint string_of_bytes (bs : bytes) : string :=
  match bs with
  | [] => EmptyString
  | b :: r => String (byte_to_ascii b) (string_of_bytes r)
  end.

Fixpoint bytes_of_string (s : string) : bytes :=
  match s with
  | EmptyString => []
  | String c r => byte_of c :: bytes_of_string r
  end.

(** ** Case *)

Definition ascii_lower (c : Ascii.ascii) : Ascii.ascii :=
  let n := byte_of c in
  if (65 <=? n) && (n <=? 90) then byte_to_ascii (n + 32) else c.

(** [str::to_ascii_lowercase] *)
Fixpoint to_ascii_lowercase (s : string) : string :=
  match s with
  | EmptyString => EmptyString
  | String c r => String (ascii_lower c) (to_ascii_lowercase r)
  end.

(** [str::eq_ignore_ascii_case] *)
Definition eq_ignore_ascii_case (a b : string) : bool :=
  bool_decide (to_ascii_lowercase a = to_ascii_lowercase b).

(** ** Searching and splitting *)

(** [str::is_empty] *)
Definition is_empty (s : string) : bool :=
  match s with EmptyString => true | _ => false end.

(** [str::strip_prefix], [str::starts_with] *)
Fixpoint strip_prefix (p s : string) : option string :=
  match p, s with
  | EmptyString, _ => Some s
  | String a p', String b s' => if decide (a = b) then strip_prefix p' s' else None
  | String _ _, EmptyString => None
  end.
Definition starts_with (p s : string) : bool :=
  match strip_prefix p s with Some _ => true | None => false end.

(** [str::strip_suffix] *)
Fixpoint strip_suffix (suf s : string) : option string :=
  if decide (s = suf) then Some EmptyString else
  match s with
  | EmptyString => None
  | String a s' => option_map (String a) (strip_suffix suf s')
  end.

(** [str::contains] of a character and of a string. *)
Fixpoint contains_char (c : Ascii.ascii) (s : string) : bool :=
  match s with
  | EmptyString => false
  | String a s' => bool_decide (a = c) || contains_char c s'
  end.
Fixpoint contains_str (p s : string) : bool :=
  starts_with p s ||
  match s with EmptyString => false | String _ s' => contains_str p s' end.

(** [str::split_once] at the first occurrence of a character. *)
Fixpoint split_once (c : Ascii.ascii) (s : string) : option (string * string) :=
  match s with
  | EmptyString => None
  | String a s' =>
      if decide (a = c) then Some (EmptyString, s')
      else option_map (fun lr => (String a lr.1, lr.2)) (split_once c s')
  end.

(** [str::split] at every occurrence of a character: never empty. *)
Fixpoint split_char (c : Ascii.ascii) (s : string) : list string :=
  match s with
  | EmptyString => [EmptyString]
  | String a s' =>
      if decide (a = c) then EmptyString :: split_char c s'
      else match split_char c s' with
           | x :: xs => String a x :: xs
           | [] => [String a EmptyString]
           end
  end.

(** ["..".join(sep)] *)
Fixpoint join (sep : string) (l : list string) : string :=
  match l with
  | [] => EmptyString
  | [x] => x
  | x :: xs => x +:+ sep +:+ join sep xs
  end.

(** ** Trimming *)

(** [trim_start_matches], [trim_end_matches], [trim_matches] of a character. *)
Fixpoint trim_start_char (c : Ascii.ascii) (s : string) : string :=
  match s with
  | EmptyString => EmptyString
  | String a s' => if decide (a = c) then trim_start_char c s' else s
  end.
Fixpoint trim_end_char (c : Ascii.ascii) (s : string) : string :=
  match s with
  | EmptyString => EmptyString
  | String a s' =>
      let r := trim_end_char c s' in
      if is_empty r && bool_decide (a = c) then EmptyString else String a r
  end.
Definition trim_char (c : Ascii.ascii) (s : string) : string :=
  trim_end_char c (trim_start_char c s).

(** [trim_start_matches] of a (non-empty) string: the prefix is removed
    as often as it occurs, at most once per byte. *)
Fixpoint trim_start_str_fuel (fuel : nat) (p s : string) : string :=
  match fuel with
  | O => s
  | S f => match strip_prefix p s with
           | Some s' => trim_start_str_fuel f p s'
           | None => s
           end
  end.
Definition trim_start_str (p s : string) : string :=
  trim_start_str_fuel (String.length s) p s.

(** Strip one leading White_Space code point of a UTF-8 string. *)
Definition strip_whitespace (s : string) : option string :=
  match s with
  | String a0 r =>
      let b0 := byte_of a0 in
      if ((9 <=? b0) && (b0 <=? 13)) || (b0 =? 32) then Some r
      else match r with
      | String a1 r1 =>
          let b1 := byte_of a1 in
          if (b0 =? 194) && ((b1 =? 133) || (b1 =? 160)) then Some r1
          else match r1 with
          | String a2 r2 =>
              let b2 := byte_of a2 in
              if ((b0 =? 225) && (b1 =? 154) && (b2 =? 128))
                 || ((b0 =? 226) && (b1 =? 128) &&
                     (((128 <=? b2) && (b2 <=? 138)) || (b2 =? 168) || (b2 =? 169) || (b2 =? 175)))
                 || ((b0 =? 226) && (b1 =? 129) && (b2 =? 159))
                 || ((b0 =? 227) && (b1 =? 128) && (b2 =? 128))
              then Some r2 else None
          | EmptyString => None
          end
      | EmptyString => None
      end
  | EmptyString => None
  end.
Fixpoint trim_start_fuel (fuel : nat) (s : string) : string :=
  match fuel with
  | O => s
  | S f => match strip_whitespace s with
           | Some s' => trim_start_fuel f s'
           | None => s
           end
  end.
Definition trim_start (s : string) : string := trim_start_fuel (String.length s) s.
(** No White_Space encoding starts with a continuation byte, so cutting at
    the first byte position from which only white space follows cuts at a
    character boundary. *)
Fixpoint trim_end (s : string) : string :=
  match s with
  | EmptyString => EmptyString
  | String a s' => if is_empty (trim_start s) then EmptyString else String a (trim_end s')
  end.
(** [str::trim] *)
Definition trim (s : string) : string := trim_end (trim_start s).

(** ** UTF-8 *)

Definition in_range (lo hi b : Z) : bool := (lo <=? b) && (b <=? hi).

(** The well-formed byte sequences of the Unicode standard (table 3-7):
    no overlong forms, no surrogates, nothing above U+10FFFF. *)
Fixpoint utf8_valid (bs : bytes) : bool :=
  match bs with
  | [] => true
  | b0 :: r0 =>
      if b0 <? 128 then utf8_valid r0
      else match r0 with
      | [] => false
      | b1 :: r1 =>
          if in_range 194 223 b0 then in_range 128 191 b1 && utf8_valid r1
          else match r1 with
          | [] => false
          | b2 :: r2 =>
              if b0 =? 224 then in_range 160 191 b1 && in_range 128 191 b2 && utf8_valid r2
              else if b0 =? 237 then in_range 128 159 b1 && in_range 128 191 b2 && utf8_valid r2
              else if in_range 225 239 b0
                   then in_range 128 191 b1 && in_range 128 191 b2 && utf8_valid r2
              else match r2 with
              | [] => false
              | b3 :: r3 =>
                  if b0 =? 240 then in_range 144 191 b1 && in_range 128 191 b2
                                    && in_range 128 191 b3 && utf8_valid r3
                  else if b0 =? 244 then in_range 128 143 b1 && in_range 128 191 b2
                                    && in_range 128 191 b3 && utf8_valid r3
                  else in_range 241 243 b0 && in_range 128 191 b1 && in_range 128 191 b2
                       && in_range 128 191 b3 && utf8_valid r3
              end
          end
      end
  end.

(** [std::str::from_utf8] *)
Definition from_utf8 (bs : bytes) : option string :=
  if utf8_valid bs then Some (string_of_bytes bs) else None.

(** [String::from_utf8_lossy]: each longest piece of a character that is cut
    off, and each byte that begins none, becomes U+FFFD. *)
Definition REPLACEMENT : bytes := [239; 191; 189].
Definition continuation : Z -> bool := in_range 128 191.
Definition second_of_three (b c : Z) : bool :=
  ((b =? 224) && in_range 160 191 c) || (in_range 225 236 b && continuation c)
  || ((b =? 237) && in_range 128 159 c) || (in_range 238 239 b && continuation c).
Definition second_of_four (b c : Z) : bool :=
  ((b =? 240) && in_range 144 191 c) || (in_range 241 243 b && continuation c)
  || ((b =? 244) && in_range 128 143 c).
Fixpoint utf8_lossy (bs : bytes) : bytes :=
  match bs with
  | [] => []
  | b :: r =>
      if b <? 128 then b :: utf8_lossy r
      else if in_range 194 223 b then
        match r with
        | c :: r' => if continuation c then b :: c :: utf8_lossy r' else REPLACEMENT ++ utf8_lossy r
        | [] => REPLACEMENT
        end
      else if in_range 224 239 b then
        match r with
        | c :: r' =>
            if second_of_three b c then
              match r' with
              | d :: r'' =>
                  if continuation d then b :: c :: d :: utf8_lossy r'' else REPLACEMENT ++ utf8_lossy r'
              | [] => REPLACEMENT
              end
            else REPLACEMENT ++ utf8_lossy r
        | [] => REPLACEMENT
        end
      else if in_range 240 244 b then
        match r with
        | c :: r' =>
            if second_of_four b c then
              match r' with
              | d :: r'' =>
                  if continuation d then
                    match r'' with
                    | e :: r3 =>
                        if continuation e then b :: c :: d :: e :: utf8_lossy r3 else REPLACEMENT ++ utf8_lossy r''
                    | [] => REPLACEMENT
                    end
                  else REPLACEMENT ++ utf8_lossy r'
              | [] => REPLACEMENT
              end
            else REPLACEMENT ++ utf8_lossy r
        | [] => REPLACEMENT
        end
      else REPLACEMENT ++ utf8_lossy r
  end.
Definition from_utf8_lossy (bs : bytes) : string := string_of_bytes (utf8_lossy bs).

(** [str::lines]: a carriage return before the end of the line goes too. *)
Definition without_cr (s : string) : string :=
  match strip_suffix (String "013" EmptyString) s with Some r => r | None => s end.
Definition lines (s : string) : list string :=
  let l := split_char "010" s in
  map without_cr (removelast l) ++ match last l with Some EmptyString | None => [] | Some rest => [rest] end.
(** [str::find] of a pattern that is not empty: what is before it and after it. *)
Fixpoint split_once_str (p s : string) : option (string * string) :=
  match strip_prefix p s with
  | Some r => Some (EmptyString, r)
  | None =>
      match s with
      | EmptyString => None
      | String c s =>
          match split_once_str p s with Some (a, b) => Some (String c a, b) | None => None end
      end
  end.

(** [FromStr] of an unsigned integer type with the maximum [max]: an
    optional sign [+], then digits; a digit is looked at before its overflow. *)
Definition digit_value (c : Ascii.ascii) : option Z :=
  let b := byte_of c in if in_range 48 57 b then Some (b - 48) else None.
Fixpoint parse_digits (max acc : Z) (s : string) : outcome Z string :=
  match s with
  | EmptyString => Ok acc
  | String c s' =>
      match digit_value c with
      | None => Err "invalid digit found in string"
      | Some d =>
          if max <? acc * 10 + d then Err "number too large to fit in target type"
          else parse_digits max (acc * 10 + d) s'
      end
  end.
Definition parse_unsigned (max : Z) (s : string) : outcome Z string :=
  match s with
  | EmptyString => Err "cannot parse integer from empty string"
  | String "+" EmptyString => Err "invalid digit found in string"
  | String "+" s' => parse_digits max 0 s'
  | _ => parse_digits max 0 s
  end.

(** ** Lemmas *)

Lemma parse_digits_returns max acc s : returns (parse_digits max acc s).
Proof. revert acc. induction s as [|c s IH]; intros acc; simpl; [done|]. by repeat case_match. Qed.
Lemma parse_unsigned_returns max s : returns (parse_unsigned max s).
Proof.
  unfold parse_unsigned. repeat case_match; try done; apply parse_digits_returns.
Qed.

Lemma byte_to_ascii_of c : byte_to_ascii (byte_of c) = c.
Proof. unfold byte_to_ascii, byte_of. rewrite N2Z.id. apply Ascii.ascii_N_embedding. Qed.

Lemma byte_of_range c : u8 (byte_of c).
Proof.
  pose proof (Ascii.N_ascii_bounded c). unfold u8, byte_of. change (2 ^ 8) with 256. lia.
Qed.

Lemma string_of_bytes_of_string s : string_of_bytes (bytes_of_string s) = s.
Proof. induction s as [|c s IH]; simpl; [done|]. by rewrite byte_to_ascii_of, IH. Qed.

Lemma bytes_of_string_range s : Forall u8 (bytes_of_string s).
Proof. induction s; simpl; constructor; auto using byte_of_range. Qed.

Lemma string_app_nil_r s : s +:+ EmptyString = s.
Proof. induction s as [|c s IH]; simpl; [done|]. by rewrite IH. Qed.

Lemma string_app_assoc a b c : (a +:+ b) +:+ c = a +:+ b +:+ c.
Proof. induction a as [|x a IH]; simpl; [done|]. by rewrite IH. Qed.

Lemma string_length_app a b :
  String.length (a +:+ b) = (String.length a + String.length b)%nat.
Proof. induction a as [|x a IH]; simpl; [done|]. by rewrite IH. Qed.

Lemma string_app_inj_r a b c : a +:+ c = b +:+ c -> a = b.
Proof.
  revert b. induction a as [|x a IH]; intros [|y b] E; simpl in *.
  - done.
  - apply (f_equal String.length) in E. simpl in E. rewrite string_length_app in E. lia.
  - apply (f_equal String.length) in E. simpl in E. rewrite string_length_app in E. lia.
  - injection E as -> E. f_equal. by apply IH.
Qed.

(** *** Prefixes and suffixes *)

Lemma strip_prefix_Some p s r : strip_prefix p s = Some r <-> s = p +:+ r.
Proof.
  revert s. induction p as [|a p IH]; intros s; simpl; [naive_solver|].
  destruct s as [|b s]; [naive_solver|]. case_decide as E.
  - subst. rewrite IH. naive_solver.
  - naive_solver.
Qed.

Lemma strip_prefix_app p r : strip_prefix p (p +:+ r) = Some r.
Proof. by apply strip_prefix_Some. Qed.

Lemma starts_with_spec p s : starts_with p s = true <-> exists r, s = p +:+ r.
Proof.
  unfold starts_with. destruct (strip_prefix p s) as [r|] eqn:E.
  - apply strip_prefix_Some in E. naive_solver.
  - split; [done|]. intros [r ->]. by rewrite strip_prefix_app in E.
Qed.

Lemma strip_suffix_Some suf s r : strip_suffix suf s = Some r <-> s = r +:+ suf.
Proof.
  revert r. induction s as [|a s IH]; intros r; simpl.
  - case_decide as E; [subst; destruct r; naive_solver|].
    destruct r; simpl; naive_solver.
  - case_decide as E.
    + subst suf. split; [naive_solver|]. intros E.
      f_equal. symmetry. apply (string_app_inj_r _ _ (String a s)). by rewrite <- E.
    + destruct r as [|b r]; simpl.
      * split; [|naive_solver]. destruct (strip_suffix suf s); simpl; naive_solver.
      * destruct (strip_suffix suf s) as [t|] eqn:Et; simpl.
        -- split.
           ++ intros [= <- <-]. by rewrite (proj1 (IH t) eq_refl) at 1.
           ++ intros [= -> Es]. apply IH in Es. naive_solver.
        -- split; [done|]. intros [= -> Es]. apply IH in Es. naive_solver.
Qed.

(** *** Characters of a string *)

Lemma contains_char_app c a b :
  contains_char c (a +:+ b) = contains_char c a || contains_char c b.
Proof. induction a as [|x a IH]; simpl; [done|]. by rewrite IH, orb_assoc. Qed.

Lemma split_once_None c s : split_once c s = None <-> contains_char c s = false.
Proof.
  induction s as [|a s IH]; simpl; [done|]. case_decide as E.
  - rewrite bool_decide_eq_true_2 by done. naive_solver.
  - rewrite bool_decide_eq_false_2 by done. simpl. rewrite <- IH.
    destruct (split_once c s); simpl; naive_solver.
Qed.

Lemma split_once_Some c s l r :
  split_once c s = Some (l, r) <-> s = l +:+ String c r /\ contains_char c l = false.
Proof.
  revert l. induction s as [|a s IH]; intros l; simpl.
  - destruct l; naive_solver.
  - case_decide as E.
    + subst. destruct l as [|b l]; simpl; [naive_solver|].
      split; [naive_solver|]. intros [[= -> _] Hc].
      by rewrite bool_decide_eq_true_2 in Hc.
    + destruct l as [|b l]; simpl.
      * split; [destruct (split_once c s); naive_solver|naive_solver].
      * destruct (split_once c s) as [[l' r']|] eqn:Es; simpl.
        -- destruct (IH l') as [IH1 IH2]. split.
           ++ intros [= -> <- <-]. rewrite bool_decide_eq_false_2 by done. simpl.
              destruct (proj1 (IH l')) as [-> ?]; [done|naive_solver].
           ++ intros [[= -> ->] Hc]. rewrite bool_decide_eq_false_2 in Hc by done.
              destruct (IH l) as [_ IHl]. specialize (IHl (conj eq_refl Hc)). naive_solver.
        -- split; [done|]. intros [[= -> ->] Hc].
           rewrite bool_decide_eq_false_2 in Hc by done.
           destruct (IH l) as [_ IHl]. specialize (IHl (conj eq_refl Hc)). naive_solver.
Qed.

Lemma split_char_no_char c s : Forall (fun x => contains_char c x = false) (split_char c s).
Proof.
  induction s as [|a s IH]; simpl; [by repeat constructor|]. case_decide as E.
  - by constructor.
  - destruct (split_char c s) as [|x xs]; repeat constructor; inversion IH; subst; simpl;
      rewrite ?bool_decide_eq_false_2 by done; done.
Qed.

Lemma split_char_one c s : contains_char c s = false -> split_char c s = [s].
Proof.
  induction s as [|a s IH]; simpl; [done|]. intros H. apply orb_false_iff in H as [H1 H2].
  apply bool_decide_eq_false in H1. rewrite decide_False by done. by rewrite IH.
Qed.

Lemma split_char_cons c s t : contains_char c s = false ->
  split_char c (s +:+ String c t) = s :: split_char c t.
Proof.
  induction s as [|a s IH]; simpl; intros H; [by rewrite decide_True|].
  apply orb_false_iff in H as [H1 H2]. apply bool_decide_eq_false in H1.
  rewrite decide_False by done. by rewrite IH.
Qed.

Lemma split_char_join c l : l <> [] -> Forall (fun x => contains_char c x = false) l ->
  split_char c (join (String c EmptyString) l) = l.
Proof.
  induction l as [|x l IH]; [done|]. intros _ [Hx Hl]%Forall_cons. destruct l as [|y l].
  - by apply split_char_one.
  - change (join (String c EmptyString) (x :: y :: l))
      with (x +:+ String c (join (String c EmptyString) (y :: l))).
    rewrite split_char_cons by done. f_equal. by apply IH.
Qed.

(** * URLs

    What the program reads of the crates [url] and [percent_encoding], for
    the configuration and the URIs of keys. *)


(** A parsed URL and its parts; and the bytes of a text with its percent
    escapes replaced. *)
Class UrlLib : Type := {
  Url : Type;
  url_parse : string -> Url + string;
  url_scheme : Url -> string;
  url_host : Url -> option string;
  url_username : Url -> string;
  url_password : Url -> option string;
  url_path : Url -> string;
  url_query : Url -> option string;
  url_fragment : Url -> option string;
  percent_decode : string -> bytes
}.
