(* ===== verification/Secrets.v ===== *)
(** * Secrets of the configuration

    [src/config/secret.rs]: a secret of the configuration is a text whose
    prefix names where it is, and the resolver, which reads each field once
    and keeps the value.  The environment, files, the terminal and the
    program [keyctl] are what a resolver is given. *)
From S2P Require Import Prelude Words Text.
Open Scope Z_scope.

(** [SecretRef], a newtype of a text *)
Abbreviation SecretRef := string.

Inductive SecretBackend : Type :=
  | Env (var : string)
  | File (path : string)
  | Prompt (label : string)
  | Keyring (key : string)
  | SystemdCreds (name : string)
  | Literal (value : string).

Definition backend (s : SecretRef) : SecretBackend :=
  match strip_prefix "env:" s with
  | Some var => Env var
  | None =>
  match strip_prefix "file:" s with
  | Some path => File path
  | None =>
  match strip_prefix "prompt:" s with
  | Some label => Prompt label
  | None =>
  match strip_prefix "keyring:" s with
  | Some key => Keyring key
  | None =>
  match strip_prefix "systemd-creds:" s with
  | Some name => SystemdCreds name
  | None => Literal s
  end end end end end.

Inductive SecretError : Type :=
  | EnvNotSet (field var : string)
  | FileNotFound (field path : string)
  | FileRead (field path source : string)
  | NoTty (field : string)
  | PromptFailed (field reason : string)
  | KeyringFailed (field key reason : string)
  | SystemdCredNotFound (field name path : string).

(** [Display]; [debug] is the quoted form of a text. *)
Definition secret_error_to_string (debug : string -> string) (e : SecretError) : string :=
  match e with
  | EnvNotSet field var => field +:+ ": environment variable " +:+ debug var +:+ " is not set"
  | FileNotFound field path => field +:+ ": secret file " +:+ debug path +:+ " not found"
  | FileRead field path source => field +:+ ": secret file " +:+ debug path +:+ " read error: " +:+ source
  | NoTty field => field +:+ ": no TTY available for interactive prompt; use env: or file: instead"
  | PromptFailed field reason => field +:+ ": interactive prompt failed: " +:+ reason
  | KeyringFailed field key reason => field +:+ ": kernel keyring lookup failed for " +:+ debug key +:+ ": " +:+ reason
  | SystemdCredNotFound field name path =>
      field +:+ ": systemd credential " +:+ debug name +:+ " not found at " +:+ path
  end.

(** What a read of a file ends with. *)
Inductive FileResult : Type :=
  | Contents (s : string)
  | NotFound
  | ReadError (e : string).
(** What a run of [keyctl] ends with: it did not start, or its status and output. *)
Inductive CommandResult : Type :=
  | NotStarted (e : string)
  | Exited (success : bool) (status : string) (stdout : bytes).

Record SecretWorld : Type := MkSecretWorld {
  sw_env : string -> option string;
  sw_file : string -> FileResult;
  sw_interactive : bool;
  sw_prompt : string -> string + string;
  sw_keyctl_pipe : string -> CommandResult;
  sw_keyctl_padd : string -> string -> CommandResult;
  sw_utf8_error : bytes -> string
}.

(** [read_keyring] on Linux *)
Definition read_keyring (w : SecretWorld) (field key : string) : outcome string SecretError :=
  match sw_keyctl_pipe w ("%user:" +:+ key) with
  | NotStarted e => Err (KeyringFailed field key ("failed to run keyctl: " +:+ e))
  | Exited false _ _ => Err (KeyringFailed field key "key not found in session keyring")
  | Exited true _ out =>
      ok_or (from_utf8 out)
        (KeyringFailed field key ("keyring value is not valid UTF-8: " +:+ sw_utf8_error w out))
  end.

(** The match on the backend in [resolve]. *)
Definition read_secret (w : SecretWorld) (field : string) (s : SecretRef) : outcome string SecretError :=
  match backend s with
  | Env var =>
      if is_empty var then Err (EnvNotSet field "(empty — env: prefix requires a variable name)")
      else ok_or (sw_env w var) (EnvNotSet field var)
  | File path =>
      if is_empty path then Err (FileNotFound field "(empty — file: prefix requires a path)")
      else
        match sw_file w path with
        | Contents c => Ok (trim_end c)
        | NotFound => Err (FileNotFound field path)
        | ReadError e => Err (FileRead field path e)
        end
  | Prompt label =>
      if negb (sw_interactive w) then Err (NoTty field)
      else
        match sw_prompt w ("Enter " +:+ label +:+ ": ") with
        | inl v => Ok v
        | inr e => Err (PromptFailed field e)
        end
  | Keyring key => read_keyring w field key
  | SystemdCreds name =>
      let creds_dir := default "/run/credentials/kipuka.service" (sw_env w "CREDENTIALS_DIRECTORY") in
      let path := creds_dir +:+ "/" +:+ name in
      match sw_file w path with
      | Contents c => Ok (trim_end c)
      | _ => Err (SystemdCredNotFound field name path)
      end
  | Literal value => Ok value
  end.

(** The resolver's cache, by field. *)
Abbreviation SecretCache := (gmap string string).

(** [SecretResolver::resolve] *)
Definition resolve_secret (w : SecretWorld) (cache : SecretCache) (field : string) (s : SecretRef)
  : SecretCache * outcome string SecretError :=
  if is_empty s then (cache, Ok EmptyString)
  else
    match cache !! field with
    | Some v => (cache, Ok v)
    | None =>
        match read_secret w field s with
        | Ok v => (<[field := v]> cache, Ok v)
        | Err e => (cache, Err e)
        | Panic => (cache, Panic)
        end
    end.

(** [store_keyring] on Linux *)
Definition store_keyring (w : SecretWorld) (key value : string) : outcome unit SecretError :=
  match sw_keyctl_padd w key value with
  | Exited true _ _ => Ok tt
  | Exited false status _ => Err (KeyringFailed key key ("keyctl exited with " +:+ status))
  | NotStarted e => Err (KeyringFailed key key ("failed to run keyctl: " +:+ e))
  end.

(** ** Lemmas *)

(** The text before the first colon decides: no two prefixes fit. *)
Lemma backend_total s :
  match backend s with
  | Env var => s = "env:" +:+ var
  | File path => s = "file:" +:+ path
  | Prompt label => s = "prompt:" +:+ label
  | Keyring key => s = "keyring:" +:+ key
  | SystemdCreds name => s = "systemd-creds:" +:+ name
  | Literal value => s = value
  end.
Proof.
  unfold backend.
  repeat match goal with |- context [strip_prefix ?p s] => destruct (strip_prefix p s) eqn:?E end; try done;
    by apply strip_prefix_Some.
Qed.

Lemma read_secret_returns w field s : returns (read_secret w field s).
Proof.
  unfold read_secret, read_keyring. destruct (backend s); repeat case_match; try done; apply ok_or_returns.
Qed.

(** A field's value is the one that was read first. *)
Lemma resolve_secret_spec w cache field s cache' r :
  resolve_secret w cache field s = (cache', r) ->
  r <> Panic /\ cache ⊆ cache' /\
  match r with
  | Ok v => (s = EmptyString /\ v = EmptyString /\ cache' = cache) \/
            (s <> EmptyString /\ cache' !! field = Some v /\
             (cache !! field = Some v \/ cache !! field = None /\ read_secret w field s = Ok v))
  | _ => cache' = cache /\ cache !! field = None /\ read_secret w field s = r
  end.
Proof.
  unfold resolve_secret. destruct (is_empty s) eqn:Es.
  { intros [= <- <-]. destruct s; [|done]. split_and!; [done|done|by left]. }
  assert (Hs : s <> EmptyString) by (by intros ->).
  destruct (cache !! field) as [v|] eqn:Ec; [intros [= <- <-]; split_and!; [done|done|right; auto]|].
  pose proof (read_secret_returns w field s) as Hr.
  destruct (read_secret w field s) as [v|e|] eqn:E; [|intros [= <- <-]; by split_and!|done].
  intros [= <- <-]. split_and!; [done|by apply insert_subseteq|]. right. split; [done|].
  rewrite lookup_insert_eq. auto.
Qed.
