(* ===== verification/CoapBlock.v ===== *)
(** * Errors of the CoAP transport

    [crates/kipuka-coap/src/lib.rs]: the error type shared by the block,
    message, routing and server components, with its [Display] text, which
    is the payload of an error response. *)
From S2P Require Import Prelude.
Open Scope Z_scope.

Inductive CoapError : Type :=
  | InvalidMessage (detail : string)
  | UnsupportedMethod (detail : string)
  | UnsupportedContentFormat (format_id : Z)
  | BlockTransferError (detail : string)
  | DtlsError (detail : string)
  | PayloadTooLarge (size max : Z)
  | ResourceNotFound (detail : string)
  | Unauthorized (detail : string)
  | Forbidden (detail : string)
  | Internal (detail : string).

Abbreviation CoapResult T := (outcome T CoapError).

(** [impl Display for CoapError], as derived from the [#[error]] attributes. *)
Definition coap_error_to_string (e : CoapError) : string :=
  match e with
  | InvalidMessage d => "Invalid CoAP message: " +:+ d
  | UnsupportedMethod d => "Unsupported CoAP method: " +:+ d
  | UnsupportedContentFormat n => "Unsupported Content-Format: " +:+ pretty n
  | BlockTransferError d => "Block transfer error: " +:+ d
  | DtlsError d => "DTLS error: " +:+ d
  | PayloadTooLarge size max =>
      "Payload too large: " +:+ pretty size +:+ " bytes exceeds maximum "
      +:+ pretty max +:+ " bytes"
  | ResourceNotFound d => "Resource not found: " +:+ d
  | Unauthorized d => "Unauthorized: " +:+ d
  | Forbidden d => "Forbidden: " +:+ d
  | Internal d => "Internal error: " +:+ d
  end.

(** * Block-wise transfer (RFC 7959)

    [crates/kipuka-coap/src/block.rs]: the Block1/Block2 option value, the
    assembler that collects request fragments and the disassembler that
    cuts a response into blocks. *)
From S2P Require Import Words.
Open Scope Z_scope.

Definition DEFAULT_SZX : Z := 5.
Definition MAX_SZX : Z := 6.

(** ** Block option values *)

Record BlockOption : Type := MkBlockOption {
  bo_num : Z;      (* u32 *)
  bo_more : bool;
  bo_szx : Z       (* u8 *)
}.

#[export] Instance BlockOption_eq_dec : EqDecision BlockOption.
Proof. solve_decision. Defined.

Definition block_decode (value : Z) : BlockOption :=
  let szx := Z.land value 7 in
  let more := negb (Z.land value 8 =? 0) in
  let num := Z.shiftr value 4 in
  MkBlockOption num more szx.

(** [self.num << 4] on a [u32] drops the four high bits. *)
Definition block_encode (b : BlockOption) : Z :=
  let value := as_u32 (Z.shiftl (bo_num b) 4) in
  let value := if bo_more b then Z.lor value 8 else value in
  Z.lor value (Z.land (bo_szx b) 7).

Definition block_size_from_szx (szx : Z) : Z :=
  let clamped := Z.min szx MAX_SZX in
  Z.shiftl 1 (clamped + 4).

Definition szx_from_block_size (size : Z) : option Z :=
  if size =? 16 then Some 0
  else if size =? 32 then Some 1
  else if size =? 64 then Some 2
  else if size =? 128 then Some 3
  else if size =? 256 then Some 4
  else if size =? 512 then Some 5
  else if size =? 1024 then Some 6
  else None.

Definition bo_block_size (b : BlockOption) : Z := block_size_from_szx (bo_szx b).
Definition bo_offset (b : BlockOption) : Z := bo_num b * bo_block_size b.

(** ** Request reassembly *)

Record BlockAssembler : Type := MkBlockAssembler {
  ba_buffer : bytes;
  ba_next_num : Z;
  ba_szx : Z;
  ba_max_payload : Z;
  ba_complete : bool
}.

Definition assembler_new (max_payload : Z) : BlockAssembler :=
  MkBlockAssembler [] 0 DEFAULT_SZX max_payload false.

(** [process_block(&mut self, block, data)]: the state after the call and
    its result.  The size exponent is adopted before the size check, so it
    changes even when the first block is refused as too large. *)
Definition process_block (a : BlockAssembler) (block : BlockOption) (data : bytes)
  : BlockAssembler * CoapResult bool :=
  if ba_complete a then (a, Err (BlockTransferError "Transfer already complete"))
  else if negb (bo_num block =? ba_next_num a) then
    (a, Err (BlockTransferError
       ("Expected block " +:+ pretty (ba_next_num a) +:+ ", received block "
        +:+ pretty (bo_num block))))
  else
    let szx := if bo_num block =? 0 then bo_szx block else ba_szx a in
    let a := MkBlockAssembler (ba_buffer a) (ba_next_num a) szx
               (ba_max_payload a) (ba_complete a) in
    let new_size := Z.of_nat (length (ba_buffer a)) + Z.of_nat (length data) in
    if ba_max_payload a <? new_size then
      (a, Err (PayloadTooLarge new_size (ba_max_payload a)))
    else
      let complete := if negb (bo_more block) then true else ba_complete a in
      (MkBlockAssembler (ba_buffer a ++ data) (as_u32 (bo_num block + 1)) (ba_szx a)
         (ba_max_payload a) complete,
       Ok complete).

Definition assembler_payload (a : BlockAssembler) : option bytes :=
  if ba_complete a then Some (ba_buffer a) else None.

Definition into_payload (a : BlockAssembler) : CoapResult bytes :=
  if ba_complete a then Ok (ba_buffer a)
  else Err (BlockTransferError
     ("Transfer incomplete: received " +:+ pretty (ba_next_num a)
      +:+ " blocks, waiting for more")).

Definition assembler_reset (a : BlockAssembler) : BlockAssembler :=
  MkBlockAssembler [] 0 DEFAULT_SZX (ba_max_payload a) false.

(** ** Response splitting *)

Record BlockDisassembler : Type := MkBlockDisassembler {
  bd_payload : bytes;
  bd_szx : Z
}.

Definition disassembler_new (payload : bytes) (szx : Z) : BlockDisassembler :=
  MkBlockDisassembler payload (Z.min szx MAX_SZX).

Definition bd_payload_len (d : BlockDisassembler) : Z := Z.of_nat (length (bd_payload d)).

Definition get_block (d : BlockDisassembler) (block_num : Z) : option (bytes * BlockOption) :=
  let block_size := block_size_from_szx (bd_szx d) in
  let offset := block_num * block_size in
  if bd_payload_len d <=? offset then None
  else
    let end_ := Z.min (offset + block_size) (bd_payload_len d) in
    let data := take (Z.to_nat (end_ - offset)) (drop (Z.to_nat offset) (bd_payload d)) in
    let more := end_ <? bd_payload_len d in
    Some (data, MkBlockOption block_num more (bd_szx d)).

(** [self.payload.len().div_ceil(block_size) as u32] *)
Definition total_blocks (d : BlockDisassembler) : Z :=
  let block_size := block_size_from_szx (bd_szx d) in
  if bd_payload_len d =? 0 then 1
  else as_u32 ((bd_payload_len d + block_size - 1) / block_size).

(** ** Lemmas *)

Lemma block_size_cases szx : 0 <= szx ->
  block_size_from_szx szx = 16 \/ block_size_from_szx szx = 32 \/
  block_size_from_szx szx = 64 \/ block_size_from_szx szx = 128 \/
  block_size_from_szx szx = 256 \/ block_size_from_szx szx = 512 \/
  block_size_from_szx szx = 1024.
Proof.
  intros Hs. unfold block_size_from_szx, MAX_SZX.
  assert (szx = 0 \/ szx = 1 \/ szx = 2 \/ szx = 3 \/ szx = 4 \/ szx = 5 \/ 6 <= szx)
    as [->|[->|[->|[->|[->|[->|H6]]]]]] by lia; [naive_solver..|].
  rewrite Z.min_r by lia. naive_solver.
Qed.

Lemma block_size_bounds szx : 0 <= szx -> 16 <= block_size_from_szx szx <= 1024.
Proof. intros Hs. pose proof (block_size_cases szx Hs); lia. Qed.

(** The wire value as arithmetic. *)
Lemma block_encode_arith b : 0 <= bo_szx b ->
  block_encode b =
  (bo_num b mod 2 ^ 28) * 16 + (if bo_more b then 8 else 0) + bo_szx b mod 8.
Proof.
  intros Hs. unfold block_encode, as_u32. rewrite land_7.
  assert (Hsh : Z.shiftl (bo_num b) 4 mod 2 ^ 32 = Z.shiftl (bo_num b mod 2 ^ 28) 4).
  { word_lia. }
  rewrite Hsh.
  assert (Hm : 0 <= bo_szx b mod 8 < 8) by (apply Z.mod_pos_bound; lia).
  destruct (bo_more b).
  - rewrite (lor_shiftl_add _ 8 4) by lia.
    replace (bo_num b mod 2 ^ 28 * 2 ^ 4 + 8)
      with (Z.shiftl (bo_num b mod 2 ^ 28 * 2 + 1) 3)
      by (rewrite Z.shiftl_mul_pow2 by lia; lia).
    rewrite lor_shiftl_add by lia. lia.
  - rewrite lor_shiftl_add by lia. lia.
Qed.

Lemma land_8 v : Z.land v 8 = 8 * ((v / 8) mod 2).
Proof.
  replace (Z.land v 8) with (Z.shiftl (Z.land (Z.shiftr v 3) 1) 3).
  - rewrite (land_mask _ 1) by lia.
    rewrite Z.shiftl_mul_pow2, Z.shiftr_div_pow2 by lia. pow_consts. lia.
  - apply Z.bits_inj'. intros i Hi.
    destruct (decide (i < 3)).
    + rewrite Z.shiftl_spec_low, Z.land_spec by lia.
      assert (i = 0 \/ i = 1 \/ i = 2) as [->|[->| ->]] by lia; by rewrite andb_false_r.
    + rewrite Z.shiftl_spec, !Z.land_spec, Z.shiftr_spec by lia.
      replace (i - 3 + 3) with i by lia. f_equal.
      change 8 with (Z.shiftl 1 3). by rewrite Z.shiftl_spec by lia.
Qed.

Lemma block_decode_arith v :
  block_decode v = MkBlockOption (v / 16) (negb ((v / 8) mod 2 =? 0)) (v mod 8).
Proof.
  unfold block_decode. rewrite land_7, land_8, Z.shiftr_div_pow2 by lia.
  change (2 ^ 4) with 16. f_equal. f_equal.
  pose proof (Z.mod_pos_bound (v / 8) 2).
  destruct (Z.eqb_spec ((v / 8) mod 2) 0) as [->|]; [done|].
  apply Z.eqb_neq. lia.
Qed.

Lemma block_encode_u32 b : 0 <= bo_szx b -> u32 (block_encode b).
Proof.
  intros Hs. rewrite block_encode_arith by done. destruct (bo_more b); word_lia.
Qed.

Lemma block_decode_encode b : 0 <= bo_num b < 2 ^ 28 -> 0 <= bo_szx b < 8 ->
  block_decode (block_encode b) = b.
Proof.
  intros Hn Hs. rewrite block_decode_arith, block_encode_arith by lia.
  rewrite !(Z.mod_small (bo_num b)), !(Z.mod_small (bo_szx b)) by lia.
  destruct b as [n [] s]; simpl in *; f_equal;
    try apply negb_true_iff, Z.eqb_neq; try apply negb_false_iff, Z.eqb_eq;
    Z.div_mod_to_equations; lia.
Qed.

Lemma block_encode_decode v : u32 v -> block_encode (block_decode v) = v.
Proof.
  intros Hv. rewrite block_encode_arith, block_decode_arith; simpl.
  - destruct (Z.eqb_spec ((v / 8) mod 2) 0); simpl; word_lia.
  - rewrite land_7. pose proof (Z.mod_pos_bound v 8). lia.
Qed.

(** ** Runs of the assembler *)

(** The assembler after a sequence of fragments, with the fragments it
    accepted (those [process_block] answered [Ok]), in order. *)
Fixpoint assemble (a : BlockAssembler) (l : list (BlockOption * bytes))
  : BlockAssembler * list (BlockOption * bytes) :=
  match l with
  | [] => (a, [])
  | (b, d) :: l' =>
      let (a', r) := process_block a b d in
      let (a'', acc) := assemble a' l' in
      match r with
      | Ok _ => (a'', (b, d) :: acc)
      | _ => (a'', acc)
      end
  end.

(** What the fragments accepted so far determine. *)
Definition assembled_from (max : Z) (acc : list (BlockOption * bytes)) (a : BlockAssembler) : Prop :=
  ba_max_payload a = max /\
  ba_buffer a = concat (map snd acc) /\
  ba_next_num a = as_u32 (Z.of_nat (length acc)) /\
  map (fun bd => bo_num bd.1) acc = map (fun i => as_u32 (Z.of_nat i)) (seq 0 (length acc)) /\
  (0 <= max -> Z.of_nat (length (ba_buffer a)) <= max) /\
  (ba_complete a = false -> Forall (fun bd => bo_more bd.1 = true) acc) /\
  (ba_complete a = true -> exists acc' bd, acc = acc' ++ [bd] /\
      bo_more bd.1 = false /\ Forall (fun bd => bo_more bd.1 = true) acc').

Lemma as_u32_succ z : as_u32 (as_u32 z + 1) = as_u32 (z + 1).
Proof. unfold as_u32. by rewrite Zplus_mod_idemp_l. Qed.

(** One call extends the accepted fragments by the block, or leaves them. *)
Lemma process_block_assembled max acc a b d a' r :
  assembled_from max acc a -> process_block a b d = (a', r) ->
  assembled_from max (match r with Ok _ => acc ++ [(b, d)] | _ => acc end) a'.
Proof.
  intros Ha E. assert (Ha' := Ha). destruct Ha' as (Hm & Hb & Hn & Hs & Hl & Hf & Ht).
  unfold process_block in E.
  destruct (ba_complete a) eqn:Ec in E; [by injection E as <- <-|].
  destruct (negb _) eqn:En in E; [by injection E as <- <-|]. simpl in E.
  destruct (_ <? _) eqn:Esz in E; injection E as <- <-;
    [destruct a; simpl in *; subst; exact Ha|].
  breflect. specialize (Hf Ec). unfold assembled_from; simpl. repeat split.
  - done.
  - by rewrite map_app, concat_app, Hb; simpl; rewrite app_nil_r.
  - rewrite length_app, En, Hn, as_u32_succ. simpl. f_equal. lia.
  - rewrite map_app, length_app, seq_app, map_app, Hs. simpl. by rewrite En, Hn.
  - intros _. rewrite length_app. lia.
  - intros Hmore. apply Forall_app_2; [done|]. repeat constructor. simpl.
    destruct (bo_more b); simpl in *; congruence.
  - intros Hmore. exists acc, (b, d). simpl. destruct (bo_more b); simpl in *; [congruence|done].
Qed.

Lemma assemble_spec max acc0 a l a' acc :
  assembled_from max acc0 a -> assemble a l = (a', acc) ->
  assembled_from max (acc0 ++ acc) a'.
Proof.
  revert acc0 a acc. induction l as [|[b d] l IH]; intros acc0 a acc Ha E; simpl in E.
  - injection E as <- <-. by rewrite app_nil_r.
  - destruct (process_block a b d) as [a1 r] eqn:Ep.
    destruct (assemble a1 l) as [a2 acc1] eqn:El.
    pose proof (process_block_assembled _ _ _ _ _ _ _ Ha Ep) as H1.
    destruct r; injection E as <- <-; [|by eapply IH..].
    replace (acc0 ++ (b, d) :: acc1) with ((acc0 ++ [(b, d)]) ++ acc1)
      by (by rewrite <- app_assoc).
    by eapply IH.
Qed.

Lemma assembled_from_new max : assembled_from max [] (assembler_new max).
Proof. unfold assembled_from; simpl. repeat split; auto; lia. Qed.

(** ** Splitting *)

Lemma get_block_Some d n : 0 <= bd_szx d -> 0 <= n ->
  n * block_size_from_szx (bd_szx d) < bd_payload_len d ->
  get_block d n =
  Some (take (Z.to_nat (block_size_from_szx (bd_szx d)))
          (drop (Z.to_nat (n * block_size_from_szx (bd_szx d))) (bd_payload d)),
        MkBlockOption n ((n + 1) * block_size_from_szx (bd_szx d) <? bd_payload_len d)
          (bd_szx d)).
Proof.
  intros Hs Hn Hlt. unfold get_block. set (bs := block_size_from_szx (bd_szx d)) in *.
  assert (16 <= bs) by (pose proof (block_size_bounds (bd_szx d) Hs); lia).
  destruct (Z.leb_spec (bd_payload_len d) (n * bs)); [lia|]. f_equal. f_equal.
  - destruct (Z.min_spec (n * bs + bs) (bd_payload_len d)) as [[Hc ->]|[Hc ->]].
    + f_equal. lia.
    + rewrite !take_ge; [done|..]; rewrite length_drop; unfold bd_payload_len in *; lia.
  - f_equal. destruct (Z.ltb_spec (Z.min (n * bs + bs) (bd_payload_len d)) (bd_payload_len d)),
      (Z.ltb_spec ((n + 1) * bs) (bd_payload_len d)); lia.
Qed.

Lemma get_block_None d n :
  get_block d n = None <-> bd_payload_len d <= n * block_size_from_szx (bd_szx d).
Proof.
  unfold get_block. destruct (Z.leb_spec (bd_payload_len d)
    (n * block_size_from_szx (bd_szx d))); naive_solver lia.
Qed.

(** The blocks a client obtains by asking for numbers [i], [i+1], ... until
    the answer carries [more = false]. *)
Fixpoint fetch_blocks (d : BlockDisassembler) (fuel : nat) (i : Z)
  : list (BlockOption * bytes) :=
  match fuel with
  | O => []
  | S f =>
      match get_block d i with
      | None => []
      | Some (data, opt) =>
          (opt, data) :: (if bo_more opt then fetch_blocks d f (i + 1) else [])
      end
  end.

(** Feeding fetched blocks, each option through the wire encoding, to an
    assembler that already holds the first [i] of them. *)
Lemma assemble_fetched d fuel i max buf szx :
  0 <= bd_szx d <= 6 -> 0 <= i ->
  let bs := block_size_from_szx (bd_szx d) in
  i * bs < bd_payload_len d <= (i + Z.of_nat fuel) * bs ->
  bd_payload_len d <= max -> bd_payload_len d <= 2 ^ 28 * bs ->
  buf = take (Z.to_nat (i * bs)) (bd_payload d) ->
  let l := fetch_blocks d fuel i in
  exists szx',
    assemble (MkBlockAssembler buf i szx max false)
      (map (fun od => (block_decode (block_encode od.1), od.2)) l) =
    (MkBlockAssembler (bd_payload d)
       (as_u32 ((bd_payload_len d + bs - 1) / bs)) szx' max true,
     l).
Proof.
  intros Hs. revert i buf szx. induction fuel as [|f IH]; intros i buf szx Hi bs Hlt Hmax H28 Hbuf.
  { exfalso. lia. }
  assert (Hbs : 16 <= bs <= 1024) by (apply block_size_bounds; lia).
  assert (Hi28 : i < 2 ^ 28) by nia.
  simpl. rewrite get_block_Some by (fold bs; lia). fold bs. simpl.
  rewrite block_decode_encode by (simpl; lia). unfold process_block; simpl.
  rewrite Z.eqb_refl. simpl.
  set (data := take (Z.to_nat bs) (drop (Z.to_nat (i * bs)) (bd_payload d))).
  assert (Hcat : buf ++ data = take (Z.to_nat ((i + 1) * bs)) (bd_payload d)).
  { subst buf data. replace (Z.to_nat ((i + 1) * bs))
      with (Z.to_nat (i * bs) + Z.to_nat bs)%nat by lia. apply take_take_drop. }
  assert (Hlen : Z.of_nat (length buf) + Z.of_nat (length data) <= max).
  { apply (f_equal length) in Hcat. rewrite length_app, length_take in Hcat.
    unfold bd_payload_len in *. lia. }
  destruct (Z.ltb_spec max (Z.of_nat (length buf) + Z.of_nat (length data))); [lia|].
  rewrite Hcat. assert (Hnn : as_u32 (i + 1) = i + 1) by (unfold as_u32; apply Z.mod_small; lia).
  destruct (Z.ltb_spec ((i + 1) * bs) (bd_payload_len d)) as [Hmore|Hlast]; simpl.
  - rewrite Hnn.
    destruct (IH (i + 1) (take (Z.to_nat ((i + 1) * bs)) (bd_payload d))
                (if i =? 0 then bd_szx d else szx)) as [szx' E];
      [lia|fold bs; lia|done|done|done|].
    exists szx'. simpl in E. fold bs in E. rewrite E. done.
  - exists (if i =? 0 then bd_szx d else szx). rewrite Hnn.
    rewrite take_ge by (unfold bd_payload_len in *; lia). f_equal. f_equal.
    unfold as_u32. symmetry. rewrite Z.mod_small; [|split; [apply Z.div_pos; lia|]].
    + symmetry. apply Z.div_unique with (r := bd_payload_len d - 1 - i * bs); lia.
    + apply Z.div_lt_upper_bound; lia.
Qed.

Lemma length_fetch_blocks d fuel i : (length (fetch_blocks d fuel i) <= fuel)%nat.
Proof.
  revert i. induction fuel as [|f IH]; intros i; simpl; [lia|].
  destruct (get_block d i) as [[data opt]|]; simpl; [|lia].
  destruct (bo_more opt); simpl; [specialize (IH (i + 1))|]; lia.
Qed.

Lemma disassembler_szx payload szx :
  0 <= szx -> 0 <= bd_szx (disassembler_new payload szx) <= 6.
Proof. unfold disassembler_new, MAX_SZX. simpl. lia. Qed.

(** The fetched blocks are unchanged by the wire encoding of their options. *)
Lemma fetch_blocks_wire d fuel i : 0 <= bd_szx d <= 6 -> 0 <= i ->
  bd_payload_len d <= 2 ^ 28 * block_size_from_szx (bd_szx d) ->
  map (fun od => (block_decode (block_encode od.1), od.2)) (fetch_blocks d fuel i) =
  fetch_blocks d fuel i.
Proof.
  intros Hs Hi H28. revert i Hi. induction fuel as [|f IH]; intros i Hi; simpl; [done|].
  destruct (get_block d i) as [[data opt]|] eqn:E; [|done].
  assert (Hlt : ~ bd_payload_len d <= i * block_size_from_szx (bd_szx d)).
  { intros Hle. apply get_block_None in Hle. congruence. }
  assert (Hbs : 16 <= block_size_from_szx (bd_szx d)) by (apply block_size_bounds; lia).
  rewrite get_block_Some in E by lia. injection E as <- <-. simpl.
  rewrite block_decode_encode by (simpl; nia). f_equal.
  destruct (_ <? _); [|done]. apply IH. lia.
Qed.

Lemma client_blocks_assembled payload szx max :
  0 <= szx -> payload <> [] ->
  Z.of_nat (length payload) <= max ->
  Z.of_nat (length payload) <= 2 ^ 28 * block_size_from_szx szx ->
  let d := disassembler_new payload szx in
  let l := fetch_blocks d (Z.to_nat (total_blocks d)) 0 in
  exists a,
    assemble (assembler_new max)
      (map (fun od => (block_decode (block_encode od.1), od.2)) l) = (a, l) /\
    into_payload a = Ok payload /\
    Z.of_nat (length l) = total_blocks d /\ assemble (assembler_new max) l = (a, l).
Proof.
  intros Hs Hp Hmax H28 d l.
  pose proof (disassembler_szx payload szx Hs) as Hd. fold d in Hd.
  assert (Hbs : block_size_from_szx (bd_szx d) = block_size_from_szx szx).
  { unfold block_size_from_szx, d, disassembler_new, MAX_SZX. simpl. f_equal. lia. }
  pose proof (block_size_bounds szx Hs) as Hb.
  assert (Hlen : 0 < bd_payload_len d).
  { unfold bd_payload_len, d. simpl. destruct payload; simpl; [done|lia]. }
  set (bs := block_size_from_szx szx) in *.
  assert (Hceil : (bd_payload_len d - 1) / bs < 2 ^ 28)
    by (apply Z.div_lt_upper_bound; unfold bd_payload_len; simpl in *; lia).
  assert (Hdm := Z.div_mod (bd_payload_len d - 1) bs ltac:(lia)).
  assert (Hmb := Z.mod_pos_bound (bd_payload_len d - 1) bs ltac:(lia)).
  assert (Ht : total_blocks d = (bd_payload_len d - 1) / bs + 1).
  { unfold total_blocks. rewrite Hbs. destruct (Z.eqb_spec (bd_payload_len d) 0); [lia|].
    replace (bd_payload_len d + bs - 1) with (bd_payload_len d - 1 + 1 * bs) by lia.
    rewrite Z.div_add by lia. unfold as_u32. apply Z.mod_small.
    pose proof (Z.div_pos (bd_payload_len d - 1) bs). lia. }
  pose proof (Z.div_pos (bd_payload_len d - 1) bs) as Hdp.
  destruct (assemble_fetched d (Z.to_nat (total_blocks d)) 0 max [] DEFAULT_SZX) as [szx' E];
    rewrite ?Hbs; [lia|lia|split; [lia|nia]|done|done|done|].
  fold l in E. rewrite Hbs in E.
  pose proof (fetch_blocks_wire d (Z.to_nat (total_blocks d)) 0 Hd ltac:(lia)
    ltac:(rewrite Hbs; exact H28)) as Hw.
  eexists. split; [exact E|]. split; [done|].
  fold l in Hw. rewrite Hw in E. split; [|exact E].
  eapply assemble_spec in E as (_ & _ & Hn & _); [|apply assembled_from_new].
  simpl in Hn. pose proof (length_fetch_blocks d (Z.to_nat (total_blocks d)) 0) as Hl.
  fold l in Hl. unfold as_u32 in Hn.
  rewrite !Z.mod_small in Hn by (first [lia|
    replace (bd_payload_len d + bs - 1) with (bd_payload_len d - 1 + 1 * bs) by lia;
    rewrite Z.div_add by lia; lia]).
  rewrite <- Hn, Ht. replace (bd_payload_len d + bs - 1) with (bd_payload_len d - 1 + 1 * bs) by lia.
  rewrite Z.div_add by lia. lia.
Qed.

(** ** Properties *)

(** Decoding inverts encoding of every Block option whose number fits
    the 28 bits the wire value has for it, and encoding inverts decoding of
    every [u32], so no wire value is lost or ambiguous. *)
Theorem block_option_wire_roundtrip :
  (forall b, 0 <= bo_num b < 2 ^ 28 -> 0 <= bo_szx b < 8 ->
     block_decode (block_encode b) = b) /\
  (forall v, u32 v ->
     block_encode (block_decode v) = v /\
     0 <= bo_num (block_decode v) < 2 ^ 28 /\ 0 <= bo_szx (block_decode v) < 8).
Proof.
  split; [intros b; apply block_decode_encode|]. intros v Hv.
  split; [by apply block_encode_decode|]. rewrite block_decode_arith. simpl. word_lia.
Qed.

Lemma block_option_wire_roundtrip_witness :
  block_decode (block_encode (MkBlockOption 1000 true 6)) = MkBlockOption 1000 true 6 /\
  block_encode (block_decode 4294967295) = 4294967295.
Proof.
  split.
  - apply (proj1 block_option_wire_roundtrip); simpl; lia.
  - apply (proj2 block_option_wire_roundtrip 4294967295). unfold u32. lia.
Defined.

(** A client that fetches the blocks of a non-empty response one by one,
    and sends each with its option encoded on the wire, makes an assembler
    with a sufficient limit hold exactly that payload; every fragment is
    accepted and their number is [total_blocks]. *)
Theorem blockwise_transfer_correct payload szx max :
  0 <= szx -> payload <> [] ->
  Z.of_nat (length payload) <= max ->
  Z.of_nat (length payload) <= 2 ^ 28 * block_size_from_szx szx ->
  let d := disassembler_new payload szx in
  let l := fetch_blocks d (Z.to_nat (total_blocks d)) 0 in
  exists a,
    assemble (assembler_new max)
      (map (fun od => (block_decode (block_encode od.1), od.2)) l) = (a, l) /\
    into_payload a = Ok payload /\
    Z.of_nat (length l) = total_blocks d.
Proof.
  intros Hs Hp Hmax H28 d l.
  destruct (client_blocks_assembled payload szx max Hs Hp Hmax H28) as (a & E & Hi & Hl & _).
  by exists a.
Qed.

Lemma blockwise_transfer_correct_witness :
  let payload := repeat 7 40 in
  let d := disassembler_new payload 0 in
  total_blocks d = 3 /\
  exists a,
    assemble (assembler_new 64)
      (map (fun od => (block_decode (block_encode od.1), od.2))
         (fetch_blocks d (Z.to_nat (total_blocks d)) 0)) =
      (a, fetch_blocks d (Z.to_nat (total_blocks d)) 0) /\
    into_payload a = Ok payload /\
    Z.of_nat (length (fetch_blocks d (Z.to_nat (total_blocks d)) 0)) = total_blocks d.
Proof.
  split; [vm_compute; reflexivity|].
  apply (blockwise_transfer_correct (repeat 7 40) 0 64);
    [lia|discriminate|simpl; lia|vm_compute; discriminate].
Defined.

(** Whatever fragments arrive, in any order and with any repetition, the
    assembler's buffer is the concatenation of the accepted ones, which are
    numbered 0, 1, 2, ... ; it never exceeds the configured limit; and the
    payload becomes available exactly when the last accepted fragment had
    M=0, every earlier one having M=1. *)
Theorem assembler_sound max l a acc :
  0 <= max -> Z.of_nat (length l) < 2 ^ 32 ->
  assemble (assembler_new max) l = (a, acc) ->
  acc `sublist_of` l /\
  ba_buffer a = concat (map snd acc) /\
  map (fun bd => bo_num bd.1) acc = map Z.of_nat (seq 0 (length acc)) /\
  Z.of_nat (length (ba_buffer a)) <= max /\
  (forall p, into_payload a = Ok p <->
     p = concat (map snd acc) /\ exists acc' bd, acc = acc' ++ [bd] /\
       bo_more bd.1 = false /\ Forall (fun bd => bo_more bd.1 = true) acc') /\
  returns (into_payload a).
Proof.
  intros Hmax Hlen E.
  assert (Hsub : acc `sublist_of` l).
  { clear Hlen. revert E. generalize (assembler_new max). revert a acc.
    induction l as [|[b d] l IH]; intros a acc a0 E; simpl in E;
      [injection E as <- <-; constructor|].
    destruct (process_block a0 b d) as [a1 r]. destruct (assemble a1 l) as [a2 acc1] eqn:E1.
    apply IH in E1. destruct r; injection E as <- <-; by constructor. }
  pose proof (assemble_spec _ _ _ _ _ _ (assembled_from_new max) E) as
    (_ & Hb & _ & Hs & Hl & Hf & Ht). simpl in *.
  split; [done|]. split; [done|]. split.
  - rewrite Hs. apply map_ext_in. intros i Hi. apply in_seq in Hi.
    apply sublist_length in Hsub. unfold as_u32. apply Z.mod_small. lia.
  - split; [auto|]. unfold into_payload, returns. rewrite Hb.
    destruct (ba_complete a) eqn:Ec; (split; [|done]).
    + intros p. specialize (Ht eq_refl). naive_solver.
    + intros p. split; [done|]. intros (_ & acc' & bd & -> & Hbd & _).
      specialize (Hf eq_refl). apply Forall_app in Hf as [_ Hf].
      inversion Hf; subst. congruence.
Qed.

Lemma assembler_sound_witness :
  let l := [(MkBlockOption 0 true 0, [1; 2]); (MkBlockOption 5 true 0, [9]);
            (MkBlockOption 1 false 0, [3])] in
  let acc := (assemble (assembler_new 10) l).2 in
  into_payload (assemble (assembler_new 10) l).1 = Ok [1; 2; 3] /\
  acc `sublist_of` l /\
  map (fun bd => bo_num bd.1) acc = map Z.of_nat (seq 0 (length acc)).
Proof.
  intros l acc. split; [vm_compute; reflexivity|].
  destruct (assembler_sound 10 l (assemble (assembler_new 10) l).1 acc)
    as (H1 & _ & H3 & _); [lia|reflexivity|reflexivity|exact (conj H1 H3)].
Defined.
