(* ===== verification/CoapMessage.v ===== *)
(** * CoAP message codec (RFC 7252)

    [crates/kipuka-coap/src/server.rs], lines 46-653: methods, message
    types, codes, options, [CoapMessage::parse], [CoapMessage::encode] and
    the accessors of a parsed message. *)
From S2P Require Import Prelude Words Text CoapBlock.
Open Scope Z_scope.

Definition COAP_VERSION : Z := 1.
Definition PAYLOAD_MARKER : Z := 255.
Definition OPTION_URI_PATH : Z := 11.
Definition OPTION_CONTENT_FORMAT : Z := 12.
Definition OPTION_BLOCK2 : Z := 23.
Definition OPTION_BLOCK1 : Z := 27.
Definition OPTION_SIZE2 : Z := 28.

(** ** Codes and methods *)

Record CoapCode : Type := MkCode { code_class : Z; code_detail : Z }.

Inductive CoapMethod : Type := Get | Post | Put | Delete | Fetch | Patch | IPatch.

Inductive CoapMessageType : Type := Confirmable | NonConfirmable | Acknowledgement | Reset.

#[export] Instance CoapCode_eq_dec : EqDecision CoapCode.
Proof. solve_decision. Defined.
#[export] Instance CoapMethod_eq_dec : EqDecision CoapMethod.
Proof. solve_decision. Defined.
#[export] Instance CoapMessageType_eq_dec : EqDecision CoapMessageType.
Proof. solve_decision. Defined.

Definition method_from_code (code : CoapCode) : option CoapMethod :=
  if negb (code_class code =? 0) then None
  else if code_detail code =? 1 then Some Get
  else if code_detail code =? 2 then Some Post
  else if code_detail code =? 3 then Some Put
  else if code_detail code =? 4 then Some Delete
  else if code_detail code =? 5 then Some Fetch
  else if code_detail code =? 6 then Some Patch
  else if code_detail code =? 7 then Some IPatch
  else None.

Definition method_to_code (m : CoapMethod) : CoapCode :=
  MkCode 0 (match m with
    | Get => 1 | Post => 2 | Put => 3 | Delete => 4
    | Fetch => 5 | Patch => 6 | IPatch => 7
    end).

(** [{method:?}] *)
Definition method_debug (m : CoapMethod) : string :=
  match m with
  | Get => "Get" | Post => "Post" | Put => "Put" | Delete => "Delete"
  | Fetch => "Fetch" | Patch => "Patch" | IPatch => "IPatch"
  end.

Definition type_from_bits (bits : Z) : CoapResult CoapMessageType :=
  if bits =? 0 then Ok Confirmable
  else if bits =? 1 then Ok NonConfirmable
  else if bits =? 2 then Ok Acknowledgement
  else if bits =? 3 then Ok Reset
  else Err (InvalidMessage ("Invalid message type: " +:+ pretty bits)).

Definition type_to_bits (t : CoapMessageType) : Z :=
  match t with
  | Confirmable => 0 | NonConfirmable => 1 | Acknowledgement => 2 | Reset => 3
  end.

Definition BAD_REQUEST := MkCode 4 0.
Definition CREATED := MkCode 2 1.
Definition CONTENT := MkCode 2 5.
Definition UNAUTHORIZED := MkCode 4 1.
Definition FORBIDDEN := MkCode 4 3.
Definition NOT_FOUND := MkCode 4 4.
Definition METHOD_NOT_ALLOWED := MkCode 4 5.
Definition UNSUPPORTED_CONTENT_FORMAT := MkCode 4 15.
Definition INTERNAL_SERVER_ERROR := MkCode 5 0.

Definition code_to_byte (c : CoapCode) : Z :=
  Z.lor (as_u8 (Z.shiftl (Z.land (code_class c) 7) 5)) (Z.land (code_detail c) 31).

Definition code_from_byte (b : Z) : CoapCode :=
  MkCode (Z.land (Z.shiftr b 5) 7) (Z.land b 31).

Definition code_is_request (c : CoapCode) : bool := code_class c =? 0.
Definition code_is_success (c : CoapCode) : bool := code_class c =? 2.
Definition code_is_client_error (c : CoapCode) : bool := code_class c =? 4.
Definition code_is_server_error (c : CoapCode) : bool := code_class c =? 5.

(** [write!(f, "{}.{:02}", self.class, self.detail)] *)
Definition code_display (c : CoapCode) : string :=
  pretty (code_class c) +:+ "." +:+
  (if code_detail c <? 10 then "0" +:+ pretty (code_detail c) else pretty (code_detail c)).

(** ** Options *)

Record CoapOption : Type := MkOption { opt_number : Z; opt_value : bytes }.

#[export] Instance CoapOption_eq_dec : EqDecision CoapOption.
Proof. solve_decision. Defined.

(** [result = (result << 8) | byte] in a [u32]: values longer than four
    bytes keep their last four. *)
Definition value_as_uint (o : CoapOption) : Z :=
  foldl (fun result b => Z.lor (as_u32 (Z.shiftl result 8)) b) 0 (opt_value o).

Definition from_uint (number value : Z) : CoapOption :=
  MkOption number
    (if value =? 0 then []
     else if value <=? 255 then [as_u8 value]
     else if value <=? 65535 then [as_u8 (Z.shiftr value 8); as_u8 value]
     else if value <=? 16777215 then
       [as_u8 (Z.shiftr value 16); as_u8 (Z.shiftr value 8); as_u8 value]
     else
       [as_u8 (Z.shiftr value 24); as_u8 (Z.shiftr value 16);
        as_u8 (Z.shiftr value 8); as_u8 value]).

(** ** Messages *)

Record CoapMessage : Type := MkMessage {
  msg_version : Z;
  msg_type : CoapMessageType;
  msg_code : CoapCode;
  msg_id : Z;
  msg_token : bytes;
  msg_options : list CoapOption;
  msg_payload : bytes
}.

(** [data[pos]] and [data[lo..hi]] *)
Definition read (data : bytes) (pos : nat) : CoapResult Z :=
  match data !! pos with
  | Some b => Ok b
  | None => Panic
  end.
Definition slice (data : bytes) (lo hi : nat) : CoapResult bytes :=
  if ((lo <=? hi) && (hi <=? length data))%nat
  then Ok (take (hi - lo) (drop lo data)) else Panic.

(** The extended delta (or length) that follows the option byte: the value
    and the position after it. *)
Definition parse_extended (what : string) (data : bytes) (pos : nat) (v : Z)
  : CoapResult (Z * nat) :=
  if v =? 13 then
    if (length data <=? pos)%nat then
      Err (InvalidMessage ("Truncated option " +:+ what +:+ " (13)"))
    else let? b := read data pos in Ok (b + 13, S pos)
  else if v =? 14 then
    if (length data <=? pos + 1)%nat then
      Err (InvalidMessage ("Truncated option " +:+ what +:+ " (14)"))
    else
      let? hi := read data pos in
      let? lo := read data (pos + 1) in
      let? v := ok_or (checked_add_u16 (u16_from_be_bytes hi lo) 269)
                  (InvalidMessage "option value overflow") in
      Ok (v, pos + 2)%nat
  else if v =? 15 then
    Err (InvalidMessage ("Reserved option " +:+ what +:+ " value 15"))
  else Ok (v, pos).

(** One option at [pos], [current] being the previous option number. *)
Definition parse_option (data : bytes) (pos : nat) (current : Z)
  : CoapResult (CoapOption * nat) :=
  let? option_byte := read data pos in
  let pos := S pos in
  let delta := Z.land (Z.shiftr option_byte 4) 15 in
  let length_ := Z.land option_byte 15 in
  let? (delta, pos) := parse_extended "delta" data pos delta in
  let? (length_, pos) := parse_extended "length" data pos length_ in
  let? current := ok_or (checked_add_u16 current delta)
                    (InvalidMessage "option number overflow") in
  let len := Z.to_nat length_ in
  if (length data <? pos + len)%nat then
    Err (InvalidMessage
      ("Truncated option value: need " +:+ pretty len +:+ " bytes at offset "
       +:+ pretty pos +:+ ", have " +:+ pretty (length data - pos)%nat))
  else
    let? value := slice data pos (pos + len) in
    Ok (MkOption current value, pos + len)%nat.

(** The option loop: the options read and the position of the payload.
    Every iteration consumes a byte, so [length data + 1] is fuel enough;
    running out of it is [Panic]. *)
Fixpoint parse_options (fuel : nat) (data : bytes) (pos : nat) (current : Z)
  (options : list CoapOption) : CoapResult (list CoapOption * nat) :=
  match fuel with
  | O => Panic
  | S f =>
      if (pos <? length data)%nat then
        let? b := read data pos in
        if b =? PAYLOAD_MARKER then Ok (options, S pos)
        else
          let? (o, pos) := parse_option data pos current in
          parse_options f data pos (opt_number o) (options ++ [o])
      else Ok (options, pos)
  end.

Definition parse (data : bytes) : CoapResult CoapMessage :=
  if (length data <? 4)%nat then
    Err (InvalidMessage ("Message too short: " +:+ pretty (length data)
                         +:+ " bytes (minimum 4)"))
  else
  let? b0 := read data 0 in
  let version := Z.land (Z.shiftr b0 6) 3 in
  if negb (version =? COAP_VERSION) then
    Err (InvalidMessage ("Unsupported CoAP version: " +:+ pretty version))
  else
  let? mtype := type_from_bits (Z.land (Z.shiftr b0 4) 3) in
  let tkl := Z.land b0 15 in
  if 8 <? tkl then
    Err (InvalidMessage ("Token length " +:+ pretty tkl +:+ " exceeds maximum of 8"))
  else
  let? b1 := read data 1 in
  let code := code_from_byte b1 in
  let? b2 := read data 2 in
  let? b3 := read data 3 in
  let message_id := u16_from_be_bytes b2 b3 in
  let token_end := (4 + Z.to_nat tkl)%nat in
  if (length data <? token_end)%nat then
    Err (InvalidMessage ("Message truncated in token: need " +:+ pretty token_end
                         +:+ " bytes, have " +:+ pretty (length data)))
  else
  let? token := slice data 4 token_end in
  let? (options, pos) := parse_options (S (length data)) data token_end 0 [] in
  let payload := if (pos <? length data)%nat then drop pos data else [] in
  Ok (MkMessage version mtype code message_id token options payload).

(** *** Encoding *)

Definition encode_option_header_value (value : Z) : Z * bytes :=
  if value <? 13 then (as_u8 value, [])
  else if value <? 269 then (13, [as_u8 (value - 13)])
  else (14, u16_to_be_bytes (value - 269)).

(** [sort_by_key(|o| o.number)]: the stable sort. *)
Fixpoint insert_option (o : CoapOption) (l : list CoapOption) : list CoapOption :=
  match l with
  | [] => [o]
  | p :: l' => if opt_number o <=? opt_number p then o :: l else p :: insert_option o l'
  end.
Definition sort_options (l : list CoapOption) : list CoapOption := foldr insert_option [] l.

Definition encode_option (prev : Z) (o : CoapOption) : bytes :=
  let delta := opt_number o - prev in
  let len := as_u16 (Z.of_nat (length (opt_value o))) in
  let (delta_nibble, delta_ext) := encode_option_header_value delta in
  let (length_nibble, length_ext) := encode_option_header_value len in
  [Z.lor (as_u8 (Z.shiftl delta_nibble 4)) length_nibble] ++ delta_ext ++ length_ext
  ++ opt_value o.

Fixpoint encode_options (prev : Z) (l : list CoapOption) : bytes :=
  match l with
  | [] => []
  | o :: l' => encode_option prev o ++ encode_options (opt_number o) l'
  end.

Definition encode (m : CoapMessage) : bytes :=
  let tkl := Z.min (Z.of_nat (length (msg_token m))) 8 in
  [Z.lor (Z.lor (Z.shiftl COAP_VERSION 6) (Z.shiftl (type_to_bits (msg_type m)) 4)) tkl]
  ++ [code_to_byte (msg_code m)]
  ++ u16_to_be_bytes (msg_id m)
  ++ take (Z.to_nat tkl) (msg_token m)
  ++ encode_options 0 (sort_options (msg_options m))
  ++ (match msg_payload m with [] => [] | _ => PAYLOAD_MARKER :: msg_payload m end).

(** *** Accessors *)

Definition uri_path (m : CoapMessage) : string :=
  let segments := omap (fun o => from_utf8 (opt_value o))
                    (filter (fun o => opt_number o = OPTION_URI_PATH) (msg_options m)) in
  match segments with
  | [] => "/"
  | _ => "/" +:+ join "/" segments
  end.

Definition find_option (number : Z) (m : CoapMessage) : option CoapOption :=
  List.find (fun o => opt_number o =? number) (msg_options m).

Definition content_format (m : CoapMessage) : option Z :=
  option_map (fun o => as_u16 (value_as_uint o)) (find_option OPTION_CONTENT_FORMAT m).
Definition block1 (m : CoapMessage) : option BlockOption :=
  option_map (fun o => block_decode (value_as_uint o)) (find_option OPTION_BLOCK1 m).
Definition block2 (m : CoapMessage) : option BlockOption :=
  option_map (fun o => block_decode (value_as_uint o)) (find_option OPTION_BLOCK2 m).

(** ** Lemmas *)

Ltac app_norm := rewrite <- ?app_assoc; simpl; rewrite <- ?app_assoc; try done.
Ltac len_norm := rewrite ?length_app; simpl; rewrite ?length_app; simpl; lia.

Lemma read_at data pre b post pos :
  data = pre ++ b :: post -> pos = length pre -> read data pos = Ok b.
Proof. intros -> ->. unfold read. by rewrite list_lookup_middle. Qed.

Lemma slice_at data pre mid post lo hi :
  data = pre ++ mid ++ post -> lo = length pre -> hi = (lo + length mid)%nat ->
  slice data lo hi = Ok mid.
Proof.
  intros -> -> ->. unfold slice. rewrite !length_app.
  destruct (Nat.leb_spec (length pre) (length pre + length mid)); [|lia].
  destruct (Nat.leb_spec (length pre + length mid)
    (length pre + (length mid + length post))); [|lia]. simpl. f_equal.
  rewrite drop_app_length. replace (length pre + length mid - length pre)%nat
    with (length mid) by lia. apply take_app_length.
Qed.

Lemma checked_add_u16_Some a b : a + b < 2 ^ 16 -> checked_add_u16 a b = Some (a + b).
Proof. intros H. unfold checked_add_u16. by rewrite (proj2 (Z.ltb_lt _ _) H). Qed.

Lemma header_value_nibble v : 0 <= v -> 0 <= (encode_option_header_value v).1 <= 14.
Proof.
  intros Hv. unfold encode_option_header_value.
  destruct (Z.ltb_spec v 13); [|destruct (v <? 269)]; simpl; try word_lia.
Qed.

Lemma parse_extended_encode what data pre post v :
  u16 v -> data = pre ++ (encode_option_header_value v).2 ++ post ->
  parse_extended what data (length pre) (encode_option_header_value v).1 =
  Ok (v, length pre + length (encode_option_header_value v).2)%nat.
Proof.
  intros Hv Hd. unfold encode_option_header_value in *.
  destruct (Z.ltb_spec v 13) as [H13|H13]; [|destruct (Z.ltb_spec v 269)]; simpl in *.
  - unfold parse_extended. rewrite Nat.add_0_r.
    assert (as_u8 v = v) as -> by word_lia.
    by repeat (match goal with |- context [?a =? ?b] => destruct (Z.eqb_spec a b); [lia|] end).
  - unfold parse_extended. simpl.
    destruct (Nat.leb_spec (length data) (length pre)) as [Hl|_];
      [subst data; rewrite length_app in Hl; simpl in Hl; lia|].
    rewrite (read_at _ pre (as_u8 (v - 13)) post) by done. simpl.
    f_equal. f_equal; [word_lia|lia].
  - unfold parse_extended. simpl.
    destruct (Nat.leb_spec (length data) (length pre + 1)) as [Hl|_];
      [subst data; rewrite length_app in Hl; simpl in Hl; lia|].
    rewrite (read_at _ pre (Z.shiftr (v - 269) 8) (Z.land (v - 269) 255 :: post)) by done.
    simpl. rewrite (read_at _ (pre ++ [Z.shiftr (v - 269) 8]) (Z.land (v - 269) 255) post)
      by (subst; app_norm || len_norm). simpl.
    rewrite u16_be_roundtrip by word_lia.
    rewrite checked_add_u16_Some by word_lia. simpl. f_equal. f_equal. lia.
Qed.

Lemma option_byte dn ln b : 0 <= dn <= 14 -> 0 <= ln <= 14 ->
  b = Z.lor (as_u8 (Z.shiftl dn 4)) ln ->
  b = dn * 16 + ln /\ Z.land (Z.shiftr b 4) 15 = dn /\ Z.land b 15 = ln /\ b <> 255.
Proof.
  intros Hd Hl Eb. assert (Hb : b = dn * 16 + ln).
  { subst b. replace (as_u8 (Z.shiftl dn 4)) with (Z.shiftl dn 4) by word_lia.
    rewrite lor_shiftl_add by lia. lia. }
  clear Eb. rewrite Hb. rewrite !land_15, Z.shiftr_div_pow2 by lia. change (2 ^ 4) with 16.
  repeat split; Z.div_mod_to_equations; lia.
Qed.

(** An option that the codec can carry, after an option numbered [prev]. *)
Definition option_ok (o : CoapOption) : Prop :=
  u16 (opt_number o) /\ Z.of_nat (length (opt_value o)) < 2 ^ 16.

Lemma encode_option_cons prev o : exists b t, encode_option prev o = b :: t.
Proof.
  unfold encode_option. destruct (encode_option_header_value (opt_number o - prev)).
  destruct (encode_option_header_value _). simpl. eauto.
Qed.

Lemma parse_option_encode data pre post prev o :
  option_ok o -> 0 <= prev <= opt_number o ->
  data = pre ++ encode_option prev o ++ post ->
  read data (length pre) <> Ok PAYLOAD_MARKER /\
  parse_option data (length pre) prev =
  Ok (o, length pre + length (encode_option prev o))%nat.
Proof.
  intros [Hn Hv] Hp Hd. unfold encode_option in *.
  assert (Hlen : as_u16 (Z.of_nat (length (opt_value o))) = Z.of_nat (length (opt_value o)))
    by word_lia. rewrite Hlen in *.
  assert (Hdn : 0 <= (encode_option_header_value (opt_number o - prev)).1 <= 14)
    by (apply header_value_nibble; lia).
  assert (Hln : 0 <= (encode_option_header_value (Z.of_nat (length (opt_value o)))).1 <= 14)
    by (apply header_value_nibble; lia).
  pose proof (parse_extended_encode "delta" data) as Pd.
  pose proof (parse_extended_encode "length" data) as Pl.
  specialize (Pl (pre ++ [Z.lor (as_u8 (Z.shiftl
     (encode_option_header_value (opt_number o - prev)).1 4))
     (encode_option_header_value (Z.of_nat (length (opt_value o)))).1]
     ++ (encode_option_header_value (opt_number o - prev)).2)
     (opt_value o ++ post) (Z.of_nat (length (opt_value o)))).
  specialize (Pd (pre ++ [Z.lor (as_u8 (Z.shiftl
     (encode_option_header_value (opt_number o - prev)).1 4))
     (encode_option_header_value (Z.of_nat (length (opt_value o)))).1])
     ((encode_option_header_value (Z.of_nat (length (opt_value o)))).2 ++ opt_value o ++ post)
     (opt_number o - prev)).
  destruct (encode_option_header_value (opt_number o - prev)) as [dn dext].
  destruct (encode_option_header_value _) as [ln lext]. simpl in *.
  remember (Z.lor (as_u8 (Z.shiftl dn 4)) ln) as b eqn:Eb.
  destruct (option_byte dn ln b Hdn Hln Eb) as (_ & Eb1 & Eb2 & Eb3). clear Eb.
  assert (Hr : read data (length pre) = Ok b) by 
    (apply (read_at _ pre b (dext ++ lext ++ opt_value o ++ post)); [subst; app_norm|done]).
  split; [rewrite Hr; unfold PAYLOAD_MARKER; congruence|].
  unfold parse_option. rewrite Hr. simpl. rewrite Eb1, Eb2.
  rewrite !length_app in *. simpl in *. rewrite (Nat.add_1_r (length pre)) in Pd.
  rewrite Pd by (word_lia || (subst; app_norm)). simpl.
  replace (S (length pre + length dext)) with (length pre + S (length dext))%nat by lia.
  rewrite Pl by (word_lia || (subst; app_norm)). simpl.
  rewrite checked_add_u16_Some by word_lia. simpl. rewrite Nat2Z.id.
  destruct (Nat.ltb_spec (length data) (length pre + S (length dext) + length lext
      + length (opt_value o))) as [Hl|_];
    [subst data; rewrite !length_app in Hl; simpl in Hl; rewrite !length_app in Hl; lia|].
  rewrite (slice_at data (pre ++ b :: dext ++ lext) (opt_value o) post);
    [|subst; app_norm|len_norm|lia]. simpl.
  destruct o as [num val]. simpl in *. f_equal. f_equal; [f_equal; lia|]. len_norm.
Qed.

(** Sorted lists of options, from a lower bound. *)
Fixpoint sorted_from (prev : Z) (l : list CoapOption) : Prop :=
  match l with
  | [] => True
  | o :: l' => prev <= opt_number o /\ sorted_from (opt_number o) l'
  end.

Lemma parse_options_encode l fuel data pre prev acc payload :
  Forall option_ok l -> 0 <= prev -> sorted_from prev l -> (length l < fuel)%nat ->
  data = pre ++ encode_options prev l ++ match payload with [] => [] | _ => PAYLOAD_MARKER :: payload end ->
  parse_options fuel data (length pre) prev acc =
  Ok (acc ++ l, length data - length payload)%nat.
Proof.
  revert fuel pre prev acc. induction l as [|o l IH]; intros [|f] pre prev acc Hok Hprev Hs Hf Hd;
    simpl in *; try lia.
  - rewrite app_nil_r. destruct payload as [|b p].
    + subst. rewrite app_nil_r. destruct (Nat.ltb_spec (length pre) (length pre)); [lia|].
      f_equal. f_equal. simpl. lia.
    + subst. rewrite length_app. simpl.
      destruct (Nat.ltb_spec (length pre) (length pre + S (S (length p)))); [|lia].
      erewrite read_at by done. simpl. f_equal. f_equal. lia.
  - apply Forall_cons in Hok as [Ho Hok]. destruct Hs as [Hpo Hs].
    rewrite <- app_assoc in Hd.
    destruct (parse_option_encode _ _ _ _ _ Ho (conj Hprev Hpo) Hd) as [Hm Hp].
    destruct (encode_option_cons prev o) as (b & t & Et).
    assert (Hr : read data (length pre) = Ok b).
    { apply (read_at _ pre b (t ++ encode_options (opt_number o) l ++
        match payload with [] => [] | _ => PAYLOAD_MARKER :: payload end)); [|done].
      by rewrite Hd, Et. }
    destruct (Nat.ltb_spec (length pre) (length data)) as [_|Hl];
      [|subst data; rewrite Et, length_app in Hl; simpl in Hl; lia].
    rewrite Hr in Hm |- *. simpl.
    destruct (Z.eqb_spec b PAYLOAD_MARKER); [congruence|]. rewrite Hp. simpl.
    replace (length pre + length (encode_option prev o))%nat
      with (length (pre ++ encode_option prev o)) by len_norm.
    rewrite (IH f (pre ++ encode_option prev o)).
    + by rewrite <- app_assoc.
    + done.
    + destruct Ho as [[? ?] _]; lia.
    + done.
    + lia.
    + rewrite Hd. app_norm.
Qed.

(** *** The stable sort *)

Lemma insert_option_sorted p o l :
  p <= opt_number o -> sorted_from p l -> sorted_from p (insert_option o l).
Proof.
  revert p. induction l as [|q l IH]; intros p Hp Hs; simpl in *; [done|].
  destruct (Z.leb_spec (opt_number o) (opt_number q)); simpl; naive_solver lia.
Qed.

Lemma sort_options_sorted p l :
  Forall (fun o => p <= opt_number o) l -> sorted_from p (sort_options l).
Proof. induction 1; simpl; [done|]. by apply insert_option_sorted. Qed.

Lemma insert_option_perm o l : insert_option o l ≡ₚ o :: l.
Proof.
  induction l as [|q l IH]; simpl; [done|]. case_match; [done|].
  rewrite IH. apply Permutation_swap.
Qed.

Lemma sort_options_perm l : sort_options l ≡ₚ l.
Proof. induction l as [|o l IH]; simpl; [done|]. by rewrite insert_option_perm, IH. Qed.

Lemma sort_options_id p l : sorted_from p l -> sort_options l = l.
Proof.
  revert p. induction l as [|o l IH]; intros p Hs; simpl in *; [done|].
  destruct Hs as [_ Hs]. rewrite (IH _ Hs). destruct l as [|q l]; simpl in *; [done|].
  by rewrite (proj2 (Z.leb_le _ _) (proj1 Hs)).
Qed.

(** The options numbered [k], in order: sorting does not reorder them. *)
Definition options_numbered (k : Z) (l : list CoapOption) : list CoapOption :=
  filter (fun o => opt_number o = k) l.

Lemma insert_option_filter k o l :
  options_numbered k (insert_option o l) = options_numbered k (o :: l).
Proof.
  unfold options_numbered. induction l as [|q l IH]; simpl; [done|].
  destruct (Z.leb_spec (opt_number o) (opt_number q)); [done|].
  rewrite filter_cons, IH, !filter_cons. repeat case_decide; try done. lia.
Qed.

Lemma sort_options_filter k l : options_numbered k (sort_options l) = options_numbered k l.
Proof.
  induction l as [|o l IH]; simpl; [done|]. rewrite insert_option_filter.
  unfold options_numbered in *. by rewrite !filter_cons, IH.
Qed.

Lemma find_option_filter k m :
  find_option k m = head (options_numbered k (msg_options m)).
Proof.
  unfold find_option, options_numbered. induction (msg_options m) as [|o l IH]; simpl; [done|].
  rewrite filter_cons. destruct (Z.eqb_spec (opt_number o) k); case_decide; done.
Qed.

(** *** The fixed header *)

Lemma type_bits_range t : 0 <= type_to_bits t <= 3.
Proof. destruct t; simpl; lia. Qed.

Lemma type_from_to_bits t : type_from_bits (type_to_bits t) = Ok t.
Proof. by destruct t. Qed.

Lemma header_byte t tkl b : 0 <= t <= 3 -> 0 <= tkl <= 8 ->
  b = Z.lor (Z.lor (Z.shiftl COAP_VERSION 6) (Z.shiftl t 4)) tkl ->
  Z.land (Z.shiftr b 6) 3 = 1 /\ Z.land (Z.shiftr b 4) 3 = t /\ Z.land b 15 = tkl.
Proof.
  intros Ht Hk ->. unfold COAP_VERSION.
  assert (Hsh : Z.shiftl t 4 = t * 16) by (rewrite Z.shiftl_mul_pow2 by lia; done).
  rewrite (lor_shiftl_add 1 (Z.shiftl t 4) 6); [|lia|pow_consts; lia].
  replace (1 * 2 ^ 6 + Z.shiftl t 4) with (Z.shiftl (4 + t) 4)
    by (rewrite !Z.shiftl_mul_pow2 by lia; pow_consts; lia).
  rewrite lor_shiftl_add; [|lia|pow_consts; lia]. rewrite !land_3, land_15. word_lia.
Qed.

Lemma code_byte_roundtrip c : 0 <= code_class c < 8 -> 0 <= code_detail c < 32 ->
  code_from_byte (code_to_byte c) = c.
Proof.
  intros Hc Hd. unfold code_from_byte, code_to_byte. destruct c as [c d]; simpl in *.
  assert (Hb : Z.lor (as_u8 (Z.shiftl (Z.land c 7) 5)) (Z.land d 31) = c * 32 + d).
  { rewrite land_7, land_31, (Z.mod_small c), (Z.mod_small d) by lia.
    replace (as_u8 (Z.shiftl c 5)) with (Z.shiftl c 5) by word_lia.
    rewrite lor_shiftl_add by lia. lia. }
  rewrite Hb. f_equal; word_lia.
Qed.

(** A message the codec can carry: what the wire format has room for. *)
Record message_ok (m : CoapMessage) : Prop := {
  ok_version : msg_version m = COAP_VERSION;
  ok_class : 0 <= code_class (msg_code m) < 8;
  ok_detail : 0 <= code_detail (msg_code m) < 32;
  ok_id : u16 (msg_id m);
  ok_token : (length (msg_token m) <= 8)%nat;
  ok_options : Forall option_ok (msg_options m)
}.

Definition with_options (m : CoapMessage) (l : list CoapOption) : CoapMessage :=
  MkMessage (msg_version m) (msg_type m) (msg_code m) (msg_id m) (msg_token m) l (msg_payload m).

Lemma length_encode_options prev l : (length l <= length (encode_options prev l))%nat.
Proof.
  revert prev. induction l as [|o l IH]; intros prev; simpl; [done|].
  destruct (encode_option_cons prev o) as (b & t & ->). simpl. rewrite length_app.
  specialize (IH (opt_number o)). lia.
Qed.

Lemma payload_tail data pre p :
  data = pre ++ match p with [] => [] | _ => PAYLOAD_MARKER :: p end ->
  (if (length data - length p <? length data)%nat
   then drop (length data - length p) data else []) = p.
Proof.
  intros ->. destruct p as [|b p].
  - by destruct (Nat.ltb_spec (length (pre ++ []) - length (@nil Z)) (length (pre ++ [])));
      [simpl in *; lia|].
  - rewrite cons_middle, app_assoc. rewrite !(length_app (pre ++ [PAYLOAD_MARKER])).
    rewrite Nat.add_sub. rewrite drop_app_length.
    destruct (Nat.ltb_spec (length (pre ++ [PAYLOAD_MARKER]))
      (length (pre ++ [PAYLOAD_MARKER]) + length (b :: p))); [done|simpl in *; lia].
Qed.

Lemma parse_encode m : message_ok m ->
  parse (encode m) = Ok (with_options m (sort_options (msg_options m))).
Proof.
  intros [Hv Hc Hd Hi Ht Ho]. unfold encode.
  rewrite (Z.min_l (Z.of_nat (length (msg_token m)))) by lia. rewrite Nat2Z.id, firstn_all.
  remember (Z.lor _ (Z.of_nat (length (msg_token m)))) as b0 eqn:Eb0.
  pose proof (type_bits_range (msg_type m)) as Htb.
  assert (Hk : 0 <= Z.of_nat (length (msg_token m)) <= 8) by lia.
  destruct (header_byte _ _ _ Htb Hk Eb0) as (E1 & E2 & E3). clear Eb0.
  set (opts := sort_options (msg_options m)).
  set (tail := match msg_payload m with [] => [] | _ => PAYLOAD_MARKER :: msg_payload m end).
  set (data := [b0] ++ [code_to_byte (msg_code m)] ++ u16_to_be_bytes (msg_id m)
     ++ msg_token m ++ encode_options 0 opts ++ tail).
  assert (Hlen : length data = (4 + length (msg_token m) + length (encode_options 0 opts)
      + length tail)%nat) by (unfold data; len_norm).
  assert (Hopts : Forall option_ok opts) by (unfold opts; by rewrite sort_options_perm).
  assert (Hso : sorted_from 0 opts).
  { apply sort_options_sorted. eapply Forall_impl; [exact Ho|]. intros o [[? ?] _]. lia. }
  pose proof (length_encode_options 0 opts).
  pose proof (parse_options_encode opts (S (length data)) data
    ([b0] ++ [code_to_byte (msg_code m)] ++ u16_to_be_bytes (msg_id m) ++ msg_token m)
    0 [] (msg_payload m) Hopts ltac:(lia) Hso ltac:(lia)) as Ep.
  replace (length ([b0] ++ [code_to_byte (msg_code m)] ++ u16_to_be_bytes (msg_id m)
    ++ msg_token m)) with (4 + length (msg_token m))%nat in Ep by done.
  specialize (Ep ltac:(unfold data, tail, u16_to_be_bytes; app_norm)).
  assert (Es : slice data 4 (4 + length (msg_token m)) = Ok (msg_token m)).
  { by apply (slice_at data ([b0] ++ [code_to_byte (msg_code m)] ++ u16_to_be_bytes (msg_id m))
      (msg_token m) (encode_options 0 opts ++ tail)). }
  assert (Epay := payload_tail data ([b0] ++ [code_to_byte (msg_code m)]
    ++ u16_to_be_bytes (msg_id m) ++ msg_token m ++ encode_options 0 opts) (msg_payload m)
    ltac:(unfold data, tail, u16_to_be_bytes; app_norm)).
  assert (Er : read data 0 = Ok b0 /\ read data 1 = Ok (code_to_byte (msg_code m)) /\
    read data 2 = Ok (Z.shiftr (msg_id m) 8) /\ read data 3 = Ok (Z.land (msg_id m) 255)) by done.
  destruct Er as (R0 & R1 & R2 & R3). clearbody data tail. clear Hso Hopts.
  unfold parse. destruct (Nat.ltb_spec (length data) 4); [lia|].
  rewrite (obind_eq _ _ _ R0), E1. cbv zeta. rewrite Z.eqb_refl. cbn [negb].
  rewrite E2, type_from_to_bits. cbn [obind]. rewrite E3.
  destruct (Z.ltb_spec 8 (Z.of_nat (length (msg_token m)))); [lia|].
  rewrite (obind_eq _ _ _ R1), (obind_eq _ _ _ R2), (obind_eq _ _ _ R3), Nat2Z.id.
  destruct (Nat.ltb_spec (length data) (4 + length (msg_token m))); [lia|].
  rewrite (obind_eq _ _ _ Es), (obind_eq _ _ _ Ep). cbv beta iota zeta. rewrite Epay.
  unfold with_options. by rewrite code_byte_roundtrip, u16_be_roundtrip, Hv by done.
Qed.

(** *** The parser never reads out of range *)

Lemma read_ensures data pos : (pos < length data)%nat ->
  ensures (read data pos) (fun b => data !! pos = Some b).
Proof.
  intros Hp. unfold read. by destruct (lookup_lt_is_Some_2 data pos Hp) as [b ->].
Qed.

Lemma slice_ensures data lo hi : (lo <= hi <= length data)%nat ->
  ensures (slice data lo hi) (fun l => l = take (hi - lo) (drop lo data)).
Proof.
  intros H. unfold slice. rewrite (proj2 (Nat.leb_le lo hi)), (proj2 (Nat.leb_le hi _)) by lia.
  done.
Qed.

Section ParseBounds.
Context (data : bytes) (Hdata : Forall u8 data).

Lemma byte_at pos b : data !! pos = Some b -> u8 b.
Proof. intros Hb. by eapply Forall_lookup_1 in Hb. Qed.

Lemma parse_extended_ensures what pos v : (pos <= length data)%nat -> 0 <= v < 16 ->
  ensures (parse_extended what data pos v)
    (fun r => u16 r.1 /\ (pos <= r.2 <= length data)%nat).
Proof.
  intros Hp Hv. unfold parse_extended. repeat case_match; simpl; breflect; auto.
  - eapply ensures_bind; [by apply read_ensures; lia|]. intros b Hb%byte_at. simpl.
    split; [word_lia|lia].
  - eapply ensures_bind; [by apply read_ensures; lia|]. intros hi Hhi%byte_at.
    eapply ensures_bind; [by apply read_ensures; lia|]. intros lo Hlo%byte_at.
    pose proof (u16_from_be_bytes_range _ _ Hhi Hlo) as Hu.
    eapply ensures_bind; [apply ensures_ok_or|].
    + intros w Hw. unfold checked_add_u16 in Hw. case_match; simplify_eq. breflect.
      instantiate (1 := u16). simpl. word_lia.
    + intros w Hw. simpl. split; [done|lia].
  - split; [unfold u16; word_lia|lia].
Qed.

Lemma parse_option_ensures pos current : (pos < length data)%nat -> u16 current ->
  ensures (parse_option data pos current)
    (fun r => option_ok r.1 /\ Forall u8 (opt_value r.1) /\
      current <= opt_number r.1 /\ (pos < r.2 <= length data)%nat).
Proof.
  intros Hp Hc. unfold parse_option.
  eapply ensures_bind; [by apply read_ensures|]. intros ob Hob%byte_at. cbv zeta.
  eapply ensures_bind; [apply parse_extended_ensures; [lia|]|].
  { rewrite land_15. apply Z.mod_pos_bound. lia. }
  intros [delta pos1] [Hd Hp1]. simpl in Hd, Hp1.
  eapply ensures_bind; [apply parse_extended_ensures; [lia|]|].
  { rewrite land_15. apply Z.mod_pos_bound. lia. }
  intros [len pos2] [Hl Hp2]. simpl in Hl, Hp2.
  eapply ensures_bind.
  { apply ensures_ok_or. intros w Hw. unfold checked_add_u16 in Hw.
    case_match; simplify_eq. breflect.
    instantiate (1 := fun w => u16 w /\ current <= w). simpl. word_lia. }
  intros cur [Hcur Hle].
  destruct (Nat.ltb_spec (length data) (pos2 + Z.to_nat len)); [done|].
  eapply ensures_bind; [apply slice_ensures; lia|]. intros v ->. simpl.
  unfold option_ok. simpl. rewrite length_take, length_drop.
  repeat split; try (word_lia || lia).
  by apply Forall_take, Forall_drop.
Qed.

Lemma sorted_from_snoc p l o :
  sorted_from p l -> Forall (fun q => opt_number q <= opt_number o) l ->
  p <= opt_number o -> sorted_from p (l ++ [o]).
Proof.
  revert p. induction l as [|q l IH]; intros p Hs Hf Hp; simpl in *; [done|].
  apply Forall_cons in Hf as [? ?]. naive_solver.
Qed.

Lemma parse_options_ensures fuel pos current acc :
  (pos <= length data)%nat -> (length data - pos < fuel)%nat -> u16 current ->
  Forall option_ok acc -> Forall (fun o => Forall u8 (opt_value o)) acc ->
  sorted_from 0 acc -> Forall (fun q => opt_number q <= current) acc ->
  ensures (parse_options fuel data pos current acc)
    (fun r => Forall option_ok r.1 /\ Forall (fun o => Forall u8 (opt_value o)) r.1 /\
      sorted_from 0 r.1 /\ (r.2 <= length data)%nat).
Proof.
  revert pos current acc.
  induction fuel as [|f IH]; intros pos cur acc Hp Hf Hc Hok Hb Hs Hle; simpl; [lia|].
  destruct (Nat.ltb_spec pos (length data)); [|done].
  eapply ensures_bind; [by apply read_ensures|]. intros b _.
  destruct (b =? PAYLOAD_MARKER); [by repeat split; simpl|].
  eapply ensures_bind; [by apply parse_option_ensures|].
  intros [o pos'] (Ho & Hv & Hcur & Hpos). simpl in *.
  assert (Hle' : Forall (fun q => opt_number q <= opt_number o) acc)
    by (eapply Forall_impl; [exact Hle|]; simpl; lia).
  destruct Ho as [Hn Hlen]. apply IH; [lia|lia|done|..].
  - apply Forall_app_2; [done|]. repeat constructor; [apply Hn..|done].
  - apply Forall_app_2; [done|]. by repeat constructor.
  - apply sorted_from_snoc; [done|done|]. apply Hn.
  - apply Forall_app_2; [done|]. repeat constructor. lia.
Qed.

Lemma parse_ensures :
  ensures (parse data) (fun m => message_ok m /\ sorted_from 0 (msg_options m) /\
    Forall u8 (msg_token m) /\ Forall (fun o => Forall u8 (opt_value o)) (msg_options m) /\
    Forall u8 (msg_payload m)).
Proof.
  unfold parse. destruct (Nat.ltb_spec (length data) 4); [done|].
  eapply ensures_bind; [apply read_ensures; lia|]. intros b0 _. cbv zeta.
  destruct (negb _) eqn:Ev; [done|]. breflect.
  destruct (type_from_bits _) as [t|e|] eqn:Et; cbn [obind]; [|done|].
  2: { unfold type_from_bits in Et. by repeat case_match. }
  destruct (Z.ltb_spec 8 (Z.land b0 15)); [done|].
  eapply ensures_bind; [apply read_ensures; lia|]. intros b1 Hb1%byte_at.
  eapply ensures_bind; [apply read_ensures; lia|]. intros b2 Hb2%byte_at.
  eapply ensures_bind; [apply read_ensures; lia|]. intros b3 Hb3%byte_at.
  destruct (Nat.ltb_spec (length data) (4 + Z.to_nat (Z.land b0 15))); [done|].
  eapply ensures_bind; [apply slice_ensures; lia|]. intros token ->.
  eapply ensures_bind.
  { by apply parse_options_ensures; try constructor; try lia. }
  intros [opts pos] (Hok & Hv & Hs & Hpos). simpl in *.
  split; [|repeat split; try done].
  - constructor; simpl; auto.
    + rewrite land_7. apply Z.mod_pos_bound. lia.
    + rewrite land_31. apply Z.mod_pos_bound. lia.
    + by apply u16_from_be_bytes_range.
    + rewrite length_take. lia.
  - by apply Forall_take, Forall_drop.
  - destruct (_ <? _)%nat; [by apply Forall_drop|constructor].
Qed.
End ParseBounds.

(** ** Properties *)

(** C18: parsing what [encode] produced gives the message back: every header
    field, the token, the payload and the options sorted by number, the
    options of each number in their original order, so that every accessor
    of a parsed message answers as on the original. *)
Theorem message_encode_parse m : message_ok m ->
  exists opts,
    parse (encode m) = Ok (with_options m opts) /\
    opts ≡ₚ msg_options m /\ sorted_from 0 opts /\
    (forall k, options_numbered k opts = options_numbered k (msg_options m)) /\
    let m' := with_options m opts in
    uri_path m' = uri_path m /\ content_format m' = content_format m /\
    block1 m' = block1 m /\ block2 m' = block2 m.
Proof.
  intros Hm. exists (sort_options (msg_options m)).
  split; [by apply parse_encode|]. split; [apply sort_options_perm|].
  split.
  - apply sort_options_sorted. eapply Forall_impl; [apply Hm|]. intros o [[? ?] _]. lia.
  - split; [intros k; apply sort_options_filter|]. cbv zeta.
    unfold content_format, block1, block2. rewrite !find_option_filter.
    unfold uri_path. simpl. rewrite !sort_options_filter. repeat split.
    pose proof (sort_options_filter OPTION_URI_PATH (msg_options m)) as E.
    unfold options_numbered in E. by rewrite E.
Qed.

Definition example_request : CoapMessage :=
  MkMessage 1 Confirmable (MkCode 0 2) 4660 [170; 187]
    [from_uint OPTION_BLOCK1 14; MkOption OPTION_URI_PATH (bytes_of_string "est");
     MkOption 2000 (repeat 5 300); MkOption OPTION_URI_PATH (bytes_of_string "sen")]
    [1; 2; 3].

Lemma message_encode_parse_witness :
  message_ok example_request /\
  exists opts, parse (encode example_request) = Ok (with_options example_request opts) /\
    opts ≡ₚ msg_options example_request.
Proof.
  assert (H : message_ok example_request).
  { constructor; simpl; try done; try lia.
    repeat constructor; vm_compute; intuition congruence. }
  split; [exact H|]. destruct (message_encode_parse _ H) as (opts & E & P & _).
  exists opts. exact (conj E P).
Defined.

(** No datagram makes the parser panic: every index and slice is in
    range and the option loop stops.  What it returns is well-formed: version
    1, a token of at most eight bytes, options in non-decreasing order of
    number, and only octets of the datagram. *)
Theorem parse_safe data : Forall u8 data ->
  returns (parse data) /\
  forall m, parse data = Ok m ->
    message_ok m /\ sorted_from 0 (msg_options m) /\ Forall u8 (msg_token m) /\
    Forall (fun o => Forall u8 (opt_value o)) (msg_options m) /\ Forall u8 (msg_payload m).
Proof.
  intros Hd. split; [eapply ensures_returns, parse_ensures, Hd|].
  intros m E. by eapply ensures_Ok in E; [|by apply parse_ensures].
Qed.

Lemma parse_safe_witness :
  parse [64; 1; 0; 7; 225; 0] =
    Err (InvalidMessage "Truncated option delta (14)") /\
  returns (parse [64; 1; 0; 7; 225; 0]).
Proof.
  split; [vm_compute; reflexivity|].
  refine (proj1 (parse_safe [64; 1; 0; 7; 225; 0] _)).
  repeat constructor; vm_compute; congruence.
Defined.

(** A received message survives re-encoding: encoding what was parsed
    and parsing again gives the same message, so [encode] is a canonical
    form of every accepted datagram. *)
Theorem parse_encode_stable data m : Forall u8 data ->
  parse data = Ok m -> parse (encode m) = Ok m.
Proof.
  intros Hd E. pose proof (ensures_Ok _ _ _ (parse_ensures _ Hd) E) as (Hm & Hs & _).
  rewrite parse_encode by done. rewrite (sort_options_id 0) by done. by destruct m.
Qed.

Lemma parse_encode_stable_witness :
  let data := [65; 2; 18; 52; 9; 179; 115; 101; 110; 3; 105; 108; 111; 255; 1] in
  exists m, parse data = Ok m /\ parse (encode m) = Ok m.
Proof.
  intros data. eexists. split; [vm_compute; reflexivity|].
  apply (parse_encode_stable data); [|vm_compute; reflexivity].
  repeat constructor; vm_compute; congruence.
Defined.
