(* ===== verification/CoapRouter.v ===== *)
(** * Content formats and EST routing

    [crates/kipuka-coap/src/content_format.rs] and the EST router of
    [crates/kipuka-coap/src/server.rs] (lines 655-823). *)
From S2P Require Import Prelude Words Text CoapBlock CoapMessage.
Open Scope Z_scope.

(** ** Content formats *)

Definition APPLICATION_PKCS7_MIME_SERVER_GEN_TYPE : Z := 280.
Definition APPLICATION_PKCS7_MIME_CERTS_ONLY : Z := 281.
Definition APPLICATION_PKCS7_MIME_CMC_REQUEST : Z := 282.
Definition APPLICATION_PKCS7_MIME_CMC_RESPONSE : Z := 283.
Definition APPLICATION_PKCS7_MIME : Z := 284.
Definition APPLICATION_PKCS10 : Z := 285.
Definition APPLICATION_PKCS8 : Z := 286.
Definition APPLICATION_CSRATTRS : Z := 287.
Definition MULTIPART_CORE : Z := 62.

Definition to_http_content_type (format_id : Z) : option string :=
  if format_id =? APPLICATION_PKCS7_MIME_SERVER_GEN_TYPE then
    Some "application/pkcs7-mime; smime-type=server-generated"
  else if format_id =? APPLICATION_PKCS7_MIME_CERTS_ONLY then
    Some "application/pkcs7-mime; smime-type=certs-only"
  else if format_id =? APPLICATION_PKCS7_MIME_CMC_REQUEST then
    Some "application/pkcs7-mime; smime-type=CMC-Request"
  else if format_id =? APPLICATION_PKCS7_MIME_CMC_RESPONSE then
    Some "application/pkcs7-mime; smime-type=CMC-Response"
  else if format_id =? APPLICATION_PKCS7_MIME then Some "application/pkcs7-mime"
  else if format_id =? APPLICATION_PKCS10 then Some "application/pkcs10"
  else if format_id =? APPLICATION_PKCS8 then Some "application/pkcs8"
  else if format_id =? APPLICATION_CSRATTRS then Some "application/csrattrs"
  else if format_id =? MULTIPART_CORE then Some "multipart/core"
  else None.

Definition from_http_content_type (mime : string) : option Z :=
  let lower := trim (to_ascii_lowercase mime) in
  if starts_with "application/pkcs7-mime" lower then
    if contains_str "server-generated" lower then Some APPLICATION_PKCS7_MIME_SERVER_GEN_TYPE
    else if contains_str "certs-only" lower then Some APPLICATION_PKCS7_MIME_CERTS_ONLY
    else if contains_str "cmc-request" lower then Some APPLICATION_PKCS7_MIME_CMC_REQUEST
    else if contains_str "cmc-response" lower then Some APPLICATION_PKCS7_MIME_CMC_RESPONSE
    else Some APPLICATION_PKCS7_MIME
  else
    let base := trim (default EmptyString (head (split_char ";"%char lower))) in
    if decide (base = "application/pkcs10") then Some APPLICATION_PKCS10
    else if decide (base = "application/pkcs8") then Some APPLICATION_PKCS8
    else if decide (base = "application/csrattrs") then Some APPLICATION_CSRATTRS
    else if decide (base = "multipart/core") then Some MULTIPART_CORE
    else None.

(** ** EST operations and routes *)

Inductive EstOperation : Type :=
  CaCerts | SimpleEnroll | SimpleReenroll | ServerKeygen | CsrAttrs.

#[export] Instance EstOperation_eq_dec : EqDecision EstOperation.
Proof. solve_decision. Defined.

Record CoapEstRequest : Type := MkEstRequest {
  er_operation : EstOperation;
  er_label : option string;
  er_method : CoapMethod;
  er_message : CoapMessage
}.

(** The [match op_segment] of [route_with_label]. *)
Definition operation_of_segment (op_segment : string) : option EstOperation :=
  if decide (op_segment = "sen") then Some SimpleEnroll
  else if decide (op_segment = "simpleenroll") then Some SimpleEnroll
  else if decide (op_segment = "sren") then Some SimpleReenroll
  else if decide (op_segment = "simplereenroll") then Some SimpleReenroll
  else if decide (op_segment = "skg") then Some ServerKeygen
  else if decide (op_segment = "serverkeygen") then Some ServerKeygen
  else if decide (op_segment = "att") then Some CsrAttrs
  else if decide (op_segment = "csrattrs") then Some CsrAttrs
  else if decide (op_segment = "cacerts") then Some CaCerts
  else if decide (op_segment = "crts") then Some CaCerts
  else None.

Definition path_segments (path : string) : list string :=
  let remainder :=
    trim_char "/"%char
      (trim_start_str ".well-known/est"
        (trim_start_str ".well-known/est/" (trim_start_char "/"%char path))) in
  filter (fun s => is_empty s = false) (split_char "/"%char remainder).

Definition route_with_label (path : string) : CoapResult (option string * EstOperation) :=
  let not_found := ResourceNotFound ("Unknown EST-coaps path: " +:+ path) in
  let? (label, op_segment) :=
    match path_segments path with
    | [op] => Ok (None, op)
    | [label; op] => Ok (Some label, op)
    | _ => Err not_found
    end in
  match operation_of_segment op_segment with
  | Some operation => Ok (label, operation)
  | None => Err not_found
  end.

Definition route (path : string) : CoapResult EstOperation :=
  omap_ok snd (route_with_label path).

Definition route_message (message : CoapMessage) : CoapResult CoapEstRequest :=
  let path := uri_path message in
  let? (label, operation) := route_with_label path in
  let? method :=
    ok_or (method_from_code (msg_code message))
      (UnsupportedMethod
        ("Code " +:+ code_display (msg_code message) +:+ " is not a request")) in
  let? _ :=
    match operation with
    | CaCerts | CsrAttrs =>
        if negb (bool_decide (method = Get)) && negb (bool_decide (method = Fetch)) then
          Err (UnsupportedMethod
            (path +:+ " requires GET or FETCH, got " +:+ method_debug method))
        else Ok tt
    | SimpleEnroll | SimpleReenroll | ServerKeygen =>
        if negb (bool_decide (method = Post)) then
          Err (UnsupportedMethod (path +:+ " requires POST, got " +:+ method_debug method))
        else Ok tt
    end in
  Ok (MkEstRequest operation label method message).

(** ** Lemmas *)

(** A path segment: not empty, without a slash. *)
Definition segment_ok (s : string) : Prop := s <> EmptyString /\ contains_char "/"%char s = false.

Lemma path_segments_ok path : Forall segment_ok (path_segments path).
Proof.
  unfold path_segments. apply Forall_forall. intros s Hs.
  apply list_elem_of_filter in Hs as [Hne Hs]. split; [by intros ->|].
  pose proof (split_char_no_char "/"%char) as Hall. setoid_rewrite Forall_forall in Hall. by eapply Hall.
Qed.

Lemma trim_start_str_other p s : strip_prefix p s = None -> trim_start_str p s = s.
Proof. unfold trim_start_str. destruct (String.length s); simpl; [done|]. by intros ->. Qed.

Lemma trim_start_str_once p s : p <> EmptyString -> strip_prefix p s = None ->
  trim_start_str p (p +:+ s) = s.
Proof.
  intros Hp Hs. unfold trim_start_str. rewrite string_length_app.
  destruct p as [|a p]; [done|]. cbn [String.length Nat.add trim_start_str_fuel].
  rewrite strip_prefix_app.
  destruct (String.length p + String.length s)%nat; cbn [trim_start_str_fuel]; [done|].
  by rewrite Hs.
Qed.

Lemma trim_start_char_id c s : contains_char c s = false -> forall t,
  s <> EmptyString -> trim_start_char c (s +:+ t) = s +:+ t.
Proof.
  destruct s as [|a s]; [done|]. simpl. intros H t _. apply orb_false_iff in H as [H _].
  apply bool_decide_eq_false in H. by rewrite decide_False.
Qed.

Lemma trim_end_char_app c s t : trim_end_char c t <> EmptyString ->
  trim_end_char c (s +:+ t) = s +:+ trim_end_char c t.
Proof.
  intros Ht. induction s as [|a s IH]; simpl; [done|]. rewrite IH.
  destruct (s +:+ trim_end_char c t) eqn:E; [|done].
  destruct s; simpl in E; [contradiction|done].
Qed.

Lemma trim_end_char_id c s : contains_char c s = false -> trim_end_char c s = s.
Proof.
  induction s as [|a s IH]; simpl; [done|]. intros H. apply orb_false_iff in H as [H1 H2].
  rewrite IH by done. rewrite H1. by rewrite andb_false_r.
Qed.

Lemma first_char_unique c a b x y :
  contains_char c a = false -> contains_char c b = false ->
  a +:+ String c x = b +:+ String c y -> a = b /\ x = y.
Proof.
  intros Ha Hb E.
  assert (H1 : split_once c (a +:+ String c x) = Some (a, x)) by by apply split_once_Some.
  assert (H2 : split_once c (a +:+ String c x) = Some (b, y)).
  { rewrite E. by apply split_once_Some. }
  rewrite H1 in H2. by injection H2 as -> ->.
Qed.

Lemma operation_not_est r : operation_of_segment ("est" +:+ r) = None.
Proof. unfold operation_of_segment. simpl. by repeat (case_decide; [discriminate|]). Qed.

(** The operation's own segment never belongs to the well-known prefix, so
    the repeated trimming of the prefix stops in front of the label. *)
Lemma no_prefix_left pre rest op :
  segment_ok op -> operation_of_segment op <> None ->
  rest = op \/ (exists label, segment_ok label /\ rest = label +:+ String "/"%char op) ->
  strip_prefix (".well-known/est" +:+ pre) rest = None.
Proof.
  intros [_ Hop] Ho Hrest. destruct (strip_prefix _ rest) as [r|] eqn:E; [exfalso|done].
  apply strip_prefix_Some in E. destruct Hrest as [->|(label & [_ Hl] & ->)].
  - rewrite E in Hop. rewrite !contains_char_app in Hop. done.
  - assert (E' : label +:+ String "/"%char op =
      ".well-known" +:+ String "/"%char ("est" +:+ pre +:+ r)).
    { rewrite E. by rewrite string_app_assoc. }
    apply first_char_unique in E' as [_ E']; [|done..].
    rewrite E', operation_not_est in Ho. done.
Qed.

Lemma op_segment_ok op o : operation_of_segment op = Some o -> segment_ok op.
Proof.
  unfold operation_of_segment.
  repeat (case_decide; [intros _; subst; split; [discriminate|reflexivity]|]). discriminate.
Qed.

(** The path of an EST resource with an optional label. *)
Definition est_segments (label : option string) (op : string) : list string :=
  match label with None => [op] | Some l => [l; op] end.

Definition label_ok (label : option string) : Prop :=
  match label with None => True | Some l => segment_ok l end.

Lemma path_segments_est label op o :
  label_ok label -> operation_of_segment op = Some o ->
  path_segments ("/.well-known/est/" +:+ join "/" (est_segments label op)) =
  est_segments label op.
Proof.
  intros Hl Ho. pose proof (op_segment_ok _ _ Ho) as Hop.
  set (rest := join "/" (est_segments label op)).
  assert (Hr : rest = op \/
    (exists l, segment_ok l /\ rest = l +:+ String "/"%char op)).
  { destruct label as [l|]; [right; exists l; done|by left]. }
  assert (Ho' : operation_of_segment op <> None) by congruence.
  unfold path_segments.
  replace (trim_start_char "/"%char ("/.well-known/est/" +:+ rest))
    with (".well-known/est/" +:+ rest) by reflexivity.
  rewrite trim_start_str_once;
    [|discriminate|exact (no_prefix_left "/" rest op Hop Ho' Hr)].
  rewrite trim_start_str_other by exact (no_prefix_left EmptyString rest op Hop Ho' Hr).
  assert (Et : trim_char "/"%char rest = rest).
  { destruct Hop as [Hne Hc]. unfold trim_char. destruct Hr as [->|(l & [Hln Hlc] & ->)].
    - rewrite <- (string_app_nil_r op) at 1. rewrite trim_start_char_id by done.
      rewrite string_app_nil_r. by apply trim_end_char_id.
    - rewrite trim_start_char_id by done.
      change (String "/"%char op) with ("/" +:+ op). rewrite <- string_app_assoc.
      rewrite trim_end_char_app; rewrite trim_end_char_id by done; done. }
  rewrite Et. destruct Hop as [Hne Hc]. destruct label as [l|]; simpl in *; unfold rest.
  - destruct Hl as [Hln Hlc]. rewrite split_char_cons, split_char_one by done.
    destruct l, op; try done.
  - rewrite split_char_one by done. by destruct op.
Qed.

Lemma route_est label op o : label_ok label -> operation_of_segment op = Some o ->
  route_with_label ("/.well-known/est/" +:+ join "/" (est_segments label op)) =
  Ok (label, o).
Proof.
  intros Hl Ho. unfold route_with_label. rewrite (path_segments_est _ _ _ Hl Ho).
  destruct label; cbn [est_segments obind]; by rewrite Ho.
Qed.

Lemma route_with_label_errors path :
  (forall e, route_with_label path = Err e -> exists s, e = ResourceNotFound s) /\
  route_with_label path <> Panic.
Proof.
  unfold route_with_label.
  destruct (path_segments path) as [|a [|b [|c l]]]; simpl; try (split; naive_solver).
  - destruct (operation_of_segment a); naive_solver.
  - destruct (operation_of_segment b); naive_solver.
Qed.

Lemma route_message_errors m :
  (forall e, route_message m = Err e ->
     exists s, e = ResourceNotFound s \/ e = UnsupportedMethod s) /\
  route_message m <> Panic.
Proof.
  unfold route_message. destruct (route_with_label_errors (uri_path m)) as [He Hp].
  destruct (route_with_label (uri_path m)) as [[l o]|e|]; simpl; [|naive_solver|done].
  destruct (method_from_code (msg_code m)) as [me|]; simpl; [|naive_solver].
  destruct o, me; simpl; naive_solver.
Qed.

(** The methods an operation may be requested with. *)
Definition method_allowed (o : EstOperation) (m : CoapMethod) : bool :=
  match o with
  | CaCerts | CsrAttrs => bool_decide (m = Get) || bool_decide (m = Fetch)
  | SimpleEnroll | SimpleReenroll | ServerKeygen => bool_decide (m = Post)
  end.

Lemma route_message_Ok m r :
  route_message m = Ok r <->
  er_message r = m /\
  route_with_label (uri_path m) = Ok (er_label r, er_operation r) /\
  method_from_code (msg_code m) = Some (er_method r) /\
  method_allowed (er_operation r) (er_method r) = true.
Proof.
  unfold route_message. destruct (route_with_label (uri_path m)) as [[l o]|e|]; simpl.
  - destruct (method_from_code (msg_code m)) as [me|]; simpl.
    + destruct r as [ro rl rm rmsg]; simpl.
      destruct o, me; simpl; naive_solver.
    + naive_solver.
  - naive_solver.
  - naive_solver.
Qed.

Lemma from_utf8_of_string s :
  utf8_valid (bytes_of_string s) = true -> from_utf8 (bytes_of_string s) = Some s.
Proof. intros H. unfold from_utf8. by rewrite H, string_of_bytes_of_string. Qed.

Definition uri_path_options (l : list string) : list CoapOption :=
  map (fun s => MkOption OPTION_URI_PATH (bytes_of_string s)) l.

Lemma uri_path_of_options m l : l <> [] ->
  Forall (fun s => utf8_valid (bytes_of_string s) = true) l ->
  options_numbered OPTION_URI_PATH (msg_options m) = uri_path_options l ->
  uri_path m = "/" +:+ join "/" l.
Proof.
  intros Hne Hl E. unfold uri_path. unfold options_numbered in E. rewrite E.
  assert (Es : omap (fun o => from_utf8 (opt_value o)) (uri_path_options l) = l).
  { clear Hne E. induction Hl as [|s l Hs Hl IH]; simpl; [done|].
    rewrite from_utf8_of_string by done. simpl. f_equal. exact IH. }
  rewrite Es. by destruct l.
Qed.

Lemma content_format_cases id mime : to_http_content_type id = Some mime ->
  id = 62 \/ 280 <= id <= 287.
Proof.
  unfold to_http_content_type. cbv [APPLICATION_PKCS7_MIME_SERVER_GEN_TYPE
    APPLICATION_PKCS7_MIME_CERTS_ONLY APPLICATION_PKCS7_MIME_CMC_REQUEST
    APPLICATION_PKCS7_MIME_CMC_RESPONSE APPLICATION_PKCS7_MIME APPLICATION_PKCS10
    APPLICATION_PKCS8 APPLICATION_CSRATTRS MULTIPART_CORE].
  repeat match goal with |- context [?a =? ?b] => destruct (Z.eqb_spec a b); [lia|] end.
  discriminate.
Qed.

(** ** Properties *)

(** Every content format the server can send maps to a media type that
    maps back to it, in the letter case the table uses, in upper case and
    with white space around it. *)
Theorem content_format_roundtrip id mime : to_http_content_type id = Some mime ->
  from_http_content_type mime = Some id /\
  from_http_content_type (to_ascii_lowercase mime) = Some id /\
  from_http_content_type (" " +:+ mime +:+ "  ") = Some id.
Proof.
  intros H. pose proof (content_format_cases _ _ H) as Hid.
  assert (id = 62 \/ id = 280 \/ id = 281 \/ id = 282 \/ id = 283 \/ id = 284 \/
    id = 285 \/ id = 286 \/ id = 287) as Hc by lia. clear Hid.
  repeat (destruct Hc as [-> | Hc]; [injection H as <-; vm_compute; auto|]).
  subst. injection H as <-. vm_compute. auto.
Qed.

Lemma content_format_roundtrip_witness :
  from_http_content_type "application/pkcs7-mime; smime-type=CMC-Request" = Some 282.
Proof.
  refine (proj1 (content_format_roundtrip 282
    "application/pkcs7-mime; smime-type=CMC-Request" _)). reflexivity.
Defined.

(** A request whose Uri-Path options spell
    [.well-known/est/(label/)operation], sent with a method the operation
    allows, arrives: the datagram it is encoded to parses, and the parsed
    message is routed to that operation, label and method with its payload
    intact.  No label can be mistaken for the prefix the router trims. *)
Theorem est_request_routed m label op o me :
  message_ok m ->
  options_numbered OPTION_URI_PATH (msg_options m) =
    uri_path_options ([".well-known"; "est"] ++ est_segments label op) ->
  label_ok label ->
  Forall (fun s => utf8_valid (bytes_of_string s) = true) (est_segments label op) ->
  operation_of_segment op = Some o ->
  method_from_code (msg_code m) = Some me -> method_allowed o me = true ->
  exists m', parse (encode m) = Ok m' /\ msg_payload m' = msg_payload m /\
    route_message m' = Ok (MkEstRequest o label me m').
Proof.
  intros Hm Hopts Hl Hutf Ho Hme Hal.
  exists (with_options m (sort_options (msg_options m))).
  split; [by apply parse_encode|]. split; [done|].
  apply route_message_Ok. simpl. split; [done|]. split; [|done].
  rewrite (uri_path_of_options _ ([".well-known"; "est"] ++ est_segments label op)).
  - replace ("/" +:+ join "/" ([".well-known"; "est"] ++ est_segments label op))
      with ("/.well-known/est/" +:+ join "/" (est_segments label op))
      by (by destruct label).
    by apply route_est.
  - done.
  - by repeat constructor.
  - etransitivity; [apply sort_options_filter|exact Hopts].
Qed.

Lemma est_request_routed_witness :
  let m := MkMessage 1 Confirmable (MkCode 0 2) 7 [1]
    (from_uint OPTION_CONTENT_FORMAT 285 ::
     uri_path_options [".well-known"; "est"; "iot"; "sen"]) [48; 0] in
  exists m', parse (encode m) = Ok m' /\
    route_message m' = Ok (MkEstRequest SimpleEnroll (Some "iot") Post m').
Proof.
  intros m. destruct (est_request_routed m (Some "iot") "sen" SimpleEnroll Post)
    as (m' & E & _ & R).
  - constructor; simpl; try done; try lia.
    repeat constructor; vm_compute; intuition congruence.
  - reflexivity.
  - split; [discriminate|reflexivity].
  - repeat constructor.
  - reflexivity.
  - reflexivity.
  - reflexivity.
  - exists m'. exact (conj E R).
Defined.

(** Routing never panics and is method-safe: whatever the message, an
    accepted request keeps the message, carries the method of its code, an
    enrolment operation only ever by POST, a read operation only by GET or
    FETCH, and a label that is one non-empty path segment; a refused one is
    answered by not-found or method-not-allowed and nothing else. *)
Theorem route_message_safe m :
  match route_message m with
  | Ok r => er_message r = m /\ method_to_code (er_method r) = msg_code m /\
      method_allowed (er_operation r) (er_method r) = true /\
      label_ok (er_label r) /\
      exists op, path_segments (uri_path m) = est_segments (er_label r) op /\
        operation_of_segment op = Some (er_operation r)
  | Err e => exists s, e = ResourceNotFound s \/ e = UnsupportedMethod s
  | Panic => False
  end.
Proof.
  destruct (route_message m) as [r|e|] eqn:E.
  - apply route_message_Ok in E as (Em & Er & Eme & Hal).
    split; [done|]. split; [|split; [done|]].
    { unfold method_from_code in Eme. destruct (msg_code m) as [c d]; simpl in *.
      destruct (Z.eqb_spec c 0); [|done]. simpl in Eme. subst c.
      repeat match type of Eme with context [?a =? ?b] =>
      destruct (Z.eqb_spec a b); [injection Eme as <-; by subst|] end. done. }
    unfold route_with_label in Er. destruct r as [ro rl rm rmsg]; simpl in *.
    pose proof (path_segments_ok (uri_path m)) as Hok.
    destruct (path_segments (uri_path m)) as [|a [|b [|c l]]]; simpl in Er; try done;
      destruct (operation_of_segment _) as [o|] eqn:Eo; simplify_eq; simpl.
    + split; [done|]. by exists a.
    + split; [by inversion Hok|]. by exists b.
  - destruct (route_message_errors m) as [H _]. by apply H.
  - by destruct (route_message_errors m) as [_ H].
Qed.
