(* ===== verification/DtlsCache.v ===== *)
(** * DTLS sessions and the session cache

    [crates/kipuka-coap/src/dtls.rs]: session records, the bounded cache of
    sessions by peer address, and the datagram queue between the socket and
    the TLS library.  An [Instant] is a number of nanoseconds; an operation
    takes the clock reading [now] as its last argument. *)
From S2P Require Import Prelude Words Text.
Open Scope Z_scope.

(** [SocketAddr]: address and port of IPv4; address, port, flow label and
    scope of IPv6. *)
Definition SocketAddr : Type := (Z * Z) + (Z * Z * Z * Z).
#[export] Instance SocketAddr_eq_dec : EqDecision SocketAddr := _.
#[export] Instance SocketAddr_countable : Countable SocketAddr := _.

(** ** Sessions *)

Inductive DtlsVersion : Type := V1_2 | V1_3.

Definition version_as_str (v : DtlsVersion) : string :=
  match v with V1_2 => "DTLS 1.2" | V1_3 => "DTLS 1.3" end.

Record DtlsSession : Type := MkSession {
  session_id : bytes;
  peer_addr : SocketAddr;
  client_cert : option bytes;
  created_at : Z;
  protocol_version : DtlsVersion
}.

Definition session_new (id : bytes) (peer : SocketAddr) (v : DtlsVersion) (now : Z)
  : DtlsSession := MkSession id peer None now v.
Definition session_with_client_cert (id : bytes) (peer : SocketAddr) (v : DtlsVersion)
  (der : bytes) (now : Z) : DtlsSession := MkSession id peer (Some der) now v.

Definition is_expired (s : DtlsSession) (ttl now : Z) : bool :=
  ttl <? elapsed now (created_at s).

(** ** The cache *)

Record DtlsSessionCache : Type := MkCache {
  sessions : gmap SocketAddr DtlsSession;
  max_sessions : nat;
  cache_ttl : Z
}.

Definition cache_new (max : nat) (ttl : Z) : DtlsSessionCache := MkCache ∅ max ttl.

Definition with_sessions (c : DtlsSessionCache) (m : gmap SocketAddr DtlsSession)
  : DtlsSessionCache := MkCache m (max_sessions c) (cache_ttl c).

Definition cache_len (c : DtlsSessionCache) : nat := size (sessions c).

(** [cleanup_expired]: the cache after it and the number of sessions removed. *)
Definition cleanup_expired (c : DtlsSessionCache) (now : Z) : DtlsSessionCache * nat :=
  let m := map_retain (fun _ s => negb (is_expired s (cache_ttl c) now)) (sessions c) in
  (with_sessions c m, (size (sessions c) - size m)%nat).

Definition cache_get (c : DtlsSessionCache) (addr : SocketAddr) (now : Z)
  : DtlsSessionCache * option DtlsSession :=
  match sessions c !! addr with
  | Some s =>
      if is_expired s (cache_ttl c) now
      then (with_sessions c (delete addr (sessions c)), None)
      else (c, Some s)
  | None => (c, None)
  end.

Definition cache_remove (c : DtlsSessionCache) (addr : SocketAddr)
  : DtlsSessionCache * option DtlsSession :=
  (with_sessions c (delete addr (sessions c)), sessions c !! addr).

(** A [HashMap] is iterated in an order the standard library does not
    specify: [iter] is any enumeration of the entries. *)
Section Cache.
Variable iter : gmap SocketAddr DtlsSession -> list (SocketAddr * DtlsSession).
Hypothesis iter_perm : forall m, iter m ≡ₚ map_to_list m.

Definition oldest_session_addr (c : DtlsSessionCache) : option SocketAddr :=
  option_map fst (min_by_key (fun kv => created_at kv.2) (iter (sessions c))).

Definition cache_insert (c : DtlsSessionCache) (s : DtlsSession) (now : Z)
  : DtlsSessionCache :=
  let c :=
    if (max_sessions c <=? cache_len c)%nat &&
       negb (bool_decide (is_Some (sessions c !! peer_addr s)))
    then
      let c := (cleanup_expired c now).1 in
      if (max_sessions c <=? cache_len c)%nat then
        match oldest_session_addr c with
        | Some oldest => (cache_remove c oldest).1
        | None => c
        end
      else c
    else c in
  with_sessions c (<[peer_addr s := s]> (sessions c)).

(** The public operations that change the cache. *)
Inductive cache_op : Type :=
  | OpInsert (s : DtlsSession) (now : Z)
  | OpGet (addr : SocketAddr) (now : Z)
  | OpRemove (addr : SocketAddr)
  | OpCleanup (now : Z).

Definition cache_step (c : DtlsSessionCache) (o : cache_op) : DtlsSessionCache :=
  match o with
  | OpInsert s now => cache_insert c s now
  | OpGet addr now => (cache_get c addr now).1
  | OpRemove addr => (cache_remove c addr).1
  | OpCleanup now => (cleanup_expired c now).1
  end.
End Cache.

(** ** The datagram queue *)

Record DatagramIo : Type := MkIo { incoming : list bytes; outgoing : list bytes }.

Inductive io_error : Type := WouldBlock | InvalidData | OutOfMemory.

(** [Read::read] into a buffer of [cap] bytes: one datagram per call, never a
    part of one; a datagram that does not fit is consumed and refused. *)
Definition io_read (io : DatagramIo) (cap : nat) : DatagramIo * outcome bytes io_error :=
  match incoming io with
  | [] => (io, Err WouldBlock)
  | packet :: rest =>
      let io := MkIo rest (outgoing io) in
      if (cap <? length packet)%nat then (io, Err InvalidData) else (io, Ok packet)
  end.

Definition io_write (io : DatagramIo) (buf : bytes) : DatagramIo * outcome nat io_error :=
  if (64 <=? length (outgoing io))%nat then (io, Err OutOfMemory)
  else (MkIo (incoming io) (outgoing io ++ [buf]), Ok (length buf)).

(** ** Lemmas *)

Lemma io_write_bound io buf : (length (outgoing io) <= 64)%nat ->
  (length (outgoing (io_write io buf).1) <= 64)%nat.
Proof.
  unfold io_write. destruct (Nat.leb_spec 64 (length (outgoing io))); simpl; [done|].
  rewrite length_app. simpl. lia.
Qed.

Lemma cleanup_lookup c now a s :
  sessions (cleanup_expired c now).1 !! a = Some s <->
  sessions c !! a = Some s /\ is_expired s (cache_ttl c) now = false.
Proof. simpl. by rewrite map_retain_lookup_Some, negb_true_iff. Qed.

Lemma cleanup_removed c now a s :
  sessions c !! a = Some s -> sessions (cleanup_expired c now).1 !! a = None ->
  is_expired s (cache_ttl c) now = true.
Proof.
  intros Hs Hn. destruct (is_expired _ _ _) eqn:E; [done|].
  assert (H : sessions (cleanup_expired c now).1 !! a = Some s) by by apply cleanup_lookup.
  congruence.
Qed.

Section CacheLemmas.
Variable iter : gmap SocketAddr DtlsSession -> list (SocketAddr * DtlsSession).
Hypothesis iter_perm : forall m, iter m ≡ₚ map_to_list m.

Lemma iter_elem m a s : (a, s) ∈ iter m <-> m !! a = Some s.
Proof. rewrite (iter_perm m). apply elem_of_map_to_list. Qed.

Lemma oldest_Some c a : oldest_session_addr iter c = Some a ->
  exists s, sessions c !! a = Some s /\
    forall b t, sessions c !! b = Some t -> created_at s <= created_at t.
Proof.
  unfold oldest_session_addr. destruct (min_by_key _ _) as [[b s]|] eqn:E; [|done].
  intros [= ->]. apply min_by_key_Some in E as [Hin Hmin]. exists s.
  split; [by apply iter_elem|]. intros b t Ht. apply iter_elem in Ht.
  apply (Hmin (b, t) Ht).
Qed.

Lemma oldest_None c : oldest_session_addr iter c = None -> sessions c = ∅.
Proof.
  unfold oldest_session_addr. destruct (min_by_key _ _) eqn:E; [done|]. intros _.
  apply min_by_key_None in E. apply map_empty. intros a.
  destruct (sessions c !! a) as [s|] eqn:Hs; [|done].
  apply iter_elem in Hs. rewrite E in Hs. by apply elem_of_nil in Hs.
Qed.

(** What making room does: nothing when there is room or the peer is
    known, otherwise expired sessions go, and at most the oldest one. *)
Definition make_room (c : DtlsSessionCache) (s : DtlsSession) (now : Z) : DtlsSessionCache :=
  if (max_sessions c <=? cache_len c)%nat &&
     negb (bool_decide (is_Some (sessions c !! peer_addr s)))
  then
    let c := (cleanup_expired c now).1 in
    if (max_sessions c <=? cache_len c)%nat then
      match oldest_session_addr iter c with
      | Some oldest => (cache_remove c oldest).1
      | None => c
      end
    else c
  else c.

Lemma cache_insert_room c s now :
  sessions (cache_insert iter c s now) = <[peer_addr s := s]> (sessions (make_room c s now)).
Proof. done. Qed.

Lemma make_room_subseteq c s now : sessions (make_room c s now) ⊆ sessions c.
Proof.
  unfold make_room. destruct (_ && _); [|done].
  assert (Hc : sessions (cleanup_expired c now).1 ⊆ sessions c)
    by apply map_retain_subseteq.
  cbv zeta. destruct (_ <=? _)%nat; [|done].
  destruct (oldest_session_addr iter _) as [a|]; [|done].
  etransitivity; [apply delete_subseteq|done].
Qed.

Lemma make_room_size c s now : (size (sessions c) <= Nat.max 1 (max_sessions c))%nat ->
  sessions c !! peer_addr s = None ->
  (size (sessions (make_room c s now)) <= pred (Nat.max 1 (max_sessions c)))%nat.
Proof.
  intros Hsz Hn. unfold make_room, cache_len.
  rewrite (bool_decide_eq_false_2 (is_Some (sessions c !! peer_addr s)))
    by (rewrite Hn; by intros [? ?]).
  destruct (Nat.leb_spec (max_sessions c) (size (sessions c))); cbn [andb negb]; [|lia].
  set (c1 := (cleanup_expired c now).1). cbv zeta.
  assert (H1 : (size (sessions c1) <= size (sessions c))%nat) by apply map_retain_size_le.
  assert (Hm : max_sessions c1 = max_sessions c) by done.
  destruct (Nat.leb_spec (max_sessions c1) (size (sessions c1))); [|lia].
  destruct (oldest_session_addr iter c1) as [a|] eqn:Eo.
  - apply oldest_Some in Eo as (t & Ht & _).
    cbn [fst cache_remove sessions with_sessions].
    rewrite map_size_delete_Some by done. lia.
  - apply oldest_None in Eo. rewrite Eo, map_size_empty. lia.
Qed.

Lemma cache_insert_size c s now : (size (sessions c) <= Nat.max 1 (max_sessions c))%nat ->
  (size (sessions (cache_insert iter c s now)) <= Nat.max 1 (max_sessions c))%nat.
Proof.
  intros Hsz. rewrite cache_insert_room.
  destruct (sessions c !! peer_addr s) as [t|] eqn:Hs.
  - assert (Hr : make_room c s now = c).
    { unfold make_room. rewrite bool_decide_eq_true_2 by by rewrite Hs.
      by rewrite andb_false_r. }
    rewrite Hr. by rewrite (size_insert_some _ _ _ t).
  - pose proof (make_room_size c s now Hsz Hs) as H.
    pose proof (size_insert_le (sessions (make_room c s now)) (peer_addr s) s). lia.
Qed.

(** A session lost in making room. *)
Lemma make_room_lost c s now a x :
  sessions c !! a = Some x -> sessions (make_room c s now) !! a = None ->
  (max_sessions c <= size (sessions c))%nat /\ sessions c !! peer_addr s = None /\
  (is_expired x (cache_ttl c) now = true \/
   oldest_session_addr iter (cleanup_expired c now).1 = Some a /\
   forall b y, sessions c !! b = Some y -> is_expired y (cache_ttl c) now = false ->
     created_at x <= created_at y).
Proof.
  intros Ha Hl. unfold make_room in Hl. destruct (_ && _) eqn:Ef in Hl; [|congruence].
  apply andb_true_iff in Ef as [Hfull Hp]. apply Nat.leb_le in Hfull.
  apply negb_true_iff, bool_decide_eq_false, eq_None_not_Some in Hp.
  set (c1 := (cleanup_expired c now).1) in *. cbv zeta in Hl.
  split; [done|]. split; [done|].
  destruct (is_expired x (cache_ttl c) now) eqn:Ex; [by left|right].
  assert (H1 : sessions c1 !! a = Some x) by by apply cleanup_lookup.
  destruct (_ <=? _)%nat in Hl; [|congruence].
  destruct (oldest_session_addr iter c1) as [b|] eqn:Eo in Hl; [|congruence].
  cbn [fst cache_remove sessions with_sessions] in Hl.
  destruct (decide (b = a)) as [->|Hba]; [|rewrite lookup_delete_ne in Hl by done; congruence].
  split; [done|]. apply oldest_Some in Eo as (t & Ht & Hmin).
  assert (t = x) as -> by congruence. intros b y Hb Hy. apply (Hmin b).
  by apply cleanup_lookup.
Qed.
End CacheLemmas.

(** ** Properties *)

(** What an entry of the cache is, after a run of [ops]. *)
Definition from_ops (ops : list cache_op) (a : SocketAddr) (s : DtlsSession) : Prop :=
  peer_addr s = a /\ exists now, OpInsert s now ∈ ops.

Lemma cache_run_sound iter ops c pre :
  (forall m, iter m ≡ₚ map_to_list m) ->
  (size (sessions c) <= Nat.max 1 (max_sessions c))%nat ->
  (forall a s, sessions c !! a = Some s -> from_ops pre a s) ->
  let c' := run_steps (cache_step iter) c ops in
  max_sessions c' = max_sessions c /\ cache_ttl c' = cache_ttl c /\
  (size (sessions c') <= Nat.max 1 (max_sessions c))%nat /\
  forall a s, sessions c' !! a = Some s -> from_ops (pre ++ ops) a s.
Proof.
  intros Hiter. revert c pre. induction ops as [|o ops IH]; intros c pre Hsz Hs; simpl.
  - by rewrite app_nil_r.
  - assert (Hst : max_sessions (cache_step iter c o) = max_sessions c /\
      cache_ttl (cache_step iter c o) = cache_ttl c /\
      (size (sessions (cache_step iter c o)) <= Nat.max 1 (max_sessions c))%nat /\
      forall a s, sessions (cache_step iter c o) !! a = Some s -> from_ops (pre ++ [o]) a s).
    { assert (Hsub : forall m, m ⊆ sessions c ->
        (size m <= Nat.max 1 (max_sessions c))%nat /\
        forall a s, m !! a = Some s -> from_ops (pre ++ [o]) a s).
      { intros m Hm. split.
        - transitivity (size (sessions c)); [|done].
          rewrite <- !size_dom. by apply subseteq_size, subseteq_dom.
        - intros a s Has. destruct (Hs a s) as [? [n Hn]]; [by eapply lookup_weaken|].
          split; [done|]. exists n. apply elem_of_app. by left. }
      destruct o as [s now|a now|a|now]; cbn [cache_step].
      - split; [|split]; [unfold cache_insert; simpl; repeat case_match; done..|].
        split; [by apply cache_insert_size|]. intros a x Hx.
        rewrite cache_insert_room in Hx. apply lookup_insert_Some in Hx as [[<- <-]|[_ Hx]].
        + split; [done|]. exists now. apply elem_of_app. right. by left.
        + eapply Hsub; [|exact Hx]. apply make_room_subseteq.
      - unfold cache_get. destruct (sessions c !! a) as [s|]; [|by auto].
        destruct (is_expired _ _ _); simpl; [|by auto].
        split; [done|]. split; [done|]. apply Hsub, delete_subseteq.
      - split; [done|]. split; [done|]. apply Hsub, delete_subseteq.
      - split; [done|]. split; [done|]. apply Hsub, map_retain_subseteq. }
    destruct Hst as (E1 & E2 & Hsz' & Hs').
    destruct (IH (cache_step iter c o) (pre ++ [o])) as (? & ? & ? & Hfin);
      [by rewrite E1|done|]. rewrite E1 in *. rewrite E2 in *.
    split; [done|]. split; [done|]. split; [done|].
    intros a s Has. apply Hfin in Has. by rewrite <- app_assoc in Has.
Qed.

(** Whatever sequence of insertions, look-ups, removals and clean-ups a
    cache goes through, in whatever order the hash map is iterated, it holds
    at most [max(1, max_sessions)] sessions, and a look-up only ever serves a
    session that was inserted for that very peer address and whose age is
    within the time to live. *)
Theorem session_cache_bounded_and_sound iter max ttl ops :
  (forall m, iter m ≡ₚ map_to_list m) ->
  let c := run_steps (cache_step iter) (cache_new max ttl) ops in
  (cache_len c <= Nat.max 1 max)%nat /\
  forall addr now s, (cache_get c addr now).2 = Some s ->
    peer_addr s = addr /\ elapsed now (created_at s) <= ttl /\
    exists t, OpInsert s t ∈ ops.
Proof.
  intros Hiter c.
  destruct (cache_run_sound iter ops (cache_new max ttl) [] Hiter) as (_ & Et & Hsz & Hs);
    [simpl; rewrite map_size_empty; lia|simpl; intros a s; by rewrite lookup_empty|].
  fold c in Et, Hsz, Hs. split; [exact Hsz|]. intros addr now s. unfold cache_get.
  destruct (sessions c !! addr) as [x|] eqn:Ex; [|done].
  destruct (is_expired x (cache_ttl c) now) eqn:Ee; [done|]. intros [= ->].
  apply Hs in Ex as [Hp Hin]. split; [done|]. split; [|exact Hin].
  rewrite Et in Ee. unfold is_expired in Ee. simpl in Ee. by breflect.
Qed.

Definition example_addr (port : Z) : SocketAddr := inl (2130706433, port).

Lemma session_cache_bounded_and_sound_witness :
  let s1 := session_new [1] (example_addr 1) V1_2 10 in
  let s2 := session_new [2] (example_addr 2) V1_2 20 in
  let s3 := session_new [3] (example_addr 3) V1_3 30 in
  let c := run_steps (cache_step map_to_list) (cache_new 2 100)
    [OpInsert s1 10; OpInsert s2 20; OpInsert s3 30] in
  cache_len c = 2%nat /\ (cache_get c (example_addr 3) 40).2 = Some s3 /\
  elapsed 40 (created_at s3) <= 100.
Proof.
  intros s1 s2 s3 c. split; [vm_compute; reflexivity|].
  assert (E : (cache_get c (example_addr 3) 40).2 = Some s3) by (vm_compute; reflexivity).
  split; [exact E|].
  exact (proj1 (proj2 (proj2 (session_cache_bounded_and_sound map_to_list 2 100
    [OpInsert s1 10; OpInsert s2 20; OpInsert s3 30] (fun m => Permutation_refl _)) _ _ _ E))).
Defined.

(** An insertion stores the session, invents nothing, and drops another
    session only when the cache was full and the peer new: then an expired
    one, or else a single one, at least as old as every session that has
    not expired. *)
Theorem session_insert_evicts iter c s now :
  (forall m, iter m ≡ₚ map_to_list m) ->
  let m' := sessions (cache_insert iter c s now) in
  let lost a x := sessions c !! a = Some x /\ m' !! a = None in
  m' !! peer_addr s = Some s /\
  (forall a x, m' !! a = Some x -> a <> peer_addr s -> sessions c !! a = Some x) /\
  (forall a x, lost a x ->
     (max_sessions c <= cache_len c)%nat /\ sessions c !! peer_addr s = None /\
     (is_expired x (cache_ttl c) now = true \/
      forall b y, sessions c !! b = Some y -> is_expired y (cache_ttl c) now = false ->
        created_at x <= created_at y)) /\
  (forall a b x y, lost a x -> lost b y -> is_expired x (cache_ttl c) now = false ->
     is_expired y (cache_ttl c) now = false -> a = b).
Proof.
  intros Hiter m' lost. subst m'. rewrite cache_insert_room in *.
  assert (Hlost : forall a x, lost a x -> sessions (make_room iter c s now) !! a = None).
  { intros a x [Ha Hn]. rewrite cache_insert_room in Hn. by apply lookup_insert_None in Hn as [? _]. }
  split; [apply lookup_insert_eq|]. split; [|split].
  - intros a x Hx Hne. rewrite lookup_insert_ne in Hx by done.
    eapply lookup_weaken; [exact Hx|apply make_room_subseteq].
  - intros a x Hl. destruct (make_room_lost iter Hiter c s now a x) as (? & ? & H);
      [apply Hl|by eapply Hlost|]. naive_solver.
  - intros a b x y Ha Hb Hx Hy.
    destruct (make_room_lost iter Hiter c s now a x) as (_ & _ & [?|[Ea _]]);
      [apply Ha|by eapply Hlost|congruence|].
    destruct (make_room_lost iter Hiter c s now b y) as (_ & _ & [?|[Eb _]]);
      [apply Hb|by eapply Hlost|congruence|]. congruence.
Qed.

Lemma session_insert_evicts_witness :
  let s1 := session_new [1] (example_addr 1) V1_2 10 in
  let s2 := session_new [2] (example_addr 2) V1_2 20 in
  let s3 := session_new [3] (example_addr 3) V1_3 30 in
  let c := run_steps (cache_step map_to_list) (cache_new 2 100)
    [OpInsert s1 10; OpInsert s2 20] in
  let m' := sessions (cache_insert map_to_list c s3 30) in
  m' !! example_addr 1 = None /\ m' !! peer_addr s3 = Some s3.
Proof.
  intros s1 s2 s3 c m'. split; [vm_compute; reflexivity|].
  exact (proj1 (session_insert_evicts map_to_list c s3 30 (fun m => Permutation_refl _))).
Defined.
