(* ===== verification/CoapServer.v ===== *)
(** * The CoAP/DTLS server

    [crates/kipuka-coap/src/server.rs] (lines 1265-2024) and the DTLS
    connection of [crates/kipuka-coap/src/dtls.rs] (lines 444-533): the
    tables of connections, block-wise uploads, block-wise responses and
    message exchanges, the processing of one decrypted datagram, the
    admission of a received UDP datagram, and the main loop with its timer.

    The TLS library, the socket, the X.509 parser and the EST handler are
    parameters.  A [spawn_blocking] task that panics gives a [JoinError],
    whose text is a parameter too.  One clock reading [now] serves for all
    those a datagram's processing makes. *)
From S2P Require Import Prelude Words Text CoapBlock CoapMessage CoapRouter DtlsCache.
Open Scope Z_scope.

Record ClientCertInfo : Type := MkCertInfo {
  subject_dn : string;
  serial : bytes;
  der_bytes : bytes
}.

Record AuditInfo : Type := MkAudit { event_type : string; detail : string }.

Record EstResponse : Type := MkEstResponse {
  resp_payload : bytes;
  resp_content_format : Z;
  resp_audit_event : option AuditInfo
}.

(** Results of the TLS library: [retry] is what [retry_ssl] finds in the
    error code, [text] what its [Display] prints. *)
Inductive ssl_result (T : Type) : Type :=
  | SslOk (t : T)
  | SslError (retry : bool) (text : string).
Arguments SslOk {T} t.
Arguments SslError {T} retry text.

(** [dtls_error] *)
Definition dtls_error (text : string) : CoapError := DtlsError text.

Abbreviation TransferKey := (SocketAddr * bytes * string * Z)%type.
Definition key_peer (k : TransferKey) : SocketAddr := k.1.1.1.
Abbreviation ExchangeEntry := (bytes * option bytes * Z)%type.
Abbreviation ResponseCacheEntry := (BlockDisassembler * Z * CoapCode * Z)%type.

Definition USIZE_MAX : Z := 2 ^ 64 - 1.
Definition saturating_mul (a b : Z) : Z := Z.min USIZE_MAX (a * b).

(** The parts of [CoapDtlsServer] that never change after [bind]. *)
Record ServerConfig : Type := MkConfig {
  cfg_block_szx : Z;
  cfg_max_payload : Z;
  cfg_max_block_assemblers : Z;
  cfg_block_ttl : Z;
  cfg_max_sessions : nat;
  cfg_session_ttl : Z
}.

Definition bind_config (block_size max_payload : Z) (max_sessions : nat) (session_timeout : Z)
  : ServerConfig :=
  MkConfig (default DEFAULT_SZX (szx_from_block_size block_size)) max_payload
    (saturating_mul (Z.of_nat max_sessions) 2) (60 * SECS) max_sessions session_timeout.

(** ** What the server is built on *)

(** The TLS library, the X.509 parser, the socket and the task runtime. *)
Class Transport (Ssl Env : Type) : Type := {
  ssl_new : Env -> Env * outcome Ssl string;
  ssl_accept : Ssl * DatagramIo -> Ssl * DatagramIo * ssl_result unit;
  (** the DER encoding of the peer's certificate, if there is one *)
  peer_certificate : Ssl -> option (outcome bytes string);
  (** subject (RFC 4514 text) and serial number of a DER certificate *)
  parse_certificate : bytes -> option (string * bytes);
  (** all the records [ssl_read] yields before it returns zero bytes or asks
      for a retry ([None]), or before it fails ([Some] text) *)
  ssl_reads : Ssl * DatagramIo -> Ssl * DatagramIo * (list bytes * option string);
  ssl_write : Ssl * DatagramIo -> bytes -> Ssl * DatagramIo * ssl_result unit;
  (** [DTLSv1_handle_timeout]: queues a retransmission if a flight is due *)
  ssl_timeout : Ssl * DatagramIo -> Ssl * DatagramIo * Z;
  send_to : Env -> bytes -> SocketAddr -> Env * option string;
  join_error : string
}.

(** The [EstHandler] trait, with the handler's own state made explicit;
    [Panic] when the blocking task that runs it panics. *)
Class EstHandler (H : Type) : Type :=
  handle : H -> EstOperation -> option string -> bytes -> option Z ->
    option ClientCertInfo -> H * CoapResult EstResponse.

Section Server.
(** The state of a TLS session, of the environment (socket and TLS
    context) and of the EST handler. *)
Context {Ssl Env H : Type}.

Record DtlsConnection : Type := MkConnection {
  conn_ssl : Ssl;
  conn_io : DatagramIo;
  conn_client_cert : option ClientCertInfo;
  conn_handshake_complete : bool;
  conn_created_at : Z
}.

Record Server : Type := MkServer {
  connections : gmap SocketAddr DtlsConnection;
  block_assemblers : gmap TransferKey (BlockAssembler * Z);
  response_cache : gmap TransferKey ResponseCacheEntry;
  exchanges : gmap (SocketAddr * Z) ExchangeEntry;
  env : Env;
  handler_state : H
}.

Definition set_connections (s : Server) m : Server :=
  MkServer m (block_assemblers s) (response_cache s) (exchanges s) (env s) (handler_state s).
Definition set_assemblers (s : Server) m : Server :=
  MkServer (connections s) m (response_cache s) (exchanges s) (env s) (handler_state s).
Definition set_cache (s : Server) m : Server :=
  MkServer (connections s) (block_assemblers s) m (exchanges s) (env s) (handler_state s).
Definition set_exchanges (s : Server) m : Server :=
  MkServer (connections s) (block_assemblers s) (response_cache s) m (env s) (handler_state s).
Definition set_env (s : Server) e : Server :=
  MkServer (connections s) (block_assemblers s) (response_cache s) (exchanges s) e
    (handler_state s).
Definition set_handler (s : Server) h : Server :=
  MkServer (connections s) (block_assemblers s) (response_cache s) (exchanges s) (env s) h.

Context `{!Transport Ssl Env} `{!EstHandler H}.
Variable cfg : ServerConfig.

(** ** The connection *)

Definition from_der (der : bytes) : option ClientCertInfo :=
  option_map (fun c => MkCertInfo c.1 c.2 der) (parse_certificate der).

Definition connection_new (e : Env) (now : Z) : Env * CoapResult DtlsConnection :=
  match ssl_new e with
  | (e, Ok ssl) => (e, Ok (MkConnection ssl (MkIo [] []) None false now))
  | (e, Err text) => (e, Err (dtls_error text))
  | (e, Panic) => (e, Panic)
  end.

Definition with_stream (c : DtlsConnection) (st : Ssl * DatagramIo) : DtlsConnection :=
  MkConnection st.1 st.2 (conn_client_cert c) (conn_handshake_complete c) (conn_created_at c).

Definition with_client_cert (c : DtlsConnection) (cert : option ClientCertInfo)
  (complete : bool) : DtlsConnection :=
  MkConnection (conn_ssl c) (conn_io c) cert complete (conn_created_at c).

(** The read loop of [receive]. *)
Definition read_records (c : DtlsConnection) : DtlsConnection * CoapResult (list bytes) :=
  match ssl_reads (conn_ssl c, conn_io c) with
  | (st, (l, None)) => (with_stream c st, Ok l)
  | (st, (_, Some text)) => (with_stream c st, Err (dtls_error text))
  end.

(** [receive]: queue the datagram, finish the handshake if it is not
    complete (a client certificate is then required and must parse), and
    read the records it completed. *)
Definition conn_receive (c : DtlsConnection) (packet : bytes)
  : DtlsConnection * CoapResult (list bytes) :=
  let c := with_stream c
    (conn_ssl c, MkIo (incoming (conn_io c) ++ [packet]) (outgoing (conn_io c))) in
  if negb (conn_handshake_complete c) then
    match ssl_accept (conn_ssl c, conn_io c) with
    | (st, SslOk _) =>
        let c := with_stream c st in
        match peer_certificate (conn_ssl c) with
        | None => (c, Err (Unauthorized "client certificate required"))
        | Some (Ok der) =>
            match from_der der with
            | None =>
                (with_client_cert c None false, Err (Unauthorized "invalid client certificate"))
            | Some cert => read_records (with_client_cert c (Some cert) true)
            end
        | Some (Err text) => (c, Err (dtls_error text))
        | Some Panic => (c, Panic)
        end
    | (st, SslError true _) => (with_stream c st, Ok [])
    | (st, SslError false text) => (with_stream c st, Err (dtls_error text))
    end
  else read_records c.

Definition conn_encrypt (c : DtlsConnection) (data : bytes)
  : DtlsConnection * CoapResult unit :=
  if negb (conn_handshake_complete c) then
    (c, Err (Unauthorized "DTLS handshake incomplete"))
  else
    match ssl_write (conn_ssl c, conn_io c) data with
    | (st, SslOk _) => (with_stream c st, Ok tt)
    | (st, SslError _ text) => (with_stream c st, Err (dtls_error text))
    end.

Definition conn_handle_timeout (c : DtlsConnection) : DtlsConnection * CoapResult unit :=
  let (st, result) := ssl_timeout (conn_ssl c, conn_io c) in
  (with_stream c st,
   if result <? 0 then Err (DtlsError "DTLS retransmission failed") else Ok tt).

(** [outgoing]: [std::mem::take] of the queue. *)
Definition conn_outgoing (c : DtlsConnection) : DtlsConnection * list bytes :=
  (with_stream c (conn_ssl c, MkIo (incoming (conn_io c)) []), outgoing (conn_io c)).
(** ** Sending *)

(** The loop over the outgoing packets stops at the first that fails. *)
Fixpoint send_packets (e : Env) (packets : list bytes) (peer : SocketAddr)
  : Env * CoapResult unit :=
  match packets with
  | [] => (e, Ok tt)
  | p :: ps =>
      match send_to e p peer with
      | (e, None) => send_packets e ps peer
      | (e, Some text) => (e, Err (Internal text))
      end
  end.

Definition send_encoded (s : Server) (peer : SocketAddr) (encoded : bytes)
  : Server * CoapResult unit :=
  match connections s !! peer with
  | None => (s, Err (Unauthorized "DTLS session required"))
  | Some c =>
      match conn_encrypt c encoded with
      | (c, Ok _) =>
          let (c, packets) := conn_outgoing c in
          let s := set_connections s (<[peer := c]> (connections s)) in
          let (e, r) := send_packets (env s) packets peer in
          (set_env s e, r)
      | (c, Err e) => (set_connections s (<[peer := c]> (connections s)), Err e)
      | (c, Panic) => (set_connections s (<[peer := c]> (connections s)), Panic)
      end
  end.

(** [send_response] remembers the encoded response in the exchange. *)
Definition send_response (s : Server) (peer : SocketAddr) (message : CoapMessage)
  : Server * CoapResult unit :=
  let encoded := encode message in
  let s :=
    match exchanges s !! (peer, msg_id message) with
    | Some (request, _, time) =>
        set_exchanges s
          (<[(peer, msg_id message) := (request, Some encoded, time)]> (exchanges s))
    | None => s
    end in
  send_encoded s peer encoded.

Definition build_error_response (token : bytes) (message_id : Z) (error : CoapError)
  : CoapMessage :=
  let code :=
    match error with
    | InvalidMessage _ => BAD_REQUEST
    | ResourceNotFound _ => NOT_FOUND
    | UnsupportedMethod _ => METHOD_NOT_ALLOWED
    | UnsupportedContentFormat _ => UNSUPPORTED_CONTENT_FORMAT
    | Unauthorized _ => UNAUTHORIZED
    | Forbidden _ => FORBIDDEN
    | PayloadTooLarge _ _ => MkCode 4 13
    | _ => INTERNAL_SERVER_ERROR
    end in
  MkMessage COAP_VERSION Acknowledgement code message_id token []
    (bytes_of_string (coap_error_to_string error)).

Definition reap_stale_entries (s : Server) (now : Z) : Server :=
  let deadline := now - cfg_block_ttl cfg in
  let s := set_assemblers s
    (map_retain (fun _ at_ => deadline <? at_.2) (block_assemblers s)) in
  set_cache s (map_retain (fun _ e => deadline <? e.2) (response_cache s)).
(** ** Processing one decrypted datagram *)

Definition block_response (code : CoapCode) (message_id : Z) (token : bytes)
  (cf : Z) (disasm : BlockDisassembler) (block_data : bytes) (block_opt : BlockOption)
  : CoapMessage :=
  MkMessage COAP_VERSION Acknowledgement code message_id token
    [from_uint OPTION_CONTENT_FORMAT cf;
     from_uint OPTION_BLOCK2 (block_encode block_opt);
     from_uint OPTION_SIZE2 (as_u32 (bd_payload_len disasm))]
    block_data.

Definition transfer_key (peer : SocketAddr) (m : CoapMessage) : TransferKey :=
  (peer, msg_token m, uri_path m, code_to_byte (msg_code m)).

(** A request for block [num > 0] of an earlier response. *)
Definition continue_response (s : Server) (peer : SocketAddr) (message : CoapMessage)
  (num : Z) (now : Z) : Server * CoapResult unit :=
  let cache_key := transfer_key peer message in
  let unknown s :=
    send_response s peer
      (build_error_response (msg_token message) (msg_id message)
         (InvalidMessage "unknown Block2 exchange")) in
  match response_cache s !! cache_key with
  | Some (disasm, cf, code, _) =>
      let s := set_cache s (<[cache_key := (disasm, cf, code, now)]> (response_cache s)) in
      match get_block disasm num with
      | Some (block_data, block_opt) =>
          let is_last := negb (bo_more block_opt) in
          let response := block_response code (msg_id message) (msg_token message)
            cf disasm block_data block_opt in
          let s := if is_last then set_cache s (delete cache_key (response_cache s)) else s in
          send_response s peer response
      | None => unknown (set_cache s (delete cache_key (response_cache s)))
      end
  | None => unknown s
  end.

(** Block1 assembly: [Some] payload when the request is complete, [None]
    when an intermediate block was acknowledged. *)
Definition assemble_request (s : Server) (peer : SocketAddr) (m : CoapMessage)
  (block1 : option BlockOption) (now : Z) : Server * CoapResult (option bytes) :=
  match block1 with
  | None => (s, Ok (Some (msg_payload m)))
  | Some block =>
      let assembler_key := transfer_key peer m in
      let known := block_assemblers s !! assembler_key in
      if negb (bool_decide (is_Some known)) &&
         (cfg_max_block_assemblers cfg <=? Z.of_nat (size (block_assemblers s)))
      then (s, Err (Internal "too many concurrent block transfers"))
      else
        let assembler :=
          match known with
          | Some (a, _) => a
          | None => assembler_new (cfg_max_payload cfg)
          end in
        let (assembler, r) := process_block assembler block (msg_payload m) in
        let s := set_assemblers s
          (<[assembler_key := (assembler, now)]> (block_assemblers s)) in
        match r with
        | Ok false =>
            let ack := MkMessage COAP_VERSION Acknowledgement (MkCode 2 31)
              (msg_id m) (msg_token m) [from_uint OPTION_BLOCK1 (block_encode block)] [] in
            let (s, r) := send_response s peer ack in
            (s, let? _ := r in Ok None)
        | Ok true =>
            (set_assemblers s (delete assembler_key (block_assemblers s)),
             let? payload := into_payload assembler in Ok (Some payload))
        | Err e => (s, Err e)
        | Panic => (s, Panic)
        end
  end.

Definition response_code_of (o : EstOperation) : CoapCode :=
  match o with
  | SimpleEnroll | SimpleReenroll | ServerKeygen => CREATED
  | CaCerts | CsrAttrs => CONTENT
  end.

(** Sending the handler's response, in blocks when it is larger than one. *)
Definition respond (s : Server) (peer : SocketAddr) (r : CoapEstRequest)
  (resp : EstResponse) (now : Z) : Server * CoapResult unit :=
  let m := er_message r in
  let response_payload := resp_payload resp in
  let len := Z.of_nat (length response_payload) in
  let response_cf := resp_content_format resp in
  if cfg_max_payload cfg <? len then
    (s, Err (PayloadTooLarge len (cfg_max_payload cfg)))
  else
    let response_code := response_code_of (er_operation r) in
    if block_size_from_szx (cfg_block_szx cfg) <? len then
      let disasm := disassembler_new response_payload (cfg_block_szx cfg) in
      let (s, sent) :=
        match get_block disasm 0 with
        | Some (block_data, block_opt) =>
            send_response s peer (block_response response_code (msg_id m) (msg_token m)
              response_cf disasm block_data block_opt)
        | None => (s, Ok tt)
        end in
      match sent with
      | Ok _ =>
          if Z.of_nat (size (response_cache s)) <? cfg_max_block_assemblers cfg then
            (set_cache s (<[transfer_key peer m := (disasm, response_cf, response_code, now)]>
               (response_cache s)), Ok tt)
          else (s, Ok tt)
      | e => (s, e)
      end
    else
      send_response s peer
        (MkMessage COAP_VERSION Acknowledgement response_code (msg_id m) (msg_token m)
           [from_uint OPTION_CONTENT_FORMAT response_cf] response_payload).

(** Dispatch of a complete request to the handler. *)
Definition dispatch (s : Server) (peer : SocketAddr) (r : CoapEstRequest)
  (content_format : option Z) (request_payload : bytes) (now : Z)
  : Server * CoapResult unit :=
  let m := er_message r in
  let error s e := send_response s peer (build_error_response (msg_token m) (msg_id m) e) in
  let len := Z.of_nat (length request_payload) in
  if cfg_max_payload cfg <? len then error s (PayloadTooLarge len (cfg_max_payload cfg))
  else
    let client_cert :=
      match connections s !! peer with Some c => conn_client_cert c | None => None end in
    let (h, result) := handle (handler_state s) (er_operation r) (er_label r)
      request_payload content_format client_cert in
    let s := set_handler s h in
    match result with
    | Ok resp => respond s peer r resp now
    | Err e => error s e
    | Panic => (s, Err (Internal join_error))
    end.

Definition process_est_request (s : Server) (peer : SocketAddr) (message : CoapMessage)
  (now : Z) : Server * CoapResult unit :=
  match route_message message with
  | Err e =>
      send_response s peer (build_error_response (msg_token message) (msg_id message) e)
  | Panic => (s, Panic)
  | Ok est_request =>
      match assemble_request s peer message (block1 message) now with
      | (s, Ok (Some request_payload)) =>
          dispatch s peer est_request (content_format message) request_payload now
      | (s, Ok None) => (s, Ok tt)
      | (s, Err e) => (s, Err e)
      | (s, Panic) => (s, Panic)
      end
  end.

Definition process_request (s : Server) (peer : SocketAddr) (message : CoapMessage)
  (now : Z) : Server * CoapResult unit :=
  match block2 message with
  | Some b2 =>
      if 0 <? bo_num b2 then continue_response s peer message (bo_num b2) now
      else process_est_request s peer message now
  | None => process_est_request s peer message now
  end.

Definition EXCHANGE_LIFETIME : Z := 247 * SECS.

Definition live_exchange (now : Z) (e : ExchangeEntry) : bool :=
  elapsed now e.2 <? EXCHANGE_LIFETIME.

Definition process_datagram (s : Server) (data : bytes) (peer : SocketAddr) (now : Z)
  : Server * CoapResult unit :=
  let s := reap_stale_entries s now in
  match parse data with
  | Err e => (s, Err e)
  | Panic => (s, Panic)
  | Ok message =>
      if negb (bool_decide (msg_type message = Confirmable)) &&
         negb (bool_decide (msg_type message = NonConfirmable)) then (s, Ok tt)
      else
        let len := Z.of_nat (length (msg_payload message)) in
        if cfg_max_payload cfg <? len then
          send_response s peer
            (build_error_response (msg_token message) (msg_id message)
               (PayloadTooLarge len (cfg_max_payload cfg)))
        else
          let s := set_exchanges s
            (map_retain (fun _ e => live_exchange now e) (exchanges s)) in
          match exchanges s !! (peer, msg_id message) with
          | Some (request, response, _) =>
              if negb (bool_decide (request = data)) then
                (s, Err (InvalidMessage "message ID reused during exchange lifetime"))
              else
                match response with
                | Some response => send_encoded s peer response
                | None => (s, Ok tt)
                end
          | None =>
              if saturating_mul (cfg_max_block_assemblers cfg) 16 <=?
                 Z.of_nat (size (exchanges s)) then
                (s, Err (Internal "exchange capacity exhausted"))
              else
                let s := set_exchanges s
                  (<[(peer, msg_id message) := (data, None, now)]> (exchanges s)) in
                if negb (code_is_request (msg_code message)) then (s, Ok tt)
                else process_request s peer message now
          end
  end.

(** ** The receive arm of the main loop *)

(** The connections kept on receipt of a datagram. *)
Definition connection_live (now : Z) (c : DtlsConnection) : bool :=
  elapsed now (conn_created_at c) <?
    (if conn_handshake_complete c then cfg_session_ttl cfg else 10 * SECS).

Definition forget_peer (s : Server) (peer : SocketAddr) : Server :=
  let other (k : SocketAddr) := negb (bool_decide (k = peer)) in
  let s := set_assemblers s
    (map_retain (fun k _ => other (key_peer k)) (block_assemblers s)) in
  let s := set_cache s
    (map_retain (fun k _ => other (key_peer k)) (response_cache s)) in
  set_exchanges s (map_retain (fun k _ => other k.1) (exchanges s)).

(** Finds or admits the connection of [peer]: [None] when the table is
    full, [Err] when [DtlsConnection::new] fails, which ends the loop. *)
Definition admit_peer (s : Server) (peer : SocketAddr) (now : Z)
  : Server * CoapResult (option DtlsConnection) :=
  let s := set_connections s (map_retain (fun _ c => connection_live now c) (connections s)) in
  match connections s !! peer with
  | Some c => (s, Ok (Some c))
  | None =>
      if (cfg_max_sessions cfg <=? size (connections s))%nat then (s, Ok None)
      else
        let s := forget_peer s peer in
        match connection_new (env s) now with
        | (e, Ok c) =>
            let s := set_env s e in
            (set_connections s (<[peer := c]> (connections s)), Ok (Some c))
        | (e, Err err) => (set_env s e, Err err)
        | (e, Panic) => (set_env s e, Panic)
        end
  end.

(** Every message is processed; an error is logged and the next one taken. *)
Fixpoint process_messages (s : Server) (l : list bytes) (peer : SocketAddr) (now : Z)
  : Server :=
  match l with
  | [] => s
  | m :: l' => process_messages (process_datagram s m peer now).1 l' peer now
  end.

(** One iteration of the loop in [run] that received [datagram]: [Err]
    leaves the loop. *)
Definition receive_datagram (s : Server) (datagram : bytes) (peer : SocketAddr) (now : Z)
  : Server * CoapResult unit :=
  match admit_peer s peer now with
  | (s, Err e) => (s, Err e)
  | (s, Panic) => (s, Panic)
  | (s, Ok None) => (s, Ok tt)
  | (s, Ok (Some c)) =>
      match conn_receive c datagram with
      | (c, Ok messages) =>
          let (c, packets) := conn_outgoing c in
          let s := set_connections s (<[peer := c]> (connections s)) in
          match send_packets (env s) packets peer with
          | (e, Ok _) => (process_messages (set_env s e) messages peer now, Ok tt)
          | (e, Err err) => (set_env s e, Err err)
          | (e, Panic) => (set_env s e, Panic)
          end
      | (_, Err _) => (set_connections s (delete peer (connections s)), Ok tt)
      | (_, Panic) => (s, Panic)
      end
  end.

(** ** The timer arm of the main loop *)

(** What [retain] does to one connection: [None] drops it, otherwise its
    queued packets are taken. *)
Definition maintain_connection (now : Z) (c : DtlsConnection)
  : option (DtlsConnection * list bytes) :=
  if negb (conn_handshake_complete c) && (10 * SECS <? elapsed now (conn_created_at c))
  then None
  else
    match conn_handle_timeout c with
    | (c, Ok _) => Some (conn_outgoing c)
    | (_, _) => None
    end.

(** Every packet is sent, whether the ones before it failed or not. *)
Definition send_each (e : Env) (packets : list (SocketAddr * bytes)) : Env :=
  foldl (fun e qp => (send_to e qp.2 qp.1).1) e packets.

(** The hash map is visited in the order of the peers in [order]. *)
Definition maintenance_tick (s : Server) (now : Z) (order : list SocketAddr) : Server :=
  let kept := omap (maintain_connection now) (connections s) in
  let packets := order ≫= (fun peer =>
    match kept !! peer with
    | Some (_, l) => map (pair peer) l
    | None => []
    end) in
  let s := set_connections s (fst <$> kept) in
  set_env s (send_each (env s) packets).

(** ** The main loop *)

(** What [select!] yields: the timer fired, [recv_from] failed, or a
    datagram arrived. *)
Inductive server_event : Type :=
  | Tick (now : Z) (order : list SocketAddr)
  | RecvFailed
  | Received (datagram : bytes) (peer : SocketAddr) (now : Z).

Definition server_step (s : Server) (ev : server_event) : Server * CoapResult unit :=
  match ev with
  | Tick now order => (maintenance_tick s now order, Ok tt)
  | RecvFailed => (s, Ok tt)
  | Received datagram peer now => receive_datagram s datagram peer now
  end.

(** [run] over the events that happen: it only returns with an error. *)
Fixpoint run (s : Server) (evs : list server_event) : Server * CoapResult unit :=
  match evs with
  | [] => (s, Ok tt)
  | ev :: evs' =>
      match server_step s ev with
      | (s, Ok _) => run s evs'
      | (s, Err e) => (s, Err e)
      | (s, Panic) => (s, Panic)
      end
  end.
End Server.

Arguments DtlsConnection : clear implicits.
Arguments Server : clear implicits.
