(* ===== verification/CoapServerSpec.v ===== *)
(** * What the CoAP/DTLS server guarantees

    Lemmas and properties of [CoapServer]: how far one datagram reaches into
    the server's tables, the bounds of the tables, message deduplication and
    block-wise transfer. *)
From S2P Require Import Prelude Words Text CoapBlock CoapMessage CoapRouter.
From S2P Require Import DtlsCache CoapServer.
Open Scope Z_scope.

(** An assembler and a cached response stay within the payload limit. *)
Definition assembler_ok (max : Z) (a : BlockAssembler) : Prop :=
  ba_max_payload a = max /\ Z.of_nat (length (ba_buffer a)) <= max.

Section Spec.
Context {Ssl Env H : Type} `{!Transport Ssl Env} `{!EstHandler H}.
Implicit Types s : Server Ssl Env H.
Variable cfg : ServerConfig.

(** ** What one peer's processing may touch *)

(** From [s] to [s'] only the entries of [peer] changed, no exchange was
    forgotten or renewed, the connections are the same up to the state of
    the peer's TLS stream, and the bounds of the tables were respected. *)
Record served (peer : SocketAddr) (s s' : Server Ssl Env H) : Prop := {
  sv_conn_other : forall q, q <> peer -> connections s' !! q = connections s !! q;
  sv_conn_dom : dom (connections s') = dom (connections s);
  sv_conn_cert : conn_client_cert <$> connections s' !! peer =
                 conn_client_cert <$> connections s !! peer;
  sv_exch_meta : forall k, (fun e => (e.1.1, e.2)) <$> exchanges s' !! k =
                           (fun e => (e.1.1, e.2)) <$> exchanges s !! k;
  sv_exch_other : forall k, k.1 <> peer -> exchanges s' !! k = exchanges s !! k;
  sv_asm_other : forall k, key_peer k <> peer ->
    block_assemblers s' !! k = block_assemblers s !! k;
  sv_cache_other : forall k, key_peer k <> peer ->
    response_cache s' !! k = response_cache s !! k;
  sv_asm_bound : Z.of_nat (size (block_assemblers s)) <= cfg_max_block_assemblers cfg ->
    Z.of_nat (size (block_assemblers s')) <= cfg_max_block_assemblers cfg;
  sv_cache_bound : Z.of_nat (size (response_cache s)) <= cfg_max_block_assemblers cfg ->
    Z.of_nat (size (response_cache s')) <= cfg_max_block_assemblers cfg;
  sv_asm_ok : map_Forall (fun _ at_ => assembler_ok (cfg_max_payload cfg) at_.1)
      (block_assemblers s) ->
    map_Forall (fun _ at_ => assembler_ok (cfg_max_payload cfg) at_.1) (block_assemblers s')
}.

Lemma served_refl peer s : served peer s s.
Proof. by constructor. Qed.

Lemma served_trans peer s1 s2 s3 : served peer s1 s2 -> served peer s2 s3 -> served peer s1 s3.
Proof.
  intros A B. constructor.
  - intros q Hq. by rewrite (sv_conn_other _ _ _ B), (sv_conn_other _ _ _ A).
  - by rewrite (sv_conn_dom _ _ _ B), (sv_conn_dom _ _ _ A).
  - by rewrite (sv_conn_cert _ _ _ B), (sv_conn_cert _ _ _ A).
  - intros k. by rewrite (sv_exch_meta _ _ _ B), (sv_exch_meta _ _ _ A).
  - intros k Hk. by rewrite (sv_exch_other _ _ _ B), (sv_exch_other _ _ _ A).
  - intros k Hk. by rewrite (sv_asm_other _ _ _ B), (sv_asm_other _ _ _ A).
  - intros k Hk. by rewrite (sv_cache_other _ _ _ B), (sv_cache_other _ _ _ A).
  - intros Hb. by apply (sv_asm_bound _ _ _ B), (sv_asm_bound _ _ _ A).
  - intros Hb. by apply (sv_cache_bound _ _ _ B), (sv_cache_bound _ _ _ A).
  - intros Hb. by apply (sv_asm_ok _ _ _ B), (sv_asm_ok _ _ _ A).
Qed.

Lemma dom_insert_same {K V} `{Countable K} (m : gmap K V) k v :
  is_Some (m !! k) -> dom (<[k := v]> m) = dom m.
Proof. intros Hk. rewrite dom_insert_L. apply elem_of_dom in Hk. set_solver. Qed.

Lemma conn_encrypt_same (c : DtlsConnection Ssl) data :
  conn_client_cert (conn_encrypt c data).1 = conn_client_cert c.
Proof. unfold conn_encrypt. repeat case_match; done. Qed.

Lemma served_connection peer s c c' e :
  connections s !! peer = Some c -> conn_client_cert c' = conn_client_cert c ->
  served peer s (set_env (set_connections s (<[peer := c']> (connections s))) e).
Proof.
  intros Hc Hcert. constructor; try done; simpl.
  - intros q Hq. by rewrite lookup_insert_ne.
  - by rewrite dom_insert_same.
  - rewrite lookup_insert_eq, Hc. simpl. by rewrite Hcert.
Qed.

(** Sending changes no table but the connections. *)
Lemma send_encoded_served peer s data : served peer s (send_encoded s peer data).1.
Proof.
  unfold send_encoded. destruct (connections s !! peer) as [c|] eqn:Ec;
    [|apply served_refl].
  pose proof (conn_encrypt_same c data) as Hcert.
  destruct (conn_encrypt c data) as [c' r] eqn:Ee; simpl in Hcert.
  destruct r as [u|e|]; simpl.
  - destruct (send_packets _ _ _) as [e r]. simpl. by apply (served_connection _ _ c).
  - by apply (served_connection _ _ c _ (env s)).
  - by apply (served_connection _ _ c _ (env s)).
Qed.

Lemma send_encoded_handler peer s data :
  handler_state (send_encoded s peer data).1 = handler_state s.
Proof.
  unfold send_encoded. destruct (connections s !! peer) as [c|]; [|done].
  destruct (conn_encrypt c data) as [c' [u|e|]]; simpl; try done.
  by destruct (send_packets _ _ _).
Qed.

(** The state [send_response] sends from: the response is remembered. *)
Definition remember (s : Server Ssl Env H) (peer : SocketAddr) (m : CoapMessage) :=
  match exchanges s !! (peer, msg_id m) with
  | Some (request, _, time) =>
      set_exchanges s
        (<[(peer, msg_id m) := (request, Some (encode m), time)]> (exchanges s))
  | None => s
  end.

Lemma send_response_eq s peer m :
  send_response s peer m = send_encoded (remember s peer m) peer (encode m).
Proof. done. Qed.

Lemma remember_served peer s m : served peer s (remember s peer m).
Proof.
  unfold remember. destruct (exchanges s !! (peer, msg_id m)) as [[[req rsp] t]|] eqn:E;
    [|apply served_refl].
  constructor; try done; simpl.
  - intros k. destruct (decide (k = (peer, msg_id m))) as [->|Hk].
    + by rewrite lookup_insert_eq, E.
    + by rewrite lookup_insert_ne.
  - intros k Hk. rewrite lookup_insert_ne; [done|]. by intros <-.
Qed.

Lemma send_response_served peer s m : served peer s (send_response s peer m).1.
Proof.
  rewrite send_response_eq. eapply served_trans;
    [apply remember_served|apply send_encoded_served].
Qed.

Lemma send_response_handler peer s m :
  handler_state (send_response s peer m).1 = handler_state s.
Proof.
  rewrite send_response_eq, send_encoded_handler. unfold remember.
  by destruct (exchanges s !! _) as [[[? ?] ?]|].
Qed.

Lemma served_handler peer s h : served peer s (set_handler s h).
Proof. by constructor. Qed.

Lemma served_cache_insert peer s m e :
  is_Some (response_cache s !! transfer_key peer m) \/
    Z.of_nat (size (response_cache s)) < cfg_max_block_assemblers cfg ->
  served peer s (set_cache s (<[transfer_key peer m := e]> (response_cache s))).
Proof.
  intros Hsz. constructor; try done; simpl.
  - intros k Hk. rewrite lookup_insert_ne; [done|]. by intros <-.
  - intros Hb. destruct Hsz as [[x Hx]|Hlt].
    + by rewrite (size_insert_some _ _ _ x).
    + pose proof (size_insert_le (response_cache s) (transfer_key peer m) e). lia.
Qed.

Lemma served_cache_delete peer s m :
  served peer s (set_cache s (delete (transfer_key peer m) (response_cache s))).
Proof.
  constructor; try done; simpl.
  - intros k Hk. rewrite lookup_delete_ne; [done|]. by intros <-.
  - intros Hb. pose proof (size_delete_le (response_cache s) (transfer_key peer m)). lia.
Qed.

Lemma continue_response_served peer s m num now :
  served peer s (continue_response s peer m num now).1.
Proof.
  unfold continue_response.
  destruct (response_cache s !! _) as [[[[disasm cf] code] t]|] eqn:Ec;
    [|apply send_response_served].
  set (s1 := set_cache s _).
  assert (Hs1 : served peer s s1) by (apply (served_cache_insert peer s m); left; eexists; exact Ec).
  assert (Hs2 := served_trans _ _ _ _ Hs1 (served_cache_delete peer s1 m)).
  destruct (get_block disasm num) as [[data opt]|]; [destruct (negb _)|];
    (eapply served_trans; [|apply send_response_served]); done.
Qed.

Lemma process_block_ok max a b d : assembler_ok max a ->
  assembler_ok max (process_block a b d).1.
Proof.
  intros [Hm Hl]. unfold process_block. destruct (ba_complete a); [done|].
  destruct (negb _); [done|]. simpl. destruct (Z.ltb_spec (ba_max_payload a)
    (Z.of_nat (length (ba_buffer a)) + Z.of_nat (length d))); split; simpl; try done.
  rewrite length_app. lia.
Qed.

Hypothesis max_payload_usize : 0 <= cfg_max_payload cfg.

Lemma assembler_new_ok : assembler_ok (cfg_max_payload cfg) (assembler_new (cfg_max_payload cfg)).
Proof. by split. Qed.

Lemma served_asm_insert peer s m a now :
  is_Some (block_assemblers s !! transfer_key peer m) \/
    Z.of_nat (size (block_assemblers s)) < cfg_max_block_assemblers cfg ->
  (map_Forall (fun _ at_ => assembler_ok (cfg_max_payload cfg) at_.1) (block_assemblers s) ->
   assembler_ok (cfg_max_payload cfg) a) ->
  served peer s (set_assemblers s (<[transfer_key peer m := (a, now)]> (block_assemblers s))).
Proof.
  intros Hsz Ha. constructor; try done; simpl.
  - intros k Hk. rewrite lookup_insert_ne; [done|]. by intros <-.
  - intros Hb. destruct Hsz as [[x Hx]|Hlt].
    + by rewrite (size_insert_some _ _ _ x).
    + pose proof (size_insert_le (block_assemblers s) (transfer_key peer m) (a, now)). lia.
  - intros Hall. apply map_Forall_insert_2; [by apply Ha|done].
Qed.

Lemma served_asm_delete peer s m :
  served peer s (set_assemblers s (delete (transfer_key peer m) (block_assemblers s))).
Proof.
  constructor; try done; simpl.
  - intros k Hk. rewrite lookup_delete_ne; [done|]. by intros <-.
  - intros Hb. pose proof (size_delete_le (block_assemblers s) (transfer_key peer m)). lia.
  - intros Hall. by apply map_Forall_delete.
Qed.

(** The assembler a fragment goes to. *)
Definition assembler_for s peer m : BlockAssembler :=
  match block_assemblers s !! transfer_key peer m with
  | Some (a, _) => a
  | None => assembler_new (cfg_max_payload cfg)
  end.

Lemma assemble_request_served peer s m b now :
  served peer s (assemble_request cfg s peer m b now).1.
Proof.
  unfold assemble_request. destruct b as [b|]; [|apply served_refl]. cbv zeta.
  destruct (_ && _) eqn:Efull; [apply served_refl|].
  fold (assembler_for s peer m).
  destruct (process_block (assembler_for s peer m) b (msg_payload m)) as [a r] eqn:Ep.
  set (s1 := set_assemblers s _).
  assert (Hs1 : served peer s s1).
  { apply (served_asm_insert peer s m).
    - apply andb_false_iff in Efull as [Hk|Hk].
      + apply negb_false_iff, bool_decide_eq_true in Hk. by left.
      + right. by apply Z.leb_gt in Hk.
    - intros Hall. replace a with (process_block (assembler_for s peer m) b (msg_payload m)).1
        by by rewrite Ep.
      apply process_block_ok. unfold assembler_for.
      destruct (block_assemblers s !! transfer_key peer m) as [[a0 t]|] eqn:Ea.
      + apply (Hall _ _ Ea).
      + apply assembler_new_ok. }
  destruct r as [[]|e|]; try exact Hs1.
  - eapply served_trans; [exact Hs1|apply (served_asm_delete peer s1 m)].
  - pose proof (send_response_served peer s1
      (MkMessage COAP_VERSION Acknowledgement (MkCode 2 31) (msg_id m) (msg_token m)
         [from_uint OPTION_BLOCK1 (block_encode b)] [])) as Hsend.
    destruct (send_response _ _ _) as [s2 r2]. simpl in *. by eapply served_trans.
Qed.

Lemma assemble_request_handler peer s m b now :
  handler_state (assemble_request cfg s peer m b now).1 = handler_state s.
Proof.
  unfold assemble_request. destruct b as [b|]; [|done]. cbv zeta.
  destruct (_ && _); [done|]. destruct (process_block _ b _) as [a [[]|e|]]; try done.
  match goal with |- context [send_response ?s1 ?p ?m1] =>
    pose proof (send_response_handler p s1 m1) as Hs; destruct (send_response s1 p m1) end.
  exact Hs.
Qed.

Lemma respond_served peer s r resp now :
  served peer s (respond cfg s peer r resp now).1.
Proof.
  unfold respond. cbv zeta. destruct (_ <? _); [apply served_refl|].
  destruct (_ <? _); [|apply send_response_served].
  match goal with |- context [match get_block ?d 0 with _ => _ end] =>
    destruct (get_block d 0) as [[data opt]|] end.
  - match goal with |- context [send_response s peer ?m1] =>
      pose proof (send_response_served peer s m1) as Hs;
      destruct (send_response s peer m1) as [s1 [u|e|]] end; try exact Hs.
    destruct (Z.ltb_spec (Z.of_nat (size (response_cache s1))) (cfg_max_block_assemblers cfg));
      [|exact Hs].
    eapply served_trans; [exact Hs|]. apply served_cache_insert. by right.
  - destruct (Z.ltb_spec (Z.of_nat (size (response_cache s))) (cfg_max_block_assemblers cfg));
      [|apply served_refl]. apply served_cache_insert. by right.
Qed.

Lemma respond_handler peer s r resp now :
  handler_state (respond cfg s peer r resp now).1 = handler_state s.
Proof.
  unfold respond. cbv zeta. destruct (_ <? _); [done|].
  destruct (_ <? _); [|apply send_response_handler].
  match goal with |- context [match get_block ?d 0 with _ => _ end] =>
    destruct (get_block d 0) as [[data opt]|] end.
  - match goal with |- context [send_response s peer ?m1] =>
      pose proof (send_response_handler peer s m1) as Hs;
      destruct (send_response s peer m1) as [s1 [u|e|]] end; try exact Hs.
    destruct (_ <? _); exact Hs.
  - destruct (_ <? _); done.
Qed.

(** The certificate of a peer's connection. *)
Definition cert_of s peer : option ClientCertInfo :=
  match connections s !! peer with Some c => conn_client_cert c | None => None end.

Lemma served_cert peer s s' : served peer s s' -> cert_of s' peer = cert_of s peer.
Proof.
  intros Hs. pose proof (sv_conn_cert _ _ _ Hs) as Hc. unfold cert_of.
  destruct (connections s' !! peer), (connections s !! peer); simpl in Hc; congruence.
Qed.

Lemma dispatch_served peer s r cf payload now :
  served peer s (dispatch cfg s peer r cf payload now).1.
Proof.
  unfold dispatch. cbv zeta. destruct (_ <? _); [apply send_response_served|].
  destruct (handle _ _ _ _ _ _) as [h res].
  pose proof (served_handler peer s h) as Hh.
  destruct res; [|eapply served_trans; [exact Hh|apply send_response_served]|exact Hh].
  eapply served_trans; [exact Hh|apply respond_served].
Qed.

Lemma dispatch_handler peer s r cf payload now :
  handler_state (dispatch cfg s peer r cf payload now).1 =
  if cfg_max_payload cfg <? Z.of_nat (length payload) then handler_state s
  else (handle (handler_state s) (er_operation r) (er_label r) payload cf (cert_of s peer)).1.
Proof.
  unfold dispatch. cbv zeta. destruct (_ <? _); [apply send_response_handler|].
  fold (cert_of s peer). destruct (handle _ _ _ _ _ _) as [h res].
  destruct res; [by rewrite respond_handler|by rewrite send_response_handler|done].
Qed.

Lemma process_est_request_served peer s m now :
  served peer s (process_est_request cfg s peer m now).1.
Proof.
  unfold process_est_request.
  destruct (route_message m) as [r|e|]; [|apply send_response_served|apply served_refl].
  pose proof (assemble_request_served peer s m (block1 m) now) as Ha.
  destruct (assemble_request cfg s peer m (block1 m) now) as [s1 [[p|]|e|]]; try exact Ha.
  eapply served_trans; [exact Ha|apply dispatch_served].
Qed.

Lemma process_request_served peer s m now :
  served peer s (process_request cfg s peer m now).1.
Proof.
  unfold process_request. destruct (block2 m) as [b|]; [destruct (_ <? _)|].
  - apply continue_response_served.
  - apply process_est_request_served.
  - apply process_est_request_served.
Qed.

Lemma continue_response_handler peer s m num now :
  handler_state (continue_response s peer m num now).1 = handler_state s.
Proof.
  unfold continue_response.
  destruct (response_cache s !! _) as [[[[disasm cf] code] t]|];
    [|apply send_response_handler].
  destruct (get_block disasm num) as [[data opt]|]; [destruct (negb _)|];
    (etransitivity; [apply send_response_handler|done]).
Qed.

(** What the handler saw, if it ran: the request's operation and label, a
    payload within the limit and the certificate of the peer's connection. *)
Definition handled (s s' : Server Ssl Env H) (peer : SocketAddr) (m : CoapMessage) : Prop :=
  exists r payload, route_message m = Ok r /\
    Z.of_nat (length payload) <= cfg_max_payload cfg /\
    (block1 m = None -> payload = msg_payload m) /\
    handler_state s' = (handle (handler_state s) (er_operation r) (er_label r) payload
                          (content_format m) (cert_of s peer)).1.

Lemma process_request_handler peer s m now :
  let s' := (process_request cfg s peer m now).1 in
  handler_state s' = handler_state s \/ handled s s' peer m.
Proof.
  assert (Hest : let s' := (process_est_request cfg s peer m now).1 in
    handler_state s' = handler_state s \/ handled s s' peer m).
  { unfold process_est_request.
    destruct (route_message m) as [r|e|] eqn:Er;
      [|left; apply send_response_handler|by left].
    pose proof (assemble_request_served peer s m (block1 m) now) as Ha.
    pose proof (assemble_request_handler peer s m (block1 m) now) as Hh.
    destruct (assemble_request cfg s peer m (block1 m) now) as [s1 [[p|]|e|]] eqn:Ea;
      try by left. simpl in *.
    pose proof (dispatch_handler peer s1 r (content_format m) p now) as Hd.
    destruct (Z.ltb_spec (cfg_max_payload cfg) (Z.of_nat (length p)));
      [left; congruence|right].
    exists r, p. split; [done|]. split; [done|]. split.
    - intros Hb. unfold assemble_request in Ea. rewrite Hb in Ea. by injection Ea as _ <-.
    - by rewrite Hd, Hh, (served_cert _ _ _ Ha). }
  unfold process_request. destruct (block2 m) as [b|]; [destruct (_ <? _)|]; try exact Hest.
  left. apply continue_response_handler.
Qed.

(** ** One datagram *)

(** The state after reaping and forgetting the expired exchanges. *)
Definition swept (s : Server Ssl Env H) (now : Z) : Server Ssl Env H :=
  set_exchanges (reap_stale_entries cfg s now)
    (map_retain (fun _ e => live_exchange now e) (exchanges s)).

Definition register (s : Server Ssl Env H) (peer : SocketAddr) (id : Z) (data : bytes)
  (now : Z) : Server Ssl Env H :=
  set_exchanges s (<[(peer, id) := (data, None, now)]> (exchanges s)).

(** A message the server takes for a request: confirmable or not, of an
    admissible size. *)
Definition request_shape (m : CoapMessage) : Prop :=
  (msg_type m = Confirmable \/ msg_type m = NonConfirmable) /\
  Z.of_nat (length (msg_payload m)) <= cfg_max_payload cfg.

(** The ways a datagram can go. *)
Inductive datagram_case (s : Server Ssl Env H) (data : bytes) (peer : SocketAddr) (now : Z)
  : Server Ssl Env H -> CoapResult unit -> Prop :=
  | CaseDropped r :
      datagram_case s data peer now (reap_stale_entries cfg s now) r
  | CaseTooLarge s' r m :
      send_response (reap_stale_entries cfg s now) peer m = (s', r) ->
      datagram_case s data peer now s' r
  | CaseReused m e : parse data = Ok m ->
      exchanges (swept s now) !! (peer, msg_id m) = Some e -> e.1.1 <> data ->
      datagram_case s data peer now (swept s now)
        (Err (InvalidMessage "message ID reused during exchange lifetime"))
  | CaseReplayed m e rsp s' r : parse data = Ok m ->
      exchanges (swept s now) !! (peer, msg_id m) = Some e -> e.1 = (data, Some rsp) ->
      send_encoded (swept s now) peer rsp = (s', r) -> datagram_case s data peer now s' r
  | CasePending m e : parse data = Ok m ->
      exchanges (swept s now) !! (peer, msg_id m) = Some e -> e.1 = (data, None) ->
      datagram_case s data peer now (swept s now) (Ok tt)
  | CaseExhausted m : parse data = Ok m ->
      exchanges (swept s now) !! (peer, msg_id m) = None ->
      datagram_case s data peer now (swept s now)
        (Err (Internal "exchange capacity exhausted"))
  | CaseIgnored m : parse data = Ok m ->
      exchanges (swept s now) !! (peer, msg_id m) = None ->
      Z.of_nat (size (exchanges (swept s now))) <
        saturating_mul (cfg_max_block_assemblers cfg) 16 ->
      datagram_case s data peer now (register (swept s now) peer (msg_id m) data now) (Ok tt)
  | CaseProcessed m s' r : parse data = Ok m ->
      exchanges (swept s now) !! (peer, msg_id m) = None ->
      Z.of_nat (size (exchanges (swept s now))) <
        saturating_mul (cfg_max_block_assemblers cfg) 16 ->
      process_request cfg (register (swept s now) peer (msg_id m) data now) peer m now
        = (s', r) -> request_shape m -> datagram_case s data peer now s' r.

Lemma process_datagram_case s data peer now :
  let (s', r) := process_datagram cfg s data peer now in
  datagram_case s data peer now s' r.
Proof.
  unfold process_datagram. cbv zeta.
  destruct (parse data) as [m|e|] eqn:Ep; [|apply CaseDropped..].
  destruct (_ && _) eqn:Ety; [apply CaseDropped|].
  assert (Hty : msg_type m = Confirmable \/ msg_type m = NonConfirmable)
    by (destruct (msg_type m); simpl in Ety; auto; discriminate).
  clear Ety.
  destruct (Z.ltb_spec (cfg_max_payload cfg) (Z.of_nat (length (msg_payload m)))).
  { destruct (send_response _ _ _) as [s' r] eqn:Es. by eapply CaseTooLarge. }
  change (set_exchanges (reap_stale_entries cfg s now) _) with (swept s now).
  destruct (exchanges (swept s now) !! (peer, msg_id m)) as [[[req rsp] t]|] eqn:Ee.
  - destruct (negb _) eqn:Ed.
    + apply negb_true_iff, bool_decide_eq_false in Ed. by eapply CaseReused.
    + apply negb_false_iff, bool_decide_eq_true in Ed. subst req.
      destruct rsp as [rsp|]; [|by eapply CasePending].
      destruct (send_encoded _ _ _) as [s' r] eqn:Es. by eapply CaseReplayed.
  - destruct (Z.leb_spec (saturating_mul (cfg_max_block_assemblers cfg) 16)
      (Z.of_nat (size (exchanges (swept s now))))); [by eapply CaseExhausted|].
    change (set_exchanges (swept s now) _) with (register (swept s now) peer (msg_id m) data now).
    destruct (negb _); [by apply CaseIgnored|].
    destruct (process_request _ _ _ _ _) as [s' r] eqn:Er. by eapply CaseProcessed.
Qed.

(** ** Bounds *)

Record server_bounded (s : Server Ssl Env H) : Prop := {
  b_conn : (size (connections s) <= cfg_max_sessions cfg)%nat;
  b_asm : Z.of_nat (size (block_assemblers s)) <= cfg_max_block_assemblers cfg;
  b_cache : Z.of_nat (size (response_cache s)) <= cfg_max_block_assemblers cfg;
  b_exch : Z.of_nat (size (exchanges s)) <=
    saturating_mul (cfg_max_block_assemblers cfg) 16;
  b_payload : map_Forall (fun _ at_ => assembler_ok (cfg_max_payload cfg) at_.1)
    (block_assemblers s)
}.

Lemma served_exch_dom peer s s' : served peer s s' -> dom (exchanges s') = dom (exchanges s).
Proof.
  intros Hs. apply set_eq. intros k. rewrite !elem_of_dom.
  pose proof (sv_exch_meta _ _ _ Hs k) as Hk.
  destruct (exchanges s' !! k), (exchanges s !! k); simpl in Hk; try discriminate;
    split; intros [? ?]; try discriminate; by eexists.
Qed.

Lemma served_bounded peer s s' : served peer s s' -> server_bounded s -> server_bounded s'.
Proof.
  intros Hs [Hc Ha Hr He Hp]. constructor.
  - by rewrite <- size_dom, (sv_conn_dom _ _ _ Hs), size_dom.
  - by apply (sv_asm_bound _ _ _ Hs).
  - by apply (sv_cache_bound _ _ _ Hs).
  - by rewrite <- size_dom, (served_exch_dom _ _ _ Hs), size_dom.
  - by apply (sv_asm_ok _ _ _ Hs).
Qed.

Lemma map_retain_Forall {K V} `{Countable K} (P : K -> V -> Prop) p (m : gmap K V) :
  map_Forall P m -> map_Forall P (map_retain p m).
Proof. intros Hm k v Hk. apply map_retain_lookup_Some in Hk as [Hk _]. by apply Hm. Qed.

Lemma map_retain_bound {K V} `{Countable K} p (m : gmap K V) b :
  Z.of_nat (size m) <= b -> Z.of_nat (size (map_retain p m)) <= b.
Proof. pose proof (map_retain_size_le p m). lia. Qed.

Lemma reap_bounded s now : server_bounded s -> server_bounded (reap_stale_entries cfg s now).
Proof.
  intros [Hc Ha Hr He Hp].
  constructor; simpl; auto using map_retain_bound, map_retain_Forall.
Qed.

Lemma swept_bounded s now : server_bounded s -> server_bounded (swept s now).
Proof.
  intros Hs. destruct (reap_bounded s now Hs) as [Hc Ha Hr He Hp].
  constructor; simpl in *; auto using map_retain_bound.
Qed.

Lemma register_bounded s peer id data now : server_bounded s ->
  Z.of_nat (size (exchanges s)) < saturating_mul (cfg_max_block_assemblers cfg) 16 ->
  server_bounded (register s peer id data now).
Proof.
  intros [Hc Ha Hr He Hp] Hlt. constructor; simpl; auto.
  eapply Z.le_trans; [apply inj_le, size_insert_le|]. lia.
Qed.

Lemma process_datagram_bounded s data peer now : server_bounded s ->
  server_bounded (process_datagram cfg s data peer now).1.
Proof.
  intros Hs. pose proof (process_datagram_case s data peer now) as Hc.
  destruct (process_datagram cfg s data peer now) as [s' r]. simpl.
  pose proof (swept_bounded s now Hs) as Hsw.
  destruct Hc as [r|s' r m E|m e|m e rsp s' r _ _ _ E|m e|m|m ? ? Hlt|m s' r ? ? Hlt E];
    try done.
  - by apply reap_bounded.
  - eapply served_bounded; [|apply (reap_bounded s now Hs)].
    pose proof (send_response_served peer (reap_stale_entries cfg s now) m) as Hv.
    by rewrite E in Hv.
  - eapply served_bounded; [|exact Hsw].
    pose proof (send_encoded_served peer (swept s now) rsp) as Hv. by rewrite E in Hv.
  - by apply register_bounded.
  - eapply served_bounded; [|apply (register_bounded _ peer (msg_id m) data now Hsw Hlt)].
    pose proof (process_request_served peer
      (register (swept s now) peer (msg_id m) data now) m now) as Hv.
    by rewrite E in Hv.
Qed.

Lemma process_messages_bounded l s peer now : server_bounded s ->
  server_bounded (process_messages cfg s l peer now).
Proof.
  revert s. induction l as [|m l IH]; intros s Hs; simpl; [done|].
  by apply IH, process_datagram_bounded.
Qed.

Lemma set_env_bounded s e : server_bounded s -> server_bounded (set_env s e).
Proof. by intros [? ? ? ? ?]. Qed.

Lemma set_connections_bounded s m : server_bounded s ->
  (size m <= cfg_max_sessions cfg)%nat -> server_bounded (set_connections s m).
Proof. by intros [? ? ? ? ?]. Qed.

Lemma forget_peer_bounded s peer : server_bounded s -> server_bounded (forget_peer s peer).
Proof.
  intros [Hc Ha Hr He Hp].
  constructor; simpl; auto using map_retain_bound, map_retain_Forall.
Qed.

(** An admitted connection is in the table. *)
Lemma admit_peer_bounded s peer now : server_bounded s ->
  server_bounded (admit_peer cfg s peer now).1 /\
  forall c, (admit_peer cfg s peer now).2 = Ok (Some c) ->
    connections (admit_peer cfg s peer now).1 !! peer = Some c.
Proof.
  intros Hs. unfold admit_peer. cbv zeta. set (s1 := set_connections s _).
  assert (H1 : server_bounded s1).
  { apply set_connections_bounded; [done|].
    etransitivity; [apply map_retain_size_le|apply (b_conn _ Hs)]. }
  destruct (connections s1 !! peer) as [c|] eqn:Ec;
    [split; [done|simpl; naive_solver]|].
  destruct (Nat.leb_spec (cfg_max_sessions cfg) (size (connections s1)));
    [split; [done|simpl; naive_solver]|].
  pose proof (forget_peer_bounded _ peer H1) as Hf.
  destruct (connection_new _ now) as [e [c|err|]]; cbn [fst snd];
    [|split; [by apply set_env_bounded|done]..].
  split; [|intros c' [= ->]; apply lookup_insert_eq].
  apply set_connections_bounded; [by apply set_env_bounded|].
  cbn [connections set_env forget_peer set_exchanges set_cache set_assemblers]. pose proof (size_insert_le (connections s1) peer c). lia.
Qed.

Lemma receive_datagram_bounded s datagram peer now : server_bounded s ->
  server_bounded (receive_datagram cfg s datagram peer now).1.
Proof.
  intros Hs. unfold receive_datagram.
  destruct (admit_peer_bounded s peer now Hs) as [Hb Hin].
  destruct (admit_peer cfg s peer now) as [s1 [[c|]|e|]]; simpl in *; try done.
  destruct (conn_receive c datagram) as [c' [msgs|e|]]; simpl.
  - set (c2 := with_stream c' _). set (s2 := set_connections s1 _).
    assert (H2 : server_bounded s2).
    { apply set_connections_bounded; [done|].
      rewrite (size_insert_some _ _ _ c) by by apply Hin. apply (b_conn _ Hb). }
    destruct (send_packets _ _ _) as [e [u|err|]]; simpl; try by apply set_env_bounded.
    by apply process_messages_bounded, set_env_bounded.
  - apply set_connections_bounded; [done|].
    pose proof (size_delete_le (connections s1) peer). pose proof (b_conn _ Hb). lia.
  - done.
Qed.

(** ** The timer *)

Lemma maintenance_lookup (s : Server Ssl Env H) now order q c' :
  connections (maintenance_tick s now order) !! q = Some c' <->
  exists c l, connections s !! q = Some c /\ maintain_connection now c = Some (c', l).
Proof.
  unfold maintenance_tick. cbn [connections set_env set_connections].
  rewrite lookup_fmap_Some. setoid_rewrite lookup_omap_Some. split.
  - intros [[c l] [<- (c0 & Hm & Hc)]]. by exists c0, l.
  - intros (c & l & Hc & Hm). exists (c', l). split; [done|]. by exists c.
Qed.

(** A connection that the timer keeps is the same but for the state of the
    TLS session and the queue of packets. *)
Lemma maintain_connection_same now (c c' : DtlsConnection Ssl) l :
  maintain_connection now c = Some (c', l) ->
  conn_client_cert c' = conn_client_cert c /\
  conn_handshake_complete c' = conn_handshake_complete c /\
  conn_created_at c' = conn_created_at c /\ outgoing (conn_io c') = [] /\
  (conn_handshake_complete c = false -> elapsed now (conn_created_at c) <= 10 * SECS).
Proof.
  unfold maintain_connection, conn_handle_timeout, conn_outgoing. intros E.
  destruct (negb (conn_handshake_complete c) && _) eqn:Eg; [done|].
  destruct (ssl_timeout _) as [st res]. destruct (res <? 0); [done|]. simplify_eq/=.
  do 4 (split; [done|]). intros Hc. rewrite Hc in Eg. by apply Z.ltb_ge in Eg.
Qed.

Lemma maintenance_size (s : Server Ssl Env H) now order :
  (size (connections (maintenance_tick s now order)) <= size (connections s))%nat.
Proof.
  rewrite <- !size_dom. apply subseteq_size. intros q Hq.
  apply elem_of_dom in Hq as [c' Hc]. apply maintenance_lookup in Hc as (c & l & Hc & _).
  by apply elem_of_dom.
Qed.

Lemma server_step_bounded s ev : server_bounded s ->
  server_bounded (server_step cfg s ev).1.
Proof.
  intros Hs. destruct ev as [now order| |datagram peer now]; simpl.
  - apply set_env_bounded, set_connections_bounded; [done|].
    etransitivity; [apply (maintenance_size s now order)|apply (b_conn _ Hs)].
  - done.
  - by apply receive_datagram_bounded.
Qed.

(** An invariant of the steps holds whenever the loop stops. *)
Lemma run_inv (P : Server Ssl Env H -> Prop) s evs :
  (forall s ev, P s -> P (server_step cfg s ev).1) -> P s -> P (run cfg s evs).1.
Proof.
  intros Hstep. revert s. induction evs as [|ev evs IH]; intros s Hs; simpl; [done|].
  pose proof (Hstep s ev Hs) as H1.
  destruct (server_step cfg s ev) as [s1 [u|e|]]; simpl in *; auto.
Qed.

(** ** Exchanges *)

Definition request_of (e : ExchangeEntry) : bytes * Z := (e.1.1, e.2).

Lemma request_of_lookup s k req t :
  request_of <$> exchanges s !! k = Some (req, t) <->
  exists rsp, exchanges s !! k = Some (req, rsp, t).
Proof.
  destruct (exchanges s !! k) as [[[q o] u]|]; simpl; [|naive_solver].
  split; [intros [= -> ->]; by exists o|]. by intros [rsp [= -> -> ->]].
Qed.

Lemma swept_exchange s now k e :
  exchanges (swept s now) !! k = Some e <->
  exchanges s !! k = Some e /\ live_exchange now e = true.
Proof. unfold swept. cbn [exchanges set_exchanges]. by rewrite map_retain_lookup_Some. Qed.

(** A live exchange survives the processing of any datagram. *)
Lemma exchange_kept s data peer now k req t :
  request_of <$> exchanges s !! k = Some (req, t) -> elapsed now t < EXCHANGE_LIFETIME ->
  request_of <$> exchanges (process_datagram cfg s data peer now).1 !! k = Some (req, t).
Proof.
  intros Hk Hlive. pose proof (process_datagram_case s data peer now) as Hc.
  destruct (process_datagram cfg s data peer now) as [s' r]. simpl.
  assert (Hsw : request_of <$> exchanges (swept s now) !! k = Some (req, t)).
  { apply request_of_lookup in Hk as [rsp Hk]. apply request_of_lookup. exists rsp.
    apply swept_exchange. split; [done|]. unfold live_exchange. by apply Z.ltb_lt. }
  assert (Hreg : forall id, exchanges (swept s now) !! (peer, id) = None ->
    request_of <$> exchanges (register (swept s now) peer id data now) !! k = Some (req, t)).
  { intros id Hn. simpl. rewrite lookup_insert_ne; [exact Hsw|]. intros <-.
    by rewrite Hn in Hsw. }
  destruct Hc as [r|s' r m E|m e|m e rsp s' r _ _ _ E|m e|m|m ? Hn _|m s' r ? Hn _ E];
    try done.
  - rewrite <- Hk. pose proof (send_response_served peer (reap_stale_entries cfg s now) m) as Hv.
    rewrite E in Hv. exact (sv_exch_meta _ _ _ Hv k).
  - rewrite <- Hsw. pose proof (send_encoded_served peer (swept s now) rsp) as Hv.
    rewrite E in Hv. exact (sv_exch_meta _ _ _ Hv k).
  - by apply Hreg.
  - rewrite <- (Hreg _ Hn). pose proof (process_request_served peer
      (register (swept s now) peer (msg_id m) data now) m now) as Hv.
    rewrite E in Hv. exact (sv_exch_meta _ _ _ Hv k).
Qed.

(** The processing of a sequence of datagrams: payload, sender and time. *)
Definition process_all s (l : list (bytes * SocketAddr * Z)) : Server Ssl Env H :=
  run_steps (fun s d => (process_datagram cfg s d.1.1 d.1.2 d.2).1) s l.

Lemma exchange_kept_all l s k req t :
  request_of <$> exchanges s !! k = Some (req, t) ->
  Forall (fun d => elapsed d.2 t < EXCHANGE_LIFETIME) l ->
  request_of <$> exchanges (process_all s l) !! k = Some (req, t).
Proof.
  revert s. induction l as [|d l IH]; intros s Hk Hl; [done|].
  inversion Hl; subst. unfold process_all. simpl. apply IH; [|done]. by apply exchange_kept.
Qed.

(** A datagram whose exchange is live is answered from the table. *)
Lemma process_known s data m peer now e :
  parse data = Ok m -> exchanges (swept s now) !! (peer, msg_id m) = Some e ->
  handler_state (process_datagram cfg s data peer now).1 = handler_state s.
Proof.
  intros Hp Hk. pose proof (process_datagram_case s data peer now) as Hc.
  destruct (process_datagram cfg s data peer now) as [s' r]. simpl.
  destruct Hc as [r|s' r m' E|m' e'|m' e' rsp s' r _ _ _ E|m' e'|m'|m'|m' s' r ? ? ? ?];
    try (assert (m' = m) as -> by congruence); try done; try congruence.
  - pose proof (send_response_handler peer (reap_stale_entries cfg s now) m') as Hv.
    by rewrite E in Hv.
  - pose proof (send_encoded_handler peer (swept s now) rsp) as Hv. by rewrite E in Hv.
Qed.

(** What a processed datagram did to the handler's state. *)
Lemma process_datagram_handler s data peer now :
  let s' := (process_datagram cfg s data peer now).1 in
  handler_state s' = handler_state s \/
  exists m, parse data = Ok m /\
    exchanges (swept s now) !! (peer, msg_id m) = None /\ request_shape m /\
    request_of <$> exchanges s' !! (peer, msg_id m) = Some (data, now) /\
    handled s s' peer m.
Proof.
  pose proof (process_datagram_case s data peer now) as Hc.
  destruct (process_datagram cfg s data peer now) as [s' r]. simpl.
  destruct Hc as [r|s' r m' E|m' e'|m' e' rsp s' r _ _ _ E|m' e'|m'|m'|m s' r Hp Hn _ E];
    try by left.
  - left. pose proof (send_response_handler peer (reap_stale_entries cfg s now) m') as Hv.
    by rewrite E in Hv.
  - left. pose proof (send_encoded_handler peer (swept s now) rsp) as Hv.
    by rewrite E in Hv.
  - set (s1 := register (swept s now) peer (msg_id m) data now) in *.
    pose proof (process_request_handler peer s1 m now) as Hh.
    pose proof (process_request_served peer s1 m now) as Hv.
    rewrite E in Hh, Hv. simpl in Hh, Hv. destruct Hh as [Hh|Hh]; [by left|right].
    exists m. split; [done|]. split; [done|]. split; [done|]. split.
    + etransitivity; [exact (sv_exch_meta _ _ _ Hv (peer, msg_id m))|].
      simpl. by rewrite lookup_insert_eq.
    + exact Hh.
Qed.

(** ** Isolation *)

Lemma process_datagram_other s data peer now :
  let s' := (process_datagram cfg s data peer now).1 in
  (forall q, q <> peer -> connections s' !! q = connections s !! q) /\
  (forall k, key_peer k <> peer -> block_assemblers s' !! k =
     block_assemblers (reap_stale_entries cfg s now) !! k) /\
  (forall k, key_peer k <> peer -> response_cache s' !! k =
     response_cache (reap_stale_entries cfg s now) !! k) /\
  (forall k e, k.1 <> peer -> exchanges s' !! k = Some e -> exchanges s !! k = Some e) /\
  (forall k e, k.1 <> peer -> exchanges s !! k = Some e -> live_exchange now e = true ->
     exchanges s' !! k = Some e).
Proof.
  pose proof (process_datagram_case s data peer now) as Hc.
  destruct (process_datagram cfg s data peer now) as [s' r]. cbn [fst].
  assert (Hgen : forall s1, connections s1 = connections s ->
    block_assemblers s1 = block_assemblers (reap_stale_entries cfg s now) ->
    response_cache s1 = response_cache (reap_stale_entries cfg s now) ->
    (forall k, k.1 <> peer -> exchanges s1 !! k = exchanges s !! k \/
       exchanges s1 !! k = exchanges (swept s now) !! k) ->
    served peer s1 s' ->
    (forall q, q <> peer -> connections s' !! q = connections s !! q) /\
    (forall k, key_peer k <> peer -> block_assemblers s' !! k =
       block_assemblers (reap_stale_entries cfg s now) !! k) /\
    (forall k, key_peer k <> peer -> response_cache s' !! k =
       response_cache (reap_stale_entries cfg s now) !! k) /\
    (forall k e, k.1 <> peer -> exchanges s' !! k = Some e -> exchanges s !! k = Some e) /\
    (forall k e, k.1 <> peer -> exchanges s !! k = Some e -> live_exchange now e = true ->
       exchanges s' !! k = Some e)).
  { intros s1 E1 E2 E3 E4 Hv. split; [|split; [|split; [|split]]].
    - intros q Hq. by rewrite (sv_conn_other _ _ _ Hv), E1.
    - intros k Hk. by rewrite (sv_asm_other _ _ _ Hv), E2.
    - intros k Hk. by rewrite (sv_cache_other _ _ _ Hv), E3.
    - intros k e Hk. rewrite (sv_exch_other _ _ _ Hv) by done.
      destruct (E4 k Hk) as [-> | ->]; [done|]. rewrite swept_exchange. naive_solver.
    - intros k e Hk He Hl. rewrite (sv_exch_other _ _ _ Hv) by done.
      destruct (E4 k Hk) as [-> | ->]; [done|]. rewrite swept_exchange. naive_solver. }
  assert (Hreg : forall id k, k.1 <> peer ->
    exchanges (register (swept s now) peer id data now) !! k = exchanges (swept s now) !! k).
  { intros id k Hk. simpl. rewrite lookup_insert_ne; [done|]. by intros <-. }
  destruct Hc as [r|s' r m E|m e|m e rsp s' r _ _ _ E|m e|m|m ? Hn _|m s' r ? Hn _ E].
  - apply (Hgen (reap_stale_entries cfg s now)); auto using served_refl.
  - apply (Hgen (reap_stale_entries cfg s now)); auto.
    pose proof (send_response_served peer (reap_stale_entries cfg s now) m) as Hv.
    by rewrite E in Hv.
  - apply (Hgen (swept s now)); auto using served_refl.
  - apply (Hgen (swept s now)); auto.
    pose proof (send_encoded_served peer (swept s now) rsp) as Hv. by rewrite E in Hv.
  - apply (Hgen (swept s now)); auto using served_refl.
  - apply (Hgen (swept s now)); auto using served_refl.
  - apply (Hgen (register (swept s now) peer (msg_id m) data now)); auto using served_refl.
  - apply (Hgen (register (swept s now) peer (msg_id m) data now)); auto.
    pose proof (process_request_served peer
      (register (swept s now) peer (msg_id m) data now) m now) as Hv. by rewrite E in Hv.
Qed.

(** ** Authentication *)

(** Runs of the handler on behalf of one certificate. *)
Inductive authenticated_calls (cert : ClientCertInfo) : H -> H -> Prop :=
  | calls_nil h : authenticated_calls cert h h
  | calls_cons h op label payload cf h' :
      Z.of_nat (length payload) <= cfg_max_payload cfg ->
      authenticated_calls cert (handle h op label payload cf (Some cert)).1 h' ->
      authenticated_calls cert h h'.

(** A complete handshake has left a client certificate. *)
Definition conns_authenticated (s : Server Ssl Env H) : Prop :=
  forall q c, connections s !! q = Some c -> conn_handshake_complete c = true ->
    is_Some (conn_client_cert c).

Lemma conn_receive_cert (c : DtlsConnection Ssl) d c' l :
  (conn_handshake_complete c = true -> is_Some (conn_client_cert c)) ->
  conn_receive c d = (c', Ok l) ->
  (conn_handshake_complete c' = true -> is_Some (conn_client_cert c')) /\
  (l <> [] -> is_Some (conn_client_cert c')).
Proof.
  intros Hc E. unfold conn_receive, read_records in E. cbv zeta in E.
  destruct c as [ssl io cert hs cr]. simpl in *.
  destruct hs; simpl in E.
  - destruct (ssl_reads _) as [st [l' [t|]]]; simplify_eq; simpl. split; auto.
  - destruct (ssl_accept _) as [st [u|[] t]]; simplify_eq/=; [|by split].
    destruct (peer_certificate _) as [[der|t|]|]; simplify_eq/=.
    destruct (from_der der) as [ci|]; simplify_eq/=.
    destruct (ssl_reads _) as [st' [l' [t|]]]; simplify_eq; simpl. split; auto.
Qed.

Lemma conn_encrypt_complete (c : DtlsConnection Ssl) data :
  conn_handshake_complete (conn_encrypt c data).1 = conn_handshake_complete c.
Proof. unfold conn_encrypt. destruct c as [? ? ? []]; simpl; repeat case_match; done. Qed.

Lemma process_messages_served l s peer now cert : cert_of s peer = Some cert ->
  let s' := process_messages cfg s l peer now in
  cert_of s' peer = Some cert /\
  (forall q, q <> peer -> connections s' !! q = connections s !! q) /\
  authenticated_calls cert (handler_state s) (handler_state s').
Proof.
  revert s. induction l as [|m l IH]; intros s Hc; simpl; [split; [done|]; split; [done|constructor]|].
  pose proof (process_datagram_handler s m peer now) as Hh.
  pose proof (process_datagram_other s m peer now) as (Ho & _).
  assert (Hc1 : cert_of (process_datagram cfg s m peer now).1 peer = Some cert).
  { rewrite <- Hc. pose proof (process_datagram_case s m peer now) as Hcase.
    destruct (process_datagram cfg s m peer now) as [s' r]. simpl.
    destruct Hcase as [r|s' r m' E|m' e|m' e rsp s' r _ _ _ E|m' e|m'|m'|m' s' r ? Hn _ E];
      try done.
    - pose proof (send_response_served peer (reap_stale_entries cfg s now) m') as Hv.
      rewrite E in Hv. exact (served_cert _ _ _ Hv).
    - pose proof (send_encoded_served peer (swept s now) rsp) as Hv.
      rewrite E in Hv. exact (served_cert _ _ _ Hv).
    - pose proof (process_request_served peer
        (register (swept s now) peer (msg_id m') m now) m' now) as Hv.
      rewrite E in Hv. exact (served_cert _ _ _ Hv). }
  destruct (IH _ Hc1) as (IH1 & IH2 & IH3). split; [done|]. split.
  - intros q Hq. by rewrite IH2, Ho.
  - destruct Hh as [Hh|(m' & _ & _ & _ & _ & r & p & _ & Hp & _ & Hh)].
    + by rewrite <- Hh.
    + rewrite Hc in Hh. eapply calls_cons; [exact Hp|]. by rewrite <- Hh.
Qed.

Lemma conns_authenticated_insert s m q c :
  conns_authenticated s -> m ⊆ connections s ->
  (conn_handshake_complete c = true -> is_Some (conn_client_cert c)) ->
  conns_authenticated (set_connections s (<[q := c]> m)).
Proof.
  intros Hs Hm Hc p d Hd Hcomp. simpl in Hd.
  apply lookup_insert_Some in Hd as [[<- <-]|[_ Hd]]; [by apply Hc|].
  eapply Hs; [eapply lookup_weaken; [exact Hd|done]|done].
Qed.

Lemma conns_authenticated_sub s m : conns_authenticated s -> m ⊆ connections s ->
  conns_authenticated (set_connections s m).
Proof.
  intros Hs Hm p d Hd Hcomp. eapply Hs; [eapply lookup_weaken; [exact Hd|done]|done].
Qed.

Lemma admit_peer_authenticated s peer now : conns_authenticated s ->
  let s' := (admit_peer cfg s peer now).1 in
  conns_authenticated s' /\ handler_state s' = handler_state s /\
  forall c, (admit_peer cfg s peer now).2 = Ok (Some c) ->
    conn_handshake_complete c = true -> is_Some (conn_client_cert c).
Proof.
  intros Hs. unfold admit_peer. cbv zeta. set (s1 := set_connections s _).
  assert (H1 : conns_authenticated s1)
    by (apply conns_authenticated_sub; [done|apply map_retain_subseteq]).
  destruct (connections s1 !! peer) as [c|] eqn:Ec.
  { split; [done|]. split; [done|]. intros c' [= ->]. by apply (H1 peer). }
  destruct (_ <=? _)%nat; [done|]. unfold connection_new.
  destruct (ssl_new _) as [e [ssl|t|]]; cbn [fst snd]; [|done..].
  split; [|split; [done|]].
  - by apply (conns_authenticated_insert (set_env (forget_peer s1 peer) e)).
  - by intros c' [= <-].
Qed.

Lemma receive_authenticated s datagram peer now : conns_authenticated s ->
  let s' := (receive_datagram cfg s datagram peer now).1 in
  conns_authenticated s' /\
  (handler_state s' = handler_state s \/
   exists cert, cert_of s' peer = Some cert /\
     authenticated_calls cert (handler_state s) (handler_state s')).
Proof.
  intros Hs. unfold receive_datagram.
  destruct (admit_peer_authenticated s peer now Hs) as (Ha & Hh & Hc).
  destruct (admit_peer cfg s peer now) as [s1 [[c|]|e|]]; cbn [fst snd] in *;
    try (split; [done|by left]).
  destruct (conn_receive c datagram) as [c' [msgs|e|]] eqn:Er; cbn [fst].
  - destruct (conn_receive_cert c datagram c' msgs (Hc c eq_refl) Er) as [Hc1 Hc2].
    unfold conn_outgoing. set (c2 := with_stream c' _). set (s2 := set_connections s1 _).
    assert (H2 : conns_authenticated s2) by by apply conns_authenticated_insert.
    destruct (send_packets _ _ _) as [e [u|err|]]; cbn [fst]; [|split; [done|by left]..].
    destruct msgs as [|m l]; [split; [done|by left]|].
    destruct (Hc2 ltac:(done)) as [cert Hcert].
    destruct (process_messages_served (m :: l) (set_env s2 e) peer now cert)
      as (P1 & P2 & P3).
    { unfold cert_of, s2. simpl. by rewrite lookup_insert_eq. }
    split.
    + intros q d Hd Hcomp. destruct (decide (q = peer)) as [->|Hq].
      * unfold cert_of in P1. rewrite Hd in P1. by eexists.
      * rewrite P2 in Hd by done. by apply (H2 q).
    + right. exists cert. split; [done|]. by rewrite <- Hh.
  - split; [|by left]. apply conns_authenticated_sub; [done|apply delete_subseteq].
  - split; [done|by left].
Qed.

Lemma maintenance_authenticated s now order : conns_authenticated s ->
  conns_authenticated (maintenance_tick s now order).
Proof.
  intros Hs q c Hq Hcomp. apply maintenance_lookup in Hq as (c0 & l & Hc & Hm).
  apply maintain_connection_same in Hm as (Hcert & Hc0 & _). rewrite Hcert.
  apply (Hs q); [done|]. by rewrite <- Hc0.
Qed.

Lemma server_step_authenticated s ev : conns_authenticated s ->
  conns_authenticated (server_step cfg s ev).1.
Proof.
  intros Hs. destruct ev as [now order| |datagram peer now]; simpl.
  - by apply maintenance_authenticated.
  - done.
  - by apply receive_authenticated.
Qed.

(** ** Runs of the server *)

(** The server after [bind]: empty tables. *)
Definition server_start (e : Env) (h : H) : Server Ssl Env H := MkServer ∅ ∅ ∅ ∅ e h.

(** The state in which the main loop is after the events. *)
Definition run_server s (evs : list server_event) : Server Ssl Env H := (run cfg s evs).1.

(** ** Transfers over a reliable transport *)

(** The TLS library accepts every record and the socket every packet. *)
Definition reliable_transport : Prop :=
  (forall st d, exists st' : Ssl * DatagramIo, ssl_write st d = (st', SslOk tt)) /\
  (forall (e : Env) p q, exists e', send_to e p q = (e', None)).

(** An established connection of a peer with its certificate. *)
Definition connected s peer (cert : option ClientCertInfo) : Prop :=
  exists c, connections s !! peer = Some c /\ conn_handshake_complete c = true /\
    conn_client_cert c = cert.

Lemma connected_cert s peer cert : connected s peer cert -> cert_of s peer = cert.
Proof. intros (c & Hc & _ & <-). unfold cert_of. by rewrite Hc. Qed.

Lemma send_encoded_tables s peer d :
  block_assemblers (send_encoded s peer d).1 = block_assemblers s /\
  response_cache (send_encoded s peer d).1 = response_cache s /\
  exchanges (send_encoded s peer d).1 = exchanges s.
Proof.
  unfold send_encoded. destruct (connections s !! peer) as [c|]; [|done].
  destruct (conn_encrypt c d) as [c' [u|e|]]; simpl; try done.
  by destruct (send_packets _ _ _).
Qed.

Lemma send_response_tables s peer m :
  block_assemblers (send_response s peer m).1 = block_assemblers s /\
  response_cache (send_response s peer m).1 = response_cache s /\
  exchanges (send_response s peer m).1 = exchanges (remember s peer m).
Proof.
  rewrite send_response_eq. destruct (send_encoded_tables (remember s peer m) peer (encode m))
    as (-> & -> & ->). unfold remember.
  by destruct (exchanges s !! _) as [[[? ?] ?]|].
Qed.

Section Reliable.
Hypothesis reliable : reliable_transport.

Lemma send_packets_ok l (e : Env) peer : exists e', send_packets e l peer = (e', Ok tt).
Proof.
  destruct reliable as [_ Hs]. revert e. induction l as [|p l IH]; intros e; simpl; [by eexists|].
  destruct (Hs e p peer) as [e' ->]. apply IH.
Qed.

Lemma send_encoded_ok s peer d cert : connected s peer cert ->
  (send_encoded s peer d).2 = Ok tt /\ connected (send_encoded s peer d).1 peer cert.
Proof.
  intros (c & Hc & Hcomp & Hcert). unfold send_encoded. rewrite Hc.
  unfold conn_encrypt. rewrite Hcomp. simpl.
  destruct (proj1 reliable (conn_ssl c, conn_io c) d) as [st ->]. unfold conn_outgoing. cbv zeta.
  match goal with |- context [send_packets ?e ?l ?p] =>
    destruct (send_packets_ok l e p) as [e' ->] end.
  split; [done|]. eexists. split; [simpl; apply lookup_insert_eq|]. done.
Qed.

Lemma send_response_ok s peer m cert : connected s peer cert ->
  (send_response s peer m).2 = Ok tt /\ connected (send_response s peer m).1 peer cert.
Proof.
  intros Hc. rewrite send_response_eq. apply send_encoded_ok.
  unfold remember. by destruct (exchanges s !! _) as [[[? ?] ?]|].
Qed.

(** A request that reaches routing is handled by [process_est_request]. *)
Lemma process_datagram_fresh s data m peer now :
  parse data = Ok m -> request_shape m -> code_is_request (msg_code m) = true ->
  exchanges (swept s now) !! (peer, msg_id m) = None ->
  Z.of_nat (size (exchanges s)) < saturating_mul (cfg_max_block_assemblers cfg) 16 ->
  process_datagram cfg s data peer now =
  process_request cfg (register (swept s now) peer (msg_id m) data now) peer m now.
Proof.
  intros Hp [Hty Hlen] Hreq Hfresh Hcap. unfold process_datagram. cbv zeta. rewrite Hp.
  replace (negb (bool_decide (msg_type m = Confirmable)) &&
    negb (bool_decide (msg_type m = NonConfirmable))) with false
    by (by destruct Hty as [-> | ->]).
  rewrite (proj2 (Z.ltb_ge _ _)) by done.
  change (set_exchanges (reap_stale_entries cfg s now) _) with (swept s now).
  replace (exchanges (swept s now) !! (peer, msg_id m))
    with (@None (bytes * option bytes * Z)) by exact (eq_sym Hfresh).
  assert (Hsz : Z.of_nat (size (exchanges (swept s now))) <
    saturating_mul (cfg_max_block_assemblers cfg) 16).
  { eapply Z.le_lt_trans; [apply inj_le, map_retain_size_le|exact Hcap]. }
  rewrite (proj2 (Z.leb_gt _ _)) by done. by rewrite Hreq.
Qed.

(** One fragment of an upload: the assembler's answer decides. *)
Lemma fragment_step s peer m b r a now : block1 m = Some b -> block2 m = None ->
  route_message m = Ok r -> assembler_for s peer m = a ->
  (is_Some (block_assemblers s !! transfer_key peer m) \/
    Z.of_nat (size (block_assemblers s)) < cfg_max_block_assemblers cfg) ->
  forall a' c cert, process_block a b (msg_payload m) = (a', Ok c) ->
  connected s peer cert ->
  let s' := (process_request cfg s peer m now).1 in
  if c : bool then
    handler_state s' =
    if cfg_max_payload cfg <? Z.of_nat (length (ba_buffer a')) then handler_state s
    else (handle (handler_state s) (er_operation r) (er_label r) (ba_buffer a')
            (content_format m) cert).1
  else
    handler_state s' = handler_state s /\
    block_assemblers s' = <[transfer_key peer m := (a', now)]> (block_assemblers s) /\
    connected s' peer cert.
Proof.
  intros Hb1 Hb2 Hr Ha Hroom a' c cert Hpb Hconn s'. subst s'.
  unfold process_request. rewrite Hb2. unfold process_est_request. rewrite Hr, Hb1.
  unfold assemble_request. cbv zeta.
  replace (negb (bool_decide (is_Some (block_assemblers s !! transfer_key peer m))) &&
    (cfg_max_block_assemblers cfg <=? Z.of_nat (size (block_assemblers s)))) with false.
  2:{ symmetry. destruct Hroom as [Hk|Hlt].
      - by rewrite bool_decide_eq_true_2.
      - rewrite (proj2 (Z.leb_gt _ _)) by done. apply andb_false_r. }
  fold (assembler_for s peer m). rewrite Ha, Hpb.
  set (s1 := set_assemblers s _). destruct c.
  - assert (Hip : into_payload a' = Ok (ba_buffer a')).
    { unfold process_block in Hpb. destruct (ba_complete a); [done|].
      destruct (negb _); [done|]. cbv zeta in Hpb. destruct (_ <? _); [done|].
      injection Hpb as <- Hc. unfold into_payload. simpl in *. by rewrite Hc. }
    rewrite Hip. cbn [obind]. rewrite dispatch_handler.
    change (cert_of (set_assemblers s1 (delete (transfer_key peer m) (block_assemblers s1)))
      peer) with (cert_of s peer). by rewrite (connected_cert _ _ _ Hconn).
  - match goal with |- context [send_response s1 peer ?m1] =>
      pose proof (send_response_ok s1 peer m1 cert Hconn) as [Hok Hconn'];
      pose proof (send_response_handler peer s1 m1) as Hh;
      pose proof (send_response_tables s1 peer m1) as (Hasm & _ & _);
      destruct (send_response s1 peer m1) as [s2 r2] end.
    simpl in Hok, Hconn', Hh, Hasm. subst r2. simpl. by rewrite Hh, Hasm.
Qed.
End Reliable.

(** *** Uploads *)

(** A datagram carrying one fragment of an upload, and when it arrives. *)
Record Fragment : Type := MkFragment {
  fg_data : bytes;
  fg_msg : CoapMessage;
  fg_block : BlockOption;
  fg_time : Z
}.

(** The fragments of one upload share the transfer key, the operation, the
    label and the content format. *)
Definition fragment_ok (op : EstOperation) (label : option string) (cf : option Z)
  (peer : SocketAddr) (key : TransferKey) (f : Fragment) : Prop :=
  parse (fg_data f) = Ok (fg_msg f) /\ request_shape (fg_msg f) /\
  code_is_request (msg_code (fg_msg f)) = true /\
  block2 (fg_msg f) = None /\ block1 (fg_msg f) = Some (fg_block f) /\
  content_format (fg_msg f) = cf /\ transfer_key peer (fg_msg f) = key /\
  exists me, route_message (fg_msg f) = Ok (MkEstRequest op label me (fg_msg f)).

Definition fragment_block (f : Fragment) : BlockOption * bytes :=
  (fg_block f, msg_payload (fg_msg f)).
Definition fragment_id (f : Fragment) : Z := msg_id (fg_msg f).
Definition arrivals (peer : SocketAddr) (l : list Fragment) : list (bytes * SocketAddr * Z) :=
  map (fun f => (fg_data f, peer, fg_time f)) l.

(** Each fragment arrives before its predecessor's entry is reaped. *)
Fixpoint paced (t : Z) (l : list Fragment) : Prop :=
  match l with
  | [] => True
  | f :: l' => fg_time f - cfg_block_ttl cfg < t /\ paced (fg_time f) l'
  end.

Lemma assemble_accepted a b d l a' :
  assemble a ((b, d) :: l) = (a', (b, d) :: l) ->
  exists a1 c, process_block a b d = (a1, Ok c) /\ ba_complete a1 = c /\
    assemble a1 l = (a', l) /\ (l <> [] -> c = false).
Proof.
  assert (Hlen : forall l a, (length (assemble a l).2 <= length l)%nat).
  { clear. induction l as [|[b d] l IH]; intros a; simpl; [done|].
    destruct (process_block a b d) as [a1 r]. specialize (IH a1).
    destruct (assemble a1 l) as [a2 acc]. destruct r; simpl in *; lia. }
  simpl. destruct (process_block a b d) as [a1 r] eqn:Ep.
  pose proof (Hlen l a1) as Hl. destruct (assemble a1 l) as [a2 acc] eqn:El.
  simpl in Hl. intros E.
  destruct r as [c|e|]; [|injection E as _ ->; simpl in Hl; lia..].
  injection E as -> ->. exists a1, c. split; [done|].
  assert (Hc : ba_complete a1 = c).
  { unfold process_block in Ep. destruct (ba_complete a); [done|].
    destruct (negb _); [done|]. cbv zeta in Ep. destruct (_ <? _); [done|].
    by injection Ep as <- <-. }
  split; [done|]. split; [done|]. intros Hne. destruct c; [exfalso|done].
  destruct l as [|[b' d'] l]; [done|]. simpl in El. unfold process_block in El.
  rewrite Hc in El. pose proof (Hlen l a1) as Hl'.
  destruct (assemble a1 l) as [a3 acc3]. injection El as _ ->. simpl in Hl'. lia.
Qed.

Lemma swept_fresh s now k : exchanges s !! k = None -> exchanges (swept s now) !! k = None.
Proof.
  intros Hk. destruct (exchanges (swept s now) !! k) as [e|] eqn:E; [|done].
  apply swept_exchange in E as [E _]. congruence.
Qed.

(** The upload's assembler before a fragment arrives. *)
Definition upload_state s (key : TransferKey) (a : BlockAssembler) (t : Z) : Prop :=
  block_assemblers s !! key = Some (a, t) \/
  block_assemblers s !! key = None /\ a = assembler_new (cfg_max_payload cfg) /\
    Z.of_nat (size (block_assemblers s)) < cfg_max_block_assemblers cfg.

(** The assembler a fragment meets after reaping. *)
Lemma upload_state_register s key a t peer m id data now :
  upload_state s key a t -> now - cfg_block_ttl cfg < t -> transfer_key peer m = key ->
  let s1 := register (swept s now) peer id data now in
  assembler_for s1 peer m = a /\
  (is_Some (block_assemblers s1 !! transfer_key peer m) \/
   Z.of_nat (size (block_assemblers s1)) < cfg_max_block_assemblers cfg).
Proof.
  intros Hu Ht <- s1. unfold assembler_for.
  assert (Easm : block_assemblers s1 = map_retain
    (fun _ at_ => now - cfg_block_ttl cfg <? at_.2) (block_assemblers s)) by done.
  rewrite Easm. destruct Hu as [Hk|(Hk & -> & Hsz)].
  - assert (Hk' : map_retain (fun _ at_ => now - cfg_block_ttl cfg <? at_.2)
      (block_assemblers s) !! transfer_key peer m = Some (a, t)).
    { apply map_retain_lookup_Some. split; [done|]. by apply Z.ltb_lt. }
    rewrite Hk'. split; [done|]. left. by eexists.
  - assert (Hk' : map_retain (fun _ at_ => now - cfg_block_ttl cfg <? at_.2)
      (block_assemblers s) !! transfer_key peer m = None).
    { apply map_retain_lookup_None. by left. }
    rewrite Hk'. split; [done|]. right.
    eapply Z.le_lt_trans; [apply inj_le, map_retain_size_le|exact Hsz].
Qed.

Lemma upload_run op label cf peer key cert : reliable_transport -> forall frs s a t a',
  frs <> [] -> upload_state s key a t -> paced t frs ->
  Forall (fragment_ok op label cf peer key) frs ->
  NoDup (map fragment_id frs) ->
  Forall (fun f => exchanges s !! (peer, fragment_id f) = None) frs ->
  Z.of_nat (size (exchanges s)) + Z.of_nat (length frs) <=
    saturating_mul (cfg_max_block_assemblers cfg) 16 ->
  connected s peer cert ->
  assemble a (map fragment_block frs) = (a', map fragment_block frs) ->
  ba_complete a' = true -> Z.of_nat (length (ba_buffer a')) <= cfg_max_payload cfg ->
  handler_state (process_all s (arrivals peer frs)) =
  (handle (handler_state s) op label (ba_buffer a') cf cert).1.
Proof.
  intros Hrel. induction frs as [|f frs IH]; intros s a t a' Hne Hu Hp Hok Hnd Hfr Hcap
    Hconn Has Hcomp Hlen; [done|]. clear Hne.
  destruct Hp as [Ht Hp]. inversion Hok as [|? ? Hf Hok']; subst. clear Hok.
  inversion Hnd as [|? ? Hnin Hnd']; subst. inversion Hfr as [|? ? Hf1 Hfr']; subst.
  destruct Hf as (Hparse & Hshape & Hreq & Hb2 & Hb1 & Hcf & Hkey & me & Hroute).
  apply assemble_accepted in Has as (a1 & c & Hpb & Hc & Has & Hmore).
  set (s1 := register (swept s (fg_time f)) peer (fragment_id f) (fg_data f) (fg_time f)).
  destruct (upload_state_register s key a t peer (fg_msg f) (fragment_id f) (fg_data f)
    (fg_time f) Hu Ht Hkey) as [Ha Hroom]. fold s1 in Ha, Hroom.
  assert (Hstep : process_datagram cfg s (fg_data f) peer (fg_time f) =
    process_request cfg s1 peer (fg_msg f) (fg_time f)).
  { apply process_datagram_fresh; try done; [by apply swept_fresh|]. simpl in Hcap. lia. }
  assert (Hconn1 : connected s1 peer cert) by done.
  pose proof (fragment_step Hrel s1 peer (fg_msg f) (fg_block f) _ a (fg_time f) Hb1 Hb2
    Hroute Ha Hroom a1 c cert Hpb Hconn1) as Hfrag.
  assert (Hall : process_all s (arrivals peer (f :: frs)) =
    process_all (process_request cfg s1 peer (fg_msg f) (fg_time f)).1 (arrivals peer frs)).
  { unfold process_all. simpl. by rewrite Hstep. }
  rewrite Hall. destruct frs as [|g frs].
  - simpl in Has. injection Has as <-. rewrite Hcomp in Hc. subst c.
    cbv zeta in Hfrag. rewrite (proj2 (Z.ltb_ge _ _)) in Hfrag by done.
    unfold process_all. simpl. rewrite Hfrag. simpl. by rewrite Hcf.
  - specialize (Hmore ltac:(done)). rewrite Hmore in Hfrag.
    destruct Hfrag as (Hh & Hasm & Hconn').
    pose proof (process_request_served peer s1 (fg_msg f) (fg_time f)) as Hsv.
    set (s2 := (process_request cfg s1 peer (fg_msg f) (fg_time f)).1) in *.
    replace (handler_state s) with (handler_state s2) by (by rewrite Hh).
    apply (IH s2 a1 (fg_time f)); try done.
    + left. rewrite Hasm. rewrite <- Hkey. apply lookup_insert_eq.
    + apply Forall_forall. intros x Hx.
      assert (Hxk : exchanges s1 !! (peer, fragment_id x) = None).
      { unfold s1. simpl. rewrite lookup_insert_ne.
        - apply swept_fresh. setoid_rewrite Forall_forall in Hfr'. by apply Hfr'.
        - intros [= E]. apply Hnin. rewrite E. by apply list_elem_of_fmap_2. }
      pose proof (sv_exch_meta _ _ _ Hsv (peer, fragment_id x)) as Hm.
      rewrite Hxk in Hm. by destruct (exchanges s2 !! (peer, fragment_id x)).
    + rewrite <- size_dom, (served_exch_dom _ _ _ Hsv), size_dom. unfold s1. simpl.
      assert (Z.of_nat (size (<[(peer, fragment_id f) := (fg_data f, None, fg_time f)]>
        (exchanges (swept s (fg_time f))))) <= Z.of_nat (size (exchanges s)) + 1).
      { pose proof (map_retain_size_le (fun _ e => live_exchange (fg_time f) e) (exchanges s)).
        eapply Z.le_trans; [apply inj_le, size_insert_le|]. unfold swept. simpl. lia. }
      simpl in *. lia.
Qed.

(** *** Replies *)

(** The reply remembered for a message. *)
Definition recorded_reply s (peer : SocketAddr) (id : Z) : option bytes :=
  match exchanges s !! (peer, id) with Some (_, reply, _) => reply | None => None end.

Lemma send_response_reply s peer m : is_Some (exchanges s !! (peer, msg_id m)) ->
  recorded_reply (send_response s peer m).1 peer (msg_id m) = Some (encode m).
Proof.
  intros [[[q o] t] Hk]. unfold recorded_reply.
  destruct (send_response_tables s peer m) as (_ & _ & ->).
  unfold remember. rewrite Hk. simpl. by rewrite lookup_insert_eq.
Qed.

Ltac by_reply Hex :=
  match goal with |- context [send_response ?s1 ?p ?m1] =>
    exact (send_response_reply s1 p m1 Hex) end.

Lemma recorded_reply_served s s' peer id : exchanges s' = exchanges s ->
  recorded_reply s' peer id = recorded_reply s peer id.
Proof. unfold recorded_reply. by intros ->. Qed.

(** The state a fresh request is processed in. *)
Lemma register_exchange s peer id data now :
  is_Some (exchanges (register (swept s now) peer id data now) !! (peer, id)).
Proof. eexists. simpl. apply lookup_insert_eq. Qed.

(** What a request is answered, from the handler's result. *)
Definition answer_of (r : CoapEstRequest) (res : CoapResult EstResponse) : option bytes :=
  let m := er_message r in
  match res with
  | Ok resp =>
      let len := Z.of_nat (length (resp_payload resp)) in
      let code := response_code_of (er_operation r) in
      if cfg_max_payload cfg <? len then None
      else if block_size_from_szx (cfg_block_szx cfg) <? len then
        let d := disassembler_new (resp_payload resp) (cfg_block_szx cfg) in
        Some (encode (block_response code (msg_id m) (msg_token m)
          (resp_content_format resp) d
          (take (Z.to_nat (block_size_from_szx (cfg_block_szx cfg))) (resp_payload resp))
          (MkBlockOption 0 true (bd_szx d))))
      else
        Some (encode (MkMessage COAP_VERSION Acknowledgement code (msg_id m) (msg_token m)
          [from_uint OPTION_CONTENT_FORMAT (resp_content_format resp)] (resp_payload resp)))
  | Err e => Some (encode (build_error_response (msg_token m) (msg_id m) e))
  | Panic => None
  end.

Lemma respond_reply s peer r resp now :
  0 <= cfg_block_szx cfg <= 6 ->
  is_Some (exchanges s !! (peer, msg_id (er_message r))) ->
  recorded_reply s peer (msg_id (er_message r)) = None ->
  recorded_reply (respond cfg s peer r resp now).1 peer (msg_id (er_message r)) =
  answer_of r (Ok resp).
Proof.
  intros Hszx Hex Hnone. unfold respond, answer_of. cbv zeta.
  destruct (cfg_max_payload cfg <? _); [done|].
  set (bs := block_size_from_szx (cfg_block_szx cfg)).
  destruct (Z.ltb_spec bs (Z.of_nat (length (resp_payload resp)))) as [Hbig|_].
  - set (d := disassembler_new (resp_payload resp) (cfg_block_szx cfg)).
    assert (Hd : bd_szx d = cfg_block_szx cfg) by (unfold d, disassembler_new, MAX_SZX; simpl; lia).
    assert (Hbs : 16 <= bs <= 1024) by (apply block_size_bounds; lia).
    rewrite get_block_Some by (rewrite ?Hd; unfold bd_payload_len; simpl; fold bs; lia).
    rewrite Hd. fold bs. change (Z.to_nat (0 * bs)) with O. rewrite drop_0.
    rewrite (proj2 (Z.ltb_lt ((0 + 1) * bs) (bd_payload_len d)))
      by (unfold bd_payload_len; simpl bd_payload; lia).
    match goal with |- context [send_response s peer ?m1] =>
      pose proof (send_response_reply s peer m1 Hex) as Hr;
      destruct (send_response s peer m1) as [s1 [u|e|]] end; try exact Hr.
    destruct (_ <? _); [|exact Hr]. etransitivity; [by apply recorded_reply_served|exact Hr].
  - by_reply Hex.
Qed.

Lemma dispatch_reply s peer r cf payload now :
  0 <= cfg_block_szx cfg <= 6 -> Z.of_nat (length payload) <= cfg_max_payload cfg ->
  is_Some (exchanges s !! (peer, msg_id (er_message r))) ->
  recorded_reply s peer (msg_id (er_message r)) = None ->
  recorded_reply (dispatch cfg s peer r cf payload now).1 peer (msg_id (er_message r)) =
  answer_of r (handle (handler_state s) (er_operation r) (er_label r) payload cf
                 (cert_of s peer)).2.
Proof.
  intros Hszx Hlen Hex Hnone. unfold dispatch. cbv zeta.
  rewrite (proj2 (Z.ltb_ge _ _)) by done. fold (cert_of s peer).
  destruct (handle _ _ _ _ _ _) as [h [resp|e|]].
  - by apply respond_reply.
  - by_reply Hex.
  - done.
Qed.

(** A request for one more block of a cached response. *)
Lemma continue_reply s peer m num now d cf code t :
  0 <= bd_szx d -> 0 < num ->
  is_Some (exchanges s !! (peer, msg_id m)) ->
  response_cache s !! transfer_key peer m = Some (d, cf, code, t) ->
  let s' := (continue_response s peer m num now).1 in
  let bs := block_size_from_szx (bd_szx d) in
  if num * bs <? bd_payload_len d then
    let more := (num + 1) * bs <? bd_payload_len d in
    recorded_reply s' peer (msg_id m) =
      Some (encode (block_response code (msg_id m) (msg_token m) cf d
        (take (Z.to_nat bs) (drop (Z.to_nat (num * bs)) (bd_payload d)))
        (MkBlockOption num more (bd_szx d)))) /\
    response_cache s' !! transfer_key peer m =
      if more then Some (d, cf, code, now) else None
  else
    recorded_reply s' peer (msg_id m) =
      Some (encode (build_error_response (msg_token m) (msg_id m)
        (InvalidMessage "unknown Block2 exchange"))) /\
    response_cache s' !! transfer_key peer m = None.
Proof.
  intros Hs Hn Hex Hc s' bs. subst s'. unfold continue_response. rewrite Hc.
  destruct (Z.ltb_spec (num * bs) (bd_payload_len d)) as [Hlt|Hge].
  - rewrite get_block_Some by (fold bs; lia). fold bs. cbv zeta. cbn [bo_more].
    destruct ((num + 1) * bs <? bd_payload_len d); cbn [negb];
      (match goal with |- context [send_response ?s1 peer ?m1] =>
        split; [by_reply Hex|];
        destruct (send_response_tables s1 peer m1) as (_ & -> & _) end); simpl.
    + by rewrite lookup_insert_eq.
    + by rewrite lookup_delete_eq.
  - rewrite (proj2 (get_block_None d num)) by done. cbv zeta.
    match goal with |- context [send_response ?s1 peer ?m1] =>
      split; [by_reply Hex|];
      destruct (send_response_tables s1 peer m1) as (_ & -> & _) end. simpl.
    by rewrite lookup_delete_eq.
Qed.
End Spec.

(** ** A concrete transport and handler, for the witnesses *)

(** A TLS library without encryption: the handshake completes at once with a
    one-byte certificate, every queued datagram is a record. *)
Definition plain_transport : Transport unit (list (bytes * SocketAddr)) := {|
  ssl_new e := (e, Ok tt);
  ssl_accept st := (st, SslOk tt);
  peer_certificate _ := Some (Ok [7]);
  parse_certificate _ := Some ("CN=device", [1]);
  ssl_reads st := (st.1, MkIo [] (outgoing st.2), (incoming st.2, None));
  ssl_write st d := (st.1, MkIo (incoming st.2) (outgoing st.2 ++ [d]), SslOk tt);
  ssl_timeout st := (st, 0);
  send_to e p peer := (e ++ [(p, peer)], None);
  join_error := "task panicked"
|}.

(** A handler that logs its payloads and answers with fixed bytes. *)
Definition logging_handler (answer : bytes) : EstHandler (list bytes) :=
  fun h op label payload cf cert =>
    (h ++ [payload], Ok (MkEstResponse answer 281 None)).

Definition example_cfg : ServerConfig := bind_config 64 4096 2 (3600 * SECS).

(** A POST to [/.well-known/est/sen]. *)
Definition example_post (id : Z) (opts : list CoapOption) (payload : bytes) : bytes :=
  encode (MkMessage 1 Confirmable (MkCode 0 2) id [9]
    (uri_path_options [".well-known"; "est"; "sen"] ++ opts) payload).

(** ** Properties *)

(** C17: whatever datagrams arrive, the timer, the TLS library, the network
    and the EST handler do, a server bound with [max_sessions] never holds more
    than that many connections, twice as many block-wise uploads, twice as
    many cached responses and 32 times as many exchanges, and no upload
    holds more than [max_payload] bytes. *)
Theorem server_tables_bounded {Ssl Env H} `{!Transport Ssl Env} `{!EstHandler H}
    block_size max_payload max_sessions timeout (e : Env) (h : H) l :
  0 <= max_payload ->
  let cfg := bind_config block_size max_payload max_sessions timeout in
  let s := run_server cfg (server_start e h) l in
  (size (connections s) <= max_sessions)%nat /\
  (size (block_assemblers s) <= 2 * max_sessions)%nat /\
  (size (response_cache s) <= 2 * max_sessions)%nat /\
  (size (exchanges s) <= 32 * max_sessions)%nat /\
  forall k a t, block_assemblers s !! k = Some (a, t) ->
    Z.of_nat (length (ba_buffer a)) <= max_payload.
Proof.
  intros Hmax cfg s. assert (Hb : server_bounded cfg s).
  { unfold s, run_server.
    apply (run_inv cfg (server_bounded cfg)); [intros; by apply server_step_bounded|].
    constructor; cbn [connections block_assemblers response_cache exchanges server_start];
      rewrite ?map_size_empty;
      cbn [cfg bind_config cfg_max_block_assemblers cfg_max_sessions];
      unfold saturating_mul, USIZE_MAX; try lia. apply map_Forall_empty. }
  destruct Hb as [Hc Ha Hr He Hp]. clearbody s.
  cbn [cfg bind_config cfg_max_block_assemblers cfg_max_sessions cfg_max_payload] in *.
  unfold saturating_mul, USIZE_MAX in *.
  split; [done|]. split; [lia|]. split; [lia|]. split; [lia|].
  intros k a t Hk. apply (Hp _ _ Hk).
Qed.

Lemma server_tables_bounded_witness :
  let l := [Received (example_post 1 [] [5]) (example_addr 1) 1; Tick 2 [example_addr 1];
            Received (example_post 2 [] [5]) (example_addr 2) 2; RecvFailed;
            Received (example_post 3 [] [5]) (example_addr 3) 3] in
  let s := run_server (Transport0 := plain_transport) (EstHandler0 := logging_handler [1])
    example_cfg (server_start [] []) l in
  size (connections s) = 2%nat /\ handler_state s = [[5]; [5]] /\
  (size (exchanges s) <= 64)%nat.
Proof.
  intros l s. split; [vm_compute; reflexivity|]. split; [vm_compute; reflexivity|].
  refine (proj1 (proj2 (proj2 (proj2 (server_tables_bounded
    (Transport0 := plain_transport) (EstHandler0 := logging_handler [1])
    64 4096 2 (3600 * SECS) [] [] l _))))). lia.
Defined.

(** A request is handled at most once.  If processing a datagram ran the
    handler, then after any further datagrams, from any peers, the same
    datagram from the same peer within the exchange lifetime leaves the
    handler's state alone, and is answered with the bytes recorded for it,
    if there are any yet. *)
Theorem request_handled_at_most_once {Ssl Env H} `{!Transport Ssl Env} `{!EstHandler H}
    cfg (s : Server Ssl Env H) data peer t0 l t1 :
  0 <= cfg_max_payload cfg ->
  let s1 := (process_datagram cfg s data peer t0).1 in
  handler_state s1 <> handler_state s ->
  Forall (fun d => elapsed d.2 t0 < EXCHANGE_LIFETIME) l ->
  elapsed t1 t0 < EXCHANGE_LIFETIME ->
  let s2 := process_all cfg s1 l in
  handler_state (process_datagram cfg s2 data peer t1).1 = handler_state s2 /\
  exists m reply, parse data = Ok m /\
    exchanges (swept cfg s2 t1) !! (peer, msg_id m) = Some (data, reply, t0) /\
    process_datagram cfg s2 data peer t1 =
      match reply with
      | Some rsp => send_encoded (swept cfg s2 t1) peer rsp
      | None => (swept cfg s2 t1, Ok tt)
      end.
Proof.
  intros Hmax s1 Hrun Hl Ht s2.
  destruct (process_datagram_handler cfg Hmax s data peer t0)
    as [?|(m & Hp & _ & [Htype Hlen] & Hreg & _)]; [contradiction|].
  assert (H2 : request_of <$> exchanges s2 !! (peer, msg_id m) = Some (data, t0))
    by by apply exchange_kept_all.
  apply request_of_lookup in H2 as [reply H2].
  assert (Hsw : exchanges (swept cfg s2 t1) !! (peer, msg_id m) = Some (data, reply, t0)).
  { apply swept_exchange. split; [done|]. by apply Z.ltb_lt. }
  split; [by eapply process_known|]. exists m, reply. split; [done|]. split; [done|].
  unfold process_datagram. cbv zeta. rewrite Hp.
  replace (negb (bool_decide (msg_type m = Confirmable)) &&
    negb (bool_decide (msg_type m = NonConfirmable))) with false
    by (by destruct Htype as [-> | ->]).
  rewrite (proj2 (Z.ltb_ge _ _)) by done.
  change (set_exchanges (reap_stale_entries cfg s2 t1) _) with (swept cfg s2 t1).
  rewrite Hsw. rewrite bool_decide_eq_true_2 by done. by destruct reply.
Qed.

(** A server with one authenticated connection. *)
Definition example_server : Server unit (list (bytes * SocketAddr)) (list bytes) :=
  set_connections (server_start [] [])
    {[ example_addr 1 := MkConnection tt (MkIo [] []) (Some (MkCertInfo "CN=device" [1] [7]))
                           true 0 ]}.

Lemma request_handled_at_most_once_witness :
  let data := example_post 1 [] [5] in
  let s1 := (process_datagram (Transport0 := plain_transport)
    (EstHandler0 := logging_handler [1]) example_cfg example_server data (example_addr 1) 10).1 in
  let s2 := process_all (Transport0 := plain_transport) (EstHandler0 := logging_handler [1])
    example_cfg s1 [(example_post 2 [] [6], example_addr 1, 11)] in
  handler_state s2 = [[5]; [6]] /\
  handler_state (process_datagram (Transport0 := plain_transport)
    (EstHandler0 := logging_handler [1]) example_cfg s2 data (example_addr 1) 12).1 = [[5]; [6]].
Proof.
  intros data s1 s2. assert (E : handler_state s2 = [[5]; [6]]) by (vm_compute; reflexivity).
  split; [exact E|]. etransitivity; [|exact E].
  refine (proj1 (request_handled_at_most_once (Transport0 := plain_transport)
    (EstHandler0 := logging_handler [1]) example_cfg example_server data (example_addr 1) 10
    [(example_post 2 [] [6], example_addr 1, 11)] 12 _ _ _ _)).
  - vm_compute. discriminate.
  - vm_compute. discriminate.
  - repeat constructor.
  - reflexivity.
Defined.

(** Peers are isolated.  Processing a datagram of one peer leaves every
    other peer's connection alone, and the other peers' uploads, cached
    responses and exchanges too, but for the entries whose time is up
    (60 s without a block; 247 s after the request). *)
Theorem peer_isolation {Ssl Env H} `{!Transport Ssl Env} `{!EstHandler H}
    cfg (s : Server Ssl Env H) data peer now other :
  0 <= cfg_max_payload cfg -> other <> peer ->
  let s' := (process_datagram cfg s data peer now).1 in
  connections s' !! other = connections s !! other /\
  (forall k a t, key_peer k = other -> block_assemblers s' !! k = Some (a, t) <->
     block_assemblers s !! k = Some (a, t) /\ now - cfg_block_ttl cfg < t) /\
  (forall k d cf c t, key_peer k = other -> response_cache s' !! k = Some (d, cf, c, t) <->
     response_cache s !! k = Some (d, cf, c, t) /\ now - cfg_block_ttl cfg < t) /\
  (forall id e, exchanges s' !! (other, id) = Some e -> exchanges s !! (other, id) = Some e) /\
  (forall id e, exchanges s !! (other, id) = Some e -> elapsed now e.2 < EXCHANGE_LIFETIME ->
     exchanges s' !! (other, id) = Some e).
Proof.
  intros Hmax Hne s'.
  destruct (process_datagram_other cfg Hmax s data peer now) as (H1 & H2 & H3 & H4 & H5).
  fold s' in H1, H2, H3, H4, H5. split; [by apply H1|]. split; [|split; [|split]].
  - intros k a t Hk. rewrite H2 by by rewrite Hk.
    unfold reap_stale_entries. cbn [block_assemblers set_cache set_assemblers].
    rewrite map_retain_lookup_Some, Z.ltb_lt. done.
  - intros k d cf c t Hk. rewrite H3 by by rewrite Hk.
    unfold reap_stale_entries. cbn [response_cache set_cache set_assemblers].
    rewrite map_retain_lookup_Some, Z.ltb_lt. done.
  - intros id e. by apply H4.
  - intros id e He Hl. apply H5; [done|done|]. by apply Z.ltb_lt.
Qed.

Lemma peer_isolation_witness :
  let s1 := (process_datagram (Transport0 := plain_transport)
    (EstHandler0 := logging_handler [1]) example_cfg example_server
    (example_post 1 [from_uint OPTION_BLOCK1 8] [5]) (example_addr 1) 10).1 in
  let s2 := (process_datagram (Transport0 := plain_transport)
    (EstHandler0 := logging_handler [1]) example_cfg s1
    (example_post 1 [] [6]) (example_addr 2) 11).1 in
  connections s2 !! example_addr 1 = connections s1 !! example_addr 1 /\
  size (block_assemblers s1) = 1%nat /\ size (block_assemblers s2) = 1%nat.
Proof.
  intros s1 s2. split; [|split; [vm_compute; reflexivity|vm_compute; reflexivity]].
  refine (proj1 (peer_isolation (Transport0 := plain_transport)
    (EstHandler0 := logging_handler [1]) example_cfg s1 (example_post 1 [] [6])
    (example_addr 2) 11 (example_addr 1) _ _)).
  - vm_compute. discriminate.
  - discriminate.
Defined.

(** The handler only runs for authenticated clients.  In every state the
    main loop can reach, an event runs the handler only if it is a received
    datagram, and then as a sequence of calls on behalf of its sender, each
    with the certificate the sender presented in its DTLS handshake and a
    payload within the limit. *)
Theorem handler_only_authenticated {Ssl Env H} `{!Transport Ssl Env} `{!EstHandler H}
    cfg (e : Env) (h : H) evs ev :
  0 <= cfg_max_payload cfg ->
  let s := run_server cfg (server_start (Ssl := Ssl) e h) evs in
  let s' := (server_step cfg s ev).1 in
  handler_state s' = handler_state s \/
  exists datagram peer now cert, ev = Received datagram peer now /\
    cert_of s' peer = Some cert /\
    authenticated_calls cfg cert (handler_state s) (handler_state s').
Proof.
  intros Hmax s s'. assert (Hs : conns_authenticated s).
  { apply (run_inv cfg conns_authenticated); [intros; by apply server_step_authenticated|].
    intros q c Hq. simpl in Hq. by rewrite lookup_empty in Hq. }
  destruct ev as [now order| |datagram peer now]; [by left..|].
  destruct (receive_authenticated cfg Hmax s datagram peer now Hs) as [_ [Hh|(cert & Hc & Hr)]];
    [by left|]. right. by exists datagram, peer, now, cert.
Qed.

Lemma handler_only_authenticated_witness :
  let s := run_server (Transport0 := plain_transport) (EstHandler0 := logging_handler [1])
    example_cfg (server_start (Ssl := unit) [] []) [Tick 5 []] in
  let s' := (server_step (Transport0 := plain_transport)
    (EstHandler0 := logging_handler [1]) example_cfg s
    (Received (example_post 1 [] [5]) (example_addr 1) 10)).1 in
  handler_state s' = [[5]] /\ cert_of s' (example_addr 1) = Some (MkCertInfo "CN=device" [1] [7]).
Proof.
  intros s s'. assert (E : handler_state s' = [[5]]) by (vm_compute; reflexivity).
  split; [exact E|].
  destruct (handler_only_authenticated (Transport0 := plain_transport)
    (EstHandler0 := logging_handler [1]) example_cfg [] [] [Tick 5 []]
    (Received (example_post 1 [] [5]) (example_addr 1) 10))
    as [Hn|(d & p & n & cert & Hev & Hc & _)].
  - vm_compute. discriminate.
  - exfalso. assert (E' : handler_state s' = []) by exact Hn. rewrite E in E'. discriminate.
  - injection Hev as <- <- <-. etransitivity; [exact Hc|].
    assert (V : cert_of s' (example_addr 1) =
      Some (MkCertInfo "CN=device" [1] [7])) by (vm_compute; reflexivity).
    rewrite <- V. symmetry. exact Hc.
Defined.

(** A fresh request: it parses, has the shape of a request and its message
    id is not in use, and the exchange table has room. *)
Record fresh_request {Ssl Env H} (cfg : ServerConfig) (s : Server Ssl Env H)
    (data : bytes) (m : CoapMessage) (peer : SocketAddr) : Prop := {
  fresh_parse : parse data = Ok m;
  fresh_shape : request_shape cfg m;
  fresh_code : code_is_request (msg_code m) = true;
  fresh_id : exchanges s !! (peer, msg_id m) = None;
  fresh_room : Z.of_nat (size (exchanges s)) <
    saturating_mul (cfg_max_block_assemblers cfg) 16
}.

(** C2: a client cuts a payload into blocks of any size the protocol has and
    sends them, each in a datagram of its own with a new message id, before
    the previous one's entry times out.  Over a transport that loses nothing
    the handler then runs exactly once, on exactly that payload, with the
    peer's certificate: its state is the one that single call leaves. *)
Theorem blockwise_upload_delivered {Ssl Env H} `{!Transport Ssl Env} `{!EstHandler H}
    cfg (s : Server Ssl Env H) peer cert op label cf key payload szx frs :
  reliable_transport (Ssl := Ssl) (Env := Env) ->
  0 <= szx -> payload <> [] -> 0 < cfg_block_ttl cfg ->
  Z.of_nat (length payload) <= cfg_max_payload cfg ->
  Z.of_nat (length payload) <= 2 ^ 28 * block_size_from_szx szx ->
  let d := disassembler_new payload szx in
  map fragment_block frs = fetch_blocks d (Z.to_nat (total_blocks d)) 0 ->
  Forall (fragment_ok cfg op label cf peer key) frs ->
  NoDup (map fragment_id frs) ->
  Forall (fun f => exchanges s !! (peer, fragment_id f) = None) frs ->
  match frs with f :: l => paced cfg (fg_time f) l | [] => True end ->
  Z.of_nat (size (exchanges s)) + Z.of_nat (length frs) <=
    saturating_mul (cfg_max_block_assemblers cfg) 16 ->
  block_assemblers s !! key = None ->
  Z.of_nat (size (block_assemblers s)) < cfg_max_block_assemblers cfg ->
  connected s peer cert ->
  handler_state (process_all cfg s (arrivals peer frs)) =
  (handle (handler_state s) op label payload cf cert).1.
Proof.
  intros Hrel Hszx Hne Httl Hmax H28 d Hfrs Hok Hnd Hfr Hp Hcap Hkey Hroom Hconn.
  destruct (client_blocks_assembled payload szx (cfg_max_payload cfg) Hszx Hne Hmax H28)
    as (a & _ & Hinto & Hlen & Has). fold d in Hlen, Has. rewrite <- Hfrs in Has, Hlen.
  assert (Hpay : ba_complete a = true /\ ba_buffer a = payload).
  { unfold into_payload in Hinto. destruct (ba_complete a); [|done]. by injection Hinto. }
  destruct Hpay as [Hcomp Hbuf]. rewrite <- Hbuf.
  assert (Hnil : frs <> []).
  { intros ->. simpl in Hlen. symmetry in Hlen. unfold total_blocks, d in Hlen. simpl in Has.
    injection Has as <-. by simpl in Hcomp. }
  destruct frs as [|f l]; [done|].
  eapply (upload_run cfg ltac:(lia) op label cf peer key cert Hrel (f :: l) s
    (assembler_new (cfg_max_payload cfg)) (fg_time f)); try done.
  - right. done.
  - split; [lia|done].
  - by rewrite Hbuf.
Qed.

(** Three fragments of 16 bytes and less. *)
Definition example_fragments : list Fragment :=
  imap (fun i bd =>
      let m := MkMessage 1 Confirmable (MkCode 0 2) (Z.of_nat i) [9]
        (uri_path_options [".well-known"; "est"; "sen"] ++
         [from_uint OPTION_BLOCK1 (block_encode bd.1)]) bd.2 in
      MkFragment (encode m) m bd.1 (Z.of_nat i))
    (fetch_blocks (disassembler_new (repeat 7 40) 0) 3 0).

Lemma plain_reliable : reliable_transport (Transport0 := plain_transport).
Proof. split; intros; by eexists. Qed.

Lemma blockwise_upload_delivered_witness :
  handler_state (process_all (Transport0 := plain_transport)
    (EstHandler0 := logging_handler [1]) example_cfg example_server
    (arrivals (example_addr 1) example_fragments)) = [repeat 7 40].
Proof.
  refine (blockwise_upload_delivered (Transport0 := plain_transport)
    (EstHandler0 := logging_handler [1]) example_cfg example_server (example_addr 1)
    (Some (MkCertInfo "CN=device" [1] [7])) SimpleEnroll None None
    (example_addr 1, [9], "/.well-known/est/sen", 2) (repeat 7 40) 0 example_fragments
    plain_reliable _ _ _ _ _ _ _ _ _ _ _ _ _ _).
  - lia.
  - discriminate.
  - vm_compute. reflexivity.
  - vm_compute. discriminate.
  - vm_compute. discriminate.
  - vm_compute. reflexivity.
  - repeat constructor; try (left; reflexivity); try (vm_compute; discriminate);
      try (vm_compute; reflexivity); eexists; vm_compute; reflexivity.
  - vm_compute. repeat constructor; set_solver.
  - repeat constructor.
  - vm_compute. auto.
  - vm_compute. discriminate.
  - reflexivity.
  - vm_compute. reflexivity.
  - eexists. split; [reflexivity|]. done.
Defined.

(** What a fresh request without Block options is answered, on every
    outcome of the handler: the handler ran exactly once with the request's
    payload and the peer's certificate, and the reply on record is the
    whole response, its first block when it is larger than a block, the
    error's reply, or none when the response exceeds the limit or the
    handler panicked. *)
Theorem request_answered {Ssl Env H} `{!Transport Ssl Env} `{!EstHandler H}
    cfg (s : Server Ssl Env H) data m peer now r :
  0 <= cfg_max_payload cfg -> 0 <= cfg_block_szx cfg <= 6 ->
  fresh_request cfg s data m peer -> block1 m = None -> block2 m = None ->
  route_message m = Ok r ->
  let s' := (process_datagram cfg s data peer now).1 in
  let called := handle (handler_state s) (er_operation r) (er_label r) (msg_payload m)
                  (content_format m) (cert_of s peer) in
  handler_state s' = called.1 /\ recorded_reply s' peer (msg_id m) = answer_of cfg r called.2.
Proof.
  intros Hmax Hszx [Hp Hsh Hcode Hid Hroom] Hb1 Hb2 Hr s' called. subst s' called.
  rewrite (process_datagram_fresh cfg s data m peer now Hp Hsh Hcode
    (swept_fresh cfg s now _ Hid) Hroom).
  unfold process_request. rewrite Hb2. unfold process_est_request. rewrite Hr, Hb1.
  unfold assemble_request. set (s1 := register _ _ _ _ _).
  assert (Hm : er_message r = m) by (by apply route_message_Ok in Hr as [-> _]).
  change (cert_of s peer) with (cert_of s1 peer).
  change (handler_state s) with (handler_state s1).
  split.
  - rewrite dispatch_handler. by rewrite (proj2 (Z.ltb_ge _ _)) by apply Hsh.
  - rewrite <- Hm. rewrite dispatch_reply; rewrite ?Hm; try done; [apply Hsh|..].
    + apply register_exchange.
    + unfold recorded_reply, s1. simpl. by rewrite lookup_insert_eq.
Qed.

Lemma request_answered_witness :
  let s' := (process_datagram (Transport0 := plain_transport)
    (EstHandler0 := logging_handler (repeat 3 100)) example_cfg example_server
    (example_post 1 [] [5]) (example_addr 1) 10).1 in
  handler_state s' = [[5]] /\
  exists rsp, recorded_reply s' (example_addr 1) 1 = Some rsp /\
    omap_ok (fun m => (msg_code m, msg_payload m, block2 m)) (parse rsp) =
    Ok (CREATED, repeat 3 64, Some (MkBlockOption 0 true 2)).
Proof.
  intros s'.
  assert (Hp : exists m r, parse (example_post 1 [] [5]) = Ok m /\ route_message m = Ok r /\
    fresh_request example_cfg example_server (example_post 1 [] [5]) m (example_addr 1) /\
    block1 m = None /\ block2 m = None /\ msg_id m = 1 /\ msg_payload m = [5] /\
    er_message r = m /\ er_operation r = SimpleEnroll /\ msg_token m = [9]).
  { eexists _, _. split; [vm_compute; reflexivity|]. split; [vm_compute; reflexivity|].
    split; [|vm_compute; auto 10].
    constructor; try (vm_compute; reflexivity).
    split; [left; reflexivity|vm_compute; discriminate]. }
  destruct Hp as (m & r & _ & Hr & Hf & Hb1 & Hb2 & Hid & Hpl & Hm & Ho & Htok).
  destruct (request_answered (Transport0 := plain_transport)
    (EstHandler0 := logging_handler (repeat 3 100)) example_cfg example_server
    (example_post 1 [] [5]) m (example_addr 1) 10 r) as [Hh Ha];
    [vm_compute; discriminate|vm_compute; split; discriminate|exact Hf|exact Hb1|exact Hb2|
     exact Hr|]. fold s' in Hh, Ha.
  split; [rewrite Hh, Hpl; reflexivity|].
  rewrite Hid in Ha. unfold answer_of in Ha. rewrite Hm, Hid, Ho, Htok in Ha.
  eexists. split; [exact Ha|]. vm_compute. reflexivity.
Defined.

(** A response larger than a block is served block by block: a fresh
    request for block [num > 0] of a cached response is answered with exactly
    that slice, flagged whether more follow, and the entry is kept, with its
    timer restarted, until the last block is served; a block beyond the end
    is refused and drops the entry.  The handler does not run again. *)
Theorem block2_continuation {Ssl Env H} `{!Transport Ssl Env} `{!EstHandler H}
    cfg (s : Server Ssl Env H) data m peer now b d cf code t :
  0 <= bd_szx d -> fresh_request cfg s data m peer ->
  block2 m = Some b -> 0 < bo_num b ->
  response_cache s !! transfer_key peer m = Some (d, cf, code, t) ->
  now - cfg_block_ttl cfg < t ->
  let s' := (process_datagram cfg s data peer now).1 in
  let bs := block_size_from_szx (bd_szx d) in
  handler_state s' = handler_state s /\
  if bo_num b * bs <? bd_payload_len d then
    let more := (bo_num b + 1) * bs <? bd_payload_len d in
    recorded_reply s' peer (msg_id m) =
      Some (encode (block_response code (msg_id m) (msg_token m) cf d
        (take (Z.to_nat bs) (drop (Z.to_nat (bo_num b * bs)) (bd_payload d)))
        (MkBlockOption (bo_num b) more (bd_szx d)))) /\
    response_cache s' !! transfer_key peer m = if more then Some (d, cf, code, now) else None
  else
    recorded_reply s' peer (msg_id m) =
      Some (encode (build_error_response (msg_token m) (msg_id m)
        (InvalidMessage "unknown Block2 exchange"))) /\
    response_cache s' !! transfer_key peer m = None.
Proof.
  intros Hs [Hp Hsh Hcode Hid Hroom] Hb Hn Hc Ht s' bs. subst s'.
  rewrite (process_datagram_fresh cfg s data m peer now Hp Hsh Hcode
    (swept_fresh cfg s now _ Hid) Hroom).
  unfold process_request. rewrite Hb. rewrite (proj2 (Z.ltb_lt _ _)) by done.
  split; [by rewrite continue_response_handler|].
  apply (continue_reply _ peer m (bo_num b) now d cf code t); try done.
  - apply register_exchange.
  - apply map_retain_lookup_Some. split; [done|]. by apply Z.ltb_lt.
Qed.

Lemma block2_continuation_witness :
  let s1 := (process_datagram (Transport0 := plain_transport)
    (EstHandler0 := logging_handler (repeat 3 100)) example_cfg example_server
    (example_post 1 [] [5]) (example_addr 1) 10).1 in
  let s2 := (process_datagram (Transport0 := plain_transport)
    (EstHandler0 := logging_handler (repeat 3 100)) example_cfg s1
    (example_post 2 [from_uint OPTION_BLOCK2 (block_encode (MkBlockOption 1 false 2))] [])
    (example_addr 1) 20).1 in
  handler_state s2 = handler_state s1 /\
  exists rsp, recorded_reply s2 (example_addr 1) 2 = Some rsp /\
    omap_ok (fun m => (msg_code m, msg_payload m, block2 m)) (parse rsp) =
    Ok (CREATED, repeat 3 36, Some (MkBlockOption 1 false 2)).
Proof.
  intros s1 s2. set (data := example_post 2 _ []) in s2.
  assert (Hm : exists m, parse data = Ok m /\
    fresh_request example_cfg s1 data m (example_addr 1) /\
    block2 m = Some (MkBlockOption 1 false 2) /\ msg_id m = 2 /\ msg_token m = [9] /\
    response_cache s1 !! transfer_key (example_addr 1) m =
      Some (MkBlockDisassembler (repeat 3 100) 2, 281, CREATED, 10)).
  { eexists. split; [vm_compute; reflexivity|].
    split; [|vm_compute; auto 10].
    constructor; try (vm_compute; reflexivity).
    split; [left; reflexivity|vm_compute; discriminate]. }
  destruct Hm as (m & _ & Hf & Hb & Hid & Htok & Hc).
  destruct (block2_continuation (Transport0 := plain_transport)
    (EstHandler0 := logging_handler (repeat 3 100)) example_cfg s1 data m (example_addr 1) 20
    (MkBlockOption 1 false 2) (MkBlockDisassembler (repeat 3 100) 2) 281 CREATED 10)
    as (Hh & Hr & _);
    [vm_compute; discriminate|exact Hf|exact Hb|vm_compute; reflexivity|exact Hc|
     vm_compute; reflexivity|].
  split; [exact Hh|]. eexists. rewrite Hid, Htok in Hr. split; [exact Hr|].
  vm_compute. reflexivity.
Defined.
