(* ===== verification/FailureTracker.v ===== *)
(** * Authentication failure tracking and lockout

    [src/auth/failure_tracker.rs] and the policy part of
    [src/config/lockout.rs].  Durations and instants are nanoseconds; every
    operation takes the clock reading [now] it makes.  The two mutexes are
    held for a whole operation, so operations are atomic steps. *)
From S2P Require Import Prelude Words.
Open Scope Z_scope.

Record LockoutPolicy : Type := MkPolicy {
  max_failures : Z;        (* u32 *)
  failure_window : Z;
  lockout_duration : Z
}.

Definition is_enabled (p : LockoutPolicy) : bool := 0 <? max_failures p.

Inductive LockoutStatus : Type :=
  | Allowed
  | LockedOut (retry_after : Z).

Definition is_locked (s : LockoutStatus) : bool :=
  match s with LockedOut _ => true | Allowed => false end.

Record FailureRecord : Type := MkRecord {
  failures : Z;            (* u32 *)
  window_start : Z;
  locked_until : option Z
}.

Definition is_prunable (r : FailureRecord) (now window : Z) : bool :=
  let lock_expired := match locked_until r with None => true | Some until => until <=? now end in
  let window_stale := window <=? elapsed now (window_start r) in
  lock_expired && window_stale.

Record FailureTracker : Type := MkTracker {
  policy : LockoutPolicy;
  records : gmap string FailureRecord;
  last_prune : Z
}.

Definition MAX_RECORDS : Z := 10000.
Definition MAX_IDENTITY : Z := 4096.

Definition tracker_new (p : LockoutPolicy) (now : Z) : FailureTracker :=
  MkTracker p ∅ (now - SECS).

Definition set_records (t : FailureTracker) (m : gmap string FailureRecord) : FailureTracker :=
  MkTracker (policy t) m (last_prune t).

Definition prune (t : FailureTracker) (now : Z) : FailureTracker :=
  MkTracker (policy t)
    (map_retain (fun _ r => negb (is_prunable r now (failure_window (policy t)))) (records t))
    now.

(** The pruning both [check] and [record_failure] do when it is due. *)
Definition prune_if_due (t : FailureTracker) (now : Z) : FailureTracker :=
  if Z.min SECS (failure_window (policy t)) <=? elapsed now (last_prune t)
  then prune t now else t.

Definition status_at (r : option FailureRecord) (now : Z) : option LockoutStatus :=
  match r with
  | None => None
  | Some rec =>
      match locked_until rec with
      | Some until => if now <? until then Some (LockedOut (until - now)) else None
      | None => None
      end
  end.

Definition check (t : FailureTracker) (identity : string) (now : Z)
  : FailureTracker * LockoutStatus :=
  if negb (is_enabled (policy t)) then (t, Allowed)
  else
    let t := if (MAX_RECORDS <=? Z.of_nat (size (records t))) then prune_if_due t now else t in
    if (MAX_IDENTITY <? Z.of_nat (String.length identity)) then (t, LockedOut SECS)
    else
      match status_at (records t !! identity) now with
      | Some s => (t, s)
      | None =>
          let t :=
            match records t !! identity with
            | Some rec =>
                if is_prunable rec now (failure_window (policy t))
                then set_records t (delete identity (records t)) else t
            | None => t
            end in
          (t, Allowed)
      end.

Definition record_failure (t : FailureTracker) (identity : string) (now : Z)
  : FailureTracker * LockoutStatus :=
  if negb (is_enabled (policy t)) then (t, Allowed)
  else
    let t := prune_if_due t now in
    if (MAX_IDENTITY <? Z.of_nat (String.length identity)) then (t, LockedOut SECS)
    else if (MAX_RECORDS <=? Z.of_nat (size (records t))) &&
            negb (bool_decide (is_Some (records t !! identity)))
    then (t, Allowed)
    else
      let rec := default (MkRecord 0 now None) (records t !! identity) in
      let live := match locked_until rec with Some until => now <? until | None => false end in
      if live then
        (set_records t (<[identity := rec]> (records t)),
         LockedOut (default 0 (locked_until rec) - now))
      else
        let window_elapsed := failure_window (policy t) <=? elapsed now (window_start rec) in
        let lockout_expired :=
          match locked_until rec with Some until => until <=? now | None => false end in
        let rec := if window_elapsed || lockout_expired then MkRecord 0 now None else rec in
        let n := as_u32 (failures rec + 1) in
        if max_failures (policy t) <=? n then
          let until := now + lockout_duration (policy t) in
          (set_records t (<[identity := MkRecord n (window_start rec) (Some until)]> (records t)),
           LockedOut (lockout_duration (policy t)))
        else
          (set_records t
             (<[identity := MkRecord n (window_start rec) (locked_until rec)]> (records t)),
           Allowed).

Definition record_success (t : FailureTracker) (identity : string) (now : Z) : FailureTracker :=
  if negb (is_enabled (policy t)) then t
  else
    match records t !! identity with
    | Some rec =>
        let locked := match locked_until rec with Some until => now <? until | None => false end in
        if locked then t else set_records t (delete identity (records t))
    | None => t
    end.

(** ** Configuration *)

Record LockoutConfig : Type := MkLockoutConfig {
  cfg_max_failures : Z;
  failure_window_secs : Z;
  lockout_duration_secs : Z
}.

Definition lockout_default : LockoutConfig := MkLockoutConfig 5 300 900.

Definition lockout_validate (c : LockoutConfig) : outcome unit string :=
  if cfg_max_failures c =? 0 then Ok tt
  else if failure_window_secs c =? 0 then
    Err "[auth_lockout].failure_window_secs must be at least 1 (or set max_failures = 0 to disable)"
  else if lockout_duration_secs c =? 0 then
    Err "[auth_lockout].lockout_duration_secs must be at least 1 (or set max_failures = 0 to disable)"
  else Ok tt.

Definition to_policy (c : LockoutConfig) : LockoutPolicy :=
  MkPolicy (cfg_max_failures c) (failure_window_secs c * SECS) (lockout_duration_secs c * SECS).

(** ** Runs *)

Inductive tracker_op : Type :=
  | OpCheck (identity : string) (now : Z)
  | OpFailure (identity : string) (now : Z)
  | OpSuccess (identity : string) (now : Z).

Definition op_identity (o : tracker_op) : string :=
  match o with OpCheck i _ | OpFailure i _ | OpSuccess i _ => i end.
Definition op_time (o : tracker_op) : Z :=
  match o with OpCheck _ t | OpFailure _ t | OpSuccess _ t => t end.

Definition tracker_step (t : FailureTracker) (o : tracker_op) : FailureTracker :=
  match o with
  | OpCheck i now => (check t i now).1
  | OpFailure i now => (record_failure t i now).1
  | OpSuccess i now => record_success t i now
  end.

(** ** Lemmas *)

Lemma prune_if_due_policy t now : policy (prune_if_due t now) = policy t.
Proof. unfold prune_if_due. by destruct (_ <=? _). Qed.

(** Pruning keeps a record that is not prunable, and invents none. *)
Lemma prune_if_due_kept t now i r :
  records t !! i = Some r -> is_prunable r now (failure_window (policy t)) = false ->
  records (prune_if_due t now) !! i = Some r.
Proof.
  intros Hr Hp. unfold prune_if_due. destruct (_ <=? _); [|done].
  simpl. apply map_retain_lookup_Some. by rewrite Hp.
Qed.

Lemma prune_if_due_sub t now : records (prune_if_due t now) ⊆ records t.
Proof. unfold prune_if_due. destruct (_ <=? _); [apply map_retain_subseteq|done]. Qed.

Lemma prune_if_due_size t now : (size (records (prune_if_due t now)) <= size (records t))%nat.
Proof. unfold prune_if_due. destruct (_ <=? _); [apply map_retain_size_le|done]. Qed.

Lemma prune_if_due_None t now i :
  records t !! i = None -> records (prune_if_due t now) !! i = None.
Proof. intros H. eapply lookup_weaken_None; [exact H|apply prune_if_due_sub]. Qed.

Lemma tracker_step_policy t o : policy (tracker_step t o) = policy t.
Proof.
  destruct o as [i now|i now|i now]; simpl.
  - unfold check. cbv zeta. destruct (negb _); [done|].
    set (t1 := if _ <=? _ then prune_if_due t now else t).
    assert (H : policy t1 = policy t) by (unfold t1; destruct (_ <=? _); [apply prune_if_due_policy|done]).
    destruct (_ <? _); [done|]. destruct (status_at _ _); [done|].
    destruct (records t1 !! i); [destruct (is_prunable _ _ _)|]; done.
  - unfold record_failure. cbv zeta. destruct (negb _); [done|].
    repeat match goal with |- context [if ?b then _ else _] => destruct b end;
      simpl; apply prune_if_due_policy.
  - unfold record_success. destruct (negb _); [done|].
    destruct (records t !! i) as [r|]; [|done].
    destruct (match locked_until r with Some _ => _ | None => _ end); done.
Qed.

Lemma run_policy l t : policy (run_steps tracker_step t l) = policy t.
Proof.
  revert t. induction l as [|o l IH]; intros t; simpl; [done|].
  by rewrite IH, tracker_step_policy.
Qed.

(** A step on another identity keeps a record that is not prunable. *)
Lemma step_other t o i r :
  op_identity o <> i -> records t !! i = Some r ->
  is_prunable r (op_time o) (failure_window (policy t)) = false ->
  records (tracker_step t o) !! i = Some r.
Proof.
  intros Hne Hr Hp. destruct o as [j now|j now|j now]; simpl in *.
  - unfold check. cbv zeta. destruct (negb _); [done|].
    set (t1 := if _ <=? _ then prune_if_due t now else t).
    assert (H : records t1 !! i = Some r)
      by (unfold t1; destruct (_ <=? _); [by apply prune_if_due_kept|done]).
    destruct (_ <? _); [done|]. destruct (status_at _ _); [done|].
    destruct (records t1 !! j) as [q|]; [|done].
    destruct (is_prunable q _ _); cbn [fst records set_records]; [|done].
    by rewrite lookup_delete_ne.
  - unfold record_failure. cbv zeta. destruct (negb _); [done|].
    pose proof (prune_if_due_kept t now i r Hr Hp) as H.
    repeat match goal with |- context [if ?b then _ else _] => destruct b end; simpl;
      rewrite ?lookup_insert_ne by done; done.
  - unfold record_success. destruct (negb _); [done|].
    destruct (records t !! j) as [q|]; [|done].
    destruct (match locked_until q with Some _ => _ | None => _ end); simpl; [done|].
    by rewrite lookup_delete_ne.
Qed.

(** A live lockout survives every step, a success included. *)
Lemma step_locked t o i r until :
  records t !! i = Some r -> locked_until r = Some until -> op_time o < until ->
  records (tracker_step t o) !! i = Some r.
Proof.
  intros Hr Hu Ht.
  assert (Hp : is_prunable r (op_time o) (failure_window (policy t)) = false).
  { unfold is_prunable. rewrite Hu. by rewrite (proj2 (Z.leb_gt _ _)). }
  destruct (decide (op_identity o = i)) as [Hi|Hne]; [|by apply step_other].
  destruct o as [j now|j now|j now]; simpl in *; subst j.
  - unfold check. cbv zeta. destruct (negb _); [done|].
    set (t1 := if _ <=? _ then prune_if_due t now else t).
    assert (H : records t1 !! i = Some r)
      by (unfold t1; destruct (_ <=? _); [by apply prune_if_due_kept|done]).
    destruct (_ <? _); [done|]. rewrite H. simpl. rewrite Hu.
    by rewrite (proj2 (Z.ltb_lt _ _)).
  - unfold record_failure. cbv zeta. destruct (negb _); [done|].
    pose proof (prune_if_due_kept t now i r Hr Hp) as H.
    destruct (_ <? _); [done|]. rewrite H.
    rewrite bool_decide_eq_true_2 by done. rewrite andb_false_r. simpl. rewrite Hu.
    rewrite (proj2 (Z.ltb_lt now until)) by done. simpl. by rewrite lookup_insert_eq.
  - unfold record_success. destruct (negb _); [done|]. rewrite Hr, Hu.
    by rewrite (proj2 (Z.ltb_lt _ _)).
Qed.

Lemma run_locked l t i r until :
  records t !! i = Some r -> locked_until r = Some until ->
  Forall (fun o => op_time o < until) l ->
  records (run_steps tracker_step t l) !! i = Some r.
Proof.
  revert t. induction l as [|o l IH]; intros t Hr Hu Hl; simpl; [done|].
  inversion Hl; subst. apply IH; [|done|done]. by eapply step_locked.
Qed.

(** What [check] answers for a record with a lockout time. *)
Lemma check_record t i r now :
  is_enabled (policy t) = true -> Z.of_nat (String.length i) <= MAX_IDENTITY ->
  records t !! i = Some r ->
  (check t i now).2 =
  match locked_until r with
  | Some until => if now <? until then LockedOut (until - now) else Allowed
  | None => Allowed
  end.
Proof.
  intros He Hi Hr. unfold check. cbv zeta. rewrite He. simpl.
  rewrite (proj2 (Z.ltb_ge _ _)) by done.
  set (t1 := if _ <=? _ then prune_if_due t now else t).
  assert (H : records t1 !! i = Some r \/
    records t1 !! i = None /\ is_prunable r now (failure_window (policy t)) = true).
  { unfold t1. destruct (_ <=? _); [|by left].
    destruct (is_prunable r now (failure_window (policy t))) eqn:Ep.
    - unfold prune_if_due. destruct (_ <=? _); [right|by left]. simpl.
      split; [|done]. apply map_retain_lookup_None. right. exists r. by rewrite Ep.
    - left. by apply prune_if_due_kept. }
  destruct H as [-> | [-> Hp]]; simpl.
  - destruct (locked_until r) as [u|]; [destruct (now <? u)|]; done.
  - unfold is_prunable in Hp. apply andb_true_iff in Hp as [Hp _].
    destruct (locked_until r) as [u|]; [|done]. apply Z.leb_le in Hp.
    by rewrite (proj2 (Z.ltb_ge _ _)).
Qed.

Lemma check_absent t i now :
  Z.of_nat (String.length i) <= MAX_IDENTITY -> records t !! i = None ->
  (check t i now).2 = Allowed.
Proof.
  intros Hi Hr. unfold check. cbv zeta. destruct (negb _); [done|].
  rewrite (proj2 (Z.ltb_ge _ _)) by done.
  set (t1 := if _ <=? _ then prune_if_due t now else t).
  assert (H : records t1 !! i = None)
    by (unfold t1; destruct (_ <=? _); [by apply prune_if_due_None|done]).
  by rewrite H.
Qed.

(** What [record_failure] does with the record it finds (after pruning). *)
Lemma record_failure_record t i now r :
  is_enabled (policy t) = true -> Z.of_nat (String.length i) <= MAX_IDENTITY ->
  records (prune_if_due t now) !! i = Some r ->
  match locked_until r with
  | Some until => until <= now
  | None => True
  end ->
  let fresh := (failure_window (policy t) <=? elapsed now (window_start r)) ||
               bool_decide (is_Some (locked_until r)) in
  let base := if fresh then MkRecord 0 now None else r in
  let n := as_u32 (failures base + 1) in
  let locked := max_failures (policy t) <=? n in
  records (record_failure t i now).1 !! i =
    Some (MkRecord n (window_start base)
      (if locked then Some (now + lockout_duration (policy t)) else locked_until base)) /\
  (record_failure t i now).2 = if locked then LockedOut (lockout_duration (policy t)) else Allowed.
Proof.
  intros He Hi Hr Hu. unfold record_failure. cbv zeta. rewrite He. cbn [negb].
  rewrite (proj2 (Z.ltb_ge _ _)) by done. rewrite Hr.
  rewrite (bool_decide_eq_true_2 (is_Some (Some r))) by done. rewrite andb_false_r.
  replace (default (MkRecord 0 now None) (Some r)) with r by done.
  rewrite prune_if_due_policy.
  destruct r as [n ws lu]; cbn [locked_until window_start failures] in *.
  destruct lu as [u|].
  - cbn beta iota. rewrite (proj2 (Z.ltb_ge now u)), (proj2 (Z.leb_le u now)) by done.
    rewrite (bool_decide_eq_true_2 (is_Some (Some u))) by done. rewrite !orb_true_r. simpl.
    destruct (max_failures (policy t) <=? _); simpl; by rewrite lookup_insert_eq.
  - rewrite (bool_decide_eq_false_2 (is_Some (@None Z))) by (by intros [? ?]).
    rewrite !orb_false_r. simpl.
    destruct (failure_window (policy t) <=? elapsed now ws); simpl;
      destruct (max_failures (policy t) <=? _); simpl; by rewrite lookup_insert_eq.
Qed.

(** Counting failures within one window. *)
Definition is_failure_of (i : string) (o : tracker_op) : bool :=
  match o with OpFailure j _ => bool_decide (j = i) | _ => false end.
Definition count_failures (i : string) (l : list tracker_op) : Z :=
  Z.of_nat (length (List.filter (is_failure_of i) l)).

Definition no_success_of (i : string) (o : tracker_op) : Prop :=
  match o with OpSuccess j _ => j <> i | _ => True end.

Section Counting.
Variables (i : string) (t0 : Z).
Hypothesis identity_short : Z.of_nat (String.length i) <= MAX_IDENTITY.

(** The record of an identity that failed [n] times since [t0]. *)
Definition counted (t : FailureTracker) (n : Z) : Prop :=
  records t !! i = Some (MkRecord n t0 None).

Definition in_window (t : FailureTracker) (now : Z) : Prop :=
  elapsed now t0 < failure_window (policy t).

Lemma counted_prunable t n now : in_window t now ->
  is_prunable (MkRecord n t0 None) now (failure_window (policy t)) = false.
Proof. intros Hw. unfold is_prunable. simpl. by apply Z.leb_gt. Qed.

Lemma counted_failure t n now :
  is_enabled (policy t) = true -> counted t n -> in_window t now ->
  0 <= n < 2 ^ 32 - 1 ->
  (record_failure t i now).2 =
    (if max_failures (policy t) <=? n + 1
     then LockedOut (lockout_duration (policy t)) else Allowed) /\
  (n + 1 < max_failures (policy t) -> counted (record_failure t i now).1 (n + 1)).
Proof.
  intros He Hc Hw Hn.
  pose proof (prune_if_due_kept t now i _ Hc (counted_prunable t n now Hw)) as Hk.
  destruct (record_failure_record t i now _ He identity_short Hk I) as [Hr Hs].
  cbn [window_start locked_until failures] in Hr, Hs.
  rewrite (proj2 (Z.leb_gt (failure_window (policy t)) (elapsed now t0))) in Hr, Hs by exact Hw.
  cbn [orb failures window_start locked_until] in Hr, Hs.
  rewrite bool_decide_eq_false_2 in Hr, Hs by (by intros [? ?]).
  cbn [failures window_start locked_until] in Hr, Hs.
  assert (Hu : as_u32 (n + 1) = n + 1) by (unfold as_u32; apply Z.mod_small; lia).
  rewrite Hu in Hr, Hs. split; [done|]. intros Hlt.
  rewrite (proj2 (Z.leb_gt (max_failures (policy t)) (n + 1))) in Hr by lia. exact Hr.
Qed.

Lemma counted_step t o n :
  is_enabled (policy t) = true -> max_failures (policy t) < 2 ^ 32 ->
  counted t n -> 0 <= n -> in_window t (op_time o) -> no_success_of i o ->
  let n' := n + (if is_failure_of i o then 1 else 0) in
  n' < max_failures (policy t) -> counted (tracker_step t o) n'.
Proof.
  intros He Hm Hc Hn Hw Hs n' Hlt. subst n'.
  destruct (decide (op_identity o = i)) as [Hi|Hne].
  - destruct o as [j now|j now|j now]; simpl in Hi, Hw, Hs; subst j; [..|done]; simpl in Hlt |- *.
    + rewrite Z.add_0_r. unfold counted, check. cbv zeta. rewrite He. cbn [negb].
      rewrite (proj2 (Z.ltb_ge MAX_IDENTITY _)) by done.
      set (t1 := if _ <=? _ then prune_if_due t now else t).
      assert (H : records t1 !! i = Some (MkRecord n t0 None)).
      { unfold t1. destruct (_ <=? _); [|done].
        by apply prune_if_due_kept, counted_prunable. }
      assert (Hp : policy t1 = policy t)
        by (unfold t1; destruct (_ <=? _); [apply prune_if_due_policy|done]).
      rewrite H, Hp. simpl. by rewrite (counted_prunable t n now Hw).
    + rewrite bool_decide_eq_true_2 in Hlt |- * by done.
      apply counted_failure; try done; lia.
  - assert (Hf : is_failure_of i o = false)
      by (destruct o; simpl in *; try done; by apply bool_decide_eq_false_2).
    rewrite Hf, Z.add_0_r. apply step_other; [done|done|]. by apply counted_prunable.
Qed.

Lemma counted_run l : forall t n,
  is_enabled (policy t) = true -> max_failures (policy t) < 2 ^ 32 ->
  counted t n -> 0 <= n -> Forall (fun o => in_window t (op_time o)) l ->
  Forall (no_success_of i) l -> n + count_failures i l < max_failures (policy t) ->
  counted (run_steps tracker_step t l) (n + count_failures i l).
Proof.
  induction l as [|o l IH]; intros t n He Hm Hc Hn Hw Hs Hlt; simpl.
  - unfold count_failures. simpl. by rewrite Z.add_0_r.
  - inversion Hw as [|? ? Hw1 Hw2]; inversion Hs as [|? ? Hs1 Hs2]; subst.
    assert (Hcnt : count_failures i (o :: l) =
      (if is_failure_of i o then 1 else 0) + count_failures i l).
    { unfold count_failures. simpl. destruct (is_failure_of i o); simpl; lia. }
    rewrite Hcnt in *. rewrite Z.add_assoc.
    assert (0 <= count_failures i l) by (unfold count_failures; lia).
    apply IH; rewrite ?tracker_step_policy; try done.
    + apply counted_step; try done. lia.
    + destruct (is_failure_of i o); lia.
    + eapply Forall_impl; [exact Hw2|]. intros o' Ho'. unfold in_window in *.
      by rewrite tracker_step_policy.
    + lia.
Qed.
End Counting.

(** An identity without a record gets one on its first failure. *)
Lemma first_failure t i now :
  is_enabled (policy t) = true -> Z.of_nat (String.length i) <= MAX_IDENTITY ->
  records t !! i = None -> Z.of_nat (size (records t)) < MAX_RECORDS ->
  0 < failure_window (policy t) ->
  (record_failure t i now).2 =
    (if max_failures (policy t) <=? 1 then LockedOut (lockout_duration (policy t)) else Allowed) /\
  (1 < max_failures (policy t) -> counted i now (record_failure t i now).1 1).
Proof.
  intros He Hi Hn Hsz Hw. unfold counted, record_failure. cbv zeta. rewrite He. cbn [negb].
  rewrite (proj2 (Z.ltb_ge MAX_IDENTITY _)) by done.
  pose proof (prune_if_due_size t now) as Hs.
  rewrite (proj2 (Z.leb_gt MAX_RECORDS _)) by lia. cbn [andb].
  rewrite (prune_if_due_None t now i Hn), prune_if_due_policy. simpl.
  assert (Hel : elapsed now now = 0) by (unfold elapsed; lia). rewrite Hel.
  rewrite (proj2 (Z.leb_gt (failure_window (policy t)) 0)) by done. simpl.
  change (as_u32 (0 + 1)) with 1.
  destruct (Z.leb_spec (max_failures (policy t)) 1); simpl; (split; [done|]);
    intros; [lia|]. by rewrite lookup_insert_eq.
Qed.

(** Capacity. *)
Definition tracker_bounded (t : FailureTracker) : Prop :=
  Z.of_nat (size (records t)) <= MAX_RECORDS /\
  (is_enabled (policy t) = false -> records t = ∅).

Lemma tracker_step_bounded t o : tracker_bounded t -> tracker_bounded (tracker_step t o).
Proof.
  intros [Hsz Hd]. split; [|].
  2:{ rewrite tracker_step_policy. intros He. specialize (Hd He).
      destruct o as [i now|i now|i now]; simpl;
        unfold check, record_failure, record_success; by rewrite He. }
  destruct o as [i now|i now|i now]; simpl.
  - unfold check. cbv zeta. destruct (negb _); [done|].
    set (t1 := if _ <=? _ then prune_if_due t now else t).
    assert (H1 : (size (records t1) <= size (records t))%nat)
      by (unfold t1; destruct (_ <=? _); [apply prune_if_due_size|done]).
    destruct (_ <? _); [simpl; lia|]. destruct (status_at _ _); [simpl; lia|].
    destruct (records t1 !! i) as [q|]; [|simpl; lia].
    destruct (is_prunable q _ _); cbn [fst records set_records]; [|lia].
    pose proof (size_delete_le (records t1) i). lia.
  - unfold record_failure. cbv zeta. destruct (negb _); [done|].
    pose proof (prune_if_due_size t now) as H1. set (t1 := prune_if_due t now) in *.
    destruct (_ <? _); [simpl; lia|].
    destruct (_ && _) eqn:Ecap; [simpl; lia|].
    assert (Hins : forall r, Z.of_nat (size (<[i := r]> (records t1))) <= MAX_RECORDS).
    { intros r. apply andb_false_iff in Ecap as [Hc|Hc].
      - apply Z.leb_gt in Hc. pose proof (size_insert_le (records t1) i r). lia.
      - apply negb_false_iff, bool_decide_eq_true in Hc as [q Hq].
        rewrite (size_insert_some _ _ _ q) by done. lia. }
    repeat match goal with |- context [if ?b then _ else _] => destruct b end;
      cbn [fst records set_records]; apply Hins.
  - unfold record_success. destruct (negb _); [done|].
    destruct (records t !! i) as [r|]; [|done].
    destruct (match locked_until r with Some _ => _ | None => _ end); [done|].
    cbn [records set_records]. pose proof (size_delete_le (records t) i). lia.
Qed.

(** ** Properties *)

(** The threshold.  An identity without a record that fails once, and
    then [k] more times in the window that opened then, interleaved with any
    checks and any operations on other identities, is locked out by the next
    failure exactly when that makes [max_failures] of them. *)
Theorem lockout_at_threshold t i t1 l now :
  is_enabled (policy t) = true -> max_failures (policy t) < 2 ^ 32 ->
  0 < failure_window (policy t) -> Z.of_nat (String.length i) <= MAX_IDENTITY ->
  records t !! i = None -> Z.of_nat (size (records t)) < MAX_RECORDS ->
  Forall (fun o => elapsed (op_time o) t1 < failure_window (policy t)) l ->
  Forall (no_success_of i) l -> elapsed now t1 < failure_window (policy t) ->
  let tr := run_steps tracker_step t (OpFailure i t1 :: l) in
  let k := count_failures i (OpFailure i t1 :: l) in
  k < max_failures (policy t) ->
  (record_failure tr i now).2 =
  if max_failures (policy t) <=? k + 1
  then LockedOut (lockout_duration (policy t)) else Allowed.
Proof.
  intros He Hm Hw Hi Hn Hsz Hl Hs Hnow tr k Hk.
  assert (Hk1 : k = 1 + count_failures i l).
  { unfold k, count_failures. simpl. rewrite bool_decide_eq_true_2 by done. simpl. lia. }
  assert (0 <= count_failures i l) by (unfold count_failures; lia).
  destruct (first_failure t i t1 He Hi Hn Hsz Hw) as [_ H1].
  assert (Hp : policy (record_failure t i t1).1 = policy t)
    by apply (tracker_step_policy t (OpFailure i t1)).
  assert (Hc : counted i t1 tr k).
  { rewrite Hk1. unfold tr. simpl.
    apply counted_run; rewrite ?Hp; try done; try lia.
    - apply H1. lia.
    - eapply Forall_impl; [exact Hl|]. intros o Ho. unfold in_window. by rewrite Hp. }
  assert (Hpt : policy tr = policy t) by apply run_policy.
  rewrite <- Hpt. eapply (counted_failure i t1); try done; rewrite ?Hpt; try done.
  - unfold in_window. by rewrite Hpt.
  - lia.
Qed.

Definition example_policy : LockoutPolicy := to_policy (MkLockoutConfig 3 300 900).

Lemma lockout_at_threshold_witness :
  let tr := run_steps tracker_step (tracker_new example_policy 0)
    [OpFailure "alice" (1 * SECS); OpFailure "bob" (2 * SECS); OpFailure "alice" (3 * SECS)] in
  (record_failure tr "alice" (4 * SECS)).2 = LockedOut (900 * SECS).
Proof.
  intros tr. etransitivity.
  - apply (lockout_at_threshold (tracker_new example_policy 0) "alice" (1 * SECS)
      [OpFailure "bob" (2 * SECS); OpFailure "alice" (3 * SECS)] (4 * SECS)).
    + reflexivity.
    + vm_compute. reflexivity.
    + reflexivity.
    + vm_compute. discriminate.
    + reflexivity.
    + vm_compute. reflexivity.
    + repeat constructor.
    + repeat constructor.
    + vm_compute. reflexivity.
    + vm_compute. reflexivity.
  - vm_compute. reflexivity.
Defined.

(** C14: a lockout is enforced for exactly its duration.  Once a failure is
    answered with a lockout of [d], then at every moment before it ends,
    after any operations whatever, successes included, a check refuses the
    identity with the time that remains; and from the end on, unless other
    operations on the identity came after it, a check admits it. *)
Theorem lockout_enforced t i t0 tr d :
  is_enabled (policy t) = true -> Z.of_nat (String.length i) <= MAX_IDENTITY ->
  record_failure t i t0 = (tr, LockedOut d) -> 0 < d ->
  forall l now, Forall (fun o => op_time o < t0 + d) l ->
  (check (run_steps tracker_step tr l) i now).2 =
  if now <? t0 + d then LockedOut (t0 + d - now) else Allowed.
Proof.
  intros He Hi E Hd l now Hl.
  assert (Hr : exists r, records tr !! i = Some r /\ locked_until r = Some (t0 + d)).
  { unfold record_failure in E. cbv zeta in E. rewrite He in E. cbn [negb] in E.
    rewrite (proj2 (Z.ltb_ge MAX_IDENTITY _)) in E by done.
    destruct (_ && _) in E; [done|].
    set (rec := default (MkRecord 0 t0 None) _) in E.
    destruct (locked_until rec) as [u|] eqn:Eu in E.
    - destruct (Z.ltb_spec t0 u) in E.
      + injection E as <- <-. exists rec. cbn [records set_records].
        rewrite lookup_insert_eq, Eu. simpl. split; [done|]. f_equal. lia.
      + destruct (_ <=? as_u32 _) in E; [|done]. injection E as <- <-. eexists.
        cbn [records set_records]. by rewrite lookup_insert_eq, prune_if_due_policy.
    - destruct (_ <=? as_u32 _) in E; [|done]. injection E as <- <-. eexists.
      cbn [records set_records]. by rewrite lookup_insert_eq, prune_if_due_policy. }
  destruct Hr as (r & Hr & Hu).
  pose proof (run_locked l tr i r (t0 + d) Hr Hu Hl) as Hk.
  assert (Hp : policy (run_steps tracker_step tr l) = policy t).
  { rewrite run_policy. change tr with (tr, LockedOut d).1. rewrite <- E.
    apply (tracker_step_policy t (OpFailure i t0)). }
  rewrite (check_record _ i r now) by (rewrite ?Hp; done). by rewrite Hu.
Qed.

Lemma lockout_enforced_witness :
  let t := run_steps tracker_step (tracker_new example_policy 0)
    [OpFailure "alice" (1 * SECS); OpFailure "alice" (3 * SECS)] in
  let tr := (record_failure t "alice" (4 * SECS)).1 in
  (check (run_steps tracker_step tr [OpSuccess "alice" (5 * SECS); OpFailure "bob" (6 * SECS)])
     "alice" (10 * SECS)).2 = LockedOut (894 * SECS).
Proof.
  intros t tr. etransitivity.
  - apply (lockout_enforced t "alice" (4 * SECS) tr (900 * SECS)).
    + vm_compute. reflexivity.
    + vm_compute. discriminate.
    + vm_compute. reflexivity.
    + reflexivity.
    + repeat constructor.
  - vm_compute. reflexivity.
Defined.

(** The tracker's memory is bounded.  On every run from an empty tracker
    it holds at most 10,000 records, and with [max_failures = 0] none at all;
    a disabled tracker answers every call with [Allowed]. *)
Theorem tracker_memory_bounded p start l :
  let t := run_steps tracker_step (tracker_new p start) l in
  Z.of_nat (size (records t)) <= MAX_RECORDS /\
  (max_failures p = 0 ->
     records t = ∅ /\ forall i now, check t i now = (t, Allowed) /\
       record_failure t i now = (t, Allowed) /\ record_success t i now = t).
Proof.
  intros t. assert (Hb : tracker_bounded t).
  { apply (run_steps_inv _ tracker_bounded); [intros; by apply tracker_step_bounded|].
    split; [|done]. simpl. by rewrite map_size_empty. }
  destruct Hb as [Hsz Hd]. split; [exact Hsz|]. intros Hp.
  assert (He : is_enabled (policy t) = false).
  { unfold t. rewrite run_policy. unfold is_enabled. simpl. by rewrite Hp. }
  split; [by apply Hd|]. intros i now.
  unfold check, record_failure, record_success. by rewrite He.
Qed.

Lemma tracker_memory_bounded_witness :
  let t := run_steps tracker_step (tracker_new (to_policy (MkLockoutConfig 0 0 0)) 0)
    [OpFailure "alice" 1; OpFailure "alice" 2] in
  records t = ∅ /\ (check t "alice" 3).2 = Allowed.
Proof.
  destruct (proj2 (tracker_memory_bounded (to_policy (MkLockoutConfig 0 0 0)) 0
    [OpFailure "alice" 1; OpFailure "alice" 2]) eq_refl) as [H1 H2].
  split; [exact H1|]. exact (f_equal snd (proj1 (H2 "alice" 3))).
Defined.
