(* ===== verification/OtpStore.v ===== *)
(** * One-time passwords: stores and validation

    [crates/kipuka-otp/src/{lib,store,validate}.rs] and the hash of
    [generate.rs]: the errors, the storage trait with its in-memory implementation, and the two-step
    validator, which looks a token up and then consumes one use of it.
    Time stamps are nanoseconds; UUIDs are 128-bit integers. *)
From S2P Require Import Prelude Words Text.
Open Scope Z_scope.

Inductive OtpError : Type :=
  | NotFound
  | Expired (expired_at : string)
  | UsageLimitExceeded (max_uses : Z)
  | Revoked
  | GenerationError (detail : string)
  | StorageError (detail : string).

Abbreviation OtpResult T := (outcome T OtpError).

Record OtpRecord : Type := MkOtp {
  otp_id : Z;
  token_hash : bytes;
  otp_entity : string;
  otp_label : string;
  otp_profile : string;
  otp_created_at : Z;
  expires_at : Z;
  max_uses : Z;        (* u32 *)
  current_uses : Z;    (* u32 *)
  revoked : bool
}.

Definition with_uses (r : OtpRecord) (n : Z) : OtpRecord :=
  MkOtp (otp_id r) (token_hash r) (otp_entity r) (otp_label r) (otp_profile r)
    (otp_created_at r) (expires_at r) (max_uses r) n (revoked r).
Definition with_revoked (r : OtpRecord) : OtpRecord :=
  MkOtp (otp_id r) (token_hash r) (otp_entity r) (otp_label r) (otp_profile r)
    (otp_created_at r) (expires_at r) (max_uses r) (current_uses r) true.

(** ** The storage trait *)

(** Every method is one atomic step on the store. *)
Class OtpStore (S : Type) : Type := {
  insert : S -> OtpRecord -> S * OtpResult unit;
  find_by_hash : S -> bytes -> OtpResult (option OtpRecord);
  increment_uses : S -> Z -> Z -> S * OtpResult unit;
  revoke : S -> Z -> S * OtpResult unit;
  cleanup_expired : S -> Z -> S * OtpResult Z
}.

(** What the trait promises, in terms of the records a store holds by id.
    [store_wf] is the representation invariant of the implementation. *)
Class OtpStoreLaws (S : Type) `{!OtpStore S} : Type := {
  held : S -> gmap Z OtpRecord;
  store_wf : S -> Prop;
  insert_law s r : store_wf s ->
    store_wf (insert s r).1 /\ held (insert s r).1 = <[otp_id r := r]> (held s);
  find_law s h r : store_wf s -> find_by_hash s h = Ok (Some r) ->
    held s !! otp_id r = Some r /\ token_hash r = h;
  increment_wf s id n : store_wf s -> store_wf (increment_uses s id n).1;
  increment_Ok s id n : store_wf s -> (increment_uses s id n).2 = Ok tt ->
    exists r, held s !! id = Some r /\ current_uses r < n /\
      held (increment_uses s id n).1 = <[id := with_uses r (as_u32 (current_uses r + 1))]> (held s);
  increment_fail s id n : store_wf s -> (increment_uses s id n).2 <> Ok tt ->
    held (increment_uses s id n).1 = held s;
  revoke_law s id : store_wf s -> store_wf (revoke s id).1 /\
    forall k r, held (revoke s id).1 !! k = Some r ->
      exists r0, held s !! k = Some r0 /\ (r = r0 \/ r = with_revoked r0);
  cleanup_law s now : store_wf s ->
    store_wf (cleanup_expired s now).1 /\ held (cleanup_expired s now).1 ⊆ held s
}.

(** ** The in-memory store *)

Abbreviation InMemoryOtpStore := (gmap Z OtpRecord).

Section InMemory.
(** The order in which the hash map's values are visited. *)
Variable iter : gmap Z OtpRecord -> list (Z * OtpRecord).

Definition mem_insert (s : InMemoryOtpStore) (r : OtpRecord) : InMemoryOtpStore * OtpResult unit :=
  (<[otp_id r := r]> s, Ok tt).

Definition mem_find_by_hash (s : InMemoryOtpStore) (hash : bytes) : OtpResult (option OtpRecord) :=
  Ok (List.find (fun r => bool_decide (token_hash r = hash)) (map snd (iter s))).

Definition mem_increment_uses (s : InMemoryOtpStore) (id n : Z) : InMemoryOtpStore * OtpResult unit :=
  match s !! id with
  | Some r =>
      if n <=? current_uses r then (s, Err (UsageLimitExceeded n))
      else (<[id := with_uses r (as_u32 (current_uses r + 1))]> s, Ok tt)
  | None => (s, Err NotFound)
  end.

Definition mem_revoke (s : InMemoryOtpStore) (id : Z) : InMemoryOtpStore * OtpResult unit :=
  match s !! id with
  | Some r => (<[id := with_revoked r]> s, Ok tt)
  | None => (s, Err NotFound)
  end.

Definition mem_cleanup_expired (s : InMemoryOtpStore) (now : Z) : InMemoryOtpStore * OtpResult Z :=
  let s' := map_retain (fun _ r => now <? expires_at r) s in
  (s', Ok (Z.of_nat (size s) - Z.of_nat (size s'))).

#[export] Instance mem_store : OtpStore InMemoryOtpStore := {|
  insert := mem_insert;
  find_by_hash := mem_find_by_hash;
  increment_uses := mem_increment_uses;
  revoke := mem_revoke;
  cleanup_expired := mem_cleanup_expired
|}.

(** Records are filed under their own id, as [insert] does. *)
Definition filed (s : InMemoryOtpStore) : Prop :=
  forall id r, s !! id = Some r -> otp_id r = id.
End InMemory.

(** ** The validator *)

Record ValidationResult : Type := MkValidation {
  vr_entity_id : string;
  vr_profile : string;
  vr_label : string;
  remaining_uses : Z
}.

Section Validator.
Context {S : Type} `{!OtpStore S}.
(** SHA-256 and the RFC 3339 rendering of a time stamp. *)
Variable sha256 : bytes -> bytes.
Variable to_rfc3339 : Z -> string.

Definition hash_token (plaintext : string) : bytes := sha256 (bytes_of_string plaintext).

(** [validate] up to the second access to the store. *)
Definition validate_find (s : S) (plaintext : string) (now : Z) : OtpResult OtpRecord :=
  let? found := find_by_hash s (hash_token plaintext) in
  let? record := ok_or found NotFound in
  if revoked record then Err Revoked
  else if expires_at record <? now then Err (Expired (to_rfc3339 (expires_at record)))
  else Ok record.

(** The rest of [validate]: consume one use. *)
Definition validate_consume (s : S) (record : OtpRecord) : S * OtpResult ValidationResult :=
  let (s, r) := increment_uses s (otp_id record) (max_uses record) in
  (s,
   let? _ := r in
   let new_uses := as_u32 (current_uses record + 1) in
   let remaining := as_u32 (max_uses record - new_uses) in
   Ok (MkValidation (otp_entity record) (otp_profile record) (otp_label record) remaining)).

Definition validate (s : S) (plaintext : string) (now : Z) : S * OtpResult ValidationResult :=
  match validate_find s plaintext now with
  | Ok record => validate_consume s record
  | Err e => (s, Err e)
  | Panic => (s, Panic)
  end.

(** ** Concurrent validations *)

(** What a store is asked to do, in the order it is asked: the two accesses
    of each validation are separate events, so that others may come between
    them. *)
Inductive event : Type :=
  | EvFind (attempt : nat) (plaintext : string) (now : Z)
  | EvConsume (attempt : nat)
  | EvInsert (r : OtpRecord)
  | EvRevoke (id : Z)
  | EvCleanup (now : Z).

(** The store, the attempts that found a record and have not consumed it
    yet, and the validations that succeeded. *)
Record Otps : Type := MkOtps {
  otps_store : S;
  otps_pending : gmap nat OtpRecord;
  otps_success : list (OtpRecord * ValidationResult)
}.

Definition otp_step (o : Otps) (e : event) : Otps :=
  match e with
  | EvFind i plaintext now =>
      match validate_find (otps_store o) plaintext now with
      | Ok r => MkOtps (otps_store o) (<[i := r]> (otps_pending o)) (otps_success o)
      | _ => o
      end
  | EvConsume i =>
      match otps_pending o !! i with
      | Some r =>
          let (s, res) := validate_consume (otps_store o) r in
          MkOtps s (delete i (otps_pending o))
            (match res with Ok v => (r, v) :: otps_success o | _ => otps_success o end)
      | None => o
      end
  | EvInsert r => MkOtps (insert (otps_store o) r).1 (otps_pending o) (otps_success o)
  | EvRevoke id => MkOtps (revoke (otps_store o) id).1 (otps_pending o) (otps_success o)
  | EvCleanup now =>
      MkOtps (cleanup_expired (otps_store o) now).1 (otps_pending o) (otps_success o)
  end.

Definition inserted (e : event) : option OtpRecord :=
  match e with EvInsert r => Some r | _ => None end.
End Validator.

Arguments Otps : clear implicits.

(** ** Lemmas *)

Section MemLaws.
Variable iter : gmap Z OtpRecord -> list (Z * OtpRecord).
Hypothesis iter_perm : forall m, iter m ≡ₚ map_to_list m.

Lemma mem_find_Some (s : InMemoryOtpStore) h r : filed s ->
  mem_find_by_hash iter s h = Ok (Some r) -> s !! otp_id r = Some r /\ token_hash r = h.
Proof.
  intros Hf E. injection E as E. apply find_some in E as [Hin Hh].
  apply bool_decide_eq_true in Hh. split; [|done].
  apply list_elem_of_In, list_elem_of_fmap in Hin as ([id q] & -> & Hin). simpl.
  rewrite iter_perm in Hin. apply elem_of_map_to_list in Hin.
  by rewrite (Hf id q Hin).
Qed.

Lemma filed_insert (s : InMemoryOtpStore) id r : filed s -> otp_id r = id ->
  filed (<[id := r]> s).
Proof.
  intros Hf Hid k q Hk. apply lookup_insert_Some in Hk as [[<- <-]|[_ Hk]]; [done|].
  by apply Hf.
Qed.

Lemma filed_empty : filed ∅.
Proof. intros id r Hr. by apply lookup_empty_Some in Hr. Qed.

Program Definition mem_laws : @OtpStoreLaws InMemoryOtpStore (mem_store iter) := {|
  held := fun s => s;
  store_wf := filed
|}.
Next Obligation. intros s r Hf. split; [by apply filed_insert|done]. Qed.
Next Obligation. intros s h r Hf E. by apply mem_find_Some. Qed.
Next Obligation.
  intros s id n Hf. simpl. unfold mem_increment_uses.
  destruct (s !! id) as [r|] eqn:Hr; [|done]. destruct (_ <=? _); [done|].
  apply filed_insert; [done|]. simpl. by apply Hf.
Qed.
Next Obligation.
  intros s id n Hf. simpl. unfold mem_increment_uses.
  destruct (s !! id) as [r|] eqn:Hr; [|done].
  destruct (Z.leb_spec n (current_uses r)); [done|]. intros _. by exists r.
Qed.
Next Obligation.
  intros s id n Hf. simpl. unfold mem_increment_uses.
  destruct (s !! id) as [r|]; [|done]. by destruct (_ <=? _).
Qed.
Next Obligation.
  intros s id Hf. simpl. unfold mem_revoke.
  destruct (s !! id) as [r|] eqn:Hr; simpl; [|split; [done|]; eauto].
  split; [apply filed_insert; [done|]; simpl; by apply Hf|].
  intros k q Hk. apply lookup_insert_Some in Hk as [[<- <-]|[_ Hk]]; eauto.
Qed.
Next Obligation.
  intros s now Hf. simpl. split; [|apply map_retain_subseteq].
  intros id r Hr. apply map_retain_lookup_Some in Hr as [Hr _]. by apply Hf.
Qed.
End MemLaws.

Section ConcurrentLemmas.
Context {S : Type} `{!OtpStore S} `{!OtpStoreLaws S}.
Variable sha256 : bytes -> bytes.
Variable to_rfc3339 : Z -> string.

(** How often a record was successfully consumed. *)
Definition successes (o : Otps S) (id : Z) : Z :=
  Z.of_nat (length (List.filter (fun pv => otp_id pv.1 =? id) (otps_success o))).

(** A later state of a record: only uses and revocation change. *)
Definition same_otp (r r' : OtpRecord) : Prop :=
  otp_id r' = otp_id r /\ otp_entity r' = otp_entity r /\ max_uses r' = max_uses r.

(** What holds after any events, [ins] being the records inserted so far. *)
Record otps_inv (ins : list OtpRecord) (o : Otps S) : Prop := {
  oi_wf : store_wf (otps_store o);
  oi_held : forall id r', held (otps_store o) !! id = Some r' ->
    exists r, r ∈ ins /\ otp_id r = id /\ same_otp r r' /\
      current_uses r' = current_uses r + successes o id;
  oi_bound : forall r, r ∈ ins ->
    successes o (otp_id r) <= Z.max 0 (max_uses r - current_uses r);
  oi_none : forall id, (forall r, r ∈ ins -> otp_id r <> id) -> successes o id = 0;
  oi_pending : forall i p, otps_pending o !! i = Some p ->
    exists r, r ∈ ins /\ same_otp r p /\
      current_uses r <= current_uses p <= current_uses r + successes o (otp_id r);
  oi_success : forall p v, (p, v) ∈ otps_success o ->
    exists r, r ∈ ins /\ same_otp r p /\ vr_entity_id v = otp_entity r /\
      remaining_uses v = max_uses p - current_uses p - 1 /\ 0 <= remaining_uses v
}.

Definition uses_u32 (r : OtpRecord) : Prop := u32 (max_uses r) /\ u32 (current_uses r).

Lemma otp_unique ins r1 r2 : NoDup (map otp_id ins) -> r1 ∈ ins -> r2 ∈ ins ->
  otp_id r1 = otp_id r2 -> r1 = r2.
Proof.
  intros Hnd H1 H2 E. apply list_elem_of_lookup in H1 as [i Hi], H2 as [j Hj].
  assert (i = j); [|congruence].
  eapply (NoDup_lookup (map otp_id ins)); [done|by rewrite list_lookup_fmap, Hi|].
  rewrite list_lookup_fmap, Hj. simpl. congruence.
Qed.

Lemma validate_find_Ok (s : S) plaintext now r : store_wf s ->
  validate_find sha256 to_rfc3339 s plaintext now = Ok r ->
  held s !! otp_id r = Some r /\ token_hash r = hash_token sha256 plaintext /\
  revoked r = false /\ now <= expires_at r.
Proof.
  intros Hwf E. unfold validate_find in E. inv_ok E. inv_ok E. apply ok_or_Ok in H0. subst t.
  apply find_law in H as [Hh Hk]; [|done].
  destruct (revoked t0) eqn:Er; [done|].
  destruct (Z.ltb_spec (expires_at t0) now); [done|]. by injection E as <-.
Qed.

(** Revocation and clean-up only lose records or mark them. *)
Lemma otps_inv_held ins o s' : otps_inv ins o -> store_wf s' ->
  (forall k r, held s' !! k = Some r ->
     exists r0, held (otps_store o) !! k = Some r0 /\ (r = r0 \/ r = with_revoked r0)) ->
  otps_inv ins (MkOtps s' (otps_pending o) (otps_success o)).
Proof.
  intros [Hw Hh Hb Hn Hp Hs] Hwf Hsub. constructor; try done.
  intros id r' Hr. apply Hsub in Hr as (r0 & Hr0 & Heq).
  destruct (Hh id r0 Hr0) as (r & ? & ? & Hsame & ?). exists r.
  destruct Heq as [-> | ->]; done.
Qed.

Lemma otps_inv_find ins o i plaintext now :
  otps_inv ins o -> otps_inv ins (otp_step sha256 to_rfc3339 o (EvFind i plaintext now)).
Proof.
  intros Ho. assert (Ho' := Ho). destruct Ho' as [Hw Hh Hb Hn Hp Hs]. simpl.
  destruct (validate_find _ _ _ _ _) as [r|e|] eqn:E; [|done..].
  apply validate_find_Ok in E as (Hr & _); [|done]. constructor; try done.
  intros j p Hj. cbn [otps_pending] in Hj.
  apply lookup_insert_Some in Hj as [[<- <-]|[_ Hj]]; [|by eapply Hp].
  destruct (Hh _ _ Hr) as (r0 & Hin & Hid & Hsame & Hcur). exists r0.
  split; [done|]. split; [done|]. rewrite Hid, Hcur.
  change (successes _ (otp_id r)) with (successes o (otp_id r)).
  assert (0 <= successes o (otp_id r)) by (unfold successes; lia). lia.
Qed.

Lemma otps_inv_insert ins o r : otps_inv ins o -> (forall q, q ∈ ins -> otp_id q <> otp_id r) ->
  otps_inv (ins ++ [r]) (otp_step sha256 to_rfc3339 o (EvInsert r)).
Proof.
  intros [Hw Hh Hb Hn Hp Hs] Hfresh. simpl.
  destruct (insert_law (otps_store o) r Hw) as [Hw' Hins].
  constructor; cbn [otps_store otps_pending otps_success].
  - done.
  - intros id r' Hr. rewrite Hins in Hr.
    apply lookup_insert_Some in Hr as [[<- <-]|[_ Hr]].
    + exists r. split; [apply elem_of_app; right; by left|]. split; [done|]. split; [done|].
      change (successes _ (otp_id r)) with (successes o (otp_id r)). rewrite Hn by done. lia.
    + destruct (Hh _ _ Hr) as (q & ? & ? & ? & ?). exists q. split; [apply elem_of_app; by left|].
      done.
  - intros q Hq. apply elem_of_app in Hq as [Hq|Hq]; [by apply Hb|].
    apply list_elem_of_singleton in Hq as ->.
    change (successes _ (otp_id r)) with (successes o (otp_id r)). rewrite Hn by done. lia.
  - intros id Hid. apply Hn. intros q Hq. apply Hid, elem_of_app. by left.
  - intros i p Hi. destruct (Hp i p Hi) as (q & ? & ? & ?). exists q.
    split; [apply elem_of_app; by left|]. done.
  - intros p v Hv. destruct (Hs p v Hv) as (q & ? & ? & ?). exists q.
    split; [apply elem_of_app; by left|]. done.
Qed.

(** A pending lookup that is given up, the store's records being as they were. *)
Lemma otps_inv_drop ins o i s' : otps_inv ins o -> store_wf s' -> held s' = held (otps_store o) ->
  otps_inv ins (MkOtps s' (delete i (otps_pending o)) (otps_success o)).
Proof.
  intros [Hw Hh Hb Hn Hp Hs] Hw' E. constructor; cbn [otps_store]; rewrite ?E; try done.
  intros j q Hj. simpl in Hj. apply lookup_delete_Some in Hj as [_ Hj]. by apply (Hp j q).
Qed.

Lemma successes_cons s' pend o p v id :
  successes (MkOtps s' pend ((p, v) :: otps_success o)) id =
  successes o id + (if decide (id = otp_id p) then 1 else 0).
Proof.
  unfold successes. simpl.
  destruct (Z.eqb_spec (otp_id p) id), (decide (id = otp_id p)); simpl; lia || congruence.
Qed.

(** The arithmetic of a use does not wrap. *)
Lemma use_arith c m : u32 m -> 0 <= c -> c < m ->
  as_u32 (c + 1) = c + 1 /\ as_u32 (m - (c + 1)) = m - c - 1.
Proof. intros. unfold as_u32, u32 in *. rewrite !Z.mod_small by lia. lia. Qed.

(** A successful consumption. *)
Lemma otps_inv_consume ins o i : Forall uses_u32 ins -> NoDup (map otp_id ins) ->
  otps_inv ins o -> otps_inv ins (otp_step sha256 to_rfc3339 o (EvConsume i)).
Proof.
  intros Hu Hnd Ho. assert (Ho' := Ho). destruct Ho' as [Hw Hh Hb Hn Hp Hs]. simpl.
  destruct (otps_pending o !! i) as [p|] eqn:Hi; [|done].
  destruct (Hp i p Hi) as (r & Hin & (Hid & Hent & Hmax) & Hcur).
  unfold validate_consume. pose proof (increment_wf (otps_store o) (otp_id p) (max_uses p) Hw) as Hw'.
  pose proof (increment_Ok (otps_store o) (otp_id p) (max_uses p) Hw) as Hok.
  pose proof (increment_fail (otps_store o) (otp_id p) (max_uses p) Hw) as Hfail.
  destruct (increment_uses (otps_store o) (otp_id p) (max_uses p)) as [s' [[]|e|]];
    simpl in *; [|by apply otps_inv_drop, Hfail..].
  destruct (Hok eq_refl) as (r' & Hr' & Hlt & Hheld').
  destruct (Hh _ _ Hr') as (q & Hqin & Hqid & (Hsid & Hsent & Hsmax) & Hqcur).
  assert (q = r) as -> by (eapply otp_unique; [done|done|done|]; congruence).
  assert (Hru : uses_u32 r) by (setoid_rewrite Forall_forall in Hu; by apply Hu).
  destruct Hru as [Hmu Hcu]. rewrite <- Hid in Hcur.
  assert (Hnonneg : 0 <= successes o (otp_id p)) by (unfold successes; lia).
  destruct (use_arith (current_uses r') (max_uses p)) as [Hu1 _]; [congruence|unfold u32 in *; lia|done|].
  constructor; cbn [otps_store otps_pending otps_success]; try done.
  - intros id r1 Hr1. rewrite Hheld' in Hr1. rewrite successes_cons.
    apply lookup_insert_Some in Hr1 as [[<- <-]|[Hne Hr1]].
    + exists r. rewrite decide_True by done. simpl. repeat split; try done; lia.
    + destruct (Hh _ _ Hr1) as (q & ? & ? & ? & ?). exists q.
      rewrite decide_False by congruence. repeat split; try done; [apply H1..|lia].
  - intros q Hq. rewrite successes_cons. destruct (decide (otp_id q = otp_id p)) as [E|E].
    + assert (q = r) as -> by (eapply otp_unique; [done|done|done|]; congruence). rewrite E. lia.
    + specialize (Hb q Hq). lia.
  - intros id Hid'. rewrite successes_cons, decide_False by (intros ->; by eapply Hid').
    rewrite Hn by done. lia.
  - intros j q Hj. apply lookup_delete_Some in Hj as [_ Hj].
    destruct (Hp j q Hj) as (q0 & ? & ? & ?). exists q0. rewrite successes_cons.
    split; [done|]. split; [done|]. destruct (decide _); lia.
  - intros p1 v Hv. apply elem_of_cons in Hv as [[= -> ->]|Hv]; [|by apply Hs].
    destruct (use_arith (current_uses p) (max_uses p)) as [E1 E2];
      [congruence|unfold u32 in *; lia|lia|].
    exists r. simpl. rewrite E1, E2. repeat split; try done; lia.
Qed.

(** All events. *)
Lemma otps_inv_run evs : forall ins o,
  Forall uses_u32 (ins ++ omap inserted evs) -> NoDup (map otp_id (ins ++ omap inserted evs)) ->
  otps_inv ins o ->
  otps_inv (ins ++ omap inserted evs) (run_steps (otp_step sha256 to_rfc3339) o evs).
Proof.
  induction evs as [|e evs IH]; intros ins o Hu Hnd Ho; [by rewrite app_nil_r|].
  cbn [run_steps].
  assert (Hsame : inserted e = None -> otps_inv ins (otp_step sha256 to_rfc3339 o e) ->
    otps_inv (ins ++ omap inserted (e :: evs))
      (run_steps (otp_step sha256 to_rfc3339) (otp_step sha256 to_rfc3339 o e) evs)).
  { intros He H1. assert (E : omap inserted (e :: evs) = omap inserted evs)
      by (simpl; by rewrite He). rewrite E in *. by apply IH. }
  destruct e as [i plaintext now|i|r|id|now].
  - apply Hsame; [done|]. by apply otps_inv_find.
  - apply Hsame; [done|]. apply otps_inv_consume; [..|done].
    + by apply Forall_app in Hu as [Hu _].
    + rewrite map_app in Hnd. by apply NoDup_app in Hnd as [Hnd _].
  - change (omap inserted (EvInsert r :: evs)) with (r :: omap inserted evs) in *.
    rewrite cons_middle, app_assoc in *. apply IH; [done|done|].
    apply otps_inv_insert; [done|]. intros q Hq E.
    rewrite <- app_assoc, map_app in Hnd. apply NoDup_app in Hnd as (_ & Hdisj & _).
    apply (Hdisj (otp_id q)); [by apply list_elem_of_fmap_2|]. simpl. rewrite E. by left.
  - apply Hsame; [done|]. destruct (revoke_law (otps_store o) id (oi_wf _ _ Ho)) as [Hw Hk].
    by apply otps_inv_held.
  - apply Hsame; [done|]. destruct (cleanup_law (otps_store o) now (oi_wf _ _ Ho)) as [Hw Hk].
    apply otps_inv_held; [done|done|]. intros k r Hr. exists r.
    split; [by eapply lookup_weaken|by left].
Qed.
End ConcurrentLemmas.

(** ** Properties *)

(** A one-time password is never overspent.  Whatever store implements
    the trait, however validations, revocations, insertions and clean-ups
    are interleaved, a token is accepted at most as often as its record had
    uses left when it was inserted; and what a success reports as remaining
    never wraps below zero and names the record's entity. *)
Theorem otp_never_overspent {S} `{!OtpStore S} `{!OtpStoreLaws S} sha256 to_rfc3339
    (s0 : S) evs :
  store_wf s0 -> held s0 = ∅ ->
  Forall uses_u32 (omap inserted evs) -> NoDup (map otp_id (omap inserted evs)) ->
  let o := run_steps (otp_step sha256 to_rfc3339) (MkOtps s0 ∅ []) evs in
  (forall r, r ∈ omap inserted evs ->
     successes o (otp_id r) <= Z.max 0 (max_uses r - current_uses r)) /\
  (forall p v, (p, v) ∈ otps_success o ->
     exists r, r ∈ omap inserted evs /\ otp_id p = otp_id r /\
       vr_entity_id v = otp_entity r /\
       remaining_uses v = max_uses r - current_uses p - 1 /\ 0 <= remaining_uses v).
Proof.
  intros Hw He Hu Hnd o.
  assert (Hi : otps_inv (omap inserted evs) o).
  { apply (otps_inv_run sha256 to_rfc3339 evs []); [done|done|]. constructor; simpl; try done.
    - intros id r Hr. rewrite He, lookup_empty in Hr. done.
    - intros r Hr. by apply elem_of_nil in Hr.
    - intros p v Hv. by apply elem_of_nil in Hv. }
  destruct Hi as [_ _ Hb _ _ Hs]. split; [exact Hb|].
  intros p v Hv. destruct (Hs p v Hv) as (r & Hin & (Hid & Hent & Hmax) & Hve & Hrem & Hpos).
  exists r. rewrite <- Hmax. done.
Qed.

Definition example_otp : OtpRecord :=
  MkOtp 7 [1; 2] "device-a" "label" "profile" 0 100 1 0 false.

(** Two validations of the same single-use token race. *)
Definition example_race : list event :=
  [EvInsert example_otp; EvFind 1 "x" 10; EvFind 2 "x" 11; EvConsume 2; EvConsume 1].

Lemma otp_never_overspent_witness :
  let o := run_steps (@otp_step _ (mem_store map_to_list) (fun _ => [1; 2]) (fun _ => "never"))
    (MkOtps ∅ ∅ []) example_race in
  length (otps_success o) = 1%nat /\ successes o 7 <= 1.
Proof.
  intros o. split; [vm_compute; reflexivity|].
  destruct (@otp_never_overspent _ (mem_store map_to_list)
    (mem_laws map_to_list (fun m => Permutation_refl _)) (fun _ => [1; 2]) (fun _ => "never")
    ∅ example_race filed_empty eq_refl) as [E _].
  - repeat constructor; discriminate.
  - apply NoDup_singleton.
  - apply (E example_otp). left.
Defined.

(** Validating against the in-memory store, on every branch: a token
    whose record is not found, revoked, past its expiry or used up is refused
    with the error of the first check it fails and changes nothing; any
    other is accepted, one use of exactly its record is consumed, and the
    remaining uses are reported. *)
Theorem validate_in_memory iter sha256 to_rfc3339 (s : InMemoryOtpStore) plaintext now :
  (forall m, iter m ≡ₚ map_to_list m) -> filed s ->
  (forall id r, s !! id = Some r -> uses_u32 r) ->
  match validate_find (OtpStore0 := mem_store iter) sha256 to_rfc3339 s plaintext now with
  | Err e =>
      validate (OtpStore0 := mem_store iter) sha256 to_rfc3339 s plaintext now = (s, Err e) /\
      (e = NotFound /\ (forall id r, s !! id = Some r -> token_hash r <> hash_token sha256 plaintext) \/
       exists id r, s !! id = Some r /\ token_hash r = hash_token sha256 plaintext /\
         (e = Revoked /\ revoked r = true \/
          e = Expired (to_rfc3339 (expires_at r)) /\ revoked r = false /\ expires_at r < now))
  | Ok r =>
      s !! otp_id r = Some r /\ token_hash r = hash_token sha256 plaintext /\
      revoked r = false /\ now <= expires_at r /\
      validate (OtpStore0 := mem_store iter) sha256 to_rfc3339 s plaintext now =
        if max_uses r <=? current_uses r then (s, Err (UsageLimitExceeded (max_uses r)))
        else (<[otp_id r := with_uses r (current_uses r + 1)]> s,
              Ok (MkValidation (otp_entity r) (otp_profile r) (otp_label r)
                    (max_uses r - current_uses r - 1)))
  | Panic => False
  end.
Proof.
  intros Hiter Hf Hu. unfold validate.
  destruct (validate_find _ _ _ _ _) as [r|e|] eqn:E.
  - apply (@validate_find_Ok _ (mem_store iter) (mem_laws iter Hiter)) in E
      as (Hr & Hh & Hrev & Hexp); [|done]. simpl in Hr.
    repeat (split; [done|]). unfold validate_consume. simpl. unfold mem_increment_uses.
    rewrite Hr. destruct (Z.leb_spec (max_uses r) (current_uses r)); [done|]. simpl.
    destruct (Hu _ _ Hr) as [Hm Hc]. unfold u32 in *.
    assert (E1 : as_u32 (current_uses r + 1) = current_uses r + 1)
      by (unfold as_u32; apply Z.mod_small; lia).
    rewrite E1. unfold as_u32. rewrite Z.mod_small by lia. do 3 f_equal. lia.
  - split; [done|]. unfold validate_find in E. simpl in E. unfold mem_find_by_hash in E.
    simpl in E. destruct (List.find _ _) as [r|] eqn:Ef; simpl in E.
    + right. destruct (mem_find_Some iter Hiter s (hash_token sha256 plaintext) r Hf)
        as [Hr Hh]; [by unfold mem_find_by_hash; rewrite Ef|].
      exists (otp_id r), r. split; [done|]. split; [done|].
      destruct (revoked r) eqn:Erev; [left; by injection E as <-|].
      destruct (Z.ltb_spec (expires_at r) now); [|done]. right. by injection E as <-.
    + left. injection E as <-. split; [done|]. intros id r Hr Hh.
      eapply find_none in Ef; [apply bool_decide_eq_false in Ef; by apply Ef|].
      apply list_elem_of_In, list_elem_of_fmap. exists (id, r). split; [done|].
      rewrite Hiter. by apply elem_of_map_to_list.
  - unfold validate_find in E. simpl in E. unfold mem_find_by_hash in E. simpl in E.
    destruct (List.find _ _) as [r|]; simpl in E; [|done].
    destruct (revoked r); [done|]. by destruct (_ <? _).
Qed.

Lemma validate_in_memory_witness :
  let s : InMemoryOtpStore := {[ 7 := example_otp ]} in
  validate (OtpStore0 := mem_store map_to_list) (fun _ => [1; 2]) (fun _ => "never") s "x" 100 =
    (<[7 := with_uses example_otp 1]> s, Ok (MkValidation "device-a" "profile" "label" 0)).
Proof.
  intros s.
  assert (E := validate_in_memory map_to_list (fun _ => [1; 2]) (fun _ => "never") s "x" 100
    (fun m => Permutation_refl _)).
  assert (Hf : filed s).
  { intros id r Hr. apply lookup_singleton_Some in Hr as [<- <-]. reflexivity. }
  specialize (E Hf).
  assert (Hu : forall id r, s !! id = Some r -> uses_u32 r).
  { intros id r Hr. apply lookup_singleton_Some in Hr as [<- <-].
    repeat split; discriminate. }
  specialize (E Hu).
  assert (V : validate_find (OtpStore0 := mem_store map_to_list) (fun _ => [1; 2]) (fun _ => "never")
    s "x" 100 = Ok example_otp) by (vm_compute; reflexivity).
  rewrite V in E. destruct E as (_ & _ & _ & _ & E). exact E.
Defined.
