(* ===== verification/NameMatch.v ===== *)
(** * IP addresses and their textual form

    [std::net::IpAddr] and its [FromStr], as the standard library parses
    it: dotted decimal without leading zeros, and IPv6 groups with at most
    one [::] and an optional trailing dotted quad.  A parser takes the
    remaining characters and returns what is left after it. *)
From S2P Require Import Prelude Words Text.
Open Scope Z_scope.

Inductive IpAddr : Type :=
  | IpV4 (octets : bytes)
  | IpV6 (octets : bytes).

#[export] Instance IpAddr_eq_dec : EqDecision IpAddr.
Proof. solve_decision. Defined.

(** [char::to_digit] *)
Definition to_digit (radix : Z) (c : Z) : option Z :=
  let d := if (48 <=? c) && (c <=? 57) then c - 48
           else if (97 <=? c) && (c <=? 122) then c - 87
           else if (65 <=? c) && (c <=? 90) then c - 55 else 36 in
  if d <? radix then Some d else None.

(** The digits at the front: their value, their number and the rest. *)
Fixpoint read_digits (radix acc : Z) (count : nat) (s : bytes) : Z * nat * bytes :=
  match s with
  | [] => (acc, count, [])
  | c :: s' =>
      match to_digit radix c with
      | Some d => read_digits radix (acc * radix + d) (S count) s'
      | None => (acc, count, s)
      end
  end.

Definition read_number (radix : Z) (max_digits : nat) (allow_zero_prefix : bool) (bound : Z)
  (s : bytes) : option (Z * bytes) :=
  let has_leading_zero := match s with c :: _ => c =? 48 | [] => false end in
  let '(v, count, rest) := read_digits radix 0 0 s in
  if (max_digits <? count)%nat then None
  else if bound <=? v then None
  else if (count =? 0)%nat then None
  else if negb allow_zero_prefix && has_leading_zero && (1 <? count)%nat then None
  else Some (v, rest).

Definition read_given_char (c : Z) (s : bytes) : option bytes :=
  match s with
  | d :: s' => if d =? c then Some s' else None
  | [] => None
  end.

(** [read_separator]: the separator goes before every item but the first. *)
Definition read_separator {A} (sep : Z) (index : nat) (inner : bytes -> option A)
  (s : bytes) : option A :=
  match index with
  | O => inner s
  | _ => match read_given_char sep s with Some s' => inner s' | None => None end
  end.

Definition read_octet := read_number 10 3 false 256.

Fixpoint read_octets (n index : nat) (s : bytes) : option (bytes * bytes) :=
  match n with
  | O => Some ([], s)
  | S n' =>
      match read_separator 46 index read_octet s with
      | Some (v, s') =>
          match read_octets n' (S index) s' with
          | Some (l, rest) => Some (v :: l, rest)
          | None => None
          end
      | None => None
      end
  end.

Definition read_ipv4_addr (s : bytes) : option (bytes * bytes) := read_octets 4 0 s.

(** [read_groups]: up to [limit] groups from index [i] on, and whether the
    last two came from a dotted quad. *)
Fixpoint read_groups (n limit i : nat) (s : bytes) : list Z * bool * bytes :=
  match n with
  | O => ([], false, s)
  | S n' =>
      let quad :=
        if (i <? limit - 1)%nat then read_separator 58 i read_ipv4_addr s else None in
      match quad with
      | Some ([a; b; c; d], rest) => ([a * 256 + b; c * 256 + d], true, rest)
      | _ =>
          match read_separator 58 i (read_number 16 4 true 65536) s with
          | Some (g, rest) =>
              let '(l, v4, rest) := read_groups n' limit (S i) rest in (g :: l, v4, rest)
          | None => ([], false, s)
          end
      end
  end.

Definition octets_of_groups (l : list Z) : bytes :=
  flat_map (fun g => u16_to_be_bytes g) l.

Definition read_ipv6_addr (s : bytes) : option (bytes * bytes) :=
  let '(head, head_ipv4, rest) := read_groups 8 8 0 s in
  if (length head =? 8)%nat then Some (octets_of_groups head, rest)
  else if head_ipv4 then None
  else
    match read_given_char 58 rest with
    | Some rest1 =>
        match read_given_char 58 rest1 with
        | Some rest2 =>
            let limit := (8 - (length head + 1))%nat in
            let '(tail, _, rest3) := read_groups limit limit 0 rest2 in
            Some (octets_of_groups (head ++ repeat 0 (8 - length head - length tail) ++ tail), rest3)
        | None => None
        end
    | None => None
    end.

(** [str::parse::<IpAddr>] *)
Definition parse_ip (text : string) : option IpAddr :=
  let s := bytes_of_string text in
  match read_ipv4_addr s with
  | Some (v, []) => Some (IpV4 v)
  | Some _ => None
  | None =>
      match read_ipv6_addr s with
      | Some (v, []) => Some (IpV6 v)
      | _ => None
      end
  end.

(** [IpAddr::from] of the four or sixteen bytes of an iPAddress name. *)
Definition san_ip (content : bytes) : option IpAddr :=
  match length content with
  | 4%nat => Some (IpV4 content)
  | 16%nat => Some (IpV6 content)
  | _ => None
  end.

Example parse_ip_v4 : parse_ip "192.168.0.1" = Some (IpV4 [192; 168; 0; 1]).
Proof. reflexivity. Qed.
Example parse_ip_leading_zero : parse_ip "192.168.00.1" = None.
Proof. reflexivity. Qed.
Example parse_ip_v6 : parse_ip "2001:db8::1:ff" =
  Some (IpV6 [32; 1; 13; 184; 0; 0; 0; 0; 0; 0; 0; 0; 0; 1; 0; 255]).
Proof. reflexivity. Qed.
Example parse_ip_mapped : parse_ip "::ffff:10.0.0.1" =
  Some (IpV6 [0; 0; 0; 0; 0; 0; 0; 0; 0; 0; 255; 255; 10; 0; 0; 1]).
Proof. reflexivity. Qed.
Example parse_ip_host : parse_ip "1.example.com" = None.
Proof. reflexivity. Qed.

(** * RFC 6125 name matching

    [src/auth/name_match.rs]: domain, address and mailbox matching and the
    validation of a certificate against an expected identity.  What the
    X.509 library reads from a certificate is a parameter. *)

Open Scope Z_scope.

Definition ends_with (suf s : string) : bool :=
  match strip_suffix suf s with Some _ => true | None => false end.

Definition matches_domain (pattern hostname : string) : bool :=
  let pattern := to_ascii_lowercase pattern in
  let hostname := to_ascii_lowercase hostname in
  if is_empty pattern || is_empty hostname then false
  else
    let pattern := trim_end_char "."%char pattern in
    let hostname := trim_end_char "."%char hostname in
    match strip_prefix "*." pattern with
    | None =>
        if contains_char "*"%char pattern then false else bool_decide (pattern = hostname)
    | Some wildcard_suffix =>
        if is_empty wildcard_suffix then false
        else if contains_char "*"%char wildcard_suffix then false
        else
          match strip_suffix wildcard_suffix hostname with
          | None => false
          | Some prefix =>
              match strip_suffix "." prefix with
              | None => false
              | Some matched_label =>
                  negb (is_empty matched_label) && negb (contains_char "."%char matched_label)
              end
          end
    end.

Definition matches_ip (cert_ip client_ip : IpAddr) : bool := bool_decide (cert_ip = client_ip).

Definition matches_email (pattern email : string) : bool :=
  if is_empty pattern || is_empty email then false
  else
    match split_once "@"%char pattern, split_once "@"%char email with
    | Some (pat_local, pat_domain), Some (email_local, email_domain) =>
        bool_decide (pat_local = email_local) && eq_ignore_ascii_case pat_domain email_domain
    | None, Some (_, email_domain) => eq_ignore_ascii_case pattern email_domain
    | _, None => false
    end.

(** ** Certificates *)

Inductive SanEntry : Type :=
  | SanDns (name : string)
  | SanIp (ip : IpAddr)
  | SanEmail (email : string).

Definition RFC822_NAME : Z := 1.
Definition DNS_NAME : Z := 2.
Definition IP_ADDRESS : Z := 7.

Definition san_entry (tag_content : Z * bytes) : option SanEntry :=
  let (tag, content) := tag_content in
  if tag =? DNS_NAME then option_map SanDns (from_utf8 content)
  else if tag =? RFC822_NAME then option_map SanEmail (from_utf8 content)
  else if tag =? IP_ADDRESS then option_map SanIp (san_ip content)
  else None.

Definition check_sans_against_identity (sans : list SanEntry) (expected : string) : bool :=
  match parse_ip expected with
  | Some expected_ip =>
      existsb (fun s => match s with SanIp ip => matches_ip ip expected_ip | _ => false end) sans
  | None =>
      if contains_char "@"%char expected then
        existsb (fun s => match s with SanEmail e => matches_email e expected | _ => false end) sans
      else
        existsb (fun s => match s with SanDns d => matches_domain d expected | _ => false end) sans
  end.

Definition CN_OID : string := "2.5.4.3".

(** The value of the last common name among subject attributes. *)
Definition last_cn (attrs : list (string * string)) : option string :=
  option_map snd (List.find (fun a => bool_decide (a.1 = CN_OID)) (rev attrs)).

Section Certificate.
(** The X.509 library: the subjectAltName entries of a certificate as tag
    and content, and its subject attributes as OID and value; [None] when
    the certificate does not parse. *)
Variable certificate : bytes -> option (list (Z * bytes) * list (string * string)).

Definition extract_sans (cert_der : bytes) : list SanEntry :=
  match certificate cert_der with
  | Some (names, _) => omap san_entry names
  | None => []
  end.

Definition extract_subject_cn (cert_der : bytes) : option string :=
  match certificate cert_der with
  | Some (_, attrs) => last_cn attrs
  | None => None
  end.

Definition validate_identity (cert_der : bytes) (expected : string) : outcome bool string :=
  match cert_der with
  | [] => Err "empty certificate DER"
  | _ =>
      if is_empty expected then Err "empty expected identity"
      else
        match extract_sans cert_der with
        | [] =>
            match extract_subject_cn cert_der with
            | Some cn_value =>
                match parse_ip expected with
                | Some _ => Ok false
                | None => Ok (matches_domain cn_value expected)
                end
            | None => Ok false
            end
        | sans => Ok (check_sans_against_identity sans expected)
        end
  end.
End Certificate.

(** ** Lemmas *)

(** A domain name in the form it is compared in. *)
Definition canonical (s : string) : string := trim_end_char "."%char (to_ascii_lowercase s).

Lemma is_empty_false s : is_empty s = false <-> s <> EmptyString.
Proof. by destruct s. Qed.

Lemma is_empty_true s : is_empty s = true <-> s = EmptyString.
Proof. by destruct s. Qed.

Lemma split_once_at c l r : contains_char c l = false ->
  split_once c (l +:+ String c r) = Some (l, r).
Proof. intros Hl. by apply split_once_Some. Qed.

Lemma eq_ignore_ascii_case_spec a b :
  eq_ignore_ascii_case a b = true <-> to_ascii_lowercase a = to_ascii_lowercase b.
Proof. unfold eq_ignore_ascii_case. apply bool_decide_eq_true. Qed.

(** ** Properties *)

(** Domain matching is RFC 6125's.  Up to letter case and trailing dots
    a pattern matches a host name exactly when neither is empty and the
    pattern has no wildcard and is the name, or is [*.suffix] with no other
    wildcard and the name is one non-empty label without dots in front of
    [.suffix]. *)
Theorem matches_domain_spec pattern hostname :
  let p := canonical pattern in
  let h := canonical hostname in
  matches_domain pattern hostname = true <->
  pattern <> EmptyString /\ hostname <> EmptyString /\
  (contains_char "*"%char p = false /\ p = h \/
   exists suffix label, p = "*." +:+ suffix /\ suffix <> EmptyString /\
     contains_char "*"%char suffix = false /\
     h = label +:+ "." +:+ suffix /\ label <> EmptyString /\
     contains_char "."%char label = false).
Proof.
  intros p h. unfold matches_domain. fold (canonical pattern) (canonical hostname).
  fold p h. clearbody p h.
  assert (Hlow : forall s, is_empty (to_ascii_lowercase s) = is_empty s) by (by intros []).
  rewrite !Hlow. clear Hlow.
  destruct (is_empty pattern || is_empty hostname) eqn:He.
  { apply orb_true_iff in He as [He|He]; apply is_empty_true in He;
      (split; [done|]; by intros (? & ? & _)). }
  apply orb_false_iff in He as [Hp Hh]. apply is_empty_false in Hp, Hh.
  destruct (strip_prefix "*." p) as [suffix|] eqn:Ep.
  - apply strip_prefix_Some in Ep.
    assert (Hstar : contains_char "*"%char p = true) by (rewrite Ep; done).
    transitivity (suffix <> EmptyString /\ contains_char "*"%char suffix = false /\
      exists label, h = label +:+ "." +:+ suffix /\ label <> EmptyString /\
        contains_char "."%char label = false); [|naive_solver].
    destruct (is_empty suffix) eqn:Es; [apply is_empty_true in Es; naive_solver|].
    apply is_empty_false in Es.
    destruct (contains_char "*"%char suffix) eqn:Ec; [naive_solver|].
    destruct (strip_suffix suffix h) as [prefix|] eqn:Eh.
    + apply strip_suffix_Some in Eh. destruct (strip_suffix "." prefix) as [label|] eqn:El.
      * apply strip_suffix_Some in El. subst prefix. rewrite andb_true_iff, !negb_true_iff.
        rewrite is_empty_false. rewrite Eh, string_app_assoc. split; [naive_solver|].
        intros (_ & _ & l' & E & Hl1 & Hl2).
        rewrite <- !string_app_assoc in E. apply string_app_inj_r, string_app_inj_r in E.
        by subst l'.
      * split; [done|]. intros (_ & _ & l' & E & _). rewrite Eh, <- string_app_assoc in E.
        apply string_app_inj_r in E. subst prefix.
        assert (El' : strip_suffix "." (l' +:+ ".") = Some l') by by apply strip_suffix_Some.
        congruence.
    + split; [done|]. intros (_ & _ & l' & E & _). rewrite <- string_app_assoc in E.
      apply strip_suffix_Some in E. congruence.
  - assert (Hno : forall suffix, p <> "*." +:+ suffix).
    { intros suffix E. apply strip_prefix_Some in E. congruence. }
    destruct (contains_char "*"%char p) eqn:Ec; [naive_solver|].
    rewrite bool_decide_eq_true. naive_solver.
Qed.

(** Mailbox matching: the local part exactly and the domain up to letter
    case, or any local part for a pattern that is a bare domain. *)
Theorem matches_email_spec pattern email :
  matches_email pattern email = true <->
  pattern <> EmptyString /\ exists local domain,
    email = local +:+ String "@"%char domain /\ contains_char "@"%char local = false /\
    ((exists pdomain, pattern = local +:+ String "@"%char pdomain /\
        to_ascii_lowercase pdomain = to_ascii_lowercase domain) \/
     contains_char "@"%char pattern = false /\
     to_ascii_lowercase pattern = to_ascii_lowercase domain).
Proof.
  unfold matches_email. destruct (is_empty pattern) eqn:Ep.
  { apply is_empty_true in Ep. naive_solver. }
  apply is_empty_false in Ep. simpl.
  destruct (is_empty email) eqn:Ee.
  { apply is_empty_true in Ee. subst email. split; [done|].
    intros (_ & l & d & E & _). by destruct l. }
  destruct (split_once "@"%char email) as [[el ed]|] eqn:Es.
  - apply split_once_Some in Es as [Es Hel].
    assert (Huniq : forall l d, email = l +:+ String "@"%char d ->
      contains_char "@"%char l = false -> l = el /\ d = ed).
    { intros l d E Hl. pose proof (split_once_at _ _ d Hl) as H1. rewrite <- E in H1.
      pose proof (split_once_at _ _ ed Hel) as H2. rewrite <- Es in H2. naive_solver. }
    destruct (split_once "@"%char pattern) as [[pl pd]|] eqn:Esp.
    + apply split_once_Some in Esp as [Esp Hpl].
      rewrite andb_true_iff, bool_decide_eq_true, eq_ignore_ascii_case_spec. split.
      * intros [-> Hd]. split; [done|]. exists el, ed. naive_solver.
      * intros (_ & l & d & E & Hl & [(pd' & E' & Hd)|[Hno _]]).
        -- destruct (Huniq l d E Hl) as [-> ->].
           pose proof (split_once_at _ _ pd' Hl) as H1. rewrite <- E' in H1.
           pose proof (split_once_at _ _ pd Hpl) as H2. rewrite <- Esp in H2. naive_solver.
        -- exfalso. rewrite Esp, contains_char_app in Hno. simpl in Hno.
           by rewrite orb_true_r in Hno.
    + apply split_once_None in Esp. rewrite eq_ignore_ascii_case_spec. split.
      * intros Hd. split; [done|]. exists el, ed. naive_solver.
      * intros (_ & l & d & E & Hl & [(pd' & E' & Hd)|[_ Hd]]).
        -- exfalso. rewrite E', contains_char_app in Esp. simpl in Esp.
           by rewrite orb_true_r in Esp.
        -- by destruct (Huniq l d E Hl) as [-> ->].
  - apply split_once_None in Es.
    transitivity False; [destruct (split_once _ pattern) as [[? ?]|]; done|].
    split; [done|]. intros (_ & l & d & E & _). rewrite E, contains_char_app in Es.
    simpl in Es. by rewrite orb_true_r in Es.
Qed.

(** What a certificate is valid for.  With any usable subjectAltName the
    subject is ignored and the identity must match a name of its own kind:
    an address an iPAddress, an identity with [@] a mailbox, any other a
    domain name; without one, only a domain identity can match, by the last
    common name.  Only an empty certificate or identity is an error. *)
Theorem validate_identity_spec certificate cert_der expected :
  let sans := extract_sans certificate cert_der in
  match validate_identity certificate cert_der expected with
  | Ok matched =>
      cert_der <> [] /\ expected <> EmptyString /\
      (matched = true <->
       (exists ip, parse_ip expected = Some ip /\ SanIp ip ∈ sans) \/
       parse_ip expected = None /\
       ((contains_char "@"%char expected = true /\
         exists e, SanEmail e ∈ sans /\ matches_email e expected = true) \/
        (contains_char "@"%char expected = false /\
         exists d, SanDns d ∈ sans /\ matches_domain d expected = true) \/
        (sans = [] /\ exists cn, extract_subject_cn certificate cert_der = Some cn /\
           matches_domain cn expected = true)))
  | Err _ => cert_der = [] \/ expected = EmptyString
  | Panic => False
  end.
Proof.
  intros sans. unfold validate_identity. destruct cert_der as [|b0 der]; [by left|].
  destruct (is_empty expected) eqn:Ee; [right; by apply is_empty_true|].
  apply is_empty_false in Ee. fold sans.
  destruct sans as [|x xs] eqn:Esans.
  - assert (Hn : forall y, y ∉ @nil SanEntry) by (intros y; apply not_elem_of_nil).
    destruct (extract_subject_cn certificate (b0 :: der)) as [cn|].
    + destruct (parse_ip expected); (split; [done|]; split; [done|]); naive_solver.
    + split; [done|]. split; [done|]. naive_solver.
  - split; [done|]. split; [done|]. unfold check_sans_against_identity.
    set (l := x :: xs). assert (Hl : l <> []) by done. clearbody l.
    destruct (parse_ip expected) as [ip|].
    + rewrite existsb_exists. setoid_rewrite <- list_elem_of_In. split.
      * intros ([n|q|e] & Hin & Hm); try done. unfold matches_ip in Hm.
        apply bool_decide_eq_true in Hm. subst q. left. by exists ip.
      * intros [(q & [= <-] & Hin)|[? _]]; [|done]. exists (SanIp ip). split; [done|].
        by apply bool_decide_eq_true.
    + destruct (contains_char "@"%char expected);
        rewrite existsb_exists; setoid_rewrite <- list_elem_of_In; split.
      * intros ([n|q|e] & Hin & Hm); try done. right. split; [done|]. left. split; [done|]. by exists e.
      * intros [(q & ? & _)|[_ [(_ & e & Hin & Hm)|[[? _]|[? _]]]]]; try done. by exists (SanEmail e).
      * intros ([n|q|e] & Hin & Hm); try done. right. split; [done|]. right. left.
        split; [done|]. by exists n.
      * intros [(q & ? & _)|[_ [[? _]|[(_ & d & Hin & Hm)|[? _]]]]]; try done. by exists (SanDns d).
Qed.
