(* ===== verification/EnrollAuthz.v ===== *)
(** * Enrolment authorization

    [src/auth/enroll_authz.rs]: binding of the authenticated identity to the
    names a CSR asks for, and the per-label allowlists.  The reason of a
    refusal is kept as a constructor with the values its text shows; CSR
    parsing is a parameter. *)
From S2P Require Import Prelude Words Text NameMatch.
Open Scope Z_scope.

Record EnrollAuthzPolicy : Type := MkAuthzPolicy {
  require_cn_match : bool;
  require_san_match : bool;
  permitted_dns_names : list string;
  permitted_ip_addresses : list string;
  permitted_emails : list string
}.

Definition is_nil {A} (l : list A) : bool := match l with [] => true | _ => false end.

Definition is_noop (p : EnrollAuthzPolicy) : bool :=
  negb (require_cn_match p) && negb (require_san_match p) &&
  is_nil (permitted_dns_names p) && is_nil (permitted_ip_addresses p) &&
  is_nil (permitted_emails p).

Inductive AuthzError : Type :=
  | NoIdentityPresented
  | CommonNameMismatch (cn identity : string)
  | NoCommonName
  | IdentityNotInSan (identity : string)
  | NonUtf8DnsName
  | DnsNameNotPermitted (name : string)
  | NonUtf8Email
  | EmailNotPermitted (email : string)
  | MalformedIpAddress
  | IpAddressNotPermitted (ip : IpAddr)
  | CsrParseFailed (detail : string).

Definition identity_in_sans (sans : list (Z * bytes)) (identity : string) : bool :=
  match parse_ip identity with
  | Some ip =>
      existsb (fun '(tag, content) => (tag =? IP_ADDRESS) &&
        match san_ip content with Some s => matches_ip s ip | None => false end) sans
  | None =>
      if contains_char "@"%char identity then
        existsb (fun '(tag, content) => (tag =? RFC822_NAME) &&
          match from_utf8 content with Some s => matches_email s identity | None => false end) sans
      else
        existsb (fun '(tag, content) => (tag =? DNS_NAME) &&
          match from_utf8 content with Some s => matches_domain s identity | None => false end) sans
  end.

(** One turn of the allowlist loop. *)
Definition check_san (p : EnrollAuthzPolicy) (san : Z * bytes) : outcome unit AuthzError :=
  let (tag, content) := san in
  if (tag =? DNS_NAME) && negb (is_nil (permitted_dns_names p)) then
    let? name := ok_or (from_utf8 content) NonUtf8DnsName in
    if existsb (fun pat => matches_domain pat name) (permitted_dns_names p) then Ok tt
    else Err (DnsNameNotPermitted name)
  else if (tag =? RFC822_NAME) && negb (is_nil (permitted_emails p)) then
    let? email := ok_or (from_utf8 content) NonUtf8Email in
    if existsb (fun pat => matches_email pat email) (permitted_emails p) then Ok tt
    else Err (EmailNotPermitted email)
  else if (tag =? IP_ADDRESS) && negb (is_nil (permitted_ip_addresses p)) then
    let? ip := ok_or (san_ip content) MalformedIpAddress in
    if existsb (fun entry =>
         match parse_ip entry with Some q => matches_ip q ip | None => false end)
       (permitted_ip_addresses p) then Ok tt
    else Err (IpAddressNotPermitted ip)
  else Ok tt.

Fixpoint check_sans (p : EnrollAuthzPolicy) (sans : list (Z * bytes)) : outcome unit AuthzError :=
  match sans with
  | [] => Ok tt
  | san :: sans' => let? _ := check_san p san in check_sans p sans'
  end.

Definition check_names (cn : option string) (sans : list (Z * bytes)) (identity : string)
  (p : EnrollAuthzPolicy) : outcome unit AuthzError :=
  if (require_cn_match p || require_san_match p) && is_empty identity then
    Err NoIdentityPresented
  else
    let? _ :=
      if require_cn_match p then
        match cn with
        | Some cn =>
            if eq_ignore_ascii_case cn identity then Ok tt
            else Err (CommonNameMismatch cn identity)
        | None => Err NoCommonName
        end
      else Ok tt in
    if require_san_match p && negb (identity_in_sans sans identity) then
      Err (IdentityNotInSan identity)
    else check_sans p sans.

Section Csr.
(** The CSR library: a parsed request's subject attributes ([None] when the
    subject cannot be re-encoded) and the names of its extensionRequest, and
    the parser with its error text. *)
Context {Csr : Type}.
Variable csr_subject_attrs : Csr -> option (list (string * string)).
Variable csr_sans : Csr -> list (Z * bytes).
Variable csr_from_der : bytes -> outcome Csr string.

Definition csr_subject_cn (csr : Csr) : option string :=
  match csr_subject_attrs csr with Some attrs => last_cn attrs | None => None end.

Definition authorize_csr (csr : Csr) (identity : string) (p : EnrollAuthzPolicy)
  : outcome unit AuthzError :=
  if is_noop p then Ok tt
  else check_names (csr_subject_cn csr) (csr_sans csr) identity p.

Definition authorize_csr_der (csr_der : bytes) (identity : string) (p : EnrollAuthzPolicy)
  : outcome unit AuthzError :=
  if is_noop p then Ok tt
  else
    match csr_from_der csr_der with
    | Ok csr => authorize_csr csr identity p
    | Err e => Err (CsrParseFailed e)
    | Panic => Panic
    end.
End Csr.

(** ** The policy, declaratively *)

(** A name of the CSR is allowed by the lists of its kind. *)
Definition san_permitted (p : EnrollAuthzPolicy) (san : Z * bytes) : Prop :=
  (san.1 = DNS_NAME -> permitted_dns_names p <> [] -> exists name pat,
     from_utf8 san.2 = Some name /\ pat ∈ permitted_dns_names p /\
     matches_domain pat name = true) /\
  (san.1 = RFC822_NAME -> permitted_emails p <> [] -> exists email pat,
     from_utf8 san.2 = Some email /\ pat ∈ permitted_emails p /\
     matches_email pat email = true) /\
  (san.1 = IP_ADDRESS -> permitted_ip_addresses p <> [] -> exists ip entry,
     san_ip san.2 = Some ip /\ entry ∈ permitted_ip_addresses p /\ parse_ip entry = Some ip).

(** The identity is a name of the CSR, of the kind its form says. *)
Definition identity_named (sans : list (Z * bytes)) (identity : string) : Prop :=
  match parse_ip identity with
  | Some ip => exists content, (IP_ADDRESS, content) ∈ sans /\ san_ip content = Some ip
  | None =>
      if contains_char "@"%char identity then
        exists content pat, (RFC822_NAME, content) ∈ sans /\ from_utf8 content = Some pat /\
          matches_email pat identity = true
      else
        exists content pat, (DNS_NAME, content) ∈ sans /\ from_utf8 content = Some pat /\
          matches_domain pat identity = true
  end.

Definition authorized (cn : option string) (sans : list (Z * bytes)) (identity : string)
  (p : EnrollAuthzPolicy) : Prop :=
  (require_cn_match p = true -> identity <> EmptyString /\
     exists c, cn = Some c /\ to_ascii_lowercase c = to_ascii_lowercase identity) /\
  (require_san_match p = true -> identity <> EmptyString /\ identity_named sans identity) /\
  Forall (san_permitted p) sans.

(** ** Lemmas *)

Lemma is_nil_false {A} (l : list A) : is_nil l = false <-> l <> [].
Proof. by destruct l. Qed.

Lemma existsb_elem {A} (f : A -> bool) l : existsb f l = true <-> exists x, x ∈ l /\ f x = true.
Proof. rewrite existsb_exists. by setoid_rewrite list_elem_of_In. Qed.

Lemma identity_in_sans_spec sans identity :
  identity_in_sans sans identity = true <-> identity_named sans identity.
Proof.
  unfold identity_in_sans, identity_named.
  destruct (parse_ip identity) as [ip|]; [|destruct (contains_char _ identity)];
    rewrite existsb_elem; split.
  - intros ([tag c] & Hin & Hm). apply andb_true_iff in Hm as [Ht Hm]. apply Z.eqb_eq in Ht.
    destruct (san_ip c) as [s|] eqn:Es; [|done]. apply bool_decide_eq_true in Hm.
    exists c. by rewrite <- Ht, Es, Hm.
  - intros (c & Hin & Hs). exists (IP_ADDRESS, c). split; [done|]. rewrite Hs. simpl.
    by apply bool_decide_eq_true.
  - intros ([tag c] & Hin & Hm). apply andb_true_iff in Hm as [Ht Hm]. apply Z.eqb_eq in Ht.
    destruct (from_utf8 c) as [s|] eqn:Es; [|done]. exists c, s. by rewrite <- Ht.
  - intros (c & s & Hin & Hs & Hm). exists (RFC822_NAME, c). by rewrite Hs.
  - intros ([tag c] & Hin & Hm). apply andb_true_iff in Hm as [Ht Hm]. apply Z.eqb_eq in Ht.
    destruct (from_utf8 c) as [s|] eqn:Es; [|done]. exists c, s. by rewrite <- Ht.
  - intros (c & s & Hin & Hs & Hm). exists (DNS_NAME, c). by rewrite Hs.
Qed.

Lemma check_san_spec p san : check_san p san = Ok tt <-> san_permitted p san.
Proof.
  destruct san as [tag c]. unfold check_san, san_permitted. simpl.
  destruct (Z.eqb_spec tag DNS_NAME) as [->|Hd].
  { destruct (is_nil (permitted_dns_names p)) eqn:En; simpl.
    - destruct (permitted_dns_names p); [|done]. unfold DNS_NAME, RFC822_NAME, IP_ADDRESS. naive_solver.
    - apply is_nil_false in En. rewrite obind_Ok. setoid_rewrite ok_or_Ok.
      transitivity (exists name pat, from_utf8 c = Some name /\ pat ∈ permitted_dns_names p /\
        matches_domain pat name = true).
      + split.
        * intros (name & Hn & Hm). destruct (existsb _ _) eqn:Ee; [|done].
          apply existsb_elem in Ee as (pat & ? & ?). by exists name, pat.
        * intros (name & pat & Hn & Hin & Hm). exists name. split; [done|].
          replace (existsb _ _) with true; [done|]. symmetry. apply existsb_elem. by exists pat.
      + unfold DNS_NAME, RFC822_NAME, IP_ADDRESS. naive_solver. }
  destruct (Z.eqb_spec tag RFC822_NAME) as [->|Hr].
  { destruct (is_nil (permitted_emails p)) eqn:En; simpl.
    - destruct (permitted_emails p); [|done]. unfold DNS_NAME, RFC822_NAME, IP_ADDRESS. naive_solver.
    - apply is_nil_false in En. rewrite obind_Ok. setoid_rewrite ok_or_Ok.
      transitivity (exists email pat, from_utf8 c = Some email /\ pat ∈ permitted_emails p /\
        matches_email pat email = true).
      + split.
        * intros (name & Hn & Hm). destruct (existsb _ _) eqn:Ee; [|done].
          apply existsb_elem in Ee as (pat & ? & ?). by exists name, pat.
        * intros (name & pat & Hn & Hin & Hm). exists name. split; [done|].
          replace (existsb _ _) with true; [done|]. symmetry. apply existsb_elem. by exists pat.
      + unfold DNS_NAME, RFC822_NAME, IP_ADDRESS. naive_solver. }
  destruct (Z.eqb_spec tag IP_ADDRESS) as [->|Hi]; simpl; [|naive_solver].
  destruct (is_nil (permitted_ip_addresses p)) eqn:En; simpl.
  - destruct (permitted_ip_addresses p); [|done]. unfold DNS_NAME, RFC822_NAME, IP_ADDRESS. naive_solver.
  - apply is_nil_false in En. rewrite obind_Ok. setoid_rewrite ok_or_Ok.
    transitivity (exists ip entry, san_ip c = Some ip /\ entry ∈ permitted_ip_addresses p /\
      parse_ip entry = Some ip).
    + split.
      * intros (ip & Hn & Hm). destruct (existsb _ _) eqn:Ee; [|done].
        apply existsb_elem in Ee as (entry & ? & He). exists ip, entry.
        destruct (parse_ip entry) as [q|]; [|done]. apply bool_decide_eq_true in He. by subst q.
      * intros (ip & entry & Hn & Hin & Hm). exists ip. split; [done|].
        replace (existsb _ _) with true; [done|]. symmetry. apply existsb_elem. exists entry.
        rewrite Hm. split; [done|]. by apply bool_decide_eq_true.
    + unfold DNS_NAME, RFC822_NAME, IP_ADDRESS. naive_solver.
Qed.

Lemma check_sans_spec p sans : check_sans p sans = Ok tt <-> Forall (san_permitted p) sans.
Proof.
  induction sans as [|san sans IH]; simpl; [by split|].
  rewrite Forall_cons, <- IH, <- check_san_spec.
  destruct (check_san p san) as [[]|e|]; naive_solver.
Qed.

Lemma check_names_Ok cn sans identity p :
  check_names cn sans identity p = Ok tt <-> authorized cn sans identity p.
Proof.
  unfold check_names, authorized. rewrite <- check_sans_spec.
  assert (Hid : is_empty identity = true <-> identity = EmptyString) by apply is_empty_true.
  assert (Hin := identity_in_sans_spec sans identity).
  assert (Hcn : forall c, eq_ignore_ascii_case c identity = true <->
    to_ascii_lowercase c = to_ascii_lowercase identity) by (intros; apply eq_ignore_ascii_case_spec).
  destruct (require_cn_match p), (require_san_match p), (is_empty identity),
    (identity_in_sans sans identity), cn as [c|]; simpl; try specialize (Hcn c);
    try destruct (eq_ignore_ascii_case c identity); simpl; naive_solver.
Qed.

Lemma noop_authorized p : is_noop p = true -> forall cn sans identity, authorized cn sans identity p.
Proof.
  unfold is_noop. destruct p as [[] [] [] [] []]; simpl; try done. intros _ cn sans identity.
  split; [done|]. split; [done|]. apply Forall_forall. intros san _. by repeat split.
Qed.

Lemma check_sans_error p sans : check_sans p sans <> Panic /\
  forall e, check_sans p sans = Err e -> exists san, san ∈ sans /\ check_san p san = Err e.
Proof.
  induction sans as [|san sans [IH1 IH2]]; simpl; [done|].
  assert (Hp : check_san p san <> Panic).
  { destruct san as [tag c]. unfold check_san.
    repeat match goal with |- context [if ?b then _ else _] => destruct b end; try done;
      [destruct (from_utf8 c)|destruct (from_utf8 c)|destruct (san_ip c)]; simpl; try done;
      by destruct (existsb _ _). }
  destruct (check_san p san) as [[]|e|] eqn:E; simpl; [|split; [done|]|done].
  - split; [done|]. intros e He. destruct (IH2 e He) as (x & ? & ?). exists x. split; [by right|done].
  - intros e' [= <-]. exists san. split; [by left|done].
Qed.

(** ** Properties *)

(** A CSR is authorized exactly when it satisfies the label's policy:
    with a binding control on, the identity is not empty and is the CSR's
    common name up to letter case, or one of its alternative names of the
    matching kind; and every alternative name is on the list of its kind if
    that list is not empty.  The shortcut for a policy without controls
    changes nothing, and a CSR that does not parse is never authorized by a
    policy with one. *)
Theorem authorize_csr_iff {Csr} attrs (sans : Csr -> list (Z * bytes)) from_der der identity p :
  authorize_csr_der attrs sans from_der der identity p = Ok tt <->
  is_noop p = true \/
  exists csr, from_der der = Ok csr /\
    authorized (csr_subject_cn attrs csr) (sans csr) identity p.
Proof.
  unfold authorize_csr_der, authorize_csr. destruct (is_noop p) eqn:En; [naive_solver|].
  destruct (from_der der) as [csr|e|]; [|naive_solver|naive_solver].
  rewrite check_names_Ok. naive_solver.
Qed.

(** Identity binding fails closed.  Under a policy that binds the
    identity nothing is authorized for an empty identity; and a CSR
    authorized for an identity carries it: as common name, or among its
    alternative names, so no holder of one identity gets a certificate for
    names without it. *)
Theorem binding_fails_closed cn sans identity p :
  require_cn_match p = true \/ require_san_match p = true ->
  (identity = EmptyString -> check_names cn sans identity p = Err NoIdentityPresented) /\
  (check_names cn sans identity p = Ok tt ->
     (exists c, cn = Some c /\ to_ascii_lowercase c = to_ascii_lowercase identity) \/
     identity_named sans identity).
Proof.
  intros Hb. split.
  - intros ->. unfold check_names. by destruct Hb as [-> | ->]; rewrite ?orb_true_r.
  - rewrite check_names_Ok. intros (H1 & H2 & _). destruct Hb as [Hb|Hb].
    + left. by destruct (H1 Hb).
    + right. by destruct (H2 Hb).
Qed.

Lemma binding_fails_closed_witness :
  let p := MkAuthzPolicy true false [] [] [] in
  check_names (Some EmptyString) [] EmptyString p = Err NoIdentityPresented /\
  check_names (Some "device-a") [] "device-a" p = Ok tt.
Proof.
  intros p. split; [|reflexivity].
  exact (proj1 (binding_fails_closed (Some EmptyString) [] EmptyString p (or_introl eq_refl))
    eq_refl).
Defined.

