(* ===== verification/Errors.v ===== *)
(** * Errors and their HTTP responses

    [src/error.rs], and the error type of [src/ca/issue.rs] with its
    division into faults of the client and of the server. *)
From S2P Require Import Prelude Words Text.
Open Scope Z_scope.

Inductive IssuanceError : Type :=
  | InvalidCsr (msg : string)
  | KeyTooSmall (algorithm : string) (bits min_bits : Z)
  | ValidityTooLong (requested_days max_days : Z)
  | MissingExtension (msg : string)
  | UnknownProfile (msg : string)
  | SigningError (msg : string)
  | StorageError (msg : string)
  | AlgorithmNotAllowed (algorithm profile : string)
  | ProhibitedDnAttribute (oid name : string).

(** [IssuanceError]'s [Display] *)
Definition issuance_error_to_string (e : IssuanceError) : string :=
  match e with
  | InvalidCsr m => "invalid CSR: " +:+ m
  | KeyTooSmall a b mb =>
      "key too small: " +:+ a +:+ " " +:+ pretty b +:+ "-bit (minimum " +:+ pretty mb +:+
      "-bit required)"
  | ValidityTooLong r m =>
      "validity period " +:+ pretty r +:+ " days exceeds maximum " +:+ pretty m +:+ " days"
  | MissingExtension m => "missing required extension: " +:+ m
  | UnknownProfile m => "unknown enrollment profile: " +:+ m
  | SigningError m => "signing failed: " +:+ m
  | StorageError m => "storage error: " +:+ m
  | AlgorithmNotAllowed a p =>
      "algorithm not allowed: " +:+ a +:+ " not in profile '" +:+ p +:+ "'"
  | ProhibitedDnAttribute o n => "prohibited DN attribute: " +:+ n +:+ " (" +:+ o +:+ ")"
  end.

Definition is_client_error (e : IssuanceError) : bool :=
  match e with
  | InvalidCsr _ | KeyTooSmall _ _ _ | AlgorithmNotAllowed _ _ | ProhibitedDnAttribute _ _ => true
  | SigningError _ | StorageError _ | MissingExtension _ | ValidityTooLong _ _
  | UnknownProfile _ => false
  end.

Inductive KipukaError : Type :=
  | EConfig (msg : string)
  | ETls (msg : string)
  | EDb (msg : string)
  | EHsm (msg : string)
  | EAuth (msg : string)
  | EEst (msg : string)
  | ECa (msg : string)
  | EAudit (msg : string)
  | EIo (msg : string)
  | ENotFound
  | EMethodNotAllowed
  | EPayloadTooLarge
  | EUnsupportedMediaType
  | EForbidden (msg : string)
  | EBadRequest (msg : string)
  | EServiceUnavailable (msg : string)
  | EInternal (msg : string).

(** [KipukaError]'s [Display] *)
Definition kipuka_error_to_string (e : KipukaError) : string :=
  match e with
  | EConfig m => "configuration error: " +:+ m
  | ETls m => "TLS error: " +:+ m
  | EDb m => "database error: " +:+ m
  | EHsm m => "HSM error: " +:+ m
  | EAuth m => "authentication error: " +:+ m
  | EEst m => "EST error: " +:+ m
  | ECa m => "CA error: " +:+ m
  | EAudit m => "audit error: " +:+ m
  | EIo m => "I/O error: " +:+ m
  | ENotFound => "not found"
  | EMethodNotAllowed => "method not allowed"
  | EPayloadTooLarge => "payload too large"
  | EUnsupportedMediaType => "unsupported media type"
  | EForbidden m => "forbidden: " +:+ m
  | EBadRequest m => "bad request: " +:+ m
  | EServiceUnavailable m => "service unavailable: " +:+ m
  | EInternal m => "internal server error: " +:+ m
  end.

(** [From<IssuanceError>] *)
Definition kipuka_of_issuance (e : IssuanceError) : KipukaError :=
  if is_client_error e then EBadRequest (issuance_error_to_string e)
  else ECa (issuance_error_to_string e).

Definition http_status (e : KipukaError) : Z :=
  match e with
  | EAuth _ => 401
  | EForbidden _ => 403
  | EEst _ | EBadRequest _ => 400
  | ENotFound => 404
  | EMethodNotAllowed => 405
  | EPayloadTooLarge => 413
  | EUnsupportedMediaType => 415
  | EServiceUnavailable _ => 503
  | EConfig _ | ETls _ | EDb _ | EHsm _ | ECa _ | EAudit _ | EIo _ | EInternal _ => 500
  end.

(** [StatusCode::is_server_error] *)
Definition is_server_status (status : Z) : bool := (500 <=? status) && (status <? 600).

Definition client_detail (e : KipukaError) : string :=
  if is_server_status (http_status e) then "internal server error"
  else kipuka_error_to_string e.

(** An HTTP response; header names are in lower case, and inserting a
    header replaces it. *)
Record Response : Type := MkResponse {
  status : Z;
  headers : gmap string string;
  body : bytes
}.

(** The quote character of the challenge is written as its code. *)
Definition DQUOTE : string := String "034"%char EmptyString.
Definition WWW_AUTHENTICATE_BASIC : string :=
  "Basic realm=" +:+ DQUOTE +:+ "kipuka-est" +:+ DQUOTE +:+ ", charset=" +:+ DQUOTE +:+
  "UTF-8" +:+ DQUOTE.

(** [KipukaError::into_response] *)
Definition error_response (e : KipukaError) : Response :=
  let st := http_status e in
  let h : gmap string string := {["content-type" := "text/plain; charset=utf-8"]} in
  let h := if st =? 401 then insert "www-authenticate" WWW_AUTHENTICATE_BASIC h else h in
  let h := if st =? 503 then insert "retry-after" "120" h else h in
  MkResponse st h (bytes_of_string (client_detail e)).

(** ** What a client learns from an error *)

(** Internal detail never reaches a client: server errors of one status give
    one and the same response. *)
Lemma server_error_hides e1 e2 :
  500 <= http_status e1 -> http_status e1 = http_status e2 ->
  error_response e1 = error_response e2.
Proof. destruct e1, e2; simpl; intros; try lia; reflexivity. Qed.

(** What a client learns from an error.  Two errors answered with the
    same server status get byte for byte the same response, so nothing of
    their detail leaks; every other response states the error.  A challenge
    comes with 401 and only there, a delay with 503 and only there.  A failed
    issuance is the client's (400) or the server's (500). *)
Theorem error_response_spec e :
  let r := error_response e in
  (if is_server_status (status r)
   then forall e', status (error_response e') = status r -> error_response e' = r
   else 400 <= status r < 500 /\ body r = bytes_of_string (kipuka_error_to_string e)) /\
  (headers r !! "www-authenticate" = if status r =? 401 then Some WWW_AUTHENTICATE_BASIC else None) /\
  (headers r !! "retry-after" = if status r =? 503 then Some "120" else None) /\
  headers r !! "content-type" = Some "text/plain; charset=utf-8" /\
  forall i, status (error_response (kipuka_of_issuance i)) = if is_client_error i then 400 else 500.
Proof.
  cbv zeta. split; [|split; [|split; [|split]]].
  - destruct (is_server_status (status (error_response e))) eqn:Es.
    + intros e' He. apply server_error_hides; [|done].
      unfold is_server_status in Es. change (status (error_response e')) with (http_status e') in He.
      blia.
    + unfold error_response, client_detail in *. simpl in *. rewrite Es. split; [|done].
      destruct e; simpl in *; try lia; done.
  - by destruct e.
  - by destruct e.
  - by destruct e.
  - by intros [].
Qed.
