(* ===== verification/Schema.v ===== *)
(** * The texts of the database migrations

    The constants of [src/db/schema.rs], letter by letter: the statements of
    the first and third version of the schema for each database.  A quotation
    mark is [DQUOTE]. *)
From S2P Require Import Prelude Words Text Errors.
#[local] Open Scope string_scope.

Definition MIGRATION_V1_SQLITE : string :=
  "
-- Schema version tracking
CREATE TABLE IF NOT EXISTS schema_version (
    version     INTEGER NOT NULL,
    applied_at  TEXT    NOT NULL DEFAULT (strftime('%Y-%m-%dT%H:%M:%SZ', 'now'))
);

-- Certificate inventory
CREATE TABLE IF NOT EXISTS certificates (
    id              INTEGER PRIMARY KEY AUTOINCREMENT,
    serial          TEXT    NOT NULL UNIQUE,
    subject_dn      TEXT    NOT NULL,
    issuer_dn       TEXT    NOT NULL,
    not_before      TEXT    NOT NULL,
    not_after       TEXT    NOT NULL,
    der_encoded     BLOB   NOT NULL,
    ca_id           TEXT    NOT NULL,
    profile         TEXT,
    status          TEXT    NOT NULL DEFAULT 'active'
                           CHECK (status IN ('active', 'revoked', 'expired')),
    revocation_reason TEXT,
    revocation_time TEXT,
    created_at      TEXT    NOT NULL DEFAULT (strftime('%Y-%m-%dT%H:%M:%SZ', 'now'))
);

CREATE INDEX IF NOT EXISTS idx_certificates_serial ON certificates (serial);
CREATE INDEX IF NOT EXISTS idx_certificates_subject_dn ON certificates (subject_dn);
CREATE INDEX IF NOT EXISTS idx_certificates_ca_id ON certificates (ca_id);
CREATE INDEX IF NOT EXISTS idx_certificates_status ON certificates (status);
CREATE INDEX IF NOT EXISTS idx_certificates_not_after ON certificates (not_after);

-- OTP storage (DB backend)
CREATE TABLE IF NOT EXISTS otp_tokens (
    id              INTEGER PRIMARY KEY AUTOINCREMENT,
    token_hash      TEXT    NOT NULL,
    entity_id       TEXT    NOT NULL,
    label           TEXT,
    profile         TEXT,
    created_at      TEXT    NOT NULL DEFAULT (strftime('%Y-%m-%dT%H:%M:%SZ', 'now')),
    expires_at      TEXT    NOT NULL,
    max_uses        INTEGER NOT NULL DEFAULT 1,
    current_uses    INTEGER NOT NULL DEFAULT 0,
    revoked         INTEGER NOT NULL DEFAULT 0,
    revoked_at      TEXT
);

CREATE INDEX IF NOT EXISTS idx_otp_tokens_entity_id ON otp_tokens (entity_id);
CREATE INDEX IF NOT EXISTS idx_otp_tokens_expires_at ON otp_tokens (expires_at);
CREATE INDEX IF NOT EXISTS idx_otp_tokens_hash ON otp_tokens (entity_id, token_hash);

-- Audit event trail (NIAP CA PP FAU_GEN.1)
CREATE TABLE IF NOT EXISTS audit_events (
    id              INTEGER PRIMARY KEY AUTOINCREMENT,
    timestamp       TEXT    NOT NULL DEFAULT (strftime('%Y-%m-%dT%H:%M:%f000Z', 'now')),
    event_type      TEXT    NOT NULL,
    actor           TEXT,
    target          TEXT,
    detail_json     TEXT,
    source_ip       TEXT,
    session_id      TEXT
);

CREATE INDEX IF NOT EXISTS idx_audit_events_timestamp ON audit_events (timestamp);
CREATE INDEX IF NOT EXISTS idx_audit_events_event_type ON audit_events (event_type);
CREATE INDEX IF NOT EXISTS idx_audit_events_actor ON audit_events (actor);

-- CA health tracking
CREATE TABLE IF NOT EXISTS ca_health (
    id                    INTEGER PRIMARY KEY AUTOINCREMENT,
    ca_id                 TEXT    NOT NULL UNIQUE,
    status                TEXT    NOT NULL DEFAULT 'unknown'
                                 CHECK (status IN ('healthy', 'unhealthy', 'unknown')),
    last_check            TEXT,
    last_success          TEXT,
    last_failure          TEXT,
    consecutive_failures  INTEGER NOT NULL DEFAULT 0,
    response_latency_ms   INTEGER
);

CREATE INDEX IF NOT EXISTS idx_ca_health_ca_id ON ca_health (ca_id);

-- Enrollment request log
CREATE TABLE IF NOT EXISTS enrollment_requests (
    id              INTEGER PRIMARY KEY AUTOINCREMENT,
    request_type    TEXT    NOT NULL
                           CHECK (request_type IN ('enroll', 'reenroll', 'serverkeygen', 'fullcmc')),
    csr_hash        TEXT    NOT NULL,
    ca_id           TEXT    NOT NULL,
    label           TEXT,
    auth_method     TEXT    NOT NULL,
    entity_id       TEXT,
    status          TEXT    NOT NULL DEFAULT 'pending'
                           CHECK (status IN ('pending', 'issued', 'rejected')),
    certificate_id  INTEGER REFERENCES certificates(id),
    created_at      TEXT    NOT NULL DEFAULT (strftime('%Y-%m-%dT%H:%M:%SZ', 'now')),
    completed_at    TEXT
);

CREATE INDEX IF NOT EXISTS idx_enrollment_requests_status ON enrollment_requests (status);
CREATE INDEX IF NOT EXISTS idx_enrollment_requests_ca_id ON enrollment_requests (ca_id);
CREATE INDEX IF NOT EXISTS idx_enrollment_requests_entity_id ON enrollment_requests (entity_id);
CREATE INDEX IF NOT EXISTS idx_enrollment_requests_csr_hash ON enrollment_requests (csr_hash);

-- Server-generated keys
CREATE TABLE IF NOT EXISTS server_generated_keys (
    id              INTEGER PRIMARY KEY AUTOINCREMENT,
    enrollment_id   INTEGER NOT NULL REFERENCES enrollment_requests(id),
    key_type        TEXT    NOT NULL,
    key_size        INTEGER NOT NULL,
    archived        INTEGER NOT NULL DEFAULT 0,
    archive_id      TEXT,
    created_at      TEXT    NOT NULL DEFAULT (strftime('%Y-%m-%dT%H:%M:%SZ', 'now'))
);

CREATE INDEX IF NOT EXISTS idx_server_generated_keys_enrollment_id ON server_generated_keys (enrollment_id);

-- STAR (Short-Term Automatic Renewal) tables (RFC 8739)
CREATE TABLE IF NOT EXISTS star_orders (
    id                  TEXT    PRIMARY KEY,
    subject_dn          TEXT    NOT NULL,
    key_type            TEXT    NOT NULL,
    profile             TEXT    NOT NULL,
    renewal_interval_secs INTEGER NOT NULL,
    lifetime_end        TEXT    NOT NULL,
    max_renewals        INTEGER NOT NULL,
    current_renewals    INTEGER NOT NULL DEFAULT 0,
    status              TEXT    NOT NULL DEFAULT 'active'
                               CHECK (status IN ('active', 'cancelled', 'completed', 'expired')),
    requestor_dn        TEXT,
    ca_id               TEXT    NOT NULL,
    csr_der             BLOB   NOT NULL,
    created_at          TEXT    NOT NULL DEFAULT (strftime('%Y-%m-%dT%H:%M:%SZ', 'now')),
    cancelled_at        TEXT
);

CREATE TABLE IF NOT EXISTS star_certificates (
    id              INTEGER PRIMARY KEY AUTOINCREMENT,
    star_order_id   TEXT    NOT NULL REFERENCES star_orders(id),
    serial_number   TEXT    NOT NULL,
    certificate_der BLOB   NOT NULL,
    not_before      TEXT    NOT NULL,
    not_after       TEXT    NOT NULL,
    renewal_number  INTEGER NOT NULL,
    created_at      TEXT    NOT NULL DEFAULT (strftime('%Y-%m-%dT%H:%M:%SZ', 'now'))
);

CREATE INDEX IF NOT EXISTS idx_star_certs_order ON star_certificates(star_order_id, renewal_number DESC);
".

Definition MIGRATION_V1_POSTGRES : string :=
  "
-- Schema version tracking
CREATE TABLE IF NOT EXISTS schema_version (
    version     INTEGER NOT NULL,
    applied_at  TEXT NOT NULL DEFAULT (to_char(NOW(), 'YYYY-MM-DD" +:+ DQUOTE +:+
  "T" +:+ DQUOTE +:+
  "HH24:MI:SS" +:+ DQUOTE +:+
  "Z" +:+ DQUOTE +:+
  "'))
);

-- Enum types
DO $$ BEGIN
    CREATE TYPE certificate_status AS ENUM ('active', 'revoked', 'expired');
EXCEPTION WHEN duplicate_object THEN NULL;
END $$;

DO $$ BEGIN
    CREATE TYPE enrollment_type AS ENUM ('enroll', 'reenroll', 'serverkeygen', 'fullcmc');
EXCEPTION WHEN duplicate_object THEN NULL;
END $$;

DO $$ BEGIN
    CREATE TYPE enrollment_status AS ENUM ('pending', 'issued', 'rejected');
EXCEPTION WHEN duplicate_object THEN NULL;
END $$;

DO $$ BEGIN
    CREATE TYPE ca_health_status AS ENUM ('healthy', 'unhealthy', 'unknown');
EXCEPTION WHEN duplicate_object THEN NULL;
END $$;

DO $$ BEGIN
    CREATE TYPE star_order_status AS ENUM ('active', 'cancelled', 'completed', 'expired');
EXCEPTION WHEN duplicate_object THEN NULL;
END $$;

-- Certificate inventory
CREATE TABLE IF NOT EXISTS certificates (
    id                BIGSERIAL    PRIMARY KEY,
    serial            TEXT         NOT NULL UNIQUE,
    subject_dn        TEXT         NOT NULL,
    issuer_dn         TEXT         NOT NULL,
    not_before        TEXT  NOT NULL,
    not_after         TEXT  NOT NULL,
    der_encoded       BYTEA        NOT NULL,
    ca_id             TEXT         NOT NULL,
    profile           TEXT,
    status            certificate_status NOT NULL DEFAULT 'active',
    revocation_reason TEXT,
    revocation_time   TEXT,
    created_at        TEXT  NOT NULL DEFAULT (to_char(NOW(), 'YYYY-MM-DD" +:+ DQUOTE +:+
  "T" +:+ DQUOTE +:+
  "HH24:MI:SS" +:+ DQUOTE +:+
  "Z" +:+ DQUOTE +:+
  "'))
);

CREATE INDEX IF NOT EXISTS idx_certificates_serial ON certificates (serial);
CREATE INDEX IF NOT EXISTS idx_certificates_subject_dn ON certificates (subject_dn);
CREATE INDEX IF NOT EXISTS idx_certificates_ca_id ON certificates (ca_id);
CREATE INDEX IF NOT EXISTS idx_certificates_status ON certificates (status);
CREATE INDEX IF NOT EXISTS idx_certificates_not_after ON certificates (not_after);

-- OTP storage
CREATE TABLE IF NOT EXISTS otp_tokens (
    id              BIGSERIAL    PRIMARY KEY,
    token_hash      TEXT         NOT NULL,
    entity_id       TEXT         NOT NULL,
    label           TEXT,
    profile         TEXT,
    created_at      TEXT  NOT NULL DEFAULT (to_char(NOW(), 'YYYY-MM-DD" +:+ DQUOTE +:+
  "T" +:+ DQUOTE +:+
  "HH24:MI:SS" +:+ DQUOTE +:+
  "Z" +:+ DQUOTE +:+
  "')),
    expires_at      TEXT  NOT NULL,
    max_uses        INTEGER      NOT NULL DEFAULT 1,
    current_uses    INTEGER      NOT NULL DEFAULT 0,
    revoked         BOOLEAN      NOT NULL DEFAULT FALSE,
    revoked_at      TEXT
);

CREATE INDEX IF NOT EXISTS idx_otp_tokens_entity_id ON otp_tokens (entity_id);
CREATE INDEX IF NOT EXISTS idx_otp_tokens_expires_at ON otp_tokens (expires_at);
CREATE INDEX IF NOT EXISTS idx_otp_tokens_hash ON otp_tokens (entity_id, token_hash);

-- Audit event trail
CREATE TABLE IF NOT EXISTS audit_events (
    id              BIGSERIAL    PRIMARY KEY,
    timestamp       TEXT  NOT NULL DEFAULT (to_char(NOW(), 'YYYY-MM-DD" +:+ DQUOTE +:+
  "T" +:+ DQUOTE +:+
  "HH24:MI:SS" +:+ DQUOTE +:+
  "Z" +:+ DQUOTE +:+
  "')),
    event_type      TEXT         NOT NULL,
    actor           TEXT,
    target          TEXT,
    detail_json     TEXT,
    source_ip       TEXT,
    session_id      TEXT
);

CREATE INDEX IF NOT EXISTS idx_audit_events_timestamp ON audit_events (timestamp);
CREATE INDEX IF NOT EXISTS idx_audit_events_event_type ON audit_events (event_type);
CREATE INDEX IF NOT EXISTS idx_audit_events_actor ON audit_events (actor);

-- CA health tracking
CREATE TABLE IF NOT EXISTS ca_health (
    id                    BIGSERIAL        PRIMARY KEY,
    ca_id                 TEXT             NOT NULL UNIQUE,
    status                ca_health_status NOT NULL DEFAULT 'unknown',
    last_check            TEXT,
    last_success          TEXT,
    last_failure          TEXT,
    consecutive_failures  INTEGER          NOT NULL DEFAULT 0,
    response_latency_ms   INTEGER
);

CREATE INDEX IF NOT EXISTS idx_ca_health_ca_id ON ca_health (ca_id);

-- Enrollment request log
CREATE TABLE IF NOT EXISTS enrollment_requests (
    id              BIGSERIAL         PRIMARY KEY,
    request_type    enrollment_type   NOT NULL,
    csr_hash        TEXT              NOT NULL,
    ca_id           TEXT              NOT NULL,
    label           TEXT,
    auth_method     TEXT              NOT NULL,
    entity_id       TEXT,
    status          enrollment_status NOT NULL DEFAULT 'pending',
    certificate_id  BIGINT            REFERENCES certificates(id),
    created_at      TEXT       NOT NULL DEFAULT (to_char(NOW(), 'YYYY-MM-DD" +:+ DQUOTE +:+
  "T" +:+ DQUOTE +:+
  "HH24:MI:SS" +:+ DQUOTE +:+
  "Z" +:+ DQUOTE +:+
  "')),
    completed_at    TEXT
);

CREATE INDEX IF NOT EXISTS idx_enrollment_requests_status ON enrollment_requests (status);
CREATE INDEX IF NOT EXISTS idx_enrollment_requests_ca_id ON enrollment_requests (ca_id);
CREATE INDEX IF NOT EXISTS idx_enrollment_requests_entity_id ON enrollment_requests (entity_id);
CREATE INDEX IF NOT EXISTS idx_enrollment_requests_csr_hash ON enrollment_requests (csr_hash);

-- Server-generated keys
CREATE TABLE IF NOT EXISTS server_generated_keys (
    id              BIGSERIAL    PRIMARY KEY,
    enrollment_id   BIGINT       NOT NULL REFERENCES enrollment_requests(id),
    key_type        TEXT         NOT NULL,
    key_size        INTEGER      NOT NULL,
    archived        BOOLEAN      NOT NULL DEFAULT FALSE,
    archive_id      TEXT,
    created_at      TEXT  NOT NULL DEFAULT (to_char(NOW(), 'YYYY-MM-DD" +:+ DQUOTE +:+
  "T" +:+ DQUOTE +:+
  "HH24:MI:SS" +:+ DQUOTE +:+
  "Z" +:+ DQUOTE +:+
  "'))
);

CREATE INDEX IF NOT EXISTS idx_server_generated_keys_enrollment_id ON server_generated_keys (enrollment_id);

-- STAR (Short-Term Automatic Renewal) tables (RFC 8739)
CREATE TABLE IF NOT EXISTS star_orders (
    id                    TEXT             PRIMARY KEY,
    subject_dn            TEXT             NOT NULL,
    key_type              TEXT             NOT NULL,
    profile               TEXT             NOT NULL,
    renewal_interval_secs INTEGER          NOT NULL,
    lifetime_end          TEXT      NOT NULL,
    max_renewals          INTEGER          NOT NULL,
    current_renewals      INTEGER          NOT NULL DEFAULT 0,
    status                star_order_status NOT NULL DEFAULT 'active',
    requestor_dn          TEXT,
    ca_id                 TEXT             NOT NULL,
    csr_der               BYTEA            NOT NULL,
    created_at            TEXT      NOT NULL DEFAULT (to_char(NOW(), 'YYYY-MM-DD" +:+ DQUOTE +:+
  "T" +:+ DQUOTE +:+
  "HH24:MI:SS" +:+ DQUOTE +:+
  "Z" +:+ DQUOTE +:+
  "')),
    cancelled_at          TEXT
);

CREATE TABLE IF NOT EXISTS star_certificates (
    id              BIGSERIAL    PRIMARY KEY,
    star_order_id   TEXT         NOT NULL REFERENCES star_orders(id),
    serial_number   TEXT         NOT NULL,
    certificate_der BYTEA        NOT NULL,
    not_before      TEXT  NOT NULL,
    not_after       TEXT  NOT NULL,
    renewal_number  INTEGER      NOT NULL,
    created_at      TEXT  NOT NULL DEFAULT (to_char(NOW(), 'YYYY-MM-DD" +:+ DQUOTE +:+
  "T" +:+ DQUOTE +:+
  "HH24:MI:SS" +:+ DQUOTE +:+
  "Z" +:+ DQUOTE +:+
  "'))
);

CREATE INDEX IF NOT EXISTS idx_star_certs_order ON star_certificates(star_order_id, renewal_number DESC);
".

Definition MIGRATION_V1_MARIADB : string :=
  "
-- Schema version tracking
CREATE TABLE IF NOT EXISTS schema_version (
    version     INT          NOT NULL,
    applied_at  TEXT  NOT NULL DEFAULT (DATE_FORMAT(NOW(6), '%Y-%m-%dT%H:%i:%S.%fZ'))
) ENGINE=InnoDB DEFAULT CHARSET=utf8mb4 COLLATE=utf8mb4_unicode_ci;

-- Certificate inventory
CREATE TABLE IF NOT EXISTS certificates (
    id                BIGINT       AUTO_INCREMENT PRIMARY KEY,
    serial            VARCHAR(255) NOT NULL UNIQUE,
    subject_dn        TEXT         NOT NULL,
    issuer_dn         TEXT         NOT NULL,
    not_before        TEXT  NOT NULL,
    not_after         TEXT  NOT NULL,
    der_encoded       LONGBLOB     NOT NULL,
    ca_id             VARCHAR(255) NOT NULL,
    profile           VARCHAR(255),
    status            ENUM('active', 'revoked', 'expired') NOT NULL DEFAULT 'active',
    revocation_reason VARCHAR(255),
    revocation_time   TEXT,
    created_at        TEXT  NOT NULL DEFAULT (DATE_FORMAT(NOW(6), '%Y-%m-%dT%H:%i:%S.%fZ'))
) ENGINE=InnoDB DEFAULT CHARSET=utf8mb4 COLLATE=utf8mb4_unicode_ci;

CREATE INDEX IF NOT EXISTS idx_certificates_serial ON certificates (serial);
CREATE INDEX IF NOT EXISTS idx_certificates_subject_dn ON certificates (subject_dn(255));
CREATE INDEX IF NOT EXISTS idx_certificates_ca_id ON certificates (ca_id);
CREATE INDEX IF NOT EXISTS idx_certificates_status ON certificates (status);
CREATE INDEX IF NOT EXISTS idx_certificates_not_after ON certificates (not_after);

-- OTP storage
CREATE TABLE IF NOT EXISTS otp_tokens (
    id              BIGINT       AUTO_INCREMENT PRIMARY KEY,
    token_hash      VARCHAR(512)         NOT NULL,
    entity_id       VARCHAR(255) NOT NULL,
    label           VARCHAR(255),
    profile         VARCHAR(255),
    created_at      VARCHAR(64)  NOT NULL DEFAULT (DATE_FORMAT(NOW(6), '%Y-%m-%dT%H:%i:%S.%fZ')),
    expires_at      VARCHAR(64)  NOT NULL,
    max_uses        INT          NOT NULL DEFAULT 1,
    current_uses    INT          NOT NULL DEFAULT 0,
    revoked         BOOLEAN      NOT NULL DEFAULT FALSE,
    revoked_at      VARCHAR(64)
) ENGINE=InnoDB DEFAULT CHARSET=utf8mb4 COLLATE=utf8mb4_unicode_ci;

CREATE INDEX IF NOT EXISTS idx_otp_tokens_entity_id ON otp_tokens (entity_id);
CREATE INDEX IF NOT EXISTS idx_otp_tokens_expires_at ON otp_tokens (expires_at);
CREATE INDEX IF NOT EXISTS idx_otp_tokens_hash ON otp_tokens (entity_id, token_hash);

-- Audit event trail
CREATE TABLE IF NOT EXISTS audit_events (
    id              BIGINT       AUTO_INCREMENT PRIMARY KEY,
    timestamp       TEXT  NOT NULL DEFAULT (DATE_FORMAT(NOW(6), '%Y-%m-%dT%H:%i:%S.%fZ')),
    event_type      VARCHAR(255) NOT NULL,
    actor           VARCHAR(255),
    target          VARCHAR(255),
    detail_json     TEXT,
    source_ip       VARCHAR(45),
    session_id      VARCHAR(255)
) ENGINE=InnoDB DEFAULT CHARSET=utf8mb4 COLLATE=utf8mb4_unicode_ci;

CREATE INDEX IF NOT EXISTS idx_audit_events_timestamp ON audit_events (timestamp);
CREATE INDEX IF NOT EXISTS idx_audit_events_event_type ON audit_events (event_type);
CREATE INDEX IF NOT EXISTS idx_audit_events_actor ON audit_events (actor);

-- CA health tracking
CREATE TABLE IF NOT EXISTS ca_health (
    id                    BIGINT       AUTO_INCREMENT PRIMARY KEY,
    ca_id                 VARCHAR(255) NOT NULL UNIQUE,
    status                ENUM('healthy', 'unhealthy', 'unknown') NOT NULL DEFAULT 'unknown',
    last_check            TEXT,
    last_success          TEXT,
    last_failure          TEXT,
    consecutive_failures  INT          NOT NULL DEFAULT 0,
    response_latency_ms   INT
) ENGINE=InnoDB DEFAULT CHARSET=utf8mb4 COLLATE=utf8mb4_unicode_ci;

CREATE INDEX IF NOT EXISTS idx_ca_health_ca_id ON ca_health (ca_id);

-- Enrollment request log
CREATE TABLE IF NOT EXISTS enrollment_requests (
    id              BIGINT       AUTO_INCREMENT PRIMARY KEY,
    request_type    ENUM('enroll', 'reenroll', 'serverkeygen', 'fullcmc') NOT NULL,
    csr_hash        VARCHAR(255) NOT NULL,
    ca_id           VARCHAR(255) NOT NULL,
    label           VARCHAR(255),
    auth_method     VARCHAR(255) NOT NULL,
    entity_id       VARCHAR(255),
    status          ENUM('pending', 'issued', 'rejected') NOT NULL DEFAULT 'pending',
    certificate_id  BIGINT,
    created_at      TEXT  NOT NULL DEFAULT (DATE_FORMAT(NOW(6), '%Y-%m-%dT%H:%i:%S.%fZ')),
    completed_at    TEXT,
    CONSTRAINT fk_enrollment_certificate
        FOREIGN KEY (certificate_id) REFERENCES certificates(id)
) ENGINE=InnoDB DEFAULT CHARSET=utf8mb4 COLLATE=utf8mb4_unicode_ci;

CREATE INDEX IF NOT EXISTS idx_enrollment_requests_status ON enrollment_requests (status);
CREATE INDEX IF NOT EXISTS idx_enrollment_requests_ca_id ON enrollment_requests (ca_id);
CREATE INDEX IF NOT EXISTS idx_enrollment_requests_entity_id ON enrollment_requests (entity_id);
CREATE INDEX IF NOT EXISTS idx_enrollment_requests_csr_hash ON enrollment_requests (csr_hash);

-- Server-generated keys
CREATE TABLE IF NOT EXISTS server_generated_keys (
    id              BIGINT       AUTO_INCREMENT PRIMARY KEY,
    enrollment_id   BIGINT       NOT NULL,
    key_type        VARCHAR(255) NOT NULL,
    key_size        INT          NOT NULL,
    archived        BOOLEAN      NOT NULL DEFAULT FALSE,
    archive_id      VARCHAR(255),
    created_at      TEXT  NOT NULL DEFAULT (DATE_FORMAT(NOW(6), '%Y-%m-%dT%H:%i:%S.%fZ')),
    CONSTRAINT fk_sgk_enrollment
        FOREIGN KEY (enrollment_id) REFERENCES enrollment_requests(id)
) ENGINE=InnoDB DEFAULT CHARSET=utf8mb4 COLLATE=utf8mb4_unicode_ci;

CREATE INDEX IF NOT EXISTS idx_server_generated_keys_enrollment_id ON server_generated_keys (enrollment_id);

-- STAR (Short-Term Automatic Renewal) tables (RFC 8739)
CREATE TABLE IF NOT EXISTS star_orders (
    id                    VARCHAR(255) PRIMARY KEY,
    subject_dn            TEXT         NOT NULL,
    key_type              VARCHAR(255) NOT NULL,
    profile               TEXT         NOT NULL,
    renewal_interval_secs INT          NOT NULL,
    lifetime_end          TEXT  NOT NULL,
    max_renewals          INT          NOT NULL,
    current_renewals      INT          NOT NULL DEFAULT 0,
    status                ENUM('active', 'cancelled', 'completed', 'expired') NOT NULL DEFAULT 'active',
    requestor_dn          TEXT,
    ca_id                 VARCHAR(255) NOT NULL,
    csr_der               LONGBLOB     NOT NULL,
    created_at            TEXT  NOT NULL DEFAULT (DATE_FORMAT(NOW(6), '%Y-%m-%dT%H:%i:%S.%fZ')),
    cancelled_at          TEXT
) ENGINE=InnoDB DEFAULT CHARSET=utf8mb4 COLLATE=utf8mb4_unicode_ci;

CREATE TABLE IF NOT EXISTS star_certificates (
    id              BIGINT       AUTO_INCREMENT PRIMARY KEY,
    star_order_id   VARCHAR(255) NOT NULL,
    serial_number   VARCHAR(255) NOT NULL,
    certificate_der LONGBLOB     NOT NULL,
    not_before      TEXT  NOT NULL,
    not_after       TEXT  NOT NULL,
    renewal_number  INT          NOT NULL,
    created_at      TEXT  NOT NULL DEFAULT (DATE_FORMAT(NOW(6), '%Y-%m-%dT%H:%i:%S.%fZ')),
    CONSTRAINT fk_star_certs_order
        FOREIGN KEY (star_order_id) REFERENCES star_orders(id)
) ENGINE=InnoDB DEFAULT CHARSET=utf8mb4 COLLATE=utf8mb4_unicode_ci;

CREATE INDEX IF NOT EXISTS idx_star_certs_order ON star_certificates(star_order_id, renewal_number DESC);
".

Definition MIGRATION_V3_SQLITE : string :=
  "
CREATE TABLE IF NOT EXISTS pending_csrs (
    id              INTEGER PRIMARY KEY AUTOINCREMENT,
    csr_der         BLOB    NOT NULL,
    ca_id           TEXT    NOT NULL,
    subject_dn      TEXT,
    identity        TEXT    NOT NULL,
    auth_method     TEXT,
    status          TEXT    NOT NULL DEFAULT 'pending'
                           CHECK (status IN ('pending', 'signed', 'rejected', 'expired')),
    created_at      TEXT    NOT NULL DEFAULT (strftime('%Y-%m-%dT%H:%M:%SZ', 'now')),
    signed_at       TEXT,
    certificate_id  INTEGER REFERENCES certificates(id)
);

CREATE INDEX IF NOT EXISTS idx_pending_csrs_ca_id ON pending_csrs (ca_id);
CREATE INDEX IF NOT EXISTS idx_pending_csrs_status ON pending_csrs (status);
CREATE INDEX IF NOT EXISTS idx_pending_csrs_identity ON pending_csrs (identity);
".

Definition MIGRATION_V3_POSTGRES : string :=
  "
DO $$ BEGIN
    CREATE TYPE pending_csr_status AS ENUM ('pending', 'signed', 'rejected', 'expired');
EXCEPTION WHEN duplicate_object THEN NULL;
END $$;

CREATE TABLE IF NOT EXISTS pending_csrs (
    id              BIGSERIAL          PRIMARY KEY,
    csr_der         BYTEA              NOT NULL,
    ca_id           TEXT               NOT NULL,
    subject_dn      TEXT,
    identity        TEXT               NOT NULL,
    auth_method     TEXT,
    status          pending_csr_status NOT NULL DEFAULT 'pending',
    created_at      TEXT        NOT NULL DEFAULT (to_char(NOW(), 'YYYY-MM-DD" +:+ DQUOTE +:+
  "T" +:+ DQUOTE +:+
  "HH24:MI:SS" +:+ DQUOTE +:+
  "Z" +:+ DQUOTE +:+
  "')),
    signed_at       TEXT,
    certificate_id  BIGINT             REFERENCES certificates(id)
);

CREATE INDEX IF NOT EXISTS idx_pending_csrs_ca_id ON pending_csrs (ca_id);
CREATE INDEX IF NOT EXISTS idx_pending_csrs_status ON pending_csrs (status);
CREATE INDEX IF NOT EXISTS idx_pending_csrs_identity ON pending_csrs (identity);
".

Definition MIGRATION_V3_MARIADB : string :=
  "
CREATE TABLE IF NOT EXISTS pending_csrs (
    id              BIGINT       AUTO_INCREMENT PRIMARY KEY,
    csr_der         LONGBLOB     NOT NULL,
    ca_id           VARCHAR(255) NOT NULL,
    subject_dn      TEXT,
    identity        VARCHAR(255) NOT NULL,
    auth_method     VARCHAR(255),
    status          ENUM('pending', 'signed', 'rejected', 'expired') NOT NULL DEFAULT 'pending',
    created_at      TEXT  NOT NULL DEFAULT (DATE_FORMAT(NOW(6), '%Y-%m-%dT%H:%i:%S.%fZ')),
    signed_at       TEXT,
    certificate_id  BIGINT,
    CONSTRAINT fk_pending_csrs_certificate
        FOREIGN KEY (certificate_id) REFERENCES certificates(id)
) ENGINE=InnoDB DEFAULT CHARSET=utf8mb4 COLLATE=utf8mb4_unicode_ci;

CREATE INDEX IF NOT EXISTS idx_pending_csrs_ca_id ON pending_csrs (ca_id);
CREATE INDEX IF NOT EXISTS idx_pending_csrs_status ON pending_csrs (status);
CREATE INDEX IF NOT EXISTS idx_pending_csrs_identity ON pending_csrs (identity);
".

(** * Database migrations

    [src/db/mod.rs] and [src/db/schema.rs]: the kind of database, the
    placeholders of its statements, and the migrations that start-up applies
    one statement at a time.  The database is an interface. *)

#[local] Close Scope string_scope.
Open Scope Z_scope.

(** ** [mod.rs] *)

Inductive DbKind : Type := Sqlite | Postgres | MariaDb.
#[export] Instance DbKind_eq_dec : EqDecision DbKind.
Proof. solve_decision. Defined.
(** [DbKind::from_url] *)
Definition kind_from_url (url : string) : DbKind :=
  if starts_with "postgres" url then Postgres
  else if starts_with "mariadb" url || starts_with "mysql" url then MariaDb
  else Sqlite.

(** The rewriting of [pg_sql] and [pg_sql_dynamic]: the n-th question mark
    becomes $n. *)
Fixpoint number_params (n : Z) (s : string) : string :=
  match s with
  | EmptyString => EmptyString
  | String c r =>
      if Ascii.eqb c "?" then "$" +:+ pretty (as_u32 (n + 1)) +:+ number_params (as_u32 (n + 1)) r
      else String c (number_params n r)
  end.
Definition pg_sql (kind : DbKind) (s : string) : string :=
  if bool_decide (kind = Postgres) then number_params 0 s else s.

Definition in_memory (kind : DbKind) (url : string) : bool :=
  bool_decide (kind = Sqlite) && (contains_str ":memory:" url || contains_str "mode=memory" url).
(** The URL of the read-only pool of [init_ro_pool], if it is another pool. *)
Definition ro_url (kind : DbKind) (url : string) : option string :=
  if negb (bool_decide (kind = Sqlite)) || (contains_str ":memory:" url || contains_str "mode=memory" url) then None
  else Some (if contains_char "?" url then url +:+ "&mode=ro" else url +:+ "?mode=ro").
(** The pool sizes of [init_pool]: at most, and at least if configured. *)
Definition pool_size (kind : DbKind) (url : string) (max min : option Z) : Z * option Z :=
  if in_memory kind url then (1, Some 1)
  else (default (if bool_decide (kind = Sqlite) then 1 else 10) max, min).

(** ** [schema.rs]: statements *)

Section Split.
(** The length in bytes of the character beyond ASCII that a text starts
    with, if [char::is_alphanumeric] holds of it. *)
Variable alphanumeric : string -> option nat.

Definition ascii_alphanumeric (c : Ascii.ascii) : bool :=
  let b := byte_of c in in_range 48 57 b || in_range 65 90 b || in_range 97 122 b.
Fixpoint drop_chars (n : nat) (s : string) : string :=
  match n, s with S n, String _ s => drop_chars n s | _, _ => s end.
Fixpoint take_chars (n : nat) (s : string) : string :=
  match n, s with S n, String c s => String c (take_chars n s) | _, _ => EmptyString end.

(** The loop of [read_dollar_tag] after the first sign: the length of the
    tag's rest, its last sign included. *)
Fixpoint tag_end (fuel : nat) (s : string) : option nat :=
  match fuel, s with
  | S fuel, String c r =>
      if Ascii.eqb c "$" then Some 1%nat
      else if ascii_alphanumeric c || Ascii.eqb c "_" then option_map S (tag_end fuel r)
      else if byte_of c <? 128 then None
      else
        match alphanumeric s with
        | Some k => option_map (fun n => (S (pred k) + n)%nat) (tag_end fuel (drop_chars (pred k) r))
        | None => None
        end
  | _, _ => None
  end.
(** [read_dollar_tag] *)
Definition read_dollar_tag (s : string) : option string :=
  match s with
  | String "$" r => option_map (fun n => take_chars (S n) s) (tag_end (String.length r) r)
  | _ => None
  end.

(** The loop of [split_sql_statements]: [cur] is the text since the last
    statement ended, [tag] the open quote. *)
Fixpoint split_loop (fuel : nat) (rest cur : string) (tag : option string) : list string :=
  match fuel with
  | O => [cur +:+ rest]
  | S fuel =>
      match rest with
      | EmptyString => [cur]
      | String c r =>
          let plain (_ : unit) :=
            if Ascii.eqb c ";" && bool_decide (tag = None)
            then cur :: split_loop fuel r EmptyString tag
            else split_loop fuel r (cur +:+ String c EmptyString) tag in
          if Ascii.eqb c "$" then
            match tag with
            | None =>
                match read_dollar_tag rest with
                | Some t => split_loop fuel (drop_chars (String.length t) rest) (cur +:+ t) (Some t)
                | None => plain tt
                end
            | Some t =>
                if starts_with t rest
                then split_loop fuel (drop_chars (String.length t) rest) (cur +:+ t) None
                else plain tt
            end
          else plain tt
      end
  end.
Definition blank (s : string) : bool := is_empty (trim s).
Definition split_sql_statements (sql : string) : list string :=
  List.filter (fun s => negb (blank s)) (split_loop (String.length sql) sql EmptyString None).

(** A statement without the lines that are comments. *)
Definition executable (statement : string) : string :=
  trim (join (String "010" EmptyString)
    (List.filter (fun l => negb (starts_with "--" (trim_start l))) (lines statement))).
Definition migration_statements (sql : string) : list string :=
  List.filter (fun s => negb (is_empty s)) (map executable (split_sql_statements sql)).

(** ** The migrations *)

Definition SCHEMA_VERSION : Z := 6.

Definition migration_v1 (kind : DbKind) : string :=
  match kind with
  | Sqlite => MIGRATION_V1_SQLITE | Postgres => MIGRATION_V1_POSTGRES | MariaDb => MIGRATION_V1_MARIADB
  end.
Definition migration_v3 (kind : DbKind) : string :=
  match kind with
  | Sqlite => MIGRATION_V3_SQLITE | Postgres => MIGRATION_V3_POSTGRES | MariaDb => MIGRATION_V3_MARIADB
  end.
Definition alters (kind : DbKind) : list string :=
  match kind with
  | Sqlite =>
      ["ALTER TABLE audit_events ADD COLUMN prev_hash TEXT";
       "ALTER TABLE audit_events ADD COLUMN record_hash TEXT"]
  | _ =>
      ["ALTER TABLE audit_events ADD COLUMN IF NOT EXISTS prev_hash TEXT";
       "ALTER TABLE audit_events ADD COLUMN IF NOT EXISTS record_hash TEXT"]
  end%string.
Definition record_version (v : Z) : string :=
  "INSERT INTO schema_version (version) VALUES (" +:+ pretty v +:+ ")".

(** The database: what a statement does, with the text of its error, and the
    version that is read, unless that query fails. *)
Class SqlBackend : Type := {
  SqlDb : Type;
  execute : SqlDb -> string -> SqlDb * option string;
  max_version : SqlDb -> option Z
}.
Context `{SqlBackend}.

(** [current_version] *)
Definition current_version (db : SqlDb) : Z := default 0 (max_version db).

(** Statements in order, until one fails. *)
Fixpoint execute_all (error : string -> string -> string) (db : SqlDb) (l : list string) : SqlDb * outcome unit KipukaError :=
  match l with
  | [] => (db, Ok tt)
  | stmt :: l =>
      match execute db stmt with
      | (db, None) => execute_all error db l
      | (db, Some e) => (db, Err (EDb (error stmt e)))
      end
  end.
Definition failed_on (v : string) (stmt e : string) : string :=
  "migration " +:+ v +:+ " failed on [" +:+ stmt +:+ "]: " +:+ e.
Definition recording (_ e : string) : string := "recording schema version: " +:+ e.

Definition apply_v1 (kind : DbKind) (db : SqlDb) : SqlDb * outcome unit KipukaError :=
  let! (db, _) := execute_all (failed_on "v1") db (migration_statements (migration_v1 kind)) in
  execute_all recording db [record_version 1].
Definition apply_v2 (db : SqlDb) : SqlDb * outcome unit KipukaError :=
  let! (db, _) := execute_all (fun _ e => "migration v2 failed: " +:+ e) db
    ["CREATE INDEX IF NOT EXISTS idx_otp_tokens_hash ON otp_tokens (entity_id, token_hash)"%string] in
  execute_all recording db [record_version 2].
Definition apply_v3 (kind : DbKind) (db : SqlDb) : SqlDb * outcome unit KipukaError :=
  let! (db, _) := execute_all (failed_on "v3") db (migration_statements (migration_v3 kind)) in
  execute_all recording db [record_version 3].
Definition lock_row (kind : DbKind) : string :=
  if bool_decide (kind = MariaDb) then "INSERT IGNORE INTO audit_writer_lock (id, revision) VALUES (1, 0)"
  else "INSERT INTO audit_writer_lock (id, revision) VALUES (1, 0) ON CONFLICT (id) DO NOTHING".
Definition apply_v4 (kind : DbKind) (db : SqlDb) : SqlDb * outcome unit KipukaError :=
  let! (db, _) := execute_all (fun _ e => "audit lock migration: " +:+ e) db
    ["CREATE TABLE IF NOT EXISTS audit_writer_lock (id INTEGER PRIMARY KEY, revision INTEGER NOT NULL)"%string] in
  execute_all (fun _ e => e) db [lock_row kind; record_version 4].
Definition apply_v5 (kind : DbKind) (db : SqlDb) : SqlDb * outcome unit KipukaError :=
  let! (db, _) := execute_all (fun _ e => "STAR policy migration: " +:+ e) db
    (if bool_decide (kind = MariaDb) then ["ALTER TABLE star_orders MODIFY COLUMN profile TEXT NOT NULL"%string] else []) in
  execute_all (fun _ e => e) db [record_version 5].
Definition apply_v6 (kind : DbKind) (db : SqlDb) : SqlDb * outcome unit KipukaError :=
  let! (db, _) := execute_all (failed_on "v6") db (alters kind) in
  execute_all (fun _ e => e) db [record_version 6].

Definition pending (current v : Z) (apply : SqlDb -> SqlDb * outcome unit KipukaError) (db : SqlDb)
  : SqlDb * outcome unit KipukaError :=
  if current <? v then apply db else (db, Ok tt).

(** [run_migrations] *)
Definition run_migrations (kind : DbKind) (db : SqlDb) : SqlDb * outcome unit KipukaError :=
  let current := current_version db in
  let! (db, _) := pending current 1 (apply_v1 kind) db in
  let! (db, _) := pending current 2 apply_v2 db in
  let! (db, _) := pending current 3 (apply_v3 kind) db in
  let! (db, _) := pending current 4 (apply_v4 kind) db in
  let! (db, _) := pending current 5 (apply_v5 kind) db in
  pending current 6 (apply_v6 kind) db.

(** ** The statements of a run *)

Definition step_statements (kind : DbKind) (v : Z) : list string :=
  if v =? 1 then migration_statements (migration_v1 kind) ++ [record_version 1]
  else if v =? 2 then
    ["CREATE INDEX IF NOT EXISTS idx_otp_tokens_hash ON otp_tokens (entity_id, token_hash)"%string; record_version 2]
  else if v =? 3 then migration_statements (migration_v3 kind) ++ [record_version 3]
  else if v =? 4 then
    ["CREATE TABLE IF NOT EXISTS audit_writer_lock (id INTEGER PRIMARY KEY, revision INTEGER NOT NULL)"%string;
     lock_row kind; record_version 4]
  else if v =? 5 then
    (if bool_decide (kind = MariaDb) then ["ALTER TABLE star_orders MODIFY COLUMN profile TEXT NOT NULL"%string] else [])
      ++ [record_version 5]
  else alters kind ++ [record_version 6].
(** The statements of the steps after a version, in order. *)
Definition plan (kind : DbKind) (current : Z) : list string :=
  concat (map (step_statements kind) (List.filter (fun v => current <? v) [1; 2; 3; 4; 5; 6])).
End Split.

Example numbered :
  pg_sql Postgres "UPDATE t SET a = ? WHERE b = ?" = "UPDATE t SET a = $1 WHERE b = $2".
Proof. vm_compute. reflexivity. Qed.
Definition ascii_only (_ : string) : option nat := None.
Example quoted_block :
  split_sql_statements ascii_only "DO $$ BEGIN a; b; END $$; CREATE c; " =
  ["DO $$ BEGIN a; b; END $$"; " CREATE c"]%string.
Proof. vm_compute. reflexivity. Qed.
(** A statement count for each database. *)
Example statements_found :
  map (fun k => (length (migration_statements ascii_only (migration_v1 k)),
                 length (migration_statements ascii_only (migration_v3 k)))) [Sqlite; Postgres; MariaDb] =
  [(27, 4); (32, 5); (27, 4)]%nat.
Proof. vm_compute. reflexivity. Qed.

(** * Database migrations: the theorems

    The statements of a migration are its text, a run executes
    the statements of the pending steps in order, and a step of SQLite that
    was interrupted is never completed. *)

Open Scope Z_scope.

(** ** Splitting *)

Lemma drop_take_chars n s : take_chars n s +:+ drop_chars n s = s.
Proof. revert s. induction n as [|n IH]; intros [|c s]; cbn; [done..|]. by rewrite IH. Qed.
Lemma drop_prefix t s : starts_with t s = true -> t +:+ drop_chars (String.length t) s = s.
Proof.
  intros H. apply starts_with_spec in H as [r ->]. f_equal. induction t as [|c t IH]; [by destruct r|]. done.
Qed.

Section SplitProps.
Variable alphanumeric : string -> option nat.

Lemma read_dollar_tag_prefix s t : read_dollar_tag alphanumeric s = Some t -> starts_with t s = true.
Proof.
  unfold read_dollar_tag. destruct s as [|c r]; [done|]. destruct c as [[] [] [] [] [] [] [] []]; try done.
  destruct (tag_end _ _ _) as [n|]; [|done]. cbn [option_map]. intros [= <-]. apply starts_with_spec.
  exists (drop_chars n r). symmetry. exact (drop_take_chars (S n) (String "$" r)).
Qed.

Lemma join_cons_head sep a b l : join sep ((a +:+ b) :: l) = a +:+ join sep (b :: l).
Proof. destruct l; cbn; [done|]. by rewrite !string_app_assoc. Qed.

(** The pieces are the text, cut at semicolons. *)
Lemma split_loop_join fuel : forall rest cur tag,
  join ";" (split_loop alphanumeric fuel rest cur tag) = cur +:+ rest.
Proof.
  induction fuel as [|fuel IH]; intros rest cur tag; cbn [split_loop]; [done|].
  destruct rest as [|c r]; [cbn; by rewrite string_app_nil_r|].
  assert (Hplain : join ";"
    (if Ascii.eqb c ";" && bool_decide (tag = None) then cur :: split_loop alphanumeric fuel r EmptyString tag
     else split_loop alphanumeric fuel r (cur +:+ String c EmptyString) tag) = cur +:+ String c r).
  { destruct (_ && _) eqn:E.
    - apply andb_true_iff in E as [->%Ascii.eqb_eq _]. specialize (IH r EmptyString tag).
      destruct (split_loop _ _ _ _ _) as [|p l] eqn:Es; [by destruct fuel; cbn in Es; repeat case_match|].
      change (join ";" (cur :: p :: l)) with (cur +:+ ";" +:+ join ";" (p :: l)). by rewrite IH.
    - rewrite IH. by rewrite string_app_assoc. }
  destruct (Ascii.eqb c "$"); [|exact Hplain]. destruct tag as [t|].
  - destruct (starts_with t (String c r)) eqn:E; [|exact Hplain].
    rewrite IH, string_app_assoc. by rewrite drop_prefix.
  - destruct (read_dollar_tag _ _) as [t|] eqn:E; [|exact Hplain]. apply read_dollar_tag_prefix in E.
    rewrite IH, string_app_assoc. by rewrite drop_prefix.
Qed.

(** Splitting loses nothing but blank statements. *)
Lemma split_sql_covers sql : exists pieces,
  join ";" pieces = sql /\ split_sql_statements alphanumeric sql = List.filter (fun s => negb (blank s)) pieces.
Proof. eexists. split; [|reflexivity]. apply (split_loop_join _ sql EmptyString None). Qed.

(** ** Runs *)

Context `{HB : SqlBackend}.

(** All statements succeed. *)
Inductive executes : SqlDb -> list string -> SqlDb -> Prop :=
  | executes_nil db : executes db [] db
  | executes_cons db stmt db1 l db2 : execute db stmt = (db1, None) -> executes db1 l db2 ->
      executes db (stmt :: l) db2.

Lemma executes_app db l1 db1 l2 db2 : executes db l1 db1 -> executes db1 l2 db2 -> executes db (l1 ++ l2) db2.
Proof. induction 1; [done|]. intros H2. econstructor; [done|auto]. Qed.

(** The statements [l] were executed as far as they succeed. *)
Definition executed (db : SqlDb) (l : list string) (c : SqlDb * outcome unit KipukaError) : Prop :=
  match c.2 with
  | Ok _ => executes db l c.1
  | Err _ => exists before stmt after db1 e, l = before ++ stmt :: after /\ executes db before db1 /\
      execute db1 stmt = (c.1, Some e)
  | Panic => False
  end.

Lemma execute_all_spec error l : forall db, executed db l (execute_all error db l).
Proof.
  induction l as [|stmt l IH]; intros db; cbn [execute_all]; [constructor|].
  destruct (execute db stmt) as [db1 [e|]] eqn:E; [by exists [], stmt, l, db, e; split_and!; [|constructor|]|].
  specialize (IH db1). destruct (execute_all error db1 l) as [db2 [u|e|]]; cbn in *; [by econstructor| |done].
  destruct IH as (b & s & a & d & e' & -> & H1 & H2). exists (stmt :: b), s, a, d, e'. split_and!; [done|by econstructor|done].
Qed.

Lemma executed_bind db l1 l2 c (k : SqlDb -> unit -> SqlDb * outcome unit KipukaError) :
  executed db l1 c -> (forall db1 u, executed db1 l2 (k db1 u)) -> executed db (l1 ++ l2) (sbind c k).
Proof.
  destruct c as [db1 [u|e|]]; cbn; [|intros (b & s & a & d & e' & -> & H1 & H2) _|done].
  - intros H1 H2. specialize (H2 db1 u). destruct (k db1 u) as [db2 [v|e|]]; cbn in *; [by eapply executes_app| |done].
    destruct H2 as (b & s & a & d & e' & -> & H3 & H4). exists (l1 ++ b), s, a, d, e'.
    split_and!; [by rewrite app_assoc|by eapply executes_app|done].
  - exists b, s, (a ++ l2), d, e'. by rewrite <- app_assoc.
Qed.

Lemma apply_steps kind db :
  executed db (step_statements alphanumeric kind 1) (apply_v1 alphanumeric kind db) /\
  executed db (step_statements alphanumeric kind 2) (apply_v2 db) /\
  executed db (step_statements alphanumeric kind 3) (apply_v3 alphanumeric kind db) /\
  executed db (step_statements alphanumeric kind 4) (apply_v4 kind db) /\
  executed db (step_statements alphanumeric kind 5) (apply_v5 kind db) /\
  executed db (step_statements alphanumeric kind 6) (apply_v6 kind db).
Proof.
  assert (H : forall e1 e2 l1 l2, executed db (l1 ++ l2)
    (sbind (execute_all e1 db l1) (fun db _ => execute_all e2 db l2))).
  { intros e1 e2 l1 l2. apply executed_bind; [apply execute_all_spec|]. intros. apply execute_all_spec. }
  split_and!; [apply H|exact (H _ _ [_] [_])|apply H|exact (H _ _ [_] [_; _])|apply H|apply H].
Qed.

Lemma pending_spec current v l apply db :
  executed db l (apply db) -> executed db (if current <? v then l else []) (pending current v apply db).
Proof. intros H. unfold pending. destruct (current <? v); [done|constructor]. Qed.

(** The version says which statements are pending. *)
Lemma plan_steps kind current :
  plan alphanumeric kind current =
    (if current <? 1 then step_statements alphanumeric kind 1 else []) ++
    (if current <? 2 then step_statements alphanumeric kind 2 else []) ++
    (if current <? 3 then step_statements alphanumeric kind 3 else []) ++
    (if current <? 4 then step_statements alphanumeric kind 4 else []) ++
    (if current <? 5 then step_statements alphanumeric kind 5 else []) ++
    (if current <? 6 then step_statements alphanumeric kind 6 else []).
Proof.
  unfold plan. cbn [List.filter].
  repeat match goal with |- context [?c <? ?n] => destruct (c <? n) end; cbn [map concat app]; by rewrite ?app_nil_r.
Qed.

(** C37: migrations are their plan.  A run executes, one after the other, the
    statements of the steps after the version the database names, up to the
    first that fails, and returns without an error exactly if all succeed; a
    database of the current version is left as it is.  The statements of a
    step are its text, cut at the semicolons outside dollar quotes. *)
Theorem run_migrations_plan kind db :
  let c := run_migrations alphanumeric kind db in
  match c.2 with
  | Ok _ => executes db (plan alphanumeric kind (current_version db)) c.1
  | Err _ => exists before stmt after db1 e,
      plan alphanumeric kind (current_version db) = before ++ stmt :: after /\ executes db before db1 /\
      execute db1 stmt = (c.1, Some e)
  | Panic => False
  end /\
  (SCHEMA_VERSION <= current_version db -> c = (db, Ok tt)) /\
  exists pieces, join ";" pieces = migration_v1 kind /\
    migration_statements alphanumeric (migration_v1 kind) =
      List.filter (fun s => negb (is_empty s)) (map executable (List.filter (fun s => negb (blank s)) pieces)).
Proof.
  cbv zeta. split; [|split].
  - change (executed db (plan alphanumeric kind (current_version db)) (run_migrations alphanumeric kind db)).
    rewrite plan_steps. unfold run_migrations. destruct (apply_steps kind db) as (H1 & _).
    apply executed_bind; [by apply pending_spec|]. clear H1. intros db2 _. destruct (apply_steps kind db2) as (_ & H & _).
    apply executed_bind; [by apply pending_spec|]. clear H. intros db3 _. destruct (apply_steps kind db3) as (_ & _ & H & _).
    apply executed_bind; [by apply pending_spec|]. clear H. intros db4 _. destruct (apply_steps kind db4) as (_ & _ & _ & H & _).
    apply executed_bind; [by apply pending_spec|]. clear H. intros db5 _. destruct (apply_steps kind db5) as (_ & _ & _ & _ & H & _).
    apply executed_bind; [by apply pending_spec|]. clear H. intros db6 _. destruct (apply_steps kind db6) as (_ & _ & _ & _ & _ & H).
    by apply pending_spec.
  - intros Hv. unfold SCHEMA_VERSION in Hv. unfold run_migrations, pending.
    by repeat (rewrite (proj2 (Z.ltb_ge _ _)) by lia; cbn [sbind]).
  - destruct (split_sql_covers (migration_v1 kind)) as (pieces & H1 & H2). exists pieces. split; [done|].
    unfold migration_statements. by rewrite H2.
Qed.

(** ** The step that is not taken twice *)

(** What SQLite documents of ALTER TABLE: adding a column that is there is an
    error and changes nothing, adding one that is not makes it. *)
Class ColumnLaws : Type := {
  has_column : SqlDb -> string -> Prop;
  add_existing db : has_column db "prev_hash" ->
    exists e, execute db "ALTER TABLE audit_events ADD COLUMN prev_hash TEXT" = (db, Some e)
}.
Context `{HC : !ColumnLaws}.

(** Starting again and again. *)
Fixpoint restarts (n : nat) (db : SqlDb) : SqlDb * outcome unit KipukaError :=
  match n with
  | O => run_migrations alphanumeric Sqlite db
  | S n => restarts n (run_migrations alphanumeric Sqlite db).1
  end.

(** A database of version 5 with the first column of version 6 stays so. *)
Theorem sqlite_v6_stuck db n :
  current_version db = 5 -> has_column db "prev_hash" ->
  exists e, restarts n db = (db, Err e).
Proof.
  intros Hv Hc. assert (Hrun : exists e, run_migrations alphanumeric Sqlite db = (db, Err e)).
  { unfold run_migrations, pending. rewrite Hv. cbn -[apply_v6]. unfold apply_v6. cbn [alters execute_all].
    destruct (add_existing db Hc) as [e ->]. cbn. by eexists. }
  destruct Hrun as [e He]. induction n as [|n IH]; cbn [restarts]; [by exists e|]. by rewrite He.
Qed.
End SplitProps.

(** ** Examples *)

(** A database of tables, columns of the audit trail and versions. *)
Record ExampleDb : Type := MkExampleDb { ex_columns : list string; ex_versions : list Z; ex_log : list string }.
Definition add_column (c : string) (db : ExampleDb) (stmt : string) : ExampleDb * option string :=
  if existsb (String.eqb c) (ex_columns db) then (db, Some "duplicate column name"%string)
  else (MkExampleDb (c :: ex_columns db) (ex_versions db) (ex_log db ++ [stmt]), None).
Definition example_execute (db : ExampleDb) (stmt : string) : ExampleDb * option string :=
  if String.eqb stmt "ALTER TABLE audit_events ADD COLUMN prev_hash TEXT" then add_column "prev_hash" db stmt
  else if String.eqb stmt "ALTER TABLE audit_events ADD COLUMN record_hash TEXT" then add_column "record_hash" db stmt
  else
    (MkExampleDb (ex_columns db)
       (match List.find (fun v => String.eqb stmt (record_version v)) [1; 2; 3; 4; 5; 6] with
        | Some v => v :: ex_versions db | None => ex_versions db end)
       (ex_log db ++ [stmt]), None).
#[local] Instance example_sql : SqlBackend := {
  SqlDb := ExampleDb;
  execute := example_execute;
  max_version db := match ex_versions db with [] => None | l => Some (fold_left Z.max l 0) end
}.
Lemma example_add_existing db :
  existsb (String.eqb "prev_hash") (ex_columns db) = true ->
  exists e, example_execute db "ALTER TABLE audit_events ADD COLUMN prev_hash TEXT" = (db, Some e).
Proof. intros H. eexists. unfold example_execute. rewrite String.eqb_refl. unfold add_column. by rewrite H. Qed.
#[local] Instance example_columns : ColumnLaws := {
  has_column (db : ExampleDb) c := existsb (String.eqb c) (ex_columns db) = true;
  add_existing := example_add_existing
}.

(** The statements of the first steps may be executed again: each makes what
    is not there, or adds a row. *)
Definition repeatable (stmt : string) : bool :=
  existsb (fun p => starts_with p stmt)
    ["CREATE TABLE IF NOT EXISTS "; "CREATE INDEX IF NOT EXISTS "; "DO $$ BEGIN"; "INSERT "]%string.
Example first_steps_repeatable :
  forallb (fun k => forallb repeatable (concat (map (step_statements ascii_only k) [1; 2; 3; 4])))
    [Sqlite; Postgres; MariaDb] = true.
Proof. vm_compute. reflexivity. Qed.

(** A fresh database gets every version, and its next start changes nothing. *)
Definition fresh : ExampleDb := MkExampleDb [] [] [].
Example fresh_start :
  let c := run_migrations ascii_only Sqlite fresh in
  (ex_versions c.1, length (ex_log c.1)) = ([6; 5; 4; 3; 2; 1], 42%nat) /\
  run_migrations ascii_only Sqlite c.1 = (c.1, Ok tt).
Proof. cbv zeta. split; vm_compute; reflexivity. Qed.
Example interrupted : exists e,
  restarts ascii_only 3 (MkExampleDb ["prev_hash"] [5; 4; 3; 2; 1] []) =
    (MkExampleDb ["prev_hash"] [5; 4; 3; 2; 1] [], Err e).
Proof.
  apply (sqlite_v6_stuck ascii_only (HC := example_columns) (MkExampleDb ["prev_hash"%string] [5; 4; 3; 2; 1] []) 3);
    vm_compute; reflexivity.
Qed.

(** A database of version 5, and the same after its migration. *)
Definition version5 : ExampleDb := MkExampleDb [] [5; 4; 3; 2; 1] [].
Definition version6 : ExampleDb :=
  MkExampleDb ["record_hash"; "prev_hash"]%string [6; 5; 4; 3; 2; 1]
    ["ALTER TABLE audit_events ADD COLUMN prev_hash TEXT"; "ALTER TABLE audit_events ADD COLUMN record_hash TEXT";
     "INSERT INTO schema_version (version) VALUES (6)"]%string.

Lemma run_migrations_plan_witness :
  executes (version5 : SqlDb) (plan ascii_only Sqlite 5) (version6 : SqlDb) /\
  @run_migrations ascii_only example_sql Sqlite version6 = (version6, Ok tt).
Proof.
  split.
  - pose proof (proj1 (run_migrations_plan ascii_only (HB := example_sql) Sqlite version5)) as H.
    assert (E : @run_migrations ascii_only example_sql Sqlite version5 = (version6, Ok tt)) by (vm_compute; reflexivity).
    assert (E5 : @current_version example_sql version5 = 5) by (vm_compute; reflexivity).
    rewrite E, E5 in H. exact H.
  - apply (run_migrations_plan ascii_only (HB := example_sql) Sqlite version6).
    apply Z.leb_le. vm_compute. reflexivity.
Defined.
