(* ===== verification/AuditLog.v ===== *)
(** * The audit trail

    [src/audit/mod.rs] and [src/config/audit.rs]: the events, the single
    insert point of the hash-chained table [audit_events], the overflow
    policy, the security alarm, and the verification of the chain.

    SHA-256/HMAC with its hexadecimal rendering, and the JSON text of an
    object, are parameters.  Every SQL statement can fail: a call takes the
    errors of its statements as an argument.  A transaction that is not
    committed leaves the table as it was.  The writer lock row serializes
    writers of all processes, so a write is an atomic step. *)
From S2P Require Import Prelude Words Text.
Open Scope Z_scope.

(** Field separator of the hashed text. *)
Definition RS : Z := 30.

Inductive AuditEventType : Type :=
  | CaStart | CaStop | CaHealthChange
  | EnrollRequest | CertIssue | CertReenroll | EnrollReject | CertRevoke | CrlGenerate
  | KeyGenerate | KeyLoad | KeyDestroy
  | OtpCreate | OtpUse | OtpExpire | OtpRevoke
  | AuthSuccess | AuthFailure
  | AdminLogin | AdminLogout | AdminAction
  | SecurityViolation.

#[export] Instance AuditEventType_eq_dec : EqDecision AuditEventType.
Proof. solve_decision. Defined.

(** [AuditEventType::as_str] *)
Definition event_type_str (t : AuditEventType) : string :=
  match t with
  | CaStart => "ca.start"
  | CaStop => "ca.stop"
  | CaHealthChange => "ca.health-change"
  | EnrollRequest => "enroll.request"
  | CertIssue => "cert.issue"
  | CertReenroll => "cert.reenroll"
  | EnrollReject => "enroll.reject"
  | CertRevoke => "cert.revoke"
  | CrlGenerate => "crl.generate"
  | KeyGenerate => "key.generate"
  | KeyLoad => "key.load"
  | KeyDestroy => "key.destroy"
  | OtpCreate => "otp.create"
  | OtpUse => "otp.use"
  | OtpExpire => "otp.expire"
  | OtpRevoke => "otp.revoke"
  | AuthSuccess => "auth.success"
  | AuthFailure => "auth.failure"
  | AdminLogin => "admin.login"
  | AdminLogout => "admin.logout"
  | AdminAction => "admin.action"
  | SecurityViolation => "security.violation"
  end.

Record AuditEvent : Type := MkAuditEvent {
  ae_type : AuditEventType;
  ae_ca_id : option string;
  ae_subject : option string;
  ae_detail : option string;
  ae_client_addr : option string;
  ae_operator : option string
}.

Definition audit_event_new (t : AuditEventType) : AuditEvent :=
  MkAuditEvent t None None None None None.
Definition with_ca_id (e : AuditEvent) (s : string) : AuditEvent :=
  MkAuditEvent (ae_type e) (Some s) (ae_subject e) (ae_detail e) (ae_client_addr e)
    (ae_operator e).
Definition with_subject (e : AuditEvent) (s : string) : AuditEvent :=
  MkAuditEvent (ae_type e) (ae_ca_id e) (Some s) (ae_detail e) (ae_client_addr e)
    (ae_operator e).
Definition with_detail (e : AuditEvent) (s : string) : AuditEvent :=
  MkAuditEvent (ae_type e) (ae_ca_id e) (ae_subject e) (Some s) (ae_client_addr e)
    (ae_operator e).
Definition with_client_addr (e : AuditEvent) (s : string) : AuditEvent :=
  MkAuditEvent (ae_type e) (ae_ca_id e) (ae_subject e) (ae_detail e) (Some s)
    (ae_operator e).
Definition with_operator (e : AuditEvent) (s : string) : AuditEvent :=
  MkAuditEvent (ae_type e) (ae_ca_id e) (ae_subject e) (ae_detail e) (ae_client_addr e)
    (Some s).

(** ** Configuration *)

Inductive RotationPolicy : Type := RotateSize | Daily | Weekly | Never.
Inductive OverflowPolicy : Type := DropOldest | Halt.

#[export] Instance RotationPolicy_eq_dec : EqDecision RotationPolicy.
Proof. solve_decision. Defined.
#[export] Instance OverflowPolicy_eq_dec : EqDecision OverflowPolicy.
Proof. solve_decision. Defined.

(** [integrity_key] is a reference to a secret, which is a text. *)
Record AuditConfig : Type := MkAuditConfig {
  enabled : bool;
  log_path : string;
  signed : bool;
  integrity_key_ref : option string;
  rotation_policy : RotationPolicy;
  max_file_size : Z;
  retention_count : Z;
  log_to_db : bool;
  overflow_policy : OverflowPolicy;
  max_rows : option Z;
  alarm_threshold : Z;
  alarm_action : string;
  auditable_events : list string;
  rotation_check_interval_secs : option Z
}.

Definition default_log_path : string := "/var/log/kipuka/audit.log".
Definition default_max_file_size : Z := 100 * 1024 * 1024.
Definition default_retention_count : Z := 10.

Definition audit_config_default : AuditConfig :=
  MkAuditConfig true default_log_path false None Daily default_max_file_size
    default_retention_count true DropOldest None 10 "syslog" [] None.

(** The messages of [validate], one constructor each. *)
Inductive AuditConfigError : Type :=
  | FileOutputUnsupported
  | EventFilterUnsupported
  | MaxRowsTooLarge
  | IntegrityKeyRequired
  | MaxRowsZero
  | LogToDbRequired
  | BadAlarmAction (other : string)
  | AlarmThresholdZero
  | MaxFileSizeZero
  | RotationIntervalZero.

(** [AuditConfig::validate] *)
Definition audit_config_validate (c : AuditConfig) : outcome unit AuditConfigError :=
  if negb (enabled c) then Ok tt
  else if negb (String.eqb (log_path c) default_log_path)
    || negb (bool_decide (rotation_policy c = Daily))
    || negb (max_file_size c =? default_max_file_size)
    || negb (retention_count c =? default_retention_count)
    || bool_decide (is_Some (rotation_check_interval_secs c))
  then Err FileOutputUnsupported
  else if negb (bool_decide (auditable_events c = [])) then Err EventFilterUnsupported
  else if match max_rows c with Some n => 2 ^ 63 - 1 <? n | None => false end
  then Err MaxRowsTooLarge
  else if signed c &&
    match integrity_key_ref c with None => true | Some k => is_empty k end
  then Err IntegrityKeyRequired
  else if bool_decide (max_rows c = Some 0) then Err MaxRowsZero
  else if negb (log_to_db c) then Err LogToDbRequired
  else if negb (String.eqb (alarm_action c) "syslog") && negb (String.eqb (alarm_action c) "halt")
  then Err (BadAlarmAction (alarm_action c))
  else if alarm_threshold c =? 0 then Err AlarmThresholdZero
  else if bool_decide (rotation_policy c = RotateSize) && (max_file_size c =? 0)
  then Err MaxFileSizeZero
  else if bool_decide (rotation_check_interval_secs c = Some 0) then Err RotationIntervalZero
  else Ok tt.

(** ** State *)

Record AuditState : Type := MkAuditState {
  halted : bool;
  audit_config : AuditConfig;
  violation_count : Z;
  integrity_key : option bytes
}.

Definition audit_from_config (c : AuditConfig) (key : option bytes) : AuditState :=
  MkAuditState false c 0 key.
Definition audit_with_config (c : AuditConfig) : AuditState := audit_from_config c None.
Definition audit_state_new : AuditState := audit_with_config audit_config_default.

Definition is_halted (st : AuditState) : bool := halted st.
Definition set_halted (st : AuditState) (b : bool) : AuditState :=
  MkAuditState b (audit_config st) (violation_count st) (integrity_key st).
(** [fetch_add] wraps, and so does the addition in a release build. *)
Definition record_violation (st : AuditState) : AuditState * Z :=
  let n := as_u32 (violation_count st + 1) in
  (MkAuditState (halted st) (audit_config st) n (integrity_key st), n).
Definition reset_violations (st : AuditState) : AuditState :=
  MkAuditState (halted st) (audit_config st) 0 (integrity_key st).

(** A row of [audit_events]; the table is the list of its rows by [id]. *)
Record AuditRow : Type := MkAuditRow {
  ar_id : Z;
  ar_timestamp : string;
  ar_event_type : string;
  ar_actor : option string;
  ar_target : option string;
  ar_detail_json : option string;
  ar_source_ip : option string;
  ar_session_id : option string;
  ar_prev_hash : option string;
  ar_record_hash : option string
}.

Record AuditDb : Type := MkAuditDb { audit_rows : list AuditRow; next_id : Z }.

(** What each statement of a call fails with, if it does. *)
Record AuditFaults : Type := MkFaults {
  f_begin : option string;
  f_lock : option string;
  f_count : option string;
  f_oldest : option string;
  f_delete : Z -> option string;
  f_tail : option string;
  f_insert : option string;
  f_commit : option string;
  f_syslog : option string
}.
Definition no_faults : AuditFaults :=
  MkFaults None None None None (fun _ => None) None None None None.

Section Audit.
(** The lowercase hexadecimal digest: HMAC-SHA256 under the key if there is
    one, SHA-256 otherwise. *)
Variable digest : option bytes -> bytes -> string.
(** [serde_json]'s text of an object. *)
Variable json_object : list (string * string) -> string.

Definition chain_hash (st : AuditState) (prev : option string) (canonical : bytes) : string :=
  digest (integrity_key st) (bytes_of_string (default EmptyString prev) ++ [RS] ++ canonical).

Definition field_bytes (s : string) : bytes := bytes_of_string s ++ [RS].

Definition canonical_bytes (timestamp event_type : string)
    (actor target detail_json source_ip session_id : option string) : bytes :=
  concat (map field_bytes
    [timestamp; event_type; default EmptyString actor; default EmptyString target;
     default EmptyString detail_json; default EmptyString source_ip;
     default EmptyString session_id]).

(** ** Writing *)

Fixpoint delete_rows (db : AuditDb) (ids : list Z) (f : AuditFaults)
  : AuditDb * outcome unit string :=
  match ids with
  | [] => (db, Ok tt)
  | id :: ids' =>
      match f_delete f id with
      | Some e => (db, Err e)
      | None =>
          delete_rows (MkAuditDb (List.filter (fun r => negb (ar_id r =? id)) (audit_rows db))
                         (next_id db)) ids' f
      end
  end.

(** The row limit. *)
Definition enforce_row_limit (db : AuditDb) (c : AuditConfig) (f : AuditFaults)
  : AuditDb * outcome unit string :=
  match max_rows c with
  | None => (db, Ok tt)
  | Some limit =>
      match f_count f with
      | Some e => (db, Err e)
      | None =>
          let count := Z.of_nat (length (audit_rows db)) in
          if as_i64 limit <=? count then
            if bool_decide (overflow_policy c = Halt)
            then (db, Err "audit storage row limit reached")
            else
              match f_oldest f with
              | Some e => (db, Err e)
              | None =>
                  delete_rows db
                    (map ar_id (take (Z.to_nat (count - as_i64 limit + 1)) (audit_rows db))) f
              end
          else (db, Ok tt)
      end
  end.

Definition detail_json_of (ev : AuditEvent) : option string :=
  match ae_detail ev, ae_ca_id ev with
  | Some d, Some ca => Some (json_object [("detail", d); ("ca_id", ca)])
  | Some d, None => Some (json_object [("detail", d)])
  | None, Some ca => Some (json_object [("ca_id", ca)])
  | None, None => None
  end.

(** [record_hash] of the newest row. *)
Definition chain_tail (rows : list AuditRow) : option string :=
  match last rows with
  | Some r => ar_record_hash r
  | None => None
  end.

Definition new_row (st : AuditState) (db : AuditDb) (ev : AuditEvent) (timestamp : string)
  : AuditRow :=
  let prev := chain_tail (audit_rows db) in
  let canonical := canonical_bytes timestamp (event_type_str (ae_type ev)) (ae_operator ev)
    (ae_subject ev) (detail_json_of ev) (ae_client_addr ev) None in
  MkAuditRow (next_id db) timestamp (event_type_str (ae_type ev)) (ae_operator ev)
    (ae_subject ev) (detail_json_of ev) (ae_client_addr ev) None prev
    (Some (chain_hash st prev canonical)).

Definition write_event (db : AuditDb) (st : AuditState) (ev : AuditEvent) (f : AuditFaults)
    (timestamp : string) : AuditDb * outcome unit string :=
  if is_halted st then (db, Err "audit operation admission halted")
  else
    match f_lock f with
    | Some e => (db, Err e)
    | None =>
        match enforce_row_limit db (audit_config st) f with
        | (db, Ok _) =>
            match f_tail f with
            | Some e => (db, Err ("loading audit chain tail: " +:+ e))
            | None =>
                let row := new_row st db ev timestamp in
                match f_insert f with
                | Some e => (db, Err ("audit insert failed: " +:+ e))
                | None => (MkAuditDb (audit_rows db ++ [row]) (next_id db + 1), Ok tt)
                end
            end
        | (db, r) => (db, r)
        end
    end.

(** The violation counter and the alarm, after the commit. *)
Definition track_violations (st : AuditState) (ev : AuditEvent) (f : AuditFaults)
  : AuditState * outcome unit string :=
  if bool_decide (ae_type ev = SecurityViolation) then
    let (st, count) := record_violation st in
    if alarm_threshold (audit_config st) <=? count then
      if String.eqb (alarm_action (audit_config st)) "halt" then (set_halted st true, Ok tt)
      else
        match f_syslog f with
        | Some e => (st, Err ("audit syslog alarm failed: " +:+ e))
        | None => (st, Ok tt)
        end
    else (st, Ok tt)
  else if bool_decide (ae_type ev = AuthSuccess) then (reset_violations st, Ok tt)
  else (st, Ok tt).

Definition record_inner (db : AuditDb) (st : AuditState) (ev : AuditEvent) (f : AuditFaults)
    (timestamp : string) : AuditDb * AuditState * outcome unit string :=
  if is_halted st then (db, st, Err "audit operation admission halted")
  else
    match f_begin f with
    | Some e => (db, st, Err e)
    | None =>
        match write_event db st ev f timestamp with
        | (db', Ok _) =>
            match f_commit f with
            | Some e => (db, st, Err e)
            | None => let (st', r) := track_violations st ev f in (db', st', r)
            end
        | (_, r) => (db, st, r)
        end
    end.

(** A failure latches the halt when the policy says so. *)
Definition latch (st : AuditState) (r : outcome unit string) : AuditState :=
  match r with
  | Ok _ => st
  | _ => if bool_decide (overflow_policy (audit_config st) = Halt)
         then set_halted st true else st
  end.

Definition record_checked (db : AuditDb) (st : AuditState) (ev : AuditEvent)
    (f : AuditFaults) (timestamp : string) : AuditDb * AuditState * outcome unit string :=
  if negb (enabled (audit_config st)) then (db, st, Ok tt)
  else
    match record_inner db st ev f timestamp with
    | (db, st, r) => (db, latch st r, r)
    end.

(** [record]: the failure is only logged. *)
Definition record (db : AuditDb) (st : AuditState) (ev : AuditEvent) (f : AuditFaults)
    (timestamp : string) : AuditDb * AuditState :=
  (record_checked db st ev f timestamp).1.

(** On the table as the caller's transaction sees it. *)
Definition record_issuance_in_transaction (tx : AuditDb) (st : AuditState)
    (ca_id detail : string) (f : AuditFaults) (timestamp : string)
  : AuditDb * AuditState * outcome unit string :=
  if negb (enabled (audit_config st)) then (tx, st, Ok tt)
  else
    let ev := with_detail (with_ca_id (audit_event_new CertIssue) ca_id) detail in
    let (tx, r) := write_event tx st ev f timestamp in
    (tx, latch st r, r).

(** [db] is the committed table, [tx] the transaction's. *)
Definition commit_issuance (db tx : AuditDb) (st : AuditState) (f : AuditFaults)
  : AuditDb * AuditState * outcome unit string :=
  match f_commit f with
  | Some e =>
      (db,
       if enabled (audit_config st) && bool_decide (overflow_policy (audit_config st) = Halt)
       then set_halted st true else st,
       Err e)
  | None => (tx, st, Ok tt)
  end.

(** ** Verification *)

Record ChainVerifyReport : Type := MkReport {
  total : Z;
  report_ok : bool;
  broken_at : option Z;
  report_detail : option string
}.

Definition row_canonical (r : AuditRow) : bytes :=
  canonical_bytes (ar_timestamp r) (ar_event_type r) (ar_actor r) (ar_target r)
    (ar_detail_json r) (ar_source_ip r) (ar_session_id r).

(** The loop of [verify_chain]: the first row that fails, and why. *)
Fixpoint verify_rows (st : AuditState) (expected_prev : option string) (rows : list AuditRow)
  : option (Z * string) :=
  match rows with
  | [] => None
  | r :: rows' =>
      if negb (bool_decide (ar_prev_hash r = expected_prev)) then
        Some (ar_id r, "prev_hash linkage broken at id=" +:+ pretty (ar_id r) +:+
          ": stored prev_hash does not match the preceding record_hash (row deleted, inserted, or reordered)")
      else if bool_decide
          (ar_record_hash r = Some (chain_hash st (ar_prev_hash r) (row_canonical r)))
      then verify_rows st (ar_record_hash r) rows'
      else
        Some (ar_id r, "record_hash mismatch at id=" +:+ pretty (ar_id r) +:+
          ": row contents were altered after insertion")
  end.

Definition verify_chain (db : AuditDb) (st : AuditState) : ChainVerifyReport :=
  let total := Z.of_nat (length (audit_rows db)) in
  match verify_rows st None (audit_rows db) with
  | Some (id, why) => MkReport total false (Some id) (Some why)
  | None => MkReport total true None None
  end.
End Audit.
