(* ===== verification/AuditSpec.v ===== *)
(** * The audit trail: theorems

    What [AuditLog] promises over the runs of several server processes on
    one table: the chain verifies and is append-only, it betrays tampering,
    the row limit holds; what one call does; and what dropping records does
    to the chain. *)
From S2P Require Import Prelude Words Text AuditLog.
Open Scope Z_scope.

(** ** Runs

    Several server processes, each with its own state, share the table. *)
Section Runs.
Variable digest : option bytes -> bytes -> string.
Variable json_object : list (string * string) -> string.

(** The issuance records of one transaction, which is rolled back when one
    of them cannot be written. *)
Fixpoint issue_records (tx : AuditDb) (st : AuditState) (l : list (string * string * string))
    (f : AuditFaults) : AuditDb * AuditState * outcome unit string :=
  match l with
  | [] => (tx, st, Ok tt)
  | (ca, detail, timestamp) :: l' =>
      match record_issuance_in_transaction digest json_object tx st ca detail f timestamp with
      | (tx, st, Ok _) => issue_records tx st l' f
      | (tx, st, r) => (tx, st, r)
      end
  end.

Definition issue_transaction (db : AuditDb) (st : AuditState)
    (l : list (string * string * string)) (f : AuditFaults) : AuditDb * AuditState :=
  match issue_records db st l f with
  | (tx, st, Ok _) => (commit_issuance db tx st f).1
  | (_, st, _) => (db, st)
  end.

Inductive audit_op : Type :=
  | AuditRecord (ev : AuditEvent) (f : AuditFaults) (timestamp : string)
  | AuditIssue (l : list (string * string * string)) (f : AuditFaults)
  | AuditSetHalted (b : bool).

Definition audit_op_step (db : AuditDb) (st : AuditState) (op : audit_op)
  : AuditDb * AuditState :=
  match op with
  | AuditRecord ev f timestamp => record digest json_object db st ev f timestamp
  | AuditIssue l f => issue_transaction db st l f
  | AuditSetHalted b => (db, set_halted st b)
  end.

(** Process [i.1] does [i.2]. *)
Definition audit_step (s : AuditDb * list AuditState) (i : nat * audit_op)
  : AuditDb * list AuditState :=
  match s.2 !! i.1 with
  | Some st => let (db, st) := audit_op_step s.1 st i.2 in (db, <[i.1 := st]> s.2)
  | None => s
  end.

Definition audit_start (sts : list AuditState) : AuditDb * list AuditState :=
  (MkAuditDb [] 1, sts).
End Runs.

(** ** Lemmas *)

Lemma app_sep_inj {A} (s : A) (a b x y : list A) :
  s ∉ a -> s ∉ b -> a ++ s :: x = b ++ s :: y -> a = b /\ x = y.
Proof.
  revert b. induction a as [|c a IH]; intros [|d b] Ha Hb E; simplify_eq/=; try done.
  - by rewrite elem_of_cons in Hb; destruct Hb; left.
  - by rewrite elem_of_cons in Ha; destruct Ha; left.
  - rewrite not_elem_of_cons in Ha, Hb. destruct (IH b) as [-> ->]; naive_solver.
Qed.

Lemma bytes_of_string_inj a b : bytes_of_string a = bytes_of_string b -> a = b.
Proof. intros E. rewrite <- (string_of_bytes_of_string a), E. apply string_of_bytes_of_string. Qed.

(** No separator inside. *)
Definition clean (s : string) : Prop := RS ∉ bytes_of_string s.

Lemma fields_inj l1 l2 : length l1 = length l2 -> Forall clean l1 -> Forall clean l2 ->
  concat (map field_bytes l1) = concat (map field_bytes l2) -> l1 = l2.
Proof.
  revert l2. induction l1 as [|a l1 IH]; intros [|b l2] Hl H1 H2 E; try done.
  apply Forall_cons in H1 as [Ha H1], H2 as [Hb H2]. simpl in E. unfold field_bytes in E.
  rewrite <- !app_assoc in E. apply app_sep_inj in E as [E1 E2]; [|done..].
  apply bytes_of_string_inj in E1 as ->. f_equal. apply IH; [simpl in Hl; lia|done..].
Qed.

Section Chain.
Variable digest : option bytes -> bytes -> string.
Variable json_object : list (string * string) -> string.
Abbreviation chain_hash := (chain_hash digest).
Abbreviation verify_rows := (verify_rows digest).

(** What the row after [rows] has to point at. *)
Definition end_hash (prev : option string) (rows : list AuditRow) : option string :=
  match last rows with
  | Some r => ar_record_hash r
  | None => prev
  end.

Definition row_ok (st : AuditState) (prev : option string) (r : AuditRow) : Prop :=
  ar_prev_hash r = prev /\
  ar_record_hash r = Some (chain_hash st (ar_prev_hash r) (row_canonical r)).

Lemma verify_rows_cons st prev r rows :
  verify_rows st prev (r :: rows) = None <->
  row_ok st prev r /\ verify_rows st (ar_record_hash r) rows = None.
Proof.
  simpl. unfold row_ok. do 2 case_bool_decide; simpl; naive_solver.
Qed.

Lemma end_hash_cons prev r rows : end_hash prev (r :: rows) = end_hash (ar_record_hash r) rows.
Proof. unfold end_hash. rewrite last_cons. by destruct (last rows). Qed.

Lemma verify_rows_snoc st prev rows r :
  verify_rows st prev (rows ++ [r]) = None <->
  verify_rows st prev rows = None /\ row_ok st (end_hash prev rows) r.
Proof.
  revert prev. induction rows as [|r0 rows IH]; intros prev.
  - simpl app. rewrite verify_rows_cons. simpl. naive_solver.
  - simpl app. rewrite !verify_rows_cons, IH, end_hash_cons. naive_solver.
Qed.

Lemma chain_hash_key st1 st2 prev c :
  integrity_key st1 = integrity_key st2 -> chain_hash st1 prev c = chain_hash st2 prev c.
Proof. unfold AuditLog.chain_hash. by intros ->. Qed.

Lemma row_ok_key st1 st2 prev r :
  integrity_key st1 = integrity_key st2 -> row_ok st1 prev r -> row_ok st2 prev r.
Proof. intros E [H1 H2]. split; [done|]. by rewrite H2, (chain_hash_key st1 st2). Qed.

Lemma verify_rows_key st1 st2 prev rows :
  integrity_key st1 = integrity_key st2 ->
  verify_rows st1 prev rows = None -> verify_rows st2 prev rows = None.
Proof.
  intros E. revert prev. induction rows as [|r rows IH]; intros prev; [done|].
  rewrite !verify_rows_cons. intros [H1 H2]. split; [by eapply row_ok_key|auto].
Qed.

Lemma chain_tail_end rows : chain_tail rows = end_hash None rows.
Proof. done. Qed.

(** The row that a write adds continues the chain. *)
Lemma new_row_ok st db ev ts :
  row_ok st (end_hash None (audit_rows db)) (new_row digest json_object st db ev ts).
Proof. done. Qed.

Lemma verify_chain_ok rows id st :
  verify_chain digest (MkAuditDb rows id) st = MkReport (Z.of_nat (length rows)) true None None
  <-> verify_rows st None rows = None.
Proof.
  unfold verify_chain. simpl. destruct (verify_rows st None rows) as [[i w]|]; naive_solver.
Qed.

(** A verified row's hash is a digest. *)
Lemma verify_rows_end st prev rows h :
  verify_rows st prev rows = None -> end_hash prev rows = Some h ->
  prev = Some h \/ exists x, h = digest (integrity_key st) x.
Proof.
  destruct rows as [|r rows _] using rev_ind; [by left|].
  rewrite verify_rows_snoc. intros [_ [_ Hr]] E. right.
  unfold end_hash in E. rewrite last_snoc in E. rewrite Hr in E. injection E as <-. by eexists.
Qed.
End Chain.

Section Writes.
Variable digest : option bytes -> bytes -> string.
Variable json_object : list (string * string) -> string.
Abbreviation write_event := (write_event digest json_object).
Abbreviation new_row := (new_row digest json_object).

Lemma delete_rows_Ok f ids : forall db db', delete_rows db ids f = (db', Ok tt) ->
  next_id db' = next_id db /\
  audit_rows db' = List.filter (fun r => negb (existsb (Z.eqb (ar_id r)) ids)) (audit_rows db).
Proof.
  induction ids as [|id ids IH]; intros db db' E; simpl in E.
  - injection E as <-. split; [done|]. simpl.
    induction (audit_rows db) as [|r l IHl]; simpl; [done|]. by rewrite <- IHl.
  - destruct (f_delete f id); [done|]. apply IH in E as [-> ->]. split; [done|]. simpl.
    induction (audit_rows db) as [|r l IHl]; simpl; [done|].
    destruct (ar_id r =? id); simpl; [done|]. case_match; [f_equal|]; done.
Qed.

Lemma filter_ids_drop k rows : NoDup (map ar_id rows) ->
  List.filter (fun r => negb (existsb (Z.eqb (ar_id r)) (map ar_id (take k rows)))) rows =
  drop k rows.
Proof.
  revert k. induction rows as [|r rows IH]; intros k Hn; [by rewrite drop_nil|].
  apply NoDup_cons in Hn as [Hr Hn]. destruct k as [|k].
  - simpl. f_equal. specialize (IH 0%nat Hn). by rewrite take_0, drop_0 in IH.
  - simpl. rewrite Z.eqb_refl. simpl. rewrite <- IH by done.
    assert (Hf : forall q, q ∈ rows -> (ar_id q =? ar_id r) = false).
    { intros q Hq. apply Z.eqb_neq. intros E. apply Hr. rewrite <- E.
      by apply list_elem_of_fmap_2. }
    clear IH. set (ids := map ar_id (take k rows)). clearbody ids.
    induction rows as [|q rows IHr]; simpl; [done|].
    rewrite (Hf q) by (by left). simpl.
    rewrite IHr; [done|set_solver|by apply NoDup_cons in Hn as [_ Hn]|set_solver].
Qed.

Definition ids_ok (db : AuditDb) : Prop :=
  NoDup (map ar_id (audit_rows db)) /\ Forall (fun r => ar_id r < next_id db) (audit_rows db).

(** Making room keeps the newest rows. *)
Lemma make_room_Ok db c f db' : ids_ok db -> enforce_row_limit db c f = (db', Ok tt) ->
  next_id db' = next_id db /\
  (audit_rows db' = audit_rows db /\
     (forall n, max_rows c = Some n -> Z.of_nat (length (audit_rows db)) < as_i64 n) \/
   exists n, max_rows c = Some n /\ overflow_policy c = DropOldest /\
     as_i64 n <= Z.of_nat (length (audit_rows db)) /\
     audit_rows db' =
       drop (Z.to_nat (Z.of_nat (length (audit_rows db)) - as_i64 n + 1)) (audit_rows db)).
Proof.
  intros [Hn _] E. unfold enforce_row_limit in E. destruct (max_rows c) as [n|]; [|naive_solver].
  destruct (f_count f); [done|]. cbv zeta in E. destruct (Z.leb_spec (as_i64 n)
    (Z.of_nat (length (audit_rows db)))) as [Hle|Hlt]; [|naive_solver].
  case_bool_decide as Hp; [done|]. destruct (f_oldest f); [done|].
  apply delete_rows_Ok in E as [-> ->]. split; [done|]. right. exists n.
  split; [done|]. split; [by destruct (overflow_policy c)|]. split; [done|].
  by apply filter_ids_drop.
Qed.

Lemma write_event_Ok db st ev f ts db' : write_event db st ev f ts = (db', Ok tt) ->
  halted st = false /\ exists db1, enforce_row_limit db (audit_config st) f = (db1, Ok tt) /\
    audit_rows db' = audit_rows db1 ++ [new_row st db1 ev ts] /\
    next_id db' = next_id db1 + 1.
Proof.
  unfold AuditLog.write_event, is_halted. destruct (halted st); [done|].
  destruct (f_lock f); [done|]. destruct (enforce_row_limit db _ f) as [db1 [[]|e|]]; [|done..].
  destruct (f_tail f); [done|]. destruct (f_insert f); [done|]. intros E. injection E as <-.
  split; [done|]. by exists db1.
Qed.

Lemma ids_ok_drop k db rows : ids_ok db -> rows = drop k (audit_rows db) ->
  ids_ok (MkAuditDb rows (next_id db)).
Proof.
  intros [Hn Hf] ->. split; simpl; [|by apply Forall_drop].
  rewrite <- (take_drop k (audit_rows db)), map_app in Hn. by apply NoDup_app in Hn as (_ & _ & ?).
Qed.

Lemma ids_ok_snoc db r : ids_ok db -> ar_id r = next_id db ->
  ids_ok (MkAuditDb (audit_rows db ++ [r]) (next_id db + 1)).
Proof.
  intros [Hn Hf] Hr. split; simpl.
  - rewrite map_app. apply NoDup_app. split; [done|]. split; [|apply NoDup_singleton].
    intros i Hi Hi'. simpl in Hi'. apply list_elem_of_singleton in Hi' as ->.
    apply list_elem_of_fmap in Hi as (q & Hq & Hin). rewrite Forall_forall in Hf.
    specialize (Hf q Hin). lia.
  - apply Forall_app. split; [eapply Forall_impl; [exact Hf|simpl; lia]|].
    apply Forall_singleton. lia.
Qed.

Lemma ids_ok_eq db db' : audit_rows db = audit_rows db' -> next_id db = next_id db' ->
  ids_ok db -> ids_ok db'.
Proof. unfold ids_ok. by intros -> ->. Qed.

(** A write: what it drops and what it appends. *)
Lemma write_event_spec db st ev f ts db' : ids_ok db ->
  write_event db st ev f ts = (db', Ok tt) ->
  ids_ok db' /\ exists kept, let db1 := MkAuditDb kept (next_id db) in
    audit_rows db' = kept ++ [new_row st db1 ev ts] /\
    (kept = audit_rows db /\
       (forall n, max_rows (audit_config st) = Some n -> Z.of_nat (length kept) < as_i64 n) \/
     exists n, max_rows (audit_config st) = Some n /\
       overflow_policy (audit_config st) = DropOldest /\
       as_i64 n <= Z.of_nat (length (audit_rows db)) /\
       kept = drop (Z.to_nat (Z.of_nat (length (audit_rows db)) - as_i64 n + 1))
         (audit_rows db)).
Proof.
  intros Hi E. apply write_event_Ok in E as (_ & db1 & Er & Hrows & Hid).
  destruct (make_room_Ok _ _ _ _ Hi Er) as [Hn Hk].
  assert (E1 : db1 = MkAuditDb (audit_rows db1) (next_id db)) by (destruct db1; by simpl in *; subst).
  assert (Hi1 : ids_ok db1).
  { rewrite E1. destruct Hk as [[-> _]|(n & _ & _ & _ & ->)]; [by destruct db|].
    by eapply ids_ok_drop. }
  split.
  - eapply ids_ok_eq; [..|apply (ids_ok_snoc db1 (new_row st db1 ev ts)); [done|done]];
      by rewrite ?Hrows, ?Hid.
  - exists (audit_rows db1). rewrite <- E1. split; [done|].
    destruct Hk as [[Hk Hl]|Hk]; [left|by right]. by rewrite Hk.
Qed.

(** ** Operations as sequences of writes *)

Definition same_setup (st st' : AuditState) : Prop :=
  audit_config st' = audit_config st /\ integrity_key st' = integrity_key st.

Lemma same_setup_trans a b c : same_setup a b -> same_setup b c -> same_setup a c.
Proof. unfold same_setup. by intros [-> ->] [-> ->]. Qed.

Lemma latch_setup st r : same_setup st (latch st r).
Proof. unfold latch. repeat case_match; done. Qed.

Definition one_write (st : AuditState) (db db' : AuditDb) : Prop :=
  exists st' ev f ts, same_setup st st' /\ write_event db st' ev f ts = (db', Ok tt).

Lemma track_setup st ev f st' r : track_violations st ev f = (st', r) -> same_setup st st'.
Proof. unfold track_violations. intros E. split_cases_in E; simplify_eq; done. Qed.

Lemma record_writes db st ev f ts :
  same_setup st (record digest json_object db st ev f ts).2 /\
  rtc (one_write st) db (record digest json_object db st ev f ts).1.
Proof.
  unfold record, record_checked, record_inner.
  destruct (negb (enabled (audit_config st))); [by split; [|apply rtc_refl]|].
  destruct (is_halted st); [split; [apply latch_setup|apply rtc_refl]|].
  destruct (f_begin f); [split; [apply latch_setup|apply rtc_refl]|].
  destruct (AuditLog.write_event _ _ db st ev f ts) as [db' [[]|e|]] eqn:Ew;
    [|split; [apply latch_setup|apply rtc_refl]..].
  destruct (f_commit f); [split; [apply latch_setup|apply rtc_refl]|].
  destruct (track_violations st ev f) as [st' r] eqn:Et. simpl.
  split; [eapply same_setup_trans; [by eapply track_setup|apply latch_setup]|].
  apply rtc_once. by exists st, ev, f, ts.
Qed.

Lemma one_write_setup st st' db db' : same_setup st st' ->
  one_write st' db db' -> one_write st db db'.
Proof.
  intros Hs (s & ev & f & ts & H & E). exists s, ev, f, ts. split; [|done].
  by eapply same_setup_trans.
Qed.

Lemma issue_records_writes l f : forall tx st,
  let r := issue_records digest json_object tx st l f in
  same_setup st r.1.2 /\ (r.2 = Ok tt -> rtc (one_write st) tx r.1.1).
Proof.
  induction l as [|[[ca detail] ts] l IH]; intros tx st; simpl; [by split; [|intros _; apply rtc_refl]|].
  unfold record_issuance_in_transaction.
  destruct (negb (enabled (audit_config st))); [apply IH|].
  destruct (AuditLog.write_event _ _ tx st _ f ts) as [tx' [[]|e|]] eqn:Ew; simpl;
    [|by split; [repeat case_match; done|]..].
  destruct (IH tx' st) as [H1 H2]. split; [done|]. intros Hr.
  eapply rtc_l; [|by apply H2]. do 4 eexists. by split; [|exact Ew].
Qed.

Lemma op_step_writes db st op :
  let r := audit_op_step digest json_object db st op in
  same_setup st r.2 /\ rtc (one_write st) db r.1.
Proof.
  destruct op as [ev f ts|l f|b]; simpl.
  - apply record_writes.
  - unfold issue_transaction. destruct (issue_records_writes l f db st) as [H1 H2].
    destruct (issue_records _ _ db st l f) as [[tx st'] [[]|e|]]; simpl in *;
      [|split; [done|apply rtc_refl]..].
    unfold commit_issuance. destruct (f_commit f); simpl; [|by auto].
    split; [|apply rtc_refl]. by destruct (_ && _).
  - split; [done|apply rtc_refl].
Qed.

(** The processes keep their configuration and key, and an invariant of
    single writes by any of them holds of every run. *)
Definition setups_from (sts sts' : list AuditState) : Prop :=
  forall st, st ∈ sts' -> exists st0, st0 ∈ sts /\ same_setup st0 st.

Lemma audit_run_inv (P : AuditDb -> Prop) sts ops :
  (forall st db db', st ∈ sts -> one_write st db db' -> P db -> P db') ->
  forall db sts', setups_from sts sts' -> P db ->
  let s := run_steps (audit_step digest json_object) (db, sts') ops in
  setups_from sts s.2 /\ P s.1.
Proof.
  intros Hw. induction ops as [|[i op] ops IH]; intros db sts' Hs Hp; [done|].
  cbn [run_steps]. unfold audit_step at 2 4. cbn [fst snd].
  destruct (sts' !! i) as [st|] eqn:Hi; [|by apply IH].
  destruct (Hs st) as (st0 & Hin & Hst0); [by eapply list_elem_of_lookup_2|].
  destruct (op_step_writes db st op) as [H1 H2].
  destruct (audit_op_step _ _ db st op) as [db' st']. apply IH.
  - intros q Hq. apply list_elem_of_lookup in Hq as [j Hj].
    apply list_lookup_insert_Some in Hj as [(-> & <- & _)|[_ Hj]];
      [|by eapply Hs, list_elem_of_lookup_2].
    exists st0. split; [done|]. by eapply same_setup_trans.
  - clear -Hw Hp H2 Hin Hst0. simpl in H2. induction H2 as [|a b c H _ IH]; [done|]. apply IH.
    eapply Hw; [exact Hin|by eapply one_write_setup|done].
Qed.

Lemma setups_refl sts : setups_from sts sts.
Proof. intros st Hst. by exists st. Qed.

(** A write by a process that drops no rows appends to a chain. *)
Definition keeps_rows (c : AuditConfig) : Prop :=
  max_rows c = None \/ overflow_policy c = Halt.

Lemma one_write_appends st db db' : keeps_rows (audit_config st) -> ids_ok db ->
  one_write st db db' ->
  ids_ok db' /\ exists r, audit_rows db' = audit_rows db ++ [r] /\
    row_ok digest st (end_hash None (audit_rows db)) r.
Proof.
  intros Hk Hi (st' & ev & f & ts & [Hc Hkey] & E).
  destruct (write_event_spec _ _ _ _ _ _ Hi E) as [Hi' (kept & Hrows & Hkept)].
  split; [done|]. rewrite Hc in Hkept. destruct Hkept as [[-> _]|(n & Hn & Hp & _)].
  - eexists. split; [exact Hrows|]. apply (row_ok_key _ st'); [done|].
    apply (new_row_ok digest json_object st' (MkAuditDb (audit_rows db) (next_id db))).
  - destruct Hk as [Hk|Hk]; congruence.
Qed.

Lemma run_chained key sts ops db sts' :
  Forall (fun st => integrity_key st = key /\ keeps_rows (audit_config st)) sts ->
  setups_from sts sts' ->
  let ok st db := ids_ok db /\ verify_rows digest st None (audit_rows db) = None in
  let s := run_steps (audit_step digest json_object) (db, sts') ops in
  (forall st, integrity_key st = key -> ok st db -> ok st s.1) /\
  (ids_ok db -> audit_rows db `prefix_of` audit_rows s.1) /\ setups_from sts s.2.
Proof.
  intros Hall Hs ok s. subst ok s. rewrite Forall_forall in Hall. split; [|split].
  - intros st Hst Hok.
    eapply (audit_run_inv (fun d => ids_ok d /\ verify_rows digest st None (audit_rows d) = None));
      [|exact Hs|exact Hok].
    intros st' d d' Hin Hw [Hi Hv]. destruct (Hall st' Hin) as [Hkey Hk].
    destruct (one_write_appends st' d d' Hk Hi Hw) as [Hi' (r & -> & Hr)].
    split; [done|]. apply verify_rows_snoc. split; [done|].
    apply (row_ok_key _ st'); [congruence|done].
  - intros Hi. eapply (audit_run_inv (fun d => ids_ok d /\ audit_rows db `prefix_of` audit_rows d));
      [|exact Hs|done].
    intros st' d d' Hin Hw [Hid Hp]. destruct (Hall st' Hin) as [Hkey Hk].
    destruct (one_write_appends st' d d' Hk Hid Hw) as [Hi' (r & -> & Hr)].
    split; [done|]. by apply prefix_app_r.
  - eapply (audit_run_inv (fun _ => True)); [done|exact Hs|done].
Qed.
End Writes.

(** ** Properties *)

Definition audit_run digest json_object (sts : list AuditState) (ops : list (nat * audit_op))
  : AuditDb * list AuditState :=
  run_steps (audit_step digest json_object) (audit_start sts) ops.

(** C15: the audit trail is an unbroken, append-only chain.  Server processes
    that share the integrity key and never drop records (no row limit, or
    the halt policy) write to one table through any mix of single records,
    issuance transactions and operator resets, with any statement failing at
    any point: verification with that key accepts the whole table, and what
    was in it at any moment is still there, in place, at any later one. *)
Theorem audit_chain_verifies digest json_object key sts ops1 ops2 :
  Forall (fun st => integrity_key st = key /\ keeps_rows (audit_config st)) sts ->
  let db1 := (audit_run digest json_object sts ops1).1 in
  let db2 := (audit_run digest json_object sts (ops1 ++ ops2)).1 in
  (forall st, integrity_key st = key -> verify_chain digest db2 st =
     MkReport (Z.of_nat (length (audit_rows db2))) true None None) /\
  audit_rows db1 `prefix_of` audit_rows db2.
Proof.
  intros Hall db1 db2.
  assert (H0 : ids_ok (MkAuditDb [] 1)) by (split; simpl; constructor).
  destruct (run_chained digest json_object key sts ops1 (MkAuditDb [] 1) sts Hall
    (setups_refl sts)) as (Hok1 & _ & Hs1).
  unfold db2, db1, audit_run, audit_start in *. rewrite run_steps_app.
  destruct (run_steps _ _ ops1) as [d1 sts1]. cbn [fst snd] in *.
  destruct (run_chained digest json_object key sts ops2 d1 sts1 Hall Hs1) as (Hok2 & Hpre & _).
  split.
  - intros st Hst. destruct (Hok2 st Hst (Hok1 st Hst (conj H0 eq_refl))) as [_ Hv].
    destruct (run_steps _ _ ops2) as [[rows id] sts2]. by apply verify_chain_ok.
  - apply Hpre. by apply (Hok1 (audit_from_config audit_config_default key) eq_refl).
Qed.

Lemma default_empty_inj (o1 o2 : option string) :
  (forall s, o1 = Some s -> s <> EmptyString) -> (forall s, o2 = Some s -> s <> EmptyString) ->
  default EmptyString o1 = default EmptyString o2 -> o1 = o2.
Proof.
  destruct o1 as [a|], o2 as [b|]; simpl; intros H1 H2 E; [by rewrite E| | |done].
  - by destruct (H1 a).
  - by destruct (H2 b).
Qed.

(** The fields of a row as the chain commits to them: an absent field is
    the empty one. *)
Definition row_fields (r : AuditRow) : list string :=
  [ar_timestamp r; ar_event_type r; default EmptyString (ar_actor r);
   default EmptyString (ar_target r); default EmptyString (ar_detail_json r);
   default EmptyString (ar_source_ip r); default EmptyString (ar_session_id r)].

Definition same_record (r1 r2 : AuditRow) : Prop :=
  row_fields r1 = row_fields r2 /\ ar_prev_hash r1 = ar_prev_hash r2 /\
  ar_record_hash r1 = ar_record_hash r2.

Section Tamper.
Variable digest : option bytes -> bytes -> string.
Hypothesis digest_clean : forall key x, clean (digest key x) /\ digest key x <> EmptyString.

Lemma row_canonical_fields r : row_canonical r = concat (map field_bytes (row_fields r)).
Proof. done. Qed.

(** Two rows with the same hash that continue verified chains. *)
Lemma same_hash_rows st l1 l2 r1 r2 :
  verify_rows digest st None l1 = None -> verify_rows digest st None l2 = None ->
  row_ok digest st (end_hash None l1) r1 -> row_ok digest st (end_hash None l2) r2 ->
  Forall clean (row_fields r1) -> Forall clean (row_fields r2) ->
  ar_record_hash r1 = ar_record_hash r2 ->
  same_record r1 r2 /\ end_hash None l1 = end_hash None l2 \/
  exists x y, x <> y /\ digest (integrity_key st) x = digest (integrity_key st) y.
Proof.
  intros V1 V2 [P1 H1] [P2 H2] C1 C2 Eh. rewrite H1, H2 in Eh. injection Eh as Eh.
  unfold chain_hash in Eh.
  match type of Eh with digest _ ?x = digest _ ?y => destruct (decide (x = y)) as [E|E] end;
    [left|right; by eauto].
  assert (Hend : forall l s, verify_rows digest st None l = None -> end_hash None l = Some s ->
    clean s /\ s <> EmptyString).
  { intros l s Hv Hl. destruct (verify_rows_end _ _ _ _ _ Hv Hl) as [|[x ->]]; [done|].
    apply digest_clean. }
  assert (Hclean : forall l, verify_rows digest st None l = None ->
    RS ∉ bytes_of_string (default EmptyString (end_hash None l))).
  { intros l Hv. destruct (end_hash None l) as [s|] eqn:Hs; simpl; [by eapply Hend|].
    apply not_elem_of_nil. }
  rewrite P1, P2 in E. apply app_sep_inj in E as [E1 E2];
    [|by apply Hclean|by apply Hclean].
  apply bytes_of_string_inj, default_empty_inj in E1;
    [|intros s Hs; apply (Hend l1 s V1 Hs)|intros s Hs; apply (Hend l2 s V2 Hs)].
  rewrite !row_canonical_fields in E2. apply fields_inj in E2; [|done..].
  split; [|done]. split; [done|]. rewrite P1, P2, H1, H2, P1, P2, E1. split; [done|].
  by rewrite !row_canonical_fields, E2.
Qed.

(** C16: the trail is tamper-evident.  Two tables that verification accepts
    and whose newest records carry the same hash hold the same records,
    field by field and in the same order, none missing and none added -
    or the digest function has a collision, which is exhibited.  (Digests
    are non-empty and, like the fields, do not contain the separator.) *)
Theorem audit_tamper_evident st rows1 rows2 id1 id2 :
  let ok rows id := verify_chain digest (MkAuditDb rows id) st =
    MkReport (Z.of_nat (length rows)) true None None in
  ok rows1 id1 -> ok rows2 id2 -> chain_tail rows1 = chain_tail rows2 ->
  Forall (fun r => Forall clean (row_fields r)) (rows1 ++ rows2) ->
  Forall2 same_record rows1 rows2 \/
  exists x y, x <> y /\ digest (integrity_key st) x = digest (integrity_key st) y.
Proof.
  intros ok V1 V2 Ht Hc. apply verify_chain_ok in V1, V2. apply Forall_app in Hc as [C1 C2].
  revert rows2 V2 Ht C2. induction rows1 as [|r1 l1 IH] using rev_ind; intros rows2 V2 Ht C2.
  - destruct rows2 as [|r2 l2 _] using rev_ind; [by left|].
    apply verify_rows_snoc in V2 as [_ [_ H2]]. unfold chain_tail in Ht.
    rewrite last_snoc, H2 in Ht. done.
  - apply verify_rows_snoc in V1 as [V1 R1]. apply Forall_app in C1 as [C1 D1].
    destruct rows2 as [|r2 l2 _] using rev_ind.
    { destruct R1 as [_ H1]. unfold chain_tail in Ht. rewrite last_snoc, H1 in Ht. done. }
    apply verify_rows_snoc in V2 as [V2 R2]. apply Forall_app in C2 as [C2 D2].
    unfold chain_tail in Ht. rewrite !last_snoc in Ht.
    apply Forall_cons in D1 as [D1 _], D2 as [D2 _].
    destruct (same_hash_rows st l1 l2 r1 r2 V1 V2 R1 R2 D1 D2 Ht) as [[Hs He]|Hx];
      [|by right].
    destruct (IH V1 C1 l2 V2 He C2) as [Hf|Hx]; [|by right].
    left. apply Forall2_app; [done|]. by constructor.
Qed.
End Tamper.

(** The table stays within its row limit whatever the policy, the
    number of processes and the failures: dropping makes room first, halting
    refuses. *)
Theorem audit_rows_bounded digest json_object n sts ops :
  1 <= n < 2 ^ 63 -> Forall (fun st => max_rows (audit_config st) = Some n) sts ->
  Z.of_nat (length (audit_rows (audit_run digest json_object sts ops).1)) <= n.
Proof.
  intros Hn Hall. rewrite Forall_forall in Hall.
  eapply (audit_run_inv digest json_object
    (fun d => ids_ok d /\ Z.of_nat (length (audit_rows d)) <= n) sts ops);
    [|apply setups_refl|split; [split; constructor|simpl; lia]].
  intros st db db' Hin (st' & ev & f & ts & [Hc _] & E) [Hi Hlen].
  destruct (write_event_spec _ _ _ _ _ _ _ _ Hi E) as [Hi' (kept & Hrows & Hk)].
  split; [done|]. rewrite Hrows, length_app. simpl. rewrite Hc, Hall in Hk by done.
  assert (Hi64 : as_i64 n = n) by (unfold as_i64; rewrite Z.mod_small by lia; lia).
  destruct Hk as [[-> Hk]|(n' & [= <-] & _ & Hle & ->)].
  - specialize (Hk n eq_refl). lia.
  - rewrite length_drop. lia.
Qed.

Lemma verified_prev digest st l r0 r rest :
  verify_rows digest st None (l ++ r0 :: r :: rest) = None ->
  exists h, ar_prev_hash r = Some h.
Proof.
  induction rest as [|q rest IH] using rev_ind; intros Hv.
  - rewrite cons_middle, app_assoc in Hv. apply verify_rows_snoc in Hv as [Hv [Hp _]].
    apply verify_rows_snoc in Hv as [_ [_ Hh]]. rewrite Hp. unfold end_hash.
    rewrite last_snoc, Hh. by eexists.
  - rewrite !app_comm_cons, app_assoc in Hv. apply verify_rows_snoc in Hv as [Hv _]. by apply IH.
Qed.

(** Dropping old records breaks the chain.  A process at its limit of
    [n >= 2] rows with the drop-oldest policy records an event in a table
    that verifies; verification then rejects the table, and blames the
    oldest record kept. *)
Theorem drop_oldest_breaks_chain digest json_object db st ev f ts db' n :
  ids_ok db -> verify_rows digest st None (audit_rows db) = None ->
  max_rows (audit_config st) = Some n -> 2 <= n < 2 ^ 63 ->
  n <= Z.of_nat (length (audit_rows db)) ->
  write_event digest json_object db st ev f ts = (db', Ok tt) ->
  exists r rest, audit_rows db' = r :: rest /\ r ∈ audit_rows db /\
    report_ok (verify_chain digest db' st) = false /\
    broken_at (verify_chain digest db' st) = Some (ar_id r).
Proof.
  intros Hi Hv Hn Hrange Hlen E.
  destruct (write_event_spec _ _ _ _ _ _ _ _ Hi E) as [_ (kept & Hrows & Hk)].
  assert (Hi64 : as_i64 n = n) by (unfold as_i64; rewrite Z.mod_small by lia; lia).
  destruct Hk as [[-> Hk]|(n' & Hn' & _ & _ & Hkept)]; [specialize (Hk n Hn); lia|].
  rewrite Hn in Hn'. injection Hn' as <-. rewrite Hi64 in Hkept.
  set (k := Z.to_nat _) in Hkept. assert (Hk : (0 < k < length (audit_rows db))%nat) by lia.
  destruct k as [|k']; [lia|].
  destruct (lookup_lt_is_Some_2 (audit_rows db) k') as [r0 Hr0]; [lia|].
  destruct (lookup_lt_is_Some_2 (audit_rows db) (S k')) as [r Hr]; [lia|].
  assert (Hsplit : audit_rows db = (take k' (audit_rows db) ++ [r0]) ++
    r :: drop (S (S k')) (audit_rows db)).
  { rewrite <- (take_S_r _ _ r0) by done. rewrite <- (drop_S _ r) by done. by rewrite take_drop. }
  assert (Hr_drop : kept = r :: drop (S (S k')) (audit_rows db)).
  { rewrite Hkept. by apply drop_S. }
  assert (Hprev : exists h, ar_prev_hash r = Some h).
  { rewrite Hsplit, <- app_assoc in Hv. exact (verified_prev _ _ _ _ _ _ Hv). }
  destruct Hprev as [h Hh]. rewrite Hr_drop in Hrows.
  exists r, (drop (S (S k')) (audit_rows db) ++ [new_row digest json_object st
    (MkAuditDb kept (next_id db)) ev ts]).
  split; [by rewrite Hrows, Hr_drop|]. split; [by eapply list_elem_of_lookup_2|].
  unfold verify_chain. rewrite Hrows. simpl. rewrite Hh. done.
Qed.

Lemma latch_halts st e : overflow_policy (audit_config st) = Halt ->
  halted (latch st (Err e)) = true.
Proof. intros Hp. unfold latch. by rewrite bool_decide_eq_true_2. Qed.

Lemma delete_rows_returns ids f : forall db, returns (delete_rows db ids f).2.
Proof.
  induction ids as [|id ids IH]; intros db; simpl; [done|].
  destruct (f_delete f id); [done|]. apply IH.
Qed.

Lemma make_room_returns db c f : returns (enforce_row_limit db c f).2.
Proof. unfold enforce_row_limit. cbv zeta. repeat case_match; try done. apply delete_rows_returns. Qed.

Lemma write_event_panics digest json_object db st ev f ts db' :
  write_event digest json_object db st ev f ts <> (db', Panic).
Proof.
  unfold write_event. pose proof (make_room_returns db (audit_config st) f) as Hr. split_cases.
Qed.

(** The event as a row. *)
Definition row_of (json_object : list (string * string) -> string) (ev : AuditEvent)
    (ts : string) (row : AuditRow) : Prop :=
  ar_timestamp row = ts /\ ar_event_type row = event_type_str (ae_type ev) /\
  ar_actor row = ae_operator ev /\ ar_target row = ae_subject ev /\
  ar_detail_json row = detail_json_of json_object ev /\ ar_source_ip row = ae_client_addr ev.

Lemma write_event_written digest json_object db st ev f ts db' : ids_ok db ->
  write_event digest json_object db st ev f ts = (db', Ok tt) ->
  exists k row, audit_rows db' = drop k (audit_rows db) ++ [row] /\
    (k = 0%nat \/ overflow_policy (audit_config st) = DropOldest) /\
    row_of json_object ev ts row.
Proof.
  intros Hi Ew. destruct (write_event_spec _ _ _ _ _ _ _ _ Hi Ew) as [_ (kept & Hr & Hk)].
  destruct Hk as [[-> _]|(n & _ & Hp & _ & ->)].
  - exists 0%nat. eexists. split; [exact Hr|]. by split; [left|].
  - do 2 eexists. split; [exact Hr|]. by split; [right|].
Qed.

(** One call of [record_checked], on every outcome.  A halted log
    refuses and stays halted.  Success means the event is the newest record,
    with the caller's fields, after at most the dropping that the policy
    allows, and that the violation counter and the alarm moved as the event
    says.  Failure leaves the table as it was, unless it was the alarm's
    delivery that failed, and under the halt policy it halts. *)
Theorem record_checked_spec digest json_object db st ev f ts :
  ids_ok db -> enabled (audit_config st) = true ->
  let '(db', st', r) := record_checked digest json_object db st ev f ts in
  let violation := bool_decide (ae_type ev = SecurityViolation) in
  let count := as_u32 (violation_count st + 1) in
  let alarm := violation && (alarm_threshold (audit_config st) <=? count) in
  let written := exists k row, audit_rows db' = drop k (audit_rows db) ++ [row] /\
    (k = 0%nat \/ overflow_policy (audit_config st) = DropOldest) /\
    row_of json_object ev ts row in
  match r with
  | Ok _ =>
      halted st = false /\ written /\
      violation_count st' = (if violation then count
        else if bool_decide (ae_type ev = AuthSuccess) then 0 else violation_count st) /\
      halted st' = alarm && String.eqb (alarm_action (audit_config st)) "halt"
  | Err e =>
      (db' = db \/ written /\ alarm = true /\ exists e', f_syslog f = Some e') /\
      (overflow_policy (audit_config st) = Halt -> halted st' = true) /\
      (halted st = true -> db' = db /\ halted st' = true)
  | Panic => False
  end.
Proof.
  intros Hi Hen. unfold record_checked, record_inner, is_halted. rewrite Hen. cbn [negb].
  destruct (halted st) eqn:Hh; [split; [by left|split; [apply latch_halts|]]; intros _;
    split; [done|]; unfold latch; by case_bool_decide|].
  destruct (f_begin f); [split; [by left|by split; [apply latch_halts|]]|].
  destruct (write_event digest json_object db st ev f ts) as [db1 [[]|e|]] eqn:Ew;
    [|split; [by left|by split; [apply latch_halts|]]|by apply write_event_panics in Ew].
  destruct (f_commit f); [split; [by left|by split; [apply latch_halts|]]|].
  apply write_event_written in Ew; [|done].
  destruct (track_violations st ev f) as [st1 [[]|e|]] eqn:Et; unfold track_violations in Et;
    repeat case_bool_decide; simpl in *; split_cases_in Et; simplify_eq; simpl; auto 6.
  split; [right; by eauto|]. split; [intros Hp; by rewrite bool_decide_eq_true_2|done].
Qed.

(** ** Examples *)

(** A digest that tells inputs of different lengths apart. *)
Fixpoint unary (n : nat) : string :=
  match n with
  | O => EmptyString
  | S n' => String "x" (unary n')
  end.
Definition example_digest (key : option bytes) (x : bytes) : string :=
  String "h" (unary (length x)).
Definition example_json (l : list (string * string)) : string :=
  String.concat "," (map (fun kv => kv.1 +:+ "=" +:+ kv.2) l).

Lemma unary_clean n : clean (unary n).
Proof.
  unfold clean. induction n as [|n IH]; simpl; [apply not_elem_of_nil|].
  apply not_elem_of_cons. by split.
Qed.

Lemma example_digest_clean key x :
  clean (example_digest key x) /\ example_digest key x <> EmptyString.
Proof.
  split; [|done]. unfold clean. simpl. apply not_elem_of_cons. split; [done|].
  apply unary_clean.
Qed.

Definition example_event (detail : string) : AuditEvent :=
  with_detail (audit_event_new AdminAction) detail.
Definition limited (policy : OverflowPolicy) (n : Z) : AuditConfig :=
  MkAuditConfig true default_log_path false None Daily default_max_file_size
    default_retention_count true policy (Some n) 1 "halt" [] None.

(** Two processes, the second with a row limit it respects by halting; an
    insert of the first fails once. *)
Definition example_audit : list (nat * audit_op) :=
  [(0%nat, AuditRecord (example_event "a") no_faults "t0");
   (1%nat, AuditIssue [("ca", "1", "t1"); ("ca", "22", "t2")] no_faults);
   (0%nat, AuditRecord (example_event "b")
      (MkFaults None None None None (fun _ => None) None (Some "disk") None None) "t3");
   (1%nat, AuditRecord (example_event "cc") no_faults "t4")].

Lemma audit_chain_verifies_witness :
  let sts := [audit_state_new; audit_with_config (limited Halt 3)] in
  let db := (audit_run example_digest example_json sts (example_audit ++ [])).1 in
  length (audit_rows db) = 3%nat /\
  verify_chain example_digest db audit_state_new = MkReport 3 true None None.
Proof.
  intros sts db. assert (Hl : length (audit_rows db) = 3%nat) by (vm_compute; reflexivity).
  split; [exact Hl|].
  destruct (audit_chain_verifies example_digest example_json None sts example_audit []) as [H _].
  - apply Forall_cons. split; [split; [reflexivity|left; reflexivity]|].
    apply Forall_cons. split; [split; [reflexivity|right; reflexivity]|]. constructor.
  - specialize (H audit_state_new eq_refl). fold db in H. rewrite Hl in H. exact H.
Defined.

Lemma audit_tamper_evident_witness :
  let rows := audit_rows
    (audit_run example_digest example_json [audit_state_new] example_audit).1 in
  Forall2 same_record rows rows \/
  exists x y, x <> y /\ example_digest None x = example_digest None y.
Proof.
  intros rows.
  apply (audit_tamper_evident example_digest example_digest_clean audit_state_new
    rows rows 9 9).
  - vm_compute. reflexivity.
  - vm_compute. reflexivity.
  - reflexivity.
  - assert (D : forallb (fun r => forallb (fun s => negb (existsb (Z.eqb RS) (bytes_of_string s)))
      (row_fields r)) (rows ++ rows) = true) by (vm_compute; reflexivity).
    apply Forall_forall. intros r Hr. apply Forall_forall. intros s Hs Hin.
    rewrite forallb_forall in D. apply list_elem_of_In in Hr. specialize (D r Hr).
    rewrite forallb_forall in D. apply list_elem_of_In in Hs. specialize (D s Hs).
    apply negb_true_iff in D. rewrite <- not_true_iff_false in D. apply D.
    apply existsb_exists. exists RS. split; [by apply list_elem_of_In|reflexivity].
Defined.

Lemma audit_rows_bounded_witness :
  let sts := [audit_with_config (limited DropOldest 2)] in
  let ops := [(0%nat, AuditRecord (example_event "a") no_faults "t0");
              (0%nat, AuditRecord (example_event "b") no_faults "t1");
              (0%nat, AuditRecord (example_event "c") no_faults "t2")] in
  let rows := audit_rows (audit_run example_digest example_json sts ops).1 in
  map ar_timestamp rows = ["t1"; "t2"] /\ Z.of_nat (length rows) <= 2.
Proof.
  intros sts ops rows. split; [vm_compute; reflexivity|].
  apply (audit_rows_bounded example_digest example_json 2 sts ops).
  - vm_compute. split; [discriminate|reflexivity].
  - repeat constructor.
Defined.

Lemma drop_oldest_breaks_chain_witness :
  let st := audit_with_config (limited DropOldest 2) in
  let db := (audit_run example_digest example_json [st]
    [(0%nat, AuditRecord (example_event "a") no_faults "t0");
     (0%nat, AuditRecord (example_event "b") no_faults "t1")]).1 in
  let db' := (write_event example_digest example_json db st (example_event "c")
    no_faults "t2").1 in
  report_ok (verify_chain example_digest db st) = true /\
  report_ok (verify_chain example_digest db' st) = false.
Proof.
  intros st db db'. split; [vm_compute; reflexivity|].
  destruct (drop_oldest_breaks_chain example_digest example_json db st (example_event "c")
    no_faults "t2" db' 2) as (r & rest & _ & _ & H & _).
  - split; [|vm_compute; repeat constructor].
    assert (E : map ar_id (audit_rows db) = [1; 2]) by (vm_compute; reflexivity). rewrite E.
    apply NoDup_cons. split; [|apply NoDup_singleton]. rewrite list_elem_of_singleton. discriminate.
  - vm_compute. reflexivity.
  - reflexivity.
  - vm_compute. split; [discriminate|reflexivity].
  - vm_compute. discriminate.
  - vm_compute. reflexivity.
  - exact H.
Defined.

(** The third violation reaches the threshold and halts. *)
Lemma record_checked_spec_witness :
  let st := MkAuditState false (limited Halt 10) 0 None in
  let r := record_checked example_digest example_json (MkAuditDb [] 1) st
    (audit_event_new SecurityViolation) no_faults "t0" in
  r.2 = Ok tt /\ halted r.1.2 = true.
Proof.
  intros st r. assert (E : r.2 = Ok tt) by (vm_compute; reflexivity). split; [exact E|].
  pose proof (record_checked_spec example_digest example_json (MkAuditDb [] 1) st
    (audit_event_new SecurityViolation) no_faults "t0") as H. fold r in H.
  destruct r as [[db' st'] x]. simpl in E. subst x.
  destruct H as (_ & _ & _ & H); [split; constructor|reflexivity|]. simpl. rewrite H.
  vm_compute. reflexivity.
Defined.
