(* ===== verification/Calendar.v ===== *)
(** * Dates and times of day

    The proleptic Gregorian calendar of [chrono::NaiveDate] and the
    [DateTime<Utc>] values the program builds and takes apart: a date is a
    number of days since 1970-01-01, an instant a number of nanoseconds.
    The conversions are closed formulas; [civil_from_days_next] says that
    they are the calendar. *)
From S2P Require Import Prelude Words Text.
Open Scope Z_scope.

Definition DAY_NS : Z := 86400 * SECS.

Definition is_leap (y : Z) : bool :=
  (y mod 4 =? 0) && (negb (y mod 100 =? 0) || (y mod 400 =? 0)).

Definition days_in_month (y m : Z) : Z :=
  if m =? 2 then if is_leap y then 29 else 28
  else if (m =? 4) || (m =? 6) || (m =? 9) || (m =? 11) then 30 else 31.

Definition valid_date (y m d : Z) : bool :=
  (1 <=? m) && (m <=? 12) && (1 <=? d) && (d <=? days_in_month y m).

(** Years start in March: a leap day is the last day of its year. *)
Definition day_of_era (yoe m d : Z) : Z :=
  let doy := (153 * (if m <=? 2 then m + 9 else m - 3) + 2) / 5 + d - 1 in
  yoe * 365 + yoe / 4 - yoe / 100 + doy.

Definition days_from_civil (y m d : Z) : Z :=
  let y' := if m <=? 2 then y - 1 else y in
  y' / 400 * 146097 + day_of_era (y' mod 400) m d - 719468.

(** Year (from March) in the era, month and day of a day of the era. *)
Definition civil_of_doe (doe : Z) : Z * Z * Z :=
  let yoe := (doe - doe / 1460 + doe / 36524 - doe / 146096) / 365 in
  let doy := doe - (365 * yoe + yoe / 4 - yoe / 100) in
  let mp := (5 * doy + 2) / 153 in
  (yoe, if mp <? 10 then mp + 3 else mp - 9, doy - (153 * mp + 2) / 5 + 1).

Definition civil_from_days (z : Z) : Z * Z * Z :=
  let z := z + 719468 in
  let '(yoe, m, d) := civil_of_doe (z mod 146097) in
  (yoe + z / 146097 * 400 + (if m <=? 2 then 1 else 0), m, d).

(** [NaiveDate::from_ymd_opt], as its number of days *)
Definition from_ymd_opt (y m d : Z) : option Z :=
  if valid_date y m d then Some (days_from_civil y m d) else None.

(** [NaiveDate::and_hms_opt] and [and_utc]: the instant. *)
Definition and_hms_opt (day h mi s : Z) : option Z :=
  if (h <? 24) && (mi <? 60) && (s <? 60)
  then Some (day * DAY_NS + (h * 3600 + mi * 60 + s) * SECS) else None.

(** [DateTime::date_naive] *)
Definition date_naive (t : Z) : Z := t / DAY_NS.

(** Second of the day. *)
Definition second_of_day (t : Z) : Z := (t mod DAY_NS) / SECS.

(** [n] digits at least, with leading zeros. *)
Fixpoint zeros (n : nat) : string :=
  match n with O => EmptyString | S n' => "0" +:+ zeros n' end.
Definition pad (n : nat) (z : Z) : string :=
  zeros (n - String.length (pretty z)) +:+ pretty z.

(** [%Y]: years outside 0 to 9999 carry a sign. *)
Definition format_year (y : Z) : string :=
  if (0 <=? y) && (y <=? 9999) then pad 4 y
  else if y <? 0 then "-" +:+ pad 4 (- y) else "+" +:+ pad 4 y.

(** [DateTime::format] with "%Y-%m-%dT%H:%M:%SZ" *)
Definition format_utc (t : Z) : string :=
  let '(y, m, d) := civil_from_days (date_naive t) in
  let s := second_of_day t in
  format_year y +:+ "-" +:+ pad 2 m +:+ "-" +:+ pad 2 d +:+ "T" +:+ pad 2 (s / 3600) +:+ ":" +:+
  pad 2 (s / 60 mod 60) +:+ ":" +:+ pad 2 (s mod 60) +:+ "Z".

(** ** The formulas are the calendar *)

Definition next_day (c : Z * Z * Z) : Z * Z * Z :=
  let '(y, m, d) := c in
  if d <? days_in_month y m then (y, m, d + 1)
  else if m <? 12 then (y, m + 1, 1)
  else (y + 1, 1, 1).

(** Days of an era before a year of it, in years from March. *)
Definition year_start (yoe : Z) : Z := yoe * 365 + yoe / 4 - yoe / 100.
Definition year_of_doe (doe : Z) : Z := (doe - doe / 1460 + doe / 36524 - doe / 146096) / 365.
Definition year_end (yoe : Z) : Z := if yoe =? 399 then 146097 else year_start (yoe + 1).

Fixpoint check_from (n : nat) (p : Z -> bool) (i : Z) : bool :=
  match n with
  | O => true
  | S n' => p i && check_from n' p (i + 1)
  end.

Lemma check_from_all n p i j : check_from n p i = true -> i <= j < i + Z.of_nat n -> p j = true.
Proof.
  revert i. induction n as [|n IH]; intros i Hc Hj; [lia|].
  simpl in Hc. apply andb_true_iff in Hc as [H1 H2].
  destruct (decide (j = i)) as [->|]; [done|]. apply (IH (i + 1)); [done|lia].
Qed.

Lemma year_of_doe_mono a b : 0 <= a <= b -> b < 146097 -> year_of_doe a <= year_of_doe b.
Proof.
  intros Hab Hb. unfold year_of_doe. apply Z.div_le_mono; [lia|].
  assert (Hstep : forall n, a <= n < 146096 ->
    n - n / 1460 + n / 36524 - n / 146096 <=
    (n + 1) - (n + 1) / 1460 + (n + 1) / 36524 - (n + 1) / 146096).
  { intros n Hn. Z.to_euclidean_division_equations. lia. }
  assert (Hind : forall k : nat, a + Z.of_nat k < 146097 ->
    a - a / 1460 + a / 36524 - a / 146096 <=
    (a + Z.of_nat k) - (a + Z.of_nat k) / 1460 + (a + Z.of_nat k) / 36524
      - (a + Z.of_nat k) / 146096).
  { induction k as [|k IH]; intros Hk; [rewrite Z.add_0_r; lia|].
    etransitivity; [apply IH; lia|].
    replace (a + Z.of_nat (S k)) with (a + Z.of_nat k + 1) by lia. apply Hstep. lia. }
  specialize (Hind (Z.to_nat (b - a))). rewrite Z2Nat.id in Hind by lia.
  replace (a + (b - a)) with b in Hind by lia. apply Hind. lia.
Qed.

Lemma year_of_doe_ends yoe : 0 <= yoe < 400 ->
  year_of_doe (year_start yoe) = yoe /\ year_of_doe (year_end yoe - 1) = yoe /\
  0 <= year_start yoe < year_end yoe /\ year_end yoe <= 146097 /\
  year_end yoe - year_start yoe = (if is_leap (yoe + 1) then 366 else 365).
Proof.
  intros H.
  assert (Hc : check_from 400 (fun y => (year_of_doe (year_start y) =? y) &&
    (year_of_doe (year_end y - 1) =? y) && (0 <=? year_start y) &&
    (year_start y <? year_end y) && (year_end y <=? 146097) &&
    (year_end y - year_start y =? (if is_leap (y + 1) then 366 else 365))) 0 = true)
    by (vm_compute; reflexivity).
  pose proof (check_from_all _ _ _ yoe Hc ltac:(lia)) as Hy. cbv beta in Hy. breflect. lia.
Qed.

(** A day of the era is a day of one of its years. *)
Lemma year_of_doe_spec doe : 0 <= doe < 146097 ->
  let yoe := year_of_doe doe in
  0 <= yoe < 400 /\ year_start yoe <= doe < year_end yoe.
Proof.
  intros Hd yoe.
  assert (Hy : 0 <= yoe < 400).
  { split; [unfold yoe, year_of_doe; Z.to_euclidean_division_equations; lia|].
    unfold yoe. pose proof (year_of_doe_mono doe 146096 ltac:(lia) ltac:(lia)) as Hm.
    change (year_of_doe 146096) with 399 in Hm. lia. }
  split; [done|]. destruct (year_of_doe_ends yoe Hy) as (E1 & E2 & H1 & H2 & _). split.
  - destruct (decide (year_start yoe <= doe)) as [|Hlt]; [done|exfalso].
    assert (Hyp : 0 < yoe) by (destruct (decide (yoe = 0)) as [E|]; [|lia];
      rewrite E in Hlt; change (year_start 0) with 0 in Hlt; lia).
    destruct (year_of_doe_ends (yoe - 1) ltac:(lia)) as (_ & E2' & _ & H2' & _).
    unfold year_end in E2', H2'. destruct (Z.eqb_spec (yoe - 1) 399); [lia|].
    replace (yoe - 1 + 1) with yoe in E2', H2' by lia.
    pose proof (year_of_doe_mono doe (year_start yoe - 1) ltac:(lia) ltac:(lia)). unfold yoe in *. lia.
  - destruct (decide (doe < year_end yoe)) as [|Hge]; [done|exfalso].
    unfold year_end in Hge. destruct (Z.eqb_spec yoe 399); [lia|].
    destruct (year_of_doe_ends (yoe + 1) ltac:(lia)) as (E1' & _ & H1' & _).
    pose proof (year_of_doe_mono (year_start (yoe + 1)) doe ltac:(lia) ltac:(lia)).
    unfold yoe in *. lia.
Qed.

(** Month and day of a day of the year. *)
Definition month_day (doy : Z) : Z * Z :=
  let mp := (5 * doy + 2) / 153 in
  (if mp <? 10 then mp + 3 else mp - 9, doy - (153 * mp + 2) / 5 + 1).
Definition day_of_year (m d : Z) : Z := (153 * (if m <=? 2 then m + 9 else m - 3) + 2) / 5 + d - 1.

(** Checked for the two lengths of a year; [m <= 2] is in the next one. *)
Definition check_doy (leap : bool) (doy : Z) : bool :=
  let '(m, d) := month_day doy in
  let len (m : Z) : Z := if (m =? 2) && leap then 29 else if m =? 2 then 28
    else if (m =? 4) || (m =? 6) || (m =? 9) || (m =? 11) then 30 else 31 in
  (1 <=? m) && (m <=? 12) && (1 <=? d) && (d <=? len m) && (day_of_year m d =? doy) &&
  bool_decide ((if d <? len m then (m, d + 1) else if m <? 12 then (m + 1, 1) else (1, 1)) =
    if doy + 1 <? (if leap then 366 else 365) then month_day (doy + 1) else (3, 1)).

Lemma check_doy_all (leap : bool) doy : 0 <= doy < (if leap then 366 else 365) ->
  check_doy leap doy = true.
Proof.
  intros H. destruct leap.
  - apply (check_from_all 366 (check_doy true) 0); [vm_compute; reflexivity|lia].
  - apply (check_from_all 365 (check_doy false) 0); [vm_compute; reflexivity|lia].
Qed.

Lemma is_leap_era y k : is_leap (y + k * 400) = is_leap y.
Proof.
  unfold is_leap.
  replace ((y + k * 400) mod 4) with (y mod 4) by (Z.to_euclidean_division_equations; lia).
  replace ((y + k * 400) mod 100) with (y mod 100) by (Z.to_euclidean_division_equations; lia).
  by rewrite Z.mod_add by lia.
Qed.

(** A date taken apart: era, year of the era, day of the year. *)
Lemma civil_from_days_split era yoe doy :
  0 <= yoe < 400 -> 0 <= doy < year_end yoe - year_start yoe ->
  civil_from_days (era * 146097 + year_start yoe + doy - 719468) =
  let '(m, d) := month_day doy in
  (yoe + era * 400 + (if m <=? 2 then 1 else 0), m, d).
Proof.
  intros Hy Hd. destruct (year_of_doe_ends yoe Hy) as (E1 & E2 & H1 & H2 & _).
  unfold civil_from_days. cbv zeta.
  replace (era * 146097 + year_start yoe + doy - 719468 + 719468)
    with (year_start yoe + doy + era * 146097) by lia.
  rewrite Z.mod_add, Z.div_add, Z.mod_small, Z.div_small by lia.
  assert (E : year_of_doe (year_start yoe + doy) = yoe).
  { pose proof (year_of_doe_mono (year_start yoe) (year_start yoe + doy) ltac:(lia) ltac:(lia)).
    pose proof (year_of_doe_mono (year_start yoe + doy) (year_end yoe - 1) ltac:(lia) ltac:(lia)).
    lia. }
  unfold civil_of_doe. fold (year_of_doe (year_start yoe + doy)). rewrite E. cbv zeta.
  replace (year_start yoe + doy - (365 * yoe + yoe / 4 - yoe / 100)) with doy
    by (unfold year_start; lia).
  unfold month_day. cbv zeta. done.
Qed.

Lemma day_split z : exists era yoe doy,
  z = era * 146097 + year_start yoe + doy - 719468 /\
  0 <= yoe < 400 /\ 0 <= doy < year_end yoe - year_start yoe.
Proof.
  set (doe := (z + 719468) mod 146097).
  assert (Hd : 0 <= doe < 146097) by (apply Z.mod_pos_bound; lia).
  destruct (year_of_doe_spec doe Hd) as [Hy Hs].
  exists ((z + 719468) / 146097), (year_of_doe doe), (doe - year_start (year_of_doe doe)).
  split; [|lia]. pose proof (Z.div_mod (z + 719468) 146097 ltac:(lia)). unfold doe in *. lia.
Qed.

(** What [check_doy] says of a split date. *)
Lemma month_day_spec era yoe doy m d :
  0 <= yoe < 400 -> 0 <= doy < year_end yoe - year_start yoe -> month_day doy = (m, d) ->
  let y := yoe + era * 400 + (if m <=? 2 then 1 else 0) in
  valid_date y m d = true /\ day_of_year m d = doy /\
  next_day (y, m, d) =
    if doy + 1 <? year_end yoe - year_start yoe then
      let '(m', d') := month_day (doy + 1) in
      (yoe + era * 400 + (if m' <=? 2 then 1 else 0), m', d')
    else (yoe + era * 400 + 1, 3, 1).
Proof.
  intros Hy Hd Hmd y. destruct (year_of_doe_ends yoe Hy) as (_ & _ & _ & _ & Hlen).
  rewrite Hlen in *. pose proof (check_doy_all _ doy Hd) as Hc. unfold check_doy in Hc.
  rewrite Hmd in Hc. cbv zeta in Hc.
  apply andb_true_iff in Hc as [Hc Hn]. apply bool_decide_eq_true in Hn.
  set (len := if (m =? 2) && is_leap (yoe + 1) then 29 else _) in Hc, Hn.
  assert (El : days_in_month y m = len).
  { unfold days_in_month, len, y. destruct (Z.eqb_spec m 2) as [->|]; [|done].
    change (2 <=? 2) with true. cbv iota.
    replace (yoe + era * 400 + 1) with (yoe + 1 + era * 400) by lia.
    rewrite is_leap_era. by destruct (is_leap (yoe + 1)). }
  assert (Hm3 : forall i, 0 < i < (if is_leap (yoe + 1) then 366 else 365) -> month_day i <> (3, 1)).
  { intros i Hi E. pose proof (check_doy_all _ i ltac:(split; [lia|apply Hi])) as Hi'.
    unfold check_doy in Hi'. rewrite E in Hi'. cbv zeta in Hi'. breflect.
    change (day_of_year 3 1) with 0 in *. lia. }
  unfold valid_date. rewrite El. clearbody len. breflect.
  split; [repeat (apply andb_true_iff; split); apply Z.leb_le; lia|]. split; [done|].
  unfold next_day. rewrite El. destruct (Z.ltb_spec (doy + 1) (if is_leap (yoe + 1) then 366 else 365))
    as [Hlt|Hge].
  - specialize (Hm3 (doy + 1) ltac:(lia)). destruct (month_day (doy + 1)) as [m' d'].
    destruct (d <? len); [by simplify_eq|].
    destruct (Z.ltb_spec m 12); simplify_eq; unfold y.
    + f_equal. f_equal. destruct (Z.leb_spec m 2), (Z.leb_spec (m + 1) 2); [lia| |lia|lia].
      assert (m = 2) as -> by lia. by destruct Hm3.
    + f_equal. f_equal. change (1 <=? 2) with true. destruct (Z.leb_spec m 2); lia.
  - destruct (d <? len); [simplify_eq; lia|]. destruct (m <? 12); [|done]. simplify_eq.
    assert (m = 2) as -> by lia. done.
Qed.

(** Dates are the days since the epoch. *)
Lemma days_from_civil_from_days z :
  let '(y, m, d) := civil_from_days z in valid_date y m d = true /\ days_from_civil y m d = z.
Proof.
  destruct (day_split z) as (era & yoe & doy & -> & Hy & Hd).
  rewrite civil_from_days_split by done. destruct (month_day doy) as [m d] eqn:Hmd.
  destruct (month_day_spec era yoe doy m d Hy Hd Hmd) as (Hv & Hdoy & _). split; [done|].
  unfold days_from_civil, day_of_era. cbv zeta.
  replace (if m <=? 2 then yoe + era * 400 + (if m <=? 2 then 1 else 0) - 1
    else yoe + era * 400 + (if m <=? 2 then 1 else 0)) with (yoe + era * 400)
    by (destruct (m <=? 2); lia).
  rewrite Z.div_add, Z.mod_add, Z.div_small, Z.mod_small by lia.
  unfold day_of_year, year_start in *. lia.
Qed.

(** The formulas count the days of the Gregorian calendar. *)
Lemma civil_from_days_next z :
  civil_from_days 0 = (1970, 1, 1) /\ civil_from_days (z + 1) = next_day (civil_from_days z).
Proof.
  split; [reflexivity|]. destruct (day_split z) as (era & yoe & doy & -> & Hy & Hd).
  rewrite civil_from_days_split by done. destruct (month_day doy) as [m d] eqn:Hmd.
  destruct (month_day_spec era yoe doy m d Hy Hd Hmd) as (_ & _ & ->).
  destruct (Z.ltb_spec (doy + 1) (year_end yoe - year_start yoe)) as [Hlt|Hge].
  - rewrite <- civil_from_days_split by lia. f_equal. lia.
  - unfold year_end in *. destruct (Z.eqb_spec yoe 399) as [->|Hne].
    + change (year_start 399) with 145731 in *.
      replace (era * 146097 + 145731 + doy - 719468 + 1)
        with ((era + 1) * 146097 + year_start 0 + 0 - 719468)
        by (change (year_start 0) with 0; lia).
      rewrite civil_from_days_split by (try done; vm_compute; by split). simpl. f_equal. f_equal. lia.
    + destruct (year_of_doe_ends (yoe + 1) ltac:(lia)) as (_ & _ & Hlt' & _).
      replace (era * 146097 + year_start yoe + doy - 719468 + 1)
        with (era * 146097 + year_start (yoe + 1) + 0 - 719468) by lia.
      rewrite civil_from_days_split by lia. simpl. f_equal. f_equal. lia.
Qed.
