(* ===== verification/X509.v ===== *)
(** * The X.509 library as the program sees it

    The crate [synta_certificate] parses and builds certificates and
    requests and verifies signatures; the program only reads fields and
    calls functions.  The class [X509Lib] has one operation per field or
    function the program uses; a result of the library is a sum with the
    text of its error on the right.  [src/auth/certificate.rs] is
    translated over it.  [TimeLaws] is what the program relies on about
    the two time types. *)
From S2P Require Import Prelude Words Text Calendar.
Open Scope Z_scope.

(** Object identifiers, by their components. *)
Abbreviation oid := (list Z).
(** [oid.to_string()] *)
Definition oid_to_string (o : oid) : string := join "." (map pretty o).

(** A result of the library, with an error mapped as [map_err] does. *)
Definition of_lib {T E} (f : string -> E) (r : T + string) : outcome T E :=
  match r with
  | inl t => Ok t
  | inr e => Err (f e)
  end.

(** [Time::UtcTime], [Time::GeneralTime]: year, month, day, hour, minute,
    second. *)
Inductive CertTime : Type :=
  | UtcTime (year month day hour minute second : Z)
  | GeneralTime (year month day hour minute second : Z).

Inductive PublicKeyInfo : Type :=
  | Rsa (bit_count : Z)
  | Ec (bit_count : Z) (curve_nist_name : option string)
  | UnknownKey (alg_name : string) (bit_count : Z).

(** An [Extension] of a certificate or a request: identifier, the
    [critical] field if present, value. *)
Abbreviation RawExtension := (oid * option bool * bytes)%type.
(** With the default of [critical] resolved. *)
Abbreviation Extension := (oid * bool * bytes)%type.

(** What [CertificateBuilder] was given. *)
Record TbsTemplate : Type := MkTbs {
  b_issuer : bytes;
  b_subject : bytes;
  b_spki : bytes;
  b_serial : bytes;   (* as given to Integer::from_unsigned_bytes *)
  b_not_before : CertTime;
  b_not_after : CertTime;
  b_extensions : list Extension
}.
Definition add_extension (t : TbsTemplate) (e : Extension) : TbsTemplate :=
  MkTbs (b_issuer t) (b_subject t) (b_spki t) (b_serial t) (b_not_before t) (b_not_after t)
    (b_extensions t ++ [e]).

(** The trait [CertificateSigner]. *)
Record CertificateSigner : Type := MkSigner {
  signature_algorithm_der : bytes + string;
  sign_tbs : bytes -> bytes + string
}.

(** The purposes [ExtendedKeyUsageBuilder] has a method for. *)
Inductive KeyPurpose : Type :=
  | ServerAuth | ClientAuth | CodeSigning | EmailProtection | TimeStamping | OcspSigning.

Class X509Lib : Type := {
  (** requests *)
  Csr : Type;
  csr_from_der : bytes -> Csr + string;
  csr_subject : Csr -> bytes + string;
  csr_spki : Csr -> bytes + string;
  csr_cri : Csr -> bytes + string;
  csr_signature_algorithm : Csr -> bytes + string;
  csr_signature : Csr -> bytes;
  csr_key_algorithm : Csr -> oid;
  csr_public_key_info : Csr -> PublicKeyInfo;
  csr_attributes : Csr -> option (list (oid * list bytes));
  decode_extensions : bytes -> list RawExtension + string;
  find_extension_value : bytes -> oid -> option bytes;
  parse_general_names : bytes -> list (Z * bytes);
  build_cri : bytes -> bytes -> list Extension -> bytes -> bytes + string;
  assemble_csr : bytes -> bytes -> bytes -> bytes + string;
  (** certificates *)
  Cert : Type;
  cert_from_der : bytes -> Cert + string;
  cert_subject : Cert -> bytes;
  cert_issuer : Cert -> bytes;
  cert_spki : Cert -> bytes + string;
  cert_not_before : Cert -> CertTime;
  cert_not_after : Cert -> CertTime;
  cert_signature : Cert -> bytes;
  (** the encoded tbsCertificate, signature algorithm and public key *)
  cert_ranges : bytes -> option (bytes * bytes * bytes);
  (** names, keys, signatures *)
  parse_name_attrs : bytes -> list (string * string);
  format_dn : bytes -> string;
  identify_public_key_algorithm : oid -> option string;
  verify_signature : bytes -> bytes -> bytes -> bytes -> unit + string;
  (** times *)
  utc_time_new : Z -> Z -> Z -> Z -> Z -> Z -> CertTime + string;
  generalized_time_new : Z -> Z -> Z -> Z -> Z -> Z -> CertTime + string;
  (** extension values *)
  encode_basic_constraints : bool -> option Z -> option bytes;
  encode_key_usage : Z -> option bytes;
  build_extended_key_usage : list KeyPurpose -> bytes + string;
  build_certificate_policies : list (list Z) -> bytes + string;
  encode_subject_key_identifier : bytes -> option bytes;
  encode_authority_key_identifier : bytes -> option bytes;
  build_ocsp_access : string -> bytes + string;
  build_crl_distribution : string -> bytes + string;
  (** constants *)
  SUBJECT_ALT_NAME : oid;
  BASIC_CONSTRAINTS : oid;
  KEY_USAGE : oid;
  EXTENDED_KEY_USAGE : oid;
  CERTIFICATE_POLICIES : oid;
  SUBJECT_KEY_IDENTIFIER : oid;
  AUTHORITY_KEY_IDENTIFIER : oid;
  AUTHORITY_INFO_ACCESS : oid;
  CRL_DISTRIBUTION_POINTS : oid;
  PKCS9_EXTENSION_REQUEST : oid;
  KEY_USAGE_DIGITAL_SIGNATURE : Z;
  KEY_USAGE_NON_REPUDIATION : Z;
  KEY_USAGE_KEY_ENCIPHERMENT : Z;
  KEY_USAGE_DATA_ENCIPHERMENT : Z;
  KEY_USAGE_KEY_AGREEMENT : Z;
  ML_KEM_512 : string;
  ML_KEM_768 : string;
  ML_KEM_1024 : string;
  (** private keys; a signature can be randomized *)
  PrivateKey : Type;
  Coins : Type;
  key_from_pem : bytes -> PrivateKey + string;
  as_signer : Coins -> PrivateKey -> string -> CertificateSigner;
  build_and_sign : TbsTemplate -> CertificateSigner -> bytes + string;
  (** [hex::encode] *)
  hex_encode : bytes -> string
}.

(** The constructors keep the components of a time that exists and that
    their type can express (RFC 5280 section 4.1.2.5). *)
Class TimeLaws `{X509Lib} : Prop := {
  utc_time_new_ok y m d h n s :
    1950 <= y < 2050 -> valid_date y m d = true -> 0 <= h < 24 -> 0 <= n < 60 -> 0 <= s < 60 ->
    utc_time_new y m d h n s = inl (UtcTime y m d h n s);
  generalized_time_new_ok y m d h n s :
    0 <= y <= 9999 -> valid_date y m d = true -> 0 <= h < 24 -> 0 <= n < 60 -> 0 <= s < 60 ->
    generalized_time_new y m d h n s = inl (GeneralTime y m d h n s)
}.

(** The identifiers of the extensions are different. *)
Class OidLaws `{X509Lib} : Prop := {
  oids_distinct : NoDup
    [SUBJECT_ALT_NAME; BASIC_CONSTRAINTS; KEY_USAGE; EXTENDED_KEY_USAGE; CERTIFICATE_POLICIES;
     SUBJECT_KEY_IDENTIFIER; AUTHORITY_KEY_IDENTIFIER; AUTHORITY_INFO_ACCESS;
     CRL_DISTRIBUTION_POINTS; [1; 3; 6; 1; 5; 5; 7; 1; 24]]
}.

(** ** [src/auth/certificate.rs] *)

Section Certificate.
Context `{X509Lib}.

(** [certificate::time] *)
Definition time (t : CertTime) : outcome Z string :=
  let '(y, m, d, h, n, s) :=
    match t with
    | UtcTime y m d h n s => (y, m, d, h, n, s)
    | GeneralTime y m d h n s => (y, m, d, h, n, s)
    end in
  ok_or (match from_ymd_opt y m d with
         | Some day => and_hms_opt day h n s
         | None => None
         end) "invalid certificate time".

Definition valid_now (now : Z) (der : bytes) : outcome unit string :=
  let? cert := of_lib id (cert_from_der der) in
  let? nb := time (cert_not_before cert) in
  if now <? nb then Err "certificate outside validity period"
  else
    let? na := time (cert_not_after cert) in
    if na <? now then Err "certificate outside validity period" else Ok tt.

Definition issued_by_check (der issuer : bytes) : outcome unit string :=
  let? c := of_lib id (cert_from_der der) in
  let? i := of_lib id (cert_from_der issuer) in
  if negb (bool_decide (cert_issuer c = cert_subject i)) then Err "issuer name mismatch"
  else
    let? r := ok_or (cert_ranges der) "invalid certificate" in
    let? ir := ok_or (cert_ranges issuer) "invalid issuer" in
    of_lib id (verify_signature r.1.1 r.1.2 (cert_signature c) ir.2).
Definition issued_by (der issuer : bytes) : bool :=
  match issued_by_check der issuer with Ok _ => true | _ => false end.

(** The certificates of the CAs' chains, then those of each file that can
    be read: the server's trust anchors and the administrators'. *)
Definition issuer_for (chains : list (list bytes)) (ca_file : string)
    (admin_ca_file : option string) (read_certs : string -> option (list bytes)) (der : bytes)
  : outcome bytes string :=
  let paths := ca_file :: match admin_ca_file with Some p => [p] | None => [] end in
  let from_file p :=
    if is_empty p then [] else default [] (read_certs p) in
  ok_or (List.find (issued_by der) (concat chains ++ concat (map from_file paths)))
    "no verified issuer for certificate".

(** [chrono_to_synta_time] of [src/ca/issue.rs].  The components go
    through text; a year that is no [u16] becomes 2024. *)
Definition chrono_to_synta_time (dt : Z) : outcome CertTime string :=
  let '(y, m, d) := civil_from_days (date_naive dt) in
  let year := if (0 <=? y) && (y <=? 65535) then y else 2024 in
  let s := second_of_day dt in
  if year <? 2050 then
    of_lib (fun e => "UtcTime creation failed: " +:+ e)
      (utc_time_new year m d (s / 3600) (s / 60 mod 60) (s mod 60))
  else
    of_lib (fun e => "GeneralizedTime creation failed: " +:+ e)
      (generalized_time_new year m d (s / 3600) (s / 60 mod 60) (s mod 60)).

(** ** Lemmas *)

Lemma of_lib_Ok {T E} (f : string -> E) (r : T + string) t : of_lib f r = Ok t <-> r = inl t.
Proof. destruct r; simpl; naive_solver. Qed.

Lemma of_lib_returns {T E} (f : string -> E) (r : T + string) : returns (of_lib f r).
Proof. by destruct r. Qed.

Lemma valid_now_Ok now der :
  valid_now now der = Ok tt <->
  exists cert nb na, cert_from_der der = inl cert /\ time (cert_not_before cert) = Ok nb /\
    time (cert_not_after cert) = Ok na /\ nb <= now <= na.
Proof.
  unfold valid_now. destruct (cert_from_der der) as [cert|e]; simpl.
  2: { split; [done|]. by intros (? & ? & ? & ? & _). }
  split.
  - intros E. inv_ok E. case_in E; [done|]. inv_ok E. case_in E; [done|].
    do 3 eexists. split_and!; try done; blia.
  - intros (c & nb & na & [= <-] & -> & -> & Hle). simpl.
    by rewrite (proj2 (Z.ltb_ge _ _)), (proj2 (Z.ltb_ge _ _)) by lia.
Qed.

Lemma time_of_civil (t : Z) y m d :
  civil_from_days (date_naive t) = (y, m, d) ->
  let s := second_of_day t in
  0 <= s / 3600 < 24 /\ 0 <= s / 60 mod 60 < 60 /\ 0 <= s mod 60 < 60 /\
  time (UtcTime y m d (s / 3600) (s / 60 mod 60) (s mod 60)) = Ok (t / SECS * SECS).
Proof.
  intros Hc s. pose proof (days_from_civil_from_days (date_naive t)) as Hd. rewrite Hc in Hd.
  destruct Hd as [Hv Hd].
  assert (Hs : 0 <= s < 86400).
  { unfold s, second_of_day, DAY_NS, SECS. Z.to_euclidean_division_equations. lia. }
  assert (H1 : 0 <= s / 3600 < 24) by (Z.to_euclidean_division_equations; lia).
  assert (H2 : 0 <= s / 60 mod 60 < 60) by (apply Z.mod_pos_bound; lia).
  assert (H3 : 0 <= s mod 60 < 60) by (apply Z.mod_pos_bound; lia).
  split_and!; try lia.
  unfold time, from_ymd_opt. rewrite Hv, Hd. unfold and_hms_opt.
  rewrite !(proj2 (Z.ltb_lt _ _)) by lia. simpl. f_equal.
  unfold s, second_of_day, date_naive, DAY_NS, SECS. Z.to_euclidean_division_equations. lia.
Qed.

(** A certificate's time is the instant it was made from, in whole seconds. *)
Lemma chrono_to_synta_time_round_trip `{!TimeLaws} t st :
  (1950 <= (civil_from_days (date_naive t)).1.1 <= 9999) ->
  chrono_to_synta_time t = Ok st -> time st = Ok (t / SECS * SECS).
Proof.
  unfold chrono_to_synta_time.
  destruct (civil_from_days (date_naive t)) as [[y m] d] eqn:Hc. simpl. intros Hy.
  destruct (time_of_civil t y m d Hc) as (H1 & H2 & H3 & Ht).
  pose proof (days_from_civil_from_days (date_naive t)) as Hd. rewrite Hc in Hd. destruct Hd as [Hv _].
  rewrite (proj2 (Z.leb_le 0 y)), (proj2 (Z.leb_le y 65535)) by lia. simpl.
  destruct (Z.ltb_spec y 2050).
  - rewrite utc_time_new_ok by (done || lia). by intros [= <-].
  - rewrite generalized_time_new_ok by (done || lia). by intros [= <-].
Qed.

(** And every instant of those years has one. *)
Lemma chrono_to_synta_time_total `{!TimeLaws} t :
  (1950 <= (civil_from_days (date_naive t)).1.1 <= 9999) ->
  exists st, chrono_to_synta_time t = Ok st.
Proof.
  unfold chrono_to_synta_time.
  destruct (civil_from_days (date_naive t)) as [[y m] d] eqn:Hc. simpl. intros Hy.
  destruct (time_of_civil t y m d Hc) as (H1 & H2 & H3 & _).
  pose proof (days_from_civil_from_days (date_naive t)) as Hd. rewrite Hc in Hd. destruct Hd as [Hv _].
  rewrite (proj2 (Z.leb_le 0 y)), (proj2 (Z.leb_le y 65535)) by lia. simpl.
  destruct (Z.ltb_spec y 2050).
  - rewrite utc_time_new_ok by (done || lia). by eexists.
  - rewrite generalized_time_new_ok by (done || lia). by eexists.
Qed.
End Certificate.
