(* ===== verification/Hsm.v ===== *)
(** * Access to hardware security modules

    The crate [kipuka_hsm] (crates/kipuka-hsm/src): slots, key pairs, the
    URIs that name keys, signing, and the keys of TLS servers.  The crates
    [cryptoki] (PKCS#11) and [openssl] are interfaces.  A session is used
    under a lock that nothing panics with. *)
From S2P Require Import Prelude Words Text X509.
Open Scope Z_scope.

(** ** What the libraries have *)

Inductive ObjectClass : Type := PRIVATE_KEY | PUBLIC_KEY.
Inductive KeyType : Type := KEY_ML_DSA | KEY_ML_KEM.
Inductive ParameterSet : Type := ML_DSA_44 | ML_DSA_65 | ML_DSA_87 | ML_KEM_512 | ML_KEM_768 | ML_KEM_1024.
(** [cryptoki::object::Attribute], as far as it is used. *)
Inductive Attribute : Type :=
  | Token (b : bool) | Private (b : bool) | Sensitive (b : bool) | Extractable (b : bool)
  | Encrypt (b : bool) | Decrypt (b : bool) | Sign (b : bool) | Verify (b : bool)
  | Label (l : bytes) | Id (i : bytes) | Class_ (c : ObjectClass) | Value (v : bytes)
  | ModulusBits (n : Z) | PublicExponent (e : bytes) | EcParams (oid : bytes)
  | KeyTypeOf (k : KeyType) | ParameterSetOf (p : ParameterSet).
Inductive AttributeType : Type := TypeLabel | TypeValue.
Inductive HashKind : Type := Sha_256 | Sha_384 | Sha_512.
(** [cryptoki::mechanism::Mechanism]; the hash and the salt length of PSS. *)
Inductive Mechanism : Type :=
  | ShaRsaPkcs (h : HashKind)
  | ShaRsaPkcsPss (h : HashKind) (salt : Z)
  | Ecdsa | MlDsa | MlKem | AesKeyWrap | RsaPkcsOaep
  | RsaPkcsKeyPairGen | EccKeyPairGen | MlDsaKeyPairGen | MlKemKeyPairGen.
Inductive MechanismType : Type :=
  | RSA_PKCS | RSA_PKCS_KEY_PAIR_GEN | SHA256_RSA_PKCS | SHA384_RSA_PKCS | SHA512_RSA_PKCS
  | RSA_PKCS_PSS | SHA256_RSA_PKCS_PSS | SHA384_RSA_PKCS_PSS | SHA512_RSA_PKCS_PSS | RSA_PKCS_OAEP
  | ECDSA | ECDSA_SHA256 | ECDSA_SHA384 | ECDSA_SHA512 | ECC_KEY_PAIR_GEN
  | AES_KEY_GEN | AES_ECB | AES_CBC | AES_GCM | AES_KEY_WRAP | AES_KEY_WRAP_PAD
  | SHA256 | SHA384 | SHA512
  | ML_DSA_KEY_PAIR_GEN | ML_DSA | ML_KEM_KEY_PAIR_GEN | ML_KEM.
#[export] Instance MechanismType_eq_dec : EqDecision MechanismType.
Proof. solve_decision. Defined.
Inductive UserType : Type := User | So.

(** The library with its tokens is a state, which some calls change; an
    error is its text. *)
Class Cryptoki : Type := {
  Pkcs11 : Type;
  Slot : Type;
  Session : Type;
  ObjectHandle : Type;
  slot_eqb : Slot -> Slot -> bool;
  pkcs11_new : string -> Pkcs11 + string;
  pkcs11_initialize : Pkcs11 -> Pkcs11 * option string;
  slot_try_from : Z -> Slot + string;
  get_slots_with_token : Pkcs11 -> list Slot + string;
  get_token_info_label : Pkcs11 -> Slot -> string + string;
  session_open : Pkcs11 -> Slot -> bool -> Pkcs11 * (Session + string);
  session_login : Pkcs11 -> Session -> UserType -> string -> Pkcs11 * option string;
  find_objects : Pkcs11 -> Session -> list Attribute -> list ObjectHandle + string;
  get_attributes : Pkcs11 -> Session -> ObjectHandle -> AttributeType -> list Attribute + string;
  c_sign : Pkcs11 -> Session -> Mechanism -> ObjectHandle -> bytes -> bytes + string;
  generate_key_pair : Pkcs11 -> Session -> Mechanism -> list Attribute -> list Attribute ->
    Pkcs11 * ((ObjectHandle * ObjectHandle) + string);
  c_wrap_key : Pkcs11 -> Session -> Mechanism -> ObjectHandle -> ObjectHandle -> bytes + string;
  encapsulate_key : Pkcs11 -> Session -> Mechanism -> ObjectHandle -> list Attribute ->
    Pkcs11 * ((bytes * ObjectHandle) + string);
  decapsulate_key : Pkcs11 -> Session -> Mechanism -> ObjectHandle -> list Attribute -> bytes ->
    Pkcs11 * (ObjectHandle + string);
  destroy_object : Pkcs11 -> Session -> ObjectHandle -> Pkcs11 * option string
}.

(** ** [key.rs]: algorithms *)

Inductive EcdsaCurve : Type := P256 | P384 | P521.
Inductive MlDsaLevel : Type := Dsa2 | Dsa3 | Dsa5.
Inductive MlKemLevel : Type := Kem1 | Kem3 | Kem5.
Inductive KeyAlgorithm : Type :=
  | Rsa (bits : Z) | EcdsaKey (c : EcdsaCurve) | MlDsaKey (l : MlDsaLevel) | MlKemKey (l : MlKemLevel).

(** [EcdsaCurve::oid] *)
Definition oid (c : EcdsaCurve) : bytes :=
  match c with
  | P256 => [0x06; 0x08; 0x2a; 0x86; 0x48; 0xce; 0x3d; 0x03; 0x01; 0x07]
  | P384 => [0x06; 0x05; 0x2b; 0x81; 0x04; 0x00; 0x22]
  | P521 => [0x06; 0x05; 0x2b; 0x81; 0x04; 0x00; 0x23]
  end.

(** ** [error.rs] *)

Inductive HsmError : Type :=
  | LibraryLoad (e : string) | SlotAccess (e : string) | SessionCreate (e : string) | LoginFailed (e : string)
  | KeyGeneration (e : string) | SigningFailure (e : string) | KeyNotFound (e : string)
  | UnsupportedMechanism (e : string) | PqcNotSupported (e : string) | KeyWrap (e : string)
  | UriParse (e : string) | CryptokiError (e : string).
(** The text of an error. *)
Definition hsm_error (e : HsmError) : string :=
  match e with
  | LibraryLoad e => "Failed to load PKCS#11 library: " +:+ e
  | SlotAccess e => "Slot access error: " +:+ e
  | SessionCreate e => "Session creation failed: " +:+ e
  | LoginFailed e => "Login failed: " +:+ e
  | KeyGeneration e => "Key generation failed: " +:+ e
  | SigningFailure e => "Signing operation failed: " +:+ e
  | KeyNotFound e => "Key not found: " +:+ e
  | UnsupportedMechanism e => "Unsupported mechanism: " +:+ e
  | PqcNotSupported e => "PQC not supported: " +:+ e
  | KeyWrap e => "Key wrapping failed: " +:+ e
  | UriParse e => "PKCS#11 URI parse error: " +:+ e
  | CryptokiError e => "Cryptoki error: " +:+ e
  end.

(** ** [providers] *)

Module Providers.
Inductive HsmProvider : Type := Entrust | Utimaco | Kryoptic | ThalesCsp | ThalesTct.

(** [supported_mechanisms], which the five files have alike. *)
Definition supported_mechanisms (p : HsmProvider) : list MechanismType :=
  [RSA_PKCS; RSA_PKCS_KEY_PAIR_GEN; SHA256_RSA_PKCS; SHA384_RSA_PKCS; SHA512_RSA_PKCS;
   RSA_PKCS_PSS; SHA256_RSA_PKCS_PSS; SHA384_RSA_PKCS_PSS; SHA512_RSA_PKCS_PSS; RSA_PKCS_OAEP;
   ECDSA; ECDSA_SHA256; ECDSA_SHA384; ECDSA_SHA512; ECC_KEY_PAIR_GEN;
   AES_KEY_GEN; AES_ECB; AES_CBC; AES_GCM; AES_KEY_WRAP; AES_KEY_WRAP_PAD; SHA256; SHA384; SHA512].
(** [default_library_path], on Linux. *)
Definition default_library_path (p : HsmProvider) : string :=
  match p with
  | Entrust => "/opt/nfast/toolkits/pkcs11/libcknfast.so"
  | Utimaco => "/usr/lib/libcs_pkcs11_R3.so"
  | Kryoptic => "/usr/local/lib/libkryoptic.so"
  | ThalesCsp | ThalesTct => "/usr/safenet/lunaclient/lib/libCryptoki2_64.so"
  end.
(** [HsmProvider::detect_from_library_info] *)
Definition detect_from_library_info (to_lowercase : string -> string) (manufacturer library_description : string)
  : option HsmProvider :=
  let m := to_lowercase manufacturer in
  let d := to_lowercase library_description in
  if contains_str "entrust" m || contains_str "ncipher" m then Some Entrust
  else if contains_str "utimaco" m then Some Utimaco
  else if contains_str "kryoptic" m || contains_str "kryoptic" d then Some Kryoptic
  else if contains_str "thales" m || contains_str "safenet" m then
    if contains_str "tactical" d || contains_str "tct" d then Some ThalesTct else Some ThalesCsp
  else None.
End Providers.

(** ** [pkcs11.rs], [slot.rs] *)

Section Hsm.
Context `{HC : Cryptoki}.

(** [Pkcs11Context]: nothing in a placeholder. *)
Abbreviation Pkcs11Context := (option Pkcs11).
(** [Pkcs11Context::new] *)
Definition context_new (path : string) : outcome Pkcs11 HsmError :=
  let? p := of_lib (fun e => LibraryLoad ("Failed to load " +:+ path +:+ ": " +:+ e)) (pkcs11_new path) in
  match pkcs11_initialize p with
  | (p, None) => Ok p
  | (_, Some e) => Err (LibraryLoad ("C_Initialize failed: " +:+ e))
  end.
(** [Pkcs11Context::with_pkcs11] *)
Definition with_pkcs11 {R} (c : Pkcs11Context) (f : Pkcs11 -> outcome R HsmError) : outcome R HsmError :=
  match c with
  | Some p => f p
  | None => Err (LibraryLoad "HSM not initialized (placeholder context)")
  end.

Definition token_label (c : Pkcs11Context) (s : Slot) : outcome string HsmError :=
  with_pkcs11 c (fun p => omap_ok trim (of_lib CryptokiError (get_token_info_label p s))).
Definition enumerate_slots_with_tokens (c : Pkcs11Context) : outcome (list Slot) HsmError :=
  with_pkcs11 c (fun p =>
    of_lib (fun e => SlotAccess ("Failed to enumerate slots: " +:+ e)) (get_slots_with_token p)).
(** [HsmSlot::find_by_id], [find_first_slot], [find_by_label] *)
Definition slot_by_id (c : Pkcs11Context) (id : Z) : outcome Slot HsmError :=
  let? s := of_lib SlotAccess (slot_try_from id) in
  let? l := enumerate_slots_with_tokens c in
  if existsb (slot_eqb s) l then Ok s
  else Err (SlotAccess ("configured slot " +:+ pretty id +:+ " has no token")).
Definition find_first_slot (c : Pkcs11Context) : outcome Slot HsmError :=
  let? l := enumerate_slots_with_tokens c in
  match l with
  | s :: _ => Ok s
  | [] => Err (SlotAccess "No slots with tokens found")
  end.
Definition slot_by_label (c : Pkcs11Context) (label : string) : outcome Slot HsmError :=
  let? l := enumerate_slots_with_tokens c in
  match List.find (fun s => match token_label c s with Ok t => String.eqb t label | _ => false end) l with
  | Some s => Ok s
  | None => Err (SlotAccess ("No slot found with token label '" +:+ label +:+ "'"))
  end.

(** The same for a call that changes the library's state. *)
Definition on_library {R} (c : Pkcs11Context) (f : Pkcs11 -> Pkcs11 * outcome R HsmError)
  : Pkcs11Context * outcome R HsmError :=
  match c with
  | Some p => let (p, r) := f p in (Some p, r)
  | None => (None, Err (LibraryLoad "HSM not initialized (placeholder context)"))
  end.
(** [open_ro_session], [open_rw_session] *)
Definition open_session (rw : bool) (p : Pkcs11) (s : Slot) : Pkcs11 * outcome Session HsmError :=
  let (p, r) := session_open p s rw in
  (p, of_lib (fun e => SessionCreate
         ("Failed to open " +:+ (if rw then "RW" else "RO") +:+ " session: " +:+ e)) r).
(** [login], [login_so] *)
Definition login (u : UserType) (p : Pkcs11) (s : Session) (pin : string) : Pkcs11 * outcome unit HsmError :=
  match session_login p s u pin with
  | (p, None) => (p, Ok tt)
  | (p, Some e) =>
      (p, Err (LoginFailed ((match u with User => "User" | So => "SO" end) +:+ " login failed: " +:+ e)))
  end.

(** ** [key.rs] *)

(** [HsmKeyPair] *)
Record HsmKeyPair : Type := MkPair {
  pair_session : Session;
  private_key : ObjectHandle;
  public_key : ObjectHandle;
  algorithm : KeyAlgorithm
}.

Definition parameter_set (a : KeyAlgorithm) : list Attribute :=
  match a with
  | MlDsaKey l =>
      [KeyTypeOf KEY_ML_DSA; ParameterSetOf match l with Dsa2 => ML_DSA_44 | Dsa3 => ML_DSA_65 | Dsa5 => ML_DSA_87 end]
  | MlKemKey l =>
      [KeyTypeOf KEY_ML_KEM; ParameterSetOf match l with Kem1 => ML_KEM_512 | Kem3 => ML_KEM_768 | Kem5 => ML_KEM_1024 end]
  | _ => []
  end.
(** The templates of [generate_rsa], [generate_ecdsa], [generate_ml_dsa] and
    [generate_ml_kem]. *)
Definition public_template (a : KeyAlgorithm) (label : string) (id : bytes) : list Attribute :=
  [Token true; Label (bytes_of_string label); Id id] ++
  match a with
  | Rsa bits => [Encrypt true; Verify true; ModulusBits bits; PublicExponent [0x01; 0x00; 0x01]]
  | EcdsaKey c => [Verify true; EcParams (oid c)]
  | MlDsaKey _ => Verify true :: parameter_set a
  | MlKemKey _ => parameter_set a
  end.
Definition private_template (a : KeyAlgorithm) (label : string) (id : bytes) : list Attribute :=
  [Token true; Label (bytes_of_string label); Id id; Private true; Sensitive true; Extractable false] ++
  match a with
  | Rsa _ => [Decrypt true; Sign true]
  | EcdsaKey _ => [Sign true]
  | MlDsaKey _ => Sign true :: parameter_set a
  | MlKemKey _ => parameter_set a
  end.
Definition generation_mechanism (a : KeyAlgorithm) : Mechanism * MechanismType :=
  match a with
  | Rsa _ => (RsaPkcsKeyPairGen, RSA_PKCS_KEY_PAIR_GEN)
  | EcdsaKey _ => (EccKeyPairGen, ECC_KEY_PAIR_GEN)
  | MlDsaKey _ => (MlDsaKeyPairGen, ML_DSA_KEY_PAIR_GEN)
  | MlKemKey _ => (MlKemKeyPairGen, ML_KEM_KEY_PAIR_GEN)
  end.
Definition not_supported (a : KeyAlgorithm) : HsmError :=
  match a with
  | Rsa _ => UnsupportedMechanism "RSA key generation not supported by HSM"
  | EcdsaKey _ => UnsupportedMechanism "ECDSA key generation not supported by HSM"
  | MlDsaKey _ => PqcNotSupported ("ML-DSA key generation (CKM_ML_DSA_KEY_PAIR_GEN) not supported by HSM. "
                    +:+ "Consider using SoftwarePqcFallback.")
  | MlKemKey _ => PqcNotSupported ("ML-KEM key generation (CKM_ML_KEM_KEY_PAIR_GEN) not supported by HSM. "
                    +:+ "Consider using SoftwarePqcFallback.")
  end.
Definition algorithm_name (a : KeyAlgorithm) : string :=
  match a with Rsa _ => "RSA" | EcdsaKey _ => "ECDSA" | MlDsaKey _ => "ML-DSA" | MlKemKey _ => "ML-KEM" end.
(** [HsmKeyPair::generate]; [supported] is of the provider's configuration. *)
Definition generate (c : Pkcs11Context) (s : Slot) (a : KeyAlgorithm) (label : string) (id : bytes)
    (supported : list MechanismType) : Pkcs11Context * outcome HsmKeyPair HsmError :=
  on_library c (fun p =>
    let! (p, session) := open_session true p s in
    if negb (bool_decide ((generation_mechanism a).2 ∈ supported)) then (p, Err (not_supported a))
    else
      let (p, r) := generate_key_pair p session (generation_mechanism a).1 (public_template a label id)
                      (private_template a label id) in
      (p,
       let? keys := of_lib (fun e => KeyGeneration (algorithm_name a +:+ " key generation failed: " +:+ e)) r in
       Ok (MkPair session keys.2 keys.1 a))).

(** [find_selected] *)
Definition find_selected (c : Pkcs11Context) (s : Slot) (selector : list Attribute) (a : KeyAlgorithm)
  : Pkcs11Context * outcome HsmKeyPair HsmError :=
  on_library c (fun p =>
    let! (p, session) := open_session false p s in
    (p,
     let? private := of_lib CryptokiError (find_objects p session (selector ++ [Class_ PRIVATE_KEY])) in
     let? public := of_lib CryptokiError (find_objects p session (selector ++ [Class_ PUBLIC_KEY])) in
     match private, public with
     | [k], [q] => Ok (MkPair session k q a)
     | _, _ => Err (KeyNotFound "key selector must match exactly one key pair")
     end)).
Definition find_by_label (c : Pkcs11Context) (s : Slot) (label : string) :=
  find_selected c s [Label (bytes_of_string label)].
Definition find_by_id (c : Pkcs11Context) (s : Slot) (id : bytes) := find_selected c s [Id id].

(** ** URIs *)

Context `{HU : UrlLib}.

Definition hex_digit (c : Ascii.ascii) : bool :=
  let b := byte_of c in in_range 48 57 b || in_range 65 70 b || in_range 97 102 b.
(** Two hexadecimal digits follow every percent sign. *)
Fixpoint escapes_ok (s : string) : bool :=
  match s with
  | EmptyString => true
  | String c r =>
      (if Ascii.eqb c "%"
       then match r with String h (String l _) => hex_digit h && hex_digit l | _ => false end
       else true) && escapes_ok r
  end.
Definition known_selector (name : string) : bool :=
  existsb (String.eqb name) ["token"; "object"; "id"; "type"]%string.
(** The loop of [parse_uri]. *)
Fixpoint parse_params (acc : gmap string bytes) (parts : list string) : outcome (gmap string bytes) HsmError :=
  match parts with
  | [] => Ok acc
  | part :: parts =>
      match split_once "=" part with
      | None => Err (UriParse "invalid PKCS#11 attribute")
      | Some (name, value) =>
          if negb (known_selector name) then Err (UriParse "unsupported PKCS#11 selector")
          else if negb (escapes_ok value) then Err (UriParse "invalid percent escape")
          else if bool_decide (is_Some (acc !! name)) then Err (UriParse "duplicate PKCS#11 attribute")
          else parse_params (<[name := percent_decode value]> acc) parts
      end
  end.
Definition has_host (u : Url) : bool := bool_decide (is_Some (url_host u)).
(** [parse_uri] *)
Definition parse_uri (uri : string) : outcome (gmap string bytes) HsmError :=
  let? url := of_lib UriParse (url_parse uri) in
  if negb (String.eqb (url_scheme url) "pkcs11") then
    Err (UriParse ("Invalid scheme '" +:+ url_scheme url +:+ "', expected 'pkcs11'"))
  else if bool_decide (is_Some (url_query url)) || bool_decide (is_Some (url_fragment url)) || has_host url then
    Err (UriParse "PKCS#11 URI query, fragment, and authority are unsupported")
  else parse_params ∅ (split_char ";" (url_path url)).

Definition not_private (params : gmap string bytes) : bool :=
  match params !! "type"%string with
  | Some kind => negb (bool_decide (kind = bytes_of_string "private"))
  | None => false
  end.

(** [HsmKeyPair::from_uri] *)
Definition from_uri (c : Pkcs11Context) (s : Slot) (uri : string) (a : KeyAlgorithm)
  : Pkcs11Context * outcome HsmKeyPair HsmError :=
  let checked :=
    let? params := parse_uri uri in
    let? _ :=
      match params !! "token"%string with
      | Some token =>
          let? label := token_label c s in
          if bool_decide (token = bytes_of_string label) then Ok tt
          else Err (UriParse "URI token does not match selected slot")
      | None => Ok tt
      end in
    if not_private params then Err (UriParse "a private key URI is required")
    else
      let selector :=
        match params !! "id"%string with Some id => [Id id] | None => [] end ++
        match params !! "object"%string with Some l => [Label l] | None => [] end in
      match selector with
      | [] => Err (UriParse "URI must contain id or object")
      | _ => Ok selector
      end in
  match checked with
  | Ok selector => find_selected c s selector a
  | Err e => (c, Err e)
  | Panic => (c, Panic)
  end.

(** ** [lib.rs] *)

(** [HsmContext] *)
Record HsmContext : Type := MkHsmContext {
  context : Pkcs11Context;
  provider : Providers.HsmProvider;
  session : option Session;
  slot : option Slot
}.
Definition hsm_context_new (p : Pkcs11) (k : Providers.HsmProvider) (s : Slot) (n : Session) : HsmContext :=
  MkHsmContext (Some p) k (Some n) (Some s).
Definition placeholder : HsmContext := MkHsmContext None Providers.Kryoptic None None.

(** A call on the session of the context; a session is of a library. *)
Definition with_session {R} (h : HsmContext) (none : HsmError) (f : Pkcs11 -> Session -> outcome R HsmError)
  : outcome R HsmError :=
  match session h, context h with
  | Some n, Some p => f p n
  | _, _ => Err none
  end.
(** [HsmContext::health_check] *)
Definition health_check (h : HsmContext) : outcome unit HsmError :=
  with_session h (LibraryLoad "HSM session not initialized (placeholder context)") (fun _ _ => Ok tt).

Definition label_attribute (l : list Attribute) : option bytes :=
  head (omap (fun a => match a with Label l => Some l | _ => None end) l).
(** [HsmContext::tls_key_label] *)
Definition tls_key_label (h : HsmContext) (uri : string) : outcome string HsmError :=
  let? params := parse_uri uri in
  if not_private params then Err (UriParse "private key URI required")
  else
    let? _ :=
      match params !! "token"%string with
      | Some token =>
          let? s := ok_or (slot h) (SlotAccess "no active slot") in
          let? label := token_label (context h) s in
          if bool_decide (token = bytes_of_string label) then Ok tt
          else Err (UriParse "token differs from configured slot")
      | None => Ok tt
      end in
    let selector :=
      Class_ PRIVATE_KEY ::
      match params !! "object"%string with Some l => [Label l] | None => [] end ++
      match params !! "id"%string with Some id => [Id id] | None => [] end in
    if (length selector =? 1)%nat then Err (UriParse "object or id required")
    else
      with_session h (SigningFailure "HSM session unavailable") (fun p n =>
        let? objects := of_lib CryptokiError (find_objects p n selector) in
        match objects with
        | [o] =>
            let? attributes := of_lib CryptokiError (get_attributes p n o TypeLabel) in
            let? label := ok_or (label_attribute attributes) (KeyNotFound "TLS key has no label") in
            ok_or (from_utf8 label) (UriParse "TLS key label must be UTF-8")
        | _ => Err (KeyNotFound "URI must match exactly one private key")
        end).

(** The schemes of rustls that are named, and the others. *)
Inductive SignatureScheme : Type :=
  | RSA_PSS (h : HashKind) | RSA_PKCS1 (h : HashKind)
  | ECDSA_NISTP256_SHA256 | ECDSA_NISTP384_SHA384 | ECDSA_NISTP521_SHA512
  | ML_DSA_SCHEME (l : MlDsaLevel)
  | OtherScheme (code : Z).
#[export] Instance MlDsaLevel_eq_dec : EqDecision MlDsaLevel.
Proof. solve_decision. Defined.
#[export] Instance HashKind_eq_dec : EqDecision HashKind.
Proof. solve_decision. Defined.
#[export] Instance SignatureScheme_eq_dec : EqDecision SignatureScheme.
Proof. solve_decision. Defined.

(** The crate [openssl]: hashes, the DER form of an ECDSA signature's two
    numbers, public keys of certificates, and the verification of a
    signature, with PSS for a key of RSA. *)
Class OpensslLib : Type := {
  PKey : Type;
  openssl_hash : HashKind -> bytes -> bytes + string;
  ecdsa_sig_to_der : bytes -> bytes -> bytes + string;
  certificate_public_key : bytes -> PKey + string;
  pkey_is_rsa : PKey -> bool;
  pkey_bits : PKey -> Z;
  (** the curve's name, if it has one of these *)
  pkey_ec_curve : PKey -> option (option EcdsaCurve);
  verify_oneshot : PKey -> HashKind -> bytes -> bytes -> bool + string
}.
Context `{HO : OpensslLib}.

Definition salt_length (h : HashKind) : Z := match h with Sha_256 => 32 | Sha_384 => 48 | Sha_512 => 64 end.
(** The hash and the mechanism of a scheme. *)
Definition scheme_mechanism (s : SignatureScheme) : option (HashKind * Mechanism) :=
  match s with
  | RSA_PSS h => Some (h, ShaRsaPkcsPss h (salt_length h))
  | RSA_PKCS1 h => Some (h, ShaRsaPkcs h)
  | ECDSA_NISTP256_SHA256 => Some (Sha_256, Ecdsa)
  | ECDSA_NISTP384_SHA384 => Some (Sha_384, Ecdsa)
  | ECDSA_NISTP521_SHA512 => Some (Sha_512, Ecdsa)
  | ML_DSA_SCHEME _ | OtherScheme _ => None
  end.
Definition is_ecdsa (m : Mechanism) : bool := match m with Ecdsa => true | _ => false end.

(** [HsmContext::sign_tls] *)
Definition sign_tls (h : HsmContext) (key_label : string) (data : bytes) (scheme : SignatureScheme)
  : outcome bytes HsmError :=
  with_session h (SigningFailure "HSM not initialized") (fun p n =>
    let? objects := of_lib CryptokiError
      (find_objects p n [Label (bytes_of_string key_label); Class_ PRIVATE_KEY]) in
    match objects with
    | [o] =>
        match scheme_mechanism scheme with
        | None => Err (UnsupportedMechanism "unsupported TLS scheme")
        | Some (md, mech) =>
            let? digest := of_lib SigningFailure (openssl_hash md data) in
            let? sig := of_lib CryptokiError (c_sign p n mech o (if is_ecdsa mech then digest else data)) in
            if negb (is_ecdsa mech) then Ok sig
            else if (length sig =? 0)%nat || negb (Nat.even (length sig)) then
              Err (SigningFailure "invalid raw ECDSA signature")
            else
              let half := Nat.div2 (length sig) in
              of_lib SigningFailure (ecdsa_sig_to_der (take half sig) (drop half sig))
        end
    | _ => Err (KeyNotFound "signing key label must match exactly one object")
    end).

(** [HsmContext::sign_data] *)
Definition sign_data (h : HsmContext) (key_label : string) (data : bytes) (hash_algorithm : string)
  : outcome bytes HsmError :=
  with_session h (LibraryLoad "HSM session not initialized (placeholder context)") (fun p n =>
    let? objects := of_lib (fun e => KeyNotFound ("Failed to find key '" +:+ key_label +:+ "': " +:+ e))
      (find_objects p n [Label (bytes_of_string key_label); Class_ PRIVATE_KEY]) in
    let? o := ok_or (head objects) (KeyNotFound ("Private key '" +:+ key_label +:+ "' not found in token")) in
    let? mechanism :=
      if String.eqb hash_algorithm "sha256" then Ok (ShaRsaPkcs Sha_256)
      else if String.eqb hash_algorithm "sha384" then Ok (ShaRsaPkcs Sha_384)
      else if String.eqb hash_algorithm "sha512" then Ok (ShaRsaPkcs Sha_512)
      else Err (UnsupportedMechanism ("Unsupported hash algorithm for RSA signing: " +:+ hash_algorithm)) in
    of_lib (fun e => SigningFailure ("C_Sign failed for key '" +:+ key_label +:+ "': " +:+ e))
      (c_sign p n mechanism o data)).

(** ** [sign.rs] *)

(** [DefaultHsmSigner], on the library of the key's session. *)
Definition sign_with_mechanism (p : Pkcs11) (k : HsmKeyPair) (digest : bytes) (m : Mechanism) : outcome bytes HsmError :=
  of_lib (fun e => SigningFailure ("Sign operation failed: " +:+ e))
    (c_sign p (pair_session k) m (private_key k) digest).
Definition sign (p : Pkcs11) (k : HsmKeyPair) (digest : bytes) : outcome bytes HsmError :=
  let? m :=
    match algorithm k with
    | Rsa _ => Ok (ShaRsaPkcs Sha_256)
    | EcdsaKey _ => Ok Ecdsa
    | MlDsaKey _ => Err (PqcNotSupported "ML-DSA signing requires explicit mechanism ID")
    | MlKemKey _ => Err (UnsupportedMechanism "ML-KEM is for encapsulation, not signing")
    end in
  sign_with_mechanism p k digest m.
Definition sign_rsa_pkcs1 p k digest h := sign_with_mechanism p k digest (ShaRsaPkcs h).
Definition sign_rsa_pss p k digest h := sign_with_mechanism p k digest (ShaRsaPkcsPss h (salt_length h)).
Definition sign_ecdsa p k digest := sign_with_mechanism p k digest Ecdsa.
Definition sign_ml_dsa p k message := sign_with_mechanism p k message MlDsa.
Definition wrap_key_aes (p : Pkcs11) (n : Session) (wrapping key : ObjectHandle) : outcome bytes HsmError :=
  of_lib (fun e => KeyWrap ("AES key wrap failed: " +:+ e)) (c_wrap_key p n AesKeyWrap wrapping key).
Definition wrap_key_rsa_oaep (p : Pkcs11) (n : Session) (wrapping key : ObjectHandle) : outcome bytes HsmError :=
  of_lib (fun e => KeyWrap ("RSA-OAEP key wrap failed: " +:+ e)) (c_wrap_key p n RsaPkcsOaep wrapping key).

Definition secret_template : list Attribute := [Token false; Extractable true; Sensitive false].
Definition value_attribute (l : list Attribute) : option bytes :=
  head (omap (fun a => match a with Value v => Some v | _ => None end) l).
(** The shared secret of a derived key, which is destroyed on every path; a
    failure of that is logged. *)
Definition take_secret (p : Pkcs11) (n : Session) (o : ObjectHandle) : Pkcs11 * outcome bytes HsmError :=
  let r :=
    let? attrs := of_lib (fun e => PqcNotSupported ("ML-KEM: failed to extract shared secret: " +:+ e))
      (get_attributes p n o TypeValue) in
    ok_or (value_attribute attrs) (PqcNotSupported "ML-KEM: derived key has no CKA_VALUE attribute") in
  ((destroy_object p n o).1, r).
(** [ml_kem_encapsulate], [ml_kem_decapsulate] *)
Definition ml_kem_encapsulate (p : Pkcs11) (n : Session) (public : ObjectHandle)
  : Pkcs11 * outcome (bytes * bytes) HsmError :=
  match encapsulate_key p n MlKem public secret_template with
  | (p, inr e) => (p, Err (PqcNotSupported ("ML-KEM encapsulate failed: " +:+ e)))
  | (p, inl (ciphertext, o)) =>
      let! (p, secret) := take_secret p n o in
      (p, Ok (ciphertext, secret))
  end.
Definition ml_kem_decapsulate (p : Pkcs11) (n : Session) (private : ObjectHandle) (ciphertext : bytes)
  : Pkcs11 * outcome bytes HsmError :=
  match decapsulate_key p n MlKem private secret_template ciphertext with
  | (p, inr e) => (p, Err (PqcNotSupported ("ML-KEM decapsulate failed: " +:+ e)))
  | (p, inl o) => take_secret p n o
  end.
(** [SoftwarePqcFallback] *)
Definition is_hsm_supported (m : MechanismType) (l : list MechanismType) : bool := bool_decide (m ∈ l).
Definition sign_ml_dsa_software (message private_key_bytes : bytes) (l : MlDsaLevel) : outcome bytes HsmError :=
  Err (PqcNotSupported ("Software ML-DSA fallback requires synta-certificate 'pqc' feature. "
    +:+ "Use BackendPrivateKey::generate_ml_dsa() to create and sign.")).

(** ** [rustls_signer.rs] *)

(** [Pkcs11SigningKey] *)
Record Pkcs11SigningKey : Type := MkSigningKey {
  sk_hsm : HsmContext;
  sk_label : string;
  sk_algorithm : KeyAlgorithm
}.
Definition supported_schemes (a : KeyAlgorithm) : option (list SignatureScheme) :=
  match a with
  | Rsa _ => Some [RSA_PSS Sha_512; RSA_PSS Sha_384; RSA_PSS Sha_256; RSA_PKCS1 Sha_512; RSA_PKCS1 Sha_384;
                   RSA_PKCS1 Sha_256]
  | EcdsaKey P256 => Some [ECDSA_NISTP256_SHA256]
  | EcdsaKey P384 => Some [ECDSA_NISTP384_SHA384]
  | EcdsaKey P521 => Some [ECDSA_NISTP521_SHA512]
  | _ => None
  end.
(** [choose_scheme]: the signer is the key with the scheme. *)
Definition choose_scheme (k : Pkcs11SigningKey) (offered : list SignatureScheme) : option SignatureScheme :=
  match supported_schemes (sk_algorithm k) with
  | Some supported => List.find (fun s => bool_decide (s ∈ supported)) offered
  | None => None
  end.
(** [Pkcs11Signer::sign] *)
Definition signer_sign (k : Pkcs11SigningKey) (s : SignatureScheme) (message : bytes) : outcome bytes string :=
  map_err (fun e => "PKCS#11 sign failed: " +:+ hsm_error e) (sign_tls (sk_hsm k) (sk_label k) message s).

(** [certificate_algorithm] *)
Definition certificate_algorithm (der : bytes) : outcome KeyAlgorithm HsmError :=
  let? key := of_lib KeyNotFound (certificate_public_key der) in
  if pkey_is_rsa key then Ok (Rsa (pkey_bits key))
  else
    match pkey_ec_curve key with
    | None => Err (UnsupportedMechanism "TLS HSM key must be RSA or ECDSA")
    | Some None => Err (UnsupportedMechanism "unsupported TLS EC curve")
    | Some (Some c) => Ok (EcdsaKey c)
    end.
Definition probe_scheme (a : KeyAlgorithm) : option (SignatureScheme * HashKind) :=
  match a with
  | Rsa _ => Some (RSA_PSS Sha_256, Sha_256)
  | EcdsaKey P256 => Some (ECDSA_NISTP256_SHA256, Sha_256)
  | EcdsaKey P384 => Some (ECDSA_NISTP384_SHA384, Sha_384)
  | EcdsaKey P521 => Some (ECDSA_NISTP521_SHA512, Sha_512)
  | _ => None
  end.
(** [verify_tls_key]; [challenge] is the generator's answer for 32 bytes. *)
Definition verify_tls_key (h : HsmContext) (label : string) (cert_der : bytes) (challenge : bytes + string)
  : outcome unit HsmError :=
  let? a := certificate_algorithm cert_der in
  match probe_scheme a with
  | None => Err (UnsupportedMechanism "unsupported TLS key")
  | Some (scheme, digest) =>
      let? challenge := of_lib SigningFailure challenge in
      let? signature := sign_tls h label challenge scheme in
      let? public := of_lib SigningFailure (certificate_public_key cert_der) in
      let? ok := of_lib SigningFailure (verify_oneshot public digest signature challenge) in
      if ok : bool then Ok tt
      else Err (SigningFailure "HSM key does not match TLS certificate")
  end.
End Hsm.
