(* ===== verification/HsmSpec.v ===== *)
(** * Access to hardware security modules: the theorems

    Of Hsm.v: the key that a URI names is the key that signs, what a key
    pair is generated with, and the URIs against the attributes they name. *)
From S2P Require Import Prelude Words Text X509 Hsm.
Open Scope Z_scope.

(** ** URIs *)

(** What is documented of [percent_decode]: it replaces escapes. *)
Definition hex_char (n : Z) : Ascii.ascii := byte_to_ascii (if n <? 10 then 48 + n else 55 + n).
Fixpoint percent_encode (bs : bytes) : string :=
  match bs with
  | [] => EmptyString
  | b :: bs => String "%" (String (hex_char (b / 16)) (String (hex_char (b mod 16)) (percent_encode bs)))
  end.
Class PercentLaws `{UrlLib} : Prop := {
  percent_decode_encode bs : Forall u8 bs -> percent_decode (percent_encode bs) = bs
}.

Lemma byte_of_to_ascii b : u8 b -> byte_of (byte_to_ascii b) = b.
Proof.
  intros H. unfold byte_of, byte_to_ascii, u8 in *. rewrite Ascii.N_ascii_embedding by lia. lia.
Qed.
Lemma hex_char_byte n : 0 <= n < 16 -> byte_of (hex_char n) = if n <? 10 then 48 + n else 55 + n.
Proof. intros H. unfold hex_char. apply byte_of_to_ascii. unfold u8. destruct (n <? 10) eqn:E; blia. Qed.
Lemma hex_char_digit n : 0 <= n < 16 -> hex_digit (hex_char n) = true.
Proof.
  intros H. unfold hex_digit. rewrite hex_char_byte by done. unfold in_range. destruct (n <? 10) eqn:E; blia.
Qed.
Lemma byte_nibbles b : u8 b -> 0 <= b / 16 < 16 /\ 0 <= b mod 16 < 16.
Proof. unfold u8. intros H. split; [split; [apply Z.div_pos; lia|apply Z.div_lt_upper_bound; lia]|apply Z.mod_pos_bound; lia]. Qed.
Lemma hex_digit_neq c d : hex_digit c = true -> hex_digit d = false -> Ascii.eqb d c = false.
Proof. intros H1 H2. apply Ascii.eqb_neq. intros ->. congruence. Qed.
Lemma escapes_ok_encode bs : Forall u8 bs -> escapes_ok (percent_encode bs) = true.
Proof.
  induction 1 as [|b bs Hb _ IH]; [done|]. destruct (byte_nibbles b Hb) as [H1 H2].
  cbn [percent_encode escapes_ok]. rewrite Ascii.eqb_refl, (hex_char_digit _ H1), (hex_char_digit _ H2).
  assert (Hn : forall n, 0 <= n < 16 -> Ascii.eqb (hex_char n) "%" = false).
  { intros n Hn. rewrite Ascii.eqb_sym. by apply hex_digit_neq; [apply hex_char_digit|]. }
  by rewrite (Hn _ H1), (Hn _ H2).
Qed.
Lemma encode_no_char c bs : Forall u8 bs -> c <> "%"%char -> hex_digit c = false ->
  contains_char c (percent_encode bs) = false.
Proof.
  intros H Hc Hd. induction H as [|b bs Hb _ IH]; [done|]. destruct (byte_nibbles b Hb) as [H1 H2].
  assert (Hn : forall n, 0 <= n < 16 -> hex_char n <> c).
  { intros n Hn <-. by rewrite hex_char_digit in Hd. }
  cbn [percent_encode contains_char]. rewrite IH, !bool_decide_eq_false_2 by auto. done.
Qed.

Section Hsm.
Context `{HU : UrlLib}.

(** An attribute's text, and the path of several. *)
Definition selector_text (p : string * bytes) : string := p.1 +:+ "=" +:+ percent_encode p.2.
Definition selector_path (l : list (string * bytes)) : string := join ";" (map selector_text l).

Lemma known_selector_plain name c : known_selector name = true -> c = ";"%char \/ c = "="%char ->
  contains_char c name = false.
Proof.
  unfold known_selector. cbn. rewrite !orb_true_iff. intros H [-> | ->];
    repeat (destruct H as [H|H]); try done; apply String.eqb_eq in H; by subst.
Qed.

Lemma parse_params_roundtrip `{!PercentLaws} l acc :
  NoDup (map fst l) -> Forall (fun p => known_selector p.1 = true /\ Forall u8 p.2 /\ acc !! p.1 = None) l ->
  parse_params acc (map selector_text l) = Ok (list_to_map l ∪ acc).
Proof.
  revert acc. induction l as [|[name v] l IH]; intros acc Hn Hl; cbn [map parse_params].
  - by rewrite list_to_map_nil, (left_id_L ∅ (∪)).
  - apply NoDup_cons in Hn as [Hn1 Hn2]. apply Forall_cons in Hl as [(Hk & Hv & Ha) Hl]. cbn [fst snd] in *.
    assert (Hs : split_once "=" (selector_text (name, v)) = Some (name, percent_encode v)).
    { unfold selector_text. cbn [fst snd]. apply split_once_Some. split; [done|].
      by apply known_selector_plain; [|right]. }
    rewrite Hs, Hk, escapes_ok_encode by done. cbn [negb].
    rewrite bool_decide_eq_false_2 by (rewrite Ha; by intros []).
    rewrite percent_decode_encode by done. rewrite IH; [|done|].
    + f_equal. rewrite list_to_map_cons. rewrite <- insert_union_l, insert_union_r; [done|].
      apply not_elem_of_list_to_map_1. exact Hn1.
    + rewrite Forall_forall in Hl |- *. intros [n w] Hin. destruct (Hl _ Hin) as (? & ? & ?).
      split_and!; [done..|]. cbn. rewrite lookup_insert_ne; [done|]. intros <-. apply Hn1.
      by apply (list_elem_of_fmap_2 fst) in Hin.
Qed.

(** What a URI is that is read. *)
Definition attribute_of (part : string) (p : string * bytes) : Prop :=
  exists value, split_once "=" part = Some (p.1, value) /\ known_selector p.1 = true /\
    escapes_ok value = true /\ p.2 = percent_decode value.
Lemma parse_params_sound parts acc m : parse_params acc parts = Ok m ->
  exists l, Forall2 attribute_of parts l /\ NoDup (map fst l) /\
    Forall (fun p => acc !! p.1 = None) l /\ m = list_to_map l ∪ acc.
Proof.
  revert acc. induction parts as [|part parts IH]; intros acc; cbn [parse_params].
  - intros [= <-]. exists []. split_and!; [done|constructor|done|]. by rewrite list_to_map_nil, (left_id_L ∅ (∪)).
  - destruct (split_once "=" part) as [[name value]|] eqn:Es; [|done].
    destruct (known_selector name) eqn:Ek; [|done]. cbn [negb].
    destruct (escapes_ok value) eqn:Ee; [|done]. cbn [negb].
    case_bool_decide as Ha; [done|]. intros H. apply IH in H as (l & H1 & H2 & H3 & ->).
    exists ((name, percent_decode value) :: l). apply eq_None_not_Some in Ha.
    assert (Hin : name ∉ map fst l).
    { intros Hin. apply list_elem_of_fmap in Hin as ([n w] & -> & Hin). rewrite Forall_forall in H3.
      specialize (H3 _ Hin). cbn in H3. by rewrite lookup_insert_eq in H3. }
    split_and!.
    + constructor; [by exists value|done].
    + constructor; [exact Hin|done].
    + constructor; [done|]. eapply Forall_impl; [exact H3|]. intros [n w]. cbn. intros Hl.
      destruct (decide (n = name)) as [->|]; [done|]. by rewrite lookup_insert_ne in Hl.
    + rewrite list_to_map_cons. rewrite <- insert_union_l, insert_union_r; [done|]. by apply not_elem_of_list_to_map_1.
Qed.

(** C38: the URI of a key names what it says.  Attributes with known names,
    each at most once, whose values are written with percent escapes are read
    back as they are, in any order and with any bytes in them.  A URI that is
    read is such a list: nothing else than token, object, id and type, no name
    twice, and no escape that is cut off, and has neither host, query nor
    fragment. *)
Theorem parse_uri_roundtrip `{!PercentLaws} uri url l :
  url_parse uri = inl url ->
  (l <> [] -> NoDup (map fst l) -> Forall (fun p => known_selector p.1 = true /\ Forall u8 p.2) l ->
   url_scheme url = "pkcs11"%string -> url_query url = None -> url_fragment url = None -> url_host url = None ->
   url_path url = selector_path l -> parse_uri uri = Ok (list_to_map l)) /\
  (forall m, parse_uri uri = Ok m ->
   url_scheme url = "pkcs11"%string /\ url_query url = None /\ url_fragment url = None /\ url_host url = None /\
   exists l, Forall2 attribute_of (split_char ";" (url_path url)) l /\ NoDup (map fst l) /\ m = list_to_map l).
Proof.
  intros Hu. unfold parse_uri. rewrite Hu. cbn [of_lib obind]. split.
  - intros Hne Hn Hl -> -> -> Hh ->. unfold has_host. rewrite Hh. cbn -[split_char parse_params].
    unfold selector_path. rewrite split_char_join; cycle 1.
    + by destruct l.
    + apply Forall_fmap. eapply Forall_impl; [exact Hl|]. intros [n v] [Hk Hv]. unfold compose, selector_text.
      cbn [fst snd]. rewrite !contains_char_app. rewrite encode_no_char by done.
      by rewrite known_selector_plain by (done || by left).
    + rewrite parse_params_roundtrip; [by rewrite (right_id_L ∅ (∪))|done|].
      eapply Forall_impl; [exact Hl|]. intros [n v] []. split_and!; [done..|apply lookup_empty].
  - intros m Hm. destruct (String.eqb (url_scheme url) "pkcs11") eqn:Es; [|done]. apply String.eqb_eq in Es.
    cbn [negb] in Hm. unfold has_host in Hm.
    repeat (case_bool_decide; try done). apply parse_params_sound in Hm as (l' & ? & ? & _ & ->).
    split_and!; [done|by apply eq_None_not_Some..|]. exists l'. split_and!; [done..|]. by rewrite (right_id_L ∅ (∪)).
Qed.
End Hsm.

(** ** The objects of a token *)

(** What PKCS#11 documents: a search finds the objects that have all the
    attributes asked for, and an attribute that is read is had. *)
Class CryptokiLaws `{Cryptoki} : Type := {
  has : Pkcs11 -> Session -> ObjectHandle -> Attribute -> Prop;
  find_objects_found p n sel os : find_objects p n sel = inl os -> sel <> [] ->
    forall o, o ∈ os <-> Forall (has p n o) sel;
  label_read p n o l v : get_attributes p n o TypeLabel = inl l -> Label v ∈ l -> Forall u8 v /\ has p n o (Label v)
}.

Lemma bytes_of_string_of_bytes bs : Forall u8 bs -> bytes_of_string (string_of_bytes bs) = bs.
Proof. induction 1 as [|b bs Hb _ IH]; [done|]. cbn. by rewrite byte_of_to_ascii, IH. Qed.
Lemma from_utf8_bytes bs s : Forall u8 bs -> from_utf8 bs = Some s -> bytes_of_string s = bs.
Proof. intros H. unfold from_utf8. destruct (utf8_valid bs); [|done]. intros [= <-]. by apply bytes_of_string_of_bytes. Qed.

Section Keys.
Context `{HC : Cryptoki} `{HL : !CryptokiLaws} `{HU : UrlLib} `{HO : OpensslLib}.

Lemma with_session_Ok {R} h e (f : Pkcs11 -> Session -> outcome R HsmError) r :
  with_session h e f = Ok r -> exists p n, context h = Some p /\ session h = Some n /\ f p n = Ok r.
Proof. unfold with_session. destruct (session h), (context h); naive_solver. Qed.

(** The private keys that attributes select. *)
Definition selected (p : Pkcs11) (n : Session) (params : gmap string bytes) (o : ObjectHandle) : Prop :=
  has p n o (Class_ PRIVATE_KEY) /\
  (forall l, params !! "object"%string = Some l -> has p n o (Label l)) /\
  (forall i, params !! "id"%string = Some i -> has p n o (Id i)).

Lemma selected_selector p n (params : gmap string bytes) o :
  selected p n params o <->
  Forall (has p n o) (Class_ PRIVATE_KEY ::
    match params !! "object"%string with Some l => [Label l] | None => [] end ++
    match params !! "id"%string with Some id => [Id id] | None => [] end).
Proof.
  unfold selected. rewrite Forall_cons, Forall_app.
  destruct (params !! "object"%string), (params !! "id"%string); rewrite ?Forall_singleton, ?Forall_nil; naive_solver.
Qed.

Lemma label_attribute_in l v : label_attribute l = Some v -> Label v ∈ l.
Proof.
  unfold label_attribute. intros H. apply head_Some_elem_of in H. apply list_elem_of_omap in H as (a & Ha & E).
  destruct a; naive_solver.
Qed.

(** A label that was found names the only key the URI selects. *)
Lemma tls_key_label_sound h uri label : tls_key_label h uri = Ok label ->
  exists params p n o, parse_uri uri = Ok params /\ context h = Some p /\ session h = Some n /\
    not_private params = false /\ (is_Some (params !! "object"%string) \/ is_Some (params !! "id"%string)) /\
    (forall o', selected p n params o' <-> o' = o) /\ has p n o (Label (bytes_of_string label)).
Proof.
  unfold tls_key_label. intros H. take_ok H as params Ep. destruct (not_private params) eqn:En; [done|].
  take_ok H as u Et. set (sel := Class_ PRIVATE_KEY :: _) in H.
  destruct (length sel =? 1)%nat eqn:El; [done|]. apply with_session_Ok in H as (p & n & Hp & Hn & H).
  take_ok H as os Eo. apply of_lib_Ok in Eo. destruct os as [|o [|]]; try done.
  take_ok H as attrs Ea. apply of_lib_Ok in Ea. take_ok H as v Ev. apply ok_or_Ok in Ev, H.
  apply label_attribute_in in Ev. destruct (label_read _ _ _ _ _ Ea Ev) as [Hv Hh].
  exists params, p, n, o. split_and!; [done..| | |].
  - unfold sel in El. destruct (params !! "object"%string), (params !! "id"%string); [by left|by left|by right|done].
  - intros o'. rewrite selected_selector. pose proof (find_objects_found _ _ _ _ Eo ltac:(done) o') as Hf.
    rewrite list_elem_of_singleton in Hf. unfold sel in Hf. tauto.
  - by rewrite (from_utf8_bytes _ _ Hv H).
Qed.

(** What a signature for TLS is: of the data under the scheme's mechanism,
    or of its hash for ECDSA, whose two halves are then encoded. *)
Definition tls_signature (p : Pkcs11) (n : Session) (o : ObjectHandle) (data : bytes) (s : SignatureScheme)
    (sig : bytes) : Prop :=
  exists md mech, scheme_mechanism s = Some (md, mech) /\
    if is_ecdsa mech then
      exists digest r t, openssl_hash md data = inl digest /\ c_sign p n mech o digest = inl (r ++ t) /\
        length r = length t /\ r <> [] /\ ecdsa_sig_to_der r t = inl sig
    else c_sign p n mech o data = inl sig.

Lemma halves_length (l : bytes) : Nat.even (length l) = true -> (length l =? 0)%nat = false ->
  length (take (Nat.div2 (length l)) l) = length (drop (Nat.div2 (length l)) l) /\
  take (Nat.div2 (length l)) l <> [].
Proof.
  intros He Hz. apply Nat.even_spec in He as [k Hk]. rewrite Hk, Nat.div2_double.
  rewrite length_take, length_drop, Hk. split; [lia|]. intros E. apply (f_equal length) in E.
  rewrite length_take in E. apply Nat.eqb_neq in Hz. cbn in E. lia.
Qed.

Lemma sign_tls_sound h label data s sig : sign_tls h label data s = Ok sig ->
  exists p n o, context h = Some p /\ session h = Some n /\
    (forall o', has p n o' (Label (bytes_of_string label)) /\ has p n o' (Class_ PRIVATE_KEY) <-> o' = o) /\
    tls_signature p n o data s sig.
Proof.
  unfold sign_tls. intros H. apply with_session_Ok in H as (p & n & Hp & Hn & H). take_ok H as os Eo.
  apply of_lib_Ok in Eo. destruct os as [|o [|]]; try done. exists p, n, o. split_and!; [done..| |].
  - intros o'. pose proof (find_objects_found _ _ _ _ Eo ltac:(done) o') as Hf.
    rewrite list_elem_of_singleton in Hf. rewrite Hf, !Forall_cons, Forall_nil. naive_solver.
  - destruct (scheme_mechanism s) as [[md mech]|] eqn:Es; [|done]. exists md, mech. split; [done|].
    take_ok H as digest Ed. apply of_lib_Ok in Ed. take_ok H as raw Er. apply of_lib_Ok in Er.
    destruct (is_ecdsa mech); cbn [negb] in H; [|by injection H as ->].
    destruct (length raw =? 0)%nat eqn:Ez; [done|]. destruct (Nat.even (length raw)) eqn:Ev; [|done].
    cbn [orb negb] in H. apply of_lib_Ok in H. destruct (halves_length raw Ev Ez) as [H1 H2].
    eexists digest, _, _. split_and!; [done| |exact H1|exact H2|exact H]. by rewrite take_drop.
Qed.

(** The key a URI names signs. *)
Lemma tls_key_signs h uri label data s sig :
  tls_key_label h uri = Ok label -> sign_tls h label data s = Ok sig ->
  exists params p n o, parse_uri uri = Ok params /\ context h = Some p /\ session h = Some n /\
    (forall o', selected p n params o' <-> o' = o) /\ tls_signature p n o data s sig.
Proof.
  intros H1 H2. apply tls_key_label_sound in H1 as (params & p & n & o & Hpar & Hp & Hn & _ & _ & Ho & Hl).
  apply sign_tls_sound in H2 as (p' & n' & o' & Hp' & Hn' & Ho' & Hs). simplify_eq.
  replace o' with o in Hs; [by exists params, p, n, o|].
  apply Ho'. split; [done|]. apply (Ho o). done.
Qed.

(** ** Key pairs *)

(** A key pair that is generated is one the provider is known for, and
    its private key cannot leave the token.  Both keys are stored with the
    label and the identifier asked for; the private one is private,
    sensitive and not extractable, and nothing in its template says otherwise.
    But no provider is known for a post-quantum mechanism: a key pair of
    ML-DSA or ML-KEM is refused for each of the five, although the crate says
    that it supports both. *)
Theorem generate_keys_protected c s a label id supported :
  (forall k, (generate c s a label id supported).2 = Ok k ->
   (generation_mechanism a).2 ∈ supported /\ algorithm k = a /\
   exists p p' p'' public private, c = Some p /\
     session_open p s true = (p', inl (pair_session k)) /\
     generate_key_pair p' (pair_session k) (generation_mechanism a).1 public private =
       (p'', inl (public_key k, private_key k)) /\
     (forall t, t ∈ [Token true; Label (bytes_of_string label); Id id] -> t ∈ public /\ t ∈ private) /\
     (forall b, (Private b ∈ private -> b = true) /\ (Sensitive b ∈ private -> b = true) /\
        (Extractable b ∈ private -> b = false)) /\
     Private true ∈ private /\ Sensitive true ∈ private /\ Extractable false ∈ private) /\
  (forall v k, match a with MlDsaKey _ | MlKemKey _ => True | _ => False end ->
   (generate c s a label id (Providers.supported_mechanisms v)).2 <> Ok k).
Proof.
  split.
  - intros k. unfold generate, on_library. destruct c as [p|]; [|done]. unfold open_session.
    destruct (session_open p s true) as [p' [n|e]] eqn:Eo; cbn [of_lib sbind]; [|done].
    case_bool_decide as Hs; cbn [negb]; [|done].
    destruct (generate_key_pair _ _ _ _ _) as [p'' [[pub priv]|e]] eqn:Eg; [|done].
    intros [= <-]. split_and!; [done|done|]. cbn [pair_session public_key private_key].
    eexists p, p', p'', _, _. split_and!; [done|exact Eo|exact Eg| |..].
    + intros t. unfold public_template, private_template. rewrite !list_elem_of_In. cbn [In app]. tauto.
    + intros b. unfold private_template, parameter_set.
      destruct a as [bits|cv|l|l]; cbn [app]; split_and!; intros Hin;
        repeat (apply elem_of_cons in Hin as [Hin|Hin]; [by simplify_eq|]); by apply not_elem_of_nil in Hin.
    + unfold private_template. do 4 (first [apply list_elem_of_here|apply list_elem_of_further]).
    + unfold private_template. do 5 (first [apply list_elem_of_here|apply list_elem_of_further]).
    + unfold private_template. do 6 (first [apply list_elem_of_here|apply list_elem_of_further]).
  - intros v k Ha. unfold generate, on_library. destruct c as [p|]; [|done]. unfold open_session.
    destruct (session_open p s true) as [p' [n|e]]; cbn [of_lib sbind]; [|done].
    rewrite bool_decide_eq_false_2; [done|]. destruct a, v; try done; apply (bool_decide_eq_false_1 _); reflexivity.
Qed.
End Keys.

(** ** Examples *)

(** URLs that are all path, and escapes that are replaced. *)
Definition hex_value (c : Ascii.ascii) : Z :=
  let b := byte_of c in if b <? 65 then b - 48 else if b <? 97 then b - 55 else b - 87.
Fixpoint example_decode (s : string) : bytes :=
  match s with
  | EmptyString => []
  | String c r =>
      match r with
      | String h (String l r') =>
          if Ascii.eqb c "%" && hex_digit h && hex_digit l then (hex_value h * 16 + hex_value l) :: example_decode r'
          else byte_of c :: example_decode r
      | _ => byte_of c :: example_decode r
      end
  end.
#[export] Instance example_url : UrlLib := {
  Url := string * string;
  url_parse s := match split_once ":" s with Some p => inl p | None => inr "relative URL without a base"%string end;
  url_scheme u := u.1;
  url_host _ := None;
  url_username _ := EmptyString;
  url_password _ := None;
  url_path u := u.2;
  url_query _ := None;
  url_fragment _ := None;
  percent_decode := example_decode
}.
Lemma hex_value_char n : 0 <= n < 16 -> hex_value (hex_char n) = n.
Proof.
  intros H. unfold hex_value. rewrite hex_char_byte by done. destruct (n <? 10) eqn:E.
  - replace (48 + n <? 65) with true by blia. lia.
  - replace (55 + n <? 65) with false by blia. replace (55 + n <? 97) with true by blia. lia.
Qed.
Lemma example_decode_encode bs : Forall u8 bs -> example_decode (percent_encode bs) = bs.
Proof.
  induction 1 as [|b bs Hb _ IH]; [done|]. destruct (byte_nibbles b Hb) as [H1 H2].
  cbn [percent_encode example_decode]. rewrite Ascii.eqb_refl, !hex_char_digit, !hex_value_char by done. cbn [andb].
  rewrite IH. f_equal. rewrite Z.mul_comm. symmetry. apply Z.div_mod. done.
Qed.
#[export] Instance example_percent : PercentLaws := { percent_decode_encode := example_decode_encode }.

Lemma parse_uri_roundtrip_witness :
  let l := [("token"%string, bytes_of_string "Synthetic token"); ("object"%string, bytes_of_string "TLS;key");
            ("id"%string, [0; 255])] in
  exists url, url_parse ("pkcs11:" +:+ selector_path l) = inl url /\
    parse_uri ("pkcs11:" +:+ selector_path l) = Ok (list_to_map l).
Proof.
  cbv zeta. eexists. split; [vm_compute; reflexivity|].
  eapply parse_uri_roundtrip; [vm_compute; reflexivity|done| |..].
  - apply (bool_decide_unpack _). vm_compute. reflexivity.
  - repeat constructor; vm_compute; done.
  - reflexivity.
  - reflexivity.
  - reflexivity.
  - reflexivity.
  - vm_compute. reflexivity.
Defined.
Example duplicate_refused : parse_uri "pkcs11:object=a;object=b" = Err (UriParse "duplicate PKCS#11 attribute").
Proof. vm_compute. reflexivity. Qed.
Example cut_escape_refused : parse_uri "pkcs11:object=a%2" = Err (UriParse "invalid percent escape").
Proof. vm_compute. reflexivity. Qed.

(** A token: objects with their class, label and identifier, the handle of
    an object being its place. *)
Record ExampleObject : Type := MkObject { ob_class : ObjectClass; ob_label : bytes; ob_id : bytes }.
Definition class_eqb (a b : ObjectClass) : bool :=
  match a, b with PRIVATE_KEY, PRIVATE_KEY | PUBLIC_KEY, PUBLIC_KEY => true | _, _ => false end.
Definition object_has (o : ExampleObject) (a : Attribute) : bool :=
  match a with
  | Label l => bool_decide (ob_label o = l)
  | Id i => bool_decide (ob_id o = i)
  | Class_ c => class_eqb (ob_class o) c
  | _ => false
  end.
Definition object_at (t : list ExampleObject) (n : nat) (a : Attribute) : Prop :=
  exists o, t !! n = Some o /\ object_has o a = true.
Definition example_find (t : list ExampleObject) (sel : list Attribute) : list nat :=
  List.filter (fun n => match t !! n with Some o => forallb (object_has o) sel | None => false end) (seq 0 (length t)).
Definition example_label (t : list ExampleObject) (n : nat) : list Attribute + string :=
  match t !! n with
  | Some o => if forallb (in_range 0 255) (ob_label o) then inl [Label (ob_label o)] else inl []
  | None => inr "no object"%string
  end.
(** A key signs by its number, or, for ECDSA, with two bytes. *)
#[export] Instance example_cryptoki : Cryptoki := {
  Pkcs11 := list ExampleObject;
  Slot := nat;
  Session := unit;
  ObjectHandle := nat;
  slot_eqb := Nat.eqb;
  pkcs11_new _ := inl [];
  pkcs11_initialize t := (t, None);
  slot_try_from z := inl (Z.to_nat z);
  get_slots_with_token _ := inl [0%nat];
  get_token_info_label _ _ := inl "Synthetic token "%string;
  session_open t _ _ := (t, inl tt);
  session_login t _ _ _ := (t, None);
  find_objects t _ sel := inl (example_find t sel);
  get_attributes t _ n ty := match ty with TypeLabel => example_label t n | TypeValue => inl [] end;
  c_sign _ _ m n data := inl (Z.of_nat n :: (if is_ecdsa m then [1] else data));
  generate_key_pair t _ _ _ _ := (t, inl (0%nat, 0%nat));
  c_wrap_key _ _ _ _ _ := inr "no wrapping"%string;
  encapsulate_key t _ _ _ _ := (t, inr "no encapsulation"%string);
  decapsulate_key t _ _ _ _ _ := (t, inr "no decapsulation"%string);
  destroy_object t _ _ := (t, None)
}.
Lemma example_find_found (t : list ExampleObject) sel : sel <> [] ->
  forall o, o ∈ example_find t sel <-> Forall (object_at t o) sel.
Proof.
  intros Hne o. unfold example_find. rewrite list_elem_of_In, filter_In, in_seq. cbn beta.
  assert (Ht : forall x, t !! o = Some x -> forallb (object_has x) sel = true <-> Forall (object_at t o) sel).
  { intros x Hx. rewrite forallb_forall, Forall_forall. unfold object_at. setoid_rewrite list_elem_of_In.
    setoid_rewrite Hx. split; [intros H a Ha; exists x; auto|]. intros H a Ha. by destruct (H a Ha) as (y & [= <-] & ?). }
  destruct (t !! o) as [x|] eqn:Ex.
  - rewrite <- (Ht x eq_refl). apply lookup_lt_Some in Ex. split; [by intros [_ ?]|]. intros H. split; [lia|done].
  - split; [by intros [_ ?]|]. destruct sel as [|a sel]; [done|]. intros H. apply Forall_cons in H as [(x & Hx & _) _]. congruence.
Qed.
Lemma example_found (t : Pkcs11) (n : Session) sel os : find_objects t n sel = inl os -> sel <> [] ->
  forall o, o ∈ os <-> Forall (object_at t o) sel.
Proof. intros [= <-]. apply example_find_found. Qed.
Lemma example_label_has (t : list ExampleObject) o l v : example_label t o = inl l -> Label v ∈ l ->
  Forall u8 v /\ object_at t o (Label v).
Proof.
  unfold example_label, object_at. destruct (t !! o) as [x|]; [|done].
  destruct (forallb _ _) eqn:E; intros [= <-] H; [|by apply not_elem_of_nil in H].
  apply list_elem_of_singleton in H as [= ->]. split.
  - apply Forall_forall. intros b Hb. rewrite forallb_forall in E. apply list_elem_of_In in Hb. specialize (E b Hb).
    unfold in_range, u8 in *. blia.
  - exists x. split; [done|]. cbn. by apply bool_decide_eq_true.
Qed.
Lemma example_label_read (t : Pkcs11) (n : Session) o l v : get_attributes t n o TypeLabel = inl l -> Label v ∈ l ->
  Forall u8 v /\ object_at t o (Label v).
Proof. exact (example_label_has t o l v). Qed.
#[export] Instance example_cryptoki_laws : CryptokiLaws := {
  has t _ o a := object_at t o a;
  find_objects_found := example_found;
  label_read := example_label_read
}.
(** The public key of a certificate is its first byte. *)
#[export] Instance example_openssl : OpensslLib := {
  PKey := Z;
  openssl_hash _ data := inl [Z.of_nat (length data)];
  ecdsa_sig_to_der r s := inl (r ++ s);
  certificate_public_key der := match der with k :: _ => inl k | [] => inr "empty certificate"%string end;
  pkey_is_rsa k := k <? 2;
  pkey_bits _ := 2048;
  pkey_ec_curve _ := Some (Some P256);
  verify_oneshot k _ sig data := inl (bool_decide (sig = k :: data))
}.
Definition example_token : list ExampleObject :=
  [MkObject PRIVATE_KEY (bytes_of_string "CA") [7]; MkObject PRIVATE_KEY (bytes_of_string "TLS;key") [0; 255];
   MkObject PUBLIC_KEY (bytes_of_string "TLS;key") [0; 255]].
Definition example_hsm : HsmContext := hsm_context_new example_token Providers.Kryoptic 0%nat tt.
Example key_found : tls_key_label example_hsm "pkcs11:token=Synthetic%20token;id=%00%ff" = Ok "TLS;key"%string.
Proof. vm_compute. reflexivity. Qed.
(** The CA's signatures take the first of several keys with one label. *)
Example ambiguous_label :
  sign_data (hsm_context_new (example_token ++ [MkObject PRIVATE_KEY (bytes_of_string "CA") [8]])
               Providers.Kryoptic 0%nat tt) "CA" [5] "sha256" = Ok [0; 5].
Proof. vm_compute. reflexivity. Qed.
