(* ===== verification/Issuance.v ===== *)
(** * Issuing certificates

    [src/ca/issue.rs]: signing keys and their PKCS#11 URIs, enrollment
    profiles, the checks on a request, and the certificate that is built
    and signed.  The X.509 library is [X509Lib]; the clock readings of a
    call, its random bytes and the randomness of signatures are the record
    [IssueInputs].  An HSM is a function that signs under a key label. *)
From S2P Require Import Prelude Words Text Calendar Errors X509.
Open Scope Z_scope.

(** ** PKCS#11 URIs *)

Definition hex_digit (b : Z) : option Z :=
  if in_range 48 57 b then Some (b - 48)
  else if in_range 97 102 b then Some (b - 97 + 10)
  else if in_range 65 70 b then Some (b - 65 + 10)
  else None.

(** The loop of [pkcs11_percent_decode], at position [i].  A [%] with fewer
    than two bytes after it stands for itself. *)
Fixpoint percent_decode_from (i : Z) (bs : bytes) : outcome bytes string :=
  match bs with
  | [] => Ok []
  | b :: rest =>
      let literal := let? r := percent_decode_from (i + 1) rest in Ok (b :: r) in
      if b =? 37 then
        match rest with
        | h :: l :: rest' =>
            let? hi := ok_or (hex_digit h)
              ("invalid percent-encoding at position " +:+ pretty i) in
            let? lo := ok_or (hex_digit l)
              ("invalid percent-encoding at position " +:+ pretty (i + 1)) in
            let? r := percent_decode_from (i + 3) rest' in
            Ok (Z.lor (as_u8 (Z.shiftl hi 4)) lo :: r)
        | _ => literal
        end
      else literal
  end.

Section Pkcs11.
(** The text of [std::string::FromUtf8Error]. *)
Variable utf8_error_text : bytes -> string.

Definition pkcs11_percent_decode (s : string) : outcome string string :=
  let? r := percent_decode_from 0 (bytes_of_string s) in
  ok_or (from_utf8 r) ("invalid UTF-8 after percent-decoding: " +:+ utf8_error_text r).

Fixpoint find_object (parts : list string) : option string :=
  match parts with
  | [] => None
  | part :: parts' =>
      match split_once "=" part with
      | Some (key, value) => if String.eqb key "object" then Some value else find_object parts'
      | None => find_object parts'
      end
  end.

Definition parse_pkcs11_object_label (uri : string) : outcome string string :=
  let? path := ok_or (strip_prefix "pkcs11:" uri) ("not a pkcs11: URI: " +:+ uri) in
  match find_object (split_char ";" path) with
  | Some value => pkcs11_percent_decode value
  | None => Err ("pkcs11 URI missing 'object' attribute: " +:+ uri)
  end.
End Pkcs11.

(** ** Keys *)

(** [CaConfig] of [src/config/ca.rs] *)
Record CaConfig : Type := MkCaConfig {
  cfg_id : string;
  cfg_is_default : bool;
  cfg_key_file : string;
  cfg_cert_file : string;
  cfg_key_type : string;
  cfg_pkcs11_uri : option string;
  cfg_validity_days : Z;
  cfg_hash_algorithm : string;
  cfg_crl_url : option string;
  cfg_ocsp_url : option string;
  cfg_common_name : string;
  cfg_organization : string;
  cfg_crl_lifetime_secs : Z;
  cfg_cab_forum_compliant : bool
}.
Definition is_hsm_backed (c : CaConfig) : bool := bool_decide (is_Some (cfg_pkcs11_uri c)).

(** [HsmContext::sign_data]: key label, data, hash algorithm. *)
Abbreviation HsmContext := (string -> bytes -> string -> bytes + string).

(** [CaSigningKey] and [ResolvedSigningKey], which only differ in
    ownership. *)
Inductive CaSigningKey : Type :=
  | Pem (pem : bytes)
  | Hsm (context : HsmContext) (key_label : string).

(** [resolve_signing_key] and [resolve_signing_key_sync]. *)
Definition resolve_signing_key (utf8_error_text : bytes -> string)
    (read_file : string -> bytes + string) (ca_cfg : CaConfig) (hsm : option HsmContext)
  : outcome CaSigningKey KipukaError :=
  if is_hsm_backed ca_cfg then
    let? ctx := ok_or hsm (ECa "HSM not configured but CA has pkcs11_uri") in
    let? uri := ok_or (cfg_pkcs11_uri ca_cfg)
      (ECa "CA marked as HSM-backed but pkcs11_uri not configured") in
    let? label := map_err (fun e => ECa ("invalid pkcs11_uri: " +:+ e))
      (parse_pkcs11_object_label utf8_error_text uri) in
    Ok (Hsm ctx label)
  else
    let? pem := of_lib
      (fun e => ECa ("failed to read CA key " +:+ cfg_key_file ca_cfg +:+ ": " +:+ e))
      (read_file (cfg_key_file ca_cfg)) in
    Ok (Pem pem).

(** ** Profiles *)

Record EnrollmentProfile : Type := MkProfile {
  profile_name : string;
  max_validity_days : Z;               (* u32 *)
  max_validity_seconds : option Z;     (* u64 *)
  max_not_after : option Z;
  key_usage : list string;
  extended_key_usage : list string;
  include_ski : bool;
  include_aki : bool;
  min_rsa_bits : Z;                    (* u32 *)
  min_ecdsa_curve : string;
  ct_enabled : bool;
  certificate_policies : list string;
  allowed_ml_dsa_levels : list string;
  allowed_ml_kem_levels : list string;
  allow_composite_ml_dsa : bool;
  require_dual_cert : bool;
  must_staple : bool
}.

(** [cab_forum_max_validity_days] at the time [now]. *)
Definition cab_forum_max_validity_days (now : Z) : Z :=
  let today := date_naive now in
  let p200 := days_from_civil 2026 3 15 in
  let p100 := days_from_civil 2027 3 15 in
  let p47 := days_from_civil 2029 3 15 in
  if today <? p200 then 398
  else if today <? p100 then 200
  else if today <? p47 then 100
  else 47.

Definition enrollment_profile_default (now : Z) : EnrollmentProfile :=
  MkProfile "default" (cab_forum_max_validity_days now) None None
    ["digitalSignature"; "keyEncipherment"] ["serverAuth"] true true 2048 "P-256" false
    ["2.23.140.1.2.1"] ["ml-dsa-44"; "ml-dsa-65"; "ml-dsa-87"]
    ["ml-kem-512"; "ml-kem-768"; "ml-kem-1024"] true false false.

Definition TLS_FEATURE_MUST_STAPLE_DER : bytes := [0x30; 0x03; 0x02; 0x01; 0x05].
Definition OID_TLS_FEATURE_COMPONENTS : oid := [1; 3; 6; 1; 5; 5; 7; 1; 24].

Record IssuanceResult : Type := MkIssued {
  certificate_der : bytes;
  serial_number : string;
  subject_dn : string;
  not_before : Z;
  not_after : Z
}.

(** What a call of [issue_certificate] reads from outside: the clock in
    [check_validity_period], at step 9 and in [valid_now], twenty random
    bytes, the signature's randomness; and the largest [DateTime]. *)
Record IssueInputs {Coins : Type} : Type := MkInputs {
  now_check : Z;
  now_issue : Z;
  now_ca : Z;
  entropy : bytes;
  coins : Coins;
  max_utc : Z
}.
Arguments IssueInputs : clear implicits.
Arguments MkInputs {Coins}.

(** ** Checks of a request *)

Section Issue.
Context `{X509Lib}.

Abbreviation result T := (outcome T IssuanceError).

Definition invalid_csr (context : string) (e : string) : IssuanceError :=
  InvalidCsr (context +:+ e).
Definition parse_csr (context : string) (csr_der : bytes) : result Csr :=
  of_lib (invalid_csr context) (csr_from_der csr_der).

Definition verify_csr_pop (csr_der : bytes) : result unit :=
  let? csr := parse_csr "CSR parse failed: " csr_der in
  let? _ :=
    match identify_public_key_algorithm (csr_key_algorithm csr) with
    | Some name =>
        if String.eqb name ML_KEM_512 || String.eqb name ML_KEM_768 || String.eqb name ML_KEM_1024
        then Err (InvalidCsr (name +:+
               " is a key-encapsulation key and cannot self-sign; ML-KEM proof-of-possession (a separate ML-DSA signature) is not yet supported"))
        else Ok tt
    | None => Ok tt
    end in
  let? cri_der := of_lib (invalid_csr "CSR CRI encode failed: ") (csr_cri csr) in
  let? sig_alg_der :=
    of_lib (invalid_csr "CSR sig alg encode failed: ") (csr_signature_algorithm csr) in
  let? spki_der := of_lib (invalid_csr "CSR SPKI encode failed: ") (csr_spki csr) in
  of_lib (invalid_csr "CSR self-signature (proof-of-possession) verification failed: ")
    (verify_signature cri_der sig_alg_der (csr_signature csr) spki_der).

(** The index [csr_der[0]] follows the emptiness check. *)
Definition validate_csr (csr_der : bytes) : result unit :=
  match csr_der with
  | [] => Err (InvalidCsr "empty CSR")
  | b :: _ =>
      if negb (b =? 0x30) then Err (InvalidCsr "does not start with ASN.1 SEQUENCE")
      else
        let? csr := parse_csr "PKCS#10 parse failed: " csr_der in
        let encode_error := invalid_csr "CSR encoding: " in
        let? cri := of_lib encode_error (csr_cri csr) in
        let? algorithm := of_lib encode_error (csr_signature_algorithm csr) in
        let? spki := of_lib encode_error (csr_spki csr) in
        of_lib (invalid_csr "CSR proof of possession failed: ")
          (verify_signature cri algorithm (csr_signature csr) spki)
  end.

Definition check_subject_dn_compliance (csr_der : bytes) : result unit :=
  let? csr := parse_csr "CSR parse failed: " csr_der in
  let? subject_der := of_lib (invalid_csr "subject DN encode failed: ") (csr_subject csr) in
  match List.find (fun attr => String.eqb attr.1 "2.5.4.11") (parse_name_attrs subject_der) with
  | Some (o, _) => Err (ProhibitedDnAttribute o "organizationalUnitName")
  | None => Ok tt
  end.

(** FIPS 204 and FIPS 203 identifiers: name and level. *)
Definition PQC_ALGORITHMS : list (string * string * string) :=
  [("2.16.840.1.101.3.4.3.17", "ML-DSA-44", "ml-dsa-44");
   ("2.16.840.1.101.3.4.3.18", "ML-DSA-65", "ml-dsa-65");
   ("2.16.840.1.101.3.4.3.19", "ML-DSA-87", "ml-dsa-87");
   ("2.16.840.1.101.3.4.4.1", "ML-KEM-512", "ml-kem-512");
   ("2.16.840.1.101.3.4.4.2", "ML-KEM-768", "ml-kem-768");
   ("2.16.840.1.101.3.4.4.3", "ML-KEM-1024", "ml-kem-1024")].

Definition min_curve_bits (curve : string) : Z :=
  if String.eqb curve "P-256" then 256
  else if String.eqb curve "P-384" then 384
  else if String.eqb curve "P-521" then 521
  else 256.

(** The arm of [check_key_size] for keys that are neither RSA nor EC. *)
Definition check_unknown_key (o : oid) (p : EnrollmentProfile) : result unit :=
  let oid_str := oid_to_string o in
  match List.find (fun a => String.eqb a.1.1 oid_str) PQC_ALGORITHMS with
  | Some (_, display_name, level) =>
      let allowed :=
        if starts_with "ml-dsa" level then allowed_ml_dsa_levels p else allowed_ml_kem_levels p in
      if negb (bool_decide (allowed = [])) && negb (existsb (String.eqb level) allowed)
      then Err (AlgorithmNotAllowed display_name (profile_name p))
      else Ok tt
  | None =>
      if starts_with "2.16.840.1.114027.80.5.2." oid_str then
        if negb (allow_composite_ml_dsa p)
        then Err (AlgorithmNotAllowed ("composite ML-DSA (" +:+ oid_str +:+ ")") (profile_name p))
        else Ok tt
      else Ok tt
  end.

Definition check_key_size (csr_der : bytes) (p : EnrollmentProfile) : result unit :=
  let? csr := parse_csr "CSR parse failed in key size check: " csr_der in
  match csr_public_key_info csr with
  | Rsa bit_count =>
      if as_u32 bit_count <? min_rsa_bits p
      then Err (KeyTooSmall "RSA" (as_u32 bit_count) (min_rsa_bits p))
      else Ok tt
  | Ec bit_count curve =>
      let min_bits := min_curve_bits (min_ecdsa_curve p) in
      if bit_count <? min_bits
      then Err (KeyTooSmall ("EC " +:+ default "unknown" curve) (as_u32 bit_count) min_bits)
      else Ok tt
  | UnknownKey _ _ => check_unknown_key (csr_key_algorithm csr) p
  end.

Definition check_validity_period (now : Z) (p : EnrollmentProfile) : result unit :=
  let max_days := cab_forum_max_validity_days now in
  if max_days <? max_validity_days p then Err (ValidityTooLong (max_validity_days p) max_days)
  else Ok tt.

Definition check_required_extensions (p : EnrollmentProfile) : result unit :=
  if negb (include_aki p) then
    Err (MissingExtension "Authority Key Identifier (required by CA/B Forum)")
  else if negb (include_ski p) then
    Err (MissingExtension "Subject Key Identifier (required by CA/B Forum)")
  else if bool_decide (key_usage p = []) then
    Err (MissingExtension "Key Usage (required by CA/B Forum)")
  else Ok tt.

(** The innermost loop of [requested_extensions]; [found] are the
    extensions collected so far. *)
Fixpoint collect_extensions (found : list Extension) (exts : list RawExtension)
  : result (list Extension) :=
  match exts with
  | [] => Ok found
  | (o, critical, value) :: exts' =>
      if existsb (fun e => bool_decide (e.1.1 = o)) found
      then Err (InvalidCsr "duplicate requested extension")
      else collect_extensions (found ++ [(o, default false critical, value)]) exts'
  end.
Fixpoint collect_values (found : list Extension) (values : list bytes) : result (list Extension) :=
  match values with
  | [] => Ok found
  | v :: values' =>
      let? exts := of_lib (invalid_csr "requested extensions: ") (decode_extensions v) in
      let? found := collect_extensions found exts in
      collect_values found values'
  end.
Fixpoint collect_attributes (found : list Extension) (attrs : list (oid * list bytes))
  : result (list Extension) :=
  match attrs with
  | [] => Ok found
  | (o, values) :: attrs' =>
      if negb (bool_decide (o = PKCS9_EXTENSION_REQUEST)) then collect_attributes found attrs'
      else
        let? found := collect_values found values in
        collect_attributes found attrs'
  end.
Definition requested_extensions (csr_der : bytes) : result (list Extension) :=
  let? csr := of_lib InvalidCsr (csr_from_der csr_der) in
  match csr_attributes csr with
  | Some attrs => collect_attributes [] attrs
  | None => Ok []
  end.

(** ** Extensions of the certificate *)

Definition key_usage_bit (ku : string) : Z :=
  if String.eqb ku "digitalSignature" then Z.shiftl 1 KEY_USAGE_DIGITAL_SIGNATURE
  else if String.eqb ku "nonRepudiation" || String.eqb ku "contentCommitment"
  then Z.shiftl 1 KEY_USAGE_NON_REPUDIATION
  else if String.eqb ku "keyEncipherment" then Z.shiftl 1 KEY_USAGE_KEY_ENCIPHERMENT
  else if String.eqb ku "dataEncipherment" then Z.shiftl 1 KEY_USAGE_DATA_ENCIPHERMENT
  else if String.eqb ku "keyAgreement" then Z.shiftl 1 KEY_USAGE_KEY_AGREEMENT
  else 0.
Definition profile_key_usage_bits (p : EnrollmentProfile) : Z :=
  fold_left (fun bits ku => Z.lor bits (key_usage_bit ku)) (key_usage p) 0.

Definition key_purpose (eku : string) : option KeyPurpose :=
  if String.eqb eku "serverAuth" then Some ServerAuth
  else if String.eqb eku "clientAuth" then Some ClientAuth
  else if String.eqb eku "codeSigning" then Some CodeSigning
  else if String.eqb eku "emailProtection" then Some EmailProtection
  else if String.eqb eku "timeStamping" then Some TimeStamping
  else if String.eqb eku "OCSPSigning" || String.eqb eku "ocspSigning" then Some OcspSigning
  else None.
Definition profile_extended_key_usage (p : EnrollmentProfile) : option bytes :=
  if bool_decide (extended_key_usage p = []) then None
  else
    match build_extended_key_usage (omap key_purpose (extended_key_usage p)) with
    | inl der => Some der
    | inr _ => None
    end.

Fixpoint parse_components (oid_str : string) (parts : list string) : result oid :=
  match parts with
  | [] => Ok []
  | s :: parts' =>
      let? c := map_err (fun e => InvalidCsr ("invalid policy OID '" +:+ oid_str +:+ "': " +:+ e))
        (parse_unsigned (2 ^ 32 - 1) s) in
      let? cs := parse_components oid_str parts' in
      Ok (c :: cs)
  end.
Fixpoint parse_policies (policy_oids : list string) : result (list oid) :=
  match policy_oids with
  | [] => Ok []
  | o :: rest =>
      let? components := parse_components o (split_char "." o) in
      let? others := parse_policies rest in
      Ok (components :: others)
  end.
Definition encode_certificate_policies (policy_oids : list string) : result bytes :=
  let? policies := parse_policies policy_oids in
  of_lib (fun e => SigningError ("Certificate Policies encoding failed: " +:+ e))
    (build_certificate_policies policies).
Definition encode_aia_extension (ocsp_url : string) : result bytes :=
  of_lib (fun e => SigningError ("AIA encoding failed: " +:+ e)) (build_ocsp_access ocsp_url).
Definition encode_cdp_extension (crl_url : string) : result bytes :=
  of_lib (fun e => SigningError ("CDP encoding failed: " +:+ e)) (build_crl_distribution crl_url).

(** Add an extension if there is a value. *)
Definition add_if (o : oid) (critical : bool) (v : option bytes) (t : TbsTemplate) : TbsTemplate :=
  match v with Some der => add_extension t (o, critical, der) | None => t end.
(** Add the extension [f] computes from a configured URL. *)
Definition add_url (o : oid) (f : string -> result bytes) (url : option string) (t : TbsTemplate)
  : result TbsTemplate :=
  match url with
  | Some u => let? der := f u in Ok (add_extension t (o, false, der))
  | None => Ok t
  end.

(** Step 10: the requested subjectAltName, then the profile's extensions. *)
Definition build_extensions (csr_der csr_spki_der ca_spki_der : bytes) (p : EnrollmentProfile)
    (ocsp_url crl_url : option string) (t : TbsTemplate) : result TbsTemplate :=
  let? requested := requested_extensions csr_der in
  let t := fold_left (fun t (e : Extension) =>
    if bool_decide (e.1.1 = SUBJECT_ALT_NAME) then add_extension t e else t) requested t in
  let t := add_if BASIC_CONSTRAINTS true (encode_basic_constraints false None) t in
  let t := add_if KEY_USAGE true (encode_key_usage (profile_key_usage_bits p)) t in
  let t := add_if EXTENDED_KEY_USAGE false (profile_extended_key_usage p) t in
  let? t :=
    if bool_decide (certificate_policies p = []) then Ok t
    else
      let? cp_der := encode_certificate_policies (certificate_policies p) in
      Ok (add_extension t (CERTIFICATE_POLICIES, false, cp_der)) in
  let t :=
    if include_ski p
    then add_if SUBJECT_KEY_IDENTIFIER false (encode_subject_key_identifier csr_spki_der) t
    else t in
  let t :=
    if include_aki p
    then add_if AUTHORITY_KEY_IDENTIFIER false (encode_authority_key_identifier ca_spki_der) t
    else t in
  let? t := add_url AUTHORITY_INFO_ACCESS encode_aia_extension ocsp_url t in
  let? t := add_url CRL_DISTRIBUTION_POINTS encode_cdp_extension crl_url t in
  Ok (if must_staple p
      then add_extension t (OID_TLS_FEATURE_COMPONENTS, false, TLS_FEATURE_MUST_STAPLE_DER)
      else t).

(** ** Signing *)

(** [HsmCertificateSigner] *)
Definition hsm_algorithm (last : Z) : bytes :=
  [0x30; 0x0d; 0x06; 0x09; 0x2a; 0x86; 0x48; 0x86; 0xf7; 0x0d; 0x01; 0x01; last; 0x05; 0x00].
Definition hsm_signature_algorithm_der (hash_algorithm : string) : bytes + string :=
  if String.eqb hash_algorithm "sha256" then inl (hsm_algorithm 0x0b)
  else if String.eqb hash_algorithm "sha384" then inl (hsm_algorithm 0x0c)
  else if String.eqb hash_algorithm "sha512" then inl (hsm_algorithm 0x0d)
  else inr ("unsupported hash algorithm for HSM RSA signing: " +:+ hash_algorithm).
Definition HsmCertificateSigner (context : HsmContext) (key_label hash_algorithm : string)
  : CertificateSigner :=
  MkSigner (hsm_signature_algorithm_der hash_algorithm)
    (fun tbs_der =>
       match context key_label tbs_der hash_algorithm with
       | inl sig => inl sig
       | inr e => inr ("PKCS#11 sign failed: " +:+ e)
       end).

(** Twenty random bytes, the first made positive and non-zero. *)
Definition generate_serial_bytes (random : bytes) : bytes :=
  match random with
  | [] => []
  | b :: rest =>
      let b := Z.land b 0x7F in
      (if b =? 0 then 1 else b) :: rest
  end.

(** Step 9 up to the lower bound: [Duration::seconds] panics on more than
    [i64::MAX] milliseconds, the sum of a time and a duration beyond the
    largest time. *)
Definition validity_end (i : IssueInputs Coins) (p : EnrollmentProfile) (ca_cert_der : bytes)
    (ca_cert : Cert) : result Z :=
  let now := now_issue i in
  let days_end := now + max_validity_days p * DAY_NS in
  if max_utc i <? days_end then Panic
  else
    let? not_after :=
      match max_validity_seconds p with
      | Some seconds =>
          if 2 ^ 63 <=? seconds then Err (SigningError "validity overflow")
          else if (2 ^ 63 - 1) / 1000 <? seconds then Panic
          else if max_utc i <? now + seconds * SECS then Err (SigningError "validity overflow")
          else Ok (Z.min days_end (now + seconds * SECS))
      | None => Ok days_end
      end in
    let not_after :=
      match max_not_after p with Some limit => Z.min not_after limit | None => not_after end in
    let? _ := map_err SigningError (valid_now (now_ca i) ca_cert_der) in
    let? ca_end := map_err SigningError (time (cert_not_after ca_cert)) in
    let not_after := Z.min not_after ca_end in
    if not_after <=? now then Err (SigningError "empty certificate validity period")
    else Ok not_after.

Definition cert_time (context : string) (t : Z) : result CertTime :=
  map_err (fun e => SigningError (context +:+ e)) (chrono_to_synta_time t).

(** Step 7: a PEM key must parse; [None] is the HSM's. *)
Definition load_pem_key (k : CaSigningKey) : result (option PrivateKey) :=
  match k with
  | Pem pem =>
      let? key := of_lib (fun e => SigningError ("CA key parse failed: " +:+ e))
                    (key_from_pem pem) in
      Ok (Some key)
  | Hsm _ _ => Ok None
  end.
(** Step 11: [expect] on the key loaded in step 7. *)
Definition sign_certificate (c : Coins) (k : CaSigningKey) (pem_key : option PrivateKey)
    (hash_algorithm : string) (t : TbsTemplate) : result bytes :=
  match k with
  | Pem _ =>
      match pem_key with
      | Some ca_pkey =>
          let effective_hash :=
            if String.eqb hash_algorithm "none" then EmptyString else hash_algorithm in
          of_lib (fun e => SigningError ("certificate signing failed: " +:+ e))
            (build_and_sign t (as_signer c ca_pkey effective_hash))
      | None => Panic
      end
  | Hsm context key_label =>
      of_lib (fun e => SigningError ("HSM certificate signing failed: " +:+ e))
        (build_and_sign t (HsmCertificateSigner context key_label hash_algorithm))
  end.

Definition issue_verified_request (i : IssueInputs Coins) (csr_der : bytes)
    (p : EnrollmentProfile) (ca_cert_der : bytes) (signing_key : CaSigningKey)
    (hash_algorithm : string) (ocsp_url crl_url : option string) : result IssuanceResult :=
  let? _ := check_subject_dn_compliance csr_der in
  let? _ := check_key_size csr_der p in
  let? _ := check_validity_period (now_check i) p in
  let? _ := check_required_extensions p in
  let? csr := parse_csr "CSR parse failed: " csr_der in
  let? csr_subject_der := of_lib (invalid_csr "CSR subject encode failed: ") (csr_subject csr) in
  let? csr_spki_der := of_lib (invalid_csr "CSR SPKI encode failed: ") (csr_spki csr) in
  let? ca_cert := of_lib (fun e => SigningError ("CA cert parse failed: " +:+ e))
    (cert_from_der ca_cert_der) in
  let? ca_spki_der := of_lib (fun e => SigningError ("CA SPKI encode failed: " +:+ e))
    (cert_spki ca_cert) in
  let? pem_key := load_pem_key signing_key in
  let serial_bytes := generate_serial_bytes (entropy i) in
  let? na := validity_end i p ca_cert_der ca_cert in
  let? not_before_time := cert_time "not_before time conversion: " (now_issue i) in
  let? not_after_time := cert_time "not_after time conversion: " na in
  let builder := MkTbs (cert_subject ca_cert) csr_subject_der csr_spki_der serial_bytes
    not_before_time not_after_time [] in
  let? builder := build_extensions csr_der csr_spki_der ca_spki_der p ocsp_url crl_url builder in
  let? cert_der := sign_certificate (coins i) signing_key pem_key hash_algorithm builder in
  Ok (MkIssued cert_der (hex_encode serial_bytes) (format_dn csr_subject_der) (now_issue i) na).

Definition issue_certificate (i : IssueInputs Coins) (csr_der : bytes) (p : EnrollmentProfile)
    (ca_cert_der : bytes) (signing_key : CaSigningKey) (hash_algorithm : string)
    (ocsp_url crl_url : option string) : result IssuanceResult :=
  let? _ := verify_csr_pop csr_der in
  let? _ := validate_csr csr_der in
  issue_verified_request i csr_der p ca_cert_der signing_key hash_algorithm ocsp_url crl_url.

(** ** CRMF requests *)

(** The fields the program reads of a [CertReqMsg]: [poposkInput] of a
    signature proof only by its presence, other proofs not at all. *)
Inductive ProofOfPossession : Type :=
  | PopSignature (poposk_input : bool) (algorithm : bytes + string) (signature : bytes)
  | PopOther.
Record CertReqMsg : Type := MkCertReqMsg {
  template_subject : option (bytes + string);
  template_public_key : option (bytes + string);
  template_extensions : option (list RawExtension);
  cert_req_der : bytes + string;
  popo : option ProofOfPossession
}.

Definition resolve_critical (e : RawExtension) : Extension :=
  (e.1.1, default false e.1.2, e.2).

(** The checks of [issue_crmf_certificate], and the request as PKCS#10. *)
Definition crmf_to_csr (request : CertReqMsg) : result bytes :=
  let invalid := invalid_csr "CRMF encoding: " in
  let? subject := ok_or (template_subject request) (InvalidCsr "CRMF subject required") in
  let? subject := of_lib invalid subject in
  let? spki := ok_or (template_public_key request) (InvalidCsr "CRMF public key required") in
  let? spki := of_lib invalid spki in
  match popo request with
  | Some (PopSignature poposk_input alg signature) =>
      if poposk_input
      then Err (InvalidCsr "unexpected poposkInput for complete CertTemplate")
      else
        let? tbs := of_lib invalid (cert_req_der request) in
        let? algorithm := of_lib invalid alg in
        let? _ := of_lib (invalid_csr "CRMF proof of possession failed: ")
          (verify_signature tbs algorithm signature spki) in
        let exts := map resolve_critical (default [] (template_extensions request)) in
        let? cri := of_lib InvalidCsr (build_cri subject spki exts algorithm) in
        of_lib InvalidCsr (assemble_csr cri algorithm signature)
  | _ => Err (InvalidCsr "supported CRMF signature proof of possession required")
  end.

Definition issue_crmf_certificate (i : IssueInputs Coins) (request : CertReqMsg)
    (p : EnrollmentProfile) (ca_cert_der : bytes) (signing_key : CaSigningKey)
    (hash_algorithm : string) (ocsp_url crl_url : option string) : result IssuanceResult :=
  let? csr := crmf_to_csr request in
  issue_verified_request i csr p ca_cert_der signing_key hash_algorithm ocsp_url crl_url.

(** ** Protocol messages *)

Definition sign_message (c : Coins) (key : CaSigningKey) (hash : string) (message : bytes)
  : outcome (bytes * bytes) KipukaError :=
  let err e := ECa ("message signing failed: " +:+ e) in
  let? signer :=
    match key with
    | Pem pem => let? k := of_lib err (key_from_pem pem) in Ok (as_signer c k hash)
    | Hsm context key_label => Ok (HsmCertificateSigner context key_label hash)
    end in
  let? alg := of_lib err (signature_algorithm_der signer) in
  let? sig := of_lib err (sign_tbs signer message) in
  Ok (alg, sig).
End Issue.
