(* ===== verification/Der.v ===== *)
(** * Writing DER

    The interface of the encoder that the server builds its ASN.1 structures
    with (the [synta] library): constructed values are opened and closed,
    primitive ones written between.  A tree of values, [Der], is the
    reference: under the laws of the interface, a routine that writes a tree
    appends the tree's encoding. *)
From S2P Require Import Prelude Words Text Errors X509.
Open Scope Z_scope.

Inductive Tag : Type := universal_constructed (n : Z) | context_specific_constructed (n : Z).

Class Encoder : Type := {
  Enc : Type;
  encoder_new : Enc;
  start_constructed : Tag -> Enc -> Enc + string;
  end_constructed : Enc -> Enc + string;
  ObjectId : Type;
  object_id : oid -> ObjectId + string;
  encode_oid : ObjectId -> Enc -> Enc + string;
  encode_integer : Z -> Enc -> Enc + string;
  encode_null : Enc -> Enc + string;
  encode_utf8 : string -> Enc -> Enc + string;
  write_bytes : bytes -> Enc -> Enc;
  finish : Enc -> bytes + string;
  TAG_SEQUENCE : Z;
  TAG_SET : Z
}.

Section Der.
Context `{Encoder}.

Definition seq_tag : Tag := universal_constructed TAG_SEQUENCE.
Definition set_tag : Tag := universal_constructed TAG_SET.

(** What writing [b] does to the values that are open, innermost first, with
    what is in them, and to the finished output. *)
Definition view_write (b : bytes) (v : list (Tag * bytes) * bytes) : list (Tag * bytes) * bytes :=
  match v with
  | ([], o) => ([], o ++ b)
  | ((t, c) :: l, o) => ((t, c ++ b) :: l, o)
  end.

(** Encoding in memory succeeds.  The laws give the encodings of the parts,
    and the state of an encoder. *)
Class EncoderLaws : Type := {
  tlv : Tag -> bytes -> bytes;
  oid_der : ObjectId -> bytes;
  integer_der : Z -> bytes;
  null_der : bytes;
  utf8_der : string -> bytes;
  view : Enc -> list (Tag * bytes) * bytes;
  view_new : view encoder_new = ([], []);
  start_ok t e : exists e', start_constructed t e = inl e' /\
    view e' = ((t, []) :: (view e).1, (view e).2);
  end_ok e t c l o : view e = ((t, c) :: l, o) ->
    exists e', end_constructed e = inl e' /\ view e' = view_write (tlv t c) (l, o);
  oid_ok i e : exists e', encode_oid i e = inl e' /\ view e' = view_write (oid_der i) (view e);
  integer_ok z e : exists e', encode_integer z e = inl e' /\
    view e' = view_write (integer_der z) (view e);
  null_ok e : exists e', encode_null e = inl e' /\ view e' = view_write null_der (view e);
  utf8_ok s e : exists e', encode_utf8 s e = inl e' /\ view e' = view_write (utf8_der s) (view e);
  bytes_ok b e : view (write_bytes b e) = view_write b (view e);
  finish_ok e o : view e = ([], o) -> finish e = inl o
}.

(** ** The reference *)

#[warnings="-register-all"]
Inductive Der : Type :=
  | Node (t : Tag) (l : list Der)
  | OidValue (o : ObjectId)
  | IntegerValue (z : Z)
  | NullValue
  | Utf8Value (s : string)
  | RawValue (b : bytes).

Context `{!EncoderLaws}.

Fixpoint der (d : Der) : bytes :=
  match d with
  | Node t l => tlv t ((fix ders (l : list Der) : bytes :=
                          match l with [] => [] | d :: l' => der d ++ ders l' end) l)
  | OidValue o => oid_der o
  | IntegerValue z => integer_der z
  | NullValue => null_der
  | Utf8Value s => utf8_der s
  | RawValue b => b
  end.
Definition ders (l : list Der) : bytes := concat (map der l).

Lemma der_Node t l : der (Node t l) = tlv t (ders l).
Proof.
  simpl. f_equal. unfold ders. induction l as [|d l IH]; simpl; [done|]. by rewrite IH.
Qed.

Lemma ders_app l1 l2 : ders (l1 ++ l2) = ders l1 ++ ders l2.
Proof. unfold ders. by rewrite map_app, concat_app. Qed.

Lemma ders_cons d l : ders (d :: l) = der d ++ ders l.
Proof. done. Qed.
Lemma ders_nil : ders [] = [].
Proof. done. Qed.

Lemma view_write_open b t c l o : view_write b ((t, c) :: l, o) = ((t, c ++ b) :: l, o).
Proof. done. Qed.
Lemma view_write_done b o : view_write b ([], o) = ([], o ++ b).
Proof. done. Qed.

Lemma view_write_app b1 b2 v : view_write b2 (view_write b1 v) = view_write (b1 ++ b2) v.
Proof. destruct v as [[|[t c] l] o]; simpl; by rewrite <- app_assoc. Qed.

Lemma view_write_nil v : view_write [] v = v.
Proof. destruct v as [[|[t c] l] o]; simpl; by rewrite app_nil_r. Qed.
End Der.

(** Runs the next operation of the goal on an encoder whose view is known. *)
Ltac der_next Hk lem :=
  let e' := fresh "enc" in let E := fresh "E" in let Hv := fresh "Hv" in
  destruct lem as (e' & E & Hv); rewrite E; clear E; cbn [of_lib obind];
  try rewrite Hk in Hv; clear Hk;
  cbn [fst snd] in Hv; rewrite ?view_write_open, ?view_write_done, ?view_write_app in Hv.
Ltac der_step :=
  match goal with
  | Hk : view ?e = _ |- context [start_constructed ?t ?e] => der_next Hk (start_ok t e)
  | Hk : view ?e = _ |- context [end_constructed ?e] => der_next Hk (end_ok _ _ _ _ _ Hk)
  | Hk : view ?e = _ |- context [encode_oid ?i ?e] => der_next Hk (oid_ok i e)
  | Hk : view ?e = _ |- context [encode_integer ?z ?e] => der_next Hk (integer_ok z e)
  | Hk : view ?e = _ |- context [encode_null ?e] => der_next Hk (null_ok e)
  | Hk : view ?e = _ |- context [encode_utf8 ?s ?e] => der_next Hk (utf8_ok s e)
  | Hk : view ?e = _ |- context [write_bytes ?b ?e] =>
      let Hv := fresh "Hv" in
      pose proof (bytes_ok b e) as Hv; rewrite Hk in Hv; clear Hk; rewrite ?view_write_open, ?view_write_done, ?view_write_app in Hv;
      generalize dependent (write_bytes b e); intros
  | Hk : view ?e = ([], _) |- context [finish ?e] => rewrite (finish_ok _ _ Hk); cbn [of_lib obind]
  end.
Ltac der_run := repeat der_step.
Ltac der_view := match goal with Hk : view ?e = _ |- context [view ?e] => rewrite Hk end.
(** The next step is a routine of the program, of which [lem] speaks. *)
Ltac der_apply lem Hn :=
  match goal with
  | Hk : view ?e = ?v |- context [?e] => pose proof (lem e v Hk) as Hn
  end.
(** Both sides of an equation between encodings as concatenations. *)
Ltac der_eq :=
  repeat first [rewrite ders_app | rewrite ders_cons | rewrite ders_nil | rewrite der_Node];
  cbn [der]; rewrite ?app_nil_l, ?app_nil_r, <- ?app_assoc; try done.
