(* ===== verification/ExampleLibs.v ===== *)
(** * A small X.509 library

    An instance of [X509Lib] on which the theorems about issuance are tried:
    a request is four bytes (a tag, subject, key, signature) and padding, signed if the
    signature is the key's byte; a certificate is three (a tag, subject,
    issuer), or a hundred and more of which the rest is padding, valid from 2025 to 2030.  Every request asks for a
    subjectAltName and to become a CA. *)
From S2P Require Import Prelude Words Text Calendar X509.
Open Scope Z_scope.

Definition example_csr (der : bytes) : (Z * Z * Z) + string :=
  match der with
  | 48 :: subject :: key :: sig :: _ => inl (subject, key, sig)
  | _ => inr "not a request"
  end.

Definition example_cert (der : bytes) : (Z * Z) + string :=
  match der with
  | [48; subject; issuer] | [48; subject; issuer; _] => inl (subject, issuer)
  | 48 :: subject :: issuer :: padding =>
      if Z.of_nat (length padding) <? 97 then inr "not a certificate" else inl (subject, issuer)
  | _ => inr "not a certificate"
  end.

(** Extensions that start with a SEQUENCE are distribution points and the
    issuer's key identifier too. *)
Definition cdp_of (v : bytes) : list RawExtension :=
  match v with 48 :: _ => [([2; 31], None, v); ([2; 35], None, v)] | _ => [] end.

#[export] Instance example_x509 : X509Lib := {
  Csr := Z * Z * Z;
  csr_from_der := example_csr;
  csr_subject c := inl [c.1.1];
  csr_spki c := inl [c.1.2];
  csr_cri c := inl [c.1.1; c.1.2];
  csr_signature_algorithm _ := inl [];
  csr_signature c := [c.2];
  csr_key_algorithm _ := [1; 2; 840];
  csr_public_key_info c := Rsa (c.1.2 * 1024);
  csr_attributes _ := Some [([9; 14], [bytes_of_string "device"])];
  decode_extensions v := inl ([([2; 17], None, v); ([2; 19], Some true, [255])] ++ cdp_of v);
  find_extension_value v o :=
    if bool_decide (o = [2; 17]) then Some v
    else if bool_decide (o = [2; 19]) then Some [255]
    else if (bool_decide (o = [2; 31]) || bool_decide (o = [2; 35])) && negb (bool_decide (cdp_of v = []))
    then Some v
    else None;
  parse_general_names v := [(2, v)];
  build_cri s k _ _ := match s, k with [a], [b] => inl [a; b] | _, _ => inr "no" end;
  assemble_csr cri _ sig :=
    match cri, sig with [a; b], [c] => inl [48; a; b; c] | _, _ => inr "no" end;
  Cert := Z * Z;
  cert_from_der := example_cert;
  cert_subject c := [c.1];
  cert_issuer c := [c.2];
  cert_spki c := inl [c.1];
  cert_not_before _ := UtcTime 2025 1 1 0 0 0;
  cert_not_after _ := UtcTime 2030 1 1 0 0 0;
  cert_signature c := [c.2];
  cert_ranges der :=
    match der with
    | [48; s; i] => Some ([s], [], [s])
    | 48 :: s :: i :: padding => if Z.of_nat (length padding) <? 97 then None else Some ([s], [], [s])
    | _ => None
    end;
  parse_name_attrs n :=
    if bool_decide (n = [99]) then [("2.5.4.11", "sales")] else [("2.5.4.3", "device")];
  format_dn n := "CN=" +:+ string_of_bytes n;
  identify_public_key_algorithm _ := None;
  verify_signature _ _ sig spki := if bool_decide (sig = spki) then inl tt else inr "bad signature";
  utc_time_new y m d h n s := inl (UtcTime y m d h n s);
  generalized_time_new y m d h n s := inl (GeneralTime y m d h n s);
  encode_basic_constraints ca _ := Some [if ca then 1 else 0];
  encode_key_usage bits := Some [bits];
  build_extended_key_usage l := inl [Z.of_nat (length l)];
  build_certificate_policies l := inl (concat l);
  encode_subject_key_identifier k := Some k;
  encode_authority_key_identifier k := Some k;
  build_ocsp_access u := inl (bytes_of_string u);
  build_crl_distribution u := inl (bytes_of_string u);
  SUBJECT_ALT_NAME := [2; 17];
  BASIC_CONSTRAINTS := [2; 19];
  KEY_USAGE := [2; 15];
  EXTENDED_KEY_USAGE := [2; 37];
  CERTIFICATE_POLICIES := [2; 32];
  SUBJECT_KEY_IDENTIFIER := [2; 14];
  AUTHORITY_KEY_IDENTIFIER := [2; 35];
  AUTHORITY_INFO_ACCESS := [1; 1];
  CRL_DISTRIBUTION_POINTS := [2; 31];
  PKCS9_EXTENSION_REQUEST := [9; 14];
  KEY_USAGE_DIGITAL_SIGNATURE := 0;
  KEY_USAGE_NON_REPUDIATION := 1;
  KEY_USAGE_KEY_ENCIPHERMENT := 2;
  KEY_USAGE_DATA_ENCIPHERMENT := 3;
  KEY_USAGE_KEY_AGREEMENT := 4;
  ML_KEM_512 := "ML-KEM-512";
  ML_KEM_768 := "ML-KEM-768";
  ML_KEM_1024 := "ML-KEM-1024";
  PrivateKey := bytes;
  Coins := unit;
  key_from_pem pem := if bool_decide (pem = []) then inr "no key" else inl pem;
  as_signer _ k _ := MkSigner (inl [5]) (fun _ => inl k);
  build_and_sign t s :=
    match sign_tbs s (b_subject t ++ b_spki t) with
    | inl sig => inl (48 :: b_subject t ++ b_issuer t ++ sig)
    | inr e => inr e
    end;
  hex_encode b := pretty (length b)
}.

#[export] Instance example_times : TimeLaws.
Proof. split; reflexivity. Qed.

#[export] Instance example_oids : OidLaws.
Proof. split. apply (bool_decide_unpack _). vm_compute. exact I. Qed.

(** * A DER encoder

    An instance of [Encoder] on which the theorems about ASN.1 structures are
    tried: a stack of open values.  Identifiers and lengths are encoded as
    X.690 says, lengths below 65536. *)
From S2P Require Import Der.
Open Scope Z_scope.

Definition example_tag_byte (t : Tag) : Z :=
  match t with
  | universal_constructed n => 32 + n
  | context_specific_constructed n => 160 + n
  end.
Definition example_length (n : Z) : bytes :=
  if n <? 128 then [n] else if n <? 256 then [129; n] else [130; n / 256; n mod 256].
Definition example_tlv (tag : Z) (content : bytes) : bytes :=
  tag :: example_length (Z.of_nat (length content)) ++ content.

(** Groups of seven bits, the last without the continuation bit. *)
Fixpoint example_base128 (fuel : nat) (n : Z) (last : Z) : bytes :=
  match fuel with
  | O => []
  | S fuel' => (if n <? 128 then [] else example_base128 fuel' (n / 128) 128) ++ [n mod 128 + last]
  end.
Definition example_oid_content (o : oid) : option bytes :=
  match o with
  | a :: b :: rest => Some (concat (map (fun n => example_base128 5 n 0) (40 * a + b :: rest)))
  | _ => None
  end.

Definition example_end (e : list (Tag * bytes) * bytes) : (list (Tag * bytes) * bytes) + string :=
  match e with
  | ((t, c) :: l, o) => inl (view_write (example_tlv (example_tag_byte t) c) (l, o))
  | _ => inr "nothing is open"
  end.

#[export] Instance example_encoder : Encoder := {
  Enc := list (Tag * bytes) * bytes;
  encoder_new := ([], []);
  start_constructed t e := inl ((t, []) :: e.1, e.2);
  end_constructed := example_end;
  ObjectId := bytes;
  object_id o := match example_oid_content o with Some b => inl b | None => inr "too short" end;
  encode_oid o e := inl (view_write (example_tlv 6 o) e);
  encode_integer z e := inl (view_write (example_tlv 2 [z]) e);
  encode_null e := inl (view_write [5; 0] e);
  encode_utf8 s e := inl (view_write (example_tlv 12 (bytes_of_string s)) e);
  write_bytes b e := view_write b e;
  finish e := match e with ([], o) => inl o | _ => inr "open values" end;
  TAG_SEQUENCE := 16;
  TAG_SET := 17
}.

#[export] Instance example_encoder_laws : EncoderLaws.
Proof.
  refine {| tlv t c := example_tlv (example_tag_byte t) c;
            oid_der (o : ObjectId) := example_tlv 6 o;
            integer_der z := example_tlv 2 [z];
            null_der := [5; 0];
            utf8_der s := example_tlv 12 (bytes_of_string s);
            view (e : Enc) := e |}.
  - done.
  - by eexists.
  - intros e t c l o ->. by eexists.
  - by eexists.
  - by eexists.
  - by eexists.
  - by eexists.
  - done.
  - by intros e o ->.
Defined.
