(* ===== verification/IssuanceSpec.v ===== *)
(** * What issuance guarantees

    Of Issuance.v: what a certificate that is issued can contain and who
    it is issued to, its validity, whom a refusal blames, and the reading
    of PKCS#11 URIs. *)
From S2P Require Import Prelude Words Text Calendar Errors X509 ExampleLibs Issuance.
Open Scope Z_scope.

Section Spec.
Context `{X509Lib}.

(** ** When a request is in order *)

Definition is_ml_kem (csr : Csr) : Prop :=
  exists name, identify_public_key_algorithm (csr_key_algorithm csr) = Some name /\
    (name = ML_KEM_512 \/ name = ML_KEM_768 \/ name = ML_KEM_1024).

(** The request is signed with the key it asks a certificate for. *)
Definition proof_of_possession (csr : Csr) : Prop :=
  exists cri alg spki, csr_cri csr = inl cri /\ csr_signature_algorithm csr = inl alg /\
    csr_spki csr = inl spki /\ verify_signature cri alg (csr_signature csr) spki = inl tt.

Definition no_organizational_unit (csr : Csr) : Prop :=
  exists subject, csr_subject csr = inl subject /\
    ~ In "2.5.4.11" (map fst (parse_name_attrs subject)).

(** The profile's level list for a post-quantum identifier. *)
Definition level_allowed (o : string) (p : EnrollmentProfile) : Prop :=
  forall name level, In (o, name, level) PQC_ALGORITHMS ->
    let allowed :=
      if starts_with "ml-dsa" level then allowed_ml_dsa_levels p else allowed_ml_kem_levels p in
    allowed = [] \/ In level allowed.

Definition key_acceptable (csr : Csr) (p : EnrollmentProfile) : Prop :=
  match csr_public_key_info csr with
  | Rsa n => min_rsa_bits p <= as_u32 n
  | Ec n _ => min_curve_bits (min_ecdsa_curve p) <= n
  | UnknownKey _ _ =>
      let o := oid_to_string (csr_key_algorithm csr) in
      level_allowed o p /\
      (starts_with "2.16.840.1.114027.80.5.2." o = true -> allow_composite_ml_dsa p = true)
  end.

Definition csr_checked (csr_der : bytes) (csr : Csr) (p : EnrollmentProfile) : Prop :=
  hd_error csr_der = Some 0x30 /\ csr_from_der csr_der = inl csr /\ ~ is_ml_kem csr /\
  proof_of_possession csr /\ no_organizational_unit csr /\ key_acceptable csr p.

(** ** The checks decide it *)

Lemma parse_csr_Ok c der csr : parse_csr c der = Ok csr <-> csr_from_der der = inl csr.
Proof. apply of_lib_Ok. Qed.

Lemma verify_csr_pop_Ok der :
  verify_csr_pop der = Ok tt <->
  exists csr, csr_from_der der = inl csr /\ ~ is_ml_kem csr /\ proof_of_possession csr.
Proof.
  unfold verify_csr_pop, parse_csr. destruct (csr_from_der der) as [csr|e]; simpl.
  2: { split; [done|naive_solver]. }
  unfold is_ml_kem, proof_of_possession.
  destruct (identify_public_key_algorithm _) as [name|] eqn:Ei.
  - destruct (_ || _ || _) eqn:Ek; simpl.
    + split; [done|]. intros (c & [= <-] & Hn & _). destruct Hn. exists name. split; [done|].
      rewrite !orb_true_iff, !String.eqb_eq in Ek. tauto.
    + rewrite !orb_false_iff, !String.eqb_neq in Ek. split.
      * intros E. inv_ok E. inv_ok E. inv_ok E. apply of_lib_Ok in E, H0, H1, H2.
        exists csr. split_and!; [done|naive_solver|by eexists _, _, _].
      * intros (c & [= <-] & _ & cri & alg & spki & -> & -> & -> & Hv). simpl. by rewrite Hv.
  - simpl. split.
    + intros E. inv_ok E. inv_ok E. inv_ok E. apply of_lib_Ok in E, H0, H1, H2.
      exists csr. split_and!; [done|naive_solver|by eexists _, _, _].
    + intros (c & [= <-] & _ & cri & alg & spki & -> & -> & -> & Hv). simpl. by rewrite Hv.
Qed.

Lemma validate_csr_Ok der :
  validate_csr der = Ok tt <->
  hd_error der = Some 0x30 /\ exists csr, csr_from_der der = inl csr /\ proof_of_possession csr.
Proof.
  destruct der as [|b der]; simpl; [naive_solver|].
  destruct (Z.eqb_spec b 0x30) as [->|Hb]; simpl; [|naive_solver].
  unfold parse_csr, proof_of_possession. split.
  - intros E. inv_ok E. inv_ok E. inv_ok E. inv_ok E. apply of_lib_Ok in E, H0, H1, H2, H3.
    split; [done|]. eexists. split; [done|]. by eexists _, _, _.
  - intros (_ & csr & -> & cri & alg & spki & Hc & Ha & Hs & Hv). simpl.
    rewrite Hc, Ha, Hs. simpl. by rewrite Hv.
Qed.

Lemma check_subject_dn_compliance_Ok der :
  check_subject_dn_compliance der = Ok tt <->
  exists csr, csr_from_der der = inl csr /\ no_organizational_unit csr.
Proof.
  unfold check_subject_dn_compliance, parse_csr, no_organizational_unit.
  destruct (csr_from_der der) as [csr|e]; simpl;
    [|by split; [|intros (? & ? & _)]].
  destruct (csr_subject csr) as [subject|e] eqn:Es; simpl.
  2: { split; [done|]. intros (c & [= <-] & s & Hs & _). by rewrite Hs in Es. }
  destruct (List.find _ _) as [[o v]|] eqn:Ef; simpl.
  - split; [done|]. intros (c & [= <-] & s & Hs & Hn). rewrite Hs in Es. injection Es as ->.
    apply List.find_some in Ef as [Hin Ho]. simpl in Ho. apply String.eqb_eq in Ho as ->.
    destruct Hn. apply in_map_iff. by eexists (_, _).
  - split; [|done]. intros _. eexists. split; [done|]. eexists. split; [done|].
    intros ([o v] & Ho & Hin)%in_map_iff. simpl in Ho. subst o.
    by apply (List.find_none _ _ Ef) in Hin.
Qed.

(** The identifiers of the table are different. *)
Lemma pqc_find o a : List.find (fun a => String.eqb a.1.1 o) PQC_ALGORITHMS = Some a ->
  forall name level, In (o, name, level) PQC_ALGORITHMS <-> a = (o, name, level).
Proof.
  intros Hf name level. apply List.find_some in Hf as [Hin Ho]. apply String.eqb_eq in Ho.
  split; [|by intros ->]. intros Hin2. subst o. simpl in Hin, Hin2.
  repeat destruct Hin as [<-|Hin]; try done; simpl in Hin2; naive_solver.
Qed.

Lemma check_unknown_key_Ok o p :
  check_unknown_key o p = Ok tt <->
  level_allowed (oid_to_string o) p /\
  (starts_with "2.16.840.1.114027.80.5.2." (oid_to_string o) = true ->
   allow_composite_ml_dsa p = true).
Proof.
  unfold check_unknown_key, level_allowed. set (os := oid_to_string o).
  destruct (List.find _ _) as [[[o' name] level]|] eqn:Ef.
  - assert (Hs : starts_with "2.16.840.1.114027.80.5.2." os = false).
    { apply List.find_some in Ef as [Hin Ho]. simpl in Ho. apply String.eqb_eq in Ho. subst o'.
      clearbody os. simpl in Hin. repeat destruct Hin as [[= <- _ _]|Hin]; try done. }
    rewrite Hs. set (allowed := if starts_with "ml-dsa" level then _ else _).
    destruct (negb _ && negb _) eqn:Ea.
    + split; [done|]. intros [Hl _]. apply andb_true_iff in Ea as [E1 E2].
      apply negb_true_iff, bool_decide_eq_false in E1. apply negb_true_iff in E2.
      assert (Ho : o' = os) by (apply List.find_some in Ef as [_ Ho]; by apply String.eqb_eq in Ho).
      subst o'. destruct (Hl name level) as [?|Hin]; [by apply (pqc_find _ _ Ef)|done|].
      fold allowed in Hin. assert (existsb (String.eqb level) allowed = true); [|congruence].
      apply existsb_exists. exists level. by rewrite String.eqb_refl.
    + split; [|done]. intros _. split; [|done]. intros n l Hin.
      apply (pqc_find _ _ Ef) in Hin as [= -> -> ->]. fold allowed.
      apply andb_false_iff in Ea as [E|E]; apply negb_false_iff in E.
      * left. by apply bool_decide_eq_true in E.
      * right. apply existsb_exists in E as (x & Hx & He). apply String.eqb_eq in He. by subst.
  - assert (Hn : forall n l, ~ In (os, n, l) PQC_ALGORITHMS).
    { intros n l Hin. apply (List.find_none _ _ Ef) in Hin. simpl in Hin.
      by rewrite String.eqb_refl in Hin. }
    assert (Hl : level_allowed os p) by (intros n l Hin; destruct (Hn n l Hin)).
    unfold level_allowed in Hl. destruct (starts_with _ os); [|by split].
    destruct (allow_composite_ml_dsa p); simpl; [by split|]. split; [done|]. intros [_ Hc]. by specialize (Hc eq_refl).

Qed.

Lemma guard_Ok {E} (b : bool) (e : E) : (if b then Err e else Ok tt) = Ok tt <-> b = false.
Proof. by destruct b. Qed.

Lemma check_key_size_Ok der p :
  check_key_size der p = Ok tt <-> exists csr, csr_from_der der = inl csr /\ key_acceptable csr p.
Proof.
  unfold check_key_size, parse_csr. destruct (csr_from_der der) as [csr|e]; simpl;
    [|by split; [|intros (? & ? & _)]].
  trans (key_acceptable csr p); [|split; [by eexists|by intros (? & [= <-] & ?)]].
  unfold key_acceptable. destruct (csr_public_key_info csr).
  - by rewrite guard_Ok, Z.ltb_ge.
  - by rewrite guard_Ok, Z.ltb_ge.
  - apply check_unknown_key_Ok.
Qed.

(** ** Whom an error blames *)

(** Every error of [c] is the client's (or none is), and [c] returns. *)
Definition faults (client : bool) {T} (c : outcome T IssuanceError) : Prop :=
  match c with
  | Ok _ => True
  | Err e => is_client_error e = client
  | Panic => False
  end.

Lemma faults_bind client {T U} (c : outcome T IssuanceError) (k : T -> outcome U IssuanceError) :
  faults client c -> (forall t, c = Ok t -> faults client (k t)) -> faults client (obind c k).
Proof. destruct c; simpl; auto. Qed.

Lemma faults_lib client {T} (f : string -> IssuanceError) (r : T + string) :
  (forall e, is_client_error (f e) = client) -> faults client (of_lib f r).
Proof. destruct r; simpl; auto. Qed.

Lemma faults_map_err client {T E} (f : E -> IssuanceError) (c : outcome T E) :
  (forall e, is_client_error (f e) = client) -> returns c -> faults client (map_err f c).
Proof. by destruct c; simpl; auto. Qed.

Ltac faults_tac :=
  repeat match goal with
  | |- faults _ (Ok _) => exact I
  | |- faults _ (Err _) => reflexivity
  | |- faults _ (of_lib _ _) => apply faults_lib; intros; reflexivity
  | |- faults _ (obind _ _) => apply faults_bind; [|intros]
  | |- faults _ (match ?x with _ => _ end) => destruct x
  end.

Lemma verify_csr_pop_faults der : faults true (verify_csr_pop der).
Proof. unfold verify_csr_pop, parse_csr. faults_tac. Qed.
Lemma validate_csr_faults der : faults true (validate_csr der).
Proof. unfold validate_csr, parse_csr. faults_tac. Qed.
Lemma check_subject_dn_faults der : faults true (check_subject_dn_compliance der).
Proof. unfold check_subject_dn_compliance, parse_csr. faults_tac. Qed.
Lemma check_key_size_faults der p : faults true (check_key_size der p).
Proof. unfold check_key_size, check_unknown_key, parse_csr. faults_tac. Qed.
Lemma check_validity_period_faults now p : faults false (check_validity_period now p).
Proof. unfold check_validity_period. faults_tac. Qed.
Lemma check_required_extensions_faults p : faults false (check_required_extensions p).
Proof. unfold check_required_extensions. faults_tac. Qed.

Lemma collect_extensions_faults exts found : faults true (collect_extensions found exts).
Proof.
  revert found. induction exts as [|[[o c] v] exts IH]; intros found; simpl; [done|].
  case_match; [done|apply IH].
Qed.
Lemma collect_values_faults values found : faults true (collect_values found values).
Proof.
  revert found. induction values as [|v values IH]; intros found; simpl; [done|].
  apply faults_bind; [by apply faults_lib|]. intros exts _.
  apply faults_bind; [apply collect_extensions_faults|]. intros; apply IH.
Qed.
Lemma collect_attributes_faults attrs found : faults true (collect_attributes found attrs).
Proof.
  revert found. induction attrs as [|[o vs] attrs IH]; intros found; simpl; [done|].
  case_match; [apply IH|]. apply faults_bind; [apply collect_values_faults|]. intros; apply IH.
Qed.
Lemma requested_extensions_faults der : faults true (requested_extensions der).
Proof.
  unfold requested_extensions. apply faults_bind; [by apply faults_lib|]. intros csr _.
  case_match; [apply collect_attributes_faults|done].
Qed.

(** A policy identifier the program can read. *)
Definition policy_readable (o : string) : Prop :=
  Forall (fun part => exists n, parse_unsigned (2 ^ 32 - 1) part = Ok n) (split_char "." o).

Lemma parse_components_spec o parts :
  match parse_components o parts with
  | Ok _ => Forall (fun part => exists n, parse_unsigned (2 ^ 32 - 1) part = Ok n) parts
  | Err e => is_client_error e = true /\
      ~ Forall (fun part => exists n, parse_unsigned (2 ^ 32 - 1) part = Ok n) parts
  | Panic => False
  end.
Proof.
  induction parts as [|part parts IH]; cbn [parse_components]; [done|].
  destruct (parse_unsigned _ part) as [n|e|] eqn:Ep; cbn [map_err obind].
  - destruct (parse_components o parts); cbn [obind]; [|rewrite Forall_cons; tauto|done].
    rewrite Forall_cons. eauto.
  - split; [done|]. intros [[n Hn] _]%Forall_cons. by rewrite Hn in Ep.
  - by apply (parse_unsigned_returns (2 ^ 32 - 1) part).
Qed.

Lemma parse_policies_spec os :
  match parse_policies os with
  | Ok _ => Forall policy_readable os
  | Err e => is_client_error e = true /\ ~ Forall policy_readable os
  | Panic => False
  end.
Proof.
  induction os as [|o os IH]; cbn [parse_policies]; [done|].
  pose proof (parse_components_spec o (split_char "." o)) as Hc.
  destruct (parse_components _ _); cbn [obind]; [|rewrite Forall_cons; unfold policy_readable; tauto|done].
  destruct (parse_policies os); cbn [obind]; [|rewrite Forall_cons; tauto|done].
  rewrite Forall_cons. done.
Qed.
(** ** What a certificate contains *)

Definition opt_ext (o : oid) (critical : bool) (v : option bytes) : list Extension :=
  match v with Some der => [(o, critical, der)] | None => [] end.
Definition url_ext (o : oid) (f : string -> outcome bytes IssuanceError) (url : option string)
  : outcome (list Extension) IssuanceError :=
  match url with Some u => let? der := f u in Ok [(o, false, der)] | None => Ok [] end.

(** The extensions that the profile and the CA decide, from the key of
    the request but from nothing else of it. *)
Definition policy_extensions (csr_spki_der ca_spki_der : bytes) (p : EnrollmentProfile)
    (ocsp_url crl_url : option string) : outcome (list Extension) IssuanceError :=
  let? policies :=
    if bool_decide (certificate_policies p = []) then Ok []
    else
      let? der := encode_certificate_policies (certificate_policies p) in
      Ok [(CERTIFICATE_POLICIES, false, der)] in
  let? aia := url_ext AUTHORITY_INFO_ACCESS encode_aia_extension ocsp_url in
  let? cdp := url_ext CRL_DISTRIBUTION_POINTS encode_cdp_extension crl_url in
  Ok (opt_ext BASIC_CONSTRAINTS true (encode_basic_constraints false None) ++
      opt_ext KEY_USAGE true (encode_key_usage (profile_key_usage_bits p)) ++
      opt_ext EXTENDED_KEY_USAGE false (profile_extended_key_usage p) ++
      policies ++
      (if include_ski p
       then opt_ext SUBJECT_KEY_IDENTIFIER false (encode_subject_key_identifier csr_spki_der)
       else []) ++
      (if include_aki p
       then opt_ext AUTHORITY_KEY_IDENTIFIER false (encode_authority_key_identifier ca_spki_der)
       else []) ++
      aia ++ cdp ++
      (if must_staple p
       then [(OID_TLS_FEATURE_COMPONENTS, false, TLS_FEATURE_MUST_STAPLE_DER)] else [])).

Definition is_san (e : Extension) : bool := bool_decide (e.1.1 = SUBJECT_ALT_NAME).

(** A template with extensions added at the end. *)
Definition with_exts (t : TbsTemplate) (es : list Extension) : TbsTemplate :=
  MkTbs (b_issuer t) (b_subject t) (b_spki t) (b_serial t) (b_not_before t) (b_not_after t)
    (b_extensions t ++ es).

Lemma with_exts_nil t : with_exts t [] = t.
Proof. destruct t. unfold with_exts. simpl. by rewrite app_nil_r. Qed.
Lemma with_exts_app t es es' : with_exts (with_exts t es) es' = with_exts t (es ++ es').
Proof. unfold with_exts. simpl. by rewrite app_assoc. Qed.
Lemma add_if_eq o c v t : add_if o c v t = with_exts t (opt_ext o c v).
Proof. destruct v; simpl; [done|]. by rewrite with_exts_nil. Qed.
Lemma add_if_when (b : bool) o c v t :
  (if b then add_if o c v t else t) = with_exts t (if b then opt_ext o c v else []).
Proof. destruct b; [apply add_if_eq|]. by rewrite with_exts_nil. Qed.
Lemma add_san_eq req t :
  fold_left (fun t (e : Extension) =>
    if bool_decide (e.1.1 = SUBJECT_ALT_NAME) then add_extension t e else t) req t =
  with_exts t (List.filter is_san req).
Proof.
  revert t. induction req as [|e req IH]; intros t; simpl; [by rewrite with_exts_nil|].
  rewrite IH. unfold is_san at 2. case_bool_decide; [|done].
  change (add_extension t e) with (with_exts t [e]). by rewrite with_exts_app.
Qed.
Lemma add_url_eq o f url t :
  add_url o f url t = let? es := url_ext o f url in Ok (with_exts t es).
Proof.
  destruct url as [u|]; simpl; [|by rewrite with_exts_nil]. by destruct (f u).
Qed.

(** The certificate has the requested subjectAltName, then the policy's
    extensions. *)
Lemma build_extensions_eq csr_der spki ca_spki p ocsp crl t :
  build_extensions csr_der spki ca_spki p ocsp crl t =
  let? req := requested_extensions csr_der in
  let? es := policy_extensions spki ca_spki p ocsp crl in
  Ok (with_exts t (List.filter is_san req ++ es)).
Proof.
  unfold build_extensions, policy_extensions.
  destruct (requested_extensions csr_der) as [req| |]; cbn [obind]; [|done..].
  rewrite add_san_eq, !add_if_eq.
  assert (Hend : forall ps, (let? t := add_url AUTHORITY_INFO_ACCESS encode_aia_extension ocsp
      (if include_aki p then add_if AUTHORITY_KEY_IDENTIFIER false
         (encode_authority_key_identifier ca_spki) (if include_ski p then
           add_if SUBJECT_KEY_IDENTIFIER false (encode_subject_key_identifier spki)
            (with_exts t ps) else with_exts t ps)
       else if include_ski p then
           add_if SUBJECT_KEY_IDENTIFIER false (encode_subject_key_identifier spki)
            (with_exts t ps) else with_exts t ps) in
    let? t := add_url CRL_DISTRIBUTION_POINTS encode_cdp_extension crl t in
    Ok (if must_staple p
      then add_extension t (OID_TLS_FEATURE_COMPONENTS, false, TLS_FEATURE_MUST_STAPLE_DER)
      else t)) =
    let? aia := url_ext AUTHORITY_INFO_ACCESS encode_aia_extension ocsp in
    let? cdp := url_ext CRL_DISTRIBUTION_POINTS encode_cdp_extension crl in
    Ok (with_exts t (ps ++
      (if include_ski p
       then opt_ext SUBJECT_KEY_IDENTIFIER false (encode_subject_key_identifier spki)
       else []) ++
      (if include_aki p
       then opt_ext AUTHORITY_KEY_IDENTIFIER false (encode_authority_key_identifier ca_spki)
       else []) ++ aia ++ cdp ++
      (if must_staple p
       then [(OID_TLS_FEATURE_COMPONENTS, false, TLS_FEATURE_MUST_STAPLE_DER)] else [])))).
  { intros ps. rewrite !add_if_when, add_url_eq.
    destruct (url_ext AUTHORITY_INFO_ACCESS _ _) as [aia| |]; cbn [obind]; [|done..].
    rewrite add_url_eq.
    destruct (url_ext CRL_DISTRIBUTION_POINTS _ _) as [cdp| |]; cbn [obind]; [|done..].
    f_equal. destruct (must_staple p).
    - change (add_extension ?x ?e) with (with_exts x [e]). by rewrite !with_exts_app, <- ?app_assoc.
    - by rewrite !with_exts_app, <- ?app_assoc, app_nil_r. }
  rewrite !with_exts_app.
  case_bool_decide; [|destruct (encode_certificate_policies _) as [der| |]]; cbn [obind]; try done.
  - rewrite Hend. destruct (url_ext AUTHORITY_INFO_ACCESS _ _) as [aia| |]; cbn [obind]; [|done..].
    destruct (url_ext CRL_DISTRIBUTION_POINTS _ _) as [cdp| |]; cbn [obind]; [|done..].
    by rewrite ?app_nil_l, <- ?app_assoc.
  - change (add_extension ?x ?e) with (with_exts x [e]). rewrite with_exts_app, Hend.
    destruct (url_ext AUTHORITY_INFO_ACCESS _ _) as [aia| |]; cbn [obind]; [|done..].
    destruct (url_ext CRL_DISTRIBUTION_POINTS _ _) as [cdp| |]; cbn [obind]; [|done..].
    by rewrite <- ?app_assoc.
Qed.
(** ** An issuance, exactly *)

Definition profile_within (now : Z) (p : EnrollmentProfile) : Prop :=
  max_validity_days p <= cab_forum_max_validity_days now /\
  include_aki p = true /\ include_ski p = true /\ key_usage p <> [].

(** The signer of a CA key: for a PEM key the hash "none" is the key's own. *)
Definition signer_of (c : Coins) (key : CaSigningKey) (hash : string) (s : CertificateSigner)
  : Prop :=
  match key with
  | Pem pem => exists k, key_from_pem pem = inl k /\
      s = as_signer c k (if String.eqb hash "none" then EmptyString else hash)
  | Hsm context label => s = HsmCertificateSigner context label hash
  end.

(** [r] is the result of signing the template [tbs], which has the
    request's subject and key, the CA's name, a fresh serial number, the
    validity of the policy and the extensions allowed. *)
Definition issued_as (i : IssueInputs Coins) (csr_der : bytes) (p : EnrollmentProfile)
    (ca_der : bytes) (key : CaSigningKey) (hash : string) (ocsp crl : option string)
    (r : IssuanceResult) (csr : Csr) (ca : Cert) (tbs : TbsTemplate) : Prop :=
  cert_from_der ca_der = inl ca /\
  (csr_subject csr = inl (b_subject tbs) /\ csr_spki csr = inl (b_spki tbs) /\
   b_issuer tbs = cert_subject ca /\ b_serial tbs = generate_serial_bytes (entropy i)) /\
  (validity_end i p ca_der ca = Ok (not_after r) /\ not_before r = now_issue i /\
   chrono_to_synta_time (not_before r) = Ok (b_not_before tbs) /\
   chrono_to_synta_time (not_after r) = Ok (b_not_after tbs)) /\
  (exists ca_spki req es, cert_spki ca = inl ca_spki /\ requested_extensions csr_der = Ok req /\
   policy_extensions (b_spki tbs) ca_spki p ocsp crl = Ok es /\
   b_extensions tbs = List.filter is_san req ++ es) /\
  (exists s, signer_of (coins i) key hash s /\ build_and_sign tbs s = inl (certificate_der r)) /\
  serial_number r = hex_encode (b_serial tbs) /\ subject_dn r = format_dn (b_subject tbs).

Lemma check_validity_period_Ok now p :
  check_validity_period now p = Ok tt <-> max_validity_days p <= cab_forum_max_validity_days now.
Proof. unfold check_validity_period. by rewrite guard_Ok, Z.ltb_ge. Qed.

Lemma check_required_extensions_Ok p :
  check_required_extensions p = Ok tt <->
  include_aki p = true /\ include_ski p = true /\ key_usage p <> [].
Proof.
  unfold check_required_extensions.
  destruct (include_aki p), (include_ski p); simpl; try (split; [done|by intros (? & ? & ?)]).
  rewrite guard_Ok, bool_decide_eq_false. tauto.
Qed.

(** Loading the key at step 7 and signing with it at step 11. *)
Lemma load_and_sign_Ok c key hash tbs k der :
  load_pem_key key = Ok k ->
  (sign_certificate c key k hash tbs = Ok der <->
   exists s, signer_of c key hash s /\ build_and_sign tbs s = inl der).
Proof.
  destruct key as [pem|ctx label]; simpl.
  - intros E. inv_ok E. simplify_eq. apply of_lib_Ok in H0. rewrite of_lib_Ok. split.
    + eauto.
    + intros (s & (k & Hk & ->) & Hs). rewrite H0 in Hk. by simplify_eq.
  - intros [= <-]. rewrite of_lib_Ok. naive_solver.
Qed.

Lemma load_pem_key_signer c key hash s :
  signer_of c key hash s -> exists k, load_pem_key key = Ok k.
Proof. destruct key as [pem|]; simpl; [|eauto]. intros (k & -> & _). simpl. eauto. Qed.

Lemma issue_verified_request_Ok i csr_der p ca_der key hash ocsp crl r :
  issue_verified_request i csr_der p ca_der key hash ocsp crl = Ok r <->
  exists csr, csr_from_der csr_der = inl csr /\ no_organizational_unit csr /\
    key_acceptable csr p /\ profile_within (now_check i) p /\
    exists ca tbs, issued_as i csr_der p ca_der key hash ocsp crl r csr ca tbs.
Proof.
  unfold issue_verified_request, parse_csr, cert_time. split.
  - intros E. do 15 inv_ok E. destruct t, t0, t1, t2.
    injection E as <-. rewrite build_extensions_eq in H13. do 2 inv_ok H13. injection H13 as <-.
    apply check_subject_dn_compliance_Ok in H0 as (csr & Hcsr & Hou).
    apply check_key_size_Ok in H1 as (csr1 & Hcsr1 & Hkey).
    rewrite check_validity_period_Ok in H2. rewrite check_required_extensions_Ok in H3.
    apply of_lib_Ok in H4, H5, H6, H7, H8. apply map_err_Ok in H11, H12.
    rewrite Hcsr in H4, Hcsr1. injection H4 as <-. injection Hcsr1 as <-.
    exists csr. split; [done|]. split; [done|]. split; [done|]. split; [by split|].
    match type of H14 with sign_certificate _ _ _ _ ?tbs = _ => exists t6, tbs end.
    split; [done|]. split; [by split_and!|]. split; [by split_and!|].
    split; [|split; [|done]].
    + eexists _, _, _. by split_and!.
    + by apply (load_and_sign_Ok _ _ _ _ _ _ H9).
  - intros (csr & Hcsr & Hou & Hkey & (Hv & Hr) & ca & tbs & Hca & (Hsub & Hspki & Hiss & Hser) &
      (Hend & Hnb & Htb & Hte) & (ca_spki & req & es & Hcs & Hreq & Hes & Hexts) &
      (s & Hs & Hsign) & Hsn & Hdn).
    rewrite (proj2 (check_subject_dn_compliance_Ok csr_der)) by eauto. cbn [obind].
    rewrite (proj2 (check_key_size_Ok csr_der p)) by eauto. cbn [obind].
    rewrite (proj2 (check_validity_period_Ok _ _) Hv), (proj2 (check_required_extensions_Ok _) Hr).
    cbn [obind]. rewrite Hcsr, Hca. cbn [obind of_lib]. rewrite Hsub, Hspki, Hcs. cbn [obind of_lib].
    destruct (load_pem_key_signer _ _ _ _ Hs) as [k Hk]. rewrite Hk, Hend. cbn [obind].
    rewrite Hnb in Htb. rewrite Htb, Hte. cbn [obind map_err].
    rewrite build_extensions_eq, Hreq, Hes. cbn [obind].
    assert (Ht : with_exts (MkTbs (cert_subject ca) (b_subject tbs) (b_spki tbs)
        (generate_serial_bytes (entropy i)) (b_not_before tbs) (b_not_after tbs) [])
        (List.filter is_san req ++ es) = tbs).
    { destruct tbs; unfold with_exts; simpl in *. by subst. }
    rewrite Ht, (proj2 (load_and_sign_Ok (coins i) key hash tbs k (certificate_der r) Hk)) by eauto. cbn [obind].
    rewrite <- Hser, <- Hsn, <- Hdn, <- Hnb. by destruct r.
Qed.

Lemma issue_certificate_Ok i csr_der p ca_der key hash ocsp crl r :
  issue_certificate i csr_der p ca_der key hash ocsp crl = Ok r <->
  exists csr, csr_checked csr_der csr p /\ profile_within (now_check i) p /\
    exists ca tbs, issued_as i csr_der p ca_der key hash ocsp crl r csr ca tbs.
Proof.
  unfold issue_certificate, csr_checked. split.
  - intros E. inv_ok E. inv_ok E. destruct t, t0.
    apply verify_csr_pop_Ok in H0 as (csr & Hcsr & Hkem & Hpop).
    apply validate_csr_Ok in H1 as [Hb _].
    apply issue_verified_request_Ok in E as (csr' & Hcsr' & Hrest).
    rewrite Hcsr in Hcsr'. injection Hcsr' as <-. exists csr. tauto.
  - intros (csr & (Hb & Hcsr & Hkem & Hpop & Hou & Hkey) & Hrest).
    rewrite (proj2 (verify_csr_pop_Ok csr_der)) by eauto. cbn [obind].
    rewrite (proj2 (validate_csr_Ok csr_der)) by eauto. cbn [obind].
    apply issue_verified_request_Ok. eauto.
Qed.
(** ** Extensions *)

Abbreviation ext_oid := (fun e : Extension => e.1.1).

Lemma collect_extensions_NoDup exts found r :
  NoDup (map ext_oid found) -> collect_extensions found exts = Ok r -> NoDup (map ext_oid r).
Proof.
  revert found. induction exts as [|[[o c] v] exts IH]; simpl; intros found Hn E; [naive_solver|].
  destruct (existsb _ found) eqn:Ex; [done|]. apply IH in E; [done|].
  rewrite map_app. apply NoDup_app. split_and!; [done| |apply NoDup_singleton].
  intros o' Hin%list_elem_of_In Ho%list_elem_of_singleton. simpl in Ho. subst o'.
  apply in_map_iff in Hin as (e & He & Hin).
  assert (existsb (fun e => bool_decide (e.1.1 = o)) found = true); [|congruence].
  apply existsb_exists. exists e. by rewrite bool_decide_eq_true.
Qed.

Lemma collect_values_NoDup values found r :
  NoDup (map ext_oid found) -> collect_values found values = Ok r -> NoDup (map ext_oid r).
Proof.
  revert found. induction values as [|v values IH]; simpl; intros found Hn E; [naive_solver|].
  inv_ok E. inv_ok E. eauto using collect_extensions_NoDup.
Qed.

Lemma requested_extensions_NoDup csr_der r :
  requested_extensions csr_der = Ok r -> NoDup (map ext_oid r).
Proof.
  unfold requested_extensions. intros E. inv_ok E. destruct (csr_attributes t) as [attrs|].
  2: { injection E as <-. constructor. }
  assert (Hn : NoDup (map ext_oid [])) by constructor. revert Hn E. generalize (@nil Extension).
  induction attrs as [|[o vs] attrs IH]; simpl; intros found Hn E; [naive_solver|].
  case_match; [by eapply IH|]. inv_ok E. eauto using collect_values_NoDup.
Qed.

Lemma opt_ext_oids o c v : map ext_oid (opt_ext o c v) `sublist_of` [o].
Proof. destruct v; simpl; [done|apply sublist_nil_l]. Qed.

Lemma url_ext_oids o f url es : url_ext o f url = Ok es -> map ext_oid es `sublist_of` [o].
Proof.
  destruct url as [u|]; simpl; intros E; [inv_ok E|]; simplify_eq/=; [done|apply sublist_nil_l].
Qed.

(** The policy's extensions have the identifiers of the profile, each at
    most once; basicConstraints comes first. *)
Lemma policy_extensions_split spki ca_spki p ocsp crl es :
  policy_extensions spki ca_spki p ocsp crl = Ok es ->
  exists rest, es = opt_ext BASIC_CONSTRAINTS true (encode_basic_constraints false None) ++ rest /\
    map ext_oid rest `sublist_of`
    [KEY_USAGE; EXTENDED_KEY_USAGE; CERTIFICATE_POLICIES;
     SUBJECT_KEY_IDENTIFIER; AUTHORITY_KEY_IDENTIFIER; AUTHORITY_INFO_ACCESS;
     CRL_DISTRIBUTION_POINTS; OID_TLS_FEATURE_COMPONENTS].
Proof.
  unfold policy_extensions. intros E. do 3 inv_ok E. injection E as <-.
  apply url_ext_oids in H1, H2. eexists. split; [done|]. rewrite !map_app.
  repeat (apply (sublist_app _ [_]); [first [apply opt_ext_oids|done|idtac]|]).
  - case_bool_decide; simplify_eq/=; [apply sublist_nil_l|]. inv_ok H0. by simplify_eq/=.
  - destruct (include_ski p); [apply opt_ext_oids|apply sublist_nil_l].
  - destruct (include_aki p); [apply opt_ext_oids|apply sublist_nil_l].
  - destruct (must_staple p); [done|apply sublist_nil_l].
Qed.

Lemma policy_extensions_oids spki ca_spki p ocsp crl es :
  policy_extensions spki ca_spki p ocsp crl = Ok es ->
  map ext_oid es `sublist_of`
    [BASIC_CONSTRAINTS; KEY_USAGE; EXTENDED_KEY_USAGE; CERTIFICATE_POLICIES;
     SUBJECT_KEY_IDENTIFIER; AUTHORITY_KEY_IDENTIFIER; AUTHORITY_INFO_ACCESS;
     CRL_DISTRIBUTION_POINTS; OID_TLS_FEATURE_COMPONENTS].
Proof.
  intros (rest & -> & Hr)%policy_extensions_split. rewrite map_app.
  apply (sublist_app _ [_]); [apply opt_ext_oids|done].
Qed.

Lemma basic_constraints_policy `{!OidLaws} spki ca_spki p ocsp crl es c v :
  policy_extensions spki ca_spki p ocsp crl = Ok es -> In (BASIC_CONSTRAINTS, c, v) es ->
  c = true /\ encode_basic_constraints false None = Some v.
Proof.
  intros (rest & -> & Hr)%policy_extensions_split Hin. apply in_app_iff in Hin as [Hin|Hin].
  - destruct (encode_basic_constraints false None); simpl in Hin; [|done].
    by destruct Hin as [[= <- <-]|].
  - pose proof oids_distinct as Hd. apply NoDup_cons in Hd as [_ Hd]. apply NoDup_cons in Hd as [Hd _].
    destruct Hd. eapply elem_of_sublist; [|exact Hr].
    apply list_elem_of_In. by apply (in_map ext_oid) in Hin.
Qed.

Lemma filter_NoDup_map {A B} (f : A -> B) (p : A -> bool) l :
  NoDup (map f l) -> NoDup (map f (List.filter p l)).
Proof.
  induction l as [|x l IH]; simpl; [done|]. intros [Hx Hn]%NoDup_cons. destruct (p x); simpl; [|auto].
  apply NoDup_cons. split; [|auto]. intros Hin. apply Hx.
  rewrite list_elem_of_In, in_map_iff in Hin |- *. destruct Hin as (y & ? & Hy).
  apply List.filter_In in Hy. exists y. tauto.
Qed.

Lemma extensions_NoDup `{!OidLaws} csr_der spki ca_spki p ocsp crl req es :
  requested_extensions csr_der = Ok req ->
  policy_extensions spki ca_spki p ocsp crl = Ok es ->
  NoDup (map ext_oid (List.filter is_san req ++ es)) /\
  ~ In SUBJECT_ALT_NAME (map ext_oid es).
Proof.
  intros Hreq%requested_extensions_NoDup Hes%policy_extensions_oids.
  pose proof oids_distinct as Hd. apply NoDup_cons in Hd as [Hsan Hd].
  assert (Hnot : ~ In SUBJECT_ALT_NAME (map ext_oid es)).
  { intros Hin%list_elem_of_In. apply Hsan.
    by eapply elem_of_sublist. }
  split; [|done]. rewrite map_app. apply NoDup_app. split_and!.
  - by apply filter_NoDup_map.
  - intros o Ho Hin. rewrite list_elem_of_In in Ho, Hin.
    apply in_map_iff in Ho as (e & <- & [_ He]%List.filter_In).
    apply bool_decide_eq_true in He. simpl in Hin. by rewrite He in Hin.
  - by eapply sublist_NoDup.
Qed.
(** ** Validity *)

Lemma validity_end_Ok i p ca_der ca na :
  validity_end i p ca_der ca = Ok na ->
  now_issue i < na <= now_issue i + max_validity_days p * DAY_NS /\
  (forall s, max_validity_seconds p = Some s -> na <= now_issue i + s * SECS) /\
  (forall l, max_not_after p = Some l -> na <= l) /\
  valid_now (now_ca i) ca_der = Ok tt /\
  exists ca_end, time (cert_not_after ca) = Ok ca_end /\ na <= ca_end.
Proof.
  unfold validity_end. destruct (max_utc i <? _); [done|]. intros E. inv_ok E. inv_ok E. inv_ok E.
  apply map_err_Ok in H1, H2. destruct t0. destruct (_ <=? now_issue i) eqn:Hpos; [done|].
  injection E as <-. apply Z.leb_gt in Hpos.
  assert (Ht : t <= now_issue i + max_validity_days p * DAY_NS /\
    forall s, max_validity_seconds p = Some s -> t <= now_issue i + s * SECS).
  { destruct (max_validity_seconds p) as [s|]; simplify_eq/=; [|by split].
    split_cases_in H0. split; [lia|]. intros ? [= <-]. lia. }
  destruct Ht as [Hd Hs]. destruct (max_not_after p) as [l|]; split_and!; try lia.
  - intros s Es. specialize (Hs s Es). lia.
  - intros ? [= <-]. lia.
  - done.
  - eexists. split; [done|lia].
  - intros s Es. specialize (Hs s Es). lia.
  - done.
  - done.
  - eexists. split; [done|lia].
Qed.

Lemma cab_forum_bounds now : 47 <= cab_forum_max_validity_days now <= 398.
Proof. unfold cab_forum_max_validity_days. repeat case_match; lia. Qed.

Lemma cab_forum_antitone t t' : t <= t' ->
  cab_forum_max_validity_days t' <= cab_forum_max_validity_days t.
Proof.
  intros Hle. unfold cab_forum_max_validity_days.
  assert (date_naive t <= date_naive t').
  { apply Z.div_le_mono; [by vm_compute|done]. }
  change (days_from_civil 2026 3 15) with 20527. change (days_from_civil 2027 3 15) with 20892.
  change (days_from_civil 2029 3 15) with 21623.
  repeat match goal with |- context [?a <? ?b] => destruct (Z.ltb_spec a b) end; lia.
Qed.

(** ** Client errors after the checks *)

(** A client's error of [c] means [P]. *)
Definition blames (P : Prop) {T} (c : outcome T IssuanceError) : Prop :=
  forall e, c = Err e -> is_client_error e = true -> P.

Lemma blames_bind P {T U} (c : outcome T IssuanceError) (k : T -> outcome U IssuanceError) :
  blames P c -> (forall t, c = Ok t -> blames P (k t)) -> blames P (obind c k).
Proof. intros Hc Hk e [E|(t & E & E')]%obind_Err_1 He; [by eapply Hc|by eapply Hk]. Qed.

Lemma blames_faults P {T} (c : outcome T IssuanceError) : faults false c -> blames P c.
Proof. intros Hf e -> He. simpl in Hf. by rewrite Hf in He. Qed.

Lemma blames_lib P {T} (f : string -> IssuanceError) (r : T + string) :
  (forall e, is_client_error (f e) = false) -> blames P (of_lib f r).
Proof. intros Hf. by apply blames_faults, faults_lib. Qed.

Lemma blames_Ok P {T} (c : outcome T IssuanceError) t : c = Ok t -> blames P c.
Proof. by intros -> e [=]. Qed.

Lemma blames_map_err P {T E} (f : E -> IssuanceError) (c : outcome T E) :
  (forall e, is_client_error (f e) = false) -> blames P (map_err f c).
Proof. intros Hf e. destruct c; simpl; [done| |done]. intros [= <-]. by rewrite Hf. Qed.

Lemma blames_if P {T} (b : bool) (c c' : outcome T IssuanceError) :
  blames P c -> blames P c' -> blames P (if b then c else c').
Proof. by destruct b. Qed.

Lemma url_ext_blames P o f url :
  (forall u, blames P (f u)) -> blames P (url_ext o f url).
Proof.
  intros Hf. destruct url as [u|]; simpl; [|by intros e].
  apply blames_bind; [apply Hf|]. by intros t _ e.
Qed.

Lemma policy_extensions_blames spki ca_spki p ocsp crl :
  blames (~ Forall policy_readable (certificate_policies p))
    (policy_extensions spki ca_spki p ocsp crl).
Proof.
  unfold policy_extensions. apply blames_bind.
  { apply blames_if; [by intros e|]. apply blames_bind; [|by intros t _ e].
    apply blames_bind; [|intros t _; by apply blames_lib].
    intros e Ee _. pose proof (parse_policies_spec (certificate_policies p)) as Hp.
    rewrite Ee in Hp. tauto. }
  intros ps _. apply blames_bind; [apply url_ext_blames; intros; by apply blames_lib|].
  intros aia _. apply blames_bind; [apply url_ext_blames; intros; by apply blames_lib|].
  by intros cdp _ e.
Qed.

Lemma validity_end_blames P i p ca_der ca : blames P (validity_end i p ca_der ca).
Proof.
  unfold validity_end. destruct (max_utc i <? _); [by intros e|].
  apply blames_bind.
  { destruct (max_validity_seconds p); [|by intros e].
    repeat (case_match; try (intros e [= <-]; done)). all: by intros e. }
  intros t _. apply blames_bind; [by apply blames_map_err|]. intros _ _.
  apply blames_bind; [by apply blames_map_err|]. intros ca_end _.
  case_match; [by intros e [= <-]|by intros e].
Qed.

Lemma issue_verified_request_blames i csr_der p ca_der key hash ocsp crl csr :
  csr_checked csr_der csr p ->
  blames (~ (exists req, requested_extensions csr_der = Ok req) \/
          ~ Forall policy_readable (certificate_policies p))
    (issue_verified_request i csr_der p ca_der key hash ocsp crl).
Proof.
  intros (_ & Hcsr & _ & (_ & _ & spki & _ & _ & Hspki & _) & Hou & Hkey).
  pose proof Hou as (subj & Hsubj & _). unfold issue_verified_request, parse_csr, cert_time.
  apply blames_bind; [eapply blames_Ok, check_subject_dn_compliance_Ok; eauto|]. intros _ _.
  apply blames_bind; [eapply blames_Ok, check_key_size_Ok; eauto|]. intros _ _.
  apply blames_bind; [apply blames_faults, check_validity_period_faults|]. intros _ _.
  apply blames_bind; [apply blames_faults, check_required_extensions_faults|]. intros _ _.
  rewrite Hcsr. cbn [of_lib obind]. rewrite Hsubj, Hspki. cbn [of_lib obind].
  apply blames_bind; [by apply blames_lib|]. intros ca _.
  apply blames_bind; [by apply blames_lib|]. intros ca_spki _.
  apply blames_bind.
  { destruct key; simpl; [|by intros e]. apply blames_bind; [by apply blames_lib|]. by intros t _ e. }
  intros k _. apply blames_bind; [apply validity_end_blames|]. intros na _.
  apply blames_bind; [by apply blames_map_err|]. intros tb _.
  apply blames_bind; [by apply blames_map_err|]. intros te _.
  apply blames_bind; [|intros tbs _; apply blames_bind; [|by intros der _ e]].
  - rewrite build_extensions_eq. intros e [E|(req & E & E')]%obind_Err_1 He.
    + left. intros [req Hr]. by rewrite Hr in E.
    + right. apply obind_Err_1 in E' as [E'|(es & _ & E')]; [|done].
      by eapply policy_extensions_blames.
  - destruct key; simpl; [destruct k; [|by intros e]|]; by apply blames_lib.
Qed.

(** ** The theorems *)

(** C3: what an issued certificate is.  It is made for the key of a request
    that proves possession of that key, names no organizational unit and
    meets the profile's key policy; it is signed by the CA's key in the CA's
    name, for the subject and key of the request.  Of the request's
    extensions only subjectAltName gets in, unchanged; every other extension
    is the policy's, no identifier occurs twice, and the certificate never
    makes its holder a CA. *)
Theorem issue_certificate_sound `{!OidLaws} i csr_der p ca_der key hash ocsp crl r :
  issue_certificate i csr_der p ca_der key hash ocsp crl = Ok r ->
  exists csr ca tbs s ca_spki req es,
    csr_checked csr_der csr p /\ cert_from_der ca_der = inl ca /\
    (signer_of (coins i) key hash s /\ build_and_sign tbs s = inl (certificate_der r)) /\
    (b_issuer tbs = cert_subject ca /\ csr_subject csr = inl (b_subject tbs) /\
     csr_spki csr = inl (b_spki tbs)) /\
    requested_extensions csr_der = Ok req /\ cert_spki ca = inl ca_spki /\
    policy_extensions (b_spki tbs) ca_spki p ocsp crl = Ok es /\
    (forall e, In e (b_extensions tbs) <->
       if is_san e then In e req else In e es) /\
    NoDup (map ext_oid (b_extensions tbs)) /\
    (forall c v, In (BASIC_CONSTRAINTS, c, v) (b_extensions tbs) ->
       c = true /\ encode_basic_constraints false None = Some v).
Proof.
  intros (csr & Hcsr & _ & ca & tbs & Hca & (Hsub & Hspki & Hiss & _) & _ &
    (ca_spki & req & es & Hcs & Hreq & Hes & Hexts) & (s & Hs & Hsign) & _)%issue_certificate_Ok.
  exists csr, ca, tbs, s, ca_spki, req, es.
  destruct (extensions_NoDup _ _ _ _ _ _ _ _ Hreq Hes) as [Hnd Hsan].
  assert (Hin : forall e, In e (b_extensions tbs) <-> if is_san e then In e req else In e es).
  { intros e. rewrite Hexts, in_app_iff, List.filter_In. destruct (is_san e) eqn:Ee; [|naive_solver].
    split; [|tauto]. intros [[? _]|He]; [done|]. destruct Hsan.
    apply bool_decide_eq_true in Ee. rewrite <- Ee. by apply (in_map ext_oid). }
  split_and!; try done; [by rewrite Hexts|]. intros c v Hbc. apply Hin in Hbc.
  apply (basic_constraints_policy _ _ _ _ _ _ _ _ Hes).
  pose proof oids_distinct as Hd. apply NoDup_cons in Hd as [Hd _].
  replace (is_san (BASIC_CONSTRAINTS, c, v)) with false in Hbc; [done|].
  symmetry. apply bool_decide_eq_false. simpl. intros Heq. apply Hd. rewrite <- Heq. left.
Qed.

(** C4: the validity of an issued certificate.  It starts at the moment of
    issue, ends later, and stays within the profile's days, which the
    industry's limit of the day bounds, within the profile's seconds and
    absolute end, and within the CA certificate, which is valid at issue;
    the encoded times are these instants in whole seconds. *)
Theorem issue_certificate_validity `{!TimeLaws} i csr_der p ca_der key hash ocsp crl r :
  issue_certificate i csr_der p ca_der key hash ocsp crl = Ok r ->
  let year t := (civil_from_days (date_naive t)).1.1 in
  not_before r = now_issue i /\ not_before r < not_after r /\
  not_after r <= not_before r + max_validity_days p * DAY_NS /\
  max_validity_days p <= cab_forum_max_validity_days (now_check i) /\
  (forall s, max_validity_seconds p = Some s -> not_after r <= not_before r + s * SECS) /\
  (forall l, max_not_after p = Some l -> not_after r <= l) /\
  exists ca nb na tbs s, cert_from_der ca_der = inl ca /\
    time (cert_not_before ca) = Ok nb /\ time (cert_not_after ca) = Ok na /\
    nb <= now_ca i <= na /\ not_after r <= na /\
    build_and_sign tbs s = inl (certificate_der r) /\
    (1950 <= year (not_before r) <= 9999 ->
     time (b_not_before tbs) = Ok (not_before r / SECS * SECS)) /\
    (1950 <= year (not_after r) <= 9999 ->
     time (b_not_after tbs) = Ok (not_after r / SECS * SECS)).
Proof.
  intros (csr & _ & (Hdays & _) & ca & tbs & Hca & _ & (Hend & Hnb & Htb & Hte) & _ &
    (s & _ & Hsign) & _)%issue_certificate_Ok year.
  apply validity_end_Ok in Hend as (Hpos & Hsecs & Hlim & Hvalid & ca_end & Hce & Hle).
  apply valid_now_Ok in Hvalid as (ca' & nb & na & Hca' & Htnb & Htna & Hnow).
  rewrite Hca in Hca'. injection Hca' as <-. rewrite Hce in Htna. injection Htna as <-.
  rewrite <- Hnb in *. split_and!; try done; try lia.
  exists ca, nb, ca_end, tbs, s. split_and!; try done; try lia;
    intros Hy; by apply chrono_to_synta_time_round_trip.
Qed.

(** Whom a refused issuance blames.  An error that is reported to the
    client as its own means that its request fails a check, or asks for
    unreadable extensions - or that the server's profile has a policy
    identifier the program cannot read.  Any other error comes only after
    the request has passed every check, and says nothing about it. *)
Theorem issue_certificate_blame i csr_der p ca_der key hash ocsp crl e :
  issue_certificate i csr_der p ca_der key hash ocsp crl = Err e ->
  if is_client_error e then
    ~ (exists csr req, csr_checked csr_der csr p /\ requested_extensions csr_der = Ok req) \/
    ~ Forall policy_readable (certificate_policies p)
  else exists csr, csr_checked csr_der csr p.
Proof.
  unfold issue_certificate, issue_verified_request, parse_csr, cert_time. intros E.
  pose proof (verify_csr_pop_faults csr_der) as F1. pose proof (validate_csr_faults csr_der) as F2.
  pose proof (check_subject_dn_faults csr_der) as F3. pose proof (check_key_size_faults csr_der p) as F4.
  destruct (verify_csr_pop csr_der) as [[]|e1|] eqn:E1; [|simplify_eq/=; rewrite F1; left|done].
  2: { intros (csr & req & (_ & Hcsr & Hk & Hp & _) & _).
       by rewrite (proj2 (verify_csr_pop_Ok csr_der)) in E1 by eauto. }
  destruct (validate_csr csr_der) as [[]|e1|] eqn:E2; [|simplify_eq/=; rewrite F2; left|done].
  2: { intros (csr & req & (Hb & Hcsr & _ & Hp & _) & _).
       by rewrite (proj2 (validate_csr_Ok csr_der)) in E2 by eauto. }
  destruct (check_subject_dn_compliance csr_der) as [[]|e1|] eqn:E3;
    [|simplify_eq/=; rewrite F3; left|done].
  2: { intros (csr & req & (_ & Hcsr & _ & _ & Hou & _) & _).
       by rewrite (proj2 (check_subject_dn_compliance_Ok csr_der)) in E3 by eauto. }
  destruct (check_key_size csr_der p) as [[]|e1|] eqn:E4; [|simplify_eq/=; rewrite F4; left|done].
  2: { intros (csr & req & (_ & Hcsr & _ & _ & _ & Hk) & _).
       by rewrite (proj2 (check_key_size_Ok csr_der p)) in E4 by eauto. }
  assert (Hc : exists csr, csr_checked csr_der csr p).
  { apply verify_csr_pop_Ok in E1 as (csr & Hcsr & Hkem & Hpop).
    apply validate_csr_Ok in E2 as [Hb _].
    apply check_subject_dn_compliance_Ok in E3 as (csr2 & Hcsr2 & Hou).
    apply check_key_size_Ok in E4 as (csr3 & Hcsr3 & Hkey).
    rewrite Hcsr in Hcsr2, Hcsr3. injection Hcsr2 as <-. injection Hcsr3 as <-.
    exists csr. unfold csr_checked. tauto. }
  destruct (is_client_error e) eqn:Ec; [|done]. destruct Hc as [csr Hc].
  cbn [obind] in E. pose proof (issue_verified_request_blames i csr_der p ca_der key hash ocsp crl csr Hc) as Hb.
  unfold issue_verified_request, parse_csr, cert_time in Hb. rewrite E3, E4 in Hb. cbn [obind] in Hb.
  destruct (Hb e E Ec) as [Hr|Hr]; [left; naive_solver|by right].
Qed.

(** What [CsrBuilder] documents: a built request parses and has the
    subject and the key it was given. *)
Class CsrBuilderLaws : Prop := {
  built_request_parses subject spki exts algorithm cri signature der :
    build_cri subject spki exts algorithm = inl cri -> assemble_csr cri algorithm signature = inl der ->
    exists csr, csr_from_der der = inl csr /\ csr_subject csr = inl subject /\
      csr_spki csr = inl spki
}.

(** A CRMF request is certified for its own key only: the template's
    subject and public key, of which the requester has signed the whole
    request; and the checks of a PKCS#10 request on subject, key and profile
    apply as well. *)
Theorem issue_crmf_sound `{Hlaws : !CsrBuilderLaws} i req p ca_der key hash ocsp crl r :
  issue_crmf_certificate i req p ca_der key hash ocsp crl = Ok r ->
  exists subject spki alg sig tbs s csr,
    template_subject req = Some (inl subject) /\ template_public_key req = Some (inl spki) /\
    popo req = Some (PopSignature false (inl alg) sig) /\
    (exists signed, cert_req_der req = inl signed /\
       verify_signature signed alg sig spki = inl tt) /\
    build_and_sign tbs s = inl (certificate_der r) /\ signer_of (coins i) key hash s /\
    b_subject tbs = subject /\ b_spki tbs = spki /\
    no_organizational_unit csr /\ key_acceptable csr p /\ csr_spki csr = inl spki /\
    profile_within (now_check i) p.
Proof.
  unfold issue_crmf_certificate, crmf_to_csr. intros E. inv_ok E. do 4 inv_ok H0.
  apply ok_or_Ok in H1, H3. apply of_lib_Ok in H2, H4. subst.
  destruct (popo req) as [[[] alg sig|]|] eqn:Epop; try done.
  do 4 inv_ok H0. destruct t4. apply of_lib_Ok in H0, H2, H4, H5, H6. subst alg.
  apply issue_verified_request_Ok in E as (csr & Hcsr & Hou & Hkey & Hprof & ca & tbs & _ &
    (Hsub & Hspki & _) & _ & _ & (s & Hs & Hsign) & _).
  destruct (built_request_parses _ _ _ _ _ _ _ H6 H0) as (csr' & Hcsr' & Hsub' & Hspki').
  rewrite Hcsr in Hcsr'. injection Hcsr' as <-. rewrite Hsub' in Hsub. rewrite Hspki' in Hspki.
  injection Hsub as Hsub. injection Hspki as Hspki.
  eexists _, _, _, sig, tbs, s, csr. split_and!; try done.
  by eexists.
Qed.
End Spec.

(** ** PKCS#11 URIs *)

(** [es] stands for the bytes [bs] (RFC 7512 section 2.3): each byte either
    as itself, if it is no percent sign, or as two hexadecimal digits. *)
Inductive percent_encodes : bytes -> bytes -> Prop :=
  | pe_nil : percent_encodes [] []
  | pe_raw b bs es : b <> 37 -> percent_encodes bs es -> percent_encodes (b :: bs) (b :: es)
  | pe_hex h l hi lo bs es :
      hex_digit h = Some hi -> hex_digit l = Some lo -> percent_encodes bs es ->
      percent_encodes (hi * 16 + lo :: bs) (37 :: h :: l :: es).

Lemma hex_digit_range h v : hex_digit h = Some v -> 0 <= v < 16.
Proof.
  unfold hex_digit, in_range. intros E. repeat (case_match; simplify_eq); blia.
Qed.

Lemma percent_decode_encodes bs es i :
  percent_encodes bs es -> percent_decode_from i es = Ok bs.
Proof.
  intros H. revert i. induction H as [|b bs es Hb _ IH|h l hi lo bs es Hh Hl _ IH]; intros i; simpl.
  - done.
  - rewrite (proj2 (Z.eqb_neq b 37) Hb), IH. done.
  - rewrite Hh, Hl. simpl. rewrite IH. simpl. apply hex_digit_range in Hh, Hl.
    rewrite Z.shiftl_mul_pow2 by lia. unfold as_u8. rewrite Z.mod_small by lia.
    do 2 f_equal. rewrite <- Z.shiftl_mul_pow2 by lia.
    by rewrite lor_shiftl_add by lia.
Qed.

(** An attribute of the URI that is not the object. *)
Definition other_attribute (s : string) : Prop :=
  contains_char ";"%char s = false /\
  match split_once "="%char s with Some (key, _) => key <> "object" | None => True end.

Lemma find_object_here before value after :
  Forall other_attribute before ->
  find_object (before ++ ("object=" +:+ value) :: after) = Some value.
Proof.
  induction 1 as [|s before [_ Hs] _ IH]; cbn [app find_object].
  - by replace (split_once "=" ("object=" +:+ value)) with (Some ("object", value)).
  - destruct (split_once "=" s) as [[key v]|]; [|done].
    apply String.eqb_neq in Hs. by rewrite Hs.
Qed.

Lemma find_object_none l :
  Forall other_attribute l -> find_object l = None.
Proof.
  induction 1 as [|s l [_ Hs] _ IH]; cbn [find_object]; [done|].
  destruct (split_once "=" s) as [[key v]|]; [|done].
  apply String.eqb_neq in Hs. by rewrite Hs.
Qed.

(** The label of a key in an HSM is read back from its PKCS#11 URI
    whatever the other attributes, their order, and the choice of the bytes
    that are percent-encoded; a URI without an object is refused. *)
Theorem pkcs11_label_round_trip err label value before after :
  percent_encodes (bytes_of_string label) (bytes_of_string value) ->
  utf8_valid (bytes_of_string label) = true ->
  contains_char ";"%char value = false ->
  Forall other_attribute before -> Forall other_attribute after ->
  let uri attrs := "pkcs11:" +:+ join ";" attrs in
  parse_pkcs11_object_label err (uri (before ++ ("object=" +:+ value) :: after)) = Ok label /\
  parse_pkcs11_object_label err (uri (before ++ after)) =
    Err ("pkcs11 URI missing 'object' attribute: " +:+ uri (before ++ after)).
Proof.
  intros Henc Hutf Hsemi Hb Ha uri.
  assert (Hclean : forall l, Forall other_attribute l ->
    Forall (fun x => contains_char ";" x = false) l).
  { intros l Hl. eapply Forall_impl; [exact Hl|]. by intros x []. }
  assert (Hpath : forall p, strip_prefix "pkcs11:" ("pkcs11:" +:+ p) = Some p)
    by (intros; apply strip_prefix_app).
  unfold parse_pkcs11_object_label, uri. rewrite !Hpath. cbn [ok_or obind]. split.
  - rewrite split_char_join.
    + rewrite find_object_here by done. unfold pkcs11_percent_decode.
      rewrite (percent_decode_encodes _ _ 0 Henc). cbn [obind].
      unfold from_utf8. rewrite Hutf. cbn [ok_or]. by rewrite string_of_bytes_of_string.
    + by destruct before.
    + apply Forall_app. split; [by apply Hclean|]. apply Forall_cons. split; [|by apply Hclean].
      by rewrite contains_char_app, Hsemi.
  - replace (find_object _) with (@None string); [done|]. symmetry.
    destruct (before ++ after) as [|x l] eqn:El; [done|].
    assert (Hall : Forall other_attribute (x :: l)) by (rewrite <- El; by apply Forall_app).
    rewrite split_char_join; [|done|by apply Hclean]. by apply find_object_none.
Qed.

Definition pkcs11_example : Prop :=
  parse_pkcs11_object_label (fun _ => EmptyString)
    "pkcs11:token=kipuka;object=ca%2dkey;type=private" = Ok "ca-key".

Lemma pkcs11_label_round_trip_witness : pkcs11_example.
Proof.
  refine (proj1 (pkcs11_label_round_trip (fun _ => EmptyString) "ca-key" "ca%2dkey" ["token=kipuka"]
    ["type=private"] _ _ _ _ _)).
  - apply pe_raw; [done|]. apply pe_raw; [done|].
    apply (pe_hex 50 100 2 13); [done|done|]. repeat (apply pe_raw; [done|]). apply pe_nil.
  - done.
  - done.
  - repeat constructor; done.
  - repeat constructor; done.
Defined.

(** ** The theorems on the example library *)

Definition example_now : Z := days_from_civil 2026 6 1 * DAY_NS + 5.
Definition example_inputs : IssueInputs unit :=
  MkInputs example_now example_now example_now [1; 2] tt (9000 * 366 * DAY_NS).
Definition example_profile : EnrollmentProfile := enrollment_profile_default example_now.
(** Subject 65, an RSA key of 2048 bits, signed; and one signed by another. *)
Definition example_request : bytes := [48; 65; 2; 2].
Definition example_ca : bytes := [48; 66; 66].
Definition example_issue (csr : bytes) : outcome IssuanceResult IssuanceError :=
  issue_certificate example_inputs csr example_profile example_ca (Pem [1]) "sha256" None None.
Definition example_result : IssuanceResult :=
  MkIssued [48; 65; 66; 1] "2" "CN=A" example_now (example_now + 200 * DAY_NS).

Lemma issue_certificate_sound_witness :
  example_issue example_request = Ok example_result /\
  exists csr tbs s, csr_checked example_request csr example_profile /\
    build_and_sign tbs s = inl [48; 65; 66; 1] /\
    forall c v, In (BASIC_CONSTRAINTS, c, v) (b_extensions tbs) -> v = [0].
Proof.
  assert (E : example_issue example_request = Ok example_result) by (vm_compute; reflexivity).
  split; [exact E|].
  destruct (issue_certificate_sound _ _ _ _ _ _ _ _ _ E) as
    (csr & ca & tbs & s & k & req & es & Hc & _ & [_ Hs] & _ & _ & _ & _ & _ & _ & Hbc).
  exists csr, tbs, s. split; [exact Hc|]. split; [exact Hs|].
  intros c v Hin. destruct (Hbc c v Hin) as [_ Hv]. injection Hv as <-. reflexivity.
Defined.

Lemma issue_certificate_validity_witness :
  exists tbs s, build_and_sign tbs s = inl [48; 65; 66; 1] /\
    time (b_not_after tbs) = Ok (example_now / SECS * SECS + 200 * DAY_NS).
Proof.
  assert (E : example_issue example_request = Ok example_result) by (vm_compute; reflexivity).
  destruct (issue_certificate_validity _ _ _ _ _ _ _ _ _ E) as
    (_ & _ & _ & _ & _ & _ & ca & nb & na & tbs & s & _ & _ & _ & _ & _ & Hs & _ & Ht).
  exists tbs, s. split; [exact Hs|]. rewrite Ht; [vm_compute; reflexivity|].
  vm_compute. split; discriminate.
Defined.

Lemma issue_certificate_blame_witness :
  example_issue [48; 65; 2; 3] = Err (InvalidCsr
    "CSR self-signature (proof-of-possession) verification failed: bad signature") /\
  ~ exists csr req, csr_checked [48; 65; 2; 3] csr example_profile /\
      requested_extensions [48; 65; 2; 3] = Ok req.
Proof.
  assert (E : example_issue [48; 65; 2; 3] = Err (InvalidCsr
    "CSR self-signature (proof-of-possession) verification failed: bad signature"))
    by (vm_compute; reflexivity).
  split; [exact E|].
  destruct (issue_certificate_blame _ _ _ _ _ _ _ _ _ E) as [Hn|Hn]; [exact Hn|].
  destruct Hn. apply Forall_cons. split; [|apply Forall_nil_2].
  unfold policy_readable. replace (split_char "." "2.23.140.1.2.1") with ["2"; "23"; "140"; "1"; "2"; "1"]
    by (vm_compute; reflexivity).
  repeat (apply Forall_cons; split; [eexists; vm_compute; reflexivity|]). apply Forall_nil_2.
Defined.

#[local] Instance example_builder : CsrBuilderLaws.
Proof.
  split. intros subject spki exts alg cri sig der Hb Ha. simpl in *.
  destruct subject as [|a [|]]; try done. destruct spki as [|b [|]]; try done.
  injection Hb as <-. destruct sig as [|c [|]]; try done. injection Ha as <-.
  by exists (a, b, c).
Qed.

Definition example_crmf : CertReqMsg :=
  MkCertReqMsg (Some (inl [65])) (Some (inl [2])) None (inl [1; 2; 3])
    (Some (PopSignature false (inl []) [2])).

Lemma issue_crmf_sound_witness :
  issue_crmf_certificate example_inputs example_crmf example_profile example_ca (Pem [1]) "sha256"
    None None = Ok example_result /\
  exists tbs s, b_spki tbs = [2] /\ build_and_sign tbs s = inl [48; 65; 66; 1].
Proof.
  assert (E : issue_crmf_certificate example_inputs example_crmf example_profile example_ca (Pem [1])
    "sha256" None None = Ok example_result) by (vm_compute; reflexivity).
  split; [exact E|].
  destruct (issue_crmf_sound _ _ _ _ _ _ _ _ _ E) as
    (subject & spki & alg & sig & tbs & s & csr & _ & Hk & _ & _ & Hs & _ & _ & Hspki & _).
  exists tbs, s. split; [|exact Hs]. rewrite Hspki. injection Hk as <-. reflexivity.
Defined.
