(* ===== verification/HaPool.v ===== *)
(** * High availability: CA selection, circuit breaker, health, retry queue

    [src/ha/strategy.rs], [src/ha/pool.rs], and of [src/ha/health.rs] the
    state transitions and the rounds of probes.  The latency average is an IEEE double; the round-robin
    counter is a 64-bit [usize] that wraps. *)
From S2P Require Import Prelude Words Text.
Open Scope Z_scope.

(** [Duration::as_secs_f64] of a duration in nanoseconds. *)
Definition as_secs_f64 (d : Z) : f64 :=
  f64_add (f64_of_Z (d / SECS)) (f64_div (f64_of_Z (d mod SECS)) (f64_of_Z SECS)).

(** ** Data *)

Inductive HealthState : Type := Healthy | Degraded | Unavailable | Recovering.

#[export] Instance HealthState_eq_dec : EqDecision HealthState.
Proof. solve_decision. Defined.

Definition is_available (h : HealthState) : bool :=
  match h with Healthy | Degraded | Recovering => true | Unavailable => false end.

Record CaStatus : Type := MkStatus {
  health : HealthState;
  consecutive_failures : Z;         (* u32 *)
  last_success : option Z;
  circuit_open_since : option Z;
  latency_ema_ms : f64;
  last_latency : option Z
}.

Definition status_new : CaStatus := MkStatus Healthy 0 None None f64_zero None.

Record CaConnection : Type := MkCa {
  ca_id : string;
  endpoint : string;
  weight : Z;                       (* u32 *)
  priority : Z                      (* u32 *)
}.

Inductive FailoverStrategy : Type := ActivePassive | RoundRobin | Weighted | LatencyBased.
Inductive FallbackBehavior : Type := Reject | QueueAndRetry.

Record PoolConfig : Type := MkPoolConfig {
  strategy : FailoverStrategy;
  fallback : FallbackBehavior;
  failure_threshold : Z;            (* u32 *)
  cooldown : Z;
  max_queue_size : Z;
  queue_ttl : Z;
  max_csr_size : Z
}.

(** ** Strategies *)

Abbreviation candidate := (CaConnection * CaStatus)%type.

(** [Iterator::min_by]: the first of the minima. *)
Definition min_by {A} (gt : A -> A -> bool) (l : list A) : option A :=
  match l with
  | [] => None
  | x :: l' => Some (fold_left (fun m y => if gt m y then y else m) l' x)
  end.

Definition select_active_passive (l : list candidate) : option CaConnection :=
  option_map fst (min_by_key (fun c => priority c.1) l).

(** [fetch_add] returns the counter and leaves the next one. *)
Definition bump (rr : Z) : Z := as_u64 (rr + 1).

Definition select_round_robin (rr : Z) (l : list candidate) : Z * option CaConnection :=
  let idx := rr mod Z.of_nat (length l) in
  (bump rr, option_map fst (l !! Z.to_nat idx)).

Definition total_weight (l : list candidate) : Z :=
  fold_left (fun a c => as_u32 (a + weight c.1)) l 0.

Fixpoint pick_weighted (tick cumulative : Z) (l : list candidate) : option CaConnection :=
  match l with
  | [] => None
  | c :: l' =>
      let cumulative := as_u32 (cumulative + weight c.1) in
      if tick <? cumulative then Some c.1 else pick_weighted tick cumulative l'
  end.

Definition select_weighted (rr : Z) (l : list candidate) : Z * option CaConnection :=
  let total := total_weight l in
  if total =? 0 then select_round_robin rr l
  else
    let tick := as_u32 rr mod total in
    (bump rr,
     match pick_weighted tick 0 l with
     | Some c => Some c
     | None => option_map fst (last l)
     end).

(** [f64_gt]: [partial_cmp(..).unwrap_or(Equal)] is [Greater]. *)
Definition select_latency_based (l : list candidate) : option CaConnection :=
  option_map fst (min_by (fun a b => f64_gt (latency_ema_ms a.2) (latency_ema_ms b.2)) l).

Definition select (st : FailoverStrategy) (rr : Z) (l : list candidate)
  : Z * option CaConnection :=
  match l with
  | [] => (rr, None)
  | _ =>
      match st with
      | ActivePassive => (rr, select_active_passive l)
      | RoundRobin => select_round_robin rr l
      | Weighted => select_weighted rr l
      | LatencyBased => (rr, select_latency_based l)
      end
  end.

(** ** The pool *)

Record QueuedRequest : Type := MkQueued { csr_der : bytes; queued_at : Z }.

Record CaPool : Type := MkPool {
  connections : list CaConnection;
  statuses : gmap string CaStatus;
  pool_config : PoolConfig;
  rr_counter : Z;
  retry_queue : list QueuedRequest
}.

Definition pool_new (conns : list CaConnection) (c : PoolConfig) : CaPool :=
  MkPool conns (fold_left (fun m conn => <[ca_id conn := status_new]> m) conns ∅) c 0 [].

Definition set_statuses (p : CaPool) m : CaPool :=
  MkPool (connections p) m (pool_config p) (rr_counter p) (retry_queue p).
Definition set_rr (p : CaPool) rr : CaPool :=
  MkPool (connections p) (statuses p) (pool_config p) rr (retry_queue p).
Definition set_queue (p : CaPool) q : CaPool :=
  MkPool (connections p) (statuses p) (pool_config p) (rr_counter p) q.

Definition eligible (p : CaPool) (allowed : list string) (c : CaConnection) : bool :=
  bool_decide (ca_id c ∈ allowed) &&
  match statuses p !! ca_id c with Some s => is_available (health s) | None => false end.

(** The snapshot handed to the strategy. *)
Definition snapshot (p : CaPool) (allowed : list string) : list candidate :=
  omap (fun c => option_map (fun s => (c, s)) (statuses p !! ca_id c))
    (List.filter (eligible p allowed) (connections p)).

Definition select_allowed (p : CaPool) (allowed : list string) : CaPool * option CaConnection :=
  match List.filter (eligible p allowed) (connections p) with
  | [] => (p, None)      (* for either fallback *)
  | _ =>
      let (rr, c) := select (strategy (pool_config p)) (rr_counter p) (snapshot p allowed) in
      (set_rr p rr, c)
  end.

Definition pool_select (p : CaPool) : CaPool * option CaConnection :=
  select_allowed p (map ca_id (connections p)).

(** A new observation of 30%. *)
Definition latency_update (ema : f64) (latency : Z) : f64 :=
  let ms := f64_mul (as_secs_f64 latency) (f64_of_Z 1000) in
  f64_add (f64_mul ema f64_0_7) (f64_mul ms f64_0_3).

Definition record_success (p : CaPool) (id : string) (latency now : Z) : CaPool :=
  match statuses p !! id with
  | Some s =>
      set_statuses p
        (<[id := MkStatus Healthy 0 (Some now) None (latency_update (latency_ema_ms s) latency)
                   (Some latency)]> (statuses p))
  | None => p
  end.

(** What [record_failure] does to the entry of a registered CA. *)
Definition failed_status (threshold now : Z) (s : CaStatus) : CaStatus :=
  let n := as_u32 (consecutive_failures s + 1) in
  let '(h, open) :=
    if threshold <=? n then
      if negb (bool_decide (health s = Unavailable)) then (Unavailable, Some now)
      else (health s, circuit_open_since s)
    else if bool_decide (health s = Healthy) then (Degraded, circuit_open_since s)
    else (health s, circuit_open_since s) in
  MkStatus h n (last_success s) open (latency_ema_ms s) (last_latency s).

Definition record_failure (p : CaPool) (id : string) (now : Z) : CaPool :=
  match statuses p !! id with
  | Some s =>
      set_statuses p
        (<[id := failed_status (failure_threshold (pool_config p)) now s]> (statuses p))
  | None => p
  end.

Definition should_reprobe (p : CaPool) (id : string) (now : Z) : bool :=
  match statuses p !! id with
  | Some s =>
      match circuit_open_since s with
      | Some opened => cooldown (pool_config p) <=? elapsed now opened
      | None => false
      end
  | None => false
  end.

Definition set_health (p : CaPool) (id : string) (h : HealthState) : CaPool :=
  match statuses p !! id with
  | Some s =>
      set_statuses p
        (<[id := MkStatus h (consecutive_failures s) (last_success s) (circuit_open_since s)
                   (latency_ema_ms s) (last_latency s)]> (statuses p))
  | None => p
  end.

(** ** Probes *)

Record HealthConfig : Type := MkHealthConfig {
  recovery_threshold : Z;
  degraded_latency_ms : Z
}.

Record ProbeMetrics : Type := MkMetrics {
  m_consecutive_failures : Z;
  m_consecutive_successes : Z
}.

Definition handle_probe_success (hc : HealthConfig) (p : CaPool) (id : string)
  (latency now : Z) (m : ProbeMetrics) : CaPool * ProbeMetrics :=
  let successes := as_u32 (m_consecutive_successes m + 1) in
  let current_health :=
    match statuses p !! id with Some s => health s | None => Healthy end in
  let latency_ms := as_u64 (latency / 1000000) in
  let '(new_state, successes) :=
    match current_health with
    | Unavailable => (Recovering, 1)
    | Recovering =>
        (if recovery_threshold hc <=? successes then Healthy else Recovering, successes)
    | Degraded | Healthy =>
        (if degraded_latency_ms hc <? latency_ms then Degraded else Healthy, successes)
    end in
  (record_success (set_health p id new_state) id latency now, MkMetrics 0 successes).

Definition handle_probe_failure (p : CaPool) (id : string) (now : Z) (m : ProbeMetrics)
  : CaPool * ProbeMetrics :=
  (record_failure p id now, MkMetrics (as_u32 (m_consecutive_failures m + 1)) 0).

(** ** The retry queue *)

Inductive EnqueueResult : Type :=
  | Queued (retry_after_secs queue_depth : Z)
  | QueueFull (max_size : Z).

Definition live_request (p : CaPool) (now : Z) (r : QueuedRequest) : bool :=
  elapsed now (queued_at r) <? queue_ttl (pool_config p).

Definition enqueue_request (p : CaPool) (csr : bytes) (now : Z) : CaPool * EnqueueResult :=
  let c := pool_config p in
  if max_csr_size c <? Z.of_nat (length csr) then (p, QueueFull (max_queue_size c))
  else
    let queue := List.filter (live_request p now) (retry_queue p) in
    if max_queue_size c <=? Z.of_nat (length queue) then
      (set_queue p queue, QueueFull (max_queue_size c))
    else
      let queue := queue ++ [MkQueued csr now] in
      (set_queue p queue, Queued 30 (Z.of_nat (length queue))).

Definition drain_queue (p : CaPool) (now : Z) : CaPool * list QueuedRequest :=
  (set_queue p [], List.filter (live_request p now) (retry_queue p)).

(** ** Probe rounds

    What the checker asks of the outside: the liveness check of a local CA
    ([probe_local_ca], OpenSSL and the HSM), the HTTP client, the clock.
    The answers depend on how far the round has come, which the argument
    [n] counts. *)

Inductive ProbeError : Type :=
  | CooldownNotElapsed
  | NotInPool (id : string)
  | LocalFailed (why : string)
  | RequestFailed (why : string)
  | HttpStatus (code : Z)
  | ResponseTooLarge
  | ChunkFailed (why : string)
  | NotRunning (body : bytes).

(** One [chunk().await] of the body. *)
Inductive BodyChunk : Type :=
  | Chunk (data : bytes)
  | ChunkErr (why : string).

Inductive HttpGet : Type :=
  | GetFailed (why : string)
  | GetResponse (status : Z) (body : list BodyChunk).

Class ProbeEnv := {
  probe_local : nat -> string -> outcome unit string;
  http_get : nat -> string -> HttpGet;
  probe_now : nat -> Z;           (* the clock at the start of probe [n] *)
  probe_elapsed : nat -> Z        (* how long it takes *)
}.

Definition MAX_PROBE_BODY : Z := 65536.

Fixpoint read_body (acc : bytes) (l : list BodyChunk) : outcome bytes ProbeError :=
  match l with
  | [] => Ok acc
  | ChunkErr why :: _ => Err (ChunkFailed why)
  | Chunk data :: l' =>
      if MAX_PROBE_BODY <? Z.of_nat (length acc) + Z.of_nat (length data)
      then Err ResponseTooLarge
      else read_body (acc ++ data) l'
  end.

(** The body is searched for "running" with [from_utf8_lossy] and
    [to_lowercase]; on this ASCII pattern they agree with the ASCII case
    folding of the bytes. *)
Definition says_running (body : bytes) : bool :=
  contains_str "running" (to_ascii_lowercase (string_of_bytes body)).

Definition health_url (endpoint : string) : string :=
  if contains_str "/ca" endpoint
  then trim_end_char "/" endpoint +:+ "/admin/ca/getStatus"
  else endpoint.

Definition is_unavailable (p : CaPool) (id : string) : bool :=
  match statuses p !! id with
  | Some s => bool_decide (health s = Unavailable)
  | None => false
  end.

Definition probe_ca `{ProbeEnv} (p : CaPool) (n : nat) (id : string)
  : outcome unit ProbeError :=
  if is_unavailable p id && negb (should_reprobe p id (probe_now n)) then Err CooldownNotElapsed
  else
    match List.find (fun c => bool_decide (ca_id c = id)) (connections p) with
    | None => Err (NotInPool id)
    | Some c =>
        if starts_with "local:" (endpoint c) then
          match probe_local n id with
          | Ok _ => Ok tt
          | Err e => Err (LocalFailed e)
          | Panic => Panic
          end
        else
          let url := health_url (endpoint c) in
          match http_get n url with
          | GetFailed why => Err (RequestFailed why)
          | GetResponse status body =>
              if negb (is_success status) then Err (HttpStatus status)
              else if contains_str "getStatus" url then
                let? bytes := read_body [] body in
                if says_running bytes then Ok tt else Err (NotRunning bytes)
              else Ok tt
          end
    end.

Abbreviation MetricsMap := (gmap string ProbeMetrics).

Definition probe_one `{ProbeEnv} (hc : HealthConfig) (p : CaPool) (ms : MetricsMap)
  (n : nat) (id : string) : CaPool * MetricsMap :=
  let m := default (MkMetrics 0 0) (ms !! id) in
  let fin := probe_now n + probe_elapsed n in
  let '(p', m') :=
    match probe_ca p n id with
    | Ok _ => handle_probe_success hc p id (probe_elapsed n) fin m
    | _ => handle_probe_failure p id fin m
    end in
  (p', <[id := m']> ms).

Fixpoint probe_all `{ProbeEnv} (hc : HealthConfig) (p : CaPool) (ms : MetricsMap)
  (n : nat) (conns : list CaConnection) : CaPool * MetricsMap :=
  match conns with
  | [] => (p, ms)
  | c :: conns' =>
      let (p', ms') := probe_one hc p ms n (ca_id c) in probe_all hc p' ms' (S n) conns'
  end.

(** One round, the [n]th probe of the run being its first. *)
Definition run_probes `{ProbeEnv} (hc : HealthConfig) (p : CaPool) (ms : MetricsMap) (n : nat)
  : CaPool * MetricsMap :=
  probe_all hc p ms n (connections p).

(** * High availability: theorems

    What [HaPool] promises: a selected CA is registered, allowed and
    available; each strategy's distribution; the circuit breaker as a
    function of the failures since the last success; the retry queue; what a
    round of probes does to the pool. *)

Open Scope Z_scope.

(** ** Candidates *)

Definition candidate_conns (p : CaPool) (allowed : list string) : list CaConnection :=
  List.filter (eligible p allowed) (connections p).

Lemma elem_of_filter_bool {A} (f : A -> bool) (l : list A) x :
  x ∈ List.filter f l <-> x ∈ l /\ f x = true.
Proof. rewrite !list_elem_of_In. apply filter_In. Qed.

Lemma eligible_spec p allowed c :
  eligible p allowed c = true <->
  ca_id c ∈ allowed /\
  exists s, statuses p !! ca_id c = Some s /\ is_available (health s) = true.
Proof.
  unfold eligible. rewrite andb_true_iff, bool_decide_eq_true.
  destruct (statuses p !! ca_id c) as [s|]; naive_solver.
Qed.

(** The snapshot is the candidates, each with its status. *)
Lemma omap_lookup_fst (m : gmap string CaStatus) (l : list CaConnection) :
  (forall c, c ∈ l -> is_Some (m !! ca_id c)) ->
  map fst (omap (fun c => option_map (fun s => (c, s)) (m !! ca_id c)) l) = l.
Proof.
  induction l as [|c l IH]; intros Hl; [done|].
  destruct (Hl c) as [s Hs]; [by left|]. cbn [omap list_omap].
  rewrite Hs. cbn. f_equal. apply IH. intros d Hd. apply Hl. by right.
Qed.

Lemma snapshot_fst p allowed : map fst (snapshot p allowed) = candidate_conns p allowed.
Proof.
  apply omap_lookup_fst. intros c [_ Hc]%elem_of_filter_bool.
  apply eligible_spec in Hc as (_ & s & -> & _). by eexists.
Qed.

Lemma snapshot_length p allowed :
  length (snapshot p allowed) = length (candidate_conns p allowed).
Proof. by rewrite <- snapshot_fst, length_map. Qed.

Lemma snapshot_lookup p allowed i :
  option_map fst (snapshot p allowed !! i) = candidate_conns p allowed !! i.
Proof. rewrite <- snapshot_fst. by rewrite <- list_lookup_fmap. Qed.

(** ** The strategies return a candidate *)

Lemma min_by_elem {A} (gt : A -> A -> bool) l x : min_by gt l = Some x -> x ∈ l.
Proof.
  destruct l as [|a l]; [done|]. cbn. intros [= <-].
  revert a. induction l as [|b l IH]; cbn; intros a; [by left|].
  specialize (IH (if gt a b then b else a)). rewrite elem_of_cons in IH.
  rewrite !elem_of_cons. destruct (gt a b); naive_solver.
Qed.

Lemma pick_weighted_elem tick cum l c :
  pick_weighted tick cum l = Some c -> c ∈ map fst l.
Proof.
  revert cum. induction l as [|a l IH]; cbn; intros cum; [done|].
  case_match; [intros [= <-]; by left|]. intros H1. right. eauto.
Qed.

Lemma option_map_fst_elem (o : option candidate) (l : list candidate) c :
  (forall x, o = Some x -> x ∈ l) -> option_map fst o = Some c -> c ∈ map fst l.
Proof.
  destruct o as [x|]; [|done]. intros Ho [= <-]. apply list_elem_of_fmap. eauto.
Qed.

Lemma select_elem st rr l c : (select st rr l).2 = Some c -> c ∈ map fst l.
Proof.
  destruct l as [|a l]; [done|]. set (l' := a :: l).
  assert (Hrr : (select_round_robin rr l').2 = Some c -> c ∈ map fst l').
  { apply option_map_fst_elem. intros x Hx. by apply list_elem_of_lookup_2 in Hx. }
  destruct st.
  - apply option_map_fst_elem. by intros x [? _]%min_by_key_Some.
  - exact Hrr.
  - change ((select_weighted rr l').2 = Some c -> c ∈ map fst l'). unfold select_weighted.
    case_match; [exact Hrr|]. cbn [snd]. case_match eqn:E.
    + intros [= <-]. by eapply pick_weighted_elem.
    + apply option_map_fst_elem. intros x Hx. apply last_Some in Hx as [k Hk].
      rewrite Hk. apply elem_of_app. right. by left.
  - apply option_map_fst_elem. intros x. apply min_by_elem.
Qed.

Lemma select_round_robin_some rr l : l <> [] -> is_Some (select_round_robin rr l).2.
Proof.
  intros Hl. assert (0 < Z.of_nat (length l)) by (destruct l; [done|cbn; lia]).
  unfold select_round_robin. cbv zeta. cbn [snd].
  destruct (lookup_lt_is_Some_2 l (Z.to_nat (rr mod Z.of_nat (length l)))) as [x Hx].
  { pose proof (Z.mod_pos_bound rr (Z.of_nat (length l))). lia. }
  rewrite Hx. by eexists.
Qed.

Lemma select_some st rr l : l <> [] -> is_Some (select st rr l).2.
Proof.
  intros Hl. destruct l as [|a l]; [done|]. set (l' := a :: l) in *. destruct st.
  - change (is_Some (select_active_passive l')). unfold select_active_passive.
    destruct (min_by_key _ l') eqn:E; [by eexists|]. by apply min_by_key_None in E.
  - by apply select_round_robin_some.
  - change (is_Some (select_weighted rr l').2). unfold select_weighted.
    case_match; [by apply select_round_robin_some|]. cbn [snd].
    case_match; [by eexists|]. unfold l'. rewrite last_cons. case_match; by eexists.
  - by eexists.
Qed.

Lemma select_allowed_unfold p allowed :
  select_allowed p allowed =
  let r := select (strategy (pool_config p)) (rr_counter p) (snapshot p allowed) in
  (set_rr p r.1, r.2).
Proof.
  unfold select_allowed. pose proof (snapshot_length p allowed) as Hlen.
  unfold candidate_conns in Hlen. destruct (List.filter _ _) as [|c l].
  - destruct (snapshot p allowed); [|done]. by destruct p.
  - by destruct (select _ _ _).
Qed.

Lemma select_allowed_sound p allowed c :
  (select_allowed p allowed).2 = Some c -> c ∈ candidate_conns p allowed.
Proof. rewrite select_allowed_unfold. cbn. intros H. rewrite <- snapshot_fst. by eapply select_elem. Qed.

Lemma select_allowed_none p allowed :
  (select_allowed p allowed).2 = None <-> candidate_conns p allowed = [].
Proof.
  rewrite select_allowed_unfold. cbv zeta. cbn [snd]. split.
  - intros Hn. apply nil_length_inv. rewrite <- snapshot_length.
    destruct (snapshot p allowed) as [|a l] eqn:E; [done|].
    destruct (select_some (strategy (pool_config p)) (rr_counter p) (a :: l)) as [? H1]; [done|].
    congruence.
  - intros Hn. pose proof (snapshot_length p allowed) as Hl. rewrite Hn in Hl.
    by destruct (snapshot p allowed).
Qed.

(** Selecting within an allowed set returns a CA that is registered, is
    allowed and is available by its recorded health; it returns none exactly
    when no registered CA is; and it changes nothing but the round-robin
    counter. *)
Theorem select_allowed_spec p allowed :
  let (p', r) := select_allowed p allowed in
  match r with
  | Some c =>
      c ∈ connections p /\ ca_id c ∈ allowed /\
      exists s, statuses p !! ca_id c = Some s /\ is_available (health s) = true
  | None => forall c, c ∈ connections p -> eligible p allowed c = false
  end /\
  p' = set_rr p (rr_counter p').
Proof.
  pose proof (select_allowed_sound p allowed) as Hs.
  pose proof (select_allowed_none p allowed) as Hn.
  rewrite select_allowed_unfold in *. cbv zeta in *. cbn [snd] in *. split; [|by destruct p].
  destruct (select _ _ _).2 as [c|].
  - specialize (Hs c eq_refl). apply elem_of_filter_bool in Hs as [? Hc]. apply eligible_spec in Hc. naive_solver.
  - intros c Hc. apply not_true_is_false. intros He.
    assert (Hin : c ∈ candidate_conns p allowed) by (by apply elem_of_filter_bool).
    rewrite (proj1 Hn eq_refl) in Hin. by apply elem_of_nil in Hin.
Qed.

(** ** Order of preference, and distribution *)

(** Under the active-passive strategy the CA selected is the first, in
    registration order, of the available allowed CAs of smallest priority
    number: every such CA before it has a larger number and none has a
    smaller one. *)
Theorem active_passive_prefers p allowed c :
  strategy (pool_config p) = ActivePassive ->
  (select_allowed p allowed).2 = Some c ->
  exists l1 l2, candidate_conns p allowed = l1 ++ c :: l2 /\
    (forall d, d ∈ l1 -> priority c < priority d) /\
    (forall d, d ∈ l2 -> priority c <= priority d).
Proof.
  intros Hst. rewrite select_allowed_unfold, Hst. cbv zeta. cbn [snd].
  rewrite <- snapshot_fst. destruct (snapshot p allowed) as [|a l]; [done|].
  cbn [select snd]. unfold select_active_passive.
  destruct (min_by_key _ _) as [x|] eqn:E; [|done]. intros [= <-].
  pose proof (min_by_key_first _ _ _ E) as (l1 & l2 & Heq & Hl1).
  apply min_by_key_Some in E as [_ Hmin]. rewrite Heq in *. exists (map fst l1), (map fst l2).
  split_and!.
  - by rewrite map_app.
  - intros d (y & -> & Hy)%list_elem_of_fmap. by apply Hl1.
  - intros d (y & -> & Hy)%list_elem_of_fmap. apply Hmin.
    apply elem_of_app. right. by right.
Qed.

(** [n] selections in a row, the health of the CAs not changing. *)
Fixpoint selections (n : nat) (p : CaPool) (allowed : list string) : list (option CaConnection) :=
  match n with
  | O => []
  | S n => let (p', c) := select_allowed p allowed in c :: selections n p' allowed
  end.

(** A strategy that reads the counter and steps it lists consecutive values. *)
Lemma selections_window f n p allowed :
  0 <= rr_counter p -> rr_counter p + Z.of_nat n <= 2 ^ 64 ->
  (forall rr, rr_counter p <= rr < rr_counter p + Z.of_nat n ->
     select (strategy (pool_config p)) rr (snapshot p allowed) = (bump rr, f rr)) ->
  selections n p allowed = window f (rr_counter p) n.
Proof.
  revert p. induction n as [|n IH]; intros p H0 H64 Hsel; [done|].
  cbn [selections]. rewrite select_allowed_unfold. cbv zeta.
  rewrite Hsel by lia. cbn [fst snd].
  change (S n) with (1 + n)%nat. rewrite window_app. cbn [window seq map app].
  rewrite Z.add_0_r. f_equal. destruct n as [|n]; [done|].
  assert (Hb : bump (rr_counter p) = rr_counter p + Z.of_nat 1)
    by (unfold bump, as_u64; rewrite Z.mod_small; lia).
  rewrite IH; cbn [rr_counter set_rr]; rewrite Hb; [done|lia..|].
  intros rr Hrr. apply Hsel. lia.
Qed.

Lemma window_lookup {A} (l : list A) :
  window (fun z => l !! Z.to_nat (z mod Z.of_nat (length l))) 0 (length l) = map Some l.
Proof.
  apply list_eq. intros i. unfold window. rewrite !list_lookup_fmap.
  destruct (decide (i < length l)%nat) as [Hi|Hi].
  - rewrite lookup_seq_lt by done. cbn [option_map fmap option_fmap plus].
    replace (Z.to_nat ((0 + Z.of_nat i) mod Z.of_nat (length l))) with i
      by (rewrite Z.mod_small; lia).
    by destruct (lookup_lt_is_Some_2 l i Hi) as [x ->].
  - rewrite lookup_seq_ge, lookup_ge_None_2 by lia. done.
Qed.

(** Round robin is fair: while the health of the CAs does not change, any
    [length] consecutive selections (short of the 64-bit counter wrapping)
    return every available allowed CA exactly once. *)
Theorem round_robin_fair p allowed :
  strategy (pool_config p) = RoundRobin -> 0 <= rr_counter p ->
  let cands := candidate_conns p allowed in
  rr_counter p + Z.of_nat (length cands) <= 2 ^ 64 ->
  selections (length cands) p allowed ≡ₚ map Some cands.
Proof.
  intros Hst H0 cands H64. subst cands. set (l := candidate_conns p allowed) in *.
  set (f := fun z => l !! Z.to_nat (z mod Z.of_nat (length l))).
  rewrite (selections_window f) by
    (done || (intros rr Hrr; rewrite Hst; pose proof (snapshot_length p allowed) as Hl;
      fold l in Hl; destruct (snapshot p allowed) eqn:E; [cbn in Hl; lia|];
      cbn [select]; rewrite <- E; unfold select_round_robin; rewrite snapshot_lookup;
      rewrite snapshot_length; done)).
  rewrite window_rotate; [unfold f; by rewrite window_lookup|done|].
  intros z Hz. unfold f. do 2 f_equal.
  destruct (length l) as [|n] eqn:El; [by rewrite Z.add_0_r|].
  rewrite <- (Z.mul_1_l (Z.of_nat (S n))) at 1. by rewrite Z.mod_add by lia.
Qed.

(** *** Weights *)

Definition weights (l : list candidate) : Z := foldr (fun c a => weight c.1 + a) 0 l.

(** Each CA as often as it weighs. *)
Definition weighted_list (l : list CaConnection) : list (option CaConnection) :=
  concat (map (fun c => replicate (Z.to_nat (weight c)) (Some c)) l).

Lemma weights_nonneg l : Forall (fun c : candidate => u32 (weight c.1)) l -> 0 <= weights l.
Proof. induction 1 as [|c l Hc _ IH]; [done|]. cbn. fold (weights l). unfold u32 in Hc. lia. Qed.

Lemma total_weight_sum l : Forall (fun c : candidate => u32 (weight c.1)) l ->
  weights l < 2 ^ 32 -> total_weight l = weights l.
Proof.
  intros Hl Hsum. unfold total_weight.
  enough (H : forall a, 0 <= a -> a + weights l < 2 ^ 32 ->
    fold_left (fun a (c : candidate) => as_u32 (a + weight c.1)) l a = a + weights l)
    by (rewrite H; lia).
  clear Hsum. induction Hl as [|c l Hc Hl IH]; intros a Ha Hsum; [cbn; lia|].
  cbn [weights foldr fold_left] in Hsum |- *. pose proof (weights_nonneg _ Hl). unfold u32, as_u32 in *. fold (weights l) in *.
  rewrite Z.mod_small by lia. rewrite IH by lia. lia.
Qed.

Lemma pick_weighted_window l cum : Forall (fun c : candidate => u32 (weight c.1)) l ->
  0 <= cum -> cum + weights l < 2 ^ 32 ->
  window (fun i => pick_weighted i cum l) cum (Z.to_nat (weights l)) = weighted_list (map fst l).
Proof.
  intros Hl. revert cum. induction Hl as [|c l Hc Hl IH]; intros cum H0 Hsum; [done|].
  cbn [weights foldr] in Hsum |- *. fold (weights l) in Hsum |- *.
  pose proof (weights_nonneg _ Hl). unfold u32 in Hc.
  assert (Hcum : as_u32 (cum + weight c.1) = cum + weight c.1)
    by (unfold as_u32; rewrite Z.mod_small; lia).
  rewrite Z2Nat.inj_add by lia. rewrite window_app. unfold weighted_list. cbn [map concat]. f_equal.
  - apply list_eq. intros i. unfold window. rewrite list_lookup_fmap.
    destruct (decide (i < Z.to_nat (weight c.1))%nat).
    + rewrite lookup_seq_lt, lookup_replicate_2 by done. cbn [option_map pick_weighted fmap option_fmap].
      cbn [plus]. rewrite Hcum. destruct (Z.ltb_spec (cum + Z.of_nat i) (cum + weight c.1)); [done|lia].
    + rewrite lookup_seq_ge, lookup_ge_None_2 by (rewrite ?length_replicate; lia). done.
  - fold (weighted_list (map fst l)). rewrite <- (IH (cum + weight c.1)) by lia.
    rewrite Z2Nat.id by lia. apply window_ext. intros i Hi. cbn [pick_weighted]. rewrite Hcum.
    by destruct (Z.ltb_spec (cum + weight c.1 + Z.of_nat i) (cum + weight c.1)); [lia|].
Qed.

Lemma pick_weighted_some l tick cum : Forall (fun c : candidate => u32 (weight c.1)) l ->
  0 <= cum -> cum + weights l < 2 ^ 32 -> tick < cum + weights l ->
  l = [] \/ is_Some (pick_weighted tick cum l).
Proof.
  intros Hl. revert cum. induction Hl as [|c l Hc Hl IH]; intros cum H0 Hsum Ht; [by left|].
  right. cbn [weights foldr] in Hsum, Ht. fold (weights l) in Hsum, Ht.
  pose proof (weights_nonneg _ Hl). unfold u32 in Hc. cbn [pick_weighted].
  unfold as_u32. rewrite Z.mod_small by lia.
  destruct (Z.ltb_spec tick (cum + weight c.1)); [by eexists|].
  destruct (IH (cum + weight c.1)) as [->|?]; [lia..| |done]. cbn in Ht. lia.
Qed.

Lemma Forall_snapshot (P : CaConnection -> Prop) p allowed :
  Forall P (connections p) -> Forall (fun c : candidate => P c.1) (snapshot p allowed).
Proof.
  intros Hall. apply Forall_forall. intros c Hc.
  assert (Hin : c.1 ∈ candidate_conns p allowed)
    by (rewrite <- snapshot_fst; by apply list_elem_of_fmap_2).
  apply elem_of_filter_bool in Hin as [Hin _].
  by apply (proj1 (Forall_forall _ _) Hall).
Qed.

(** The weighted strategy is exactly proportional: with [u32] weights
    whose sum does not overflow and is not zero, as many consecutive
    selections as the available allowed CAs weigh together return each of
    them exactly as often as its weight (short of the 32-bit truncation of
    the counter wrapping among them). *)
Theorem weighted_proportional p allowed :
  strategy (pool_config p) = Weighted -> 0 <= rr_counter p ->
  Forall (fun c => u32 (weight c)) (connections p) ->
  let total := weights (snapshot p allowed) in
  0 < total < 2 ^ 32 ->
  rr_counter p + total <= 2 ^ 64 -> as_u32 (rr_counter p) + total <= 2 ^ 32 ->
  selections (Z.to_nat total) p allowed ≡ₚ weighted_list (candidate_conns p allowed).
Proof.
  intros Hst H0 Hw total Ht H64 H32. set (l := snapshot p allowed) in *.
  assert (Htot : weights l = total) by done. clearbody total.
  apply Forall_snapshot with (allowed := allowed) in Hw. fold l in Hw.
  set (base := rr_counter p - as_u32 (rr_counter p)).
  set (f := fun z => pick_weighted (z mod total) 0 l).
  assert (Hr : u32 (as_u32 (rr_counter p))) by auto with kipuka. unfold u32 in Hr.
  rewrite (selections_window (fun rr => f (rr - base))).
  - transitivity (window f (as_u32 (rr_counter p)) (Z.to_nat total)).
    { apply reflexive_eq, window_ext. intros i _. f_equal. unfold base. lia. }
    rewrite window_rotate; [|lia|].
    + rewrite <- snapshot_fst. fold l. rewrite <- (pick_weighted_window l 0) by (done || lia). rewrite Htot.
      apply reflexive_eq, window_ext. intros i Hi. unfold f. f_equal. apply Z.mod_small. lia.
    + intros z Hz. unfold f. f_equal. rewrite Z2Nat.id by lia.
      rewrite <- (Z.mul_1_l total) at 1. by rewrite Z.mod_add by lia.
  - done.
  - lia.
  - intros rr Hrr. rewrite Hst. fold l.
    assert (Hne : l <> []) by (intros E; rewrite E in Htot; cbn in Htot; lia).
    replace (select Weighted rr l) with (select_weighted rr l) by (by destruct l).
    unfold select_weighted. rewrite total_weight_sum, Htot by (done || lia).
    destruct (Z.eqb_spec total 0); [lia|].
    assert (Has : as_u32 rr = rr - base).
    { unfold base, as_u32 in *. symmetry. apply Z.mod_unique_pos with (rr_counter p / 2 ^ 32);
        pose proof (Z.div_mod (rr_counter p) (2 ^ 32)); lia. }
    rewrite Has. fold (f (rr - base)).
    destruct (pick_weighted_some l ((rr - base) mod total) 0) as [?|[c Hc]]; [done|lia|lia| |done|].
    { rewrite Htot. pose proof (Z.mod_pos_bound (rr - base) total). lia. }
    unfold f. by rewrite Hc.
Qed.

(** ** The circuit breaker *)

(** The operations on a pool; the health checker's two outcomes come with
    its configuration and its metrics for the CA. *)
Inductive pool_op : Type :=
  | OpSelect (allowed : list string)
  | OpSuccess (id : string) (latency now : Z)
  | OpFailure (id : string) (now : Z)
  | OpProbeSuccess (hc : HealthConfig) (id : string) (latency now : Z) (m : ProbeMetrics)
  | OpProbeFailure (id : string) (now : Z) (m : ProbeMetrics)
  | OpEnqueue (csr : bytes) (now : Z)
  | OpDrain (now : Z).

Definition pool_step (p : CaPool) (op : pool_op) : CaPool :=
  match op with
  | OpSelect allowed => (select_allowed p allowed).1
  | OpSuccess id latency now => record_success p id latency now
  | OpFailure id now => record_failure p id now
  | OpProbeSuccess hc id latency now m => (handle_probe_success hc p id latency now m).1
  | OpProbeFailure id now m => (handle_probe_failure p id now m).1
  | OpEnqueue csr now => (enqueue_request p csr now).1
  | OpDrain now => (drain_queue p now).1
  end.

(** The times of the failures of [id] since its last success. *)
Definition trail_step (id : string) (tr : list Z) (op : pool_op) : list Z :=
  match op with
  | OpSuccess i _ _ | OpProbeSuccess _ i _ _ _ => if decide (i = id) then [] else tr
  | OpFailure i now | OpProbeFailure i now _ => if decide (i = id) then tr ++ [now] else tr
  | _ => tr
  end.
Definition trail (id : string) (ops : list pool_op) : list Z := run_steps (trail_step id) [] ops.

(** The specification: the breaker's state as a function of that trail. *)
Definition breaker_health (thr : Z) (tr : list Z) : HealthState :=
  match tr with
  | [] => Healthy
  | _ => if thr <=? Z.of_nat (length tr) then Unavailable else Degraded
  end.

Definition breaker_open (thr : Z) (tr : list Z) : option Z :=
  match breaker_health thr tr with
  | Unavailable => tr !! Z.to_nat (Z.max thr 1 - 1)
  | _ => None
  end.

Definition breaker_ok (thr : Z) (tr : list Z) (s : CaStatus) : Prop :=
  consecutive_failures s = Z.of_nat (length tr) /\
  health s = breaker_health thr tr /\
  circuit_open_since s = breaker_open thr tr.

Lemma breaker_ok_new thr : breaker_ok thr [] status_new.
Proof. done. Qed.

Lemma breaker_unavailable thr tr : 0 <= thr ->
  breaker_health thr tr = Unavailable <-> Z.max thr 1 <= Z.of_nat (length tr).
Proof.
  intros H0. destruct tr as [|t tr]; [cbn; split; [done|lia]|]. unfold breaker_health.
  destruct (Z.leb_spec thr (Z.of_nat (length (t :: tr)))); split; try done; cbn in *; lia.
Qed.

Lemma failed_status_ok thr now tr s : 0 <= thr -> breaker_ok thr tr s ->
  Z.of_nat (length tr) + 1 < 2 ^ 32 -> breaker_ok thr (tr ++ [now]) (failed_status thr now s).
Proof.
  intros Hthr (Hf & Hh & Ho) Hlen.
  pose proof (breaker_unavailable thr tr Hthr) as Hu. rewrite <- Hh in Hu.
  assert (Hl : Z.of_nat (length (tr ++ [now])) = Z.of_nat (length tr) + 1)
    by (rewrite length_app; cbn; lia).
  assert (Hne : breaker_health thr (tr ++ [now]) =
    if thr <=? Z.of_nat (length tr) + 1 then Unavailable else Degraded)
    by (rewrite <- Hl; by destruct tr).
  unfold failed_status. rewrite Hf.
  replace (as_u32 (Z.of_nat (length tr) + 1)) with (Z.of_nat (length tr) + 1)
    by (unfold as_u32; rewrite Z.mod_small; lia).
  unfold breaker_ok, breaker_open. rewrite Hne, Hl.
  destruct (Z.leb_spec thr (Z.of_nat (length tr) + 1)) as [Hle|Hgt].
  - destruct (decide (health s = Unavailable)) as [E|E].
    + rewrite bool_decide_true by done. cbn. split_and!; [done|done|].
      rewrite Ho. unfold breaker_open. rewrite <- Hh, E.
      rewrite lookup_app_l; [done|]. apply Hu in E. lia.
    + rewrite bool_decide_false by done. cbn. split_and!; [done|done|].
      assert (~ Z.max thr 1 <= Z.of_nat (length tr)) by tauto.
      replace (Z.to_nat (Z.max thr 1 - 1)) with (length tr) by lia.
      by rewrite lookup_app_r, Nat.sub_diag by lia.
  - assert (Hh' : health s = Healthy \/ health s = Degraded).
    { rewrite Hh. unfold breaker_health. destruct tr as [|t tr]; [by left|].
      destruct (Z.leb_spec thr (Z.of_nat (length (t :: tr)))); [lia|by right]. }
    assert (Hopen : circuit_open_since s = None)
      by (rewrite Ho; unfold breaker_open; rewrite <- Hh; by destruct Hh' as [-> | ->]).
    destruct Hh' as [E|E]; rewrite E; by cbn.
Qed.

(** Every operation leaves the configuration, the connections and which CAs
    have a status. *)
Lemma pool_step_frame p op :
  pool_config (pool_step p op) = pool_config p /\
  connections (pool_step p op) = connections p /\
  dom (statuses (pool_step p op)) = dom (statuses p).
Proof.
  assert (Hins : forall (m : gmap string CaStatus) i s s', m !! i = Some s ->
    dom (<[i := s']> m) = dom m).
  { intros m i s s' Hm. apply dom_insert_lookup_L. by eexists. }
  assert (Hset : forall p id h, pool_config (set_health p id h) = pool_config p /\
    connections (set_health p id h) = connections p /\
    dom (statuses (set_health p id h)) = dom (statuses p)).
  { intros q id h. unfold set_health. destruct (statuses q !! id) eqn:E; cbn; naive_solver. }
  assert (Hsucc : forall p id l now, pool_config (record_success p id l now) = pool_config p /\
    connections (record_success p id l now) = connections p /\
    dom (statuses (record_success p id l now)) = dom (statuses p)).
  { intros q id l now. unfold record_success. destruct (statuses q !! id) eqn:E; cbn; naive_solver. }
  assert (Hfail : forall p id now, pool_config (record_failure p id now) = pool_config p /\
    connections (record_failure p id now) = connections p /\
    dom (statuses (record_failure p id now)) = dom (statuses p)).
  { intros q id now. unfold record_failure. destruct (statuses q !! id) eqn:E; cbn; naive_solver. }
  destruct op; cbn [pool_step]; auto.
  - rewrite select_allowed_unfold. done.
  - unfold handle_probe_success. cbv zeta. destruct (match _ with Healthy => _ | _ => _ end) as [h n].
    cbn [fst]. destruct (Hset p id h) as (<- & <- & <-). apply Hsucc.
  - unfold handle_probe_failure. apply Hfail.
  - unfold enqueue_request. by repeat case_match.
Qed.

Lemma run_frame ops p :
  pool_config (run_steps pool_step p ops) = pool_config p /\
  connections (run_steps pool_step p ops) = connections p /\
  dom (statuses (run_steps pool_step p ops)) = dom (statuses p).
Proof.
  apply (run_steps_inv pool_step (fun q => pool_config q = pool_config p /\
    connections q = connections p /\ dom (statuses q) = dom (statuses p))); [|done].
  intros q op (<- & <- & <-). apply pool_step_frame.
Qed.

(** The entry of [id] after each state change. *)
Lemma record_success_at p i id l now s : statuses p !! id = Some s ->
  exists s', statuses (record_success p i l now) !! id = Some s' /\
    if decide (i = id) then (forall thr, breaker_ok thr [] s') else s' = s.
Proof.
  intros Hs. unfold record_success. destruct (decide (i = id)) as [->|Hi].
  - rewrite Hs. cbn [set_statuses statuses]. rewrite lookup_insert_eq. by eexists.
  - exists s. split; [|done]. destruct (statuses p !! i); [|done].
    cbn [set_statuses statuses]. by rewrite lookup_insert_ne.
Qed.

Lemma set_health_at p i id h s : statuses p !! id = Some s ->
  exists s', statuses (set_health p i h) !! id = Some s' /\ (i <> id -> s' = s).
Proof.
  intros Hs. unfold set_health. destruct (decide (i = id)) as [->|Hi].
  - rewrite Hs. cbn [set_statuses statuses]. rewrite lookup_insert_eq. by eexists.
  - exists s. split; [|done]. destruct (statuses p !! i); [|done].
    cbn [set_statuses statuses]. by rewrite lookup_insert_ne.
Qed.

Lemma record_failure_at p i id now s : statuses p !! id = Some s ->
  statuses (record_failure p i now) !! id =
  Some (if decide (i = id) then failed_status (failure_threshold (pool_config p)) now s else s).
Proof.
  intros Hs. unfold record_failure. destruct (decide (i = id)) as [->|Hi].
  - rewrite Hs. cbn [set_statuses statuses]. by rewrite lookup_insert_eq.
  - destruct (statuses p !! i); [|done]. cbn [set_statuses statuses]. by rewrite lookup_insert_ne.
Qed.

Lemma handle_probe_success_at hc p i id l now m s : statuses p !! id = Some s ->
  exists s', statuses (handle_probe_success hc p i l now m).1 !! id = Some s' /\
    if decide (i = id) then (forall thr, breaker_ok thr [] s') else s' = s.
Proof.
  intros Hs. unfold handle_probe_success. cbv zeta.
  destruct (match _ with Healthy => _ | _ => _ end) as [h n]. cbn [fst].
  destruct (set_health_at p i id h s Hs) as (s1 & Hs1 & Hne).
  destruct (record_success_at _ i id l now _ Hs1) as (s2 & Hs2 & H2).
  exists s2. split; [done|]. destruct (decide (i = id)); [done|]. subst. auto.
Qed.

Lemma pool_step_breaker p op id s tr :
  let thr := failure_threshold (pool_config p) in
  0 <= thr -> statuses p !! id = Some s -> breaker_ok thr tr s ->
  Z.of_nat (length tr) + 1 < 2 ^ 32 ->
  exists s', statuses (pool_step p op) !! id = Some s' /\ breaker_ok thr (trail_step id tr op) s'.
Proof.
  intros thr Hthr Hs Hok Hlen.
  destruct op as [al|i l now|i now|hc i l now m|i now m|csr now|now]; cbn [pool_step trail_step].
  - rewrite select_allowed_unfold. by exists s.
  - destruct (record_success_at p i id l now s Hs) as (s' & Hs' & H). exists s'. split; [done|].
    destruct (decide (i = id)); [auto|by subst].
  - rewrite (record_failure_at _ _ _ _ _ Hs). eexists. split; [done|].
    destruct (decide (i = id)); [by apply failed_status_ok|done].
  - destruct (handle_probe_success_at hc p i id l now m s Hs) as (s' & Hs' & H).
    exists s'. split; [done|]. destruct (decide (i = id)); [auto|by subst].
  - unfold handle_probe_failure. cbn [fst].
    rewrite (record_failure_at _ _ _ _ _ Hs). eexists. split; [done|].
    destruct (decide (i = id)); [by apply failed_status_ok|done].
  - exists s. split; [|done]. unfold enqueue_request. by repeat case_match.
  - by exists s.
Qed.

Lemma trail_step_length id tr op : (length (trail_step id tr op) <= S (length tr))%nat.
Proof. destruct op; cbn; repeat case_match; rewrite ?length_app; cbn; lia. Qed.

Lemma run_breaker ops p id s tr :
  let thr := failure_threshold (pool_config p) in
  0 <= thr -> statuses p !! id = Some s -> breaker_ok thr tr s ->
  Z.of_nat (length tr + length ops) < 2 ^ 32 ->
  exists s', statuses (run_steps pool_step p ops) !! id = Some s' /\
    breaker_ok thr (run_steps (trail_step id) tr ops) s'.
Proof.
  intros thr. revert p s tr thr. induction ops as [|op ops IH]; intros p s tr thr Hthr Hs Hok Hlen.
  - by exists s.
  - cbn [length] in Hlen.
    destruct (pool_step_breaker p op id s tr Hthr Hs Hok) as (s1 & Hs1 & Hok1); [lia|].
    pose proof (trail_step_length id tr op).
    destruct (pool_step_frame p op) as (Hc & _). cbn [run_steps].
    destruct (IH (pool_step p op) s1 (trail_step id tr op)) as (s2 & Hs2 & Hok2);
      rewrite ?Hc; try done; [lia|]. rewrite Hc in Hok2. by exists s2.
Qed.

Lemma pool_new_lookup conns cfg id :
  statuses (pool_new conns cfg) !! id =
  if decide (id ∈ map ca_id conns) then Some status_new else None.
Proof.
  unfold pool_new. cbn [statuses].
  enough (H : forall m, fold_left (fun m c => <[ca_id c := status_new]> m) conns m !! id =
    if decide (id ∈ map ca_id conns) then Some status_new else m !! id)
    by (rewrite H; by case_match).
  induction conns as [|c conns IH]; intros m; [cbn; case_decide as E; [by apply elem_of_nil in E|done]|].
  cbn [fold_left map]. rewrite IH. repeat case_decide; try done.
  - by destruct H0; right.
  - destruct (decide (id = ca_id c)) as [->|Hne]; [by rewrite lookup_insert_eq|].
    apply elem_of_cons in H0. naive_solver.
  - rewrite lookup_insert_ne; [done|]. intros <-. destruct H0. by left.
Qed.

(** The circuit breaker refines its specification: after any sequence of
    operations on a new pool (fewer than 2^32), the breaker of every
    registered CA is a function of the times of its failures, request or
    probe, since its last success: the failure count is their number; the CA
    is healthy with none, degraded below the threshold, and unavailable from
    it on; and the circuit has been open since the failure that reached the
    threshold.  In particular one success always closes the circuit. *)
Theorem circuit_breaker_spec conns cfg ops id :
  0 <= failure_threshold cfg -> Z.of_nat (length ops) < 2 ^ 32 ->
  id ∈ map ca_id conns ->
  exists s, statuses (run_steps pool_step (pool_new conns cfg) ops) !! id = Some s /\
    let tr := trail id ops in
    consecutive_failures s = Z.of_nat (length tr) /\
    health s = breaker_health (failure_threshold cfg) tr /\
    circuit_open_since s = breaker_open (failure_threshold cfg) tr.
Proof.
  intros Hthr Hlen Hid.
  apply (run_breaker ops (pool_new conns cfg) id status_new []); [done| |apply breaker_ok_new|done].
  rewrite pool_new_lookup. by rewrite decide_True.
Qed.

(** ** The retry queue *)

Definition op_time (op : pool_op) : option Z :=
  match op with OpEnqueue _ now | OpDrain now => Some now | _ => None end.

(** The clock does not go back between the operations that read it for the
    queue. *)
Fixpoint clock_monotone (t : Z) (ops : list pool_op) : Prop :=
  match ops with
  | [] => True
  | op :: ops =>
      match op_time op with
      | Some now => t <= now /\ clock_monotone now ops
      | None => clock_monotone t ops
      end
  end.

(** The specification: the requests accepted since the last drain, expired
    or not, and what a drain at a given time is to return. *)
Definition accepted_step (p : CaPool) (acc : list QueuedRequest) (op : pool_op)
  : list QueuedRequest :=
  match op with
  | OpEnqueue csr now =>
      match (enqueue_request p csr now).2 with
      | Queued _ _ => acc ++ [MkQueued csr now]
      | QueueFull _ => acc
      end
  | OpDrain _ => []
  | _ => acc
  end.

Fixpoint accepted (p : CaPool) (acc : list QueuedRequest) (ops : list pool_op)
  : list QueuedRequest :=
  match ops with
  | [] => acc
  | op :: ops => accepted (pool_step p op) (accepted_step p acc op) ops
  end.

Lemma filter_sub {A} (f g : A -> bool) (l : list A) : (forall x, f x = true -> g x = true) ->
  List.filter f (List.filter g l) = List.filter f l.
Proof.
  intros Hfg. induction l as [|x l IH]; [done|]. cbn.
  destruct (g x) eqn:Eg; cbn; rewrite IH; [done|].
  destruct (f x) eqn:Ef; [|done]. rewrite Hfg in Eg by done. done.
Qed.

Lemma filter_length_le' {A} (f : A -> bool) (l : list A) :
  (length (List.filter f l) <= length l)%nat.
Proof. induction l as [|x l IH]; cbn; [done|]. case_match; cbn; lia. Qed.

Definition live (cfg : PoolConfig) (now : Z) (r : QueuedRequest) : bool :=
  elapsed now (queued_at r) <? queue_ttl cfg.

Lemma live_earlier cfg t now r : t <= now -> live cfg now r = true -> live cfg t r = true.
Proof. unfold live, elapsed. intros ? ?%Z.ltb_lt. apply Z.ltb_lt. lia. Qed.

(** At the time [t], the queue holds what is still live of the accepted. *)
Definition queue_ok (cfg : PoolConfig) (t : Z) (acc q : list QueuedRequest) : Prop :=
  (forall now, t <= now -> List.filter (live cfg now) q = List.filter (live cfg now) acc) /\
  Z.of_nat (length q) <= Z.max 0 (max_queue_size cfg) /\
  Forall (fun r => Z.of_nat (length (csr_der r)) <= max_csr_size cfg) q.

Lemma queue_ok_later cfg t t' acc q : t <= t' -> queue_ok cfg t acc q -> queue_ok cfg t' acc q.
Proof. intros Ht (H1 & H2 & H3). split_and!; [|done|done]. intros now Hn. apply H1. lia. Qed.

(** What [enqueue_request] answers, in terms of the accepted requests. *)
Lemma enqueue_request_spec cfg t acc p csr now :
  pool_config p = cfg -> queue_ok cfg t acc (retry_queue p) -> t <= now ->
  let waiting := List.filter (live cfg now) acc in
  let refuse := (max_csr_size cfg <? Z.of_nat (length csr)) ||
                (max_queue_size cfg <=? Z.of_nat (length waiting)) in
  (enqueue_request p csr now).2 =
    (if refuse then QueueFull (max_queue_size cfg)
     else Queued 30 (Z.of_nat (length waiting) + 1)) /\
  queue_ok cfg now (if refuse then acc else acc ++ [MkQueued csr now])
    (retry_queue (enqueue_request p csr now).1).
Proof.
  intros Hc Hq Ht waiting. apply (queue_ok_later _ _ _ _ _ Ht) in Hq as (Hl & Hb & Hf).
  pose proof (Hl now ltac:(lia)) as Hw. fold waiting in Hw.
  unfold enqueue_request. rewrite Hc. destruct (Z.ltb_spec (max_csr_size cfg) (Z.of_nat (length csr)))
    as [Hbig|Hbig]; cbn [orb]; [by split|].
  change (live_request p now) with (fun r => live (pool_config p) now r). rewrite Hc.
  change (fun r => live cfg now r) with (live cfg now). rewrite Hw.
  assert (Hlive : forall n, now <= n ->
    List.filter (live cfg n) waiting = List.filter (live cfg n) acc).
  { intros n Hn. apply filter_sub. intros r. by apply live_earlier. }
  assert (Hf' : Forall (fun r => Z.of_nat (length (csr_der r)) <= max_csr_size cfg) waiting).
  { rewrite <- Hw. apply Forall_forall. intros r [Hr _]%elem_of_filter_bool.
    by apply (proj1 (Forall_forall _ _) Hf). }
  assert (Hb' : Z.of_nat (length waiting) <= Z.max 0 (max_queue_size cfg)).
  { rewrite <- Hw. pose proof (filter_length_le' (live cfg now) (retry_queue p)). lia. }
  destruct (Z.leb_spec (max_queue_size cfg) (Z.of_nat (length waiting))) as [Hfull|Hroom];
    cbn [fst snd set_queue retry_queue].
  - by split.
  - split; [f_equal; rewrite length_app; cbn; lia|]. split_and!.
    + intros n Hn. by rewrite !List.filter_app, Hlive.
    + rewrite length_app. cbn. lia.
    + apply Forall_app. split; [done|]. by repeat constructor.
Qed.

Lemma accepted_queue_ok cfg ops p t acc :
  pool_config p = cfg -> queue_ok cfg t acc (retry_queue p) -> clock_monotone t ops ->
  exists t', queue_ok cfg t' (accepted p acc ops) (retry_queue (run_steps pool_step p ops)) /\
    forall now, clock_monotone t (ops ++ [OpDrain now]) -> t' <= now.
Proof.
  revert p t acc. induction ops as [|op ops IH]; intros p t acc Hc Hq Hm.
  - exists t. split; [done|]. cbn. naive_solver.
  - cbn [run_steps accepted app clock_monotone] in *.
    destruct (pool_step_frame p op) as (Hc' & _). rewrite Hc in Hc'.
    assert (Hsame : op_time op = None -> retry_queue (pool_step p op) = retry_queue p /\
      accepted_step p acc op = acc).
    { destruct op as [al|i l n|i n|hc i l n m|i n m|csr n|n]; try done; intros _; (split; [|done]);
        cbn [pool_step].
      - by rewrite select_allowed_unfold.
      - unfold record_success. by destruct (statuses p !! i).
      - unfold record_failure. by destruct (statuses p !! i).
      - unfold handle_probe_success, record_success, set_health. cbv zeta.
        by destruct (match _ with Healthy => _ | _ => _ end); repeat case_match.
      - unfold handle_probe_failure, record_failure. cbn [fst]. by destruct (statuses p !! i). }
    destruct (op_time op) as [n|] eqn:Et.
    + destruct Hm as [Htn Hm].
      assert (Hq' : queue_ok cfg n (accepted_step p acc op) (retry_queue (pool_step p op))).
      { destruct op as [al|i l n'|i n'|hc i l n' m|i n' m|csr n'|n']; try done;
          injection Et as ->; cbn [pool_step accepted_step].
        - destruct (enqueue_request_spec cfg t acc p csr n Hc Hq Htn) as [-> Hok].
          by case_match.
        - split_and!; [done|cbn; lia|constructor]. }
      destruct (IH _ n _ Hc' Hq' Hm) as (t' & ? & ?). exists t'. split; [done|]. naive_solver.
    + destruct (Hsame eq_refl) as [Hr Ha]. rewrite <- Hr, <- Ha in Hq. by apply (IH _ t).
Qed.

(** The retry queue: after any operations on a new pool with a clock
    that does not go back, the queue is within its capacity and its requests
    within the size limit; a new request is refused exactly when it is too
    large or as many accepted requests as the capacity are still waiting
    unexpired, and otherwise reports its depth; and a drain returns, in
    order of arrival, exactly the accepted requests that have not expired,
    and empties the queue. *)
Theorem retry_queue_spec conns cfg t ops now csr :
  clock_monotone t (ops ++ [OpDrain now]) ->
  let p := run_steps pool_step (pool_new conns cfg) ops in
  let waiting := List.filter (live cfg now) (accepted (pool_new conns cfg) [] ops) in
  Z.of_nat (length (retry_queue p)) <= Z.max 0 (max_queue_size cfg) /\
  Forall (fun r => Z.of_nat (length (csr_der r)) <= max_csr_size cfg) (retry_queue p) /\
  (enqueue_request p csr now).2 =
    (if (max_csr_size cfg <? Z.of_nat (length csr)) ||
        (max_queue_size cfg <=? Z.of_nat (length waiting))
     then QueueFull (max_queue_size cfg) else Queued 30 (Z.of_nat (length waiting) + 1)) /\
  drain_queue p now = (set_queue p [], waiting).
Proof.
  intros Hm p waiting.
  assert (Hm' : clock_monotone t ops).
  { clear p waiting. revert t Hm. induction ops as [|op ops IH]; [done|]. cbn. intros t.
    destruct (op_time op); naive_solver. }
  destruct (accepted_queue_ok cfg ops (pool_new conns cfg) t []) as (t' & Hq & Ht');
    [done|by split_and!; [|cbn; lia|]|done|]. fold p in Hq. specialize (Ht' now Hm).
  assert (Hc : pool_config p = cfg) by apply run_frame.
  destruct (enqueue_request_spec cfg t' _ p csr now Hc Hq Ht') as [He _].
  destruct Hq as (Hl & Hb & Hf). split_and!; [done|done|done|].
  unfold drain_queue. f_equal. unfold waiting. rewrite <- (Hl now Ht').
  apply filter_ext. intros r. unfold live_request, live. by rewrite Hc.
Qed.

(** ** Probe rounds *)

Section Probes.
Context `{ProbeEnv}.

Lemma probe_ca_ext p q n id :
  connections p = connections q -> pool_config p = pool_config q ->
  statuses p !! id = statuses q !! id -> probe_ca p n id = probe_ca q n id.
Proof.
  intros Hn Hc Hs. unfold probe_ca, is_unavailable, should_reprobe. by rewrite Hs, Hc, Hn.
Qed.

Lemma probe_one_fst hc p ms n id : exists op,
  (probe_one hc p ms n id).1 = pool_step p op /\
  (op = OpProbeSuccess hc id (probe_elapsed n) (probe_now n + probe_elapsed n)
          (default (MkMetrics 0 0) (ms !! id)) /\ probe_ca p n id = Ok tt \/
   op = OpProbeFailure id (probe_now n + probe_elapsed n)
          (default (MkMetrics 0 0) (ms !! id)) /\ probe_ca p n id <> Ok tt).
Proof.
  unfold probe_one. cbv zeta. destruct (probe_ca p n id) as [[]|e|].
  - eexists (OpProbeSuccess _ _ _ _ _). split; [|by left].
    cbn [pool_step]. by destruct (handle_probe_success _ _ _ _ _ _).
  - eexists (OpProbeFailure _ _ _). split; [|by right].
    cbn [pool_step]. by destruct (handle_probe_failure _ _ _ _).
  - eexists (OpProbeFailure _ _ _). split; [|by right].
    cbn [pool_step]. by destruct (handle_probe_failure _ _ _ _).
Qed.

Lemma probe_one_other hc p ms n id i s : i <> id -> statuses p !! i = Some s ->
  statuses (probe_one hc p ms n id).1 !! i = Some s.
Proof.
  intros Hi Hs. destruct (probe_one_fst hc p ms n id) as (op & -> & [[-> _]|[-> _]]); cbn [pool_step].
  - destruct (handle_probe_success_at hc p id i (probe_elapsed n) (probe_now n + probe_elapsed n)
      (default (MkMetrics 0 0) (ms !! id)) s Hs) as (s' & -> & Hs').
    rewrite decide_False in Hs' by done. by subst.
  - unfold handle_probe_failure. cbn [fst]. rewrite (record_failure_at _ _ _ _ _ Hs).
    by rewrite decide_False.
Qed.

Lemma probe_all_other hc conns p ms n i s : i ∉ map ca_id conns -> statuses p !! i = Some s ->
  statuses (probe_all hc p ms n conns).1 !! i = Some s.
Proof.
  revert p ms n. induction conns as [|c conns IH]; intros p ms n Hi Hs; [done|].
  cbn [probe_all map] in *. apply not_elem_of_cons in Hi as [Hne Hi].
  pose proof (probe_one_other hc p ms n (ca_id c) i s Hne Hs) as Hs1.
  destruct (probe_one hc p ms n (ca_id c)) as [p1 ms1]. by apply IH.
Qed.

(** A probe's outcome, in the entry of the CA probed. *)
Definition probed (p : CaPool) (n : nat) (id : string) (s s' : CaStatus) : Prop :=
  match probe_ca p n id with
  | Ok _ => health s' = Healthy /\ consecutive_failures s' = 0 /\ circuit_open_since s' = None
  | _ => s' = failed_status (failure_threshold (pool_config p)) (probe_now n + probe_elapsed n) s
  end.

Lemma probe_one_at hc p ms n id s : statuses p !! id = Some s ->
  exists s', statuses (probe_one hc p ms n id).1 !! id = Some s' /\ probed p n id s s'.
Proof.
  intros Hs. unfold probed.
  destruct (probe_one_fst hc p ms n id) as (op & -> & [[-> E]|[-> E]]); cbn [pool_step].
  - rewrite E. destruct (handle_probe_success_at hc p id id (probe_elapsed n)
      (probe_now n + probe_elapsed n) (default (MkMetrics 0 0) (ms !! id)) s Hs) as (s' & -> & Hs').
    rewrite decide_True in Hs' by done. exists s'. split; [done|].
    destruct (Hs' 0) as (? & ? & ?). done.
  - unfold handle_probe_failure. cbn [fst]. rewrite (record_failure_at _ _ _ _ _ Hs).
    rewrite decide_True by done. eexists. split; [done|]. by destruct (probe_ca p n id) as [[]| |].
Qed.

Lemma probe_all_at hc conns p ms n i c s :
  NoDup (map ca_id conns) -> conns !! i = Some c -> statuses p !! ca_id c = Some s ->
  exists s', statuses (probe_all hc p ms n conns).1 !! ca_id c = Some s' /\
    probed p (n + i) (ca_id c) s s'.
Proof.
  revert p ms n i. induction conns as [|d conns IH]; intros p ms n i Hnd Hi Hs; [done|].
  cbn [map] in Hnd. apply NoDup_cons in Hnd as [Hd Hnd]. cbn [probe_all].
  pose proof (probe_one_fst hc p ms n (ca_id d)) as (op & Hop & _).
  pose proof (pool_step_frame p op) as (Hcfg & Hconns & _). rewrite <- Hop in Hcfg, Hconns.
  destruct i as [|i].
  - injection Hi as ->. destruct (probe_one_at hc p ms n (ca_id c) s Hs) as (s' & Hs' & Hp).
    destruct (probe_one hc p ms n (ca_id c)) as [p1 ms1]. exists s'.
    rewrite Nat.add_0_r. split; [|done]. by apply probe_all_other.
  - cbn in Hi. assert (Hne : ca_id c <> ca_id d).
    { intros E. apply Hd. rewrite <- E. apply list_elem_of_fmap_2. by eapply list_elem_of_lookup_2. }
    pose proof (probe_one_other hc p ms n (ca_id d) (ca_id c) s Hne Hs) as Hs1.
    destruct (probe_one hc p ms n (ca_id d)) as [p1 ms1]. cbn [fst] in *.
    destruct (IH p1 ms1 (S n) i Hnd Hi Hs1) as (s' & Hs' & Hp). exists s'. split; [done|].
    unfold probed in *. rewrite Hcfg in Hp.
    rewrite <- (probe_ca_ext p1 p (n + S i)) by congruence.
    by replace (n + S i)%nat with (S n + i)%nat by lia.
Qed.

(** A round of health probes: each registered CA (the ids being distinct)
    gets the outcome of its own probe; a success makes it healthy and closes
    its circuit, a failure counts as one more failure.  A CA whose circuit
    is open is not contacted before the cooldown has elapsed since it
    opened: whatever the network would answer, it stays unavailable and the
    opening time stands. *)
Theorem probe_round_spec hc p ms n i c s :
  NoDup (map ca_id (connections p)) -> connections p !! i = Some c ->
  statuses p !! ca_id c = Some s ->
  exists s', statuses (run_probes hc p ms n).1 !! ca_id c = Some s' /\
    probed p (n + i) (ca_id c) s s' /\
    (health s = Unavailable ->
     (forall opened, circuit_open_since s = Some opened ->
        elapsed (probe_now (n + i)) opened < cooldown (pool_config p)) ->
     probe_ca p (n + i) (ca_id c) = Err CooldownNotElapsed /\
     health s' = Unavailable /\ circuit_open_since s' = circuit_open_since s).
Proof.
  intros Hnd Hi Hs. destruct (probe_all_at hc _ p ms n i c s Hnd Hi Hs) as (s' & Hs' & Hp).
  exists s'. split; [done|]. split; [done|]. intros Hu Hcool.
  assert (E : probe_ca p (n + i) (ca_id c) = Err CooldownNotElapsed).
  { unfold probe_ca, is_unavailable, should_reprobe. rewrite Hs, bool_decide_true by done.
    destruct (circuit_open_since s) as [o|]; [|done]. specialize (Hcool o eq_refl).
    by destruct (Z.leb_spec (cooldown (pool_config p)) (elapsed (probe_now (n + i)) o)); [lia|]. }
  split; [done|]. unfold probed in Hp. rewrite E in Hp. subst s'. unfold failed_status.
  rewrite Hu. rewrite bool_decide_true by done. rewrite bool_decide_false by done. by destruct (_ <=? _).
Qed.
End Probes.

(** ** The theorems at concrete pools *)

Definition ca_a : CaConnection := MkCa "a" "https://a.example" 2 20.
Definition ca_b : CaConnection := MkCa "b" "https://b.example" 1 10.
Definition ca_c : CaConnection := MkCa "c" "https://c.example" 1 10.

Definition example_config (st : FailoverStrategy) : PoolConfig :=
  MkPoolConfig st QueueAndRetry 2 (60 * SECS) 1 (300 * SECS) 4.
Definition example_pool (st : FailoverStrategy) : CaPool :=
  pool_new [ca_a; ca_b; ca_c] (example_config st).
Definition example_ids : list string := ["a"; "b"; "c"].

Lemma active_passive_prefers_witness :
  exists l1 l2, candidate_conns (example_pool ActivePassive) example_ids = l1 ++ ca_b :: l2 /\
    (forall d, d ∈ l1 -> priority ca_b < priority d) /\
    (forall d, d ∈ l2 -> priority ca_b <= priority d).
Proof.
  apply (active_passive_prefers (example_pool ActivePassive) example_ids ca_b).
  - reflexivity.
  - vm_compute. reflexivity.
Defined.

Lemma round_robin_fair_witness :
  selections 3 (example_pool RoundRobin) example_ids ≡ₚ [Some ca_a; Some ca_b; Some ca_c].
Proof.
  apply (round_robin_fair (example_pool RoundRobin) example_ids).
  - reflexivity.
  - vm_compute. discriminate.
  - vm_compute. discriminate.
Defined.

Lemma weighted_proportional_witness :
  selections 4 (example_pool Weighted) example_ids
  ≡ₚ [Some ca_a; Some ca_a; Some ca_b; Some ca_c].
Proof.
  apply (weighted_proportional (example_pool Weighted) example_ids).
  - reflexivity.
  - vm_compute. discriminate.
  - repeat constructor; vm_compute; done.
  - vm_compute. done.
  - vm_compute. discriminate.
  - vm_compute. discriminate.
Defined.

(** Two failures trip "b"; a third does not renew the opening time. *)
Definition example_ops : list pool_op :=
  [OpFailure "b" 5; OpProbeFailure "b" 7 (MkMetrics 0 0); OpSelect example_ids; OpFailure "b" 9].

Lemma circuit_breaker_spec_witness :
  exists s, statuses (run_steps pool_step (example_pool RoundRobin) example_ops) !! "b" = Some s /\
    consecutive_failures s = 3 /\ health s = Unavailable /\ circuit_open_since s = Some 7.
Proof.
  destruct (circuit_breaker_spec [ca_a; ca_b; ca_c] (example_config RoundRobin) example_ops "b")
    as (s & Hs & Hf & Hh & Ho).
  - vm_compute. discriminate.
  - vm_compute. reflexivity.
  - apply elem_of_cons. right. by left.
  - exists s. split; [exact Hs|]. rewrite Hf, Hh, Ho.
    split; [vm_compute; reflexivity|]. split; vm_compute; reflexivity.
Defined.

Lemma retry_queue_spec_witness :
  let p := run_steps pool_step (example_pool RoundRobin) [OpEnqueue [1] 5; OpEnqueue [2] 6] in
  (enqueue_request p [3] 7).2 = QueueFull 1 /\
  drain_queue p 7 = (set_queue p [], [MkQueued [1] 5]).
Proof.
  unfold example_pool. cbv zeta.
  destruct (retry_queue_spec [ca_a; ca_b; ca_c] (example_config RoundRobin) 0
              [OpEnqueue [1] 5; OpEnqueue [2] 6] 7 [3]) as (_ & _ & He & Hd).
  - vm_compute. repeat split; discriminate.
  - split.
    + rewrite He. vm_compute. reflexivity.
    + rewrite Hd. apply f_equal2; vm_compute; reflexivity.
Defined.

#[local] Instance example_probes : ProbeEnv := {|
  probe_local _ _ := Err "no local CA";
  http_get _ _ := GetResponse 200 [];
  probe_now n := 10 + Z.of_nat n;
  probe_elapsed _ := 1
|}.

(** "b" tripped at 7: the round at 10 leaves it alone, "a" is well. *)
Lemma probe_round_spec_witness :
  let p := run_steps pool_step (example_pool RoundRobin) example_ops in
  exists s', statuses (run_probes (MkHealthConfig 2 2000) p ∅ 0).1 !! "b" = Some s' /\
    health s' = Unavailable /\ circuit_open_since s' = Some 7.
Proof.
  cbv zeta. set (p := run_steps pool_step (example_pool RoundRobin) example_ops).
  destruct (probe_round_spec (MkHealthConfig 2 2000) p ∅ 0 1 ca_b
    (MkStatus Unavailable 3 None (Some 7) f64_zero None)) as (s' & Hs' & _ & Hopen).
  - apply (bool_decide_unpack _). vm_compute. exact I.
  - vm_compute. reflexivity.
  - vm_compute. reflexivity.
  - exists s'. split; [exact Hs'|]. destruct Hopen as (_ & Hh & Ho).
    + reflexivity.
    + intros opened [= <-]. vm_compute. reflexivity.
    + split; [exact Hh|]. exact Ho.
Defined.
