(* ===== verification/CaBackend.v ===== *)
(** * Routing enrollments to CA backends

    [src/ca/pool.rs]: the retry loop over the pool, and one EST
    [simpleenroll] exchange with a remote CA. *)
From S2P Require Import Prelude Words Text HaPool.
Open Scope Z_scope.

Inductive CaBackendError : Type :=
  | NoHealthyBackend
  | Timeout (id : string) (elapsed_ms : Z)
  | RetriesExhausted (attempts : Z)
  | BackendError (id : string) (message : string).

Record CaBackendPoolConfig : Type := MkBackendConfig {
  request_timeout : Z;
  max_retries : Z               (* u32 *)
}.

(** What the HTTP client makes of one request. *)
Inductive HttpPost : Type :=
  | PostTimedOut                             (* the whole exchange, [request_timeout] *)
  | PostFailed (why : string)
  | PostResponse (status : Z) (text : string + string)   (* [response.text()] *)
      (body : bytes + string).                          (* [response.bytes()] *)

Record PostRequest : Type := MkPost {
  post_url : string;
  content_type : string;
  content_transfer_encoding : string;
  post_body : string
}.

(** The HTTP client, the base64 crate and the clock; the [n]th exchange. *)
Class BackendEnv := {
  http_post : nat -> PostRequest -> HttpPost;
  b64_encode : bytes -> string;
  b64_decode : bytes -> bytes + string;
  status_text : Z -> string;               (* [StatusCode]'s [Display] *)
  started : nat -> Z;
  took : nat -> Z
}.

Section Routing.
Context `{BackendEnv}.

Definition send_to_ca (cfg : CaBackendPoolConfig) (n : nat) (id endpoint : string)
  (csr : bytes) : outcome bytes CaBackendError :=
  let url := trim_end_char "/" endpoint +:+ "/.well-known/est/simpleenroll" in
  match http_post n (MkPost url "application/pkcs10" "base64" (b64_encode csr)) with
  | PostTimedOut => Err (Timeout id (as_u64 (request_timeout cfg / 1000000)))
  | PostFailed e =>
      Err (BackendError id ("HTTP request to " +:+ url +:+ " failed: " +:+ e))
  | PostResponse status text body =>
      if negb (is_success status) then
        let text := match text with inl t => t | inr _ => EmptyString end in
        Err (BackendError id ("EST enrollment failed: HTTP " +:+ status_text status
                              +:+ " from " +:+ url +:+ ": " +:+ text))
      else
        match body with
        | inl b =>
            match b64_decode b with
            | inl cert => Ok cert
            | inr e =>
                Err (BackendError id ("failed to decode base64 PKCS#7 response: " +:+ e))
            end
        | inr e => Err (BackendError id ("failed to read EST response body: " +:+ e))
        end
  end.

(** The [while] loop: [attempts] so far, the last error.  [None] is the loop
    not having ended within the fuel. *)
Fixpoint route_loop (fuel : nat) (cfg : CaBackendPoolConfig) (csr : bytes)
  (p : CaPool) (attempts : Z) (last_error : option CaBackendError)
  : option (CaPool * outcome bytes CaBackendError) :=
  if negb (attempts <=? max_retries cfg) then
    Some (p, Err (default (RetriesExhausted (as_u32 (max_retries cfg + 1))) last_error))
  else
    match fuel with
    | O => None
    | S fuel =>
        let (p, c) := pool_select p in
        match c with
        | None => Some (p, Err NoHealthyBackend)
        | Some ca =>
            let n := Z.to_nat attempts in
            match send_to_ca cfg n (ca_id ca) (endpoint ca) csr with
            | Ok cert =>
                Some (record_success p (ca_id ca) (took n) (started n + took n), Ok cert)
            | Err e =>
                route_loop fuel cfg csr (record_failure p (ca_id ca) (started n + took n))
                  (as_u32 (attempts + 1)) (Some e)
            | Panic => Some (p, Panic)
            end
        end
    end.

Definition route_enrollment (cfg : CaBackendPoolConfig) (csr : bytes) (p : CaPool)
  : option (CaPool * outcome bytes CaBackendError) :=
  route_loop (Z.to_nat (max_retries cfg + 1)) cfg csr p 0 None.

(** ** The loop terminates, and what it returns *)

Lemma send_to_ca_returns cfg n id url csr : returns (send_to_ca cfg n id url csr).
Proof. unfold send_to_ca, returns. by repeat case_match. Qed.

Lemma pool_select_sound p p' c : pool_select p = (p', Some c) ->
  p' = set_rr p (rr_counter p') /\ c ∈ connections p /\
  exists s, statuses p !! ca_id c = Some s /\ is_available (health s) = true.
Proof.
  unfold pool_select. rewrite select_allowed_unfold. intros [= <- Hc].
  pose proof (select_allowed_sound p (map ca_id (connections p)) c) as Hs.
  rewrite select_allowed_unfold in Hs. specialize (Hs Hc).
  apply elem_of_filter_bool in Hs as [Hin He]. apply eligible_spec in He as (_ & He).
  split_and!; [by destruct p|done|done].
Qed.

Lemma pool_select_none p p' : pool_select p = (p', None) ->
  p' = set_rr p (rr_counter p') /\
  forall c s, c ∈ connections p -> statuses p !! ca_id c = Some s -> is_available (health s) = false.
Proof.
  unfold pool_select. intros H1.
  pose proof (select_allowed_none p (map ca_id (connections p))) as Hn. rewrite H1 in Hn.
  rewrite select_allowed_unfold in H1. injection H1 as <- H1. split; [by destruct p|].
  intros c s Hc Hs. apply not_true_is_false. intros Ha.
  assert (Hin : c ∈ candidate_conns p (map ca_id (connections p))).
  { apply elem_of_filter_bool. split; [done|]. apply eligible_spec.
    split; [by apply list_elem_of_fmap_2|by exists s]. }
  rewrite (proj1 Hn eq_refl) in Hin. by apply elem_of_nil in Hin.
Qed.

(** What the caller of [route_enrollment] gets. *)
Definition route_result (cfg : CaBackendPoolConfig) (csr : bytes) (conns : list CaConnection)
  (p' : CaPool) (r : outcome bytes CaBackendError) : Prop :=
  match r with
  | Ok cert =>
      exists n c, Z.of_nat n <= max_retries cfg /\ c ∈ conns /\
        send_to_ca cfg n (ca_id c) (endpoint c) csr = Ok cert /\
        exists s, statuses p' !! ca_id c = Some s /\ health s = Healthy /\
          consecutive_failures s = 0 /\ circuit_open_since s = None
  | Err NoHealthyBackend =>
      forall c s, c ∈ conns -> statuses p' !! ca_id c = Some s -> is_available (health s) = false
  | Err e =>
      exists c, c ∈ conns /\
        send_to_ca cfg (Z.to_nat (max_retries cfg)) (ca_id c) (endpoint c) csr = Err e
  | Panic => False
  end.

Lemma send_to_ca_not_none cfg n id url csr :
  send_to_ca cfg n id url csr <> Err NoHealthyBackend.
Proof. unfold send_to_ca. by repeat case_match. Qed.

Lemma route_loop_result cfg csr fuel p attempts last :
  0 <= max_retries cfg -> max_retries cfg + 1 < 2 ^ 32 ->
  0 <= attempts <= max_retries cfg + 1 ->
  (attempts = max_retries cfg + 1 -> exists c e, last = Some e /\ c ∈ connections p /\
     send_to_ca cfg (Z.to_nat (max_retries cfg)) (ca_id c) (endpoint c) csr = Err e) ->
  (Z.to_nat (max_retries cfg + 1 - attempts) <= fuel)%nat ->
  exists p' r, route_loop fuel cfg csr p attempts last = Some (p', r) /\
    route_result cfg csr (connections p) p' r.
Proof.
  intros H0 H32. revert p attempts last. induction fuel as [|fuel IH]; intros p attempts last Ha Hl Hf;
    cbn [route_loop]; destruct (Z.leb_spec attempts (max_retries cfg)) as [Hle|Hgt];
    cbn [negb]; try lia.
  1, 3: destruct Hl as (c & e & -> & Hc & He); [lia|]; do 2 eexists; (split; [done|]);
    cbn [default route_result]; destruct e; try (by exists c); by apply send_to_ca_not_none in He.
  destruct (pool_select p) as [p1 [c|]] eqn:Es.
  - apply pool_select_sound in Es as (-> & Hc & s & Hs & _).
    pose proof (send_to_ca_returns cfg (Z.to_nat attempts) (ca_id c) (endpoint c) csr) as Hret.
    destruct (send_to_ca cfg (Z.to_nat attempts) (ca_id c) (endpoint c) csr) as [cert|e|] eqn:Eq;
      [| |done].
    + do 2 eexists. split; [done|]. exists (Z.to_nat attempts), c.
      split_and!; [lia|done|done|]. unfold record_success. cbn [statuses set_rr]. rewrite Hs.
      cbn [statuses set_statuses]. rewrite lookup_insert_eq. by eexists.
    + assert (Hat : as_u32 (attempts + 1) = attempts + 1)
        by (unfold as_u32; apply Z.mod_small; lia). rewrite Hat.
      assert (Hconns : connections (record_failure (set_rr p (rr_counter p1)) (ca_id c)
          (started (Z.to_nat attempts) + took (Z.to_nat attempts))) = connections p)
        by (unfold record_failure; cbn [set_rr statuses]; by case_match).
      rewrite <- Hconns. apply IH; [lia| |lia]. intros Heq. rewrite Hconns.
      exists c, e. split; [done|]. split; [done|].
      by replace (max_retries cfg) with attempts by lia.
  - apply pool_select_none in Es as (-> & Hn). do 2 eexists. split; [done|]. exact Hn.
Qed.

(** C19: Routing an enrollment always terminates, within [max_retries + 1]
    exchanges: a certificate is what some registered CA answered, and that
    CA is healthy afterwards with its circuit closed; "no healthy backend"
    means that no registered CA was available; any other error is the answer
    to the last attempt, and "retries exhausted" is never returned. *)
Theorem route_enrollment_total cfg csr p :
  0 <= max_retries cfg -> max_retries cfg + 1 < 2 ^ 32 ->
  exists p' r, route_enrollment cfg csr p = Some (p', r) /\
    route_result cfg csr (connections p) p' r /\
    forall n, r <> Err (RetriesExhausted n).
Proof.
  intros H0 H32.
  destruct (route_loop_result cfg csr (Z.to_nat (max_retries cfg + 1)) p 0 None)
    as (p' & r & Hr & Hres); [done|done|lia|lia|lia|].
  exists p', r. split; [exact Hr|]. split; [done|]. intros n ->. cbn in Hres.
  destruct Hres as (c & _ & He). revert He. unfold send_to_ca. by repeat case_match.
Qed.

(** ** Failover *)

(** How many more failures a CA can have before it is out of rotation. *)
Definition slack (thr : Z) (o : option CaStatus) : Z :=
  match o with
  | Some s => if is_available (health s) then Z.max thr 1 - consecutive_failures s else 0
  | None => 0
  end.

(** An available CA has failed less often than the threshold. *)
Definition slack_ok (thr : Z) (s : CaStatus) : Prop :=
  0 <= consecutive_failures s /\
  (is_available (health s) = true -> consecutive_failures s < Z.max thr 1).

Lemma breaker_ok_slack thr tr s : 0 <= thr -> breaker_ok thr tr s -> slack_ok thr s.
Proof.
  intros H0 (Hf & Hh & _). split; [lia|]. intros Ha.
  pose proof (breaker_unavailable thr tr H0) as Hu. rewrite <- Hh in Hu.
  assert (~ Z.max thr 1 <= Z.of_nat (length tr)) by (intros E; apply Hu in E; by rewrite E in Ha).
  lia.
Qed.

Lemma failed_status_slack thr now s : 0 <= thr < 2 ^ 32 - 1 -> slack_ok thr s ->
  is_available (health s) = true ->
  slack_ok thr (failed_status thr now s) /\
  0 <= slack thr (Some (failed_status thr now s)) < slack thr (Some s).
Proof.
  intros Hthr (H0 & Hlt) Ha. specialize (Hlt Ha). unfold slack. rewrite Ha.
  unfold failed_status, slack_ok. unfold as_u32. rewrite Z.mod_small by lia.
  destruct (Z.leb_spec thr (consecutive_failures s + 1)).
  - rewrite bool_decide_false by (intros E; by rewrite E in Ha). cbn. split; [split; [lia|done]|lia].
  - destruct (bool_decide (health s = Healthy)); cbn; rewrite ?Ha; split; try split; lia.
Qed.

(** The failures the CAs other than [g] have left. *)
Definition others (g : string) (conns : list CaConnection) : list CaConnection :=
  List.filter (fun c => negb (bool_decide (ca_id c = g))) conns.
Definition potential (g : string) (p : CaPool) (conns : list CaConnection) : Z :=
  foldr (fun c a => slack (failure_threshold (pool_config p)) (statuses p !! ca_id c) + a) 0
    (others g conns).

Definition pool_slack_ok (p : CaPool) : Prop :=
  forall id s, statuses p !! id = Some s -> slack_ok (failure_threshold (pool_config p)) s.

Lemma slack_nonneg thr o : (forall s, o = Some s -> slack_ok thr s) -> 0 <= slack thr o <= Z.max thr 1.
Proof.
  intros H0. destruct o as [s|]; cbn; [|lia]. destruct (H0 s eq_refl) as [? Ha].
  destruct (is_available (health s)); [specialize (Ha eq_refl)|]; lia.
Qed.

Lemma potential_bounds g p conns : pool_slack_ok p ->
  0 <= potential g p conns <=
    Z.max (failure_threshold (pool_config p)) 1 * Z.of_nat (length (others g conns)).
Proof.
  intros Hok. unfold potential. induction (others g conns) as [|c l IH]; cbn [foldr length]; [lia|].
  pose proof (slack_nonneg (failure_threshold (pool_config p)) (statuses p !! ca_id c)
    ltac:(intros s; apply Hok)). lia.
Qed.

Lemma record_failure_slack_ok p id now s : 0 <= failure_threshold (pool_config p) < 2 ^ 32 - 1 ->
  pool_slack_ok p -> statuses p !! id = Some s -> is_available (health s) = true ->
  pool_slack_ok (record_failure p id now).
Proof.
  intros Hthr Hok Hs Ha i s' Hi.
  destruct (pool_step_frame p (OpFailure id now)) as (Hc & _). cbn [pool_step] in Hc. rewrite Hc.
  destruct (statuses p !! i) as [s0|] eqn:E.
  - rewrite (record_failure_at _ _ _ _ _ E) in Hi. injection Hi as <-.
    destruct (decide (id = i)) as [->|]; [|by apply (Hok i)].
    rewrite Hs in E. injection E as <-. by apply failed_status_slack; [|apply (Hok i)|].
  - unfold record_failure in Hi. rewrite Hs in Hi. cbn [statuses set_statuses] in Hi.
    rewrite lookup_insert_ne in Hi by congruence. congruence.
Qed.

Lemma potential_decreases g p id now s conns :
  0 <= failure_threshold (pool_config p) < 2 ^ 32 - 1 ->
  pool_slack_ok p -> statuses p !! id = Some s -> is_available (health s) = true ->
  id <> g -> id ∈ map ca_id conns ->
  potential g (record_failure p id now) conns < potential g p conns.
Proof.
  intros Hthr Hok Hs Ha Hg Hin. unfold potential.
  destruct (pool_step_frame p (OpFailure id now)) as (Hc & _). cbn [pool_step] in Hc. rewrite Hc.
  set (thr := failure_threshold (pool_config p)) in *.
  assert (Hle : forall c, slack thr (statuses (record_failure p id now) !! ca_id c) <=
      slack thr (statuses p !! ca_id c) - (if decide (ca_id c = id) then 1 else 0)).
  { intros c. case_decide as E.
    - rewrite E, (record_failure_at _ _ _ _ _ Hs), decide_True, Hs by done.
      pose proof (failed_status_slack thr now s Hthr (Hok id s Hs) Ha). fold thr. lia.
    - unfold record_failure. rewrite Hs. cbn [statuses set_statuses].
      rewrite lookup_insert_ne by done. lia. }
  assert (Hid : id ∈ map ca_id (others g conns)).
  { apply list_elem_of_fmap in Hin as (c & -> & Hcin). apply list_elem_of_fmap_2.
    apply elem_of_filter_bool. split; [done|]. by rewrite bool_decide_false. }
  induction (others g conns) as [|c l IH]; [by apply elem_of_nil in Hid|].
  assert (Hsum : foldr (fun c a => slack thr (statuses (record_failure p id now) !! ca_id c) + a) 0 l
    <= foldr (fun c a => slack thr (statuses p !! ca_id c) + a) 0 l).
  { clear IH Hid. induction l as [|d l IH]; cbn [foldr]; [lia|]. specialize (Hle d).
    case_decide; lia. }
  cbn [foldr map] in *. specialize (Hle c). apply elem_of_cons in Hid as [Hid|Hid].
  - rewrite decide_True in Hle by done. lia.
  - specialize (IH Hid). case_decide; lia.
Qed.

(** A CA that accepts the request whenever it is sent. *)
Definition accepts (cfg : CaBackendPoolConfig) (csr : bytes) (conns : list CaConnection)
  (g : string) : Prop :=
  forall n c, c ∈ conns -> ca_id c = g ->
    exists cert, send_to_ca cfg n g (endpoint c) csr = Ok cert.

Lemma set_rr_potential g p rr conns : potential g (set_rr p rr) conns = potential g p conns.
Proof. done. Qed.

Lemma route_loop_failover cfg csr g fuel p attempts last :
  0 <= failure_threshold (pool_config p) < 2 ^ 32 - 1 -> max_retries cfg + 1 < 2 ^ 32 ->
  0 <= attempts -> pool_slack_ok p -> accepts cfg csr (connections p) g ->
  g ∈ map ca_id (connections p) ->
  (exists s, statuses p !! g = Some s /\ is_available (health s) = true) ->
  potential g p (connections p) <= max_retries cfg - attempts ->
  (Z.to_nat (max_retries cfg + 1 - attempts) <= fuel)%nat ->
  exists p' cert, route_loop fuel cfg csr p attempts last = Some (p', Ok cert).
Proof.
  intros Hthr H32. revert p Hthr attempts last.
  induction fuel as [|fuel IH]; intros p Hthr attempts last Ha Hok Hacc Hg (sg & Hsg & Hav) Hpot Hf;
    pose proof (potential_bounds g p (connections p) Hok); [lia|].
  cbn [route_loop]. destruct (Z.leb_spec attempts (max_retries cfg)); [cbn [negb]|lia].
  destruct (pool_select p) as [p1 [c|]] eqn:Es.
  - apply pool_select_sound in Es as (-> & Hc & s & Hs & Hsa).
    destruct (decide (ca_id c = g)) as [Hcg|Hcg].
    { destruct (Hacc (Z.to_nat attempts) c Hc Hcg) as [cert Hcert]. rewrite Hcg, Hcert. eauto. }
    pose proof (send_to_ca_returns cfg (Z.to_nat attempts) (ca_id c) (endpoint c) csr) as Hret.
    destruct (send_to_ca cfg (Z.to_nat attempts) (ca_id c) (endpoint c) csr) as [cert|e|]; [eauto| |done].
    set (now := started (Z.to_nat attempts) + took (Z.to_nat attempts)).
    set (q := set_rr p (rr_counter p1)).
    assert (Hat : as_u32 (attempts + 1) = attempts + 1)
      by (unfold as_u32; apply Z.mod_small; lia). rewrite Hat.
    destruct (pool_step_frame q (OpFailure (ca_id c) now)) as (Hqc & Hqn & _).
    cbn [pool_step] in Hqc, Hqn.
    assert (Hdec : potential g (record_failure q (ca_id c) now) (connections p)
      < potential g p (connections p)).
    { rewrite <- (set_rr_potential g p (rr_counter p1)). fold q.
      apply (potential_decreases g q _ _ s); try done. by apply list_elem_of_fmap_2. }
    apply IH; rewrite ?Hqc, ?Hqn; try done; try lia.
    + by apply (record_failure_slack_ok q _ _ s).
    + exists sg. rewrite (record_failure_at q _ _ _ sg) by done. by rewrite decide_False.
    + cbn [connections q set_rr]. lia.
  - apply pool_select_none in Es as (_ & Hn).
    apply list_elem_of_fmap in Hg as (c & -> & Hc). rewrite (Hn c sg) in Hav by done. done.
Qed.

(** Failover: whatever the strategy and whatever happened to the pool
    before, if one available CA accepts the request, and there are retries
    enough for every other CA to fail up to the threshold, then the
    enrollment succeeds. *)
Theorem route_enrollment_failover cfg csr conns pcfg ops g :
  let p := run_steps pool_step (pool_new conns pcfg) ops in
  0 <= failure_threshold pcfg < 2 ^ 32 - 1 -> Z.of_nat (length ops) < 2 ^ 32 ->
  max_retries cfg + 1 < 2 ^ 32 ->
  accepts cfg csr conns g ->
  (exists c, c ∈ conns /\ ca_id c = g) ->
  (exists s, statuses p !! g = Some s /\ is_available (health s) = true) ->
  Z.max (failure_threshold pcfg) 1 * Z.of_nat (length (others g conns)) <= max_retries cfg ->
  exists p' cert, route_enrollment cfg csr p = Some (p', Ok cert).
Proof.
  intros p Hthr Hops H32 Hacc (cg & Hcg & Hg) Hav Hretry.
  destruct (run_frame ops (pool_new conns pcfg)) as (Hc & Hn & Hd). fold p in Hc, Hn, Hd.
  cbn [pool_config connections pool_new] in Hc, Hn.
  assert (Hok : pool_slack_ok p).
  { intros id s Hs. rewrite Hc.
    assert (Hid : id ∈ dom (statuses (pool_new conns pcfg)))
      by (rewrite <- Hd; by apply elem_of_dom_2 in Hs).
    apply elem_of_dom in Hid as [s0 Hs0]. pose proof (pool_new_lookup conns pcfg id) as Hnew.
    rewrite Hs0 in Hnew. case_decide as Hin; [injection Hnew as ->|done].
    destruct (run_breaker ops (pool_new conns pcfg) id status_new [])
      as (s' & Hs' & Hb); [cbn; lia|done|apply breaker_ok_new|done|].
    fold p in Hs'. rewrite Hs in Hs'. injection Hs' as <-.
    eapply breaker_ok_slack; [|exact Hb]. cbn. lia. }
  pose proof (potential_bounds g p conns Hok) as Hb. rewrite Hc in Hb.
  apply (route_loop_failover cfg csr g); rewrite ?Hc, ?Hn; try done; try lia.
  rewrite <- Hg. by apply list_elem_of_fmap_2.
Qed.
End Routing.

(** ** The theorems at a concrete pool: "a" fails, "b" issues *)

#[local] Instance example_backend : BackendEnv := {|
  http_post _ r :=
    if bool_decide (post_url r = "https://b.example/.well-known/est/simpleenroll")
    then PostResponse 200 (inl "MA==") (inl [48]) else PostTimedOut;
  b64_encode _ := "MA==";
  b64_decode b := inl b;
  status_text _ := "200 OK";
  started n := Z.of_nat n * SECS;
  took _ := 1000000
|}.

Definition example_backends : list CaConnection :=
  [MkCa "a" "https://a.example/" 1 0; MkCa "b" "https://b.example/" 1 1].
Definition example_routing : CaBackendPoolConfig := MkBackendConfig (30 * SECS) 2.

Lemma route_enrollment_total_witness :
  exists p' r, route_enrollment example_routing [1] (pool_new example_backends (example_config ActivePassive))
      = Some (p', r) /\
    route_result example_routing [1] example_backends p' r /\
    forall n, r <> Err (RetriesExhausted n).
Proof.
  apply (route_enrollment_total example_routing [1]
    (pool_new example_backends (example_config ActivePassive))).
  - vm_compute. discriminate.
  - vm_compute. reflexivity.
Defined.

(** Threshold 2, one other CA, two retries: "a" fails twice, "b" is asked. *)
Lemma route_enrollment_failover_witness :
  exists p' cert, route_enrollment example_routing [1]
    (run_steps pool_step (pool_new example_backends (example_config ActivePassive)) [])
    = Some (p', Ok cert).
Proof.
  apply (route_enrollment_failover example_routing [1] example_backends
    (example_config ActivePassive) [] "b").
  - vm_compute. split; [discriminate|reflexivity].
  - vm_compute. reflexivity.
  - vm_compute. reflexivity.
  - intros n c Hc Hid. exists [48].
    apply elem_of_cons in Hc as [->|Hc]; [vm_compute in Hid; discriminate|].
    apply list_elem_of_singleton in Hc as ->. vm_compute. reflexivity.
  - exists (MkCa "b" "https://b.example/" 1 1). split; [|reflexivity].
    apply elem_of_cons. right. by apply list_elem_of_singleton.
  - exists status_new. split; vm_compute; reflexivity.
  - vm_compute. discriminate.
Defined.
