(* ===== verification/StarManager.v ===== *)
(** * STAR: short-term automatically renewed certificates

    [src/star/mod.rs] and [src/config/star.rs].  A [DateTime<Utc>] is nanoseconds since the epoch;
    every operation takes the clock reading it makes. *)
From S2P Require Import Prelude Words Text.
Open Scope Z_scope.

(** [DateTime::timestamp]: whole seconds. *)
Definition timestamp (t : Z) : Z := t / SECS.
Definition DAY : Z := 86400 * SECS.

(** ** Configuration *)

Record StarConfig : Type := MkStarConfig {
  star_enabled : bool;
  min_renewal_interval_secs : Z;        (* u64 *)
  max_renewal_interval_secs : Z;        (* u64 *)
  default_renewal_interval_secs : Z;    (* u64 *)
  max_lifetime_days : Z;                (* u32 *)
  max_active_orders : Z;                (* usize *)
  pre_renewal_factor : f64
}.

Definition star_default : StarConfig :=
  MkStarConfig false 3600 604800 86400 365 10000 f64_0_5.

(** What [validate] refuses; the numbers are those of its messages. *)
Inductive StarConfigError : Type :=
  | MinIntervalTooSmall (got : Z)
  | MaxIntervalTooLarge (got : Z)
  | IntervalBoundsCrossed (min max : Z)
  | DefaultIntervalOutOfBounds (default min max : Z)
  | MaxLifetimeTooSmall
  | MaxOrdersTooSmall
  | FactorOutOfRange (got : f64).

Definition star_validate (c : StarConfig) : outcome unit StarConfigError :=
  let min := min_renewal_interval_secs c in
  let max := max_renewal_interval_secs c in
  let def := default_renewal_interval_secs c in
  if min <? 3600 then Err (MinIntervalTooSmall min)
  else if 604800 <? max then Err (MaxIntervalTooLarge max)
  else if max <? min then Err (IntervalBoundsCrossed min max)
  else if (def <? min) || (max <? def) then Err (DefaultIntervalOutOfBounds def min max)
  else if max_lifetime_days c <? 1 then Err MaxLifetimeTooSmall
  else if max_active_orders c <? 1 then Err MaxOrdersTooSmall
  else if negb (f64_leb f64_0_1 (pre_renewal_factor c) && f64_leb (pre_renewal_factor c) f64_0_9)
  then Err (FactorOutOfRange (pre_renewal_factor c))
  else Ok tt.

(** ** Orders *)

Inductive StarError : Type :=
  | OrderNotFound (id : string)
  | OrderCancelled (id : string)
  | OrderExpired (id : string)
  | MaxRenewalsReached (id : string) (max : Z)
  | MaxOrdersReached (limit : Z)
  | InvalidInterval (requested min max : Z)
  | IssuanceError (why : string)
  | DatabaseError (why : string).

Record StarCertificate : Type := MkStarCert {
  certificate_der : bytes;
  serial_number : string;
  not_before : Z;
  not_after : Z;
  renewal_number : Z;                   (* u32 *)
  star_order_id : string
}.

Inductive StarOrderStatus : Type := Active | Cancelled | Completed | Expired.

#[export] Instance StarOrderStatus_eq_dec : EqDecision StarOrderStatus.
Proof. solve_decision. Defined.

Record StarOrder : Type := MkOrder {
  order_id : string;
  subject_dn : string;
  key_type : string;
  order_profile : string;
  renewal_interval : Z;                 (* nanoseconds *)
  lifetime_end : Z;
  max_renewals : Z;                     (* u32 *)
  current_renewals : Z;                 (* u32 *)
  status : StarOrderStatus;
  requestor_dn : option string;
  order_ca_id : string;
  order_csr_der : bytes;
  current_certificate : option StarCertificate;
  created_at : Z;
  cancelled_at : option Z
}.

Definition with_status (o : StarOrder) (s : StarOrderStatus) : StarOrder :=
  MkOrder (order_id o) (subject_dn o) (key_type o) (order_profile o) (renewal_interval o)
    (lifetime_end o) (max_renewals o) (current_renewals o) s (requestor_dn o) (order_ca_id o)
    (order_csr_der o) (current_certificate o) (created_at o) (cancelled_at o).
Definition with_cancelled_at (o : StarOrder) (t : Z) : StarOrder :=
  MkOrder (order_id o) (subject_dn o) (key_type o) (order_profile o) (renewal_interval o)
    (lifetime_end o) (max_renewals o) (current_renewals o) (status o) (requestor_dn o)
    (order_ca_id o) (order_csr_der o) (current_certificate o) (created_at o) (Some t).
Definition with_certificate (o : StarOrder) (c : StarCertificate) : StarOrder :=
  MkOrder (order_id o) (subject_dn o) (key_type o) (order_profile o) (renewal_interval o)
    (lifetime_end o) (max_renewals o) (as_u32 (current_renewals o + 1)) (status o)
    (requestor_dn o) (order_ca_id o) (order_csr_der o) (Some c) (created_at o) (cancelled_at o).

Record StarManager : Type := MkStar {
  orders : gmap string StarOrder;
  star_config : StarConfig
}.

Definition set_orders (m : StarManager) (os : gmap string StarOrder) : StarManager :=
  MkStar os (star_config m).

Definition star_new (c : StarConfig) : StarManager := MkStar ∅ c.

(** ** The operations *)

Definition active_order_count (m : StarManager) : Z :=
  Z.of_nat (size (map_retain (fun _ o => bool_decide (status o = Active)) (orders m))).

(** The informational estimate of the number of renewals. *)
Definition renewal_estimate (factor : f64) (interval total_lifetime_secs : Z) : Z :=
  let cadence := f64_floor_max_1
    (f64_mul (f64_of_Z interval) (f64_sub (f64_of_Z 1) factor)) in
  let div_ceil := total_lifetime_secs / cadence
    + (if total_lifetime_secs mod cadence =? 0 then 0 else 1) in
  Z.min (Z.min (2 ^ 64 - 1) (div_ceil + 1)) (2 ^ 32 - 1).

Definition create_order (m : StarManager) (uuid subject key profile : string)
  (interval days : Z) (ca : string) (csr : bytes) (requestor : option string) (now : Z)
  : StarManager * outcome StarOrder StarError :=
  let c := star_config m in
  if (days =? 0) || (max_lifetime_days c <? days) then
    (m, Err (IssuanceError "STAR lifetime is outside configured bounds"))
  else if (interval <? min_renewal_interval_secs c) || (max_renewal_interval_secs c <? interval)
  then
    (m, Err (InvalidInterval interval (min_renewal_interval_secs c)
               (max_renewal_interval_secs c)))
  else if max_active_orders c <=? active_order_count m then
    (m, Err (MaxOrdersReached (max_active_orders c)))
  else
    let lifetime_end := now + days * DAY in
    let total_lifetime_secs := Z.max 0 ((lifetime_end - now) / SECS) in
    let order := MkOrder uuid subject key profile (interval * SECS) lifetime_end
      (renewal_estimate (pre_renewal_factor c) interval total_lifetime_secs) 0 Active
      requestor ca csr None now None in
    (set_orders m (<[uuid := order]> (orders m)), Ok order).

Definition remove_order (m : StarManager) (id : string) : StarManager :=
  set_orders m (delete id (orders m)).

Definition get_order (m : StarManager) (id : string) : option StarOrder := orders m !! id.

Definition get_current_certificate (m : StarManager) (id : string) (now : Z)
  : outcome StarCertificate StarError :=
  let? order := ok_or (orders m !! id) (OrderNotFound id) in
  if lifetime_end order <=? now then Err (OrderExpired id)
  else
    match status order with
    | Cancelled => Err (OrderCancelled id)
    | Expired => Err (OrderExpired id)
    | Active | Completed => ok_or (current_certificate order) (OrderNotFound id)
    end.

(** Does the certificate last, to the second, to the end of the order? *)
Definition covers_lifetime (c : StarCertificate) (o : StarOrder) : bool :=
  timestamp (lifetime_end o) <=? timestamp (not_after c).

Definition store_renewed_certificate (m : StarManager) (id : string) (cert : StarCertificate)
  : StarManager * outcome unit StarError :=
  match orders m !! id with
  | None => (m, Err (OrderNotFound id))
  | Some order =>
      match status order with
      | Cancelled => (m, Err (OrderCancelled id))
      | Expired => (m, Err (OrderExpired id))
      | Active | Completed =>
          let order' := with_certificate order cert in
          let order' :=
            if covers_lifetime cert order then with_status order' Completed else order' in
          (set_orders m (<[id := order']> (orders m)), Ok tt)
      end
  end.

Definition cancel_order (m : StarManager) (id : string) (now : Z)
  : StarManager * outcome unit StarError :=
  match orders m !! id with
  | None => (m, Err (OrderNotFound id))
  | Some order =>
      if bool_decide (status order = Cancelled) then (m, Ok tt)
      else
        (set_orders m
           (<[id := with_cancelled_at (with_status order Cancelled) now]> (orders m)), Ok tt)
  end.

(** The collected expired orders are marked and removed one by one, by their
    own id. *)
Definition expire_one (m : StarManager) (id : string) : StarManager :=
  let m :=
    match orders m !! id with
    | Some o =>
        if bool_decide (status o = Active)
        then set_orders m (<[id := with_status o Expired]> (orders m)) else m
    | None => m
    end in
  remove_order m id.

(** A concurrent map is visited in some order; [map_to_list] gives one. *)
Definition order_list (m : StarManager) : list StarOrder := map snd (map_to_list (orders m)).

Definition cleanup_expired (m : StarManager) (now : Z) : StarManager * Z :=
  let expired_ids :=
    map order_id (List.filter (fun o => lifetime_end o <=? now) (order_list m)) in
  (fold_left expire_one expired_ids m, Z.of_nat (length expired_ids)).

Definition pre_renewal_secs (c : StarConfig) (o : StarOrder) : Z :=
  f64_as_i64 (f64_mul (f64_of_Z (renewal_interval o / SECS)) (pre_renewal_factor c)).

Definition should_renew (c : StarConfig) (o : StarOrder) (now : Z) : bool :=
  match current_certificate o with
  | None => true
  | Some cert => not_after cert - pre_renewal_secs c o * SECS <=? now
  end.

Definition orders_needing_renewal_at (m : StarManager) (now : Z) : list string :=
  map order_id
    (List.filter (fun o => bool_decide (status o = Active) && negb (lifetime_end o <=? now)
                           && should_renew (star_config m) o now) (order_list m)).

(** [restore], from the rows of the database: a completed order whose
    certificate does not last to its end becomes active again, in the
    database first.  [d] is the table, and [reactivate] the update of it,
    which may fail. *)
Section Restore.
Context {D : Type}.
Variable reactivate : D -> StarOrder -> D * option string.

Fixpoint restore_rows (d : D) (m : StarManager) (rows : list StarOrder) (now : Z)
  : D * StarManager * outcome unit StarError :=
  match rows with
  | [] => (d, m, Ok tt)
  | o :: rows =>
      let incomplete :=
        match current_certificate o with
        | None => true
        | Some c => negb (covers_lifetime c o)
        end in
      if bool_decide (status o = Completed) && (now <? lifetime_end o) && incomplete then
        match reactivate d o with
        | (d, Some why) => (d, m, Err (DatabaseError why))
        | (d, None) =>
            restore_rows d (set_orders m (<[order_id o := with_status o Active]> (orders m))) rows now
        end
      else restore_rows d (set_orders m (<[order_id o := o]> (orders m))) rows now
  end.

Definition restore (d : D) (m : StarManager) (rows : outcome (list StarOrder) StarError) (now : Z)
  : D * StarManager * outcome unit StarError :=
  match rows with
  | Ok rows =>
      match restore_rows d (set_orders m ∅) rows now with
      | (d, m, Ok _) => (d, (cleanup_expired m now).1, Ok tt)
      | (d, m, r) => (d, m, r)
      end
  | Err e => (d, m, Err e)
  | Panic => (d, m, Panic)
  end.
End Restore.
