(* ===== verification/StarRenewal.v ===== *)
(** * The STAR renewal cycle

    [src/star/renewal.rs] and the validity computation of
    [src/ca/issue.rs]: one pass over the orders that need a certificate,
    each issued, committed to the database and then published in memory. *)
From S2P Require Import Prelude Words Text StarManager.
Open Scope Z_scope.

(** The rows of [star_orders] that renewal reads and writes: the number of
    renewals and the status of an order. *)
Abbreviation OrderRows := (gmap string (Z * StarOrderStatus)).

Section Renewal.
(** The environment's state; a CA, its configuration, a resolved key; the
    fields of an enrollment profile that renewal does not touch. *)
Context {W Ca CaCfg Key R : Type}.

Record EnrollmentProfile : Type := MkProfile {
  profile_name : string;
  max_validity_days : Z;               (* u32 *)
  max_validity_seconds : option Z;     (* u64 *)
  max_not_after : option Z;
  profile_rest : R
}.

(** The clock, the CAs and their keys, the JSON and X.509 libraries, the
    audit log and the rest of the database. *)
Class RenewalEnv : Type := {
  clock : W -> Z;
  max_utc : Z;
  cas_get : string -> option Ca;
  parse_profile : string -> option EnrollmentProfile;
  record_checked : W -> string -> string -> W * option string;
  find_ca_config : string -> option CaCfg;
  resolve_signing_key : W -> CaCfg -> W * (Key + string);
  (** parsing and verifying the CSR, the CA certificate and the key *)
  issue_checks : W -> bytes -> EnrollmentProfile -> Ca -> Key -> W * option string;
  (** the CA certificate's validity, when its times are valid *)
  ca_validity : Ca -> option (Z * Z);
  (** building and signing the certificate: serial number and DER *)
  sign : W -> bytes -> EnrollmentProfile -> Ca -> Key -> Z -> Z -> W * ((string * bytes) + string);
  issuer_dn : Ca -> option string;
  (** the inserts, the audit record and the commit of a renewal *)
  commit_renewal : W -> StarOrder -> StarCertificate -> string -> string -> W * option string
}.

Context `{RenewalEnv}.

(** ** Issuance *)

(** [Duration::seconds] panics on more than [i64::MAX] milliseconds. *)
Definition validity_end (now : Z) (p : EnrollmentProfile) (ca : Ca) : outcome Z string :=
  let not_after := now + max_validity_days p * DAY in
  let? not_after :=
    match max_validity_seconds p with
    | Some seconds =>
        if 2 ^ 63 <=? seconds then Err "validity overflow"
        else if (2 ^ 63 - 1) / 1000 <? seconds then Panic
        else if max_utc <? now + seconds * SECS then Err "validity overflow"
        else Ok (Z.min not_after (now + seconds * SECS))
    | None => Ok not_after
    end in
  let not_after :=
    match max_not_after p with Some limit => Z.min not_after limit | None => not_after end in
  match ca_validity ca with
  | None => Err "invalid certificate time"
  | Some (nb, na) =>
      if (now <? nb) || (na <? now) then Err "certificate outside validity period"
      else
        let not_after := Z.min not_after na in
        if not_after <=? now then Err "empty certificate validity period" else Ok not_after
  end.

Record IssuanceResult : Type := MkIssued {
  issued_der : bytes;
  issued_serial : string;
  issued_not_before : Z;
  issued_not_after : Z
}.

Definition issue_certificate (w : W) (csr : bytes) (p : EnrollmentProfile) (ca : Ca) (key : Key)
  : W * outcome IssuanceResult string :=
  let (w, checked) := issue_checks w csr p ca key in
  match checked with
  | Some e => (w, Err e)
  | None =>
      let now := clock w in
      match validity_end now p ca with
      | Err e => (w, Err e)
      | Panic => (w, Panic)
      | Ok na =>
          match sign w csr p ca key now na with
          | (w, inl (serial, der)) => (w, Ok (MkIssued der serial now na))
          | (w, inr e) => (w, Err e)
          end
      end
  end.

(** ** One renewal *)

(** Compare-and-set of the order's row, then the rest of the transaction. *)
Definition persist_renewal (w : W) (db : OrderRows) (o : StarOrder) (cert : StarCertificate)
  (issuer profile : string) : W * OrderRows * option string :=
  match db !! order_id o with
  | Some (n, Active) =>
      if n =? current_renewals o then
        match commit_renewal w o cert issuer profile with
        | (w, None) =>
            (w, <[order_id o := (renewal_number cert,
                   if covers_lifetime cert o then Completed else Active)]> db, None)
        | (w, Some e) => (w, db, Some e)
        end
      else (w, db, Some "no rows returned by a query that expected to return at least one row")
  | _ => (w, db, Some "no rows returned by a query that expected to return at least one row")
  end.

Inductive RenewalOutcome : Type := Renewed | Failed | Skipped.

Record CycleState : Type := MkCycle {
  cs_manager : StarManager;
  cs_db : OrderRows;
  cs_env : W
}.

Definition set_env (s : CycleState) (w : W) : CycleState := MkCycle (cs_manager s) (cs_db s) w.

(** The profile of a renewal: its validity is the order's interval, within
    the order's lifetime. *)
Definition renewal_profile (p : EnrollmentProfile) (o : StarOrder) : EnrollmentProfile :=
  MkProfile (profile_name p) (max_validity_days p) (Some (renewal_interval o / SECS))
    (Some (lifetime_end o)) (profile_rest p).

Definition renewed_certificate (o : StarOrder) (id : string) (r : IssuanceResult)
  : StarCertificate :=
  MkStarCert (issued_der r) (issued_serial r) (issued_not_before r) (issued_not_after r)
    (as_u32 (current_renewals o + 1)) id.

(** From the issued certificate to its publication. *)
Definition publish (s : CycleState) (id : string) (o : StarOrder) (ca : Ca)
  (p : EnrollmentProfile) (r : IssuanceResult) : CycleState * RenewalOutcome :=
  let cert := renewed_certificate o id r in
  match issuer_dn ca with
  | None => (s, Failed)
  | Some issuer =>
      match persist_renewal (cs_env s) (cs_db s) o cert issuer (profile_name p) with
      | (w, db, Some _) => (MkCycle (cs_manager s) db w, Failed)
      | (w, db, None) =>
          match store_renewed_certificate (cs_manager s) id cert with
          | (m, Ok _) => (MkCycle m db w, Renewed)
          | (m, _) => (MkCycle m db w, Failed)
          end
      end
  end.

(** [None] when the renewal task panics. *)
Definition renew_one (s : CycleState) (id : string) : option (CycleState * RenewalOutcome) :=
  match get_order (cs_manager s) id with
  | None => Some (s, Skipped)
  | Some o =>
      if negb (bool_decide (status o = Active)) then Some (s, Skipped)
      else
        match cas_get (order_ca_id o), parse_profile (order_profile o) with
        | Some ca, Some p =>
            let p := renewal_profile p o in
            match record_checked (cs_env s) (order_ca_id o) ("STAR renewal for " +:+ id) with
            | (w, Some _) => Some (set_env s w, Failed)
            | (w, None) =>
                match find_ca_config (order_ca_id o) with
                | None => Some (set_env s w, Failed)
                | Some cfg =>
                    match resolve_signing_key w cfg with
                    | (w, inr _) => Some (set_env s w, Failed)
                    | (w, inl key) =>
                        match issue_certificate w (order_csr_der o) p ca key with
                        | (w, Ok r) => Some (publish (set_env s w) id o ca p r)
                        | (w, Err _) => Some (set_env s w, Failed)
                        | (_, Panic) => None
                        end
                    end
                end
            end
        | _, _ => Some (s, Failed)
        end
  end.

Fixpoint renew_all (s : CycleState) (ids : list string) : option CycleState :=
  match ids with
  | [] => Some s
  | id :: ids =>
      match renew_one s id with
      | Some (s, _) => renew_all s ids
      | None => None
      end
  end.

Definition renewal_cycle (s : CycleState) : option CycleState :=
  let m := (cleanup_expired (cs_manager s) (clock (cs_env s))).1 in
  renew_all (MkCycle m (cs_db s) (cs_env s))
    (orders_needing_renewal_at m (clock (cs_env s))).
End Renewal.

Arguments RenewalEnv : clear implicits.
Arguments EnrollmentProfile : clear implicits.
Arguments CycleState : clear implicits.
