(* ===== verification/StarSpec.v ===== *)
(** * STAR: theorems

    Cancellation is final; the bounds on orders; a renewal is committed
    before it is published and never outlives its order. *)
From S2P Require Import Prelude Words Text StarManager StarRenewal.
Open Scope Z_scope.

(** ** The orders as a map *)

(** Orders are filed under their own id. *)
Definition filed (m : StarManager) : Prop :=
  forall id o, orders m !! id = Some o -> order_id o = id.

Lemma expire_one_lookup m i id :
  orders (expire_one m i) !! id = if decide (id = i) then None else orders m !! id.
Proof.
  unfold expire_one, remove_order. cbn [orders set_orders].
  case_decide as E; [subst; apply lookup_delete_eq|]. rewrite lookup_delete_ne by done.
  destruct (orders m !! i) as [o|]; [|done]. case_match; [|done].
  cbn [orders set_orders]. by rewrite lookup_insert_ne.
Qed.

Lemma expire_list_lookup l m id :
  orders (fold_left expire_one l m) !! id = if decide (id ∈ l) then None else orders m !! id.
Proof.
  revert m. induction l as [|i l IH]; intros m; cbn [fold_left].
  - rewrite decide_False; [done|]. apply not_elem_of_nil.
  - rewrite IH, expire_one_lookup. repeat case_decide; try done; set_solver.
Qed.

Lemma expire_list_config l m : star_config (fold_left expire_one l m) = star_config m.
Proof.
  revert m. induction l as [|i l IH]; intros m; cbn [fold_left]; [done|]. rewrite IH.
  unfold expire_one, remove_order. cbn. by repeat case_match.
Qed.

Lemma elem_of_filter_b {A} (f : A -> bool) (l : list A) x :
  x ∈ List.filter f l <-> x ∈ l /\ f x = true.
Proof. rewrite !list_elem_of_In. apply filter_In. Qed.

Lemma order_list_elem m o : o ∈ order_list m <-> exists id, orders m !! id = Some o.
Proof.
  unfold order_list. rewrite list_elem_of_fmap. split.
  - intros ([id o'] & -> & Hin). apply elem_of_map_to_list in Hin. by exists id.
  - intros [id Hid]. exists (id, o). split; [done|]. by apply elem_of_map_to_list.
Qed.

Lemma star_cleanup_lookup m now id o : filed m ->
  orders (cleanup_expired m now).1 !! id = Some o <->
  orders m !! id = Some o /\ now < lifetime_end o.
Proof.
  intros Hf. cbn [fst cleanup_expired]. rewrite expire_list_lookup.
  assert (Hin : id ∈ map order_id (List.filter (fun o => lifetime_end o <=? now) (order_list m))
    <-> exists o, orders m !! id = Some o /\ lifetime_end o <= now).
  { rewrite list_elem_of_fmap. setoid_rewrite elem_of_filter_b. setoid_rewrite order_list_elem.
    split.
    - intros (o' & -> & ([i Hi] & Hle)). rewrite (Hf i o' Hi). exists o'.
      split; [done|by apply Z.leb_le].
    - intros (o' & Ho' & Hle). exists o'. split; [symmetry; by apply Hf|].
      split; [by exists id|by apply Z.leb_le]. }
  case_decide as E.
  - split; [done|]. intros [Ho Hlt]. apply Hin in E as (o' & Ho' & ?).
    rewrite Ho in Ho'. injection Ho' as <-. lia.
  - split; [|by intros []]. intros Ho. split; [done|].
    destruct (Z.lt_ge_cases now (lifetime_end o)); [done|]. destruct E. apply Hin. by exists o.
Qed.

Lemma cleanup_config m now : star_config (cleanup_expired m now).1 = star_config m.
Proof. apply expire_list_config. Qed.

Lemma cleanup_filed m now : filed m -> filed (cleanup_expired m now).1.
Proof. intros Hf id o Ho. apply star_cleanup_lookup in Ho as [Ho _]; [by apply Hf|done]. Qed.

Lemma needing_elem m now id : filed m ->
  id ∈ orders_needing_renewal_at m now <->
  exists o, orders m !! id = Some o /\ status o = Active /\ now < lifetime_end o /\
    should_renew (star_config m) o now = true.
Proof.
  intros Hf. unfold orders_needing_renewal_at. rewrite list_elem_of_fmap.
  setoid_rewrite elem_of_filter_b. setoid_rewrite order_list_elem.
  setoid_rewrite andb_true_iff. setoid_rewrite andb_true_iff. setoid_rewrite negb_true_iff.
  setoid_rewrite Z.leb_gt. setoid_rewrite bool_decide_eq_true. split.
  - intros (o & -> & [i Hi] & [? ?] & ?). rewrite (Hf i o Hi). exists o.
    by split_and!.
  - intros (o & Ho & ? & ? & ?). exists o. split; [symmetry; by apply Hf|].
    split; [by exists id|done].
Qed.

Lemma NoDup_map_filter {A B} (f : A -> B) (p : A -> bool) (l : list A) :
  NoDup (map f l) -> NoDup (map f (List.filter p l)).
Proof.
  induction l as [|x l IH]; cbn; [done|]. intros [Hx Hl]%NoDup_cons.
  case_match; [|auto]. cbn. apply NoDup_cons. split; [|auto].
  intros (y & E & [Hy _]%elem_of_filter_b)%list_elem_of_fmap. apply Hx. rewrite E.
  by apply list_elem_of_fmap_2.
Qed.

Lemma needing_NoDup m now : filed m -> NoDup (orders_needing_renewal_at m now).
Proof.
  intros Hf. apply NoDup_map_filter. unfold order_list. rewrite map_map.
  rewrite (map_ext_in _ fst); [apply NoDup_fst_map_to_list|].
  intros [id o] Hin%list_elem_of_In. apply elem_of_map_to_list in Hin. by apply Hf.
Qed.

(** ** Runs of operations *)

Inductive star_op : Type :=
  | SCreate (uuid subject key profile : string) (interval days : Z) (ca : string) (csr : bytes)
      (requestor : option string) (now : Z)
  | SRemove (id : string)
  | SStore (id : string) (cert : StarCertificate)
  | SCancel (id : string) (now : Z)
  | SCleanup (now : Z).

Definition star_step (m : StarManager) (op : star_op) : StarManager :=
  match op with
  | SCreate u s k p i d ca csr r now => (create_order m u s k p i d ca csr r now).1
  | SRemove id => remove_order m id
  | SStore id cert => (store_renewed_certificate m id cert).1
  | SCancel id now => (cancel_order m id now).1
  | SCleanup now => (cleanup_expired m now).1
  end.

(** A stored order keeps its terms. *)
Lemma store_lookup m id cert i o' :
  orders (store_renewed_certificate m id cert).1 !! i = Some o' ->
  orders m !! i = Some o' \/
  exists o, i = id /\ orders m !! id = Some o /\ (status o = Active \/ status o = Completed) /\
    o' = (if covers_lifetime cert o then with_status (with_certificate o cert) Completed
          else with_certificate o cert).
Proof.
  unfold store_renewed_certificate. destruct (orders m !! id) as [o|] eqn:E; [|by left].
  destruct (status o) eqn:Es; cbn [fst]; try (by left); cbn [orders set_orders];
    (destruct (decide (i = id)) as [->|Hne];
      [rewrite lookup_insert_eq; intros [= <-]; right; exists o; split_and!; auto
      |rewrite lookup_insert_ne by done; by left]).
Qed.

Lemma star_step_filed m op : filed m -> filed (star_step m op).
Proof.
  intros Hf. destruct op as [u s k p i d ca csr r now|j|j cert|j now|now]; cbn [star_step].
  - unfold create_order. cbv zeta. repeat case_match; try done. cbn [fst].
    intros id o. cbn [orders set_orders]. rewrite lookup_insert_Some.
    intros [[<- <-]|[_ Ho]]; [done|by apply Hf].
  - intros id o. cbn [remove_order orders set_orders]. intros [_ Ho]%lookup_delete_Some.
    by apply Hf.
  - intros id o [Ho|(o0 & -> & Ho0 & _ & ->)]%store_lookup; [by apply Hf|].
    rewrite <- (Hf j o0 Ho0). by case_match.
  - unfold cancel_order. destruct (orders m !! j) as [o|] eqn:E; [|done].
    case_match; [done|]. intros id o'. cbn [fst orders set_orders]. rewrite lookup_insert_Some.
    intros [[<- <-]|[_ Ho]]; [by apply (Hf j o)|by apply Hf].
  - by apply cleanup_filed.
Qed.

(** UUIDs are not drawn twice. *)
Definition not_created (id : string) (op : star_op) : Prop :=
  match op with SCreate u _ _ _ _ _ _ _ _ _ => u <> id | _ => True end.

Definition ended (m : StarManager) (id : string) : Prop :=
  forall o, orders m !! id = Some o -> status o = Cancelled.

Lemma star_step_ended m op id : not_created id op -> ended m id -> ended (star_step m op) id.
Proof.
  intros Hop He o. destruct op as [u s k p i d ca csr r now|j|j cert|j now|now];
    cbn [star_step not_created] in *.
  - unfold create_order. cbv zeta. repeat case_match; cbn [fst orders set_orders]; try apply He.
    rewrite lookup_insert_ne by done. apply He.
  - cbn [remove_order orders set_orders]. intros [_ Ho]%lookup_delete_Some. by apply He.
  - unfold store_renewed_certificate. destruct (orders m !! j) as [o'|] eqn:Ej; [|apply He].
    destruct (decide (j = id)) as [->|Hne].
    + rewrite (He o' Ej). cbn [fst]. apply He.
    + destruct (status o'); cbn [fst]; try apply He; cbn [orders set_orders];
        rewrite lookup_insert_ne by done; apply He.
  - unfold cancel_order. destruct (orders m !! j) as [o'|] eqn:Ej; [|apply He].
    case_match; [apply He|]. cbn [fst orders set_orders].
    destruct (decide (j = id)) as [->|Hne].
    + rewrite lookup_insert_eq. by intros [= <-].
    + rewrite lookup_insert_ne by done. apply He.
  - cbn [fst cleanup_expired]. rewrite expire_list_lookup. case_decide; [done|apply He].
Qed.

(** Cancellation is final: once an order is cancelled, then whatever
    operations follow (no new order drawing the same UUID), it is never
    served again, a renewed certificate for it is refused and changes
    nothing, and the renewal loop does not take it up. *)
Theorem cancel_is_final m id now ops t cert :
  is_Some (orders m !! id) -> filed m -> Forall (not_created id) ops ->
  (forall m', m' = run_steps star_step (cancel_order m id now).1 ops ->
   (forall c, get_current_certificate m' id t <> Ok c) /\
   (exists e, store_renewed_certificate m' id cert = (m', Err e)) /\
   id ∉ orders_needing_renewal_at m' t) /\
  (cancel_order m id now).2 = Ok tt.
Proof.
  intros [o Ho] Hf Hops.
  assert (Hc : ended (cancel_order m id now).1 id /\ (cancel_order m id now).2 = Ok tt).
  { unfold cancel_order, ended. rewrite Ho. case_match eqn:E; cbn [fst snd].
    - split; [|done]. rewrite Ho. intros o' [= <-]. by apply bool_decide_eq_true in E.
    - split; [|done]. cbn [orders set_orders]. rewrite lookup_insert_eq. by intros o' [= <-]. }
  destruct Hc as [He Hok]. split; [|done]. intros m' ->.
  assert (Hf' : filed (run_steps star_step (cancel_order m id now).1 ops)).
  { apply (run_steps_inv star_step filed); [intros; by apply star_step_filed|].
    by apply (star_step_filed m (SCancel id now)). }
  assert (Hend : forall m0, ended m0 id -> ended (run_steps star_step m0 ops) id).
  { clear -Hops. induction Hops as [|op ops Hop Hops IH]; intros m0 He; [done|].
    cbn [run_steps]. apply IH. by apply star_step_ended. }
  specialize (Hend _ He). set (m' := run_steps star_step _ ops) in *. clearbody m'. split_and!.
  - intros c. unfold get_current_certificate. destruct (orders m' !! id) as [o'|] eqn:E; [|done].
    cbn [ok_or obind]. rewrite (Hend o' E). by case_match.
  - unfold store_renewed_certificate. destruct (orders m' !! id) as [o'|] eqn:E; [|by eexists].
    rewrite (Hend o' E). by eexists.
  - rewrite needing_elem by done. intros (o' & Ho' & Ha & _).
    rewrite (Hend o' Ho') in Ha. done.
Qed.

(** ** Bounds *)

Lemma active_insert_le (os : gmap string StarOrder) id o :
  (status o = Active -> exists o0, os !! id = Some o0 /\ status o0 = Active) ->
  (size (map_retain (fun _ o => bool_decide (status o = Active)) (<[id := o]> os)) <=
   size (map_retain (fun _ o => bool_decide (status o = Active)) os))%nat.
Proof.
  intros Ho. rewrite <- !size_dom. apply subseteq_size. intros i.
  rewrite !elem_of_dom. intros [o1 [Hi Ha]%map_retain_lookup_Some].
  apply bool_decide_eq_true in Ha. apply lookup_insert_Some in Hi as [[<- <-]|[Hne Hi]].
  - destruct (Ho Ha) as (o0 & Ho0 & Ha0). exists o0. apply map_retain_lookup_Some.
    split; [done|by apply bool_decide_eq_true].
  - exists o1. apply map_retain_lookup_Some. split; [done|by apply bool_decide_eq_true].
Qed.

Lemma active_insert_S (os : gmap string StarOrder) id o :
  (size (map_retain (fun _ o => bool_decide (status o = Active)) (<[id := o]> os)) <=
   S (size (map_retain (fun _ o => bool_decide (status o = Active)) os)))%nat.
Proof.
  etransitivity; [|apply (size_insert_le _ id o)]. rewrite <- !size_dom. apply subseteq_size.
  intros i. rewrite !elem_of_dom. intros [o1 [Hi Ha]%map_retain_lookup_Some].
  apply lookup_insert_Some in Hi as [[<- <-]|[Hne Hi]].
  - rewrite lookup_insert_eq. by eexists.
  - rewrite lookup_insert_ne by done. exists o1. by apply map_retain_lookup_Some.
Qed.

Lemma active_subset_le (os os' : gmap string StarOrder) : os ⊆ os' ->
  (size (map_retain (fun _ o => bool_decide (status o = Active)) os) <=
   size (map_retain (fun _ o => bool_decide (status o = Active)) os'))%nat.
Proof.
  intros Hs. rewrite <- !size_dom. apply subseteq_size. intros i.
  rewrite !elem_of_dom. intros [o1 [Hi Ha]%map_retain_lookup_Some]. exists o1.
  apply map_retain_lookup_Some. split; [|done]. by eapply lookup_weaken.
Qed.

(** The terms of an admitted order. *)
Definition terms_ok (c : StarConfig) (o : StarOrder) : Prop :=
  (exists secs, renewal_interval o = secs * SECS /\
     min_renewal_interval_secs c <= secs <= max_renewal_interval_secs c) /\
  created_at o < lifetime_end o <= created_at o + max_lifetime_days c * DAY /\
  max_renewals o < 2 ^ 32.

Definition star_wf (c : StarConfig) (m : StarManager) : Prop :=
  star_config m = c /\ filed m /\
  active_order_count m <= Z.max 0 (max_active_orders c) /\
  forall id o, orders m !! id = Some o -> status o <> Expired /\ terms_ok c o.

(** Days are a [u32]. *)
Definition days_u32 (op : star_op) : Prop :=
  match op with SCreate _ _ _ _ _ d _ _ _ _ => u32 d | _ => True end.

Lemma renewal_estimate_lt f i t : renewal_estimate f i t < 2 ^ 32.
Proof. unfold renewal_estimate. cbv zeta. lia. Qed.

Lemma create_order_wf c m u s k p i d ca csr r now : u32 d -> star_wf c m ->
  star_wf c (create_order m u s k p i d ca csr r now).1.
Proof.
  intros Hd (Hc & Hf & Hn & Ht). pose proof (star_step_filed m (SCreate u s k p i d ca csr r now) Hf).
  unfold create_order. rewrite Hc. cbv zeta.
  destruct (Z.eqb_spec d 0); [done|]. destruct (Z.ltb_spec (max_lifetime_days c) d); [done|].
  destruct (Z.ltb_spec i (min_renewal_interval_secs c)); [done|].
  destruct (Z.ltb_spec (max_renewal_interval_secs c) i); [done|]. cbn [orb].
  destruct (Z.leb_spec (max_active_orders c) (active_order_count m)); [done|].
  split_and!; [done| | |].
  - intros id o. cbn [fst orders set_orders]. rewrite lookup_insert_Some.
    intros [[<- <-]|[_ Ho]]; [done|by apply Hf].
  - unfold active_order_count in *. cbn [fst orders set_orders].
    etransitivity; [apply inj_le, active_insert_S|]. lia.
  - intros id o. cbn [fst orders set_orders]. rewrite lookup_insert_Some.
    intros [[<- <-]|[_ Ho]]; [|by apply (Ht id)]. split; [done|]. unfold terms_ok.
    cbn [renewal_interval created_at lifetime_end max_renewals].
    unfold u32, DAY, SECS in *. split_and!; [exists i; lia|lia|lia|apply renewal_estimate_lt].
Qed.

Lemma star_step_wf c m op : days_u32 op -> star_wf c m -> star_wf c (star_step m op).
Proof.
  intros Hd Hwf. destruct op as [u s k p i d ca csr r now|j|j cert|j now|now].
  { by apply create_order_wf. }
  all: destruct Hwf as (Hc & Hf & Hn & Ht);
    match goal with |- star_wf _ (star_step _ ?op) => pose proof (star_step_filed m op Hf) end;
    (split; [|split; [done|]]).
  - done.
  - split.
    + unfold active_order_count in *. cbn [star_step remove_order orders set_orders].
      pose proof (active_subset_le (delete j (orders m)) (orders m) (delete_subseteq _ _)). lia.
    + intros id o. cbn [star_step remove_order orders set_orders].
      intros [_ Ho]%lookup_delete_Some. by apply (Ht id).
  - cbn [star_step]. unfold store_renewed_certificate. by repeat case_match.
  - split.
    + unfold active_order_count in *. cbn [star_step]. unfold store_renewed_certificate.
      destruct (orders m !! j) as [o|] eqn:E; [|done].
      destruct (status o) eqn:Es; try done; cbn [fst orders set_orders];
        (etransitivity; [apply inj_le, active_insert_le|exact Hn]);
        (destruct (covers_lifetime cert o); [done|]; cbn; intros Ha; exists o; by rewrite Es in *).
    + intros id o [Ho|(o0 & -> & Ho0 & Hst & ->)]%store_lookup; [by apply (Ht id)|].
      destruct (Ht j o0 Ho0) as [Hs0 Ht0].
      destruct (covers_lifetime cert o0); (split; [|exact Ht0]); [done|].
      cbn. by destruct Hst as [-> | ->].
  - cbn [star_step]. unfold cancel_order. by repeat case_match.
  - cbn [star_step]. unfold cancel_order. destruct (orders m !! j) as [o|] eqn:E; [|done].
    case_match; [done|]. split.
    + unfold active_order_count in *. cbn [fst orders set_orders].
      etransitivity; [apply inj_le, active_insert_le|exact Hn]. done.
    + intros id o'. cbn [fst orders set_orders]. rewrite lookup_insert_Some.
      intros [[<- <-]|[_ Ho]]; [|by apply (Ht id)]. split; [done|]. by apply (Ht j o).
  - cbn [star_step]. by rewrite cleanup_config.
  - split.
    + unfold active_order_count in *. cbn [star_step].
      pose proof (active_subset_le (orders (cleanup_expired m now).1) (orders m)) as Hle.
      etransitivity; [apply inj_le, Hle|exact Hn]. apply map_subseteq_spec.
      intros id o. rewrite star_cleanup_lookup by done. by intros [].
    + intros id o. cbn [star_step]. rewrite star_cleanup_lookup by done. intros [Ho _]. by apply (Ht id).
Qed.

(** Bounds: a manager that starts empty, through any operations, keeps
    its orders filed under their ids, has at most the configured number of
    active orders, and every order has a renewal interval and a lifetime
    within the configured bounds; no order in the table is marked expired. *)
Theorem star_orders_bounded c ops :
  Forall days_u32 ops -> star_wf c (run_steps star_step (star_new c) ops).
Proof.
  intros Hops. assert (Hwf : star_wf c (star_new c)).
  { split_and!; [done|done| |done]. unfold active_order_count, star_new. cbn [orders].
    unfold map_retain. rewrite map_filter_empty, map_size_empty. lia. }
  revert Hwf. generalize (star_new c). induction Hops as [|op ops Hop Hops IH]; intros m Hwf; [done|].
  cbn [run_steps]. apply IH. by apply star_step_wf.
Qed.

(** ** A renewal *)

(** Storing a certificate for an active order. *)
Lemma store_active m id cert o : orders m !! id = Some o -> status o = Active ->
  orders (store_renewed_certificate m id cert).1 =
  <[id := if covers_lifetime cert o then with_status (with_certificate o cert) Completed
          else with_certificate o cert]> (orders m).
Proof. intros Ho Ha. unfold store_renewed_certificate. by rewrite Ho, Ha. Qed.

Lemma store_config m id cert :
  star_config (store_renewed_certificate m id cert).1 = star_config m.
Proof. unfold store_renewed_certificate. by repeat case_match. Qed.

Section Renewals.
Context {W Ca CaCfg Key R : Type} `{!RenewalEnv W Ca CaCfg Key R}.
Implicit Types (s : CycleState W) (p : EnrollmentProfile R).

(** The validity of what is issued: it starts now, and ends within the
    profile's limits and the CA's own validity. *)
Lemma validity_end_bounds now p (ca : Ca) na : validity_end now p ca = Ok na ->
  now < na /\ na <= now + max_validity_days p * DAY /\
  (forall secs, max_validity_seconds p = Some secs -> na <= now + secs * SECS) /\
  (forall limit, max_not_after p = Some limit -> na <= limit).
Proof.
  unfold validity_end. cbv zeta. intros Hv. inv_ok Hv.
  assert (Ht : t <= now + max_validity_days p * DAY /\
    forall secs, max_validity_seconds p = Some secs -> t <= now + secs * SECS).
  { split_cases_in H; split; try lia; naive_solver lia. }
  destruct (ca_validity ca) as [[nb cna]|]; [|done]. case_match; [done|].
  destruct (Z.leb_spec (Z.min match max_not_after p with Some limit => Z.min t limit | None => t end cna) now);
    [done|]. injection Hv as <-. destruct Ht as [Ht1 Ht2].
  destruct (max_not_after p); split_and!; try lia;
    try (intros secs Hs; specialize (Ht2 secs Hs); lia); naive_solver lia.
Qed.

Lemma issue_certificate_ok w csr p (ca : Ca) (key : Key) w' r :
  issue_certificate w csr p ca key = (w', Ok r) ->
  exists w1, (issue_checks w csr p ca key) = (w1, None) /\
    issued_not_before r = clock w1 /\ validity_end (clock w1) p ca = Ok (issued_not_after r).
Proof.
  unfold issue_certificate. destruct (issue_checks w csr p ca key) as [w1 [e|]]; [done|].
  destruct (validity_end (clock w1) p ca) as [na|e|] eqn:Ev; [|done|done].
  destruct (sign _ _ _ _ _ _ _) as [w2 [[sn der]|e]]; [|done]. intros [= <- <-]. by exists w1.
Qed.

(** What the order's row becomes. *)
Definition row_after (o : StarOrder) (cert : StarCertificate) : Z * StarOrderStatus :=
  (renewal_number cert, if covers_lifetime cert o then Completed else Active).

(** A certificate issued for the order [o]: numbered next, valid from its
    issuance, for at most the interval and never beyond the order's end. *)
Definition renewal_of (o : StarOrder) (id : string) (cert : StarCertificate) : Prop :=
  star_order_id cert = id /\ renewal_number cert = as_u32 (current_renewals o + 1) /\
  not_before cert < not_after cert <= lifetime_end o /\
  not_after cert <= not_before cert + renewal_interval o / SECS * SECS.

Lemma renew_one_cases s id s' r : renew_one s id = Some (s', r) ->
  (cs_manager s' = cs_manager s /\ cs_db s' = cs_db s /\ r <> Renewed) \/
  (exists o cert, orders (cs_manager s) !! id = Some o /\ status o = Active /\
     cs_db s !! order_id o = Some (current_renewals o, Active) /\
     renewal_of o id cert /\
     cs_manager s' = (store_renewed_certificate (cs_manager s) id cert).1 /\
     cs_db s' = <[order_id o := row_after o cert]> (cs_db s) /\ r = Renewed).
Proof.
  unfold renew_one, get_order. destruct (orders (cs_manager s) !! id) as [o|] eqn:Eo;
    [|intros [= <- <-]; by left].
  destruct (bool_decide (status o = Active)) eqn:Ea; cbn [negb]; [|intros [= <- <-]; by left].
  apply bool_decide_eq_true in Ea.
  destruct (cas_get (order_ca_id o)) as [ca|]; [|intros [= <- <-]; by left].
  destruct (parse_profile (order_profile o)) as [p|]; [|intros [= <- <-]; by left]. cbv zeta.
  destruct (record_checked _ _ _) as [w [e|]]; [intros [= <- <-]; by left|].
  destruct (find_ca_config _) as [cfg|]; [|intros [= <- <-]; by left].
  destruct (resolve_signing_key _ _) as [w1 [key|e]]; [|intros [= <- <-]; by left].
  destruct (issue_certificate _ _ _ _ _) as [w2 [ir|e|]] eqn:Ei; [|intros [= <- <-]; by left|done].
  apply issue_certificate_ok in Ei as (w3 & _ & Hnb & Hv).
  apply validity_end_bounds in Hv as (Hlt & _ & Hsecs & Hlim).
  specialize (Hsecs _ eq_refl). specialize (Hlim _ eq_refl).
  unfold publish. destruct (issuer_dn ca) as [issuer|]; [|intros [= <- <-]; by left].
  unfold persist_renewal. cbn [cs_env cs_db cs_manager set_env].
  destruct (cs_db s !! order_id o) as [[n st]|] eqn:Edb; [|intros [= <- <-]; by left].
  destruct st; try (intros [= <- <-]; by left).
  destruct (Z.eqb_spec n (current_renewals o)) as [->|]; [|intros [= <- <-]; by left].
  destruct (commit_renewal _ _ _ _ _) as [w4 [e|]]; [intros [= <- <-]; by left|].
  destruct (store_renewed_certificate _ _ _) as [m2 r2] eqn:Es. pose proof Es as Es2.
  unfold store_renewed_certificate in Es2. rewrite Eo, Ea in Es2. injection Es2 as _ <-.
  intros [= <- <-]. right. exists o, (renewed_certificate o id ir).
  rewrite Es. split_and!; try done.
  unfold renewal_of, renewed_certificate.
  cbn [star_order_id renewal_number not_before not_after]. rewrite Hnb.
  split_and!; [done|done|lia|exact Hlim|exact Hsecs].
Qed.

(** ** Memory and database *)

(** The row of an order in memory has its renewal count; its status is the
    order's, or still active when the order was completed by its very first
    certificate (which is inserted as active). *)
Definition committed (m : StarManager) (db : OrderRows) : Prop :=
  forall id o, orders m !! id = Some o -> order_id o = id /\
    exists st, db !! id = Some (current_renewals o, st) /\
      (st = status o \/ st = Active /\ status o = Completed).

(** What a cycle does to one order that it keeps. *)
Definition renewed_or_same (o o' : StarOrder) : Prop :=
  o' = o \/
  status o = Active /\ exists cert, renewal_of o (order_id o) cert /\
    o' = (if covers_lifetime cert o then with_status (with_certificate o cert) Completed
          else with_certificate o cert).

Lemma committed_renewal m db id o cert : committed m db -> orders m !! id = Some o ->
  status o = Active -> renewal_of o id cert ->
  committed (store_renewed_certificate m id cert).1 (<[order_id o := row_after o cert]> db).
Proof.
  intros Hc Ho Ha (_ & Hn & _). destruct (Hc id o Ho) as [Hid _].
  intros i o'. rewrite (store_active m id cert o Ho Ha). rewrite Hid.
  destruct (decide (i = id)) as [->|Hne].
  - rewrite !lookup_insert_eq. intros [= <-]. unfold row_after. rewrite Hn.
    destruct (covers_lifetime cert o); (split; [exact Hid|]); eexists; (split; [done|]); by left.
  - rewrite !lookup_insert_ne by done. apply Hc.
Qed.

(** Every cycle leaves every other order alone, and publishes only what is
    committed. *)
Lemma renew_one_other s id s' r i : renew_one s id = Some (s', r) -> i <> id ->
  committed (cs_manager s) (cs_db s) ->
  orders (cs_manager s') !! i = orders (cs_manager s) !! i /\ cs_db s' !! i = cs_db s !! i.
Proof.
  intros H1 Hi Hc. apply renew_one_cases in H1 as [(-> & -> & _)|(o & cert & Ho & Ha & _ & _ & -> & -> & _)];
    [done|]. rewrite (store_active _ _ _ o Ho Ha). destruct (Hc id o Ho) as [-> _].
  by rewrite !lookup_insert_ne by done.
Qed.

Lemma renew_one_committed s id s' r : renew_one s id = Some (s', r) ->
  committed (cs_manager s) (cs_db s) -> committed (cs_manager s') (cs_db s').
Proof.
  intros H1 Hc. apply renew_one_cases in H1 as [(-> & -> & _)|(o & cert & Ho & Ha & _ & Hr & -> & -> & _)];
    [done|]. by apply committed_renewal.
Qed.

Lemma renew_one_order s id s' r i o' : renew_one s id = Some (s', r) ->
  committed (cs_manager s) (cs_db s) -> orders (cs_manager s') !! i = Some o' ->
  exists o, orders (cs_manager s) !! i = Some o /\ (if decide (i = id) then renewed_or_same o o' else o' = o).
Proof.
  intros H1 Hc Hi. destruct (decide (i = id)) as [->|Hne].
  - apply renew_one_cases in H1 as [(E & _)|(o & cert & Ho & Ha & _ & Hr & E & _)];
      rewrite E in Hi; [exists o'; by split; [|left]|].
    rewrite (store_active _ _ _ o Ho Ha), lookup_insert_eq in Hi. injection Hi as <-.
    exists o. split; [done|]. right. split; [done|]. exists cert.
    destruct (Hc id o Ho) as [-> _]. done.
  - destruct (renew_one_other _ _ _ _ _ H1 Hne Hc) as [E _]. rewrite E in Hi. by exists o'.
Qed.

Lemma renew_all_sound ids s s' : NoDup ids -> renew_all s ids = Some s' ->
  committed (cs_manager s) (cs_db s) ->
  committed (cs_manager s') (cs_db s') /\
  forall i o', orders (cs_manager s') !! i = Some o' ->
    exists o, orders (cs_manager s) !! i = Some o /\
      (if decide (i ∈ ids) then renewed_or_same o o' else o' = o).
Proof.
  intros Hnd. revert s. induction Hnd as [|id ids Hid Hnd IH]; intros s Hr Hc.
  - injection Hr as <-. split; [done|]. intros i o' Hi. exists o'.
    split; [done|]. rewrite decide_False by apply not_elem_of_nil. done.
  - cbn [renew_all] in Hr. destruct (renew_one s id) as [[s1 r]|] eqn:E; [|done].
    destruct (IH s1 Hr) as [Hc' Hi']; [by eapply renew_one_committed|]. split; [done|].
    intros i o' Hi. destruct (Hi' i o' Hi) as (o1 & Ho1 & H1).
    destruct (renew_one_order _ _ _ _ _ _ E Hc Ho1) as (o & Ho & H2). exists o.
    split; [done|]. destruct (decide (i = id)) as [->|Hne].
    + rewrite decide_False in H1 by done. subst. rewrite decide_True by set_solver. done.
    + subst. repeat case_decide; try done; set_solver.
Qed.

Lemma cleanup_committed m db now : committed m db -> committed (cleanup_expired m now).1 db.
Proof.
  intros Hc id o. rewrite star_cleanup_lookup by (intros i o1 Hi; by apply Hc).
  intros [Ho _]. by apply Hc.
Qed.

Lemma committed_filed m db : committed m db -> filed m.
Proof. intros Hc i o Hi. by apply Hc. Qed.

Lemma renewal_cycle_committed s s' : renewal_cycle s = Some s' ->
  committed (cs_manager s) (cs_db s) -> committed (cs_manager s') (cs_db s').
Proof.
  intros Hr Hc. unfold renewal_cycle in Hr. cbv zeta in Hr.
  eapply (renew_all_sound _ _ _); [|exact Hr|].
  - by apply needing_NoDup, cleanup_filed, (committed_filed _ (cs_db s)).
  - by apply cleanup_committed.
Qed.

(** A renewal cycle publishes only what it has committed: if every order
    in memory agrees with its database row, that still holds afterwards; and
    an order that is still there either is unchanged, or was active and got
    one certificate, numbered one more than the last, that starts at its
    issuance, lasts at most the renewal interval, and does not outlive the
    order.  No order appears, and an order that had ended is gone. *)
Theorem renewal_cycle_sound s s' :
  renewal_cycle s = Some s' -> committed (cs_manager s) (cs_db s) ->
  committed (cs_manager s') (cs_db s') /\
  forall id o', orders (cs_manager s') !! id = Some o' ->
    exists o, orders (cs_manager s) !! id = Some o /\ clock (cs_env s) < lifetime_end o /\
      renewed_or_same o o'.
Proof.
  intros Hr Hc. unfold renewal_cycle in Hr. cbv zeta in Hr.
  assert (Hf : filed (cs_manager s)) by (intros i o Hi; by apply Hc).
  set (now := clock (cs_env s)) in *.
  pose proof (cleanup_committed _ _ now Hc) as Hc1.
  destruct (renew_all_sound _ _ _ (needing_NoDup _ now (cleanup_filed _ now Hf)) Hr Hc1)
    as [Hc' Hi']. split; [done|]. intros id o' Ho'.
  destruct (Hi' id o' Ho') as (o & Ho & Hsame). cbn [cs_manager] in Ho.
  apply star_cleanup_lookup in Ho as [Ho Hlt]; [|done]. exists o. split_and!; [done|done|].
  case_decide; [done|by left].
Qed.
End Renewals.

(** ** The theorems at concrete orders *)

Definition example_star_config : StarConfig := MkStarConfig true 3600 604800 86400 365 2 f64_0_5.

Definition example_create (uuid : string) : star_op :=
  SCreate uuid "CN=device" "ec:P-256" "{}" 86400 2 "default" [48] (Some "CN=device") 0.

Lemma star_orders_bounded_witness :
  star_wf example_star_config
    (run_steps star_step (star_new example_star_config)
       [example_create "a"; example_create "b"; example_create "c"; SCancel "a" 5; SCleanup 9]).
Proof.
  apply star_orders_bounded.
  do 3 (apply Forall_cons; split; [vm_compute; split; [discriminate|reflexivity]|]).
  do 2 (apply Forall_cons; split; [exact I|]). apply Forall_nil. exact I.
Defined.

Definition example_order : StarOrder :=
  MkOrder "a" "CN=device" "ec:P-256" "{}" (86400 * SECS) (2 * DAY) 5 1 Active (Some "CN=device")
    "default" [48] (Some (MkStarCert [48] "01" 0 (86400 * SECS) 1 "a")) 0 None.
Definition example_manager : StarManager := MkStar {[ "a" := example_order ]} example_star_config.

Lemma example_filed : filed example_manager.
Proof.
  intros id o Ho. change (({[ "a" := example_order ]} : gmap string StarOrder) !! id = Some o) in Ho.
  apply lookup_singleton_Some in Ho as [<- <-]. reflexivity.
Qed.

Lemma cancel_is_final_witness :
  let m' := run_steps star_step (cancel_order example_manager "a" 7).1
              [example_create "b"; SStore "a" (MkStarCert [48] "02" 8 9 2 "a")] in
  (exists e, store_renewed_certificate m' "a" (MkStarCert [48] "03" 8 9 3 "a") = (m', Err e)) /\
  "a" ∉ orders_needing_renewal_at m' 10.
Proof.
  cbv zeta.
  destruct (cancel_is_final example_manager "a" 7
    [example_create "b"; SStore "a" (MkStarCert [48] "02" 8 9 2 "a")] 10
    (MkStarCert [48] "03" 8 9 3 "a")) as [Hall _].
  - exists example_order. vm_compute. reflexivity.
  - apply example_filed.
  - apply Forall_cons. split; [discriminate|].
    apply Forall_cons. split; [exact I|]. apply Forall_nil. exact I.
  - destruct (Hall _ eq_refl) as (_ & He & Hn). split; [exact He|exact Hn].
Defined.

(** A CA that always issues; the clock advances by a second per signature. *)
#[export] Instance example_star_env : RenewalEnv Z unit unit unit unit := {|
  clock w := w;
  max_utc := 8210266876799 * SECS;
  cas_get _ := Some tt;
  parse_profile _ := Some (MkProfile "default" 30 None None tt);
  record_checked w _ _ := (w, None);
  find_ca_config _ := Some tt;
  resolve_signing_key w _ := (w, inl tt);
  issue_checks w _ _ _ _ := (w, None);
  ca_validity _ := Some (0, 3650 * DAY);
  sign w _ _ _ _ _ _ := (w + SECS, inl ("02", [49]));
  issuer_dn _ := Some "CN=CA";
  commit_renewal w _ _ _ _ := (w, None)
|}.

Definition example_cycle (now : Z) : CycleState Z :=
  MkCycle example_manager {[ "a" := (1, Active) ]} now.
Definition example_cycle_after (now : Z) : CycleState Z :=
  match renewal_cycle (example_cycle now) with Some s => s | None => example_cycle now end.

Lemma example_committed now :
  committed (cs_manager (example_cycle now)) (cs_db (example_cycle now)).
Proof.
  intros id o Ho. change (({[ "a" := example_order ]} : gmap string StarOrder) !! id = Some o) in Ho.
  apply lookup_singleton_Some in Ho as [<- <-]. split; [reflexivity|].
  exists Active. split; [reflexivity|]. by left.
Qed.

Lemma renewal_cycle_sound_witness :
  let s' := example_cycle_after (50000 * SECS) in
  renewal_cycle (example_cycle (50000 * SECS)) = Some s' /\
  committed (cs_manager s') (cs_db s').
Proof.
  cbv zeta.
  assert (Hr : renewal_cycle (example_cycle (50000 * SECS))
    = Some (example_cycle_after (50000 * SECS))) by (vm_compute; reflexivity).
  split; [exact Hr|].
  exact (proj1 (renewal_cycle_sound _ _ Hr (example_committed (50000 * SECS)))).
Defined.
