(* ===== verification/StarCoverage.v ===== *)
(** * STAR: an order under renewal is always covered

    While renewal cycles run often enough and the CA issues, an order's
    current certificate is always valid until the order ends.  The bounds:
    [gap] between the starts of two cycles, [span] for one cycle; the
    pre-renewal window must be at least their sum. *)
From S2P Require Import Prelude Words Text StarManager StarRenewal StarSpec.
Open Scope Z_scope.

Section Coverage.
Context {W Ca CaCfg Key R : Type} `{!RenewalEnv W Ca CaCfg Key R}.
Implicit Types (s : CycleState W) (p : EnrollmentProfile R).

(** The clock does not go back. *)
Record monotone_clock : Prop := {
  mono_checked w ca d : clock w <= clock (record_checked w ca d).1;
  mono_key w cfg : clock w <= clock (resolve_signing_key w cfg).1;
  mono_checks w csr p (ca : Ca) (key : Key) : clock w <= clock (issue_checks w csr p ca key).1;
  mono_sign w csr p (ca : Ca) (key : Key) nb na : clock w <= clock (sign w csr p ca key nb na).1;
  mono_commit w o c i n : clock w <= clock (commit_renewal w o c i n).1
}.
Hypothesis Hmono : monotone_clock.

Lemma issue_certificate_clock w csr p (ca : Ca) (key : Key) :
  clock w <= clock (issue_certificate w csr p ca key).1.
Proof.
  unfold issue_certificate. pose proof (mono_checks Hmono w csr p ca key) as H1.
  destruct (issue_checks w csr p ca key) as [w1 [e|]]; cbn [fst] in *; [done|].
  destruct (validity_end _ _ _) as [na|e|]; cbn [fst]; [|done|done].
  pose proof (mono_sign Hmono w1 csr p ca key (clock w1) na) as H2.
  destruct (sign _ _ _ _ _ _ _) as [w2 [[sn der]|e]]; cbn [fst] in *; lia.
Qed.

Lemma publish_clock s id o (ca : Ca) p r :
  clock (cs_env s) <= clock (cs_env (publish s id o ca p r).1).
Proof.
  unfold publish. destruct (issuer_dn ca) as [issuer|]; [|done]. unfold persist_renewal.
  destruct (cs_db s !! order_id o) as [[n st]|]; [|done].
  destruct st; try done. destruct (n =? current_renewals o); [|done].
  pose proof (mono_commit Hmono (cs_env s) o (renewed_certificate o id r) issuer (profile_name p))
    as H1. destruct (commit_renewal _ _ _ _ _) as [w [e|]]; [done|].
  by destruct (store_renewed_certificate _ _ _) as [m [[]|e|]].
Qed.

Lemma renew_one_clock s id s' r : renew_one s id = Some (s', r) ->
  clock (cs_env s) <= clock (cs_env s').
Proof.
  unfold renew_one. destruct (get_order (cs_manager s) id) as [o|]; [|by intros [= <- <-]].
  case_match; [by intros [= <- <-]|].
  destruct (cas_get (order_ca_id o)) as [ca|]; [|by intros [= <- <-]].
  destruct (parse_profile (order_profile o)) as [p|]; [|by intros [= <- <-]]. cbv zeta.
  pose proof (mono_checked Hmono (cs_env s) (order_ca_id o) ("STAR renewal for " +:+ id)) as H1.
  destruct (record_checked _ _ _) as [w [e|]]; cbn [fst] in H1; [by intros [= <- <-]|].
  destruct (find_ca_config _) as [cfg|]; [|by intros [= <- <-]].
  pose proof (mono_key Hmono w cfg) as H2.
  destruct (resolve_signing_key _ _) as [w1 [key|e]]; cbn [fst] in H2;
    [|intros [= <- <-]; cbn; lia].
  pose proof (issue_certificate_clock w1 (order_csr_der o) (renewal_profile p o) ca key) as H3.
  destruct (issue_certificate _ _ _ _ _) as [w2 [ir|e|]]; cbn [fst] in H3; [| |done].
  - intros [= E]. pose proof (publish_clock (set_env s w2) id o ca (renewal_profile p o) ir) as H4.
    rewrite E in H4. cbn in H4. lia.
  - intros [= <- <-]. cbn. lia.
Qed.

Lemma renew_all_clock ids s s' : renew_all s ids = Some s' ->
  clock (cs_env s) <= clock (cs_env s').
Proof.
  revert s. induction ids as [|id ids IH]; cbn [renew_all]; intros s.
  - by intros [= <-].
  - destruct (renew_one s id) as [[s1 r]|] eqn:E; [|done]. intros Hr.
    apply renew_one_clock in E. specialize (IH _ Hr). lia.
Qed.

Lemma renew_all_other ids s s' i : renew_all s ids = Some s' -> i ∉ ids ->
  committed (cs_manager s) (cs_db s) ->
  orders (cs_manager s') !! i = orders (cs_manager s) !! i.
Proof.
  revert s. induction ids as [|id ids IH]; cbn [renew_all]; intros s.
  - by intros [= <-].
  - destruct (renew_one s id) as [[s1 r]|] eqn:E; [|done].
    intros Hr [Hne Hi]%not_elem_of_cons Hc.
    rewrite (IH s1 Hr Hi); [|by eapply renew_one_committed].
    by eapply renew_one_other.
Qed.

Lemma renew_all_app l1 l2 s s' : renew_all s (l1 ++ l2) = Some s' ->
  exists s1, renew_all s l1 = Some s1 /\ renew_all s1 l2 = Some s'.
Proof.
  revert s. induction l1 as [|id l1 IH]; cbn [renew_all app]; intros s; [by eexists|].
  destruct (renew_one s id) as [[s1 r]|]; [|done]. apply IH.
Qed.

(** ** The order and what its CA can do *)

Record Terms : Type := MkTerms {
  t_ca : string;
  t_profile : string;
  t_csr : bytes;
  t_secs : Z;
  t_end : Z
}.

Definition has_terms (T : Terms) (o : StarOrder) : Prop :=
  order_ca_id o = t_ca T /\ order_profile o = t_profile T /\ order_csr_der o = t_csr T /\
  renewal_interval o = t_secs T * SECS /\ lifetime_end o = t_end T.

(** From the time [start] on, nothing stands in the way of renewals: the CA
    and its profile exist and allow the interval, the CA outlives the order,
    and the audit log, the key, the signature and the database work. *)
Definition issuable (T : Terms) (start : Z) : Prop :=
  exists ca p cfg nb na issuer,
    cas_get (t_ca T) = Some ca /\ parse_profile (t_profile T) = Some p /\
    t_secs T * SECS <= max_validity_days p * DAY /\
    find_ca_config (t_ca T) = Some cfg /\ issuer_dn ca = Some issuer /\
    ca_validity ca = Some (nb, na) /\ nb <= start /\ t_end T <= na /\
    0 < t_secs T <= (2 ^ 63 - 1) / 1000 /\ t_end T + t_secs T * SECS <= max_utc /\
    (forall w d, (record_checked w (t_ca T) d).2 = None) /\
    (forall w, exists key, (resolve_signing_key w cfg).2 = inl key) /\
    (forall w q key, (issue_checks w (t_csr T) q ca key).2 = None) /\
    (forall w q key b e, exists c, (sign w (t_csr T) q ca key b e).2 = inl c) /\
    (forall w o c i n, (commit_renewal w o c i n).2 = None).

Lemma issuable_later T start start' : start <= start' -> issuable T start -> issuable T start'.
Proof.
  intros Hs (ca & p & cfg & nb & na & issuer & ?). exists ca, p, cfg, nb, na, issuer.
  naive_solver lia.
Qed.

Lemma validity_end_renewal now p o (ca : Ca) nb na secs :
  renewal_interval o = secs * SECS -> secs * SECS <= max_validity_days p * DAY ->
  0 < secs <= (2 ^ 63 - 1) / 1000 -> lifetime_end o + secs * SECS <= max_utc ->
  ca_validity ca = Some (nb, na) -> nb <= now -> lifetime_end o <= na ->
  validity_end now (renewal_profile p o) ca = Ok (Z.min (now + secs * SECS) (lifetime_end o))
  \/ lifetime_end o <= now.
Proof.
  intros Hi Hd Hs Hu Hv Hnb Hna. destruct (Z.le_gt_cases (lifetime_end o) now); [by right|].
  left. unfold validity_end, renewal_profile.
  cbn [max_validity_days max_validity_seconds max_not_after]. cbv zeta.
  rewrite Hi, Z.div_mul by (unfold SECS; lia). rewrite Hv.
  destruct (Z.leb_spec (2 ^ 63) secs); [exfalso; Z.div_mod_to_equations; lia|].
  destruct (Z.ltb_spec ((2 ^ 63 - 1) / 1000) secs); [lia|].
  destruct (Z.ltb_spec max_utc (now + secs * SECS)); [lia|]. cbn [obind].
  destruct (Z.ltb_spec now nb); [lia|]. destruct (Z.ltb_spec na now); [lia|]. cbn [orb].
  assert (0 < secs * SECS) by (unfold SECS; lia).
  destruct (Z.leb_spec (Z.min (Z.min (Z.min (now + max_validity_days p * DAY) (now + secs * SECS))
    (lifetime_end o)) na) now); [lia|]. f_equal. lia.
Qed.

Lemma validity_end_no_panic now p o (ca : Ca) secs :
  renewal_interval o = secs * SECS -> secs <= (2 ^ 63 - 1) / 1000 ->
  validity_end now (renewal_profile p o) ca <> Panic.
Proof.
  intros Hi Hs. unfold validity_end, renewal_profile.
  cbn [max_validity_days max_validity_seconds max_not_after]. cbv zeta.
  rewrite Hi, Z.div_mul by (unfold SECS; lia).
  destruct (2 ^ 63 <=? secs); [done|].
  destruct (Z.ltb_spec ((2 ^ 63 - 1) / 1000) secs); [lia|].
  destruct (max_utc <? now + secs * SECS); [done|]. cbn [obind]. by repeat case_match.
Qed.

(** A renewal that can be made is made. *)
Lemma renew_one_succeeds T s id o :
  issuable T (clock (cs_env s)) -> orders (cs_manager s) !! id = Some o -> status o = Active ->
  has_terms T o -> cs_db s !! order_id o = Some (current_renewals o, Active) ->
  exists s' r, renew_one s id = Some (s', r) /\
    (t_end T <= clock (cs_env s') \/
     exists cert now, clock (cs_env s) <= now /\
       not_after cert = Z.min (now + t_secs T * SECS) (t_end T) /\
       orders (cs_manager s') = orders (store_renewed_certificate (cs_manager s) id cert).1).
Proof.
  intros (ca & p & cfg & nb & na & issuer & Hca & Hp & Hd & Hcfg & His & Hv & Hnb & Hna & Hs & Hu
          & Haud & Hkey & Hchk & Hsign & Hcom) Ho Ha (Tca & Tp & Tcsr & Ti & Te) Hdb.
  unfold renew_one, get_order. rewrite Ho, Ha, bool_decide_true by done. cbn [negb].
  rewrite Tca, Tp, Tcsr, Hca, Hp. cbv zeta.
  specialize (Haud (cs_env s) ("STAR renewal for " +:+ id)).
  pose proof (mono_checked Hmono (cs_env s) (t_ca T) ("STAR renewal for " +:+ id)) as M1.
  destruct (record_checked _ _ _) as [w a]; cbn [fst snd] in *; subst a. rewrite Hcfg.
  destruct (Hkey w) as [key Hk]. pose proof (mono_key Hmono w cfg) as M2.
  destruct (resolve_signing_key w cfg) as [w1 k]; cbn [fst snd] in *; subst k.
  unfold issue_certificate. specialize (Hchk w1 (renewal_profile p o) key).
  pose proof (mono_checks Hmono w1 (t_csr T) (renewal_profile p o) ca key) as M3.
  destruct (issue_checks _ _ _ _ _) as [w2 c]; cbn [fst snd] in *; subst c.
  pose proof (validity_end_no_panic (clock w2) p o ca (t_secs T) Ti ltac:(lia)) as Hnp.
  pose proof (validity_end_renewal (clock w2) p o ca nb na (t_secs T) Ti Hd Hs) as Hvr.
  rewrite Te in Hvr. specialize (Hvr Hu Hv ltac:(lia) Hna).
  destruct (validity_end (clock w2) (renewal_profile p o) ca) as [e|err|] eqn:Ev; [| |done].
  2: { do 2 eexists. split; [done|]. left. cbn. destruct Hvr as [E|E]; [done|exact E]. }
  destruct (Hsign w2 (renewal_profile p o) key (clock w2) e) as [[sn der] Hsg].
  pose proof (mono_sign Hmono w2 (t_csr T) (renewal_profile p o) ca key (clock w2) e) as M4.
  destruct (sign _ _ _ _ _ _ _) as [w3 sg]; cbn [fst snd] in *; subst sg.
  unfold publish. rewrite His. unfold persist_renewal. cbn [cs_db cs_env cs_manager set_env].
  rewrite Hdb, Z.eqb_refl. set (cert := renewed_certificate o id _).
  specialize (Hcom w3 o cert issuer (profile_name (renewal_profile p o))).
  destruct (commit_renewal _ _ _ _ _) as [w4 c]; cbn [snd] in Hcom; subst c.
  pose proof (store_active (cs_manager s) id cert o Ho Ha) as Hst.
  unfold store_renewed_certificate in *. rewrite Ho, Ha in *. cbn [fst] in Hst.
  do 2 eexists. split; [done|]. right. exists cert, (clock w2).
  split; [lia|]. split; [|done]. unfold cert, renewed_certificate. cbn [not_after issued_not_after].
  destruct Hvr as [[= ->]|E]; [done|].
  apply validity_end_bounds in Ev as (Hlt & _ & _ & Hlim). specialize (Hlim _ eq_refl).
  rewrite Te in Hlim. lia.
Qed.

(** ** Coverage *)

Variables (T : Terms) (id : string) (gap span : Z).

(** The order has a certificate that lasts to its end, or past the end of
    the next cycle. *)
Definition covered s (last : Z) : Prop :=
  exists o c, orders (cs_manager s) !! id = Some o /\ has_terms T o /\
    current_certificate o = Some c /\
    (status o = Active /\ last + gap + span <= not_after c \/
     status o = Completed /\ covers_lifetime c o = true).

(** Cycles at most [gap] apart and at most [span] long.  Between two cycles
    other operations may come, which leave this order and the
    configuration alone. *)
Inductive cycles : CycleState W -> Z -> CycleState W -> Z -> Prop :=
  | cycles_done s last : cycles s last s last
  | cycles_next s last s0 s1 s' last' :
      orders (cs_manager s0) !! id = orders (cs_manager s) !! id ->
      star_config (cs_manager s0) = star_config (cs_manager s) ->
      committed (cs_manager s0) (cs_db s0) ->
      clock (cs_env s) <= clock (cs_env s0) <= last + gap ->
      renewal_cycle s0 = Some s1 ->
      clock (cs_env s1) <= clock (cs_env s0) + span ->
      cycles s1 (clock (cs_env s0)) s' last' ->
      cycles s last s' last'.

Lemma renew_all_config ids s s' : renew_all s ids = Some s' ->
  star_config (cs_manager s') = star_config (cs_manager s).
Proof.
  revert s. induction ids as [|i l IH]; cbn [renew_all]; intros s; [by intros [= <-]|].
  destruct (renew_one s i) as [[s1 r]|] eqn:E; [|done]. intros Hr. rewrite (IH s1 Hr).
  apply renew_one_cases in E as [(-> & _)|(o & cert & _ & _ & _ & _ & -> & _)]; [done|].
  apply store_config.
Qed.

Lemma renewal_cycle_config s s' : renewal_cycle s = Some s' ->
  star_config (cs_manager s') = star_config (cs_manager s).
Proof. intros Hr. rewrite (renew_all_config _ _ _ Hr). apply cleanup_config. Qed.

Lemma renewal_cycle_clock s s' : renewal_cycle s = Some s' ->
  clock (cs_env s) <= clock (cs_env s').
Proof. apply (renew_all_clock _ (MkCycle _ _ _)). Qed.

(** The window before expiry in which a certificate is renewed. *)
Definition window_secs (c : StarConfig) : Z :=
  f64_as_i64 (f64_mul (f64_of_Z (t_secs T)) (pre_renewal_factor c)).

Lemma pre_renewal_secs_terms c o : has_terms T o -> pre_renewal_secs c o = window_secs c.
Proof.
  intros (_ & _ & _ & Hi & _). unfold pre_renewal_secs, window_secs.
  by rewrite Hi, Z.div_mul by (unfold SECS; lia).
Qed.

Lemma renew_all_renews ids s s' o : NoDup ids -> id ∈ ids ->
  renew_all s ids = Some s' -> committed (cs_manager s) (cs_db s) ->
  issuable T (clock (cs_env s)) -> orders (cs_manager s) !! id = Some o -> status o = Active ->
  has_terms T o ->
  t_end T <= clock (cs_env s') \/
  exists cert now, clock (cs_env s) <= now /\
    not_after cert = Z.min (now + t_secs T * SECS) (t_end T) /\
    orders (cs_manager s') !! id = Some
      (if covers_lifetime cert o then with_status (with_certificate o cert) Completed
       else with_certificate o cert).
Proof.
  intros Hnd Hin Hr Hc His Ho Ha HT.
  apply list_elem_of_split in Hin as (l1 & l2 & ->).
  apply NoDup_app in Hnd as (_ & Hl1 & [Hl2 _]%NoDup_cons).
  assert (Hn1 : id ∉ l1) by (intros Hin; apply (Hl1 id Hin); by left).
  apply renew_all_app in Hr as (s1 & Hr1 & Hr2). cbn [renew_all] in Hr2.
  pose proof (renew_all_other _ _ _ _ Hr1 Hn1 Hc) as Ho1. rewrite Ho in Ho1.
  pose proof (renew_all_clock _ _ _ Hr1) as Hk1.
  assert (Hc1 : committed (cs_manager s1) (cs_db s1)).
  { clear -Hr1 Hc RenewalEnv0. revert s Hr1 Hc. induction l1 as [|i l IH]; cbn [renew_all];
      intros s; [by intros [= <-]|].
    destruct (renew_one s i) as [[s2 r]|] eqn:E; [|done]. intros Hr Hc. apply (IH s2 Hr).
    by eapply renew_one_committed. }
  destruct (Hc1 id o Ho1) as (Hid & st & Hdb & Hst).
  assert (st = Active) as -> by (destruct Hst as [->|[? _]]; congruence). rewrite <- Hid in Hdb.
  destruct (renew_one_succeeds T s1 id o) as (s2 & r & E & Hor); try done.
  { by apply (issuable_later T (clock (cs_env s))). }
  rewrite E in Hr2. pose proof (renew_all_clock _ _ _ Hr2) as Hk2.
  destruct Hor as [Hend|(cert & now & Hnow & Hna & Hos)]; [left; lia|]. right.
  exists cert, now. split_and!; [lia|done|].
  rewrite (renew_all_other _ _ _ _ Hr2 Hl2) by (by eapply renew_one_committed).
  rewrite Hos, (store_active _ _ _ o Ho1 Ha). by rewrite lookup_insert_eq.
Qed.

Lemma cycle_covered s s' last :
  issuable T (clock (cs_env s)) -> committed (cs_manager s) (cs_db s) ->
  gap + span <= window_secs (star_config (cs_manager s)) * SECS ->
  gap + span <= t_secs T * SECS -> 0 <= gap -> 0 <= span ->
  covered s last -> last <= clock (cs_env s) <= last + gap -> renewal_cycle s = Some s' ->
  t_end T <= clock (cs_env s') \/ covered s' (clock (cs_env s)).
Proof.
  intros His Hc Hw Hi Hg0 Hs0 (o & c & Ho & HT & Hcur & Hst) Hlast Hr.
  pose proof (renewal_cycle_clock _ _ Hr) as Hk. unfold renewal_cycle in Hr. cbv zeta in Hr.
  set (now := clock (cs_env s)) in *. pose proof (committed_filed _ _ Hc) as Hf.
  destruct (Z.le_gt_cases (t_end T) now) as [Hend|Hend]; [left; lia|].
  assert (Hle : now < lifetime_end o) by (destruct HT as (_ & _ & _ & _ & ->); lia).
  assert (Ho1 : orders (cleanup_expired (cs_manager s) now).1 !! id = Some o)
    by (by apply star_cleanup_lookup).
  pose proof (cleanup_committed _ _ now Hc) as Hc1. pose proof (cleanup_filed _ now Hf) as Hf1.
  destruct (decide (id ∈ orders_needing_renewal_at (cleanup_expired (cs_manager s) now).1 now))
    as [Hin|Hin].
  - pose proof Hin as Hin'. apply needing_elem in Hin' as (o2 & Ho2 & Ha & _); [|done].
    rewrite Ho1 in Ho2. injection Ho2 as <-.
    destruct (renew_all_renews _ _ _ o (needing_NoDup _ now Hf1) Hin Hr Hc1 His Ho1 Ha HT)
      as [?|(cert & t & Ht & Hna & Ho')]; [by left|]. right.
    change (clock (cs_env (MkCycle _ _ (cs_env s)))) with now in Ht.
    eexists _, cert. split; [exact Ho'|].
    destruct HT as (T1 & T2 & T3 & T4 & T5).
    destruct (covers_lifetime cert o) eqn:Ecov; cbn;
      (split; [by split_and!|]); (split; [done|]).
    + right. split; [done|]. exact Ecov.
    + left. split; [done|]. rewrite Hna. unfold covers_lifetime in Ecov.
      apply Z.leb_gt in Ecov. rewrite Hna, T5 in Ecov.
      destruct (Z.le_gt_cases (t_end T) (t + t_secs T * SECS)); [|lia].
      rewrite Z.min_r in Ecov by done. lia.
  - right. exists o, c. rewrite (renew_all_other _ _ _ _ Hr Hin Hc1). cbn [cs_manager].
    split_and!; [done|done|done|]. destruct Hst as [[Ha Hna]|Hst]; [|by right].
    left. split; [done|]. rewrite needing_elem in Hin by done.
    assert (Hsr : should_renew (star_config (cleanup_expired (cs_manager s) now).1) o now = false).
    { apply not_true_is_false. intros E. apply Hin. by exists o. }
    unfold should_renew in Hsr. rewrite Hcur, cleanup_config in Hsr. apply Z.leb_gt in Hsr.
    rewrite pre_renewal_secs_terms in Hsr by done. lia.
Qed.

Lemma cycles_covered s last s' last' :
  cycles s last s' last' ->
  issuable T last -> committed (cs_manager s) (cs_db s) ->
  gap + span <= window_secs (star_config (cs_manager s)) * SECS ->
  gap + span <= t_secs T * SECS -> 0 <= gap -> 0 <= span -> last <= clock (cs_env s) ->
  t_end T <= clock (cs_env s) \/ covered s last ->
  t_end T <= clock (cs_env s') \/ covered s' last'.
Proof.
  intros Hrun. induction Hrun as [|s last s0 s1 s' last' Ho Hcfg Hc Hk Hr Hsp Hrun IH];
    intros His Hcs Hw Hi Hg0 Hs0 Hl Hcov; [done|].
  pose proof (renewal_cycle_clock _ _ Hr) as Hk1.
  apply IH; try done.
  - apply (issuable_later T last); [lia|done].
  - by eapply renewal_cycle_committed.
  - by rewrite (renewal_cycle_config _ _ Hr), Hcfg.
  - destruct Hcov as [Hend|Hcov]; [left; lia|].
    apply (cycle_covered s0 s1 last); try done.
    + apply (issuable_later T last); [lia|done].
    + by rewrite Hcfg.
    + destruct Hcov as (o & c & Hso & Hrest). exists o, c. by rewrite Ho.
    + lia.
Qed.

(** C13: Continuous coverage: take an order with a certificate that lasts past
    the next cycle, whose CA can issue, and renewal cycles that start at most
    [gap] apart and take at most [span], where the pre-renewal window and the
    renewal interval are at least [gap + span].  Then, until the last second
    of the order's lifetime, the certificate served for it is always valid:
    from the end of each cycle to the latest end of the next one. *)
Theorem star_continuous_coverage s last s' last' t :
  cycles s last s' last' ->
  issuable T last -> committed (cs_manager s) (cs_db s) ->
  gap + span <= window_secs (star_config (cs_manager s)) * SECS ->
  gap + span <= t_secs T * SECS -> 0 <= gap -> 0 <= span -> last <= clock (cs_env s) ->
  covered s last ->
  clock (cs_env s') <= t < last' + gap + span -> timestamp t < timestamp (t_end T) ->
  exists cert, get_current_certificate (cs_manager s') id t = Ok cert /\ t < not_after cert.
Proof.
  intros Hrun His Hc Hw Hi Hg0 Hs0 Hl Hcov Ht Hend.
  assert (Hte : t < t_end T).
  { unfold timestamp in Hend. destruct (Z.le_gt_cases (t_end T) t) as [E|]; [|done].
    pose proof (Z.div_le_mono (t_end T) t SECS). unfold SECS in *. lia. }
  destruct (cycles_covered _ _ _ _ Hrun His Hc Hw Hi Hg0 Hs0 Hl (or_intror Hcov))
    as [?|(o & c & Ho & HT & Hcur & Hst)]; [lia|].
  exists c. unfold get_current_certificate. rewrite Ho. cbn [ok_or obind].
  destruct HT as (_ & _ & _ & _ & Te). rewrite Te.
  destruct (Z.leb_spec (t_end T) t); [lia|]. rewrite Hcur.
  destruct Hst as [[-> Hna]|[-> Hcv]]; (split; [done|]); [lia|].
  unfold covers_lifetime in Hcv. apply Z.leb_le in Hcv. rewrite Te in Hcv.
  unfold timestamp in *. destruct (Z.le_gt_cases (not_after c) t) as [E|]; [|done].
  pose proof (Z.div_le_mono (not_after c) t SECS). unfold SECS in *. lia.
Qed.
End Coverage.

(** ** The theorem at a concrete run: a cycle that renews *)

Definition example_terms : Terms := MkTerms "default" "{}" [48] 86400 (2 * DAY).

Lemma example_monotone : monotone_clock (W := Z) (Ca := unit) (CaCfg := unit) (Key := unit) (R := unit).
Proof. constructor; intros; cbn; unfold SECS; lia. Qed.

Lemma star_continuous_coverage_witness :
  exists cert, get_current_certificate
      (cs_manager (example_cycle_after (43220 * SECS))) "a" (43230 * SECS) = Ok cert /\
    43230 * SECS < not_after cert.
Proof.
  apply (star_continuous_coverage example_monotone example_terms "a" (60 * SECS) (10 * SECS)
    (example_cycle (43180 * SECS)) (43180 * SECS)
    (example_cycle_after (43220 * SECS)) (43220 * SECS)).
  - apply (cycles_next _ _ _ _ _ (example_cycle (43220 * SECS))
             (example_cycle_after (43220 * SECS))).
    + reflexivity.
    + reflexivity.
    + apply example_committed.
    + vm_compute. split; discriminate.
    + vm_compute. reflexivity.
    + vm_compute. discriminate.
    + apply cycles_done.
  - exists tt, (MkProfile "default" 30 None None tt), tt, 0, (3650 * DAY), "CN=CA".
    split_and!; try reflexivity; try (vm_compute; discriminate); try done.
    + intros w. by exists tt.
    + intros. by eexists.
  - apply example_committed.
  - vm_compute. discriminate.
  - vm_compute. discriminate.
  - vm_compute. discriminate.
  - vm_compute. discriminate.
  - vm_compute. discriminate.
  - exists example_order, (MkStarCert [48] "01" 0 (86400 * SECS) 1 "a").
    split; [reflexivity|]. split; [by split_and!|]. split; [reflexivity|].
    left. split; [reflexivity|]. vm_compute. discriminate.
  - vm_compute. split; [discriminate|reflexivity].
  - vm_compute. reflexivity.
Defined.
