(* ===== verification/Transfer.v ===== *)
(** * Certificates in a PKCS#7 structure

    [build_certs_only_pkcs7] of [src/routes/cacerts.rs]: the degenerate
    SignedData that responses carry certificates in. *)
From S2P Require Import Prelude Words Text Errors X509 Der ExampleLibs.
Open Scope Z_scope.

(** The two content types, constants of the X.509 library. *)
Class CmsOids : Type := { CMS_SIGNED_DATA : oid; CMS_DATA : oid }.

Section Pkcs7.
Context `{CmsOids} `{Encoder}.

Definition ca_err {T} (context : string) (r : T + string) : outcome T KipukaError :=
  of_lib (fun e => ECa (context +:+ e)) r.

Definition context0 : Tag := context_specific_constructed 0.

Definition build_certs_only_pkcs7 (certs_der : list bytes) : outcome bytes KipukaError :=
  if bool_decide (certs_der = []) then Err (ECa "No certificates provided for PKCS#7")
  else
    let? oid_signed_data := ca_err "id-signedData OID: " (object_id CMS_SIGNED_DATA) in
    let? oid_data := ca_err "id-data OID: " (object_id CMS_DATA) in
    let? enc := ca_err "ContentInfo SEQUENCE: " (start_constructed seq_tag encoder_new) in
    let? enc := ca_err "contentType OID: " (encode_oid oid_signed_data enc) in
    let? enc := ca_err "[0] EXPLICIT: " (start_constructed context0 enc) in
    let? enc := ca_err "SignedData SEQUENCE: " (start_constructed seq_tag enc) in
    let? enc := ca_err "version INTEGER: " (encode_integer 1 enc) in
    let? enc := ca_err "digestAlgorithms SET: " (start_constructed set_tag enc) in
    let? enc := ca_err "digestAlgorithms end: " (end_constructed enc) in
    let? enc := ca_err "encapContentInfo SEQUENCE: " (start_constructed seq_tag enc) in
    let? enc := ca_err "id-data OID: " (encode_oid oid_data enc) in
    let? enc := ca_err "encapContentInfo end: " (end_constructed enc) in
    let? enc := ca_err "certificates [0]: " (start_constructed context0 enc) in
    let enc := fold_left (fun enc cert => write_bytes cert enc) certs_der enc in
    let? enc := ca_err "certificates end: " (end_constructed enc) in
    let? enc := ca_err "signerInfos SET: " (start_constructed set_tag enc) in
    let? enc := ca_err "signerInfos end: " (end_constructed enc) in
    let? enc := ca_err "SignedData end: " (end_constructed enc) in
    let? enc := ca_err "[0] end: " (end_constructed enc) in
    let? enc := ca_err "ContentInfo end: " (end_constructed enc) in
    ca_err "PKCS#7 DER finish: " (finish enc).

(** ** Errors are the server's *)

Definition only_ca {T} (r : outcome T KipukaError) : Prop :=
  match r with Ok _ => True | Err e => exists s, e = ECa s | Panic => False end.

Lemma only_ca_err {T} context (r : T + string) : only_ca (ca_err context r).
Proof. destruct r; simpl; [done|by eexists]. Qed.

Lemma only_ca_bind {T U} (r : outcome T KipukaError) (k : T -> outcome U KipukaError) :
  only_ca r -> (forall t, only_ca (k t)) -> only_ca (obind r k).
Proof. by destruct r; simpl. Qed.

Lemma build_certs_only_pkcs7_errors certs : only_ca (build_certs_only_pkcs7 certs).
Proof.
  unfold build_certs_only_pkcs7. case_bool_decide; [by eexists|].
  repeat (apply only_ca_bind; [apply only_ca_err|intros ?]). apply only_ca_err.
Qed.

(** ** The structure *)

Definition signed_data_tree (signed_data data : ObjectId) (certs_der : list bytes) : Der :=
  Node seq_tag
    [OidValue signed_data;
     Node context0
       [Node seq_tag
          [IntegerValue 1; Node set_tag []; Node seq_tag [OidValue data];
           Node context0 (map RawValue certs_der); Node set_tag []]]].

Context `{!EncoderLaws}.

Lemma view_write_certs certs enc v :
  view enc = v ->
  view (fold_left (fun enc cert => write_bytes cert enc) certs enc) = view_write (concat certs) v.
Proof.
  revert enc v. induction certs as [|c certs IH]; intros enc v Hv; simpl.
  - by rewrite view_write_nil.
  - rewrite (IH _ (view_write c v)); [by rewrite view_write_app|]. by rewrite bytes_ok, Hv.
Qed.

Lemma ders_raw certs : ders (map RawValue certs) = concat certs.
Proof. induction certs as [|c certs IH]; [done|]. cbn [map]. rewrite ders_cons, IH. done. Qed.

(** What is built, given that the identifiers of the library are ones. *)
Lemma build_certs_only_pkcs7_spec certs signed_data data :
  object_id CMS_SIGNED_DATA = inl signed_data -> object_id CMS_DATA = inl data -> certs <> [] ->
  build_certs_only_pkcs7 certs = Ok (der (signed_data_tree signed_data data certs)).
Proof.
  intros Es Ed Hne. unfold build_certs_only_pkcs7, ca_err. rewrite bool_decide_eq_false_2 by done.
  rewrite Es, Ed. cbn [of_lib obind]. pose proof view_new. der_run.
  der_apply (view_write_certs certs) Hn. rewrite view_write_open in Hn. clear Hv.
  generalize dependent (fold_left (fun enc cert => write_bytes cert enc) certs). intros f Hn.
  der_run. f_equal. unfold signed_data_tree. rewrite der_Node. f_equal. der_eq. by rewrite ders_raw.
Qed.
End Pkcs7.

(** * Bodies and content types of EST over HTTP

    [src/routes/est.rs]: the content type a path requires, and the base64
    transfer encoding of bodies.  The base64 codec itself is a parameter. *)

Open Scope Z_scope.

Definition PKCS10 : string := "application/pkcs10".
Definition PKCS7_CERTS : string := "application/pkcs7-mime; smime-type=certs-only".
Definition TRANSFER_ENCODING_BASE64 : string := "base64".

(** [str::ends_with] *)
Definition ends_with (suf s : string) : bool :=
  match strip_suffix suf s with Some _ => true | None => false end.

(** What a POST to [path] must send. *)
Definition expected_content_type (path : string) : option string :=
  if contains_str "/cms/" path then Some "application/pkcs7-mime"
  else if ends_with "/simpleenroll" path || ends_with "/simplereenroll" path
    || ends_with "/serverkeygen" path then Some PKCS10
  else if ends_with "/fullcmc" path then Some "application/pkcs7-mime"
  else None.

(** [enforce_est_content_type]: the refusal, or [None] to go on.  A missing
    or non-text header counts as empty. *)
Definition enforce_est_content_type (method path : string) (content_type : option string)
  : option Response :=
  if negb (String.eqb method "POST") && negb (String.eqb method "PUT") then None
  else
    match expected_content_type path with
    | Some expected =>
        if negb (starts_with expected (default EmptyString content_type)) then
          Some (MkResponse 415 {["content-type" := "text/plain; charset=utf-8"]}
                  (bytes_of_string ("Content-Type must be " +:+ expected)))
        else None
    | None => None
    end.

(** [u8::is_ascii_whitespace] *)
Definition is_ascii_whitespace (b : Z) : bool :=
  (b =? 32) || (b =? 9) || (b =? 10) || (b =? 12) || (b =? 13).

Section Base64.
Variable b64_encode : bytes -> bytes.
Variable b64_decode : bytes -> bytes + string.

Definition decode_est_base64 (body : bytes) : outcome bytes string :=
  match b64_decode (List.filter (fun b => negb (is_ascii_whitespace b)) body) with
  | inl der => Ok der
  | inr e => Err ("invalid base64 encoding: " +:+ e)
  end.

(** The characters from index [i] on, with a line break before each
    multiple of 76. *)
Fixpoint wrap_from (i : Z) (encoded : bytes) : bytes :=
  match encoded with
  | [] => []
  | ch :: rest =>
      (if (0 <? i) && (i mod 76 =? 0) then [13; 10; ch] else [ch]) ++ wrap_from (i + 1) rest
  end.

Definition encode_est_base64 (der : bytes) : bytes := wrap_from 0 (b64_encode der).

(** ** Round trip *)

Lemma filter_wrap i encoded :
  Forall (fun b => is_ascii_whitespace b = false) encoded ->
  List.filter (fun b => negb (is_ascii_whitespace b)) (wrap_from i encoded) = encoded.
Proof.
  intros Hw. revert i. induction Hw as [|ch rest Hc _ IH]; intros i; simpl; [done|].
  rewrite List.filter_app, IH. by case_match; simpl; rewrite Hc.
Qed.

(** A body that was encoded for a response is decoded by a request. *)
Lemma est_base64_round_trip der :
  (forall d, b64_decode (b64_encode d) = inl d) ->
  (forall d, Forall (fun b => is_ascii_whitespace b = false) (b64_encode d)) ->
  decode_est_base64 (encode_est_base64 der) = Ok der.
Proof.
  intros Hrt Hclean. unfold decode_est_base64, encode_est_base64.
  by rewrite filter_wrap, Hrt.
Qed.

(** Lines are at most 76 characters long: between two breaks. *)
Lemma wrap_from_app i l1 l2 :
  wrap_from i (l1 ++ l2) = wrap_from i l1 ++ wrap_from (i + Z.of_nat (length l1)) l2.
Proof.
  revert i. induction l1 as [|c l1 IH]; intros i; cbn [app wrap_from length].
  - by rewrite Z.add_0_r.
  - rewrite IH, <- app_assoc. do 3 f_equal. lia.
Qed.
End Base64.
