(* ===== verification/DogtagPool.v ===== *)
(** * The pool of Dogtag clients

    [crates/kipuka-dogtag/src/pool.rs]: which backend a request goes to,
    and what a round of health checks does to each.  A client is named by
    its URL; a probe's answer and the clock are arguments.  A round looks at
    a snapshot and then updates one entry at a time under the lock, so its
    updates are separate steps. *)
From S2P Require Import Prelude Words Text.
Open Scope Z_scope.

Inductive BackendHealth : Type := Healthy | Unhealthy | Unknown.
#[export] Instance BackendHealth_eq_dec : EqDecision BackendHealth.
Proof. solve_decision. Defined.

Record PoolEntry : Type := MkEntry {
  client : string;
  health : BackendHealth;
  last_healthy : option Z;
  consecutive_failures : Z   (* u32 *)
}.

Record DogtagPool : Type := MkDogtagPool {
  entries : list PoolEntry;
  failure_threshold : Z;
  cooldown : Z
}.
Definition set_entries (p : DogtagPool) (l : list PoolEntry) : DogtagPool :=
  MkDogtagPool l (failure_threshold p) (cooldown p).

(** [DogtagPool::new], for clients that could be made. *)
Definition dogtag_pool_new (clients : list string) (threshold cooldown_secs : Z)
  : outcome DogtagPool string :=
  match clients with
  | [] => Err "At least one CA backend is required"
  | _ =>
      Ok (MkDogtagPool (map (fun c => MkEntry c Unknown None 0) clients) threshold
            (cooldown_secs * SECS))
  end.

Definition NO_HEALTHY_BACKEND : string := "No healthy CA backend available".

Definition get_client (p : DogtagPool) : outcome string string :=
  match List.find (fun e => negb (bool_decide (health e = Unhealthy))) (entries p) with
  | Some e => Ok (client e)
  | None => Err NO_HEALTHY_BACKEND
  end.

(** Whether the snapshot at [now] includes an entry. *)
Definition probed (p : DogtagPool) (now : Z) (e : PoolEntry) : bool :=
  negb (bool_decide (health e = Unhealthy) &&
        match last_healthy e with Some last => elapsed now last <? cooldown p | None => false end).

(** The update of one entry; the failure count overflows in a debug build
    only, a release build wraps. *)
Definition probe_result (threshold : Z) (healthy : bool) (now : Z) (e : PoolEntry) : PoolEntry :=
  if healthy then MkEntry (client e) Healthy (Some now) 0
  else
    let n := as_u32 (consecutive_failures e + 1) in
    MkEntry (client e) (if threshold <=? n then Unhealthy else health e) (last_healthy e) n.

Definition update_entry (p : DogtagPool) (index : nat) (healthy : bool) (now : Z) : DogtagPool :=
  set_entries p (alter (probe_result (failure_threshold p) healthy now) index (entries p)).

(** The indices in the snapshot. *)
Fixpoint snapshot_from (p : DogtagPool) (now : Z) (i : nat) (l : list PoolEntry) : list nat :=
  match l with
  | [] => []
  | e :: l' => if probed p now e then i :: snapshot_from p now (S i) l'
               else snapshot_from p now (S i) l'
  end.

(** A round: [answer i] is the outcome of probing client [i] and the clock
    when its entry is updated. *)
Definition health_check_all (p : DogtagPool) (now : Z) (answer : nat -> bool * Z) : DogtagPool :=
  fold_left (fun p i => update_entry p i (answer i).1 (answer i).2)
    (snapshot_from p now 0 (entries p)) p.

Definition healthy_count (p : DogtagPool) : nat :=
  length (List.filter (fun e => bool_decide (health e = Healthy)) (entries p)).
Definition total_count (p : DogtagPool) : nat := length (entries p).

(** ** What a round does *)

Lemma snapshot_from_spec p now i l k :
  k ∈ snapshot_from p now i l <-> exists j e, k = (i + j)%nat /\ l !! j = Some e /\ probed p now e = true.
Proof.
  revert i. induction l as [|e l IH]; intros i; simpl.
  - split; [by intros ?%elem_of_nil|]. intros (j & e & _ & Hj & _). done.
  - assert (Hsplit : (exists j e', k = (i + j)%nat /\ (e :: l) !! j = Some e' /\ probed p now e' = true)
      <-> (k = i /\ probed p now e = true) \/
          exists j e', k = (S i + j)%nat /\ l !! j = Some e' /\ probed p now e' = true).
    { split.
      - intros ([|j] & e' & -> & Hj & Hp).
        + left. simpl in Hj. injection Hj as <-. split; [lia|done].
        + right. exists j, e'. split; [lia|done].
      - intros [[-> Hp]|(j & e' & -> & Hj & Hp)].
        + exists 0%nat, e. split; [lia|done].
        + exists (S j), e'. split; [lia|done]. }
    rewrite Hsplit, <- IH. destruct (probed p now e).
    + rewrite elem_of_cons. naive_solver.
    + naive_solver.
Qed.

Lemma snapshot_from_NoDup p now i l : NoDup (snapshot_from p now i l).
Proof.
  revert i. induction l as [|e l IH]; intros i; simpl; [constructor|].
  destruct (probed p now e); [|apply IH]. apply NoDup_cons. split; [|apply IH].
  intros (j & e' & Hi & _)%snapshot_from_spec. lia.
Qed.

Lemma fold_updates answer l p :
  NoDup l ->
  let p' := fold_left (fun p i => update_entry p i (answer i).1 (answer i).2) l p in
  failure_threshold p' = failure_threshold p /\ cooldown p' = cooldown p /\
  length (entries p') = length (entries p) /\
  forall k, entries p' !! k =
    if decide (k ∈ l)
    then probe_result (failure_threshold p) (answer k).1 (answer k).2 <$> entries p !! k
    else entries p !! k.
Proof.
  revert p. induction l as [|i l IH]; intros p Hn; simpl; [done|].
  apply NoDup_cons in Hn as [Hi Hn]. specialize (IH (update_entry p i (answer i).1 (answer i).2) Hn).
  destruct IH as (Ht & Hc & Hl & Hk). simpl in *. rewrite length_alter in Hl.
  split_and!; try done. intros k. rewrite Hk. destruct (decide (k = i)) as [->|Hne].
  - rewrite decide_False by done. rewrite decide_True by (by left). by rewrite list_lookup_alter_eq.
  - rewrite list_lookup_alter_ne by done.
    destruct (decide (k ∈ l)); [rewrite decide_True by (by right)|rewrite decide_False]; try done.
    rewrite elem_of_cons. tauto.
Qed.

Lemma health_check_all_spec p now answer :
  let q := health_check_all p now answer in
  failure_threshold q = failure_threshold p /\ cooldown q = cooldown p /\
  forall k, entries q !! k =
    (fun e => if probed p now e then probe_result (failure_threshold p) (answer k).1 (answer k).2 e
              else e) <$> entries p !! k.
Proof.
  destruct (fold_updates answer (snapshot_from p now 0 (entries p)) p (snapshot_from_NoDup _ _ _ _))
    as (Ht & Hc & _ & Hk).
  split; [exact Ht|]. split; [exact Hc|]. intros k. unfold health_check_all. rewrite Hk.
  destruct (decide _) as [Hin|Hin]; rewrite snapshot_from_spec in Hin.
  - destruct Hin as (j & e & -> & Hj & Hp). simpl. rewrite Hj. simpl. by rewrite Hp.
  - destruct (entries p !! k) as [e|] eqn:Ek; [|done]. simpl.
    destruct (probed p now e) eqn:Hp; [|done]. destruct Hin. by exists k, e.
Qed.

(** ** Rounds *)

Definition round : Type := Z * (nat -> bool * Z).
Definition run_rounds (p : DogtagPool) (l : list round) : DogtagPool :=
  fold_left (fun p r => health_check_all p r.1 r.2) l p.

(** The answers backend [k] gave: one for each round that probed it. *)
Fixpoint answers (k : nat) (p : DogtagPool) (l : list round) : list bool :=
  match l with
  | [] => []
  | r :: l' =>
      match entries p !! k with
      | Some e => if probed p r.1 e then [(r.2 k).1] else []
      | None => []
      end ++ answers k (health_check_all p r.1 r.2) l'
  end.
(** The failures since the last success. *)
Definition failing (l : list bool) : Z := fold_left (fun (n : Z) (b : bool) => if b then 0 else n + 1) l 0.

(** A backend with [n] failures in a row. *)
Definition after_failures (threshold n : Z) (e : PoolEntry) : Prop :=
  consecutive_failures e = n /\ (health e = Unhealthy <-> threshold <= n) /\
  (health e = Healthy -> is_Some (last_healthy e)).

Lemma probe_result_after threshold n (healthy : bool) now e :
  0 < threshold -> 0 <= n < 2 ^ 32 - 1 -> after_failures threshold n e ->
  after_failures threshold (if healthy then 0 else n + 1) (probe_result threshold healthy now e) /\
  client (probe_result threshold healthy now e) = client e.
Proof.
  intros Ht Hn (Hc & Hu & Hh). unfold probe_result, after_failures. destruct healthy; simpl.
  - split; [|done]. split_and!; [done| |by eexists]. split; [done|lia].
  - unfold as_u32. rewrite Hc, Z.mod_small by lia. split; [|done]. split; [done|].
    destruct (Z.leb_spec threshold (n + 1)); [done|]. rewrite Hu. split; [lia|done].
Qed.

Lemma run_rounds_after l p m (n : nat -> Z) :
  0 < failure_threshold p -> 0 <= m -> m + Z.of_nat (length l) < 2 ^ 32 ->
  (forall k e, entries p !! k = Some e -> 0 <= n k <= m /\ after_failures (failure_threshold p) (n k) e) ->
  let q := run_rounds p l in
  failure_threshold q = failure_threshold p /\ map client (entries q) = map client (entries p) /\
  forall k e, entries q !! k = Some e ->
    after_failures (failure_threshold p)
      (fold_left (fun (n : Z) (b : bool) => if b then 0 else n + 1) (answers k p l) (n k)) e.
Proof.
  revert p m n. induction l as [|r l IH]; intros p m n Ht Hm Hlen Hp; cbn [length] in Hlen.
  { split_and!; [done..|]. intros k e He. by apply Hp. }
  destruct (health_check_all_spec p r.1 r.2) as (Hth & _ & Hk).
  set (n' k := match entries p !! k with
    | Some e => if probed p r.1 e then if (r.2 k).1 then 0 else n k + 1 else n k | None => n k end).
  destruct (IH (health_check_all p r.1 r.2) (m + 1) n') as (Ht' & Hc' & Hk').
  - by rewrite Hth.
  - lia.
  - lia.
  - intros k e. rewrite Hk, Hth. unfold n'. destruct (entries p !! k) as [e0|] eqn:E0; [|done].
    intros [= <-]. destruct (Hp k e0 E0) as [Hb Ha]. destruct (probed p r.1 e0); [|split; [lia|done]].
    split; [case_match; lia|]. apply probe_result_after; [done|lia|done].
  - change (run_rounds p (r :: l)) with (run_rounds (health_check_all p r.1 r.2) l).
    split_and!; [congruence| |].
    + rewrite Hc'. apply list_eq. intros k.
      rewrite !list_lookup_fmap, Hk. destruct (entries p !! k) as [e0|]; [|done]. simpl. f_equal.
      destruct (probed p r.1 e0); [|done]. unfold probe_result. by case_match.
    + intros k e He. specialize (Hk' k e He). rewrite Hth in Hk'. cbn [answers].
      rewrite fold_left_app. unfold n' in Hk'.
      destruct (entries p !! k) as [e0|]; [|done]. by destruct (probed p r.1 e0).
Qed.

(** Failover between Dogtag backends.  Whatever the probes of any number
    of rounds answer, a backend is out of service exactly when it failed its
    last [failure_threshold] probes or more, the client a request gets is
    the first one in the configured order that is in service, and there is
    none only if all of them failed that often. *)
Theorem dogtag_failover clients threshold cooldown_secs p l :
  dogtag_pool_new clients threshold cooldown_secs = Ok p -> 0 < threshold ->
  Z.of_nat (length l) < 2 ^ 32 ->
  let q := run_rounds p l in
  let out k := threshold <= failing (answers k p l) in
  map client (entries q) = clients /\
  (forall k e, entries q !! k = Some e -> health e = Unhealthy <-> out k) /\
  match get_client q with
  | Ok c => exists k, clients !! k = Some c /\ ~ out k /\ forall j, (j < k)%nat -> out j
  | Err e => e = NO_HEALTHY_BACKEND /\ forall k, (k < length clients)%nat -> out k
  | Panic => False
  end.
Proof.
  intros Hnew Ht Hlen q out.
  assert (Hp : p = MkDogtagPool (map (fun c => MkEntry c Unknown None 0) clients) threshold
    (cooldown_secs * SECS)) by (destruct clients; [done|by injection Hnew]).
  destruct (run_rounds_after l p 0 (fun _ => 0)) as (_ & Hc & Hk); [by subst| |lia| |].
  { done. }
  { subst. intros k e. cbn [entries]. rewrite list_lookup_fmap. destruct (clients !! k); [|done].
    intros [= <-]. split; [lia|]. split; [done|]. split; [split; [done|simpl; lia]|done]. }
  assert (Hcl : map client (entries q) = clients).
  { unfold q. rewrite Hc. subst. cbn [entries]. rewrite map_map. apply map_id. }
  assert (Hout : forall k e, entries q !! k = Some e -> health e = Unhealthy <-> out k).
  { intros k e He. destruct (Hk k e He) as (_ & Hu & _). rewrite Hu.
    assert (failure_threshold p = threshold) as -> by (by rewrite Hp). done. }
  split; [exact Hcl|]. split; [exact Hout|]. clear Hk Hc. unfold get_client.
  destruct (find_first (fun e => negb (bool_decide (health e = Unhealthy))) (entries q))
    as [(k & e & -> & He & Hgood & Hbefore)|[-> Hnone]].
  - exists k. rewrite <- Hcl, list_lookup_fmap, He. split; [done|].
    apply negb_true_iff, bool_decide_eq_false in Hgood. split; [by rewrite <- (Hout k e He)|].
    intros j Hj. destruct (Hbefore j Hj) as (e' & He' & Hbad).
    apply (Hout j e' He'). apply negb_false_iff, bool_decide_eq_true in Hbad. exact Hbad.
  - split; [done|]. intros k Hlt. rewrite <- Hcl, length_map in Hlt.
    apply lookup_lt_is_Some in Hlt as [e He]. apply (Hout k e He).
    specialize (Hnone e). apply negb_false_iff, bool_decide_eq_true in Hnone; [exact Hnone|].
    by apply list_elem_of_In, list_elem_of_lookup_2 with k.
Qed.

(** Three failed probes in a row take the first of two backends out. *)
Lemma dogtag_failover_witness :
  exists p, dogtag_pool_new ["ca1"; "ca2"] 3 60 = Ok p /\
  let q := run_rounds p (replicate 3 (0, fun k => (bool_decide (k = 1%nat), 0))) in
  get_client q = Ok "ca2" /\ map client (entries q) = ["ca1"; "ca2"].
Proof.
  eexists. split; [reflexivity|]. split; [vm_compute; reflexivity|].
  destruct (dogtag_failover ["ca1"; "ca2"] 3 60 _
    (replicate 3 (0, fun k => (bool_decide (k = 1%nat), 0))) eq_refl) as [Hc _]; [lia|done|].
  exact Hc.
Defined.
