(* ===== verification/Labels.v ===== *)
(** * Labels, shared state and audit of requests

    [src/config/est.rs] (the label section), [src/state.rs] and the label
    extractor of [src/routes/mod.rs]: the configuration a request resolves
    to, and what a handler writes to the audit trail and the database. *)
From S2P Require Import Prelude Text Errors Calendar X509 Issuance AuditLog NameMatch EnrollAuthz Words HaPool.
Open Scope Z_scope.

(** ** Configuration *)

Record CsrTemplateRdn : Type := MkRdn { rdn_oid : string; rdn_value : option string }.
Record CsrTemplate : Type := MkTemplate {
  template_rdns : list CsrTemplateRdn;
  template_key_algorithm : option string;
  template_required_extensions : list string
}.
(** [CsrTemplate::has_content] *)
Definition has_content (t : CsrTemplate) : bool :=
  negb (bool_decide (length (template_rdns t) = 0%nat)) ||
  bool_decide (is_Some (template_key_algorithm t)) ||
  negb (bool_decide (template_required_extensions t = [])).

Inductive EstAuthMethod : Type := ACms | AGssapi | AMtls | AOtp | ABasic | ACertificate.
#[export] Instance EstAuthMethod_eq_dec : EqDecision EstAuthMethod.
Proof. solve_decision. Defined.

(** [EstLabelConfig]; its five authorization fields are the record
    [EnrollAuthzPolicy], here and in the extractor. *)
Record EstLabelConfig : Type := MkLabelConfig {
  label_name : string;
  label_ca_id : option string;
  label_ca_pool : list string;
  label_auth_methods : list EstAuthMethod;
  label_csr_attributes : list string;
  label_csr_template : option CsrTemplate;
  label_policy : EnrollAuthzPolicy;
  label_max_validity_days : option Z;
  label_disconnected : option bool
}.

(** The fields of [EstConfig] that handlers read. *)
Record EstConfig : Type := MkEstConfig {
  est_csr_attributes : list string;
  est_csr_template : option CsrTemplate;
  labels : list EstLabelConfig;
  disconnected : bool;
  disconnected_retry_after_secs : Z
}.

Record CaState : Type := MkCaState {
  ca_state_id : string;
  ca_cert_der : bytes;
  ca_cert_chain : list bytes;
  ca_hash_algorithm : string;
  ca_validity_days : Z;
  ca_crl_url : option string;
  ca_ocsp_url : option string
}.

(** The parts of [AppState] that do not change while requests are served. *)
Record AppConfig : Type := MkAppConfig {
  est : EstConfig;
  ca_configs : list CaConfig;
  cas : gmap string CaState;
  default_ca_id : string;
  hsm : option HsmContext
}.
Definition get_ca (app : AppConfig) (ca_id : string) : option CaState := cas app !! ca_id.

(** ** The label of a request *)

Record LabelExtractor : Type := MkLabel {
  label : string;
  label_ca : string;
  policy : EnrollAuthzPolicy;
  attributes : list string;
  template : option CsrTemplate;
  max_validity : option Z;
  label_deferred : option bool
}.

Definition no_policy : EnrollAuthzPolicy := MkAuthzPolicy false false [] [] [].

(** [LabelExtractor::enroll_policy] *)
Definition enroll_policy (l : LabelExtractor) : EnrollAuthzPolicy := policy l.

Definition find_label (app : AppConfig) (name : string) : option EstLabelConfig :=
  List.find (fun l => String.eqb (label_name l) name) (labels (est app)).

(** [LabelExtractor::resolve]; selecting from a pool moves its strategy on.
    [debug] is the quoted form of a string. *)
Definition resolve (debug : string -> string) (app : AppConfig) (pool : option CaPool)
    (name : option string) : option CaPool * outcome LabelExtractor KipukaError :=
  match name with
  | Some name =>
      if is_empty name then
        (pool, Ok (MkLabel EmptyString (default_ca_id app) no_policy (est_csr_attributes (est app))
                     (est_csr_template (est app)) None None))
      else
        match find_label app name with
        | None => (pool, Err ENotFound)
        | Some lc =>
            let '(pool, ca_id) :=
              match label_ca_pool lc with
              | [] => (pool, Ok (default (default_ca_id app) (label_ca_id lc)))
              | allowed =>
                  let unhealthy := Err (EServiceUnavailable "no healthy CA in label pool") in
                  match pool with
                  | None => (None, unhealthy)
                  | Some p =>
                      let (p, ca) := select_allowed p allowed in
                      (Some p, match ca with Some c => Ok (ca_id c) | None => unhealthy end)
                  end
              end in
            (pool,
             let? ca_id := ca_id in
             match get_ca app ca_id with
             | None => Err (EConfig ("label " +:+ debug name +:+ " references unknown CA " +:+ debug ca_id))
             | Some _ =>
                 Ok (MkLabel name ca_id (label_policy lc) (label_csr_attributes lc)
                       (label_csr_template lc) (label_max_validity_days lc) (label_disconnected lc))
             end)
        end
  | None =>
      (pool, Ok (MkLabel EmptyString (default_ca_id app) no_policy (est_csr_attributes (est app))
                   (est_csr_template (est app)) None None))
  end.

(** ** What handlers write *)

(** A row of [certificates]; [serial] is unique there. *)
Record CertRow : Type := MkCertRow {
  cr_serial : string;
  cr_subject_dn : string;
  cr_issuer_dn : string;
  cr_not_before : string;
  cr_not_after : string;
  cr_der : bytes;
  cr_ca_id : string;
  cr_profile : string;
  cr_status : string;
  cr_revocation_reason : option string;
  cr_revocation_time : option string
}.

(** A row of [pending_csrs]. *)
Record PendingCsr : Type := MkPending {
  pending_der : bytes;
  pending_ca_id : string;
  pending_subject_dn : option string;
  pending_identity : string;
  pending_auth_method : string
}.

Record AppState : Type := MkAppState {
  app_audit_db : AuditDb;
  app_audit : AuditState;
  certificates : list CertRow;
  pending_csrs : list PendingCsr
}.

Definition set_certificates (s : AppState) (l : list CertRow) : AppState :=
  MkAppState (app_audit_db s) (app_audit s) l (pending_csrs s).
Definition set_pending (s : AppState) (l : list PendingCsr) : AppState :=
  MkAppState (app_audit_db s) (app_audit s) (certificates s) l.

(** The insert into [certificates]: [failed] if the database refuses the
    statement, which it also does for a serial number it has. *)
Definition insert_certificate (s : AppState) (failed : bool) (r : CertRow) : AppState * bool :=
  if failed || existsb (fun q => String.eqb (cr_serial q) (cr_serial r)) (certificates s)
  then (s, false)
  else (set_certificates s (certificates s ++ [r]), true).

(** [AppState::audit_type_for] *)
Definition audit_type_for (event_type : string) : AuditEventType :=
  let one_of l := existsb (String.eqb event_type) l in
  if one_of ["cacerts"] then EnrollRequest
  else if one_of ["cert_issued"; "simpleenroll_success"; "simpleenroll_deferred"] then CertIssue
  else if one_of ["simplereenroll_success"; "simplereenroll_deferred"] then CertReenroll
  else if one_of ["fullcmc_success"; "serverkeygen_success"] then CertIssue
  else if one_of ["simpleenroll_denied"; "simplereenroll_denied"; "serverkeygen_denied";
              "cms_simpleenroll_denied"; "cms_simplereenroll_denied"; "cms_serverkeygen_denied"]
  then EnrollReject
  else if one_of ["otp_generated"] then OtpCreate
  else if one_of ["otp_revoked"] then OtpRevoke
  else if one_of ["otp_auth_failure"] then AuthFailure
  else if one_of ["auth_lockout"] then SecurityViolation
  else if one_of ["cert_revoked"] then CertRevoke
  else if one_of ["star_order_created"; "star_renewal_success"] then CertIssue
  else if one_of ["star_order_cancelled"; "admin_audit_review"] then AdminAction
  else if one_of ["coap_cacerts"; "coap_csrattrs"] then EnrollRequest
  else if one_of ["coap_simpleenroll"] then CertIssue
  else if one_of ["coap_simplereenroll"] then CertReenroll
  else if one_of ["coap_simpleenroll_denied"; "coap_simplereenroll_denied"] then EnrollReject
  else AdminAction.

(** The outside of one call to the audit trail: what its statements fail
    with, and the text of the time. *)
Record AuditCall : Type := MkAuditCall { call_faults : AuditFaults; call_time : string }.

Section Audit.
Variable digest : option bytes -> bytes -> string.
Variable json_object : list (string * string) -> string.

Definition with_audit (s : AppState) (r : AuditDb * AuditState) : AppState :=
  MkAppState r.1 r.2 (certificates s) (pending_csrs s).

Definition admit_enrollment (s : AppState) (identity operation : string) (c : AuditCall)
  : AppState * outcome unit KipukaError :=
  let ev := with_detail (with_operator (audit_event_new EnrollRequest) identity) operation in
  let '(db, st, r) := record_checked digest json_object (app_audit_db s) (app_audit s) ev
                        (call_faults c) (call_time c) in
  (with_audit s (db, st), map_err EDb r).

Definition record_audit_event (s : AppState) (event_type detail : string) (c : AuditCall)
  : AppState :=
  let ev := with_detail (audit_event_new (audit_type_for event_type)) detail in
  with_audit s (record digest json_object (app_audit_db s) (app_audit s) ev (call_faults c)
                  (call_time c)).

Definition record_audit_event_with_actor (s : AppState) (event_type actor detail : string)
    (c : AuditCall) : AppState :=
  let ev := with_detail (with_operator (audit_event_new (audit_type_for event_type)) actor) detail in
  with_audit s (record digest json_object (app_audit_db s) (app_audit s) ev (call_faults c)
                  (call_time c)).
End Audit.

(** * Storing an issued certificate

    [persist_certificate] of [src/ca/issue.rs], with which the handlers that
    report an issuance only once it is stored end: CMP, server-side key
    generation and EST over CoAP. *)

Open Scope Z_scope.

(** What the database answers to the insert: an error, if it refuses the
    statement, and its text for a serial number it has. *)
Record InsertFaults : Type := MkInsertFaults {
  insert_error : option string;
  duplicate_text : string
}.

Section Persist.
Context `{X509Lib}.
Variable digest : option bytes -> bytes -> string.
Variable json_object : list (string * string) -> string.

Definition certificate_row (r : IssuanceResult) (issuer ca_id profile : string) : CertRow :=
  MkCertRow (serial_number r) (subject_dn r) issuer (format_utc (not_before r))
    (format_utc (not_after r)) (certificate_der r) ca_id profile "active" None None.

Definition persist_certificate_on (s : AppState) (f : InsertFaults) (ca_id profile : string)
    (r : IssuanceResult) : AppState * outcome unit KipukaError :=
  match cert_from_der (certificate_der r) with
  | inr e => (s, Err (ECa e))
  | inl cert =>
      let issuer := format_dn (cert_issuer cert) in
      let failed := match insert_error f with Some _ => true | None => false end in
      match insert_certificate s failed (certificate_row r issuer ca_id profile) with
      | (s, true) => (s, Ok tt)
      | (s, false) =>
          (s, Err (EDb ("certificate persistence failed: " +:+
                        default (duplicate_text f) (insert_error f))))
      end
  end.

Definition persist_certificate (s : AppState) (f : InsertFaults) (c : AuditCall)
    (ca_id profile : string) (r : IssuanceResult) : AppState * outcome unit KipukaError :=
  match persist_certificate_on s f ca_id profile r with
  | (s, Ok _) =>
      let ev := with_detail (audit_event_new CertIssue)
        ("ca_id=" +:+ ca_id +:+ ", serial=" +:+ serial_number r) in
      let '(db, st, res) := record_checked digest json_object (app_audit_db s) (app_audit s) ev
                              (call_faults c) (call_time c) in
      (with_audit s (db, st), map_err EDb res)
  | r => r
  end.

(** ** What is stored *)

Lemma insert_certificate_result s failed r s' b :
  insert_certificate s failed r = (s', b) ->
  app_audit_db s' = app_audit_db s /\ app_audit s' = app_audit s /\ pending_csrs s' = pending_csrs s /\
  (if b then certificates s' = certificates s ++ [r] /\
             Forall (fun q => cr_serial q <> cr_serial r) (certificates s)
   else s' = s).
Proof.
  unfold insert_certificate. destruct (failed || existsb _ _) eqn:E; intros [= <- <-]; [done|].
  apply orb_false_iff in E as [_ E]. split_and!; try done. apply Forall_forall. intros q Hq Heq.
  rewrite <- not_true_iff_false, existsb_exists in E. apply E. exists q.
  split; [by apply list_elem_of_In|]. by apply String.eqb_eq.
Qed.

Lemma persist_on_spec s f ca_id profile r s' res :
  persist_certificate_on s f ca_id profile r = (s', res) ->
  app_audit_db s' = app_audit_db s /\ app_audit s' = app_audit s /\
  pending_csrs s' = pending_csrs s /\ res <> Panic /\
  match res with
  | Ok _ => exists cert, cert_from_der (certificate_der r) = inl cert /\
      certificates s' = certificates s ++
        [certificate_row r (format_dn (cert_issuer cert)) ca_id profile] /\
      Forall (fun q => cr_serial q <> serial_number r) (certificates s)
  | _ => s' = s
  end.
Proof.
  unfold persist_certificate_on. destruct (cert_from_der _) as [cert|e]; [|by intros [= <- <-]].
  destruct (insert_certificate _ _ _) as [s1 b] eqn:E. apply insert_certificate_result in E as (H1 & H2 & H3 & Hb).
  destruct b; intros [= <- <-]; split_and!; try done. destruct Hb. by exists cert.
Qed.

(** A certificate that is reported as stored is in the table and in the
    audit trail; one that is not may be in the table, if the trail failed. *)
Lemma persist_spec s f c ca_id profile r s' res :
  persist_certificate s f c ca_id profile r = (s', res) ->
  pending_csrs s' = pending_csrs s /\
  ((exists cert, cert_from_der (certificate_der r) = inl cert /\
      certificates s' = certificates s ++
        [certificate_row r (format_dn (cert_issuer cert)) ca_id profile] /\
      Forall (fun q => cr_serial q <> serial_number r) (certificates s)) \/
   (s' = s /\ exists e, res = Err e)).
Proof.
  unfold persist_certificate. destruct (persist_certificate_on _ _ _ _ _) as [s1 r1] eqn:E.
  apply persist_on_spec in E as (_ & _ & Hp & Hnp & Hr). destruct r1 as [[]|e|]; [|intros [= <- <-]|done].
  - destruct (record_checked _ _ _ _ _ _ _) as [[db st] ra]. intros [= <- _]. split; [done|]. by left.
  - split; [done|]. right. split; [done|]. by eexists.
Qed.
End Persist.
