(* ===== verification/BasicOtp.v ===== *)
(** * HTTP Basic authentication with a one-time password

    [src/auth/otp.rs]: the credentials of RFC 7617, the lockout around them,
    the validation against the [otp_tokens] table, and the events of refused
    attempts in the server's audit trail.  The read pool may be
    a replica: what it answers is an argument, unrelated to the table the
    update runs on.  Expiry times are compared in SQL as fixed-width RFC 3339
    texts with milliseconds; here they are numbers of milliseconds. *)
From S2P Require Import Prelude Words Text AuditLog FailureTracker Labels.
Open Scope Z_scope.

(** ** The table *)

Record OtpRow : Type := MkRow {
  row_id : Z;
  row_token_hash : string;
  row_entity : string;
  row_expires : Z;
  row_max_uses : Z;
  row_uses : Z;
  row_revoked : bool;
  row_created : string
}.

Abbreviation OtpTable := (list OtpRow).

Definition active_for (entity : string) (now : Z) (r : OtpRow) : bool :=
  bool_decide (row_entity r = entity) && negb (row_revoked r) && (now <? row_expires r)
  && (row_uses r <? row_max_uses r).

(** The [WHERE] clause of the lookup and of the update. *)
Definition usable (entity hash : string) (now : Z) (r : OtpRow) : bool :=
  active_for entity now r && bool_decide (row_token_hash r = hash).

Definition consume_row (r : OtpRow) : OtpRow :=
  MkRow (row_id r) (row_token_hash r) (row_entity r) (row_expires r) (row_max_uses r)
    (row_uses r + 1) (row_revoked r) (row_created r).

(** The update is one atomic statement; it answers the rows affected. *)
Definition consume (entity hash : string) (now : Z) (t : OtpTable) : OtpTable * Z :=
  (map (fun r => if usable entity hash now r then consume_row r else r) t,
   Z.of_nat (length (List.filter (usable entity hash now) t))).

(** ** Responses *)

Inductive AuthMethod : Type := Mtls | Otp | Gssapi | Cms | NoAuth.

Record AuthResult : Type := MkAuth {
  auth_identity : string;
  auth_method : AuthMethod;
  client_cert_der : option bytes;
  auth_subject_dn : option string;
  subject_alt_names : list string;
  extended_key_usage : list string
}.

Definition otp_auth (entity_id : string) : AuthResult :=
  MkAuth entity_id Otp None None [] [].

Inductive AuthResponse : Type :=
  | Unauthorized (detail : string)           (* 401, with the Basic challenge *)
  | TooManyRequests (retry_after : Z).       (* 429, [Retry-After] in seconds *)

Definition locked_out_response (retry_after : Z) : AuthResponse :=
  TooManyRequests (retry_after / SECS + (if 0 <? retry_after mod SECS then 1 else 0)).

(** What the attempt reads from outside, in order: the clock of the lockout
    check, of the validation (milliseconds), the answer of the read pool to
    the lookup, whether the update reaches the database, the clock and the
    answer of the read pool for the tracking decision, the clock of the
    tracker, and the two calls to the audit trail. *)
Record Readings : Type := MkReadings {
  now_check : Z;
  now_validate : Z;
  lookup_table : outcome OtpTable string;
  update_error : option string;
  now_track : Z;
  track_table : outcome OtpTable string;
  now_record : Z;
  failure_event : AuditCall;
  lockout_event : AuditCall
}.

(** What the attempt works on, of [AppState]: [otp.enabled] of the
    configuration, the tracker, the table, and the rest of the state with the
    audit trail. *)
Record OtpApp : Type := MkApp {
  otp_enabled : bool;
  failure_tracker : FailureTracker;
  otp_tokens : OtpTable;
  otp_state : AppState
}.

Definition set_tracker (a : OtpApp) (t : FailureTracker) : OtpApp :=
  MkApp (otp_enabled a) t (otp_tokens a) (otp_state a).
Definition set_tokens (a : OtpApp) (t : OtpTable) : OtpApp :=
  MkApp (otp_enabled a) (failure_tracker a) t (otp_state a).
Definition set_otp_state (a : OtpApp) (s : AppState) : OtpApp :=
  MkApp (otp_enabled a) (failure_tracker a) (otp_tokens a) s.

Section Basic.
Variable digest : option bytes -> bytes -> string.
Variable json_object : list (string * string) -> string.
(** The base64 decoder, and SHA-256 in lowercase hexadecimal. *)
Variable b64_decode : string -> option bytes.
Variable sha256_hex : bytes -> string.

Definition hash_of (otp_value : string) : string := sha256_hex (bytes_of_string otp_value).

Definition validate_otp (app : OtpApp) (rd : Readings) (entity_id otp_value : string)
  : OtpApp * outcome unit string :=
  if negb (otp_enabled app) then (app, Err "OTP authentication is not enabled")
  else
    let incoming_hash := hash_of otp_value in
    let now := now_validate rd in
    match lookup_table rd with
    | Err e => (app, Err ("database error: " +:+ e))
    | Panic => (app, Panic)
    | Ok table =>
        match List.find (usable entity_id incoming_hash now) table with
        | None => (app, Err "no valid OTP found for this entity")
        | Some row =>
            if negb (bool_decide (incoming_hash = row_token_hash row)) then
              (app, Err "no valid OTP found for this entity")
            else
              match update_error rd with
              | Some e => (app, Err ("database error: " +:+ e))
              | None =>
                  let (t, affected) := consume entity_id incoming_hash now (otp_tokens app) in
                  (set_tokens app t,
                   if affected =? 0 then Err "OTP was consumed by a concurrent request"
                   else Ok tt)
              end
        end
    end.

(** A lookup that fails does not count as an active token. *)
Definition has_active_otp (rd : Readings) (entity_id : string) : bool :=
  match track_table rd with
  | Ok table => existsb (active_for entity_id (now_track rd)) table
  | _ => false
  end.

(** The credentials of a [Basic] header. *)
Definition basic_credentials (credentials_b64 : string)
  : outcome (string * string) AuthResponse :=
  let? decoded := ok_or (b64_decode credentials_b64) (Unauthorized "malformed Basic auth encoding") in
  if existsb (fun b => b =? 0) decoded then
    Err (Unauthorized "Basic auth credentials contain null byte (rejected for security)")
  else
    let? credentials := ok_or (from_utf8 decoded)
      (Unauthorized "Basic auth credentials are not valid UTF-8 (RFC 7617 §2.1)") in
    let? (entity_id, otp_value) := ok_or (split_once ":" credentials)
      (Unauthorized "malformed Basic auth credentials (missing ':' separator, RFC 7617 §2)") in
    if is_empty entity_id then Err (Unauthorized "entity-id must not be empty (RFC 7617 §2)")
    else if is_empty otp_value then Err (Unauthorized "OTP value must not be empty")
    else Ok (entity_id, otp_value).

Definition audit (a : OtpApp) (event actor detail : string) (c : AuditCall) : OtpApp :=
  set_otp_state a (record_audit_event_with_actor digest json_object (otp_state a) event actor detail c).

(** The bookkeeping of a refused token. *)
Definition otp_refused (app : OtpApp) (rd : Readings) (entity_id e : string)
  : OtpApp * AuthResponse :=
  let app := audit app "otp_auth_failure" entity_id
    ("entity_id=" +:+ entity_id +:+ ", reason=" +:+ e) (failure_event rd) in
  let '(app, status) :=
    if has_active_otp rd entity_id then
      let (t, status) := record_failure (failure_tracker app) entity_id (now_record rd) in
      (set_tracker app t, status)
    else (app, Allowed) in
  match status with
  | LockedOut retry_after =>
      (audit app "auth_lockout" entity_id
         ("entity_id=" +:+ entity_id +:+ ", lockout_secs=" +:+ pretty (retry_after / SECS))
         (lockout_event rd),
       locked_out_response retry_after)
  | Allowed => (app, Unauthorized "OTP authentication failed")
  end.

(** [header] is the [Authorization] header, if it is there and is text. *)
Definition try_extract_otp (app : OtpApp) (rd : Readings) (header : option string)
  : OtpApp * option (outcome AuthResult AuthResponse) :=
  match header with
  | None => (app, None)
  | Some auth_header =>
      match strip_prefix "Basic " auth_header with
      | None => (app, None)
      | Some credentials_b64 =>
          match basic_credentials credentials_b64 with
          | Err e => (app, Some (Err e))
          | Panic => (app, Some Panic)
          | Ok (entity_id, otp_value) =>
              let (t, status) := check (failure_tracker app) entity_id (now_check rd) in
              let app := set_tracker app t in
              match status with
              | LockedOut retry_after => (app, Some (Err (locked_out_response retry_after)))
              | Allowed =>
                  match validate_otp app rd entity_id otp_value with
                  | (app, Ok _) =>
                      (set_tracker app
                         (record_success (failure_tracker app) entity_id (now_record rd)),
                       Some (Ok (otp_auth entity_id)))
                  | (app, Err e) =>
                      let (app, resp) := otp_refused app rd entity_id e in
                      (app, Some (Err resp))
                  | (app, Panic) => (app, Some Panic)
                  end
              end
          end
      end
  end.

(** ** What an attempt does *)

Lemma basic_credentials_returns s : returns (basic_credentials s).
Proof.
  unfold basic_credentials. apply obind_returns; [auto with kipuka|]. intros d _.
  case_match; [done|]. apply obind_returns; [auto with kipuka|]. intros c _.
  apply obind_returns; [auto with kipuka|]. intros [en o] _. by repeat case_match.
Qed.

(** The credentials, spelled out. *)
Lemma basic_credentials_Ok s entity otp :
  basic_credentials s = Ok (entity, otp) <->
  exists decoded, b64_decode s = Some decoded /\ (0 ∉ decoded) /\
    from_utf8 decoded = Some (entity +:+ String ":" otp) /\
    contains_char ":" entity = false /\ entity <> EmptyString /\ otp <> EmptyString.
Proof.
  assert (Hz : forall l : bytes, existsb (fun b => b =? 0) l = false <-> 0 ∉ l).
  { intros l. rewrite <- not_true_iff_false, existsb_exists. split.
    - intros Hn Hin. apply Hn. exists 0. split; [by apply list_elem_of_In|done].
    - intros Hn (x & Hx & ->%Z.eqb_eq). apply Hn. by apply list_elem_of_In. }
  assert (He : forall t, is_empty t = false <-> t <> EmptyString) by (by intros []).
  unfold basic_credentials. rewrite obind_Ok. setoid_rewrite ok_or_Ok. split.
  - intros (d & Hd & H0). exists d. split; [done|].
    destruct (existsb _ d) eqn:E; [done|]. apply Hz in E. split; [done|].
    destruct (from_utf8 d) as [c|]; [|done]. cbn [ok_or obind] in H0.
    destruct (split_once ":" c) as [[en o]|] eqn:Es; [|done]. cbn [ok_or obind] in H0.
    apply split_once_Some in Es as [-> Hc].
    destruct (is_empty en) eqn:E1; [done|]. destruct (is_empty o) eqn:E2; [done|].
    injection H0 as <- <-. apply He in E1, E2. by split_and!.
  - intros (d & Hd & Hn & Hu & Hc & H1 & H2). exists d. split; [done|].
    apply Hz in Hn. rewrite Hn, Hu. cbn [ok_or obind].
    assert (split_once ":" (entity +:+ String ":" otp) = Some (entity, otp)) as ->
      by (by apply split_once_Some).
    apply He in H1, H2. cbn [ok_or obind]. by rewrite H1, H2.
Qed.

Lemma consume_affected entity hash now t :
  (consume entity hash now t).2 = 0 <-> forall r, r ∈ t -> usable entity hash now r = false.
Proof.
  unfold consume. cbn [snd]. induction t as [|r t IH]; cbn.
  - split; [|done]. intros _ r Hr. by apply elem_of_nil in Hr.
  - destruct (usable entity hash now r) eqn:E; cbn.
    + split; [lia|]. intros H. rewrite (H r) in E by (by left). done.
    + rewrite IH. split.
      * intros H x Hx. apply elem_of_cons in Hx as [->|Hx]; auto.
      * intros H x Hx. apply H. by right.
Qed.

Lemma consume_none entity hash now t :
  (forall r, r ∈ t -> usable entity hash now r = false) -> (consume entity hash now t).1 = t.
Proof.
  intros H. unfold consume. cbn [fst]. rewrite <- (map_id t) at 2. apply map_ext_in.
  intros r Hr%list_elem_of_In. by rewrite H.
Qed.

(** RFC 7617: the base64 text [s] carries [entity:otp]; the entity is up to
    the first colon, neither is empty, and there is no NUL. *)
Definition credentials_of (s entity otp : string) : Prop :=
  exists decoded, b64_decode s = Some decoded /\ (0 ∉ decoded) /\
    from_utf8 decoded = Some (entity +:+ String ":" otp) /\
    contains_char ":" entity = false /\ entity <> EmptyString /\ otp <> EmptyString.

(** When a token is good: the entity is not locked out, OTPs are enabled,
    and both the read pool and the table have an unrevoked, unexpired row of
    that entity and hash with uses left. *)
Definition otp_good (app : OtpApp) (rd : Readings) (entity otp : string) : Prop :=
  (check (failure_tracker app) entity (now_check rd)).2 = Allowed /\
  otp_enabled app = true /\
  (exists table r, lookup_table rd = Ok table /\ r ∈ table /\
     usable entity (hash_of otp) (now_validate rd) r = true) /\
  update_error rd = None /\
  (exists r, r ∈ otp_tokens app /\ usable entity (hash_of otp) (now_validate rd) r = true).

Lemma usable_hash entity hash now r :
  usable entity hash now r = true -> row_token_hash r = hash.
Proof. unfold usable. by intros [_ H%bool_decide_eq_true]%andb_true_iff. Qed.

Lemma find_usable entity hash now (table : OtpTable) :
  match List.find (usable entity hash now) table with
  | Some r => r ∈ table /\ usable entity hash now r = true
  | None => forall r, r ∈ table -> usable entity hash now r = false
  end.
Proof.
  destruct (List.find _ _) as [r|] eqn:E.
  - apply find_some in E as [? ?]. by rewrite list_elem_of_In.
  - intros r Hr%list_elem_of_In. by apply (find_none _ _ E).
Qed.

(** Validation either finds the token good and consumes it, or fails and
    changes nothing. *)
Lemma validate_otp_spec app rd entity otp :
  lookup_table rd <> Panic ->
  let good := otp_enabled app = true /\
    (exists table r, lookup_table rd = Ok table /\ r ∈ table /\
       usable entity (hash_of otp) (now_validate rd) r = true) /\
    update_error rd = None /\
    (exists r, r ∈ otp_tokens app /\ usable entity (hash_of otp) (now_validate rd) r = true) in
  (good /\ validate_otp app rd entity otp =
     (set_tokens app (consume entity (hash_of otp) (now_validate rd) (otp_tokens app)).1, Ok tt)) \/
  (~ good /\ exists e, validate_otp app rd entity otp = (app, Err e)).
Proof.
  intros Hnp good. unfold validate_otp. cbv zeta.
  destruct (otp_enabled app) eqn:Een; cbn [negb]; [|right; split; [by intros []|by eexists]].
  destruct (lookup_table rd) as [table|e|] eqn:El; [| |done].
  2: { right. split; [by intros (_ & (? & ? & ? & _) & _)|by eexists]. }
  pose proof (find_usable entity (hash_of otp) (now_validate rd) table) as Hf.
  destruct (List.find _ table) as [row|].
  2: { right. split; [|by eexists]. intros (_ & (tb & r & [= <-] & Hr & Hu) & _).
       rewrite Hf in Hu by done. done. }
  destruct Hf as [Hin Hu]. rewrite bool_decide_true by (symmetry; by apply usable_hash in Hu).
  cbn [negb]. destruct (update_error rd) as [e|] eqn:Ee.
  { right. split; [by intros (_ & _ & ? & _)|by eexists]. }
  pose proof (consume_affected entity (hash_of otp) (now_validate rd) (otp_tokens app)) as Ha.
  pose proof (consume_none entity (hash_of otp) (now_validate rd) (otp_tokens app)) as Hn.
  destruct (consume _ _ _ (otp_tokens app)) as [t n]. cbn [fst snd] in *.
  destruct (Z.eqb_spec n 0) as [->|Hne].
  - right. split.
    + intros (_ & _ & _ & r & Hr & Hur). rewrite (proj1 Ha eq_refl r Hr) in Hur. done.
    + rewrite Hn by (by apply Ha). eexists. destruct app. done.
  - left. split; [|done]. split_and!; [done|by exists table, row|done|].
    destruct (existsb (usable entity (hash_of otp) (now_validate rd)) (otp_tokens app)) eqn:E.
    + apply existsb_exists in E as (r & Hr & ?). exists r. by rewrite list_elem_of_In.
    + destruct Hne. apply Ha. intros r Hr. apply not_true_is_false. intros Hur.
      rewrite <- not_true_iff_false, existsb_exists in E. apply E. exists r.
      by rewrite <- list_elem_of_In.
Qed.

Lemma otp_refused_tokens app rd entity e :
  otp_tokens (otp_refused app rd entity e).1 = otp_tokens app.
Proof.
  unfold otp_refused. cbv zeta. destruct (has_active_otp rd entity).
  - destruct (record_failure _ _ _) as [t [|ra]]; done.
  - done.
Qed.

(** Of the rest of the state, an attempt changes only the audit trail. *)
Lemma otp_refused_records (P : AppState -> Prop) app rd entity e :
  (forall s ty actor detail c, P s -> P (record_audit_event_with_actor digest json_object s ty actor detail c)) ->
  P (otp_state app) -> P (otp_state (otp_refused app rd entity e).1).
Proof.
  intros Hrec H. unfold otp_refused. cbv zeta. destruct (has_active_otp rd entity); [|by apply Hrec].
  destruct (record_failure _ _ _) as [t [|ra]]; cbn; auto.
Qed.
Lemma try_extract_otp_records (P : AppState -> Prop) app rd header :
  (forall s ty actor detail c, P s -> P (record_audit_event_with_actor digest json_object s ty actor detail c)) ->
  P (otp_state app) -> P (otp_state (try_extract_otp app rd header).1).
Proof.
  intros Hrec H. unfold try_extract_otp. destruct header as [h|]; [|done].
  destruct (strip_prefix "Basic " h) as [s|]; [|done]. destruct (basic_credentials s) as [[entity otp]|e|]; [|done..].
  destruct (check _ _ _) as [t [|ra]]; [|done].
  assert (Hv : otp_state (validate_otp (set_tracker app t) rd entity otp).1 = otp_state app).
  { unfold validate_otp. repeat case_match; done. }
  destruct (validate_otp _ _ _ _) as [a [u|e|]]; cbn [fst] in Hv; [by cbn; rewrite Hv| |by cbn; rewrite Hv].
  rewrite <- Hv in H. apply (otp_refused_records P a rd entity e Hrec) in H. by destruct (otp_refused _ _ _ _).
Qed.

(** The shape of the theorem below, for an answer [r]. *)
Definition attempt_ok (app : OtpApp) (rd : Readings) (header : option string) (app' : OtpApp)
  (r : option (outcome AuthResult AuthResponse)) : Prop :=
  (r = None <-> ~ exists s, header = Some ("Basic " +:+ s)) /\
  (forall a, r = Some (Ok a) <->
     exists s entity otp, header = Some ("Basic " +:+ s) /\ a = otp_auth entity /\
       credentials_of s entity otp /\ otp_good app rd entity otp) /\
  r <> Some Panic /\
  (forall a s otp, r = Some (Ok a) -> header = Some ("Basic " +:+ s) ->
     credentials_of s (auth_identity a) otp ->
     otp_tokens app' =
       (consume (auth_identity a) (hash_of otp) (now_validate rd) (otp_tokens app)).1) /\
  ((forall a, r <> Some (Ok a)) -> otp_tokens app' = otp_tokens app).

Lemma attempt_refused app rd s app' resp :
  (forall entity otp, credentials_of s entity otp -> ~ otp_good app rd entity otp) ->
  otp_tokens app' = otp_tokens app ->
  attempt_ok app rd (Some ("Basic " +:+ s)) app' (Some (Err resp)).
Proof.
  intros Hno Ht. unfold attempt_ok. split_and!; try done; [naive_solver|].
  intros a. split; [done|]. intros (s' & en & otp & E & -> & Hc & Hg).
  injection E as <-. by apply Hno in Hc.
Qed.

Lemma try_extract_otp_cases app rd header : lookup_table rd <> Panic ->
  attempt_ok app rd header (try_extract_otp app rd header).1 (try_extract_otp app rd header).2.
Proof.
  intros Hnp. unfold try_extract_otp.
  assert (Hnone : (~ exists s, header = Some ("Basic " +:+ s)) ->
    attempt_ok app rd header app None).
  { intros Hn. unfold attempt_ok. split_and!; try done. intros a. split; [done|].
    intros (s & en & otp & ? & _). destruct Hn. by exists s. }
  destruct header as [h|]; [|apply Hnone; by intros [s ?]].
  destruct (strip_prefix "Basic " h) as [s|] eqn:Eh.
  2: { apply Hnone. intros (s & E). assert (Hh : h = "Basic " +:+ s) by congruence.
       apply strip_prefix_Some in Hh. congruence. }
  apply strip_prefix_Some in Eh as ->. clear Hnone.
  pose proof (basic_credentials_returns s) as Hret. pose proof (basic_credentials_Ok s) as Hcred.
  destruct (basic_credentials s) as [[entity otp]|e|]; [| |done].
  2: { apply attempt_refused; [|done]. intros en o Hc. by apply Hcred in Hc. }
  assert (Huniq : forall en o, credentials_of s en o -> en = entity /\ o = otp).
  { intros en o Hc. apply Hcred in Hc. by injection Hc as <- <-. }
  assert (Hc0 : credentials_of s entity otp) by (by apply Hcred).
  destruct (check (failure_tracker app) entity (now_check rd)) as [t status] eqn:Echeck.
  destruct status as [|ra].
  2: { apply attempt_refused; [|done]. intros en o [-> ->]%Huniq (Hal & _).
       by rewrite Echeck in Hal. }
  destruct (validate_otp_spec (set_tracker app t) rd entity otp Hnp) as [[Hg E]|[Hg [e E]]];
    rewrite E.
  - assert (Hgood : otp_good app rd entity otp) by (split; [by rewrite Echeck|exact Hg]).
    unfold attempt_ok. cbn [fst snd]. split_and!; try done.
    + split; [done|]. intros Hn. destruct Hn. by exists s.
    + intros a. split.
      * intros [= <-]. by exists s, entity, otp.
      * intros (s' & en & o & Eq & -> & Hc & _). injection Eq as <-. by apply Huniq in Hc as [-> _].
    + intros a s' o [= <-] Eq Hc. injection Eq as <-. by apply Huniq in Hc as [_ ->].
    + intros Hn. by destruct (Hn (otp_auth entity)).
  - pose proof (otp_refused_tokens (set_tracker app t) rd entity e) as Ht.
    destruct (otp_refused _ _ _ _) as [app2 resp]. cbn [fst snd] in *.
    apply attempt_refused; [|done]. intros en o [-> ->]%Huniq (_ & Hok). by apply Hg.
Qed.

(** Basic authentication with a one-time password: a request without a
    Basic header is left to the other methods; it authenticates as an entity
    exactly when the header carries well-formed RFC 7617 credentials whose
    token is good and whose entity is not locked out; then one use of the
    token is consumed, and on any other outcome no token is touched. *)
Theorem try_extract_otp_spec app rd header :
  lookup_table rd <> Panic ->
  let (app', r) := try_extract_otp app rd header in
  (r = None <-> ~ exists s, header = Some ("Basic " +:+ s)) /\
  (forall a, r = Some (Ok a) <->
     exists s entity otp, header = Some ("Basic " +:+ s) /\ a = otp_auth entity /\
       credentials_of s entity otp /\ otp_good app rd entity otp) /\
  r <> Some Panic /\
  (forall a s otp, r = Some (Ok a) -> header = Some ("Basic " +:+ s) ->
     credentials_of s (auth_identity a) otp ->
     otp_tokens app' =
       (consume (auth_identity a) (hash_of otp) (now_validate rd) (otp_tokens app)).1) /\
  ((forall a, r <> Some (Ok a)) -> otp_tokens app' = otp_tokens app).
Proof.
  intros Hnp. pose proof (try_extract_otp_cases app rd header Hnp) as Hc.
  by destruct (try_extract_otp app rd header).
Qed.
End Basic.

(** ** The theorem at a concrete login

    With base64 and SHA-256 replaced by the identity. *)

Definition example_row : OtpRow := MkRow 1 "s3cret" "dev-1" 100000 1 0 false "t0".
Definition fresh_state : AppState :=
  MkAppState (MkAuditDb [] 1) (audit_from_config audit_config_default None) [] [].
Definition example_app : OtpApp :=
  MkApp true (tracker_new (to_policy lockout_default) 0) [example_row] fresh_state.
Definition quiet_event : AuditCall := MkAuditCall no_faults "t".
Definition readings_at (ms : Z) (table : OtpTable) : Readings :=
  MkReadings 5 ms (Ok table) None ms (Ok table) 5 quiet_event quiet_event.
Definition example_readings : Readings := readings_at 5 [example_row].

Lemma try_extract_otp_spec_witness :
  otp_tokens (try_extract_otp (fun _ _ => EmptyString) (fun _ => EmptyString) (fun s => Some (bytes_of_string s))
    string_of_bytes
    example_app example_readings (Some "Basic dev-1:s3cret")).1 = [consume_row example_row].
Proof.
  pose proof (try_extract_otp_spec (fun _ _ => EmptyString) (fun _ => EmptyString) (fun s => Some (bytes_of_string s))
    string_of_bytes
    example_app example_readings (Some "Basic dev-1:s3cret") ltac:(discriminate)) as Hspec.
  destruct (try_extract_otp _ _ _ _ _ _ _) as [app' r] eqn:E.
  assert (Hr : r = Some (Ok (otp_auth "dev-1"))).
  { change r with (app', r).2. rewrite <- E. vm_compute. reflexivity. }
  destruct Hspec as (_ & _ & _ & Hcons & _). cbn [fst].
  rewrite (Hcons (otp_auth "dev-1") "dev-1:s3cret" "s3cret" Hr eq_refl).
  - vm_compute. reflexivity.
  - exists (bytes_of_string "dev-1:s3cret"). split; [reflexivity|].
    split; [apply (bool_decide_unpack _); vm_compute; exact I|].
    split; [vm_compute; reflexivity|]. split; [vm_compute; reflexivity|].
    split; discriminate.
Defined.

(** A wrong password is in the trail, and the fifth one with its lockout. *)
Definition wrong_password : OtpApp -> OtpApp := fun app =>
  (try_extract_otp (fun _ _ => EmptyString) (fun _ => EmptyString) (fun s => Some (bytes_of_string s))
     string_of_bytes app example_readings (Some "Basic dev-1:wrong")).1.
Example refusals_are_recorded :
  map (fun r => (ar_event_type r, ar_actor r)) (audit_rows (app_audit_db (otp_state (Nat.iter 5 wrong_password example_app)))) =
  [("auth.failure", Some "dev-1"); ("auth.failure", Some "dev-1"); ("auth.failure", Some "dev-1");
   ("auth.failure", Some "dev-1"); ("auth.failure", Some "dev-1"); ("security.violation", Some "dev-1")]%string.
Proof. vm_compute. reflexivity. Qed.
