(* ===== verification/CsrAttrs.v ===== *)
(** * CSR attributes

    [src/routes/csrattrs.rs]: what [GET /csrattrs] answers, and the DER of the
    attribute list with its RFC 9908 template.  The encoder is the interface
    [Encoder]; the reference is a tree of values. *)
From S2P Require Import Prelude Words Text Errors X509 Transfer Der ExampleLibs Labels.
Open Scope Z_scope.

Definition CSR_ATTRS : string := "application/csrattrs".

(** The identifiers of the [synta_certificate] library used here and not in
    issuance. *)
Class AttributeOids : Type := {
  PKCS9_CHALLENGE_PASSWORD : oid;
  EC_PUBLIC_KEY : oid;
  RSA_ENCRYPTION : oid;
  EC_CURVE_P256 : oid;
  EC_CURVE_P384 : oid;
  EC_CURVE_P521 : oid
}.

Definition CSR_TEMPLATE_COMPONENTS : oid := [1; 2; 840; 113549; 1; 9; 16; 2; 61].
Definition EXTENSION_REQ_TEMPLATE_COMPONENTS : oid := [1; 2; 840; 113549; 1; 9; 16; 2; 62].

Section CsrAttrs.
Context `{X509Lib} `{AttributeOids} `{Encoder}.
Variable to_lowercase : string -> string.
Variable b64_encode : bytes -> bytes.

Definition internal {T} (context : string) (r : T + string) : outcome T KipukaError :=
  of_lib (fun e => EInternal (context +:+ e)) r.

(** ** Identifiers *)

(** The names of [oids], with their constants. *)
Definition well_known : list (string * oid) :=
  [("1.2.840.113549.1.9.7", PKCS9_CHALLENGE_PASSWORD);
   ("1.2.840.113549.1.9.14", PKCS9_EXTENSION_REQUEST);
   ("1.2.840.10045.2.1", EC_PUBLIC_KEY);
   ("1.2.840.113549.1.1.1", RSA_ENCRYPTION);
   ("2.5.29.15", KEY_USAGE);
   ("2.5.29.37", EXTENDED_KEY_USAGE);
   ("2.5.29.17", SUBJECT_ALT_NAME);
   ("1.2.840.10045.3.1.7", EC_CURVE_P256);
   ("1.3.132.0.34", EC_CURVE_P384)].

(** [parse::<u32>] of every part, up to the first that fails. *)
Fixpoint parse_parts (parts : list string) : outcome oid string :=
  match parts with
  | [] => Ok []
  | p :: parts' =>
      let? n := parse_unsigned (2 ^ 32 - 1) p in
      let? l := parse_parts parts' in
      Ok (n :: l)
  end.

Definition resolve_oid_components (oid_str : string) : outcome oid KipukaError :=
  match List.find (fun k => String.eqb oid_str k.1) well_known with
  | Some k => Ok k.2
  | None =>
      map_err (fun e => EInternal ("invalid OID string '" +:+ oid_str +:+ "': " +:+ e))
        (parse_parts (split_char "."%char oid_str))
  end.

Definition curve_oid (curve : string) : outcome oid KipukaError :=
  let one_of l := existsb (String.eqb curve) l in
  if one_of ["P-256"; "p-256"; "secp256r1"; "prime256v1"] then Ok EC_CURVE_P256
  else if one_of ["P-384"; "p-384"; "secp384r1"] then Ok EC_CURVE_P384
  else if one_of ["P-521"; "p-521"; "secp521r1"] then Ok EC_CURVE_P521
  else Err (EInternal ("unsupported EC curve '" +:+ curve +:+ "'")).

Definition parse_key_algorithm (spec : string) : outcome (oid * option oid) KipukaError :=
  match split_once ":"%char spec with
  | None => Err (EInternal ("invalid key_algorithm format '" +:+ spec +:+
                   "': expected 'ec:<curve>' or 'rsa:<bits>'"))
  | Some (family, rest) =>
      let lower := to_lowercase family in
      if String.eqb lower "ec" || String.eqb lower "ecdsa" then
        let? curve := curve_oid rest in
        Ok (EC_PUBLIC_KEY, Some curve)
      else if String.eqb lower "rsa" then Ok (RSA_ENCRYPTION, None)
      else Err (EInternal ("unsupported key algorithm family '" +:+ lower +:+ "'"))
  end.

(** ** Encoding *)

(** The loop over the attribute names, in both encoders. *)
Fixpoint encode_oids (oid_strings : list string) (enc : Enc) : outcome Enc KipukaError :=
  match oid_strings with
  | [] => Ok enc
  | oid_str :: rest =>
      let? components := resolve_oid_components oid_str in
      let? o := internal ("invalid OID '" +:+ oid_str +:+ "': ") (object_id components) in
      let? enc := internal ("OID encode '" +:+ oid_str +:+ "': ") (encode_oid o enc) in
      encode_oids rest enc
  end.

Definition encode_csr_attrs (oid_strings : list string) : outcome bytes KipukaError :=
  match oid_strings with
  | [] => Ok []
  | _ =>
      let? enc := internal "CsrAttrs SEQUENCE: " (start_constructed seq_tag encoder_new) in
      let? enc := encode_oids oid_strings enc in
      let? enc := internal "CsrAttrs end: " (end_constructed enc) in
      internal "CsrAttrs DER finish: " (finish enc)
  end.

Fixpoint encode_rdns (rdns : list CsrTemplateRdn) (enc : Enc) : outcome Enc KipukaError :=
  match rdns with
  | [] => Ok enc
  | rdn :: rest =>
      let? components := resolve_oid_components (rdn_oid rdn) in
      let? o := internal ("RDN OID '" +:+ rdn_oid rdn +:+ "': ") (object_id components) in
      let? enc := internal "RDN SET: " (start_constructed set_tag enc) in
      let? enc := internal "AttrTypeAndValue SEQUENCE: " (start_constructed seq_tag enc) in
      let? enc := internal "RDN OID encode: " (encode_oid o enc) in
      let? enc :=
        match rdn_value rdn with
        | Some value => internal "RDN value encode: " (encode_utf8 value enc)
        | None => Ok enc
        end in
      let? enc := internal "AttrTypeAndValue end: " (end_constructed enc) in
      let? enc := internal "RDN SET end: " (end_constructed enc) in
      encode_rdns rest enc
  end.

Definition encode_subject_template (rdns : list CsrTemplateRdn) : outcome bytes KipukaError :=
  let? enc := internal "Name SEQUENCE: " (start_constructed seq_tag encoder_new) in
  let? enc := encode_rdns rdns enc in
  let? enc := internal "Name end: " (end_constructed enc) in
  internal "Name DER finish: " (finish enc).

Definition encode_spki_template (key_alg : string) : outcome bytes KipukaError :=
  let? algs := parse_key_algorithm key_alg in
  let? enc := internal "AlgId SEQUENCE: " (start_constructed seq_tag encoder_new) in
  let? alg_oid := internal "AlgId OID: " (object_id algs.1) in
  let? enc := internal "AlgId OID encode: " (encode_oid alg_oid enc) in
  let? enc :=
    match algs.2 with
    | Some param =>
        let? param_oid := internal "curve OID: " (object_id param) in
        internal "curve OID encode: " (encode_oid param_oid enc)
    | None => internal "NULL param encode: " (encode_null enc)
    end in
  let? enc := internal "AlgId end: " (end_constructed enc) in
  internal "SPKI DER finish: " (finish enc).

Fixpoint encode_ext_oids (ext_oids : list string) (enc : Enc) : outcome Enc KipukaError :=
  match ext_oids with
  | [] => Ok enc
  | ext_oid_str :: rest =>
      let? components := resolve_oid_components ext_oid_str in
      let? o := internal ("ext OID '" +:+ ext_oid_str +:+ "': ") (object_id components) in
      let? enc := internal "ExtensionTemplate SEQUENCE: " (start_constructed seq_tag enc) in
      let? enc := internal "ext OID encode: " (encode_oid o enc) in
      let? enc := internal "ExtensionTemplate end: " (end_constructed enc) in
      encode_ext_oids rest enc
  end.

Definition encode_extension_template (ext_oids : list string) : outcome bytes KipukaError :=
  let? enc := internal "ExtReq Attribute SEQUENCE: " (start_constructed seq_tag encoder_new) in
  let? o := internal "extensionReqTemplate OID: " (object_id EXTENSION_REQ_TEMPLATE_COMPONENTS) in
  let? enc := internal "extensionReqTemplate OID encode: " (encode_oid o enc) in
  let? enc := internal "ExtReq SET: " (start_constructed set_tag enc) in
  let? enc := internal "ExtensionTemplates SEQUENCE: " (start_constructed seq_tag enc) in
  let? enc := encode_ext_oids ext_oids enc in
  let? enc := internal "ExtensionTemplates end: " (end_constructed enc) in
  let? enc := internal "ExtReq SET end: " (end_constructed enc) in
  let? enc := internal "ExtReq Attribute end: " (end_constructed enc) in
  internal "ExtReq DER finish: " (finish enc).

Definition context1 : Tag := context_specific_constructed 1.

(** The optional parts of the template. *)
Definition write_subject (t : CsrTemplate) (enc : Enc) : outcome Enc KipukaError :=
  match template_rdns t with
  | [] => Ok enc
  | rdns =>
      let? name_der := encode_subject_template rdns in
      Ok (write_bytes name_der enc)
  end.
Definition write_key (t : CsrTemplate) (enc : Enc) : outcome Enc KipukaError :=
  match template_key_algorithm t with
  | Some key_alg =>
      let? spki_der := encode_spki_template key_alg in
      let? enc := internal "[0] SPKI tag: "
        (start_constructed (context_specific_constructed 0) enc) in
      internal "[0] SPKI end: " (end_constructed (write_bytes spki_der enc))
  | None => Ok enc
  end.
Definition write_attributes (t : CsrTemplate) (enc : Enc) : outcome Enc KipukaError :=
  match template_required_extensions t with
  | [] =>
      let? enc := internal "[1] empty attrs tag: " (start_constructed context1 enc) in
      internal "[1] empty attrs end: " (end_constructed enc)
  | exts =>
      let? ext_der := encode_extension_template exts in
      let? enc := internal "[1] attrs tag: " (start_constructed context1 enc) in
      internal "[1] attrs end: " (end_constructed (write_bytes ext_der enc))
  end.

Definition encode_cri_template (t : CsrTemplate) : outcome bytes KipukaError :=
  let? enc := internal "CRI template SEQUENCE: " (start_constructed seq_tag encoder_new) in
  let? enc := internal "CRI version: " (encode_integer 0 enc) in
  let? enc := write_subject t enc in
  let? enc := write_key t enc in
  let? enc := write_attributes t enc in
  let? enc := internal "CRI template end: " (end_constructed enc) in
  internal "CRI template DER finish: " (finish enc).

Definition encode_template_attribute (t : CsrTemplate) : outcome bytes KipukaError :=
  let? enc := internal "Attribute SEQUENCE: " (start_constructed seq_tag encoder_new) in
  let? o := internal "template OID: " (object_id CSR_TEMPLATE_COMPONENTS) in
  let? enc := internal "template OID encode: " (encode_oid o enc) in
  let? enc := internal "attrValues SET: " (start_constructed set_tag enc) in
  let? cri_der := encode_cri_template t in
  let? enc := internal "attrValues SET end: " (end_constructed (write_bytes cri_der enc)) in
  let? enc := internal "Attribute end: " (end_constructed enc) in
  internal "Attribute DER finish: " (finish enc).

Definition encode_csr_attrs_with_template (oid_strings : list string) (t : option CsrTemplate)
  : outcome bytes KipukaError :=
  let t := match t with Some x => if has_content x then Some x else None | None => None end in
  match t with
  | None => match oid_strings with [] => Ok [] | _ => encode_csr_attrs oid_strings end
  | Some t =>
      let? enc := internal "CsrAttrs SEQUENCE: " (start_constructed seq_tag encoder_new) in
      let? enc := encode_oids oid_strings enc in
      let? attr_der := encode_template_attribute t in
      let? enc := internal "CsrAttrs end: " (end_constructed (write_bytes attr_der enc)) in
      internal "CsrAttrs DER finish: " (finish enc)
  end.

(** ** The handler *)

Definition csrattrs_attributes (app : AppConfig) (l : LabelExtractor) : list string :=
  match attributes l with [] => est_csr_attributes (est app) | own => own end.
Definition csrattrs_template (app : AppConfig) (l : LabelExtractor) : option CsrTemplate :=
  match template l with Some t => Some t | None => est_csr_template (est app) end.

Definition get_csrattrs (app : AppConfig) (l : LabelExtractor) : outcome Response KipukaError :=
  let attrs := csrattrs_attributes app l in
  let t := csrattrs_template app l in
  let has_template := match t with Some t => has_content t | None => false end in
  if bool_decide (attrs = []) && negb has_template then Ok (MkResponse 204 ∅ [])
  else
    let? csrattrs_der := encode_csr_attrs_with_template attrs t in
    Ok (MkResponse 200
          (<["content-transfer-encoding" := TRANSFER_ENCODING_BASE64]>
             {["content-type" := CSR_ATTRS]})
          (encode_est_base64 b64_encode csrattrs_der)).

(** ** The reference

    The same structures as trees, with no encoder; [None] if a name or an
    algorithm cannot be resolved. *)

Definition object_of (components : oid) : option Der :=
  match object_id components with inl o => Some (OidValue o) | inr _ => None end.
Definition named (s : string) : option Der :=
  match resolve_oid_components s with Ok components => object_of components | _ => None end.

Definition rdn_tree (rdn : CsrTemplateRdn) : option Der :=
  o ← named (rdn_oid rdn);
  Some (Node set_tag [Node seq_tag
    (o :: match rdn_value rdn with Some value => [Utf8Value value] | None => [] end)]).

Definition spki_tree (key_alg : string) : option Der :=
  match parse_key_algorithm key_alg with
  | Ok (alg, param) =>
      a ← object_of alg;
      p ← match param with Some curve => object_of curve | None => Some NullValue end;
      Some (Node seq_tag [a; p])
  | _ => None
  end.

Definition ext_tree (s : string) : option Der := o ← named s; Some (Node seq_tag [o]).
Definition extensions_tree (exts : list string) : option Der :=
  a ← object_of EXTENSION_REQ_TEMPLATE_COMPONENTS;
  l ← mapM ext_tree exts;
  Some (Node seq_tag [a; Node set_tag [Node seq_tag l]]).

Definition subject_trees (t : CsrTemplate) : option (list Der) :=
  match template_rdns t with
  | [] => Some []
  | rdns => l ← mapM rdn_tree rdns; Some [Node seq_tag l]
  end.
Definition key_trees (t : CsrTemplate) : option (list Der) :=
  match template_key_algorithm t with
  | Some key_alg => d ← spki_tree key_alg; Some [Node (context_specific_constructed 0) [d]]
  | None => Some []
  end.
Definition attributes_trees (t : CsrTemplate) : option (list Der) :=
  match template_required_extensions t with
  | [] => Some [Node context1 []]
  | exts => d ← extensions_tree exts; Some [Node context1 [d]]
  end.
Definition cri_tree (t : CsrTemplate) : option Der :=
  subject ← subject_trees t;
  key ← key_trees t;
  attrs ← attributes_trees t;
  Some (Node seq_tag ([IntegerValue 0] ++ subject ++ key ++ attrs)).

Definition template_tree (t : CsrTemplate) : option Der :=
  a ← object_of CSR_TEMPLATE_COMPONENTS;
  c ← cri_tree t;
  Some (Node seq_tag [a; Node set_tag [c]]).

Definition csr_attrs_tree (oid_strings : list string) (t : option CsrTemplate) : option Der :=
  l ← mapM named oid_strings;
  extra ← match t with
          | Some t => if has_content t then d ← template_tree t; Some [d] else Some []
          | None => Some []
          end;
  Some (Node seq_tag (l ++ extra)).

(** ** The encoders write the reference *)

Context `{!EncoderLaws}.

(** The result is what the reference says, an internal error if nothing. *)
Definition answers {T} (r : outcome T KipukaError) (o : option T) : Prop :=
  match o with Some b => r = Ok b | None => exists s, r = Err (EInternal s) end.

(** The same of a step of an encoder. *)
Definition written (r : outcome Enc KipukaError) (v : list (Tag * bytes) * bytes)
    (l : option (list Der)) : Prop :=
  match l with
  | Some l => exists enc, r = Ok enc /\ view enc = view_write (ders l) v
  | None => exists s, r = Err (EInternal s)
  end.

Lemma parse_parts_returns parts : returns (parse_parts parts).
Proof.
  induction parts as [|p parts IH]; simpl; [done|].
  apply obind_returns; [apply parse_unsigned_returns|]. intros n _. by apply obind_returns.
Qed.

Lemma resolve_cases s :
  (exists c, resolve_oid_components s = Ok c) \/
  (exists e, resolve_oid_components s = Err (EInternal e)).
Proof.
  unfold resolve_oid_components. destruct (List.find _ _); [by left; eexists|].
  pose proof (parse_parts_returns (split_char "."%char s)) as Hp.
  destruct (parse_parts _); simpl; [by left; eexists|by right; eexists|done].
Qed.

(** A name is resolved on both sides, or both stop. *)
Lemma named_cases s :
  (exists c o, resolve_oid_components s = Ok c /\ object_id c = inl o /\ named s = Some (OidValue o)) \/
  (exists c e, resolve_oid_components s = Ok c /\ object_id c = inr e /\ named s = None) \/
  (exists e, resolve_oid_components s = Err (EInternal e) /\ named s = None).
Proof.
  unfold named, object_of. destruct (resolve_cases s) as [[c ->]|[e ->]].
  - destruct (object_id c) as [o|e] eqn:Eo; [left; by exists c, o|right; left; by exists c, e].
  - right; right. by exists e.
Qed.
Ltac resolve s :=
  let E := fresh "E" in let E' := fresh "E" in let En := fresh "En" in
  destruct (named_cases s) as [(?c & ?o & E & E' & En)|[(?c & ?e & E & E' & En)|(?e & E & En)]];
  rewrite E, En; cbn [obind]; try rewrite E'; cbn [obind internal of_lib mbind option_bind]; try (by (hnf; eexists)).

Lemma mapM_cons {A} (f : A -> option Der) x l :
  mapM f (x :: l) = (d ← f x; ds ← mapM f l; Some (d :: ds)).
Proof. done. Qed.

Lemma encode_oids_written l enc v :
  view enc = v -> written (encode_oids l enc) v (mapM named l).
Proof.
  revert enc v. induction l as [|s l IH]; intros enc v Hv; cbn [encode_oids].
  - exists enc. split; [done|]. by rewrite Hv, view_write_nil.
  - rewrite mapM_cons. resolve s. unfold internal. der_step. der_apply IH Hn.
    destruct (mapM named l) as [ds|]; [|done]. destruct Hn as (enc' & -> & Hv').
    exists enc'. split; [done|]. by rewrite Hv', view_write_app.
Qed.


Lemma encode_rdns_written l enc v :
  view enc = v -> written (encode_rdns l enc) v (mapM rdn_tree l).
Proof.
  revert enc v. induction l as [|rdn l IH]; intros enc [lv o] Hv; cbn [encode_rdns].
  - exists enc. split; [done|]. by rewrite Hv, view_write_nil.
  - rewrite mapM_cons. unfold rdn_tree at 2. resolve (rdn_oid rdn). unfold internal. der_run.
    destruct (rdn_value rdn) as [value|]; cbn [of_lib obind]; der_run; der_apply IH Hn;
      (destruct (mapM rdn_tree l) as [ds|]; [|done]); destruct Hn as (enc' & -> & Hv');
      exists enc'; (split; [done|]); rewrite Hv', view_write_app; der_eq.
Qed.

Lemma encode_ext_oids_written l enc v :
  view enc = v -> written (encode_ext_oids l enc) v (mapM ext_tree l).
Proof.
  revert enc v. induction l as [|s l IH]; intros enc [lv o] Hv; cbn [encode_ext_oids].
  - exists enc. split; [done|]. by rewrite Hv, view_write_nil.
  - rewrite mapM_cons. unfold ext_tree at 2. resolve s. unfold internal. der_run. der_apply IH Hn.
    destruct (mapM ext_tree l) as [ds|]; [|done]. destruct Hn as (enc' & -> & Hv').
    exists enc'. split; [done|]. rewrite Hv', view_write_app. der_eq.
Qed.

(** The whole of an encoder: what it finishes with. *)
Lemma encode_subject_template_answers rdns :
  answers (encode_subject_template rdns) (l ← mapM rdn_tree rdns; Some (der (Node seq_tag l))).
Proof.
  unfold encode_subject_template, internal. pose proof view_new. der_run.
  der_apply (encode_rdns_written rdns) Hn. destruct (mapM rdn_tree rdns) as [l|].
  - destruct Hn as (enc' & -> & Hv'). cbn [obind]. rewrite view_write_open in Hv'.
    der_run. red. f_equal. der_eq.
  - destruct Hn as [e ->]. by exists e.
Qed.

Lemma object_of_cases c :
  (exists o, object_id c = inl o /\ object_of c = Some (OidValue o)) \/
  (exists e, object_id c = inr e /\ object_of c = None).
Proof. unfold object_of. destruct (object_id c) as [o|e]; [left|right]; by eexists. Qed.
Ltac object c :=
  let E := fresh "E" in let Eo := fresh "Eo" in
  destruct (object_of_cases c) as [(?o & E & Eo)|(?e & E & Eo)]; rewrite E, Eo;
  cbn [of_lib obind mbind option_bind]; try (by (hnf; eexists)).

Lemma parse_key_algorithm_cases s :
  (exists a, parse_key_algorithm s = Ok a) \/ (exists e, parse_key_algorithm s = Err (EInternal e)).
Proof.
  unfold parse_key_algorithm, curve_oid.
  repeat (case_match; cbn [obind]); first [by left; eexists | by right; eexists].
Qed.

Lemma encode_spki_template_answers s :
  answers (encode_spki_template s) (d ← spki_tree s; Some (der d)).
Proof.
  unfold encode_spki_template, spki_tree, internal. pose proof view_new.
  destruct (parse_key_algorithm_cases s) as [[[alg param] ->]|[e ->]]; cbn [obind fst snd];
    [|by exists e].
  destruct param as [curve|]; der_run; object alg; der_run; [object curve|];
    der_run; cbn [obind]; der_run; red; f_equal; der_eq.
Qed.

Lemma encode_extension_template_answers exts :
  answers (encode_extension_template exts) (d ← extensions_tree exts; Some (der d)).
Proof.
  unfold encode_extension_template, extensions_tree, internal. pose proof view_new.
  der_run. object EXTENSION_REQ_TEMPLATE_COMPONENTS. der_run.
  der_apply (encode_ext_oids_written exts) Hn. destruct (mapM ext_tree exts) as [l|].
  - destruct Hn as (enc' & -> & Hv'). cbn [obind]. rewrite view_write_open in Hv'.
    der_run. red. f_equal. der_eq.
  - destruct Hn as [e ->]. by exists e.
Qed.

(** An answer, and a step, in the form of their cases. *)
Lemma answers_cases {T} (r : outcome T KipukaError) o :
  answers r o -> (exists b, r = Ok b /\ o = Some b) \/ (exists e, r = Err (EInternal e) /\ o = None).
Proof. destruct o as [b|]; [left; by exists b|right]. unfold answers in *. naive_solver. Qed.

Lemma written_cases r v o :
  written r v o ->
  (exists enc l, r = Ok enc /\ o = Some l /\ view enc = view_write (ders l) v) \/
  (exists e, r = Err (EInternal e) /\ o = None).
Proof. destruct o as [l|]; unfold written; [left|right]; naive_solver. Qed.

Lemma write_subject_written t enc v :
  view enc = v -> written (write_subject t enc) v (subject_trees t).
Proof.
  unfold write_subject, subject_trees. intros Hv.
  destruct (template_rdns t) as [|x rdns]; [by exists enc; rewrite view_write_nil|].
  pose proof (encode_subject_template_answers (x :: rdns)) as Ha.
  destruct (mapM rdn_tree (x :: rdns)) as [l|]; [rewrite Ha|destruct Ha as [e ->]; by exists e].
  eexists. split; [done|]. rewrite bytes_ok, Hv. f_equal. der_eq.
Qed.

Lemma write_key_written t enc v : view enc = v -> written (write_key t enc) v (key_trees t).
Proof.
  unfold write_key, key_trees, internal. intros Hv.
  destruct (template_key_algorithm t) as [key_alg|]; [|by exists enc; rewrite view_write_nil].
  destruct (answers_cases _ _ (encode_spki_template_answers key_alg)) as [(b & -> & Hb)|(e & -> & Hb)];
    destruct (spki_tree key_alg) as [d|]; try done; [|by exists e].
  injection Hb as <-. cbn [obind]. destruct v as [l o]. der_run. eexists. split; [done|].
  der_view. f_equal. der_eq.
Qed.

Lemma write_attributes_written t enc v :
  view enc = v -> written (write_attributes t enc) v (attributes_trees t).
Proof.
  unfold write_attributes, attributes_trees, internal. intros Hv. destruct v as [l o].
  destruct (template_required_extensions t) as [|x exts].
  { der_run. eexists. split; [done|]. der_view. f_equal. der_eq. }
  destruct (answers_cases _ _ (encode_extension_template_answers (x :: exts)))
    as [(b & -> & Hb)|(e & -> & Hb)];
    destruct (extensions_tree (x :: exts)) as [d|]; try done; [|by exists e].
  injection Hb as <-. cbn [obind]. der_run. eexists. split; [done|].
  der_view. f_equal. der_eq.
Qed.

(** Goes on after a step of the program, on either outcome. *)
Ltac step_cases lem :=
  let Hn := fresh "Hn" in der_apply lem Hn;
  apply written_cases in Hn as [(?enc & ?l & -> & -> & ?Hv)|(?e & -> & ->)];
  cbn [obind mbind option_bind]; [rewrite ?view_write_open in *|by (hnf; eexists)].

Lemma encode_cri_template_answers t :
  answers (encode_cri_template t) (d ← cri_tree t; Some (der d)).
Proof.
  unfold encode_cri_template, cri_tree, internal. pose proof view_new. der_run.
  step_cases (write_subject_written t). step_cases (write_key_written t).
  step_cases (write_attributes_written t). der_run. red. f_equal. der_eq.
Qed.

Lemma encode_template_attribute_answers t :
  answers (encode_template_attribute t) (d ← template_tree t; Some (der d)).
Proof.
  unfold encode_template_attribute, template_tree, internal. pose proof view_new.
  der_run. object CSR_TEMPLATE_COMPONENTS. der_run.
  destruct (answers_cases _ _ (encode_cri_template_answers t)) as [(b & -> & Hb)|(e & -> & Hb)];
    destruct (cri_tree t) as [d|]; try done; [|by exists e].
  injection Hb as <-. cbn [obind mbind option_bind]. der_run. red. f_equal. der_eq.
Qed.

Lemma encode_csr_attrs_answers oid_strings :
  oid_strings <> [] ->
  answers (encode_csr_attrs oid_strings) (d ← csr_attrs_tree oid_strings None; Some (der d)).
Proof.
  unfold encode_csr_attrs, csr_attrs_tree, internal. intros Hne.
  destruct oid_strings as [|s oids]; [done|]. pose proof view_new. der_run.
  step_cases (encode_oids_written (s :: oids)). der_run. red. f_equal. der_eq.
Qed.

Lemma encode_with_template_answers oid_strings t :
  has_content t = true ->
  answers (encode_csr_attrs_with_template oid_strings (Some t))
    (d ← csr_attrs_tree oid_strings (Some t); Some (der d)).
Proof.
  unfold encode_csr_attrs_with_template, csr_attrs_tree, internal. intros ->.
  pose proof view_new. der_run. step_cases (encode_oids_written oid_strings).
  destruct (answers_cases _ _ (encode_template_attribute_answers t)) as [(b & -> & Hb)|(e & -> & Hb)];
    destruct (template_tree t) as [d|]; try done; [|by exists e].
  injection Hb as <-. cbn [obind mbind option_bind]. der_run. red. f_equal. der_eq.
Qed.

(** GET /csrattrs against the reference.  With nothing configured for the
    label (its own attributes and template first, the server's else) the
    answer is 204 and empty; otherwise its body is the base64 of the DER of
    exactly the tree of values that RFC 7030 and RFC 9908 prescribe, or, when
    a configured name cannot be resolved, an internal error and never a
    partial list. *)
Theorem get_csrattrs_spec app l :
  let attrs := csrattrs_attributes app l in
  let t := csrattrs_template app l in
  match get_csrattrs app l with
  | Ok resp =>
      status resp = 204 /\ body resp = [] /\ attrs = [] /\
        (forall x, t = Some x -> has_content x = false) \/
      status resp = 200 /\ headers resp !! "content-type" = Some CSR_ATTRS /\
        exists d, csr_attrs_tree attrs t = Some d /\
          body resp = encode_est_base64 b64_encode (der d)
  | Err e => http_status e = 500 /\ csr_attrs_tree attrs t = None
  | Panic => False
  end.
Proof.
  intros attrs t. unfold get_csrattrs. fold attrs t.
  destruct (match t with Some t => has_content t | None => false end) eqn:Hx.
  - rewrite andb_false_r. destruct t as [x|]; [|done].
    destruct (answers_cases _ _ (encode_with_template_answers attrs x Hx)) as [(b & -> & Hb)|(e & -> & Hb)];
      destruct (csr_attrs_tree attrs (Some x)) as [d|] eqn:Ed; try done.
    injection Hb as <-. right. split; [done|]. split; [done|]. by exists d.
  - rewrite andb_true_r. case_bool_decide as Ha.
    { left. split_and!; try done. by intros x ->. }
    assert (encode_csr_attrs_with_template attrs t = encode_csr_attrs attrs) as ->
      by (unfold encode_csr_attrs_with_template; destruct t; rewrite ?Hx; by destruct attrs).
    assert (csr_attrs_tree attrs t = csr_attrs_tree attrs None) as ->
      by (unfold csr_attrs_tree; destruct t; by rewrite ?Hx).
    destruct (answers_cases _ _ (encode_csr_attrs_answers attrs Ha)) as [(b & -> & Hb)|(e & -> & Hb)];
      destruct (csr_attrs_tree attrs None) as [d|] eqn:Ed; try done.
    injection Hb as <-. right. split; [done|]. split; [done|]. by exists d.
Qed.
End CsrAttrs.

(** ** An example: one identifier, and a template that asks for a common name
    and fixes the organization. *)

#[export] Instance example_attribute_oids : AttributeOids := {
  PKCS9_CHALLENGE_PASSWORD := [1; 2; 840; 113549; 1; 9; 7];
  EC_PUBLIC_KEY := [1; 2; 840; 10045; 2; 1];
  RSA_ENCRYPTION := [1; 2; 840; 113549; 1; 1; 1];
  EC_CURVE_P256 := [1; 2; 840; 10045; 3; 1; 7];
  EC_CURVE_P384 := [1; 3; 132; 0; 34];
  EC_CURVE_P521 := [1; 3; 132; 0; 35]
}.
Definition example_template : CsrTemplate :=
  MkTemplate [MkRdn "2.5.4.10" (Some "Ex"); MkRdn "2.5.4.3" None] (Some "EC:P-256") [].
Definition example_attrs_app : AppConfig :=
  MkAppConfig (MkEstConfig [] (Some example_template) [] false 3600) [] ∅ "main" None.
Definition example_attrs_label : LabelExtractor :=
  MkLabel "iot" "main" no_policy ["1.2.840.113549.1.9.7"] None None None.
Definition example_csrattrs_der : bytes :=
  [48; 82; 6; 9; 42; 134; 72; 134; 247; 13; 1; 9; 7;
   48; 69; 6; 11; 42; 134; 72; 134; 247; 13; 1; 9; 16; 2; 61;
   49; 54; 48; 52; 2; 1; 0;
   48; 22; 49; 11; 48; 9; 6; 3; 85; 4; 10; 12; 2; 69; 120;
           49; 7; 48; 5; 6; 3; 85; 4; 3;
   160; 21; 48; 19; 6; 7; 42; 134; 72; 206; 61; 2; 1; 6; 8; 42; 134; 72; 206; 61; 3; 1; 7;
   161; 0].

Lemma get_csrattrs_spec_witness : exists resp d,
  get_csrattrs to_ascii_lowercase (fun b => b) example_attrs_app example_attrs_label = Ok resp /\
  csr_attrs_tree to_ascii_lowercase ["1.2.840.113549.1.9.7"] (Some example_template) = Some d /\
  der d = example_csrattrs_der /\ body resp = encode_est_base64 (fun b => b) example_csrattrs_der.
Proof.
  pose proof (get_csrattrs_spec to_ascii_lowercase (fun b => b) example_attrs_app
    example_attrs_label) as Hs.
  destruct (get_csrattrs _ _ _ _) as [resp|e|] eqn:E; [|vm_compute in E; congruence..].
  exists resp. destruct Hs as [(_ & _ & Hn & _)|(_ & _ & d & Hd & Hb)]; [discriminate Hn|].
  exists d. split; [reflexivity|]. split; [exact Hd|].
  assert (Hder : option_map der (csr_attrs_tree to_ascii_lowercase ["1.2.840.113549.1.9.7"]
    (Some example_template)) = Some example_csrattrs_der) by (vm_compute; reflexivity).
  assert (Hd' : csr_attrs_tree to_ascii_lowercase ["1.2.840.113549.1.9.7"] (Some example_template) =
    Some d) by exact Hd.
  rewrite Hd' in Hder. injection Hder as Hder.
  split; [exact Hder|]. by rewrite Hb, Hder.
Defined.
