(* ===== verification/Enroll.v ===== *)
(** * The enrollment handlers

    [src/routes/simpleenroll.rs], [src/routes/simplereenroll.rs],
    [src/routes/cacerts.rs] and the proof-of-possession linking of
    [src/auth/mtls.rs].  A handler gets the authenticated caller, the
    resolved label and the body, and answers a response or an error, with
    the state it leaves.  What it reads from outside is the record
    [Outside]; the revocation check is a function of the certificate. *)
From S2P Require Import Prelude Words Text Errors Calendar X509 Der Issuance AuditLog NameMatch EnrollAuthz FailureTracker BasicOtp Transfer DogtagPool Labels.
Open Scope Z_scope.

Section Enroll.
Context `{X509Lib} `{HC : CmsOids} `{HE : Encoder}.

(** ** The names of a request *)

Definition csr_subject_attrs (csr : Csr) : option (list (string * string)) :=
  match csr_subject csr with inl der => Some (parse_name_attrs der) | inr _ => None end.

(** The first subjectAltName among the requested extensions. *)
Fixpoint find_san_value (values : list bytes) : option bytes :=
  match values with
  | [] => None
  | v :: values' =>
      match find_extension_value v SUBJECT_ALT_NAME with
      | Some san => Some san
      | None => find_san_value values'
      end
  end.
Fixpoint find_san_attribute (attrs : list (oid * list bytes)) : option bytes :=
  match attrs with
  | [] => None
  | (o, values) :: attrs' =>
      if negb (bool_decide (o = PKCS9_EXTENSION_REQUEST)) then find_san_attribute attrs'
      else
        match find_san_value values with
        | Some san => Some san
        | None => find_san_attribute attrs'
        end
  end.
Definition csr_sans (csr : Csr) : list (Z * bytes) :=
  match csr_attributes csr with
  | None => []
  | Some attrs =>
      match find_san_attribute attrs with
      | Some san => parse_general_names san
      | None => []
      end
  end.

Definition authorize (csr : Csr) (identity : string) (p : EnrollAuthzPolicy)
  : outcome unit AuthzError :=
  authorize_csr csr_subject_attrs csr_sans csr identity p.

(** The texts of the reasons and of quoted strings. *)
Variable authz_reason : AuthzError -> string.
Variable debug : string -> string.

(** ** Validation of a request *)

Definition bad_request (context e : string) : KipukaError := EBadRequest (context +:+ e).

(** Key sizes of [validate_csr]; other algorithms are let through. *)
Definition check_minimum_key (info : PublicKeyInfo) : outcome unit KipukaError :=
  match info with
  | Rsa bit_count =>
      if bit_count <? 2048 then
        Err (EBadRequest ("RSA key too small: " +:+ pretty bit_count +:+
               "-bit (minimum 2048-bit required)"))
      else Ok tt
  | Ec bit_count curve =>
      if bit_count <? 256 then
        Err (EBadRequest ("EC key too small: " +:+ default "unknown" curve +:+ " " +:+
               pretty bit_count +:+ "-bit (minimum P-256 required)"))
      else Ok tt
  | UnknownKey _ _ => Ok tt
  end.

(** [simpleenroll::validate_csr] *)
Definition validate_request (csr_der : bytes) (auth : AuthResult) (l : LabelExtractor)
  : outcome unit KipukaError :=
  if bool_decide (csr_der = []) then Err (EBadRequest "empty CSR")
  else if Z.of_nat (length csr_der) <? 60 then Err (EBadRequest "CSR is too short to be valid")
  else
    let? csr := of_lib (bad_request "CSR parse failed: ") (csr_from_der csr_der) in
    let? cri_der := of_lib (bad_request "CSR CRI encode failed: ") (csr_cri csr) in
    let? sig_alg_der :=
      of_lib (bad_request "CSR sig alg encode failed: ") (csr_signature_algorithm csr) in
    let? spki_der := of_lib (bad_request "CSR SPKI encode failed: ") (csr_spki csr) in
    let? _ := of_lib (bad_request "CSR self-signature verification failed: ")
      (verify_signature cri_der sig_alg_der (csr_signature csr) spki_der) in
    let? _ :=
      map_err (fun reason => EForbidden ("enrollment not authorized: " +:+ authz_reason reason))
        (authorize csr (auth_identity auth) (enroll_policy l)) in
    check_minimum_key (csr_public_key_info csr).

(** [mtls::validate_pop_linking]; the lower case of Unicode is a parameter. *)
Variable to_lowercase : string -> string.
Definition validate_pop_linking (auth : AuthResult) (csr_subject : string) : outcome unit string :=
  let? cert_subject := ok_or (auth_subject_dn auth)
    "mTLS certificate has no subject DN for POP linking" in
  if negb (String.eqb (to_lowercase (trim cert_subject)) (to_lowercase (trim csr_subject))) then
    Err ("POP linking failed: TLS cert subject " +:+ debug cert_subject +:+
         " does not match CSR subject " +:+ debug csr_subject)
  else Ok tt.

Definition validate_pop_linking_from_csr (csr_der : bytes) (auth : AuthResult)
  : outcome unit KipukaError :=
  let? csr := of_lib (bad_request "CSR parse failed for POP linking: ") (csr_from_der csr_der) in
  let? csr_subject_der := of_lib (bad_request "CSR subject encode failed: ") (csr_subject csr) in
  map_err (bad_request "POP linking validation failed: ")
    (validate_pop_linking auth (format_dn csr_subject_der)).

(** ** Responses *)

Variable b64_encode : bytes -> bytes.
Variable b64_decode : bytes -> bytes + string.
Definition certs_response (pkcs7_der : bytes) : Response :=
  MkResponse 200
    (<["content-transfer-encoding" := TRANSFER_ENCODING_BASE64]>
      {["content-type" := PKCS7_CERTS]})
    (encode_est_base64 b64_encode pkcs7_der).

Definition accepted_response (retry_after : Z) : Response :=
  MkResponse 202 {["retry-after" := pretty retry_after]} [].

(** ** Dogtag *)

Inductive EnrollStatus : Type := Complete | Pending | Rejected | Canceled.
Record EnrollResult : Type := MkEnrollResult {
  request_id : string;
  enroll_status : EnrollStatus;
  dogtag_certificate : option bytes
}.
(** The pool of clients, the configured profile, and a client's answer to a
    request in PEM. *)
Record Dogtag : Type := MkDogtag {
  dogtag_pool : DogtagPool;
  dogtag_profile_id : option string;
  dogtag_enroll : string -> string -> string -> EnrollResult + string
}.

(** What a call reads from outside. *)
Record Outside : Type := MkOutside {
  admission : AuditCall;
  event : AuditCall;
  insert_failed : bool;
  pending_error : option string;
  profile_now : Z;
  inputs : IssueInputs Coins;
  read_file : string -> bytes + string;
  utf8_error_text : bytes -> string;
  dogtag : option Dogtag;
  revocation : bytes -> outcome unit string
}.

Variable digest : option bytes -> bytes -> string.
Variable json_object : list (string * string) -> string.

Abbreviation audit_event := (record_audit_event digest json_object).
Abbreviation audit_event_with_actor := (record_audit_event_with_actor digest json_object).

Definition LF : string := String "010"%char EmptyString.

(** [enroll_with_dogtag]: [Ok None] when there is no such backend. *)
Definition enroll_with_dogtag (app : AppConfig) (o : Outside) (s : AppState) (csr_der : bytes)
    (ca_id identity operation : string) : AppState * outcome (option Response) KipukaError :=
  match dogtag o with
  | None => (s, Ok None)
  | Some dg =>
      match get_client (dogtag_pool dg) with
      | Err e => (s, Err (EServiceUnavailable ("Dogtag CA unavailable: " +:+ e)))
      | Panic => (s, Panic)
      | Ok client =>
          let csr_pem := "-----BEGIN CERTIFICATE REQUEST-----" +:+ LF +:+
            string_of_bytes (b64_encode csr_der) +:+ LF +:+ "-----END CERTIFICATE REQUEST-----" in
          match dogtag_profile_id dg with
          | None => (s, Panic)
          | Some profile_id =>
              match dogtag_enroll dg client csr_pem profile_id with
              | inr e => (s, Err (ECa ("Dogtag enrollment failed: " +:+ e)))
              | inl r =>
                  let '(s, answer) :=
                    match enroll_status r with
                    | Complete =>
                        match dogtag_certificate r with
                        | None =>
                            (s, Err (ECa "Dogtag returned complete status but no certificate"))
                        | Some cert_der =>
                            let s := (insert_certificate s (insert_failed o)
                              (MkCertRow (request_id r) "(dogtag-issued)" "(dogtag)" EmptyString
                                 EmptyString cert_der ca_id profile_id "active" None None)).1 in
                            (s, let? pkcs7_der := build_certs_only_pkcs7 [cert_der] in
                                Ok (certs_response pkcs7_der, operation +:+ "_success"))
                        end
                    | Pending =>
                        (s, Ok (accepted_response (disconnected_retry_after_secs (est app)),
                                operation +:+ "_deferred"))
                    | Rejected =>
                        (s, Err (ECa ("Dogtag CA rejected enrollment: request_id=" +:+ request_id r)))
                    | Canceled =>
                        (s, Err (ECa ("Dogtag enrollment was canceled: request_id=" +:+ request_id r)))
                    end in
                  match answer with
                  | Ok (response, ev) =>
                      (audit_event_with_actor s ev identity
                         ("ca_id=" +:+ ca_id +:+ ", identity=" +:+ identity +:+
                          ", backend=dogtag, request_id=" +:+ request_id r) (event o),
                       Ok (Some response))
                  | Err e => (s, Err e)
                  | Panic => (s, Panic)
                  end
              end
          end
      end
  end.

(** ** Signing by the server itself *)

Definition denied_detail (ca_id identity : string) (e : KipukaError) : string :=
  "ca_id=" +:+ ca_id +:+ ", identity=" +:+ identity +:+ ", reason=" +:+ kipuka_error_to_string e.

(** The profile of the handlers: the defaults with the CA's days. *)
Definition label_profile (ca : CaState) (now : Z) : EnrollmentProfile :=
  let d := enrollment_profile_default now in
  MkProfile (profile_name d) (Z.min (ca_validity_days ca) (cab_forum_max_validity_days now))
    (max_validity_seconds d) (max_not_after d) (key_usage d) (Issuance.extended_key_usage d)
    (include_ski d) (include_aki d) (min_rsa_bits d) (min_ecdsa_curve d) (ct_enabled d)
    (certificate_policies d) (allowed_ml_dsa_levels d) (allowed_ml_kem_levels d)
    (allow_composite_ml_dsa d) (require_dual_cert d) (must_staple d).

Definition issuer_name (ca : CaState) : string :=
  format_dn (match cert_from_der (ca_cert_der ca) with inl c => cert_subject c | inr _ => [] end).

Definition issued_row (r : IssuanceResult) (ca : CaState) (ca_id profile : string) : CertRow :=
  MkCertRow (serial_number r) (subject_dn r) (issuer_name ca) (format_utc (not_before r))
    (format_utc (not_after r)) (certificate_der r) ca_id profile "active" None None.

(** The rest of both handlers once the request is accepted; [operation] is
    the handler's name. *)
Definition direct_signing (app : AppConfig) (o : Outside) (s : AppState) (csr_der : bytes)
    (ca_id identity operation : string) : AppState * outcome Response KipukaError :=
  match get_ca app ca_id with
  | None => (s, Err ENotFound)
  | Some ca =>
      match List.find (fun c => String.eqb (cfg_id c) ca_id) (ca_configs app) with
      | None => (s, Err (ECa ("CA config not found for id=" +:+ ca_id)))
      | Some ca_cfg =>
          match Issuance.resolve_signing_key (utf8_error_text o) (read_file o) ca_cfg (hsm app) with
          | Err e => (s, Err e)
          | Panic => (s, Panic)
          | Ok key =>
              let p := label_profile ca (profile_now o) in
              match Issuance.issue_certificate (inputs o) csr_der p (ca_cert_der ca) key
                      (ca_hash_algorithm ca) (ca_ocsp_url ca) (ca_crl_url ca) with
              | Err e =>
                  let err := kipuka_of_issuance e in
                  (match err with
                   | EBadRequest _ =>
                       audit_event_with_actor s (operation +:+ "_denied") identity
                         (denied_detail ca_id identity err) (event o)
                   | _ => s
                   end, Err err)
              | Panic => (s, Panic)
              | Ok r =>
                  let s := (insert_certificate s (insert_failed o)
                              (issued_row r ca ca_id (profile_name p))).1 in
                  match build_certs_only_pkcs7 [certificate_der r] with
                  | Err e => (s, Err e)
                  | Panic => (s, Panic)
                  | Ok pkcs7_der =>
                      (audit_event s (operation +:+ "_success")
                         ("ca_id=" +:+ ca_id +:+ ", identity=" +:+ identity) (event o),
                       Ok (certs_response pkcs7_der))
                  end
              end
          end
      end
  end.

(** The Dogtag backend if there is one, else the server's own CAs. *)
Definition issue_or_forward (app : AppConfig) (o : Outside) (s : AppState) (csr_der : bytes)
    (ca_id identity operation : string) : AppState * outcome Response KipukaError :=
  match enroll_with_dogtag app o s csr_der ca_id identity operation with
  | (s, Err e) => (s, Err e)
  | (s, Panic) => (s, Panic)
  | (s, Ok (Some response)) => (s, Ok response)
  | (s, Ok None) => direct_signing app o s csr_der ca_id identity operation
  end.

(** ** The handlers *)

Definition auth_method_debug (m : AuthMethod) : string :=
  match m with
  | Mtls => "Mtls" | Otp => "Otp" | Gssapi => "Gssapi" | Cms => "Cms" | NoAuth => "None"
  end.

(** Disconnected mode: the request is kept for later. *)
Definition defer (app : AppConfig) (o : Outside) (s : AppState) (csr_der : bytes)
    (ca_id : string) (auth : AuthResult) : AppState * outcome Response KipukaError :=
  let subject_dn :=
    match csr_from_der csr_der with
    | inl csr => Some (format_dn (match csr_subject csr with inl der => der | inr _ => [] end))
    | inr _ => None
    end in
  match pending_error o with
  | Some e => (s, Err (ECa ("failed to persist CSR for deferred signing: " +:+ e)))
  | None =>
      let s := set_pending s (pending_csrs s ++
        [MkPending csr_der ca_id subject_dn (auth_identity auth)
           (auth_method_debug (auth_method auth))]) in
      (audit_event s "simpleenroll_deferred"
         ("ca_id=" +:+ ca_id +:+ ", identity=" +:+ auth_identity auth) (event o),
       Ok (accepted_response (disconnected_retry_after_secs (est app))))
  end.

Definition post_simpleenroll (app : AppConfig) (o : Outside) (s : AppState) (auth : AuthResult)
    (l : LabelExtractor) (body : bytes) : AppState * outcome Response KipukaError :=
  let ca_id := label_ca l in
  let identity := auth_identity auth in
  match admit_enrollment digest json_object s identity "simpleenroll" (admission o) with
  | (s, Err e) => (s, Err e)
  | (s, Panic) => (s, Panic)
  | (s, Ok _) =>
      match map_err (bad_request "CSR decoding failed: ") (decode_est_base64 b64_decode body) with
      | Err e => (s, Err e)
      | Panic => (s, Panic)
      | Ok csr_der =>
          match validate_request csr_der auth l with
          | Err e =>
              (match e with
               | EForbidden _ | EBadRequest _ =>
                   audit_event_with_actor s "simpleenroll_denied" identity
                     (denied_detail ca_id identity e) (event o)
               | _ => s
               end, Err e)
          | Panic => (s, Panic)
          | Ok _ =>
              if default (disconnected (est app)) (label_deferred l)
              then defer app o s csr_der ca_id auth
              else issue_or_forward app o s csr_der ca_id identity "simpleenroll"
          end
      end
  end.

Definition post_simplereenroll (app : AppConfig) (o : Outside) (s : AppState) (auth : AuthResult)
    (l : LabelExtractor) (body : bytes) : AppState * outcome Response KipukaError :=
  let ca_id := label_ca l in
  match auth_method auth with
  | Mtls =>
      let identity := auth_identity auth in
      match admit_enrollment digest json_object s identity "simplereenroll" (admission o) with
      | (s, Err e) => (s, Err e)
      | (s, Panic) => (s, Panic)
      | (s, Ok _) =>
          let accepted :=
            let? csr_der :=
              map_err (bad_request "CSR decoding failed: ") (decode_est_base64 b64_decode body) in
            let? _ :=
              if bool_decide (csr_der = []) || (Z.of_nat (length csr_der) <? 60)
              then Err (EBadRequest "CSR is empty or too short") else Ok tt in
            let? _ := validate_pop_linking_from_csr csr_der auth in
            let? _ :=
              match client_cert_der auth with
              | Some cert_der =>
                  map_err (fun e => EForbidden ("client certificate revocation check failed: " +:+ e))
                    (revocation o cert_der)
              | None => Ok tt
              end in
            Ok csr_der in
          match accepted with
          | Err e => (s, Err e)
          | Panic => (s, Panic)
          | Ok csr_der =>
              match validate_request csr_der auth l with
              | Err error =>
                  (audit_event_with_actor s "simplereenroll_denied" identity
                     (denied_detail ca_id identity error) (event o), Err error)
              | Panic => (s, Panic)
              | Ok _ => issue_or_forward app o s csr_der ca_id identity "simplereenroll"
              end
          end
      end
  | _ => (s, Err (EAuth "re-enrollment requires mTLS client certificate authentication"))
  end.

(** [cacerts::get_cacerts] *)
Definition get_cacerts (app : AppConfig) (o : Outside) (s : AppState) (l : LabelExtractor)
  : AppState * outcome Response KipukaError :=
  match get_ca app (label_ca l) with
  | None => (s, Err ENotFound)
  | Some ca =>
      let chain := match ca_cert_chain ca with [] => [ca_cert_der ca] | l => l end in
      match build_certs_only_pkcs7 chain with
      | Err e => (s, Err e)
      | Panic => (s, Panic)
      | Ok pkcs7_der =>
          (audit_event s "cacerts" ("ca_id=" +:+ label_ca l) (event o),
           Ok (certs_response pkcs7_der))
      end
  end.
End Enroll.
