(* ===== verification/EnrollSpec.v ===== *)
(** * What the enrollment handlers guarantee

    Of Enroll.v, composed with issuance, authorization and the audit trail:
    to whom and for what names a certificate is returned, what is recorded,
    and that a refused request leaves nothing behind. *)
From S2P Require Import Prelude Words Text Errors Calendar X509 Der ExampleLibs Issuance IssuanceSpec AuditLog AuditSpec NameMatch EnrollAuthz FailureTracker BasicOtp Transfer DogtagPool Labels Enroll.
Open Scope Z_scope.

Section Names.
Context `{X509Lib}.

(** What [find_extension_value] documents: it scans the sequence of
    extensions for the first with the identifier. *)
Class ExtensionLaws : Prop := {
  find_extension_value_ok v exts o :
    decode_extensions v = inl exts ->
    find_extension_value v o =
      option_map snd (List.find (fun e : RawExtension => bool_decide (e.1.1 = o)) exts)
}.
Context `{Hlaws : !ExtensionLaws}.

(** ** The names that are authorized are the names that are certified *)

Definition first_san (l : list Extension) : option bytes := option_map snd (List.find is_san l).

Lemma first_san_app l1 l2 :
  first_san (l1 ++ l2) = match first_san l1 with Some s => Some s | None => first_san l2 end.
Proof. unfold first_san. induction l1 as [|e l1 IH]; simpl; [done|]. by destruct (is_san e). Qed.

Lemma collect_extensions_eq exts found r :
  collect_extensions found exts = Ok r -> r = found ++ map resolve_critical exts.
Proof.
  revert found. induction exts as [|[[o c] v] exts IH]; simpl; intros found E.
  - injection E as <-. by rewrite app_nil_r.
  - destruct (existsb _ found); [done|]. apply IH in E as ->. by rewrite <- app_assoc.
Qed.

Lemma first_san_resolved exts :
  first_san (map resolve_critical exts) =
  option_map snd (List.find (fun e : RawExtension => bool_decide (e.1.1 = SUBJECT_ALT_NAME)) exts).
Proof.
  unfold first_san. induction exts as [|[[o c] v] exts IH]; simpl; [done|].
  unfold is_san at 1. simpl. by case_bool_decide.
Qed.

Lemma collect_values_san values found r :
  collect_values found values = Ok r ->
  exists l, r = found ++ l /\ find_san_value values = first_san l.
Proof.
  revert found. induction values as [|v values IH]; simpl; intros found E.
  - injection E as <-. exists []. by rewrite app_nil_r.
  - inv_ok E. inv_ok E. apply of_lib_Ok in H0. apply collect_extensions_eq in H1 as ->.
    apply IH in E as (l & -> & Hl). exists (map resolve_critical t ++ l). rewrite <- app_assoc.
    split; [done|]. rewrite first_san_app, first_san_resolved, (find_extension_value_ok _ _ _ H0).
    by destruct (option_map snd _).
Qed.

Lemma collect_attributes_san attrs found r :
  collect_attributes found attrs = Ok r ->
  exists l, r = found ++ l /\ find_san_attribute attrs = first_san l.
Proof.
  revert found. induction attrs as [|[o vs] attrs IH]; simpl; intros found E.
  - injection E as <-. exists []. by rewrite app_nil_r.
  - destruct (negb _); [by apply IH|]. inv_ok E. apply collect_values_san in H0 as (l & -> & Hl).
    apply IH in E as (l' & -> & Hl'). exists (l ++ l'). rewrite <- app_assoc. split; [done|].
    rewrite first_san_app, Hl. by destruct (first_san l).
Qed.

(** The subjectAltName that issuance copies is the one authorization read. *)
Lemma requested_san csr_der csr req e :
  csr_from_der csr_der = inl csr -> requested_extensions csr_der = Ok req ->
  In e req -> is_san e = true -> csr_sans csr = parse_general_names e.2.
Proof.
  intros Hcsr Hreq Hin He. pose proof (requested_extensions_NoDup _ _ Hreq) as Hn.
  unfold requested_extensions in Hreq. rewrite Hcsr in Hreq. cbn [of_lib obind] in Hreq.
  unfold csr_sans. destruct (csr_attributes csr) as [attrs|].
  2: { by injection Hreq as <-. }
  apply collect_attributes_san in Hreq as (l & -> & ->). simpl in *.
  unfold first_san. destruct (List.find is_san l) as [e'|] eqn:Ef; simpl.
  - apply List.find_some in Ef as [Hin' He']. apply bool_decide_eq_true in He, He'.
    enough (e = e') by (by subst). clear -Hn Hin Hin' He He'.
    induction l as [|x l IH]; [done|]. apply NoDup_cons in Hn as [Hx Hn].
    destruct Hin as [->|Hin], Hin' as [->|Hin']; [done| | |by apply IH].
    + destruct Hx. apply list_elem_of_In, in_map_iff. exists e'. split; [congruence|done].
    + destruct Hx. apply list_elem_of_In, in_map_iff. exists e. split; [congruence|done].
  - by rewrite (List.find_none _ _ Ef e Hin) in He.
Qed.

Lemma authorize_Ok csr identity p :
  authorize csr identity p = Ok tt <->
  authorized (csr_subject_cn csr_subject_attrs csr) (csr_sans csr) identity p.
Proof.
  unfold authorize, authorize_csr. destruct (is_noop p) eqn:En; [|apply check_names_Ok].
  split; [|done]. intros _. by apply noop_authorized.
Qed.
Lemma authorize_csr_der_Ok csr_der csr identity p :
  csr_from_der csr_der = inl csr ->
  authorize_csr_der csr_subject_attrs csr_sans (fun d => of_lib id (csr_from_der d)) csr_der identity p = Ok tt ->
  authorized (csr_subject_cn csr_subject_attrs csr) (csr_sans csr) identity p.
Proof.
  intros Hc. unfold authorize_csr_der. destruct (is_noop p) eqn:En; [intros _; by apply noop_authorized|].
  rewrite Hc. cbn [of_lib]. intros E. by apply authorize_Ok.
Qed.

End Names.

(** ** A request in order *)

Section Handlers.
Context `{X509Lib} `{HC : CmsOids} `{HE : Encoder}.
Variable authz_reason : AuthzError -> string.
Variable debug : string -> string.
Variable to_lowercase : string -> string.
Variable b64_encode : bytes -> bytes.
Variable b64_decode : bytes -> bytes + string.
Variable digest : option bytes -> bytes -> string.
Variable json_object : list (string * string) -> string.

Definition minimum_key (info : PublicKeyInfo) : Prop :=
  match info with Rsa n => 2048 <= n | Ec n _ => 256 <= n | UnknownKey _ _ => True end.

(** The request parses, is signed with its own key, asks for names the
    caller may have, and has a key of the minimum size. *)
Definition request_valid (csr_der : bytes) (csr : Csr) (auth : AuthResult) (l : LabelExtractor)
  : Prop :=
  60 <= Z.of_nat (length csr_der) /\ csr_from_der csr_der = inl csr /\
  proof_of_possession csr /\
  authorized (csr_subject_cn csr_subject_attrs csr) (csr_sans csr) (auth_identity auth)
    (enroll_policy l) /\
  minimum_key (csr_public_key_info csr).

Lemma check_minimum_key_Ok info : check_minimum_key info = Ok tt <-> minimum_key info.
Proof.
  destruct info; simpl; [by rewrite guard_Ok, Z.ltb_ge|by rewrite guard_Ok, Z.ltb_ge|done].
Qed.

Lemma validate_request_Ok csr_der auth l :
  validate_request authz_reason csr_der auth l = Ok tt <->
  exists csr, request_valid csr_der csr auth l.
Proof.
  unfold validate_request, request_valid, proof_of_possession. case_bool_decide as Hnil.
  { subst. split; [done|]. intros (? & ? & _). simpl in *. lia. }
  destruct (Z.ltb_spec (Z.of_nat (length csr_der)) 60).
  { split; [done|]. intros (? & ? & _). lia. }
  split.
  - intros E. do 6 inv_ok E. destruct t3, t4. apply of_lib_Ok in H1, H2, H3, H4, H5.
    apply map_err_Ok, authorize_Ok in H6. apply check_minimum_key_Ok in E.
    exists t. split_and!; try done. by exists t0, t1, t2.
  - intros (csr & _ & -> & (cri & alg & spki & Hc & Hs & Hp & Hv) & Ha & Hk). cbn [of_lib obind].
    rewrite Hc, Hs, Hp. cbn [of_lib obind]. rewrite Hv. cbn [of_lib obind]. apply authorize_Ok in Ha. rewrite Ha. cbn [map_err obind].
    by apply check_minimum_key_Ok.
Qed.

(** ** The audit of an admission *)

(** The event is the newest record of the trail, or the trail is off. *)
Definition admitted (s s1 : AppState) (identity operation : string) (c : AuditCall) : Prop :=
  certificates s1 = certificates s /\ pending_csrs s1 = pending_csrs s /\
  if enabled (audit_config (app_audit s)) then
    halted (app_audit s) = false /\
    exists kept row, audit_rows (app_audit_db s1) = kept ++ [row] /\
      ar_actor row = Some identity /\ ar_event_type row = "enroll.request" /\
      ar_timestamp row = call_time c /\
      ar_detail_json row = Some (json_object [("detail", operation)])
  else s1 = s.

Lemma admit_enrollment_Ok s identity operation c s1 :
  admit_enrollment digest json_object s identity operation c = (s1, Ok tt) ->
  admitted s s1 identity operation c.
Proof.
  unfold admit_enrollment, admitted, record_checked, with_audit.
  destruct s as [db st certs pend]. simpl. destruct (enabled (audit_config st)); simpl.
  2: { by intros [= <-]. }
  unfold record_inner. destruct (is_halted st) eqn:Eh; [done|].
  destruct (f_begin (call_faults c)); [done|].
  destruct (write_event _ _ db st _ _ _) as [db' [[]|e|]] eqn:Ew; [|done..].
  destruct (f_commit (call_faults c)); [done|].
  destruct (track_violations _ _ _) as [st' r]. simpl. intros [= <- Hr]. simpl.
  split; [done|]. split; [done|]. split; [done|].
  apply write_event_Ok in Ew as (_ & db1 & _ & Hrows & _). rewrite Hrows.
  by eexists _, _.
Qed.

Lemma admit_enrollment_frame s identity operation c :
  certificates (admit_enrollment digest json_object s identity operation c).1 = certificates s /\
  pending_csrs (admit_enrollment digest json_object s identity operation c).1 = pending_csrs s.
Proof. unfold admit_enrollment. by destruct (record_checked _ _ _ _ _ _ _) as [[db st] r]. Qed.
(** ** Certificates the server signs *)

(** [r] was issued for the request by the CA [ca_id], with the key of its
    configuration. *)
Definition issued_for (app : AppConfig) (o : Outside) (csr_der : bytes) (ca_id : string)
    (ca : CaState) (r : IssuanceResult) : Prop :=
  get_ca app ca_id = Some ca /\
  exists cfg key, In cfg (ca_configs app) /\ cfg_id cfg = ca_id /\
    Issuance.resolve_signing_key (utf8_error_text o) (read_file o) cfg (hsm app) = Ok key /\
    Issuance.issue_certificate (inputs o) csr_der (label_profile ca (profile_now o))
      (ca_cert_der ca) key (ca_hash_algorithm ca) (ca_ocsp_url ca) (ca_crl_url ca) = Ok r.

(** The response that carries it. *)
Definition carries (resp : Response) (r : IssuanceResult) : Prop :=
  exists pkcs7, build_certs_only_pkcs7 [certificate_der r] = Ok pkcs7 /\
    resp = certs_response b64_encode pkcs7.

Abbreviation direct_signing := (direct_signing b64_encode digest json_object).
Abbreviation enroll_with_dogtag :=
  (enroll_with_dogtag b64_encode digest json_object).
Abbreviation issue_or_forward :=
  (issue_or_forward b64_encode digest json_object).
Abbreviation post_simpleenroll :=
  (post_simpleenroll authz_reason b64_encode b64_decode digest json_object).
Abbreviation post_simplereenroll :=
  (post_simplereenroll authz_reason debug to_lowercase b64_encode b64_decode
     digest json_object).

Lemma insert_certificate_spec s failed row :
  pending_csrs (insert_certificate s failed row).1 = pending_csrs s /\
  (certificates (insert_certificate s failed row).1 = certificates s ++ [row] \/
   certificates (insert_certificate s failed row).1 = certificates s /\
   (failed = true \/ exists q, In q (certificates s) /\ cr_serial q = cr_serial row)).
Proof.
  unfold insert_certificate. destruct (failed || _) eqn:E; simpl; [|by split; [|left]].
  split; [done|]. right. split; [done|]. apply orb_true_iff in E as [->|E]; [by left|right].
  apply existsb_exists in E as (q & Hq & Hs). apply String.eqb_eq in Hs. eauto.
Qed.

(** What a handler's answer says about the tables. *)
Definition tables_after (s s' : AppState) (ans : outcome Response KipukaError) : Prop :=
  pending_csrs s' = pending_csrs s /\
  (certificates s' = certificates s \/
   (exists row, certificates s' = certificates s ++ [row]) /\
   (forall e, ans = Err e -> http_status e = 500)).

Lemma direct_signing_spec app o s csr_der ca_id identity operation :
  let (s', ans) := direct_signing app o s csr_der ca_id identity operation in
  tables_after s s' ans /\
  forall resp, ans = Ok resp -> exists ca r, issued_for app o csr_der ca_id ca r /\ carries resp r /\
    let row := issued_row r ca ca_id "default" in
    certificates s' = (insert_certificate s (insert_failed o) row).1.(certificates).
Proof.
  unfold Enroll.direct_signing, tables_after, issued_for, carries.
  destruct (get_ca app ca_id) as [ca|]; [|split; [by split; [|left]|done]].
  destruct (List.find _ (ca_configs app)) as [cfg|] eqn:Ecfg; [|split; [by split; [|left]|done]].
  apply List.find_some in Ecfg as [Hin Hid]. apply String.eqb_eq in Hid.
  destruct (Issuance.resolve_signing_key _ _ _ _) as [key|e|] eqn:Ek;
    [|split; [by split; [|left]|done]..].
  destruct (Issuance.issue_certificate _ _ _ _ _ _ _ _) as [r|e|] eqn:Ei.
  - cbn [profile_name label_profile enrollment_profile_default].
    set (row := issued_row r ca ca_id "default").
    destruct (insert_certificate_spec s (insert_failed o) row) as [Hp Hc].
    set (s1 := (insert_certificate s (insert_failed o) row).1) in *.
    assert (Hc' : certificates s1 = certificates s \/ exists row, certificates s1 = certificates s ++ [row])
      by (destruct Hc as [Hc|[Hc _]]; eauto). clear Hc.
    pose proof (build_certs_only_pkcs7_errors [certificate_der r]) as Hca.
    destruct (build_certs_only_pkcs7 _) as [pkcs7|e|] eqn:Ep; simpl; [| |done].
    + split; [split; [done|]|].
      * destruct Hc' as [Hc|Hc]; [by left|right]. by split.
      * intros resp [= <-]. exists ca, r. split; [|split; [by exists pkcs7|done]].
        split; [done|]. by exists cfg, key.
    + split; [|done]. split; [done|]. destruct Hc' as [Hc|Hc]; [by left|right].
      split; [done|]. destruct Hca as [x ->]. by intros ? [= <-].
  - split; [|done]. split; [|left]; unfold kipuka_of_issuance; by destruct (is_client_error e).
  - split; [|done]. by split; [|left].
Qed.

Lemma enroll_with_dogtag_spec app o s csr_der ca_id identity operation :
  let (s', ans) := enroll_with_dogtag app o s csr_der ca_id identity operation in
  (dogtag o = None -> s' = s /\ ans = Ok None) /\
  pending_csrs s' = pending_csrs s /\
  (certificates s' = certificates s \/
   (exists row, certificates s' = certificates s ++ [row]) /\
   (forall e, ans = Err e -> http_status e = 500) /\ ans <> Ok None).
Proof.
  unfold Enroll.enroll_with_dogtag. destruct (dogtag o) as [dg|]; [|by split_and!; [| |left]].
  destruct (get_client _) as [client|e|]; [|by split_and!; [| |left]..].
  destruct (dogtag_profile_id dg) as [pid|]; [|by split_and!; [| |left]].
  destruct (dogtag_enroll dg client _ pid) as [r|e]; [|by split_and!; [| |left]].
  destruct (enroll_status r); [|by split_and!; [| |left]..].
  destruct (dogtag_certificate r) as [cert|]; [|by split_and!; [| |left]].
  set (row := MkCertRow _ _ _ _ _ _ _ _ _ _ _).
  destruct (insert_certificate_spec s (insert_failed o) row) as [Hp Hc].
  set (s1 := (insert_certificate s (insert_failed o) row).1) in *.
  assert (Hc' : certificates s1 = certificates s \/ exists row, certificates s1 = certificates s ++ [row])
    by (destruct Hc as [Hc|[Hc _]]; eauto). clear Hc.
  pose proof (build_certs_only_pkcs7_errors [cert]) as Hca.
  destruct (build_certs_only_pkcs7 _) as [pkcs7|e|]; simpl; [| |done].
  - split_and!; [done|done|]. destruct Hc' as [Hc|Hc]; [by left|right]. by split_and!.
  - split_and!; [done|done|]. destruct Hc' as [Hc|Hc]; [by left|right]. split_and!; [done| |done].
    destruct Hca as [x ->]. by intros ? [= <-].
Qed.

Lemma issue_or_forward_spec app o s csr_der ca_id identity operation :
  let (s', ans) := issue_or_forward app o s csr_der ca_id identity operation in
  tables_after s s' ans /\
  (dogtag o = None -> issue_or_forward app o s csr_der ca_id identity operation =
     direct_signing app o s csr_der ca_id identity operation).
Proof.
  unfold Enroll.issue_or_forward, tables_after.
  pose proof (enroll_with_dogtag_spec app o s csr_der ca_id identity operation) as Hd.
  destruct (enroll_with_dogtag app o s csr_der ca_id identity operation) as [s1 [[resp|]|e|]].
  - destruct Hd as (Hn & Hp & Hc). split; [split; [done|]|].
    + destruct Hc as [Hc|(Hc & _ & _)]; [by left|right]. by split.
    + intros E. by destruct (Hn E).
  - destruct Hd as (Hn & Hp & Hc). destruct Hc as [Hc|(_ & _ & Hc)]; [|done].
    pose proof (direct_signing_spec app o s1 csr_der ca_id identity operation) as Hs.
    destruct (direct_signing app o s1 csr_der ca_id identity operation) as [s2 ans] eqn:Es.
    destruct Hs as [[Hp2 Hc2] _]. split; [split; [congruence|]|].
    + rewrite <- Hc. done.
    + intros E. destruct (Hn E) as [-> _]. by rewrite Es.
  - destruct Hd as (Hn & Hp & Hc). split; [split; [done|]|].
    + destruct Hc as [Hc|(Hc & He & _)]; [by left|right]. split; [done|].
      intros ? [= <-]. by apply He.
    + intros E. by destruct (Hn E).
  - destruct Hd as (Hn & Hp & Hc). split; [split; [done|]|].
    + destruct Hc as [Hc|(Hc & _ & _)]; [by left|right]. by split.
    + intros E. by destruct (Hn E).
Qed.
(** ** The theorems *)

Abbreviation decode := (decode_est_base64 b64_decode).

(** A 200 of the server's own CA: the certificate was issued for this
    request by the label's CA and is in the table, unless the database
    refused it. *)
Definition answered_with (app : AppConfig) (o : Outside) (s s' : AppState) (csr_der : bytes)
    (ca_id : string) (resp : Response) : Prop :=
  exists ca r, issued_for app o csr_der ca_id ca r /\ carries resp r /\
    pending_csrs s' = pending_csrs s /\
    (certificates s' = certificates s ++ [issued_row r ca ca_id "default"] \/
     certificates s' = certificates s /\
     (insert_failed o = true \/
      exists q, In q (certificates s) /\ cr_serial q = serial_number r)).

Lemma issue_or_forward_answer app o s s1 csr_der ca_id identity operation s' resp :
  dogtag o = None -> certificates s1 = certificates s -> pending_csrs s1 = pending_csrs s ->
  issue_or_forward app o s1 csr_der ca_id identity operation = (s', Ok resp) ->
  answered_with app o s s' csr_der ca_id resp.
Proof.
  intros Hd Hc Hp E. pose proof (issue_or_forward_spec app o s1 csr_der ca_id identity operation) as Hi.
  rewrite E in Hi. destruct Hi as [_ Hi]. specialize (Hi Hd).
  pose proof (direct_signing_spec app o s1 csr_der ca_id identity operation) as Hs.
  rewrite <- Hi in Hs. destruct Hs as [[Hp' _] Hs].
  destruct (Hs resp eq_refl) as (ca & r & Hr & Hcar & Hcert). exists ca, r.
  split_and!; [done|done|congruence|]. simpl in Hcert.
  destruct (insert_certificate_spec s1 (insert_failed o) (issued_row r ca ca_id "default")) as [_ Hins].
  rewrite Hcert, <- Hc. destruct Hins as [Hins|[Hins Hwhy]]; [by left|right]. by split.
Qed.

(** C5: what a successful POST /simpleenroll means (with the server's own
    CA).  The admission was recorded durably under the caller's name before
    anything else; the body decodes to a request that proves possession of
    its key, whose names the caller is authorized for by the label; and
    either it was stored for later signing, when the label or the server is
    in disconnected mode, or the response carries a certificate that the
    label's CA issued for it. *)
Theorem simpleenroll_sound app o s auth l body s' resp :
  dogtag o = None ->
  post_simpleenroll app o s auth l body = (s', Ok resp) ->
  exists s1 csr_der csr, admitted s s1 (auth_identity auth) "simpleenroll" (admission o) /\
    decode body = Ok csr_der /\ request_valid csr_der csr auth l /\
    if default (disconnected (est app)) (label_deferred l) then
      resp = accepted_response (disconnected_retry_after_secs (est app)) /\
      certificates s' = certificates s /\
      exists dn, pending_csrs s' = pending_csrs s ++ [MkPending csr_der (label_ca l) dn
        (auth_identity auth) (auth_method_debug (auth_method auth))]
    else answered_with app o s s' csr_der (label_ca l) resp.
Proof.
  intros Hd. unfold Enroll.post_simpleenroll.
  destruct (admit_enrollment _ _ s _ _ _) as [s1 [[]|e|]] eqn:Ea; [|done..].
  apply admit_enrollment_Ok in Ea. pose proof Ea as (Hc & Hp & _).
  destruct (decode body) as [csr_der|e|]; [|done..]. cbn [map_err].
  destruct (validate_request _ csr_der auth l) as [[]|e|] eqn:Ev; [|done..].
  apply validate_request_Ok in Ev as (csr & Hv). intros E. exists s1, csr_der, csr.
  split_and!; [done..|]. destruct (default _ (label_deferred l)).
  - unfold defer in E. destruct (pending_error o); [done|]. injection E as <- <-.
    split_and!; [done|done|]. simpl. rewrite Hp. by eexists.
  - by eapply issue_or_forward_answer.
Qed.

(** What a re-enrollment that succeeded had; with a Dogtag CA behind the
    server the answer is the other's. *)
Definition reenrolled app o s auth l body s' resp : Prop :=
  auth_method auth = Mtls /\
  (forall cert, client_cert_der auth = Some cert -> revocation o cert = Ok tt) /\
  exists s1 csr_der csr subject dn,
    admitted s s1 (auth_identity auth) "simplereenroll" (admission o) /\
    decode body = Ok csr_der /\ request_valid csr_der csr auth l /\
    csr_subject csr = inl subject /\ auth_subject_dn auth = Some dn /\
    to_lowercase (trim dn) = to_lowercase (trim (format_dn subject)) /\
    (dogtag o = None -> answered_with app o s s' csr_der (label_ca l) resp).

Lemma simplereenroll_Ok app o s auth l body s' resp :
  post_simplereenroll app o s auth l body = (s', Ok resp) ->
  reenrolled app o s auth l body s' resp.
Proof.
  unfold reenrolled, Enroll.post_simplereenroll. destruct (auth_method auth); try done.
  destruct (admit_enrollment _ _ s _ _ _) as [s1 [[]|e|]] eqn:Ea; [|done..].
  apply admit_enrollment_Ok in Ea. pose proof Ea as (Hc & Hp & _).
  destruct (decode body) as [csr_der|e|]; [|done..]. cbn [map_err obind].
  destruct (bool_decide _ || _); [done|]. cbn [obind].
  unfold validate_pop_linking_from_csr, validate_pop_linking.
  destruct (csr_from_der csr_der) as [csr|e] eqn:Ecsr; [|done]. cbn [of_lib obind].
  destruct (csr_subject csr) as [subject|e] eqn:Es; [|done]. cbn [of_lib obind].
  destruct (auth_subject_dn auth) as [dn|]; [|done]. cbn [ok_or obind].
  destruct (String.eqb_spec (to_lowercase (trim dn)) (to_lowercase (trim (format_dn subject)))) as [Hs|];
    [|done]. cbn [negb map_err obind].
  set (rev := match client_cert_der auth with Some _ => _ | None => _ end).
  destruct rev as [[]|e|] eqn:Erev; [|done..]. cbn [obind].
  destruct (validate_request _ csr_der auth l) as [[]|e|] eqn:Ev; [|done..].
  apply validate_request_Ok in Ev as (csr' & Hv). intros E.
  assert (csr' = csr) as -> by (destruct Hv as (_ & Hcsr & _); rewrite Ecsr in Hcsr; by injection Hcsr).
  split; [done|]. split.
  - intros cert Hcert. unfold rev in Erev. rewrite Hcert in Erev.
    by destruct (revocation o cert) as [[]| |].
  - exists s1, csr_der, csr, subject, dn. split_and!; try done; [by destruct Hv as (_ & _ & ? & _)..|].
    intros Hd. by eapply issue_or_forward_answer.
Qed.

(** What a successful POST /simplereenroll means (with the server's own
    CA).  The caller presented a client certificate that is not revoked, and
    the request is for exactly the subject of that certificate; the rest is
    as for an enrollment, and there is no deferral. *)
Theorem simplereenroll_sound app o s auth l body s' resp :
  dogtag o = None ->
  post_simplereenroll app o s auth l body = (s', Ok resp) ->
  auth_method auth = Mtls /\
  (forall cert, client_cert_der auth = Some cert -> revocation o cert = Ok tt) /\
  exists s1 csr_der csr subject dn,
    admitted s s1 (auth_identity auth) "simplereenroll" (admission o) /\
    decode body = Ok csr_der /\ request_valid csr_der csr auth l /\
    csr_subject csr = inl subject /\ auth_subject_dn auth = Some dn /\
    to_lowercase (trim dn) = to_lowercase (trim (format_dn subject)) /\
    answered_with app o s s' csr_der (label_ca l) resp.
Proof.
  intros Hd E. apply simplereenroll_Ok in E as (Hm & Hr & s1 & csr_der & csr & subject & dn & Ha & Hdec & Hv & Hs & Hdn & Hsame & Hans).
  split; [done|]. split; [done|]. exists s1, csr_der, csr, subject, dn. split_and!; auto.
Qed.

(** C6: no name gets into a certificate that the label does not permit.
    Whatever handler issued it, every entry of every subjectAltName
    extension of the certificate is allowed by the lists of the label the
    request came to, the caller is among the names when the label binds
    requests to callers, and the last common name of its subject is the
    caller when the label asks for that. *)
Theorem certified_names_permitted `{Hlaws : !ExtensionLaws} `{Hoids : !OidLaws}
    app o auth l csr_der csr ca r :
  request_valid csr_der csr auth l -> issued_for app o csr_der (label_ca l) ca r ->
  exists tbs sg, build_and_sign tbs sg = inl (certificate_der r) /\
    (forall e, In e (b_extensions tbs) -> is_san e = true ->
       Forall (san_permitted (enroll_policy l)) (parse_general_names e.2) /\
       (require_san_match (enroll_policy l) = true ->
        identity_named (parse_general_names e.2) (auth_identity auth))) /\
    (require_cn_match (enroll_policy l) = true ->
     exists cn, last_cn (parse_name_attrs (b_subject tbs)) = Some cn /\
       to_ascii_lowercase cn = to_ascii_lowercase (auth_identity auth)).
Proof.
  intros (_ & Hcsr & _ & (Hcn & Hsan & Hall) & _) (_ & cfg & key & _ & _ & _ & Hiss).
  apply issue_certificate_Ok in Hiss as (csr' & (_ & Hcsr' & _) & _ & ca' & tbs & _ &
    (Hsub & _) & _ & (ca_spki & req & es & _ & Hreq & Hes & Hexts) & (sg & _ & Hsign) & _).
  rewrite Hcsr in Hcsr'. injection Hcsr' as <-. exists tbs, sg. split; [done|]. split.
  - intros e Hin He. rewrite Hexts in Hin. apply in_app_iff in Hin as [Hin|Hin].
    + apply List.filter_In in Hin as [Hin _].
      rewrite (requested_san _ _ _ _ Hcsr Hreq Hin He) in *. split; [done|]. intros Hr.
      by destruct (Hsan Hr).
    + destruct (extensions_NoDup _ _ _ _ _ _ _ _ Hreq Hes) as [_ Hno]. destruct Hno.
      apply bool_decide_eq_true in He. rewrite <- He. by apply (in_map (fun e : Extension => e.1.1)).
  - intros Hr. destruct (Hcn Hr) as (Hne & cn & Hc & Heq). exists cn. split; [|done].
    unfold csr_subject_cn, csr_subject_attrs in Hc. by rewrite Hsub in Hc.
Qed.

(** GET /cacerts.  The answer depends only on the label's CA: unknown, it
    is 404; else what a client decodes from the body is the SignedData
    structure with exactly the chain the CA is configured with (its
    certificate alone if none), and the request is recorded. *)
Theorem get_cacerts_spec `{!EncoderLaws} app o s l signed_data data :
  object_id CMS_SIGNED_DATA = inl signed_data -> object_id CMS_DATA = inl data ->
  (forall d, b64_decode (b64_encode d) = inl d) ->
  (forall d, Forall (fun b => is_ascii_whitespace b = false) (b64_encode d)) ->
  match get_ca app (label_ca l) with
  | None => get_cacerts b64_encode digest json_object app o s l = (s, Err ENotFound)
  | Some ca =>
      let chain := if bool_decide (ca_cert_chain ca = []) then [ca_cert_der ca] else ca_cert_chain ca in
      exists resp,
        get_cacerts b64_encode digest json_object app o s l =
          (record_audit_event digest json_object s "cacerts" ("ca_id=" +:+ label_ca l) (event o), Ok resp) /\
        status resp = 200 /\ headers resp !! "content-type" = Some PKCS7_CERTS /\
        decode (Errors.body resp) = Ok (der (signed_data_tree signed_data data chain))
  end.
Proof.
  intros Hsd Hd Hrt Hclean. unfold get_cacerts. destruct (get_ca app (label_ca l)) as [ca|]; [|done].
  set (chain := match ca_cert_chain ca with [] => _ | _ => _ end). cbn zeta.
  assert (Hchain : (if bool_decide (ca_cert_chain ca = []) then [ca_cert_der ca] else ca_cert_chain ca)
    = chain) by (unfold chain; by destruct (ca_cert_chain ca)).
  assert (Hne : chain <> []) by (unfold chain; by destruct (ca_cert_chain ca)).
  rewrite Hchain, (build_certs_only_pkcs7_spec _ _ _ Hsd Hd Hne). eexists. split; [done|].
  split; [done|]. split; [done|]. by apply est_base64_round_trip.
Qed.

(** A handler's answer, for the refusals. *)
Definition refusal_clean (s s' : AppState) (ans : outcome Response KipukaError) : Prop :=
  forall e, ans = Err e ->
    pending_csrs s' = pending_csrs s /\
    (http_status e < 500 -> certificates s' = certificates s) /\
    (certificates s' = certificates s \/ exists row, certificates s' = certificates s ++ [row]).

Lemma issue_or_forward_clean app o s s1 csr_der ca_id identity operation :
  certificates s1 = certificates s -> pending_csrs s1 = pending_csrs s ->
  let (s', ans) := issue_or_forward app o s1 csr_der ca_id identity operation in
  refusal_clean s s' ans.
Proof.
  intros Hc Hp. pose proof (issue_or_forward_spec app o s1 csr_der ca_id identity operation) as Hi.
  destruct (issue_or_forward app o s1 csr_der ca_id identity operation) as [s' ans].
  destruct Hi as [[Hp' Ht] _]. intros e ->. rewrite <- Hc. split; [congruence|].
  destruct Ht as [Ht|[Ht He]]; [by split; [|left]|]. split; [|by right].
  rewrite (He e eq_refl). lia.
Qed.

End Handlers.

(** ** Examples *)

#[export] Instance example_cms : CmsOids := {
  CMS_SIGNED_DATA := [1; 2; 840; 113549; 1; 7; 2];
  CMS_DATA := [1; 2; 840; 113549; 1; 7; 1]
}.

#[local] Instance example_extensions : ExtensionLaws.
Proof.
  split. intros v exts o [= <-]. simpl.
  assert (Hc : cdp_of v = [] \/ cdp_of v = [([2; 31], None, v); ([2; 35], None, v)])
    by (unfold cdp_of; repeat case_match; auto).
  destruct Hc as [-> | ->]; simpl; by repeat (case_bool_decide; simpl).
Qed.

Definition example_policy : EnrollAuthzPolicy := MkAuthzPolicy true true ["device"] [] [].
Definition example_label : LabelExtractor :=
  MkLabel "iot" "main" example_policy [] None None (Some false).
Definition example_ca_state : CaState :=
  MkCaState "main" example_ca [] "sha256" 300 None None.
Definition example_ca_config : CaConfig :=
  MkCaConfig "main" true "ca.key" "ca.pem" "rsa" None 300 "sha256" None None "CA" "Example" 86400 true.
Definition example_app : AppConfig :=
  MkAppConfig (MkEstConfig [] None [] false 3600) [example_ca_config]
    {["main" := example_ca_state]} "main" None.
Definition example_call : AuditCall := MkAuditCall no_faults "t0".
Definition example_outside : Outside :=
  MkOutside example_call example_call false None example_now example_inputs
    (fun _ => inl [1]) (fun _ => EmptyString) None (fun _ => Ok tt).
Definition example_state : AppState := MkAppState (MkAuditDb [] 1) audit_state_new [] [].
Definition example_caller : AuthResult := MkAuth "device" Mtls (Some [1]) (Some "CN=a") [] [].

(** The request, padded to the length a handler requires. *)
Definition example_body : bytes := example_request ++ replicate 60 0.

Definition example_post_simpleenroll :=
  post_simpleenroll (fun _ => EmptyString) (fun b => b) inl
    example_digest example_json.
Definition example_post_simplereenroll :=
  post_simplereenroll (fun _ => EmptyString) (fun s => s) to_ascii_lowercase (fun b => b) inl
    example_digest example_json.
(** ContentInfo around SignedData around the certificate 48 65 66 1. *)
Definition example_response : Response := certs_response (fun b => b)
  [48; 41; 6; 9; 42; 134; 72; 134; 247; 13; 1; 7; 2; 160; 28; 48; 26; 2; 1; 1; 49; 0; 48; 11;
   6; 9; 42; 134; 72; 134; 247; 13; 1; 7; 1; 160; 4; 48; 65; 66; 1; 49; 0].

(** A call whose answer is known ends in some state. *)
Lemma answer_of {S A} (r : S * A) a : r.2 = a -> exists s, r = (s, a).
Proof. destruct r as [s x]; intros <-. by exists s. Qed.

Lemma simpleenroll_sound_witness : exists s' s1 csr_der csr,
  example_post_simpleenroll example_app example_outside example_state example_caller
    example_label example_body = (s', Ok example_response) /\
  admitted example_json example_state s1 "device" "simpleenroll" example_call /\
  request_valid csr_der csr example_caller example_label.
Proof.
  assert (E : (example_post_simpleenroll example_app example_outside example_state example_caller
    example_label example_body).2 = Ok example_response) by (vm_compute; reflexivity).
  apply answer_of in E as [s' E].
  pose proof (simpleenroll_sound _ _ _ _ _ example_app example_outside example_state example_caller
    example_label example_body s' example_response eq_refl E) as (s1 & csr_der & csr & Ha & _ & Hv & _).
  exists s', s1, csr_der, csr. split; [exact E|]. split; [exact Ha|exact Hv].
Defined.

Lemma simplereenroll_sound_witness : exists s' s1,
  example_post_simplereenroll example_app example_outside example_state example_caller
    example_label example_body = (s', Ok example_response) /\
  auth_method example_caller = Mtls /\
  admitted example_json example_state s1 "device" "simplereenroll" example_call.
Proof.
  assert (E : (example_post_simplereenroll example_app example_outside example_state example_caller
    example_label example_body).2 = Ok example_response) by (vm_compute; reflexivity).
  apply answer_of in E as [s' E].
  pose proof (simplereenroll_sound _ _ _ _ _ _ _ example_app example_outside example_state
    example_caller example_label example_body s' example_response eq_refl E)
    as (Hm & _ & s1 & csr_der & csr & subject & dn & Ha & _).
  exists s', s1. split; [exact E|]. split; [exact Hm|exact Ha].
Defined.

Lemma example_request_valid : request_valid example_body (65, 2, 2) example_caller example_label.
Proof.
  unfold request_valid. split; [vm_compute; congruence|]. split; [reflexivity|].
  split; [by eexists _, _, _|]. split; [|done]. apply authorize_Ok. vm_compute. reflexivity.
Qed.

Lemma certified_names_permitted_witness :
  exists r, issued_for example_app example_outside example_body "main" example_ca_state r /\
  exists tbs sg, build_and_sign tbs sg = inl (certificate_der r) /\
    exists cn, last_cn (parse_name_attrs (b_subject tbs)) = Some cn /\
      to_ascii_lowercase cn = "device".
Proof.
  assert (Hr : exists r, issued_for example_app example_outside example_body "main" example_ca_state r).
  { eexists. split; [reflexivity|]. exists example_ca_config, (Pem [1]).
    split; [by left|]. split; [reflexivity|]. split; [reflexivity|].
    vm_compute. reflexivity. }
  destruct Hr as [r Hr]. exists r. split; [exact Hr|].
  destruct (certified_names_permitted example_app example_outside example_caller example_label
    example_body (65, 2, 2) example_ca_state r example_request_valid Hr) as (tbs & sg & Hs & _ & Hcn).
  exists tbs, sg. split; [exact Hs|]. exact (Hcn eq_refl).
Defined.

(** A code without white space. *)
Definition example_b64 (l : bytes) : bytes := map (fun b => 4 * b + 3) l.
Definition example_unb64 (l : bytes) : bytes + string := inl (map (fun b => b / 4) l).

Lemma get_cacerts_spec_witness :
  (forall d, example_unb64 (example_b64 d) = inl d) /\
  get_ca example_app (label_ca example_label) = Some example_ca_state /\
  exists resp, (get_cacerts example_b64 example_digest example_json example_app example_outside
      example_state example_label).2 = Ok resp /\ status resp = 200.
Proof.
  assert (Hrt : forall d, example_unb64 (example_b64 d) = inl d).
  { intros d. unfold example_unb64, example_b64. f_equal. rewrite map_map.
    rewrite <- (map_id d) at 2. apply map_ext. intros b.
    rewrite Z.mul_comm, Z.div_add_l by lia. apply Z.add_0_r. }
  assert (Hclean : forall d, Forall (fun b => is_ascii_whitespace b = false) (example_b64 d)).
  { intros d. apply Forall_forall. intros b (c & <- & _)%list_elem_of_In%in_map_iff.
    unfold is_ascii_whitespace. lia. }
  split; [exact Hrt|]. split; [reflexivity|].
  pose proof (get_cacerts_spec example_b64 example_unb64 example_digest example_json example_app
    example_outside example_state example_label _ _ eq_refl eq_refl Hrt Hclean) as Hs.
  change (get_ca example_app (label_ca example_label)) with (Some example_ca_state) in Hs.
  destruct Hs as (resp & -> & Hst & _). by exists resp.
Defined.

