(* ===== verification/DerReader.v ===== *)
(** * Walking DER by hand

    The routines of [src/ocsp/mod.rs] and [src/auth/gssapi.rs] that find a
    field of a DER structure by its offsets: the bytes an OCSP signature
    covers, the value of an INTEGER or of a context tag, and the mechToken of
    a SPNEGO token.  Each answers [Option]; here [Err tt] is [None], and an
    index or a slice out of range is [Panic]. *)
From S2P Require Import Prelude Words.
Open Scope Z_scope.

Definition len (l : bytes) : Z := Z.of_nat (length l).

(** [l[i]], [l.get(i)] and [&l[lo..hi]] *)
Definition get (l : bytes) (i : Z) : option Z :=
  if (0 <=? i) && (i <? len l) then l !! Z.to_nat i else None.
Definition index (l : bytes) (i : Z) : outcome Z unit :=
  match get l i with Some b => Ok b | None => Panic end.
Definition part (l : bytes) (lo hi : Z) : bytes := take (Z.to_nat (hi - lo)) (drop (Z.to_nat lo) l).
Definition range_ok (l : bytes) (lo hi : Z) : bool := (0 <=? lo) && (lo <=? hi) && (hi <=? len l).
Definition subslice (l : bytes) (lo hi : Z) : outcome bytes unit :=
  if range_ok l lo hi then Ok (part l lo hi) else Panic.
(** [l.get(lo..hi)] *)
Definition get_range (l : bytes) (lo hi : Z) : outcome bytes unit :=
  if range_ok l lo hi then Ok (part l lo hi) else Err tt.

(** [val << 8 | b] on a [usize]: bits shifted out are lost. *)
Definition shift_in (val b : Z) : Z := Z.lor (as_u64 (Z.shiftl val 8)) b.
(** A sum of two [usize]; a release build wraps. *)
Definition usize_add (a b : Z) : Z := as_u64 (a + b).

(** The loop over [n] length octets from position [i]. *)
Fixpoint read_octets (l : bytes) (i : Z) (n : nat) (val : Z) : outcome Z unit :=
  match n with
  | O => Ok val
  | S n' =>
      let? b := index l i in
      read_octets l (i + 1) n' (shift_in val b)
  end.

(** [gssapi::read_der_length] *)
Definition read_der_length (l : bytes) (offset : Z) : outcome (Z * Z) unit :=
  let? first := ok_or (get l offset) tt in
  if first <? 128 then Ok (first, 1)
  else
    let n := Z.land first 127 in
    if (n =? 0) || (4 <? n) || (len l <? offset + 1 + n) then Err tt
    else
      let? val := read_octets l (offset + 1) (Z.to_nat n) 0 in
      Ok (val, 1 + n).

(** [ocsp::read_der_length_ocsp], the same code. *)
Definition read_der_length_ocsp (l : bytes) (offset : Z) : outcome (Z * Z) unit :=
  read_der_length l offset.

Definition extract_basic_ocsp_tbs_bytes (l : bytes) : outcome bytes unit :=
  if bool_decide (l = []) then Err tt
  else
    let? tag := index l 0 in
    if negb (tag =? 48) then Err tt
    else
      let? outer := read_der_length_ocsp l 1 in
      let content_start := 1 + outer.2 in
      let content_end := content_start + outer.1 in
      if len l <? content_end then Err tt
      else
        let tbs_start := content_start in
        if len l <=? tbs_start then Err tt
        else
          let? tbs_tag := index l tbs_start in
          if negb (tbs_tag =? 48) then Err tt
          else
            let? tbs := read_der_length_ocsp l (tbs_start + 1) in
            let tbs_end := tbs_start + 1 + tbs.2 + tbs.1 in
            if len l <? tbs_end then Err tt
            else subslice l tbs_start tbs_end.

(** The loop over all length octets of a long form. *)
Definition fold_length (octets : bytes) : Z := fold_left shift_in octets 0.

Definition extract_integer_value (l : bytes) : outcome bytes unit :=
  if len l <? 2 then Err tt
  else
    let? tag := index l 0 in
    if negb (tag =? 2) then Err tt
    else
      let? len_byte := index l 1 in
      if len_byte <? 128 then get_range l 2 (2 + len_byte)
      else
        let num_len_bytes := Z.land len_byte 127 in
        if len l <? 2 + num_len_bytes then Err tt
        else
          let? octets := subslice l 2 (2 + num_len_bytes) in
          let value_start := 2 + num_len_bytes in
          get_range l value_start (usize_add value_start (fold_length octets)).

(** The short form slices without a check. *)
Definition extract_context_tagged_value (l : bytes) : outcome bytes unit :=
  if len l <? 2 then Err tt
  else
    let? len_byte := index l 1 in
    if len_byte <? 128 then subslice l 2 (2 + len_byte)
    else
      let num := Z.land len_byte 127 in
      if len l <? 2 + num then Err tt
      else
        let? octets := subslice l 2 (2 + num) in
        let start := 2 + num in
        get_range l start (usize_add start (fold_length octets)).

(** ** The mechToken of a NegTokenInit *)

(** The value of the OCTET STRING in a [2] field. *)
Definition octet_string_value (octet : bytes) : outcome bytes unit :=
  if negb (bool_decide (octet = [])) && bool_decide (get octet 0 = Some 4) then
    let? oct := read_der_length octet 1 in
    let value_start := 1 + oct.2 in
    let value_end := value_start + oct.1 in
    if value_end <=? len octet then subslice octet value_start value_end else Err tt
  else Err tt.

(** The loop over the fields.  Each turn moves on by two bytes at least. *)
Fixpoint walk_fields (fuel : nat) (seq_bytes : bytes) (fields_end pos : Z) : outcome bytes unit :=
  match fuel with
  | O => Panic
  | S fuel' =>
      if negb (pos <? fields_end) then Err tt
      else if len seq_bytes <=? pos then Err tt
      else
        let? field_tag := index seq_bytes pos in
        let? field := read_der_length seq_bytes (pos + 1) in
        let field_value_start := pos + 1 + field.2 in
        let field_value_end := field_value_start + field.1 in
        if len seq_bytes <? field_value_end then Err tt
        else if field_tag =? 162 then
          let? octet := subslice seq_bytes field_value_start field_value_end in
          octet_string_value octet
        else walk_fields fuel' seq_bytes fields_end field_value_end
  end.

Definition extract_spnego_mech_token (inner : bytes) : outcome bytes unit :=
  if bool_decide (inner = []) then Err tt
  else
    let? tag := index inner 0 in
    if negb (tag =? 160) then Err tt
    else
      let? wrapper := read_der_length inner 1 in
      let seq_start := 1 + wrapper.2 in
      let seq_end := seq_start + wrapper.1 in
      if len inner <? seq_end then Err tt
      else
        let? seq_bytes := subslice inner seq_start seq_end in
        if bool_decide (seq_bytes = []) then Err tt
        else
          let? seq_tag := index seq_bytes 0 in
          if negb (seq_tag =? 48) then Err tt
          else
            let? sq := read_der_length seq_bytes 1 in
            let fields_start := 1 + sq.2 in
            let fields_end := fields_start + sq.1 in
            if len seq_bytes <? fields_end then Err tt
            else walk_fields (S (length seq_bytes)) seq_bytes fields_end fields_start.

(** ** The reference encoding *)

(** The length octets of X.690 in their shortest form. *)
Definition length_octets (n : Z) : bytes :=
  if n <? 128 then [n]
  else if n <? 2 ^ 8 then [129; n]
  else if n <? 2 ^ 16 then [130; n / 2 ^ 8; n mod 2 ^ 8]
  else if n <? 2 ^ 24 then [131; n / 2 ^ 16; n / 2 ^ 8 mod 2 ^ 8; n mod 2 ^ 8]
  else [132; n / 2 ^ 24; n / 2 ^ 16 mod 2 ^ 8; n / 2 ^ 8 mod 2 ^ 8; n mod 2 ^ 8].
Definition tlv_of (tag : Z) (content : bytes) : bytes := tag :: length_octets (len content) ++ content.

(** ** Positions *)

Lemma len_app l1 l2 : len (l1 ++ l2) = len l1 + len l2.
Proof. unfold len. rewrite length_app. lia. Qed.
Lemma len_cons b l : len (b :: l) = 1 + len l.
Proof. unfold len. simpl. lia. Qed.
Lemma len_nonneg l : 0 <= len l.
Proof. unfold len. lia. Qed.
Lemma len_nil : len [] = 0.
Proof. done. Qed.
Create Rewrite HintDb len.
#[local] Hint Rewrite len_app len_cons len_nil : len.
Ltac len_lia := autorewrite with len in *; lia.

Lemma get_at pre b post i : i = len pre -> get (pre ++ b :: post) i = Some b.
Proof.
  intros ->. unfold get. pose proof (len_nonneg pre). pose proof (len_nonneg post).
  destruct (Z.leb_spec 0 (len pre)); [|lia].
  destruct (Z.ltb_spec (len pre) (len (pre ++ b :: post))); [|len_lia].
  simpl. unfold len. rewrite Nat2Z.id. by rewrite list_lookup_middle.
Qed.

Lemma index_at pre b post i : i = len pre -> index (pre ++ b :: post) i = Ok b.
Proof. intros Hi. unfold index. by rewrite get_at. Qed.

Lemma index_0 b l : index (b :: l) 0 = Ok b.
Proof. exact (index_at [] b l 0 eq_refl). Qed.
Lemma index_1 a b l : index (a :: b :: l) 1 = Ok b.
Proof. exact (index_at [a] b l 1 eq_refl). Qed.

Lemma part_at pre mid post lo hi :
  lo = len pre -> hi = lo + len mid -> part (pre ++ mid ++ post) lo hi = mid.
Proof.
  intros -> ->. unfold part, len.
  replace (Z.to_nat (Z.of_nat (length pre))) with (length pre) by lia.
  rewrite drop_app_length. replace (Z.to_nat _) with (length mid) by lia. apply take_app_length.
Qed.

Lemma range_at pre mid post lo hi :
  lo = len pre -> hi = lo + len mid -> range_ok (pre ++ mid ++ post) lo hi = true.
Proof.
  intros -> ->. unfold range_ok. pose proof (len_nonneg pre). pose proof (len_nonneg mid).
  pose proof (len_nonneg post). rewrite !andb_true_iff, !Z.leb_le. len_lia.
Qed.

Lemma subslice_at pre mid post lo hi :
  lo = len pre -> hi = lo + len mid -> subslice (pre ++ mid ++ post) lo hi = Ok mid.
Proof. intros Hl Hh. unfold subslice. by rewrite range_at, part_at. Qed.

Lemma get_range_at pre mid post lo hi :
  lo = len pre -> hi = lo + len mid -> get_range (pre ++ mid ++ post) lo hi = Ok mid.
Proof. intros Hl Hh. unfold get_range. by rewrite range_at, part_at. Qed.

(** ** Lengths are read as they are written *)

Lemma read_octets_at pre octets post i val :
  i = len pre ->
  read_octets (pre ++ octets ++ post) i (length octets) val = Ok (fold_left shift_in octets val).
Proof.
  revert pre i val. induction octets as [|b octets IH]; intros pre i val Hi; [done|].
  cbn [length read_octets app fold_left]. rewrite index_at by done. cbn [obind].
  replace (pre ++ b :: octets ++ post) with ((pre ++ [b]) ++ octets ++ post)
    by (by rewrite <- app_assoc). apply IH. len_lia.
Qed.

Lemma shift_in_add v b : 0 <= v < 2 ^ 56 -> 0 <= b < 2 ^ 8 -> shift_in v b = v * 2 ^ 8 + b.
Proof.
  intros Hv Hb. unfold shift_in. rewrite <- lor_shiftl_add by lia. f_equal.
  unfold as_u64. rewrite Z.shiftl_mul_pow2 by lia. apply Z.mod_small. lia.
Qed.

(** The first octet and the others, as one fact about the encoding. *)
Lemma length_octets_long n : 128 <= n < 2 ^ 32 -> exists octets,
  length_octets n = (128 + len octets) :: octets /\ 1 <= len octets <= 4 /\
  fold_left shift_in octets 0 = n.
Proof.
  intros Hn. unfold length_octets. destruct (Z.ltb_spec n 128); [lia|].
  assert (Hd : forall a b, 0 <= a -> 0 < b -> 0 <= a / b /\ 0 <= a mod b < b).
  { intros a b Ha Hb. split; [by apply Z.div_pos|by apply Z.mod_pos_bound]. }
  pose proof (Hd n (2 ^ 8)) as H8. pose proof (Hd n (2 ^ 16)) as H16. pose proof (Hd n (2 ^ 24)) as H24.
  pose proof (Hd (n / 2 ^ 8) (2 ^ 8)) as H88. pose proof (Hd (n / 2 ^ 16) (2 ^ 8)) as H168.
  assert (E16 : n / 2 ^ 16 = n / 2 ^ 8 / 2 ^ 8) by (by rewrite Z.div_div by lia).
  assert (E24 : n / 2 ^ 24 = n / 2 ^ 16 / 2 ^ 8) by (by rewrite Z.div_div by lia).
  pose proof (Z.div_mod n (2 ^ 8)) as D8. pose proof (Z.div_mod (n / 2 ^ 8) (2 ^ 8)) as D16.
  pose proof (Z.div_mod (n / 2 ^ 16) (2 ^ 8)) as D24.
  pow_consts. change (2 ^ 56) with 72057594037927936 in *.
  repeat match goal with |- context [n <? ?m] => destruct (Z.ltb_spec n m) end;
    match goal with |- exists o, _ :: ?os = _ /\ _ => exists os end;
    (split; [reflexivity|]); (split; [done|]); cbn [fold_left].
  all: repeat (rewrite shift_in_add; [| |]; pow_consts; change (2 ^ 56) with 72057594037927936 in *);
    try lia.
Qed.

Lemma read_der_length_at pre n post offset :
  offset = len pre -> 0 <= n < 2 ^ 32 ->
  read_der_length (pre ++ length_octets n ++ post) offset = Ok (n, len (length_octets n)).
Proof.
  intros Hoff Hn. unfold read_der_length. destruct (Z.ltb_spec n 128) as [Hs|Hs].
  - unfold length_octets. rewrite (proj2 (Z.ltb_lt n 128)) by done. cbn [app].
    rewrite get_at by done. cbn [ok_or obind]. by rewrite (proj2 (Z.ltb_lt n 128)).
  - destruct (length_octets_long n) as (octets & -> & Hl & Hf); [lia|]. cbn [app].
    rewrite get_at by done. cbn [ok_or obind]. rewrite (proj2 (Z.ltb_ge (128 + len octets) 128)) by lia.
    assert (Z.land (128 + len octets) 127 = len octets) as ->.
    { rewrite land_127. rewrite Z.add_mod, Z.mod_same, Z.add_0_l, Z.mod_mod, Z.mod_small by lia. done. }
    pose proof (len_nonneg post).
    destruct (Z.eqb_spec (len octets) 0); [lia|]. destruct (Z.ltb_spec 4 (len octets)); [lia|].
    destruct (Z.ltb_spec (len (pre ++ (128 + len octets) :: octets ++ post)) (offset + 1 + len octets));
      [len_lia|]. cbn [orb].
    replace (pre ++ (128 + len octets) :: octets ++ post)
      with ((pre ++ [128 + len octets]) ++ octets ++ post) by (by rewrite <- app_assoc).
    replace (Z.to_nat (len octets)) with (length octets) by (unfold len; lia).
    rewrite read_octets_at by len_lia. cbn [obind]. rewrite Hf. do 2 f_equal. len_lia.
Qed.

(** ** Nothing is read out of range *)

Lemma index_ensures l i P :
  0 <= i < len l -> (forall b, get l i = Some b -> P b) -> ensures (index l i) P.
Proof.
  intros Hi HP. unfold index. destruct (get l i) as [b|] eqn:E; simpl; [by apply HP|].
  unfold get in E. destruct (Z.leb_spec 0 i); [|lia]. destruct (Z.ltb_spec i (len l)); [|lia].
  simpl in E. apply lookup_ge_None in E. unfold len in *. lia.
Qed.

Lemma read_octets_ensures l i n val :
  0 <= i -> i + Z.of_nat n <= len l -> Forall u8 l -> 0 <= val ->
  val * 2 ^ (8 * Z.of_nat n) + 2 ^ (8 * Z.of_nat n) <= 2 ^ 56 ->
  ensures (read_octets l i n val) (fun v => 0 <= v < (val + 1) * 2 ^ (8 * Z.of_nat n)).
Proof.
  intros Hi Hn Hl. revert i val Hi Hn. induction n as [|n IH]; intros i val Hi Hn Hv Hb.
  { simpl. change (8 * 0) with 0. lia. }
  cbn [read_octets]. assert (Hp : 2 ^ (8 * Z.of_nat (S n)) = 2 ^ 8 * 2 ^ (8 * Z.of_nat n)).
  { rewrite <- Z.pow_add_r by lia. f_equal. lia. }
  assert (0 < 2 ^ (8 * Z.of_nat n)) as Hpos by (apply Z.pow_pos_nonneg; lia).
  eapply ensures_bind; [apply (index_ensures _ _ (fun b => u8 b))|].
  - lia.
  - intros b Hg. unfold get in Hg. case_match; [|done].
    by apply (Forall_lookup_1 _ _ _ _ Hl Hg).
  - intros b Hu. unfold u8 in Hu. rewrite Hp in Hb. change (2 ^ 8) with 256 in *.
    change (2 ^ 56) with 72057594037927936 in *.
    rewrite shift_in_add; change (2 ^ 8) with 256; change (2 ^ 56) with 72057594037927936;
      [|nia|lia].
    set (P := 2 ^ (8 * Z.of_nat n)) in *. assert ((b + 1) * P <= 256 * P) by nia.
    eapply ensures_mono; [apply IH; [lia..|nia]|]. intros v Hv'. cbn beta in *. rewrite Hp. nia.
Qed.

Lemma read_der_length_ensures l offset :
  0 <= offset -> Forall u8 l ->
  ensures (read_der_length l offset)
    (fun r => 0 <= r.1 < 2 ^ 32 /\ 1 <= r.2 /\ offset + r.2 <= len l).
Proof.
  intros Ho Hl. unfold read_der_length. destruct (get l offset) as [first|] eqn:Eg; [|done].
  cbn [ok_or obind]. unfold get in Eg.
  destruct (Z.leb_spec 0 offset); [|done]. destruct (Z.ltb_spec offset (len l)); [|done]. simpl in Eg.
  pose proof (Forall_lookup_1 _ _ _ _ Hl Eg) as Hu. unfold u8 in Hu.
  destruct (Z.ltb_spec first 128); [simpl; change (2 ^ 32) with 4294967296; lia|].
  destruct (Z.eqb_spec (Z.land first 127) 0); [done|].
  destruct (Z.ltb_spec 4 (Z.land first 127)); [done|].
  destruct (Z.ltb_spec (len l) (offset + 1 + Z.land first 127)); [done|]. cbn [orb].
  rewrite land_127 in *. assert (0 <= first mod 128) by (apply Z.mod_pos_bound; lia).
  generalize dependent (first mod 128). intros n **.
  assert (Hpow : 2 ^ (8 * Z.of_nat (Z.to_nat n)) <= 2 ^ 32) by (apply Z.pow_le_mono_r; lia).
  assert (Hpow' : 0 * 2 ^ (8 * Z.of_nat (Z.to_nat n)) + 2 ^ (8 * Z.of_nat (Z.to_nat n)) <= 2 ^ 56).
  { change (2 ^ 56) with 72057594037927936. change (2 ^ 32) with 4294967296 in *. lia. }
  eapply ensures_bind; [apply read_octets_ensures; [lia|lia|done|lia|exact Hpow']|].
  intros v Hv. simpl. rewrite Z.add_0_l, Z.mul_1_l in Hv. split_and!; [lia|lia|lia|lia].
Qed.

(** [b] is a contiguous part of [l]. *)
Definition within (b l : bytes) : Prop := exists pre post, l = pre ++ b ++ post.

Lemma within_trans a b c : within a b -> within b c -> within a c.
Proof.
  intros (p & q & ->) (p' & q' & ->). exists (p' ++ p), (q ++ q'). by rewrite !app_assoc.
Qed.

Lemma part_within l lo hi : within (part l lo hi) l.
Proof.
  unfold part. exists (take (Z.to_nat lo) l), (drop (Z.to_nat (hi - lo)) (drop (Z.to_nat lo) l)).
  by rewrite take_drop, take_drop.
Qed.

Lemma subslice_ensures l lo hi :
  0 <= lo <= hi -> hi <= len l -> ensures (subslice l lo hi) (fun b => within b l /\ len b = hi - lo).
Proof.
  intros Hl Hh. unfold subslice, range_ok.
  rewrite !(proj2 (Z.leb_le _ _)) by lia. simpl. split; [apply part_within|].
  unfold part, len in *. rewrite length_take, length_drop. lia.
Qed.

Lemma within_u8 b l : within b l -> Forall u8 l -> Forall u8 b.
Proof. intros (p & q & ->). rewrite !Forall_app. tauto. Qed.

Lemma octet_string_ensures octet :
  Forall u8 octet -> ensures (octet_string_value octet) (fun b => within b octet).
Proof.
  intros Hu. unfold octet_string_value. case_match; [|done].
  eapply ensures_bind; [apply read_der_length_ensures; [lia|done]|]. intros [n k] (Hn & Hk & Hb).
  cbn [fst snd] in *. destruct (Z.leb_spec (1 + k + n) (len octet)); [|done].
  eapply ensures_mono; [apply subslice_ensures; lia|]. by intros b [Hw _].
Qed.

Lemma walk_fields_ensures fuel l fields_end pos :
  0 <= pos <= len l -> Forall u8 l -> len l - pos < Z.of_nat fuel ->
  ensures (walk_fields fuel l fields_end pos) (fun b => within b l).
Proof.
  intros Hp Hu. revert pos Hp. induction fuel as [|fuel IH]; intros pos Hp Hf.
  { simpl in *. lia. }
  cbn [walk_fields]. destruct (negb _); [done|]. destruct (Z.leb_spec (len l) pos); [done|].
  eapply ensures_bind; [apply (index_ensures _ _ (fun _ => True)); [lia|done]|]. intros tag _.
  eapply ensures_bind; [apply read_der_length_ensures; [lia|done]|]. intros [n k] (Hn & Hk & Hb).
  cbn [fst snd] in *. destruct (Z.ltb_spec (len l) (pos + 1 + k + n)); [done|].
  destruct (tag =? 162); [|apply IH; lia].
  eapply ensures_bind; [apply subslice_ensures; lia|]. intros octet [Hw _].
  eapply ensures_mono; [apply octet_string_ensures; by eapply within_u8|].
  intros b Hb'. eapply within_trans; [exact Hb'|exact Hw].
Qed.

Lemma nonempty_len (l : bytes) : l <> [] -> 1 <= len l.
Proof. destruct l; [done|]. intros _. rewrite len_cons. pose proof (len_nonneg l). lia. Qed.

Lemma extract_spnego_ensures l :
  Forall u8 l -> ensures (extract_spnego_mech_token l) (fun b => within b l).
Proof.
  intros Hu. unfold extract_spnego_mech_token. case_bool_decide as Hne; [done|].
  apply nonempty_len in Hne.
  eapply ensures_bind; [apply (index_ensures _ _ (fun _ => True)); [lia|done]|]. intros tag _.
  case_match; [done|].
  eapply ensures_bind; [apply read_der_length_ensures; [lia|done]|]. intros [n k] (Hn & Hk & Hb).
  cbn [fst snd] in *. destruct (Z.ltb_spec (len l) (1 + k + n)); [done|].
  eapply ensures_bind; [apply subslice_ensures; lia|]. intros sq [Hw Hl].
  assert (Hus : Forall u8 sq) by (by eapply within_u8).
  case_bool_decide as Hne'; [done|]. apply nonempty_len in Hne'.
  eapply ensures_bind; [apply (index_ensures _ _ (fun _ => True)); [lia|done]|]. intros tag' _.
  case_match; [done|].
  eapply ensures_bind; [apply read_der_length_ensures; [lia|done]|]. intros [n' k'] (Hn' & Hk' & Hb').
  cbn [fst snd] in *. destruct (Z.ltb_spec (len sq) (1 + k' + n')); [done|].
  eapply ensures_mono; [apply walk_fields_ensures; [lia|done|unfold len; lia]|].
  intros b Hb''. eapply within_trans; [exact Hb''|exact Hw].
Qed.

Lemma extract_basic_ensures l :
  Forall u8 l ->
  ensures (extract_basic_ocsp_tbs_bytes l) (fun b => within b l /\ get b 0 = Some 48).
Proof.
  intros Hu. unfold extract_basic_ocsp_tbs_bytes, read_der_length_ocsp.
  case_bool_decide as Hne; [done|]. apply nonempty_len in Hne.
  eapply ensures_bind; [apply (index_ensures _ _ (fun _ => True)); [lia|done]|]. intros tag _.
  case_match; [done|].
  eapply ensures_bind; [apply read_der_length_ensures; [lia|done]|]. intros [n k] (Hn & Hk & Hb).
  cbn [fst snd] in *. destruct (Z.ltb_spec (len l) (1 + k + n)); [done|].
  destruct (Z.leb_spec (len l) (1 + k)); [done|].
  eapply ensures_bind; [apply (index_ensures _ _ (fun b => get l (1 + k) = Some b)); [lia|done]|].
  intros tag' Htag. destruct (Z.eqb_spec tag' 48) as [->|]; [|done]. cbn [negb].
  eapply ensures_bind; [apply read_der_length_ensures; [lia|done]|]. intros [n' k'] (Hn' & Hk' & Hb').
  cbn [fst snd] in *. destruct (Z.ltb_spec (len l) (1 + k + 1 + k' + n')); [done|].
  unfold subslice, range_ok. rewrite !(proj2 (Z.leb_le _ _)) by lia. simpl. split; [apply part_within|].
  unfold get in *. destruct (Z.leb_spec 0 (1 + k)); [|lia].
  destruct (Z.ltb_spec (1 + k) (len l)); [|lia]. cbn [andb] in Htag.
  assert (Hlen : len (part l (1 + k) (1 + k + 1 + k' + n')) = 1 + k' + n').
  { unfold part, len in *. rewrite length_take, length_drop. lia. }
  rewrite (proj2 (Z.ltb_lt _ _)) by lia. cbn [andb Z.leb]. unfold part.
  rewrite lookup_take_lt by lia. rewrite lookup_drop. by rewrite Nat.add_0_r.
Qed.

(** The offset arithmetic on untrusted DER is safe.  Whatever bytes an
    OCSP responder or a Kerberos client sends, looking for the signed part of
    the response or for the mechToken neither indexes nor slices out of range
    nor runs forever, and what is found is a part of the input; the signed
    part is a SEQUENCE. *)
Theorem der_walk_safe l :
  Forall u8 l ->
  (returns (extract_basic_ocsp_tbs_bytes l) /\
   forall b, extract_basic_ocsp_tbs_bytes l = Ok b -> within b l /\ get b 0 = Some 48) /\
  (returns (extract_spnego_mech_token l) /\
   forall b, extract_spnego_mech_token l = Ok b -> within b l) /\
  returns (extract_integer_value l).
Proof.
  intros Hu. pose proof (extract_basic_ensures l Hu) as Hb. pose proof (extract_spnego_ensures l Hu) as Hs.
  split_and!.
  - by apply (ensures_returns _ _ Hb).
  - intros b E. exact (ensures_Ok _ _ _ Hb E).
  - by apply (ensures_returns _ _ Hs).
  - intros b E. exact (ensures_Ok _ _ _ Hs E).
  - unfold extract_integer_value. destruct (Z.ltb_spec (len l) 2); [done|].
    eapply (ensures_returns (fun _ => True)).
    eapply ensures_bind; [apply (index_ensures _ _ (fun _ => True)); [lia|done]|]. intros tag _.
    case_match; [done|].
    eapply ensures_bind; [apply (index_ensures _ _ (fun _ => True)); [lia|done]|]. intros n _.
    unfold get_range. case_match; [by case_match|].
    assert (0 <= Z.land n 127) by (rewrite land_127; apply Z.mod_pos_bound; lia).
    destruct (Z.ltb_spec (len l) (2 + Z.land n 127)); [done|].
    eapply ensures_bind; [apply subslice_ensures; lia|]. intros octets _. by case_match.
Qed.

(** ** What is looked for is found *)

Lemma len_tlv tag c : len (tlv_of tag c) = 1 + len (length_octets (len c)) + len c.
Proof. unfold tlv_of. len_lia. Qed.

(** The header of a value at a known place. *)
Lemma header_at pre tag c post :
  len c < 2 ^ 32 ->
  get (pre ++ tlv_of tag c ++ post) (len pre) = Some tag /\
  read_der_length (pre ++ tlv_of tag c ++ post) (len pre + 1) =
    Ok (len c, len (length_octets (len c))).
Proof.
  intros Hc. unfold tlv_of. cbn [app]. split; [by apply get_at|].
  replace (pre ++ tag :: (length_octets (len c) ++ c) ++ post)
    with ((pre ++ [tag]) ++ length_octets (len c) ++ c ++ post)
    by (by rewrite <- !app_assoc).
  apply read_der_length_at; [len_lia|]. pose proof (len_nonneg c). lia.
Qed.

(** And its content. *)
Lemma content_at pre tag c post :
  subslice (pre ++ tlv_of tag c ++ post) (len pre + 1 + len (length_octets (len c)))
    (len pre + 1 + len (length_octets (len c)) + len c) = Ok c.
Proof.
  unfold tlv_of. cbn [app].
  replace (pre ++ tag :: (length_octets (len c) ++ c) ++ post)
    with ((pre ++ tag :: length_octets (len c)) ++ c ++ post)
    by (by rewrite <- !app_assoc).
  apply subslice_at; len_lia.
Qed.

Lemma get_index l i b : get l i = Some b -> index l i = Ok b.
Proof. unfold index. by intros ->. Qed.

Lemma octet_string_tlv token :
  len token < 2 ^ 32 -> octet_string_value (tlv_of 4 token) = Ok token.
Proof.
  intros Ht. destruct (header_at [] 4 token [] Ht) as [Hg Hr].
  pose proof (content_at [] 4 token []) as Hc. rewrite app_nil_l, app_nil_r, len_nil in *.
  unfold octet_string_value. rewrite bool_decide_eq_false_2 by done. cbn [negb andb].
  rewrite bool_decide_eq_true_2 by done. rewrite Z.add_0_l in Hr. rewrite Hr. cbn [obind fst snd].
  rewrite len_tlv. rewrite (proj2 (Z.leb_le _ _)) by lia. exact Hc.
Qed.

Lemma walk_fields_found before token after fuel pre pos fields_end :
  Forall (fun f => f.1 <> 162 /\ len f.2 < 2 ^ 32) before ->
  len (tlv_of 4 token) < 2 ^ 32 ->
  pos = len pre ->
  fields_end = pos + len (concat (map (fun f => tlv_of f.1 f.2) before)) +
    len (tlv_of 162 (tlv_of 4 token)) + len after ->
  (length before < fuel)%nat ->
  walk_fields fuel (pre ++ concat (map (fun f => tlv_of f.1 f.2) before) ++
    tlv_of 162 (tlv_of 4 token) ++ after) fields_end pos = Ok token.
Proof.
  intros Hb Ht. revert fuel pre pos fields_end. induction Hb as [|[tag c] before [Htag Hc] Hb IH];
    intros fuel pre pos fields_end -> -> Hf; (destruct fuel as [|fuel]; [simpl in Hf; lia|]); cbn [walk_fields map concat].
  - cbn [app]. destruct (header_at pre 162 (tlv_of 4 token) after Ht) as [Hg Hr].
    pose proof (content_at pre 162 (tlv_of 4 token) after) as Hcont.
    pose proof (len_tlv 162 (tlv_of 4 token)) as Htlv. pose proof (len_nonneg after). pose proof (len_nonneg pre).
    pose proof (len_nonneg (length_octets (len (tlv_of 4 token)))).
    pose proof (len_nonneg (tlv_of 4 token)).
    rewrite (proj2 (Z.ltb_lt _ _)) by (rewrite len_nil; lia). cbn [negb].
    rewrite (proj2 (Z.leb_gt _ _)) by (rewrite !len_app; lia).
    rewrite (get_index _ _ _ Hg). cbn [obind]. rewrite Hr. cbn [obind fst snd].
    rewrite (proj2 (Z.ltb_ge _ _)) by (rewrite !len_app; lia).
    rewrite Z.eqb_refl. rewrite Hcont. cbn [obind]. apply octet_string_tlv.
    rewrite len_tlv in Ht. pose proof (len_nonneg (length_octets (len token))). lia.
  - cbn [fst snd] in *. assert (Htlv : len (tlv_of tag c) = 1 + len (length_octets (len c)) + len c) by apply len_tlv.
    set (rest := concat (map (fun f => tlv_of f.1 f.2) before) ++ tlv_of 162 (tlv_of 4 token) ++ after).
    replace (pre ++ (tlv_of tag c ++ concat (map (fun f => tlv_of f.1 f.2) before)) ++
      tlv_of 162 (tlv_of 4 token) ++ after) with (pre ++ tlv_of tag c ++ rest)
      by (unfold rest; by rewrite <- app_assoc).
    destruct (header_at pre tag c rest Hc) as [Hg Hr].
    pose proof (len_nonneg rest). pose proof (len_nonneg pre). pose proof (len_nonneg c).
    pose proof (len_nonneg (length_octets (len c))). pose proof (len_nonneg after).
    pose proof (len_nonneg (tlv_of 162 (tlv_of 4 token))).
    pose proof (len_nonneg (concat (map (fun f => tlv_of f.1 f.2) before))).
    rewrite (proj2 (Z.ltb_lt _ _)) by (rewrite len_app; lia). cbn [negb].
    rewrite (proj2 (Z.leb_gt _ _)) by (rewrite !len_app; lia).
    rewrite (get_index _ _ _ Hg). cbn [obind]. rewrite Hr. cbn [obind fst snd].
    rewrite (proj2 (Z.ltb_ge _ _)) by (rewrite !len_app; lia).
    rewrite (proj2 (Z.eqb_neq _ _)) by done. unfold rest.
    replace (pre ++ tlv_of tag c ++ concat (map (fun f => tlv_of f.1 f.2) before) ++
      tlv_of 162 (tlv_of 4 token) ++ after) with ((pre ++ tlv_of tag c) ++
      concat (map (fun f => tlv_of f.1 f.2) before) ++ tlv_of 162 (tlv_of 4 token) ++ after)
      by (by rewrite <- app_assoc).
    apply IH; [rewrite len_app; lia|rewrite len_app; lia|simpl in Hf; lia].
Qed.

Lemma extract_basic_found tbs rest trailing :
  len (tlv_of 48 tbs ++ rest) < 2 ^ 32 ->
  extract_basic_ocsp_tbs_bytes (tlv_of 48 (tlv_of 48 tbs ++ rest) ++ trailing) = Ok (tlv_of 48 tbs).
Proof.
  intros Hl. pose proof (len_nonneg rest). pose proof (len_nonneg trailing). pose proof (len_nonneg tbs).
  pose proof (len_tlv 48 tbs) as Htlv. pose proof (len_nonneg (length_octets (len tbs))).
  set (c := tlv_of 48 tbs ++ rest) in *. pose proof (len_tlv 48 c) as Hctlv.
  assert (Hlc : len c = len (tlv_of 48 tbs) + len rest) by (unfold c; apply len_app).
  pose proof (len_nonneg (length_octets (len c))).
  destruct (header_at [] 48 c trailing) as [Hg Hr]; [lia|].
  set (hd := 48 :: length_octets (len c)). assert (Hhd : len hd = 1 + len (length_octets (len c))) by apply len_cons.
  assert (Eq : tlv_of 48 c ++ trailing = hd ++ tlv_of 48 tbs ++ rest ++ trailing).
  { unfold tlv_of at 1, hd, c. cbn [app]. by rewrite <- !app_assoc. }
  rewrite app_nil_l, len_nil in *. rewrite Z.add_0_l in Hr.
  unfold extract_basic_ocsp_tbs_bytes, read_der_length_ocsp. rewrite bool_decide_eq_false_2 by done.
  rewrite (get_index _ _ _ Hg). cbn [obind]. rewrite Z.eqb_refl. cbn [negb]. rewrite Hr. cbn [obind fst snd].
  rewrite (proj2 (Z.ltb_ge _ _)) by (rewrite len_app; lia).
  rewrite (proj2 (Z.leb_gt _ _)) by (rewrite len_app; lia).
  destruct (header_at hd 48 tbs (rest ++ trailing)) as [Hg' Hr']; [lia|].
  pose proof (content_at hd 48 tbs (rest ++ trailing)) as Hcont.
  rewrite Eq. rewrite <- Hhd. rewrite (get_index _ _ _ Hg'). cbn [obind]. rewrite Z.eqb_refl. cbn [negb].
  rewrite Hr'. cbn [obind fst snd]. rewrite (proj2 (Z.ltb_ge _ _)) by (rewrite !len_app; lia).
  apply subslice_at; lia.
Qed.

Lemma extract_integer_found v trailing :
  len v < 2 ^ 32 -> extract_integer_value (tlv_of 2 v ++ trailing) = Ok v.
Proof.
  intros Hl. pose proof (len_nonneg v). pose proof (len_nonneg trailing).
  unfold extract_integer_value, tlv_of. destruct (Z.ltb_spec (len v) 128) as [Hs|Hs].
  - assert (length_octets (len v) = [len v]) as ->
      by (unfold length_octets; by rewrite (proj2 (Z.ltb_lt _ _))).
    cbn [app]. rewrite (proj2 (Z.ltb_ge _ _)) by len_lia.
    rewrite index_0. cbn [obind]. rewrite Z.eqb_refl. cbn [negb].
    rewrite index_1. cbn [obind]. rewrite (proj2 (Z.ltb_lt _ _)) by done.
    apply (get_range_at [2; len v]); [done|len_lia].
  - destruct (length_octets_long (len v)) as (octets & -> & Ho & Hf); [lia|]. cbn [app].
    rewrite (proj2 (Z.ltb_ge _ _)) by len_lia.
    rewrite index_0. cbn [obind]. rewrite Z.eqb_refl. cbn [negb].
    rewrite index_1. cbn [obind].
    rewrite (proj2 (Z.ltb_ge (128 + len octets) 128)) by lia.
    assert (Z.land (128 + len octets) 127 = len octets) as ->.
    { rewrite land_127. rewrite Z.add_mod, Z.mod_same, Z.add_0_l, Z.mod_mod, Z.mod_small by lia. done. }
    rewrite (proj2 (Z.ltb_ge _ _)) by len_lia. rewrite <- app_assoc.
    assert (Hsub : subslice ([2; 128 + len octets] ++ octets ++ v ++ trailing) 2 (2 + len octets) = Ok octets)
      by (by apply subslice_at).
    cbn [app] in Hsub. rewrite Hsub. cbn [obind].
    unfold fold_length. rewrite Hf.
    assert (usize_add (2 + len octets) (len v) = 2 + len octets + len v) as ->.
    { unfold usize_add, as_u64. apply Z.mod_small. change (2 ^ 32) with 4294967296 in *.
      change (2 ^ 64) with 18446744073709551616. lia. }
    assert (Hr : get_range ((2 :: 128 + len octets :: octets) ++ v ++ trailing) (2 + len octets)
      (2 + len octets + len v) = Ok v) by (apply get_range_at; len_lia).
    exact Hr.
Qed.

Lemma extract_spnego_found before token after trailing :
  let fields := concat (map (fun f => tlv_of f.1 f.2) before) ++ tlv_of 162 (tlv_of 4 token) ++ after in
  Forall (fun f => f.1 <> 162 /\ len f.2 < 2 ^ 32) before ->
  len (tlv_of 48 fields) < 2 ^ 32 ->
  extract_spnego_mech_token (tlv_of 160 (tlv_of 48 fields) ++ trailing) = Ok token.
Proof.
  intros fields Hb Hl. pose proof (len_tlv 48 fields) as Hf. pose proof (len_nonneg fields).
  pose proof (len_nonneg (length_octets (len fields))). pose proof (len_nonneg trailing).
  pose proof (len_nonneg after).
  set (sq := tlv_of 48 fields) in *. pose proof (len_tlv 160 sq) as Hsq.
  assert (Hlf : len fields = len (concat (map (fun f => tlv_of f.1 f.2) before)) +
    len (tlv_of 162 (tlv_of 4 token)) + len after) by (unfold fields; rewrite !len_app; lia).
  pose proof (len_nonneg (concat (map (fun f => tlv_of f.1 f.2) before))).
  pose proof (len_tlv 162 (tlv_of 4 token)). pose proof (len_nonneg (length_octets (len (tlv_of 4 token)))).
  destruct (header_at [] 160 sq trailing) as [Hg Hr]; [lia|].
  pose proof (content_at [] 160 sq trailing) as Hc.
  rewrite app_nil_l, len_nil, ?Z.add_0_l in *.
  unfold extract_spnego_mech_token. rewrite bool_decide_eq_false_2 by done.
  rewrite (get_index _ _ _ Hg). cbn [obind]. rewrite Z.eqb_refl. cbn [negb]. rewrite Hr. cbn [obind fst snd].
  rewrite (proj2 (Z.ltb_ge _ _)) by (rewrite len_app; lia). rewrite Hc. cbn [obind].
  rewrite bool_decide_eq_false_2 by done.
  destruct (header_at [] 48 fields []) as [Hg' Hr']; [lia|].
  rewrite app_nil_l, app_nil_r, len_nil, ?Z.add_0_l in *. fold sq in Hg', Hr'.
  rewrite (get_index _ _ _ Hg'). cbn [obind]. rewrite Z.eqb_refl. cbn [negb]. rewrite Hr'. cbn [obind fst snd].
  rewrite (proj2 (Z.ltb_ge _ _)) by lia.
  assert (Eq : sq = (48 :: length_octets (len fields)) ++ fields) by done. rewrite Eq.
  apply walk_fields_found; [done|lia|len_lia|lia|].
  assert (length before <= length (concat (map (fun f => tlv_of f.1 f.2) before)))%nat.
  { clear. induction before as [|f before IH]; simpl; [lia|]. rewrite length_app. simpl. lia. }
  unfold fields. simpl. rewrite !length_app. lia.
Qed.

(** What the walks look for is what they find: on the DER of a
    BasicOCSPResponse the signed part is exactly its first field with its
    header, on a NegTokenInit the mechToken is exactly the OCTET STRING in
    the field [2] wherever it comes, and on an INTEGER the value is exactly
    its content; whatever follows is not looked at. *)
Theorem der_walk_exact tbs rest before token after v trailing :
  let fields := concat (map (fun f => tlv_of f.1 f.2) before) ++ tlv_of 162 (tlv_of 4 token) ++ after in
  len (tlv_of 48 tbs ++ rest) < 2 ^ 32 -> len (tlv_of 48 fields) < 2 ^ 32 -> len v < 2 ^ 32 ->
  Forall (fun f => f.1 <> 162 /\ len f.2 < 2 ^ 32) before ->
  extract_basic_ocsp_tbs_bytes (tlv_of 48 (tlv_of 48 tbs ++ rest) ++ trailing) = Ok (tlv_of 48 tbs) /\
  extract_spnego_mech_token (tlv_of 160 (tlv_of 48 fields) ++ trailing) = Ok token /\
  extract_integer_value (tlv_of 2 v ++ trailing) = Ok v.
Proof.
  intros fields Ht Hf Hv Hb. split_and!.
  - by apply extract_basic_found.
  - by apply extract_spnego_found.
  - by apply extract_integer_found.
Qed.

(** ** Examples *)

Lemma der_walk_safe_witness :
  Forall u8 [160; 132; 255; 255; 255; 255; 48] /\
  returns (extract_spnego_mech_token [160; 132; 255; 255; 255; 255; 48]).
Proof.
  assert (Hu : Forall u8 [160; 132; 255; 255; 255; 255; 48])
    by (repeat constructor; unfold u8; lia).
  split; [exact Hu|]. destruct (der_walk_safe _ Hu) as (_ & [Hs _] & _). exact Hs.
Defined.

Lemma der_walk_exact_witness :
  extract_basic_ocsp_tbs_bytes [48; 5; 48; 2; 7; 8; 9] = Ok [48; 2; 7; 8] /\
  extract_spnego_mech_token [160; 11; 48; 9; 160; 1; 6; 162; 4; 4; 2; 1; 2] = Ok [1; 2] /\
  extract_integer_value [2; 1; 65] = Ok [65].
Proof.
  destruct (der_walk_exact [7; 8] [9] [(160, [6])] [1; 2] [] [65] []) as (H1 & H2 & H3).
  - vm_compute. reflexivity.
  - vm_compute. reflexivity.
  - vm_compute. reflexivity.
  - repeat constructor; discriminate.
  - split; [exact H1|]. split; [exact H2|exact H3].
Defined.

(** * Reading DER

    The interface of the decoder the server walks ASN.1 structures with
    ([synta::Decoder]): an operation answers what it read and the decoder
    behind it.  [DecoderLaws] says what the operations do on the encoding of
    a value; [Consumes] that they use input up, which is what the loops of
    the program rely on to end. *)
From S2P Require Import X509 Der.
Open Scope Z_scope.

Inductive TagClass : Type := Universal | Application | ContextSpecific | Private.
#[export] Instance TagClass_eq_dec : EqDecision TagClass.
Proof. solve_decision. Defined.

Record ReadTag : Type := MkTag { tag_class : TagClass; tag_constructed : bool; tag_number : Z }.

Class Decoder : Type := {
  Dec : Type;
  decoder_new : bytes -> Dec;
  dec_is_empty : Dec -> bool;
  position : Dec -> Z;
  (** the content, and what follows the value *)
  enter_constructed : Tag -> Dec -> (Dec * Dec) + string;
  read_tag : Dec -> (ReadTag * Dec) + string;
  peek_tag : Dec -> ReadTag + string;
  (** [None] for an indefinite length *)
  read_length : Dec -> (option Z * Dec) + string;
  read_bytes : Z -> Dec -> (bytes * Dec) + string;
  decode_oid : Dec -> (oid * Dec) + string;
  decode_raw : Dec -> (bytes * Dec) + string;
  (** a sequence of identifiers *)
  decode_oids : bytes -> list oid + string;
  READ_TAG_SEQUENCE : Z
}.

Section Reader.
Context `{Decoder}.

Definition read_seq_tag : Tag := universal_constructed READ_TAG_SEQUENCE.

(** The identifier octet of a low-numbered tag. *)
Definition class_bits (c : TagClass) : Z :=
  match c with Universal => 0 | Application => 64 | ContextSpecific => 128 | Private => 192 end.
Definition identifier (t : ReadTag) : Z :=
  class_bits (tag_class t) + (if tag_constructed t then 32 else 0) + tag_number t.
Definition constructed_tag (t : Tag) : ReadTag :=
  match t with
  | universal_constructed n => MkTag Universal true n
  | context_specific_constructed n => MkTag ContextSpecific true n
  end.

Class DecoderLaws : Type := {
  tag_sequence_ok : READ_TAG_SEQUENCE = 16;
  remaining : Dec -> bytes;
  decoder_new_ok b : remaining (decoder_new b) = b;
  is_empty_ok d : dec_is_empty d = bool_decide (remaining d = []);
  enter_ok t d c rest :
    remaining d = tlv_of (identifier (constructed_tag t)) c ++ rest ->
    0 <= tag_number (constructed_tag t) < 31 -> len c < 2 ^ 32 ->
    exists i d', enter_constructed t d = inl (i, d') /\ remaining i = c /\ remaining d' = rest;
  read_tag_ok t d rest :
    remaining d = identifier t :: rest -> 0 <= tag_number t < 31 ->
    exists d', read_tag d = inl (t, d') /\ remaining d' = rest;
  peek_tag_ok t d rest :
    remaining d = identifier t :: rest -> 0 <= tag_number t < 31 -> peek_tag d = inl t;
  read_length_ok n d rest :
    remaining d = length_octets n ++ rest -> 0 <= n < 2 ^ 32 ->
    exists d', read_length d = inl (Some n, d') /\ remaining d' = rest;
  read_bytes_ok c d rest :
    remaining d = c ++ rest -> exists d', read_bytes (len c) d = inl (c, d') /\ remaining d' = rest;
  decode_raw_ok t d c rest :
    remaining d = tlv_of (identifier t) c ++ rest -> 0 <= tag_number t < 31 -> len c < 2 ^ 32 ->
    exists d', decode_raw d = inl (tlv_of (identifier t) c, d') /\ remaining d' = rest;
  (** the encoding of an identifier *)
  oid_bytes : oid -> bytes;
  decode_oid_ok o d rest :
    remaining d = tlv_of 6 (oid_bytes o) ++ rest -> len (oid_bytes o) < 2 ^ 32 ->
    exists d', decode_oid d = inl (o, d') /\ remaining d' = rest
}.

(** How much input is left: every read takes some. *)
Class Consumes : Type := {
  left : Dec -> nat;
  new_left b : (left (decoder_new b) <= length b)%nat;
  empty_left d : left d = 0%nat -> dec_is_empty d = true;
  enter_left t d i d' : enter_constructed t d = inl (i, d') ->
    (left i < left d)%nat /\ (left d' < left d)%nat;
  read_tag_left t d d' : read_tag d = inl (t, d') -> (left d' < left d)%nat;
  read_length_left n d d' : read_length d = inl (n, d') -> (left d' < left d)%nat;
  read_bytes_left n b d d' : read_bytes n d = inl (b, d') -> (left d' <= left d)%nat /\
    (length b <= left d)%nat;
  decode_oid_left o d d' : decode_oid d = inl (o, d') -> (left d' < left d)%nat;
  decode_raw_left b d d' : decode_raw d = inl (b, d') -> (left d' < left d)%nat
}.

(** The three reads that take one value apart, as the program writes them:
    tag, definite length, content. *)
Definition read_value (d : Dec) : option (ReadTag * bytes * Dec) :=
  match read_tag d with
  | inr _ => None
  | inl (t, d) =>
      match read_length d with
      | inr _ => None
      | inl (None, _) => None
      | inl (Some n, d) =>
          match read_bytes n d with
          | inr _ => None
          | inl (c, d) => Some (t, c, d)
          end
      end
  end.

Lemma read_value_left `{!Consumes} d t c d' :
  read_value d = Some (t, c, d') -> (left d' < left d)%nat /\ (length c < left d)%nat.
Proof.
  unfold read_value. destruct (read_tag d) as [[t0 d1]|] eqn:E1; [|done]. apply read_tag_left in E1.
  destruct (read_length d1) as [[[n|] d2]|] eqn:E2; [|done..]. apply read_length_left in E2.
  destruct (read_bytes n d2) as [[c0 d3]|] eqn:E3; [|done]. apply read_bytes_left in E3.
  intros [= <- <- <-]. lia.
Qed.

Lemma read_value_ok `{!DecoderLaws} t c d rest :
  remaining d = tlv_of (identifier t) c ++ rest -> 0 <= tag_number t < 31 -> len c < 2 ^ 32 ->
  exists d', read_value d = Some (t, c, d') /\ remaining d' = rest.
Proof.
  intros Hr Ht Hc. unfold tlv_of in Hr. cbn [app] in Hr. rewrite <- app_assoc in Hr.
  destruct (read_tag_ok t d _ Hr Ht) as (d1 & E1 & Hr1).
  destruct (read_length_ok (len c) d1 _ Hr1) as (d2 & E2 & Hr2); [pose proof (len_nonneg c); lia|].
  destruct (read_bytes_ok c d2 _ Hr2) as (d3 & E3 & Hr3).
  exists d3. unfold read_value. by rewrite E1, E2, E3.
Qed.

Lemma enter_seq `{!DecoderLaws} d c rest :
  remaining d = tlv_of 48 c ++ rest -> len c < 2 ^ 32 ->
  exists i d', enter_constructed read_seq_tag d = inl (i, d') /\ remaining i = c /\ remaining d' = rest.
Proof.
  intros Hr Hc. assert (Hid : identifier (constructed_tag read_seq_tag) = 48)
    by (unfold read_seq_tag; cbn; by rewrite tag_sequence_ok).
  rewrite <- Hid in Hr. apply (enter_ok _ _ _ _ Hr); [|done].
  unfold read_seq_tag. cbn. rewrite tag_sequence_ok. lia.
Qed.

Lemma content_short tag c : len (tlv_of tag c) < 2 ^ 32 -> len c < 2 ^ 32.
Proof. rewrite len_tlv. pose proof (len_nonneg (length_octets (len c))). lia. Qed.
End Reader.
