(* ===== verification/Ocsp.v ===== *)
(** * The OCSP client

    [src/ocsp/mod.rs]: requests for the status of a certificate, the checks
    on the answer (who signed it, what it covers, when it is valid), and the
    response cache.  The parsed structures of the X.509 library are records
    with the fields the program reads; the HTTP exchange is a function of the
    URL and the request, the clock readings and the nonce are arguments. *)
From S2P Require Import Prelude Words Text Calendar X509 Der DerReader.
Open Scope Z_scope.

Inductive OcspError : Type :=
  | RequestBuild (e : string)
  | Transport (e : string)
  | ResponseStatus (e : string)
  | SignatureVerification (e : string)
  | MissingCertStatus
  | NonceMismatch
  | Parse (e : string)
  | Timeout (secs : Z).

Definition ocsp_error_to_string (e : OcspError) : string :=
  match e with
  | RequestBuild e => "OCSP request build error: " +:+ e
  | Transport e => "OCSP transport error: " +:+ e
  | ResponseStatus e => "OCSP response status: " +:+ e
  | SignatureVerification e => "OCSP response signature verification failed: " +:+ e
  | MissingCertStatus => "OCSP response missing status for queried certificate"
  | NonceMismatch => "OCSP nonce mismatch: replay attack possible"
  | Parse e => "OCSP response parse error: " +:+ e
  | Timeout secs => "OCSP responder timeout after " +:+ pretty secs +:+ "s"
  end.

Inductive OcspStatus : Type :=
  | Good
  | Revoked (reason revocation_time : string)
  | StatusUnknown.

Record CertId : Type := MkCertId {
  hash_algorithm : string;
  issuer_name_hash : bytes;
  issuer_key_hash : bytes;
  id_serial_number : bytes
}.
#[export] Instance CertId_eq_dec : EqDecision CertId.
Proof. solve_decision. Defined.
#[export] Instance CertId_countable : Countable CertId.
Proof.
  apply (inj_countable' (fun i => (hash_algorithm i, issuer_name_hash i, issuer_key_hash i, id_serial_number i))
           (fun '(a, n, k, s) => MkCertId a n k s)). by intros [].
Defined.

Record CachedOcspResponse : Type := MkCached {
  cached_status : OcspStatus;
  cached_at : Z;
  ttl : Z
}.
Definition response_expired (now : Z) (c : CachedOcspResponse) : bool :=
  ttl c <? elapsed now (cached_at c).

Record OcspConfig : Type := MkOcspConfig {
  ocsp_enabled : bool;
  responder_url : option string;
  cache_ttl_secs : Z;
  timeout_secs : Z;
  require_nonce : bool;
  soft_fail : bool
}.
Definition ocsp_config_default : OcspConfig := MkOcspConfig false None 300 10 true false.

Record OcspClient : Type := MkClient {
  ocsp_config : OcspConfig;
  response_cache : gmap CertId CachedOcspResponse
}.
Definition ocsp_client_new (c : OcspConfig) : OcspClient := MkClient c ∅.
Definition evict_expired (now : Z) (c : OcspClient) : OcspClient :=
  MkClient (ocsp_config c) (map_retain (fun _ v => negb (response_expired now v)) (response_cache c)).
Definition cache_size (c : OcspClient) : nat := size (response_cache c).

(** ** What the X.509 library parses *)

Inductive ResponderID : Type := ByName (name_der : bytes + string) | ByKey (hash : bytes).

(** Revoked: the debug text of the reason, if any, and the fields of the time. *)
Inductive CertStatus : Type :=
  | SGood
  | SRevoked (reason : option string) (year month day hour minute second : Z)
  | SUnknown.

(** The response status is [None] if successful, else its debug text. *)
Record OcspEnvelope : Type := MkEnvelope {
  response_status : option string;
  response_bytes : option (oid * bytes)
}.

Class OcspLib `{X509Lib} : Type := {
  (** fields of certificates *)
  cert_serial_der : Cert -> bytes + string;
  cert_public_key : Cert -> bytes;
  cert_extensions : Cert -> option bytes;
  (** serial numbers *)
  Serial : Type;
  Serial_eq_dec : EqDecision Serial;
  serial_from_bytes : bytes -> Serial;
  (** requests *)
  build_ocsp_tbs : bytes -> bytes -> bytes -> bytes -> bytes + string;
  OcspRequest : Type;
  ocsp_request_from_der : bytes -> OcspRequest + string;
  set_request_extensions : list RawExtension -> OcspRequest -> OcspRequest;
  ocsp_request_to_der : OcspRequest -> bytes + string;
  octet_string_to_der : bytes -> bytes + string;
  octet_string_from_der : bytes -> bytes + string;
  (** responses *)
  envelope_from_der : bytes -> OcspEnvelope + string;
  ID_PKIX_OCSP_BASIC : oid;
  AD_OCSP : oid;
  hash_data : string -> bytes -> bytes + string
}.
#[export] Existing Instance Serial_eq_dec.

Section Structures.
Context `{OcspLib}.

Record SingleResponse : Type := MkSingle {
  single_name_hash : bytes;
  single_key_hash : bytes;
  single_serial : Serial;
  single_hash_algorithm : string;
  this_update : CertTime;
  next_update : option CertTime;
  cert_status : CertStatus
}.

Record BasicResponse : Type := MkBasic {
  basic_certs : option (list bytes);
  basic_signature_algorithm : bytes + string;
  basic_signature : bytes;
  responder_id : ResponderID;
  produced_at : CertTime;
  response_extensions : option (list (oid * bytes));
  responses : list SingleResponse
}.
End Structures.

(** ** The exchange over HTTP *)

Inductive HttpReply : Type :=
  | ClientError (e : string)
  | SendTimeout
  | SendError (e : string)
  | Replied (code : Z) (code_text : string) (chunks : list (bytes + string)).

(** The loop over the chunks of a body. *)
Fixpoint read_body {E} (limit : Z) (failed : string -> E) (too_large : E) (acc : bytes)
    (chunks : list (bytes + string)) : outcome bytes E :=
  match chunks with
  | [] => Ok acc
  | inr e :: _ => Err (failed e)
  | inl chunk :: rest =>
      if Z.max 0 (limit - len acc) <? len chunk then Err too_large
      else read_body limit failed too_large (acc ++ chunk) rest
  end.

Section Client.
Context `{OcspLib} `{Decoder}.
Variable basic_response_from_der : bytes -> BasicResponse + string.
Variable sha256 : bytes -> bytes.

Definition NONCE_OID : oid := [1; 3; 6; 1; 5; 5; 7; 48; 1; 2].

(** ** Building the request *)

Definition build_cert_id (cert_der issuer_der : bytes) : outcome CertId OcspError :=
  if bool_decide (cert_der = []) then Err (RequestBuild "empty certificate DER")
  else if bool_decide (issuer_der = []) then Err (RequestBuild "empty issuer certificate DER")
  else
    let? cert := of_lib (fun e => RequestBuild ("certificate parse failed: " +:+ e))
      (cert_from_der cert_der) in
    let? issuer_cert := of_lib (fun e => RequestBuild ("issuer certificate parse failed: " +:+ e))
      (cert_from_der issuer_der) in
    let? serial_number := of_lib (fun e => RequestBuild ("serial encode failed: " +:+ e))
      (cert_serial_der cert) in
    let? serial_value := map_err (fun _ => RequestBuild "malformed serial INTEGER")
      (extract_integer_value serial_number) in
    Ok (MkCertId "2.16.840.1.101.3.4.2.1" (sha256 (cert_subject issuer_cert))
          (sha256 (cert_public_key issuer_cert)) serial_value).

(** The loop of [extract_ocsp_url_from_aia]; [Err] is [None]. *)
Fixpoint aia_loop (fuel : nat) (outer : Dec) : outcome string unit :=
  match fuel with
  | O => Panic
  | S fuel' =>
      if dec_is_empty outer then Err tt
      else
        let? (access_desc, outer) := of_lib (fun _ => tt) (enter_constructed read_seq_tag outer) in
        let? (method, access_desc) := of_lib (fun _ => tt) (decode_oid access_desc) in
        if bool_decide (method = AD_OCSP) then
          let? tag := of_lib (fun _ => tt) (peek_tag access_desc) in
          if tag_number tag =? 6 then
            let? (raw_bytes, _) := of_lib (fun _ => tt) (decode_raw access_desc) in
            let? url_bytes := extract_context_tagged_value raw_bytes in
            ok_or (from_utf8 url_bytes) tt
          else aia_loop fuel' outer
        else aia_loop fuel' outer
  end.
Definition extract_ocsp_url_from_aia (aia_value : bytes) : outcome string unit :=
  let? (outer, _) := of_lib (fun _ => tt) (enter_constructed read_seq_tag (decoder_new aia_value)) in
  aia_loop (S (length aia_value)) outer.

Definition NO_URL : OcspError :=
  RequestBuild "no OCSP responder URL configured and no AIA OCSP URI found in certificate".

Definition resolve_responder_url (c : OcspConfig) (cert_der : bytes) : outcome string OcspError :=
  match responder_url c with
  | Some url => Ok url
  | None =>
      let? cert := of_lib (fun e => RequestBuild ("certificate parse for AIA: " +:+ e))
        (cert_from_der cert_der) in
      match cert_extensions cert with
      | None => Err NO_URL
      | Some exts_raw =>
          match find_extension_value exts_raw AUTHORITY_INFO_ACCESS with
          | None => Err NO_URL
          | Some aia_value => map_err (fun _ => NO_URL) (extract_ocsp_url_from_aia aia_value)
          end
      end
  end.

Definition sha256_algorithm_identifier_der : bytes :=
  [48; 13; 6; 9; 96; 134; 72; 1; 101; 3; 4; 2; 1; 5; 0].

Definition build_ocsp_request (i : CertId) : outcome bytes OcspError :=
  of_lib (fun e => RequestBuild ("OCSPRequest build: " +:+ e))
    (build_ocsp_tbs sha256_algorithm_identifier_der (issuer_name_hash i) (issuer_key_hash i)
       (id_serial_number i)).

Definition build_ocsp_request_with_nonce (i : CertId) (nonce : option bytes)
  : outcome bytes OcspError :=
  let? raw := build_ocsp_request i in
  match nonce with
  | None => Ok raw
  | Some nonce =>
      let? request := of_lib RequestBuild (ocsp_request_from_der raw) in
      let? encoded := of_lib RequestBuild (octet_string_to_der nonce) in
      of_lib RequestBuild
        (ocsp_request_to_der (set_request_extensions [(NONCE_OID, None, encoded)] request))
  end.

Definition OCSP_BODY_LIMIT : Z := 1048576.

Definition send_ocsp_request (c : OcspConfig) (http : string -> bytes -> HttpReply)
    (url : string) (request_der : bytes) : outcome bytes OcspError :=
  match http url request_der with
  | ClientError e => Err (Transport ("HTTP client build: " +:+ e))
  | SendTimeout => Err (Timeout (timeout_secs c))
  | SendError e => Err (Transport ("HTTP POST failed: " +:+ e))
  | Replied code code_text chunks =>
      if negb (is_success code) then
        Err (Transport ("OCSP responder returned HTTP " +:+ code_text))
      else read_body OCSP_BODY_LIMIT Transport (Transport "OCSP body exceeds 1 MiB") [] chunks
  end.

(** ** Checking the answer *)

(** The key purpose of delegated responders. *)
Definition OCSP_SIGNING : oid := [1; 3; 6; 1; 5; 5; 7; 3; 9].

Definition check_delegation (der issuer_der : bytes) (cert : Cert) : outcome unit string :=
  if negb (issued_by der issuer_der) then Err "untrusted OCSP signer"
  else
    let? extensions := ok_or (cert_extensions cert) "missing OCSP signing EKU" in
    let? eku := ok_or (find_extension_value extensions [2; 5; 29; 37]) "missing OCSP signing EKU" in
    let? oids := of_lib id (decode_oids eku) in
    if negb (existsb (fun o => bool_decide (o = OCSP_SIGNING)) oids)
    then Err "OCSP signing EKU required" else Ok tt.

Definition responder_matches (r : ResponderID) (cert : Cert) : outcome bool string :=
  match r with
  | ByName name_der =>
      let? name := of_lib id name_der in
      Ok (bool_decide (name = cert_subject cert))
  | ByKey hash =>
      let? hash_bytes := of_lib id (hash_data "sha1" (cert_public_key cert)) in
      Ok (bool_decide (hash = hash_bytes))
  end.

(** Whether the certificate [der] may sign, and did.  [now] is the clock of
    its validity check. *)
Definition check_candidate (basic : BasicResponse) (tbs alg issuer_der : bytes) (now : Z)
    (der : bytes) : outcome unit string :=
  let? _ := valid_now now der in
  let? cert := of_lib id (cert_from_der der) in
  let? _ := if negb (bool_decide (der = issuer_der)) then check_delegation der issuer_der cert
            else Ok tt in
  let? matches := responder_matches (responder_id basic) cert in
  if negb matches then Err "responder ID mismatch"
  else
    let? ranges := ok_or (cert_ranges der) "invalid responder certificate" in
    of_lib id (verify_signature tbs alg (basic_signature basic) ranges.2).

Definition is_ok {T E} (r : outcome T E) : bool := match r with Ok _ => true | _ => false end.

Definition check_nonce (basic : BasicResponse) (nonce : option bytes) : outcome unit OcspError :=
  match nonce with
  | None => Ok tt
  | Some expected =>
      let? extensions := ok_or (response_extensions basic) NonceMismatch in
      let? ext := ok_or (List.find (fun e : oid * bytes => bool_decide (e.1 = NONCE_OID)) extensions)
        NonceMismatch in
      let? got := of_lib (fun _ => NonceMismatch) (octet_string_from_der ext.2) in
      if bool_decide (got = expected) then Ok tt else Err NonceMismatch
  end.

Definition convert (t : CertTime) : outcome Z OcspError := map_err Parse (time t).

Definition matches_cert_id (i : CertId) (s : SingleResponse) : bool :=
  bool_decide (single_name_hash s = issuer_name_hash i) &&
  bool_decide (single_key_hash s = issuer_key_hash i) &&
  bool_decide (single_serial s = serial_from_bytes (id_serial_number i)) &&
  String.eqb (single_hash_algorithm s) (hash_algorithm i).

(** [{:02}] and [{:04}] *)
Definition revocation_text (y m d h n s : Z) : string :=
  pad 4 y +:+ "-" +:+ pad 2 m +:+ "-" +:+ pad 2 d +:+ "T" +:+ pad 2 h +:+ ":" +:+ pad 2 n +:+ ":" +:+
  pad 2 s +:+ "Z".

Definition status_of (s : CertStatus) : OcspStatus :=
  match s with
  | SGood => Good
  | SRevoked reason y m d h n s => Revoked (default "unspecified" reason) (revocation_text y m d h n s)
  | SUnknown => StatusUnknown
  end.

(** The answer for one certificate: its status, and how long it is valid. *)
Definition single_answer (s : SingleResponse) (produced now : Z) : outcome (OcspStatus * Z) OcspError :=
  let? updated := convert (this_update s) in
  let? expires :=
    match next_update s with
    | Some next => convert next
    | None => Ok (updated + 3600 * SECS)
    end in
  if (now + 300 * SECS <? updated) || (expires <=? now) || (expires <=? updated)
     || (produced <? updated - 300 * SECS)
  then Err (Parse "stale or invalid OCSP update interval")
  else Ok (status_of (cert_status s), expires - now).

(** [candidate_now] is the clock read when a candidate's validity is checked. *)
Definition parse_ocsp_response (response_der : bytes) (i : CertId) (issuer_der : bytes)
    (nonce : option bytes) (candidate_now : bytes -> Z) (now : Z)
  : outcome (OcspStatus * Z) OcspError :=
  let? envelope := of_lib (fun e => Parse ("OCSPResponse decode: " +:+ e))
    (envelope_from_der response_der) in
  match response_status envelope with
  | Some status => Err (ResponseStatus status)
  | None =>
      let? (response_type, response) :=
        ok_or (response_bytes envelope) (Parse "successful OCSPResponse has no responseBytes") in
      if negb (bool_decide (response_type = ID_PKIX_OCSP_BASIC)) then
        Err (Parse ("unexpected responseType: [" +:+ join ", " (map pretty response_type) +:+ "]"))
      else
        let? basic := of_lib (fun e => Parse ("BasicOCSPResponse decode: " +:+ e))
          (basic_response_from_der response) in
        let candidates := issuer_der :: default [] (basic_certs basic) in
        let? tbs := map_err (fun _ => SignatureVerification "invalid response TBS")
          (extract_basic_ocsp_tbs_bytes response) in
        let? alg := of_lib SignatureVerification (basic_signature_algorithm basic) in
        if negb (existsb (fun der => is_ok (check_candidate basic tbs alg issuer_der
                                              (candidate_now der) der)) candidates)
        then Err (SignatureVerification "no authorized OCSP signature")
        else
          let? produced := convert (produced_at basic) in
          if now + 300 * SECS <? produced then Err (Parse "future OCSP producedAt")
          else
            let? _ := check_nonce basic nonce in
            match List.find (matches_cert_id i) (responses basic) with
            | None => Err MissingCertStatus
            | Some single => single_answer single produced now
            end
  end.

(** ** The client *)

(** What one call reads: the clocks and the nonce. *)
Record OcspReadings : Type := MkOcspReadings {
  now_cache : Z;
  random_nonce : bytes;
  candidate_now : bytes -> Z;
  now_response : Z;
  now_insert : Z
}.

Definition set_cache (c : OcspClient) (m : gmap CertId CachedOcspResponse) : OcspClient :=
  MkClient (ocsp_config c) m.

Definition cached_answer (c : OcspClient) (i : CertId) (now : Z) : option OcspStatus :=
  match response_cache c !! i with
  | Some cached => if response_expired now cached then None else Some (cached_status cached)
  | None => None
  end.

(** The query itself, past the cache. *)
Definition query_status (c : OcspConfig) (http : string -> bytes -> HttpReply) (rd : OcspReadings)
    (cert_der issuer_der : bytes) (i : CertId) : outcome (OcspStatus * Z) OcspError :=
  let? url := resolve_responder_url c cert_der in
  let nonce := if require_nonce c then Some (random_nonce rd) else None in
  let? request_der := build_ocsp_request_with_nonce i nonce in
  let? response_der := send_ocsp_request c http url request_der in
  parse_ocsp_response response_der i issuer_der nonce (candidate_now rd) (now_response rd).

Definition check_certificate_status (c : OcspClient) (http : string -> bytes -> HttpReply)
    (rd : OcspReadings) (cert_der issuer_der : bytes) : OcspClient * outcome OcspStatus OcspError :=
  let config := ocsp_config c in
  if negb (ocsp_enabled config) then (c, Ok Good)
  else
    match build_cert_id cert_der issuer_der with
    | Err e => (c, Err e)
    | Panic => (c, Panic)
    | Ok i =>
        match cached_answer c i (now_cache rd) with
        | Some status => (c, Ok status)
        | None =>
            match query_status config http rd cert_der issuer_der i with
            | Err e => (c, Err e)
            | Panic => (c, Panic)
            | Ok (status, valid_for) =>
                (set_cache c (<[i := MkCached status (now_insert rd)
                                  (Z.min valid_for (cache_ttl_secs config * SECS))]>
                                (response_cache c)),
                 Ok status)
            end
        end
    end.

Definition get_stapled_response (c : OcspClient) (http : string -> bytes -> HttpReply)
    (rd : OcspReadings) (cert_der issuer_der : bytes) : outcome bytes OcspError :=
  let config := ocsp_config c in
  if negb (ocsp_enabled config) then Err (Transport "OCSP not enabled")
  else
    let? i := build_cert_id cert_der issuer_der in
    let? url := resolve_responder_url config cert_der in
    let? request_der := build_ocsp_request i in
    let? response := send_ocsp_request config http url request_der in
    let? _ := parse_ocsp_response response i issuer_der None (candidate_now rd) (now_response rd) in
    Ok response.
End Client.
