(* ===== verification/ReaderExample.v ===== *)
(** * A DER decoder and a small OCSP library

    Instances of [Decoder] and [OcspLib] on which the theorems about walked
    structures and OCSP answers are tried: a decoder over bytes for
    low-numbered tags and lengths of up to four octets, and an OCSP library
    over [example_x509]. *)
From S2P Require Import Prelude Words Text Calendar X509 ExampleLibs Der DerReader Ocsp.
Open Scope Z_scope.

(** The bytes read and those left. *)
Record Cursor : Type := MkCursor { read_so_far : Z; rest_of : bytes }.
Definition advance (n : nat) (c : Cursor) : Cursor :=
  MkCursor (read_so_far c + Z.of_nat n) (drop n (rest_of c)).

Definition class_of (b : Z) : TagClass :=
  if b <? 64 then Universal else if b <? 128 then Application
  else if b <? 192 then ContextSpecific else Private.
Definition ex_read_tag (c : Cursor) : (ReadTag * Cursor) + string :=
  match rest_of c with
  | b :: _ =>
      if b mod 32 =? 31 then inr "high tag"
      else inl (MkTag (class_of b) (bool_decide (b / 32 mod 2 = 1)) (b mod 32), advance 1 c)
  | [] => inr "end of input"
  end.
Definition ex_read_length (c : Cursor) : (option Z * Cursor) + string :=
  match rest_of c with
  | b :: l =>
      if b <? 128 then inl (Some b, advance 1 c)
      else if b =? 128 then inl (None, advance 1 c)
      else if (132 <? b) || (len l <? b - 128) then inr "bad length"
      else inl (Some (fold_length (take (Z.to_nat (b - 128)) l)), advance (S (Z.to_nat (b - 128))) c)
  | [] => inr "end of input"
  end.
Definition ex_read_bytes (n : Z) (c : Cursor) : (bytes * Cursor) + string :=
  if (n <? 0) || (len (rest_of c) <? n) then inr "end of input"
  else inl (take (Z.to_nat n) (rest_of c), advance (Z.to_nat n) c).

(** A value: its tag, its content, the bytes of it, and what follows. *)
Definition ex_value (c : Cursor) : (ReadTag * Cursor * bytes * Cursor) + string :=
  match ex_read_tag c with
  | inr e => inr e
  | inl (t, c1) =>
      match ex_read_length c1 with
      | inr e => inr e
      | inl (None, _) => inr "indefinite"
      | inl (Some n, c2) =>
          match ex_read_bytes n c2 with
          | inr e => inr e
          | inl (content, c3) =>
              inl (t, MkCursor (read_so_far c2) content,
                take (length (rest_of c) - length (rest_of c3)) (rest_of c), c3)
          end
      end
  end.
Definition ReadTag_eqb (a b : ReadTag) : bool :=
  bool_decide (tag_class a = tag_class b) && Bool.eqb (tag_constructed a) (tag_constructed b) &&
  (tag_number a =? tag_number b).
Definition ex_constructed (t : Tag) : ReadTag :=
  match t with
  | universal_constructed n => MkTag Universal true n
  | context_specific_constructed n => MkTag ContextSpecific true n
  end.
Definition ex_enter (t : Tag) (c : Cursor) : (Cursor * Cursor) + string :=
  match ex_value c with
  | inr e => inr e
  | inl (t', content, _, c') => if ReadTag_eqb t' (ex_constructed t) then inl (content, c') else inr "other tag"
  end.
Definition ex_oid (c : Cursor) : (oid * Cursor) + string :=
  match ex_value c with
  | inr e => inr e
  | inl (t, content, _, c') =>
      if ReadTag_eqb t (MkTag Universal false 6) then inl (rest_of content, c') else inr "not an identifier"
  end.
Fixpoint ex_oid_list (fuel : nat) (c : Cursor) : list oid + string :=
  match fuel, rest_of c with
  | O, _ | _, [] => inl []
  | S fuel', _ =>
      match ex_oid c with
      | inr e => inr e
      | inl (o, c') => match ex_oid_list fuel' c' with inl l => inl (o :: l) | inr e => inr e end
      end
  end.

#[export] Instance example_decoder : Decoder := {
  Dec := Cursor;
  decoder_new b := MkCursor 0 b;
  dec_is_empty c := bool_decide (rest_of c = []);
  position := read_so_far;
  enter_constructed := ex_enter;
  read_tag := ex_read_tag;
  peek_tag c := match ex_read_tag c with inl (t, _) => inl t | inr e => inr e end;
  read_length := ex_read_length;
  read_bytes := ex_read_bytes;
  decode_oid := ex_oid;
  decode_raw c := match ex_value c with inl (_, _, raw, c') => inl (raw, c') | inr e => inr e end;
  decode_oids b :=
    match ex_enter (universal_constructed 16) (MkCursor 0 b) with
    | inl (c, _) => ex_oid_list (S (length b)) c
    | inr e => inr e
    end;
  READ_TAG_SEQUENCE := 16
}.

(** ** Its laws *)

Lemma ex_read_tag_ok t c rest :
  rest_of c = identifier t :: rest -> 0 <= tag_number t < 31 -> ex_read_tag c = inl (t, advance 1 c).
Proof.
  intros Hr Ht. unfold ex_read_tag. rewrite Hr.
  assert (E : identifier t mod 32 = tag_number t /\ class_of (identifier t) = tag_class t /\
    bool_decide (identifier t / 32 mod 2 = 1) = tag_constructed t).
  { destruct t as [cl co n]. cbn [tag_number tag_class tag_constructed] in *. unfold identifier.
    cbn [tag_number tag_class tag_constructed].
    split_and!.
    - destruct cl, co; cbn [class_bits]; Z.div_mod_to_equations; lia.
    - unfold class_of. destruct cl, co; cbn [class_bits];
        repeat match goal with |- context [?a <? ?b] => destruct (Z.ltb_spec a b) end; done || lia.
    - destruct cl, co; cbn [class_bits]; first [apply bool_decide_eq_true_2; Z.div_mod_to_equations; lia
        |apply bool_decide_eq_false_2; Z.div_mod_to_equations; lia]. }
  destruct E as (-> & -> & ->). destruct (Z.eqb_spec (tag_number t) 31); [lia|]. by destruct t.
Qed.

Lemma ex_read_length_ok n c rest :
  rest_of c = length_octets n ++ rest -> 0 <= n < 2 ^ 32 ->
  ex_read_length c = inl (Some n, advance (length (length_octets n)) c).
Proof.
  intros Hr Hn. unfold ex_read_length. rewrite Hr. destruct (Z.ltb_spec n 128) as [Hs|Hs].
  - unfold length_octets. rewrite (proj2 (Z.ltb_lt n 128)) by done. cbn [app].
    by rewrite (proj2 (Z.ltb_lt n 128)).
  - destruct (length_octets_long n) as (octets & -> & Hl & Hf); [lia|]. cbn [app].
    rewrite (proj2 (Z.ltb_ge _ _)) by lia. rewrite (proj2 (Z.eqb_neq _ _)) by lia.
    pose proof (len_nonneg rest).
    rewrite (proj2 (Z.ltb_ge _ _)) by lia. rewrite (proj2 (Z.ltb_ge _ _)) by (rewrite len_app; lia).
    cbn [orb]. replace (Z.to_nat (128 + len octets - 128)) with (length octets) by (unfold len; lia).
    rewrite take_app_length. unfold fold_length. by rewrite Hf.
Qed.

Lemma ex_read_bytes_ok b c rest :
  rest_of c = b ++ rest -> ex_read_bytes (len b) c = inl (b, advance (length b) c).
Proof.
  intros Hr. unfold ex_read_bytes. rewrite Hr. pose proof (len_nonneg b). pose proof (len_nonneg rest).
  rewrite !(proj2 (Z.ltb_ge _ _)) by (rewrite ?len_app; lia). cbn [orb].
  unfold len. rewrite Nat2Z.id. by rewrite take_app_length.
Qed.

Lemma rest_advance n c b rest : rest_of c = b ++ rest -> n = length b -> rest_of (advance n c) = rest.
Proof. intros Hr ->. unfold advance. cbn [rest_of]. rewrite Hr. apply drop_app_length. Qed.

Lemma ex_value_ok t content c rest :
  rest_of c = tlv_of (identifier t) content ++ rest -> 0 <= tag_number t < 31 -> len content < 2 ^ 32 ->
  exists i c', ex_value c = inl (t, i, tlv_of (identifier t) content, c') /\
    rest_of i = content /\ rest_of c' = rest.
Proof.
  intros Hr Ht Hc. pose proof (len_nonneg content). unfold ex_value.
  assert (Hr' := Hr). unfold tlv_of in Hr'. cbn [app] in Hr'. rewrite <- app_assoc in Hr'.
  rewrite (ex_read_tag_ok t c _ Hr' Ht).
  assert (Hr1 : rest_of (advance 1 c) = length_octets (len content) ++ content ++ rest)
    by (eapply (rest_advance 1 c [identifier t]); [exact Hr'|done]).
  rewrite (ex_read_length_ok (len content) _ _ Hr1) by lia.
  assert (Hr2 := rest_advance _ _ _ _ Hr1 eq_refl). rewrite (ex_read_bytes_ok content _ _ Hr2).
  assert (Hr3 := rest_advance _ _ _ _ Hr2 eq_refl). do 2 eexists.
  split; [|split; [|exact Hr3]];
    [rewrite Hr3, Hr, length_app, Nat.add_sub, take_app_length; reflexivity|reflexivity].
Qed.

Lemma ReadTag_eqb_refl t : ReadTag_eqb t t = true.
Proof. unfold ReadTag_eqb. rewrite bool_decide_eq_true_2, Bool.eqb_reflx, Z.eqb_refl by done. done. Qed.

#[export] Instance example_decoder_laws : DecoderLaws.
Proof.
  refine {| remaining := rest_of; oid_bytes (o : oid) := o |}.
  - done.
  - done.
  - done.
  - intros t d c rest Hr Ht Hc. destruct (ex_value_ok _ c d rest Hr Ht Hc) as (i & c' & E & Hi & Hc').
    exists i, c'. split; [|done]. cbn [enter_constructed example_decoder]. unfold ex_enter. rewrite E.
    assert (constructed_tag t = ex_constructed t) as -> by done. by rewrite ReadTag_eqb_refl.
  - intros t d rest Hr Ht. exists (advance 1 d). split; [by eapply ex_read_tag_ok|].
    eapply (rest_advance 1 d [identifier t]); [exact Hr|done].
  - intros t d rest Hr Ht. cbn [peek_tag example_decoder]. by rewrite (ex_read_tag_ok t d rest Hr Ht).
  - intros n d rest Hr Hn. eexists. split; [by eapply ex_read_length_ok|]. by eapply rest_advance.
  - intros c d rest Hr. eexists. split; [by eapply ex_read_bytes_ok|]. by eapply rest_advance.
  - intros t d c rest Hr Ht Hc. destruct (ex_value_ok t c d rest Hr Ht Hc) as (i & c' & E & Hi & Hc').
    exists c'. split; [|done]. cbn [decode_raw example_decoder]. by rewrite E.
  - intros o d rest Hr Ho.
    destruct (ex_value_ok (MkTag Universal false 6) o d rest Hr) as (i & c' & E & Hi & Hc'); [simpl; lia|done|].
    exists c'. split; [|done]. cbn [decode_oid example_decoder]. unfold ex_oid. rewrite E.
    by rewrite ReadTag_eqb_refl, Hi.
Defined.

Lemma advance_left n c : (length (rest_of (advance n c)) = length (rest_of c) - n)%nat.
Proof. unfold advance. cbn [rest_of]. apply length_drop. Qed.

Lemma ex_read_tag_left t c c' : ex_read_tag c = inl (t, c') -> (length (rest_of c') < length (rest_of c))%nat.
Proof.
  unfold ex_read_tag. destruct (rest_of c) eqn:E; [done|]. case_match; [done|]. intros [= <- <-].
  rewrite advance_left, E. simpl. lia.
Qed.
Lemma ex_read_length_left n c c' : ex_read_length c = inl (n, c') -> (length (rest_of c') < length (rest_of c))%nat.
Proof.
  unfold ex_read_length. destruct (rest_of c) as [|b l] eqn:E; [done|].
  repeat case_match; try done; intros [= <- <-]; rewrite advance_left, E; simpl; lia.
Qed.
Lemma ex_read_bytes_left n b c c' : ex_read_bytes n c = inl (b, c') ->
  (length (rest_of c') <= length (rest_of c))%nat /\ (length b <= length (rest_of c))%nat.
Proof.
  unfold ex_read_bytes. case_match; [done|]. intros [= <- <-]. rewrite advance_left, length_take. lia.
Qed.
Lemma ex_value_left t i raw c c' : ex_value c = inl (t, i, raw, c') ->
  (length (rest_of i) < length (rest_of c))%nat /\ (length (rest_of c') < length (rest_of c))%nat.
Proof.
  unfold ex_value. destruct (ex_read_tag c) as [[t1 c1]|] eqn:E1; [|done]. apply ex_read_tag_left in E1.
  destruct (ex_read_length c1) as [[[n|] c2]|] eqn:E2; [|done..]. apply ex_read_length_left in E2.
  destruct (ex_read_bytes n c2) as [[b c3]|] eqn:E3; [|done]. apply ex_read_bytes_left in E3.
  intros [= <- <- <- <-]. cbn [rest_of]. lia.
Qed.

#[export] Instance example_consumes : Consumes.
Proof.
  refine {| left c := length (rest_of c) |}; cbn [enter_constructed read_tag read_length read_bytes decode_oid
    decode_raw example_decoder decoder_new rest_of dec_is_empty].
  - done.
  - intros d E. apply bool_decide_eq_true_2. by destruct (rest_of d).
  - intros t d i d'. unfold ex_enter. destruct (ex_value d) as [[[[t1 i1] raw] c]|] eqn:E; [|done].
    case_match; [|done]. intros [= <- <-]. by eapply ex_value_left.
  - intros t d d'. apply ex_read_tag_left.
  - intros n d d'. apply ex_read_length_left.
  - intros n b d d'. apply ex_read_bytes_left.
  - intros o d d'. unfold ex_oid. destruct (ex_value d) as [[[[t1 i1] raw] c]|] eqn:E; [|done].
    case_match; [|done]. intros [= <- <-]. by eapply ex_value_left.
  - intros b d d'. destruct (ex_value d) as [[[[t1 i1] raw] c]|] eqn:E; [|done].
    intros [= <- <-]. by eapply ex_value_left.
Defined.

(** ** The OCSP library *)

(** A certificate's extensions are one distribution point, as in RFC 5280. *)
Definition example_cdp : bytes := [48; 16; 48; 14; 160; 12; 160; 10; 134; 8] ++ bytes_of_string "http://c".

(** [OCSPRequest]s are their TBS bytes and their extensions. *)
#[export] Instance example_ocsp : OcspLib := {
  cert_serial_der c := inl [2; 1; c.1];
  cert_public_key c := [c.1];
  cert_extensions _ := Some example_cdp;
  Serial := bytes;
  serial_from_bytes b := b;
  build_ocsp_tbs alg name key serial := inl (alg ++ name ++ key ++ serial);
  OcspRequest := bytes * list RawExtension;
  ocsp_request_from_der b := inl (b, []);
  set_request_extensions l r := (r.1, l);
  ocsp_request_to_der r := inl (r.1 ++ concat (map snd r.2));
  octet_string_to_der b := inl b;
  octet_string_from_der b := inl b;
  envelope_from_der b := inl (MkEnvelope None (Some ([1], b)));
  ID_PKIX_OCSP_BASIC := [1];
  AD_OCSP := [1; 3; 6; 1; 5; 5; 7; 48; 1];
  hash_data _ b := inl b
}.

Example aia_url_example :
  extract_ocsp_url_from_aia (tlv_of 48 (tlv_of 48 (tlv_of 6 [1] ++ tlv_of 134 [65]) ++
    tlv_of 48 (tlv_of 6 AD_OCSP ++ tlv_of 134 [104; 116; 116; 112]))) = Ok "http".
Proof. vm_compute. reflexivity. Qed.
