(* ===== verification/OcspSpec.v ===== *)
(** * What an OCSP answer is worth

    Of Ocsp.v: an answer, whether fresh or from the cache, was signed by the
    issuer or by a responder the issuer delegated to, for this certificate,
    within its time; and the URL of the responder is the one the certificate
    names. *)
From S2P Require Import Prelude Words Text Calendar X509 Der DerReader Ocsp ExampleLibs ReaderExample.
Open Scope Z_scope.

Section Sound.
Context `{OcspLib} `{HD : Decoder}.
Variable basic_response_from_der : bytes -> BasicResponse + string.
Variable sha256 : bytes -> bytes.

Abbreviation query_status := (query_status basic_response_from_der).
Abbreviation check_certificate_status := (check_certificate_status basic_response_from_der sha256).
Abbreviation build_cert_id := (build_cert_id sha256).

(** ** Who may sign *)

(** A certificate the issuer issued for signing OCSP responses. *)
Definition delegated (signer issuer_der : bytes) : Prop :=
  issued_by signer issuer_der = true /\
  exists cert extensions eku oids, cert_from_der signer = inl cert /\
    cert_extensions cert = Some extensions /\
    find_extension_value extensions [2; 5; 29; 37] = Some eku /\
    decode_oids eku = inl oids /\ In OCSP_SIGNING oids.

Definition signed_by (basic : BasicResponse) (tbs issuer_der : bytes) (now : Z) (signer : bytes)
  : Prop :=
  (signer = issuer_der \/
   delegated signer issuer_der /\ exists certs, basic_certs basic = Some certs /\ In signer certs) /\
  valid_now now signer = Ok tt /\
  exists cert alg ranges, cert_from_der signer = inl cert /\
    responder_matches (responder_id basic) cert = Ok true /\
    basic_signature_algorithm basic = inl alg /\ cert_ranges signer = Some ranges /\
    verify_signature tbs alg (basic_signature basic) ranges.2 = inl tt.

(** Times: made at [produced], good from [updated] until [expires]. *)
Definition timely (produced updated expires now : Z) : Prop :=
  updated <= now + 300 * SECS /\ now < expires /\ updated < expires /\
  updated - 300 * SECS <= produced <= now + 300 * SECS.

(** The status [st] of [i], valid for [v] more, is what the issuer says. *)
Definition vouched (config : OcspConfig) (rd : OcspReadings) (issuer_der : bytes) (i : CertId)
    (st : OcspStatus) (v : Z) : Prop :=
  exists response basic tbs signer single produced updated expires,
    basic_response_from_der response = inl basic /\
    extract_basic_ocsp_tbs_bytes response = Ok tbs /\
    signed_by basic tbs issuer_der (candidate_now rd signer) signer /\
    In single (responses basic) /\ matches_cert_id i single = true /\
    st = status_of (cert_status single) /\ v = expires - now_response rd /\
    time (produced_at basic) = Ok produced /\ time (this_update single) = Ok updated /\
    (match next_update single with
     | Some next => time next = Ok expires
     | None => expires = updated + 3600 * SECS
     end) /\
    timely produced updated expires (now_response rd) /\
    (require_nonce config = true -> exists exts e, response_extensions basic = Some exts /\
       In e exts /\ e.1 = NONCE_OID /\ octet_string_from_der e.2 = inl (random_nonce rd)).

Lemma check_delegation_Ok der issuer_der cert :
  cert_from_der der = inl cert -> check_delegation der issuer_der cert = Ok tt ->
  delegated der issuer_der.
Proof.
  intros Hc. unfold check_delegation, delegated. destruct (issued_by der issuer_der) eqn:E; [|done].
  cbn [negb]. intros E'. inv_ok E'. inv_ok E'. inv_ok E'.
  apply ok_or_Ok in H1, H2. apply of_lib_Ok in H3.
  destruct (existsb _ t1) eqn:Ee; [|done]. apply existsb_exists in Ee as (o & Ho & ->%bool_decide_eq_true).
  split; [done|]. by exists cert, t, t0, t1.
Qed.

Lemma check_candidate_Ok basic tbs alg issuer_der now der :
  basic_signature_algorithm basic = inl alg ->
  In der (issuer_der :: default [] (basic_certs basic)) ->
  check_candidate basic tbs alg issuer_der now der = Ok tt ->
  signed_by basic tbs issuer_der now der.
Proof.
  intros Halg Hin E. unfold check_candidate in E. do 4 inv_ok E. destruct t, t1.
  apply of_lib_Ok in H2. destruct t2; [|done]. cbn [negb] in E. inv_ok E. apply ok_or_Ok in H5.
  apply of_lib_Ok in E. split; [|split; [done|by exists t0, alg, t]].
  case_bool_decide as Hd; cbn [negb] in H3; [by left|right].
  split; [by eapply check_delegation_Ok|]. destruct Hin as [<-|Hin]; [done|].
  destruct (basic_certs basic) as [certs|]; [by exists certs|done].
Qed.

Lemma convert_Ok t z : convert t = Ok z <-> time t = Ok z.
Proof. apply map_err_Ok. Qed.

Lemma query_status_sound config http rd cert_der issuer_der i st v :
  query_status config http rd cert_der issuer_der i = Ok (st, v) ->
  vouched config rd issuer_der i st v.
Proof.
  unfold Ocsp.query_status. intros E. do 3 inv_ok E. clear H1 H2 H3.
  unfold parse_ocsp_response in E. inv_ok E. apply of_lib_Ok in H1.
  destruct (response_status t2); [done|]. inv_ok E. destruct t3 as [ty response].
  destruct (negb (bool_decide _)); [done|]. do 3 inv_ok E.
  apply of_lib_Ok in H3, H5. apply map_err_Ok in H4.
  destruct (existsb _ _) eqn:Ee; [|done]. cbn [negb] in E.
  apply existsb_exists in Ee as (signer & Hin & Hok).
  destruct (check_candidate _ _ _ _ _ signer) as [[]|e|] eqn:Ec; try done.
  apply check_candidate_Ok in Ec; [|done|done].
  inv_ok E. apply convert_Ok in H6. destruct (_ <? t6) eqn:Ep; [done|]. inv_ok E. destruct t7.
  destruct (List.find _ _) as [single|] eqn:Ef; [|done]. apply List.find_some in Ef as [Hs Hm].
  unfold single_answer in E. do 2 inv_ok E. apply convert_Ok in H8.
  destruct (_ || _ || _ || _) eqn:Et; [done|]. breflect. injection E as <- <-.
  exists response, t3, t4, signer, single, t6, t7, t8. split_and!; try done.
  - destruct (next_update single); [by apply convert_Ok in H9|by injection H9].
  - intros Hn. clear H10 H11 H12 H13. rewrite Hn in H7. unfold check_nonce in H7. do 3 inv_ok H7.
    apply ok_or_Ok in H10, H11. apply of_lib_Ok in H12. case_bool_decide; [|done].
    apply List.find_some in H11 as [Hin' Ho%bool_decide_eq_true]. subst. by exists t9, t10.
Qed.

(** ** The cache over any use of the client *)

Inductive ocsp_op : Type :=
  | Check_status (http : string -> bytes -> HttpReply) (rd : OcspReadings) (cert_der issuer_der : bytes)
  | Evict (now : Z).

Definition ocsp_step (c : OcspClient) (op : ocsp_op) : OcspClient :=
  match op with
  | Check_status http rd cert issuer => (check_certificate_status c http rd cert issuer).1
  | Evict now => evict_expired now c
  end.

(** An entry was vouched for when it was stored, by a call of the list. *)
Definition cache_vouched (config : OcspConfig) (l : list ocsp_op) (m : gmap CertId CachedOcspResponse)
  : Prop :=
  forall i e, m !! i = Some e -> exists http rd cert issuer v,
    In (Check_status http rd cert issuer) l /\ build_cert_id cert issuer = Ok i /\
    vouched config rd issuer i (cached_status e) v /\
    cached_at e = now_insert rd /\ ttl e = Z.min v (cache_ttl_secs config * SECS).

Lemma cache_vouched_mono config l l' m :
  cache_vouched config l m -> (forall x, In x l -> In x l') -> cache_vouched config l' m.
Proof. intros Hm Hl i e He. destruct (Hm i e He) as (h & rd & c & iss & v & Hin & ?). exists h, rd, c, iss, v. auto. Qed.

(** One call: what it answers, and what the cache holds afterwards. *)
Lemma check_status_step config l c http rd cert issuer :
  ocsp_config c = config -> ocsp_enabled config = true ->
  cache_vouched config l (response_cache c) ->
  let r := check_certificate_status c http rd cert issuer in
  ocsp_config r.1 = config /\
  cache_vouched config (Check_status http rd cert issuer :: l) (response_cache r.1) /\
  forall st, r.2 = Ok st -> exists i, build_cert_id cert issuer = Ok i /\
    ((exists v, vouched config rd issuer i st v) \/
     exists e, response_cache c !! i = Some e /\ cached_status e = st /\
       elapsed (now_cache rd) (cached_at e) <= ttl e).
Proof.
  intros Hc He Hm. unfold Ocsp.check_certificate_status. rewrite Hc, He. cbn [negb].
  assert (Hm' : cache_vouched config (Check_status http rd cert issuer :: l) (response_cache c))
    by (eapply cache_vouched_mono; [exact Hm|intros; by right]).
  destruct (build_cert_id cert issuer) as [i|e|] eqn:Ei; [|done..]. unfold cached_answer.
  assert (Hquery : let r := match query_status config http rd cert issuer i with
            | Err e => (c, Err e) | Panic => (c, Panic)
            | Ok (status, valid_for) =>
                (set_cache c (<[i := MkCached status (now_insert rd)
                   (Z.min valid_for (cache_ttl_secs config * SECS))]> (response_cache c)), Ok status)
            end in
    ocsp_config r.1 = config /\
    cache_vouched config (Check_status http rd cert issuer :: l) (response_cache r.1) /\
    forall st, r.2 = Ok st -> exists i, build_cert_id cert issuer = Ok i /\
      ((exists v, vouched config rd issuer i st v) \/
       exists e, response_cache c !! i = Some e /\ cached_status e = st /\
         elapsed (now_cache rd) (cached_at e) <= ttl e)).
  { destruct (query_status _ http rd cert issuer i) as [[st v]|e|] eqn:Eq; [|done..].
    apply query_status_sound in Eq. split_and!; [done| |].
    - intros j e. cbn [fst set_cache response_cache]. destruct (decide (i = j)) as [->|Hne].
      + rewrite lookup_insert_eq. intros [= <-]. exists http, rd, cert, issuer, v. split; [by left|].
        done.
      + rewrite lookup_insert_ne by done. apply Hm'.
    - intros st' [= <-]. exists i. split; [done|]. left. by exists v. }
  rewrite Ei in Hquery. destruct (response_cache c !! i) as [e|] eqn:Ee; [|exact Hquery].
  destruct (response_expired (now_cache rd) e) eqn:Ex; [exact Hquery|].
  split_and!; [done|done|]. intros st [= <-]. exists i. split; [done|]. right. exists e.
  split_and!; [done|done|]. unfold response_expired in Ex. by apply Z.ltb_ge in Ex.
Qed.

Lemma run_vouched config l c :
  ocsp_config c = config -> ocsp_enabled config = true ->
  forall l0, cache_vouched config l0 (response_cache c) ->
  ocsp_config (run_steps ocsp_step c l) = config /\
  cache_vouched config (l0 ++ l) (response_cache (run_steps ocsp_step c l)).
Proof.
  intros Hc He. revert c Hc. induction l as [|op l IH]; intros c Hc l0 Hm; cbn [run_steps].
  { by rewrite app_nil_r. }
  assert (Hstep : ocsp_config (ocsp_step c op) = config /\
    cache_vouched config (l0 ++ [op]) (response_cache (ocsp_step c op))).
  { destruct op as [http rd cert issuer|now]; cbn [ocsp_step].
    - destruct (check_status_step config l0 c http rd cert issuer Hc He Hm) as (Hc' & Hm' & _).
      split; [done|]. eapply cache_vouched_mono; [exact Hm'|]. intros x. rewrite in_app_iff. simpl. tauto.
    - split; [done|]. intros i e Hi. cbn [evict_expired response_cache] in Hi.
      apply map_retain_lookup_Some in Hi as [Hi _].
      eapply cache_vouched_mono; [exact Hm| |exact Hi]. intros x Hx. apply in_app_iff. by left. }
  destruct Hstep as [Hc' Hm']. destruct (IH _ Hc' _ Hm') as [Hc2 Hm2]. split; [done|].
  by rewrite <- app_assoc in Hm2.
Qed.

(** C11: what the OCSP client answers is vouched for.  After any calls and
    evictions, a status it answers for a certificate either comes from a
    response fetched now, or from one that an earlier call fetched for the
    same issuer and serial number, no longer ago than the response was valid
    and the configured time; and that response was signed, over the bytes
    received, by the issuer itself or by a responder that the issuer gave a
    valid OCSP-signing certificate, names this certificate, was timely, and
    repeats the nonce if one is required. *)
Theorem ocsp_answers_vouched config l http rd cert issuer st :
  ocsp_enabled config = true ->
  (check_certificate_status (run_steps ocsp_step (ocsp_client_new config) l) http rd cert issuer).2 = Ok st ->
  exists i, build_cert_id cert issuer = Ok i /\
    ((exists v, vouched config rd issuer i st v) \/
     exists http' rd' cert' issuer' v, In (Check_status http' rd' cert' issuer') l /\
       build_cert_id cert' issuer' = Ok i /\ vouched config rd' issuer' i st v /\
       elapsed (now_cache rd) (now_insert rd') <= Z.min v (cache_ttl_secs config * SECS)).
Proof.
  intros He Hst.
  destruct (run_vouched config l (ocsp_client_new config) eq_refl He []) as [Hc Hm];
    [intros i e Hi; cbn [ocsp_client_new response_cache] in Hi; by rewrite lookup_empty in Hi|].
  destruct (check_status_step config l _ http rd cert issuer Hc He Hm) as (_ & _ & Hans).
  destruct (Hans st Hst) as (i & Hi & [Hv|(e & Hl & <- & Hel)]); exists i; (split; [done|]); [by left|right].
  destruct (Hm i e Hl) as (h & rd' & c' & iss' & v & Hin & Hb & Hv & Hat & Httl).
  exists h, rd', c', iss', v. rewrite <- Hat, <- Httl. done.
Qed.
End Sound.

(** ** Where the responder is found *)

Section Url.
Context `{HL : OcspLib} `{HD : Decoder} `{!DecoderLaws}.

(** An AccessDescription: its method, and the tag and content of its
    location. *)
Abbreviation access := (oid * ReadTag * bytes)%type.
Definition access_der (a : access) : bytes :=
  tlv_of 48 (tlv_of 6 (oid_bytes a.1.1) ++ tlv_of (identifier a.1.2) a.2).
Definition short (l : bytes) : Prop := len l < 2 ^ 32.
Definition access_ok (a : access) : Prop :=
  0 <= tag_number a.1.2 < 31 /\ short (oid_bytes a.1.1) /\ short a.2 /\ short (access_der a).
Definition is_ocsp_uri (a : access) : bool :=
  bool_decide (a.1.1 = AD_OCSP) && (tag_number a.1.2 =? 6).

Lemma context_value_found tag c : short c -> extract_context_tagged_value (tlv_of tag c) = Ok c.
Proof.
  unfold short. intros Hl. pose proof (len_nonneg c). unfold extract_context_tagged_value, tlv_of.
  destruct (Z.ltb_spec (len c) 128) as [Hs|Hs].
  - assert (length_octets (len c) = [len c]) as ->
      by (unfold length_octets; by rewrite (proj2 (Z.ltb_lt _ _))).
    cbn [app]. rewrite (proj2 (Z.ltb_ge _ _)) by (rewrite !len_cons; lia).
    rewrite index_1. cbn [obind]. rewrite (proj2 (Z.ltb_lt _ _)) by done.
    pose proof (subslice_at [tag; len c] c [] 2 (2 + len c) eq_refl eq_refl) as Hr.
    by rewrite app_nil_r in Hr.
  - destruct (length_octets_long (len c)) as (octets & -> & Ho & Hf); [lia|]. cbn [app].
    rewrite (proj2 (Z.ltb_ge _ _)) by (rewrite !len_cons, len_app; lia).
    rewrite index_1. cbn [obind]. rewrite (proj2 (Z.ltb_ge (128 + len octets) 128)) by lia.
    assert (Z.land (128 + len octets) 127 = len octets) as ->.
    { rewrite land_127. rewrite Z.add_mod, Z.mod_same, Z.add_0_l, Z.mod_mod, Z.mod_small by lia. done. }
    rewrite (proj2 (Z.ltb_ge _ _)) by (rewrite !len_cons, len_app; lia).
    assert (Hsub : subslice ([tag; 128 + len octets] ++ octets ++ c) 2 (2 + len octets) = Ok octets)
      by (by apply subslice_at).
    cbn [app] in Hsub. rewrite Hsub. cbn [obind]. unfold fold_length. rewrite Hf.
    assert (usize_add (2 + len octets) (len c) = 2 + len octets + len c) as ->.
    { unfold usize_add, as_u64. apply Z.mod_small. change (2 ^ 32) with 4294967296 in *.
      change (2 ^ 64) with 18446744073709551616. lia. }
    assert (Hr : get_range ((tag :: 128 + len octets :: octets) ++ c ++ []) (2 + len octets)
      (2 + len octets + len c) = Ok c) by (apply get_range_at; rewrite ?len_cons; lia).
    rewrite app_nil_r in Hr. exact Hr.
Qed.

Lemma aia_loop_found l : Forall access_ok l ->
  forall fuel outer, (length l < fuel)%nat -> remaining outer = concat (map access_der l) ->
  aia_loop fuel outer =
    match List.find is_ocsp_uri l with
    | Some a => ok_or (from_utf8 a.2) tt
    | None => Err tt
    end.
Proof.
  induction 1 as [|[[method t] c] l (Ht & Ho & Hc & Ha) Hl IH]; intros [|fuel] outer Hf Hr;
    try (simpl in Hf; lia); cbn [aia_loop]; rewrite is_empty_ok, Hr.
  { done. }
  rewrite bool_decide_eq_false_2 by done. cbn [map concat] in Hr. cbn [fst snd] in *.
  unfold access_der at 1 in Hr. cbn [fst snd] in Hr. unfold short in *.
  destruct (enter_seq outer _ _ Hr (content_short _ _ Ha)) as (i & o' & -> & Hi & Ho').
  cbn [of_lib obind]. destruct (decode_oid_ok method i _ Hi Ho) as (i' & -> & Hi'). cbn [of_lib obind].
  cbn [List.find]. unfold is_ocsp_uri at 1. cbn [fst snd].
  case_bool_decide; cbn [andb]; [|apply IH; [simpl in Hf; lia|done]].
  unfold tlv_of in Hi'. cbn [app] in Hi'. rewrite (peek_tag_ok t i' _ Hi') by done. cbn [of_lib obind].
  destruct (tag_number t =? 6); [|apply IH; [simpl in Hf; lia|done]].
  destruct (decode_raw_ok t i' c []) as (d' & -> & _); [by rewrite app_nil_r|done..|].
  cbn [of_lib obind]. by rewrite context_value_found.
Qed.

(** The responder is the first location that the certificate names as OCSP
    with a URI. *)
Lemma aia_url_found l trailing :
  Forall access_ok l -> short (concat (map access_der l)) ->
  extract_ocsp_url_from_aia (tlv_of 48 (concat (map access_der l)) ++ trailing) =
    match List.find is_ocsp_uri l with
    | Some a => ok_or (from_utf8 a.2) tt
    | None => Err tt
    end.
Proof.
  intros Hl Hs. unfold extract_ocsp_url_from_aia.
  destruct (enter_seq (decoder_new (tlv_of 48 (concat (map access_der l)) ++ trailing))
    (concat (map access_der l)) trailing) as (i & d' & -> & Hi & _); [by apply decoder_new_ok|done|].
  cbn [of_lib obind]. apply aia_loop_found; [done| |done].
  unfold tlv_of. cbn [length app]. rewrite !length_app.
    assert (length l <= length (concat (map access_der l)))%nat; [|lia].
    clear. induction l as [|a l IH]; simpl; [lia|]. rewrite length_app. simpl. lia.
Qed.
End Url.

(** ** Examples *)

(** A responder that signs as the issuer [48; 9; 9], for the device 65. *)
Definition example_basic (status : CertStatus) : BasicResponse :=
  MkBasic None (inl []) [9] (ByName (inl [9])) (UtcTime 2026 1 1 0 0 0)
    (Some [(NONCE_OID, [7])])
    [MkSingle [9] [9] [65] "2.16.840.1.101.3.4.2.1" (UtcTime 2026 1 1 0 0 0)
       (Some (UtcTime 2026 1 2 0 0 0)) status].
Definition example_decode (b : bytes) : BasicResponse + string := inl (example_basic SGood).
Definition example_http (url : string) (request : bytes) : HttpReply :=
  Replied 200 "200 OK" [inl [48; 4]; inl [48; 1; 7; 0]].
Definition example_clock : Z := days_from_civil 2026 1 1 * DAY_NS + 3600 * SECS.
Definition example_readings : OcspReadings :=
  MkOcspReadings example_clock [7] (fun _ => example_clock) example_clock example_clock.
Definition example_ocsp_config : OcspConfig :=
  MkOcspConfig true (Some "http://ocsp") 300 10 true false.
Definition example_calls : list ocsp_op :=
  [Check_status example_http example_readings [48; 65; 9] [48; 9; 9]; Evict example_clock].

(** An answer, its repetition from the cache, and the refusal of an answer
    to another request. *)
Lemma ocsp_answers_vouched_witness :
  (check_certificate_status example_decode (fun b => b)
     (run_steps (ocsp_step example_decode (fun b => b)) (ocsp_client_new example_ocsp_config) example_calls)
     (fun _ _ => SendTimeout) example_readings [48; 65; 9] [48; 9; 9]).2 = Ok Good /\
  (exists i, build_cert_id (fun b => b) [48; 65; 9] [48; 9; 9] = Ok i /\
    ((exists v, vouched example_decode example_ocsp_config example_readings [48; 9; 9] i Good v) \/
     exists http' rd' cert' issuer' v, In (Check_status http' rd' cert' issuer') example_calls /\
       build_cert_id (fun b => b) cert' issuer' = Ok i /\
       vouched example_decode example_ocsp_config rd' issuer' i Good v /\
       elapsed (now_cache example_readings) (now_insert rd') <=
         Z.min v (cache_ttl_secs example_ocsp_config * SECS))).
Proof.
  assert (Hst : (check_certificate_status example_decode (fun b => b)
     (run_steps (ocsp_step example_decode (fun b => b)) (ocsp_client_new example_ocsp_config) example_calls)
     (fun _ _ => SendTimeout) example_readings [48; 65; 9] [48; 9; 9]).2 = Ok Good)
    by (vm_compute; reflexivity).
  split; [exact Hst|].
  exact (ocsp_answers_vouched example_decode (fun b => b) example_ocsp_config example_calls
    (fun _ _ => SendTimeout) example_readings [48; 65; 9] [48; 9; 9] Good eq_refl Hst).
Defined.

Example replayed_answer_refused :
  (check_certificate_status example_decode (fun b => b) (ocsp_client_new example_ocsp_config)
     example_http (MkOcspReadings example_clock [8] (fun _ => example_clock) example_clock example_clock)
     [48; 65; 9] [48; 9; 9]).2 = Err NonceMismatch.
Proof. vm_compute. reflexivity. Qed.
