(* ===== verification/Revocation.v ===== *)
(** * Revocation of client certificates

    [src/auth/mtls.rs]: the check of a client certificate with the OCSP
    client, its fallback to certificate revocation lists, and the fields of a
    certificate that authentication answers with.  A fetch over HTTP is a
    function of the URL; [CrlLib] has the fields of a revocation list. *)
From S2P Require Import Prelude Words Text NameMatch Calendar X509 Der DerReader BasicOtp Ocsp.
Open Scope Z_scope.

(** ** Fields of the certificate *)

(** A [GeneralName]'s tag; [general_name] has these constants. *)
Definition RFC822_NAME : Z := 1.
Definition DNS_NAME : Z := 2.
Definition DIRECTORY_NAME : Z := 4.
Definition URI : Z := 6.
Definition IP_ADDRESS : Z := 7.

Class CrlLib `{OcspLib} : Type := {
  cert_subject_alt_names : Cert -> list (Z * bytes);
  cert_serial_number : Cert -> Serial;
  serial_as_bytes : Serial -> bytes;
  CertList : Type;
  crl_from_der : bytes -> CertList + string;
  crl_issuer : CertList -> bytes + string;
  crl_this_update : CertList -> CertTime;
  crl_next_update : CertList -> option CertTime;
  crl_extensions : CertList -> option (list RawExtension);
  (** serial number, and the revocation date as [Debug] prints it *)
  revoked_certificates : CertList -> option (list (Serial * string))
}.

(** What [reqwest] answers to a GET. *)
Inductive Fetched : Type :=
  | FetchClientError (e : string)
  | FetchError (e : string)
  | FetchedReply (code : Z) (code_text : string) (content_length : option Z)
      (chunks : list (bytes + string)).

Section Revocation.
Context `{CrlLib} `{Decoder}.

Definition extract_subject_dn (cert_der : bytes) : option string :=
  if bool_decide (cert_der = []) then None
  else
    match cert_from_der cert_der with
    | inr _ => None
    | inl cert =>
        let dn := format_dn (cert_subject cert) in
        if is_empty dn || String.eqb dn "<invalid>" then None else Some dn
    end.

(** [Ipv6Addr]'s [to_string] is a parameter. *)
Variable ipv6_to_string : list Z -> string.

Definition be16 (content : bytes) (i : nat) : Z :=
  256 * default 0 (content !! i) + default 0 (content !! S i).
Definition name_text (tag : Z) (content : bytes) : string :=
  if tag =? DNS_NAME then default "DNS:<invalid UTF-8>" (from_utf8 content)
  else if tag =? RFC822_NAME then default "email:<invalid UTF-8>" (from_utf8 content)
  else if tag =? URI then default "URI:<invalid UTF-8>" (from_utf8 content)
  else if (tag =? IP_ADDRESS) && (len content =? 4) then join "." (map pretty content)
  else if (tag =? IP_ADDRESS) && (len content =? 16) then
    ipv6_to_string (map (be16 content) [0; 2; 4; 6; 8; 10; 12; 14]%nat)
  else if tag =? DIRECTORY_NAME then "DirName:" +:+ format_dn content
  else "GeneralName(tag=" +:+ pretty tag +:+ ")".

Definition extract_subject_alt_names (cert_der : bytes) : list string :=
  match cert_from_der cert_der with
  | inr _ => []
  | inl cert => map (fun n => name_text n.1 n.2) (cert_subject_alt_names cert)
  end.

Definition extract_extended_key_usage (cert_der : bytes) : list string :=
  match cert_from_der cert_der with
  | inr _ => []
  | inl cert =>
      match cert_extensions cert with
      | None => []
      | Some ext_raw =>
          match find_extension_value ext_raw EXTENDED_KEY_USAGE with
          | None => []
          | Some eku_bytes =>
              match decode_oids eku_bytes with
              | inr _ => []
              | inl oids => map oid_to_string oids
              end
          end
      end
  end.

(** ** The URLs of the distribution points *)

Definition http_uri (content : bytes) : option string :=
  match from_utf8 content with
  | Some uri => if starts_with "http://" uri || starts_with "https://" uri then Some uri else None
  | None => None
  end.

(** The loops over the names, the fields of a point, and the points. *)
Fixpoint names_loop (fuel : nat) (gn_dec : Dec) (urls : list string) : outcome (list string) string :=
  match fuel with
  | O => Panic
  | S fuel' =>
      if dec_is_empty gn_dec then Ok urls
      else
        match read_value gn_dec with
        | None => Ok urls
        | Some (gn_tag, gn_content, gn_dec) =>
            let urls :=
              if bool_decide (tag_class gn_tag = ContextSpecific) && (tag_number gn_tag =? 6) then
                match http_uri gn_content with Some uri => urls ++ [uri] | None => urls end
              else urls in
            names_loop fuel' gn_dec urls
        end
  end.

Fixpoint point_loop (fuel : nat) (dp : Dec) (urls : list string) : outcome (list string) string :=
  match fuel with
  | O => Panic
  | S fuel' =>
      if dec_is_empty dp then Ok urls
      else
        match read_value dp with
        | None => Ok urls
        | Some (dp_tag, dp_content, dp) =>
            let? urls :=
              if bool_decide (tag_class dp_tag = ContextSpecific) && (tag_number dp_tag =? 0) then
                names_loop (S (length dp_content)) (decoder_new dp_content) urls
              else Ok urls in
            point_loop fuel' dp urls
        end
  end.

Fixpoint points_loop (fuel : nat) (inner : nat) (outer : Dec) (urls : list string)
  : outcome (list string) string :=
  match fuel with
  | O => Panic
  | S fuel' =>
      if dec_is_empty outer then Ok urls
      else
        match enter_constructed read_seq_tag outer with
        | inr _ => Ok urls
        | inl (dp, outer) =>
            let? urls := point_loop inner dp urls in
            points_loop fuel' inner outer urls
        end
  end.

Definition cdp_urls (cdp_bytes : bytes) : outcome (list string) string :=
  let? (outer, _) := of_lib (fun e => "CDP outer SEQUENCE decode error: " +:+ e)
    (enter_constructed read_seq_tag (decoder_new cdp_bytes)) in
  points_loop (S (length cdp_bytes)) (S (length cdp_bytes)) outer [].

Definition extract_cdp_http_urls (cert_der : bytes) : outcome (list string) string :=
  let? cert := of_lib (fun e => "failed to parse certificate for CDP extraction: " +:+ e)
    (cert_from_der cert_der) in
  let? ext_raw := ok_or (cert_extensions cert) "certificate has no extensions" in
  let? cdp_bytes := ok_or (find_extension_value ext_raw CRL_DISTRIBUTION_POINTS)
    "CRL Distribution Points extension not found" in
  cdp_urls cdp_bytes.

(** ** One revocation list *)

Record CrlByteRanges : Type := MkRanges {
  tbs_range : Z * Z;
  sig_alg_range : Z * Z;
  signature_range : Z * Z
}.

(** A tag and a definite length; [Err] is [None]. *)
Definition read_header (d : Dec) : outcome (Z * Dec) unit :=
  let? (_, d) := of_lib (fun _ => tt) (read_tag d) in
  let? (n, d) := of_lib (fun _ => tt) (read_length d) in
  let? n := ok_or n tt in
  Ok (n, d).

Definition crl_byte_ranges (crl_der : bytes) : outcome CrlByteRanges unit :=
  let? (_, d) := read_header (decoder_new crl_der) in
  let tbs_start := position d in
  let? (tbs_content_len, d) := read_header d in
  let tbs_end := usize_add (position d) tbs_content_len in
  let? (_, d) := of_lib (fun _ => tt) (read_bytes tbs_content_len d) in
  let sig_alg_start := position d in
  let? (sig_alg_content_len, d) := read_header d in
  let sig_alg_end := usize_add (position d) sig_alg_content_len in
  let? (_, d) := of_lib (fun _ => tt) (read_bytes sig_alg_content_len d) in
  let? (sig_len, d) := read_header d in
  if sig_len =? 0 then Err tt
  else
    let sig_start := usize_add (position d) 1 in
    let sig_end := usize_add (position d) sig_len in
    Ok (MkRanges (tbs_start, tbs_end) (sig_alg_start, sig_alg_end) (sig_start, sig_end)).

(** [&crl_der[range]] *)
Definition slice_of (l : bytes) (r : Z * Z) : outcome bytes string :=
  map_err (fun _ => EmptyString) (subslice l r.1 r.2).

Definition hex_nibble (n : Z) : string :=
  default "?" (String.get (Z.to_nat n) "0123456789abcdef" ≫= fun c => Some (String c EmptyString)).
Definition format_serial_hex (serial : Serial) : string :=
  join ":" (map (fun b => hex_nibble (b / 16) +:+ hex_nibble (b mod 16)) (serial_as_bytes serial)).

Definition unsupported (e : RawExtension) : bool :=
  bool_decide (e.1.1 = [2; 5; 29; 27]) || bool_decide (e.1.1 = [2; 5; 29; 28]) ||
  match e.1.2 with Some v => v | None => false end.

Definition CRL_LIMIT : Z := 10000000.

Definition fetch_crl (url : string) (reply : Fetched) : outcome bytes string :=
  match reply with
  | FetchClientError e => Err ("CRL client error: " +:+ e)
  | FetchError e => Err ("HTTP fetch failed for " +:+ url +:+ ": " +:+ e)
  | FetchedReply code code_text content_length chunks =>
      if negb (is_success code) then Err ("HTTP " +:+ code_text +:+ " fetching CRL from " +:+ url)
      else
        match content_length with
        | Some n =>
            if CRL_LIMIT <? n then
              Err ("CRL from " +:+ url +:+ " too large (" +:+ pretty n +:+ " bytes, max 10 MB)")
            else read_body CRL_LIMIT id "CRL body exceeds 10 MB" [] chunks
        | None => read_body CRL_LIMIT id "CRL body exceeds 10 MB" [] chunks
        end
  end.

Definition fetch_and_check_crl (url : string) (reply : Fetched) (now : Z) (client_serial : Serial)
    (issuer_spki_der issuer_name_der : bytes) : outcome unit string :=
  let? crl_der := fetch_crl url reply in
  let? crl := of_lib (fun e => "failed to parse CRL DER: " +:+ e) (crl_from_der crl_der) in
  let? issuer := of_lib id (crl_issuer crl) in
  if negb (bool_decide (issuer = issuer_name_der)) then
    Err "CRL issuer name does not match certificate issuer"
  else
    let? this_update := time (crl_this_update crl) in
    let? next_update := ok_or (crl_next_update crl) "CRL missing nextUpdate" in
    let? next_update := time next_update in
    if (now <? this_update) || (next_update <=? now) || (next_update <=? this_update)
    then Err "CRL is stale or future-dated"
    else if existsb unsupported (default [] (crl_extensions crl)) then
      Err "unsupported scoped, delta or critical CRL extension"
    else
      let? r := map_err (fun _ => "failed to extract byte ranges from CRL DER")
        (crl_byte_ranges crl_der) in
      let? tbs_bytes := slice_of crl_der (tbs_range r) in
      let? sig_alg_bytes := slice_of crl_der (sig_alg_range r) in
      let? sig_bits := slice_of crl_der (signature_range r) in
      let? _ := of_lib (fun e => "CRL signature verification failed: " +:+ e)
        (verify_signature tbs_bytes sig_alg_bytes sig_bits issuer_spki_der) in
      match List.find (fun e => bool_decide (e.1 = client_serial)) (default [] (revoked_certificates crl)) with
      | Some entry =>
          Err ("certificate serial " +:+ format_serial_hex client_serial +:+
               " is revoked (revocation date: " +:+ entry.2 +:+ ")")
      | None => Ok tt
      end.

(** ** The fallback *)

(** The signer of the OCSP answer or the list: [certificate::issuer_for]
    with the server's chains and trust files. *)
Variable find_issuer : bytes -> outcome bytes string.
Variable fetch : string -> Fetched.
(** the clock when the list of an URL is checked *)
Variable crl_now : string -> Z.

Fixpoint try_urls (urls : list string) (client_serial : Serial) (issuer_spki issuer_name : bytes)
    (last_err : string) : outcome unit string :=
  match urls with
  | [] => Err ("all CRL distribution points failed; last error: " +:+ last_err)
  | url :: rest =>
      match fetch_and_check_crl url (fetch url) (crl_now url) client_serial issuer_spki issuer_name with
      | Ok _ => Ok tt
      | Err e =>
          if starts_with "certificate serial" e then Err e
          else try_urls rest client_serial issuer_spki issuer_name e
      | Panic => Panic
      end
  end.

Definition check_crl_fallback (cert_der : bytes) : outcome unit string :=
  let? urls := extract_cdp_http_urls cert_der in
  if bool_decide (urls = []) then Err "certificate has no CRL Distribution Point HTTP URLs"
  else
    let? client_cert := of_lib (fun e => "failed to parse client certificate: " +:+ e)
      (cert_from_der cert_der) in
    let? issuer_der := find_issuer cert_der in
    let? issuer_ranges := ok_or (cert_ranges issuer_der)
      "failed to extract byte ranges from issuer certificate" in
    try_urls urls (cert_serial_number client_cert) issuer_ranges.2 (cert_issuer client_cert) EmptyString.

(** ** The check *)

Variable basic_response_from_der : bytes -> BasicResponse + string.
Variable sha256 : bytes -> bytes.
Variable http : string -> bytes -> HttpReply.

Definition check_revocation (config : OcspConfig) (rd : OcspReadings) (cert_der : bytes)
  : outcome unit string :=
  if negb (ocsp_enabled config) then Ok tt
  else
    let? issuer_der := find_issuer cert_der in
    match (check_certificate_status basic_response_from_der sha256 (ocsp_client_new config) http rd
             cert_der issuer_der).2 with
    | Ok Good => Ok tt
    | Ok (Revoked reason revocation_time) =>
        Err ("certificate revoked: reason=" +:+ reason +:+ ", time=" +:+ revocation_time)
    | Ok StatusUnknown =>
        if soft_fail config then Ok tt else Err "OCSP: certificate status unknown"
    | Err e =>
        if soft_fail config then Ok tt
        else
          match check_crl_fallback cert_der with
          | Ok _ => Ok tt
          | Err crl_err =>
              Err ("OCSP check failed (" +:+ ocsp_error_to_string e +:+
                   ") and CRL fallback also failed (" +:+ crl_err +:+ ")")
          | Panic => Panic
          end
    | Panic => Panic
    end.

(** ** [try_extract_mtls] *)

Definition first_of (l : list string) : option string :=
  match l with [] => None | s :: _ => Some s end.

Definition try_extract_mtls (config : OcspConfig) (rd : OcspReadings) (peer : option bytes)
  : outcome (option AuthResult) string :=
  match peer with
  | None => Ok None
  | Some cert_der =>
      let subject_dn := extract_subject_dn cert_der in
      let sans := extract_subject_alt_names cert_der in
      let ekus := extract_extended_key_usage cert_der in
      let identity :=
        default "unknown" (match first_of sans with Some s => Some s | None => subject_dn end) in
      match check_revocation config rd cert_der with
      | Err _ => Ok None
      | Panic => Panic
      | Ok _ => Ok (Some (MkAuth identity Mtls (Some cert_der) subject_dn sans ekus))
      end
  end.
End Revocation.

(** ** Comparisons of subjects *)

Section Subjects.
Variable to_lowercase : string -> string.
Variable debug : string -> string.

Definition validate_pop_linking_simple (client_cert_subject : option string) (csr_subject : string)
  : outcome unit string :=
  let? cert_subject := ok_or client_cert_subject
    "mTLS certificate has no subject DN for POP linking" in
  if negb (String.eqb (to_lowercase (trim cert_subject)) (to_lowercase (trim csr_subject))) then
    Err ("POP linking failed: TLS cert subject " +:+ debug cert_subject +:+
         " does not match CSR subject " +:+ debug csr_subject)
  else Ok tt.

Definition validate_cert_attributes (auth : AuthResult)
    (allowed_subject_patterns allowed_issuer_patterns : list string) : outcome unit string :=
  if bool_decide (allowed_subject_patterns = []) && bool_decide (allowed_issuer_patterns = [])
  then Ok tt
  else if negb (bool_decide (allowed_subject_patterns = [])) then
    let subject := default EmptyString (auth_subject_dn auth) in
    if existsb (fun pattern => contains_str pattern subject) allowed_subject_patterns
    then Ok tt
    else Err ("certificate subject " +:+ debug subject +:+ " does not match any allowed pattern")
  else Ok tt.
End Subjects.
