(* ===== verification/RevocationSpec.v ===== *)
(** * What the revocation check accepts

    Of Revocation.v: the walk over the distribution points always ends, and
    finds nothing in the structure RFC 5280 gives the extension; a
    certificate passes a strict check only if the issuer vouches for it. *)
From S2P Require Import Prelude Words Text NameMatch Calendar X509 Der DerReader BasicOtp Ocsp OcspSpec Revocation ExampleLibs ReaderExample.
Open Scope Z_scope.

(** ** The walk ends *)

Section Ends.
Context `{HL : CrlLib} `{HD : Decoder} `{!Consumes}.

Lemma names_loop_returns fuel d urls : (left d < fuel)%nat -> returns (names_loop fuel d urls).
Proof.
  revert d urls. induction fuel as [|fuel IH]; intros d urls Hf; [lia|]. cbn [names_loop].
  case_match; [done|]. destruct (read_value d) as [[[t c] d']|] eqn:E; [|done].
  apply read_value_left in E. apply IH. lia.
Qed.

Lemma point_loop_returns fuel d urls : (left d < fuel)%nat -> returns (point_loop fuel d urls).
Proof.
  revert d urls. induction fuel as [|fuel IH]; intros d urls Hf; [lia|]. cbn [point_loop].
  case_match; [done|]. destruct (read_value d) as [[[t c] d']|] eqn:E; [|done].
  apply read_value_left in E. apply obind_returns; [|intros urls' _; apply IH; lia].
  case_match; [|done]. apply names_loop_returns. pose proof (new_left c). lia.
Qed.

Lemma points_loop_returns fuel inner d urls :
  (left d < fuel)%nat -> (left d <= inner)%nat -> returns (points_loop fuel inner d urls).
Proof.
  revert d urls. induction fuel as [|fuel IH]; intros d urls Hf Hi; [lia|]. cbn [points_loop].
  case_match; [done|]. destruct (enter_constructed read_seq_tag d) as [[dp d']|] eqn:E; [|done].
  apply enter_left in E. apply obind_returns; [apply point_loop_returns; lia|].
  intros urls' _. apply IH; lia.
Qed.

Lemma cdp_urls_returns v : returns (cdp_urls v).
Proof.
  unfold cdp_urls. apply obind_returns; [apply of_lib_returns|]. intros [outer d'] E.
  apply of_lib_Ok, enter_left in E. pose proof (new_left v). apply points_loop_returns; lia.
Qed.

Lemma extract_cdp_returns der : returns (extract_cdp_http_urls der).
Proof.
  unfold extract_cdp_http_urls. apply obind_returns; [apply of_lib_returns|]. intros cert _.
  apply obind_returns; [apply ok_or_returns|]. intros e _.
  apply obind_returns; [apply ok_or_returns|]. intros v _. apply cdp_urls_returns.
Qed.
End Ends.

(** ** The extension of RFC 5280 *)

(** A GeneralName: its identifier octet and its content. *)
Inductive DistributionPointName : Type :=
  | FullName (names : list (Z * bytes))
  | NameRelativeToCrlIssuer (rdn : bytes).
Record DistributionPoint : Type := MkPoint {
  point_name : option DistributionPointName;
  point_reasons : option bytes;
  point_crl_issuer : option bytes
}.
Definition general_names (l : list (Z * bytes)) : bytes := concat (map (fun n => tlv_of n.1 n.2) l).
(** The CHOICE: [fullName [0]] or [nameRelativeToCRLIssuer [1]]. *)
Definition point_name_der (n : DistributionPointName) : bytes :=
  match n with
  | FullName l => tlv_of 160 (general_names l)
  | NameRelativeToCrlIssuer rdn => tlv_of 161 rdn
  end.
Definition field_der (f : ReadTag * bytes) : bytes := tlv_of (identifier f.1) f.2.
Definition optional_field (t : ReadTag) (o : option bytes) : list (ReadTag * bytes) :=
  match o with Some c => [(t, c)] | None => [] end.
(** [distributionPoint [0]], an explicit tag, as its type is a CHOICE. *)
Definition point_fields (p : DistributionPoint) : list (ReadTag * bytes) :=
  optional_field (MkTag ContextSpecific true 0) (fmap point_name_der (point_name p)) ++
  optional_field (MkTag ContextSpecific false 1) (point_reasons p) ++
  optional_field (MkTag ContextSpecific true 2) (point_crl_issuer p).
Definition fields_der (l : list (ReadTag * bytes)) : bytes := concat (map field_der l).
Definition points_der (l : list DistributionPoint) : bytes :=
  tlv_of 48 (concat (map (fun p => tlv_of 48 (fields_der (point_fields p))) l)).

Section Points.
Context `{HL : CrlLib} `{HD : Decoder} `{!DecoderLaws}.

(** A field whose content is one value that is no URI, if it is a [0]. *)
Definition quiet (f : ReadTag * bytes) : Prop :=
  0 <= tag_number f.1 < 31 /\ short f.2 /\
  (tag_number f.1 = 0 -> exists t c, f.2 = tlv_of (identifier t) c /\
     0 <= tag_number t < 31 /\ tag_number t <> 6 /\ short c).

Lemma names_loop_quiet t c d urls fuel :
  remaining d = tlv_of (identifier t) c -> 0 <= tag_number t < 31 -> tag_number t <> 6 -> short c ->
  (1 < fuel)%nat -> names_loop fuel d urls = Ok urls.
Proof.
  intros Hr Ht H6 Hc Hf. do 2 (destruct fuel as [|fuel]; [lia|]). cbn [names_loop].
  rewrite is_empty_ok, Hr, bool_decide_eq_false_2 by done.
  destruct (read_value_ok t c d []) as (d' & -> & Hr'); [by rewrite app_nil_r|done..|].
  rewrite (proj2 (Z.eqb_neq _ _)) by done. rewrite andb_false_r.
  by rewrite is_empty_ok, Hr', bool_decide_eq_true_2.
Qed.

Lemma point_loop_quiet l d urls fuel :
  Forall quiet l -> remaining d = fields_der l -> (length l < fuel)%nat ->
  point_loop fuel d urls = Ok urls.
Proof.
  intros Hl. revert d fuel. induction Hl as [|[t c] l (Ht & Hc & Hq) Hl IH]; intros d fuel Hr Hf;
    (destruct fuel as [|fuel]; [simpl in Hf; lia|]); cbn [point_loop]; rewrite is_empty_ok, Hr.
  { done. }
  rewrite bool_decide_eq_false_2 by done. unfold fields_der in Hr. cbn [map concat] in Hr.
  cbn [fst snd] in *. destruct (read_value_ok t c d _ Hr Ht Hc) as (d' & -> & Hr').
  destruct (Z.eqb_spec (tag_number t) 0) as [Hz|Hz].
  - destruct (Hq Hz) as (t' & c' & -> & Ht' & H6 & Hc').
    assert (Hn : names_loop (S (length (tlv_of (identifier t') c')))
      (decoder_new (tlv_of (identifier t') c')) urls = Ok urls)
      by (apply (names_loop_quiet t' c'); [by rewrite decoder_new_ok|done..|unfold tlv_of; simpl; lia]).
    rewrite Hn. assert (Hi : (if bool_decide (tag_class t = ContextSpecific) && true then Ok urls else Ok urls)
      = @Ok (list string) string urls) by (by case_match). rewrite Hi. cbn [obind].
    apply IH; [done|simpl in Hf; lia].
  - rewrite andb_false_r. cbn [obind]. apply IH; [done|simpl in Hf; lia].
Qed.

Lemma fields_length l : (length l <= length (fields_der l))%nat.
Proof. unfold fields_der. induction l; simpl; [lia|]. rewrite length_app. simpl. lia. Qed.

Lemma points_loop_quiet l d fuel inner :
  Forall (fun p => Forall quiet (point_fields p) /\ short (fields_der (point_fields p)) /\
    (length (fields_der (point_fields p)) < inner)%nat) l ->
  remaining d = concat (map (fun p => tlv_of 48 (fields_der (point_fields p))) l) ->
  (length l < fuel)%nat -> points_loop fuel inner d [] = Ok [].
Proof.
  intros Hl. revert d fuel. induction Hl as [|p l (Hq & Hs & Hi) Hl IH]; intros d fuel Hr Hf;
    (destruct fuel as [|fuel]; [simpl in Hf; lia|]); cbn [points_loop]; rewrite is_empty_ok, Hr.
  { done. }
  rewrite bool_decide_eq_false_2 by done. cbn [map concat] in Hr.
  destruct (enter_seq d _ _ Hr Hs) as (i & d' & -> & Hri & Hr').
  rewrite (point_loop_quiet _ i [] inner Hq Hri) by (pose proof (fields_length (point_fields p)); lia).
  cbn [obind]. apply IH; [done|simpl in Hf; lia].
Qed.

Lemma optional_elem t c t' o : (t, c) ∈ optional_field t' o <-> o = Some c /\ t = t'.
Proof. destruct o; simpl; rewrite ?list_elem_of_singleton, ?elem_of_nil; naive_solver. Qed.

Lemma point_quiet p :
  short (fields_der (point_fields p)) -> Forall quiet (point_fields p).
Proof.
  assert (Hsub : forall l, short (fields_der l) -> Forall (fun f => short (field_der f)) l).
  { unfold short, fields_der. induction l as [|f l IH]; intros Hl; constructor; cbn [map concat] in Hl;
      rewrite len_app in Hl; pose proof (len_nonneg (concat (map field_der l)));
      pose proof (len_nonneg (field_der f)); [lia|apply IH; lia]. }
  intros Hs. apply Hsub in Hs. rewrite Forall_forall in Hs. apply Forall_forall. intros [t c] Hf.
  specialize (Hs _ Hf). unfold field_der in Hs. cbn [fst snd] in Hs. apply content_short in Hs.
  unfold point_fields in Hf. rewrite !elem_of_app, !optional_elem in Hf. unfold quiet. cbn [fst snd].
  destruct Hf as [[Ho ->]|[[Ho ->]|[Ho ->]]]; cbn [tag_number]; (split; [lia|]); (split; [exact Hs|]);
    [intros _|done|done].
  apply fmap_Some in Ho as (n & _ & ->). destruct n; apply content_short in Hs.
  - by exists (MkTag ContextSpecific true 0), (general_names names).
  - by exists (MkTag ContextSpecific true 1), rdn.
Qed.

Lemma concat_part (x : bytes) l : x ∈ l -> (length x <= length (concat l))%nat.
Proof. induction 1 as [|y l Hx IH]; simpl; rewrite length_app; lia. Qed.

(** In the extension as RFC 5280 has it no URL is found, whatever names its
    points have: the walk takes the content of [distributionPoint] for the
    names, but it is the CHOICE around them. *)
Lemma cdp_urls_empty l : short (points_der l) -> cdp_urls (points_der l) = Ok [].
Proof.
  intros Hs. unfold cdp_urls.
  destruct (enter_seq (decoder_new (points_der l))
    (concat (map (fun p => tlv_of 48 (fields_der (point_fields p))) l)) []) as (i & d' & -> & Hi & _).
  { rewrite decoder_new_ok. unfold points_der. by rewrite app_nil_r. }
  { by apply content_short in Hs. }
  cbn [of_lib obind].
  apply (points_loop_quiet l i); [|exact Hi|].
  - apply Forall_forall. intros p Hp.
    assert (Hle : (length (tlv_of 48 (fields_der (point_fields p))) <=
      length (concat (map (fun p => tlv_of 48 (fields_der (point_fields p))) l)))%nat)
      by (apply concat_part; by apply (list_elem_of_fmap_2 (fun p => tlv_of 48 (fields_der (point_fields p))))).
    assert (Hsp : short (fields_der (point_fields p))).
    { apply content_short in Hs. apply (content_short 48). unfold short, len in *. lia. }
    split_and!; [by apply point_quiet|done|]. unfold points_der. unfold tlv_of in Hle at 1. unfold tlv_of at 1.
    simpl in *. rewrite !length_app in *. lia.
  - unfold points_der, tlv_of at 1. simpl. rewrite !length_app.
    assert (length l <= length (concat (map (fun p => tlv_of 48 (fields_der (point_fields p))) l)))%nat; [|lia].
    clear. induction l as [|p l IH]; simpl; [lia|]. rewrite length_app. simpl. lia.
Qed.
End Points.

(** ** What a revocation list vouches for *)

Section Sound.
Context `{HL : CrlLib} `{HD : Decoder}.
Variable find_issuer : bytes -> outcome bytes string.
Variable fetch : string -> Fetched.
Variable crl_now : string -> Z.

(** The list [crl_der] is the issuer's, current, complete, and does not have
    the serial number. *)
Definition clear_of (serial : Serial) (spki name crl_der : bytes) (now : Z) : Prop :=
  exists crl updated next expires r tbs alg sig,
    crl_from_der crl_der = inl crl /\ crl_issuer crl = inl name /\
    time (crl_this_update crl) = Ok updated /\ crl_next_update crl = Some next /\
    time next = Ok expires /\ updated <= now < expires /\
    (forall e, In e (default [] (crl_extensions crl)) -> unsupported e = false) /\
    crl_byte_ranges crl_der = Ok r /\
    subslice crl_der (tbs_range r).1 (tbs_range r).2 = Ok tbs /\
    subslice crl_der (sig_alg_range r).1 (sig_alg_range r).2 = Ok alg /\
    subslice crl_der (signature_range r).1 (signature_range r).2 = Ok sig /\
    verify_signature tbs alg sig spki = inl tt /\
    (forall e, In e (default [] (revoked_certificates crl)) -> e.1 <> serial).

(** The body of a reply: all of its chunks, within the limit. *)
Definition body_of (reply : Fetched) (b : bytes) : Prop :=
  exists code text length chunks,
    reply = FetchedReply code text length (map inl chunks) /\ 200 <= code < 300 /\
    b = concat chunks /\ len b <= CRL_LIMIT.

Lemma read_body_Ok {E} limit (f : string -> E) e acc chunks b :
  len acc <= limit -> read_body limit f e acc chunks = Ok b ->
  exists l, chunks = map inl l /\ b = acc ++ concat l /\ len b <= limit.
Proof.
  revert acc. induction chunks as [|[c|x] chunks IH]; intros acc Ha; cbn [read_body].
  - intros [= <-]. exists []. by rewrite app_nil_r.
  - case_match eqn:E1; [done|]. apply Z.ltb_ge in E1. intros Hb.
    destruct (IH (acc ++ c)) as (l & -> & -> & Hl); [rewrite len_app; lia|done|].
    exists (c :: l). simpl. rewrite <- app_assoc in *. done.
  - done.
Qed.

Lemma fetch_crl_Ok url reply b : fetch_crl url reply = Ok b -> body_of reply b.
Proof.
  unfold fetch_crl. destruct reply as [| |code text length chunks]; [done..|].
  unfold is_success. destruct (_ && _) eqn:Ec; [|done]. cbn [negb]. intros E.
  assert (Hb : read_body CRL_LIMIT id "CRL body exceeds 10 MB" [] chunks = Ok b)
    by (destruct length as [n|]; [by destruct (CRL_LIMIT <? n)|done]).
  apply read_body_Ok in Hb as (l & -> & -> & Hl); [|done]. exists code, text, length, l. breflect.
  split_and!; [done|lia|lia|done|done].
Qed.

Lemma find_none_forall {A} (f : A -> bool) l : List.find f l = None -> forall x, In x l -> f x = false.
Proof. intros Hn x Hx. by apply (List.find_none f l Hn). Qed.

Lemma slice_of_Ok l r b : slice_of l r = Ok b -> subslice l r.1 r.2 = Ok b.
Proof. apply map_err_Ok. Qed.

Lemma fetch_and_check_Ok url reply now serial spki name :
  fetch_and_check_crl url reply now serial spki name = Ok tt ->
  exists b, body_of reply b /\ clear_of serial spki name b now.
Proof.
  unfold fetch_and_check_crl. intros E. do 3 inv_ok E. apply fetch_crl_Ok in H1.
  apply of_lib_Ok in H2, H3. destruct (bool_decide_reflect (t1 = name)) as [->|]; [|done].
  cbn [negb] in E. do 3 inv_ok E. apply ok_or_Ok in H5.
  destruct (_ || _ || _) eqn:Et in E; [done|]. destruct (existsb unsupported _) eqn:Ex in E; [done|].
  do 5 inv_ok E. apply map_err_Ok in H7. apply slice_of_Ok in H8, H9, H10. apply of_lib_Ok in H11.
  destruct t8. destruct (List.find _ _) eqn:Ef in E; [done|]. exists t. split; [done|].
  exists t0, t1, t2, t3, t4, t5, t6, t7. breflect. split_and!; try done; try lia.
  - intros e He. destruct (unsupported e) eqn:Eu; [|done].
    exfalso. apply Bool.not_true_iff_false in Ex. apply Ex, existsb_exists. by exists e.
  - intros e He Heq. apply (find_none_forall _ _ Ef) in He. by rewrite bool_decide_eq_true_2 in He.
Qed.

Lemma try_urls_Ok urls serial spki name last :
  try_urls fetch crl_now urls serial spki name last = Ok tt ->
  exists url b, In url urls /\ body_of (fetch url) b /\ clear_of serial spki name b (crl_now url).
Proof.
  revert last. induction urls as [|url urls IH]; intros last; cbn [try_urls]; [done|].
  destruct (fetch_and_check_crl _ _ _ _ _ _) as [[]|e|] eqn:E; [|case_match; [done|]|done].
  - intros _. apply fetch_and_check_Ok in E as (b & Hb & Hc). exists url, b. split; [by left|done].
  - intros Hok. destruct (IH _ Hok) as (u & b & Hin & Hb). exists u, b. split; [by right|done].
Qed.

(** The certificate's serial number is not on a current list of its issuer. *)
Definition crl_clear (cert_der issuer : bytes) : Prop :=
  exists cert ranges urls url b,
    cert_from_der cert_der = inl cert /\ cert_ranges issuer = Some ranges /\
    extract_cdp_http_urls cert_der = Ok urls /\ In url urls /\ body_of (fetch url) b /\
    clear_of (cert_serial_number cert) ranges.2 (cert_issuer cert) b (crl_now url).

Lemma check_crl_fallback_Ok cert_der :
  check_crl_fallback find_issuer fetch crl_now cert_der = Ok tt ->
  exists issuer, find_issuer cert_der = Ok issuer /\ crl_clear cert_der issuer.
Proof.
  unfold check_crl_fallback. intros E. inv_ok E. case_bool_decide; [done|]. do 3 inv_ok E.
  apply of_lib_Ok in H3. apply ok_or_Ok in H5. apply try_urls_Ok in E as (url & b & Hin & Hb & Hc).
  exists t1. split; [done|]. by exists t0, t2, t, url, b.
Qed.

Variable basic_response_from_der : bytes -> BasicResponse + string.
Variable sha256 : bytes -> bytes.
Variable http : string -> bytes -> HttpReply.

Abbreviation check_revocation := (check_revocation find_issuer fetch crl_now basic_response_from_der sha256 http).
Abbreviation vouched := (vouched basic_response_from_der).

(** A query with a new client: only a response fetched now answers it. *)
Lemma fresh_answer config rd cert_der issuer st :
  ocsp_enabled config = true ->
  (check_certificate_status basic_response_from_der sha256 (ocsp_client_new config) http rd cert_der issuer).2
    = Ok st ->
  exists i v, build_cert_id sha256 cert_der issuer = Ok i /\ vouched config rd issuer i st v.
Proof.
  intros He Hst.
  assert (Hm : cache_vouched basic_response_from_der sha256 config [] (response_cache (ocsp_client_new config)))
    by (intros i e Hi; cbn [ocsp_client_new response_cache] in Hi; by rewrite lookup_empty in Hi).
  destruct (check_status_step basic_response_from_der sha256 config [] (ocsp_client_new config) http rd
    cert_der issuer eq_refl He Hm) as (_ & _ & Hans).
  destruct (Hans st Hst) as (i & Hi & [[v Hv]|(e & Hl & _)]); [by exists i, v|].
  cbn [ocsp_client_new response_cache] in Hl. by rewrite lookup_empty in Hl.
Qed.

Lemma check_revocation_Ok config rd cert_der :
  ocsp_enabled config = true -> check_revocation config rd cert_der = Ok tt ->
  exists issuer, find_issuer cert_der = Ok issuer /\
    ((exists i v, build_cert_id sha256 cert_der issuer = Ok i /\ vouched config rd issuer i Good v) \/
     soft_fail config = true \/ crl_clear cert_der issuer).
Proof.
  intros He. unfold Revocation.check_revocation. rewrite He. cbn [negb]. intros E. inv_ok E.
  exists t. split; [done|].
  destruct (check_certificate_status _ _ _ _ _ _ _).2 as [[|r w|]|e|] eqn:Ea; try done.
  - left. by apply fresh_answer.
  - right. left. by destruct (soft_fail config).
  - right. destruct (soft_fail config); [by left|]. right.
    destruct (check_crl_fallback _ _ _ _) as [[]|x|] eqn:Ec; [|done..].
    apply check_crl_fallback_Ok in Ec as (issuer & Hi & Hc).
    by assert (issuer = t) as -> by congruence.
Qed.

(** What a certificate passes the revocation check for.  With the
    check enabled, a certificate that passes has an issuer among the
    configured ones, and either an OCSP answer made now says it is good, or
    a current list signed by that issuer does not have its serial number, or
    soft-fail is on; and a certificate that the responder answers is revoked
    never passes, whatever soft-fail says. *)
Theorem revocation_check_sound config rd cert_der :
  ocsp_enabled config = true -> check_revocation config rd cert_der = Ok tt ->
  exists issuer, find_issuer cert_der = Ok issuer /\
    ((exists i v, build_cert_id sha256 cert_der issuer = Ok i /\ vouched config rd issuer i Good v) \/
     soft_fail config = true \/ crl_clear cert_der issuer) /\
    (forall reason since, (check_certificate_status basic_response_from_der sha256 (ocsp_client_new config)
       http rd cert_der issuer).2 <> Ok (Revoked reason since)).
Proof.
  intros He Hok. destruct (check_revocation_Ok config rd cert_der He Hok) as (issuer & Hi & Hor).
  exists issuer. split_and!; [done|done|]. intros reason since Hr.
  unfold Revocation.check_revocation in Hok. rewrite He, Hi in Hok. cbn [negb obind] in Hok.
  by rewrite Hr in Hok.
Qed.

Context `{!DecoderLaws}.

(** Whatever the distribution points of a certificate are, in the form RFC
    5280 gives them, no list is fetched. *)
Lemma crl_fallback_empty cert_der cert ext points :
  cert_from_der cert_der = inl cert -> cert_extensions cert = Some ext ->
  find_extension_value ext CRL_DISTRIBUTION_POINTS = Some (points_der points) ->
  short (points_der points) ->
  check_crl_fallback find_issuer fetch crl_now cert_der =
    Err "certificate has no CRL Distribution Point HTTP URLs".
Proof.
  intros Hc He Hf Hs. unfold check_crl_fallback, extract_cdp_http_urls.
  rewrite Hc. cbn [of_lib obind]. rewrite He. cbn [ok_or obind]. rewrite Hf. cbn [ok_or obind].
  by rewrite cdp_urls_empty.
Qed.

(** The fallback to revocation lists does not exist for certificates
    that conform to RFC 5280.  Whatever the distribution points in the
    certificate, and whatever the servers they name would answer, the
    fallback fails without a fetch; so without soft-fail a certificate
    passes only on an OCSP answer that says it is good. *)
Theorem crl_fallback_never_helps config rd cert_der cert ext points :
  cert_from_der cert_der = inl cert -> cert_extensions cert = Some ext ->
  find_extension_value ext CRL_DISTRIBUTION_POINTS = Some (points_der points) ->
  short (points_der points) ->
  check_crl_fallback find_issuer fetch crl_now cert_der =
    Err "certificate has no CRL Distribution Point HTTP URLs" /\
  (ocsp_enabled config = true -> soft_fail config = false ->
   check_revocation config rd cert_der = Ok tt ->
   exists issuer i v, find_issuer cert_der = Ok issuer /\
     build_cert_id sha256 cert_der issuer = Ok i /\ vouched config rd issuer i Good v).
Proof.
  intros Hc He Hf Hs. pose proof (crl_fallback_empty cert_der cert ext points Hc He Hf Hs) as Hcrl.
  split; [done|]. intros Hen Hsoft Hok.
  destruct (check_revocation_Ok config rd cert_der Hen Hok) as (issuer & Hi & [(i & v & H')|[H'|H']]).
  - by exists issuer, i, v.
  - by rewrite H' in Hsoft.
  - destruct H' as (c & r & urls & url & b & _ & _ & Hu & Hin & _). unfold check_crl_fallback in Hcrl.
    rewrite Hu in Hcrl. cbn [obind] in Hcrl. destruct urls; [done|].
    rewrite bool_decide_eq_false_2 in Hcrl by done. revert Hcrl. rewrite Hc. cbn [of_lib obind].
    unfold extract_cdp_http_urls in Hu. rewrite Hc in Hu. cbn [of_lib obind] in Hu. rewrite He in Hu.
    cbn [ok_or obind] in Hu. rewrite Hf in Hu. cbn [ok_or obind] in Hu. by rewrite cdp_urls_empty in Hu.
Qed.
End Sound.

(** ** Examples *)

(** A revocation list is any bytes but the empty ones, of the CA 9 and with
    no entries. *)
#[export] Instance example_crl : CrlLib := {
  cert_subject_alt_names _ := [(2, bytes_of_string "device")];
  cert_serial_number c := [c.1];
  serial_as_bytes b := b;
  CertList := bytes;
  crl_from_der b := if bool_decide (b = []) then inr "empty" else inl b;
  crl_issuer _ := inl [9];
  crl_this_update _ := UtcTime 2026 1 1 0 0 0;
  crl_next_update _ := Some (UtcTime 2026 2 1 0 0 0);
  crl_extensions _ := None;
  revoked_certificates _ := None
}.

Definition example_issuer (der : bytes) : outcome bytes string := Ok [48; 9; 9].
Definition example_list : bytes := [48; 10; 48; 1; 7; 48; 0; 3; 2; 0; 9].
Definition example_fetch (url : string) : Fetched := FetchedReply 200 "200 OK" (Some 11) [inl example_list].

Example crl_is_clear :
  fetch_and_check_crl "http://c" (example_fetch "http://c") example_clock [65] [9] [9] = Ok tt.
Proof. vm_compute. reflexivity. Qed.

(** The same certificate and list, were the names not wrapped. *)
Example unwrapped_names_are_found :
  cdp_urls ([48; 14; 48; 12; 160; 10; 134; 8] ++ bytes_of_string "http://c") = Ok ["http://c"%string].
Proof. vm_compute. reflexivity. Qed.

Abbreviation example_check :=
  (check_revocation example_issuer example_fetch (fun _ => example_clock) example_decode (fun b => b)).

Lemma revocation_check_sound_witness :
  example_check example_http example_ocsp_config example_readings [48; 65; 9] = Ok tt /\
  exists issuer, example_issuer [48; 65; 9] = Ok issuer.
Proof.
  assert (Hok : example_check example_http example_ocsp_config example_readings [48; 65; 9] = Ok tt)
    by (vm_compute; reflexivity).
  split; [exact Hok|].
  destruct (revocation_check_sound example_issuer example_fetch (fun _ => example_clock) example_decode
    (fun b => b) example_http example_ocsp_config example_readings [48; 65; 9] eq_refl Hok) as (i & Hi & _).
  exists i. exact Hi.
Defined.

(** The responder is down: the certificate names a list, which is there and
    clear, and is refused. *)
Lemma crl_fallback_never_helps_witness :
  check_crl_fallback example_issuer example_fetch (fun _ => example_clock) [48; 65; 9] =
    Err "certificate has no CRL Distribution Point HTTP URLs" /\
  example_check (fun _ _ => SendTimeout) example_ocsp_config example_readings [48; 65; 9] <> Ok tt /\
  exists issuer i v, example_issuer [48; 65; 9] = Ok issuer /\
    build_cert_id (fun b => b) [48; 65; 9] issuer = Ok i /\
    vouched example_decode example_ocsp_config example_readings issuer i Good v.
Proof.
  assert (Hs : short (points_der [MkPoint (Some (FullName [(134, bytes_of_string "http://c")])) None None]))
    by (vm_compute; reflexivity).
  destruct (crl_fallback_never_helps example_issuer example_fetch (fun _ => example_clock) example_decode
    (fun b => b) example_http example_ocsp_config example_readings [48; 65; 9] (65, 9) example_cdp
    [MkPoint (Some (FullName [(134, bytes_of_string "http://c")])) None None]
    eq_refl eq_refl eq_refl Hs) as [Hc Hv].
  split; [exact Hc|]. split; [vm_compute; discriminate|].
  apply Hv; [reflexivity|reflexivity|vm_compute; reflexivity].
Defined.
