(* ===== verification/EstAuth.v ===== *)
(** * Authorization headers

    [kipuka-util/src/auth.rs]: the credentials an [Authorization] header
    carries (RFC 7617, 6750, 4559), and the Basic challenge.  The base64
    decoder is a parameter. *)
From S2P Require Import Prelude Words Text Errors.
Open Scope Z_scope.

Inductive AuthError : Type :=
  | Missing
  | Malformed (msg : string)
  | UnsupportedScheme (scheme : string)
  | Base64 (e : string).

Definition auth_error_to_string (e : AuthError) : string :=
  match e with
  | Missing => "missing Authorization header"
  | Malformed m => "malformed Authorization header: " +:+ m
  | UnsupportedScheme s => "unsupported authentication scheme: " +:+ s
  | Base64 e => "base64 decode error: " +:+ e
  end.

Inductive AuthCredential : Type :=
  | CBasic (username password : string)
  | CBearer (token : string)
  | CNegotiate (token_bytes : bytes)
  | CClientCert (subject_dn : string).

Section Headers.
Variable b64_decode : string -> bytes + string.
(** the error of [String::from_utf8] *)
Variable utf8_error : bytes -> string.

Definition decode_base64 (payload : string) : outcome bytes AuthError :=
  match b64_decode payload with inl b => Ok b | inr e => Err (Base64 e) end.

Definition parse_basic (payload : string) : outcome AuthCredential AuthError :=
  let? decoded := decode_base64 payload in
  if existsb (Z.eqb 0) decoded then
    Err (Malformed "Basic credentials contain null byte (rejected for security)")
  else
    let? text := ok_or (from_utf8 decoded)
      (Malformed ("non-UTF-8 Basic credentials: " +:+ utf8_error decoded)) in
    let? (username, password) := ok_or (split_once ":" text)
      (Malformed "Basic credentials missing ':' separator (RFC 7617 §2)") in
    if is_empty username then Err (Malformed "Basic auth user-id is empty (RFC 7617 §2)")
    else Ok (CBasic username password).

Definition parse_bearer (payload : string) : outcome AuthCredential AuthError := Ok (CBearer payload).

Definition parse_negotiate (payload : string) : outcome AuthCredential AuthError :=
  let? token_bytes := decode_base64 payload in Ok (CNegotiate token_bytes).

Definition parse_authorization (header_value : string) : outcome AuthCredential AuthError :=
  let header_value := trim header_value in
  if is_empty header_value then Err Missing
  else
    let? (scheme, payload) := ok_or (split_once " " header_value)
      (Malformed "expected 'Scheme <credentials>'") in
    let payload := trim payload in
    if is_empty payload then Err (Malformed "empty credentials after scheme")
    else
      let scheme := to_ascii_lowercase scheme in
      if String.eqb scheme "basic" then parse_basic payload
      else if String.eqb scheme "bearer" then parse_bearer payload
      else if String.eqb scheme "negotiate" then parse_negotiate payload
      else Err (UnsupportedScheme scheme).

Definition client_cert_credential (subject_dn : string) : AuthCredential := CClientCert subject_dn.

(** Every header gets an answer. *)
Lemma parse_authorization_returns h : returns (parse_authorization h).
Proof.
  unfold parse_authorization. case_match; [done|].
  apply obind_returns; [apply ok_or_returns|]. intros [scheme payload] _. case_match; [done|].
  repeat case_match; try done.
  - unfold parse_basic. apply obind_returns; [by unfold decode_base64; case_match|]. intros d _.
    case_match; [done|]. apply obind_returns; [apply ok_or_returns|]. intros t _.
    apply obind_returns; [apply ok_or_returns|]. intros [u p] _. by case_match.
  - unfold parse_negotiate. apply obind_returns; [by unfold decode_base64; case_match|]. done.
Qed.

(** A Basic header is read back: user names have no colon, passwords may. *)
Lemma parse_basic_round_trip payload user password :
  b64_decode payload = inl (bytes_of_string (user +:+ String ":" password)) ->
  from_utf8 (bytes_of_string (user +:+ String ":" password)) = Some (user +:+ String ":" password) ->
  user <> EmptyString -> contains_char ":" user = false ->
  ~ In 0 (bytes_of_string (user +:+ String ":" password)) ->
  parse_basic payload = Ok (CBasic user password).
Proof.
  intros Hd Hu Hne Hc Hz. unfold parse_basic, decode_base64. rewrite Hd. cbn [obind].
  assert (existsb (Z.eqb 0) (bytes_of_string (user +:+ String ":" password)) = false) as ->.
  { apply not_true_is_false. intros (b & Hb & <-%Z.eqb_eq)%existsb_exists. done. }
  rewrite Hu. cbn [ok_or obind].
  assert (split_once ":" (user +:+ String ":" password) = Some (user, password)) as -> by (by apply split_once_Some).
  cbn [ok_or obind]. by destruct user.
Qed.
End Headers.

(** ** The challenge *)

Record BasicChallenge : Type := MkChallenge { realm : string; charset : string }.
Definition basic_challenge_new (realm : string) : BasicChallenge := MkChallenge realm "UTF-8".
Definition to_header_value (c : BasicChallenge) : string :=
  "Basic realm=" +:+ DQUOTE +:+ realm c +:+ DQUOTE +:+ ", charset=" +:+ DQUOTE +:+ charset c +:+ DQUOTE.
Definition basic_challenge_default : BasicChallenge := basic_challenge_new "kipuka-est".

Example default_challenge : to_header_value basic_challenge_default = WWW_AUTHENTICATE_BASIC.
Proof. reflexivity. Qed.

(** The header "BASIC  x" with a base64 that is the identity. *)
Example scheme_case_insensitive :
  parse_authorization (fun s => inl (bytes_of_string s)) (fun _ => EmptyString) " BASIC  u:p:q " =
    Ok (CBasic "u" "p:q").
Proof. reflexivity. Qed.

(** * Authentication of EST requests

    [src/auth/mod.rs] and [src/auth/gssapi.rs]: the extractors [EstAuth] and
    [OptionalAuth], which try a TLS client certificate, a one-time password
    and Kerberos in this order, as far as the label permits them.  The
    GSS-API library's step and its token parser are the interface [GssLib];
    base64 is a parameter. *)
From S2P Require Import Calendar X509 HaPool FailureTracker BasicOtp Der DerReader Ocsp Revocation Labels.
Open Scope Z_scope.

(** ** The GSS-API library *)

(** What a new server context answers to its first token. *)
Inductive GssStep : Type :=
  | StepError (e : string)
  | Complete (flags : Z + string) (source_name : string + string) (out_token : option bytes)
  | Incomplete (out_token : option bytes).

Class GssLib : Type := {
  GssCred : Type;
  (** [None]: the credential has another type, with the text of that *)
  gss_step : GssCred -> bytes -> option bytes -> GssStep + string;
  parse_initial_context_token : bytes -> option (bytes * bytes * bytes);
  (** the ticket's service name with its realm *)
  ap_req_principal : bytes -> option string;
  KRB5_OID_BYTES : bytes;
  TOK_AP_REQ : bytes
}.

Definition NegotiateSuccess : Type := string * bytes.
Inductive NegotiateError : Type :=
  | Continue (out_token : bytes)
  | Failed (msg : string).

Definition CHANNEL_BOUND : Z := 2048.
Definition require_negotiated_channel_binding (binding : option bytes) (flags : Z)
  : outcome unit string :=
  if match binding with None => true | Some b => bool_decide (b = []) end
     || (Z.land flags CHANNEL_BOUND =? 0)
  then Err "GSSAPI context did not negotiate TLS channel binding"
  else Ok tt.

Section Gss.
Context `{GssLib}.

Definition verify_gssapi_token (cred : GssCred) (token : bytes) (channel_binding : option bytes)
  : outcome NegotiateSuccess NegotiateError :=
  let? step := of_lib Failed (gss_step cred token channel_binding) in
  match step with
  | StepError e => Err (Failed ("gss_accept_sec_context failed: " +:+ e))
  | Complete flags source_name out_buf =>
      let? flags := of_lib (fun e => Failed ("failed to retrieve GSS context flags: " +:+ e)) flags in
      let? _ := map_err Failed (require_negotiated_channel_binding channel_binding flags) in
      let? principal := of_lib (fun e => Failed ("failed to retrieve client principal: " +:+ e))
        source_name in
      Ok (principal, default [] out_buf)
  | Incomplete out_buf =>
      let out_token := default [] out_buf in
      if bool_decide (out_token = []) then
        Err (Failed "GSS context incomplete but no output token produced")
      else Err (Continue out_token)
  end.

Definition try_extract_principal_from_ap_req (ap_req_der : bytes) : option string :=
  match ap_req_principal ap_req_der with
  | Some sname => Some ("krb5-sname:" +:+ sname)
  | None => None
  end.

Definition try_extract_principal_from_gss_token (token : bytes) : option string :=
  match parse_initial_context_token token with
  | None => None
  | Some (oid, tok_type, payload) =>
      if negb (bool_decide (oid = KRB5_OID_BYTES)) || negb (bool_decide (tok_type = TOK_AP_REQ))
      then None
      else try_extract_principal_from_ap_req payload
  end.

Definition SPNEGO_OID_BYTES : bytes := [43; 6; 1; 5; 5; 2].

(** The first of several attempts that answers; a panic ends it. *)
Definition or_try {T} (a : outcome (option T) unit) (b : outcome (option T) unit)
  : outcome (option T) unit :=
  match a with
  | Ok None => b
  | a => a
  end.

(** The mechToken of a SPNEGO token. *)
Definition spnego_principal (inner : bytes) : outcome (option string) unit :=
  match extract_spnego_mech_token inner with
  | Ok mech_token => Ok (try_extract_principal_from_gss_token mech_token)
  | Err _ => Ok None
  | Panic => Panic
  end.

Definition envelope_principal (token : bytes) : outcome (option string) unit :=
  match parse_initial_context_token token with
  | None => Ok None
  | Some (oid, _, inner) =>
      or_try
        (if bool_decide (oid = SPNEGO_OID_BYTES) then spnego_principal inner else Ok None)
        (Ok (if bool_decide (oid = KRB5_OID_BYTES) then try_extract_principal_from_ap_req inner
             else None))
  end.

Definition negotiate_accept_structural (token : bytes) : outcome NegotiateSuccess NegotiateError :=
  match or_try (Ok (try_extract_principal_from_gss_token token))
          (or_try (envelope_principal token) (Ok (try_extract_principal_from_ap_req token))) with
  | Ok (Some principal) => Ok (principal, [])
  | Ok None | Err _ =>
      Err (Failed "failed to parse SPNEGO/Kerberos token: unable to extract client principal")
  | Panic => Panic
  end.

(** [feature_gssapi]: whether the server is built with the library. *)
Definition negotiate_accept (feature_gssapi : bool) (cred : GssCred) (token : bytes)
    (channel_binding : option bytes) (require_crypto : bool)
  : outcome NegotiateSuccess NegotiateError :=
  if feature_gssapi && require_crypto then verify_gssapi_token cred token channel_binding
  else negotiate_accept_structural token.

(** ** Responses *)

Definition text_response (status : Z) (text : string) : Response :=
  MkResponse status {["content-type" := "text/plain; charset=utf-8"]} (bytes_of_string text).
Definition set_header (k v : string) (r : Response) : Response :=
  MkResponse (status r) (<[k := v]> (headers r)) (body r).

(** [HeaderValue::from_str] *)
Definition header_value (s : string) : option string :=
  if forallb (fun b => ((32 <=? b) && (b <? 127)) || (b =? 9)) (bytes_of_string s)
  then Some s else None.

Definition negotiate_challenge : Response :=
  set_header "www-authenticate" "Negotiate" (text_response 401 EmptyString).

(** What [try_extract_otp] refuses with. *)
Definition otp_response (r : AuthResponse) : Response :=
  match r with
  | Unauthorized detail =>
      set_header "www-authenticate" WWW_AUTHENTICATE_BASIC (text_response 401 detail)
  | TooManyRequests secs =>
      set_header "retry-after" (pretty secs)
        (text_response 429 "too many failed authentication attempts; account temporarily locked")
  end.

(** The middleware [response_token]: the token of a context that answered
    one is put into the response. *)
Definition response_token (slot : option string) (r : Response) : Response :=
  match slot with
  | Some token => set_header "www-authenticate" token r
  | None => r
  end.

(** ** [try_extract_gssapi] *)

Record GssConfig : Type := MkGss {
  feature_gssapi : bool;
  gss_cred : option GssCred;
  gssapi_require_crypto : bool
}.

Variable b64_decode : string -> option bytes.
Variable b64_encode : bytes -> string.

Definition MAX_TOKEN_BYTES : Z := 131072.

Definition gssapi_auth (principal : string) : AuthResult := MkAuth principal Gssapi None None [] [].

(** The slot of the response token with the result. *)
Definition negotiated (r : outcome NegotiateSuccess NegotiateError)
  : option string * outcome AuthResult Response :=
  match r with
  | Ok (principal, out_token) =>
      (if bool_decide (out_token = []) then None
       else header_value ("Negotiate " +:+ b64_encode out_token),
       Ok (gssapi_auth principal))
  | Err (Continue out_token) =>
      (None,
       Err (match header_value ("Negotiate " +:+ b64_encode out_token) with
            | Some hv => set_header "www-authenticate" hv (text_response 401 EmptyString)
            | None => text_response 401 EmptyString
            end))
  | Err (Failed _) => (None, Err (text_response 403 "GSSAPI authentication failed"))
  | Panic => (None, Err (MkResponse 500 ∅ []))
  end.

Definition try_extract_gssapi (g : GssConfig) (header : option string)
    (channel_binding : option bytes) : option (option string * outcome AuthResult Response) :=
  match header with
  | None => None
  | Some auth_header =>
      match strip_prefix "Negotiate " auth_header with
      | None => None
      | Some token_b64 =>
          Some match gss_cred g with
          | None => (None, Err (text_response 401 "GSSAPI is not configured on this server"))
          | Some cred =>
              if negb (feature_gssapi g) && gssapi_require_crypto g then
                (None, Err (text_response 403 ("GSSAPI authentication requires the `gssapi` feature; "
                              +:+ "structural-only parsing is disabled by default")))
              else
                match b64_decode token_b64 with
                | None => (None, Err (text_response 400 "malformed Negotiate token encoding"))
                | Some token_bytes =>
                    if MAX_TOKEN_BYTES <? len token_bytes then
                      (None, Err (text_response 400 "Negotiate token exceeds size limit"))
                    else if gssapi_require_crypto g && bool_decide (channel_binding = None) then
                      (None, Err (text_response 403 "GSSAPI requires TLS channel binding"))
                    else
                      negotiated (negotiate_accept (feature_gssapi g) cred token_bytes channel_binding
                                    (gssapi_require_crypto g))
                end
          end
      end
  end.
End Gss.

(** ** The server's end point *)

(** RFC 5929: the hash of the serving certificate. *)
Definition end_point_hash (o : oid) : option string :=
  let one_of l := existsb (fun x => bool_decide (o = x)) l in
  if one_of [[1; 2; 840; 113549; 1; 1; 12]; [1; 2; 840; 10045; 4; 3; 3]] then Some "sha384"
  else if one_of [[1; 2; 840; 113549; 1; 1; 13]; [1; 2; 840; 10045; 4; 3; 4]] then Some "sha512"
  else if one_of [[1; 2; 840; 113549; 1; 1; 4]; [1; 2; 840; 113549; 1; 1; 5];
                  [1; 2; 840; 113549; 1; 1; 11]; [1; 2; 840; 10045; 4; 1];
                  [1; 2; 840; 10045; 4; 3; 2]] then Some "sha256"
  else None.

Section EndPoint.
Context `{OcspLib}.
Variable cert_signature_algorithm : Cert -> oid.

Definition server_end_point (der : bytes) : outcome bytes string :=
  let? cert := of_lib id (cert_from_der der) in
  let o := cert_signature_algorithm cert in
  let? hash := ok_or (end_point_hash o)
    ("tls-server-end-point unsupported certificate signature algorithm " +:+ oid_to_string o) in
  of_lib id (hash_data hash der).
End EndPoint.

(** ** [AuthResult] *)

Definition anonymous : AuthResult := MkAuth EmptyString NoAuth None None [] [].
Definition CMC_RA_EKU_OID : string := "1.3.6.1.5.5.7.3.28".
Definition has_cmc_ra_eku (a : AuthResult) : bool :=
  existsb (String.eqb CMC_RA_EKU_OID) (extended_key_usage a).

(** ** The extractors *)

(** What they read of a request: the extensions the TLS listener put there,
    the [Authorization] header if it is text, the path's label, and the
    label an extractor before them resolved. *)
Record AuthParts : Type := MkParts {
  peer_certificate : option bytes;
  channel_binding : option bytes;
  authorization : option string;
  path_label : option string;
  resolved_label : option LabelExtractor
}.

(** What a request changes: the pool a label selects its CA from, the
    one-time passwords, lockouts and audit trail, the label kept with the request, the
    Negotiate token of its response. *)
Record AuthEffects : Type := MkEffects {
  pool_after : option CaPool;
  otp_after : OtpApp;
  label_after : option LabelExtractor;
  negotiate_out : option string
}.

Section Extract.
Context `{CrlLib} `{Decoder} `{GssLib}.
Variable digest : option bytes -> bytes -> string.
Variable json_object : list (string * string) -> string.
Variable debug : string -> string.
Variable b64_decode : string -> option bytes.
Variable b64_encode : bytes -> string.
Variable sha256_hex : bytes -> string.
(** the checks of the client certificate *)
Variable mtls : option bytes -> outcome (option AuthResult) string.

(** [LabelExtractor::from_request_parts] *)
Definition extract_label (app : AppConfig) (pool : option CaPool) (parts : AuthParts)
  : option CaPool * outcome LabelExtractor Response :=
  match resolved_label parts with
  | Some label => (pool, Ok label)
  | None =>
      let (pool, r) := resolve debug app pool (path_label parts) in
      (pool, map_err error_response r)
  end.

(** The methods of the label, if it is configured, and none of which is every
    one. *)
Definition permits (app : AppConfig) (label : LabelExtractor) (method : EstAuthMethod) : bool :=
  match find_label app (Labels.label label) with
  | None => true
  | Some l =>
      bool_decide (label_auth_methods l = []) ||
      existsb (fun m => bool_decide (m = method)) (label_auth_methods l)
  end.

Definition NO_CREDENTIALS : Response := error_response (EAuth "no valid credentials provided").

(** The last method. *)
Definition gssapi_arm (app : AppConfig) (g : GssConfig) (l : LabelExtractor) (parts : AuthParts)
  : option string * outcome AuthResult Response :=
  if permits app l AGssapi then
    match try_extract_gssapi b64_decode b64_encode g (authorization parts) (channel_binding parts) with
    | Some r => r
    | None => (None, Err NO_CREDENTIALS)
    end
  else (None, Err NO_CREDENTIALS).

Definition otp_arm (app : AppConfig) (g : GssConfig) (otp : OtpApp) (rd : Readings)
    (l : LabelExtractor) (parts : AuthParts)
  : OtpApp * (option string * outcome AuthResult Response) :=
  if permits app l AOtp then
    match try_extract_otp digest json_object b64_decode sha256_hex otp rd (authorization parts) with
    | (otp, Some r) => (otp, (None, map_err otp_response r))
    | (otp, None) => (otp, gssapi_arm app g l parts)
    end
  else (otp, gssapi_arm app g l parts).

Definition est_auth (app : AppConfig) (g : GssConfig) (pool : option CaPool) (otp : OtpApp)
    (rd : Readings) (parts : AuthParts) : AuthEffects * outcome AuthResult Response :=
  let (pool, r) := extract_label app pool parts in
  match r with
  | Err e => (MkEffects pool otp (resolved_label parts) None, Err e)
  | Panic => (MkEffects pool otp (resolved_label parts) None, Panic)
  | Ok l =>
      let others :=
        let '(otp, (slot, r)) := otp_arm app g otp rd l parts in
        (MkEffects pool otp (Some l) slot, r) in
      if permits app l AMtls || permits app l ACertificate then
        match mtls (peer_certificate parts) with
        | Ok (Some auth) => (MkEffects pool otp (Some l) None, Ok auth)
        | Panic => (MkEffects pool otp (Some l) None, Panic)
        | _ => others
        end
      else others
  end.

Definition optional_auth (parts : AuthParts) : outcome AuthResult string :=
  match mtls (peer_certificate parts) with
  | Ok (Some auth) => Ok auth
  | Panic => Panic
  | _ => Ok anonymous
  end.
End Extract.
