(* ===== verification/EstAuthSpec.v ===== *)
(** * Who is authenticated

    Of EstAuth.v: what stands behind each method of an authenticated request,
    and, with Revocation.v and Enroll.v, what a certificate that a client
    renewed over TLS was issued on. *)
From S2P Require Import Prelude Words Text Errors Calendar X509 HaPool FailureTracker BasicOtp Der DerReader Transfer Ocsp OcspSpec Revocation RevocationSpec Labels Enroll EnrollSpec EstAuth ReaderExample ExampleLibs IssuanceSpec AuditSpec.
Open Scope Z_scope.

(** The methods of a label's list that a way to authenticate needs. *)
Definition method_permitted (app : AppConfig) (l : LabelExtractor) (m : AuthMethod) : bool :=
  match m with
  | Mtls => permits app l AMtls || permits app l ACertificate
  | Otp => permits app l AOtp
  | Gssapi => permits app l AGssapi
  | Cms | NoAuth => false
  end.

Section GssSound.
Context `{GssLib}.
Variable b64_decode : string -> option bytes.
Variable b64_encode : bytes -> string.

(** A Kerberos principal: with cryptographic verification, of a complete
    context that is bound to the TLS channel; without it, only a service
    name, marked as such. *)
Definition gss_principal (g : GssConfig) (cred : GssCred) (token : bytes) (binding : option bytes)
    (principal : string) : Prop :=
  if gssapi_require_crypto g then
    feature_gssapi g = true /\
    exists b flags out, binding = Some b /\ b <> [] /\
      gss_step cred token (Some b) = inl (Complete (inl flags) (inl principal) out) /\
      Z.land flags CHANNEL_BOUND <> 0
  else exists name, principal = "krb5-sname:" +:+ name.

Lemma channel_binding_Ok b flags :
  require_negotiated_channel_binding b flags = Ok tt ->
  exists x, b = Some x /\ x <> [] /\ Z.land flags CHANNEL_BOUND <> 0.
Proof.
  unfold require_negotiated_channel_binding. destruct (_ || _) eqn:E; [done|]. intros _.
  apply orb_false_iff in E as [Eb Ef]. apply Z.eqb_neq in Ef. destruct b as [x|]; [|done].
  apply bool_decide_eq_false in Eb. by exists x.
Qed.

Lemma verify_gssapi_Ok cred token binding principal out :
  verify_gssapi_token cred token binding = Ok (principal, out) ->
  exists b flags o, binding = Some b /\ b <> [] /\
    gss_step cred token (Some b) = inl (Complete (inl flags) (inl principal) o) /\
    Z.land flags CHANNEL_BOUND <> 0.
Proof.
  unfold verify_gssapi_token. intros E. inv_ok E. apply of_lib_Ok in H0. destruct t as [|flags name o|o]; [done| |].
  - do 3 inv_ok E. apply of_lib_Ok in H1, H3. apply map_err_Ok in H2. destruct t0.
    apply channel_binding_Ok in H2 as (b & -> & Hb & Hf). injection E as <- <-. subst.
    by exists b, t, o.
  - by case_bool_decide.
Qed.

(** Every way to a structural principal ends in an AP-REQ's service name. *)
Lemma ap_req_sname b p : try_extract_principal_from_ap_req b = Some p ->
  exists n, p = "krb5-sname:" +:+ n.
Proof. unfold try_extract_principal_from_ap_req. case_match; [|done]. intros [= <-]. by eexists. Qed.

Lemma gss_token_sname b p : try_extract_principal_from_gss_token b = Some p ->
  exists n, p = "krb5-sname:" +:+ n.
Proof.
  unfold try_extract_principal_from_gss_token. destruct (parse_initial_context_token b) as [[[? ?] ?]|]; [|done].
  case_match; [done|]. apply ap_req_sname.
Qed.

Definition sname_only (r : outcome (option string) unit) : Prop :=
  forall p, r = Ok (Some p) -> exists n, p = "krb5-sname:" +:+ n.
Lemma or_try_sname a b : sname_only a -> sname_only b -> sname_only (or_try a b).
Proof. intros Ha Hb p. destruct a as [[s|]|e|]; simpl; [apply Ha|apply Hb|done..]. Qed.

Lemma negotiate_accept_structural_Ok token p out :
  negotiate_accept_structural token = Ok (p, out) -> exists n, p = "krb5-sname:" +:+ n.
Proof.
  unfold negotiate_accept_structural. set (r := or_try _ _). assert (Hr : sname_only r).
  { apply or_try_sname; [intros q [= Hq]; by eapply gss_token_sname|].
    apply or_try_sname; [|intros q [= Hq]; by eapply ap_req_sname].
    unfold envelope_principal. destruct (parse_initial_context_token token) as [[[o t] inner]|]; [|done].
    apply or_try_sname.
    - case_bool_decide; [|done]. unfold spnego_principal. intros q.
      destruct (extract_spnego_mech_token inner); [|done..]. intros [= Hq]. by eapply gss_token_sname.
    - intros q [= Hq]. case_bool_decide; [|done]. by eapply ap_req_sname. }
  destruct r as [[q|]|e|]; [|done..]. intros [= <- <-]. by apply Hr.
Qed.

Lemma try_extract_gssapi_Ok g header binding slot a :
  try_extract_gssapi b64_decode b64_encode g header binding = Some (slot, Ok a) ->
  exists cred s token principal, gss_cred g = Some cred /\ header = Some ("Negotiate " +:+ s) /\
    b64_decode s = Some token /\ len token <= MAX_TOKEN_BYTES /\ a = gssapi_auth principal /\
    gss_principal g cred token binding principal.
Proof.
  unfold try_extract_gssapi. destruct header as [h|]; [|done].
  destruct (strip_prefix "Negotiate " h) as [s|] eqn:Eh; [|done]. apply strip_prefix_Some in Eh as ->.
  destruct (gss_cred g) as [cred|] eqn:Ecred; [|done].
  destruct (negb (feature_gssapi g) && gssapi_require_crypto g) eqn:Ef; [done|].
  destruct (b64_decode s) as [token|] eqn:Eb; [|done].
  destruct (Z.ltb_spec MAX_TOKEN_BYTES (len token)); [done|].
  destruct (_ && bool_decide _) eqn:Ec; [done|]. intros E. injection E as E.
  destruct (negotiate_accept _ cred token binding _) as [[p out]|[]|] eqn:En; [|done..].
  cbn [negotiated] in E. injection E as _ <-. exists cred, s, token, p. split_and!; try done.
  unfold gss_principal. unfold negotiate_accept in En.
  destruct (gssapi_require_crypto g).
  - destruct (feature_gssapi g); [|done]. cbn [andb] in En. apply verify_gssapi_Ok in En.
    split; [done|]. destruct En as (b & flags & o & ? & ? & ? & ?). by exists b, flags, o.
  - rewrite andb_false_r in En. by eapply negotiate_accept_structural_Ok.
Qed.
End GssSound.

(** ** The client certificate *)

Section MtlsSound.
Context `{HL : CrlLib} `{HD : Decoder}.
Variable ipv6_to_string : list Z -> string.
Variable find_issuer : bytes -> outcome bytes string.
Variable fetch : string -> Fetched.
Variable crl_now : string -> Z.
Variable basic_response_from_der : bytes -> BasicResponse + string.
Variable sha256 : bytes -> bytes.
Variable http : string -> bytes -> HttpReply.
Variable config : OcspConfig.
Variable rd : OcspReadings.

Abbreviation check := (check_revocation find_issuer fetch crl_now basic_response_from_der sha256 http).
Abbreviation mtls :=
  (try_extract_mtls ipv6_to_string find_issuer fetch crl_now basic_response_from_der sha256 http config rd).

(** The identity of a certificate: its first name, else its subject. *)
Definition mtls_auth (der : bytes) : AuthResult :=
  MkAuth (default "unknown" (match first_of (extract_subject_alt_names ipv6_to_string der) with
                             | Some s => Some s
                             | None => extract_subject_dn der
                             end))
    Mtls (Some der) (extract_subject_dn der) (extract_subject_alt_names ipv6_to_string der)
    (extract_extended_key_usage der).

Lemma try_extract_mtls_iff peer a :
  mtls peer = Ok (Some a) <->
  exists der, peer = Some der /\ check config rd der = Ok tt /\ a = mtls_auth der.
Proof.
  unfold try_extract_mtls. destruct peer as [der|].
  2: { split; [done|]. by intros (d & ? & _). }
  split.
  - destruct (check config rd der) as [[]|e|] eqn:E; [|done..]. intros [= <-]. by exists der.
  - intros (d & [= <-] & E & ->). by rewrite E.
Qed.

(** ** The extractor *)

Context `{HG : GssLib}.
Variable digest : option bytes -> bytes -> string.
Variable json_object : list (string * string) -> string.
Variable debug : string -> string.
Variable b64_decode : string -> option bytes.
Variable b64_encode : bytes -> string.
Variable sha256_hex : bytes -> string.

Abbreviation est_auth := (est_auth digest json_object debug b64_decode b64_encode sha256_hex mtls).

(** What an authenticated request showed. *)
Definition authenticated (g : GssConfig) (otp : OtpApp) (rds : Readings) (parts : AuthParts)
    (e : AuthEffects) (a : AuthResult) : Prop :=
  match auth_method a with
  | Mtls => exists der, peer_certificate parts = Some der /\ check config rd der = Ok tt /\
      a = mtls_auth der /\ otp_after e = otp
  | Otp => exists s pw, authorization parts = Some ("Basic " +:+ s) /\
      credentials_of b64_decode s (auth_identity a) pw /\
      otp_good sha256_hex otp rds (auth_identity a) pw /\ a = otp_auth (auth_identity a) /\
      otp_tokens (otp_after e) =
        (consume (auth_identity a) (hash_of sha256_hex pw) (now_validate rds) (otp_tokens otp)).1
  | Gssapi => exists cred s token, gss_cred g = Some cred /\
      authorization parts = Some ("Negotiate " +:+ s) /\ b64_decode s = Some token /\
      a = gssapi_auth (auth_identity a) /\
      gss_principal g cred token (channel_binding parts) (auth_identity a) /\
      otp_tokens (otp_after e) = otp_tokens otp
  | Cms | NoAuth => False
  end.

Lemma gssapi_arm_Ok app g l parts slot a :
  gssapi_arm b64_decode b64_encode app g l parts = (slot, Ok a) ->
  permits app l AGssapi = true /\
  try_extract_gssapi b64_decode b64_encode g (authorization parts) (channel_binding parts) = Some (slot, Ok a).
Proof.
  unfold gssapi_arm. destruct (permits app l AGssapi); [|done].
  destruct (try_extract_gssapi _ _ _ _ _) as [[s r]|]; [|done]. by intros [= -> ->].
Qed.

Lemma otp_arm_Ok app g otp rds l parts otp' slot a :
  lookup_table rds <> Panic ->
  otp_arm digest json_object b64_decode b64_encode sha256_hex app g otp rds l parts = (otp', (slot, Ok a)) ->
  forall e, otp_after e = otp' ->
  method_permitted app l (auth_method a) = true /\ authenticated g otp rds parts e a.
Proof.
  intros Hnp E e He. unfold otp_arm in E.
  assert (Hgss : forall o, otp_tokens o = otp_tokens otp ->
    (o, gssapi_arm b64_decode b64_encode app g l parts) = (otp', (slot, Ok a)) ->
    method_permitted app l (auth_method a) = true /\ authenticated g otp rds parts e a).
  { intros o Ho [= <- Eg]. apply gssapi_arm_Ok in Eg as [Hp Eg].
    apply try_extract_gssapi_Ok in Eg as (cred & s & token & p & ? & ? & ? & _ & -> & ?).
    split; [done|]. exists cred, s, token. cbn [auth_identity gssapi_auth]. rewrite He. done. }
  destruct (permits app l AOtp) eqn:Hp; [|by apply Hgss in E].
  pose proof (try_extract_otp_cases digest json_object b64_decode sha256_hex otp rds (authorization parts) Hnp) as Hspec.
  destruct (try_extract_otp _ _ _ _ _ _ _) as [o [r|]]; cbn [fst snd] in Hspec.
  - destruct r as [a'|x|]; cbn [map_err] in E; [|done..]. injection E as -> <- ->.
    destruct Hspec as (_ & Hok & _ & Hcons & _). destruct (proj1 (Hok a) eq_refl) as (s & en & pw & Hh & -> & Hc & Hg).
    split; [done|]. exists s, pw. split_and!; try done. rewrite He. cbn [auth_identity otp_auth].
    exact (Hcons _ s pw eq_refl Hh Hc).
  - apply Hgss in E; [done|]. destruct Hspec as (_ & _ & _ & _ & Hsame). by apply Hsame.
Qed.

Lemma est_auth_Ok app g pool otp rds parts e a :
  lookup_table rds <> Panic ->
  est_auth app g pool otp rds parts = (e, Ok a) ->
  exists l, label_after e = Some l /\
    (extract_label debug app pool parts).2 = Ok l /\
    method_permitted app l (auth_method a) = true /\ authenticated g otp rds parts e a.
Proof.
  intros Hnp E. unfold EstAuth.est_auth in E. destruct (extract_label debug app pool parts) as [pool' [l|x|]];
    [|done..]. exists l. cbn [snd].
  assert (Hothers : (let '(otp, (slot, r)) := otp_arm digest json_object b64_decode b64_encode sha256_hex app g otp rds l parts in
      (MkEffects pool' otp (Some l) slot, r)) = (e, Ok a) ->
    label_after e = Some l /\ @Ok _ Response l = Ok l /\ method_permitted app l (auth_method a) = true /\
    authenticated g otp rds parts e a).
  { destruct (otp_arm _ _ _ _ _ _ _ _ _ _ _) as [o [slot r]] eqn:Eo. intros [= <- ->].
    destruct (otp_arm_Ok app g otp rds l parts o slot a Hnp Eo (MkEffects pool' o (Some l) slot) eq_refl).
    done. }
  destruct (permits app l AMtls || permits app l ACertificate) eqn:Hp; [|by apply Hothers].
  destruct (mtls (peer_certificate parts)) as [[a'|]|x|] eqn:Em; [|by apply Hothers|by apply Hothers|done].
  injection E as <- ->. apply try_extract_mtls_iff in Em as (der & Hd & Hc & ->).
  split_and!; try done. by exists der.
Qed.

(** C8: who is authenticated.  A request passes the extractor only by a
    method its label permits, and with what that method asks for: a client
    certificate that passes the revocation check, whose names are the
    result's; a good one-time password in a well-formed Basic header, one
    use of which is consumed; or a Kerberos token, which under cryptographic
    verification established a context bound to this TLS channel for that
    principal, and without it never names a client.  Every other method
    leaves the one-time passwords alone. *)
Theorem est_auth_sound app g pool otp rds parts e a :
  lookup_table rds <> Panic ->
  est_auth app g pool otp rds parts = (e, Ok a) ->
  exists l, label_after e = Some l /\
    (extract_label debug app pool parts).2 = Ok l /\
    method_permitted app l (auth_method a) = true /\ authenticated g otp rds parts e a.
Proof. apply est_auth_Ok. Qed.

(** ** From the TLS handshake to the certificate *)

Context `{HC : CmsOids} `{HE : Encoder}.
Variable authz_reason : EnrollAuthz.AuthzError -> string.
Variable to_lowercase : string -> string.
Variable est_encode : bytes -> bytes.
Variable est_decode : bytes -> bytes + string.

Abbreviation post_simplereenroll :=
  (post_simplereenroll authz_reason debug to_lowercase est_encode est_decode digest json_object).
Abbreviation decode := (decode_est_base64 est_decode).

End MtlsSound.

(** ** Examples *)

(** A library that knows one token. *)
#[export] Instance example_gss : GssLib := {
  GssCred := unit;
  gss_step _ token binding :=
    if bool_decide (token = bytes_of_string "ticket") && bool_decide (binding = Some [5])
    then inl (Complete (inl 2050) (inl "dev@REALM") (Some [1]))
    else inl (StepError "bad token");
  parse_initial_context_token _ := None;
  ap_req_principal _ := Some "HTTP/est@REALM";
  KRB5_OID_BYTES := [1];
  TOK_AP_REQ := [1; 0]
}.

Abbreviation example_mtls :=
  (try_extract_mtls (fun _ => EmptyString) example_issuer example_fetch (fun _ => example_clock)
     example_decode (fun b => b) example_http example_ocsp_config OcspSpec.example_readings).
Abbreviation example_est_auth :=
  (est_auth example_digest example_json (fun s => s) (fun s => Some (bytes_of_string s)) string_of_bytes string_of_bytes example_mtls
     EnrollSpec.example_app).
Definition kerberos_parts : AuthParts :=
  MkParts None (Some [5]) (Some "Negotiate ticket"%string) None None.
Definition strict_gss : GssConfig := MkGss true (Some tt) true.

Lemma est_auth_sound_witness : exists e,
  example_est_auth strict_gss None BasicOtp.example_app BasicOtp.example_readings kerberos_parts =
    (e, Ok (gssapi_auth "dev@REALM")) /\
  exists l, label_after e = Some l /\
    method_permitted EnrollSpec.example_app l Gssapi = true /\
    gss_principal strict_gss tt (bytes_of_string "ticket") (Some [5]) "dev@REALM".
Proof.
  assert (E : (example_est_auth strict_gss None BasicOtp.example_app BasicOtp.example_readings
    kerberos_parts).2 = Ok (gssapi_auth "dev@REALM")) by (vm_compute; reflexivity).
  apply answer_of in E as [e E]. exists e. split; [exact E|].
  destruct (est_auth_sound (fun _ => EmptyString) example_issuer example_fetch (fun _ => example_clock)
    example_decode (fun b => b) example_http example_ocsp_config OcspSpec.example_readings example_digest
    example_json (fun s => s) (fun s => Some (bytes_of_string s)) string_of_bytes string_of_bytes EnrollSpec.example_app strict_gss None
    BasicOtp.example_app BasicOtp.example_readings kerberos_parts e (gssapi_auth "dev@REALM")
    ltac:(discriminate) E) as (l & Hl & _ & Hp & (cred & s & token & _ & [= <-] & [= <-] & _ & Hg & _)).
  exists l. split; [exact Hl|]. split; [exact Hp|]. destruct cred. exact Hg.
Defined.

(** Without the channel binding, and without cryptography. *)
Example unbound_is_refused :
  (example_est_auth strict_gss None BasicOtp.example_app BasicOtp.example_readings
     (MkParts None None (Some "Negotiate ticket"%string) None None)).2 =
  Err (text_response 403 "GSSAPI requires TLS channel binding").
Proof. vm_compute. reflexivity. Qed.
Example structural_names_the_service :
  (example_est_auth (MkGss false (Some tt) false) None BasicOtp.example_app BasicOtp.example_readings
     kerberos_parts).2 = Ok (gssapi_auth "krb5-sname:HTTP/est@REALM").
Proof. vm_compute. reflexivity. Qed.

Definition tls_parts : AuthParts := MkParts (Some [48; 65; 9]) None None None (Some example_label).
Definition tls_outside : Outside :=
  MkOutside example_call example_call false None example_now example_inputs
    (fun _ => inl [1]) (fun _ => EmptyString) None
    (check_revocation example_issuer example_fetch (fun _ => example_clock) example_decode (fun b => b)
       example_http example_ocsp_config OcspSpec.example_readings).
Abbreviation example_reenroll :=
  (post_simplereenroll (fun _ => EmptyString) (fun s => s) to_ascii_lowercase (fun b => b) inl
     example_digest example_json EnrollSpec.example_app tls_outside).

