(* ===== verification/Cmp.v ===== *)
(** * CMP over HTTP

    [src/routes/cmp.rs] and [protect_cmp] of [src/ca/protocol.rs]: messages
    of RFC 9810, their protection by a signature or by a shared secret, the
    enrollment, revocation and general requests, and the protected response.
    The ASN.1 structures of the library are records with the fields the
    program reads; their codecs are the interface [CmpLib]. *)
From S2P Require Import Prelude Words Text Errors Calendar X509 Der DerReader Issuance AuditLog Ocsp EstAuth Enroll Labels.
Open Scope Z_scope.

(** ** Message types *)

Inductive CmpMessageType : Type :=
  | Ir | Ip | Cr | Cp | Kur | Kup | Rr | Rp | GenM | GenP | ErrorMsg | CertConf | PkiConf.
#[export] Instance CmpMessageType_eq_dec : EqDecision CmpMessageType.
Proof. solve_decision. Defined.

Definition from_tag (tag : Z) : option CmpMessageType :=
  match tag with
  | 0 => Some Ir | 1 => Some Ip | 2 => Some Cr | 3 => Some Cp
  | 7 => Some Kur | 8 => Some Kup | 11 => Some Rr | 12 => Some Rp
  | 21 => Some GenM | 22 => Some GenP | 23 => Some ErrorMsg
  | 24 => Some CertConf | 25 => Some PkiConf
  | _ => None
  end.

Definition is_request (t : CmpMessageType) : bool :=
  match t with Ir | Cr | Kur | Rr | GenM | CertConf => true | _ => false end.

Definition expected_response (t : CmpMessageType) : option CmpMessageType :=
  match t with
  | Ir => Some Ip | Cr => Some Cp | Kur => Some Kup | Rr => Some Rp
  | GenM => Some GenP | CertConf => Some PkiConf
  | _ => None
  end.

Definition message_type_to_string (t : CmpMessageType) : string :=
  match t with
  | Ir => "ir" | Ip => "ip" | Cr => "cr" | Cp => "cp" | Kur => "kur" | Kup => "kup"
  | Rr => "rr" | Rp => "rp" | GenM => "genm" | GenP => "genp" | ErrorMsg => "error"
  | CertConf => "certConf" | PkiConf => "pkiConf"
  end.

(** ** The structures of the library *)

(** A [Name] by its encoding, which can fail. *)
Inductive GeneralName : Type :=
  | DirectoryName (name_der : bytes + string)
  | Rfc822Name (s : string)
  | DNSName (s : string)
  | UniformResourceIdentifier (s : string)
  | OtherName (raw : bytes).

(** An [AlgorithmIdentifier]: its identifier, its encoding, and that of its
    parameters. *)
Record ProtectionAlg : Type := MkAlg {
  alg_oid : oid;
  alg_der : bytes + string;
  alg_parameters : option (bytes + string)
}.

Record PkiHeader : Type := MkHeader {
  pvno : Z;
  h_sender : GeneralName;
  h_recipient : GeneralName;
  message_time : option bytes;
  protection_alg : option ProtectionAlg;
  sender_kid : option bytes;
  recip_kid : option bytes;
  h_transaction_id : option bytes;
  h_sender_nonce : option bytes;
  h_recip_nonce : option bytes;
  free_text : option bytes;
  general_info : option bytes
}.

Inductive PkiBody : Type :=
  | BIr (raw : bytes) | BIp (raw : bytes) | BCr (raw : bytes) | BCp (raw : bytes)
  | BP10cr (raw : bytes) | BKur (raw : bytes) | BKup (raw : bytes) | BRr (raw : bytes)
  | BRp (raw : bytes) | BGenm (raw : bytes) | BGenp (raw : bytes) | BError (raw : bytes)
  | BCertConf (raw : bytes) | BPkiconf
  | BOther (raw : bytes).

(** [protection]: the bytes of the BIT STRING. *)
Record PkiMessage : Type := MkMessage {
  m_header : PkiHeader;
  m_body : PkiBody;
  m_protection : option bytes;
  extra_certs : option (list bytes)
}.

(** [iteration_count]: [None] if it does not fit an [i64]. *)
Record PBMParameter : Type := MkPbm {
  pbm_salt : bytes;
  pbm_owf : oid;
  iteration_count : option Z;
  pbm_mac : oid
}.

Record CertResponse : Type := MkCertResponse {
  cert_req_id : bytes;
  response_pki_status : Z;
  issued_certificate : option bytes
}.

Class CmpLib `{X509Lib} : Type := {
  message_from_der : bytes -> PkiMessage + string;
  message_to_der : PkiMessage -> bytes + string;
  header_to_der : PkiHeader -> bytes + string;
  body_to_der : PkiBody -> bytes + string;
  pbm_from_der : bytes -> PBMParameter + string;
  spec_directory_name : bytes -> GeneralName + string;
  spec_rfc822 : string -> GeneralName + string;
  (** a [DirectoryName] of a parsed [Name] *)
  directory_name : bytes -> GeneralName + string;
  algorithm_from_der : bytes -> ProtectionAlg + string;
  signing_algorithm_der : Cert -> string -> option bytes;
  spki_verify : bytes -> bytes -> bytes -> bytes -> unit + string;
  decode_bit_string : bytes -> bytes + string;
  (** each request with its encoded identifier *)
  cert_req_messages : bytes -> list (bytes * CertReqMsg) + string;
  cert_rep_to_der : list CertResponse -> bytes + string;
  (** the raw templates of the revocation details *)
  rev_details : bytes -> list bytes + string;
  template_serial : bytes -> option bytes + string;
  rev_rep_to_der : list Z -> bytes + string;
  gen_msg : bytes -> list oid + string;
  null_to_der : bytes + string
}.

(** ** Requests *)

Inductive CmpProtectionType : Type :=
  | SignatureProtection (algorithm : string) (cert_der : bytes)
  | MacProtection (algorithm : string).

Record CmpRequest : Type := MkRequest {
  message_type : CmpMessageType;
  transaction_id : bytes;
  sender_nonce : bytes;
  sender : string;
  protection : CmpProtectionType;
  body_der : bytes
}.

(** [CmpConfig]; of a secret only its reference is read. *)
Record CmpConfig : Type := MkCmpConfig {
  cmp_enabled : bool;
  allow_ir : bool;
  allow_cr : bool;
  allow_kur : bool;
  allow_rr : bool;
  allow_mac_protection : bool;
  mac_secrets : list string
}.

(** The hash functions a shared secret can be used with. *)
Inductive OwfKind : Type := Sha256 | Sha384 | Sha512.

(** What a call reads from outside. *)
Record CmpOutside `{X509Lib} : Type := MkCmpOutside {
  now_signer : Z;
  now_ca_check : bytes -> Z;
  signer_lookup_error : option string;
  cmp_revocation : bytes -> outcome unit string;
  cmp_admission : AuditCall;
  cmp_profile_now : Z;
  cmp_inputs : IssueInputs Coins;
  cmp_read_file : string -> bytes + string;
  cmp_utf8_text : bytes -> string;
  cmp_insert : InsertFaults;
  persist_event : AuditCall;
  owner_lookup_error : nat -> option string;
  update_error : nat -> option string;
  revocation_event : nat -> AuditCall;
  server_nonce : bytes;
  protect_coins : Coins;
  success_event : AuditCall
}.

Arguments MkCmpOutside {_}.

Section Cmp.
Context `{HL : OcspLib} `{HM : !CmpLib} `{HD : Decoder} `{HE : Encoder}.

Definition format_general_name (gn : GeneralName) : string :=
  match gn with
  | DirectoryName name => match name with inl der => format_dn der | inr _ => "<invalid DN>" end
  | Rfc822Name s | DNSName s | UniformResourceIdentifier s => s
  | OtherName _ => "<other GeneralName>"
  end.

(** ** [parse_cmp_message] *)

(** The type and the content of a body. *)
Definition body_content (b : PkiBody) : option (CmpMessageType * bytes) :=
  match b with
  | BIr raw => Some (Ir, raw) | BIp raw => Some (Ip, raw)
  | BCr raw => Some (Cr, raw) | BCp raw => Some (Cp, raw)
  | BP10cr raw => Some (Cr, raw)
  | BKur raw => Some (Kur, raw) | BKup raw => Some (Kup, raw)
  | BRr raw => Some (Rr, raw) | BRp raw => Some (Rp, raw)
  | BGenm raw => Some (GenM, raw) | BGenp raw => Some (GenP, raw)
  | BError raw => Some (ErrorMsg, raw)
  | BCertConf raw => Some (CertConf, raw)
  | BPkiconf => Some (PkiConf, [])
  | BOther _ => None
  end.

Definition is_mac_algorithm (s : string) : bool :=
  contains_str "1.2.840.113533.7.66.13" s || contains_str "1.2.840.113533.7.66.30" s ||
  contains_str "1.3.6.1.5.5.7.15.10" s.

Definition first_cert (m : PkiMessage) : bytes :=
  match extra_certs m with Some (c :: _) => c | _ => [] end.

Definition protection_of (m : PkiMessage) : outcome CmpProtectionType KipukaError :=
  match m_protection m with
  | None => Err (EAuth "CMP message has no protection")
  | Some _ =>
      match protection_alg (m_header m) with
      | None =>
          Err (EBadRequest "CMP message has protection bits but no protectionAlg in header")
      | Some alg =>
          let alg_oid_str := oid_to_string (alg_oid alg) in
          if is_mac_algorithm alg_oid_str then Ok (MacProtection alg_oid_str)
          else Ok (SignatureProtection alg_oid_str (first_cert m))
      end
  end.

Definition parse_cmp_message (der : bytes) : outcome CmpRequest KipukaError :=
  if bool_decide (der = []) then Err (EBadRequest "empty CMP message")
  else if Z.of_nat (length der) <? 50 then
    Err (EBadRequest "CMP message is too short to be a valid PKIMessage")
  else if negb (bool_decide (head der = Some 48)) then
    Err (EBadRequest "CMP message does not start with a SEQUENCE tag")
  else
    let? m := of_lib (fun e => EBadRequest ("failed to parse CMP PKIMessage: " +:+ e))
      (message_from_der der) in
    let h := m_header m in
    let? (t, body) := ok_or (body_content (m_body m)) (EBadRequest "unsupported CMP PKIBody variant") in
    let? p := protection_of m in
    Ok (MkRequest t (default [] (h_transaction_id h)) (default [] (h_sender_nonce h))
          (format_general_name (h_sender h)) p body).

(** ** [build_cmp_response] *)

Definition response_body (t : CmpMessageType) (body : bytes) : outcome PkiBody KipukaError :=
  match t with
  | Ip => Ok (BIp body) | Cp => Ok (BCp body) | Kup => Ok (BKup body) | Rp => Ok (BRp body)
  | GenP => Ok (BGenp body) | ErrorMsg => Ok (BError body) | PkiConf => Ok BPkiconf
  | _ => Err (EInternal ("cannot build CMP response for body type: " +:+ message_type_to_string t))
  end.

Definition build_cmp_response (req : CmpRequest) (response_type : CmpMessageType) (body : bytes)
    (ca_subject_der : option bytes) (nonce : bytes) : outcome bytes KipukaError :=
  if bool_decide (transaction_id req = []) then
    Err (EBadRequest "cannot build CMP response: empty transaction ID")
  else if bool_decide (body = []) then
    Err (EBadRequest "cannot build CMP response: empty body")
  else
    let? pki_body := response_body response_type body in
    let? sender_gn := of_lib (fun e => EInternal ("failed to encode CA sender name: " +:+ e))
      (match ca_subject_der with
       | Some der => spec_directory_name der
       | None => spec_rfc822 "ca@kipuka.dev"
       end) in
    let? recipient_gn := of_lib (fun e => EInternal ("failed to encode recipient name: " +:+ e))
      (spec_rfc822 (if is_empty (sender req) then "unknown@kipuka.dev" else sender req)) in
    let header := MkHeader 2 sender_gn recipient_gn None None None None (Some (transaction_id req))
      (Some nonce) (Some (sender_nonce req)) None None in
    of_lib (fun e => EInternal ("failed to DER-encode CMP response: " +:+ e))
      (message_to_der (MkMessage header pki_body None None)).

(** The SEQUENCE of header and body that a protection covers. *)
Definition protected_der (m : PkiMessage) : outcome bytes string :=
  let? enc := of_lib id (start_constructed (universal_constructed 16) encoder_new) in
  let? h := of_lib id (header_to_der (m_header m)) in
  let? b := of_lib id (body_to_der (m_body m)) in
  let? enc := of_lib id (end_constructed (write_bytes b (write_bytes h enc))) in
  of_lib id (finish enc).

Definition protected_part (m : PkiMessage) : outcome bytes KipukaError :=
  map_err (fun e => EBadRequest ("CMP ProtectedPart: " +:+ e)) (protected_der m).

(** ** The signer *)

(** What a certificate's key usage says of signatures, if it has one. *)
Definition check_key_usage (cert : Cert) : outcome unit KipukaError :=
  match cert_extensions cert ≫= fun e => find_extension_value e KEY_USAGE with
  | None => Ok tt
  | Some usage =>
      let? bits := of_lib (fun e => EAuth ("invalid CMP signer key usage: " +:+ e))
        (decode_bit_string usage) in
      match bits with
      | byte :: _ =>
          if Z.land byte 128 =? 0 then Err (EAuth "CMP signer key usage forbids digital signatures")
          else Ok tt
      | [] => Err (EAuth "CMP signer key usage forbids digital signatures")
      end
  end.

Definition trusted_by (now : bytes -> Z) (cert_der : bytes) (ca : CaState) : bool :=
  match valid_now (now (ca_cert_der ca)) (ca_cert_der ca) with
  | Ok _ => bool_decide (ca_cert_der ca = cert_der) || issued_by cert_der (ca_cert_der ca)
  | _ => false
  end.

Definition validate_cmp_signer (app : AppConfig) (o : CmpOutside) (s : AppState) (cert_der : bytes)
  : outcome unit KipukaError :=
  let? _ := map_err EAuth (valid_now (now_signer o) cert_der) in
  let? cert := of_lib EAuth (cert_from_der cert_der) in
  let? _ := check_key_usage cert in
  if negb (existsb (trusted_by (now_ca_check o) cert_der) (map snd (map_to_list (cas app)))) then
    Err (EAuth "CMP signer does not chain to a valid configured CA")
  else
    match signer_lookup_error o with
    | Some e => Err (EDb ("CMP signer revocation lookup failed: " +:+ e))
    | None =>
        if existsb (fun r => bool_decide (cr_der r = cert_der) && String.eqb (cr_status r) "revoked")
             (certificates s)
        then Err (EAuth "CMP signer certificate is revoked")
        else map_err EAuth (cmp_revocation o cert_der)
    end.

(** ** Password-based MAC *)

Variable sha2 : OwfKind -> bytes -> bytes.
Variable hmac : OwfKind -> bytes -> bytes -> bytes + string.

(** The identifiers are looked for as parts of their text. *)
Definition owf_kind (owf_oid : string) : option OwfKind :=
  if contains_str "2.16.840.1.101.3.4.2.1" owf_oid then Some Sha256
  else if contains_str "2.16.840.1.101.3.4.2.2" owf_oid then Some Sha384
  else if contains_str "2.16.840.1.101.3.4.2.3" owf_oid then Some Sha512
  else None.

Definition derive_pbm_key (secret salt : bytes) (owf : oid) (iteration_count : Z)
  : outcome bytes KipukaError :=
  let owf_oid := oid_to_string owf in
  let? kind := ok_or (owf_kind owf_oid) (EAuth ("CMP PBM: unsupported OWF algorithm OID: " +:+ owf_oid)) in
  if iteration_count =? 0 then Err (EAuth "CMP PBM: iteration count must be positive")
  else if 100000 <? iteration_count then
    Err (EAuth "CMP PBM: iteration count exceeds maximum (100000)")
  else Ok (Nat.iter (Z.to_nat (iteration_count - 1)) (sha2 kind) (sha2 kind (secret ++ salt))).

Definition mac_kind (mac_oid : string) : option (OwfKind * string) :=
  if contains_str "1.2.840.113549.2.9" mac_oid || contains_str "2.16.840.1.101.3.4.2.1" mac_oid
  then Some (Sha256, "HMAC-SHA256")
  else if contains_str "1.2.840.113549.2.10" mac_oid || contains_str "2.16.840.1.101.3.4.2.2" mac_oid
  then Some (Sha384, "HMAC-SHA384")
  else if contains_str "1.2.840.113549.2.11" mac_oid || contains_str "2.16.840.1.101.3.4.2.3" mac_oid
  then Some (Sha512, "HMAC-SHA512")
  else None.

Definition compute_pbm_hmac (key data : bytes) (mac : oid) : outcome bytes KipukaError :=
  let mac_oid := oid_to_string mac in
  let? (kind, name) := ok_or (mac_kind mac_oid)
    (EAuth ("CMP PBM: unsupported MAC algorithm OID: " +:+ mac_oid)) in
  of_lib (fun e => EInternal (name +:+ " key init failed: " +:+ e)) (hmac kind key data).

(** [as_i64().unwrap_or(1) as u32] *)
Definition pbm_iterations (pbm : PBMParameter) : Z := default 1 (iteration_count pbm) mod 2 ^ 32.

(** ** The protection of a request *)

(** The secrets resolved at start-up, in hexadecimal. *)
Variable resolved_secrets : gmap string string.
Variable hex_decode : string -> bytes + string.

Definition check_mac (config : CmpConfig) (req : CmpRequest) (m : PkiMessage) (protected bits : bytes)
  : outcome unit KipukaError :=
  if negb (allow_mac_protection config) then
    Err (EAuth "MAC-based CMP protection is not allowed by policy")
  else
    let? element := ok_or (protection_alg (m_header m) ≫= alg_parameters)
      (EAuth "CMP MAC protection: protectionAlg has no PBMParameter") in
    let? pbm_bytes := of_lib
      (fun e => EAuth ("CMP MAC protection: failed to encode PBMParameter element: " +:+ e)) element in
    let? pbm := of_lib (fun e => EAuth ("CMP MAC protection: failed to parse PBMParameter: " +:+ e))
      (pbm_from_der pbm_bytes) in
    let? reference := ok_or (List.find (fun r => String.eqb r (sender req)) (mac_secrets config))
      (EAuth ("CMP MAC protection: no shared secret found for reference '" +:+ sender req +:+ "'")) in
    let? resolved_hex := ok_or (resolved_secrets !! reference)
      (EInternal ("CMP MAC secret for '" +:+ reference +:+ "' was not resolved at startup")) in
    let? shared_secret := of_lib
      (fun e => EInternal ("CMP MAC secret for '" +:+ reference +:+ "' has invalid hex encoding: " +:+ e))
      (hex_decode resolved_hex) in
    let? derived_key := derive_pbm_key shared_secret (pbm_salt pbm) (pbm_owf pbm) (pbm_iterations pbm) in
    let? computed_mac := compute_pbm_hmac derived_key protected (pbm_mac pbm) in
    if bool_decide (computed_mac = bits) then Ok tt
    else Err (EAuth "CMP MAC protection verification failed: MAC mismatch").

Definition check_signature (app : AppConfig) (o : CmpOutside) (s : AppState) (cert_der : bytes)
    (protected alg bits : bytes) : outcome unit KipukaError :=
  if bool_decide (cert_der = []) then
    Err (EAuth "CMP signature protection: no signer certificate in extraCerts")
  else
    let? ranges := ok_or (cert_ranges cert_der)
      (EAuth "failed to parse signer certificate structure from extraCerts") in
    let? _ := of_lib (fun e => EAuth ("CMP signature verification failed: " +:+ e))
      (spki_verify ranges.2 protected alg bits) in
    validate_cmp_signer app o s cert_der.

(** The protection algorithm's encoding, empty if there is none. *)
Definition protection_alg_der (m : PkiMessage) : bytes :=
  match protection_alg (m_header m) with
  | Some alg => match alg_der alg with inl der => der | inr _ => [] end
  | None => []
  end.

Definition check_protection (app : AppConfig) (config : CmpConfig) (o : CmpOutside) (s : AppState)
    (req : CmpRequest) (body : bytes) : outcome unit KipukaError :=
  let? m := of_lib (fun e => EBadRequest ("invalid CMP message: " +:+ e)) (message_from_der body) in
  let? protected := protected_part m in
  let bits := default [] (m_protection m) in
  match protection req with
  | SignatureProtection _ cert_der =>
      check_signature app o s cert_der protected (protection_alg_der m) bits
  | MacProtection _ => check_mac config req m protected bits
  end.

(** ** Enrollment *)

Variable digest : option bytes -> bytes -> string.
Variable json_object : list (string * string) -> string.

(** The first CA of the configuration, its state and its key. *)
Definition cmp_issuer (app : AppConfig) (o : CmpOutside)
  : outcome (string * CaState * CaSigningKey) KipukaError :=
  let ca_id := match ca_configs app with c :: _ => cfg_id c | [] => "default" end in
  let? ca := ok_or (get_ca app ca_id) (ECa ("CA '" +:+ ca_id +:+ "' not found")) in
  let? ca_cfg := ok_or (List.find (fun c => String.eqb (cfg_id c) ca_id) (ca_configs app))
    (ECa ("CA config not found for id=" +:+ ca_id)) in
  let? key := Issuance.resolve_signing_key (cmp_utf8_text o) (cmp_read_file o) ca_cfg (hsm app) in
  Ok (ca_id, ca, key).

(** The one request of the message. *)
Definition single_request (req : CmpRequest) (req_type : string)
  : outcome (bytes * CertReqMsg) KipukaError :=
  let? msgs := of_lib
    (fun e => EBadRequest ("failed to parse CMP " +:+ req_type +:+ " CertReqMessages: " +:+ e))
    (cert_req_messages (body_der req)) in
  match msgs with
  | [msg] =>
      let? subject := ok_or (template_subject msg.2)
        (EBadRequest "CRMF CertTemplate missing subject name") in
      let? _ := of_lib (fun e => EBadRequest ("failed to encode CRMF subject: " +:+ e)) subject in
      let? spki := ok_or (template_public_key msg.2)
        (EBadRequest "CRMF CertTemplate missing public key") in
      let? _ := of_lib (fun e => EBadRequest ("failed to encode CRMF SPKI: " +:+ e)) spki in
      Ok msg
  | _ => Err (EBadRequest "CMP endpoint requires exactly one request per message")
  end.

Definition process_enrollment_request (app : AppConfig) (o : CmpOutside) (s : AppState)
    (req : CmpRequest) (req_type : string) : AppState * outcome bytes KipukaError :=
  let issued :=
    let? msg := single_request req req_type in
    let? (ca_id, ca, key) := cmp_issuer app o in
    let p := label_profile ca (cmp_profile_now o) in
    let? r := map_err
      (fun e => ECa ("CMP certificate issuance failed: " +:+ issuance_error_to_string e))
      (issue_crmf_certificate (cmp_inputs o) msg.2 p (ca_cert_der ca) key (ca_hash_algorithm ca)
         (ca_ocsp_url ca) (ca_crl_url ca)) in
    Ok (msg.1, ca_id, profile_name p, r) in
  match issued with
  | Err e => (s, Err e)
  | Panic => (s, Panic)
  | Ok (id, ca_id, profile, r) =>
      match persist_certificate digest json_object s (cmp_insert o) (persist_event o) ca_id profile r with
      | (s, Ok _) =>
          (s, of_lib (fun e => EInternal ("failed to encode CMP CertRepMessage: " +:+ e))
                (cert_rep_to_der [MkCertResponse id 0 (Some (certificate_der r))]))
      | (s, Err e) => (s, Err e)
      | (s, Panic) => (s, Panic)
      end
  end.

(** ** Revocation *)

(** Whether a certificate has the purpose of a registration authority. *)
Definition signer_is_ra (cert : Cert) : bool :=
  match cert_extensions cert ≫= fun e => find_extension_value e EXTENDED_KEY_USAGE with
  | Some eku =>
      existsb (fun o => String.eqb (oid_to_string o) "1.3.6.1.5.5.7.3.28")
        (match decode_oids eku with inl l => l | inr _ => [] end)
  | None => false
  end.

(** The loop over the details: who may revoke.  [i] numbers the lookups. *)
Fixpoint authorize_revocations (o : CmpOutside) (s : AppState) (signer_dn : string) (i : nat)
    (details : list bytes) : outcome unit KipukaError :=
  match details with
  | [] => Ok tt
  | detail :: rest =>
      let? serial := of_lib
        (fun e => EBadRequest ("failed to parse RevDetails CertTemplate for authz: " +:+ e))
        (template_serial detail) in
      let? _ :=
        match serial with
        | None => Ok tt
        | Some serial =>
            let serial_hex := hex_encode serial in
            match owner_lookup_error o i with
            | Some e => Err (ECa ("database error checking revocation authorization: " +:+ e))
            | None =>
                match List.find (fun r => String.eqb (cr_serial r) serial_hex) (certificates s) with
                | Some row =>
                    if negb (String.eqb (cr_subject_dn row) signer_dn) then
                      Err (EForbidden ("CMP revocation denied: signer '" +:+ signer_dn +:+
                        "' is not authorized to revoke certificate serial " +:+ serial_hex +:+
                        " (owner: '" +:+ cr_subject_dn row +:+ "')"))
                    else Ok tt
                | None => Ok tt
                end
            end
        end in
      authorize_revocations o s signer_dn (S i) rest
  end.

(** The update: every row of that serial number. *)
Definition revoke_row (serial_hex : string) (r : CertRow) : CertRow :=
  if String.eqb (cr_serial r) serial_hex then
    MkCertRow (cr_serial r) (cr_subject_dn r) (cr_issuer_dn r) (cr_not_before r) (cr_not_after r)
      (cr_der r) (cr_ca_id r) (cr_profile r) "revoked"
      (cr_revocation_reason r) (cr_revocation_time r)
  else r.

(** The loop that revokes: the statuses. *)
Fixpoint revoke_all (o : CmpOutside) (s : AppState) (sender : string) (i : nat) (details : list bytes)
  : AppState * outcome (list Z) KipukaError :=
  match details with
  | [] => (s, Ok [])
  | detail :: rest =>
      let serial :=
        let? serial := of_lib (fun e => EBadRequest ("failed to parse RevDetails CertTemplate: " +:+ e))
          (template_serial detail) in
        ok_or serial (EBadRequest "RevDetails CertTemplate missing serial number") in
      match serial with
      | Err e => (s, Err e)
      | Panic => (s, Panic)
      | Ok serial =>
          let serial_hex := hex_encode serial in
          match update_error o i with
          | Some e => (s, Err (ECa ("database error revoking serial " +:+ serial_hex +:+ ": " +:+ e)))
          | None =>
              let s := set_certificates s (map (revoke_row serial_hex) (certificates s)) in
              let s := record_audit_event digest json_object s "cmp_revocation"
                ("serial=" +:+ serial_hex +:+ ", sender=" +:+ sender) (revocation_event o i) in
              match revoke_all o s sender (S i) rest with
              | (s, Ok l) => (s, Ok (0 :: l))
              | r => r
              end
          end
      end
  end.

Definition process_revocation_request (o : CmpOutside) (s : AppState) (req : CmpRequest)
  : AppState * outcome bytes KipukaError :=
  match protection req with
  | MacProtection _ =>
      (s, Err (EForbidden "CMP revocation requires certificate signature protection"))
  | SignatureProtection _ cert_der =>
      let checked :=
        let? details := of_lib (fun e => EBadRequest ("failed to parse CMP RevReqContent: " +:+ e))
          (rev_details (body_der req)) in
        if bool_decide (details = []) then
          Err (EBadRequest "CMP RevReqContent contains no revocation requests")
        else
          let? signer_cert := of_lib
            (fun e => EAuth ("failed to parse signer certificate for revocation authorization: " +:+ e))
            (cert_from_der cert_der) in
          let? _ :=
            if signer_is_ra signer_cert then Ok tt
            else authorize_revocations o s (format_dn (cert_subject signer_cert)) 0 details in
          Ok details in
      match checked with
      | Err e => (s, Err e)
      | Panic => (s, Panic)
      | Ok details =>
          match revoke_all o s (sender req) 0 details with
          | (s, Ok statuses) =>
              (s, of_lib (fun e => EInternal ("failed to encode CMP RevRepContent: " +:+ e))
                    (rev_rep_to_der statuses))
          | (s, Err e) => (s, Err e)
          | (s, Panic) => (s, Panic)
          end
      end
  end.

(** ** General messages *)

(** The requested items are only logged. *)
Definition process_general_message (req : CmpRequest) : outcome bytes KipukaError :=
  let? _ :=
    if bool_decide (body_der req = []) then Ok []
    else of_lib (fun e => EBadRequest ("failed to parse CMP GenMsgContent: " +:+ e)) (gen_msg (body_der req)) in
  let fail e := EInternal ("failed to encode CMP GenRepContent: " +:+ e) in
  let? enc := of_lib fail (start_constructed seq_tag encoder_new) in
  let? enc := of_lib fail (end_constructed enc) in
  of_lib (fun e => EInternal ("failed to finalize CMP GenRepContent DER: " +:+ e)) (finish enc).

(** ** The response *)

Definition set_recipient (h : PkiHeader) (g : GeneralName) : PkiHeader :=
  MkHeader (pvno h) (h_sender h) g (message_time h) (protection_alg h) (sender_kid h) (recip_kid h)
    (h_transaction_id h) (h_sender_nonce h) (h_recip_nonce h) (free_text h) (general_info h).
Definition set_protection (h : PkiHeader) (g : GeneralName) (alg : ProtectionAlg) : PkiHeader :=
  MkHeader (pvno h) g (h_recipient h) (message_time h) (Some alg) (sender_kid h) (recip_kid h)
    (h_transaction_id h) (h_sender_nonce h) (h_recip_nonce h) (free_text h) (general_info h).

(** [protect_cmp] *)
Definition protect_message (raw ca_der : bytes) (key : CaSigningKey) (hash : string) (c : Coins)
  : outcome bytes string :=
  let? msg := of_lib id (message_from_der raw) in
  let? ca := of_lib id (cert_from_der ca_der) in
  let? algorithm := ok_or (signing_algorithm_der ca hash) "unsupported CMP signing algorithm" in
  let? alg := of_lib id (algorithm_from_der algorithm) in
  let? name := of_lib id (directory_name (cert_subject ca)) in
  let msg := MkMessage (set_protection (m_header msg) name alg) (m_body msg) (m_protection msg)
               (extra_certs msg) in
  let? protected := protected_der msg in
  let? (actual, signature) := map_err kipuka_error_to_string (sign_message c key hash protected) in
  if negb (bool_decide (actual = algorithm)) then
    Err "configured signing algorithm does not match CA key"
  else
    of_lib id (message_to_der (MkMessage (m_header msg) (m_body msg) (Some signature) (Some [ca_der]))).
Definition protect_cmp (raw ca_der : bytes) (key : CaSigningKey) (hash : string) (c : Coins)
  : outcome bytes KipukaError :=
  map_err (fun e => ECa ("CMP response signing failed: " +:+ e)) (protect_message raw ca_der key hash c).

(** The response to [body], built, addressed to its sender and protected. *)
Definition cmp_respond (app : AppConfig) (o : CmpOutside) (req : CmpRequest)
    (response_type : CmpMessageType) (body response_body_der : bytes) : outcome bytes KipukaError :=
  let ca_subject_der :=
    match ca_configs app with
    | ca_cfg :: _ =>
        match get_ca app (cfg_id ca_cfg) with
        | Some ca => match cert_from_der (ca_cert_der ca) with inl c => Some (cert_subject c) | inr _ => None end
        | None => None
        end
    | [] => None
    end in
  let? response_der := build_cmp_response req response_type response_body_der ca_subject_der
    (server_nonce o) in
  let? request_message := of_lib EBadRequest (message_from_der body) in
  let? response_message := of_lib EInternal (message_from_der response_der) in
  let? response_der := of_lib EInternal
    (message_to_der (MkMessage (set_recipient (m_header response_message) (h_sender (m_header request_message)))
       (m_body response_message) (m_protection response_message) (extra_certs response_message))) in
  let? ca_cfg := ok_or (head (ca_configs app)) ENotFound in
  let? ca := ok_or (get_ca app (cfg_id ca_cfg)) ENotFound in
  let? key := Issuance.resolve_signing_key (cmp_utf8_text o) (cmp_read_file o) ca_cfg (hsm app) in
  protect_cmp response_der (ca_cert_der ca) key (ca_hash_algorithm ca) (protect_coins o).

Definition CONTENT_TYPE_CMP : string := "application/pkixcmp".
Definition cmp_http_response (response_der : bytes) : Response :=
  MkResponse 200 {["content-type" := CONTENT_TYPE_CMP]} response_der.

(** ** [post_cmp] *)

Definition not_allowed (what : string) : KipukaError := EEst ("CMP " +:+ what +:+ " are not allowed").

Definition dispatch_cmp (app : AppConfig) (config : CmpConfig) (o : CmpOutside) (s : AppState)
    (req : CmpRequest) : AppState * outcome bytes KipukaError :=
  match message_type req with
  | Ir => if negb (allow_ir config) then (s, Err (not_allowed "initialization requests (ir)"))
          else process_enrollment_request app o s req "ir"
  | Cr => if negb (allow_cr config) then (s, Err (not_allowed "certification requests (cr)"))
          else process_enrollment_request app o s req "cr"
  | Kur => if negb (allow_kur config) then (s, Err (not_allowed "key update requests (kur)"))
           else process_enrollment_request app o s req "kur"
  | Rr => if negb (allow_rr config) then (s, Err (not_allowed "revocation requests (rr)"))
          else process_revocation_request o s req
  | GenM => (s, process_general_message req)
  | CertConf => (s, of_lib (fun e => EInternal ("failed to encode PKIConfirm: " +:+ e)) null_to_der)
  | t => (s, Err (EBadRequest ("unsupported CMP message type: " +:+ message_type_to_string t)))
  end.

(** The request, if its message is one and protected. *)
Definition accept_cmp (app : AppConfig) (config : CmpConfig) (o : CmpOutside) (s : AppState)
    (body : bytes) : outcome (CmpRequest * CmpMessageType) KipukaError :=
  if bool_decide (body = []) then Err (EBadRequest "empty CMP message")
  else
    let? req := parse_cmp_message body in
    if negb (is_request (message_type req)) then
      Err (EBadRequest ("unexpected CMP message type '" +:+ message_type_to_string (message_type req) +:+
        "' — only request types are accepted"))
    else
      let? _ := check_protection app config o s req body in
      let? response_type := ok_or (expected_response (message_type req))
        (EBadRequest ("CMP message type '" +:+ message_type_to_string (message_type req) +:+
           "' has no defined response")) in
      Ok (req, response_type).

Definition post_cmp (app : AppConfig) (cmp : option CmpConfig) (o : CmpOutside) (s : AppState)
    (body : bytes) : AppState * outcome Response KipukaError :=
  let disabled := (s, Err (EEst "CMP is not enabled")) in
  match cmp with
  | None => disabled
  | Some config =>
      if negb (cmp_enabled config) then disabled
      else
        match accept_cmp app config o s body with
        | Err e => (s, Err e)
        | Panic => (s, Panic)
        | Ok (req, response_type) =>
            match admit_enrollment digest json_object s (sender req) "cmp" (cmp_admission o) with
            | (s, Err e) => (s, Err e)
            | (s, Panic) => (s, Panic)
            | (s, Ok _) =>
                match dispatch_cmp app config o s req with
                | (s, Err e) => (s, Err e)
                | (s, Panic) => (s, Panic)
                | (s, Ok response_body_der) =>
                    match cmp_respond app o req response_type body response_body_der with
                    | Err e => (s, Err e)
                    | Panic => (s, Panic)
                    | Ok response_der =>
                        (record_audit_event digest json_object s "cmp_success"
                           ("type=" +:+ message_type_to_string (message_type req) +:+ ", sender=" +:+
                            sender req) (success_event o),
                         Ok (cmp_http_response response_der))
                    end
                end
            end
        end
  end.
End Cmp.
