(* ===== verification/CmpSpec.v ===== *)
(** * What the CMP endpoint guarantees

    Of Cmp.v, composed with issuance and the audit trail: who is behind a
    request that has an effect, what it can change in the table of
    certificates, and to what the response is bound. *)
From S2P Require Import Prelude Words Text Errors Calendar X509 Der ExampleLibs DerReader ReaderExample Issuance IssuanceSpec AuditLog AuditSpec NameMatch EnrollAuthz Ocsp EstAuth Enroll EnrollSpec Labels Cmp.
Open Scope Z_scope.

(** What the library documents of its codec for messages. *)
Class CmpLaws `{HM : CmpLib} : Prop := {
  message_round_trip m d : message_to_der m = inl d -> message_from_der d = inl m
}.

Section CmpSpec.
Context `{HL : OcspLib} `{HM : !CmpLib} `{HD : Decoder} `{HE : Encoder} `{HEL : !EncoderLaws}.
Variable sha2 : OwfKind -> bytes -> bytes.
Variable hmac : OwfKind -> bytes -> bytes -> bytes + string.
Variable resolved_secrets : gmap string string.
Variable hex_decode : string -> bytes + string.
Variable digest : option bytes -> bytes -> string.
Variable json_object : list (string * string) -> string.

Abbreviation accept_cmp := (accept_cmp sha2 hmac resolved_secrets hex_decode).
Abbreviation post_cmp := (post_cmp sha2 hmac resolved_secrets hex_decode digest json_object).

(** ** What a protection covers *)

(** The SEQUENCE of the message's header and body. *)
Definition covered (m : PkiMessage) (b : bytes) : Prop :=
  exists hd bd, header_to_der (m_header m) = inl hd /\ body_to_der (m_body m) = inl bd /\
    b = tlv (universal_constructed 16) (hd ++ bd).

Lemma protected_der_Ok m b : protected_der m = Ok b <-> covered m b.
Proof.
  unfold protected_der, covered.
  destruct (start_ok (universal_constructed 16) encoder_new) as (e & -> & Hv). rewrite view_new in Hv.
  cbn [of_lib obind fst snd] in *.
  destruct (header_to_der (m_header m)) as [hd|x]; cbn [of_lib obind].
  2: { split; [done|]. by intros (? & ? & ? & _). }
  destruct (body_to_der (m_body m)) as [bd|x]; cbn [of_lib obind].
  2: { split; [done|]. by intros (? & ? & _ & ? & _). }
  der_run. cbn [app].
  split.
  - intros [= <-]. by exists hd, bd.
  - by intros (? & ? & [= <-] & [= <-] & ->).
Qed.

Lemma protected_part_Ok m b : protected_part m = Ok b <-> covered m b.
Proof. unfold protected_part. rewrite map_err_Ok. apply protected_der_Ok. Qed.

(** ** Authenticity *)

(** A certificate a CMP message can be signed with: valid, of a valid CA of
    the server (or that CA's own), and not revoked. *)
Definition signer_trusted (app : AppConfig) (o : CmpOutside) (s : AppState) (cert_der : bytes) : Prop :=
  valid_now (now_signer o) cert_der = Ok tt /\
  (exists cert, cert_from_der cert_der = inl cert /\ check_key_usage cert = Ok tt) /\
  (exists id ca, get_ca app id = Some ca /\
     valid_now (now_ca_check o (ca_cert_der ca)) (ca_cert_der ca) = Ok tt /\
     (ca_cert_der ca = cert_der \/ issued_by_check cert_der (ca_cert_der ca) = Ok tt)) /\
  (forall row, In row (certificates s) -> cr_der row = cert_der -> cr_status row <> "revoked"%string) /\
  cmp_revocation o cert_der = Ok tt.

Lemma trusted_by_true now cert_der ca :
  trusted_by now cert_der ca = true <->
  valid_now (now (ca_cert_der ca)) (ca_cert_der ca) = Ok tt /\
  (ca_cert_der ca = cert_der \/ issued_by_check cert_der (ca_cert_der ca) = Ok tt).
Proof.
  unfold trusted_by, issued_by. destruct (valid_now _ _) as [[]|e|].
  - rewrite orb_true_iff, bool_decide_eq_true.
    destruct (issued_by_check _ _) as [[]|e|]; naive_solver.
  - naive_solver.
  - naive_solver.
Qed.

Lemma validate_cmp_signer_Ok app o s cert_der :
  validate_cmp_signer app o s cert_der = Ok tt -> signer_trusted app o s cert_der.
Proof.
  unfold validate_cmp_signer, signer_trusted. intros E.
  take_ok E as u E1. take_ok E as cert E2. take_ok E as u' E3. destruct u, u'.
  apply map_err_Ok in E1. apply of_lib_Ok in E2.
  case_in E; [done|]. apply negb_false_iff in Heqb.
  destruct (signer_lookup_error o); [done|]. case_in E; [done|]. apply map_err_Ok in E.
  split_and!; try done.
  - by exists cert.
  - apply existsb_exists in Heqb as (ca & Hin & Ht).
    apply in_map_iff in Hin as ([id ca'] & <- & Hin). apply list_elem_of_In, elem_of_map_to_list in Hin.
    apply trusted_by_true in Ht as [Hv Hor]. by exists id, ca'.
  - intros row Hin Hd Hs. apply not_true_iff_false in Heqb0. apply Heqb0, existsb_exists.
    exists row. split; [done|]. rewrite Hs, andb_true_r. by apply bool_decide_eq_true.
Qed.

(** The message is signed with the key of its first certificate. *)
Definition signed (app : AppConfig) (o : CmpOutside) (s : AppState) (m : PkiMessage) (cert_der : bytes)
  : Prop :=
  cert_der = first_cert m /\ cert_der <> [] /\
  (exists b ranges bits, covered m b /\ cert_ranges cert_der = Some ranges /\
     m_protection m = Some bits /\ spki_verify ranges.2 b (protection_alg_der m) bits = inl tt) /\
  signer_trusted app o s cert_der.

(** The message carries the code of a secret the sender shares: of a key
    that is the secret and the salt, hashed as often as it says. *)
Definition authentic_by_secret (config : CmpConfig) (m : PkiMessage) : Prop :=
  let reference := format_general_name (h_sender (m_header m)) in
  allow_mac_protection config = true /\ In reference (mac_secrets config) /\
  exists alg params pbm hex secret owf mac name b bits,
    protection_alg (m_header m) = Some alg /\ alg_parameters alg = Some (inl params) /\
    pbm_from_der params = inl pbm /\
    resolved_secrets !! reference = Some hex /\ hex_decode hex = inl secret /\
    owf_kind (oid_to_string (pbm_owf pbm)) = Some owf /\
    mac_kind (oid_to_string (pbm_mac pbm)) = Some (mac, name) /\
    1 <= pbm_iterations pbm <= 100000 /\
    covered m b /\ m_protection m = Some bits /\
    hmac mac (Nat.iter (Z.to_nat (pbm_iterations pbm)) (sha2 owf) (secret ++ pbm_salt pbm)) b = inl bits.

Definition authentic (app : AppConfig) (config : CmpConfig) (o : CmpOutside) (s : AppState)
    (m : PkiMessage) (p : CmpProtectionType) : Prop :=
  match p with
  | SignatureProtection _ cert_der => signed app o s m cert_der
  | MacProtection _ => authentic_by_secret config m
  end.

Lemma derive_pbm_key_Ok secret salt owf n key :
  0 <= n -> derive_pbm_key sha2 secret salt owf n = Ok key ->
  exists kind, owf_kind (oid_to_string owf) = Some kind /\ 1 <= n <= 100000 /\
    key = Nat.iter (Z.to_nat n) (sha2 kind) (secret ++ salt).
Proof.
  unfold derive_pbm_key. intros Hn E. take_ok E as kind Hk. apply ok_or_Ok in Hk.
  destruct (Z.eqb_spec n 0); [done|]. destruct (Z.ltb_spec 100000 n); [done|]. injection E as <-.
  exists kind. split; [done|]. split; [lia|].
  replace (Z.to_nat n) with (S (Z.to_nat (n - 1))) by lia. rewrite Nat.iter_succ_r. done.
Qed.

Lemma check_mac_Ok config req m b bits :
  sender req = format_general_name (h_sender (m_header m)) -> covered m b ->
  m_protection m = Some bits ->
  check_mac sha2 hmac resolved_secrets hex_decode config req m b bits = Ok tt ->
  authentic_by_secret config m.
Proof.
  unfold check_mac, authentic_by_secret. intros Hs Hb Hp E.
  destruct (allow_mac_protection config); [|done]. cbn [negb] in E.
  take_ok E as element E1. take_ok E as params E2. take_ok E as pbm E3. take_ok E as reference E4.
  take_ok E as hex E5. take_ok E as secret E6. take_ok E as key E7. take_ok E as code E8.
  case_bool_decide as Hm; [|done]. subst code.
  apply ok_or_Ok in E1, E4, E5. apply of_lib_Ok in E2, E3, E6. subst element.
  apply derive_pbm_key_Ok in E7 as (owf & Howf & Hn & ->); [|apply Z.mod_pos_bound; lia].
  apply List.find_some in E4 as [Hin Heq]. apply String.eqb_eq in Heq. subst reference.
  unfold compute_pbm_hmac in E8. take_ok E8 as mn E9. destruct mn as [mac name]. apply ok_or_Ok in E9.
  apply of_lib_Ok in E8. destruct (protection_alg (m_header m)) as [alg|]; [|done].
  cbn in E1. rewrite <- Hs. split; [done|]. split; [done|].
  by exists alg, params, pbm, hex, secret, owf, mac, name, b, bits.
Qed.

Lemma check_signature_Ok app o s m b bits cert_der :
  cert_der = first_cert m -> covered m b -> m_protection m = Some bits ->
  check_signature app o s cert_der b (protection_alg_der m) bits = Ok tt -> signed app o s m cert_der.
Proof.
  unfold check_signature, signed. intros Hc Hb Hp E. case_bool_decide as Hne; [done|].
  take_ok E as ranges E1. take_ok E as u E2. destruct u. apply ok_or_Ok in E1. apply of_lib_Ok in E2.
  apply validate_cmp_signer_Ok in E. split_and!; try done. by exists b, ranges, bits.
Qed.

(** What the request is of its message. *)
Definition request_of (m : PkiMessage) (req : CmpRequest) : Prop :=
  body_content (m_body m) = Some (message_type req, body_der req) /\
  transaction_id req = default [] (h_transaction_id (m_header m)) /\
  sender_nonce req = default [] (h_sender_nonce (m_header m)) /\
  sender req = format_general_name (h_sender (m_header m)) /\
  protection_of m = Ok (protection req).

Lemma parse_cmp_message_Ok body req :
  parse_cmp_message body = Ok req -> exists m, message_from_der body = inl m /\ request_of m req.
Proof.
  unfold parse_cmp_message. intros E. do 3 (case_in E; [done|]).
  take_ok E as m E1. take_ok E as tb E2. destruct tb as [ty content]. take_ok E as p E3.
  apply of_lib_Ok in E1. apply ok_or_Ok in E2. injection E as <-. exists m. by split.
Qed.

Lemma protection_of_Ok m p :
  protection_of m = Ok p ->
  is_Some (m_protection m) /\ is_Some (protection_alg (m_header m)) /\
  match p with SignatureProtection _ c => c = first_cert m | MacProtection _ => True end.
Proof.
  unfold protection_of. destruct (m_protection m); [|done]. destruct (protection_alg _); [|done].
  destruct (is_mac_algorithm _); intros [= <-]; by split_and!.
Qed.

Lemma accept_cmp_Ok app config o s body req rt :
  accept_cmp app config o s body = Ok (req, rt) ->
  exists m, message_from_der body = inl m /\ request_of m req /\
    authentic app config o s m (protection req) /\ expected_response (message_type req) = Some rt.
Proof.
  unfold Cmp.accept_cmp. intros E. case_bool_decide; [done|]. take_ok E as q E1.
  case_in E; [done|]. take_ok E as u E2. take_ok E as rt' E3. injection E as -> ->. apply ok_or_Ok in E3.
  apply parse_cmp_message_Ok in E1 as (m & Hm & Hr). exists m. split_and!; try done.
  unfold check_protection in E2. take_ok E2 as m' E4. apply of_lib_Ok in E4. rewrite Hm in E4. injection E4 as <-.
  take_ok E2 as b E5. apply protected_part_Ok in E5. destruct u.
  destruct Hr as (_ & _ & _ & Hsender & Hp). apply protection_of_Ok in Hp as ([bits Hbits] & _ & Hc).
  rewrite Hbits in E2. cbn [default] in E2. destruct (protection req).
  - by eapply check_signature_Ok.
  - by eapply check_mac_Ok.
Qed.

(** ** The steps of a call *)

(** Why a call changed nothing, or the steps it took. *)
Definition cmp_run (app : AppConfig) (cmp : option CmpConfig) (o : CmpOutside) (s : AppState)
    (body : bytes) (s' : AppState) (r : outcome Response KipukaError) : Prop :=
  exists config m req rt,
    cmp = Some config /\ cmp_enabled config = true /\ message_from_der body = inl m /\
    request_of m req /\ authentic app config o s m (protection req) /\
    expected_response (message_type req) = Some rt /\
    ((certificates s' = certificates s /\ pending_csrs s' = pending_csrs s /\ forall resp, r <> Ok resp) \/
     exists s1 s2 done, admitted json_object s s1 (sender req) "cmp" (cmp_admission o) /\
       dispatch_cmp digest json_object app config o s1 req = (s2, done) /\
       certificates s' = certificates s2 /\ pending_csrs s' = pending_csrs s2 /\
       forall resp, r = Ok resp -> exists b raw, done = Ok b /\
         cmp_respond app o req rt body b = Ok raw /\ resp = cmp_http_response raw).

Lemma record_audit_event_frame s ty d c :
  certificates (record_audit_event digest json_object s ty d c) = certificates s /\
  pending_csrs (record_audit_event digest json_object s ty d c) = pending_csrs s.
Proof. done. Qed.

Lemma post_cmp_run app cmp o s body s' r :
  post_cmp app cmp o s body = (s', r) ->
  (s' = s /\ forall resp, r <> Ok resp) \/ cmp_run app cmp o s body s' r.
Proof.
  unfold Cmp.post_cmp. destruct cmp as [config|]; [|intros [= <- <-]; by left].
  destruct (cmp_enabled config) eqn:Hen; [|intros [= <- <-]; by left]. cbn [negb].
  destruct (accept_cmp _ _ _ _ _) as [[req rt]|e|] eqn:Ea; [|intros [= <- <-]; by left..].
  apply accept_cmp_Ok in Ea as (m & Hm & Hr & Hau & Hrt). intros E. right.
  exists config, m, req, rt. split_and!; try done.
  pose proof (admit_enrollment_frame digest json_object s (sender req) "cmp" (cmp_admission o)) as [Hc Hp].
  destruct (admit_enrollment _ _ _ _ _ _) as [s1 [[]|e|]] eqn:Ead; cbn [fst] in Hc, Hp.
  2-3: injection E as <- <-; by left.
  apply admit_enrollment_Ok in Ead. right.
  destruct (dispatch_cmp _ _ _ _ _ _ _) as [s2 [b|e|]] eqn:Ed.
  2-3: injection E as <- <-; by eexists _, _, _.
  destruct (cmp_respond _ _ _ _ _ _) as [raw|e|] eqn:Er.
  2-3: injection E as <- <-; by eexists _, _, _.
  injection E as <- <-. exists s1, s2, (Ok b). split_and!; try done.
  intros resp [= <-]. by exists b, raw.
Qed.

(** ** Revocation *)

Definition as_revoked (r : CertRow) : CertRow :=
  MkCertRow (cr_serial r) (cr_subject_dn r) (cr_issuer_dn r) (cr_not_before r) (cr_not_after r)
    (cr_der r) (cr_ca_id r) (cr_profile r) "revoked"
    (cr_revocation_reason r) (cr_revocation_time r).
Definition listed (serials : list bytes) (r : CertRow) : bool :=
  existsb (fun x => String.eqb (cr_serial r) (hex_encode x)) serials.
Definition revoke_listed (serials : list bytes) (r : CertRow) : CertRow :=
  if listed serials r then as_revoked r else r.

Lemma revoke_listed_cons x l r :
  revoke_listed l (revoke_row (hex_encode x) r) = revoke_listed (x :: l) r.
Proof.
  unfold revoke_listed, revoke_row, listed. cbn [existsb].
  destruct (String.eqb (cr_serial r) (hex_encode x)) eqn:E; cbn [orb cr_serial]; [|done].
  by destruct (existsb _ l).
Qed.

Definition names_serial (detail serial : bytes) : Prop := template_serial detail = inl (Some serial).

(** The details that were dealt with are the first ones; all, if it returns. *)
Lemma revoke_all_spec o s snd i details s' r :
  revoke_all digest json_object o s snd i details = (s', r) ->
  pending_csrs s' = pending_csrs s /\
  exists serials, Forall2 names_serial (take (length serials) details) serials /\
    certificates s' = map (revoke_listed serials) (certificates s) /\
    (forall l, r = Ok l -> length serials = length details).
Proof.
  assert (Hnone : forall s : AppState, map (revoke_listed []) (certificates s) = certificates s)
    by (intros x; by rewrite map_id).
  revert s i r. induction details as [|d details IH]; intros s i r; cbn [revoke_all].
  { intros [= <- <-]. split; [done|]. exists []. rewrite Hnone. done. }
  assert (Hstop : forall r0 : outcome (list Z) KipukaError, (forall l, r0 <> Ok l) -> (s, r0) = (s', r) ->
    pending_csrs s' = pending_csrs s /\
    exists serials, Forall2 names_serial (take (length serials) (d :: details)) serials /\
      certificates s' = map (revoke_listed serials) (certificates s) /\
      (forall l, r = Ok l -> length serials = length (d :: details))).
  { intros r0 Hr0 [= <- <-]. split; [done|]. exists []. rewrite Hnone. split_and!; try done.
    intros l Hl. by destruct (Hr0 l). }
  destruct (obind _ _) as [serial|e|] eqn:Es; [|by apply Hstop..].
  take_ok Es as os E1. apply of_lib_Ok in E1. apply ok_or_Ok in Es as ->.
  destruct (update_error o i); [by apply Hstop|].
  set (s1 := record_audit_event _ _ _ _ _ _). destruct (revoke_all _ _ _ s1 _ _ _) as [s2 r2] eqn:E.
  specialize (IH s1 (S i) r2). intros Heq.
  assert (Hs' : s2 = s') by (destruct r2; congruence). subst s2.
  destruct (IH E) as (Hp & serials & Hf & Hc & Hl).
  split; [done|]. exists (serial :: serials). split_and!.
  - cbn [length take]. by constructor.
  - rewrite Hc. cbn [certificates set_certificates s1 record_audit_event with_audit]. rewrite map_map. apply map_ext.
    intros row. apply revoke_listed_cons.
  - intros l Hr. destruct r2 as [l2|e|]; [|congruence..]. cbn [length]. f_equal. by apply (Hl l2).
Qed.

(** The signer may revoke what [detail] names: the row of that serial number
    that the table gives first, if it has one, is the signer's own. *)
Definition owner_named (s : AppState) (dn : string) (detail : bytes) : Prop :=
  forall serial row, names_serial detail serial ->
    List.find (fun r => String.eqb (cr_serial r) (hex_encode serial)) (certificates s) = Some row ->
    cr_subject_dn row = dn.

Lemma authorize_revocations_Ok o s dn i details :
  authorize_revocations o s dn i details = Ok tt -> Forall (owner_named s dn) details.
Proof.
  revert i. induction details as [|d details IH]; intros i E; [constructor|]. cbn [authorize_revocations] in E.
  take_ok E as serial E1. take_ok E as u E2. apply of_lib_Ok in E1. apply IH in E. constructor; [|done].
  intros x row Hx Hrow. unfold names_serial in Hx. rewrite Hx in E1. injection E1 as <-.
  destruct (owner_lookup_error o i); [done|]. rewrite Hrow in E2. case_in E2; [done|].
  apply negb_false_iff, String.eqb_eq in Heqb. done.
Qed.

(** The signer and its right to revoke what the request lists. *)
Definition may_revoke (s : AppState) (cert_der : bytes) (details : list bytes) : Prop :=
  exists signer, cert_from_der cert_der = inl signer /\
    (signer_is_ra signer = true \/ Forall (owner_named s (format_dn (cert_subject signer))) details).

Lemma process_revocation_spec o s req s' r :
  process_revocation_request digest json_object o s req = (s', r) ->
  pending_csrs s' = pending_csrs s /\
  ((certificates s' = certificates s /\ forall b, r <> Ok b) \/
   exists alg cert_der details serials,
     protection req = SignatureProtection alg cert_der /\ rev_details (body_der req) = inl details /\
     may_revoke s cert_der details /\ Forall2 names_serial (take (length serials) details) serials /\
     certificates s' = map (revoke_listed serials) (certificates s) /\
     (forall b, r = Ok b -> length serials = length details)).
Proof.
  unfold process_revocation_request. destruct (protection req) as [alg cert_der|]; [|intros [= <- <-]; by split; [|left]].
  destruct (obind _ _) as [details|e|] eqn:Ec; [|intros [= <- <-]; by split; [|left]..].
  take_ok Ec as ds E1. apply of_lib_Ok in E1. case_bool_decide; [done|]. take_ok Ec as signer E2.
  take_ok Ec as u E3. injection Ec as ->. apply of_lib_Ok in E2. destruct u.
  assert (Hmay : may_revoke s cert_der details).
  { exists signer. split; [done|]. destruct (signer_is_ra signer); [by left|].
    right. by eapply authorize_revocations_Ok. }
  destruct (revoke_all _ _ _ _ _ _ _) as [s1 r1] eqn:Er. apply revoke_all_spec in Er as (Hp & serials & Hf & Hc & Hl).
  intros E. assert (Hs : s1 = s') by (destruct r1; congruence). subst s1. split; [done|]. right.
  exists alg, cert_der, details, serials. split_and!; try done.
  intros b ->. destruct r1 as [l|e|]; [|congruence..]. by apply (Hl l).
Qed.

(** ** Enrollment *)

(** The row of a certificate that the first CA issued for the request's one
    template, whose key signed the template. *)
Definition enrolled_row (app : AppConfig) (o : CmpOutside) (req : CmpRequest) (row : CertRow) : Prop :=
  exists id msg ca_id ca key r cert subject spki alg sig tbs,
    cert_req_messages (body_der req) = inl [(id, msg)] /\
    template_subject msg = Some (inl subject) /\ template_public_key msg = Some (inl spki) /\
    popo msg = Some (PopSignature false (inl alg) sig) /\ cert_req_der msg = inl tbs /\
    verify_signature tbs alg sig spki = inl tt /\
    cmp_issuer app o = Ok (ca_id, ca, key) /\
    issue_crmf_certificate (cmp_inputs o) msg (label_profile ca (cmp_profile_now o)) (ca_cert_der ca) key
      (ca_hash_algorithm ca) (ca_ocsp_url ca) (ca_crl_url ca) = Ok r /\
    cert_from_der (certificate_der r) = inl cert /\
    row = certificate_row r (format_dn (cert_issuer cert)) ca_id
            (profile_name (label_profile ca (cmp_profile_now o))).

Lemma crmf_to_csr_Ok msg csr :
  crmf_to_csr msg = Ok csr ->
  exists subject spki alg sig tbs,
    template_subject msg = Some (inl subject) /\ template_public_key msg = Some (inl spki) /\
    popo msg = Some (PopSignature false (inl alg) sig) /\ cert_req_der msg = inl tbs /\
    verify_signature tbs alg sig spki = inl tt.
Proof.
  unfold crmf_to_csr. intros E. take_ok E as os E1. take_ok E as subject E2. take_ok E as ok E3.
  take_ok E as spki E4. apply ok_or_Ok in E1, E3. apply of_lib_Ok in E2, E4. subst os ok.
  destruct (popo msg) as [[[] alg sig|]|]; try done.
  take_ok E as tbs E5. take_ok E as alg' E6. take_ok E as u E7. apply of_lib_Ok in E5, E6, E7. destruct u.
  subst alg. by exists subject, spki, alg', sig, tbs.
Qed.

Lemma process_enrollment_spec app o s req ty s' r :
  process_enrollment_request digest json_object app o s req ty = (s', r) ->
  pending_csrs s' = pending_csrs s /\
  ((certificates s' = certificates s /\ forall b, r <> Ok b) \/
   exists row, enrolled_row app o req row /\ certificates s' = certificates s ++ [row] /\
     Forall (fun q => cr_serial q <> cr_serial row) (certificates s)).
Proof.
  unfold process_enrollment_request. destruct (obind _ _) as [[[[id ca_id] profile] r0]|e|] eqn:Ei.
  2-3: intros [= <- <-]; split; [done|]; by left.
  take_ok Ei as im E1. take_ok Ei as issuer E2. destruct issuer as [[ca_id' ca] key].
  take_ok Ei as r1 E3. injection Ei as <- -> <- ->. apply map_err_Ok in E3.
  unfold single_request in E1. take_ok E1 as msgs E4. apply of_lib_Ok in E4.
  destruct msgs as [|[id msg] [|]]; [done| |done]. do 4 (apply obind_Ok_1 in E1 as (? & _ & E1)).
  injection E1 as <-. cbn [fst snd] in *.
  pose proof E3 as E3'. unfold issue_crmf_certificate in E3'. take_ok E3' as csr E5.
  apply crmf_to_csr_Ok in E5 as (subject & spki & alg & sig & tbs & H1 & H2 & H3 & H4 & H5).
  destruct (persist_certificate _ _ _ _ _ _ _ _) as [s1 rp] eqn:Ep. apply persist_spec in Ep as [Hp Hc].
  intros E. assert (Hs : s1 = s') by (destruct rp; congruence). subst s1. split; [done|].
  destruct Hc as [(cert & Hcert & Hc & Hf)|[-> [e ->]]].
  - right. eexists. split; [|by split]. by do 12 eexists.
  - left. injection E as <-. done.
Qed.

(** ** The theorems *)

Definition allowed (config : CmpConfig) (t : CmpMessageType) : bool :=
  match t with
  | Ir => allow_ir config | Cr => allow_cr config | Kur => allow_kur config | Rr => allow_rr config
  | GenM | CertConf => true
  | _ => false
  end.

(** What a request has done to the table when it is answered. *)
Definition effect (app : AppConfig) (o : CmpOutside) (req : CmpRequest) (before after : list CertRow) : Prop :=
  match message_type req with
  | Ir | Cr | Kur => exists row, enrolled_row app o req row /\ after = before ++ [row] /\
      Forall (fun q => cr_serial q <> cr_serial row) before
  | Rr => exists details serials, rev_details (body_der req) = inl details /\
      Forall2 names_serial details serials /\ after = map (revoke_listed serials) before
  | _ => after = before
  end.

(** And when it fails: the whole, nothing, or the first revocations. *)
Definition partial_effect (app : AppConfig) (o : CmpOutside) (req : CmpRequest)
    (before after : list CertRow) : Prop :=
  after = before \/ effect app o req before after \/
  message_type req = Rr /\ exists details serials, rev_details (body_der req) = inl details /\
    Forall2 names_serial (take (length serials) details) serials /\
    after = map (revoke_listed serials) before.

Lemma dispatch_cmp_spec app config o s req s' r :
  dispatch_cmp digest json_object app config o s req = (s', r) ->
  pending_csrs s' = pending_csrs s /\
  (certificates s' = certificates s \/ allowed config (message_type req) = true) /\
  partial_effect app o req (certificates s) (certificates s') /\
  (forall b, r = Ok b -> allowed config (message_type req) = true /\
     effect app o req (certificates s) (certificates s')).
Proof.
  unfold dispatch_cmp, partial_effect, effect. intros E.
  destruct (message_type req) eqn:Ht; cbn [allowed];
    try (injection E as <- <-; split_and!; [done|by left|by left|by intros b [= Hb]]).
  1-3: case_in E; [injection E as <- <-; split_and!; [done|by left|by left|done]|];
    apply negb_false_iff in Heqb; apply process_enrollment_spec in E as [Hp [[Hc Hn]|Hrow]]; rewrite Heqb;
    (split_and!; [done|by right|by (left + (right; left))|]);
    intros b Hb; first [by destruct (Hn b)|by split].
  case_in E; [injection E as <- <-; split_and!; [done|by left|by left|done]|].
  apply negb_false_iff in Heqb. apply process_revocation_spec in E as [Hp Hor]. rewrite Heqb.
  destruct Hor as [[Hc Hn]|(alg & cert_der & details & serials & _ & Hd & _ & Hf & Hc & Hall)].
  - split_and!; [done|by right|by left|]. intros b Hb. by destruct (Hn b).
  - split_and!; [done|by right| |].
    + right. right. split; [done|]. by exists details, serials.
    + intros b Hb. split; [done|]. exists details, serials. split_and!; try done.
      rewrite (Hall b Hb) in Hf. by rewrite take_ge in Hf.
Qed.

(** C10: nothing without proof.  A message changes nothing and gets an error,
    unless CMP is enabled, the message parses, and its header and body are
    protected: by the signature of the first certificate it carries, which is
    valid now, issued by a valid CA of the server, in the table nowhere as
    revoked, and passes the revocation check; or by the HMAC of a secret
    configured for the sender it names, under a key hashed at least once and
    at most 100000 times, if such protection is allowed. *)
Theorem cmp_request_authentic app cmp o s body s' r :
  post_cmp app cmp o s body = (s', r) ->
  (s' = s /\ forall resp, r <> Ok resp) \/
  exists config m req, cmp = Some config /\ cmp_enabled config = true /\
    message_from_der body = inl m /\ request_of m req /\
    authentic app config o s m (protection req).
Proof.
  intros E. apply post_cmp_run in E as [Hno|(config & m & req & rt & ? & ? & ? & ? & ? & _)]; [by left|].
  right. by exists config, m, req.
Qed.

(** What a CMP request does.  If it is answered, its type is allowed, its
    admission is the newest record of the audit trail at the time, and the
    table has changed as the type says: an enrollment or key update appends
    the row of one certificate, issued by the first CA for the template's
    subject and key, whose holder signed the template; a revocation revokes
    the rows of the serial numbers it lists and no other; every other request
    changes none.  If it fails, that has happened, or nothing, or of a
    revocation the first ones listed. *)
Theorem cmp_effects app cmp o s body s' r :
  post_cmp app cmp o s body = (s', r) ->
  pending_csrs s' = pending_csrs s /\
  (certificates s' = certificates s \/
   exists config m req, cmp = Some config /\ message_from_der body = inl m /\ request_of m req /\
     allowed config (message_type req) = true /\
     partial_effect app o req (certificates s) (certificates s')) /\
  forall resp, r = Ok resp -> exists config m req s1, cmp = Some config /\ message_from_der body = inl m /\
    request_of m req /\ allowed config (message_type req) = true /\
    admitted json_object s s1 (sender req) "cmp" (cmp_admission o) /\
    effect app o req (certificates s) (certificates s').
Proof.
  intros E. apply post_cmp_run in E as [[-> Hno]|(config & m & req & rt & Hcmp & _ & Hm & Hr & _ & _ & Hor)].
  { split_and!; [done|by left|]. intros resp Hresp. by destruct (Hno resp). }
  destruct Hor as [(Hc & Hp & Hno)|(s1 & s2 & res & Had & Hd & Hc & Hp & Hok)].
  { split_and!; [done|by left|]. intros resp Hresp. by destruct (Hno resp). }
  apply dispatch_cmp_spec in Hd as (Hp2 & Hal & Hpart & Heff).
  pose proof Had as (Hc1 & Hp1 & _). rewrite Hc1 in Hal, Hpart, Heff. rewrite <- Hc in *. split_and!.
  - congruence.
  - destruct Hal as [?|?]; [by left|]. right. by exists config, m, req.
  - intros resp Hresp. destruct (Hok resp Hresp) as (b & raw & Hb & _). destruct (Heff b Hb).
    by exists config, m, req, s1.
Qed.

(** ** Who revokes *)

Lemma find_serial (l : list CertRow) row :
  NoDup (map cr_serial l) -> In row l -> List.find (fun r => String.eqb (cr_serial r) (cr_serial row)) l = Some row.
Proof.
  induction l as [|x l IH]; [done|]. cbn [map In List.find]. intros Hnd Hin. apply NoDup_cons in Hnd as [Hx Hnd].
  destruct Hin as [->|Hin]; [by rewrite String.eqb_refl|].
  destruct (String.eqb_spec (cr_serial x) (cr_serial row)) as [Heq|]; [|by apply IH].
  destruct Hx. apply list_elem_of_In. rewrite Heq. by apply in_map.
Qed.

Lemma may_revoke_row s cert_der details serials i row :
  NoDup (map cr_serial (certificates s)) -> may_revoke s cert_der details ->
  Forall2 names_serial (take (length serials) details) serials ->
  certificates s !! i = Some row -> listed serials row = true ->
  exists signer, cert_from_der cert_der = inl signer /\
    (signer_is_ra signer = true \/ cr_subject_dn row = format_dn (cert_subject signer)).
Proof.
  intros Hnd (signer & Hs & Hor) Hf Hi Hl. exists signer. split; [done|].
  destruct Hor as [?|Hown]; [by left|]. right.
  apply existsb_exists in Hl as (x & Hx & Heq). apply String.eqb_eq in Heq.
  apply list_elem_of_In, list_elem_of_lookup in Hx as [k Hk].
  destruct (Forall2_lookup_r _ _ _ _ _ Hf Hk) as (d & Hd & Hdx). apply lookup_take_Some in Hd as [Hd _].
  rewrite Forall_lookup in Hown. apply (Hown _ _ Hd x row Hdx). rewrite <- Heq. apply find_serial; [done|].
  apply list_elem_of_In, list_elem_of_lookup. by exists i.
Qed.

(** Only its owner or a registration authority revokes a certificate by
    CMP.  With one row for a serial number, a row that a call changes is a
    row that becomes revoked and nothing else; the request is signed (never
    only MACed) by a trusted certificate that has the purpose of a
    registration authority or the subject of the row; and no row goes. *)
Theorem cmp_revocation_by_owner app cmp o s body s' r i row :
  NoDup (map cr_serial (certificates s)) ->
  post_cmp app cmp o s body = (s', r) -> certificates s !! i = Some row ->
  certificates s' !! i = Some row \/
  certificates s' !! i = Some (as_revoked row) /\
  exists config m cert_der signer, cmp = Some config /\ allow_rr config = true /\
    message_from_der body = inl m /\ signed app o s m cert_der /\
    cert_from_der cert_der = inl signer /\
    (signer_is_ra signer = true \/ cr_subject_dn row = format_dn (cert_subject signer)).
Proof.
  intros Hnd E Hi. apply post_cmp_run in E as [[-> _]|(config & m & req & rt & Hcmp & _ & Hm & Hr & Hau & _ & Hor)];
    [by left|].
  destruct Hor as [(Hc & _)|(s1 & s2 & res & Had & Hd & Hc & _)]; [left; congruence|].
  destruct Had as (Hc1 & _). rewrite Hc. rewrite <- Hc1 in Hnd, Hi.
  unfold dispatch_cmp in Hd.
  assert (Henroll : forall ty,
    process_enrollment_request digest json_object app o s1 req ty = (s2, res) -> certificates s2 !! i = Some row).
  { intros ty Hp. apply process_enrollment_spec in Hp as [_ [[-> _]|(x & _ & -> & _)]]; [done|].
    by apply lookup_app_l_Some. }
  destruct (message_type req); try (injection Hd as <- _; by left).
  1-3: case_in Hd; [injection Hd as <- _; by left|]; left; by eapply Henroll.
  case_in Hd; [injection Hd as <- _; by left|]. apply negb_false_iff in Heqb.
  apply process_revocation_spec in Hd as [_ [[-> _]|Hd]]; [by left|].
  destruct Hd as (alg & cert_der & details & serials & Hprot & _ & Hmay & Hf & -> & _).
  rewrite list_lookup_fmap, Hi. cbn [fmap option_fmap option_map]. unfold revoke_listed.
  destruct (listed serials row) eqn:Hl; [|by left]. right. split; [done|].
  destruct (may_revoke_row _ _ _ _ _ _ Hnd Hmay Hf Hi Hl) as (signer & Hsigner & Hwho).
  rewrite Hprot in Hau. by exists config, m, cert_der, signer.
Qed.

(** ** The response *)

Context `{Hlaws : !CmpLaws}.

Definition body_type (b : PkiBody) : option CmpMessageType := option_map fst (body_content b).

Lemma response_body_type t b pb : response_body t b = Ok pb -> body_type pb = Some t.
Proof. destruct t; try done; by intros [= <-]. Qed.

Lemma build_cmp_response_Ok req t b subject nonce der :
  build_cmp_response req t b subject nonce = Ok der ->
  exists m, message_from_der der = inl m /\ body_type (m_body m) = Some t /\
    transaction_id req <> [] /\ h_transaction_id (m_header m) = Some (transaction_id req) /\
    h_sender_nonce (m_header m) = Some nonce /\ h_recip_nonce (m_header m) = Some (sender_nonce req).
Proof.
  unfold build_cmp_response. intros E. case_bool_decide as Ht; [done|]. case_bool_decide; [done|].
  take_ok E as pb E1. take_ok E as s E2. take_ok E as r E3. apply of_lib_Ok, message_round_trip in E.
  eexists. split; [done|]. cbn. split_and!; try done. by eapply response_body_type.
Qed.

(** [m] is signed with the CA's key, over its header and body. *)
Definition signed_by_ca (o : CmpOutside) (ca : CaState) (key : CaSigningKey) (m : PkiMessage) : Prop :=
  exists cert alg sig b, cert_from_der (ca_cert_der ca) = inl cert /\
    directory_name (cert_subject cert) = inl (h_sender (m_header m)) /\
    covered m b /\ sign_message (protect_coins o) key (ca_hash_algorithm ca) b = Ok (alg, sig) /\
    option_map inl (protection_alg (m_header m)) = Some (algorithm_from_der alg) /\
    m_protection m = Some sig /\ extra_certs m = Some [ca_cert_der ca].

(** The response answers this message: its transaction, its nonce, its sender. *)
Definition answers (m rm : PkiMessage) (nonce : bytes) : Prop :=
  let h := m_header m in let rh := m_header rm in
  (exists t rt, body_type (m_body m) = Some t /\ expected_response t = Some rt /\
     body_type (m_body rm) = Some rt) /\
  (exists id, id <> [] /\ h_transaction_id h = Some id /\ h_transaction_id rh = Some id) /\
  h_recip_nonce rh = Some (default [] (h_sender_nonce h)) /\
  h_sender_nonce rh = Some nonce /\ h_recipient rh = h_sender h.

Lemma protect_message_Ok raw ca_der key hash c der m :
  message_from_der raw = inl m -> protect_message raw ca_der key hash c = Ok der ->
  exists cert alg parsed name sig b, cert_from_der ca_der = inl cert /\
    directory_name (cert_subject cert) = inl name /\ algorithm_from_der alg = inl parsed /\
    let rm := MkMessage (set_protection (m_header m) name parsed) (m_body m) (Some sig) (Some [ca_der]) in
    covered rm b /\ sign_message c key hash b = Ok (alg, sig) /\ message_from_der der = inl rm.
Proof.
  intros Hm. unfold protect_message. rewrite Hm. cbn [of_lib obind]. intros E.
  take_ok E as cert E1. take_ok E as alg E2. take_ok E as parsed E3. take_ok E as name E4.
  take_ok E as b E5. take_ok E as r E6. destruct r as [actual sig]. case_bool_decide; [|done]. cbn [negb] in E.
  subst actual. apply of_lib_Ok in E1, E3, E4, E. apply map_err_Ok in E6. apply protected_der_Ok in E5.
  apply message_round_trip in E. by exists cert, alg, parsed, name, sig, b.
Qed.

Lemma cmp_respond_Ok app o req t body b m der :
  message_from_der body = inl m -> request_of m req -> expected_response (message_type req) = Some t ->
  cmp_respond app o req t body b = Ok der ->
  exists cfg ca key rm, head (ca_configs app) = Some cfg /\ get_ca app (cfg_id cfg) = Some ca /\
    Issuance.resolve_signing_key (cmp_utf8_text o) (cmp_read_file o) cfg (hsm app) = Ok key /\
    message_from_der der = inl rm /\ answers m rm (server_nonce o) /\ signed_by_ca o ca key rm.
Proof.
  intros Hm (Hbody & Hid & Hnonce & _) Ht. unfold cmp_respond. rewrite Hm. cbn [of_lib obind]. intros E.
  take_ok E as raw E1. apply build_cmp_response_Ok in E1 as (rm0 & Hrm0 & Hty & Hne & Hrid & Hrs & Hrr).
  rewrite Hrm0 in E. cbn [of_lib obind] in E. take_ok E as der1 E2. apply of_lib_Ok, message_round_trip in E2.
  take_ok E as cfg E3. take_ok E as ca E4. take_ok E as key E5. apply ok_or_Ok in E3, E4.
  apply map_err_Ok in E. apply (protect_message_Ok _ _ _ _ _ _ _ E2) in E
    as (cert & alg & parsed & name & sig & bb & Hcert & Hname & Halg & Hcov & Hsig & Hder).
  eexists cfg, ca, key, _. split_and!; try done.
  - split; [|split_and!].
    + exists (message_type req), t. split_and!; try done. unfold body_type. by rewrite Hbody.
    + exists (transaction_id req). split; [done|]. cbn. rewrite Hrid. split; [|done].
      rewrite Hid in *. by destruct (h_transaction_id (m_header m)).
    + cbn. by rewrite Hrr, Hnonce.
    + cbn. by rewrite Hrs.
    + done.
  - exists cert, alg, sig, bb. cbn. by rewrite Halg.
Qed.

(** The response belongs to the request.  What is answered is a CMP
    message of the type the request's type calls for, with the request's
    transaction identifier, which is not empty, its sender's nonce returned
    and a nonce of the server's own, addressed to its sender; named after the
    first CA's certificate, which it carries, and signed over its header and
    body with that CA's key. *)
Theorem cmp_response_bound app cmp o s request s' resp :
  post_cmp app cmp o s request = (s', Ok resp) ->
  exists m rm cfg ca key, message_from_der request = inl m /\
    message_from_der (body resp) = inl rm /\
    status resp = 200 /\ answers m rm (server_nonce o) /\
    head (ca_configs app) = Some cfg /\ get_ca app (cfg_id cfg) = Some ca /\
    Issuance.resolve_signing_key (cmp_utf8_text o) (cmp_read_file o) cfg (hsm app) = Ok key /\
    signed_by_ca o ca key rm.
Proof.
  intros E. apply post_cmp_run in E as [[_ Hno]|(config & m & req & rt & _ & _ & Hm & Hr & _ & Hrt & Hor)].
  { by destruct (Hno resp). }
  destruct Hor as [(_ & _ & Hno)|(s1 & s2 & res & _ & _ & _ & _ & Hok)]; [by destruct (Hno resp)|].
  destruct (Hok resp eq_refl) as (b & raw & _ & Hraw & ->).
  destruct (cmp_respond_Ok _ _ _ _ _ _ _ _ Hm Hr Hrt Hraw) as (cfg & ca & key & rm & ? & ? & ? & ? & ? & ?).
  by exists m, rm, cfg, ca, key.
Qed.
End CmpSpec.

(** ** A small CMP library

    Messages are printed as a SEQUENCE of counted fields; printing a message
    that would not parse back is an error. *)

#[local] Instance GeneralName_eq_dec : EqDecision GeneralName.
Proof. solve_decision. Defined.
#[local] Instance ProtectionAlg_eq_dec : EqDecision ProtectionAlg.
Proof. solve_decision. Defined.
#[local] Instance PkiHeader_eq_dec : EqDecision PkiHeader.
Proof. solve_decision. Defined.
#[local] Instance PkiBody_eq_dec : EqDecision PkiBody.
Proof. solve_decision. Defined.
#[local] Instance PkiMessage_eq_dec : EqDecision PkiMessage.
Proof. solve_decision. Defined.

Definition counted (b : bytes) : bytes := Z.of_nat (length b) :: b.
Definition optional (o : option bytes) : bytes := match o with Some b => 1 :: b | None => [0] end.
Definition print_name (g : GeneralName) : bytes :=
  match g with
  | DirectoryName (inl d) => 4 :: d
  | Rfc822Name s => 1 :: bytes_of_string s
  | _ => [0]
  end.
Definition print_body (b : PkiBody) : bytes :=
  match b with
  | BIr r => 0 :: r | BIp r => 1 :: r | BRr r => 11 :: r | BRp r => 12 :: r
  | BGenm r => 21 :: r | BGenp r => 22 :: r | _ => [99]
  end.
Definition print_message (m : PkiMessage) : bytes :=
  let h := m_header m in
  48 :: concat (map counted [
    print_name (h_sender h); print_name (h_recipient h);
    optional (option_map alg_oid (protection_alg h));
    optional (match protection_alg h ≫= alg_parameters with Some (inl p) => Some p | _ => None end);
    optional (h_transaction_id h); optional (h_sender_nonce h); optional (h_recip_nonce h);
    print_body (m_body m); optional (m_protection m);
    optional (option_map (fun l => concat (map counted l)) (extra_certs m))]) ++ replicate 50 0.

Fixpoint uncounted (fuel : nat) (b : bytes) : list bytes :=
  match fuel, b with
  | S fuel', n :: l => if n =? 0 then [] else take (Z.to_nat n) l :: uncounted fuel' (drop (Z.to_nat n) l)
  | _, _ => []
  end.
Definition read_optional (b : bytes) : option bytes := match b with 1 :: r => Some r | _ => None end.
Definition read_name (b : bytes) : GeneralName :=
  match b with
  | 4 :: d => DirectoryName (inl d)
  | 1 :: s => Rfc822Name (string_of_bytes s)
  | _ => OtherName []
  end.
Definition read_message_body (b : bytes) : PkiBody :=
  match b with
  | 0 :: r => BIr r | 1 :: r => BIp r | 11 :: r => BRr r | 12 :: r => BRp r
  | 21 :: r => BGenm r | 22 :: r => BGenp r | _ => BOther []
  end.
Definition read_message (d : bytes) : PkiMessage + string :=
  match uncounted (length d) (tail d) with
  | [s; r; a; p; t; sn; rn; b; prot; certs] =>
      let alg := option_map (fun o => MkAlg o (inl o) (option_map inl (read_optional p))) (read_optional a) in
      inl (MkMessage
        (MkHeader 2 (read_name s) (read_name r) None alg None None (read_optional t) (read_optional sn)
           (read_optional rn) None None)
        (read_message_body b) (read_optional prot)
        (option_map (fun l => uncounted (length l) l) (read_optional certs)))
  | _ => inr "not a message"
  end.
Definition message_der (m : PkiMessage) : bytes + string :=
  let d := print_message m in
  if bool_decide (read_message d = inl m) then inl d else inr "not printable".

Definition checksum (b : bytes) : Z := foldr Z.add 0 b mod 251.

#[local] Instance example_cmp_lib : CmpLib := {
  message_from_der := read_message;
  message_to_der := message_der;
  header_to_der h := inl (print_name (h_sender h) ++ optional (h_transaction_id h) ++ optional (h_sender_nonce h));
  body_to_der b := inl (print_body b);
  pbm_from_der b :=
    match b with
    | [salt; n] => inl (MkPbm [salt] [2; 16; 840; 1; 101; 3; 4; 2; 1] (Some n) [1; 2; 840; 113549; 2; 9])
    | _ => inr "not parameters"
    end;
  spec_directory_name b := inl (DirectoryName (inl b));
  spec_rfc822 s := inl (Rfc822Name s);
  directory_name b := inl (DirectoryName (inl b));
  algorithm_from_der b := inl (MkAlg b (inl b) None);
  signing_algorithm_der _ _ := Some [5];
  spki_verify spki b _ bits := if bool_decide (bits = spki ++ [checksum b]) then inl tt else inr "bad signature";
  decode_bit_string b := inl b;
  cert_req_messages b :=
    match b with
    | [subject; key] =>
        inl [([2; 1; 0], MkCertReqMsg (Some (inl [subject])) (Some (inl [key])) None (inl [1; 2; 3])
               (Some (PopSignature false (inl []) [key])))]
    | _ => inr "not requests"
    end;
  cert_rep_to_der l := inl (concat (map (fun r => default [] (issued_certificate r)) l));
  rev_details b := inl (map (fun n => [n]) b);
  template_serial b :=
    inl (match b with [n] => if n =? 0 then None else Some (replicate (Z.to_nat n) 0) | _ => None end);
  rev_rep_to_der l := inl l;
  gen_msg _ := inl [];
  null_to_der := inl [5; 0]
}.

#[local] Instance example_cmp_laws : CmpLaws.
Proof.
  split. intros m d. cbn. unfold message_der. case_bool_decide as Hp; [|done]. intros [= <-]. exact Hp.
Qed.

(** ** Examples *)

Definition cmp_config : CmpConfig := MkCmpConfig true true true true true true ["CN=A"%string].
Definition cmp_outside : CmpOutside :=
  MkCmpOutside example_now (fun _ => example_now) None (fun _ => Ok tt) example_call example_now
    example_inputs (fun _ => inl [1]) (fun _ => EmptyString) (MkInsertFaults None "duplicate") example_call
    (fun _ => None) (fun _ => None) (fun _ => example_call) [7; 7] tt example_call.
Definition example_secrets : gmap string string := {["CN=A"%string := "55"%string]}.

(** A request of the sender A, with the protection given. *)
Definition cmp_request (tid : bytes) (b : PkiBody) (alg : oid) (params : option bytes) (bits cert : bytes)
  : bytes :=
  print_message (MkMessage
    (MkHeader 2 (DirectoryName (inl [65])) (Rfc822Name "ca") None
       (Some (MkAlg alg (inl alg) (option_map inl params))) None None (Some tid) (Some [3; 3]) None None None)
    b (Some bits) (Some [cert])).
(** Signed by the holder of the key 65, whose certificate the CA 66 issued. *)
Definition signed_request (tid : bytes) (b : PkiBody) : bytes :=
  let covered := example_tlv 48 ([4; 65] ++ (1 :: tid) ++ [1; 3; 3] ++ print_body b) in
  cmp_request tid b [5] None [65; checksum covered] [48; 65; 66].

Definition example_post_cmp (cmp : option CmpConfig) (s : AppState) (body : bytes)
  : AppState * outcome Response KipukaError :=
  post_cmp (fun _ b => [checksum b]) (fun _ k b => inl (k ++ [checksum b])) example_secrets
    (fun h => inl (bytes_of_string h)) example_digest example_json EnrollSpec.example_app cmp cmp_outside s body.

Definition ir_request : bytes := signed_request [1] (BIr [65; 2]).
Definition row_of (serial subject : string) : CertRow :=
  MkCertRow serial subject "CN=B" "t0" "t1" [] "main" "default" "active" None None.
Definition two_rows : AppState := set_certificates example_state [row_of "1" "CN=A"; row_of "3" "CN=C"].

Example ir_is_answered : exists s, example_post_cmp (Some cmp_config) example_state ir_request =
  (s, Ok (cmp_http_response (print_message (MkMessage
    (MkHeader 2 (DirectoryName (inl [66])) (DirectoryName (inl [65])) None (Some (MkAlg [5] (inl [5]) None))
       None None (Some [1]) (Some [7; 7]) (Some [3; 3]) None None)
    (BIp [48; 65; 66; 1]) (Some [1]) (Some [[48; 66; 66]]))))).
Proof. apply answer_of. vm_compute. reflexivity. Qed.

(** The shared secret protects as well: code and key of one byte each. *)
Definition mac_request (salt : Z) : bytes :=
  let b := BIr [65; 2] in
  let covered := example_tlv 48 ([4; 65] ++ [1; 1] ++ [1; 3; 3] ++ print_body b) in
  let key := Nat.iter 3 (fun x => [checksum x]) ([53; 53] ++ [salt]) in
  cmp_request [1] b [1; 2; 840; 113533; 7; 66; 13] (Some [salt; 3]) (key ++ [checksum covered]) [].

Definition answered (r : AppState * outcome Response KipukaError) : bool :=
  match r.2 with Ok _ => true | _ => false end.
Lemma answered_Ok r : answered r = true -> exists s resp, r = (s, Ok resp).
Proof. destruct r as [s [resp|e|]]; [|done..]. intros _. by exists s, resp. Qed.
Definition statuses (r : AppState * outcome Response KipukaError) : list (string * string) :=
  map (fun x => (cr_serial x, cr_status x)) (certificates r.1).

Example mac_is_accepted : answered (example_post_cmp (Some cmp_config) example_state (mac_request 9)) = true.
Proof. vm_compute. reflexivity. Qed.
Example tampering_is_refused :
  (example_post_cmp (Some cmp_config) example_state (<[25%nat := 3]> ir_request)).2 =
  Err (EAuth "CMP signature verification failed: bad signature").
Proof. vm_compute. reflexivity. Qed.

(** A revocation by the owner, by another, and one whose second detail has
    no serial number. *)
Example owner_revokes :
  let r := example_post_cmp (Some cmp_config) two_rows (signed_request [1] (BRr [1])) in
  (answered r, statuses r) = (true, [("1", "revoked"); ("3", "active")]%string).
Proof. vm_compute. reflexivity. Qed.
Example other_is_refused :
  let r := example_post_cmp (Some cmp_config) two_rows (signed_request [1] (BRr [1; 3])) in
  (answered r, statuses r) = (false, [("1", "active"); ("3", "active")]%string).
Proof. vm_compute. reflexivity. Qed.
Example revocation_is_not_atomic :
  let r := example_post_cmp (Some cmp_config) two_rows (signed_request [1] (BRr [1; 0])) in
  (r.2, statuses r) =
  (Err (EBadRequest "RevDetails CertTemplate missing serial number"), [("1", "revoked"); ("3", "active")]%string).
Proof. vm_compute. reflexivity. Qed.
(** Without a transaction identifier the certificate is issued and stored,
    and the answer is an error. *)
Example issued_without_answer :
  let r := example_post_cmp (Some cmp_config) example_state (signed_request [] (BIr [65; 2])) in
  (r.2, statuses r) =
  (Err (EBadRequest "cannot build CMP response: empty transaction ID"), [("2", "active")]%string).
Proof. vm_compute. reflexivity. Qed.

Lemma cmp_request_authentic_witness : exists s resp m req,
  example_post_cmp (Some cmp_config) example_state ir_request = (s, Ok resp) /\
  read_message ir_request = inl m /\ request_of m req /\
  (signed EnrollSpec.example_app cmp_outside example_state m [48; 65; 66] \/
   exists alg, protection req = MacProtection alg).
Proof.
  assert (E : answered (example_post_cmp (Some cmp_config) example_state ir_request) = true)
    by (vm_compute; reflexivity).
  apply answered_Ok in E as (s & resp & E).
  destruct (cmp_request_authentic _ _ _ _ _ _ _ _ _ _ _ _ _ E)
    as [[_ Hno]|(config & m & req & _ & _ & Hm & Hr & Hau)]; [by destruct (Hno resp)|].
  exists s, resp, m, req. split_and!; [exact E|exact Hm|exact Hr|].
  destruct (protection req) as [alg c|alg] eqn:Ep; [left|right; by exists alg].
  assert (Hc : c = [48; 65; 66]).
  { destruct Hau as (-> & _). vm_compute in Hm. injection Hm as <-. reflexivity. }
  by rewrite <- Hc.
Defined.

Lemma cmp_effects_witness : exists s resp,
  example_post_cmp (Some cmp_config) example_state ir_request = (s, Ok resp) /\
  exists req row, enrolled_row EnrollSpec.example_app cmp_outside req row /\ certificates s = [row].
Proof.
  assert (E : answered (example_post_cmp (Some cmp_config) example_state ir_request) = true)
    by (vm_compute; reflexivity).
  apply answered_Ok in E as (s & resp & E). exists s, resp. split; [exact E|].
  destruct (cmp_effects _ _ _ _ _ _ _ _ _ _ _ _ _ E) as (_ & _ & Hok).
  destruct (Hok resp eq_refl) as (config & m & req & s1 & _ & Hm & Hr & _ & _ & Heff).
  destruct Hr as (Hb & _). vm_compute in Hm. injection Hm as <-. injection Hb as Ht _.
  unfold effect in Heff. rewrite <- Ht in Heff. destruct Heff as (row & Hrow & Hc & _).
  exists req, row. split; [exact Hrow|exact Hc].
Defined.

Lemma cmp_revocation_by_owner_witness : exists s resp,
  example_post_cmp (Some cmp_config) two_rows (signed_request [1] (BRr [1])) = (s, Ok resp) /\
  certificates s !! 0%nat <> Some (row_of "1" "CN=A") /\
  exists m cert_der, signed EnrollSpec.example_app cmp_outside two_rows m cert_der.
Proof.
  assert (E : answered (example_post_cmp (Some cmp_config) two_rows (signed_request [1] (BRr [1]))) = true)
    by (vm_compute; reflexivity).
  apply answered_Ok in E as (s & resp & E). exists s, resp. split; [exact E|].
  assert (Hs : statuses (s, Ok resp) = [("1", "revoked"); ("3", "active")]%string)
    by (rewrite <- E; vm_compute; reflexivity).
  assert (Hne : certificates s !! 0%nat <> Some (row_of "1" "CN=A")).
  { unfold statuses in Hs. simpl in Hs. destruct (certificates s) as [|x l]; [done|]. simpl in *. intros [= ->].
    discriminate Hs. }
  split; [exact Hne|].
  assert (Hnd : NoDup (map cr_serial (certificates two_rows))).
  { cbn. apply NoDup_cons. split; [by rewrite list_elem_of_singleton|apply NoDup_singleton]. }
  destruct (cmp_revocation_by_owner _ _ _ _ _ _ _ _ _ _ _ _ _ 0 (row_of "1" "CN=A")
    Hnd E eq_refl)
    as [Hsame|(_ & config & m & cert_der & signer & _ & _ & _ & Hsigned & _)]; [by destruct Hne|].
  by exists m, cert_der.
Defined.

Lemma cmp_response_bound_witness : exists s resp m rm,
  example_post_cmp (Some cmp_config) example_state ir_request = (s, Ok resp) /\
  read_message ir_request = inl m /\ read_message (body resp) = inl rm /\ answers m rm [7; 7].
Proof.
  assert (E : answered (example_post_cmp (Some cmp_config) example_state ir_request) = true)
    by (vm_compute; reflexivity).
  apply answered_Ok in E as (s & resp & E).
  destruct (cmp_response_bound _ _ _ _ _ _ _ _ _ _ _ _ _ E)
    as (m & rm & cfg & ca & key & Hm & Hrm & _ & Ha & _).
  exists s, resp, m, rm. split; [exact E|]. split; [exact Hm|]. split; [exact Hrm|exact Ha].
Defined.
