(* ===== verification/CoapBridge.v ===== *)
(** * EST over CoAP: the handler

    [src/routes/coap.rs]: the server's implementation of the trait
    [EstHandler] that the CoAP server calls with a parsed request and the
    client certificate of the DTLS connection.  Here it is an instance of the
    class of CoapServer.v, with the program's state, the CA pool and the audit
    events spawned but not yet written made explicit.

    The trait method runs in a [spawn_blocking] task of the runtime, so a
    handle of the runtime is at hand and [block_on] runs there. *)
From S2P Require Import Prelude Words Text Errors Calendar X509 Der Transfer Issuance AuditLog NameMatch EnrollAuthz HaPool CsrAttrs Enroll Labels CoapBlock CoapRouter CoapServer.
Open Scope Z_scope.

(** What one call reads from outside. *)
Record CallWorld `{X509Lib} : Type := MkCallWorld {
  cw_revocation : bytes -> outcome unit string;
  cw_admission : AuditCall;
  cw_profile_now : Z;
  cw_inputs : IssueInputs Coins;
  cw_read_file : string -> bytes + string;
  cw_utf8_error_text : bytes -> string;
  cw_insert : InsertFaults;
  cw_issue_event : AuditCall
}.
Arguments MkCallWorld {_}.

(** An event handed to [handle.spawn]. *)
Record SpawnedAudit : Type := MkSpawned {
  sp_event_type : string;
  sp_actor : string;
  sp_detail : string
}.

Record BridgeState : Type := MkBridge {
  bridge_app : AppState;
  bridge_pool : option CaPool;
  spawned : list SpawnedAudit;
  calls : nat
}.

Section CoapBridge.
Context `{HL : X509Lib} `{HC : CmsOids} `{HE : Encoder} `{HA : !AttributeOids}.
Variable authz_reason : AuthzError -> string.
Variable to_lowercase : string -> string.
(** The quoted form of a string. *)
Variable debug : string -> string.
Variable digest : option bytes -> bytes -> string.
Variable json_object : list (string * string) -> string.
Variable app : AppConfig.
(** The outside of each call. *)
Variable world : nat -> CallWorld.

(** ** Labels *)

Definition debug_option (o : option string) : string :=
  match o with Some s => "Some(" +:+ debug s +:+ ")" | None => "None" end.

Definition resolve_label (pool : option CaPool) (label : option string)
  : option CaPool * CoapResult LabelExtractor :=
  let (pool, r) := resolve debug app pool label in
  (pool, map_err (fun e =>
     match e with
     | ENotFound => ResourceNotFound ("unknown EST label: " +:+ debug_option label)
     | other => Internal ("label resolution failed: " +:+ kipuka_error_to_string other)
     end) r).

(** The check of the name before anything else. *)
Definition label_known (label : option string) : bool :=
  match label with
  | Some name => is_empty name || existsb (fun e => String.eqb (label_name e) name) (labels (est app))
  | None => true
  end.

(** Whether the label's methods leave out both that a certificate serves. *)
Definition mtls_excluded (label : option string) : bool :=
  match List.find (fun c => bool_decide (Some (label_name c) = label)) (labels (est app)) with
  | Some c =>
      negb (bool_decide (label_auth_methods c = [])) &&
      negb (existsb (fun m => bool_decide (m = AMtls)) (label_auth_methods c)) &&
      negb (existsb (fun m => bool_decide (m = ACertificate)) (label_auth_methods c))
  | None => false
  end.

(** ** The operations *)

Definition handle_cacerts (pool : option CaPool) (label : option string)
  : option CaPool * CoapResult EstResponse :=
  let (pool, l) := resolve_label pool label in
  (pool,
   let? l := l in
   let? ca := ok_or (get_ca app (label_ca l)) (Internal ("CA not found for id=" +:+ label_ca l)) in
   let? pkcs7_der := map_err (fun e => Internal ("PKCS#7 build failed: " +:+ kipuka_error_to_string e))
     (build_certs_only_pkcs7 [ca_cert_der ca]) in
   Ok (MkEstResponse pkcs7_der APPLICATION_PKCS7_MIME_CERTS_ONLY
         (Some (MkAudit "coap_cacerts" ("ca_id=" +:+ ca_state_id ca))))).

(** [handle_simpleenroll] up to the issued certificate, with its CA. *)
Definition coap_issue (w : CallWorld) (csr_der : bytes) (l : LabelExtractor) (identity : string)
  : CoapResult (CaState * IssuanceResult) :=
  let ca_id := label_ca l in
  let? _ := map_err (fun reason => Forbidden ("enrollment not authorized: " +:+ authz_reason reason))
    (authorize_csr_der csr_subject_attrs csr_sans (fun d => of_lib id (csr_from_der d)) csr_der identity
       (enroll_policy l)) in
  let? ca := ok_or (get_ca app ca_id) (Internal ("CA not found for id=" +:+ ca_id)) in
  let? ca_cfg := ok_or (List.find (fun c => String.eqb (cfg_id c) ca_id) (ca_configs app))
    (Internal ("CA config not found for id=" +:+ ca_id)) in
  let? key := map_err (fun e => Internal ("signing key resolution failed: " +:+ kipuka_error_to_string e))
    (Issuance.resolve_signing_key (cw_utf8_error_text w) (cw_read_file w) ca_cfg (hsm app)) in
  let? r := map_err (fun e =>
      let msg := "certificate issuance failed: " +:+ issuance_error_to_string e in
      if is_client_error e then InvalidMessage msg else Internal msg)
    (Issuance.issue_certificate (cw_inputs w) csr_der (label_profile ca (cw_profile_now w)) (ca_cert_der ca)
       key (ca_hash_algorithm ca) (ca_ocsp_url ca) (ca_crl_url ca)) in
  Ok (ca, r).

Definition handle_simpleenroll (w : CallWorld) (s : AppState) (pool : option CaPool) (csr_der : bytes)
    (label : option string) (client_cert : option ClientCertInfo)
  : AppState * option CaPool * CoapResult EstResponse :=
  if bool_decide (csr_der = []) then (s, pool, Err (InvalidMessage "empty CSR payload"))
  else
    let (pool, l) := resolve_label pool label in
    let identity := match client_cert with Some c => CoapServer.subject_dn c | None => EmptyString end in
    match (let? l := l in let? (ca, r) := coap_issue w csr_der l identity in Ok (l, ca, r)) with
    | Err e => (s, pool, Err e)
    | Panic => (s, pool, Panic)
    | Ok (l, ca, r) =>
        let (s, persisted) := persist_certificate digest json_object s (cw_insert w) (cw_issue_event w)
          (label_ca l) (profile_name (label_profile ca (cw_profile_now w))) r in
        (s, pool,
         let? _ := map_err (fun e => Internal (kipuka_error_to_string e)) persisted in
         let? pkcs7_der := map_err (fun e => Internal ("PKCS#7 wrap failed: " +:+ kipuka_error_to_string e))
           (build_certs_only_pkcs7 [certificate_der r]) in
         Ok (MkEstResponse pkcs7_der APPLICATION_PKCS7_MIME_CERTS_ONLY
               (Some (MkAudit "coap_simpleenroll"
                  ("serial=" +:+ serial_number r +:+ " subject=" +:+ Issuance.subject_dn r)))))
    end.

Definition handle_simplereenroll (w : CallWorld) (s : AppState) (pool : option CaPool) (csr_der : bytes)
    (label : option string) (client_cert : option ClientCertInfo)
  : AppState * option CaPool * CoapResult EstResponse :=
  match client_cert with
  | None =>
      (s, pool, Err (Unauthorized "simplereenroll requires DTLS client certificate authentication"))
  | Some _ =>
      let '(s, pool, r) := handle_simpleenroll w s pool csr_der label client_cert in
      (s, pool,
       let? resp := r in
       Ok (MkEstResponse (resp_payload resp) (resp_content_format resp)
             (option_map (fun a => MkAudit "coap_simplereenroll" (CoapServer.detail a))
                (resp_audit_event resp))))
  end.

Definition handle_csrattrs (pool : option CaPool) (label : option string)
  : option CaPool * CoapResult EstResponse :=
  let (pool, l) := resolve_label pool label in
  (pool,
   let? l := l in
   let attributes := csrattrs_attributes app l in
   let template := csrattrs_template app l in
   let? csrattrs_der := map_err
     (fun e => Internal ("CSR attributes encoding failed: " +:+ kipuka_error_to_string e))
     (encode_csr_attrs_with_template to_lowercase attributes template) in
   let detail := match csrattrs_der with
                 | [] => "empty attributes"
                 | _ => pretty (length attributes) +:+ " attributes"
                 end in
   Ok (MkEstResponse csrattrs_der APPLICATION_CSRATTRS (Some (MkAudit "coap_csrattrs" detail)))).

(** ** Audit *)

Definition coap_denial_audit (operation : EstOperation) (err : CoapError) : option (string * string) :=
  match operation with
  | SimpleEnroll | SimpleReenroll =>
      let event_type := match operation with
                        | SimpleEnroll => "coap_simpleenroll_denied"
                        | _ => "coap_simplereenroll_denied"
                        end in
      match err with
      | Forbidden msg | InvalidMessage msg => Some (event_type, msg)
      | _ => None
      end
  | _ => None
  end.

(** What is spawned for a result. *)
Definition audit_of (operation : EstOperation) (actor : string) (result : CoapResult EstResponse)
  : list SpawnedAudit :=
  match result with
  | Ok resp =>
      match resp_audit_event resp with
      | Some a => [MkSpawned (CoapServer.event_type a) actor (CoapServer.detail a)]
      | None => []
      end
  | Err err =>
      match coap_denial_audit operation err with
      | Some (event_type, detail) => [MkSpawned event_type actor detail]
      | None => []
      end
  | Panic => []
  end.

(** A spawned task, when the runtime runs it. *)
Definition run_spawned (s : AppState) (a : SpawnedAudit) (c : AuditCall) : AppState :=
  if is_empty (sp_actor a)
  then record_audit_event digest json_object s (sp_event_type a) (sp_detail a) c
  else record_audit_event_with_actor digest json_object s (sp_event_type a) (sp_actor a) (sp_detail a) c.

Definition audit_task (h : BridgeState) (i : nat) (c : AuditCall) : BridgeState :=
  match spawned h !! i with
  | Some a => MkBridge (run_spawned (bridge_app h) a c) (bridge_pool h) (delete i (spawned h)) (calls h)
  | None => h
  end.

(** ** [handle] *)

Definition is_enrollment (operation : EstOperation) : bool :=
  match operation with SimpleEnroll | SimpleReenroll | ServerKeygen => true | _ => false end.

(** Authentication and admission of an enrollment: an error ends the call
    without an audit event of the bridge. *)
Definition admit_request (w : CallWorld) (s : AppState) (label : option string)
    (client_cert : option ClientCertInfo) : AppState * CoapResult unit :=
  match client_cert with
  | None => (s, Err (Forbidden "authenticated DTLS client certificate required"))
  | Some cert =>
      if mtls_excluded label then (s, Err (Forbidden "mTLS not permitted for label"))
      else
        match map_err Forbidden (cw_revocation w (der_bytes cert)) with
        | Ok _ =>
            let (s, r) := admit_enrollment digest json_object s (CoapServer.subject_dn cert) "coap"
                            (cw_admission w) in
            (s, map_err (fun e => Internal (kipuka_error_to_string e)) r)
        | r => (s, r)
        end
  end.

Definition run_operation (w : CallWorld) (s : AppState) (pool : option CaPool) (operation : EstOperation)
    (label : option string) (payload : bytes) (client_cert : option ClientCertInfo)
  : AppState * option CaPool * CoapResult EstResponse :=
  match operation with
  | CaCerts => let (pool, r) := handle_cacerts pool label in (s, pool, r)
  | SimpleEnroll => handle_simpleenroll w s pool payload label client_cert
  | SimpleReenroll => handle_simplereenroll w s pool payload label client_cert
  | CsrAttrs => let (pool, r) := handle_csrattrs pool label in (s, pool, r)
  | ServerKeygen =>
      (s, pool, Err (Internal "server key generation not yet implemented for CoAP transport"))
  end.

Definition coap_handle (h : BridgeState) (operation : EstOperation) (label : option string)
    (payload : bytes) (content_format : option Z) (client_cert : option ClientCertInfo)
  : BridgeState * CoapResult EstResponse :=
  let w := world (calls h) in
  let leave s r := (MkBridge s (bridge_pool h) (spawned h) (S (calls h)), r) in
  if negb (label_known label) then
    leave (bridge_app h) (Err (ResourceNotFound ("unknown EST label: " +:+ default EmptyString label)))
  else
    let '(s, admitted) :=
      if is_enrollment operation then admit_request w (bridge_app h) label client_cert
      else (bridge_app h, Ok tt) in
    match admitted with
    | Err e => leave s (Err e)
    | Panic => leave s Panic
    | Ok _ =>
        let '(s, pool, result) := run_operation w s (bridge_pool h) operation label payload client_cert in
        let actor := match client_cert with Some c => CoapServer.subject_dn c | None => EmptyString end in
        (MkBridge s pool (spawned h ++ audit_of operation actor result) (S (calls h)), result)
    end.

Definition bridge_handler : EstHandler BridgeState := coap_handle.
End CoapBridge.
