(* ===== verification/CoapBridgeSpec.v ===== *)
(** * Enrollment over CoAP, end to end

    Of CoapBridge.v and, with CoapServer.v, of the CoAP transport as a whole:
    which certificates a call, a server event and a retransmission issue. *)
From S2P Require Import Prelude Words Text Errors Calendar X509 Der ExampleLibs Transfer Issuance IssuanceSpec AuditLog AuditSpec NameMatch EnrollAuthz HaPool CsrAttrs Enroll EnrollSpec Labels CoapBlock CoapMessage CoapRouter DtlsCache CoapServer CoapServerSpec CoapBridge.
Open Scope Z_scope.

Section CoapBridgeSpec.
Context `{HL : X509Lib} `{HC : CmsOids} `{HE : Encoder} `{HA : !AttributeOids}.
Variable authz_reason : AuthzError -> string.
Variable to_lowercase : string -> string.
Variable debug : string -> string.
Variable digest : option bytes -> bytes -> string.
Variable json_object : list (string * string) -> string.
Variable app : AppConfig.
Variable world : nat -> CallWorld.

Abbreviation coap_handle := (coap_handle authz_reason to_lowercase debug digest json_object app world).
Abbreviation coap_issue := (coap_issue authz_reason app).
Abbreviation resolve_label := (resolve_label debug app).

(** [row] is of a certificate issued to the client [cert] for its request,
    under a label that permits it: the client's certificate passed the
    revocation check, the names asked for are the client's to have, and the
    request proves its key. *)
Definition coap_row (w : CallWorld) (cert : ClientCertInfo) (label : option string) (csr_der : bytes)
    (row : CertRow) : Prop :=
  cw_revocation w (der_bytes cert) = Ok tt /\ label_known app label = true /\
  mtls_excluded app label = false /\
  exists pool pool' l csr ca cfg key r c,
    resolve_label pool label = (pool', Ok l) /\ csr_from_der csr_der = inl csr /\
    csr_checked csr_der csr (label_profile ca (cw_profile_now w)) /\
    authorized (csr_subject_cn csr_subject_attrs csr) (csr_sans csr) (CoapServer.subject_dn cert)
      (enroll_policy l) /\
    get_ca app (label_ca l) = Some ca /\ In cfg (ca_configs app) /\ cfg_id cfg = label_ca l /\
    Issuance.resolve_signing_key (cw_utf8_error_text w) (cw_read_file w) cfg (hsm app) = Ok key /\
    Issuance.issue_certificate (cw_inputs w) csr_der (label_profile ca (cw_profile_now w)) (ca_cert_der ca)
      key (ca_hash_algorithm ca) (ca_ocsp_url ca) (ca_crl_url ca) = Ok r /\
    cert_from_der (certificate_der r) = inl c /\
    row = certificate_row r (format_dn (cert_issuer c)) (label_ca l)
            (profile_name (label_profile ca (cw_profile_now w))).

Lemma coap_issue_Ok w csr_der l identity ca r :
  coap_issue w csr_der l identity = Ok (ca, r) ->
  exists csr cfg key, csr_from_der csr_der = inl csr /\
    csr_checked csr_der csr (label_profile ca (cw_profile_now w)) /\
    authorized (csr_subject_cn csr_subject_attrs csr) (csr_sans csr) identity (enroll_policy l) /\
    get_ca app (label_ca l) = Some ca /\ In cfg (ca_configs app) /\ cfg_id cfg = label_ca l /\
    Issuance.resolve_signing_key (cw_utf8_error_text w) (cw_read_file w) cfg (hsm app) = Ok key /\
    Issuance.issue_certificate (cw_inputs w) csr_der (label_profile ca (cw_profile_now w)) (ca_cert_der ca)
      key (ca_hash_algorithm ca) (ca_ocsp_url ca) (ca_crl_url ca) = Ok r.
Proof.
  unfold CoapBridge.coap_issue. intros E. take_ok E as u E1. take_ok E as ca' E2. take_ok E as cfg E3.
  take_ok E as key E4. take_ok E as r' E5. injection E as -> ->. destruct u.
  apply map_err_Ok in E1, E4, E5. apply ok_or_Ok in E2, E3. apply List.find_some in E3 as [Hin Hid].
  apply String.eqb_eq in Hid. pose proof E5 as E6. apply issue_certificate_Ok in E6 as (csr & Hcsr & _).
  pose proof Hcsr as (_ & Hp & _). eapply authorize_csr_der_Ok in E1; [|done].
  by exists csr, cfg, key.
Qed.

(** What a call of [handle_simpleenroll] does to the table. *)
Lemma handle_simpleenroll_spec w s pool csr_der label cert s' pool' r :
  handle_simpleenroll authz_reason debug digest json_object app w s pool csr_der label (Some cert) = (s', pool', r) ->
  cw_revocation w (der_bytes cert) = Ok tt -> label_known app label = true -> mtls_excluded app label = false ->
  pending_csrs s' = pending_csrs s /\
  ((certificates s' = certificates s /\ forall resp, r <> Ok resp) \/
   exists row, coap_row w cert label csr_der row /\ certificates s' = certificates s ++ [row] /\
     Forall (fun q => cr_serial q <> cr_serial row) (certificates s)).
Proof.
  unfold handle_simpleenroll. intros E Hrev Hk Hm. case_bool_decide.
  { injection E as <- _ <-. split; [done|]. by left. }
  destruct (resolve_label pool label) as [pool1 l] eqn:Er.
  destruct (obind l _) as [[[l1 ca] iss]|e|] eqn:Ei.
  2-3: injection E as <- _ <-; split; [done|]; by left.
  take_ok Ei as l2 E1. take_ok Ei as cr E2. destruct cr as [ca' iss']. injection Ei as -> -> ->. subst l.
  apply coap_issue_Ok in E2 as (csr & cfg & key & H1 & H2 & H3 & H4 & H5 & H6 & H7 & H8).
  destruct (persist_certificate _ _ _ _ _ _ _ _) as [s1 p] eqn:Ep. apply persist_spec in Ep as [Hp Hc].
  injection E as <- _ <-. split; [done|]. destruct Hc as [(c & Hcert & Hc & Hf)|[-> [e ->]]].
  - right. eexists. split; [|by split]. split_and!; [done..|]. by exists pool, pool1, l1, csr, ca, cfg, key, iss, c.
  - left. done.
Qed.

Lemma handle_simplereenroll_spec w s pool csr_der label cert s' pool' r :
  handle_simplereenroll authz_reason debug digest json_object app w s pool csr_der label (Some cert) = (s', pool', r) ->
  exists r0, handle_simpleenroll authz_reason debug digest json_object app w s pool csr_der label (Some cert) =
    (s', pool', r0) /\ ((exists resp, r = Ok resp) -> exists resp, r0 = Ok resp).
Proof.
  unfold handle_simplereenroll. destruct (handle_simpleenroll _ _ _ _ _ _ _ _ _ _ _) as [[s1 p1] r1].
  intros [= <- <- <-]. exists r1. split; [done|]. intros [resp E]. take_ok E as x Ex. by exists x.
Qed.

Lemma admit_request_Ok w s label cert s1 :
  admit_request digest json_object app w s label cert = (s1, Ok tt) ->
  exists c, cert = Some c /\ mtls_excluded app label = false /\ cw_revocation w (der_bytes c) = Ok tt /\
    admitted json_object s s1 (CoapServer.subject_dn c) "coap" (cw_admission w).
Proof.
  unfold admit_request. destruct cert as [c|]; [|done]. destruct (mtls_excluded app label); [done|].
  destruct (cw_revocation w (der_bytes c)) as [[]|e|] eqn:Hrev; [|done..]. cbn [map_err].
  destruct (admit_enrollment _ _ _ _ _ _) as [s2 [[]|e|]] eqn:Ea; cbn [map_err]; intros [= <-].
  apply admit_enrollment_Ok in Ea. by exists c.
Qed.

Lemma admit_request_frame w s label cert :
  certificates (admit_request digest json_object app w s label cert).1 = certificates s /\
  pending_csrs (admit_request digest json_object app w s label cert).1 = pending_csrs s.
Proof.
  unfold admit_request. destruct cert as [c|]; [|done]. destruct (mtls_excluded app label); [done|].
  destruct (map_err _ _); [|done..].
  pose proof (admit_enrollment_frame digest json_object s (CoapServer.subject_dn c) "coap" (cw_admission w)) as Hf.
  by destruct (admit_enrollment _ _ _ _ _ _).
Qed.

Definition issues (op : EstOperation) : bool :=
  match op with SimpleEnroll | SimpleReenroll => true | _ => false end.

(** One call, as a whole. *)
Lemma coap_handle_spec h op label payload cf cert h' r :
  coap_handle h op label payload cf cert = (h', r) ->
  let s := bridge_app h in let s' := bridge_app h' in
  let actor := match cert with Some c => CoapServer.subject_dn c | None => EmptyString end in
  calls h' = S (calls h) /\ pending_csrs s' = pending_csrs s /\
  (spawned h' = spawned h /\ (forall resp, r <> Ok resp) \/ spawned h' = spawned h ++ audit_of op actor r) /\
  ((certificates s' = certificates s /\ (issues op = true -> forall resp, r <> Ok resp)) \/
   issues op = true /\ exists c row s1, cert = Some c /\
     coap_row (world (calls h)) c label payload row /\
     admitted json_object s s1 (CoapServer.subject_dn c) "coap" (cw_admission (world (calls h))) /\
     certificates s' = certificates s ++ [row] /\
     Forall (fun q => cr_serial q <> cr_serial row) (certificates s)).
Proof.
  unfold CoapBridge.coap_handle. set (w := world (calls h)). intros E. cbv zeta.
  destruct (label_known app label) eqn:Hk; cbn [negb] in E.
  2: { injection E as <- <-. split; [done|]. split; [done|]. split; left; by split. }
  destruct (is_enrollment op) eqn:Hen.
  - pose proof (admit_request_frame w (bridge_app h) label cert) as [Hc1 Hp1].
    destruct (admit_request _ _ _ _ _ _ _) as [s1 [[]|e|]] eqn:Ea; cbn [fst] in Hc1, Hp1.
    2-3: injection E as <- <-; (split; [done|]; split; [done|]; split; left; by split).
    apply admit_request_Ok in Ea as (c & -> & Hm & Hrev & Had).
    destruct (run_operation _ _ _ _ _ _ _ _ _ _ _ _ _) as [[s2 pool2] res] eqn:Eo. injection E as <- <-.
    cbn [bridge_app calls spawned]. split; [done|].
    assert (Hop : pending_csrs s2 = pending_csrs s1 /\
      ((certificates s2 = certificates s1 /\ forall resp, res <> Ok resp) \/
       issues op = true /\ exists row, coap_row w c label payload row /\
         certificates s2 = certificates s1 ++ [row] /\
         Forall (fun q => cr_serial q <> cr_serial row) (certificates s1))).
    { destruct op; try done; cbn [run_operation] in Eo.
      - apply handle_simpleenroll_spec in Eo as [? [?|?]]; try done; (split; [done|]); [by left|by right].
      - apply handle_simplereenroll_spec in Eo as (r0 & Eo & Hok).
        apply handle_simpleenroll_spec in Eo as [? [[? Hno]|?]]; try done; (split; [done|]); [left|by right].
        split; [done|]. intros resp Hr. destruct Hok as [x Hx]; [by exists resp|]. by destruct (Hno x).
      - injection Eo as <- _ <-. split; [done|]. by left. }
    destruct Hop as [Hp Hor]. split; [congruence|]. split; [by right|].
    destruct Hor as [[Hc Hno]|[Hi (row & Hrow & Hc & Hf)]].
    + left. split; [congruence|done].
    + right. split; [done|]. exists c, row, s1. rewrite Hc1 in Hc, Hf. by split_and!.
  - destruct (run_operation _ _ _ _ _ _ _ _ _ _ _ _ _) as [[s2 pool2] res] eqn:Eo. injection E as <- <-.
    cbn [bridge_app calls spawned]. split; [done|].
    assert (Hs : s2 = bridge_app h).
    { destruct op; try done; cbn [run_operation] in Eo.
      - destruct (handle_cacerts _ _ _ _). by injection Eo as <- _ _.
      - destruct (handle_csrattrs _ _ _ _ _). by injection Eo as <- _ _. }
    subst s2. split; [done|]. split; [by right|]. left. split; [done|]. by destruct op.
Qed.

(** One call of the CoAP handler.  The table of certificates grows by at
    most one row, and only for an enrollment of a known label that permits
    client certificates: the row's serial number is new, the client's
    certificate passed the revocation check, its subject may have the names
    asked for under the label's policy, the request proves its key, and the
    admission was written to the audit trail first.  The client is told of
    an enrollment's success only if the row is there, and every result of an
    operation has its audit event spawned, with the client as the actor. *)
Theorem coap_handle_sound h op label payload cf cert h' r :
  coap_handle h op label payload cf cert = (h', r) ->
  let s := bridge_app h in let s' := bridge_app h' in
  let actor := match cert with Some c => CoapServer.subject_dn c | None => EmptyString end in
  calls h' = S (calls h) /\ pending_csrs s' = pending_csrs s /\
  (spawned h' = spawned h /\ (forall resp, r <> Ok resp) \/ spawned h' = spawned h ++ audit_of op actor r) /\
  ((certificates s' = certificates s /\ (issues op = true -> forall resp, r <> Ok resp)) \/
   issues op = true /\ exists c row s1, cert = Some c /\
     coap_row (world (calls h)) c label payload row /\
     admitted json_object s s1 (CoapServer.subject_dn c) "coap" (cw_admission (world (calls h))) /\
     certificates s' = certificates s ++ [row] /\
     Forall (fun q => cr_serial q <> cr_serial row) (certificates s)).
Proof. apply coap_handle_spec. Qed.

(** ** Parity of the transports *)

Lemma answers_returns {T} (r : outcome T KipukaError) o : answers r o -> returns r.
Proof. unfold answers, returns. destruct o; naive_solver. Qed.

Lemma encode_template_returns `{!EncoderLaws} attrs t :
  returns (encode_csr_attrs_with_template to_lowercase attrs t).
Proof.
  assert (Hnone : returns (match attrs with [] => Ok [] | _ => encode_csr_attrs attrs end)).
  { destruct attrs as [|a attrs]; [done|].
    eapply answers_returns, (encode_csr_attrs_answers to_lowercase). done. }
  unfold returns. destruct t as [t|]; [|exact Hnone]. destruct (has_content t) eqn:Ht.
  - by eapply answers_returns, encode_with_template_answers.
  - unfold encode_csr_attrs_with_template. rewrite Ht. exact Hnone.
Qed.

(** Both transports ask for the same attributes.  For a label that
    resolves, the CoAP answer is the DER of the list whose base64 is the body
    of the HTTP answer, empty exactly when that is 204 without a body; and
    one fails, as an internal error with the same text, when the other does. *)
Theorem csrattrs_parity `{!EncoderLaws} b64_encode pool label pool' l :
  resolve debug app pool label = (pool', Ok l) ->
  match (handle_csrattrs to_lowercase debug app pool label).2, get_csrattrs to_lowercase b64_encode app l with
  | Ok resp, Ok http =>
      resp_content_format resp = APPLICATION_CSRATTRS /\
      (status http = 204 /\ body http = [] /\ resp_payload resp = [] \/
       status http = 200 /\ body http = encode_est_base64 b64_encode (resp_payload resp))
  | Err e, Err e' => e = Internal ("CSR attributes encoding failed: " +:+ kipuka_error_to_string e')
  | _, _ => False
  end.
Proof.
  intros Hl. unfold handle_csrattrs, CoapBridge.resolve_label. rewrite Hl. cbn [map_err snd obind].
  unfold get_csrattrs.
  destruct (bool_decide (csrattrs_attributes app l = []) && _) eqn:E.
  - apply andb_true_iff in E as [Ha Ht]. apply bool_decide_eq_true in Ha.
    assert (encode_csr_attrs_with_template to_lowercase (csrattrs_attributes app l) (csrattrs_template app l) = Ok [])
      as ->.
    { unfold encode_csr_attrs_with_template. rewrite Ha. destruct (csrattrs_template app l) as [t|]; [|done].
      by destruct (has_content t). }
    cbn. split; [done|]. by left.
  - destruct (encode_csr_attrs_with_template _ _ _) as [b|e|] eqn:Ee; cbn [map_err obind]; [|done|].
    + split; [done|]. by right.
    + pose proof (encode_template_returns (csrattrs_attributes app l) (csrattrs_template app l)) as Hr.
      by rewrite Ee in Hr.
Qed.

(** ** Under the CoAP server *)

#[local] Instance under_server : EstHandler BridgeState :=
  bridge_handler authz_reason to_lowercase debug digest json_object app world.
Context {Ssl Env : Type} `{!Transport Ssl Env}.

(** The table of certificates behind a server. *)
Definition stored (s : Server Ssl Env BridgeState) : list CertRow :=
  certificates (bridge_app (handler_state s)).

(** A row of some call made on behalf of [cert]. *)
Definition row_for (cert : ClientCertInfo) (row : CertRow) : Prop :=
  exists n label csr_der, coap_row (world n) cert label csr_der row.

Lemma calls_growth cfg cert h h' :
  authenticated_calls cfg cert h h' ->
  exists rows, certificates (bridge_app h') = certificates (bridge_app h) ++ rows /\
    Forall (row_for cert) rows.
Proof.
  induction 1 as [h|h op label payload cf h' _ _ (rows & IH & Hf)].
  { exists []. by rewrite app_nil_r. }
  destruct (handle h op label payload cf (Some cert)) as [h1 r] eqn:E. cbn [fst] in *.
  destruct (coap_handle_spec _ _ _ _ _ _ _ _ E) as (_ & _ & _ & Hor).
  destruct Hor as [[Hc _]|(_ & c & row & s1 & [= <-] & Hrow & _ & Hc & _)].
  - exists rows. by rewrite IH, Hc.
  - exists (row :: rows). rewrite IH, Hc, <- app_assoc. split; [done|]. constructor; [|done].
    by eexists _, _, _.
Qed.

(** Certificates over CoAP go to authenticated clients.  Whatever events
    the server has processed, the next one leaves every row in its place,
    and if it adds any it is a datagram whose sender presented a certificate
    in its DTLS handshake, and each row added was issued to that certificate,
    as one call issues it. *)
Theorem coap_enrollments_authenticated cfg (e : Env) h evs ev :
  0 <= cfg_max_payload cfg ->
  let s := run_server cfg (server_start (Ssl := Ssl) e h) evs in
  let s' := (server_step cfg s ev).1 in
  exists rows, stored s' = stored s ++ rows /\
    (rows <> [] -> exists datagram peer now cert, ev = Received datagram peer now /\
       cert_of s' peer = Some cert /\ Forall (row_for cert) rows).
Proof.
  intros Hmax s s'. destruct (handler_only_authenticated cfg e h evs ev Hmax)
    as [Heq|(d & p & n & cert & Hev & Hcert & Hcalls)].
  - exists []. split; [|done]. unfold stored. rewrite app_nil_r. unfold s', s. by rewrite Heq.
  - apply calls_growth in Hcalls as (rows & Hr & Hf). exists rows. split; [exact Hr|].
    intros _. by exists d, p, n, cert.
Qed.

(** C12: an enrollment over CoAP is carried out once.  If processing a
    datagram has issued a certificate, then for the lifetime of the exchange,
    whatever other datagrams come, the same datagram from the same peer
    issues nothing more, and is answered with the bytes the first one was
    answered with, if it was. *)
Theorem coap_enrollment_once cfg (s : Server Ssl Env BridgeState) data peer t0 l t1 :
  0 <= cfg_max_payload cfg ->
  let s1 := (process_datagram cfg s data peer t0).1 in
  stored s1 <> stored s ->
  Forall (fun d => elapsed d.2 t0 < EXCHANGE_LIFETIME) l ->
  elapsed t1 t0 < EXCHANGE_LIFETIME ->
  let s2 := process_all cfg s1 l in
  stored (process_datagram cfg s2 data peer t1).1 = stored s2 /\
  exists m reply, parse data = Ok m /\
    exchanges (swept cfg s2 t1) !! (peer, msg_id m) = Some (data, reply, t0) /\
    process_datagram cfg s2 data peer t1 =
      match reply with
      | Some rsp => send_encoded (swept cfg s2 t1) peer rsp
      | None => (swept cfg s2 t1, Ok tt)
      end.
Proof.
  intros Hmax s1 Hrun Hl Ht s2.
  destruct (request_handled_at_most_once cfg s data peer t0 l t1 Hmax) as [Hh Hrest]; [|done|done|].
  - intros Heq. apply Hrun. exact (f_equal (fun h => certificates (bridge_app h)) Heq).
  - split; [|exact Hrest]. exact (f_equal (fun h => certificates (bridge_app h)) Hh).
Qed.
End CoapBridgeSpec.

(** ** Examples *)

Definition example_world (n : nat) : CallWorld :=
  MkCallWorld (fun der => if bool_decide (der = [7]) then Ok tt else Err "revoked") example_call example_now
    (MkInputs example_now example_now example_now (repeat 1 (S n)) tt (9000 * 366 * DAY_NS))
    (fun _ => inl [1]) (fun _ => EmptyString) (MkInsertFaults None "duplicate") example_call.
Abbreviation example_coap_handle :=
  (coap_handle (fun _ => EmptyString) (fun s => s) (fun s => s) example_digest example_json
     EnrollSpec.example_app example_world).
Definition device (der : bytes) : ClientCertInfo := MkCertInfo "CN=device" [1] der.
Definition example_bridge : BridgeState := MkBridge example_state None [] 0.

Example revoked_client_refused :
  (example_coap_handle example_bridge SimpleEnroll None IssuanceSpec.example_request None (Some (device [8]))).2 =
  Err (Forbidden "revoked").
Proof. vm_compute. reflexivity. Qed.
(** The subject of the request is A, that of the client device: a renewal
    over CoAP does not compare them. *)
Example renewal_for_another_subject :
  let r := example_coap_handle example_bridge SimpleReenroll None IssuanceSpec.example_request None (Some (device [7])) in
  (map cr_subject_dn (certificates (bridge_app r.1)), spawned r.1) =
  (["CN=A"%string], [MkSpawned "coap_simplereenroll" "CN=device" "serial=1 subject=CN=A"]).
Proof. vm_compute. reflexivity. Qed.
Example bad_request_audited :
  spawned (example_coap_handle example_bridge SimpleEnroll None [48; 65; 2; 3] None (Some (device [7]))).1 =
  [MkSpawned "coap_simpleenroll_denied" "CN=device"
     ("certificate issuance failed: invalid CSR: " +:+
      "CSR self-signature (proof-of-possession) verification failed: bad signature")].
Proof. vm_compute. reflexivity. Qed.

Lemma coap_handle_sound_witness : exists h resp,
  example_coap_handle example_bridge SimpleEnroll None IssuanceSpec.example_request None (Some (device [7])) = (h, Ok resp) /\
  exists row, coap_row (fun s => s) EnrollSpec.example_app (example_world 0) (device [7]) None IssuanceSpec.example_request row /\
    certificates (bridge_app h) = [row].
Proof.
  assert (E : match (example_coap_handle example_bridge SimpleEnroll None IssuanceSpec.example_request None
    (Some (device [7]))).2 with Ok _ => true | _ => false end = true) by (vm_compute; reflexivity).
  destruct (example_coap_handle example_bridge SimpleEnroll None IssuanceSpec.example_request None
    (Some (device [7]))) as [h [resp|e|]] eqn:Eh; [|discriminate E..]. clear E.
  exists h, resp. split; [reflexivity|].
  destruct (coap_handle_sound _ _ _ _ _ _ _ _ _ _ _ _ _ _ _ Eh) as (_ & _ & _ & [[_ Hno]|(_ & Hrow)]).
  - destruct (Hno eq_refl resp eq_refl).
  - destruct Hrow as (c & row & s1 & [= <-] & Hrow & _ & Hc & _). exists row. split; [exact Hrow|exact Hc].
Defined.

Lemma csrattrs_parity_witness :
  resolve (fun s => s) example_attrs_app None None =
    (None, Ok (MkLabel EmptyString "main" no_policy [] (Some example_template) None None)) /\
  exists resp http,
    (handle_csrattrs to_ascii_lowercase (fun s => s) example_attrs_app None None).2 = Ok resp /\
    get_csrattrs to_ascii_lowercase (fun b => b) example_attrs_app
      (MkLabel EmptyString "main" no_policy [] (Some example_template) None None) = Ok http /\
    body http = encode_est_base64 (fun b => b) (resp_payload resp) /\ resp_payload resp <> [].
Proof.
  set (l := MkLabel _ _ _ _ _ _ _).
  assert (E : resolve (fun s => s) example_attrs_app None None = (None, Ok l)) by reflexivity.
  split; [exact E|].
  pose proof (csrattrs_parity to_ascii_lowercase (fun s => s) example_attrs_app (fun b => b) None None None l E) as P.
  destruct (handle_csrattrs _ _ _ _ _) as [pool r] eqn:Eh. cbn [snd] in *.
  destruct (get_csrattrs _ _ _ _) as [http|e|] eqn:Eg; vm_compute in Eg; [|discriminate Eg..].
  destruct r as [resp|e|]; [|destruct P..]. exists resp, http. split; [reflexivity|]. split; [reflexivity|].
  destruct P as [_ [(Hs & _)|(_ & Hb)]].
  - injection Eg as <-. discriminate Hs.
  - split; [exact Hb|]. vm_compute in Eh. injection Eh as _ <-. discriminate.
Defined.

(** Under the server: a POST of the request to the enrollment path. *)
Abbreviation example_under_server :=
  (under_server (fun _ => EmptyString) (fun s => s) (fun s => s) example_digest example_json
     EnrollSpec.example_app example_world).
Definition coap_request (id : Z) : bytes := example_post id [] IssuanceSpec.example_request.
Definition coap_server : Server unit (list (bytes * SocketAddr)) BridgeState :=
  set_connections (server_start [] example_bridge)
    {[ example_addr 1 := MkConnection tt (MkIo [] []) (Some (device [7])) true 0 ]}.
Abbreviation coap_process :=
  (process_datagram (Transport0 := plain_transport) (EstHandler0 := example_under_server) example_cfg).

Lemma coap_enrollments_authenticated_witness :
  let s := run_server (Transport0 := plain_transport) (EstHandler0 := example_under_server) example_cfg
    (server_start (Ssl := unit) [] example_bridge) [Tick 5 []] in
  let s' := (server_step (Transport0 := plain_transport) (EstHandler0 := example_under_server) example_cfg s
    (Received (coap_request 1) (example_addr 1) 10)).1 in
  length (stored s') = 1%nat /\ exists cert, cert_of s' (example_addr 1) = Some cert.
Proof.
  intros s s'. assert (E : length (stored s') = 1%nat) by (vm_compute; reflexivity).
  split; [exact E|].
  destruct (coap_enrollments_authenticated (fun _ => EmptyString) (fun s => s) (fun s => s) example_digest
    example_json EnrollSpec.example_app example_world (Transport0 := plain_transport) example_cfg [] example_bridge
    [Tick 5 []] (Received (coap_request 1) (example_addr 1) 10) ltac:(vm_compute; discriminate))
    as (rows & Hrows & Hev).
  assert (E0 : stored s = []) by (vm_compute; reflexivity).
  assert (Hr : stored s' = stored s ++ rows) by exact Hrows. rewrite E0 in Hr. rewrite Hr in E.
  destruct Hev as (d & p & n & cert & Hev & Hcert & _).
  { intros Hnil. rewrite Hnil in E. discriminate E. }
  pose proof (f_equal (fun ev => match ev with Received _ q _ => q | _ => example_addr 0 end) Hev) as Hp.
  change (example_addr 1 = p) in Hp. exists cert. rewrite Hp. exact Hcert.
Defined.

Lemma coap_enrollment_once_witness :
  let s1 := (coap_process coap_server (coap_request 1) (example_addr 1) 10).1 in
  let s2 := process_all (Transport0 := plain_transport) (EstHandler0 := example_under_server) example_cfg s1
    [(coap_request 2, example_addr 1, 11)] in
  length (stored s2) = 2%nat /\
  stored (coap_process s2 (coap_request 1) (example_addr 1) 12).1 = stored s2.
Proof.
  intros s1 s2. split; [vm_compute; reflexivity|].
  refine (proj1 (coap_enrollment_once (fun _ => EmptyString) (fun s => s) (fun s => s) example_digest
    example_json EnrollSpec.example_app example_world (Transport0 := plain_transport) example_cfg coap_server
    (coap_request 1) (example_addr 1) 10 [(coap_request 2, example_addr 1, 11)] 12 _ _ _ _)).
  - vm_compute. discriminate.
  - vm_compute. discriminate.
  - repeat constructor.
  - reflexivity.
Defined.
