(* ===== verification/KeyGen.v ===== *)
(** * Key generation

    [src/ca/keygen.rs]: the key types the server can generate, their checks,
    and generation in software.  The cryptographic library is the interface
    [KeyGenLib]; the seed stands for its random generator. *)
From S2P Require Import Prelude Words Text.
Open Scope Z_scope.

Inductive KeyGenError : Type :=
  | UnsupportedKeyType (what : string)
  | KeyTooSmall (algorithm : string) (bits min_bits : Z)
  | SoftwareError (e : string)
  | HsmError (e : string)
  | ArchivalError (e : string).

Definition keygen_error_to_string (e : KeyGenError) : string :=
  match e with
  | UnsupportedKeyType w => "unsupported key type: " +:+ w
  | KeyTooSmall a b m =>
      a +:+ " key size " +:+ pretty b +:+ "-bit is below minimum " +:+ pretty m +:+ "-bit"
  | SoftwareError e => "software key generation failed: " +:+ e
  | HsmError e => "HSM key generation failed: " +:+ e
  | ArchivalError e => "key archival failed: " +:+ e
  end.

Inductive MlDsaLevel : Type := MlDsa44 | MlDsa65 | MlDsa87.
Inductive MlKemLevel : Type := MlKem512 | MlKem768 | MlKem1024.
Inductive ClassicalSigningAlg : Type :=
  | Rsa2048 | Rsa3072 | Rsa4096 | EcP256 | EcP384 | Ed25519 | Ed448.
Inductive EcCurve : Type := P256 | P384.
Inductive KeyType : Type :=
  | KRsa (bits : Z)                     (* u32 *)
  | KEcdsa (curve : EcCurve)
  | KMlDsa (level : MlDsaLevel)
  | KMlKem (level : MlKemLevel)
  | KCompositeMlDsa (ml_dsa : MlDsaLevel) (classical : ClassicalSigningAlg).

Definition ml_dsa_to_string (l : MlDsaLevel) : string :=
  match l with MlDsa44 => "ML-DSA-44" | MlDsa65 => "ML-DSA-65" | MlDsa87 => "ML-DSA-87" end.
Definition ml_kem_to_string (l : MlKemLevel) : string :=
  match l with MlKem512 => "ML-KEM-512" | MlKem768 => "ML-KEM-768" | MlKem1024 => "ML-KEM-1024" end.
Definition ec_curve_to_string (c : EcCurve) : string :=
  match c with P256 => "P-256" | P384 => "P-384" end.
Definition classical_to_string (c : ClassicalSigningAlg) : string :=
  match c with
  | Rsa2048 => "RSA-2048" | Rsa3072 => "RSA-3072" | Rsa4096 => "RSA-4096"
  | EcP256 => "EC-P-256" | EcP384 => "EC-P-384" | Ed25519 => "Ed25519" | Ed448 => "Ed448"
  end.

(** The derived [Debug] of a key type. *)
Definition ml_dsa_debug (l : MlDsaLevel) : string :=
  match l with MlDsa44 => "MlDsa44" | MlDsa65 => "MlDsa65" | MlDsa87 => "MlDsa87" end.
Definition classical_debug (c : ClassicalSigningAlg) : string :=
  match c with
  | Rsa2048 => "Rsa2048" | Rsa3072 => "Rsa3072" | Rsa4096 => "Rsa4096"
  | EcP256 => "EcP256" | EcP384 => "EcP384" | Ed25519 => "Ed25519" | Ed448 => "Ed448"
  end.
Definition key_type_debug (k : KeyType) : string :=
  match k with
  | KRsa bits => "Rsa(" +:+ pretty bits +:+ ")"
  | KEcdsa c => "Ecdsa(" +:+ match c with P256 => "P256" | P384 => "P384" end +:+ ")"
  | KMlDsa l => "MlDsa(" +:+ ml_dsa_debug l +:+ ")"
  | KMlKem l => "MlKem(" +:+ match l with MlKem512 => "MlKem512" | MlKem768 => "MlKem768"
                             | MlKem1024 => "MlKem1024" end +:+ ")"
  | KCompositeMlDsa m c =>
      "CompositeMlDsa { ml_dsa: " +:+ ml_dsa_debug m +:+ ", classical: " +:+ classical_debug c +:+ " }"
  end.

Record KeyGenResult : Type := MkKeyGen {
  public_key_der : bytes;
  private_key_der : bytes;
  generated_type : KeyType
}.

Record KeyGenConfig : Type := MkKeyGenConfig {
  use_hsm : bool;
  archive_key : bool;
  allowed_types : list KeyType
}.
Definition keygen_config_default : KeyGenConfig :=
  MkKeyGenConfig false false [
    KRsa 2048; KRsa 3072; KRsa 4096; KEcdsa P256; KEcdsa P384;
    KMlDsa MlDsa44; KMlDsa MlDsa65; KMlDsa MlDsa87;
    KMlKem MlKem512; KMlKem MlKem768; KMlKem MlKem1024;
    KCompositeMlDsa MlDsa44 EcP256; KCompositeMlDsa MlDsa65 EcP384; KCompositeMlDsa MlDsa87 EcP384].

Definition composite_sub_arc (ml_dsa : MlDsaLevel) (classical : ClassicalSigningAlg) : option Z :=
  match ml_dsa, classical with
  | MlDsa44, Rsa2048 => Some 37
  | MlDsa44, EcP256 => Some 38
  | MlDsa44, Rsa3072 => Some 39
  | MlDsa44, Ed25519 => Some 40
  | MlDsa65, Rsa3072 => Some 41
  | MlDsa65, EcP384 => Some 42
  | MlDsa65, Rsa4096 => Some 43
  | MlDsa65, Ed25519 => Some 44
  | MlDsa87, EcP384 => Some 45
  | MlDsa87, Ed448 => Some 46
  | _, _ => None
  end.

Definition MIN_RSA_BITS : Z := 2048.
Definition validate_key_type (k : KeyType) : outcome unit KeyGenError :=
  match k with
  | KRsa bits =>
      if bits <? MIN_RSA_BITS then Err (KeyTooSmall "RSA" bits MIN_RSA_BITS)
      else if negb ((bits =? 2048) || (bits =? 3072) || (bits =? 4096)) then
        Err (UnsupportedKeyType ("RSA " +:+ pretty bits +:+ "-bit (use 2048, 3072, or 4096)"))
      else Ok tt
  | _ => Ok tt
  end.

(** ** Generation in software *)

Inductive OsslParam : Type := UintParam (name : string) (v : Z) | Utf8Param (name value : string).

(** Where the generation of a classical key can fail. *)
Inductive KeygenStage : Type :=
  | ParamInit | ParamConfigure | ParamBuild | CtxInit | SetParams | Generate | SpkiOut | Pkcs8Out.
Definition stage_text (s : KeygenStage) : string :=
  match s with
  | ParamInit => "param builder init: " | ParamConfigure => "param configure: "
  | ParamBuild => "param build: " | CtxInit => "keygen ctx init: "
  | SetParams => "keygen set params: " | Generate => "key generation: "
  | SpkiOut => "SPKI extraction: " | Pkcs8Out => "PKCS#8 extraction: "
  end.

Class KeyGenLib : Type := {
  Seed : Type;
  (** the two encodings of a new key, or where it failed and why *)
  ossl_generate : Seed -> string -> list OsslParam -> (bytes * bytes) + (KeygenStage * string);
  BackendKey : Type;
  generate_ml_dsa : Seed -> string -> BackendKey + string;
  generate_ml_kem : Seed -> string -> BackendKey + string;
  generate_composite_ml_dsa : Seed -> Z -> BackendKey + string;
  public_key_spki_der : BackendKey -> bytes + string;
  backend_key_to_der : BackendKey -> bytes + string
}.

Section KeyGen.
Context `{KeyGenLib}.

Definition generate_classical_key (seed : Seed) (k : KeyType) (algorithm : string) (params : list OsslParam)
  : outcome KeyGenResult KeyGenError :=
  match ossl_generate seed algorithm params with
  | inl (spki, pkcs8) => Ok (MkKeyGen spki pkcs8 k)
  | inr (stage, e) => Err (SoftwareError (stage_text stage +:+ e))
  end.

Definition generate_pqc_key (k : KeyType) (generated : BackendKey + string)
  : outcome KeyGenResult KeyGenError :=
  let fail what e := Err (SoftwareError (what +:+ e)) in
  match generated with
  | inr e => fail "PQC key generation: " e
  | inl key =>
      match public_key_spki_der key with
      | inr e => fail "PQC SPKI extraction: " e
      | inl spki =>
          match backend_key_to_der key with
          | inr e => fail "PQC PKCS#8 extraction: " e
          | inl pkcs8 => Ok (MkKeyGen spki pkcs8 k)
          end
      end
  end.

Definition generate_software_key (seed : Seed) (k : KeyType) : outcome KeyGenResult KeyGenError :=
  match k with
  | KRsa bits => generate_classical_key seed k "RSA" [UintParam "bits" bits; UintParam "e" 65537]
  | KEcdsa c => generate_classical_key seed k "EC" [Utf8Param "group" (ec_curve_to_string c)]
  | KMlDsa l => generate_pqc_key k (generate_ml_dsa seed (ml_dsa_to_string l))
  | KMlKem l => generate_pqc_key k (generate_ml_kem seed (ml_kem_to_string l))
  | KCompositeMlDsa m c =>
      match composite_sub_arc m c with
      | None =>
          Err (UnsupportedKeyType ("unsupported composite ML-DSA combination: " +:+ ml_dsa_to_string m +:+
                 "+" +:+ classical_to_string c))
      | Some arc => generate_pqc_key k (generate_composite_ml_dsa seed arc)
      end
  end.

Definition generate_hsm_key (k : KeyType) : outcome KeyGenResult KeyGenError :=
  Err (HsmError "PKCS#11 PQC key generation pending kipuka-hsm integration").

Definition generate_key_pair (seed : Seed) (k : KeyType) (config : KeyGenConfig)
  : outcome KeyGenResult KeyGenError :=
  let? _ := validate_key_type k in
  if use_hsm config then generate_hsm_key k else generate_software_key seed k.

(** ** Lemmas *)

Lemma validate_key_type_Ok k :
  validate_key_type k = Ok tt <-> forall bits, k = KRsa bits -> bits = 2048 \/ bits = 3072 \/ bits = 4096.
Proof.
  destruct k as [bits|c|l|l|m c]; simpl; try naive_solver.
  unfold MIN_RSA_BITS. destruct (Z.ltb_spec bits 2048).
  { split; [done|]. intros Hb. destruct (Hb bits eq_refl) as [?|[?|?]]; lia. }
  destruct (Z.eqb_spec bits 2048), (Z.eqb_spec bits 3072), (Z.eqb_spec bits 4096); simpl;
    (split; [intros Hv b [= <-]|]); try tauto; try done.
  intros Hb. destruct (Hb bits eq_refl) as [?|[?|?]]; lia.
Qed.

(** The sub-arcs tell the combinations apart. *)
Lemma composite_sub_arc_inj m c m' c' arc :
  composite_sub_arc m c = Some arc -> composite_sub_arc m' c' = Some arc -> m = m' /\ c = c'.
Proof. destruct m, c; try done; intros [= <-]; by destruct m', c'. Qed.

(** A type the default configuration allows is never refused as a type. *)
Lemma default_types_supported seed k e :
  In k (allowed_types keygen_config_default) ->
  generate_key_pair seed k keygen_config_default = Err e -> exists why, e = SoftwareError why.
Proof.
  assert (Hp : forall g, generate_pqc_key k g = Err e -> exists why, e = SoftwareError why).
  { unfold generate_pqc_key. intros [key|]; [|naive_solver].
    destruct (public_key_spki_der key); [|naive_solver]. destruct (backend_key_to_der key); naive_solver. }
  assert (Hc : forall a ps, generate_classical_key seed k a ps = Err e -> exists why, e = SoftwareError why).
  { unfold generate_classical_key. intros a ps. destruct (ossl_generate seed a ps) as [[]|[]]; naive_solver. }
  simpl. intros Hk. repeat (destruct Hk as [<-|Hk]; [cbn; first [apply Hc|apply Hp]|]). done.
Qed.

(** A generated key is of the type asked for. *)
Lemma generate_key_pair_type seed k config r :
  generate_key_pair seed k config = Ok r -> generated_type r = k.
Proof.
  unfold generate_key_pair. intros E. take_ok E as u E1. destruct (use_hsm config); [done|].
  assert (Hp : forall g, generate_pqc_key k g = Ok r -> generated_type r = k).
  { unfold generate_pqc_key. intros [key|]; [|done].
    destruct (public_key_spki_der key); [|done]. destruct (backend_key_to_der key); [|done]. by intros [= <-]. }
  assert (Hc : forall a ps, generate_classical_key seed k a ps = Ok r -> generated_type r = k).
  { unfold generate_classical_key. intros a ps. destruct (ossl_generate seed a ps) as [[]|[]]; [|done].
    by intros [= <-]. }
  destruct k; simpl in E; try first [by eapply Hc, E|by eapply Hp, E].
  destruct (composite_sub_arc _ _); [|done]. by eapply Hp.
Qed.
End KeyGen.
