(* ===== verification/ServerKeygen.v ===== *)
(** * Server-side key generation

    [src/routes/serverkeygen.rs]: the server makes the key pair, certifies it
    for the names of a template request and returns certificate and private
    key in one multipart body.  With a Dogtag backend the CA makes the key
    and the recovery authority may have to be asked for it; those clients,
    OpenSSL's PKCS#12 and the random password are parameters. *)
From S2P Require Import Prelude Words Text Errors Calendar X509 Der Issuance AuditLog NameMatch EnrollAuthz FailureTracker BasicOtp Transfer DogtagPool Enroll Labels KeyGen.
Open Scope Z_scope.

Definition PKCS8 : string := "application/pkcs8".
Definition MULTIPART_MIXED : string := "multipart/mixed".
Definition MULTIPART_BOUNDARY : string := "estServerKeyGenBoundary".

(** ** The multipart body *)

Definition CRLF : string := String "013"%char (String "010"%char EmptyString).

Section Multipart.
Variable b64_encode : bytes -> bytes.

Definition part_headers (content_type : string) : bytes :=
  bytes_of_string ("Content-Type: " +:+ content_type +:+ CRLF +:+
                   "Content-Transfer-Encoding: base64" +:+ CRLF).

Definition build_multipart_response (cert_pkcs7_der private_key_pkcs8 : bytes) : bytes :=
  bytes_of_string (CRLF +:+ "--" +:+ MULTIPART_BOUNDARY +:+ CRLF) ++
  part_headers PKCS7_CERTS ++ bytes_of_string CRLF ++ encode_est_base64 b64_encode cert_pkcs7_der ++
  bytes_of_string (CRLF +:+ "--" +:+ MULTIPART_BOUNDARY +:+ CRLF) ++
  part_headers PKCS8 ++ bytes_of_string CRLF ++ encode_est_base64 b64_encode private_key_pkcs8 ++
  bytes_of_string (CRLF +:+ "--" +:+ MULTIPART_BOUNDARY +:+ "--" +:+ CRLF).
End Multipart.

(** ** The libraries and the clients *)

Record SskgResult : Type := MkSskg {
  sskg_request_id : string;
  pkcs12_b64 : option string;
  sskg_certificate_der : option bytes
}.
Record KraKey : Type := MkKraKey { key_id : string; key_algorithm : string }.

Class SskgLib `{X509Lib} : Type := {
  private_key_from_der : bytes -> PrivateKey + string;
  (** OpenSSL: the first common name of a request's subject *)
  req_common_name : bytes -> option bytes + string;
  Pkcs12 : Type;
  PKey : Type;
  base64_decode : string -> bytes + string;
  pkcs12_from_der : bytes -> Pkcs12 + string;
  (** the key and the encoded certificate, if there are any *)
  pkcs12_parse2 : Pkcs12 -> string -> (option PKey * option (bytes + string)) + string;
  private_key_to_pkcs8 : PKey -> bytes + string
}.

(** The Dogtag backend: its pool, the enrollment and the recovery clients. *)
Record DogtagSskg : Type := MkDogtagSskg {
  sskg_pool : DogtagPool;
  sskg_profile_id : option string;
  rand_bytes : bytes + string;
  (** client, profile, common name, name, password, key type, key size *)
  server_keygen : string -> string -> string -> string -> string -> string -> Z -> SskgResult + string;
  kra_client : unit + string;
  search_keys : option string -> Z -> list KraKey + string;
  recover_key_no_cert : string -> bytes + string
}.

Record SskgOutside `{X509Lib} `{KeyGenLib} : Type := MkSskgOutside {
  sk_admission : AuditCall;
  sk_event : AuditCall;
  sk_enabled : bool;
  sk_dogtag : option DogtagSskg;
  sk_seed : Seed;
  sk_csr_coins : Coins;
  sk_profile_now : Z;
  sk_inputs : IssueInputs Coins;
  sk_read_file : string -> bytes + string;
  sk_utf8_error_text : bytes -> string;
  sk_insert : InsertFaults;
  sk_issue_event : AuditCall
}.
Arguments MkSskgOutside {_ _}.

Section ServerKeygen.
Context `{HL : X509Lib} `{HC : CmsOids} `{HE : Encoder} `{HK : KeyGenLib} `{HS : !SskgLib}.
Variable authz_reason : AuthzError -> string.
Variable b64_encode : bytes -> bytes.
Variable b64_decode : bytes -> bytes + string.
Variable digest : option bytes -> bytes -> string.
Variable json_object : list (string * string) -> string.

(** ** The key's type and the new request *)

Definition detect_key_type_from_csr (csr_der : bytes) : KeyType :=
  match csr_from_der csr_der with
  | inr _ => KRsa 2048
  | inl csr =>
      match csr_public_key_info csr with
      | Rsa bit_count =>
          KRsa (if bit_count <=? 2048 then 2048 else if bit_count <=? 3072 then 3072 else 4096)
      | Ec _ curve => KEcdsa (if bool_decide (curve = Some "P-384"%string) then P384 else P256)
      | UnknownKey _ _ => KRsa 2048
      end
  end.

(** [CsrBuilder]: the request info is encoded, signed and put together. *)
Definition csr_builder_sign (subject spki : bytes) (exts : list Extension) (s : CertificateSigner)
  : bytes + string :=
  match signature_algorithm_der s with
  | inr e => inr e
  | inl alg =>
      match build_cri subject spki exts alg with
      | inr e => inr e
      | inl cri =>
          match sign_tbs s cri with
          | inr e => inr e
          | inl sig => assemble_csr cri alg sig
          end
      end
  end.

Definition build_keygen_csr (coins : Coins) (template_csr_der public_key_der private_key_pkcs8_der : bytes)
  : outcome bytes KipukaError :=
  let? csr := of_lib (fun e => EBadRequest ("CSR template parse failed: " +:+ e))
    (csr_from_der template_csr_der) in
  let? subject_der := of_lib (fun e => ECa ("CSR subject encode failed: " +:+ e)) (csr_subject csr) in
  let? key := of_lib (fun e => ECa ("failed to load generated key: " +:+ e))
    (private_key_from_der private_key_pkcs8_der) in
  let? exts := map_err (fun e => EBadRequest (issuance_error_to_string e))
    (requested_extensions template_csr_der) in
  of_lib (fun e => ECa ("CSR construction failed: " +:+ e))
    (csr_builder_sign subject_der public_key_der exts (as_signer coins key "sha256")).

Definition encode_pkcs8_private_key (key : PKey) : outcome bytes KipukaError :=
  of_lib (fun e => ECa ("PKCS#8 DER: " +:+ e)) (private_key_to_pkcs8 key).

(** ** The response *)

Definition multipart_response (cert_der key_der : bytes) : outcome Response KipukaError :=
  let? pkcs7 := build_certs_only_pkcs7 [cert_der] in
  Ok (MkResponse 200
        {["content-type" := MULTIPART_MIXED +:+ "; boundary=" +:+ MULTIPART_BOUNDARY]}
        (build_multipart_response b64_encode pkcs7 key_der)).

(** ** The Dogtag path *)

Definition sskg_key_params (k : KeyType) : outcome (string * Z) KipukaError :=
  match k with
  | KRsa bits => Ok ("RSA", bits)
  | KEcdsa P256 => Ok ("EC", 256)
  | KEcdsa P384 => Ok ("EC", 384)
  | other =>
      Err (EBadRequest ("Dogtag server-side keygen supports RSA/EC only; " +:+
        "requested key type " +:+ key_type_debug other +:+ " requires a local CA label"))
  end.

(** Path A: certificate and key of the PKCS#12. *)
Definition from_pkcs12 (r : SskgResult) (p12_b64 password : string)
  : outcome (bytes * bytes) KipukaError :=
  let? der := of_lib (fun e => ECa ("PKCS#12 base64 decode: " +:+ e)) (base64_decode p12_b64) in
  let? p12 := of_lib (fun e => ECa ("PKCS#12 parse: " +:+ e)) (pkcs12_from_der der) in
  let? (pkey, cert) := of_lib (fun e => ECa ("PKCS#12 decrypt: " +:+ e)) (pkcs12_parse2 p12 password) in
  let? pkey := ok_or pkey (ECa "No private key in PKCS#12") in
  let? key_der := encode_pkcs8_private_key pkey in
  let? cert_der :=
    match cert with
    | Some c => of_lib (fun e => ECa ("cert DER: " +:+ e)) c
    | None => ok_or (sskg_certificate_der r) (ECa "No certificate in SSKG response")
    end in
  Ok (cert_der, key_der).

(** Path B: the archived key that is found, by name and else by none. *)
Definition find_archived (d : DogtagSskg) (subject_cn : string) : outcome KraKey KipukaError :=
  let? _ := of_lib (fun e => ECa ("KRA client init: " +:+ e)) (kra_client d) in
  let? keys := of_lib (fun e => ECa ("KRA key search: " +:+ e)) (search_keys d (Some subject_cn) 3) in
  let? keys :=
    match keys with
    | [] => of_lib (fun e => ECa ("KRA key search (unfiltered): " +:+ e)) (search_keys d None 1)
    | _ => Ok keys
    end in
  ok_or (head keys) (ECa "No keys found on KRA after SSKG enrollment").

Definition from_kra (o : SskgOutside) (s : AppState) (d : DogtagSskg) (r : SskgResult)
    (ca_id identity subject_cn : string) : AppState * outcome (bytes * bytes) KipukaError :=
  match (let? cert := ok_or (sskg_certificate_der r)
           (ECa "No certificate in SSKG response (needed for KRA recovery)") in
         let? entry := find_archived d subject_cn in Ok (cert, entry)) with
  | Err e => (s, Err e)
  | Panic => (s, Panic)
  | Ok (cert, entry) =>
      let s := record_audit_event digest json_object s "sskg_kra_recovery"
        ("ca_id=" +:+ ca_id +:+ ", identity=" +:+ identity +:+ ", key_id=" +:+ key_id entry +:+
         ", algorithm=" +:+ key_algorithm entry) (sk_event o) in
      (s, let? key_der := of_lib (fun e => ECa ("KRA key recovery: " +:+ e))
            (recover_key_no_cert d (key_id entry)) in
          Ok (cert, key_der))
  end.

(** The enrollment: its result, the name it was for and the password. *)
Definition sskg_enroll (d : DogtagSskg) (csr_der : bytes) (identity : string)
  : outcome (SskgResult * string * string * string) KipukaError :=
  let sskg_profile := default "caServerKeygenEST" (sskg_profile_id d) in
  let? cn := of_lib (fun e => EBadRequest ("CSR template parse: " +:+ e)) (req_common_name csr_der) in
  let subject_cn := match cn with
                    | Some data => default identity (from_utf8 data)
                    | None => identity
                    end in
  let? (kt, ks) := sskg_key_params (detect_key_type_from_csr csr_der) in
  let? rand := of_lib (fun e => ECa ("rand: " +:+ e)) (rand_bytes d) in
  let p12_password := hex_encode rand in
  let? client := map_err (fun e => EServiceUnavailable ("Dogtag CA unavailable: " +:+ e))
    (get_client (sskg_pool d)) in
  let? r := of_lib (fun e => ECa ("SSKG enrollment failed: " +:+ e))
    (server_keygen d client sskg_profile subject_cn subject_cn p12_password kt ks) in
  Ok (r, sskg_profile, subject_cn, p12_password).

Definition dogtag_keygen (o : SskgOutside) (s : AppState) (d : DogtagSskg) (csr_der : bytes)
    (ca_id identity : string) : AppState * outcome Response KipukaError :=
  match sskg_enroll d csr_der identity with
  | Err e => (s, Err e)
  | Panic => (s, Panic)
  | Ok (r, sskg_profile, subject_cn, p12_password) =>
      let '(s, keyed) :=
        match pkcs12_b64 r with
        | Some p12 => (s, from_pkcs12 r p12 p12_password)
        | None => from_kra o s d r ca_id identity subject_cn
        end in
      match (let? (cert_der, key_der) := keyed in multipart_response cert_der key_der) with
      | Err e => (s, Err e)
      | Panic => (s, Panic)
      | Ok resp =>
          (record_audit_event digest json_object s "serverkeygen_success"
             ("ca_id=" +:+ ca_id +:+ ", identity=" +:+ identity +:+
              ", backend=sskg-profile, profile=" +:+ sskg_profile +:+ ", request_id=" +:+ sskg_request_id r)
             (sk_event o), Ok resp)
      end
  end.

(** ** The software path *)

(** The generated key, its type and the certificate for it. *)
Definition keygen_issue (app : AppConfig) (o : SskgOutside) (ca : CaState) (csr_der : bytes) (ca_id : string)
  : outcome (KeyGenResult * IssuanceResult) KipukaError :=
  let? g := map_err (fun e => ECa ("software key generation failed: " +:+ keygen_error_to_string e))
    (generate_key_pair (sk_seed o) (detect_key_type_from_csr csr_der) keygen_config_default) in
  let? new_csr_der := build_keygen_csr (sk_csr_coins o) csr_der (public_key_der g) (private_key_der g) in
  let? ca_cfg := ok_or (List.find (fun c => String.eqb (cfg_id c) ca_id) (ca_configs app))
    (ECa ("CA config not found for id=" +:+ ca_id)) in
  let? key := Issuance.resolve_signing_key (sk_utf8_error_text o) (sk_read_file o) ca_cfg (hsm app) in
  let? r := map_err
    (fun e => ECa ("certificate issuance for keygen failed: " +:+ issuance_error_to_string e))
    (Issuance.issue_certificate (sk_inputs o) new_csr_der (label_profile ca (sk_profile_now o))
       (ca_cert_der ca) key (ca_hash_algorithm ca) (ca_ocsp_url ca) (ca_crl_url ca)) in
  Ok (g, r).

Definition software_keygen (app : AppConfig) (o : SskgOutside) (s : AppState) (ca : CaState)
    (csr_der : bytes) (ca_id identity : string) : AppState * outcome Response KipukaError :=
  match keygen_issue app o ca csr_der ca_id with
  | Err e => (s, Err e)
  | Panic => (s, Panic)
  | Ok (g, r) =>
      match persist_certificate digest json_object s (sk_insert o) (sk_issue_event o) ca_id
              (profile_name (label_profile ca (sk_profile_now o))) r with
      | (s, Err e) => (s, Err e)
      | (s, Panic) => (s, Panic)
      | (s, Ok _) =>
          match multipart_response (certificate_der r) (private_key_der g) with
          | Err e => (s, Err e)
          | Panic => (s, Panic)
          | Ok resp =>
              (record_audit_event digest json_object s "serverkeygen_success"
                 ("ca_id=" +:+ ca_id +:+ ", identity=" +:+ identity +:+ ", backend=software, key_type=" +:+
                  key_type_debug (detect_key_type_from_csr csr_der) +:+ ", serial=" +:+ serial_number r)
                 (sk_event o), Ok resp)
          end
      end
  end.

(** ** [post_serverkeygen] *)

Definition decode_template (o : SskgOutside) (body : bytes) : outcome bytes KipukaError :=
  if negb (sk_enabled o) then Err (EEst "server-side key generation is not enabled")
  else
    let? csr_der := map_err (fun e => EBadRequest ("CSR template decoding failed: " +:+ e))
      (decode_est_base64 b64_decode body) in
    if bool_decide (csr_der = []) then Err (EBadRequest "empty CSR template") else Ok csr_der.

Definition post_serverkeygen (app : AppConfig) (o : SskgOutside) (s : AppState) (auth : AuthResult)
    (l : LabelExtractor) (body : bytes) : AppState * outcome Response KipukaError :=
  let ca_id := label_ca l in
  let identity := auth_identity auth in
  match admit_enrollment digest json_object s identity "serverkeygen" (sk_admission o) with
  | (s, Err e) => (s, Err e)
  | (s, Panic) => (s, Panic)
  | (s, Ok _) =>
      match decode_template o body with
      | Err e => (s, Err e)
      | Panic => (s, Panic)
      | Ok csr_der =>
          match authorize_csr_der csr_subject_attrs csr_sans (fun d => of_lib id (csr_from_der d)) csr_der
                  identity (enroll_policy l) with
          | Err reason =>
              (record_audit_event_with_actor digest json_object s "serverkeygen_denied" identity
                 ("ca_id=" +:+ ca_id +:+ ", identity=" +:+ identity +:+ ", reason=" +:+ authz_reason reason)
                 (sk_event o),
               Err (EForbidden ("enrollment not authorized: " +:+ authz_reason reason)))
          | Panic => (s, Panic)
          | Ok _ =>
              match get_ca app ca_id with
              | None => (s, Err ENotFound)
              | Some ca =>
                  match sk_dogtag o with
                  | Some d => dogtag_keygen o s d csr_der ca_id identity
                  | None => software_keygen app o s ca csr_der ca_id identity
                  end
              end
          end
      end
  end.
End ServerKeygen.
