(* ===== verification/ServerKeygenSpec.v ===== *)
(** * What server-side key generation returns

    Of KeyGen.v and ServerKeygen.v: the multipart body can be taken apart
    into what was put in, and the certificate in it is for the key in it. *)
From S2P Require Import Prelude Words Text Errors Calendar X509 Der ExampleLibs Issuance IssuanceSpec AuditLog AuditSpec NameMatch EnrollAuthz FailureTracker BasicOtp Transfer DogtagPool Enroll EnrollSpec Labels KeyGen ServerKeygen.
Open Scope Z_scope.

(** ** A reader of multipart bodies (RFC 2046 section 5.1.1) *)

Fixpoint prefixed (p b : bytes) : option bytes :=
  match p, b with
  | [], _ => Some b
  | x :: p', y :: b' => if x =? y then prefixed p' b' else None
  | _, [] => None
  end.
(** What is before the first occurrence of [d], and after it. *)
Fixpoint split_once (d b : bytes) : option (bytes * bytes) :=
  match prefixed d b with
  | Some rest => Some ([], rest)
  | None =>
      match b with
      | [] => None
      | x :: b' => match split_once d b' with Some (before, rest) => Some (x :: before, rest) | None => None end
      end
  end.
Definition crlf : bytes := [13; 10].
Definition delimiter : bytes := crlf ++ bytes_of_string ("--" +:+ MULTIPART_BOUNDARY).

(** The parts up to the closing delimiter: header lines and content. *)
Fixpoint read_parts (fuel : nat) (b : bytes) : option (list (bytes * bytes)) :=
  match fuel with
  | O => None
  | S fuel' =>
      match prefixed [45; 45] b with
      | Some _ => Some []
      | None =>
          match prefixed crlf b with
          | None => None
          | Some b =>
              match split_once delimiter b with
              | None => None
              | Some (part, rest) =>
                  match split_once (crlf ++ crlf) part with
                  | None => None
                  | Some (headers, content) =>
                      match read_parts fuel' rest with
                      | Some l => Some ((headers ++ crlf, content) :: l)
                      | None => None
                      end
                  end
              end
          end
      end
  end.
Definition read_multipart (b : bytes) : option (list (bytes * bytes)) :=
  match split_once delimiter b with
  | Some (_, rest) => read_parts (length b) rest
  | None => None
  end.

(** [b] has no occurrence of the three characters a delimiter starts with. *)
Fixpoint no_break (b : bytes) : bool :=
  match b with
  | [] => true
  | _ :: b' => negb (bool_decide (is_Some (prefixed [13; 10; 45] b))) && no_break b'
  end.

Lemma prefixed_app p b : prefixed p (p ++ b) = Some b.
Proof. induction p as [|x p IH]; simpl; [done|]. by rewrite Z.eqb_refl. Qed.

Lemma prefixed_Some p b r : prefixed p b = Some r -> b = p ++ r.
Proof.
  revert b. induction p as [|x p IH]; intros b; simpl; [by intros [= ->]|].
  destruct b as [|y b]; [done|]. destruct (Z.eqb_spec x y); [|done]. intros E. subst. f_equal. by apply IH.
Qed.

(** The first delimiter after text without a break is the one that is there. *)
Lemma split_delimiter x d r :
  no_break x = true -> split_once (13 :: 10 :: 45 :: d) (x ++ 13 :: 10 :: 45 :: d ++ r) = Some (x, r).
Proof.
  induction x as [|a x IH]; cbn [no_break app]; intros Hx.
  - cbn [split_once]. rewrite (prefixed_app (13 :: 10 :: 45 :: d) r : prefixed _ (13 :: 10 :: 45 :: d ++ r) = _). done.
  - apply andb_true_iff in Hx as [Ha Hx]. apply negb_true_iff, bool_decide_eq_false in Ha.
    cbn [split_once]. rewrite (IH Hx).
    destruct (prefixed (13 :: 10 :: 45 :: d) (a :: x ++ _)) as [q|] eqn:E; [|done].
    apply prefixed_Some in E. destruct Ha. destruct x as [|b x]; [discriminate E|].
    destruct x as [|c x]; [discriminate E|]. injection E as -> -> -> _. by exists x.
Qed.

Lemma no_break_app h c : no_break h = true -> Forall (fun b => b <> 45) c -> no_break (h ++ c) = true.
Proof.
  intros Hh Hc. induction h as [|a h IH]; cbn [app].
  - induction Hc as [|b c Hb Hc IH]; [done|]. cbn [no_break]. rewrite IH, andb_true_r.
    apply negb_true_iff, bool_decide_eq_false. intros [q E]. apply prefixed_Some in E.
    destruct c as [|? c]; [done|]. destruct c as [|? c]; [done|]. injection E as -> -> -> _.
    apply Forall_cons in Hc as [_ Hc]. by apply Forall_cons in Hc as [? _].
  - cbn [no_break] in *. apply andb_true_iff in Hh as [Ha Hh]. rewrite (IH Hh), andb_true_r.
    apply negb_true_iff, bool_decide_eq_false in Ha. apply negb_true_iff, bool_decide_eq_false.
    intros [q E]. apply prefixed_Some in E. apply Ha.
    destruct h as [|b h]; [|destruct h as [|x h]].
    + destruct c as [|? c]; [done|]. destruct c as [|? c]; [done|]. injection E as -> -> -> _.
      apply Forall_cons in Hc as [_ Hc]. by apply Forall_cons in Hc as [? _].
    + destruct c as [|? c]; [done|]. injection E as -> -> -> _. by apply Forall_cons in Hc as [? _].
    + injection E as -> -> -> _. by exists h.
Qed.

Lemma delimiter_eq : exists d, delimiter = 13 :: 10 :: 45 :: d.
Proof. eexists. reflexivity. Qed.

Section Multipart.
Variable b64_encode : bytes -> bytes.
Variable b64_decode : bytes -> bytes + string.
(** The standard base64 alphabet: no hyphen, no white space. *)
Hypothesis b64_round_trip : forall d, b64_decode (b64_encode d) = inl d.
Hypothesis b64_alphabet :
  forall d, Forall (fun b => b <> 45 /\ is_ascii_whitespace b = false) (b64_encode d).

Lemma wrapped_no_hyphen d : Forall (fun b => b <> 45) (encode_est_base64 b64_encode d).
Proof.
  unfold encode_est_base64. generalize 0. generalize (b64_alphabet d). generalize (b64_encode d).
  induction 1 as [|b l [Hb _] _ IH]; intros i; cbn [wrap_from]; [done|].
  apply Forall_app. split; [|apply IH]. case_match; repeat constructor; done.
Qed.

(** One part, after the delimiter before it. *)
Lemma read_one_part fuel ty content rest l :
  no_break (part_headers ty) = true ->
  (forall c, split_once (crlf ++ crlf) (part_headers ty ++ crlf ++ c) =
     Some (take (length (part_headers ty) - 2) (part_headers ty), c)) ->
  take (length (part_headers ty) - 2) (part_headers ty) ++ crlf = part_headers ty ->
  Forall (fun b => b <> 45) content ->
  read_parts fuel rest = Some l ->
  read_parts (S fuel) (crlf ++ part_headers ty ++ crlf ++ content ++ delimiter ++ rest) =
    Some ((part_headers ty, content) :: l).
Proof.
  intros Hh Hs Ht Hc Hr. cbn [read_parts]. change (prefixed [45; 45] (crlf ++ _)) with (@None bytes).
  rewrite prefixed_app. destruct delimiter_eq as [d Hd].
  assert (E : split_once delimiter (part_headers ty ++ crlf ++ content ++ delimiter ++ rest) =
    Some (part_headers ty ++ crlf ++ content, rest)).
  { rewrite Hd. replace (part_headers ty ++ crlf ++ content ++ (13 :: 10 :: 45 :: d) ++ rest)
      with ((part_headers ty ++ crlf ++ content) ++ 13 :: 10 :: 45 :: d ++ rest) by (by rewrite <- !app_assoc).
    apply split_delimiter. apply no_break_app; [done|]. apply Forall_app. split; [|done]. by repeat constructor. }
  rewrite E, Hs, Hr, Ht. done.
Qed.

Lemma build_multipart_eq cert key :
  build_multipart_response b64_encode cert key =
  delimiter ++ crlf ++ part_headers PKCS7_CERTS ++ crlf ++ encode_est_base64 b64_encode cert ++ delimiter ++
    crlf ++ part_headers PKCS8 ++ crlf ++ encode_est_base64 b64_encode key ++ delimiter ++ [45; 45] ++ crlf.
Proof. unfold build_multipart_response. rewrite <- ?app_assoc. reflexivity. Qed.

Lemma multipart_read cert key :
  read_multipart (build_multipart_response b64_encode cert key) =
    Some [(part_headers PKCS7_CERTS, encode_est_base64 b64_encode cert);
          (part_headers PKCS8, encode_est_base64 b64_encode key)].
Proof.
  unfold read_multipart. rewrite build_multipart_eq. destruct delimiter_eq as [d Hd].
  assert (E : forall r, split_once delimiter (delimiter ++ r) = Some ([], r)).
  { intros r. rewrite Hd. exact (split_delimiter [] d r eq_refl). }
  rewrite E. set (rest := crlf ++ part_headers PKCS7_CERTS ++ _).
  assert (Hl : exists n, length (delimiter ++ rest) = S (S (S n))).
  { rewrite Hd. cbn [app length]. by eexists. }
  destruct Hl as [n ->]. unfold rest.
  apply read_one_part; [vm_compute; reflexivity|intros c; vm_compute; reflexivity|vm_compute; reflexivity
    |apply wrapped_no_hyphen|].
  apply read_one_part; [vm_compute; reflexivity|intros c; vm_compute; reflexivity|vm_compute; reflexivity
    |apply wrapped_no_hyphen|].
  reflexivity.
Qed.

(** The client can take the body apart.  Read by the rules of MIME, a
    body the server builds has two parts, with the headers that RFC 7030
    asks for, whose contents decode to the certificates and to the private
    key that were put in. *)
Theorem multipart_round_trip cert key :
  exists c k, read_multipart (build_multipart_response b64_encode cert key) =
      Some [(part_headers PKCS7_CERTS, c); (part_headers PKCS8, k)] /\
    decode_est_base64 b64_decode c = Ok cert /\ decode_est_base64 b64_decode k = Ok key.
Proof.
  eexists _, _. split; [apply multipart_read|].
  assert (Hw : forall d, Forall (fun b => is_ascii_whitespace b = false) (b64_encode d)).
  { intros d. eapply Forall_impl; [apply b64_alphabet|]. by intros b [_ ?]. }
  by split; apply est_base64_round_trip.
Qed.
End Multipart.

(** ** The certificate is for the key *)

(** What is further documented of built requests: their info and signature
    are those they were put together from. *)
Class BuiltRequestLaws `{X509Lib} : Prop := {
  built_request_fields cri alg sig der csr :
    assemble_csr cri alg sig = inl der -> csr_from_der der = inl csr ->
    csr_cri csr = inl cri /\ csr_signature csr = sig
}.

Section Keygen.
Context `{HL : X509Lib} `{HC : CmsOids} `{HE : Encoder} `{HK : KeyGenLib} `{HS : !SskgLib}.
Context `{Hlaws : !CsrBuilderLaws} `{Hbuilt : !BuiltRequestLaws}.
Variable authz_reason : AuthzError -> string.
Variable b64_encode : bytes -> bytes.
Variable b64_decode : bytes -> bytes + string.
Variable digest : option bytes -> bytes -> string.
Variable json_object : list (string * string) -> string.

Abbreviation post_serverkeygen := (post_serverkeygen authz_reason b64_encode b64_decode digest json_object).
Abbreviation decode := (decode_est_base64 b64_decode).

(** The key pair [g] was made for the template: of the type the template's
    key has, and its private key signs for its public key. *)
Definition key_made (o : SskgOutside) (csr_der : bytes) (g : KeyGenResult) : Prop :=
  generate_key_pair (sk_seed o) (detect_key_type_from_csr csr_der) keygen_config_default = Ok g /\
  exists key cri sig alg, private_key_from_der (private_key_der g) = inl key /\
    sign_tbs (as_signer (sk_csr_coins o) key "sha256") cri = inl sig /\
    verify_signature cri alg sig (public_key_der g) = inl tt.

(** [r] certifies [g] for the template's subject. *)
Definition certified (app : AppConfig) (o : SskgOutside) (csr_der : bytes) (ca_id : string) (ca : CaState)
    (g : KeyGenResult) (r : IssuanceResult) : Prop :=
  exists cfg key template subject tbs s,
    get_ca app ca_id = Some ca /\ In cfg (ca_configs app) /\ cfg_id cfg = ca_id /\
    Issuance.resolve_signing_key (sk_utf8_error_text o) (sk_read_file o) cfg (hsm app) = Ok key /\
    csr_from_der csr_der = inl template /\ csr_subject template = inl subject /\
    build_and_sign tbs s = inl (certificate_der r) /\
    signer_of (coins (sk_inputs o)) key (ca_hash_algorithm ca) s /\
    b_subject tbs = subject /\ b_spki tbs = public_key_der g.

Lemma csr_builder_sign_Ok subject spki exts s der :
  csr_builder_sign subject spki exts s = inl der ->
  exists csr alg cri sig, csr_from_der der = inl csr /\ csr_subject csr = inl subject /\ csr_spki csr = inl spki /\
    sign_tbs s cri = inl sig /\ csr_cri csr = inl cri /\ csr_signature csr = sig /\
    signature_algorithm_der s = inl alg.
Proof.
  unfold csr_builder_sign. destruct (signature_algorithm_der s) as [alg|]; [|done].
  destruct (build_cri subject spki exts alg) as [cri|] eqn:Ec; [|done].
  destruct (sign_tbs s cri) as [sig|] eqn:Es; [|done]. intros Ha.
  destruct (built_request_parses _ _ _ _ _ _ _ Ec Ha) as (csr & Hcsr & Hsub & Hspki).
  destruct (built_request_fields _ _ _ _ _ Ha Hcsr). by exists csr, alg, cri, sig.
Qed.

Lemma keygen_issue_Ok app o ca csr_der ca_id g r :
  get_ca app ca_id = Some ca ->
  keygen_issue app o ca csr_der ca_id = Ok (g, r) ->
  key_made o csr_der g /\ certified app o csr_der ca_id ca g r.
Proof.
  intros Hca. unfold keygen_issue. intros E. take_ok E as g' E1. take_ok E as new E2. take_ok E as cfg E3.
  take_ok E as key E4. take_ok E as r' E5. injection E as -> ->. apply map_err_Ok in E1, E5. apply ok_or_Ok in E3.
  apply List.find_some in E3 as [Hin Hid]. apply String.eqb_eq in Hid.
  unfold build_keygen_csr in E2. take_ok E2 as template E6. take_ok E2 as subject E7. take_ok E2 as pk E8.
  take_ok E2 as exts E9. apply of_lib_Ok in E2, E6, E7, E8.
  apply csr_builder_sign_Ok in E2 as (csr & alg & cri & sig & Hcsr & Hsub & Hspki & Hsig & Hcri & Hs & _).
  apply issue_certificate_Ok in E5 as (csr' & (_ & Hcsr' & _ & Hpop & _) & _ & cert & tbs & _ & (Hs1 & Hs2 & _) & _ & _
    & (s & Hsigner & Hbs) & _).
  rewrite Hcsr in Hcsr'. injection Hcsr' as <-. rewrite Hsub in Hs1. rewrite Hspki in Hs2.
  injection Hs1 as Hs1. injection Hs2 as Hs2.
  destruct Hpop as (cri' & alg' & spki' & Hc & _ & Hp & Hv). rewrite Hcri in Hc. injection Hc as <-.
  rewrite Hspki in Hp. injection Hp as <-. rewrite Hs in Hv. split.
  - split; [done|]. by exists pk, cri, sig, alg'.
  - by exists cfg, key, template, subject, tbs, s.
Qed.

(** The table has one row more, of a certificate for a key made for the
    template; an answer carries the two. *)
Definition key_delivered (app : AppConfig) (o : SskgOutside) (s s' : AppState) (csr_der : bytes)
    (ca_id : string) (r : outcome Response KipukaError) : Prop :=
  exists ca g iss c, key_made o csr_der g /\ certified app o csr_der ca_id ca g iss /\
    cert_from_der (certificate_der iss) = inl c /\
    certificates s' = certificates s ++ [certificate_row iss (format_dn (cert_issuer c)) ca_id
      (profile_name (label_profile ca (sk_profile_now o)))] /\
    forall resp, r = Ok resp -> exists pkcs7, build_certs_only_pkcs7 [certificate_der iss] = Ok pkcs7 /\
      Errors.body resp = build_multipart_response b64_encode pkcs7 (private_key_der g).

Lemma software_keygen_spec app o s ca csr_der ca_id identity s' r :
  get_ca app ca_id = Some ca ->
  software_keygen b64_encode digest json_object app o s ca csr_der ca_id identity = (s', r) ->
  pending_csrs s' = pending_csrs s /\
  ((certificates s' = certificates s /\ forall resp, r <> Ok resp) \/
   key_delivered app o s s' csr_der ca_id r).
Proof.
  intros Hca. unfold software_keygen. destruct (keygen_issue app o ca csr_der ca_id) as [[g iss]|e|] eqn:Ei.
  2-3: intros [= <- <-]; split; [done|]; by left.
  destruct (keygen_issue_Ok _ _ _ _ _ _ _ Hca Ei) as [Hg Hcert].
  destruct (persist_certificate _ _ _ _ _ _ _ _) as [s1 rp] eqn:Ep. apply persist_spec in Ep as [Hp Hc].
  destruct Hc as [(c & Hder & Hc & _)|[-> [e ->]]]; [|intros [= <- <-]; split; [done|]; by left].
  assert (Hrow : forall s2 (r0 : outcome Response KipukaError),
    certificates s2 = certificates s1 -> pending_csrs s2 = pending_csrs s1 ->
    (forall resp, r0 = Ok resp -> exists pkcs7, build_certs_only_pkcs7 [certificate_der iss] = Ok pkcs7 /\
       Errors.body resp = build_multipart_response b64_encode pkcs7 (private_key_der g)) ->
    (s2, r0) = (s', r) -> pending_csrs s' = pending_csrs s /\
    ((certificates s' = certificates s /\ forall resp, r <> Ok resp) \/
     key_delivered app o s s' csr_der ca_id r)).
  { intros s2 r0 Hc2 Hp2 Hr [= <- <-]. split; [congruence|]. right. exists ca, g, iss, c.
    split_and!; try done. congruence. }
  destruct rp as [[]|e|]; [|by apply Hrow..].
  unfold multipart_response. destruct (build_certs_only_pkcs7 [certificate_der iss]) as [pkcs7|e|];
    cbn [obind]; [|by apply Hrow..].
  apply Hrow; [done|done|]. intros resp [= <-]. by exists pkcs7.
Qed.

End Keygen.

(** ** Examples *)

Lemma example_b64_alphabet d :
  Forall (fun b => b <> 45 /\ is_ascii_whitespace b = false) (example_b64 d).
Proof.
  apply Forall_forall. intros b Hb. apply list_elem_of_fmap in Hb as (x & -> & _).
  split; [lia|]. unfold is_ascii_whitespace. rewrite !orb_false_iff, !Z.eqb_neq. lia.
Qed.
Lemma example_b64_round_trip d : example_unb64 (example_b64 d) = inl d.
Proof.
  unfold example_unb64, example_b64. rewrite map_map. f_equal. rewrite <- (map_id d) at 2. apply map_ext.
  intros b. Z.div_mod_to_equations. lia.
Qed.

Lemma multipart_round_trip_witness :
  (forall d, example_unb64 (example_b64 d) = inl d) /\
  exists c k, read_multipart (build_multipart_response example_b64 [48; 1] [2; 3]) =
      Some [(part_headers PKCS7_CERTS, c); (part_headers PKCS8, k)] /\
    decode_est_base64 example_unb64 k = Ok [2; 3].
Proof.
  split; [exact example_b64_round_trip|].
  destruct (multipart_round_trip example_b64 example_unb64 example_b64_round_trip example_b64_alphabet
    [48; 1] [2; 3]) as (c & k & Hread & _ & Hk).
  exists c, k. split; [exact Hread|exact Hk].
Defined.

#[local] Instance example_keygen_lib : KeyGenLib := {
  Seed := unit;
  ossl_generate _ alg _ := if String.eqb alg "RSA" then inl ([2], [2]) else inr (Generate, "no such algorithm");
  BackendKey := unit;
  generate_ml_dsa _ _ := inr "no provider";
  generate_ml_kem _ _ := inr "no provider";
  generate_composite_ml_dsa _ _ := inr "no provider";
  public_key_spki_der _ := inl [];
  backend_key_to_der _ := inl []
}.
#[local] Instance example_sskg_lib : SskgLib := {
  private_key_from_der b := inl b;
  req_common_name _ := inl (Some (bytes_of_string "device"));
  Pkcs12 := bytes;
  PKey := bytes;
  base64_decode s := inl (bytes_of_string s);
  pkcs12_from_der b := inl b;
  pkcs12_parse2 b _ := inl (Some b, None);
  private_key_to_pkcs8 b := inl b
}.
#[local] Instance example_built : BuiltRequestLaws.
Proof.
  split. intros cri alg sig der csr Ha Hp. simpl in *.
  destruct cri as [|a [|b [|]]]; try done. destruct sig as [|c [|]]; try done. injection Ha as <-.
  injection Hp as <-. by split.
Qed.

Definition sskg_outside (d : option DogtagSskg) : SskgOutside :=
  MkSskgOutside example_call example_call true d tt tt example_now example_inputs (fun _ => inl [1])
    (fun _ => EmptyString) (MkInsertFaults None "duplicate") example_call.
Definition example_serverkeygen (d : option DogtagSskg) (body : bytes) : AppState * outcome Response KipukaError :=
  post_serverkeygen (fun _ => EmptyString) (fun b => b) inl example_digest example_json EnrollSpec.example_app
    (sskg_outside d) example_state example_caller example_label body.


(** The recovery authority knows no key by the name, and gives any. *)
Definition kra_dogtag : DogtagSskg :=
  MkDogtagSskg (MkDogtagPool [MkEntry "ca1" Unknown None 0] 3 0) None (inl [1]) (fun _ _ _ _ _ _ _ => inl (MkSskg "7" None (Some [48; 65; 66; 1])))
    (inl tt) (fun name _ => inl (match name with Some _ => [] | None => [MkKraKey "other" "RSA"] end))
    (fun id => inl (bytes_of_string id)).

Example kra_gives_another_key :
  (example_serverkeygen (Some kra_dogtag) example_request).2 =
  multipart_response (fun b => b) [48; 65; 66; 1] (bytes_of_string "other").
Proof. vm_compute. reflexivity. Qed.

(** A template with a post-quantum key is served with RSA. *)
Example unknown_keys_become_rsa (csr_der : bytes) csr name bits :
  csr_from_der csr_der = inl csr -> csr_public_key_info csr = UnknownKey name bits ->
  detect_key_type_from_csr csr_der = KRsa 2048.
Proof. intros Hc Hk. unfold detect_key_type_from_csr. by rewrite Hc, Hk. Qed.
