(* ===== verification/StarRoutes.v ===== *)
(** * The STAR endpoints

    [src/routes/star.rs]: creating an order with its first certificate,
    fetching the current certificate, cancelling, and the history; the cycle
    of the renewal task of [src/star/renewal.rs] on the tables; and the
    part of [restore] of [src/star/mod.rs] that reads the tables back at
    start-up.  The texts of times and of JSON are parameters.  A transaction
    works on a copy of the tables and the audit trail, which its commit puts
    in place. *)
From S2P Require Import Prelude Words Text Errors Calendar StarManager X509 Der Issuance AuditLog NameMatch EnrollAuthz FailureTracker BasicOtp Transfer Enroll Labels KeyGen ServerKeygen.
Open Scope Z_scope.

(** ** The tables *)

Record StarOrderRow : Type := MkOrderRow {
  sor_id : string;
  sor_subject_dn : string;
  sor_key_type : string;
  sor_profile : string;
  sor_interval : Z;                     (* i64 *)
  sor_lifetime_end : string;
  sor_max_renewals : Z;
  sor_current_renewals : Z;
  sor_status : string;
  sor_requestor_dn : option string;
  sor_ca_id : string;
  sor_csr_der : bytes;
  sor_created_at : string;
  sor_cancelled_at : option string
}.

Record StarCertTableRow : Type := MkStarCertRow {
  scr_order_id : string;
  scr_serial : string;
  scr_der : bytes;
  scr_not_before : string;
  scr_not_after : string;
  scr_renewal : Z                       (* i64 *)
}.

(** What of the server's state the handlers use. *)
Record StarState : Type := MkStarState {
  st_app : AppState;
  star_manager : option StarManager;
  star_orders : list StarOrderRow;
  star_certificates : list StarCertTableRow
}.
Definition set_app (s : StarState) (a : AppState) : StarState :=
  MkStarState a (star_manager s) (star_orders s) (star_certificates s).
Definition set_manager (s : StarState) (m : StarManager) : StarState :=
  MkStarState (st_app s) (Some m) (star_orders s) (star_certificates s).

(** The texts that the libraries make of values. *)
Class StarText : Type := {
  to_rfc3339 : Z -> string;
  parse_rfc3339 : string -> Z + string;
  (** [serde_json] of a profile and of the entries of a history *)
  profile_json : EnrollmentProfile -> string + string;
  history_json : list (string * string * string * Z) -> bytes + string
}.

Record StarOutside `{X509Lib} : Type := MkStarOutside {
  so_admission : AuditCall;
  so_profile_now : Z;
  so_lifetime_now : Z;
  so_create_now : Z;
  so_uuid : string;
  so_db_now : string;
  so_inputs : IssueInputs Coins;
  so_read_file : string -> bytes + string;
  so_utf8_error_text : bytes -> string;
  so_begin : option string;
  so_order_insert : option string;
  so_duplicate : string;
  so_cert_insert : option string;
  so_insert : InsertFaults;
  so_issuance : AuditCall
}.
Arguments MkStarOutside {_}.

Definition star_error_to_kipuka (e : StarError) : KipukaError :=
  match e with
  | OrderNotFound _ => ENotFound
  | OrderCancelled id => EBadRequest ("STAR order " +:+ id +:+ " is cancelled")
  | OrderExpired id => EBadRequest ("STAR order " +:+ id +:+ " has expired")
  | MaxRenewalsReached id max =>
      EBadRequest ("STAR order " +:+ id +:+ " reached maximum renewals (" +:+ pretty max +:+ ")")
  | MaxOrdersReached limit =>
      EServiceUnavailable ("maximum active STAR orders reached (" +:+ pretty limit +:+ ")")
  | InvalidInterval requested min max =>
      EBadRequest ("renewal interval " +:+ pretty requested +:+ "s outside allowed range " +:+
                   pretty min +:+ "s–" +:+ pretty max +:+ "s")
  | IssuanceError msg => ECa msg
  | DatabaseError msg => EDb msg
  end.

(** [StarError]'s own text. *)
Definition star_error_to_string (e : StarError) : string :=
  match e with
  | OrderNotFound id => "STAR order not found: " +:+ id
  | OrderCancelled id => "STAR order cancelled: " +:+ id
  | OrderExpired id => "STAR order expired: " +:+ id
  | MaxRenewalsReached id max =>
      "STAR order " +:+ id +:+ " reached maximum renewals (" +:+ pretty max +:+ ")"
  | MaxOrdersReached limit => "maximum active STAR orders reached (" +:+ pretty limit +:+ ")"
  | InvalidInterval requested min max =>
      "invalid renewal interval: " +:+ pretty requested +:+ "s (allowed " +:+ pretty min +:+ "s–" +:+
      pretty max +:+ "s)"
  | IssuanceError msg => "issuance error: " +:+ msg
  | DatabaseError msg => "database error: " +:+ msg
  end.

(** [HeaderValue]: [to_str], and what [from_str] takes. *)
Definition visible_ascii (b : Z) : bool := (b =? 9) || in_range 32 126 b.
Definition header_to_str (v : bytes) : option string :=
  if forallb visible_ascii v then Some (string_of_bytes v) else None.

(** A numeric header, or the default. *)
Definition header_number (headers : gmap string bytes) (name : string) (max dflt : Z) : Z :=
  match headers !! name with
  | Some v =>
      match header_to_str v with
      | Some text => match parse_unsigned max text with Ok n => n | _ => dflt end
      | None => dflt
      end
  | None => dflt
  end.

(** The interval and the lifetime asked for, within the configured bounds. *)
Definition requested_order (c : StarConfig) (headers : gmap string bytes) : Z * Z :=
  let interval := header_number headers "star-renewal-interval" (2 ^ 64 - 1) (default_renewal_interval_secs c) in
  let days := header_number headers "star-lifetime" (2 ^ 32 - 1) (max_lifetime_days c) in
  (Z.min (Z.max interval (min_renewal_interval_secs c)) (max_renewal_interval_secs c),
   Z.min days (max_lifetime_days c)).

Section StarRoutes.
Context `{HL : X509Lib} `{HC : CmsOids} `{HE : Encoder} `{HT : StarText}.
Variable authz_reason : AuthzError -> string.
Variable b64_encode : bytes -> bytes.
Variable b64_decode : bytes -> bytes + string.
Variable digest : option bytes -> bytes -> string.
Variable json_object : list (string * string) -> string.

(** [filter(|c| c.enabled)], then the manager. *)
Definition star_config_of (star : option StarConfig) : outcome StarConfig KipukaError :=
  match star with
  | Some c => if star_enabled c then Ok c else Err ENotFound
  | None => Err ENotFound
  end.
Definition manager_of (s : StarState) : outcome StarManager KipukaError :=
  ok_or (star_manager s) (EServiceUnavailable "STAR manager not available").

(** ** [post_star_order] *)

Definition star_profile (o : StarOutside) (ca : CaState) (l : LabelExtractor) (interval days : Z)
  : outcome EnrollmentProfile KipukaError :=
  let d := enrollment_profile_default (so_profile_now o) in
  let not_after := so_lifetime_now o + days * DAY in
  if max_utc (so_inputs o) <? not_after then Panic
  else
    Ok (MkProfile (profile_name d)
      (Z.min (default (ca_validity_days ca) (max_validity l)) (cab_forum_max_validity_days (so_profile_now o)))
      (Some interval) (Some not_after) (key_usage d) (Issuance.extended_key_usage d)
      (include_ski d) (include_aki d) (min_rsa_bits d) (min_ecdsa_curve d) (ct_enabled d)
      (certificate_policies d) (allowed_ml_dsa_levels d) (allowed_ml_kem_levels d)
      (allow_composite_ml_dsa d) (require_dual_cert d) (must_staple d)).

(** Up to the admission: the request, the CA, its key and the profile. *)
Definition prepare_order (app : AppConfig) (o : StarOutside) (identity : string) (l : LabelExtractor)
    (body : bytes) (interval days : Z)
  : outcome (bytes * CaState * CaSigningKey * EnrollmentProfile) KipukaError :=
  let? csr_der := map_err (fun e => EBadRequest ("CSR decoding failed: " +:+ e))
    (decode_est_base64 b64_decode body) in
  if Z.of_nat (length csr_der) <? 60 then Err (EBadRequest "CSR is too short to be valid")
  else
    let? _ := map_err (fun e => EForbidden (authz_reason e))
      (authorize_csr_der csr_subject_attrs csr_sans (fun d => of_lib id (csr_from_der d)) csr_der
         identity (enroll_policy l)) in
    let? ca := ok_or (get_ca app (label_ca l)) ENotFound in
    let? cfg := ok_or (List.find (fun c => String.eqb (cfg_id c) (label_ca l)) (ca_configs app)) ENotFound in
    let? key := Issuance.resolve_signing_key (so_utf8_error_text o) (so_read_file o) cfg (hsm app) in
    let? p := star_profile o ca l interval days in
    Ok (csr_der, ca, key, p).

Definition first_certificate (r : IssuanceResult) (id : string) : StarCertificate :=
  MkStarCert (Issuance.certificate_der r) (Issuance.serial_number r) (Issuance.not_before r)
    (Issuance.not_after r) 1 id.

Definition order_row (o : StarOutside) (order : StarOrder) (interval : Z) (identity ca_id : string)
    (csr_der : bytes) : StarOrderRow :=
  MkOrderRow (order_id order) (StarManager.subject_dn order) (key_type order) (order_profile order)
    (as_i64 interval) (to_rfc3339 (lifetime_end order)) (max_renewals order) 1 "active" (Some identity)
    ca_id csr_der (so_db_now o) None.

Definition cert_table_row (c : StarCertificate) (id : string) : StarCertTableRow :=
  MkStarCertRow id (StarManager.serial_number c) (StarManager.certificate_der c)
    (to_rfc3339 (StarManager.not_before c)) (to_rfc3339 (StarManager.not_after c)) (renewal_number c).

(** The inserts of the two STAR tables, within the transaction. *)
Definition insert_order (o : StarOutside) (orders : list StarOrderRow) (row : StarOrderRow)
  : outcome (list StarOrderRow) KipukaError :=
  match so_order_insert o with
  | Some e => Err (EDb e)
  | None =>
      if existsb (fun r => String.eqb (sor_id r) (sor_id row)) orders then Err (EDb (so_duplicate o))
      else Ok (orders ++ [row])
  end.
Definition insert_star_certificate (o : StarOutside) (certs : list StarCertTableRow) (row : StarCertTableRow)
  : outcome (list StarCertTableRow) KipukaError :=
  match so_cert_insert o with
  | Some e => Err (EDb e)
  | None => Ok (certs ++ [row])
  end.

(** The transaction: the state it leaves and its outcome. *)
Definition commit_order (o : StarOutside) (s : StarState) (row : StarOrderRow) (cert : StarCertificate)
    (identity ca_id profile : string) (r : IssuanceResult) : StarState * outcome unit KipukaError :=
  match so_begin o with
  | Some e => (s, Err (EDb ("begin transaction failed: " +:+ e)))
  | None =>
      let app := st_app s in
      match (let? orders := insert_order o (star_orders s) row in
             let? certs := insert_star_certificate o (star_certificates s) (cert_table_row cert (sor_id row)) in
             Ok (orders, certs)) with
      | Err e => (s, Err e)
      | Panic => (s, Panic)
      | Ok (orders, certs) =>
          match persist_certificate_on app (so_insert o) ca_id profile r with
          | (_, Err e) => (s, Err e)
          | (_, Panic) => (s, Panic)
          | (tx, Ok _) =>
              let detail := "STAR order=" +:+ sor_id row +:+ ", identity=" +:+ identity +:+ ", serial=" +:+
                            Issuance.serial_number r in
              let f := call_faults (so_issuance o) in
              match record_issuance_in_transaction digest json_object (app_audit_db tx) (app_audit tx) ca_id
                      detail f (call_time (so_issuance o)) with
              | (tx_db, audit, Ok _) =>
                  match commit_issuance (app_audit_db app) tx_db audit f with
                  | (db, audit, Ok _) =>
                      (MkStarState (with_audit tx (db, audit)) (star_manager s) orders certs, Ok tt)
                  | (db, audit, r) => (set_app s (with_audit app (db, audit)), map_err EDb r)
                  end
              | (_, audit, r) => (set_app s (with_audit app (app_audit_db app, audit)), map_err EDb r)
              end
          end
      end
  end.

(** The block whose failure takes the order back. *)
Definition issue_order (o : StarOutside) (s : StarState) (m : StarManager) (order : StarOrder)
    (csr_der : bytes) (ca : CaState) (key : CaSigningKey) (p : EnrollmentProfile) (interval : Z)
    (identity ca_id : string) : StarState * outcome IssuanceResult KipukaError :=
  match map_err kipuka_of_issuance
          (Issuance.issue_certificate (so_inputs o) csr_der p (ca_cert_der ca) key
             (ca_hash_algorithm ca) (ca_ocsp_url ca) (ca_crl_url ca)) with
  | Err e => (s, Err e)
  | Panic => (s, Panic)
  | Ok r =>
      let first_cert := first_certificate r (order_id order) in
      match commit_order o s (order_row o order interval identity ca_id csr_der) first_cert identity ca_id
              (profile_name p) r with
      | (s, Err e) => (s, Err e)
      | (s, Panic) => (s, Panic)
      | (s, Ok _) =>
          match store_renewed_certificate m (order_id order) first_cert with
          | (m, Ok _) => (set_manager s m, Ok r)
          | (m, Err e) => (set_manager s m, Err (star_error_to_kipuka e))
          | (m, Panic) => (set_manager s m, Panic)
          end
      end
  end.

Definition order_response (order_id : string) (r : IssuanceResult) : outcome Response KipukaError :=
  let? pkcs7_der := build_certs_only_pkcs7 [Issuance.certificate_der r] in
  Ok (MkResponse 201
        (<["star-order-id" :=
             if forallb visible_ascii (bytes_of_string order_id) then order_id else "unknown"]>
          (<["content-transfer-encoding" := TRANSFER_ENCODING_BASE64]>
            {["content-type" := PKCS7_CERTS]}))
        (encode_est_base64 b64_encode pkcs7_der)).

(** Under the operation lock, from the order in memory to the answer. *)
Definition place_order (o : StarOutside) (s : StarState) (m : StarManager) (identity ca_id : string)
    (csr_der : bytes) (ca : CaState) (key : CaSigningKey) (p : EnrollmentProfile) (interval days : Z)
  : StarState * outcome Response KipukaError :=
  match of_lib EInternal (profile_json p) with
  | Err e => (s, Err e)
  | Panic => (s, Panic)
  | Ok profile_text =>
      match create_order m (so_uuid o) identity (key_type_debug (detect_key_type_from_csr csr_der))
              profile_text interval days ca_id csr_der (Some identity) (so_create_now o) with
      | (m, Err e) => (set_manager s m, Err (star_error_to_kipuka e))
      | (m, Panic) => (set_manager s m, Panic)
      | (m, Ok order) =>
          match issue_order o (set_manager s m) m order csr_der ca key p interval identity ca_id with
          | (s, Ok r) => (s, order_response (order_id order) r)
          | (s, Err e) =>
              (match star_manager s with
               | Some m => set_manager s (remove_order m (order_id order))
               | None => s
               end, Err e)
          | (s, Panic) => (s, Panic)
          end
      end
  end.

Definition post_star_order (app : AppConfig) (star : option StarConfig) (o : StarOutside) (s : StarState)
    (auth : AuthResult) (l : LabelExtractor) (headers : gmap string bytes) (body : bytes)
  : StarState * outcome Response KipukaError :=
  match (let? c := star_config_of star in let? m := manager_of s in Ok (c, m)) with
  | Err e => (s, Err e)
  | Panic => (s, Panic)
  | Ok (c, m) =>
      let identity := auth_identity auth in
      let '(interval, days) := requested_order c headers in
      match prepare_order app o identity l body interval days with
      | Err e => (s, Err e)
      | Panic => (s, Panic)
      | Ok (csr_der, ca, key, p) =>
          match admit_enrollment digest json_object (st_app s) identity "STAR admission" (so_admission o) with
          | (a, Ok _) => place_order o (set_app s a) m identity (label_ca l) csr_der ca key p interval days
          | (a, Err e) => (set_app s a, Err e)
          | (a, Panic) => (set_app s a, Panic)
          end
      end
  end.

(** ** [get_star_certificate] *)

Definition get_star_certificate (star : option StarConfig) (s : StarState) (id : string) (now : Z)
  : outcome Response KipukaError :=
  let? _ := star_config_of star in
  let? m := manager_of s in
  match get_current_certificate m id now with
  | Ok cert =>
      let? pkcs7_der := build_certs_only_pkcs7 [StarManager.certificate_der cert] in
      Ok (certs_response b64_encode pkcs7_der)
  | Err (OrderCancelled _) | Err (OrderExpired _) => Ok (MkResponse 410 ∅ [])
  | Err (OrderNotFound _) => Err ENotFound
  | Err e => Err (EInternal (star_error_to_string e))
  | Panic => Panic
  end.

(** ** [delete_star_order] *)

Definition cancel_row (id cancelled_at : string) (r : StarOrderRow) : StarOrderRow :=
  if String.eqb (sor_id r) id then
    MkOrderRow (sor_id r) (sor_subject_dn r) (sor_key_type r) (sor_profile r) (sor_interval r)
      (sor_lifetime_end r) (sor_max_renewals r) (sor_current_renewals r) "cancelled" (sor_requestor_dn r)
      (sor_ca_id r) (sor_csr_der r) (sor_created_at r) (Some cancelled_at)
  else r.

(** [update] is the error of the statement, [db_now] and [now] the two
    readings of the clock. *)
Definition delete_star_order (star : option StarConfig) (s : StarState) (auth : AuthResult) (id : string)
    (update : option string) (db_now now : Z) (event : AuditCall)
  : StarState * outcome Response KipukaError :=
  let identity := auth_identity auth in
  match (let? _ := star_config_of star in
         let? m := manager_of s in
         let? order := ok_or (get_order m id) ENotFound in
         if negb (bool_decide (requestor_dn order = Some identity)) then
           Err (EForbidden "only the order owner may cancel")
         else
           match update with Some e => Err (EDb e) | None => Ok m end) with
  | Err e => (s, Err e)
  | Panic => (s, Panic)
  | Ok m =>
      let s := MkStarState (st_app s) (star_manager s)
                 (map (cancel_row id (to_rfc3339 db_now)) (star_orders s)) (star_certificates s) in
      match cancel_order m id now with
      | (m, Err e) => (set_manager s m, Err (star_error_to_kipuka e))
      | (m, Panic) => (set_manager s m, Panic)
      | (m, Ok _) =>
          (set_app (set_manager s m)
             (record_audit_event digest json_object (st_app s) "star_order_cancelled"
                ("order_id=" +:+ id +:+ ", identity=" +:+ identity) event),
           Ok (MkResponse 204 ∅ []))
      end
  end.

(** ** [get_star_history] *)

Record HistoryRow : Type := MkHistoryRow {
  hr_serial : string;
  hr_not_before : string;
  hr_not_after : string;
  hr_renewal : Z
}.

Definition by_renewal (a b : StarCertTableRow) : Prop := scr_renewal a <= scr_renewal b.
#[export] Instance by_renewal_dec : RelDecision by_renewal.
Proof. intros a b. unfold by_renewal. apply _. Defined.

(** The query of a series, in the order of the renewals. *)
Definition star_series (s : StarState) (id : string) : list HistoryRow :=
  map (fun r => MkHistoryRow (scr_serial r) (scr_not_before r) (scr_not_after r) (scr_renewal r))
    (merge_sort by_renewal
       (List.filter (fun r => String.eqb (scr_order_id r) id) (star_certificates s))).

Definition history_entry (r : HistoryRow) : string * string * string * Z :=
  (hr_serial r, hr_not_before r, hr_not_after r, hr_renewal r).

(** [count] and [select] are the errors of the two statements. *)
Definition get_star_history (star : option StarConfig) (s : StarState) (id : string)
    (count select : option string) : outcome Response KipukaError :=
  let? _ := star_config_of star in
  let in_memory := match star_manager s with
                   | Some m => bool_decide (is_Some (get_order m id))
                   | None => false
                   end in
  let in_table := match count with
                  | Some _ => false
                  | None => existsb (fun r => String.eqb (sor_id r) id) (star_orders s)
                  end in
  if negb in_memory && negb in_table then Err ENotFound
  else
    let? rows := match select with Some e => Err (EDb e) | None => Ok (star_series s id) end in
    let? json := of_lib (fun e => EInternal ("JSON serialization failed: " +:+ e))
      (history_json (map history_entry rows)) in
    Ok (MkResponse 200 {["content-type" := "application/json"]} json).

(** ** The transaction of a renewal *)

(** The update with its condition: the rows, and how many it changed. *)
Definition advance_row (o : StarOrder) (cert : StarCertificate) (r : StarOrderRow) : StarOrderRow :=
  MkOrderRow (sor_id r) (sor_subject_dn r) (sor_key_type r) (sor_profile r) (sor_interval r)
    (sor_lifetime_end r) (sor_max_renewals r) (renewal_number cert)
    (if covers_lifetime cert o then "completed" else "active") (sor_requestor_dn r)
    (sor_ca_id r) (sor_csr_der r) (sor_created_at r) (sor_cancelled_at r).
Definition awaits (o : StarOrder) (r : StarOrderRow) : bool :=
  String.eqb (sor_id r) (order_id o) && (sor_current_renewals r =? current_renewals o) &&
  String.eqb (sor_status r) "active".
Definition update_order (o : StarOrder) (cert : StarCertificate) (rows : list StarOrderRow)
  : list StarOrderRow * Z :=
  (map (fun r => if awaits o r then advance_row o cert r else r) rows,
   Z.of_nat (length (List.filter (awaits o) rows))).

(** The row of [certificates] that a renewal writes. *)
Definition renewal_cert_row (o : StarOrder) (cert : StarCertificate) (issuer_dn profile : string) : CertRow :=
  MkCertRow (StarManager.serial_number cert) (StarManager.subject_dn o) issuer_dn
    (to_rfc3339 (StarManager.not_before cert)) (to_rfc3339 (StarManager.not_after cert))
    (StarManager.certificate_der cert) (order_ca_id o) profile "active" None None.

(** The errors of the statements, if they fail. *)
Record RenewalFaults : Type := MkRenewalFaults {
  rf_begin : option string;
  rf_update : option string;
  rf_cert_insert : option string;
  rf_insert : InsertFaults;
  rf_issuance : AuditCall
}.

(** [persist_renewal] on the tables. *)
Definition renewal_tables (f : RenewalFaults) (s : StarState) (o : StarOrder) (cert : StarCertificate)
    (issuer_dn profile : string) : StarState * outcome unit KipukaError :=
  let app := st_app s in
  let (orders, updated) := update_order o cert (star_orders s) in
  match (let? _ := match rf_begin f with Some e => Err (EDb e) | None => Ok tt end in
         let? _ := match rf_update f with Some e => Err (EDb e) | None => Ok tt end in
         let? _ := if updated =? 1 then Ok tt else
                     Err (EDb "no rows returned by a query that expected to return at least one row") in
         let? _ := match rf_cert_insert f with Some e => Err (EDb e) | None => Ok tt end in
         let failed := match insert_error (rf_insert f) with Some _ => true | None => false end in
         match insert_certificate app failed (renewal_cert_row o cert issuer_dn profile) with
         | (tx, true) => Ok tx
         | (_, false) => Err (EDb (default (duplicate_text (rf_insert f)) (insert_error (rf_insert f))))
         end) with
  | Err e => (s, Err e)
  | Panic => (s, Panic)
  | Ok tx =>
      let detail := "STAR renewal #" +:+ pretty (renewal_number cert) +:+ " for order " +:+ order_id o +:+
                    ", serial=" +:+ StarManager.serial_number cert in
      let af := call_faults (rf_issuance f) in
      match record_issuance_in_transaction digest json_object (app_audit_db tx) (app_audit tx) (order_ca_id o)
              detail af (call_time (rf_issuance f)) with
      | (tx_db, audit, Ok _) =>
          match commit_issuance (app_audit_db app) tx_db audit af with
          | (db, audit, Ok _) =>
              (MkStarState (with_audit tx (db, audit)) (star_manager s) orders
                 (star_certificates s ++ [cert_table_row cert (order_id o)]), Ok tt)
          | (db, audit, r) => (set_app s (with_audit app (db, audit)), map_err EDb r)
          end
      | (_, audit, r) => (set_app s (with_audit app (app_audit_db app, audit)), map_err EDb r)
      end
  end.

(** The end of a renewal: the transaction, then the publication. *)
Definition renew_order (f : RenewalFaults) (s : StarState) (id : string) (o : StarOrder) (cert : StarCertificate)
    (issuer_dn profile : string) : StarState :=
  match renewal_tables f s o cert issuer_dn profile with
  | (s, Ok _) =>
      match star_manager s with
      | Some m => set_manager s (store_renewed_certificate m id cert).1
      | None => s
      end
  | (s, _) => s
  end.

(** What the renewal of an order reads: its stored profile, the admission to
    the audit trail, the issuance, and the statements of its transaction. *)
Record RenewalReads : Type := MkRenewalReads {
  rn_profile : string -> EnrollmentProfile + string;
  rn_admission : AuditCall;
  rn_inputs : IssueInputs Coins;
  rn_read_file : string -> bytes + string;
  rn_utf8_error_text : bytes -> string;
  rn_faults : RenewalFaults
}.

(** The stored profile, for one interval within the order's lifetime. *)
Definition renewal_profile (p : EnrollmentProfile) (o : StarOrder) : EnrollmentProfile :=
  MkProfile (profile_name p) (max_validity_days p) (Some (renewal_interval o / SECS)) (Some (lifetime_end o))
    (key_usage p) (Issuance.extended_key_usage p) (include_ski p) (include_aki p) (min_rsa_bits p)
    (min_ecdsa_curve p) (ct_enabled p) (certificate_policies p) (allowed_ml_dsa_levels p)
    (allowed_ml_kem_levels p) (allow_composite_ml_dsa p) (require_dual_cert p) (must_staple p).
Definition next_certificate (o : StarOrder) (id : string) (r : IssuanceResult) : StarCertificate :=
  MkStarCert (Issuance.certificate_der r) (Issuance.serial_number r) (Issuance.not_before r)
    (Issuance.not_after r) (as_u32 (current_renewals o + 1)) id.
Definition renewal_event (o : StarOrder) (id : string) : AuditEvent :=
  with_detail (with_ca_id (audit_event_new AuditLog.EnrollRequest) (order_ca_id o)) ("STAR renewal for " +:+ id).

(** From the admission of an order's renewal to its publication; whether it
    did not panic. *)
Definition renew_admitted (app : AppConfig) (w : RenewalReads) (s : StarState) (id : string) (o : StarOrder)
    (ca : CaState) (p : EnrollmentProfile) : StarState * bool :=
  match List.find (fun c => String.eqb (cfg_id c) (order_ca_id o)) (ca_configs app) with
  | None => (s, true)
  | Some cfg =>
      match Issuance.resolve_signing_key (rn_utf8_error_text w) (rn_read_file w) cfg (hsm app) with
      | Ok key =>
          match Issuance.issue_certificate (rn_inputs w) (order_csr_der o) p (ca_cert_der ca) key
                  (ca_hash_algorithm ca) (ca_ocsp_url ca) (ca_crl_url ca) with
          | Ok r =>
              match cert_from_der (ca_cert_der ca) with
              | inl issuer =>
                  (renew_order (rn_faults w) s id o (next_certificate o id r) (format_dn (cert_subject issuer))
                     (profile_name p), true)
              | inr _ => (s, true)
              end
          | Err _ => (s, true)
          | Panic => (s, false)
          end
      | Err _ => (s, true)
      | Panic => (s, false)
      end
  end.
Definition renew_stored (app : AppConfig) (w : RenewalReads) (s : StarState) (id : string) : StarState * bool :=
  match (m ← star_manager s; get_order m id) with
  | None => (s, true)
  | Some o =>
      if negb (bool_decide (StarManager.status o = Active)) then (s, true)
      else
        match cas app !! order_ca_id o, rn_profile w (order_profile o) with
        | Some ca, inl p =>
            let '(db, st, r) := record_checked digest json_object (app_audit_db (st_app s)) (app_audit (st_app s))
              (renewal_event o id) (call_faults (rn_admission w)) (call_time (rn_admission w)) in
            let s := set_app s (with_audit (st_app s) (db, st)) in
            match r with
            | Ok _ => renew_admitted app w s id o ca (renewal_profile p o)
            | _ => (s, true)
            end
        | _, _ => (s, true)
        end
  end.

(** [renewal_cycle] of the task, which a panic ends. *)
Fixpoint renew_each (app : AppConfig) (w : string -> RenewalReads) (s : StarState) (ids : list string) : StarState * bool :=
  match ids with
  | [] => (s, true)
  | id :: ids =>
      let (s, alive) := renew_stored app (w id) s id in
      if alive then renew_each app w s ids else (s, false)
  end.
Definition renewal_tick (app : AppConfig) (w : string -> RenewalReads) (now due : Z) (s : StarState) : StarState * bool :=
  match star_manager s with
  | None => (s, true)
  | Some m =>
      let m := (cleanup_expired m now).1 in
      renew_each app w (set_manager s m) (orders_needing_renewal_at m due)
  end.

(** ** Reading the tables back *)

Definition parse_time (text : string) : outcome Z StarError :=
  of_lib DatabaseError (parse_rfc3339 text).

(** The [CASE] of the query, then the match on its result. *)
Definition stored_status (text : string) : StarOrderStatus :=
  if String.eqb text "active" then Active
  else if String.eqb text "completed" then Completed
  else if String.eqb text "cancelled" then Cancelled
  else Expired.

(** [ORDER BY renewal_number DESC LIMIT 1]: the first of the rows with the
    greatest number. *)
Definition later (best : option StarCertTableRow) (r : StarCertTableRow) : option StarCertTableRow :=
  match best with
  | Some b => if scr_renewal b <? scr_renewal r then Some r else best
  | None => Some r
  end.
Definition latest_certificate (certs : list StarCertTableRow) (id : string) : option StarCertTableRow :=
  fold_left later (List.filter (fun r => String.eqb (scr_order_id r) id) certs) None.

Definition read_certificate (c : option StarCertTableRow) (id : string)
  : outcome (option StarCertificate) StarError :=
  match c with
  | None => Ok None
  | Some c =>
      let? nb := parse_time (scr_not_before c) in
      let? na := parse_time (scr_not_after c) in
      Ok (Some (MkStarCert (scr_der c) (scr_serial c) nb na (as_u32 (scr_renewal c)) id))
  end.

Definition read_order (certs : list StarCertTableRow) (r : StarOrderRow) : outcome StarOrder StarError :=
  let? certificate := read_certificate (latest_certificate certs (sor_id r)) (sor_id r) in
  let? lifetime := parse_time (sor_lifetime_end r) in
  let? created := parse_time (sor_created_at r) in
  let? cancelled := match sor_cancelled_at r with
                    | None => Ok None
                    | Some t => let? t := parse_time t in Ok (Some t)
                    end in
  Ok (MkOrder (sor_id r) (sor_subject_dn r) (sor_key_type r) (sor_profile r)
        (as_u64 (sor_interval r) * SECS) lifetime (as_u32 (sor_max_renewals r))
        (as_u32 (sor_current_renewals r)) (stored_status (sor_status r)) (sor_requestor_dn r)
        (sor_ca_id r) (sor_csr_der r) certificate created cancelled).

Fixpoint read_orders (certs : list StarCertTableRow) (rows : list StarOrderRow)
  : outcome (list StarOrder) StarError :=
  match rows with
  | [] => Ok []
  | r :: rows =>
      let? o := read_order certs r in
      let? os := read_orders certs rows in
      Ok (o :: os)
  end.

(** [UPDATE star_orders SET status = 'active' WHERE id = ? AND status = 'completed'],
    with the error it fails with, if it does. *)
Definition reactivate_row (id : string) (r : StarOrderRow) : StarOrderRow :=
  if String.eqb (sor_id r) id && String.eqb (sor_status r) "completed" then
    MkOrderRow (sor_id r) (sor_subject_dn r) (sor_key_type r) (sor_profile r) (sor_interval r)
      (sor_lifetime_end r) (sor_max_renewals r) (sor_current_renewals r) "active" (sor_requestor_dn r)
      (sor_ca_id r) (sor_csr_der r) (sor_created_at r) (sor_cancelled_at r)
  else r.
Definition reactivate_rows (error : StarOrder -> option string) (rows : list StarOrderRow) (o : StarOrder)
  : list StarOrderRow * option string :=
  match error o with
  | Some e => (rows, Some e)
  | None => (map (reactivate_row (order_id o)) rows, None)
  end.

(** A start on the tables: [restore] of the rows that are read. *)
Definition restart (error : StarOrder -> option string) (c : StarConfig) (s : StarState) (now : Z)
  : StarState * outcome unit StarError :=
  let '(rows, m, r) := restore (reactivate_rows error) (star_orders s) (star_new c)
                         (read_orders (star_certificates s) (star_orders s)) now in
  (MkStarState (st_app s) (Some m) rows (star_certificates s), r).
End StarRoutes.
