(* ===== verification/StarRoutesSpec.v ===== *)
(** * What the STAR endpoints guarantee

    Of StarRoutes.v, composed with the order manager, issuance, authorization
    and the audit trail: an order is placed as a whole or not at all, only
    its owner cancels it, and the tables always suffice to serve it as the
    memory does. *)
From S2P Require Import Prelude Words Text Errors Calendar StarManager X509 Der ExampleLibs Issuance IssuanceSpec AuditLog AuditSpec NameMatch EnrollAuthz FailureTracker BasicOtp Transfer Enroll EnrollSpec Labels KeyGen ServerKeygen StarRoutes.
Open Scope Z_scope.

Section Star.
Context `{HL : X509Lib} `{HC : CmsOids} `{HE : Encoder} `{HT : StarText}.
Variable authz_reason : AuthzError -> string.
Variable b64_encode : bytes -> bytes.
Variable b64_decode : bytes -> bytes + string.
Variable digest : option bytes -> bytes -> string.
Variable json_object : list (string * string) -> string.

Abbreviation post_star_order := (post_star_order authz_reason b64_encode b64_decode digest json_object).
Abbreviation delete_star_order := (delete_star_order digest json_object).
Abbreviation commit_order := (commit_order digest json_object).
Abbreviation renew_order := (renew_order digest json_object).
Abbreviation decode := (decode_est_base64 b64_decode).

(** ** The audit trail of an issuance *)

(** The newest record of the trail is the issuance, unless the trail is off. *)
Definition issuance_recorded (before after : AppState) (ca_id detail : string) : Prop :=
  if enabled (audit_config (app_audit before)) then
    halted (app_audit before) = false /\
    exists kept row, audit_rows (app_audit_db after) = kept ++ [row] /\
      ar_event_type row = "cert.issue" /\
      ar_detail_json row = Some (json_object [("detail", detail); ("ca_id", ca_id)])
  else app_audit_db after = app_audit_db before.

(** The record in a transaction and its commit. *)
Lemma issuance_committed db st ca_id detail f ts tx st1 db' st2 :
  record_issuance_in_transaction digest json_object db st ca_id detail f ts = (tx, st1, Ok tt) ->
  commit_issuance db tx st1 f = (db', st2, Ok tt) ->
  forall before after, app_audit_db before = db -> app_audit before = st -> app_audit_db after = db' ->
  issuance_recorded before after ca_id detail.
Proof.
  unfold record_issuance_in_transaction, commit_issuance, issuance_recorded.
  destruct (f_commit f); [done|]. intros E [= <- _] before after Hb Ha Hd. subst db st. rewrite Hd.
  destruct (enabled (audit_config (app_audit before))); cbn [negb] in E.
  2: by injection E as <- _.
  destruct (write_event _ _ _ _ _ _ _) as [tx1 r] eqn:Ew. injection E as -> _ ->.
  apply write_event_Ok in Ew as (Hh & db1 & _ & Hrows & _). split; [done|]. rewrite Hrows.
  eexists _, _. by split_and!.
Qed.

(** ** The transaction that places an order *)

Definition order_detail (id identity serial : string) : string :=
  "STAR order=" +:+ id +:+ ", identity=" +:+ identity +:+ ", serial=" +:+ serial.

(** Nothing of the tables and the trail changes. *)
Definition same_tables (s s' : StarState) : Prop :=
  certificates (st_app s') = certificates (st_app s) /\
  pending_csrs (st_app s') = pending_csrs (st_app s) /\
  star_orders s' = star_orders s /\ star_certificates s' = star_certificates s.

Definition order_committed (s s' : StarState) (row : StarOrderRow) (cert : StarCertificate)
    (identity ca_id profile : string) (r : IssuanceResult) : Prop :=
  pending_csrs (st_app s') = pending_csrs (st_app s) /\
  star_orders s' = star_orders s ++ [row] /\
  Forall (fun q => sor_id q <> sor_id row) (star_orders s) /\
  star_certificates s' = star_certificates s ++ [cert_table_row cert (sor_id row)] /\
  (exists c, cert_from_der (Issuance.certificate_der r) = inl c /\
     certificates (st_app s') = certificates (st_app s) ++
       [certificate_row r (format_dn (cert_issuer c)) ca_id profile]) /\
  Forall (fun q => cr_serial q <> Issuance.serial_number r) (certificates (st_app s)) /\
  issuance_recorded (st_app s) (st_app s') ca_id
    (order_detail (sor_id row) identity (Issuance.serial_number r)).

Lemma commit_order_spec o s row cert identity ca_id profile r s' res :
  commit_order o s row cert identity ca_id profile r = (s', res) ->
  star_manager s' = star_manager s /\
  match res with
  | Ok _ => order_committed s s' row cert identity ca_id profile r
  | _ => same_tables s s' /\ app_audit_db (st_app s') = app_audit_db (st_app s)
  end.
Proof.
  unfold StarRoutes.commit_order. destruct (so_begin o); [by intros [= <- <-]|].
  unfold insert_order, insert_star_certificate. destruct (so_order_insert o); [by intros [= <- <-]|].
  destruct (existsb _ _) eqn:Ex; [by intros [= <- <-]|].
  destruct (so_cert_insert o); [by intros [= <- <-]|]. cbn [obind].
  destruct (persist_certificate_on _ _ _ _ _) as [tx rp] eqn:Ep.
  apply persist_on_spec in Ep as (Hdb & Hau & Hpend & _ & Hr).
  destruct rp as [[]|e|]; [|by intros [= <- <-]..].
  destruct (record_issuance_in_transaction _ _ _ _ _ _ _ _) as [[txdb au] ra] eqn:Era.
  destruct ra as [[]|e|]; [|by intros [= <- <-]..].
  destruct (commit_issuance _ _ _ _) as [[db au2] rc] eqn:Ec.
  destruct rc as [[]|e|]; [|unfold commit_issuance in Ec; destruct (f_commit _); [|done];
    injection Ec as <- <- ?; by intros [= <- <-]..].
  intros [= <- <-]. split; [done|]. destruct Hr as (c & Hc & Hcerts & Hser).
  rewrite Hdb in Era. rewrite Hau in Era.
  unfold order_committed. split_and!; try done.
  - apply Forall_forall. intros q Hq Heq. rewrite <- not_true_iff_false, existsb_exists in Ex. apply Ex.
    exists q. split; [by apply list_elem_of_In|by apply String.eqb_eq].
  - by exists c.
  - by eapply issuance_committed.
Qed.

(** ** Placing an order *)

(** The order that a placed one is in memory. *)
Definition placed_order (o : StarOutside) (identity ca_id : string) (csr_der : bytes) (profile_text : string)
    (estimate interval days : Z) (r : IssuanceResult) : StarOrder :=
  let cert := first_certificate r (so_uuid o) in
  let lifetime_end := so_create_now o + days * DAY in
  MkOrder (so_uuid o) identity (key_type_debug (detect_key_type_from_csr csr_der)) profile_text
    (interval * SECS) lifetime_end estimate 1
    (if timestamp lifetime_end <=? timestamp (Issuance.not_after r) then Completed else Active)
    (Some identity) ca_id csr_der (Some cert) (so_create_now o) None.

(** The request [csr_der] may be made, and [r] is the certificate of the
    label's CA for it, under the profile [p] of a STAR order. *)
Definition star_issued (app : AppConfig) (o : StarOutside) (identity : string) (l : LabelExtractor)
    (body csr_der : bytes) (interval days : Z) (p : EnrollmentProfile) (r : IssuanceResult) : Prop :=
  decode body = Ok csr_der /\ 60 <= Z.of_nat (length csr_der) /\
  exists csr ca cfg key, csr_checked csr_der csr p /\
    authorized (csr_subject_cn csr_subject_attrs csr) (csr_sans csr) identity (enroll_policy l) /\
    get_ca app (label_ca l) = Some ca /\ In cfg (ca_configs app) /\ cfg_id cfg = label_ca l /\
    Issuance.resolve_signing_key (so_utf8_error_text o) (so_read_file o) cfg (hsm app) = Ok key /\
    star_profile o ca l interval days = Ok p /\
    Issuance.issue_certificate (so_inputs o) csr_der p (ca_cert_der ca) key (ca_hash_algorithm ca)
      (ca_ocsp_url ca) (ca_crl_url ca) = Ok r.

(** A certificate of such a profile lives for the interval at most, and not
    beyond the lifetime of the order. *)
Lemma star_issued_bounds app o identity l body csr_der interval days p r :
  star_issued app o identity l body csr_der interval days p r ->
  Issuance.not_before r < Issuance.not_after r <= Issuance.not_before r + interval * SECS /\
  Issuance.not_after r <= so_lifetime_now o + days * DAY.
Proof.
  intros (_ & _ & csr & ca & cfg & key & _ & _ & _ & _ & _ & _ & Hp & Hi).
  unfold star_profile in Hp. destruct (max_utc (so_inputs o) <? _); [done|]. injection Hp as <-.
  apply issue_certificate_Ok in Hi as (csr' & _ & _ & cert & tbs & _ & _ & (Hend & Hnb & _) & _).
  apply validity_end_Ok in Hend as (Hpos & Hsecs & Hlim & _). rewrite <- Hnb in *.
  specialize (Hsecs _ eq_refl). specialize (Hlim _ eq_refl). lia.
Qed.

Lemma prepare_order_Ok app o identity l body interval days csr_der ca key p :
  prepare_order authz_reason b64_decode app o identity l body interval days = Ok (csr_der, ca, key, p) ->
  decode body = Ok csr_der /\ 60 <= Z.of_nat (length csr_der) /\
  authorize_csr_der csr_subject_attrs csr_sans (fun d => of_lib id (csr_from_der d)) csr_der
    identity (enroll_policy l) = Ok tt /\
  exists cfg, get_ca app (label_ca l) = Some ca /\ In cfg (ca_configs app) /\ cfg_id cfg = label_ca l /\
    Issuance.resolve_signing_key (so_utf8_error_text o) (so_read_file o) cfg (hsm app) = Ok key /\
    star_profile o ca l interval days = Ok p.
Proof.
  unfold prepare_order. intros E. take_ok E as d E1. apply map_err_Ok in E1.
  destruct (Z.ltb_spec (Z.of_nat (length d)) 60); [done|].
  take_ok E as u E2. destruct u. take_ok E as ca' E3. take_ok E as cfg E4. take_ok E as key' E5. take_ok E as p' E6.
  injection E as -> -> -> ->. apply map_err_Ok in E2. apply ok_or_Ok in E3, E4.
  apply List.find_some in E4 as [Hin Hid]. apply String.eqb_eq in Hid. split_and!; try done. by exists cfg.
Qed.

(** The order goes into memory as it was when it fails, and as it is placed. *)
Lemma create_then_remove m u s k p i d ca csr rq now m1 order :
  get_order m u = None -> create_order m u s k p i d ca csr rq now = (m1, Ok order) ->
  order_id order = u /\ remove_order m1 u = m.
Proof.
  unfold create_order, get_order. intros Hn. repeat (case_match; [done|]). intros [= <- <-].
  split; [done|]. unfold remove_order, set_orders. cbn [orders star_config order_id].
  rewrite delete_insert_id by done. by destruct m.
Qed.

Lemma create_then_store m o identity ca_id csr_der profile_text interval days m1 order r :
  create_order m (so_uuid o) identity (key_type_debug (detect_key_type_from_csr csr_der)) profile_text
    interval days ca_id csr_der (Some identity) (so_create_now o) = (m1, Ok order) ->
  let placed := placed_order o identity ca_id csr_der profile_text (max_renewals order) interval days r in
  (min_renewal_interval_secs (star_config m) <= interval <= max_renewal_interval_secs (star_config m)) /\
  (days <> 0 /\ days <= max_lifetime_days (star_config m)) /\
  active_order_count m < max_active_orders (star_config m) /\
  order_row o order interval identity ca_id csr_der = order_row o placed interval identity ca_id csr_der /\
  store_renewed_certificate m1 (so_uuid o) (first_certificate r (so_uuid o)) =
    (set_orders m (<[so_uuid o := placed]> (orders m)), Ok tt).
Proof.
  intros E placed. unfold create_order in E. destruct (Z.eqb_spec days 0); [done|].
  destruct (Z.ltb_spec (max_lifetime_days (star_config m)) days); [done|].
  destruct (Z.ltb_spec interval (min_renewal_interval_secs (star_config m))); [done|].
  destruct (Z.ltb_spec (max_renewal_interval_secs (star_config m)) interval); [done|]. cbn [orb] in E.
  destruct (Z.leb_spec (max_active_orders (star_config m)) (active_order_count m)); [done|].
  injection E as <- <-. split_and!; try done.
  unfold store_renewed_certificate. cbn [orders set_orders]. rewrite lookup_insert_eq.
  cbn [StarManager.status]. f_equal. unfold set_orders. cbn [star_config orders]. f_equal.
  rewrite insert_insert_eq. f_equal. unfold placed, placed_order, covers_lifetime, with_certificate, with_status.
  cbn [StarManager.not_after first_certificate lifetime_end StarManager.current_renewals]. by destruct (_ <=? _).
Qed.

Definition order_placed (app : AppConfig) (c : StarConfig) (o : StarOutside) (s s' : StarState)
    (identity : string) (l : LabelExtractor) (headers : gmap string bytes) (body : bytes)
    (resp : outcome Response KipukaError) : Prop :=
  let (interval, days) := requested_order c headers in
  exists m a csr_der p r text estimate,
    let order := placed_order o identity (label_ca l) csr_der text estimate interval days r in
    star_manager s = Some m /\
    admitted json_object (st_app s) a identity "STAR admission" (so_admission o) /\
    star_issued app o identity l body csr_der interval days p r /\ profile_json p = inl text /\
    order_committed (set_app s a) s' (order_row o order interval identity (label_ca l) csr_der)
      (first_certificate r (so_uuid o)) identity (label_ca l) (profile_name p) r /\
    star_manager s' = Some (set_orders m (<[so_uuid o := order]> (orders m))) /\
    (min_renewal_interval_secs (star_config m) <= interval <= max_renewal_interval_secs (star_config m)) /\
    (days <> 0 /\ days <= max_lifetime_days (star_config m)) /\
    active_order_count m < max_active_orders (star_config m) /\
    0 <= estimate < 2 ^ 32 /\
    (Issuance.not_before r < Issuance.not_after r <= Issuance.not_before r + interval * SECS /\
     Issuance.not_after r <= so_lifetime_now o + days * DAY) /\
    (forall now, now < lifetime_end order ->
       get_star_certificate b64_encode (Some c) s' (so_uuid o) now =
         let? pkcs7 := build_certs_only_pkcs7 [Issuance.certificate_der r] in
         Ok (certs_response b64_encode pkcs7)) /\
    resp = order_response b64_encode (so_uuid o) r.

(** A call that places nothing: no answer but an error, and no trace but in
    the audit trail; a panic may leave the order in memory alone. *)
Definition nothing_placed (s s' : StarState) (resp : outcome Response KipukaError) : Prop :=
  same_tables s s' /\
  ((exists e, resp = Err e) /\ star_manager s' = star_manager s \/ resp = Panic).

Lemma estimate_range f i t : 0 <= t -> 0 <= renewal_estimate f i t < 2 ^ 32.
Proof.
  intros Ht. unfold renewal_estimate. cbv zeta. set (c := f64_floor_max_1 _).
  assert (1 <= c) by (unfold c, f64_floor_max_1; lia). pose proof (Z.div_pos t c Ht ltac:(lia)).
  destruct (_ =? 0); lia.
Qed.

Lemma create_estimate m u s k p i d ca csr rq now m1 order :
  create_order m u s k p i d ca csr rq now = (m1, Ok order) -> 0 <= max_renewals order < 2 ^ 32.
Proof.
  unfold create_order. repeat (case_match; [done|]). intros [= _ <-]. cbn [max_renewals].
  apply estimate_range. lia.
Qed.

Lemma create_failed m u s k p i d ca csr rq now m1 e :
  create_order m u s k p i d ca csr rq now = (m1, e) ->
  (forall order, e <> Ok order) -> m1 = m /\ exists why, e = Err why.
Proof.
  unfold create_order. repeat (case_match; [intros [= <- <-]; by eauto|]). intros [= _ <-] Hn.
  by destruct (Hn _ eq_refl).
Qed.

Lemma set_app_manager s a m : star_manager s = Some m -> set_manager (set_app s a) m = set_app s a.
Proof. unfold set_manager, set_app. cbn. by intros ->. Qed.

Lemma place_order_spec app c o s a m identity l body csr_der ca key p interval days s' resp :
  star_enabled c = true -> star_manager s = Some m -> get_order m (so_uuid o) = None ->
  admitted json_object (st_app s) a identity "STAR admission" (so_admission o) ->
  decode body = Ok csr_der -> 60 <= Z.of_nat (length csr_der) ->
  authorize_csr_der csr_subject_attrs csr_sans (fun d => of_lib id (csr_from_der d)) csr_der
    identity (enroll_policy l) = Ok tt ->
  (exists cfg, get_ca app (label_ca l) = Some ca /\ In cfg (ca_configs app) /\ cfg_id cfg = label_ca l /\
    Issuance.resolve_signing_key (so_utf8_error_text o) (so_read_file o) cfg (hsm app) = Ok key /\
    star_profile o ca l interval days = Ok p) ->
  place_order b64_encode digest json_object o (set_app s a) m identity (label_ca l) csr_der ca key p
    interval days = (s', resp) ->
  nothing_placed s s' resp \/
  forall headers, requested_order c headers = (interval, days) ->
    order_placed app c o s s' identity l headers body resp.
Proof.
  intros Hen Hm Hfresh Had Hdec Hlen Hau (cfg & Hca & Hin & Hid & Hkey & Hp).
  assert (Hsame : same_tables s (set_app s a)) by (destruct Had as (? & ? & _); by split_and!).
  unfold place_order. destruct (profile_json p) as [text|e] eqn:Ej; cbn [of_lib].
  2: { intros [= <- <-]. left. split; [done|]. left. by split; [eexists|]. }
  destruct (create_order _ _ _ _ _ _ _ _ _ _ _) as [m1 r0] eqn:Ec.
  destruct r0 as [order|e|].
  2-3: destruct (create_failed _ _ _ _ _ _ _ _ _ _ _ _ _ Ec) as (-> & why & Hw); [done|]; try discriminate Hw;
       rewrite (set_app_manager _ _ _ Hm); intros [= <- <-]; left; (split; [done|]); left;
       by split; [eexists|].
  pose proof (create_estimate _ _ _ _ _ _ _ _ _ _ _ _ _ Ec) as Hest.
  pose proof (create_then_remove _ _ _ _ _ _ _ _ _ _ _ _ _ Hfresh Ec) as [Hoid Hrem].
  unfold issue_order. destruct (map_err _ _) as [r|e|] eqn:Ei.
  2: { cbn [star_manager set_manager]. rewrite Hoid, Hrem. intros [= <- <-]. left.
       change (set_manager (set_manager (set_app s a) m1) m) with (set_manager (set_app s a) m).
       rewrite (set_app_manager _ _ _ Hm). split; [done|]. left. by split; [eexists|]. }
  2: { intros [= <- <-]. left. split; [done|]. by right. }
  apply map_err_Ok in Ei. rewrite Hoid.
  destruct (create_then_store _ _ _ _ _ _ _ _ _ _ r Ec) as (Hiv & Hdays & Hact & Hrow & Hstore). rewrite Hrow.
  destruct (commit_order _ _ _ _ _ _ _ _) as [s2 rc] eqn:Ecm.
  apply commit_order_spec in Ecm as [Hm2 Hc]. cbn [star_manager set_manager] in Hm2.
  destruct rc as [[]|e|].
  - rewrite Hstore. intros [= <- <-]. right. intros headers Hreq. unfold order_placed. rewrite Hreq.
    exists m, a, csr_der, p, r, text, (max_renewals order).
    assert (Hiss : star_issued app o identity l body csr_der interval days p r).
    { pose proof Ei as Hck. apply issue_certificate_Ok in Hck as (csr & Hck & _).
      split; [done|]. split; [done|]. exists csr, ca, cfg, key. split; [done|].
      split; [|by split_and!]. eapply authorize_csr_der_Ok; [|done]. by destruct Hck as (_ & ? & _). }
    cbv zeta. split; [done|]. split; [done|]. split; [done|]. split; [done|]. split; [exact Hc|].
    split; [done|]. split; [exact Hiv|]. split; [exact Hdays|]. split; [exact Hact|]. split; [done|].
    split; [by eapply star_issued_bounds|]. split; [|done]. intros now Hnow.
    unfold get_star_certificate, get_current_certificate. cbn [star_config_of obind manager_of star_manager set_manager].
    rewrite Hen. unfold manager_of. cbn [obind ok_or star_manager set_manager orders set_orders].
    rewrite lookup_insert_eq. cbn [ok_or obind].
    destruct (Z.leb_spec (lifetime_end (placed_order o identity (label_ca l) csr_der text
      (max_renewals order) interval days r)) now); [lia|].
    cbn [placed_order StarManager.status]. by destruct (_ <=? _).
  - rewrite Hm2, Hrem. intros [= <- <-]. left. destruct Hc as [(H1 & H2 & H3 & H4) _].
    destruct Hsame as (G1 & G2 & _). split; [split_and!; cbn in *; congruence|]. left. split; [by eexists|].
    cbn. by rewrite Hm.
  - intros [= <- <-]. left. destruct Hc as [(H1 & H2 & H3 & H4) _]. destruct Hsame as (G1 & G2 & _).
    split; [split_and!; cbn in *; congruence|]. by right.
Qed.

Lemma post_star_order_spec app star o s auth l headers body s' resp :
  (forall m, star_manager s = Some m -> get_order m (so_uuid o) = None) ->
  post_star_order app star o s auth l headers body = (s', resp) ->
  nothing_placed s s' resp \/
  exists c, star = Some c /\ star_enabled c = true /\
    order_placed app c o s s' (auth_identity auth) l headers body resp.
Proof.
  intros Hfresh. unfold StarRoutes.post_star_order.
  assert (Hrefl : forall e, nothing_placed s s (Err e)) by (intros e; split; [by split_and!|left; eauto]).
  destruct star as [c|]; cbn [star_config_of obind]; [|intros [= <- <-]; by left].
  destruct (star_enabled c) eqn:Hen; cbn [obind]; [|intros [= <- <-]; by left].
  unfold manager_of. destruct (star_manager s) as [m|] eqn:Hm; cbn [ok_or obind]; [|intros [= <- <-]; by left].
  destruct (requested_order c headers) as [interval days] eqn:Hreq.
  destruct (prepare_order _ _ _ _ _ _ _ _ _) as [[[[csr_der ca] key] p]|e|] eqn:Ep.
  2: intros [= <- <-]; by left.
  2: { intros [= <- <-]. left. split; [by split_and!|by right]. }
  apply prepare_order_Ok in Ep as (Hdec & Hlen & Hau & Hcfg).
  destruct (admit_enrollment_frame digest json_object (st_app s) (auth_identity auth) "STAR admission"
    (so_admission o)) as [Hc1 Hp1].
  destruct (admit_enrollment _ _ _ _ _ _) as [a [[]|e|]] eqn:Ead; cbn [fst] in Hc1, Hp1.
  2-3: intros [= <- <-]; left; (split; [by split_and!|]); first [right; done|left; eauto].
  apply admit_enrollment_Ok in Ead. intros E.
  eapply place_order_spec in E as [Hn|Hp]; [by left| |exact Hen|exact Hm|by apply Hfresh|done..].
  right. exists c. split; [done|]. split; [done|]. by apply Hp.
Qed.

(** C21: an order is placed as a whole or not at all.  A call of the endpoint
    fails, leaving the tables and the orders in memory as they were; or the
    caller may have the names of the request, the admission was recorded,
    the interval and lifetime are within their bounds and the number of
    active orders within its limit; the label's CA issued a certificate for
    the request that lives for the interval at most and not beyond the
    lifetime; the order, its certificate and its audit record are stored
    together; the order is in memory as stored, the answer carries the
    certificate, and it is served until a renewal replaces it. *)
Theorem star_order_placed app star o s auth l headers body s' resp :
  (forall m, star_manager s = Some m -> get_order m (so_uuid o) = None) ->
  post_star_order app star o s auth l headers body = (s', resp) ->
  nothing_placed s s' resp \/
  exists c, star = Some c /\ star_enabled c = true /\
    order_placed app c o s s' (auth_identity auth) l headers body resp.
Proof. apply post_star_order_spec. Qed.

(** ** Cancelling *)

Definition cancelled_order (o : StarOrder) (now : Z) : StarOrder :=
  if bool_decide (StarManager.status o = Cancelled) then o
  else with_cancelled_at (with_status o Cancelled) now.

Lemma cancel_order_eq m id o now :
  get_order m id = Some o ->
  cancel_order m id now = (set_orders m (<[id := cancelled_order o now]> (orders m)), Ok tt).
Proof.
  unfold cancel_order, get_order, cancelled_order. intros E. rewrite E. case_bool_decide; [|done].
  rewrite insert_id by done. by destruct m.
Qed.

Lemma cancelled_status o now : StarManager.status (cancelled_order o now) = Cancelled.
Proof. unfold cancelled_order. by case_bool_decide. Qed.

Definition order_cancelled (s s' : StarState) (identity id : string) (db_now now : Z) : Prop :=
  exists m o, star_manager s = Some m /\ get_order m id = Some o /\ requestor_dn o = Some identity /\
    star_manager s' = Some (set_orders m (<[id := cancelled_order o now]> (orders m))) /\
    star_orders s' = map (cancel_row id (to_rfc3339 db_now)) (star_orders s) /\
    star_certificates s' = star_certificates s /\ certificates (st_app s') = certificates (st_app s).

Lemma delete_star_order_spec star s auth id update db_now now event s' resp :
  delete_star_order star s auth id update db_now now event = (s', resp) ->
  s' = s /\ (exists e, resp = Err e) \/
  order_cancelled s s' (auth_identity auth) id db_now now /\ resp = Ok (MkResponse 204 ∅ []).
Proof.
  unfold StarRoutes.delete_star_order.
  destruct star as [c|]; cbn [star_config_of obind]; [|intros [= <- <-]; eauto].
  destruct (star_enabled c); cbn [obind]; [|intros [= <- <-]; eauto].
  unfold manager_of. destruct (star_manager s) as [m|] eqn:Hm; cbn [ok_or obind]; [|intros [= <- <-]; eauto].
  destruct (get_order m id) as [o|] eqn:Ho; cbn [ok_or obind]; [|intros [= <- <-]; eauto].
  case_bool_decide as Hown; cbn [negb]; [|intros [= <- <-]; eauto].
  destruct update; [intros [= <- <-]; eauto|]. rewrite (cancel_order_eq _ _ _ now Ho).
  intros [= <- <-]. right. split; [|done]. exists m, o. split_and!; done.
Qed.

(** Only its owner cancels an order.  A call of the endpoint changes
    nothing and fails, or the caller is the one the order was made for and
    the order is cancelled in the table and in memory; then no certificate
    of it is served any more, it is not renewed, and nothing else changed. *)
Theorem star_cancel_by_owner star s auth id update db_now now event s' resp :
  delete_star_order star s auth id update db_now now event = (s', resp) ->
  s' = s /\ (exists e, resp = Err e) \/
  exists m o m', star_manager s = Some m /\ get_order m id = Some o /\
    requestor_dn o = Some (auth_identity auth) /\ star_manager s' = Some m' /\
    (forall t, exists e, get_current_certificate m' id t = Err e) /\
    (forall cert, (store_renewed_certificate m' id cert).2 = Err (OrderCancelled id)) /\
    (forall i, i <> id -> get_order m' i = get_order m i) /\
    Forall2 (fun r r' => if String.eqb (sor_id r) id then sor_id r' = id /\ sor_status r' = "cancelled"
                         else r' = r) (star_orders s) (star_orders s') /\
    star_certificates s' = star_certificates s /\ certificates (st_app s') = certificates (st_app s).
Proof.
  intros E. apply delete_star_order_spec in E as [?|[(m & o & Hm & Ho & Hown & Hm' & Hrows & Hc & Ht) _]]; [by left|].
  right. eexists m, o, _. split; [done|]. split; [done|]. split; [done|]. split; [done|].
  set (m' := set_orders m _).
  assert (Hid : orders m' !! id = Some (cancelled_order o now)) by (cbn; by rewrite lookup_insert_eq).
  split_and!; try done.
  - intros t. unfold get_current_certificate. rewrite Hid. cbn [ok_or obind]. rewrite cancelled_status.
    destruct (_ <=? _); eauto.
  - intros cert. unfold store_renewed_certificate. by rewrite Hid, cancelled_status.
  - intros i Hi. unfold get_order. cbn. by rewrite lookup_insert_ne.
  - rewrite Hrows. clear. induction (star_orders s) as [|r rows IH]; cbn; constructor; [|done].
    unfold cancel_row. destruct (String.eqb_spec (sor_id r) id); [|done]. by split.
Qed.
End Star.

(** ** Examples *)

(** Times as a sign and the binary digits. *)
Fixpoint digits_of (p : positive) : string :=
  match p with
  | xH => EmptyString
  | xO p => String "0"%char (digits_of p)
  | xI p => String "1"%char (digits_of p)
  end.
Fixpoint of_digits (s : string) : positive :=
  match s with
  | EmptyString => xH
  | String c s => if bool_decide (c = "0"%char) then xO (of_digits s) else xI (of_digits s)
  end.
Definition time_text (t : Z) : string :=
  match t with
  | Z0 => "z"
  | Zpos p => String "+"%char (digits_of p)
  | Zneg p => String "-"%char (digits_of p)
  end.
Definition of_time_text (s : string) : Z + string :=
  match s with
  | String "+" s => inl (Zpos (of_digits s))
  | String "-" s => inl (Zneg (of_digits s))
  | _ => inl 0
  end.

#[export] Instance example_texts : StarText := {
  to_rfc3339 := time_text;
  parse_rfc3339 := of_time_text;
  profile_json _ := inl "{}";
  history_json l := inl (map (fun e => e.2) l)
}.

Definition star_example : StarConfig := MkStarConfig true 3600 604800 86400 365 10000 f64_0_5.
Definition star_outside : StarOutside :=
  MkStarOutside example_call example_now example_now example_now "7f" "z" example_inputs
    (fun _ => inl [1]) (fun _ => EmptyString) None None "duplicate" None (MkInsertFaults None "duplicate")
    example_call.
Definition star_start : StarState := MkStarState example_state (Some (star_new star_example)) [] [].
Definition example_post_star (o : StarOutside) (s : StarState) (headers : gmap string bytes)
  : StarState * outcome Response KipukaError :=
  post_star_order (fun _ => EmptyString) (fun b => b) inl example_digest example_json EnrollSpec.example_app
    (Some star_example) o s example_caller example_label headers example_body.
(** A lifetime of two days. *)
Definition two_days : gmap string bytes := {["star-lifetime" := bytes_of_string "2"]}.

Lemma star_order_placed_witness : exists s resp,
  example_post_star star_outside star_start two_days = (s, Ok resp) /\
  order_placed (fun b => b) inl example_json EnrollSpec.example_app star_example star_outside star_start s
    "device" example_label two_days example_body (Ok resp).
Proof.
  assert (E : match (example_post_star star_outside star_start two_days).2 with Ok _ => true | _ => false end = true)
    by (vm_compute; reflexivity).
  destruct (example_post_star star_outside star_start two_days) as [s [resp|e|]] eqn:Es; [|discriminate E..].
  clear E. exists s, resp. split; [reflexivity|].
  destruct (star_order_placed (fun _ => EmptyString) (fun b => b) inl example_digest example_json
    EnrollSpec.example_app (Some star_example) star_outside star_start example_caller example_label two_days
    example_body s (Ok resp)) as [[_ [[[e He] _]|Hp]]|(c & Hc & _ & Hp)].
  - intros m Hm. injection Hm as <-. reflexivity.
  - exact Es.
  - discriminate He.
  - discriminate Hp.
  - injection Hc as <-. exact Hp.
Defined.

(** The order, its memory and its table after a cancellation by another
    client and by the owner. *)
Definition star_placed : StarState := (example_post_star star_outside star_start two_days).1.
Definition example_delete (who : string) : StarState * outcome Response KipukaError :=
  delete_star_order example_digest example_json (Some star_example) star_placed
    (MkAuth who Mtls (Some [1]) (Some "CN=a") [] []) "7f" None 5 5 example_call.

Example other_client_refused :
  (example_delete "mallory").2 = Err (EForbidden "only the order owner may cancel").
Proof. vm_compute. reflexivity. Qed.

Lemma star_cancel_by_owner_witness : exists s' resp m',
  example_delete "device" = (s', Ok resp) /\ star_manager s' = Some m' /\
  forall t, exists e, get_current_certificate m' "7f" t = Err e.
Proof.
  assert (E : match (example_delete "device").2 with Ok _ => true | _ => false end = true)
    by (vm_compute; reflexivity).
  destruct (example_delete "device") as [s' [resp|e|]] eqn:Es; [|discriminate E..]. clear E.
  unfold example_delete in Es.
  destruct (star_cancel_by_owner example_digest example_json _ _ _ _ _ _ _ _ _ _ Es)
    as [[_ [e He]]|(m & o & m' & _ & _ & _ & Hm' & Hg & _)]; [discriminate He|].
  exists s', resp, m'. split; [reflexivity|]. split; [exact Hm'|exact Hg].
Defined.

(** A first certificate that lasts to the end of its order completes it in
    memory, but not in the table. *)
Definition one_day : gmap string bytes := {["star-lifetime" := bytes_of_string "1"]}.
Example completed_in_memory_only :
  let s := (example_post_star star_outside star_start one_day).1 in
  (match star_manager s with
   | Some m => option_map StarManager.status (get_order m "7f")
   | None => None
   end, map sor_status (star_orders s)) = (Some Completed, ["active"]).
Proof. vm_compute. reflexivity. Qed.
