(* ===== verification/StarRestart.v ===== *)
(** * The tables suffice to serve the orders

    Of StarRoutes.v: whatever sequence of orders, cancellations, renewals and
    clean-ups a server has run, one that starts on its tables serves every
    order of it as it did.  The text of a time is assumed to be read back as
    the time. *)
From S2P Require Import Prelude Words Text Errors Calendar StarManager StarSpec X509 Der ExampleLibs Issuance IssuanceSpec AuditLog AuditSpec NameMatch EnrollAuthz FailureTracker BasicOtp Transfer Enroll EnrollSpec Labels KeyGen ServerKeygen StarRoutes StarRoutesSpec.
Open Scope Z_scope.

(** What chrono documents of [to_rfc3339]: it is parsed as the same time. *)
Class TimeTextLaws `{StarText} : Prop := {
  rfc3339_round_trip t : parse_rfc3339 (to_rfc3339 t) = inl t
}.

(** ** The latest certificate of an order *)

Lemma latest_app certs x id :
  latest_certificate (certs ++ [x]) id =
    if String.eqb (scr_order_id x) id then later (latest_certificate certs id) x
    else latest_certificate certs id.
Proof.
  unfold latest_certificate. rewrite List.filter_app, fold_left_app. cbn.
  by destruct (String.eqb _ _).
Qed.

Lemma latest_none certs id :
  Forall (fun c => scr_order_id c <> id) certs -> latest_certificate certs id = None.
Proof.
  induction certs as [|c certs IH] using rev_ind; [done|]. intros [Hf Hx]%Forall_app.
  inversion Hx; subst. rewrite latest_app. destruct (String.eqb_spec (scr_order_id c) id); [done|]. by apply IH.
Qed.

Lemma latest_in certs id c : latest_certificate certs id = Some c -> c ∈ certs.
Proof.
  induction certs as [|x certs IH] using rev_ind; [done|]. rewrite latest_app. intros E.
  apply elem_of_app. destruct (String.eqb _ _); [|left; by apply IH].
  destruct (latest_certificate certs id) as [b|]; cbn in E.
  - case_match; [|left; by apply IH]. injection E as ->. right. by apply list_elem_of_singleton.
  - injection E as ->. right. by apply list_elem_of_singleton.
Qed.

Lemma latest_owner certs id c : latest_certificate certs id = Some c -> scr_order_id c = id.
Proof.
  induction certs as [|x certs IH] using rev_ind; [done|]. rewrite latest_app.
  destruct (String.eqb_spec (scr_order_id x) id) as [Hx|]; [|done].
  destruct (latest_certificate certs id) as [b|]; cbn; [case_match|]; intros [= <-]; auto.
Qed.

(** ** What is kept of an order *)

Definition alive (s : StarOrderStatus) : Prop := s = Active \/ s = Completed.

(** The same order, but for when it was created and cancelled, and whether it
    is known to be complete. *)
Definition same_order (o o' : StarOrder) : Prop :=
  o' = MkOrder (order_id o) (StarManager.subject_dn o) (key_type o) (order_profile o) (renewal_interval o)
         (lifetime_end o) (max_renewals o) (current_renewals o) (StarManager.status o') (requestor_dn o)
         (order_ca_id o) (order_csr_der o) (current_certificate o) (created_at o') (cancelled_at o') /\
  (StarManager.status o' = StarManager.status o \/
   alive (StarManager.status o) /\ alive (StarManager.status o')).

(** It is served alike. *)
Lemma same_order_served m m' id o o' t :
  get_order m id = Some o -> get_order m' id = Some o' -> same_order o o' ->
  get_current_certificate m' id t = get_current_certificate m id t.
Proof.
  unfold get_order, get_current_certificate. intros -> -> [E Hst]. cbn [ok_or obind]. rewrite E. cbn.
  destruct (_ <=? t); [done|]. destruct Hst as [->|[[-> | ->] [-> | ->]]]; done.
Qed.

(** ** The orders that are read back *)

Definition ends_early (now : Z) (o : StarOrder) : bool :=
  bool_decide (StarManager.status o = Completed) && (now <? lifetime_end o) &&
  match current_certificate o with None => true | Some c => negb (covers_lifetime c o) end.
Definition revive (now : Z) (o : StarOrder) : StarOrder :=
  if ends_early now o then with_status o Active else o.

Lemma revive_id now o : order_id (revive now o) = order_id o.
Proof. unfold revive. by case_match. Qed.
Lemma revive_lifetime now o : lifetime_end (revive now o) = lifetime_end o.
Proof. unfold revive. by case_match. Qed.

Lemma same_order_revive o o' now : same_order o o' -> same_order o (revive now o').
Proof.
  unfold revive, ends_early. intros [E Hst]. case_match eqn:Hc; [|done].
  rewrite !andb_true_iff, bool_decide_eq_true in Hc. destruct Hc as [[Hcomp _] _].
  split; [rewrite E; by cbn|]. cbn. rewrite Hcomp in Hst. right.
  split; [|by left]. destruct Hst as [<-|[? _]]; [by right|done].
Qed.

(** What the start makes of a row, the orders being read. *)
Definition restored_row (now : Z) (os : list StarOrder) (r : StarOrderRow) : StarOrderRow :=
  fold_left (fun r o => if ends_early now o then reactivate_row (order_id o) r else r) os r.

(** A row is as it was, or completed no more. *)
Definition row_restored (r r' : StarOrderRow) : Prop :=
  r' = r \/ sor_status r = "completed" /\ r' = reactivate_row (sor_id r) r.

Lemma reactivate_row_cases id r :
  reactivate_row id r = r \/ sor_status r = "completed" /\ reactivate_row id r = reactivate_row (sor_id r) r.
Proof.
  unfold reactivate_row. destruct (String.eqb_spec (sor_id r) id) as [<-|]; cbn [andb]; [|by left].
  rewrite String.eqb_refl. cbn [andb]. destruct (String.eqb_spec (sor_status r) "completed"); [by right|by left].
Qed.
Lemma reactivate_row_id id r : sor_id (reactivate_row id r) = sor_id r.
Proof. unfold reactivate_row. by destruct (_ && _). Qed.
Lemma reactivate_active id r : sor_status r <> "completed" -> reactivate_row id r = r.
Proof. unfold reactivate_row. destruct (String.eqb_spec (sor_status r) "completed"); [done|]. by rewrite andb_false_r. Qed.
Lemma reactivate_other id r : sor_id r <> id -> reactivate_row id r = r.
Proof. unfold reactivate_row. by destruct (String.eqb_spec (sor_id r) id). Qed.

Lemma row_restored_trans a b c : row_restored a b -> row_restored b c -> row_restored a c.
Proof.
  intros [->|[Ha ->]]; [done|]. unfold row_restored. intros [->|[Hb ->]]; [by right|].
  exfalso. revert Hb. unfold reactivate_row. by rewrite String.eqb_refl, Ha.
Qed.
Lemma row_restored_id a b : row_restored a b -> sor_id b = sor_id a.
Proof. intros [->|[_ ->]]; [done|apply reactivate_row_id]. Qed.

Lemma restore_rows_eq d m os now :
  restore_rows (reactivate_rows (fun _ => None)) d m os now =
    (map (restored_row now os) d,
     set_orders m (fold_left (fun acc o => <[order_id o := revive now o]> acc) os (orders m)), Ok tt).
Proof.
  revert d m. induction os as [|o os IH]; intros d m; cbn [restore_rows fold_left restored_row].
  { rewrite map_id. by destruct m. }
  unfold revive at 2. change (restored_row now (o :: os)) with
    (fun r => restored_row now os (if ends_early now o then reactivate_row (order_id o) r else r)).
  fold (ends_early now o). destruct (ends_early now o); [|by rewrite IH].
  cbn [reactivate_rows]. by rewrite IH, map_map.
Qed.

(** A start that succeeded met no error; one that did not has only set rows
    active. *)
Lemma restore_rows_Ok error d m os now d' m' :
  restore_rows (reactivate_rows error) d m os now = (d', m', Ok tt) ->
  restore_rows (reactivate_rows (fun _ => None)) d m os now = (d', m', Ok tt).
Proof.
  revert d m. induction os as [|o os IH]; intros d m; cbn [restore_rows]; [done|].
  destruct (_ && _ && _); [|apply IH]. unfold reactivate_rows at 1 3. destruct (error o); [done|]. apply IH.
Qed.
Lemma rows_restored_refl d : Forall2 row_restored d d.
Proof. induction d; constructor; [by left|done]. Qed.
Lemma rows_restored_trans a b c :
  Forall2 row_restored a b -> Forall2 row_restored b c -> Forall2 row_restored a c.
Proof.
  intros H. revert c. induction H as [|x y l l' Hxy _ IH]; intros c Hc.
  - by apply Forall2_nil_inv_l in Hc as ->.
  - apply Forall2_cons_inv_l in Hc as (z & c' & Hz & Hc & ->). constructor; [by eapply row_restored_trans|by apply IH].
Qed.
Lemma reactivate_rows_restored id d : Forall2 row_restored d (map (reactivate_row id) d).
Proof.
  induction d as [|r d IH]; [done|]. cbn. constructor; [|done].
  destruct (reactivate_row_cases id r) as [->|H]; [by left|by right].
Qed.
Lemma restore_rows_rows error d m os now :
  Forall2 row_restored d (restore_rows (reactivate_rows error) d m os now).1.1.
Proof.
  revert d m. induction os as [|o os IH]; intros d m; cbn [restore_rows]; [apply rows_restored_refl|].
  destruct (_ && _ && _); [|apply IH]. unfold reactivate_rows at 1. destruct (error o); [apply rows_restored_refl|].
  eapply rows_restored_trans; [apply reactivate_rows_restored|apply IH].
Qed.

Lemma restored_row_none now os r :
  (forall o, In o os -> order_id o <> sor_id r) -> restored_row now os r = r.
Proof.
  induction os as [|o os IH]; intros H; [done|]. cbn. rewrite reactivate_other by (apply not_eq_sym, H; by left).
  replace (if ends_early now o then r else r) with r by (by destruct (ends_early now o)).
  apply IH. intros x Hx. apply H. by right.
Qed.
Lemma restored_row_one now os r o :
  NoDup (map order_id os) -> In o os -> order_id o = sor_id r ->
  restored_row now os r = if ends_early now o then reactivate_row (sor_id r) r else r.
Proof.
  induction os as [|x os IH]; [done|]. cbn. intros [Hn Hnd]%NoDup_cons [->|Hin] Hid.
  - rewrite Hid in *. change (fold_left _ os ?r) with (restored_row now os r).
    apply restored_row_none. intros y Hy Hyid. apply Hn. rewrite <- Hid.
    assert (sor_id (if ends_early now o then reactivate_row (sor_id r) r else r) = sor_id r) as E
      by (destruct (ends_early now o); [apply reactivate_row_id|done]).
    rewrite E in Hyid. rewrite Hid, <- Hyid. by apply list_elem_of_In, in_map.
  - rewrite (reactivate_other (order_id x)).
    + replace (if ends_early now x then r else r) with r by (by destruct (ends_early now x)). by apply IH.
    + intros E. apply Hn. rewrite <- E, <- Hid. by apply list_elem_of_In, in_map.
Qed.

Lemma fold_insert_lookup now os (acc : gmap string StarOrder) id :
  NoDup (map order_id os) ->
  fold_left (fun acc o => <[order_id o := revive now o]> acc) os acc !! id =
    match List.find (fun o => String.eqb (order_id o) id) os with
    | Some o => Some (revive now o)
    | None => acc !! id
    end.
Proof.
  revert acc. induction os as [|o os IH]; intros acc; cbn; [done|]. intros [Hn Hnd]%NoDup_cons.
  rewrite IH by done. destruct (String.eqb_spec (order_id o) id) as [<-|Hne].
  - destruct (List.find _ os) as [o2|] eqn:Ef; [|by rewrite lookup_insert_eq].
    apply List.find_some in Ef as [Hin Heq%String.eqb_eq]. destruct Hn. rewrite <- Heq.
    apply list_elem_of_fmap. exists o2. split; [done|]. by apply list_elem_of_In.
  - destruct (List.find _ os); [done|]. by rewrite lookup_insert_ne.
Qed.

Section Restart.
Context `{HL : X509Lib} `{HC : CmsOids} `{HE : Encoder} `{HT : StarText} `{Htime : !TimeTextLaws}.
Variable authz_reason : AuthzError -> string.
Variable b64_encode : bytes -> bytes.
Variable b64_decode : bytes -> bytes + string.
Variable digest : option bytes -> bytes -> string.
Variable json_object : list (string * string) -> string.

Abbreviation post_star_order := (post_star_order authz_reason b64_encode b64_decode digest json_object).
Abbreviation delete_star_order := (delete_star_order digest json_object).
Abbreviation renew_order := (renew_order digest json_object).

(** ** The rows of an order *)

Definition row_of (o : StarOrder) (r : StarOrderRow) : Prop :=
  sor_id r = order_id o /\ sor_subject_dn r = StarManager.subject_dn o /\ sor_key_type r = key_type o /\
  sor_profile r = order_profile o /\ as_u64 (sor_interval r) * SECS = renewal_interval o /\
  sor_lifetime_end r = to_rfc3339 (lifetime_end o) /\ as_u32 (sor_max_renewals r) = max_renewals o /\
  sor_current_renewals r = current_renewals o /\ u32 (current_renewals o) /\
  (stored_status (sor_status r) = StarManager.status o \/
   stored_status (sor_status r) = Active /\ StarManager.status o = Completed) /\
  sor_requestor_dn r = requestor_dn o /\ sor_ca_id r = order_ca_id o /\ sor_csr_der r = order_csr_der o.

(** The order has a row, and its certificate is the latest of its series. *)
Definition backed (orders : list StarOrderRow) (certs : list StarCertTableRow) (o : StarOrder) : Prop :=
  (exists r, In r orders /\ row_of o r) /\
  exists c, current_certificate o = Some c /\ star_order_id c = order_id o /\
    renewal_number c = current_renewals o /\
    latest_certificate certs (order_id o) = Some (cert_table_row c (order_id o)).

(** The times of a row can be read; those that the server wrote are written
    as it writes them. *)
Definition readable (text : string) : Prop := exists t, parse_rfc3339 text = inl t.
Definition written (text : string) : Prop := exists t, text = to_rfc3339 t.
Record order_written (r : StarOrderRow) : Prop := {
  ow_lifetime : written (sor_lifetime_end r);
  ow_created : readable (sor_created_at r);
  ow_cancelled : forall t, sor_cancelled_at r = Some t -> readable t;
  ow_renewals : u32 (sor_current_renewals r)
}.
Definition cert_written (c : StarCertTableRow) : Prop :=
  written (scr_not_before c) /\ written (scr_not_after c).
(** The latest certificate of a row's series has the row's number. *)
Definition row_certified (certs : list StarCertTableRow) (r : StarOrderRow) : Prop :=
  exists c, latest_certificate certs (sor_id r) = Some c /\ scr_renewal c = sor_current_renewals r.

Lemma rfc3339_readable t : readable (to_rfc3339 t).
Proof. exists t. apply rfc3339_round_trip. Qed.
Lemma written_readable text : written text -> readable text.
Proof. intros [t ->]. apply rfc3339_readable. Qed.
Lemma rfc3339_written t : written (to_rfc3339 t).
Proof. by exists t. Qed.

(** What the tables of a server satisfy, and its memory. *)
Record tables_inv (orders : list StarOrderRow) (certs : list StarCertTableRow) : Prop := {
  ti_ids : NoDup (map sor_id orders);
  ti_orders : Forall order_written orders;
  ti_certs : Forall cert_written certs;
  ti_owned : Forall (fun c => In (scr_order_id c) (map sor_id orders)) certs;
  ti_certified : Forall (row_certified certs) orders
}.
Definition star_inv (c : StarConfig) (s : StarState) : Prop :=
  tables_inv (star_orders s) (star_certificates s) /\
  exists m, star_manager s = Some m /\ star_config m = c /\
    forall id o, orders m !! id = Some o ->
      order_id o = id /\ backed (star_orders s) (star_certificates s) o.

(** ** Reading a row back *)

Lemma read_order_written certs r :
  order_written r -> Forall cert_written certs -> exists o, read_order certs r = Ok o.
Proof.
  intros [H1 [t2 H2] H3 _] Hc. apply written_readable in H1 as [t1 H1]. unfold read_order, parse_time. rewrite H1, H2.
  cbn [of_lib obind].
  assert (exists c, read_certificate (latest_certificate certs (sor_id r)) (sor_id r) = Ok c) as [c ->].
  { destruct (latest_certificate certs (sor_id r)) as [c|] eqn:El; [|by eexists].
    apply latest_in in El. rewrite Forall_forall in Hc.
    destruct (Hc _ El) as [[t3 E3]%written_readable [t4 E4]%written_readable].
    unfold read_certificate, parse_time. rewrite E3, E4. by eexists. }
  cbn [obind]. destruct (sor_cancelled_at r) as [t|]; [|by eexists].
  destruct (H3 t eq_refl) as [t5 ->]. by eexists.
Qed.

Lemma read_order_id certs r o : read_order certs r = Ok o -> order_id o = sor_id r.
Proof.
  unfold read_order. intros E. take_ok E as a E1. take_ok E as b E2. take_ok E as c E3. take_ok E as d E4.
  by injection E as <-.
Qed.

Lemma read_order_same certs r o o' :
  row_of o r -> read_order certs r = Ok o' ->
  (exists c, current_certificate o = Some c /\ star_order_id c = order_id o /\
    renewal_number c = current_renewals o /\
    latest_certificate certs (order_id o) = Some (cert_table_row c (order_id o))) ->
  same_order o o'.
Proof.
  intros (H1 & H2 & H3 & H4 & H5 & H6 & H7 & H8 & Hu & Hs & H9 & H10 & H11) E (c & Hc & Hcid & Hn & Hlat).
  unfold read_order in E. rewrite H1, Hlat in E. cbn [read_certificate] in E. unfold parse_time in E.
  cbn [cert_table_row scr_not_before scr_not_after] in E. rewrite H6, !rfc3339_round_trip in E.
  cbn [of_lib obind cert_table_row scr_der scr_serial scr_renewal] in E.
  take_ok E as created E1. take_ok E as cancelled E2. injection E as <-.
  unfold same_order. cbn. rewrite H2, H3, H4, H5, H7, H8, H9, H10, H11, Hc.
  assert (as_u32 (current_renewals o) = current_renewals o) as Hid by (by apply Z.mod_small).
  rewrite Hn, Hid. split; [|destruct Hs as [->|[-> ->]]; [by left|right; split; [by right|by left]]].
  repeat f_equal. destruct c. cbn in *. congruence.
Qed.

(** The order that a row of the tables is read as is backed by that row. *)
Lemma read_order_backed orders certs r o :
  tables_inv orders certs -> In r orders -> read_order certs r = Ok o ->
  row_of o r /\ exists c, current_certificate o = Some c /\ star_order_id c = order_id o /\
    renewal_number c = current_renewals o /\
    latest_certificate certs (order_id o) = Some (cert_table_row c (order_id o)).
Proof.
  intros [_ Ho Hc _ Hcert] Hin E. rewrite Forall_forall in Ho. rewrite Forall_forall in Hc. rewrite Forall_forall in Hcert. apply list_elem_of_In in Hin.
  destruct (Ho r Hin) as [[t Ht] _ _ Hu], (Hcert r Hin) as (c & Hlat & Hn).
  destruct (Hc c (latest_in _ _ _ Hlat)) as [[nb Hnb] [na Hna]].
  assert (Hmod : as_u32 (sor_current_renewals r) = sor_current_renewals r) by (by apply Z.mod_small).
  assert (Hcid : scr_order_id c = sor_id r) by (by eapply latest_owner).
  unfold read_order in E. rewrite Hlat in E. cbn [read_certificate] in E. unfold parse_time in E.
  rewrite Hnb, Hna, Ht, !rfc3339_round_trip in E. cbn [of_lib obind] in E.
  take_ok E as created E1. take_ok E as cancelled E2. injection E as <-. cbn. split.
  - unfold row_of. cbn. rewrite Hmod. split_and!; try done. by left.
  - eexists. split; [done|]. cbn. rewrite Hn. split_and!; [done|done|]. rewrite Hlat, Hmod. f_equal.
    destruct c. cbn in *. by subst.
Qed.

Lemma read_orders_written certs rows :
  Forall order_written rows -> Forall cert_written certs ->
  exists os, read_orders certs rows = Ok os /\ Forall2 (fun r o => read_order certs r = Ok o) rows os.
Proof.
  intros Hr Hc. induction rows as [|r rows IH]; [by exists []; split|].
  apply Forall_cons in Hr as [Hr Hrs]. destruct (IH Hrs) as (os & Hos & H2).
  destruct (read_order_written certs r Hr Hc) as [o Ho]. exists (o :: os). cbn. rewrite Ho. cbn [obind].
  rewrite Hos. split; [done|by constructor].
Qed.

(** A row's order among those that are read. *)
Lemma find_read certs rows os r :
  Forall2 (fun r o => read_order certs r = Ok o) rows os -> NoDup (map sor_id rows) -> In r rows ->
  exists o, List.find (fun o => String.eqb (order_id o) (sor_id r)) os = Some o /\ read_order certs r = Ok o.
Proof.
  induction 1 as [|r1 o1 rows os H1 H2 IH]; [done|]. cbn. intros [Hn Hnd]%NoDup_cons [->|Hin].
  - rewrite (read_order_id _ _ _ H1), String.eqb_refl. by exists o1.
  - destruct (IH Hnd Hin) as (o & Hf & Ho). exists o. split; [|done].
    rewrite (read_order_id _ _ _ H1). destruct (String.eqb_spec (sor_id r1) (sor_id r)) as [E|]; [|done].
    destruct Hn. rewrite E. apply list_elem_of_In, in_map_iff. by exists r.
Qed.

Lemma read_ids certs rows os :
  Forall2 (fun r o => read_order certs r = Ok o) rows os -> map order_id os = map sor_id rows.
Proof. induction 1 as [|r o rows os H1 _ IH]; cbn; [done|]. by rewrite IH, (read_order_id _ _ _ H1). Qed.

(** What a failing start leaves of the tables, and any. *)
Lemma row_restored_written a b : row_restored a b -> order_written a -> order_written b.
Proof.
  intros [->|[_ ->]] [H1 H2 H3 H4]; [done|]. unfold reactivate_row. destruct (_ && _); by split.
Qed.
Lemma row_restored_certified certs a b : row_restored a b -> row_certified certs a -> row_certified certs b.
Proof.
  intros H (c & Hc & Hn). exists c. rewrite (row_restored_id _ _ H), Hc. split; [done|]. rewrite Hn.
  destruct H as [->|[_ ->]]; [done|]. unfold reactivate_row. by destruct (_ && _).
Qed.
Lemma rows_restored_ids rows rows' : Forall2 row_restored rows rows' -> map sor_id rows' = map sor_id rows.
Proof. induction 1 as [|a b l l' H _ IH]; cbn; [done|]. by rewrite IH, (row_restored_id _ _ H). Qed.
Lemma rows_restored_inv rows rows' certs :
  Forall2 row_restored rows rows' -> tables_inv rows certs -> tables_inv rows' certs.
Proof.
  intros H [H1 H2 H3 H4 H5]. pose proof (rows_restored_ids _ _ H) as Hids. split; try done; try by rewrite Hids.
  - clear -H H2. induction H as [|a b l l' Hab _ IH]; [done|]. apply Forall_cons in H2 as [Ha Hl].
    constructor; [by eapply row_restored_written|by apply IH].
  - clear -H H5. induction H as [|a b l l' Hab _ IH]; [done|]. apply Forall_cons in H5 as [Ha Hl].
    constructor; [by eapply row_restored_certified|by apply IH].
Qed.
(** What is in memory is served by the rows all the same. *)
Lemma row_restored_of o a b : row_restored a b -> row_of o a -> row_of o b.
Proof.
  intros [->|[Hs ->]]; [done|]. intros (H1 & H2 & H3 & H4 & H5 & H6 & H7 & H8 & Hu & Hst & H9).
  unfold reactivate_row. rewrite String.eqb_refl, Hs. cbn [andb String.eqb Ascii.eqb Bool.eqb].
  unfold row_of. cbn. split_and!; try done; [right|apply H9..].
  rewrite Hs in Hst. destruct Hst as [<-|[Hx _]]; [done|discriminate Hx].
Qed.
Lemma rows_restored_backed rows rows' certs o :
  Forall2 row_restored rows rows' -> backed rows certs o -> backed rows' certs o.
Proof.
  intros H [(r & Hin & Hr) Hc]. split; [|done].
  apply list_elem_of_In, list_elem_of_lookup in Hin as [i Hi].
  destruct (Forall2_lookup_l _ _ _ _ _ H Hi) as (r' & Hi' & Hrr). exists r'.
  split; [apply list_elem_of_In, list_elem_of_lookup; by exists i|by eapply row_restored_of].
Qed.

Lemma restart_rows error c s now s' res :
  restart error c s now = (s', res) ->
  Forall2 row_restored (star_orders s) (star_orders s') /\
  star_certificates s' = star_certificates s /\ st_app s' = st_app s.
Proof.
  unfold restart, restore. intros E. destruct (read_orders _ _) as [os|e|].
  - pose proof (restore_rows_rows error (star_orders s) (set_orders (star_new c) ∅) os now) as H.
    destruct (restore_rows _ _ _ _ _) as [[rows m] [u|e|]]; injection E as <- <-; by split_and!.
  - injection E as <- <-. split_and!; [apply rows_restored_refl|done..].
  - injection E as <- <-. split_and!; [apply rows_restored_refl|done..].
Qed.
Lemma restart_Ok error c s now s' :
  restart error c s now = (s', Ok tt) -> restart (fun _ => None) c s now = (s', Ok tt).
Proof.
  unfold restart, restore. destruct (read_orders _ _) as [os|e|]; [|done..].
  destruct (restore_rows (reactivate_rows error) _ _ _ _) as [[rows m] [[]|e|]] eqn:E; [|done..].
  apply restore_rows_Ok in E. by rewrite E.
Qed.

(** A start on good tables succeeds, if the updates do, and what it then has
    in memory is backed by the tables again: every order that has not ended,
    as the memory of the last server had it, if that was backed. *)
Lemma restart_spec c s now :
  tables_inv (star_orders s) (star_certificates s) ->
  exists s' m', restart (fun _ => None) c s now = (s', Ok tt) /\ star_manager s' = Some m' /\ star_inv c s' /\
    forall o, backed (star_orders s) (star_certificates s) o -> now < lifetime_end o ->
      exists o', get_order m' (order_id o) = Some o' /\ same_order o o'.
Proof.
  intros Hinv. pose proof Hinv as [Hnd Hr Hc Hfk Hcert].
  destruct (read_orders_written _ _ Hr Hc) as (os & Hos & H2).
  pose proof (restart_rows (fun _ => None) c s now) as Hrows. unfold restart, restore in *. rewrite Hos in *.
  rewrite restore_rows_eq in *. do 2 eexists. split; [done|]. split; [done|].
  specialize (Hrows _ _ eq_refl) as (Hrows & _ & _). cbn [star_orders star_certificates star_manager] in *.
  set (acc := fold_left _ os _). set (rows' := map _ (star_orders s)) in *.
  assert (Hids : NoDup (map order_id os)) by (by rewrite (read_ids _ _ _ H2)).
  assert (Hacc : forall id o, acc !! id = Some o -> exists r o1, In r (star_orders s) /\ In o1 os /\
    read_order (star_certificates s) r = Ok o1 /\ sor_id r = id /\ order_id o1 = id /\ o = revive now o1).
  { intros id o. unfold acc. cbn [orders set_orders]. rewrite fold_insert_lookup by done.
    destruct (List.find _ os) as [o1|] eqn:Ef; [|by rewrite lookup_empty].
    apply List.find_some in Ef as [Hin Heq%String.eqb_eq]. intros [= <-].
    pose proof Hin as Hin'. apply list_elem_of_In, list_elem_of_lookup in Hin as [i Hi].
    destruct (Forall2_lookup_r _ _ _ _ _ H2 Hi) as (r & Hri & Hro). exists r, o1. split_and!; try done.
    - apply list_elem_of_In, list_elem_of_lookup. by exists i.
    - by rewrite <- (read_order_id _ _ _ Hro). }
  assert (Hfiled : filed (set_orders (set_orders (star_new c) ∅) acc)).
  { intros id o Ho. apply Hacc in Ho as (r & o1 & _ & _ & _ & _ & <- & ->). by rewrite revive_id. }
  split; [split; [by eapply rows_restored_inv|]|].
  - eexists. split; [done|]. split; [by rewrite cleanup_config|].
    intros id o Ho. apply star_cleanup_lookup in Ho as [Ho _]; [|done].
    apply Hacc in Ho as (r & o1 & Hin & Hino & Hro & Hrid & <- & ->). rewrite revive_id. split; [done|].
    destruct (read_order_backed _ _ _ _ Hinv Hin Hro) as [Hrow Hback]. split.
    + exists (restored_row now os r). split; [by apply in_map|].
      rewrite (restored_row_one now os r o1) by done. unfold revive. destruct (ends_early now o1) eqn:Hend; [|done].
      destruct Hrow as (G1 & G2 & G3 & G4 & G5 & G6 & G7 & G8 & Gu & Gst & G9).
      assert (Hcomp : sor_status r = "completed").
      { unfold ends_early in Hend. rewrite !andb_true_iff, bool_decide_eq_true in Hend. destruct Hend as [[Hst _] _].
        rewrite Hst in Gst. destruct Gst as [Gst|[Gst _]].
        - unfold stored_status in Gst. destruct (String.eqb_spec (sor_status r) "active"); [done|].
          destruct (String.eqb_spec (sor_status r) "completed"); [done|]. by destruct (String.eqb _ _).
        - assert (Hs : StarManager.status o1 = stored_status (sor_status r)); [|congruence].
          clear -Hro. unfold read_order in Hro. take_ok Hro as a E1. take_ok Hro as b E2. take_ok Hro as d E3.
          take_ok Hro as e E4. by injection Hro as <-. }
      unfold reactivate_row. rewrite String.eqb_refl, Hcomp. unfold row_of. cbn. split_and!; try done; [by left|apply G9..].
    + unfold revive. by destruct (ends_early now o1).
  - intros o [(r & Hin & Hrow) Hback] Hlive.
    destruct (find_read _ _ _ _ H2 Hnd Hin) as (o1 & Hf & Hread).
    pose proof (read_order_same _ _ _ _ Hrow Hread Hback) as Hsame.
    exists (revive now o1). split; [|by apply same_order_revive]. apply star_cleanup_lookup; [done|].
    split.
    + unfold acc. cbn [orders set_orders]. rewrite fold_insert_lookup by done.
      destruct Hrow as [Hrid _]. rewrite Hrid in Hf. by rewrite Hf.
    + rewrite revive_lifetime. destruct Hsame as [-> _]. exact Hlive.
Qed.

(** ** Every operation keeps the invariant *)

Lemma backed_new_row orders certs o row x :
  backed orders certs o -> scr_order_id x <> order_id o -> backed (orders ++ row) (certs ++ [x]) o.
Proof.
  intros [(r & Hin & Hr) (c & Hc & Hid & Hn & Hl)] Hne. split.
  - exists r. split; [apply in_app_iff; by left|done].
  - exists c. split_and!; try done. rewrite latest_app. by destruct (String.eqb_spec (scr_order_id x) (order_id o)).
Qed.

Lemma placed_backed app c' c o s s' identity l headers body resp :
  0 <= min_renewal_interval_secs c -> max_renewal_interval_secs c < 2 ^ 64 ->
  star_inv c s -> readable (so_db_now o) ->
  order_placed b64_encode b64_decode json_object app c' o s s' identity l headers body resp ->
  star_inv c s'.
Proof.
  intros Hmin Hmax ([Hnd Hr Hc Hfk Hcert] & m & Hm & Hcfg & Hb) Hdb. unfold order_placed.
  destruct (requested_order c' headers) as [interval days].
  intros (m0 & a & csr_der & p & r & text & estimate & Hm0 & _ & _ & _ & Hcom & Hm' & Hiv & _ & _ & Hest & _).
  rewrite Hm in Hm0. injection Hm0 as <-. rewrite Hcfg in Hiv.
  destruct Hcom as (_ & Horders & Hfresh & Hcerts & _). cbn [set_app star_orders star_certificates] in *.
  set (order := placed_order o identity (label_ca l) csr_der text estimate interval days r) in *.
  set (row := order_row o order interval identity (label_ca l) csr_der) in *.
  assert (Hnew : ~ In (sor_id row) (map sor_id (star_orders s))).
  { intros (q & Hq & Hin)%in_map_iff. rewrite Forall_forall in Hfresh.
    by apply (Hfresh q); [apply list_elem_of_In|]. }
  assert (Hnone : latest_certificate (star_certificates s) (so_uuid o) = None).
  { apply latest_none, Forall_forall. intros x Hx Heq. rewrite Forall_forall in Hfk. apply Hnew.
    specialize (Hfk x Hx). cbn in Hfk. change (sor_id row) with (so_uuid o). by rewrite <- Heq. }
  split; [|eexists; split; [exact Hm'|]; split; [done|]]; rewrite Horders, Hcerts; [split|].
  - rewrite map_app. apply NoDup_app. split; [done|]. split; [|apply NoDup_singleton].
    intros x Hx ->%list_elem_of_singleton. by apply Hnew, list_elem_of_In.
  - apply Forall_app. split; [done|]. constructor; [|done]. split; [apply rfc3339_written|done|done|].
    split; cbn; lia.
  - apply Forall_app. split; [done|]. constructor; [|done]. by split; apply rfc3339_written.
  - apply Forall_app. split.
    + eapply Forall_impl; [exact Hfk|]. cbn. intros x Hx. rewrite map_app. apply in_app_iff. by left.
    + constructor; [|done]. rewrite map_app. apply in_app_iff. right. by left.
  - apply Forall_app. split.
    + apply Forall_forall. intros q Hq. rewrite Forall_forall in Hcert. destruct (Hcert q Hq) as (x & Hx & Hn).
      exists x. split; [|done]. rewrite latest_app. cbn.
      destruct (String.eqb_spec (so_uuid o) (sor_id q)) as [E|]; [|done].
      destruct Hnew. change (sor_id row) with (so_uuid o). rewrite E. by apply in_map, list_elem_of_In.
    + constructor; [|done]. eexists. split; [rewrite latest_app; cbn; by rewrite String.eqb_refl, Hnone|done].
  - intros id o2. cbn [orders set_orders]. rewrite lookup_insert_Some. intros [[<- <-]|[Hne Ho2]].
    + split; [done|]. split.
      * exists row. split; [apply in_app_iff; right; by left|]. unfold row_of, row, order_row, order, placed_order.
        cbn. assert (as_u64 (as_i64 interval) = interval) as ->
          by (unfold as_u64, as_i64; Z.div_mod_to_equations; lia).
        split_and!; try done; [by apply Z.mod_small|]. destruct (_ <=? _); [right; by split|by left].
      * exists (first_certificate r (so_uuid o)). split_and!; try done. rewrite latest_app. cbn.
        by rewrite String.eqb_refl, Hnone.
    + destruct (Hb _ _ Ho2) as [Hid2 Hback]. split; [done|]. apply backed_new_row; [done|].
      cbn. congruence.
Qed.

(** The updates of rows keep their ids. *)
Lemma map_ids (f : StarOrderRow -> StarOrderRow) rows :
  (forall r, sor_id (f r) = sor_id r) -> map sor_id (map f rows) = map sor_id rows.
Proof. intros Hf. rewrite map_map. by apply map_ext. Qed.
Lemma cancel_row_id id t r : sor_id (cancel_row id t r) = sor_id r.
Proof. unfold cancel_row. by destruct (String.eqb _ _). Qed.

Lemma row_of_other (f : StarOrderRow -> StarOrderRow) id orders o :
  (forall r, sor_id r <> id -> f r = r) -> order_id o <> id ->
  (exists r, In r orders /\ row_of o r) -> exists r, In r (map f orders) /\ row_of o r.
Proof.
  intros Hf Hne (r & Hin & Hr). exists r. split; [|done]. apply in_map_iff. exists r. split; [|done].
  apply Hf. destruct Hr as [-> _]. done.
Qed.

Lemma cancelled_backed c s s' identity id db_now now :
  star_inv c s -> order_cancelled s s' identity id db_now now -> star_inv c s'.
Proof.
  intros ([Hnd Hr Hc Hfk Hcert] & m & Hm & Hcfg & Hb) (m0 & o & Hm0 & Ho & _ & Hm' & Horders & Hcerts & _).
  rewrite Hm in Hm0. injection Hm0 as <-.
  set (f := cancel_row id (to_rfc3339 db_now)).
  assert (Hids : map sor_id (map f (star_orders s)) = map sor_id (star_orders s))
    by (apply map_ids, cancel_row_id).
  split; [|eexists; split; [exact Hm'|]; split; [done|]]; rewrite Horders, Hcerts; fold f;
    [split; rewrite ?Hids; try done|].
  - apply Forall_fmap. eapply Forall_impl; [exact Hr|]. intros r [H1 H2 H3 H4]. unfold compose, f, cancel_row.
    destruct (String.eqb _ _); [|done]. split; try done. cbn. intros t [= <-]. apply rfc3339_readable.
  - apply Forall_fmap. eapply Forall_impl; [exact Hcert|]. intros r (x & Hx & Hn). exists x. unfold f.
    rewrite cancel_row_id, Hx. split; [done|]. rewrite Hn. unfold cancel_row. by destruct (String.eqb _ _).
  - intros i o2. cbn [orders set_orders]. rewrite lookup_insert_Some. intros [[<- <-]|[Hne Ho2]].
    + destruct (Hb _ _ Ho) as [Hid [(r & Hin & Hrow) Hlatest]].
      assert (Hsame : forall A (g : StarOrder -> A), (forall x st t, g (with_cancelled_at (with_status x st) t) = g x) ->
        g (cancelled_order o now) = g o).
      { intros A g Hg. unfold cancelled_order. case_bool_decide; [done|]. apply Hg. }
      split; [by rewrite (Hsame _ order_id)|]. split.
      * exists (f r). split; [by apply in_map|]. pose proof Hrow as (H1 & H2 & H3 & H4 & H5 & H6 & H7 & H8 & Hu & _ & H9 & H10 & H11).
        unfold row_of, f, cancel_row. rewrite H1, Hid, String.eqb_refl. cbn.
        rewrite (Hsame _ order_id), (Hsame _ StarManager.subject_dn), (Hsame _ key_type), (Hsame _ order_profile),
          (Hsame _ renewal_interval), (Hsame _ lifetime_end), (Hsame _ max_renewals), (Hsame _ current_renewals),
          (Hsame _ requestor_dn), (Hsame _ order_ca_id), (Hsame _ order_csr_der), cancelled_status by done.
        split_and!; try done. by left.
      * rewrite (Hsame _ current_certificate), (Hsame _ order_id), (Hsame _ current_renewals) by done. exact Hlatest.
    + destruct (Hb _ _ Ho2) as [Hid2 [Hrow Hlatest]]. split; [done|]. split; [|done].
      apply (row_of_other f id); [|congruence|done]. intros r Hr2. unfold f, cancel_row.
      by destruct (String.eqb_spec (sor_id r) id).
Qed.

(** ** A renewal *)

Lemma renewal_tables_spec f s o cert issuer profile s' :
  renewal_tables digest json_object f s o cert issuer profile = (s', Ok tt) ->
  star_manager s' = star_manager s /\
  star_orders s' = map (fun r => if awaits o r then advance_row o cert r else r) (star_orders s) /\
  star_certificates s' = star_certificates s ++ [cert_table_row cert (order_id o)] /\
  exists r, In r (star_orders s) /\ awaits o r = true.
Proof.
  unfold renewal_tables. cbn [update_order]. destruct (rf_begin f); [done|]. destruct (rf_update f); [done|].
  cbn [obind]. destruct (Z.eqb_spec (Z.of_nat (length (List.filter (awaits o) (star_orders s)))) 1) as [Hone|];
    [|done]. cbn [obind]. destruct (rf_cert_insert f); [done|]. cbn [obind].
  destruct (insert_certificate _ _ _) as [tx []]; [|done].
  destruct (record_issuance_in_transaction _ _ _ _ _ _ _ _) as [[txdb au] [[]|e|]]; [|done..].
  destruct (commit_issuance _ _ _ _) as [[db au2] [[]|e|]]; [|done..].
  intros [= <-]. split_and!; try done.
  destruct (List.filter (awaits o) (star_orders s)) as [|r rest] eqn:Ef; [done|].
  exists r. apply filter_In. rewrite Ef. by left.
Qed.

Lemma renewal_tables_failed f s o cert issuer profile s' r :
  renewal_tables digest json_object f s o cert issuer profile = (s', r) -> r <> Ok tt ->
  star_manager s' = star_manager s /\ star_orders s' = star_orders s /\ star_certificates s' = star_certificates s.
Proof.
  unfold renewal_tables. destruct (update_order _ _ _) as [rows n].
  destruct (obind _ _) as [tx|e|]; [|by intros [= <- <-]..].
  destruct (record_issuance_in_transaction _ _ _ _ _ _ _ _) as [[txdb au] [[]|e|]]; [|by intros [= <- <-]..].
  by destruct (commit_issuance _ _ _ _) as [[db au2] [[]|e|]]; intros [= <- <-].
Qed.

Lemma NoDup_map_eq {A B} (f : A -> B) l x y :
  NoDup (map f l) -> In x l -> In y l -> f x = f y -> x = y.
Proof.
  induction l as [|z l IH]; [done|]. cbn. intros [Hn Hnd]%NoDup_cons Hx Hy E.
  assert (Hz : forall w, In w l -> f z <> f w).
  { intros w Hw Ez. apply Hn. rewrite Ez. by apply list_elem_of_In, in_map. }
  destruct Hx as [->|Hx], Hy as [->|Hy]; [done| | |by apply IH].
  - by destruct (Hz y Hy).
  - by destruct (Hz x Hx).
Qed.

Lemma awaits_active o r : awaits o r = true ->
  sor_id r = order_id o /\ sor_current_renewals r = current_renewals o /\ sor_status r = "active".
Proof.
  unfold awaits. rewrite !andb_true_iff. intros [[H1%String.eqb_eq H2%Z.eqb_eq] H3%String.eqb_eq]. done.
Qed.

Abbreviation renewed o cert :=
  (if covers_lifetime cert o then with_status (with_certificate o cert) Completed else with_certificate o cert).

Lemma renewed_fields o cert :
  order_id (renewed o cert) = order_id o /\ current_certificate (renewed o cert) = Some cert /\
  current_renewals (renewed o cert) = as_u32 (current_renewals o + 1) /\
  StarManager.status (renewed o cert) = if covers_lifetime cert o then Completed else StarManager.status o.
Proof. by destruct (covers_lifetime cert o). Qed.

Lemma renewed_row o cert r :
  row_of o r -> StarManager.status o = Active -> renewal_number cert = current_renewals o + 1 ->
  current_renewals o + 1 < 2 ^ 32 -> row_of (renewed o cert) (advance_row o cert r).
Proof.
  intros (H1 & H2 & H3 & H4 & H5 & H6 & H7 & H8 & Hu & _ & H9 & H10 & H11) Ha Hn Hlt. unfold u32 in Hu.
  assert (Hmod : as_u32 (current_renewals o + 1) = current_renewals o + 1) by (apply Z.mod_small; lia).
  unfold row_of, advance_row. destruct (covers_lifetime cert o); cbn; rewrite Hmod, Hn;
    (split_and!; try done; [unfold u32; lia|by left]).
Qed.

Lemma same_inv c s s' :
  star_inv c s -> star_manager s' = star_manager s -> star_orders s' = star_orders s ->
  star_certificates s' = star_certificates s -> star_inv c s'.
Proof. intros (Ht & m & Hm & H) E1 E2 E3. split; [by rewrite E2, E3|]. exists m. rewrite E1, E2, E3. by split. Qed.

Lemma renewed_backed c f s id o cert issuer profile m :
  star_inv c s -> star_manager s = Some m -> get_order m id = Some o -> StarManager.status o = Active ->
  renewal_number cert = current_renewals o + 1 -> current_renewals o + 1 < 2 ^ 32 -> star_order_id cert = id ->
  star_inv c (renew_order f s id o cert issuer profile).
Proof.
  intros Hinv Hm Ho Ha Hn Hlt Hcid. unfold StarRoutes.renew_order.
  destruct (renewal_tables _ _ _ _ _ _ _ _) as [s1 r1] eqn:Et.
  assert (Hcase : r1 = Ok tt \/ r1 <> Ok tt) by (destruct r1 as [[]| |]; [by left|by right..]).
  destruct Hcase as [->|Hfail].
  2: { destruct (renewal_tables_failed _ _ _ _ _ _ _ _ Et Hfail) as (Hm1 & Ho1 & Hc1).
       assert (Hinv1 : star_inv c s1) by (by eapply same_inv). by destruct r1 as [[]| |]. }
  apply renewal_tables_spec in Et as (Hm1 & Ho1 & Hc1 & (r & Hin & Haw)). rewrite Hm1, Hm.
  destruct Hinv as ([Hnd Hr Hc Hfk Hcert] & m0 & Hm0 & Hcfg & Hb). rewrite Hm in Hm0. injection Hm0 as <-.
  destruct (Hb _ _ Ho) as [Hid [(q & Hq & Hrow) (c0 & Hc0 & Hc0id & Hc0n & Hlat)]].
  set (g := fun r => if awaits o r then advance_row o cert r else r) in *.
  assert (Hids : map sor_id (map g (star_orders s)) = map sor_id (star_orders s)).
  { apply map_ids. intros r0. unfold g. by destruct (awaits o r0). }
  assert (Hstore : (store_renewed_certificate m id cert).1 =
    set_orders m (<[id := if covers_lifetime cert o then with_status (with_certificate o cert) Completed
                          else with_certificate o cert]> (orders m))).
  { unfold store_renewed_certificate. unfold get_order in Ho. rewrite Ho, Ha. done. }
  destruct (awaits_active _ _ Haw) as (Hrid & Hrn & Hrs).
  assert (Hunique : forall q, In q (star_orders s) -> sor_id q = order_id o -> q = r).
  { intros x Hx Hxid. eapply NoDup_map_eq; [exact Hnd|done|done|congruence]. }
  rewrite Hstore. split; [|eexists; split; [done|]; split; [done|]]; cbn [set_manager star_orders star_certificates];
    rewrite Ho1, Hc1; [split; rewrite ?Hids; try done|].
  - apply Forall_fmap. eapply Forall_impl; [exact Hr|]. intros r0 H0. unfold compose, g.
    destruct (awaits o r0); [|done]. destruct H0 as [G1 G2 G3 G4]. split; try done. cbn. rewrite Hn.
    unfold u32 in *. destruct Hrow as (_ & _ & _ & _ & _ & _ & _ & _ & Hu & _). unfold u32 in Hu. lia.
  - apply Forall_app. split; [done|]. constructor; [|done]. by split; apply rfc3339_written.
  - apply Forall_app. split; [done|]. constructor; [|done]. cbn. destruct Hrow as [<- _].
    by apply in_map.
  - apply Forall_fmap, Forall_forall. intros r0 Hr0. rewrite Forall_forall in Hcert.
    destruct (Hcert r0 Hr0) as (x & Hx & Hxn). unfold compose, row_certified, g. rewrite latest_app. cbn [scr_order_id cert_table_row].
    destruct (String.eqb_spec (order_id o) (sor_id r0)) as [E|Hne].
    + assert (r0 = r) as -> by (apply Hunique; [by apply list_elem_of_In|done]). rewrite Haw.
      cbn [advance_row sor_id sor_current_renewals]. rewrite Hrid, String.eqb_refl, Hlat. cbn [later scr_renewal cert_table_row].
      rewrite Hc0n, Hn. destruct (Z.ltb_spec (current_renewals o) (current_renewals o + 1)); [|lia].
      eexists. split; [done|]. cbn. lia.
    + assert (awaits o r0 = false) as ->.
      { unfold awaits. by destruct (String.eqb_spec (sor_id r0) (order_id o)). }
      exists x. split; [|done]. by destruct (String.eqb_spec (order_id o) (sor_id r0)).
  - intros i o2. cbn [orders set_orders]. rewrite lookup_insert_Some. intros [[<- <-]|[Hne Ho2]].
    + assert (q = r) as -> by (destruct Hrow as [Hqid _]; apply Hunique; [done|congruence]).
      destruct (renewed_fields o cert) as (G1 & G2 & G3 & G4). rewrite G1. split; [done|]. split.
      * exists (g r). split; [by apply in_map|]. unfold g. rewrite Haw. by apply renewed_row.
      * exists cert. rewrite G1, G2, G3. split; [done|]. split; [congruence|].
        assert (as_u32 (current_renewals o + 1) = current_renewals o + 1) as ->.
        { destruct Hrow as (_ & _ & _ & _ & _ & _ & _ & _ & Hu & _). unfold u32 in Hu. apply Z.mod_small. lia. }
        split; [done|]. rewrite latest_app. cbn. rewrite String.eqb_refl, Hlat. cbn. rewrite Hc0n, Hn.
        by destruct (Z.ltb_spec (current_renewals o) (current_renewals o + 1)); [|lia].
    + destruct (Hb _ _ Ho2) as [Hid2 [Hrow2 (c2 & H1 & H2 & H3 & H4)]]. split; [done|]. split.
      * apply (row_of_other g id); [|congruence|done]. intros r0 Hr0. unfold g, awaits. rewrite Hid.
        by destruct (String.eqb_spec (sor_id r0) id).
      * exists c2. split_and!; try done. rewrite latest_app. cbn. rewrite Hid.
        destruct (String.eqb_spec id (order_id o2)); [congruence|done].
Qed.

(** ** Runs of a server *)

Inductive star_call : Type :=
  | CallPost (app : AppConfig) (o : StarOutside) (auth : AuthResult) (l : LabelExtractor)
      (headers : gmap string bytes) (body : bytes)
  | CallDelete (auth : AuthResult) (id : string) (update : option string) (db_now now : Z) (event : AuditCall)
  | CallRenew (f : RenewalFaults) (id : string) (o : StarOrder) (cert : StarCertificate) (issuer profile : string)
  | CallCleanup (now : Z).

Definition star_do (star : option StarConfig) (s : StarState) (k : star_call) : StarState :=
  match k with
  | CallPost app o auth l headers body => (post_star_order app star o s auth l headers body).1
  | CallDelete auth id update db_now now event => (delete_star_order star s auth id update db_now now event).1
  | CallRenew f id o cert issuer profile => renew_order f s id o cert issuer profile
  | CallCleanup now =>
      match star_manager s with
      | Some m => set_manager s (cleanup_expired m now).1
      | None => s
      end
  end.

(** A new order's id is not in use, the database's clock can be read, and the
    call does not panic; a renewal is of an order in memory that is active,
    with its next number. *)
Definition call_ok (star : option StarConfig) (s : StarState) (k : star_call) : Prop :=
  match k with
  | CallPost app o auth l headers body =>
      (forall m, star_manager s = Some m -> get_order m (so_uuid o) = None) /\ readable (so_db_now o) /\
      (post_star_order app star o s auth l headers body).2 <> Panic
  | CallRenew f id o cert issuer profile =>
      exists m, star_manager s = Some m /\ get_order m id = Some o /\ StarManager.status o = Active /\
        renewal_number cert = current_renewals o + 1 /\ current_renewals o + 1 < 2 ^ 32 /\ star_order_id cert = id
  | _ => True
  end.

(** From empty tables, call by call; the server may be started anew on its
    tables, and a start that fails leaves what it wrote of them. *)
Inductive star_reachable (star : option StarConfig) (c : StarConfig) : StarState -> Prop :=
  | reach_start a : star_reachable star c (MkStarState a (Some (star_new c)) [] [])
  | reach_call s k : star_reachable star c s -> call_ok star s k -> star_reachable star c (star_do star s k)
  | reach_restart error s now s' : star_reachable star c s -> restart error c s now = (s', Ok tt) ->
      star_reachable star c s'
  | reach_failed_start error s now s' e : star_reachable star c s -> restart error c s now = (s', Err e) ->
      star_reachable star c (MkStarState (st_app s) (star_manager s) (star_orders s') (star_certificates s')).

Lemma cleanup_inv c s m now :
  star_inv c s -> star_manager s = Some m -> star_inv c (set_manager s (cleanup_expired m now).1).
Proof.
  intros (Ht & m0 & Hm0 & Hcfg & Hb) Hm. rewrite Hm in Hm0. injection Hm0 as <-.
  assert (Hf : filed m) by (intros id o Ho; by apply Hb in Ho as [? _]).
  split; [done|]. eexists. split; [done|]. rewrite cleanup_config. split; [done|].
  intros id o Ho. apply star_cleanup_lookup in Ho as [Ho _]; [|done]. by apply Hb.
Qed.

Lemma star_do_inv star c s k :
  0 <= min_renewal_interval_secs c -> max_renewal_interval_secs c < 2 ^ 64 ->
  star_inv c s -> call_ok star s k -> star_inv c (star_do star s k).
Proof.
  intros Hmin Hmax Hinv. destruct k as [app o auth l headers body|auth id upd db_now now ev|f id o cert issuer profile|now];
    cbn [call_ok star_do].
  - intros (Hfresh & Hdb & Hnp). destruct (post_star_order _ _ _ _ _ _ _ _) as [s' resp] eqn:E. cbn [fst snd] in *.
    apply post_star_order_spec in E as [[(_ & _ & Ho & Hc) [[_ Hm]|Hp]]|(c' & _ & _ & Hp)]; [|done| |done].
    + by eapply same_inv.
    + by eapply placed_backed.
  - intros _. destruct (delete_star_order _ _ _ _ _ _ _ _) as [s' resp] eqn:E. cbn [fst].
    apply delete_star_order_spec in E as [[-> _]|[Hc _]]; [done|by eapply cancelled_backed].
  - intros (m & Hm & Ho & Ha & Hn & Hlt & Hid). by eapply renewed_backed.
  - intros _. destruct (star_manager s) as [m|] eqn:Hm; [|done]. by apply cleanup_inv.
Qed.

Lemma reachable_inv star c s :
  0 <= min_renewal_interval_secs c -> max_renewal_interval_secs c < 2 ^ 64 ->
  star_reachable star c s -> star_inv c s.
Proof.
  intros Hmin Hmax. induction 1 as [a|s k _ IH Hk|error s now s' _ IH E|error s now s' e _ IH E].
  - split; [split; by try apply NoDup_nil_2|]. by eexists.
  - by apply star_do_inv.
  - apply restart_Ok in E. destruct (restart_spec c s now) as (s1 & m & E1 & _ & H & _); [apply IH|].
    rewrite E in E1. by injection E1 as ->.
  - apply restart_rows in E as (Hr & Hc & _). destruct IH as (Ht & m & Hm & Hcfg & Hb). split; cbn.
    + rewrite Hc. by eapply rows_restored_inv.
    + exists m. rewrite Hc. split_and!; try done. intros id o Ho. destruct (Hb id o Ho) as [Hid Hback].
      split; [done|]. by eapply rows_restored_backed.
Qed.

(** C22: a restart is not noticed.  After any orders, cancellations, renewals
    and clean-ups, answered or failed, and any starts before, a server that
    starts on the tables restores them without error, and has every order
    that has not ended: for the same requestor, on the same terms, with the
    same number of renewals, and at every time serving the same certificate
    or the same refusal.  The start writes to the tables only that an order
    that was taken for complete is active, and what it leaves is again a state
    from which all this holds. *)
Theorem star_restart star c s m now :
  0 <= min_renewal_interval_secs c -> max_renewal_interval_secs c < 2 ^ 64 ->
  star_reachable star c s -> star_manager s = Some m ->
  exists s' m', restart (fun _ => None) c s now = (s', Ok tt) /\ star_manager s' = Some m' /\
    star_reachable star c s' /\
    st_app s' = st_app s /\ star_certificates s' = star_certificates s /\
    Forall2 row_restored (star_orders s) (star_orders s') /\
    forall id o, get_order m id = Some o -> now < lifetime_end o ->
      exists o', get_order m' id = Some o' /\ same_order o o' /\
        forall t, get_current_certificate m' id t = get_current_certificate m id t.
Proof.
  intros Hmin Hmax Hreach Hm. pose proof (reachable_inv _ _ _ Hmin Hmax Hreach) as (Ht & m0 & Hm0 & _ & Hb).
  rewrite Hm in Hm0. injection Hm0 as <-.
  destruct (restart_spec c s now Ht) as (s' & m' & Hr & Hm' & _ & Hall). exists s', m'.
  destruct (restart_rows _ _ _ _ _ _ Hr) as (Hrows & Hc & Ha).
  split_and!; try done; [by eapply reach_restart|].
  intros id o Ho Hlt. destruct (Hb id o Ho) as [Hid Hback]. destruct (Hall o Hback Hlt) as (o' & Ho' & Hsame).
  rewrite Hid in Ho'. exists o'. split_and!; try done. intros t. by eapply same_order_served.
Qed.
End Restart.

(** ** Examples *)

#[export] Instance example_time_laws : TimeTextLaws.
Proof.
  assert (Hd : forall p, of_digits (digits_of p) = p).
  { induction p as [p IH|p IH|]; cbn; [by rewrite IH..|done]. }
  split. intros [|p|p]; cbn; [done|by rewrite Hd..].
Qed.

Definition star_cert (n : Z) : StarCertificate :=
  MkStarCert [48; 65; 66] "9" example_now (example_now + DAY) n "7f".
Definition placed_manager : StarManager := default (star_new star_example) (star_manager star_placed).
Definition placed_memory : StarOrder :=
  match get_order placed_manager "7f" with
  | Some o => o
  | None => MkOrder "" "" "" "" 0 0 0 0 Active None "" [] None 0 None
  end.

(** Order, renewal and restart. *)
Definition star_renewed : StarState :=
  star_do (fun _ => EmptyString) (fun b => b) inl example_digest example_json (Some star_example) star_placed
    (CallRenew (MkRenewalFaults None None None (MkInsertFaults None "duplicate") example_call) "7f" placed_memory
       (star_cert 2) "CN=B" "default").

Lemma example_reachable :
  star_reachable (fun _ => EmptyString) (fun b => b) inl example_digest example_json (Some star_example)
    star_example star_renewed.
Proof.
  apply reach_call.
  - change star_placed with (star_do (fun _ => EmptyString) (fun b => b) inl example_digest example_json
      (Some star_example) star_start
      (CallPost EnrollSpec.example_app star_outside example_caller example_label two_days example_body)).
    apply reach_call; [apply reach_start|]. split; [|split].
    + intros m [= <-]. reflexivity.
    + by exists 0.
    + assert (E : match (example_post_star star_outside star_start two_days).2 with Panic => false | _ => true end = true)
        by (vm_compute; reflexivity).
      intros Hp. change ((example_post_star star_outside star_start two_days).2 = Panic) in Hp.
      rewrite Hp in E. discriminate E.
  - exists placed_manager. split_and!; vm_compute; reflexivity.
Qed.

Lemma star_restart_witness : exists m s' m' o',
  star_manager star_renewed = Some m /\
  restart (fun _ => None) star_example star_renewed (example_now + DAY) = (s', Ok tt) /\ star_manager s' = Some m' /\
  get_order m' "7f" = Some o' /\ option_map StarManager.serial_number (current_certificate o') = Some "9".
Proof.
  destruct (star_manager star_renewed) as [m|] eqn:Em; [|vm_compute in Em; discriminate Em].
  assert (Eo : option_map (fun o => (lifetime_end o, option_map StarManager.serial_number (current_certificate o)))
      (get_order m "7f") = Some (example_now + 2 * DAY, Some "9")).
  { assert (E : match star_manager star_renewed with
                | Some m => option_map (fun o => (lifetime_end o, option_map StarManager.serial_number (current_certificate o)))
                    (get_order m "7f")
                | None => None
                end = Some (example_now + 2 * DAY, Some "9")) by (vm_compute; reflexivity).
    rewrite Em in E. exact E. }
  destruct (get_order m "7f") as [o|] eqn:Eg; [|discriminate Eo].
  assert (Hlife : lifetime_end o = example_now + 2 * DAY) by (injection Eo as H _; exact H).
  assert (Hcert : option_map StarManager.serial_number (current_certificate o) = Some "9")
    by (injection Eo as _ H; exact H). clear Eo.
  destruct (star_restart (fun _ => EmptyString) (fun b => b) inl example_digest example_json (Some star_example)
    star_example star_renewed m (example_now + DAY)) as (s' & m' & Hr & Hm' & _ & _ & _ & _ & Hall);
    [vm_compute; discriminate|vm_compute; reflexivity|exact example_reachable|exact Em|].
  destruct (Hall "7f" o Eg) as (o' & Ho' & [Hsame _] & _); [rewrite Hlife; apply Z.add_lt_mono_l; reflexivity|].
  exists m, s', m', o'. split; [reflexivity|]. split; [exact Hr|]. split; [exact Hm'|]. split; [exact Ho'|].
  rewrite Hsame. exact Hcert.
Defined.
