(* ===== verification/CmsAuth.v ===== *)
(** * Authentication by CMS messages

    [src/auth/cms_auth.rs] (RFC 8295): a SignedData is taken apart field by
    field, its signer is looked up, checked against the trust anchors, and
    its signature verified over the content or over the signed attributes;
    answers are encrypted to the signer.  ASN.1 structures, hash functions
    and encryption are [CmsLib]; the text of a decoder's error stands for
    either of its renderings. *)
From S2P Require Import Prelude Words Text Errors X509 Der DerReader Transfer FailureTracker BasicOtp Ocsp Revocation.
Open Scope Z_scope.

Record CmsVerificationResult : Type := MkCms {
  signer_cert_der : bytes;
  signer_subject_dn : string;
  payload : bytes;
  signature_algorithm : string
}.

Inductive SupportedContentEncryption : Type := Aes256Gcm | Aes128Gcm | Aes256Cbc | Aes128Cbc.
#[export] Instance SupportedContentEncryption_eq_dec : EqDecision SupportedContentEncryption.
Proof. solve_decision. Defined.

Definition validate_content_encryption (alg : string) : outcome SupportedContentEncryption KipukaError :=
  let a := to_ascii_lowercase alg in
  let named s := String.eqb a s in
  if named "aes-256-gcm" || named "aes256gcm" || named "2.16.840.1.101.3.4.1.46" then Ok Aes256Gcm
  else if named "aes-128-gcm" || named "aes128gcm" || named "2.16.840.1.101.3.4.1.6" then Ok Aes128Gcm
  else if named "aes-256-cbc" || named "aes256cbc" || named "2.16.840.1.101.3.4.1.42" then Ok Aes256Cbc
  else if named "aes-128-cbc" || named "aes128cbc" || named "2.16.840.1.101.3.4.1.2" then Ok Aes128Cbc
  else Err (EBadRequest ("unsupported content encryption algorithm: " +:+ alg)).

(** The fields of a SignerInfo, most of them undecoded. *)
Record SignerInfo : Type := MkSignerInfo {
  sid : bytes;
  si_digest_algorithm : bytes;
  signed_attrs : option bytes;
  si_signature_algorithm : bytes;
  si_signature : bytes
}.

Class CmsLib `{CrlLib} `{Decoder} : Type := {
  signer_info_from_der : bytes -> SignerInfo + string;
  (** IssuerAndSerialNumber *)
  issuer_and_serial : bytes -> (bytes * Serial) + string;
  decode_octet_string : Dec -> (bytes * Dec) + string;
  spki_verify_signature : bytes -> bytes -> bytes -> bytes -> unit + string;
  (** the algorithm of a key type and a hash *)
  signing_algorithm_of : oid -> string -> option bytes;
  sha256 : bytes -> bytes;
  sha384 : bytes -> bytes;
  sha512 : bytes -> bytes;
  oid_debug : oid -> string;
  (** the random inputs of encryption *)
  EncCoins : Type;
  (** OpenSSL: cipher, content, recipient *)
  cms_encrypt : EncCoins -> string -> bytes -> bytes -> bytes + string;
  create_enveloped_data : EncCoins -> oid -> bytes -> bytes -> bytes + string;
  ID_AES256_CBC : oid;
  ID_AES128_CBC : oid;
  ID_SHA256 : oid;
  ID_SHA384 : oid;
  ID_SHA512 : oid;
  ID_SHA1 : oid;
  PKCS9_MESSAGE_DIGEST : oid
}.

Section CmsAuth.
Context `{HL : X509Lib} `{HC : CmsOids} `{HE : Encoder} `{HD : Decoder} `{HO : !OcspLib} `{HR : !CrlLib}
  `{HM : !CmsLib}.

Definition SEQ : Tag := universal_constructed 16.
Definition SET : Tag := universal_constructed 17.
Definition CTX0 : Tag := context_specific_constructed 0.

(** A library call whose error is the client's. *)
Definition client {T} (context : string) (r : T + string) : outcome T KipukaError :=
  of_lib (fun e => EBadRequest (context +:+ e)) r.

(** ** Taking the message apart *)

(** Tag, definite length and content of one value. *)
Definition value_of (tag_err length_err indefinite_err value_err : string) (b : bytes)
  : outcome bytes KipukaError :=
  let? (_, d) := client tag_err (read_tag (decoder_new b)) in
  let? (n, d) := client length_err (read_length d) in
  let? n := ok_or n (EBadRequest indefinite_err) in
  let? (v, _) := client value_err (read_bytes n d) in
  Ok v.

Definition econtent (encap : Dec) : outcome bytes KipukaError :=
  if dec_is_empty encap then
    Err (EBadRequest "CMS SignedData has no encapsulated content (eContent is absent)")
  else
    let? (wrapper, _) := client "CMS eContent [0] wrapper parse error: " (enter_constructed CTX0 encap) in
    let? (octet, _) := client "CMS eContent OCTET STRING parse error: " (decode_raw wrapper) in
    let? v := value_of "CMS eContent tag error: " "CMS eContent length error: "
      "CMS eContent indefinite length: Indefinite" "CMS eContent value error: " octet in
    if bool_decide (v = []) then Err (EBadRequest "CMS SignedData eContent is empty") else Ok v.

(** The certificates of a CertificateSet; other alternatives are skipped. *)
Fixpoint certificate_set (fuel : nat) (d : Dec) (acc : list bytes) : outcome (list bytes) KipukaError :=
  if dec_is_empty d then Ok acc
  else
    match fuel with
    | O => Panic
    | S fuel =>
        let? t := client "CMS cert entry peek error: " (peek_tag d) in
        if bool_decide (tag_class t = Universal) && (tag_number t =? 16) then
          let? (raw, d) := client "CMS cert parse error: " (decode_raw d) in
          certificate_set fuel d (acc ++ [raw])
        else
          let? (_, d) := client "CMS cert alt skip error: " (decode_raw d) in
          certificate_set fuel d acc
    end.

(** The fields that follow the content: certificates, revocation lists,
    signerInfos. *)
Fixpoint signed_data_fields (fuel : nat) (d : Dec) (certs : list bytes) (infos : option bytes)
  : outcome (list bytes * option bytes) KipukaError :=
  if dec_is_empty d then Ok (certs, infos)
  else
    match fuel with
    | O => Panic
    | S fuel' =>
        let? t := client "CMS SignedData field peek error: " (peek_tag d) in
        if bool_decide (tag_class t = ContextSpecific) && (tag_number t =? 0) then
          let? (set, d) := client "CMS certificates field parse error: " (enter_constructed CTX0 d) in
          let? certs := certificate_set fuel set certs in
          signed_data_fields fuel' d certs infos
        else if bool_decide (tag_class t = ContextSpecific) && (tag_number t =? 1) then
          let? (_, d) := client "CMS crls skip error: " (decode_raw d) in
          signed_data_fields fuel' d certs infos
        else if bool_decide (tag_class t = Universal) && (tag_number t =? 17) then
          let? (raw, d) := client "CMS signerInfos parse error: " (decode_raw d) in
          signed_data_fields fuel' d certs (Some raw)
        else
          let? (_, d) := client "CMS unknown field skip error: " (decode_raw d) in
          signed_data_fields fuel' d certs infos
    end.

(** Steps 1 to 4: content, certificates and signerInfos. *)
Definition parse_signed_data (der : bytes) : outcome (bytes * list bytes * bytes) KipukaError :=
  let? (ci, _) := client "CMS ContentInfo parse error: " (enter_constructed SEQ (decoder_new der)) in
  let? (content_type, ci) := client "CMS contentType OID parse error: " (decode_oid ci) in
  if negb (bool_decide (content_type = CMS_SIGNED_DATA)) then
    Err (EBadRequest "CMS ContentInfo contentType is not id-signedData")
  else
    let? (content, _) := client "CMS [0] EXPLICIT wrapper parse error: " (enter_constructed CTX0 ci) in
    let? (sd, _) := client "CMS SignedData SEQUENCE parse error: " (enter_constructed SEQ content) in
    let? (_, sd) := client "CMS SignedData version parse error: " (decode_raw sd) in
    let? (_, sd) := client "CMS digestAlgorithms parse error: " (decode_raw sd) in
    let? (encap, sd) := client "CMS encapContentInfo parse error: " (enter_constructed SEQ sd) in
    let? (_, encap) := client "CMS eContentType parse error: " (decode_oid encap) in
    let? payload := econtent encap in
    let? (certs, infos) := signed_data_fields (length der) sd [] None in
    let? infos := ok_or infos (EBadRequest "CMS SignedData has no signerInfos SET") in
    if bool_decide (certs = []) then
      Err (EBadRequest "CMS SignedData has no certificates — signer cert is required")
    else Ok (payload, certs, infos).

(** Step 5: the first SignerInfo. *)
Definition first_signer (infos : bytes) : outcome SignerInfo KipukaError :=
  let? (inner, _) := client "CMS signerInfos SET enter error: " (enter_constructed SET (decoder_new infos)) in
  if dec_is_empty inner then
    Err (EBadRequest "CMS SignedData signerInfos is empty — at least one signer required")
  else
    let? (raw, _) := client "CMS SignerInfo parse error: " (decode_raw inner) in
    client "CMS SignerInfo structured parse error: " (signer_info_from_der raw).

(** The identifier of an encoded AlgorithmIdentifier. *)
Definition algorithm_oid (sequence_err oid_err : string) (alg : bytes) : outcome oid KipukaError :=
  let? (seq, _) := client sequence_err (enter_constructed SEQ (decoder_new alg)) in
  let? (o, _) := client oid_err (decode_oid seq) in
  Ok o.

(** ** The signer's certificate *)

Definition has_issuer_and_serial (id : bytes * Serial) (der : bytes) : bool :=
  match cert_from_der der with
  | inl c => bool_decide (cert_issuer c = id.1) &&
             (if Serial_eq_dec (cert_serial_number c) id.2 then true else false)
  | inr _ => false
  end.

(** The key identifier in the extension, an OCTET STRING. *)
Definition key_identifier (der : bytes) : option bytes :=
  match cert_from_der der with
  | inr _ => None
  | inl c =>
      match cert_extensions c ≫= (fun exts => find_extension_value exts SUBJECT_KEY_IDENTIFIER) with
      | None => None
      | Some v =>
          match read_value (decoder_new v) with
          | Some (t, key_id, _) => if tag_number t =? 4 then Some key_id else None
          | None => None
          end
      end
  end.

Definition match_signer_cert_by_sid (sid_raw : bytes) (certs : list bytes) : outcome bytes KipukaError :=
  match sid_raw with
  | [] => Err (EBadRequest "CMS SignerInfo sid is empty")
  | first_byte :: _ =>
      if first_byte =? 0x30 then
        let? id := client "CMS sid IssuerAndSerialNumber parse error: " (issuer_and_serial sid_raw) in
        ok_or (List.find (has_issuer_and_serial id) certs)
          (EBadRequest "CMS signer certificate not found by IssuerAndSerialNumber")
      else if first_byte =? 0x80 then
        let? ski := value_of "CMS sid SKI tag error: " "CMS sid SKI length error: "
          "CMS sid SKI indef error: Indefinite" "CMS sid SKI value error: " sid_raw in
        ok_or (List.find (fun der => bool_decide (key_identifier der = Some ski)) certs)
          (EBadRequest "CMS signer certificate not found by SubjectKeyIdentifier")
      else
        match certs with c :: _ => Ok c | [] => Panic end
  end.

(** Step 7: signed by a trust anchor, or one itself. *)
Definition anchored (cert_der : bytes) (ranges : bytes * bytes * bytes) (sig_bits : bytes) (anchor : bytes) : bool :=
  match cert_ranges anchor with
  | None => false
  | Some r =>
      match verify_signature ranges.1.1 ranges.1.2 sig_bits r.2 with
      | inl _ => true
      | inr _ => bool_decide (anchor = cert_der)
      end
  end.

(** ** The signature *)

Definition compute_digest (alg : oid) (data : bytes) : outcome bytes KipukaError :=
  if bool_decide (alg = ID_SHA256) then Ok (sha256 data)
  else if bool_decide (alg = ID_SHA384) then Ok (sha384 data)
  else if bool_decide (alg = ID_SHA512) then Ok (sha512 data)
  else if bool_decide (alg = ID_SHA1) then
    Err (EBadRequest "CMS digest algorithm SHA-1 is not permitted — use SHA-256 or stronger")
  else Err (EBadRequest ("unsupported CMS digest algorithm OID: " +:+ oid_debug alg)).

Fixpoint skip_values (fuel : nat) (d : Dec) : outcome unit KipukaError :=
  if dec_is_empty d then Ok tt
  else
    match fuel with
    | O => Panic
    | S fuel =>
        let? (_, d) := client "CMS attr value error: " (decode_raw d) in
        skip_values fuel d
    end.

(** The loop over the attributes: is the digest among those passed? *)
Fixpoint digest_attributes (fuel : nat) (d : Dec) (expected : bytes) (found : bool)
  : outcome bool KipukaError :=
  if dec_is_empty d then Ok found
  else
    match fuel with
    | O => Panic
    | S fuel' =>
        let? (attr, d) := client "CMS attr SEQUENCE error: " (enter_constructed SEQ d) in
        let? (o, attr) := client "CMS attr OID error: " (decode_oid attr) in
        if bool_decide (o = PKCS9_MESSAGE_DIGEST) then
          if found then Err (EBadRequest "duplicate CMS message-digest attribute")
          else
            let? (values, attr) := client "CMS messageDigest SET error: " (enter_constructed SET attr) in
            let? (v, values) := client "CMS messageDigest OCTET STRING error: " (decode_octet_string values) in
            if negb (dec_is_empty values) || negb (dec_is_empty attr) then
              Err (EBadRequest "CMS message-digest requires exactly one value")
            else if negb (bool_decide (v = expected)) then
              Err (EAuth "CMS message-digest attribute does not match eContent hash")
            else digest_attributes fuel' d expected true
        else
          let? _ := skip_values fuel attr in
          digest_attributes fuel' d expected found
    end.

Definition verify_message_digest_attribute (attrs expected : bytes) : outcome unit KipukaError :=
  let? found := digest_attributes (length attrs) (decoder_new attrs) expected false in
  if found then Ok tt
  else Err (EBadRequest "CMS signedAttrs is missing the required message-digest attribute").

(** The SET OF the attributes that is signed. *)
Definition attribute_set (attrs : bytes) : outcome bytes KipukaError :=
  let? enc := client "CMS signedAttrs SET error: " (start_constructed (universal_constructed 17) encoder_new) in
  let? enc := client "CMS signedAttrs encoding error: " (end_constructed (write_bytes attrs enc)) in
  client "CMS signedAttrs encoding error: " (finish enc).

(** Step 8: what the signature is over. *)
Definition verification_data (si : SignerInfo) (payload : bytes) : outcome bytes KipukaError :=
  match signed_attrs si with
  | Some attrs =>
      let? alg := algorithm_oid "CMS digestAlg SEQUENCE error: " "CMS digestAlg OID error: "
        (si_digest_algorithm si) in
      let? hash := compute_digest alg payload in
      let? _ := verify_message_digest_attribute attrs hash in
      attribute_set attrs
  | None => Ok payload
  end.

Definition RSA_ENCRYPTION : oid := [1; 2; 840; 113549; 1; 1; 1].

Definition verification_algorithm (si : SignerInfo) (sig_alg : string) : outcome bytes KipukaError :=
  if String.eqb sig_alg "1.2.840.113549.1.1.1" then
    let? o := algorithm_oid "CMS digest algorithm: " "CMS digest OID: " (si_digest_algorithm si) in
    let? hash :=
      if bool_decide (o = [2; 16; 840; 1; 101; 3; 4; 2; 1]) then Ok "sha256"%string
      else if bool_decide (o = [2; 16; 840; 1; 101; 3; 4; 2; 2]) then Ok "sha384"%string
      else if bool_decide (o = [2; 16; 840; 1; 101; 3; 4; 2; 3]) then Ok "sha512"%string
      else Err (EAuth "unsupported CMS RSA digest") in
    ok_or (signing_algorithm_of RSA_ENCRYPTION hash) (EAuth "unsupported CMS RSA signature algorithm")
  else Ok (si_signature_algorithm si).

(** ** [verify_cms_signed_data] *)

(** [now] is the clock reading of the validity check. *)
Definition verify_cms_signed_data (now : Z) (signed_data_der : bytes) (truststore : list bytes)
  : outcome CmsVerificationResult KipukaError :=
  if bool_decide (signed_data_der = []) then Err (EBadRequest "CMS SignedData is empty")
  else if Z.of_nat (length signed_data_der) <? 100 then
    Err (EBadRequest "CMS SignedData is too short to be valid")
  else if bool_decide (truststore = []) then
    Err (EAuth "CMS truststore is empty — cannot verify signer certificate")
  else
    let? (payload, certs, infos) := parse_signed_data signed_data_der in
    let? si := first_signer infos in
    let? sig_alg := algorithm_oid "CMS sigAlg SEQUENCE error: " "CMS sigAlg OID error: "
      (si_signature_algorithm si) in
    let sig_alg := oid_to_string sig_alg in
    let? cert_der := match_signer_cert_by_sid (sid si) certs in
    let? ranges := ok_or (cert_ranges cert_der)
      (EBadRequest "failed to parse signer certificate structure") in
    let? cert := client "signer cert decode error: " (cert_from_der cert_der) in
    let subject_dn := format_dn (cert_subject cert) in
    let? _ := map_err EAuth (valid_now now cert_der) in
    if negb (existsb (anchored cert_der ranges (cert_signature cert)) truststore) then
      Err (EAuth "CMS signer certificate does not chain to a trust anchor")
    else
      let? data := verification_data si payload in
      let? alg := verification_algorithm si sig_alg in
      let? _ := of_lib (fun e => EAuth ("CMS SignedData signature verification failed: " +:+ e))
        (spki_verify_signature ranges.2 data alg (si_signature si)) in
      Ok (MkCms cert_der subject_dn payload sig_alg).

(** ** Identity and encryption *)

Definition extract_signer_identity (r : CmsVerificationResult) : outcome AuthResult KipukaError :=
  if is_empty (signer_subject_dn r) then Err (EAuth "CMS signer certificate has an empty subject DN")
  else
    Ok (MkAuth (signer_subject_dn r) Mtls (Some (signer_cert_der r)) (Some (signer_subject_dn r)) [] []).

Definition build_cms_enveloped_data (coins : EncCoins) (payload recipient_cert_der : bytes) (alg : string)
  : outcome bytes KipukaError :=
  if bool_decide (payload = []) then Err (EBadRequest "cannot encrypt empty payload")
  else if bool_decide (recipient_cert_der = []) then Err (EBadRequest "recipient certificate is empty")
  else if Z.of_nat (length recipient_cert_der) <? 100 then
    Err (EBadRequest "recipient certificate is too short to be valid")
  else
    let? alg := validate_content_encryption alg in
    let gcm cipher :=
      of_lib (fun e => EInternal ("CMS authenticated encryption failed: " +:+ e))
        (cms_encrypt coins cipher payload recipient_cert_der) in
    let cbc o :=
      of_lib (fun e => EInternal ("CMS EnvelopedData construction failed: " +:+ e))
        (create_enveloped_data coins o payload recipient_cert_der) in
    match alg with
    | Aes256Gcm => gcm "aes-256-gcm"
    | Aes128Gcm => gcm "aes-128-gcm"
    | Aes256Cbc => cbc ID_AES256_CBC
    | Aes128Cbc => cbc ID_AES128_CBC
    end.
End CmsAuth.
