(* ===== verification/CmsAuthSpec.v ===== *)
(** * What an accepted CMS message proves

    Of CmsAuth.v: who signed what, and that the walk over an untrusted
    message always ends. *)
From S2P Require Import Prelude Words Text Errors Calendar X509 Der ExampleLibs DerReader Issuance IssuanceSpec FailureTracker BasicOtp NameMatch EnrollAuthz AuditLog AuditSpec Transfer Labels Enroll EnrollSpec Ocsp ReaderExample OcspSpec Revocation RevocationSpec CmsAuth.
Open Scope Z_scope.

Section CmsSpec.
Context `{HL : X509Lib} `{HC : CmsOids} `{HE : Encoder} `{HD : Decoder} `{HO : !OcspLib} `{HR : !CrlLib}
  `{HM : !CmsLib}.

Lemma client_Ok {T} context (r : T + string) t : client context r = Ok t <-> r = inl t.
Proof. apply of_lib_Ok. Qed.

(** ** The signed attributes *)

(** The attributes as they follow each other: identifier, and the reader at
    the values. *)
Inductive attributes : Dec -> list (oid * Dec) -> Prop :=
  | attributes_end d : dec_is_empty d = true -> attributes d []
  | attributes_next d attr rest o vals l :
      dec_is_empty d = false -> enter_constructed SEQ d = inl (attr, rest) ->
      decode_oid attr = inl (o, vals) -> attributes rest l -> attributes d ((o, vals) :: l).

(** A SET of exactly the one OCTET STRING [v]. *)
Definition single_octets (vals : Dec) (v : bytes) : Prop :=
  exists set after set', enter_constructed SET vals = inl (set, after) /\
    decode_octet_string set = inl (v, set') /\ dec_is_empty set' = true /\ dec_is_empty after = true.

Definition is_digest (a : oid * Dec) : bool := bool_decide (a.1 = PKCS9_MESSAGE_DIGEST).

Lemma filter_digest_cons o vals l :
  List.filter is_digest ((o, vals) :: l) =
    if bool_decide (o = PKCS9_MESSAGE_DIGEST) then (o, vals) :: List.filter is_digest l
    else List.filter is_digest l.
Proof. reflexivity. Qed.

Lemma digest_attributes_Ok fuel d expected found b :
  digest_attributes fuel d expected found = Ok b ->
  exists l, attributes d l /\
    if found then b = true /\ List.filter is_digest l = []
    else if b then exists a, List.filter is_digest l = [a] /\ single_octets a.2 expected
    else List.filter is_digest l = [].
Proof.
  revert d found. induction fuel as [|fuel IH]; intros d found; cbn [digest_attributes].
  { destruct (dec_is_empty d) eqn:Ed; [|done]. intros [= <-]. exists []. split; [by constructor|]. by destruct found. }
  destruct (dec_is_empty d) eqn:Ed.
  { intros [= <-]. exists []. split; [by constructor|]. by destruct found. }
  intros E. take_ok E as p E1. destruct p as [attr rest]. take_ok E as p E2. destruct p as [o vals].
  apply client_Ok in E1, E2. case_bool_decide as Ho.
  - destruct found; [done|]. take_ok E as p E3. destruct p as [set after]. take_ok E as p E4. destruct p as [v set'].
    apply client_Ok in E3, E4. destruct (dec_is_empty set') eqn:Es; [|done].
    destruct (dec_is_empty after) eqn:Ea; [|done]. cbn [negb orb] in E.
    case_bool_decide as Hv; [|done]. cbn [negb] in E. apply IH in E as (l & Hl & -> & Hnone).
    exists ((o, vals) :: l). split; [by econstructor|]. exists (o, vals).
    rewrite filter_digest_cons, bool_decide_true, Hnone by done. split; [done|]. subst v. by exists set, after, set'.
  - take_ok E as u E3. apply IH in E as (l & Hl & Hb). exists ((o, vals) :: l). split; [by econstructor|].
    by rewrite filter_digest_cons, bool_decide_false.
Qed.

Lemma digest_attribute_Ok attrs expected :
  verify_message_digest_attribute attrs expected = Ok tt ->
  exists l a, attributes (decoder_new attrs) l /\ List.filter is_digest l = [a] /\ single_octets a.2 expected.
Proof.
  unfold verify_message_digest_attribute. intros E. take_ok E as b E1. destruct b; [|done].
  apply digest_attributes_Ok in E1 as (l & Hl & a & Ha & Hs). by exists l, a.
Qed.

(** ** What the signature is over *)

(** The content itself, or attributes that hold exactly one digest: that of
    the content, by SHA-256 or a longer hash of its family. *)
Definition covers_content (si : SignerInfo) (payload data : bytes) : Prop :=
  match signed_attrs si with
  | None => data = payload
  | Some attrs => exists h l a, (h = sha256 payload \/ h = sha384 payload \/ h = sha512 payload) /\
      attributes (decoder_new attrs) l /\ List.filter is_digest l = [a] /\ single_octets a.2 h /\
      attribute_set attrs = Ok data
  end.

Lemma compute_digest_Ok alg data h :
  compute_digest alg data = Ok h -> h = sha256 data \/ h = sha384 data \/ h = sha512 data.
Proof. unfold compute_digest. repeat case_bool_decide; try done; intros [= <-]; tauto. Qed.

Lemma verification_data_Ok si payload data :
  verification_data si payload = Ok data -> covers_content si payload data.
Proof.
  unfold verification_data, covers_content. destruct (signed_attrs si) as [attrs|]; [|by intros [= <-]].
  intros E. take_ok E as alg E1. take_ok E as h E2. take_ok E as u E3. destruct u.
  apply compute_digest_Ok in E2. apply digest_attribute_Ok in E3 as (l & a & Hl & Ha & Hs). by exists h, l, a.
Qed.

(** ** The signer *)

(** The identifier names the certificate, unless it is of a kind that the
    message format does not have. *)
Definition identifies (sid_raw der : bytes) : Prop :=
  match sid_raw with
  | [] => False
  | b :: _ =>
      (b = 0x30 -> exists id c, issuer_and_serial sid_raw = inl id /\ cert_from_der der = inl c /\
        cert_issuer c = id.1 /\ cert_serial_number c = id.2) /\
      (b = 0x80 -> exists ski, value_of "CMS sid SKI tag error: " "CMS sid SKI length error: "
          "CMS sid SKI indef error: Indefinite" "CMS sid SKI value error: " sid_raw = Ok ski /\
        key_identifier der = Some ski)
  end.

Lemma match_signer_Ok sid_raw certs der :
  match_signer_cert_by_sid sid_raw certs = Ok der -> In der certs /\ identifies sid_raw der.
Proof.
  unfold match_signer_cert_by_sid, identifies. destruct sid_raw as [|b sid_raw]; [done|].
  destruct (Z.eqb_spec b 0x30) as [->|H30].
  - intros E. take_ok E as id E1. apply client_Ok in E1. apply ok_or_Ok, List.find_some in E as [Hin Hb].
    split; [done|]. split; [|done]. intros _. unfold has_issuer_and_serial in Hb.
    destruct (cert_from_der der) as [c|]; [|done]. apply andb_true_iff in Hb as [Hi%bool_decide_eq_true Hs].
    destruct (Serial_eq_dec _ _); [|done]. by exists id, c.
  - destruct (Z.eqb_spec b 0x80) as [->|H80].
    + intros E. take_ok E as ski E1. apply ok_or_Ok, List.find_some in E as [Hin Hb%bool_decide_eq_true].
      split; [done|]. split; [done|]. intros _. by exists ski.
    + destruct certs as [|c certs]; [done|]. intros [= ->]. split; [by left|]. by split.
Qed.

(** A trust anchor signed the certificate, or is it. *)
Definition trusted_by_anchor (truststore : list bytes) (der : bytes) : Prop :=
  exists anchor, In anchor truststore /\
    (anchor = der \/
     exists c r ar, cert_from_der der = inl c /\ cert_ranges der = Some r /\ cert_ranges anchor = Some ar /\
       verify_signature r.1.1 r.1.2 (cert_signature c) ar.2 = inl tt).

Lemma anchored_trusted truststore der c r :
  cert_from_der der = inl c -> cert_ranges der = Some r ->
  existsb (anchored der r (cert_signature c)) truststore = true -> trusted_by_anchor truststore der.
Proof.
  intros Hc Hr (anchor & Hin & Ha)%existsb_exists. exists anchor. split; [done|]. unfold anchored in Ha.
  destruct (cert_ranges anchor) as [ar|] eqn:Har; [|done].
  destruct (verify_signature _ _ _ _) as [[]|] eqn:Ev; [|left; by apply bool_decide_eq_true in Ha].
  right. by exists c, r, ar.
Qed.

Lemma parse_signed_data_Ok der payload certs infos :
  parse_signed_data der = Ok (payload, certs, infos) -> payload <> [] /\ certs <> [].
Proof.
  unfold parse_signed_data. intros E. take_ok E as p E1. destruct p as [ci d1]. take_ok E as p E2.
  destruct p as [ct ci']. case_bool_decide; [|done]. cbn [negb] in E.
  take_ok E as p E3. destruct p as [content d2]. take_ok E as p E4. destruct p as [sd d3].
  take_ok E as p E5. destruct p as [v sd1]. take_ok E as p E6. destruct p as [dg sd2].
  take_ok E as p E7. destruct p as [encap sd3]. take_ok E as p E8. destruct p as [et encap'].
  take_ok E as pl E9. take_ok E as p E10. destruct p as [cs is_]. take_ok E as inf E11.
  case_bool_decide as Hcs; [done|]. injection E as -> -> ->. split; [|done].
  unfold econtent in E9. destruct (dec_is_empty encap'); [done|].
  take_ok E9 as p E12. destruct p as [w d4]. take_ok E9 as p E13. destruct p as [oc d5].
  take_ok E9 as v2 E14. case_bool_decide; [done|]. by injection E9 as <-.
Qed.

(** What an accepted message proves: the content was signed by the holder of
    a certificate of the message. *)
Definition message_authentic (now : Z) (der : bytes) (truststore : list bytes) (r : CmsVerificationResult) : Prop :=
  exists certs infos si cert ranges data alg,
    parse_signed_data der = Ok (payload r, certs, infos) /\ payload r <> [] /\
    first_signer infos = Ok si /\ In (signer_cert_der r) certs /\ identifies (sid si) (signer_cert_der r) /\
    cert_from_der (signer_cert_der r) = inl cert /\ signer_subject_dn r = format_dn (cert_subject cert) /\
    valid_now now (signer_cert_der r) = Ok tt /\ trusted_by_anchor truststore (signer_cert_der r) /\
    cert_ranges (signer_cert_der r) = Some ranges /\ covers_content si (payload r) data /\
    spki_verify_signature ranges.2 data alg (si_signature si) = inl tt.

Lemma verify_cms_Ok now der truststore r :
  verify_cms_signed_data now der truststore = Ok r -> message_authentic now der truststore r.
Proof.
  unfold verify_cms_signed_data. case_bool_decide; [done|]. destruct (_ <? 100); [done|].
  case_bool_decide; [done|]. intros E. take_ok E as p E1. destruct p as [[pl certs] infos].
  take_ok E as si E2. take_ok E as alg0 E3. take_ok E as cd E4. take_ok E as ranges E5. take_ok E as cert E6.
  take_ok E as u E7. destruct u. destruct (existsb _ _) eqn:Ex; [|done]. cbn [negb] in E.
  take_ok E as data E8. take_ok E as alg E9. take_ok E as u E10. destruct u. injection E as <-.
  apply ok_or_Ok in E5. apply client_Ok in E6. apply map_err_Ok in E7. apply of_lib_Ok in E10.
  apply match_signer_Ok in E4 as [Hin Hid]. apply verification_data_Ok in E8.
  exists certs, infos, si, cert, ranges, data, alg. cbn.
  split; [done|]. split; [by eapply parse_signed_data_Ok|].
  do 6 (split; [done|]). split; [by eapply anchored_trusted|]. done.
Qed.

(** ** The walk ends *)

Section Ends.
Context `{HF : !Consumes}.

Lemma not_empty_left d : dec_is_empty d = false -> (0 < left d)%nat.
Proof. intros E. destruct (left d) eqn:El; [|lia]. apply empty_left in El. congruence. Qed.

Lemma client_returns {T} context (r : T + string) : returns (client context r).
Proof. by destruct r. Qed.

Lemma certificate_set_returns fuel d acc : (left d <= fuel)%nat -> returns (certificate_set fuel d acc).
Proof.
  revert d acc. induction fuel as [|fuel IH]; intros d acc Hf; cbn [certificate_set];
    (destruct (dec_is_empty d) eqn:Ed; [done|]); apply not_empty_left in Ed; [lia|].
  apply obind_returns; [apply client_returns|]. intros t _.
  destruct (_ && _); (apply obind_returns; [apply client_returns|]; intros [raw d'] E%client_Ok%decode_raw_left;
    apply IH; lia).
Qed.

Lemma signed_data_fields_returns fuel d certs infos :
  (left d <= fuel)%nat -> returns (signed_data_fields fuel d certs infos).
Proof.
  revert d certs infos. induction fuel as [|fuel IH]; intros d certs infos Hf; cbn [signed_data_fields];
    (destruct (dec_is_empty d) eqn:Ed; [done|]); apply not_empty_left in Ed; [lia|].
  apply obind_returns; [apply client_returns|]. intros t _.
  destruct (_ && _).
  - apply obind_returns; [apply client_returns|]. intros [set d'] [H1 H2]%client_Ok%enter_left.
    apply obind_returns; [apply certificate_set_returns; lia|]. intros cs _. apply IH. lia.
  - destruct (_ && _); [|destruct (_ && _)];
      (apply obind_returns; [apply client_returns|]; intros [raw d'] E%client_Ok%decode_raw_left; apply IH; lia).
Qed.

Lemma skip_values_returns fuel d : (left d <= fuel)%nat -> returns (skip_values fuel d).
Proof.
  revert d. induction fuel as [|fuel IH]; intros d Hf; cbn [skip_values];
    (destruct (dec_is_empty d) eqn:Ed; [done|]); apply not_empty_left in Ed; [lia|].
  apply obind_returns; [apply client_returns|]. intros [raw d'] E%client_Ok%decode_raw_left. apply IH. lia.
Qed.

Lemma digest_attributes_returns fuel d expected found :
  (left d <= fuel)%nat -> returns (digest_attributes fuel d expected found).
Proof.
  revert d found. induction fuel as [|fuel IH]; intros d found Hf; cbn [digest_attributes];
    (destruct (dec_is_empty d) eqn:Ed; [done|]); apply not_empty_left in Ed; [lia|].
  apply obind_returns; [apply client_returns|]. intros [attr rest] [H1 H2]%client_Ok%enter_left.
  apply obind_returns; [apply client_returns|]. intros [o vals] E2%client_Ok%decode_oid_left.
  case_bool_decide.
  - destruct found; [done|]. apply obind_returns; [apply client_returns|]. intros [set after] _.
    apply obind_returns; [apply client_returns|]. intros [v set'] _.
    destruct (_ || _); [done|]. destruct (negb _); [done|]. apply IH. lia.
  - apply obind_returns; [apply skip_values_returns; lia|]. intros _ _. apply IH. lia.
Qed.

Lemma value_of_returns a b c d v : returns (value_of a b c d v).
Proof.
  unfold value_of. apply obind_returns; [apply client_returns|]. intros [t d1] _.
  apply obind_returns; [apply client_returns|]. intros [n d2] _.
  apply obind_returns; [apply ok_or_returns|]. intros n' _.
  apply obind_returns; [apply client_returns|]. by intros [x d3] _.
Qed.

Lemma econtent_returns d : returns (econtent d).
Proof.
  unfold econtent. destruct (dec_is_empty d); [done|]. apply obind_returns; [apply client_returns|]. intros [w d1] _.
  apply obind_returns; [apply client_returns|]. intros [o d2] _.
  apply obind_returns; [apply value_of_returns|]. intros v _. by case_bool_decide.
Qed.

Lemma parse_signed_data_returns der : returns (parse_signed_data der).
Proof.
  unfold parse_signed_data. pose proof (new_left der) as H0.
  apply obind_returns; [apply client_returns|]. intros [ci d1] [H1 _]%client_Ok%enter_left.
  apply obind_returns; [apply client_returns|]. intros [ct ci'] H2%client_Ok%decode_oid_left.
  destruct (negb _); [done|].
  apply obind_returns; [apply client_returns|]. intros [content d2] [H3 _]%client_Ok%enter_left.
  apply obind_returns; [apply client_returns|]. intros [sd d3] [H4 _]%client_Ok%enter_left.
  apply obind_returns; [apply client_returns|]. intros [v sd1] H5%client_Ok%decode_raw_left.
  apply obind_returns; [apply client_returns|]. intros [dg sd2] H6%client_Ok%decode_raw_left.
  apply obind_returns; [apply client_returns|]. intros [encap sd3] [_ H7]%client_Ok%enter_left.
  apply obind_returns; [apply client_returns|]. intros [et encap'] _.
  apply obind_returns; [apply econtent_returns|]. intros pl _.
  apply obind_returns; [apply signed_data_fields_returns; lia|]. intros [cs is_] _.
  apply obind_returns; [apply ok_or_returns|]. intros inf _. by case_bool_decide.
Qed.

Lemma algorithm_oid_returns a b alg : returns (algorithm_oid a b alg).
Proof.
  unfold algorithm_oid. apply obind_returns; [apply client_returns|]. intros [s d] _.
  apply obind_returns; [apply client_returns|]. by intros [o d'] _.
Qed.

Lemma match_signer_returns sid_raw certs : certs <> [] -> returns (match_signer_cert_by_sid sid_raw certs).
Proof.
  intros Hc. unfold match_signer_cert_by_sid. destruct sid_raw as [|b s]; [done|].
  destruct (b =? 0x30); [|destruct (b =? 0x80)].
  - apply obind_returns; [apply client_returns|]. intros id _. apply ok_or_returns.
  - apply obind_returns; [apply value_of_returns|]. intros v _. apply ok_or_returns.
  - by destruct certs.
Qed.

Lemma verification_data_returns si pl : returns (verification_data si pl).
Proof.
  unfold verification_data. destruct (signed_attrs si) as [attrs|]; [|done].
  apply obind_returns; [apply algorithm_oid_returns|]. intros alg _.
  apply obind_returns; [unfold compute_digest; by repeat case_bool_decide|]. intros h _.
  apply obind_returns.
  { unfold verify_message_digest_attribute. apply obind_returns; [|by intros []].
    apply digest_attributes_returns, new_left. }
  intros _ _. unfold attribute_set. repeat (apply obind_returns; [apply client_returns|]; intros ? _).
  apply client_returns.
Qed.

Lemma verification_algorithm_returns si a : returns (verification_algorithm si a).
Proof.
  unfold verification_algorithm. destruct (String.eqb a _); [|done].
  apply obind_returns; [apply algorithm_oid_returns|]. intros o _.
  apply obind_returns; [by repeat case_bool_decide|]. intros h _. apply ok_or_returns.
Qed.

Lemma valid_now_returns now der : returns (valid_now now der).
Proof.
  unfold valid_now. apply obind_returns; [by destruct (cert_from_der der)|]. intros c _.
  assert (Ht : forall t, returns (time t)) by (intros []; apply ok_or_returns).
  apply obind_returns; [done|]. intros nb _. case_match; [done|].
  apply obind_returns; [done|]. intros na _. by case_match.
Qed.

Lemma verify_cms_returns now der truststore : returns (verify_cms_signed_data now der truststore).
Proof.
  unfold verify_cms_signed_data. case_bool_decide; [done|]. destruct (_ <? 100); [done|].
  case_bool_decide; [done|].
  apply obind_returns; [apply parse_signed_data_returns|]. intros [[pl certs] infos] [_ Hc]%parse_signed_data_Ok.
  apply obind_returns.
  { unfold first_signer. apply obind_returns; [apply client_returns|]. intros [i d] _.
    destruct (dec_is_empty i); [done|]. apply obind_returns; [apply client_returns|]. intros [raw d'] _.
    apply client_returns. }
  intros si _. apply obind_returns; [apply algorithm_oid_returns|]. intros a _.
  apply obind_returns; [by apply match_signer_returns|]. intros cd _.
  apply obind_returns; [apply ok_or_returns|]. intros r _.
  apply obind_returns; [apply client_returns|]. intros c _.
  apply obind_returns; [|intros _ _].
  { pose proof (valid_now_returns now cd). by destruct (valid_now now cd). }
  destruct (negb _); [done|].
  apply obind_returns; [apply verification_data_returns|]. intros d _.
  apply obind_returns; [apply verification_algorithm_returns|]. intros al _.
  apply obind_returns; [|done]. by destruct (spki_verify_signature _ _ _ _).
Qed.
End Ends.

(** C23: an accepted CMS message is authentic.  The content it is accepted
    with was signed with the key of a certificate of the message, which the
    signer's identifier names, whose subject is the identity, which is valid
    now and is a trust anchor or signed by one; the signature covers the
    content itself, or attributes in which exactly one digest is given, that
    of the content by a SHA-2 function.  And the walk over the message, which
    anyone can send, always ends with a verdict. *)
Theorem cms_message_authentic `{!Consumes} now der truststore :
  returns (verify_cms_signed_data now der truststore) /\
  forall r, verify_cms_signed_data now der truststore = Ok r -> message_authentic now der truststore r.
Proof. split; [apply verify_cms_returns|]. intros r. apply verify_cms_Ok. Qed.
End CmsSpec.

(** ** Examples *)

(** A library whose messages are signed by the client [n] of the CA 66. *)
Definition cms_lib_of (n : Z) : CmsLib := {|
  signer_info_from_der raw :=
    inl (MkSignerInfo [48; 0] (tlv_of 48 (tlv_of 6 [2; 16; 1]))
           (if bool_decide (drop 2 raw = []) then None else Some (drop 2 raw))
           (tlv_of 48 (tlv_of 6 [9; 9])) [n]);
  issuer_and_serial _ := inl ([66], [n]);
  decode_octet_string c :=
    match ex_value c with
    | inl (t, content, _, c') => if tag_number t =? 4 then inl (rest_of content, c') else inr "not octets"
    | inr e => inr e
    end;
  spki_verify_signature spki _ _ sig := if bool_decide (sig = spki) then inl tt else inr "bad signature";
  signing_algorithm_of _ _ := Some [1];
  sha256 b := [len b];
  sha384 b := [len b; 0];
  sha512 b := [len b; 0; 0];
  oid_debug _ := "oid";
  EncCoins := unit;
  cms_encrypt _ _ p _ := inl p;
  create_enveloped_data _ _ p _ := inl p;
  ID_AES256_CBC := [42];
  ID_AES128_CBC := [2];
  ID_SHA256 := [2; 16; 1];
  ID_SHA384 := [2; 16; 2];
  ID_SHA512 := [2; 16; 3];
  ID_SHA1 := [1; 3];
  PKCS9_MESSAGE_DIGEST := [9; 4]
|}.
#[export] Instance example_cms_lib : CmsLib := cms_lib_of 1.

(** A message of the client 1, which the CA 66 certified. *)
Definition example_signer : bytes := [48; 1; 66].
Definition example_anchor : bytes := [48; 66; 66].
Definition example_attributes (digest : Z) : bytes :=
  tlv_of 48 (tlv_of 6 [9; 3] ++ tlv_of 49 [5; 0]) ++ tlv_of 48 (tlv_of 6 [9; 4] ++ tlv_of 49 (tlv_of 4 [digest])).
Definition example_message (content attrs : bytes) : bytes :=
  tlv_of 48 (tlv_of 6 CMS_SIGNED_DATA ++ tlv_of 160 (tlv_of 48 (
    tlv_of 2 [1] ++ tlv_of 49 [] ++ tlv_of 48 (tlv_of 6 [1; 2] ++ tlv_of 160 (tlv_of 4 content)) ++
    tlv_of 160 example_signer ++ tlv_of 49 (tlv_of 48 attrs)))).
(** A request of the same name. *)
Definition example_cms_request : bytes := [48; 1; 2; 2] ++ replicate 60 0.
Definition example_result : CmsVerificationResult :=
  MkCms example_signer ("CN=" +:+ string_of_bytes [1]) example_cms_request "9.9".

Lemma cms_message_authentic_witness :
  let m := example_message example_cms_request (example_attributes 64) in
  verify_cms_signed_data example_now m [example_anchor] = Ok example_result /\
  message_authentic example_now m [example_anchor] example_result.
Proof.
  assert (E : verify_cms_signed_data example_now
    (example_message example_cms_request (example_attributes 64)) [example_anchor] = Ok example_result)
    by (vm_compute; reflexivity).
  split; [exact E|].
  destruct (cms_message_authentic example_now (example_message example_cms_request (example_attributes 64))
    [example_anchor]) as [_ H]. exact (H _ E).
Defined.

(** Another digest, and two digests. *)
Example other_digest_refused :
  verify_cms_signed_data example_now (example_message example_cms_request (example_attributes 63)) [example_anchor]
  = Err (EAuth "CMS message-digest attribute does not match eContent hash").
Proof. vm_compute. reflexivity. Qed.
Example two_digests_refused :
  verify_cms_signed_data example_now
    (example_message example_cms_request (example_attributes 64 ++ example_attributes 64)) [example_anchor]
  = Err (EBadRequest "duplicate CMS message-digest attribute").
Proof. vm_compute. reflexivity. Qed.
(** What follows the first signer is not looked at. *)
Example other_signers_ignored :
  let m := tlv_of 48 (tlv_of 6 CMS_SIGNED_DATA ++ tlv_of 160 (tlv_of 48 (
    tlv_of 2 [1] ++ tlv_of 49 [] ++
    tlv_of 48 (tlv_of 6 [1; 2] ++ tlv_of 160 (tlv_of 4 example_cms_request)) ++
    tlv_of 160 example_signer ++ tlv_of 49 (tlv_of 48 (example_attributes 64) ++ [0; 1; 2])))) in
  verify_cms_signed_data example_now m [example_anchor] = Ok example_result.
Proof. vm_compute. reflexivity. Qed.
