(* ===== verification/Cmc.v ===== *)
(** * CMC messages

    The parts of [src/ca/protocol.rs] for CMC (RFC 5272) and
    [src/routes/fullcmc.rs]: the requests of a PKIData, issuance for each of
    them, and the signed response.  The ASN.1 structures, the response
    builder and the Dogtag client are parameters; a file of PEM certificates
    is what reading it gives. *)
From S2P Require Import Prelude Words Text Errors Calendar X509 Der DerReader Issuance AuditLog NameMatch EnrollAuthz FailureTracker BasicOtp Transfer DogtagPool Enroll Labels Ocsp Revocation CmsAuth EstAuth.
Open Scope Z_scope.

Definition CMC_RESPONSE : string := "application/pkcs7-mime; smime-type=CMC-response".

Record PkiData {Control : Type} : Type := MkPkiData {
  control_sequence : list Control;
  req_sequence : list bytes
}.
Arguments PkiData : clear implicits.

Record CmcRequest : Type := MkCmcRequest {
  body_part_id : Z;                     (* u32 *)
  request_type : Z;                     (* u32 *)
  request_der : bytes
}.

(** The SignedData of a response, with its one signer. *)
Record SignedCmc : Type := MkSignedCmc {
  sc_digest_algorithm : bytes;
  sc_content_type : oid;
  sc_content : bytes;
  sc_certificates : bytes;
  sc_sid : bytes;
  sc_signed_attrs : bytes;
  sc_signature_algorithm : bytes;
  sc_signature : bytes
}.

Class CmcLib `{CmsLib} : Type := {
  Control : Type;
  parse_pki_data : bytes -> PkiData Control + string;
  extract_transaction_id : list Control -> option Z;
  extract_sender_nonce : list Control -> option bytes;
  (** content and certificates, the signature unchecked *)
  unwrap_signed_cmc : bytes -> (bytes * list bytes) + string;
  dec_remaining : Dec -> bytes;
  (** the identifier, which need not fit an [i64], and the encoded request *)
  tagged_request : bytes -> ((Z + string) * bytes) + string;
  (** the builder of a PKIResponse *)
  ResponseBuilder : Type;
  builder_new : ResponseBuilder;
  add_status : list Z -> ResponseBuilder -> ResponseBuilder + string;
  add_failed : list Z -> ResponseBuilder -> ResponseBuilder + string;
  recipient_nonce : bytes -> ResponseBuilder -> ResponseBuilder + string;
  sender_nonce : bytes -> ResponseBuilder -> ResponseBuilder + string;
  builder_build : ResponseBuilder -> bytes + string;
  PkiResponse : Type;
  response_from_der : bytes -> PkiResponse + string;
  push_control : Z -> oid -> list bytes -> PkiResponse -> PkiResponse;
  response_to_der : PkiResponse -> bytes + string;
  integer_to_der : Z -> bytes + string;
  ID_CMC_TRANSACTION_ID : oid;
  (** encodings of the signed response *)
  set_of_to_der : list bytes -> bytes + string;
  set_content : bytes -> bytes + string;
  oid_to_der : oid -> bytes + string;
  octets_to_der : bytes -> bytes + string;
  cms_attribute_to_der : oid -> bytes -> bytes + string;
  issuer_and_serial_of : Cert -> bytes + string;
  digest_alg_id : string -> option bytes;
  algorithm_from_der : bytes -> bytes + string;
  signed_cmc_to_der : SignedCmc -> bytes + string;
  content_info_to_der : bytes -> bytes + string;
  PKCS9_CONTENT_TYPE : oid
}.

(** ** Sorting encodings *)

(** [Ord] of [Vec<u8>]. *)
Fixpoint bytes_le (a b : bytes) : bool :=
  match a, b with
  | [], _ => true
  | _ :: _, [] => false
  | x :: a, y :: b => (x <? y) || ((x =? y) && bytes_le a b)
  end.
Definition bytes_order (a b : bytes) : Prop := bytes_le a b = true.
#[export] Instance bytes_order_dec : RelDecision bytes_order.
Proof. intros a b. unfold bytes_order. apply _. Defined.

Fixpoint dedup (l : list bytes) : list bytes :=
  match l with
  | x :: ((y :: _) as rest) => if bool_decide (x = y) then dedup rest else x :: dedup rest
  | _ => l
  end.

Section Cmc.
Context `{HL : X509Lib} `{HC : CmsOids} `{HE : Encoder} `{HD : Decoder} `{HO : !OcspLib} `{HR : !CrlLib}
  `{HM : !CmsLib} `{HB : !CmcLib}.

(** ** [cmc_requests] *)

Definition decode_request (raw : bytes) : outcome (Z * bytes) string :=
  let d := decoder_new raw in
  let? t := of_lib id (peek_tag d) in
  if negb (bool_decide (tag_class t = ContextSpecific) && tag_constructed t && (tag_number t =? 0)) then
    Err "local CMC supports PKCS#10 TaggedRequest only"
  else
    let? (inner, _) := of_lib id (enter_constructed CTX0 d) in
    let? entry :=
      match tagged_request (dec_remaining inner) with
      | inl e => Ok e
      | inr _ => of_lib id (tagged_request (0x30 :: tail raw))
      end in
    let? i := of_lib id entry.1 in
    if (0 <=? i) && (i <? 2 ^ 32) then Ok (i, entry.2)
    else Err "out of range integral type conversion attempted".

Fixpoint decode_requests (raws : list bytes) (acc : list CmcRequest) : outcome (list CmcRequest) string :=
  match raws with
  | [] => Ok acc
  | raw :: raws =>
      let? (i, der) := decode_request raw in
      if existsb (fun r => body_part_id r =? i) acc then Err "duplicate CMC body part ID"
      else decode_requests raws (acc ++ [MkCmcRequest i 0 der])
  end.

Definition cmc_requests (data : PkiData Control) : outcome (list CmcRequest) KipukaError :=
  map_err (fun e => EBadRequest ("CMC requests: " +:+ e)) (decode_requests (req_sequence data) []).

(** ** [cmc_transaction] *)

Definition cmc_transaction (response : bytes) (transaction : option Z) : outcome bytes KipukaError :=
  match transaction with
  | None => Ok response
  | Some t =>
      let? value := of_lib ECa (integer_to_der t) in
      let? r := of_lib ECa (response_from_der response) in
      of_lib ECa (response_to_der (push_control 0 ID_CMC_TRANSACTION_ID [value] r))
  end.

(** ** [signed_cmc] *)

Definition ID_CCT_PKI_RESPONSE : oid := [1; 3; 6; 1; 5; 5; 7; 12; 3].

(** The two signed attributes, as a SET OF. *)
Definition signed_attributes (digest : bytes) : outcome bytes string :=
  let? ct := of_lib id (oid_to_der ID_CCT_PKI_RESPONSE) in
  let? ct_values := of_lib id (set_of_to_der [ct]) in
  let? md := of_lib id (octets_to_der digest) in
  let? md_values := of_lib id (set_of_to_der [md]) in
  let? ct := of_lib id (cms_attribute_to_der PKCS9_CONTENT_TYPE ct_values) in
  let? md := of_lib id (cms_attribute_to_der PKCS9_MESSAGE_DIGEST md_values) in
  of_lib id (set_of_to_der [ct; md]).

Definition signed_cmc (coins : Coins) (content : bytes) (certs : list bytes) (ca_der : bytes)
    (key : CaSigningKey) (hash : string) : outcome bytes KipukaError :=
  map_err (fun e => ECa ("CMC response signing failed: " +:+ e))
    (let? digest := of_lib id (hash_data hash content) in
     let? attrs := signed_attributes digest in
     let? content_attrs := of_lib id (set_content attrs) in
     let? (algorithm, signature) := map_err kipuka_error_to_string (sign_message coins key hash attrs) in
     let? ca := of_lib id (cert_from_der ca_der) in
     let? sid := of_lib id (issuer_and_serial_of ca) in
     let? digest_algorithm := ok_or (digest_alg_id hash) "unsupported CMS digest"%string in
     let? algorithm := of_lib id (algorithm_from_der algorithm) in
     let all := dedup (merge_sort bytes_order (certs ++ [ca_der])) in
     let? data := of_lib id (signed_cmc_to_der
       (MkSignedCmc digest_algorithm ID_CCT_PKI_RESPONSE content (concat all) sid content_attrs algorithm signature)) in
     of_lib id (content_info_to_der data)).

(** ** [post_fullcmc] *)

(** The outside of one request of a message. *)
Record EntryOutside : Type := MkEntry {
  ent_inputs : IssueInputs Coins;
  ent_insert : InsertFaults;
  ent_event : AuditCall
}.

Record CmcDogtag : Type := MkCmcDogtag {
  cmc_pool : DogtagPool;
  submit_cmc_request : string -> bytes -> bytes + string
}.

Record CmcOutside : Type := MkCmcOutside {
  fc_admission : AuditCall;
  fc_event : AuditCall;
  fc_enabled : bool;
  fc_dogtag : option CmcDogtag;
  (** the file of trust anchors and what reading and parsing it gives *)
  fc_truststore_file : option string;
  fc_truststore : (list bytes + string) + string;
  fc_now : Z;
  fc_profile_now : Z;
  fc_read_file : string -> bytes + string;
  fc_utf8_error_text : bytes -> string;
  fc_entries : nat -> EntryOutside;
  fc_nonce : bytes;
  fc_coins : Coins
}.

Variable authz_reason : AuthzError -> string.
Variable b64_encode : bytes -> bytes.
Variable b64_decode : bytes -> bytes + string.
Variable digest : option bytes -> bytes -> string.
Variable json_object : list (string * string) -> string.

Definition fullcmc_response (code : Z) (der : bytes) : Response :=
  MkResponse code
    (<["content-transfer-encoding" := TRANSFER_ENCODING_BASE64]> {["content-type" := CMC_RESPONSE]})
    (encode_est_base64 b64_encode der).

(** What precedes the backends. *)
Definition accept_fullcmc (o : CmcOutside) (auth : AuthResult) (body : bytes) : outcome bytes KipukaError :=
  if negb (fc_enabled o) then Err (EEst "Full CMC is not enabled")
  else if negb (match auth_method auth with Mtls => true | _ => false end) then
    Err (EAuth "Full CMC requires mTLS client certificate authentication")
  else if negb (has_cmc_ra_eku auth) then
    Err (EAuth ("CMC signer certificate must have id-kp-cmcRA EKU (" +:+ CMC_RA_EKU_OID +:+ ")"))
  else
    let? der := map_err (fun _ => EBadRequest "malformed CMC request") (decode_est_base64 b64_decode body) in
    if bool_decide (der = []) then Err (EBadRequest "empty CMC request") else Ok der.

Definition cmc_truststore (o : CmcOutside) (ca : CaState) : outcome (list bytes) KipukaError :=
  match fc_truststore_file o with
  | None => Ok [ca_cert_der ca]
  | Some file =>
      match fc_truststore o with
      | inr e => Err (ECa ("failed to read CMC truststore " +:+ file +:+ ": " +:+ e))
      | inl (inr e) => Err (ECa ("malformed PEM certificate in CMC truststore " +:+ file +:+ ": " +:+ e))
      | inl (inl []) => Err (ECa ("CMC truststore " +:+ file +:+ " contains no certificates"))
      | inl (inl certs) => Ok certs
      end
  end.

(** Issued certificates, their body parts, and the failed body parts. *)
Record CmcTally : Type := MkTally {
  issued_certs : list bytes;
  body_part_ids : list Z;
  failed_body_part_ids : list Z
}.
Definition tally_issued (t : CmcTally) (cert : bytes) (i : Z) : CmcTally :=
  MkTally (issued_certs t ++ [cert]) (body_part_ids t ++ [i]) (failed_body_part_ids t).
Definition tally_failed (t : CmcTally) (i : Z) : CmcTally :=
  MkTally (issued_certs t) (body_part_ids t) (failed_body_part_ids t ++ [i]).

Definition cmc_issuer_dn (ca : CaState) : string :=
  match cert_from_der (ca_cert_der ca) with inl c => format_dn (cert_subject c) | inr _ => "unknown" end.

(** One request: the state, the tally, or the refusal of the whole message. *)
Definition process_entry (eo : EntryOutside) (s : AppState) (t : CmcTally) (ca : CaState) (key : CaSigningKey)
    (p : EnrollmentProfile) (policy : EnrollAuthzPolicy) (ca_id identity : string) (entry : CmcRequest)
  : AppState * outcome CmcTally KipukaError :=
  let i := body_part_id entry in
  let record s ev detail := record_audit_event digest json_object s ev detail (ent_event eo) in
  if request_type entry =? 0 then
    match map_err (fun e => EForbidden (authz_reason e))
            (authorize_csr_der csr_subject_attrs csr_sans (fun d => of_lib id (csr_from_der d))
               (request_der entry) identity policy) with
    | Err e => (s, Err e)
    | Panic => (s, Panic)
    | Ok _ =>
        match Issuance.issue_certificate (ent_inputs eo) (request_der entry) p (ca_cert_der ca) key
                (ca_hash_algorithm ca) (ca_ocsp_url ca) (ca_crl_url ca) with
        | Panic => (s, Panic)
        | Err e =>
            (record s "fullcmc_request_failed"
               ("ca_id=" +:+ ca_id +:+ ", identity=" +:+ identity +:+ ", body_part_id=" +:+ pretty i +:+
                ", error=" +:+ issuance_error_to_string e), Ok (tally_failed t i))
        | Ok r =>
            let failed := match insert_error (ent_insert eo) with Some _ => true | None => false end in
            match insert_certificate s failed (certificate_row r (cmc_issuer_dn ca) ca_id (profile_name p)) with
            | (s, true) => (s, Ok (tally_issued t (certificate_der r) i))
            | (s, false) =>
                (record s "fullcmc_db_error"
                   ("ca_id=" +:+ ca_id +:+ ", serial=" +:+ serial_number r +:+ ", error=" +:+
                    default (duplicate_text (ent_insert eo)) (insert_error (ent_insert eo))),
                 Ok (tally_failed t i))
            end
        end
    end
  else
    (record s "fullcmc_request_failed"
       ("ca_id=" +:+ ca_id +:+ ", identity=" +:+ identity +:+ ", body_part_id=" +:+ pretty i +:+
        ", reason=unsupported request type " +:+ pretty (request_type entry)), Ok (tally_failed t i)).

Fixpoint process_entries (entries : nat -> EntryOutside) (n : nat) (s : AppState) (t : CmcTally) (ca : CaState)
    (key : CaSigningKey) (p : EnrollmentProfile) (policy : EnrollAuthzPolicy) (ca_id identity : string)
    (l : list CmcRequest) : AppState * outcome CmcTally KipukaError :=
  match l with
  | [] => (s, Ok t)
  | entry :: l =>
      match process_entry (entries n) s t ca key p policy ca_id identity entry with
      | (s, Ok t) => process_entries entries (S n) s t ca key p policy ca_id identity l
      | r => r
      end
  end.

Definition builder_step (context : string) (b : ResponseBuilder + string) : outcome ResponseBuilder KipukaError :=
  of_lib (fun e => ECa ("CMC response builder failed (" +:+ context +:+ "): " +:+ e)) b.

(** The PKIResponse of a tally; the fresh nonce is the HTTP handler's. *)
Definition build_pki_response (t : CmcTally) (nonce : option bytes) (fresh : option bytes)
  : outcome bytes KipukaError :=
  let? b := match body_part_ids t with
            | [] => Ok builder_new
            | ids => builder_step "status" (add_status ids builder_new)
            end in
  let? b := match failed_body_part_ids t with
            | [] => Ok b
            | ids => builder_step "failed status" (add_failed ids b)
            end in
  let? b := match nonce with
            | None => Ok b
            | Some n => builder_step "recipient nonce" (recipient_nonce n b)
            end in
  let? b := match fresh with
            | None => Ok b
            | Some n => builder_step "sender nonce" (sender_nonce n b)
            end in
  of_lib (fun e => ECa ("CMC PKIResponse build failed: " +:+ e)) (builder_build b).

Definition option_debug (o : option Z) : string :=
  match o with None => "None" | Some t => "Some(" +:+ pretty t +:+ ")" end.

(** The verified message, its requests and the signing identity. *)
Definition prepare_cmc (app : AppConfig) (o : CmcOutside) (ca : CaState) (ca_id : string) (der : bytes)
  : outcome (PkiData Control * CaSigningKey * list CmcRequest) KipukaError :=
  let? truststore := cmc_truststore o ca in
  let? r := verify_cms_signed_data (fc_now o) der truststore in
  if bool_decide (payload r = []) then Err (EBadRequest "CMC SignedData has empty eContent")
  else
    let? data := of_lib (fun _ => EBadRequest "malformed CMC request") (parse_pki_data (payload r)) in
    if bool_decide (req_sequence data = []) then
      Err (EBadRequest "CMC request contains no certification requests")
    else
      let? cfg := ok_or (List.find (fun c => String.eqb (cfg_id c) ca_id) (ca_configs app))
        (ECa ("CA config not found for id=" +:+ ca_id)) in
      let? key := Issuance.resolve_signing_key (fc_utf8_error_text o) (fc_read_file o) cfg (hsm app) in
      let? requests := cmc_requests data in
      Ok (data, key, requests).

(** The answer to what was issued. *)
Definition cmc_answer (o : CmcOutside) (ca : CaState) (key : CaSigningKey) (data : PkiData Control) (t : CmcTally)
  : outcome Response KipukaError :=
  let? der := build_pki_response t (extract_sender_nonce (control_sequence data)) (Some (fc_nonce o)) in
  let? der := cmc_transaction der (extract_transaction_id (control_sequence data)) in
  let? der := signed_cmc (fc_coins o) der (issued_certs t) (ca_cert_der ca) key (ca_hash_algorithm ca) in
  let code := match body_part_ids t, failed_body_part_ids t with [], _ :: _ => 500 | _, _ => 200 end in
  Ok (fullcmc_response code der).

Definition local_fullcmc (app : AppConfig) (o : CmcOutside) (s : AppState) (l : LabelExtractor)
    (ca : CaState) (identity : string) (der : bytes) : AppState * outcome Response KipukaError :=
  let ca_id := label_ca l in
  match prepare_cmc app o ca ca_id der with
  | Err e => (s, Err e)
  | Panic => (s, Panic)
  | Ok (data, key, requests) =>
      match process_entries (fc_entries o) 0 s (MkTally [] [] []) ca key (label_profile ca (fc_profile_now o))
              (enroll_policy l) ca_id identity requests with
      | (s, Err e) => (s, Err e)
      | (s, Panic) => (s, Panic)
      | (s, Ok t) =>
          match cmc_answer o ca key data t with
          | Err e => (s, Err e)
          | Panic => (s, Panic)
          | Ok resp =>
              let event := match failed_body_part_ids t, body_part_ids t with
                           | [], _ => "fullcmc_success"
                           | _, [] => "fullcmc_failed"
                           | _, _ => "fullcmc_partial"
                           end in
              (record_audit_event digest json_object s event
                 ("ca_id=" +:+ ca_id +:+ ", identity=" +:+ identity +:+ ", transaction_id=" +:+
                  option_debug (extract_transaction_id (control_sequence data)) +:+ ", requests=" +:+
                  pretty (Z.of_nat (length (req_sequence data))) +:+ ", issued=" +:+
                  pretty (Z.of_nat (length (issued_certs t))) +:+ ", failed=" +:+
                  pretty (Z.of_nat (length (failed_body_part_ids t)))) (fc_event o), Ok resp)
          end
      end
  end.

Definition post_fullcmc (app : AppConfig) (o : CmcOutside) (s : AppState) (auth : AuthResult)
    (l : LabelExtractor) (body : bytes) : AppState * outcome Response KipukaError :=
  let identity := auth_identity auth in
  match admit_enrollment digest json_object s identity "fullcmc" (fc_admission o) with
  | (s, Err e) => (s, Err e)
  | (s, Panic) => (s, Panic)
  | (s, Ok _) =>
      match accept_fullcmc o auth body with
      | Err e => (s, Err e)
      | Panic => (s, Panic)
      | Ok der =>
          match fc_dogtag o with
          | Some d =>
              match (let? client := map_err (fun e => EServiceUnavailable ("Dogtag CA unavailable: " +:+ e))
                       (get_client (cmc_pool d)) in
                     of_lib (fun e => ECa ("Dogtag CMC passthrough failed: " +:+ e))
                       (submit_cmc_request d client der)) with
              | Err e => (s, Err e)
              | Panic => (s, Panic)
              | Ok response =>
                  (record_audit_event digest json_object s "fullcmc_success"
                     ("ca_id=" +:+ label_ca l +:+ ", identity=" +:+ identity +:+ ", backend=dogtag") (fc_event o),
                   Ok (fullcmc_response 200 response))
              end
          | None =>
              match get_ca app (label_ca l) with
              | None => (s, Err ENotFound)
              | Some ca => local_fullcmc app o s l ca identity der
              end
          end
      end
  end.
End Cmc.
