(* ===== verification/CmcSpec.v ===== *)
(** * What full CMC issues, and what it answers

    Of Cmc.v, composed with CmsAuth.v and issuance: which certificates a
    message can add to the table, for whom and for which of its requests, and
    what the signed response accounts for. *)
From S2P Require Import Prelude Words Text Errors Calendar X509 Der ExampleLibs DerReader Issuance IssuanceSpec FailureTracker BasicOtp NameMatch EnrollAuthz AuditLog AuditSpec Transfer DogtagPool Enroll EnrollSpec Labels Ocsp ReaderExample OcspSpec Revocation RevocationSpec CmsAuth CmsAuthSpec EstAuth Cmc.
Open Scope Z_scope.

(** ** Sets of encodings in order *)

#[export] Instance bytes_order_total : Total bytes_order.
Proof.
  unfold bytes_order. intros a. induction a as [|x a IH]; intros [|y b]; cbn [bytes_le]; auto.
  destruct (IH b) as [H|H]; rewrite H; rewrite !orb_true_iff, !andb_true_iff, !Z.ltb_lt, !Z.eqb_eq; lia.
Qed.
#[export] Instance bytes_order_trans : Transitive bytes_order.
Proof.
  unfold bytes_order. intros a. induction a as [|x a IH]; intros [|y b] [|z c]; cbn [bytes_le]; try done.
  rewrite !orb_true_iff, !andb_true_iff, !Z.ltb_lt, !Z.eqb_eq. intros [?|[-> H1]] [?|[-> H2]]; [lia..|].
  right. split; [done|]. by eapply IH.
Qed.
Lemma bytes_order_antisym a b : bytes_order a b -> bytes_order b a -> a = b.
Proof.
  unfold bytes_order. revert b. induction a as [|x a IH]; intros [|y b]; cbn [bytes_le]; try done.
  rewrite !orb_true_iff, !andb_true_iff, !Z.ltb_lt, !Z.eqb_eq. intros [?|[-> H1]] [?|[? H2]]; try lia.
  f_equal. by apply IH.
Qed.

Lemma dedup_cons x l : dedup (x :: l) =
  match l with y :: _ => if bool_decide (x = y) then dedup l else x :: dedup l | [] => [x] end.
Proof. by destruct l. Qed.

Lemma elem_of_dedup x l : x ∈ dedup l <-> x ∈ l.
Proof.
  induction l as [|y l IH]; [done|]. rewrite dedup_cons. destruct l as [|z l]; [done|].
  case_bool_decide as Hy; [subst y|]; rewrite ?elem_of_cons, IH, ?elem_of_cons; naive_solver.
Qed.

(** Each encoding once, in the order of DER. *)
Definition in_order (l : list bytes) : Prop :=
  StronglySorted (fun a b => bytes_order a b /\ a <> b) l.

Lemma dedup_in_order l : StronglySorted bytes_order l -> in_order (dedup l).
Proof.
  induction 1 as [|x l Hs IH Hx]; [apply SSorted_nil|]. rewrite dedup_cons.
  destruct l as [|y l]; [by apply SSorted_cons|]. case_bool_decide as Hxy; [done|]. apply SSorted_cons; [done|].
  apply List.Forall_forall. intros z Hz%list_elem_of_In. rewrite elem_of_dedup in Hz.
  rewrite Forall_forall in Hx. split; [by apply Hx|]. intros <-. apply Hxy.
  apply StronglySorted_inv in Hs as [_ Hy]. rewrite Forall_forall in Hy.
  apply bytes_order_antisym; [apply Hx; by left|]. apply elem_of_cons in Hz as [->|Hz]; [done|]. by apply Hy.
Qed.

Lemma bag_in_order l : in_order (dedup (merge_sort bytes_order l)).
Proof. apply dedup_in_order. apply (StronglySorted_merge_sort bytes_order _). Qed.
Lemma elem_of_bag x l : x ∈ dedup (merge_sort bytes_order l) <-> x ∈ l.
Proof. by rewrite elem_of_dedup, (merge_sort_Permutation bytes_order l). Qed.

Section CmcSpec.
Context `{HL : X509Lib} `{HC : CmsOids} `{HE : Encoder} `{HD : Decoder} `{HO : !OcspLib} `{HR : !CrlLib}
  `{HM : !CmsLib} `{HB : !CmcLib}.
Variable authz_reason : AuthzError -> string.
Variable b64_encode : bytes -> bytes.
Variable b64_decode : bytes -> bytes + string.
Variable digest : option bytes -> bytes -> string.
Variable json_object : list (string * string) -> string.

Abbreviation process_entry := (process_entry authz_reason digest json_object).
Abbreviation process_entries := (process_entries authz_reason digest json_object).
Abbreviation local_fullcmc := (local_fullcmc authz_reason b64_encode digest json_object).
Abbreviation post_fullcmc := (post_fullcmc authz_reason b64_encode b64_decode digest json_object).
Abbreviation authorization der identity policy :=
  (authorize_csr_der csr_subject_attrs csr_sans (fun d => of_lib id (csr_from_der d)) der identity policy).

(** ** The requests of a message *)

Definition same_part (a b : CmcRequest) : Prop := body_part_id a = body_part_id b.

Lemma decode_requests_Ok raws acc l :
  decode_requests raws acc = Ok l ->
  exists new, l = acc ++ new /\ length new = length raws /\
    Forall (fun e => request_type e = 0 /\ exists raw, In raw raws /\
      decode_request raw = Ok (body_part_id e, request_der e)) new /\
    (NoDup (map body_part_id acc) -> NoDup (map body_part_id l)).
Proof.
  revert acc. induction raws as [|raw raws IH]; intros acc; cbn [decode_requests].
  { intros [= <-]. exists []. by rewrite app_nil_r. }
  intros E. take_ok E as p E1. destruct p as [i der]. destruct (existsb _ acc) eqn:Ex; [done|].
  apply IH in E as (new & -> & Hl & Hf & Hn). exists (MkCmcRequest i 0 der :: new).
  split; [by rewrite <- app_assoc|]. split; [by simpl; rewrite Hl|]. split.
  - constructor.
    + cbn. split; [done|]. exists raw. split; [by left|done].
    + eapply Forall_impl; [exact Hf|]. intros e [Ht (raw' & Hin & Hd)]. split; [done|]. exists raw'. split; [by right|done].
  - intros Ha. apply Hn. rewrite map_app. apply NoDup_app. split; [done|]. split; [|apply NoDup_singleton].
    intros x Hx ->%list_elem_of_singleton. apply list_elem_of_In, in_map_iff in Hx as (r & Hr & Hin).
    rewrite <- not_true_iff_false, existsb_exists in Ex. apply Ex. exists r. split; [done|]. by apply Z.eqb_eq.
Qed.

Lemma cmc_requests_Ok data l :
  cmc_requests data = Ok l ->
  length l = length (req_sequence data) /\ NoDup (map body_part_id l) /\
  Forall (fun e => request_type e = 0 /\ exists raw, In raw (req_sequence data) /\
    decode_request raw = Ok (body_part_id e, request_der e)) l.
Proof.
  unfold cmc_requests. intros E%map_err_Ok. apply decode_requests_Ok in E as (new & -> & Hl & Hf & Hn).
  cbn [app] in *. split; [done|]. split; [|done]. apply Hn. constructor.
Qed.

(** ** The certificates of a run over them *)

(** [r] certifies the request: it is in order, asks for names the caller
    may have, and the CA signed what issuance makes of it. *)
Definition certifies (eo : EntryOutside) (ca : CaState) (key : CaSigningKey) (p : EnrollmentProfile)
    (policy : EnrollAuthzPolicy) (identity : string) (e : CmcRequest) (r : IssuanceResult) : Prop :=
  exists csr, csr_checked (request_der e) csr p /\ profile_within (Issuance.now_check (ent_inputs eo)) p /\
    authorized (csr_subject_cn csr_subject_attrs csr) (csr_sans csr) identity policy /\
    exists cert tbs, issued_as (ent_inputs eo) (request_der e) p (ca_cert_der ca) key (ca_hash_algorithm ca)
      (ca_ocsp_url ca) (ca_crl_url ca) r csr cert tbs.

(** The row stored for it. *)
Definition cmc_row (ca : CaState) (ca_id : string) (p : EnrollmentProfile) (r : IssuanceResult) : CertRow :=
  certificate_row r (cmc_issuer_dn ca) ca_id (profile_name p).

Definition outcomes : Type := list (CmcRequest * option IssuanceResult).
Definition issued (rs : outcomes) : list IssuanceResult := omap snd rs.
Definition parts (stored : bool) (rs : outcomes) : list Z :=
  map (fun x => body_part_id x.1) (List.filter (fun x => Bool.eqb (bool_decide (is_Some x.2)) stored) rs).
Definition tally (t : CmcTally) (rs : outcomes) : CmcTally :=
  MkTally (issued_certs t ++ map certificate_der (issued rs)) (body_part_ids t ++ parts true rs)
    (failed_body_part_ids t ++ parts false rs).

Lemma tally_cons t e oc rs :
  tally t ((e, oc) :: rs) =
  tally (match oc with
         | Some r => tally_issued t (certificate_der r) (body_part_id e)
         | None => tally_failed t (body_part_id e)
         end) rs.
Proof. by destruct oc; unfold tally, issued, parts; cbn; rewrite <- ?app_assoc. Qed.

Lemma tally_one t e oc :
  tally t [(e, oc)] =
  match oc with
  | Some r => tally_issued t (certificate_der r) (body_part_id e)
  | None => tally_failed t (body_part_id e)
  end.
Proof. by destruct oc; unfold tally, issued, parts; cbn; rewrite !app_nil_r. Qed.

Lemma process_entry_spec eo s t ca key p policy ca_id identity e s' res :
  request_type e = 0 ->
  process_entry eo s t ca key p policy ca_id identity e = (s', res) ->
  pending_csrs s' = pending_csrs s /\
  match res with
  | Ok t' => exists oc, t' = tally t [(e, oc)] /\
      (forall r, oc = Some r -> certifies eo ca key p policy identity e r) /\
      certificates s' = certificates s ++ map (cmc_row ca ca_id p) (issued [(e, oc)])
  | Err x => s' = s /\ exists reason, authorization (request_der e) identity policy = Err reason /\
      x = EForbidden (authz_reason reason)
  | Panic => s' = s
  end.
Proof.
  intros Ht. unfold Cmc.process_entry. rewrite Ht. cbn [Z.eqb].
  destruct (authorization _ _ _) as [[]|reason|] eqn:Ea; cbn [map_err].
  2-3: intros [= <- <-]; split; [done|]; eauto.
  destruct (Issuance.issue_certificate _ _ _ _ _ _ _ _) as [r|x|] eqn:Ei.
  3: by intros [= <- <-].
  2: { intros [= <- <-]. split; [done|]. exists None. rewrite tally_one, app_nil_r. by split. }
  destruct (insert_certificate _ _ _) as [s1 b] eqn:Es. apply insert_certificate_result in Es as (_ & _ & Hp & Hb).
  destruct b; intros [= <- <-].
  - split; [done|]. exists (Some r). split; [by rewrite tally_one|].
    split; [|by destruct Hb].
    intros r' [= <-]. apply issue_certificate_Ok in Ei as (csr & Hcsr & Hpr & cert & tbs & Hi).
    exists csr. split; [done|]. split; [done|]. split; [|by exists cert, tbs].
    destruct Hcsr as (_ & Hder & _). by eapply authorize_csr_der_Ok.
  - subst s1. split; [done|]. exists None. split; [by rewrite tally_one|].
    split; [done|]. by rewrite app_nil_r.
Qed.

Definition run_certificates (entries : nat -> EntryOutside) (ca : CaState) (key : CaSigningKey)
    (p : EnrollmentProfile) (policy : EnrollAuthzPolicy) (identity : string) (rs : outcomes) : Prop :=
  Forall (fun x => forall r, x.2 = Some r -> exists n, certifies (entries n) ca key p policy identity x.1 r) rs.

Lemma process_entries_spec entries ca key p policy ca_id identity l : forall n s t s' res,
  Forall (fun e => request_type e = 0) l ->
  process_entries entries n s t ca key p policy ca_id identity l = (s', res) ->
  pending_csrs s' = pending_csrs s /\
  exists rs rest, l = map fst rs ++ rest /\ run_certificates entries ca key p policy identity rs /\
    certificates s' = certificates s ++ map (cmc_row ca ca_id p) (issued rs) /\
    match res with
    | Ok t' => rest = [] /\ t' = tally t rs
    | Err x => exists e reason, head rest = Some e /\
        authorization (request_der e) identity policy = Err reason /\ x = EForbidden (authz_reason reason)
    | Panic => rest <> []
    end.
Proof.
  induction l as [|e l IH]; intros n s t s' res Hty; cbn [Cmc.process_entries].
  { intros [= <- <-]. split; [done|]. exists [], []. split; [done|]. split; [constructor|].
    unfold tally, issued, parts. destruct t. cbn. by rewrite !app_nil_r. }
  apply Forall_cons in Hty as [Ht Hty].
  destruct (process_entry _ _ _ _ _ _ _ _ _ _) as [s1 [t1|x|]] eqn:E1;
    (apply process_entry_spec in E1 as [Hp1 H1]; [|done]).
  - intros E2. apply IH in E2 as [Hp2 (rs & rest & -> & Hrun & Hc & Hres)]; [|done]. split; [congruence|].
    destruct H1 as (oc & Ht1 & Hcert & Hc1). exists ((e, oc) :: rs), rest. split; [done|]. split.
    { constructor; [|done]. intros r Hr. exists n. by apply Hcert. }
    split.
    { rewrite Hc, Hc1, <- app_assoc, <- map_app. do 2 f_equal. by destruct oc. }
    destruct res; [|done..]. destruct Hres as [-> ->]. split; [done|].
    by rewrite tally_cons, Ht1, tally_one.
  - intros [= <- <-]. split; [done|]. destruct H1 as (-> & reason & Ha & ->).
    exists [], (e :: l). rewrite app_nil_r. split; [done|]. split; [constructor|]. split; [done|]. by exists e, reason.
  - intros [= <- <-]. split; [done|]. subst s1. exists [], (e :: l). rewrite app_nil_r.
    split; [done|]. split; [constructor|]. by split.
Qed.

(** Every request of a complete run is in one of the two lists, once. *)
Lemma parts_split rs : parts true rs ++ parts false rs ≡ₚ map body_part_id (map fst rs).
Proof.
  induction rs as [|[e oc] rs IH]; [done|]. unfold parts in *. destruct oc; cbn.
  - by rewrite IH.
  - by rewrite <- Permutation_middle, IH.
Qed.

(** ** The message *)

(** It is signed, as CmsAuthSpec.v says, by someone the anchors vouch for,
    and makes a request. *)
Definition message_accepted (o : CmcOutside) (ca : CaState) (der : bytes) (data : PkiData Control) : Prop :=
  exists truststore r, cmc_truststore o ca = Ok truststore /\
    message_authentic (fc_now o) der truststore r /\ parse_pki_data (payload r) = inl data /\
    req_sequence data <> [].

(** The key of the CA's configuration. *)
Definition configured_key (app : AppConfig) (o : CmcOutside) (ca_id : string) (key : CaSigningKey) : Prop :=
  exists cfg, In cfg (ca_configs app) /\ cfg_id cfg = ca_id /\
    Issuance.resolve_signing_key (fc_utf8_error_text o) (fc_read_file o) cfg (hsm app) = Ok key.

Lemma prepare_cmc_Ok app o ca ca_id der data key requests :
  prepare_cmc app o ca ca_id der = Ok (data, key, requests) ->
  message_accepted o ca der data /\ configured_key app o ca_id key /\ cmc_requests data = Ok requests.
Proof.
  unfold prepare_cmc. intros E. take_ok E as ts E1. take_ok E as r E2. case_bool_decide; [done|].
  take_ok E as d E3. case_bool_decide; [done|]. take_ok E as cfg E4. take_ok E as k E5. take_ok E as reqs E6.
  injection E as -> -> ->. apply ok_or_Ok, List.find_some in E4 as [Hin Hid%String.eqb_eq].
  apply of_lib_Ok in E3. apply verify_cms_Ok in E2. split; [by exists ts, r|]. split; [by exists cfg|]. done.
Qed.

(** ** The signature of the answer *)

(** [out] is a CMC message with the content and the certificates, signed by
    the CA over attributes with the content's digest. *)
Definition signed_by_issuer (coins : Coins) (content : bytes) (certs : list bytes) (ca_der : bytes)
    (key : CaSigningKey) (hash : string) (out : bytes) : Prop :=
  exists sd ca h attrs alg raw bag,
    cert_from_der ca_der = inl ca /\ issuer_and_serial_of ca = inl (sc_sid sd) /\
    sc_content_type sd = ID_CCT_PKI_RESPONSE /\ sc_content sd = content /\
    hash_data hash content = inl h /\ signed_attributes h = Ok attrs /\
    set_content attrs = inl (sc_signed_attrs sd) /\ sign_message coins key hash attrs = Ok (alg, sc_signature sd) /\
    sc_certificates sd = concat bag /\ in_order bag /\ (forall x, x ∈ bag <-> x ∈ certs \/ x = ca_der) /\
    signed_cmc_to_der sd = inl raw /\ content_info_to_der raw = inl out.

Lemma signed_cmc_Ok coins content certs ca_der key hash out :
  signed_cmc coins content certs ca_der key hash = Ok out ->
  signed_by_issuer coins content certs ca_der key hash out.
Proof.
  unfold signed_cmc. intros E%map_err_Ok. take_ok E as h E1. take_ok E as attrs E2. take_ok E as sa E3.
  take_ok E as p E4. destruct p as [alg sig]. take_ok E as ca E5. take_ok E as sid E6. take_ok E as da E7.
  take_ok E as al E8. take_ok E as raw E9. apply of_lib_Ok in E, E1, E3, E5, E6, E9. apply map_err_Ok in E4.
  eexists _, ca, h, attrs, alg, raw, _. repeat match goal with |- _ /\ _ => split end; try exact E9; try done.
  - apply bag_in_order.
  - intros x. by rewrite elem_of_bag, elem_of_app, list_elem_of_singleton.
Qed.

(** ** The run of a message *)

Abbreviation profile := (fun (ca : CaState) (o : CmcOutside) => label_profile ca (fc_profile_now o)).

(** The rows are those of the certificates of the requests [rs], the first
    of the message's; [rest] are the others. *)
Definition cmc_effect (app : AppConfig) (o : CmcOutside) (l : LabelExtractor) (identity : string)
    (der : bytes) (before after : list CertRow) (ca : CaState) (key : CaSigningKey) (data : PkiData Control)
    (rs : outcomes) (rest : list CmcRequest) : Prop :=
  get_ca app (label_ca l) = Some ca /\ message_accepted o ca der data /\ configured_key app o (label_ca l) key /\
  cmc_requests data = Ok (map fst rs ++ rest) /\
  run_certificates (fc_entries o) ca key (profile ca o) (enroll_policy l) identity rs /\
  after = before ++ map (cmc_row ca (label_ca l) (profile ca o)) (issued rs).

Lemma local_fullcmc_spec app o s l ca identity der s' r :
  get_ca app (label_ca l) = Some ca ->
  local_fullcmc app o s l ca identity der = (s', r) ->
  pending_csrs s' = pending_csrs s /\
  ((certificates s' = certificates s /\ forall resp, r <> Ok resp) \/
   exists key data rs rest, cmc_effect app o l identity der (certificates s) (certificates s') ca key data rs rest /\
     forall resp, r = Ok resp -> rest = [] /\ cmc_answer b64_encode o ca key data (tally (MkTally [] [] []) rs) = Ok resp).
Proof.
  intros Hca. unfold Cmc.local_fullcmc. destruct (prepare_cmc _ _ _ _ _) as [[[data key] requests]|e|] eqn:Ep.
  2-3: intros [= <- <-]; split; [done|]; by left.
  apply prepare_cmc_Ok in Ep as (Hmsg & Hkey & Hreqs). pose proof (cmc_requests_Ok _ _ Hreqs) as (_ & _ & Hty).
  destruct (process_entries _ _ _ _ _ _ _ _ _ _ _) as [s1 r1] eqn:E1.
  apply process_entries_spec in E1 as [Hp (rs & rest & Hrs & Hrun & Hc & Hres)].
  2: { eapply Forall_impl; [exact Hty|]. by intros e [? _]. }
  assert (Heff : forall s2 r2, certificates s2 = certificates s1 -> pending_csrs s2 = pending_csrs s1 ->
    (forall resp, r2 = Ok resp -> rest = [] /\
       cmc_answer b64_encode o ca key data (tally (MkTally [] [] []) rs) = Ok resp) ->
    (s2, r2) = (s', r) -> pending_csrs s' = pending_csrs s /\
    ((certificates s' = certificates s /\ forall resp, r <> Ok resp) \/
     exists key data rs rest, cmc_effect app o l identity der (certificates s) (certificates s') ca key data rs rest /\
     forall resp, r = Ok resp -> rest = [] /\ cmc_answer b64_encode o ca key data (tally (MkTally [] [] []) rs) = Ok resp)).
  { intros s2 r2 Hc2 Hp2 Hok [= <- <-]. split; [congruence|]. right. exists key, data, rs, rest.
    split; [|done]. unfold cmc_effect. rewrite Hc2, Hc, <- Hrs. by split_and!. }
  destruct r1 as [t|x|]; [|by apply Heff..]. destruct Hres as [-> ->].
  destruct (cmc_answer _ _ _ _ _ _) as [resp|e|] eqn:Ea; [|by apply Heff..].
  apply Heff; [done..|]. intros resp' [= <-]. by split.
Qed.

(** The caller may send messages here: over a connection of its own
    certificate, which is for registration authorities. *)
Definition cmc_caller (o : CmcOutside) (auth : AuthResult) : Prop :=
  fc_enabled o = true /\ auth_method auth = Mtls /\ has_cmc_ra_eku auth = true.

Lemma post_fullcmc_run app o s auth l body s' r :
  fc_dogtag o = None ->
  post_fullcmc app o s auth l body = (s', r) ->
  pending_csrs s' = pending_csrs s /\
  ((certificates s' = certificates s /\ forall resp, r <> Ok resp) \/
   exists s1 der ca key data rs rest, cmc_caller o auth /\
     admitted json_object s s1 (auth_identity auth) "fullcmc" (fc_admission o) /\
     decode_est_base64 b64_decode body = Ok der /\
     cmc_effect app o l (auth_identity auth) der (certificates s) (certificates s') ca key data rs rest /\
     forall resp, r = Ok resp -> rest = [] /\ cmc_answer b64_encode o ca key data (tally (MkTally [] [] []) rs) = Ok resp).
Proof.
  intros Hd. unfold Cmc.post_fullcmc. rewrite Hd.
  pose proof (admit_enrollment_frame digest json_object s (auth_identity auth) "fullcmc" (fc_admission o)) as [Hc1 Hp1].
  destruct (admit_enrollment _ _ _ _ _ _) as [s1 [[]|e|]] eqn:Ead; cbn [fst] in Hc1, Hp1.
  2-3: intros [= <- <-]; split; [done|]; by left.
  apply admit_enrollment_Ok in Ead. destruct (accept_fullcmc _ _ _ _) as [der|e|] eqn:Eac.
  2-3: intros [= <- <-]; split; [done|]; by left.
  destruct (get_ca app (label_ca l)) as [ca|] eqn:Hca; [|intros [= <- <-]; split; [done|]; by left].
  intros E. apply local_fullcmc_spec in E as [Hp Hor]; [|done]. split; [congruence|].
  destruct Hor as [[Hc Hn]|(key & data & rs & rest & Heff & Hok)]; [left; split; [congruence|done]|].
  right. exists s1, der, ca, key, data, rs, rest. rewrite Hc1 in Heff.
  unfold accept_fullcmc in Eac. destruct (fc_enabled o) eqn:Hen; [|done]. cbn [negb] in Eac.
  destruct (auth_method auth) eqn:Hm; try done. cbn [negb] in Eac.
  destruct (has_cmc_ra_eku auth) eqn:Hra; [|done]. cbn [negb] in Eac. take_ok Eac as d E1.
  case_bool_decide; [done|]. injection Eac as ->. apply map_err_Ok in E1. by split_and!.
Qed.

(** C25: what a message can put into the table.  Without a Dogtag backend, a
    call for full CMC stores nothing and fails, or its caller connected with
    a certificate for registration authorities, the admission was recorded,
    the message was signed by the holder of a currently valid certificate
    that the CA or a configured anchor vouches for, and the rows added are
    those of certificates for the message's own requests, a prefix of them in
    their order: each for a request in order, under the configured key of the
    label's CA, with names that the caller (not the signer) may have.  Only
    when the call ends with a refusal can requests be left over. *)
Theorem fullcmc_sound app o s auth l body s' r :
  fc_dogtag o = None ->
  post_fullcmc app o s auth l body = (s', r) ->
  pending_csrs s' = pending_csrs s /\
  ((certificates s' = certificates s /\ forall resp, r <> Ok resp) \/
   exists s1 der ca key data rs rest, cmc_caller o auth /\
     admitted json_object s s1 (auth_identity auth) "fullcmc" (fc_admission o) /\
     decode_est_base64 b64_decode body = Ok der /\
     cmc_effect app o l (auth_identity auth) der (certificates s) (certificates s') ca key data rs rest /\
     forall resp, r = Ok resp -> rest = []).
Proof.
  intros Hd E. apply post_fullcmc_run in E as [Hp Hor]; [|done]. split; [done|].
  destruct Hor as [Hno|(s1 & der & ca & key & data & rs & rest & Hc & Ha & Hdec & Heff & Hok)]; [by left|].
  right. exists s1, der, ca, key, data, rs, rest. split_and!; try done. by intros resp [? _]%Hok.
Qed.

(** ** The answer *)

Lemma issued_parts rs : length (parts true rs) = length (issued rs).
Proof. induction rs as [|[e [r|]] rs IH]; [done| |done]; unfold parts, issued in *; cbn; by f_equal. Qed.

Lemma parts_nil rs b : parts true rs = [] -> parts b rs = [] -> b = false -> rs = [].
Proof.
  intros Ht Hf ->. pose proof (Permutation_length (parts_split rs)) as Hl. rewrite Ht, Hf in Hl.
  by destruct rs.
Qed.

(** What an answer says of the requests: the PKIResponse lists each under
    the right status, echoes the message's nonce and transaction, and is
    signed with the CA's key, the certificates attached. *)
Definition accounts_for (o : CmcOutside) (ca : CaState) (key : CaSigningKey) (data : PkiData Control)
    (rs : outcomes) (resp : Response) : Prop :=
  exists response content out,
    build_pki_response (MkTally (map certificate_der (issued rs)) (parts true rs) (parts false rs))
      (extract_sender_nonce (control_sequence data)) (Some (fc_nonce o)) = Ok response /\
    cmc_transaction response (extract_transaction_id (control_sequence data)) = Ok content /\
    signed_by_issuer (fc_coins o) content (map certificate_der (issued rs)) (ca_cert_der ca) key
      (ca_hash_algorithm ca) out /\
    Errors.body resp = encode_est_base64 b64_encode out /\
    Errors.status resp = if bool_decide (issued rs = []) then 500 else 200.

Lemma cmc_answer_Ok o ca key data rs resp :
  rs <> [] -> cmc_answer b64_encode o ca key data (tally (MkTally [] [] []) rs) = Ok resp ->
  accounts_for o ca key data rs resp.
Proof.
  intros Hne. unfold cmc_answer, tally. cbn [issued_certs body_part_ids failed_body_part_ids app]. intros E.
  take_ok E as r1 E1. take_ok E as r2 E2. take_ok E as out E3. apply signed_cmc_Ok in E3. injection E as <-.
  exists r1, r2, out. split_and!; try done. cbn. pose proof (issued_parts rs) as Hl.
  case_bool_decide as Hi.
  - rewrite Hi in Hl. destruct (parts true rs) eqn:Ht; [|done].
    destruct (parts false rs) eqn:Hf; [|done]. by destruct (Hne (parts_nil rs false Ht Hf eq_refl)).
  - destruct (parts true rs) eqn:Ht; [|done]. by destruct (issued rs).
Qed.

(** An answer accounts for every request.  When full CMC is answered,
    there are as many results as the message has requests, with pairwise
    different body part identifiers; each is listed exactly once, as issued
    or as failed; the certificates in the signed answer are those of the rows
    that were added, and the CA's, once each and in the order of DER; the
    answer is signed with the key of the label's CA over attributes with the
    digest of the content, and its status tells whether anything was issued. *)
Theorem fullcmc_answer app o s auth l body s' resp :
  fc_dogtag o = None ->
  post_fullcmc app o s auth l body = (s', Ok resp) ->
  exists der ca key data rs,
    cmc_effect app o l (auth_identity auth) der (certificates s) (certificates s') ca key data rs [] /\
    length rs = length (req_sequence data) /\ NoDup (map body_part_id (map fst rs)) /\
    parts true rs ++ parts false rs ≡ₚ map body_part_id (map fst rs) /\
    length (parts true rs) = length (issued rs) /\
    accounts_for o ca key data rs resp.
Proof.
  intros Hd E. apply post_fullcmc_run in E as [_ [[_ Hno]|Hrun]]; [by destruct (Hno resp)| |done].
  destruct Hrun as (s1 & der & ca & key & data & rs & rest & _ & _ & _ & Heff & Hok).
  destruct (Hok resp eq_refl) as [-> Hans]. exists der, ca, key, data, rs. split; [done|].
  pose proof Heff as (_ & (ts & cr & _ & _ & _ & Hdata) & _ & Hreqs & _).
  pose proof (cmc_requests_Ok _ _ Hreqs) as (Hl & Hn & _). rewrite app_nil_r, length_map in Hl.
  rewrite app_nil_r in Hn. split_and!; try done; [apply parts_split|apply issued_parts|].
  apply cmc_answer_Ok; [|done]. intros ->. by destruct (req_sequence data).
Qed.
End CmcSpec.

(** ** Examples *)

(** A PKIData is its requests, one after the other, up to a zero byte. *)
Fixpoint example_requests (fuel : nat) (c : Cursor) : list bytes :=
  match fuel, rest_of c with
  | S fuel', 160 :: _ =>
      match ex_value c with
      | inl (_, _, raw, c') => raw :: example_requests fuel' c'
      | inr _ => []
      end
  | _, _ => []
  end.

Definition cmc_lib_of (HM : CmsLib) : CmcLib := {|
  Control := unit;
  parse_pki_data b := inl (MkPkiData _ [] (example_requests (length b) (decoder_new b)));
  extract_transaction_id _ := Some 5;
  extract_sender_nonce _ := Some [3; 3];
  unwrap_signed_cmc b := inl (b, []);
  dec_remaining := rest_of;
  tagged_request b := match b with i :: der => inl (inl i, der) | [] => inr "no request" end;
  ResponseBuilder := bytes;
  builder_new := [];
  add_status l b := inl (b ++ 1 :: l);
  add_failed l b := inl (b ++ 2 :: l);
  recipient_nonce n b := inl (b ++ 3 :: n);
  Cmc.sender_nonce n b := inl (b ++ 4 :: n);
  builder_build b := inl b;
  PkiResponse := bytes;
  response_from_der b := inl b;
  push_control _ _ l b := b ++ concat l;
  response_to_der b := inl b;
  integer_to_der n := inl [2; 1; n];
  ID_CMC_TRANSACTION_ID := [7; 5];
  set_of_to_der l := inl (tlv_of 49 (concat l));
  set_content b := inl (drop 2 b);
  oid_to_der o := inl (tlv_of 6 o);
  octets_to_der b := inl (tlv_of 4 b);
  cms_attribute_to_der o v := inl (tlv_of 48 (tlv_of 6 o ++ v));
  issuer_and_serial_of c := inl [c.2];
  digest_alg_id _ := Some [2; 16];
  algorithm_from_der b := inl b;
  signed_cmc_to_der d := inl (tlv_of 48 (sc_content d ++ sc_certificates d ++ sc_signature d));
  content_info_to_der b := inl b;
  PKCS9_CONTENT_TYPE := [9; 3]
|}.
#[local] Instance example_cmc_lib : CmcLib := cmc_lib_of _.

(** Two requests for the same name, with room after them. *)
Definition tagged (i subject : Z) : bytes := tlv_of 160 [i; 48; subject; 2; 2].
Definition example_pki_data : bytes := tagged 1 65 ++ tagged 2 65 ++ replicate 50 0.
Definition cmc_message : bytes := example_message example_pki_data (example_attributes 64).
Definition cmc_body : bytes := example_b64 cmc_message.
Definition cmc_outside : CmcOutside :=
  MkCmcOutside example_call example_call true None None (inr "no file") example_now example_now (fun _ => inl [1])
    (fun _ => EmptyString) (fun _ => MkEntry example_inputs (MkInsertFaults None "duplicate") example_call)
    [7; 7] tt.
Definition ra_caller : AuthResult := MkAuth "device" Mtls (Some [1]) (Some "CN=a") [] [CMC_RA_EKU_OID].
Definition example_fullcmc (auth : AuthResult) (body : bytes) : AppState * outcome Response KipukaError :=
  post_fullcmc (fun _ => EmptyString) example_b64 example_unb64 example_digest example_json EnrollSpec.example_app
    cmc_outside example_state auth example_label body.

Lemma fullcmc_sound_witness : exists s resp der ca key data rs rest,
  example_fullcmc ra_caller cmc_body = (s, Ok resp) /\
  cmc_effect EnrollSpec.example_app cmc_outside example_label "device" der [] (certificates s) ca key data rs rest.
Proof.
  assert (E : match (example_fullcmc ra_caller cmc_body).2 with Ok _ => true | _ => false end = true)
    by (vm_compute; reflexivity).
  destruct (example_fullcmc ra_caller cmc_body) as [s [resp|e|]] eqn:Es; [|discriminate E..]. clear E.
  exists s, resp. unfold example_fullcmc in Es.
  destruct (fullcmc_sound _ _ _ _ _ _ cmc_outside _ _ _ _ _ _ eq_refl Es)
    as [_ [[_ Hno]|(s1 & der & ca & key & data & rs & rest & _ & _ & _ & Heff & _)]]; [by destruct (Hno resp)|].
  exists der, ca, key, data, rs, rest. split; [reflexivity|]. exact Heff.
Defined.

Lemma fullcmc_answer_witness : exists s resp ca key data rs,
  example_fullcmc ra_caller cmc_body = (s, Ok resp) /\
  accounts_for example_b64 cmc_outside ca key data rs resp.
Proof.
  assert (E : match (example_fullcmc ra_caller cmc_body).2 with Ok _ => true | _ => false end = true)
    by (vm_compute; reflexivity).
  destruct (example_fullcmc ra_caller cmc_body) as [s [resp|e|]] eqn:Es; [|discriminate E..]. clear E.
  exists s, resp. unfold example_fullcmc in Es.
  destruct (fullcmc_answer _ _ _ _ _ _ cmc_outside _ _ _ _ _ _ eq_refl Es)
    as (der & ca & key & data & rs & _ & _ & _ & _ & _ & Hacc).
  exists ca, key, data, rs. split; [reflexivity|]. exact Hacc.
Defined.

(** The second certificate has the serial number of the first: the answer
    lists its request as failed, and still has status 200. *)
Example second_part_failed :
  let r := example_fullcmc ra_caller cmc_body in
  length (certificates r.1) = 1%nat /\
  exists resp, r.2 = Ok resp /\ Errors.status resp = 200 /\
    exists der, decode_est_base64 example_unb64 (Errors.body resp) = Ok der /\
      take 10 (drop 2 der) = [1; 1; 2; 2; 3; 3; 3; 4; 7; 7].
Proof. vm_compute. split; [reflexivity|]. eexists. split; [reflexivity|]. split; [reflexivity|]. eexists. by split. Qed.

(** A message is accepted from any client of the CA: only the TLS
    certificate is asked for the purpose of a registration authority. *)
Example signer_need_not_be_ra : exists s resp,
  example_fullcmc ra_caller cmc_body = (s, Ok resp) /\
  signer_subject_dn <$> (match verify_cms_signed_data example_now cmc_message [example_anchor] with
                         | Ok r => Some r | _ => None end) = Some ("CN=" +:+ string_of_bytes [1]).
Proof. eexists _, _. by split; vm_compute. Qed.
Example other_caller_refused :
  (example_fullcmc example_caller cmc_body).2 =
  Err (EAuth "CMC signer certificate must have id-kp-cmcRA EKU (1.3.6.1.5.5.7.3.28)").
Proof. vm_compute. reflexivity. Qed.

(** The refusal of a later request leaves the certificate of an earlier one:
    the second names nobody. *)
Example refused_after_issuing :
  let body := example_b64 (example_message (tagged 1 65 ++ tagged 2 99 ++ replicate 50 0) (example_attributes 64)) in
  length (certificates (example_fullcmc ra_caller body).1) = 1%nat /\
  exists e, (example_fullcmc ra_caller body).2 = Err (EForbidden e).
Proof. vm_compute. split; [reflexivity|]. eexists. reflexivity. Qed.
