(* ===== verification/CmsEst.v ===== *)
(** * EST under CMS

    [src/routes/cms_est.rs] and [src/config/cms_est.rs] (RFC 8295): the four
    handlers that take EST requests in signed messages and answer with
    encrypted ones, for deployments where a proxy ends TLS. *)
From S2P Require Import Prelude Words Text Errors Calendar X509 Der DerReader Issuance AuditLog NameMatch EnrollAuthz FailureTracker BasicOtp Transfer DogtagPool Enroll Labels Ocsp Revocation CmsAuth EstAuth Cmc KeyGen ServerKeygen.
Open Scope Z_scope.

(** ** [CmsEstConfig] *)

Record CmsEstConfig : Type := MkCmsEstConfig {
  cms_est_enabled : bool;
  require_signed_requests : bool;
  encrypt_responses : bool;
  allowed_content_encryption : list string
}.
Definition default_allowed_content_encryption : list string := ["AES-256-GCM"; "AES-128-GCM"]%string.
Definition cms_est_config_default : CmsEstConfig :=
  MkCmsEstConfig false true true default_allowed_content_encryption.

(** [CmsEstConfig::validate] *)
Definition validate_cms_est (c : CmsEstConfig) : outcome unit string :=
  if encrypt_responses c && bool_decide (allowed_content_encryption c = []) then
    Err "[cms_est].allowed_content_encryption must not be empty when encrypt_responses is true"
  else Ok tt.

Definition CONTENT_TYPE_PKCS7 : string := "application/pkcs7-mime".
Definition build_cms_response (code : Z) (body : bytes) : Response :=
  MkResponse code {["content-type" := CONTENT_TYPE_PKCS7]} body.

(** The paths under [/.well-known/est/cms]. *)
Inductive CmsOperation : Type := CmsEnroll | CmsReenroll | CmsKeygen | CmsFullCmc.
#[export] Instance CmsOperation_eq_dec : EqDecision CmsOperation.
Proof. solve_decision. Defined.
Definition operation_name (op : CmsOperation) : string :=
  match op with
  | CmsEnroll => "simpleenroll" | CmsReenroll => "simplereenroll"
  | CmsKeygen => "serverkeygen" | CmsFullCmc => "fullcmc"
  end.

(** The outside of one issuance. *)
Record IssueOutside `{X509Lib} : Type := MkIssueOutside {
  io_profile_now : Z;
  io_inputs : IssueInputs Coins;
  io_read_file : string -> bytes + string;
  io_utf8_text : bytes -> string;
  io_insert : InsertFaults;
  io_event : AuditCall
}.
Arguments MkIssueOutside {_}.

(** The sections of the configuration and what a call reads from outside. *)
Record CmsOutside `{X509Lib} `{KeyGenLib} {Seal : Type} : Type := MkCmsOutside {
  ce_config : option CmsEstConfig;
  ce_serverkeygen : bool;
  ce_fullcmc : bool;
  ce_now : Z;
  ce_revocation : bytes -> outcome unit string;
  ce_admission : AuditCall;
  ce_event : AuditCall;
  ce_issue : nat -> IssueOutside;
  ce_seed : Seed;
  ce_csr_coins : Coins;
  ce_sign_coins : Coins;
  ce_seal : Seal
}.
Arguments CmsOutside {_ _} Seal.
Arguments MkCmsOutside {_ _ Seal}.

Section CmsEst.
Context `{HL : X509Lib} `{HC : CmsOids} `{HE : Encoder} `{HD : Decoder} `{HO : !OcspLib} `{HR : !CrlLib}
  `{HM : !CmsLib} `{HB : !CmcLib} `{HK : KeyGenLib} `{HS : !SskgLib}.
Variable authz_reason : AuthzError -> string.
Variable to_lowercase : string -> string.
Variable b64_encode : bytes -> bytes.
Variable digest : option bytes -> bytes -> string.
Variable json_object : list (string * string) -> string.

Abbreviation Outcome := (fun T => AppState * outcome T KipukaError)%type.
Abbreviation CmsCall := (CmsOutside EncCoins).

(** ** The message *)

Definition get_cms_est_config (o : CmsCall) : outcome CmsEstConfig KipukaError :=
  match ce_config o with
  | Some cfg => if cms_est_enabled cfg then Ok cfg else Err (EEst "CMS-EST is not enabled")
  | None => Err (EEst "CMS-EST is not enabled")
  end.

(** In the order of the hash map, which [existsb] does not depend on. *)
Definition build_truststore (app : AppConfig) : list bytes :=
  concat (map (fun ca => ca_cert_chain ca.2) (map_to_list (cas app))).

(** The part of the configuration that the operation needs. *)
Definition operation_enabled (o : CmsCall) (op : CmsOperation) : outcome unit KipukaError :=
  match op with
  | CmsKeygen =>
      if ce_serverkeygen o then Ok tt else Err (EEst "server-side key generation is not enabled")
  | CmsFullCmc => if ce_fullcmc o then Ok tt else Err (EEst "Full CMC is not enabled")
  | _ => Ok tt
  end.

(** What every handler does before the admission. *)
Definition accept_cms (app : AppConfig) (o : CmsCall) (op : CmsOperation) (l : LabelExtractor) (body : bytes)
  : outcome (CmsEstConfig * CmsVerificationResult * AuthResult) KipukaError :=
  let? cfg := get_cms_est_config o in
  if default (disconnected (est app)) (label_deferred l) then
    Err (EServiceUnavailable
      "CMS enrollment is unavailable in disconnected mode; use queued EST simpleenroll")
  else if negb (permits app l ACms) then
    Err (EForbidden "CMS authentication is not permitted for this label")
  else
    let? _ := operation_enabled o op in
    if bool_decide (body = []) then Err (EBadRequest "empty CMS SignedData request body")
    else
      let? r := verify_cms_signed_data (ce_now o) body (build_truststore app) in
      let? _ := map_err EAuth (ce_revocation o (signer_cert_der r)) in
      let? auth := extract_signer_identity r in
      Ok (cfg, r, auth).

(** ** Shared steps *)

Definition issue_certificate_from_csr (app : AppConfig) (io : IssueOutside) (s : AppState) (ca_id : string)
    (csr_der : bytes) : Outcome bytes :=
  let prepared :=
    let? ca := ok_or (get_ca app ca_id) ENotFound in
    let? cfg := ok_or (List.find (fun c => String.eqb (cfg_id c) ca_id) (ca_configs app))
      (ECa ("CA config not found for id=" +:+ ca_id)) in
    let? key := Issuance.resolve_signing_key (io_utf8_text io) (io_read_file io) cfg (hsm app) in
    let p := label_profile ca (io_profile_now io) in
    let? r := map_err kipuka_of_issuance
      (Issuance.issue_certificate (io_inputs io) csr_der p (ca_cert_der ca) key (ca_hash_algorithm ca)
         (ca_ocsp_url ca) (ca_crl_url ca)) in
    Ok (profile_name p, r) in
  let! (s, (name, r)) := (s, prepared) in
  let! (s, _) := persist_certificate digest json_object s (io_insert io) (io_event io) ca_id name r in
  (s, Ok (certificate_der r)).

Definition denied (s : AppState) (o : CmsCall) (op : CmsOperation) (ca_id identity reason : string) : AppState :=
  record_audit_event_with_actor digest json_object s ("cms_" +:+ operation_name op +:+ "_denied") identity
    ("ca_id=" +:+ ca_id +:+ ", identity=" +:+ identity +:+ ", reason=" +:+ reason) (ce_event o).

Abbreviation authorization der identity policy :=
  (authorize_csr_der csr_subject_attrs csr_sans (fun d => of_lib id (csr_from_der d)) der identity policy).

(** The names of the request, the refusal on record. *)
Definition authorize_or_deny (s : AppState) (o : CmsCall) (op : CmsOperation) (l : LabelExtractor)
    (identity : string) (csr_der : bytes) : Outcome unit :=
  match authorization csr_der identity (enroll_policy l) with
  | Err reason =>
      (denied s o op (label_ca l) identity (authz_reason reason),
       Err (EForbidden ("enrollment not authorized: " +:+ authz_reason reason)))
  | Panic => (s, Panic)
  | Ok _ => (s, Ok tt)
  end.

(** Issuance for a request of the client's, a bad one on record. *)
Definition issue_or_deny (app : AppConfig) (s : AppState) (o : CmsCall) (op : CmsOperation) (l : LabelExtractor)
    (identity : string) (csr_der : bytes) : Outcome bytes :=
  match issue_certificate_from_csr app (ce_issue o 0) s (label_ca l) csr_der with
  | (s, Err e) =>
      (match e with
       | EBadRequest _ => denied s o op (label_ca l) identity (kipuka_error_to_string e)
       | _ => s
       end, Err e)
  | r => r
  end.

Definition first_algorithm (cfg : CmsEstConfig) : string :=
  match allowed_content_encryption cfg with a :: _ => a | [] => "AES-256-GCM" end.
Definition sealed (o : CmsCall) (cfg : CmsEstConfig) (signer content : bytes) : outcome bytes KipukaError :=
  build_cms_enveloped_data (ce_seal o) content signer (first_algorithm cfg).
Definition sealed_if_asked (o : CmsCall) (cfg : CmsEstConfig) (signer content : bytes) : outcome bytes KipukaError :=
  if encrypt_responses cfg then sealed o cfg signer content else Ok content.

(** The event of the success and the response. *)
Definition finish_cms (s : AppState) (o : CmsCall) (op : CmsOperation) (ca_id identity : string) (content : bytes)
  : Outcome Response :=
  (record_audit_event digest json_object s ("cms_" +:+ operation_name op +:+ "_success")
     ("ca_id=" +:+ ca_id +:+ ", identity=" +:+ identity) (ce_event o),
   Ok (build_cms_response 200 content)).

(** ** The handlers, from the admitted message on *)

Definition check_csr_length (csr_der : bytes) : outcome unit KipukaError :=
  if Z.of_nat (length csr_der) <? 60 then Err (EBadRequest "extracted CSR is too short to be valid") else Ok tt.

(** The request has the signer's subject. *)
Definition cms_pop_linking (r : CmsVerificationResult) (csr_der : bytes) : outcome unit KipukaError :=
  let? csr := of_lib (fun e => EBadRequest ("CSR parse failed for POP linking: " +:+ e)) (csr_from_der csr_der) in
  let? subject := of_lib (fun e => EBadRequest ("CSR subject encode failed: " +:+ e)) (csr_subject csr) in
  let csr_dn := format_dn subject in
  if negb (String.eqb (to_lowercase (trim (signer_subject_dn r))) (to_lowercase (trim csr_dn))) then
    Err (EForbidden ("POP linking failed: CSR subject '" +:+ csr_dn +:+ "' does not match CMS signer subject '" +:+
      signer_subject_dn r +:+ "'"))
  else Ok tt.

(** [post_cms_simpleenroll], and [post_cms_simplereenroll] with its link. *)
Definition cms_enroll (app : AppConfig) (o : CmsCall) (op : CmsOperation) (s : AppState) (l : LabelExtractor)
    (cfg : CmsEstConfig) (r : CmsVerificationResult) (identity : string) : Outcome Response :=
  let csr_der := payload r in
  let! (s, _) := (s, check_csr_length csr_der) in
  let! (s, _) := (s, if bool_decide (op = CmsReenroll) then cms_pop_linking r csr_der else Ok tt) in
  let! (s, _) := authorize_or_deny s o op l identity csr_der in
  let! (s, cert) := issue_or_deny app s o op l identity csr_der in
  let! (s, content) :=
    (s, let? pkcs7 := build_certs_only_pkcs7 [cert] in sealed_if_asked o cfg (signer_cert_der r) pkcs7) in
  finish_cms s o op (label_ca l) identity content.

(** A fresh key pair and the request signed with it. *)
Definition cms_keygen_request (o : CmsCall) (template : bytes) : outcome (KeyGenResult * bytes) KipukaError :=
  let? g := map_err (fun e => ECa ("CMS key generation failed: " +:+ keygen_error_to_string e))
    (generate_key_pair (ce_seed o) (detect_key_type_from_csr template) keygen_config_default) in
  let? csr := build_keygen_csr (ce_csr_coins o) template (public_key_der g) (private_key_der g) in
  Ok (g, csr).

Definition post_cms_serverkeygen (app : AppConfig) (o : CmsCall) (s : AppState) (l : LabelExtractor)
    (cfg : CmsEstConfig) (r : CmsVerificationResult) (identity : string) : Outcome Response :=
  let template := payload r in
  let! (s, _) := authorize_or_deny s o CmsKeygen l identity template in
  let! (s, (g, csr)) := (s, cms_keygen_request o template) in
  let! (s, cert) := issue_certificate_from_csr app (ce_issue o 0) s (label_ca l) csr in
  let! (s, content) :=
    (s, let? pkcs7 := build_certs_only_pkcs7 [cert] in
        sealed o cfg (signer_cert_der r) (build_multipart_response b64_encode pkcs7 (private_key_der g))) in
  finish_cms s o CmsKeygen (label_ca l) identity content.

(** ** [post_cms_fullcmc] *)

Definition signer_is_cmc_ra (signer : bytes) : outcome unit KipukaError :=
  let? cert := of_lib (fun e => EBadRequest ("failed to parse CMS signer certificate for EKU check: " +:+ e))
    (cert_from_der signer) in
  let oids :=
    match cert_extensions cert ≫= (fun exts => find_extension_value exts EXTENDED_KEY_USAGE) with
    | Some v => match decode_oids v with inl l => l | inr _ => [] end
    | None => []
    end in
  if existsb (fun x => String.eqb (oid_to_string x) CMC_RA_EKU_OID) oids then Ok tt
  else Err (EForbidden "CMC signer certificate must have id-kp-cmcRA EKU (1.3.6.1.5.5.7.3.28)").

(** The inner message: unwrapped, its own signature not looked at. *)
Definition inner_pki_data (cmc_request_der : bytes) : outcome (PkiData Control * list CmcRequest) KipukaError :=
  let? (content, _) := of_lib (fun e => EBadRequest ("CMC inner SignedData unwrap failed: " +:+ e))
    (unwrap_signed_cmc cmc_request_der) in
  if bool_decide (content = []) then Err (EBadRequest "CMC inner SignedData has empty eContent")
  else
    let? data := of_lib (fun e => EBadRequest ("CMC PKIData parse failed: " +:+ e)) (parse_pki_data content) in
    if bool_decide (req_sequence data = []) then
      Err (EBadRequest "CMC request contains no certification requests")
    else
      let? requests := cmc_requests data in
      Ok (data, requests).

(** One request; a failed issuance is not on record. *)
Definition cms_entry (app : AppConfig) (io : IssueOutside) (s : AppState) (l : LabelExtractor) (identity : string)
    (t : CmcTally) (entry : CmcRequest) : Outcome CmcTally :=
  let i := body_part_id entry in
  if request_type entry =? 0 then
    let! (s, _) := (s, map_err (fun e => EForbidden (authz_reason e))
                         (authorization (request_der entry) identity (enroll_policy l))) in
    match issue_certificate_from_csr app io s (label_ca l) (request_der entry) with
    | (s, Ok cert) => (s, Ok (tally_issued t cert i))
    | (s, Err _) => (s, Ok (tally_failed t i))
    | (s, Panic) => (s, Panic)
    end
  else (s, Ok (tally_failed t i)).

Fixpoint cms_entries (app : AppConfig) (ios : nat -> IssueOutside) (n : nat) (s : AppState) (l : LabelExtractor)
    (identity : string) (t : CmcTally) (entries : list CmcRequest) : Outcome CmcTally :=
  match entries with
  | [] => (s, Ok t)
  | entry :: entries =>
      let! (s, t) := cms_entry app (ios n) s l identity t entry in
      cms_entries app ios (S n) s l identity t entries
  end.

(** The signed PKIResponse; it has no nonce of the server's.  The key is
    resolved again. *)
Definition cms_cmc_answer (app : AppConfig) (o : CmsCall) (io : IssueOutside) (ca_id : string)
    (data : PkiData Control) (t : CmcTally) : outcome bytes KipukaError :=
  let? der := build_pki_response t (extract_sender_nonce (control_sequence data)) None in
  let? ca := ok_or (get_ca app ca_id) ENotFound in
  let? cfg := ok_or (List.find (fun c => String.eqb (cfg_id c) ca_id) (ca_configs app)) ENotFound in
  let? key := Issuance.resolve_signing_key (io_utf8_text io) (io_read_file io) cfg (hsm app) in
  let? der := cmc_transaction der (extract_transaction_id (control_sequence data)) in
  signed_cmc (ce_sign_coins o) der (issued_certs t) (ca_cert_der ca) key (ca_hash_algorithm ca).

Definition post_cms_fullcmc (app : AppConfig) (o : CmsCall) (s : AppState) (l : LabelExtractor)
    (cfg : CmsEstConfig) (r : CmsVerificationResult) (identity : string) : Outcome Response :=
  let! (s, (data, requests)) :=
    (s, let? _ := signer_is_cmc_ra (signer_cert_der r) in inner_pki_data (payload r)) in
  let! (s, t) := cms_entries app (ce_issue o) 0 s l identity (MkTally [] [] []) requests in
  let! (s, content) :=
    (s, let? der := cms_cmc_answer app o (ce_issue o (length requests)) (label_ca l) data t in
        sealed_if_asked o cfg (signer_cert_der r) der) in
  finish_cms s o CmsFullCmc (label_ca l) identity content.

(** ** [cms_est_router] *)

Definition cms_est_router (app : AppConfig) (o : CmsCall) (op : CmsOperation) (s : AppState) (l : LabelExtractor)
    (body : bytes) : Outcome Response :=
  let! (s, (cfg, r, auth)) := (s, accept_cms app o op l body) in
  let identity := auth_identity auth in
  let! (s, _) := admit_enrollment digest json_object s identity "cms_est" (ce_admission o) in
  match op with
  | CmsEnroll | CmsReenroll => cms_enroll app o op s l cfg r identity
  | CmsKeygen => post_cms_serverkeygen app o s l cfg r identity
  | CmsFullCmc => post_cms_fullcmc app o s l cfg r identity
  end.
End CmsEst.
