(* ===== verification/CmsEstSpec.v ===== *)
(** * What EST under CMS guarantees

    Of CmsEst.v, composed with CmsAuth.v, issuance and the audit trail: for
    whom a certificate can be stored, and who can read an answer. *)
From S2P Require Import Prelude Words Text Errors Calendar X509 Der ExampleLibs DerReader Issuance IssuanceSpec FailureTracker BasicOtp NameMatch EnrollAuthz AuditLog AuditSpec Transfer DogtagPool Enroll EnrollSpec Labels Ocsp ReaderExample OcspSpec Revocation RevocationSpec CmsAuth CmsAuthSpec EstAuth Cmc CmcSpec KeyGen ServerKeygen ServerKeygenSpec CmsEst.
Open Scope Z_scope.

(** One step of a handler: it was taken, or the handler ended with it. *)
Tactic Notation "step" hyp(E) "as" ident(s) simple_intropattern(x) ident(H) ident(N) :=
  apply sbind_inv in E as [(s & x & H & E)|(? & H & ? & N)].

Section CmsEstSpec.
Context `{HL : X509Lib} `{HC : CmsOids} `{HE : Encoder} `{HD : Decoder} `{HO : !OcspLib} `{HR : !CrlLib}
  `{HM : !CmsLib} `{HB : !CmcLib} `{HK : KeyGenLib} `{HS : !SskgLib}.
Variable authz_reason : AuthzError -> string.
Variable to_lowercase : string -> string.
Variable b64_encode : bytes -> bytes.
Variable digest : option bytes -> bytes -> string.
Variable json_object : list (string * string) -> string.

Abbreviation CmsCall := (CmsOutside EncCoins).
Abbreviation issue_certificate_from_csr := (issue_certificate_from_csr digest json_object).
Abbreviation cms_est_router := (cms_est_router authz_reason to_lowercase b64_encode digest json_object).
Abbreviation cms_enroll := (cms_enroll authz_reason to_lowercase digest json_object).
Abbreviation post_cms_serverkeygen := (post_cms_serverkeygen authz_reason b64_encode digest json_object).
Abbreviation post_cms_fullcmc := (post_cms_fullcmc authz_reason digest json_object).
Abbreviation cms_entries := (cms_entries authz_reason digest json_object).
Abbreviation authorization der identity policy :=
  (authorize_csr_der csr_subject_attrs csr_sans (fun d => of_lib id (csr_from_der d)) der identity policy).

(** ** The message *)

(** The message is authentic, its signer is not revoked, and CMS is on, for
    this label too. *)
Definition cms_accepted (app : AppConfig) (o : CmsCall) (op : CmsOperation) (l : LabelExtractor) (body : bytes)
    (cfg : CmsEstConfig) (r : CmsVerificationResult) : Prop :=
  ce_config o = Some cfg /\ cms_est_enabled cfg = true /\
  default (disconnected (est app)) (label_deferred l) = false /\ permits app l ACms = true /\
  operation_enabled o op = Ok tt /\
  message_authentic (ce_now o) body (build_truststore app) r /\
  ce_revocation o (signer_cert_der r) = Ok tt /\ signer_subject_dn r <> EmptyString.

Lemma accept_cms_Ok app o op l body cfg r auth :
  accept_cms app o op l body = Ok (cfg, r, auth) ->
  cms_accepted app o op l body cfg r /\ auth_identity auth = signer_subject_dn r.
Proof.
  unfold accept_cms. intros E. take_ok E as c E1. destruct (default _ _) eqn:Hd; [done|].
  destruct (permits app l ACms) eqn:Hp; [|done]. cbn [negb] in E. take_ok E as u E2. destruct u.
  case_bool_decide; [done|]. take_ok E as v E3. take_ok E as u E4. destruct u. take_ok E as a E5.
  injection E as -> -> ->. apply verify_cms_Ok in E3. apply map_err_Ok in E4.
  unfold extract_signer_identity in E5. destruct (is_empty (signer_subject_dn r)) eqn:Hs; [done|].
  injection E5 as <-. split; [|done]. unfold get_cms_est_config in E1.
  destruct (ce_config o) as [c|] eqn:Hc; [|done]. destruct (cms_est_enabled c) eqn:Hen; [|done].
  injection E1 as <-. repeat (split; [done|]). intros H0. by rewrite H0 in Hs.
Qed.

(** ** One certificate *)

(** The row of a certificate that the CA issued for the request. *)
Definition cms_row (app : AppConfig) (io : IssueOutside) (ca_id : string) (csr_der : bytes) (row : CertRow) : Prop :=
  exists ca cfg key res c, get_ca app ca_id = Some ca /\ In cfg (ca_configs app) /\ cfg_id cfg = ca_id /\
    Issuance.resolve_signing_key (io_utf8_text io) (io_read_file io) cfg (hsm app) = Ok key /\
    Issuance.issue_certificate (io_inputs io) csr_der (label_profile ca (io_profile_now io)) (ca_cert_der ca) key
      (ca_hash_algorithm ca) (ca_ocsp_url ca) (ca_crl_url ca) = Ok res /\
    cert_from_der (certificate_der res) = inl c /\
    row = certificate_row res (format_dn (cert_issuer c)) ca_id (profile_name (label_profile ca (io_profile_now io))).

Lemma cms_row_parses app io ca_id csr_der row :
  cms_row app io ca_id csr_der row -> exists csr, csr_from_der csr_der = inl csr.
Proof.
  intros (ca & cfg & key & res & c & _ & _ & _ & _ & Hi & _).
  apply issue_certificate_Ok in Hi as (csr & (_ & Hcsr & _) & _). by exists csr.
Qed.

Lemma issue_from_csr_spec app io s ca_id csr_der s' res :
  issue_certificate_from_csr app io s ca_id csr_der = (s', res) ->
  pending_csrs s' = pending_csrs s /\
  ((exists row, certificates s' = certificates s ++ [row] /\ cms_row app io ca_id csr_der row /\
      Forall (fun q => cr_serial q <> cr_serial row) (certificates s) /\
      forall cert, res = Ok cert -> cert = cr_der row) \/
   (certificates s' = certificates s /\ forall cert, res <> Ok cert)).
Proof.
  unfold CmsEst.issue_certificate_from_csr. intros E. step E as s1 [name r] H1 N.
  2: { injection H1 as -> _. split; [done|]. by right. }
  injection H1 as <- H1. take_ok H1 as ca E1. take_ok H1 as cfg E2. take_ok H1 as key E3. take_ok H1 as r' E4.
  injection H1 as <- ->. apply ok_or_Ok in E1, E2. apply List.find_some in E2 as [Hin Hid%String.eqb_eq].
  apply map_err_Ok in E4.
  assert (Hrow : forall s2 rp, persist_certificate digest json_object s (io_insert io) (io_event io) ca_id
      (profile_name (label_profile ca (io_profile_now io))) r = (s2, rp) ->
    pending_csrs s2 = pending_csrs s /\
    ((exists row, certificates s2 = certificates s ++ [row] /\ cms_row app io ca_id csr_der row /\
      Forall (fun q => cr_serial q <> cr_serial row) (certificates s) /\ certificate_der r = cr_der row) \/
     (certificates s2 = certificates s /\ forall u, rp <> Ok u))).
  { intros s2 rp [Hp Hc]%persist_spec. split; [done|].
    destruct Hc as [(c & Hder & Hc & Hf)|[-> [e ->]]]; [left|by right]. eexists. split; [exact Hc|].
    split; [|by split]. by exists ca, cfg, key, r, c. }
  step E as s2 [] H2 N.
  - apply Hrow in H2 as [Hp Hor]. injection E as <- <-. split; [done|].
    destruct Hor as [(row & Hc & Hr & Hf & Hd)|[_ Hn]]; [|by destruct (Hn tt)].
    left. exists row. split_and!; try done. by intros cert [= <-].
  - apply Hrow in H2 as [Hp Hor]. split; [done|].
    destruct Hor as [(row & Hc & Hr & Hf & Hd)|[Hc _]]; [left|by right].
    exists row. split_and!; try done. by intros cert Hcert%N.
Qed.

(** ** The requests of a message *)

(** The caller may have the names that are asked for. *)
Definition names_allowed (l : LabelExtractor) (identity : string) (csr_der : bytes) : Prop :=
  exists csr, csr_from_der csr_der = inl csr /\
    authorized (csr_subject_cn csr_subject_attrs csr) (csr_sans csr) identity (enroll_policy l).

(** The request is one the signed message makes, for names of its signer's. *)
Definition requested (o : CmsCall) (op : CmsOperation) (l : LabelExtractor) (r : CmsVerificationResult)
    (csr_der : bytes) : Prop :=
  match op with
  | CmsEnroll => csr_der = payload r /\ names_allowed l (signer_subject_dn r) (payload r)
  | CmsReenroll => csr_der = payload r /\ names_allowed l (signer_subject_dn r) (payload r) /\
      exists csr subject, csr_from_der csr_der = inl csr /\ csr_subject csr = inl subject /\
        to_lowercase (trim (format_dn subject)) = to_lowercase (trim (signer_subject_dn r))
  | CmsKeygen => names_allowed l (signer_subject_dn r) (payload r) /\
      exists g, cms_keygen_request o (payload r) = Ok (g, csr_der)
  | CmsFullCmc => signer_is_cmc_ra (signer_cert_der r) = Ok tt /\
      names_allowed l (signer_subject_dn r) csr_der /\
      exists data requests e, inner_pki_data (payload r) = Ok (data, requests) /\ In e requests /\
        csr_der = request_der e
  end.

Definition rows_requested (app : AppConfig) (o : CmsCall) (op : CmsOperation) (l : LabelExtractor)
    (r : CmsVerificationResult) (rows : list CertRow) : Prop :=
  Forall (fun row => exists n csr_der, requested o op l r csr_der /\
    cms_row app (ce_issue o n) (label_ca l) csr_der row) rows.

Lemma names_allowed_intro l identity csr_der csr :
  csr_from_der csr_der = inl csr -> authorization csr_der identity (enroll_policy l) = Ok tt ->
  names_allowed l identity csr_der.
Proof. intros Hc Ha. exists csr. split; [done|]. by eapply authorize_csr_der_Ok. Qed.

(** ** Answers *)

(** The content encrypted to the certificate's key, with an algorithm that
    is supported: the first one configured. *)
Definition encrypted_for (o : CmsCall) (cfg : CmsEstConfig) (recipient content out : bytes) : Prop :=
  exists alg, validate_content_encryption (first_algorithm cfg) = Ok alg /\
    match alg with
    | Aes256Gcm => cms_encrypt (ce_seal o) "aes-256-gcm" content recipient
    | Aes128Gcm => cms_encrypt (ce_seal o) "aes-128-gcm" content recipient
    | Aes256Cbc => create_enveloped_data (ce_seal o) ID_AES256_CBC content recipient
    | Aes128Cbc => create_enveloped_data (ce_seal o) ID_AES128_CBC content recipient
    end = inl out.

Lemma sealed_Ok o cfg signer content out :
  sealed o cfg signer content = Ok out -> encrypted_for o cfg signer content out.
Proof.
  unfold sealed, build_cms_enveloped_data, encrypted_for. case_bool_decide; [done|]. case_bool_decide; [done|].
  destruct (_ <? 100); [done|]. intros E. take_ok E as alg E1. exists alg. split; [done|].
  destruct alg; by apply of_lib_Ok in E.
Qed.

(** How a content is delivered: private keys never in the clear. *)
Definition delivered (o : CmsCall) (op : CmsOperation) (cfg : CmsEstConfig) (r : CmsVerificationResult)
    (content out : bytes) : Prop :=
  if bool_decide (op = CmsKeygen) || encrypt_responses cfg
  then encrypted_for o cfg (signer_cert_der r) content out else out = content.

Lemma sealed_if_asked_Ok o op cfg r content out :
  op <> CmsKeygen -> sealed_if_asked o cfg (signer_cert_der r) content = Ok out ->
  delivered o op cfg r content out.
Proof.
  intros Hop. unfold sealed_if_asked, delivered. rewrite bool_decide_false by done. cbn [orb].
  destruct (encrypt_responses cfg); [apply sealed_Ok|by intros [= <-]].
Qed.

(** What is delivered, given the rows that were added. *)
Definition content_of (app : AppConfig) (o : CmsCall) (op : CmsOperation) (l : LabelExtractor)
    (r : CmsVerificationResult) (rows : list CertRow) (content : bytes) : Prop :=
  match op with
  | CmsEnroll | CmsReenroll => exists row, rows = [row] /\ build_certs_only_pkcs7 [cr_der row] = Ok content
  | CmsKeygen => exists row g csr pkcs7, rows = [row] /\ cms_keygen_request o (payload r) = Ok (g, csr) /\
      (exists io, cms_row app io (label_ca l) csr row) /\
      build_certs_only_pkcs7 [cr_der row] = Ok pkcs7 /\
      content = build_multipart_response b64_encode pkcs7 (private_key_der g)
  | CmsFullCmc => exists ca key message certs, get_ca app (label_ca l) = Some ca /\
      signed_by_issuer (ce_sign_coins o) message certs (ca_cert_der ca) key (ca_hash_algorithm ca) content /\
      incl certs (map cr_der rows)
  end.

(** What a handler does to the tables, and what it answers. *)
Definition handled (app : AppConfig) (o : CmsCall) (op : CmsOperation) (l : LabelExtractor) (cfg : CmsEstConfig)
    (r : CmsVerificationResult) (s s' : AppState) (res : outcome Response KipukaError) : Prop :=
  pending_csrs s' = pending_csrs s /\
  exists rows, certificates s' = certificates s ++ rows /\ rows_requested app o op l r rows /\
    (op <> CmsFullCmc -> (length rows <= 1)%nat) /\
    forall resp, res = Ok resp -> exists content, content_of app o op l r rows content /\
      delivered o op cfg r content (Errors.body resp).

Lemma handled_nothing app o op l cfg r s s' res :
  certificates s' = certificates s -> pending_csrs s' = pending_csrs s -> (forall resp, res <> Ok resp) ->
  handled app o op l cfg r s s' res.
Proof.
  intros Hc Hp Hn. split; [done|]. exists []. rewrite app_nil_r. split_and!; try done; [apply Forall_nil; done|by intros _; cbn; lia|].
  by intros resp ?%Hn.
Qed.

Lemma handled_one app o op l cfg r s s' res row n csr_der :
  certificates s' = certificates s ++ [row] -> pending_csrs s' = pending_csrs s ->
  requested o op l r csr_der -> cms_row app (ce_issue o n) (label_ca l) csr_der row ->
  (forall resp, res = Ok resp -> exists content, content_of app o op l r [row] content /\
     delivered o op cfg r content (Errors.body resp)) ->
  handled app o op l cfg r s s' res.
Proof.
  intros Hc Hp Hr Hrow Hok. split; [done|]. exists [row]. split_and!; try done.
  apply Forall_singleton. by exists n, csr_der.
Qed.

Lemma authorize_or_deny_spec s o op l identity csr_der s' res :
  authorize_or_deny authz_reason digest json_object s o op l identity csr_der = (s', res) ->
  certificates s' = certificates s /\ pending_csrs s' = pending_csrs s /\
  (res = Ok tt -> authorization csr_der identity (enroll_policy l) = Ok tt).
Proof. unfold authorize_or_deny. by destruct (authorization _ _ _) as [[]|e|]; intros [= <- <-]. Qed.

Lemma issue_or_deny_spec app s o op l identity csr_der s' res :
  issue_or_deny digest json_object app s o op l identity csr_der = (s', res) ->
  exists s1, issue_certificate_from_csr app (ce_issue o 0) s (label_ca l) csr_der = (s1, res) /\
    certificates s' = certificates s1 /\ pending_csrs s' = pending_csrs s1.
Proof.
  unfold issue_or_deny. destruct (issue_certificate_from_csr _ _ _ _ _) as [s1 [c|e|]] eqn:E.
  all: intros [= <- <-]; exists s1; split_and!; try done; by destruct e.
Qed.

Lemma cms_pop_linking_Ok r csr_der :
  cms_pop_linking to_lowercase r csr_der = Ok tt ->
  exists csr subject, csr_from_der csr_der = inl csr /\ csr_subject csr = inl subject /\
    to_lowercase (trim (format_dn subject)) = to_lowercase (trim (signer_subject_dn r)).
Proof.
  unfold cms_pop_linking. intros E. take_ok E as csr E1. take_ok E as subject E2. apply of_lib_Ok in E1, E2.
  destruct (String.eqb_spec (to_lowercase (trim (signer_subject_dn r))) (to_lowercase (trim (format_dn subject))));
    [|done]. by exists csr, subject.
Qed.

Lemma cms_enroll_spec app o op s l cfg r s' res :
  op = CmsEnroll \/ op = CmsReenroll ->
  cms_enroll app o op s l cfg r (signer_subject_dn r) = (s', res) -> handled app o op l cfg r s s' res.
Proof.
  intros Hop. assert (Hne : op <> CmsKeygen) by (by destruct Hop; subst). unfold CmsEst.cms_enroll. intros E.
  step E as s1 u H1 N; [injection H1 as <- _|injection H1 as <- _; by apply handled_nothing].
  step E as s1 v H2 N; [injection H2 as <- H2|injection H2 as <- _; by apply handled_nothing]. destruct v.
  step E as s1 w H3 N; apply authorize_or_deny_spec in H3 as (Hc1 & Hp1 & Ha); [|by apply handled_nothing].
  destruct w. specialize (Ha eq_refl).
  step E as s2 cert H4 N; apply issue_or_deny_spec in H4 as (s2' & H4 & Hc2 & Hp2);
    apply issue_from_csr_spec in H4 as [Hp3 Hor].
  2: { destruct Hor as [(row & Hc3 & Hrow & _ & Hok)|[Hc3 _]].
       - destruct (cms_row_parses _ _ _ _ _ Hrow) as [csr Hcsr].
         eapply (handled_one _ _ _ _ _ _ _ _ _ row 0); [congruence..| |exact Hrow|by intros resp ?%N].
         pose proof (names_allowed_intro _ _ _ _ Hcsr Ha).
         destruct Hop as [->| ->]; [by split|]. split; [done|]. split; [done|]. by apply cms_pop_linking_Ok.
       - apply handled_nothing; [congruence..|done]. }
  destruct Hor as [(row & Hc3 & Hrow & _ & Hok)|[_ Hn]]; [|by destruct (Hn cert)]. specialize (Hok cert eq_refl).
  destruct (cms_row_parses _ _ _ _ _ Hrow) as [csr Hcsr]. pose proof (names_allowed_intro _ _ _ _ Hcsr Ha).
  assert (Hreq : requested o op l r (payload r)).
  { destruct Hop as [->| ->]; [by split|]. split; [done|]. split; [done|]. by apply cms_pop_linking_Ok. }
  step E as s3 content H5 N.
  - injection H5 as <- H5. take_ok H5 as pkcs7 E1. apply (sealed_if_asked_Ok _ op) in H5; [|done].
    injection E as <- <-. eapply (handled_one _ _ _ _ _ _ _ _ _ row 0); [cbn; congruence..|done|exact Hrow|].
    intros resp [= <-]. exists pkcs7. split; [|done]. subst cert.
    destruct Hop as [->| ->]; by exists row.
  - injection H5 as <- H5. eapply (handled_one _ _ _ _ _ _ _ _ _ row 0); [congruence..|done|exact Hrow|].
    by intros resp ?%N.
Qed.

Lemma build_keygen_csr_parses coins template pub priv csr :
  build_keygen_csr coins template pub priv = Ok csr -> exists t, csr_from_der template = inl t.
Proof. unfold build_keygen_csr. intros E. take_ok E as t E1. apply of_lib_Ok in E1. by exists t. Qed.

Lemma cms_keygen_spec app o s l cfg r s' res :
  post_cms_serverkeygen app o s l cfg r (signer_subject_dn r) = (s', res) ->
  handled app o CmsKeygen l cfg r s s' res.
Proof.
  unfold CmsEst.post_cms_serverkeygen. intros E.
  step E as s1 w H3 N; apply authorize_or_deny_spec in H3 as (Hc1 & Hp1 & Ha); [|by apply handled_nothing].
  destruct w. specialize (Ha eq_refl).
  step E as s2 [g csr] H1 N; [injection H1 as <- H1|injection H1 as <- _; by apply handled_nothing].
  assert (Hreq : requested o CmsKeygen l r csr).
  { pose proof H1 as Hk. unfold cms_keygen_request in Hk. take_ok Hk as g' E1. take_ok Hk as c' E2.
    apply build_keygen_csr_parses in E2 as [t Ht]. split; [|by exists g]. by eapply names_allowed_intro. }
  step E as s3 cert H4 N; apply issue_from_csr_spec in H4 as [Hp3 Hor].
  2: { destruct Hor as [(row & Hc3 & Hrow & _)|[Hc3 _]].
       - eapply (handled_one _ _ _ _ _ _ _ _ _ row 0); [congruence..|done|exact Hrow|by intros resp ?%N].
       - apply handled_nothing; [congruence..|done]. }
  destruct Hor as [(row & Hc3 & Hrow & _ & Hok)|[_ Hn]]; [|by destruct (Hn cert)]. specialize (Hok cert eq_refl).
  step E as s4 content H5 N; injection H5 as <- H5.
  - take_ok H5 as pkcs7 E1. apply sealed_Ok in H5. injection E as <- <-.
    eapply (handled_one _ _ _ _ _ _ _ _ _ row 0); [cbn; congruence..|done|exact Hrow|].
    intros resp [= <-]. eexists. split; [|exact H5]. exists row, g, csr, pkcs7. subst cert. split_and!; try done.
    by exists (ce_issue o 0).
  - eapply (handled_one _ _ _ _ _ _ _ _ _ row 0); [congruence..|done|exact Hrow|]. by intros resp ?%N.
Qed.

(** ** Full CMC in a message *)

Definition entry_row (app : AppConfig) (ios : nat -> IssueOutside) (l : LabelExtractor) (identity : string)
    (e : CmcRequest) (row : CertRow) : Prop :=
  names_allowed l identity (request_der e) /\ exists n, cms_row app (ios n) (label_ca l) (request_der e) row.

Lemma cms_entry_spec app ios n s l identity t e s' res :
  cms_entry authz_reason digest json_object app (ios n) s l identity t e = (s', res) ->
  pending_csrs s' = pending_csrs s /\
  exists rows, certificates s' = certificates s ++ rows /\ Forall (entry_row app ios l identity e) rows /\
    forall t', res = Ok t' -> exists certs, issued_certs t' = issued_certs t ++ certs /\ incl certs (map cr_der rows).
Proof.
  assert (Hnone : forall s2 (r2 : outcome CmcTally KipukaError), certificates s2 = certificates s ->
    pending_csrs s2 = pending_csrs s -> (forall t', r2 = Ok t' -> issued_certs t' = issued_certs t) ->
    pending_csrs s2 = pending_csrs s /\
    exists rows, certificates s2 = certificates s ++ rows /\ Forall (entry_row app ios l identity e) rows /\
      forall t', r2 = Ok t' -> exists certs, issued_certs t' = issued_certs t ++ certs /\ incl certs (map cr_der rows)).
  { intros s2 r2 Hc Hp Ht. split; [done|]. exists []. rewrite app_nil_r. split; [done|]. split; [by apply Forall_nil|].
    intros t' Hr%Ht. exists []. rewrite app_nil_r, Hr. split; [done|apply incl_nil_l]. }
  unfold cms_entry. destruct (request_type e =? 0); [|intros [= <- <-]; apply Hnone; [done..|by intros t' [= <-]]].
  intros E. step E as s1 u H1 N; injection H1 as <- H1; [|apply Hnone; [done..|by intros t' ?%N]].
  apply map_err_Ok in H1. destruct u.
  destruct (issue_certificate_from_csr _ _ _ _ _) as [s2 rc] eqn:Ei. apply issue_from_csr_spec in Ei as [Hp Hor].
  assert (Hrow : forall row, cms_row app (ios n) (label_ca l) (request_der e) row ->
    Forall (entry_row app ios l identity e) [row]).
  { intros row Hr. apply Forall_singleton. split; [|by exists n].
    destruct (cms_row_parses _ _ _ _ _ Hr) as [csr Hcsr]. by eapply names_allowed_intro. }
  destruct rc as [cert|x|]; injection E as <- <-.
  - destruct Hor as [(row & Hc & Hr & _ & Hok)|[_ Hn]]; [|by destruct (Hn cert)]. split; [done|].
    exists [row]. split; [done|]. split; [by apply Hrow|]. intros t' [= <-]. exists [cert]. split; [done|].
    rewrite (Hok cert eq_refl). by intros z [<-|[]]; left.
  - destruct Hor as [(row & Hc & Hr & _)|[Hc _]]; [|apply Hnone; [done..|by intros t' [= <-]]]. split; [done|].
    exists [row]. split; [done|]. split; [by apply Hrow|]. intros t' [= <-]. exists []. rewrite app_nil_r. split; [done|apply incl_nil_l].
  - destruct Hor as [(row & Hc & Hr & _)|[Hc _]]; [|by apply Hnone]. split; [done|].
    exists [row]. split; [done|]. split; [by apply Hrow|]. done.
Qed.

Lemma cms_entries_spec app ios l identity es : forall n s t s' res,
  cms_entries app ios n s l identity t es = (s', res) ->
  pending_csrs s' = pending_csrs s /\
  exists rows, certificates s' = certificates s ++ rows /\
    Forall (fun row => exists e, In e es /\ entry_row app ios l identity e row) rows /\
    forall t', res = Ok t' -> exists certs, issued_certs t' = issued_certs t ++ certs /\ incl certs (map cr_der rows).
Proof.
  induction es as [|e es IH]; intros n s t s' res; cbn [CmsEst.cms_entries].
  { intros [= <- <-]. split; [done|]. exists []. rewrite app_nil_r. split; [done|]. split; [by apply Forall_nil|].
    intros t' [= <-]. exists []. rewrite app_nil_r. split; [done|apply incl_nil_l]. }
  assert (Hhere : forall row, entry_row app ios l identity e row ->
    exists e', In e' (e :: es) /\ entry_row app ios l identity e' row) by (intros row ?; exists e; split; [by left|done]).
  intros E. step E as s1 t1 H1 N; apply cms_entry_spec in H1 as [Hp1 (rows1 & Hc1 & Hf1 & Ht1)].
  - apply IH in E as [Hp2 (rows2 & Hc2 & Hf2 & Ht2)]. split; [congruence|]. exists (rows1 ++ rows2).
    split; [by rewrite Hc2, Hc1, app_assoc|]. split.
    + apply Forall_app. split; [eapply Forall_impl; [exact Hf1|exact Hhere]|].
      eapply Forall_impl; [exact Hf2|]. intros row (e' & Hin & Hr). exists e'. split; [by right|done].
    + intros t' Ht'. destruct (Ht1 t1 eq_refl) as (c1 & Hi1 & Hin1). destruct (Ht2 t' Ht') as (c2 & Hi2 & Hin2).
      exists (c1 ++ c2). split; [by rewrite Hi2, Hi1, app_assoc|]. rewrite map_app. by apply incl_app_app.
  - split; [done|]. exists rows1. split; [done|]. split; [eapply Forall_impl; [exact Hf1|exact Hhere]|].
    by intros t' ?%N.
Qed.

Lemma cms_fullcmc_spec app o s l cfg r s' res :
  post_cms_fullcmc app o s l cfg r (signer_subject_dn r) = (s', res) ->
  handled app o CmsFullCmc l cfg r s s' res.
Proof.
  unfold CmsEst.post_cms_fullcmc. intros E.
  step E as s1 [data requests] H1 N; [injection H1 as <- H1|injection H1 as <- _; by apply handled_nothing].
  take_ok H1 as u E1. destruct u.
  step E as s2 t H2 N; apply cms_entries_spec in H2 as [Hp (rows & Hc & Hf & Ht)].
  all: assert (Hreq : rows_requested app o CmsFullCmc l r rows) by
    (eapply Forall_impl; [exact Hf|]; intros row (e & Hin & Hn & (n & Hr)); exists n, (request_der e);
     split; [|done]; split; [done|]; split; [done|]; by exists data, requests, e).
  2: { split; [done|]. exists rows. split_and!; try done. by intros resp ?%N. }
  destruct (Ht t eq_refl) as (certs & Hi & Hincl). cbn in Hi. subst certs.
  step E as s3 content H3 N; injection H3 as <- H3.
  2: { split; [done|]. exists rows. split_and!; try done. by intros resp ?%N. }
  take_ok H3 as der E2. apply (sealed_if_asked_Ok _ CmsFullCmc) in H3; [|done]. injection E as <- <-.
  split; [done|]. exists rows. split_and!; try done. intros resp [= <-]. exists der. split; [|done].
  unfold cms_cmc_answer in E2. take_ok E2 as d1 E3. take_ok E2 as ca E4. take_ok E2 as c E5. take_ok E2 as key E6.
  take_ok E2 as d2 E7. apply signed_cmc_Ok in E2. apply ok_or_Ok in E4. by exists ca, key, d2, (issued_certs t).
Qed.

(** ** The theorems *)

Lemma cms_est_router_spec app o op s l body s' res :
  cms_est_router app o op s l body = (s', res) ->
  (certificates s' = certificates s /\ pending_csrs s' = pending_csrs s /\ forall resp, res <> Ok resp) \/
  exists cfg r s1, cms_accepted app o op l body cfg r /\
    admitted json_object s s1 (signer_subject_dn r) "cms_est" (ce_admission o) /\
    handled app o op l cfg r s s' res.
Proof.
  unfold CmsEst.cms_est_router. intros E.
  step E as s0 [[cfg r] auth] H1 N; injection H1 as <- H1; [|by left].
  apply accept_cms_Ok in H1 as [Hacc Hid]. rewrite Hid in E.
  pose proof (admit_enrollment_frame digest json_object s (signer_subject_dn r) "cms_est" (ce_admission o)) as [Hc1 Hp1].
  step E as s1 u H2 N; rewrite H2 in Hc1, Hp1; cbn [fst] in Hc1, Hp1; [|left; by split_and!].
  destruct u. apply admit_enrollment_Ok in H2. right. exists cfg, r, s1. split; [done|]. split; [done|].
  assert (Hh : handled app o op l cfg r s1 s' res).
  { destruct op; [eapply cms_enroll_spec; [by left|exact E]|eapply cms_enroll_spec; [by right|exact E]
      |by apply cms_keygen_spec|by apply cms_fullcmc_spec]. }
  destruct Hh as [Hp (rows & Hc & Hrest)]. split; [congruence|]. exists rows. by rewrite Hc, Hc1.
Qed.

(** C24: EST over CMS enrolls the signer only.  A call that changes the
    table of certificates came in an authentic message: CMS is enabled and
    permitted for the label, the content was signed with the key of a
    certificate that is currently valid, not revoked, and vouched for by a
    chain of the server's, and the admission was recorded under the signer's
    subject.  Each row added is of a certificate that the label's CA issued
    for a request of that message (for key generation: the fresh key with the
    template's names), with names the signer may have; for re-enrollment the
    request has the signer's subject, and full CMC needs a signer that is a
    registration authority.  One certificate at most is stored outside of
    full CMC, and none when the message is refused. *)
Theorem cms_est_sound app o op s l body s' res :
  cms_est_router app o op s l body = (s', res) ->
  pending_csrs s' = pending_csrs s /\
  ((certificates s' = certificates s /\ forall resp, res <> Ok resp) \/
   exists cfg r s1 rows, cms_accepted app o op l body cfg r /\
     admitted json_object s s1 (signer_subject_dn r) "cms_est" (ce_admission o) /\
     certificates s' = certificates s ++ rows /\ rows_requested app o op l r rows /\
     (op <> CmsFullCmc -> (length rows <= 1)%nat)).
Proof.
  intros [(Hc & Hp & Hn)|(cfg & r & s1 & Hacc & Had & Hp & rows & Hc & Hr & Hl & _)]%cms_est_router_spec.
  - split; [done|]. by left.
  - split; [done|]. right. by exists cfg, r, s1, rows.
Qed.

(** Answers are for the signer's eyes.  An answer to an authentic
    message carries the certificate that was stored for it (with key
    generation the new private key too, with full CMC the message the CA
    signed), encrypted to the key of the signer's certificate with the first
    algorithm configured, whenever the configuration asks for it; and a
    private key is never answered in the clear, whatever the configuration
    says. *)
Theorem cms_est_confidential app o op s l body s' resp :
  cms_est_router app o op s l body = (s', Ok resp) ->
  exists cfg r rows content, cms_accepted app o op l body cfg r /\
    certificates s' = certificates s ++ rows /\ content_of app o op l r rows content /\
    delivered o op cfg r content (Errors.body resp).
Proof.
  intros [(_ & _ & Hn)|(cfg & r & s1 & Hacc & _ & _ & rows & Hc & _ & _ & Hok)]%cms_est_router_spec.
  - by destruct (Hn resp).
  - destruct (Hok resp eq_refl) as (content & Hcon & Hdel). by exists cfg, r, rows, content.
Qed.
End CmsEstSpec.

(** ** Examples *)

(** A signer whose certificate has the length of a real one. *)
Definition long_signer : bytes := 48 :: 100 :: 66 :: replicate 99 0.
Definition signed_message (signer content : bytes) (content_len : Z) : bytes :=
  tlv_of 48 (tlv_of 6 CMS_SIGNED_DATA ++ tlv_of 160 (tlv_of 48 (
    tlv_of 2 [1] ++ tlv_of 49 [] ++ tlv_of 48 (tlv_of 6 [1; 2] ++ tlv_of 160 (tlv_of 4 content)) ++
    tlv_of 160 signer ++ tlv_of 49 (tlv_of 48 (example_attributes content_len))))).

#[local] Existing Instance example_keygen_lib.
#[local] Existing Instance example_sskg_lib.
#[local] Instance long_cms_lib : CmsLib := cms_lib_of 100.
#[local] Instance long_cmc_lib : CmcLib := cmc_lib_of _.

(** The message's content: a request for the signer's own name. *)
Definition own_request : bytes := [48; 100; 2; 2] ++ replicate 60 0.
Definition cms_body : bytes := signed_message long_signer own_request 64.
Definition cms_app : AppConfig :=
  MkAppConfig (MkEstConfig [] None [] false 3600) [example_ca_config]
    {["main" := MkCaState "main" example_ca [example_anchor] "sha256" 300 None None]} "main" None.
Definition cms_label : LabelExtractor := MkLabel EmptyString "main" no_policy [] None None None.
Definition cms_outside (cfg : CmsEstConfig) : CmsOutside EncCoins :=
  MkCmsOutside (Some cfg) true true example_now (fun _ => Ok tt) example_call example_call
    (fun _ => MkIssueOutside example_now example_inputs (fun _ => inl [1]) (fun _ => EmptyString)
       (MkInsertFaults None "duplicate") example_call) tt tt tt tt.
Definition cms_config (encrypt : bool) : CmsEstConfig :=
  MkCmsEstConfig true true encrypt default_allowed_content_encryption.
Definition example_cms (encrypt : bool) (op : CmsOperation) (s : AppState) (body : bytes)
  : AppState * outcome Response KipukaError :=
  cms_est_router (fun _ => EmptyString) id (fun b => b) example_digest example_json cms_app
    (cms_outside (cms_config encrypt)) op s cms_label body.

Lemma cms_est_sound_witness : exists s resp cfg r rows,
  example_cms true CmsReenroll example_state cms_body = (s, Ok resp) /\
  cms_accepted cms_app (cms_outside (cms_config true)) CmsReenroll cms_label cms_body cfg r /\
  certificates s = certificates example_state ++ rows /\
  rows_requested id cms_app (cms_outside (cms_config true)) CmsReenroll cms_label r rows.
Proof.
  assert (E : match (example_cms true CmsReenroll example_state cms_body).2 with Ok _ => true | _ => false end = true)
    by (vm_compute; reflexivity).
  destruct (example_cms true CmsReenroll example_state cms_body) as [s [resp|e|]] eqn:Es; [|discriminate E..].
  clear E. exists s, resp. unfold example_cms in Es.
  destruct (cms_est_sound _ _ _ _ _ _ _ _ _ _ _ _ _ Es)
    as [_ [[_ Hno]|(cfg & r & s1 & rows & Hacc & _ & Hc & Hr & _)]]; [by destruct (Hno resp)|].
  exists cfg, r, rows. split; [reflexivity|]. split; [exact Hacc|]. split; [exact Hc|exact Hr].
Defined.

(** Even where the configuration does not ask for encryption. *)
Lemma cms_est_confidential_witness : exists s resp cfg r rows content,
  example_cms false CmsKeygen example_state cms_body = (s, Ok resp) /\
  content_of (fun b => b) cms_app (cms_outside (cms_config false)) CmsKeygen cms_label r rows content /\
  encrypted_for (cms_outside (cms_config false)) cfg (signer_cert_der r) content (Errors.body resp).
Proof.
  assert (E : match (example_cms false CmsKeygen example_state cms_body).2 with Ok _ => true | _ => false end = true)
    by (vm_compute; reflexivity).
  destruct (example_cms false CmsKeygen example_state cms_body) as [s [resp|e|]] eqn:Es; [|discriminate E..].
  clear E. exists s, resp. unfold example_cms in Es.
  destruct (cms_est_confidential _ _ _ _ _ _ _ _ _ _ _ _ _ Es)
    as (cfg & r & rows & content & _ & _ & Hcon & Hdel).
  exists cfg, r, rows, content. split; [reflexivity|]. split; [exact Hcon|exact Hdel].
Defined.

(** Another name is not the signer's to renew; it can be enrolled under this
    label, which restricts nothing. *)
Definition other_body : bytes := signed_message long_signer (example_request ++ replicate 60 0) 64.
Example other_subject_not_renewed :
  (example_cms false CmsReenroll example_state other_body).2 =
  Err (EForbidden "POP linking failed: CSR subject 'CN=A' does not match CMS signer subject 'CN=d'") /\
  length (certificates (example_cms false CmsEnroll example_state other_body).1) = 1%nat.
Proof. vm_compute. by split. Qed.

(** What cannot be encrypted was stored all the same. *)
Example stored_without_answer :
  let r := cms_est_router (fun _ => EmptyString) id (fun b => b) example_digest example_json cms_app
             (cms_outside (MkCmsEstConfig true true true ["AES-GCM"%string])) CmsEnroll example_state cms_label cms_body in
  r.2 = Err (EBadRequest "unsupported content encryption algorithm: AES-GCM") /\
  length (certificates r.1) = 1%nat /\
  validate_cms_est (MkCmsEstConfig true true true ["AES-GCM"%string]) = Ok tt.
Proof. vm_compute. by split_and!. Qed.

(** A subject in full is not a common name: with name matching on, the
    signer is refused its own name. *)
Example own_name_refused :
  exists e, (cms_est_router (fun _ => EmptyString) id (fun b => b) example_digest example_json cms_app
    (cms_outside (cms_config false)) CmsEnroll example_state
    (MkLabel EmptyString "main" (MkAuthzPolicy true false [] [] []) [] None None None) cms_body).2 =
    Err (EForbidden e).
Proof. vm_compute. eexists. reflexivity. Qed.

(** A chain that is not configured vouches for nobody, not even the CA's
    own certificates. *)
Example no_chain_no_trust :
  (cms_est_router (fun _ => EmptyString) id (fun b => b) example_digest example_json EnrollSpec.example_app
    (cms_outside (cms_config false)) CmsEnroll example_state cms_label cms_body).2 =
  Err (EAuth "CMS truststore is empty — cannot verify signer certificate").
Proof. vm_compute. reflexivity. Qed.
