(* ===== verification/RenewalInfo.v ===== *)
(** * Renewal information

    [src/routes/renewal_info.rs]: the suggested renewal window of a
    certificate named by the keyIdentifier of its issuer and its serial
    number.  The handler reads the table [certificates] and writes to the
    audit trail only.  The base64url codec, chrono's parsers and the text of
    the JSON object are parameters. *)
From S2P Require Import Prelude Words Text Errors Calendar X509 AuditLog DerReader Ocsp StarManager Labels.
Open Scope Z_scope.

(** ** The keyIdentifier *)

(** [checked_shl(8)?.checked_add(b)?] for each length octet: the shift drops
    the bits it moves out, only the sum is checked. *)
Fixpoint checked_octets (l : bytes) (i : Z) (n : nat) (length : Z) : outcome Z unit :=
  match n with
  | O => Ok length
  | S n' =>
      let? b := index l i in
      let sum := as_u64 (Z.shiftl length 8) + b in
      if 2 ^ 64 <=? sum then Err tt else checked_octets l (i + 1) n' sum
  end.

(** The length and how many bytes it takes. *)
Definition parse_der_length (data : bytes) : outcome (Z * Z) unit :=
  if bool_decide (data = []) then Err tt
  else
    let? first := index data 0 in
    if first <? 128 then Ok (first, 1)
    else if first =? 128 then Err tt
    else
      let num_bytes := Z.land first 127 in
      if (4 <? num_bytes) || (len data <? num_bytes + 1) then Err tt
      else
        let? length := checked_octets data 1 (Z.to_nat num_bytes) 0 in
        Ok (length, 1 + num_bytes).

(** The loop over the fields.  Each turn moves on by two bytes at least. *)
Fixpoint find_key_id (fuel : nat) (aki_der : bytes) (seq_end pos : Z) : outcome bytes unit :=
  match fuel with
  | O => Panic
  | S fuel' =>
      if negb (pos <? seq_end) then Err tt
      else if len aki_der <=? pos then Err tt
      else
        let? tag := index aki_der pos in
        let? rest := subslice aki_der (pos + 1) (len aki_der) in
        let? field := parse_der_length rest in
        let pos := pos + 1 + field.2 in
        if tag =? 128 then
          if len aki_der <? pos + field.1 then Err tt else subslice aki_der pos (pos + field.1)
        else find_key_id fuel' aki_der seq_end (pos + field.1)
  end.

Definition parse_aki_key_identifier (aki_der : bytes) : outcome bytes unit :=
  if len aki_der <? 2 then Err tt
  else
    let? tag := index aki_der 0 in
    if negb (tag =? 48) then Err tt
    else
      let? rest := subslice aki_der 1 (len aki_der) in
      let? sq := parse_der_length rest in
      let pos := 1 + sq.2 in
      let seq_end := pos + sq.1 in
      if len aki_der <? seq_end then Err tt
      else find_key_id (S (length aki_der)) aki_der seq_end pos.

(** ** The handler *)

(** What the libraries make of texts.  The parsers answer an instant. *)
Class RenewalText : Type := {
  b64url_decode : string -> bytes + string;
  parse_from_rfc3339 : string -> option Z;
  (** [NaiveDateTime::parse_from_str] with a format, and [and_utc] *)
  parse_naive : string -> string -> option Z;
  (** [to_rfc3339_opts(SecondsFormat::Secs, true)] *)
  rfc3339_secs : Z -> string;
  (** the JSON of a window, from the texts of its start and its end *)
  window_json : string -> string -> string;
  (** the first instant a [DateTime<Utc>] has *)
  min_utc : Z
}.

(** The fields of [EstConfig] the handler reads. *)
Record RenewalConfig : Type := MkRenewalConfig {
  renewal_window_days : Z;        (* u32 *)
  renewal_retry_after_secs : Z    (* u64 *)
}.

(** What a query fails with, and the call to the audit trail. *)
Record RenewalOutside : Type := MkRenewalOutside {
  ri_query_error : option string;
  ri_event : AuditCall
}.

Section RenewalInfo.
Context `{HL : X509Lib} `{HO : !OcspLib} `{HT : RenewalText}.
Variable digest : option bytes -> bytes -> string.
Variable json_object : list (string * string) -> string.

Definition extract_aki_key_id (cert_der : bytes) : outcome bytes unit :=
  let? cert := of_lib (fun _ => tt) (cert_from_der cert_der) in
  let? ext_raw := ok_or (cert_extensions cert) tt in
  let? aki_der := ok_or (find_extension_value ext_raw AUTHORITY_KEY_IDENTIFIER) tt in
  parse_aki_key_identifier aki_der.

Definition parse_not_after (s : string) : option Z :=
  match parse_from_rfc3339 s with
  | Some t => Some t
  | None =>
      match parse_naive "%Y-%m-%dT%H:%M:%S" s with
      | Some t => Some t
      | None => parse_naive "%Y-%m-%dT%H:%M:%S%.f" s
      end
  end.

(** The two parts of a [cert_id]: keyIdentifier and serial number. *)
Definition parse_cert_id (cert_id : string) : outcome (bytes * bytes) KipukaError :=
  if 256 <? Z.of_nat (String.length cert_id) then Err (EBadRequest "cert_id exceeds maximum length")
  else
    let? parts := ok_or (split_once "." cert_id)
      (EBadRequest "cert_id must be base64url(AKI) '.' base64url(Serial)") in
    let? aki := of_lib (fun e => EBadRequest ("invalid base64url in AKI component: " +:+ e))
      (b64url_decode parts.1) in
    let? serial := of_lib (fun e => EBadRequest ("invalid base64url in serial component: " +:+ e))
      (b64url_decode parts.2) in
    Ok (aki, serial).

(** The query, which returns one row at most. *)
Definition active_row (s : AppState) (serial : string) : option CertRow :=
  List.find (fun r => String.eqb (cr_serial r) serial && String.eqb (cr_status r) "active")
    (certificates s).

Definition find_certificate (o : RenewalOutside) (s : AppState) (serial : string)
  : outcome CertRow KipukaError :=
  match ri_query_error o with
  | Some e => Err (EDb ("certificate query failed: " +:+ e))
  | None => ok_or (active_row s serial) ENotFound
  end.

(** [DateTime - Duration] panics below the first instant. *)
Definition minus_days (t days : Z) : outcome Z KipukaError :=
  if t - days * DAY <? min_utc then Panic else Ok (t - days * DAY).

Definition renewal_window (config : RenewalConfig) (not_after : string) : outcome (Z * Z) KipukaError :=
  let? t := ok_or (parse_not_after not_after) (EInternal "failed to parse certificate expiry") in
  let? start := minus_days t (Z.max (renewal_window_days config) 2) in
  let? finish := minus_days t 1 in
  Ok (start, finish).

Definition renewal_response (config : RenewalConfig) (window : Z * Z) : Response :=
  MkResponse 200
    (<["retry-after" := pretty (renewal_retry_after_secs config)]> {["content-type" := "application/json"]})
    (bytes_of_string (window_json (rfc3339_secs window.1) (rfc3339_secs window.2))).

(** Up to the keyIdentifier: the row, and whether it is the caller's. *)
Definition look_up (o : RenewalOutside) (s : AppState) (cert_id : string)
  : outcome (string * CertRow * bool) KipukaError :=
  let? (expected_aki, serial_bytes) := parse_cert_id cert_id in
  let serial_hex := hex_encode serial_bytes in
  let? row := find_certificate o s serial_hex in
  let? actual_aki := map_err (fun _ => ENotFound) (extract_aki_key_id (cr_der row)) in
  Ok (serial_hex, row, bool_decide (actual_aki = expected_aki)).

Definition get_renewal_info (config : RenewalConfig) (o : RenewalOutside) (s : AppState)
    (cert_id : string) : AppState * outcome Response KipukaError :=
  match look_up o s cert_id with
  | Ok (serial_hex, row, true) =>
      match renewal_window config (cr_not_after row) with
      | Ok window =>
          (record_audit_event digest json_object s "renewal_info_query" ("serial=" +:+ serial_hex) (ri_event o),
           Ok (renewal_response config window))
      | Err e => (s, Err e)
      | Panic => (s, Panic)
      end
  | Ok (serial_hex, _, false) =>
      (record_audit_event digest json_object s "renewal_info_aki_mismatch"
         ("serial=" +:+ serial_hex +:+ " aki_mismatch") (ri_event o), Err ENotFound)
  | Err e => (s, Err e)
  | Panic => (s, Panic)
  end.
End RenewalInfo.

Example aki_example : parse_aki_key_identifier [48; 6; 128; 4; 222; 173; 190; 239] = Ok [222; 173; 190; 239].
Proof. reflexivity. Qed.
Example aki_without_key_id : parse_aki_key_identifier [48; 4; 161; 2; 0; 0] = Err tt.
Proof. reflexivity. Qed.
Example long_length_example : parse_der_length [130; 1; 0] = Ok (256, 3).
Proof. reflexivity. Qed.

(** * Renewal information: the theorems

    The walk over an AuthorityKeyIdentifier is safe, finds
    the keyIdentifier and reads lengths as the other two walks of the program
    do; and a certificate that the server stored is answered for, to a caller
    who names it, with a window that ends before it expires. *)
From S2P Require Import ExampleLibs Issuance AuditSpec ReaderExample Cmp.
Open Scope Z_scope.

(** ** Lengths *)

Lemma get_drop l p i : 0 <= p -> 0 <= i -> get (drop (Z.to_nat p) l) i = get l (p + i).
Proof.
  intros Hp Hi. unfold get, len. rewrite length_drop.
  rewrite !(proj2 (Z.leb_le _ _)) by lia. cbn [andb].
  assert (Hlt : (i <? Z.of_nat (length l - Z.to_nat p)) = (p + i <? Z.of_nat (length l)))
    by (destruct (Z.ltb_spec (p + i) (Z.of_nat (length l))); [apply Z.ltb_lt|apply Z.ltb_ge]; lia).
  rewrite Hlt. case_match; [|done]. rewrite lookup_drop. f_equal. lia.
Qed.

Lemma index_drop l p i : 0 <= p -> 0 <= i -> index (drop (Z.to_nat p) l) i = index l (p + i).
Proof. intros Hp Hi. unfold index. by rewrite get_drop. Qed.

Lemma len_drop l p : 0 <= p <= len l -> len (drop (Z.to_nat p) l) = len l - p.
Proof. unfold len. rewrite length_drop. lia. Qed.

Lemma get_u8 l i b : Forall u8 l -> get l i = Some b -> u8 b.
Proof. intros Hl. unfold get. case_match; [|done]. intros Hg. by apply (Forall_lookup_1 _ _ _ _ Hl Hg). Qed.

(** Below the width nothing is lost and no sum fails. *)
Lemma checked_octets_eq l p i n val :
  0 <= p -> 0 <= i -> Forall u8 l -> 0 <= val ->
  (val + 1) * 2 ^ (8 * Z.of_nat n) <= 2 ^ 56 ->
  checked_octets (drop (Z.to_nat p) l) i n val = read_octets l (p + i) n val.
Proof.
  intros Hp Hi Hl. revert i val Hi. induction n as [|n IH]; intros i val Hi Hv Hb; [done|].
  cbn [checked_octets read_octets]. rewrite index_drop by done. unfold index.
  destruct (get l (p + i)) as [b|] eqn:Eg; [|done]. cbn [obind].
  pose proof (get_u8 _ _ _ Hl Eg) as Hu. unfold u8 in Hu.
  assert (Hpow : 2 ^ (8 * Z.of_nat (S n)) = 2 ^ 8 * 2 ^ (8 * Z.of_nat n)).
  { rewrite <- Z.pow_add_r by lia. f_equal. lia. }
  assert (0 < 2 ^ (8 * Z.of_nat n)) as Hpos by (apply Z.pow_pos_nonneg; lia).
  rewrite Hpow in Hb. assert (Hv' : val + 1 <= 2 ^ 48).
  { change (2 ^ 8) with 256 in *. change (2 ^ 56) with (256 * 2 ^ 48) in Hb. nia. }
  rewrite shift_in_add by (pow_consts; change (2 ^ 48) with 281474976710656 in *;
    change (2 ^ 56) with 72057594037927936; lia).
  assert (as_u64 (Z.shiftl val 8) = val * 2 ^ 8) as ->.
  { unfold as_u64. rewrite Z.shiftl_mul_pow2 by lia. apply Z.mod_small.
    change (2 ^ 8) with 256. change (2 ^ 64) with 18446744073709551616.
    change (2 ^ 48) with 281474976710656 in *. lia. }
  assert (Hlt : val * 2 ^ 8 + b < 2 ^ 56).
  { change (2 ^ 8) with 256 in *. change (2 ^ 56) with 72057594037927936.
    change (2 ^ 48) with 281474976710656 in *. lia. }
  rewrite (proj2 (Z.leb_gt _ _)) by (change (2 ^ 56) with 72057594037927936 in *;
    change (2 ^ 64) with 18446744073709551616; lia).
  replace (p + i + 1) with (p + (i + 1)) by lia. change (2 ^ 8) with 256 in *. apply IH; [lia|lia|nia].
Qed.

(** The reader of renewal_info.rs on a suffix is the one of gssapi.rs and of
    ocsp/mod.rs at its offset. *)
Lemma parse_der_length_eq l p :
  0 <= p <= len l -> Forall u8 l -> parse_der_length (drop (Z.to_nat p) l) = read_der_length l p.
Proof.
  intros Hp Hl. unfold parse_der_length, read_der_length. rewrite index_drop, Z.add_0_r by lia.
  pose proof (len_drop l p Hp) as Hd. unfold index. destruct (get l p) as [first|] eqn:Eg.
  - rewrite bool_decide_eq_false_2.
    2: { intros E. rewrite E, len_nil in Hd. unfold get in Eg. case_match; [|done].
         repeat match goal with H : _ && _ = true |- _ => apply andb_true_iff in H as [? ?] end.
         rewrite Z.ltb_lt in *. lia. }
    cbn [obind ok_or]. pose proof (get_u8 _ _ _ Hl Eg) as Hu. unfold u8 in Hu.
    destruct (Z.ltb_spec first 128); [done|]. rewrite land_127.
    assert (Hm : first mod 128 = first - 128).
    { symmetry. apply (Z.mod_unique _ _ 1); change (2 ^ 8) with 256 in *; lia. }
    rewrite Hm. destruct (Z.eqb_spec first 128) as [->|Hne]; [done|].
    rewrite (proj2 (Z.eqb_neq (first - 128) 0)) by lia. cbn [orb].
    destruct (Z.ltb_spec 4 (first - 128)); [done|]. cbn [orb].
    assert ((len (drop (Z.to_nat p) l) <? first - 128 + 1) = (len l <? p + 1 + (first - 128))) as ->
      by (destruct (Z.ltb_spec (len l) (p + 1 + (first - 128))); [apply Z.ltb_lt|apply Z.ltb_ge]; lia).
    case_match; [done|]. rewrite checked_octets_eq; [done|lia|lia|done|lia|].
    transitivity (2 ^ 32); [|done]. rewrite Z.add_0_l, Z.mul_1_l. apply Z.pow_le_mono_r; lia.
  - cbn [ok_or obind]. rewrite bool_decide_eq_true_2; [done|]. unfold get in Eg.
    rewrite (proj2 (Z.leb_le _ _)) in Eg by lia. cbn [andb] in Eg.
    destruct (Z.ltb_spec p (len l)); [|apply length_zero_iff_nil; unfold len in *; lia].
    apply lookup_ge_None in Eg. unfold len in *. lia.
Qed.

Lemma subslice_to_end l p : 0 <= p <= len l -> subslice l p (len l) = Ok (drop (Z.to_nat p) l).
Proof.
  intros Hp. unfold subslice, range_ok. rewrite !(proj2 (Z.leb_le _ _)) by lia. cbn [andb]. f_equal.
  unfold part. apply take_ge. rewrite length_drop. unfold len in *. lia.
Qed.

(** ** The walk is safe *)

Lemma find_key_id_ensures fuel l seq_end pos :
  0 <= pos -> Forall u8 l -> len l - pos < Z.of_nat fuel -> (0 < fuel)%nat ->
  ensures (find_key_id fuel l seq_end pos) (fun b => within b l).
Proof.
  intros Hp Hu. revert pos Hp. induction fuel as [|fuel IH]; intros pos Hp Hf H0; [lia|].
  cbn [find_key_id]. destruct (negb _); [done|]. destruct (Z.leb_spec (len l) pos); [done|].
  eapply ensures_bind; [apply (index_ensures _ _ (fun _ => True)); [lia|done]|]. intros tag _.
  rewrite subslice_to_end by lia. cbn [obind]. rewrite parse_der_length_eq by (done || lia).
  eapply ensures_bind; [apply read_der_length_ensures; [lia|done]|]. intros [n k] (Hn & Hk & Hb).
  cbn [fst snd] in *. destruct (tag =? 128); [|apply IH; lia].
  destruct (Z.ltb_spec (len l) (pos + 1 + k + n)); [done|].
  eapply ensures_mono; [apply subslice_ensures; lia|]. by intros b [Hw _].
Qed.

Lemma parse_aki_ensures l :
  Forall u8 l -> ensures (parse_aki_key_identifier l) (fun b => within b l).
Proof.
  intros Hu. unfold parse_aki_key_identifier. destruct (Z.ltb_spec (len l) 2); [done|].
  eapply ensures_bind; [apply (index_ensures _ _ (fun _ => True)); [lia|done]|]. intros tag _.
  destruct (negb _); [done|]. rewrite subslice_to_end by lia. cbn [obind].
  rewrite parse_der_length_eq by (done || lia).
  eapply ensures_bind; [apply read_der_length_ensures; [lia|done]|]. intros [n k] (Hn & Hk & Hb).
  cbn [fst snd] in *. destruct (Z.ltb_spec (len l) (1 + k + n)); [done|].
  apply find_key_id_ensures; [lia|done|unfold len; lia|lia].
Qed.

(** ** The walk finds the keyIdentifier *)

Lemma find_key_id_found before kid after fuel pre seq_end :
  let fields := concat (map (fun f => tlv_of f.1 f.2) before) in
  let l := pre ++ fields ++ tlv_of 128 kid ++ after in
  Forall (fun f => f.1 <> 128 /\ len f.2 < 2 ^ 32) before -> len kid < 2 ^ 32 -> Forall u8 l ->
  len pre + len fields < seq_end -> (length before < fuel)%nat ->
  find_key_id fuel l seq_end (len pre) = Ok kid.
Proof.
  intros fields l Hb Hk. subst fields l. revert fuel pre. induction Hb as [|[tag c] before [Htag Hc] Hb IH];
    intros fuel pre Hu Hend Hf; (destruct fuel as [|fuel]; [simpl in Hf; lia|]); cbn [find_key_id map concat fst snd] in *.
  - cbn [app] in *. rewrite len_nil in Hend. destruct (header_at pre 128 kid after Hk) as [Hg Hr].
    pose proof (content_at pre 128 kid after) as Hcont. pose proof (len_tlv 128 kid) as Htlv.
    pose proof (len_nonneg after). pose proof (len_nonneg pre). pose proof (len_nonneg kid).
    pose proof (len_nonneg (length_octets (len kid))).
    set (l := pre ++ tlv_of 128 kid ++ after) in *.
    assert (Hl : len l = len pre + len (tlv_of 128 kid) + len after) by (unfold l; rewrite !len_app; lia).
    rewrite (proj2 (Z.ltb_lt _ _)) by lia. cbn [negb]. rewrite (proj2 (Z.leb_gt _ _)) by lia.
    rewrite (get_index _ _ _ Hg). cbn [obind]. rewrite subslice_to_end by lia. cbn [obind].
    rewrite parse_der_length_eq by (done || lia). rewrite Hr. cbn [obind fst snd].
    rewrite Z.eqb_refl, (proj2 (Z.ltb_ge _ _)) by lia. exact Hcont.
  - set (rest := concat (map (fun f => tlv_of f.1 f.2) before) ++ tlv_of 128 kid ++ after).
    assert (El : pre ++ (tlv_of tag c ++ concat (map (fun f => tlv_of f.1 f.2) before)) ++ tlv_of 128 kid ++ after
      = pre ++ tlv_of tag c ++ rest) by (unfold rest; by rewrite <- app_assoc).
    rewrite El in *. destruct (header_at pre tag c rest Hc) as [Hg Hr]. pose proof (len_tlv tag c) as Htlv.
    rewrite len_app in Hend. pose proof (len_nonneg rest). pose proof (len_nonneg pre). pose proof (len_nonneg c).
    pose proof (len_nonneg (length_octets (len c))).
    pose proof (len_nonneg (concat (map (fun f => tlv_of f.1 f.2) before))).
    assert (Hl : len (pre ++ tlv_of tag c ++ rest) = len pre + len (tlv_of tag c) + len rest) by (rewrite !len_app; lia).
    rewrite (proj2 (Z.ltb_lt _ _)) by lia. cbn [negb]. rewrite (proj2 (Z.leb_gt _ _)) by lia.
    rewrite (get_index _ _ _ Hg). cbn [obind]. rewrite subslice_to_end by lia. cbn [obind].
    rewrite parse_der_length_eq by (done || lia). rewrite Hr. cbn [obind fst snd].
    rewrite (proj2 (Z.eqb_neq _ _)) by done.
    replace (len pre + 1 + len (length_octets (len c)) + len c) with (len (pre ++ tlv_of tag c))
      by (rewrite len_app; lia).
    rewrite app_assoc in Hu |- *. apply IH; [done|rewrite len_app; lia|simpl in Hf; lia].
Qed.

(** An AuthorityKeyIdentifier as RFC 5280 has it, whatever its other fields. *)
Definition aki_der (kid after : bytes) : bytes := tlv_of 48 (tlv_of 128 kid ++ after).

Lemma parse_aki_found kid after :
  Forall u8 (aki_der kid after) -> len (tlv_of 128 kid ++ after) < 2 ^ 32 ->
  parse_aki_key_identifier (aki_der kid after) = Ok kid.
Proof.
  intros Hu Hl. set (c := tlv_of 128 kid ++ after) in *. destruct (header_at [] 48 c [] Hl) as [Hg Hr].
  rewrite app_nil_l, app_nil_r, len_nil, Z.add_0_l in *. pose proof (len_tlv 48 c) as Ht.
  pose proof (len_tlv 128 kid) as Htk. pose proof (len_nonneg after). pose proof (len_nonneg kid).
  pose proof (len_nonneg (length_octets (len c))). pose proof (len_nonneg (length_octets (len kid))).
  assert (Hc : len c = len (tlv_of 128 kid) + len after) by apply len_app.
  unfold parse_aki_key_identifier, aki_der in *. fold c in Hu |- *.
  rewrite (proj2 (Z.ltb_ge _ _)) by lia. rewrite (get_index _ _ _ Hg). cbn [obind]. rewrite Z.eqb_refl. cbn [negb].
  rewrite subslice_to_end by lia. cbn [obind]. rewrite parse_der_length_eq by (done || lia).
  rewrite Hr. cbn [obind fst snd]. rewrite (proj2 (Z.ltb_ge _ _)) by lia.
  replace (1 + len (length_octets (len c))) with (len (48 :: length_octets (len c))) by apply len_cons.
  apply (find_key_id_found [] kid after (S (length (tlv_of 48 c))) (48 :: length_octets (len c))).
  - apply Forall_nil_2.
  - lia.
  - exact Hu.
  - cbn [map concat]. rewrite len_nil. lia.
  - cbn [length]. lia.
Qed.

(** ** The handler *)

(** The [cert_id] the draft defines. *)
Definition cert_id_of (b64url_encode : bytes -> string) (kid serial : bytes) : string :=
  b64url_encode kid +:+ "." +:+ b64url_encode serial.

(** What the documentation of the codec and of chrono says: what is encoded
    is decoded, the alphabet has no full stop, and a time in RFC 3339 form,
    of a year with four digits, is read as that second. *)
Class RenewalTextLaws `{RenewalText} (b64url_encode : bytes -> string) : Prop := {
  b64url_round_trip b : Forall u8 b -> b64url_decode (b64url_encode b) = inl b;
  b64url_alphabet b : Forall u8 b -> contains_char "." (b64url_encode b) = false;
  rfc3339_read t : 0 <= (civil_from_days (date_naive t)).1.1 <= 9999 ->
    parse_from_rfc3339 (format_utc t) = Some (t / SECS * SECS)
}.

Section Handler.
Context `{HL : X509Lib} `{HO : !OcspLib} `{HT : RenewalText}.
Variable digest : option bytes -> bytes -> string.
Variable json_object : list (string * string) -> string.

Lemma parse_cert_id_Ok cert_id aki serial :
  parse_cert_id cert_id = Ok (aki, serial) ->
  Z.of_nat (String.length cert_id) <= 256 /\
  exists a b, cert_id = a +:+ "." +:+ b /\ b64url_decode a = inl aki /\ b64url_decode b = inl serial.
Proof.
  unfold parse_cert_id. destruct (Z.ltb_spec 256 (Z.of_nat (String.length cert_id))) as [|Hl]; [done|].
  intros E. split; [done|]. destruct (split_once _ _) as [[a b]|] eqn:Es; [|done]. cbn [ok_or obind fst snd] in E.
  apply split_once_Some in Es as [-> _]. destruct (b64url_decode a) as [aki'|] eqn:Ea; [|done].
  destruct (b64url_decode b) as [serial'|] eqn:Eb; [|done]. cbn [of_lib obind] in E. injection E as <- <-.
  by exists a, b.
Qed.

Lemma parse_cert_id_returns cert_id : returns (parse_cert_id cert_id).
Proof.
  unfold parse_cert_id. case_match; [done|]. destruct (split_once _ _) as [[a b]|]; [|done]. cbn [ok_or obind fst snd].
  destruct (b64url_decode a); [|done]. by destruct (b64url_decode b).
Qed.

Lemma active_row_Some s serial row :
  active_row s serial = Some row ->
  In row (certificates s) /\ cr_serial row = serial /\ cr_status row = "active"%string.
Proof.
  unfold active_row. intros E. apply find_some in E as [Hin Hb]. apply andb_true_iff in Hb as [H1 H2].
  by apply String.eqb_eq in H1, H2.
Qed.

(** With one row for a serial number it is the row. *)
Lemma active_row_in s row :
  NoDup (map cr_serial (certificates s)) -> In row (certificates s) ->
  active_row s (cr_serial row) = if String.eqb (cr_status row) "active" then Some row else None.
Proof.
  unfold active_row. induction (certificates s) as [|x l IH]; [done|]. cbn [map In List.find].
  intros Hnd Hin. apply NoDup_cons in Hnd as [Hx Hnd].
  assert (Hother : forall y, In y l -> cr_serial y = cr_serial x -> False).
  { intros y Hy E. apply Hx, list_elem_of_In. rewrite <- E. by apply in_map. }
  destruct Hin as [->|Hin].
  - rewrite String.eqb_refl. cbn [andb]. destruct (String.eqb _ _); [done|].
    destruct (List.find _ l) as [y|] eqn:E; [|done]. apply find_some in E as [Hy Hb].
    apply andb_true_iff in Hb as [Hb _]. apply String.eqb_eq in Hb. by destruct (Hother y Hy).
  - destruct (String.eqb_spec (cr_serial x) (cr_serial row)) as [E|]; [by destruct (Hother row Hin)|]. by apply IH.
Qed.

Lemma minus_days_Ok t days x : minus_days t days = Ok x -> x = t - days * DAY.
Proof. unfold minus_days. case_match; [done|]. by intros [= <-]. Qed.

Lemma renewal_window_Ok config text w :
  renewal_window config text = Ok w ->
  exists t, parse_not_after text = Some t /\ w.1 = t - Z.max (renewal_window_days config) 2 * DAY /\
    w.2 = t - DAY /\ w.1 < w.2 < t.
Proof.
  unfold renewal_window. destruct (parse_not_after text) as [t|]; [|done]. cbn [ok_or obind]. intros E.
  inv_ok E. rename E into E1. inv_ok E1. injection E1 as <-. exists t. cbn [fst snd].
  repeat match goal with H : minus_days _ _ = Ok _ |- _ => apply minus_days_Ok in H as -> end.
  assert (0 < DAY) by done. split_and!; [done|done|lia|nia|lia].
Qed.

Lemma look_up_Ok o s cert_id serial row b :
  look_up o s cert_id = Ok (serial, row, b) ->
  exists aki serial_bytes actual, parse_cert_id cert_id = Ok (aki, serial_bytes) /\
    serial = hex_encode serial_bytes /\ active_row s serial = Some row /\
    extract_aki_key_id (cr_der row) = Ok actual /\ b = bool_decide (actual = aki).
Proof.
  unfold look_up. intros E. apply obind_Ok_1 in E as ([aki sb] & Hp & E).
  apply obind_Ok_1 in E as (row' & Hf & E). apply obind_Ok_1 in E as (actual & Ha & E).
  injection E as <- <- <-. unfold find_certificate in Hf. destruct (ri_query_error o); [done|].
  exists aki, sb, actual. split_and!; [done|done| | |done].
  - by destruct (active_row s _); [injection Hf as ->|].
  - destruct (extract_aki_key_id (cr_der row')); [|done|done]. by injection Ha as ->.
Qed.

Lemma extract_aki_returns der :
  (forall cert e v, cert_from_der der = inl cert -> cert_extensions cert = Some e ->
     find_extension_value e AUTHORITY_KEY_IDENTIFIER = Some v -> Forall u8 v) ->
  returns (extract_aki_key_id der).
Proof.
  intros Hu. unfold extract_aki_key_id. destruct (cert_from_der der) as [c|] eqn:Ec; [|done]. cbn [of_lib obind].
  destruct (cert_extensions c) as [e|] eqn:Ee; [|done]. cbn [ok_or obind].
  destruct (find_extension_value e _) as [v|] eqn:Ev; [|done]. cbn [ok_or obind].
  exact (ensures_returns _ _ (parse_aki_ensures v (Hu c e v eq_refl Ee Ev))).
Qed.

(** Every value a library hands out is made of bytes. *)
Definition aki_bytes : Prop := forall der cert e v, cert_from_der der = inl cert -> cert_extensions cert = Some e ->
  find_extension_value e AUTHORITY_KEY_IDENTIFIER = Some v -> Forall u8 v.

Lemma minus_days_panics t days : minus_days t days = Panic -> t < min_utc + days * DAY.
Proof. unfold minus_days. destruct (Z.ltb_spec (t - days * DAY) min_utc); [lia|done]. Qed.

Lemma renewal_window_panics config text :
  renewal_window config text = Panic ->
  exists t, parse_not_after text = Some t /\ t < min_utc + Z.max (renewal_window_days config) 2 * DAY.
Proof.
  unfold renewal_window. destruct (parse_not_after text) as [t|]; [|done]. cbn [ok_or obind]. intros E.
  exists t. split; [done|]. destruct (minus_days t (Z.max _ 2)) as [a|e|] eqn:E1; [|done|by apply minus_days_panics].
  cbn [obind] in E. destruct (minus_days t 1) as [b|e|] eqn:E2; [done..|].
  apply minus_days_panics in E2. assert (0 < DAY) by done. nia.
Qed.

Lemma look_up_returns o s cert_id : aki_bytes -> returns (look_up o s cert_id).
Proof.
  intros Hb. unfold look_up. destruct (parse_cert_id cert_id) as [[aki sb]|e|] eqn:Ep; [|done|].
  2: { pose proof (parse_cert_id_returns cert_id). congruence. }
  cbn [obind]. unfold find_certificate. destruct (ri_query_error o); [done|]. destruct (active_row _ _) as [row|]; [|done].
  cbn [ok_or obind]. pose proof (extract_aki_returns (cr_der row) (Hb (cr_der row))) as Hr.
  by destruct (extract_aki_key_id (cr_der row)).
Qed.

(** The refusal of one who does not name the issuer's key. *)
Lemma look_up_unknown o s cert_id aki serial :
  aki_bytes -> parse_cert_id cert_id = Ok (aki, serial) -> ri_query_error o = None ->
  (forall row, In row (certificates s) -> cr_serial row = hex_encode serial -> cr_status row = "active"%string ->
    extract_aki_key_id (cr_der row) <> Ok aki) ->
  look_up o s cert_id = Err ENotFound \/
  exists row, look_up o s cert_id = Ok (hex_encode serial, row, false).
Proof.
  intros Hb Hp Hq Hk. unfold look_up. rewrite Hp. cbn [obind]. unfold find_certificate. rewrite Hq.
  destruct (active_row s (hex_encode serial)) as [row|] eqn:Er; [|by left]. cbn [ok_or obind].
  apply active_row_Some in Er as (Hin & Hs & Ha). specialize (Hk row Hin Hs Ha).
  pose proof (extract_aki_returns (cr_der row) (Hb (cr_der row))) as Hr.
  destruct (extract_aki_key_id (cr_der row)) as [k|e|]; [|by left|done]. right. exists row. cbn [map_err obind].
  rewrite bool_decide_eq_false_2; [done|]. congruence.
Qed.

(** C26: a renewal window is disclosed only of an active certificate and
    only to a caller who names the key of its issuer.  Whatever identifier is
    asked for, the call changes neither certificates nor requests; a window
    is the one of an active row with the serial number of the identifier and
    with its keyIdentifier, and lies before the row's expiry, its start before
    its end; who names another key gets the refusal of a certificate that
    does not exist.  The handler panics only when the configured window
    reaches back before the first instant chrono has. *)
Theorem renewal_info_sound config o s cert_id s' r :
  aki_bytes ->
  get_renewal_info digest json_object config o s cert_id = (s', r) ->
  certificates s' = certificates s /\ pending_csrs s' = pending_csrs s /\
  (forall resp, r = Ok resp -> exists aki serial row t start finish,
     parse_cert_id cert_id = Ok (aki, serial) /\ In row (certificates s) /\
     cr_serial row = hex_encode serial /\ cr_status row = "active"%string /\
     extract_aki_key_id (cr_der row) = Ok aki /\ parse_not_after (cr_not_after row) = Some t /\
     start < finish < t /\ resp = renewal_response config (start, finish)) /\
  (forall aki serial, parse_cert_id cert_id = Ok (aki, serial) -> ri_query_error o = None ->
     (forall row, In row (certificates s) -> cr_serial row = hex_encode serial ->
        cr_status row = "active"%string -> extract_aki_key_id (cr_der row) <> Ok aki) ->
     r = Err ENotFound) /\
  (r = Panic -> exists row t, In row (certificates s) /\ parse_not_after (cr_not_after row) = Some t /\
     t < min_utc + Z.max (renewal_window_days config) 2 * DAY).
Proof.
  intros Hb. unfold get_renewal_info. pose proof (look_up_returns o s cert_id Hb) as Hret.
  assert (Hun := look_up_unknown o s cert_id).
  destruct (look_up o s cert_id) as [[[serial row] b]|e|] eqn:El; [|intros [= <- <-]|done].
  - apply look_up_Ok in El as (aki & sb & actual & Hp & -> & Hrow & Ha & ->).
    apply active_row_Some in Hrow as (Hin & Hs & Hst).
    case_bool_decide as Hk; [subst actual|].
    + assert (Hno : forall k sb', parse_cert_id cert_id = Ok (k, sb') -> ri_query_error o = None ->
        (forall x, In x (certificates s) -> cr_serial x = hex_encode sb' -> cr_status x = "active"%string ->
          extract_aki_key_id (cr_der x) <> Ok k) -> False).
      { intros k sb' E _ H. rewrite Hp in E. injection E as <- <-. by apply (H row). }
      destruct (renewal_window config (cr_not_after row)) as [[a z]|e|] eqn:Ew; intros [= <- <-]; split_and!; try done.
      2-4: intros k sb' H1 H2 H3; by destruct (Hno k sb' H1 H2 H3).
      * intros resp [= <-]. apply renewal_window_Ok in Ew as (t & Ht & _ & _ & Hlt).
        by exists aki, sb, row, t, a, z.
      * intros _. apply renewal_window_panics in Ew as (t & Ht & Hlt). by exists row, t.
    + intros [= <- <-]. split_and!; done.
  - split_and!; try done. intros aki serial Hp Hq Hk. destruct (Hun aki serial Hb Hp Hq Hk) as [[= ->]|[row E]]; done.
Qed.

(** The server answers for the certificates it issued.  A certificate
    that was stored with the key of its issuer in its
    authorityKeyIdentifier is answered for, under the identifier the draft
    defines and as long as its row is active, with the window that starts the
    configured number of days (two at least) and ends one day before its
    expiry in whole seconds; under another key, or once it is revoked, the
    answer is that there is no such certificate. *)
Theorem renewal_info_of_issued `{!RenewalTextLaws enc} config o s s1 s2 f ca_id profile r serial cert ext kid after :
  persist_certificate_on s f ca_id profile r = (s1, Ok tt) ->
  serial_number r = hex_encode serial ->
  cert_from_der (certificate_der r) = inl cert -> cert_extensions cert = Some ext ->
  find_extension_value ext AUTHORITY_KEY_IDENTIFIER = Some (aki_der kid after) ->
  Forall u8 (aki_der kid after) -> len (tlv_of 128 kid ++ after) < 2 ^ 32 -> Forall u8 serial ->
  (String.length (cert_id_of enc kid serial) <= 256)%nat ->
  0 <= (civil_from_days (date_naive (not_after r))).1.1 <= 9999 ->
  let expiry := not_after r / SECS * SECS in
  let start := expiry - Z.max (renewal_window_days config) 2 * DAY in
  min_utc <= start ->
  ri_query_error o = None ->
  NoDup (map cr_serial (certificates s2)) -> (forall row, In row (certificates s1) -> In row (certificates s2)) ->
  (get_renewal_info digest json_object config o s2 (cert_id_of enc kid serial)).2 =
    Ok (renewal_response config (start, expiry - DAY)) /\
  (forall other, other <> kid -> Forall u8 other -> (String.length (cert_id_of enc other serial) <= 256)%nat ->
    (get_renewal_info digest json_object config o s2 (cert_id_of enc other serial)).2 = Err ENotFound) /\
  (get_renewal_info digest json_object config o
     (set_certificates s2 (map (revoke_row (serial_number r)) (certificates s2))) (cert_id_of enc kid serial)).2 =
    Err ENotFound.
Proof.
  intros Hper Hser Hcert Hext Hfind Hu Hlen Hus Hid Hyear expiry start Hmin Hq Hnd Hkeep.
  pose proof (persist_on_spec _ _ _ _ _ _ _ Hper) as (_ & _ & _ & _ & c' & Hc' & Hrows & _).
  set (row := certificate_row r (format_dn (cert_issuer c')) ca_id profile) in *.
  assert (Hin : In row (certificates s2)).
  { apply Hkeep. rewrite Hrows. apply in_or_app. right. by left. }
  assert (Haki : extract_aki_key_id (certificate_der r) = Ok kid).
  { unfold extract_aki_key_id. rewrite Hcert. cbn [of_lib obind]. rewrite Hext. cbn [ok_or obind].
    rewrite Hfind. cbn [ok_or obind]. by apply parse_aki_found. }
  assert (Hkid : Forall u8 kid).
  { eapply within_u8; [|exact Hu]. pose proof (parse_aki_ensures _ Hu) as He.
    rewrite parse_aki_found in He by done. exact He. }
  assert (Hparse : forall k, Forall u8 k -> (String.length (cert_id_of enc k serial) <= 256)%nat ->
    parse_cert_id (cert_id_of enc k serial) = Ok (k, serial)).
  { intros k Hk Hl. unfold parse_cert_id. rewrite (proj2 (Z.ltb_ge _ _)) by lia. unfold cert_id_of.
    rewrite (proj2 (split_once_Some "." _ (enc k) (enc serial))) by (split; [done|by apply b64url_alphabet]).
    cbn [ok_or obind fst snd]. by rewrite !b64url_round_trip by done. }
  assert (Hrow2 : active_row s2 (hex_encode serial) = Some row).
  { rewrite <- Hser. apply (active_row_in s2 row Hnd Hin). }
  split; [|split].
  - unfold get_renewal_info, look_up, find_certificate. rewrite (Hparse kid) by done. cbn [obind]. rewrite Hq, Hrow2.
    cbn [ok_or obind]. unfold row at 1. cbn [certificate_row cr_der]. rewrite Haki. cbn [map_err obind].
    rewrite bool_decide_eq_true_2 by done. unfold renewal_window, parse_not_after. cbn [row certificate_row cr_not_after].
    rewrite (rfc3339_read (b64url_encode := enc)) by done. cbn [ok_or obind]. unfold minus_days. fold expiry start.
    assert (0 < DAY) by done.
    rewrite (proj2 (Z.ltb_ge start min_utc)) by done. cbn [obind].
    rewrite (proj2 (Z.ltb_ge (expiry - 1 * DAY) min_utc)) by (unfold start in Hmin; nia). cbn [obind snd].
    by rewrite Z.mul_1_l.
  - intros other Hne Hko Hl. unfold get_renewal_info, look_up, find_certificate. rewrite (Hparse other) by done.
    cbn [obind]. rewrite Hq, Hrow2. cbn [ok_or obind]. unfold row at 1. cbn [certificate_row cr_der]. rewrite Haki.
    cbn [map_err obind]. by rewrite bool_decide_eq_false_2 by congruence.
  - assert (Hnone : active_row (set_certificates s2 (map (revoke_row (serial_number r)) (certificates s2)))
      (hex_encode serial) = None).
    { rewrite <- Hser. match goal with |- ?a = None => destruct a as [x|] eqn:E end; [|done].
      apply active_row_Some in E as (Hx & Hs & Ha). cbn [certificates set_certificates] in Hx.
      apply in_map_iff in Hx as (y & <- & Hy). unfold revoke_row in *. by destruct (String.eqb_spec (cr_serial y) (serial_number r)). }
    unfold get_renewal_info, look_up, find_certificate. rewrite (Hparse kid) by done. cbn [obind]. by rewrite Hq, Hnone.
Qed.
End Handler.

(** ** Examples *)

(** A reader of RFC 3339 in UTC and whole seconds, by position. *)
Definition two_digits (a b : Z) : Z := (a - 48) * 10 + (b - 48).
Definition example_rfc3339 (text : string) : option Z :=
  match bytes_of_string text with
  | [y1; y2; y3; y4; _; m1; m2; _; d1; d2; _; h1; h2; _; n1; n2; _; s1; s2; _] =>
      Some (days_from_civil (two_digits y1 y2 * 100 + two_digits y3 y4) (two_digits m1 m2) (two_digits d1 d2) * DAY_NS
        + (two_digits h1 h2 * 3600 + two_digits n1 n2 * 60 + two_digits s1 s2) * SECS)
  | _ => None
  end.

(** Two letters for a byte. *)
Fixpoint letters (b : bytes) : string :=
  match b with
  | [] => EmptyString
  | x :: b => String (byte_to_ascii (65 + x / 16)) (String (byte_to_ascii (65 + x mod 16)) (letters b))
  end.
Fixpoint of_letters (s : string) : bytes + string :=
  match s with
  | EmptyString => inl []
  | String a (String c s) =>
      match of_letters s with inl b => inl ((byte_of a - 65) * 16 + (byte_of c - 65) :: b) | inr e => inr e end
  | _ => inr "odd"
  end.

#[local] Instance example_renewal_text : RenewalText := {
  b64url_decode := of_letters;
  parse_from_rfc3339 := example_rfc3339;
  parse_naive _ _ := None;
  rfc3339_secs := format_utc;
  window_json a b := a +:+ "/" +:+ b;
  min_utc := -8334601228800 * SECS
}.

Definition check_pad2 (z : Z) : bool :=
  match bytes_of_string (pad 2 z) with [a; b] => two_digits a b =? z | _ => false end.
Definition check_pad4 (z : Z) : bool :=
  match bytes_of_string (pad 4 z) with
  | [a; b; c; d] => two_digits a b * 100 + two_digits c d =? z
  | _ => false
  end.
Lemma pad2_read z : 0 <= z < 100 -> exists a b, bytes_of_string (pad 2 z) = [a; b] /\ two_digits a b = z.
Proof.
  intros Hz. assert (H : check_from 100 check_pad2 0 = true) by (vm_compute; reflexivity).
  apply (check_from_all _ _ _ z H) in Hz. unfold check_pad2 in Hz.
  destruct (bytes_of_string (pad 2 z)) as [|a [|b [|]]]; try done. exists a, b. by apply Z.eqb_eq in Hz.
Qed.
Lemma pad4_read z : 0 <= z <= 9999 -> exists a b c d,
  bytes_of_string (pad 4 z) = [a; b; c; d] /\ two_digits a b * 100 + two_digits c d = z.
Proof.
  intros Hz. assert (H : check_from (Z.to_nat 10000) check_pad4 0 = true) by (vm_compute; reflexivity).
  assert (Hn : Z.of_nat (Z.to_nat 10000) = 10000) by (apply Z2Nat.id; lia).
  revert H Hn. generalize (Z.to_nat 10000). intros n H Hn.
  assert (Hc : check_pad4 z = true) by (apply (check_from_all n _ 0); [done|lia]). unfold check_pad4 in Hc.
  destruct (bytes_of_string (pad 4 z)) as [|a [|b [|c [|d [|]]]]]; try done. exists a, b, c, d. by apply Z.eqb_eq in Hc.
Qed.

Lemma bytes_of_app a b : bytes_of_string (a +:+ b) = bytes_of_string a ++ bytes_of_string b.
Proof. induction a as [|c a IH]; [done|]. cbn. by rewrite IH. Qed.

(** Days and seconds of an instant, in whole seconds. *)
Lemma whole_seconds t :
  let s := second_of_day t in
  date_naive t * DAY_NS + (s / 3600 * 3600 + s / 60 mod 60 * 60 + s mod 60) * SECS = t / SECS * SECS.
Proof.
  cbv zeta. unfold second_of_day, date_naive. set (s := t mod DAY_NS / SECS).
  assert (Hs : s / 3600 * 3600 + s / 60 mod 60 * 60 + s mod 60 = s).
  { assert (s / 3600 = s / 60 / 60) as -> by (by rewrite Z.div_div by lia).
    pose proof (Z.div_mod s 60). pose proof (Z.div_mod (s / 60) 60). lia. }
  rewrite Hs. subst s. change DAY_NS with (86400 * 1000000000). change SECS with 1000000000.
  Z.to_euclidean_division_equations. lia.
Qed.

Lemma second_of_day_range t : 0 <= second_of_day t < 86400.
Proof.
  unfold second_of_day. assert (H : 0 <= t mod DAY_NS < DAY_NS) by (by apply Z.mod_pos_bound).
  change DAY_NS with (86400 * SECS) in *. split; [apply Z.div_pos; [lia|done]|].
  apply Z.div_lt_upper_bound; [done|lia].
Qed.

Lemma example_rfc3339_read t :
  0 <= (civil_from_days (date_naive t)).1.1 <= 9999 -> example_rfc3339 (format_utc t) = Some (t / SECS * SECS).
Proof.
  intros Hy. pose proof (days_from_civil_from_days (date_naive t)) as Hd. pose proof (second_of_day_range t) as Hs.
  pose proof (whole_seconds t) as Hw. cbv zeta in Hw.
  unfold format_utc. destruct (civil_from_days (date_naive t)) as [[y m] d]. cbn [fst] in Hy.
  destruct Hd as [Hv Hday]. set (s := second_of_day t) in *.
  unfold valid_date in Hv. rewrite !andb_true_iff, !Z.leb_le in Hv.
  assert (days_in_month y m <= 31) by (unfold days_in_month; repeat case_match; lia).
  unfold format_year. rewrite !(proj2 (Z.leb_le _ _)) by lia. cbn [andb].
  assert (0 <= s / 3600 < 24) by (Z.to_euclidean_division_equations; lia).
  pose proof (Z.mod_pos_bound (s / 60) 60). pose proof (Z.mod_pos_bound s 60).
  destruct (pad4_read y) as (y1 & y2 & y3 & y4 & Ey & Vy); [lia|].
  destruct (pad2_read m) as (m1 & m2 & Em & Vm); [lia|]. destruct (pad2_read d) as (d1 & d2 & Ed & Vd); [lia|].
  destruct (pad2_read (s / 3600)) as (h1 & h2 & Eh & Vh); [lia|].
  destruct (pad2_read (s / 60 mod 60)) as (n1 & n2 & En & Vn); [lia|].
  destruct (pad2_read (s mod 60)) as (s1 & s2 & Es & Vs); [lia|].
  unfold example_rfc3339. rewrite !bytes_of_app, Ey, Em, Ed, Eh, En, Es. cbn [bytes_of_string app].
  by rewrite Vy, Vm, Vd, Vh, Vn, Vs, Hday, Hw.
Qed.

Lemma byte_to_ascii_back b : u8 b -> byte_of (byte_to_ascii b) = b.
Proof. intros Hb. unfold u8 in Hb. unfold byte_of, byte_to_ascii. rewrite N_ascii_embedding; lia. Qed.

#[local] Instance example_renewal_laws : RenewalTextLaws letters.
Proof.
  split.
  - cbn. induction 1 as [|x b Hx _ IH]; [done|]. cbn. rewrite IH. unfold u8 in Hx. change (2 ^ 8) with 256 in Hx.
    rewrite !byte_to_ascii_back by (unfold u8; change (2 ^ 8) with 256; Z.to_euclidean_division_equations; lia).
    do 2 f_equal. Z.to_euclidean_division_equations. lia.
  - intros b. assert (Hl : forall z, 0 <= z < 16 -> byte_to_ascii (65 + z) <> "."%char).
    { intros z Hz E. apply (f_equal byte_of) in E. rewrite byte_to_ascii_back in E by (unfold u8; lia).
      change (byte_of "."%char) with 46 in E. lia. }
    intros Hb. induction Hb as [|x b Hx Hb IH]; [done|]. cbn [letters contains_char].
    unfold u8 in Hx. change (2 ^ 8) with 256 in Hx.
    rewrite !bool_decide_eq_false_2; [exact IH|..].
    all: apply Hl; Z.to_euclidean_division_equations; lia.
  - exact example_rfc3339_read.
Qed.

(** A certificate whose extensions are the identifier of its issuer's key. *)
#[local] Instance renewal_ocsp : OcspLib := {
  cert_serial_der c := inl [2; 1; c.1];
  cert_public_key c := [c.1];
  cert_extensions _ := Some (aki_der [222; 173] [161; 2; 0; 0]);
  Serial := bytes;
  serial_from_bytes b := b;
  build_ocsp_tbs alg name key serial := inl (alg ++ name ++ key ++ serial);
  OcspRequest := bytes * list RawExtension;
  ocsp_request_from_der b := inl (b, []);
  set_request_extensions l r := (r.1, l);
  ocsp_request_to_der r := inl (r.1 ++ concat (map snd r.2));
  octet_string_to_der b := inl b;
  octet_string_from_der b := inl b;
  envelope_from_der b := inl (MkEnvelope None (Some ([1], b)));
  ID_PKIX_OCSP_BASIC := [1];
  AD_OCSP := [1; 3; 6; 1; 5; 5; 7; 48; 1];
  hash_data _ b := inl b
}.

Definition renewal_call : RenewalOutside := MkRenewalOutside None (MkAuditCall no_faults "t1").
Definition renewal_config : RenewalConfig := MkRenewalConfig 30 3600.
Definition issued_example : IssuanceResult :=
  MkIssued [48; 65; 66; 1] "2" "CN=A" (1750000000 * SECS) (1770000000 * SECS + 5).
Definition no_rows : AppState := MkAppState (MkAuditDb [] 1) audit_state_new [] [].
Definition stored_example : AppState :=
  (persist_certificate_on no_rows (MkInsertFaults None "duplicate") "main" "default" issued_example).1.
Definition example_info (s : AppState) (id : string) : AppState * outcome Response KipukaError :=
  get_renewal_info example_digest example_json renewal_config renewal_call s id.

Ltac all_bytes := repeat (apply Forall_cons_2; [unfold u8; lia|]); apply Forall_nil_2.

Lemma example_aki_bytes : aki_bytes.
Proof.
  intros der cert e v _ [= <-] H. vm_compute in H. injection H as <-. all_bytes.
Qed.

Lemma renewal_info_of_issued_witness :
  let id := cert_id_of letters [222; 173] [7; 8] in
  serial_number issued_example = hex_encode [7; 8] /\
  (example_info stored_example id).2 =
    Ok (renewal_response renewal_config (1767408000 * SECS, 1769913600 * SECS)) /\
  (example_info stored_example (cert_id_of letters [222] [7; 8])).2 = Err ENotFound.
Proof.
  cbv zeta. split; [vm_compute; reflexivity|].
  destruct (renewal_info_of_issued (HL := example_x509) (enc := letters) example_digest example_json renewal_config renewal_call no_rows
    stored_example stored_example (MkInsertFaults None "duplicate") "main" "default" issued_example [7; 8] (65, 66)
    (aki_der [222; 173] [161; 2; 0; 0]) [222; 173] [161; 2; 0; 0]) as (H1 & H2 & _).
  - vm_compute. reflexivity.
  - vm_compute. reflexivity.
  - reflexivity.
  - reflexivity.
  - vm_compute. reflexivity.
  - change (Forall u8 [48; 8; 128; 2; 222; 173; 161; 2; 0; 0]). all_bytes.
  - vm_compute. reflexivity.
  - all_bytes.
  - apply Nat.leb_le. vm_compute. reflexivity.
  - vm_compute. by split.
  - vm_compute. done.
  - reflexivity.
  - apply (bool_decide_unpack _). vm_compute. exact I.
  - intros row H. exact H.
  - split; [exact H1|]. apply (H2 [222]); [done|all_bytes|]. apply Nat.leb_le. vm_compute. reflexivity.
Defined.

Lemma renewal_info_sound_witness :
  exists resp, (example_info stored_example (cert_id_of letters [222; 173] [7; 8])).2 = Ok resp /\
  exists aki serial row t start finish,
    parse_cert_id (cert_id_of letters [222; 173] [7; 8]) = Ok (aki, serial) /\ In row (certificates stored_example) /\
    cr_serial row = hex_encode serial /\ cr_status row = "active"%string /\
    extract_aki_key_id (cr_der row) = Ok aki /\ parse_not_after (cr_not_after row) = Some t /\
    start < finish < t /\ resp = renewal_response renewal_config (start, finish).
Proof.
  destruct (example_info stored_example (cert_id_of letters [222; 173] [7; 8])) as [s' r] eqn:E.
  assert (Hok : match r with Ok _ => true | _ => false end = true).
  { apply (f_equal snd) in E. cbn [snd] in E. rewrite <- E. vm_compute. reflexivity. }
  destruct r as [resp|e|]; [|done..]. exists resp. split; [reflexivity|].
  exact (proj1 (proj2 (proj2 (renewal_info_sound example_digest example_json renewal_config renewal_call stored_example
    (cert_id_of letters [222; 173] [7; 8]) s' (Ok resp) example_aki_bytes E))) resp eq_refl).
Defined.

(** A configured window of more days than the calendar has: the call ends in
    a panic for every certificate. *)
Example long_window_panics :
  (get_renewal_info example_digest example_json (MkRenewalConfig 4294967295 3600) renewal_call stored_example
    (cert_id_of letters [222; 173] [7; 8])).2 = Panic.
Proof. vm_compute. reflexivity. Qed.
