(* ===== verification/Admin.v ===== *)
(** * Who administers the server

    [src/config/admin.rs] and [src/routes/admin/mod.rs]: the configuration of
    the administration interface, its roles, and the extractor that
    authenticates a caller by a bearer token or a client certificate of the
    administrators' own trust anchors.  The anchors are read once and kept; a
    failed read is not. *)
From S2P Require Import Prelude Words Text Secrets Errors Calendar X509 Ocsp Revocation.
Open Scope Z_scope.

(** ** Configuration *)

Inductive AdminAuthMethod : Type := AdminBearer | AdminMtls | AdminBasic | AdminGssapi.
#[export] Instance AdminAuthMethod_eq_dec : EqDecision AdminAuthMethod.
Proof. solve_decision. Defined.

Record AdminGssapiConfig : Type := MkAdminGssapi {
  admin_keytab_file : option string;
  admin_service_name : string;
  admin_gssproxy : bool;
  admin_require_crypto_verification : bool
}.

Record AdminConfig : Type := MkAdminConfig {
  admin_enabled : bool;
  admin_listen_addr : option string;
  admin_auth_method : AdminAuthMethod;
  allowed_operators : list string;
  allowed_auditors : list string;
  admin_ca_file : option string;
  session_ttl_secs : Z;               (* u64 *)
  max_sessions : Z;                   (* usize *)
  admin_bearer_ref : option SecretRef;
  auditor_bearer_ref : option SecretRef;
  admin_gssapi : option AdminGssapiConfig
}.
Definition admin_config_default : AdminConfig :=
  MkAdminConfig false None AdminMtls [] [] None 3600 16 None None None.

(** [AdminConfig::validate] *)
Definition quoted (s : string) : string := DQUOTE +:+ s +:+ DQUOTE.
Definition validate_admin_config (c : AdminConfig) : outcome unit string :=
  if negb (admin_enabled c) then Ok tt
  else if bool_decide (admin_auth_method c = AdminMtls) && bool_decide (admin_ca_file c = None)
  then Err ("[admin].admin_ca_file is required when auth_method = " +:+ quoted "mtls")
  else
    let? _ :=
      if bool_decide (admin_auth_method c = AdminGssapi) then
        match admin_gssapi c with
        | None => Err ("[admin].gssapi section is required when auth_method = " +:+ quoted "gssapi")
        | Some g =>
            if negb (admin_gssproxy g) && bool_decide (admin_keytab_file g = None)
            then Err "[admin.gssapi]: set `keytab_file` or enable `gssproxy = true`"
            else if admin_gssproxy g && bool_decide (is_Some (admin_keytab_file g))
            then Err "[admin.gssapi]: `keytab_file` and `gssproxy = true` are mutually exclusive"
            else Ok tt
        end
      else Ok tt in
    if session_ttl_secs c =? 0 then Err "[admin].session_ttl_secs must be at least 1" else Ok tt.

(** The tokens of the configuration, resolved. *)
Record AdminSecrets : Type := MkAdminSecrets {
  admin_bearer_token : option string;
  auditor_bearer_token : option string
}.

(** ** Roles *)

Inductive AdminRole : Type := Operator | Auditor.
#[export] Instance AdminRole_eq_dec : EqDecision AdminRole.
Proof. solve_decision. Defined.

Record AdminAuth : Type := MkAdminAuth {
  admin_identity : string;
  admin_role : AdminRole
}.

(** A response that refuses: a text, a JSON object of an error and its
    detail, or an error of the server. *)
Inductive Refusal : Type :=
  | RefusedText (code : Z) (text : string)
  | RefusedJson (code : Z) (error detail : string)
  | RefusedError (e : KipukaError).
Definition refusal_status (r : Refusal) : Z :=
  match r with
  | RefusedText code _ | RefusedJson code _ _ => code
  | RefusedError e => http_status e
  end.

Definition require_operator (a : AdminAuth) : option Refusal :=
  if bool_decide (admin_role a = Operator) then None
  else Some (RefusedText 403 "operator role required for this operation").

(** ** The extractor *)

(** What a request brings, and what the extractor reads: the
    [Authorization] header if it is text, the peer's certificate, the clock,
    the file of trust anchors, and the certificates of a PEM text. *)
Record AdminRequest : Type := MkAdminRequest {
  rq_authorization : option string;
  rq_peer : option bytes;
  rq_now : Z;
  rq_read_file : string -> bytes + string;
  rq_pem_certs : bytes -> list bytes
}.

Section AdminAuth.
Context `{HL : X509Lib}.
Variable to_lowercase : string -> string.
(** [Display] of a [DateTime<Utc>] *)
Variable display_utc : Z -> string.
(** [check_revocation] of [src/auth/mtls.rs] at this call *)
Variable revocation : bytes -> outcome unit string.

(** Both tokens are compared, the operators' takes precedence. *)
Definition bearer_role (s : AdminSecrets) (token : string) : option AdminRole :=
  let is_token t := match t with Some t => String.eqb token t | None => false end in
  let matched := if is_token (admin_bearer_token s) then Some Operator else None in
  if is_token (auditor_bearer_token s) then Some (default Auditor matched) else matched.

Definition role_identity (r : AdminRole) : string :=
  match r with Operator => "admin" | Auditor => "auditor" end.

Definition resolve_admin_role (dn : string) (operators auditors : list string) : option AdminRole :=
  let listed l := existsb (fun p => String.eqb (to_lowercase p) (to_lowercase dn)) l in
  if listed operators then Some Operator
  else if listed auditors then Some Auditor
  else if bool_decide (operators = []) && bool_decide (auditors = []) then Some Operator
  else None.

(** The cached anchors, or those of the file, which are then cached. *)
Definition admin_trust_anchors (cache : option (list bytes)) (rq : AdminRequest) (ca_file : string)
  : option (list bytes) * outcome (list bytes) string :=
  match cache with
  | Some certs => (cache, Ok certs)
  | None =>
      match rq_read_file rq ca_file with
      | inr e => (None, Err ("failed to read admin CA file '" +:+ ca_file +:+ "': " +:+ e))
      | inl pem =>
          match rq_pem_certs rq pem with
          | [] => (None, Err ("no CA certificates found in admin CA file '" +:+ ca_file +:+ "'"))
          | certs => (Some certs, Ok certs)
          end
      end
  end.

(** The loop over the anchors. *)
Definition anchor_verifies (tbs sig_alg sig anchor : bytes) : bool :=
  match cert_ranges anchor with
  | None => false
  | Some r => match verify_signature tbs sig_alg sig r.2 with inl _ => true | inr _ => false end
  end.

(** The steps before and after the anchors. *)
Definition admin_client (der : bytes) : outcome (Cert * string) string :=
  let? cert := of_lib (fun e => "failed to parse admin client certificate: " +:+ e) (cert_from_der der) in
  let dn := format_dn (cert_subject cert) in
  if is_empty dn || String.eqb dn "<invalid>"
  then Err "admin client certificate has no valid subject DN" else Ok (cert, dn).

Definition admin_signature (cert : Cert) (dn ca_file : string) (der : bytes) (anchors : list bytes)
  : outcome unit string :=
  let? r := ok_or (cert_ranges der) "failed to extract byte ranges from admin client certificate" in
  if existsb (anchor_verifies r.1.1 r.1.2 (cert_signature cert)) anchors then Ok tt
  else Err ("admin client certificate (subject: " +:+ dn +:+ ") does not chain to any trust anchor in '" +:+
            ca_file +:+ "'").

Definition date_components (t : CertTime) : string :=
  let '(y, m, d, h, n, s) :=
    match t with UtcTime y m d h n s => (y, m, d, h, n, s) | GeneralTime y m d h n s => (y, m, d, h, n, s) end in
  pretty y +:+ "-" +:+ pad 2 m +:+ "-" +:+ pad 2 d +:+ " " +:+ pad 2 h +:+ ":" +:+ pad 2 n +:+ ":" +:+ pad 2 s.
Definition time_to_chrono (t : CertTime) : outcome Z string :=
  map_err (fun _ => "invalid date components: " +:+ date_components t) (time t).

Definition admin_validity (cert : Cert) (now : Z) : outcome unit string :=
  let? nb := time_to_chrono (cert_not_before cert) in
  let? na := time_to_chrono (cert_not_after cert) in
  if now <? nb then Err ("admin client certificate is not yet valid (notBefore: " +:+ display_utc nb +:+ ")")
  else if na <? now then Err ("admin client certificate has expired (notAfter: " +:+ display_utc na +:+ ")")
  else Ok tt.

Definition validate_admin_cert (cache : option (list bytes)) (rq : AdminRequest) (cfg : AdminConfig)
    (der : bytes) : option (list bytes) * outcome (string * AdminRole) string :=
  match admin_client der with
  | Err e => (cache, Err e)
  | Panic => (cache, Panic)
  | Ok (cert, dn) =>
      match admin_ca_file cfg with
      | None => (cache, Err "admin_ca_file not configured for mTLS validation")
      | Some ca_file =>
          let (cache, anchors) := admin_trust_anchors cache rq ca_file in
          (cache,
           let? anchors := anchors in
           let? _ := admin_signature cert dn ca_file der anchors in
           let? _ := admin_validity cert (rq_now rq) in
           let? role := ok_or (resolve_admin_role dn (allowed_operators cfg) (allowed_auditors cfg))
             ("admin client DN '" +:+ dn +:+ "' does not match any allowed operator or auditor pattern") in
           Ok (dn, role))
      end
  end.

Definition bearer_token (rq : AdminRequest) : option string :=
  match rq_authorization rq with
  | Some header =>
      match strip_prefix "Bearer " header with
      | Some token => if is_empty token then None else Some token
      | None => None
      end
  | None => None
  end.

Definition unauthenticated : Refusal :=
  RefusedText 401 "admin authentication required: Bearer token or mTLS certificate".

(** [AdminAuth::from_request_parts] *)
Definition admin_auth (cfg : option AdminConfig) (secrets : AdminSecrets) (cache : option (list bytes))
    (rq : AdminRequest) : option (list bytes) * outcome AdminAuth Refusal :=
  match cfg with
  | Some cfg =>
      if negb (admin_enabled cfg) then (cache, Err (RefusedText 404 EmptyString))
      else
        let by_token :=
          if bool_decide (admin_auth_method cfg = AdminBearer)
          then match bearer_token rq with Some token => bearer_role secrets token | None => None end
          else None in
        match by_token with
        | Some role => (cache, Ok (MkAdminAuth (role_identity role) role))
        | None =>
            let peer :=
              if bool_decide (admin_auth_method cfg = AdminMtls) then rq_peer rq else None in
            match peer with
            | Some (b :: rest) =>
                let der := b :: rest in
                match validate_admin_cert cache rq cfg der with
                | (cache, Ok (dn, role)) =>
                    (cache,
                     let? _ := map_err (fun e => RefusedError (EAuth e)) (revocation der) in
                     Ok (MkAdminAuth dn role))
                | (cache, Err reason) =>
                    (cache, Err (RefusedText 403 ("admin mTLS validation failed: " +:+ reason)))
                | (cache, Panic) => (cache, Panic)
                end
            | _ => (cache, Err unauthenticated)
            end
        end
  | None => (cache, Err (RefusedText 404 EmptyString))
  end.

(** ** Who gets in *)

(** A certificate of the administrators: signed with the key of an anchor,
    valid now, with a subject that has the role. *)
Definition admin_certificate (cfg : AdminConfig) (anchors : list bytes) (now : Z) (der : bytes)
    (dn : string) (role : AdminRole) : Prop :=
  exists cert tbs alg spki anchor r nb na,
    cert_from_der der = inl cert /\ dn = format_dn (cert_subject cert) /\ dn <> EmptyString /\
    cert_ranges der = Some (tbs, alg, spki) /\ anchor ∈ anchors /\ cert_ranges anchor = Some r /\
    verify_signature tbs alg (cert_signature cert) r.2 = inl tt /\
    time (cert_not_before cert) = Ok nb /\ time (cert_not_after cert) = Ok na /\ nb <= now <= na /\
    resolve_admin_role dn (allowed_operators cfg) (allowed_auditors cfg) = Some role.
End AdminAuth.

(** * The administration interface

    [src/routes/admin/otp.rs], [certs.rs] and [audit.rs], and the section of
    [src/config/otp.rs]: issuing, listing and revoking one-time passwords,
    listing and revoking certificates, reviewing the audit trail, and the task
    of [src/main.rs] that deletes expired passwords.  A handler answers a
    value of Rust's types, before [serde_json] writes it.

    Times are compared by SQL as texts.  A text of a year with four digits
    sorts as its milliseconds; any other year has a sign, which sorts before
    every digit: such an expiry is stored here as -1.  The read-only pool that
    some handlers read from is on the same database; the column [revoked_at]
    of the passwords, which nothing reads, is left out. *)
From S2P Require Import AuditLog FailureTracker BasicOtp Labels.
Open Scope Z_scope.

(** ** Configuration of one-time passwords *)

Inductive OtpStorageBackend : Type := OtpDb | OtpLdap.
#[export] Instance OtpStorageBackend_eq_dec : EqDecision OtpStorageBackend.
Proof. solve_decision. Defined.
Record OtpLdapConfig : Type := MkOtpLdap {
  ldap_url : string;
  ldap_bind_dn : string;
  ldap_bind_password : SecretRef;
  ldap_base_dn : string;
  otp_attribute : string;
  ldap_timeout_secs : Z;              (* u64 *)
  starttls : bool
}.
Record OtpConfig : Type := MkOtpConfig {
  otp_cfg_enabled : bool;
  entropy_bits : Z;                   (* u32 *)
  otp_ttl_seconds : Z;                (* u64 *)
  otp_max_usage : Z;                  (* u32 *)
  storage_backend : OtpStorageBackend;
  otp_ldap : option OtpLdapConfig;
  cleanup_interval_secs : Z           (* u64 *)
}.
Definition otp_config_default : OtpConfig := MkOtpConfig false 128 3600 1 OtpDb None 300.

(** [OtpConfig::validate] *)
Definition validate_otp_config (c : OtpConfig) : outcome unit string :=
  if negb (otp_cfg_enabled c) then Ok tt
  else if entropy_bits c <? 128 then
    Err ("[otp].entropy_bits must be at least 128, got " +:+ pretty (entropy_bits c))
  else if otp_ttl_seconds c =? 0 then Err "[otp].ttl_seconds must be at least 1"
  else if otp_max_usage c =? 0 then Err "[otp].max_usage must be at least 1"
  else if cleanup_interval_secs c =? 0 then Err "[otp].cleanup_interval_secs must be at least 1"
  else if bool_decide (storage_backend c = OtpLdap) && bool_decide (is_Some (otp_ldap c) -> False) then
    Err ("[otp].ldap section is required when storage_backend = " +:+ quoted "ldap")
  else
    match otp_ldap c with
    | None => Ok tt
    | Some l =>
        if is_empty (ldap_url l) then Err "[otp.ldap].url must not be empty"
        else if is_empty (ldap_bind_dn l) then Err "[otp.ldap].bind_dn must not be empty"
        else if is_empty (ldap_base_dn l) then Err "[otp.ldap].base_dn must not be empty"
        else Ok tt
    end.

(** ** State *)

(** [ad_anchors] is the cache of trust anchors, [ad_next_otp] the next
    identifier of the table of passwords. *)
Record AdminState : Type := MkAdminState {
  ad_anchors : option (list bytes);
  ad_app : AppState;
  ad_tokens : OtpTable;
  ad_next_otp : Z
}.
Definition set_ad_app (s : AdminState) (a : AppState) : AdminState :=
  MkAdminState (ad_anchors s) a (ad_tokens s) (ad_next_otp s).
Definition set_ad_tokens (s : AdminState) (t : OtpTable) (next : Z) : AdminState :=
  MkAdminState (ad_anchors s) (ad_app s) t next.

(** What a call reads: the clock, the random bytes, what a statement fails
    with, the database's clock, and the call to the audit trail. *)
Record AdminOutside : Type := MkAdminOutside {
  ao_now : Z;
  ao_random : Z -> bytes + string;
  ao_statement : option string;
  ao_second_statement : option string;
  ao_db_now : string;
  ao_event : AuditCall
}.

Definition storage_error (detail : string) : Refusal := RefusedJson 500 "storage_error" detail.
Definition database_error (detail : string) : Refusal := RefusedJson 500 "database_error" detail.
Definition otp_disabled (detail : string) : Refusal := RefusedJson 400 "otp_disabled" detail.

(** ** One-time passwords *)

Record GenerateOtpRequest : Type := MkGenerateOtp {
  go_entity_id : string;
  go_ttl_seconds : option Z;          (* u64 *)
  go_max_usage : option Z             (* u32 *)
}.
Record OtpResponse : Type := MkOtpResponse {
  or_token : string;
  or_entity_id : string;
  or_expires_at : string;
  or_max_usage : Z
}.
Record OtpSummary : Type := MkOtpSummary {
  os_id : string;
  os_entity_id : string;
  os_expires_at : Z;
  os_max_usage : Z;                   (* u32 *)
  os_usage_count : Z;                 (* u32 *)
  os_created_at : string
}.

(** [i64::from_str] *)
Definition parse_i64 (s : string) : outcome Z string :=
  match s with
  | String "-" EmptyString => Err "invalid digit found in string"
  | String "-" s' => let? n := parse_digits (2 ^ 63) 0 s' in Ok (- n)
  | _ => parse_unsigned (2 ^ 63 - 1) s
  end.

(** What SQL compares, of an instant written in RFC 3339. *)
Definition text_key (t : Z) : Z :=
  let '(y, _, _) := civil_from_days (date_naive t) in
  if (0 <=? y) && (y <=? 9999) then t / 1000000 else -1.

(** The smallest and the largest instant of chrono; [Duration::seconds]
    holds what fits in milliseconds. *)
Record TimeBounds : Type := MkTimeBounds { first_instant : Z; last_instant : Z }.
Definition after_seconds (b : TimeBounds) (now secs : Z) : outcome Z Refusal :=
  if (secs <? - ((2 ^ 63 - 1) / 1000)) || ((2 ^ 63 - 1) / 1000 <? secs) then Panic
  else
    let t := now + secs * SECS in
    if (t <? first_instant b) || (last_instant b <? t) then Panic else Ok t.

Section Admin.
Context `{HL : X509Lib}.
Variable digest : option bytes -> bytes -> string.
Variable json_object : list (string * string) -> string.
(** base64url, SHA-256 in hexadecimal, [to_rfc3339_opts] with milliseconds,
    the [Debug] text of an optional string *)
Variable b64url_encode : bytes -> string.
Variable sha256_hex : bytes -> string.
Variable rfc3339_millis : Z -> string.
Variable debug_option : option string -> string.
Variable bounds : TimeBounds.

Definition generated_row (s : AdminState) (o : AdminOutside) (req : GenerateOtpRequest) (token : string)
    (max_usage expires : Z) : OtpRow :=
  MkRow (ad_next_otp s) (hash_of sha256_hex token) (go_entity_id req) (text_key expires) max_usage 0 false
    (ao_db_now o).

(** The checks and the token, before the insert. *)
Definition prepare_otp (config : OtpConfig) (o : AdminOutside) (req : GenerateOtpRequest)
  : outcome (string * Z * Z) Refusal :=
  if negb (otp_cfg_enabled config) then
    Err (otp_disabled "OTP authentication is not enabled in server configuration")
  else if is_empty (go_entity_id req) then
    Err (RefusedJson 400 "invalid_entity_id" "entity_id must not be empty")
  else
    let ttl := default (otp_ttl_seconds config) (go_ttl_seconds req) in
    let max_usage := default (otp_max_usage config) (go_max_usage req) in
    let? raw := of_lib (fun _ => RefusedJson 500 "rng_failure"
        "failed to obtain secure random bytes for OTP generation")
      (ao_random o (entropy_bits config / 8)) in
    let? expires := after_seconds bounds (ao_now o) (as_i64 ttl) in
    Ok (b64url_encode raw, max_usage, expires).

Definition generate_otp (config : OtpConfig) (o : AdminOutside) (s : AdminState) (admin : AdminAuth)
    (req : GenerateOtpRequest) : AdminState * outcome OtpResponse Refusal :=
  match require_operator admin with
  | Some r => (s, Err r)
  | None =>
      match prepare_otp config o req with
      | Ok (token, max_usage, expires) =>
          match ao_statement o with
          | Some _ => (s, Err (storage_error "Failed to store OTP token"))
          | None =>
              let row := generated_row s o req token max_usage expires in
              let s := set_ad_tokens s (ad_tokens s ++ [row]) (ad_next_otp s + 1) in
              (set_ad_app s (record_audit_event digest json_object (ad_app s) "otp_generated"
                 ("entity_id=" +:+ go_entity_id req) (ao_event o)),
               Ok (MkOtpResponse token (go_entity_id req) (rfc3339_millis expires) max_usage))
          end
      | Err e => (s, Err e)
      | Panic => (s, Panic)
      end
  end.

Definition otp_summary (r : OtpRow) : OtpSummary :=
  MkOtpSummary (pretty (row_id r)) (row_entity r) (row_expires r) (as_u32 (row_max_uses r))
    (as_u32 (row_uses r)) (row_created r).

(** [WHERE revoked = false AND expires_at > now] *)
Definition listed_otp (now : Z) (r : OtpRow) : bool := negb (row_revoked r) && (now <? row_expires r).

Definition list_otps (config : OtpConfig) (o : AdminOutside) (s : AdminState)
  : outcome (list OtpSummary) Refusal :=
  if negb (otp_cfg_enabled config) then Err (otp_disabled "OTP authentication is not enabled")
  else
    match ao_statement o with
    | Some _ => Err (storage_error "Failed to query OTP tokens")
    | None => Ok (map otp_summary (List.filter (listed_otp (text_key (ao_now o))) (ad_tokens s)))
    end.

(** The update of the row with that identifier. *)
Definition revoke_otp_row (otp_id : Z) (r : OtpRow) : OtpRow :=
  if row_id r =? otp_id then
    MkRow (row_id r) (row_token_hash r) (row_entity r) (row_expires r) (row_max_uses r) (row_uses r) true
      (row_created r)
  else r.

Definition revoke_otp (config : OtpConfig) (o : AdminOutside) (s : AdminState) (admin : AdminAuth)
    (id : string) : AdminState * outcome unit Refusal :=
  match require_operator admin with
  | Some r => (s, Err r)
  | None =>
      if negb (otp_cfg_enabled config) then (s, Err (otp_disabled "OTP authentication is not enabled"))
      else
        match parse_i64 id with
        | Ok otp_id =>
            match ao_statement o with
            | Some _ => (s, Err (storage_error "Failed to revoke OTP"))
            | None =>
                if existsb (fun r => row_id r =? otp_id) (ad_tokens s) then
                  let s := set_ad_tokens s (map (revoke_otp_row otp_id) (ad_tokens s)) (ad_next_otp s) in
                  (set_ad_app s (record_audit_event digest json_object (ad_app s) "otp_revoked"
                     ("otp_id=" +:+ id) (ao_event o)), Ok tt)
                else (s, Err (RefusedJson 404 "not_found" "OTP not found"))
            end
        | _ => (s, Err (RefusedJson 400 "invalid_id" "OTP id must be a valid integer"))
        end
  end.

(** The clean-up: [DELETE FROM otp_tokens WHERE expires_at < now].  The text
    of now has nanoseconds and another suffix, which does not matter to the
    order of different milliseconds and keeps equal ones. *)
Definition otp_cleanup (error : option string) (now : Z) (t : OtpTable) : OtpTable :=
  match error with
  | Some _ => t
  | None => List.filter (fun r => negb (row_expires r <? text_key now)) t
  end.

(** ** Certificates *)

Record ListCertsQuery : Type := MkListCerts {
  lc_ca_id : option string;
  lc_status : option string;
  lc_limit : Z;                       (* u32 *)
  lc_offset : Z                       (* u32 *)
}.
Record CertSummary : Type := MkCertSummary {
  cs_serial : string;
  cs_subject : string;
  cs_ca_id : string;
  cs_issued_at : string;
  cs_expires_at : string;
  cs_status : string
}.
(** [CertDetail]; the fields that would need the certificate are empty. *)
Record CertDetail : Type := MkCertDetail {
  cd_summary : CertSummary;
  cd_revocation_reason : option string;
  cd_revoked_at : option string
}.

Definition cert_summary (r : CertRow) : CertSummary :=
  MkCertSummary (cr_serial r) (cr_subject_dn r) (cr_ca_id r) (cr_not_before r) (cr_not_after r) (cr_status r).

(** An optional filter. *)
Definition matches (filter : option string) (value : string) : bool :=
  match filter with Some f => String.eqb value f | None => true end.
(** [LIMIT] and [OFFSET] *)
Definition page {A} (limit offset : Z) (l : list A) : list A :=
  take (Z.to_nat (Z.min limit 1000)) (drop (Z.to_nat offset) l).

(** The rows by time of creation, newest first; rows of one second come in
    any order, so the order is an argument. *)
Definition list_certs (order : list CertRow -> list CertRow) (o : AdminOutside) (s : AdminState)
    (q : ListCertsQuery) : AdminState * outcome (list CertSummary) Refusal :=
  match ao_statement o with
  | Some _ => (s, Err (database_error "failed to query certificate database"))
  | None =>
      let rows := List.filter (fun r => matches (lc_ca_id q) (cr_ca_id r) && matches (lc_status q) (cr_status r))
        (order (certificates (ad_app s))) in
      let certs := map cert_summary (page (lc_limit q) (lc_offset q) rows) in
      (set_ad_app s (record_audit_event digest json_object (ad_app s) "admin_cert_list"
         ("count=" +:+ pretty (length certs) +:+ ", ca_id=" +:+ debug_option (lc_ca_id q) +:+ ", status=" +:+
          debug_option (lc_status q)) (ao_event o)), Ok certs)
  end.

Definition find_cert (s : AppState) (serial : string) : option CertRow :=
  List.find (fun r => String.eqb (cr_serial r) serial) (certificates s).
Definition cert_not_found (serial : string) : Refusal :=
  RefusedJson 404 "not_found" ("certificate with serial " +:+ serial +:+ " not found").

Definition get_cert (o : AdminOutside) (s : AdminState) (serial : string)
  : AdminState * outcome CertDetail Refusal :=
  match ao_statement o with
  | Some _ => (s, Err (database_error "failed to query certificate database"))
  | None =>
      match find_cert (ad_app s) serial with
      | None => (s, Err (cert_not_found serial))
      | Some r =>
          (set_ad_app s (record_audit_event digest json_object (ad_app s) "admin_cert_detail"
             ("serial=" +:+ serial) (ao_event o)),
           Ok (MkCertDetail (cert_summary r) (cr_revocation_reason r) (cr_revocation_time r)))
      end
  end.

Definition valid_reasons : list Z := [0; 1; 2; 3; 4; 5; 6; 9; 10].

(** The update of a row that is not yet revoked. *)
Definition admin_revokes (serial : string) (r : CertRow) : bool :=
  String.eqb (cr_serial r) serial && negb (String.eqb (cr_status r) "revoked").
Definition admin_revoke_row (serial reason now : string) (r : CertRow) : CertRow :=
  if admin_revokes serial r then
    MkCertRow (cr_serial r) (cr_subject_dn r) (cr_issuer_dn r) (cr_not_before r) (cr_not_after r)
      (cr_der r) (cr_ca_id r) (cr_profile r) "revoked" (Some reason) (Some now)
  else r.

Definition revoke_cert (o : AdminOutside) (s : AdminState) (admin : AdminAuth) (serial : string) (reason : Z)
  : AdminState * outcome unit Refusal :=
  match require_operator admin with
  | Some r => (s, Err r)
  | None =>
      if negb (existsb (Z.eqb reason) valid_reasons) then
        (s, Err (RefusedJson 400 "invalid_reason" ("reason code " +:+ pretty reason +:+ " is not a valid CRL reason")))
      else
        match ao_statement o with
        | Some _ => (s, Err (database_error "failed to update certificate status"))
        | None =>
            let rows := certificates (ad_app s) in
            let updated := map (admin_revoke_row serial (pretty reason) (format_utc (ao_now o))) rows in
            let recorded s := set_ad_app s (record_audit_event digest json_object (ad_app s) "cert_revoked"
              ("serial=" +:+ serial +:+ ", reason=" +:+ pretty reason) (ao_event o)) in
            if existsb (admin_revokes serial) rows then
              (recorded (set_ad_app s (set_certificates (ad_app s) updated)), Ok tt)
            else
              match ao_second_statement o with
              | Some _ => (s, Err (database_error "failed to query certificate database"))
              | None =>
                  match find_cert (ad_app s) serial with
                  | None => (s, Err (cert_not_found serial))
                  | Some _ => (recorded s, Ok tt)
                  end
              end
        end
  end.

(** ** The audit trail *)

Record ListAuditQuery : Type := MkListAudit {
  la_event_type : option string;
  la_actor : option string;
  la_limit : Z;                       (* u32 *)
  la_offset : Z                       (* u32 *)
}.
Record AuditEventSummary : Type := MkAuditSummary {
  as_id : Z;
  as_timestamp : string;
  as_event_type : string;
  as_actor : option string;
  as_target : option string;
  as_detail_json : option string;
  as_source_ip : option string
}.
Definition audit_summary (r : AuditRow) : AuditEventSummary :=
  MkAuditSummary (ar_id r) (ar_timestamp r) (ar_event_type r) (ar_actor r) (ar_target r) (ar_detail_json r)
    (ar_source_ip r).

(** A column that is NULL equals no text. *)
Definition matches_column (filter value : option string) : bool :=
  match filter with Some f => bool_decide (value = Some f) | None => true end.
Definition reviewed (q : ListAuditQuery) (r : AuditRow) : bool :=
  matches (la_event_type q) (ar_event_type r) && matches_column (la_actor q) (ar_actor r).

(** [ORDER BY id DESC]: the table is in the order of its identifiers. *)
Definition list_audit_from_db (db : AuditDb) (q : ListAuditQuery) : list AuditEventSummary :=
  map audit_summary (page (la_limit q) (la_offset q) (rev (List.filter (reviewed q) (audit_rows db)))).

Definition list_audit_events (o : AdminOutside) (s : AdminState) (admin : AdminAuth) (q : ListAuditQuery)
  : AdminState * outcome (list AuditEventSummary) Refusal :=
  match ao_statement o with
  | Some _ => (s, Err (database_error "failed to query audit trail"))
  | None =>
      let events := list_audit_from_db (app_audit_db (ad_app s)) q in
      (set_ad_app s (record_audit_event_with_actor digest json_object (ad_app s) "admin_audit_review"
         (admin_identity admin)
         ("count=" +:+ pretty (length events) +:+ ", filter_event_type=" +:+ debug_option (la_event_type q) +:+
          ", filter_actor=" +:+ debug_option (la_actor q)) (ao_event o)), Ok events)
  end.

(** ** The router *)

Inductive AdminOp : Type :=
  | OpGenerateOtp (req : GenerateOtpRequest)
  | OpListOtps
  | OpRevokeOtp (id : string)
  | OpListCerts (order : list CertRow -> list CertRow) (q : ListCertsQuery)
  | OpGetCert (serial : string)
  | OpRevokeCert (serial : string) (reason : Z)
  | OpListAudit (q : ListAuditQuery).

Inductive AdminAnswer : Type :=
  | AnsGenerated (r : OtpResponse)           (* 201 *)
  | AnsOtps (l : list OtpSummary)            (* 200 *)
  | AnsDone                                  (* 204 *)
  | AnsCerts (l : list CertSummary)
  | AnsCert (d : CertDetail)
  | AnsEvents (l : list AuditEventSummary).

Definition answered {T} (f : T -> AdminAnswer) (r : AdminState * outcome T Refusal)
  : AdminState * outcome AdminAnswer Refusal :=
  (r.1, match r.2 with Ok t => Ok (f t) | Err e => Err e | Panic => Panic end).

Definition admin_handler (config : OtpConfig) (o : AdminOutside) (s : AdminState) (admin : AdminAuth)
    (op : AdminOp) : AdminState * outcome AdminAnswer Refusal :=
  match op with
  | OpGenerateOtp req => answered AnsGenerated (generate_otp config o s admin req)
  | OpListOtps => answered AnsOtps (s, list_otps config o s)
  | OpRevokeOtp id => answered (fun _ => AnsDone) (revoke_otp config o s admin id)
  | OpListCerts order q => answered AnsCerts (list_certs order o s q)
  | OpGetCert serial => answered AnsCert (get_cert o s serial)
  | OpRevokeCert serial reason => answered (fun _ => AnsDone) (revoke_cert o s admin serial reason)
  | OpListAudit q => answered AnsEvents (list_audit_events o s admin q)
  end.

Variable to_lowercase : string -> string.
Variable display_utc : Z -> string.

(** A request to a route of the administration interface: the extractor,
    then the handler. *)
Definition admin_serve (cfg : option AdminConfig) (secrets : AdminSecrets) (config : OtpConfig)
    (revocation : bytes -> outcome unit string) (rq : AdminRequest) (o : AdminOutside) (s : AdminState)
    (op : AdminOp) : AdminState * outcome AdminAnswer Refusal :=
  let (anchors, auth) := admin_auth to_lowercase display_utc revocation cfg secrets (ad_anchors s) rq in
  let s := MkAdminState anchors (ad_app s) (ad_tokens s) (ad_next_otp s) in
  match auth with
  | Ok admin => admin_handler config o s admin op
  | Err e => (s, Err e)
  | Panic => (s, Panic)
  end.
End Admin.

Example signed_id : parse_i64 "-42" = Ok (-42).
Proof. reflexivity. Qed.
Example least_id : parse_i64 "-9223372036854775808" = Ok (- 2 ^ 63).
Proof. reflexivity. Qed.
