(* ===== verification/AdminSpec.v ===== *)
(** * The administration interface: the theorems

    Of Admin.v and Admin.v: who gets in and as what, what a call can
    change, how often a one-time password is good for, and that a review of
    the audit trail page by page misses nothing. *)
From S2P Require Import Prelude Words Text Errors Calendar X509 ExampleLibs Ocsp AuditLog AuditSpec FailureTracker BasicOtp Labels Revocation Admin.
Open Scope Z_scope.

(** ** Who gets in *)

Section Auth.
Context `{HL : X509Lib}.
Variable to_lowercase : string -> string.
Variable display_utc : Z -> string.
Variable revocation : bytes -> outcome unit string.
Abbreviation admin_auth := (admin_auth to_lowercase display_utc revocation).
Abbreviation validate_admin_cert := (validate_admin_cert to_lowercase display_utc).

Lemma admin_trust_anchors_spec cache rq ca_file cache' r :
  admin_trust_anchors cache rq ca_file = (cache', r) ->
  (cache' = cache \/ cache = None /\ exists pem, rq_read_file rq ca_file = inl pem /\
     cache' = Some (rq_pem_certs rq pem) /\ rq_pem_certs rq pem <> []) /\
  (forall anchors, r = Ok anchors -> cache' = Some anchors) /\ r <> Panic.
Proof.
  unfold admin_trust_anchors. destruct cache as [l|].
  - intros [= <- <-]. split_and!; [by left|by intros a [= ->]|done].
  - destruct (rq_read_file rq ca_file) as [pem|e]; [|intros [= <- <-]; split_and!; [by left|done..]].
    destruct (rq_pem_certs rq pem) as [|c l] eqn:Ep; intros [= <- <-]; split_and!; try done; [by left| |by intros a [= ->]].
    right. split; [done|]. exists pem. by rewrite Ep.
Qed.

Lemma admin_client_Ok der cert dn :
  admin_client der = Ok (cert, dn) ->
  cert_from_der der = inl cert /\ dn = format_dn (cert_subject cert) /\ dn <> EmptyString.
Proof.
  unfold admin_client. intros E. take_ok E as c E1. apply of_lib_Ok in E1.
  destruct (is_empty _) eqn:Ee; [done|]. cbn [orb] in E. destruct (String.eqb _ _); [done|]. injection E as <- <-.
  split_and!; [done|done|]. intros H. by rewrite H in Ee.
Qed.

Lemma admin_signature_Ok cert dn ca_file der anchors :
  admin_signature cert dn ca_file der anchors = Ok tt ->
  exists tbs alg spki anchor r, cert_ranges der = Some (tbs, alg, spki) /\ anchor ∈ anchors /\
    cert_ranges anchor = Some r /\ verify_signature tbs alg (cert_signature cert) r.2 = inl tt.
Proof.
  unfold admin_signature. destruct (cert_ranges der) as [[[tbs alg] spki]|]; [|done]. cbn [ok_or obind fst snd].
  destruct (existsb _ anchors) eqn:E; [|done]. intros _. apply existsb_exists in E as (anchor & Hin & Hv).
  unfold anchor_verifies in Hv. destruct (cert_ranges anchor) as [r|] eqn:Er; [|done].
  destruct (verify_signature _ _ _ _) as [[]|] eqn:Ev; [|done].
  exists tbs, alg, spki, anchor, r. split_and!; [done|by apply list_elem_of_In|done|done].
Qed.

Lemma admin_validity_Ok cert now :
  admin_validity display_utc cert now = Ok tt -> exists nb na,
    time (cert_not_before cert) = Ok nb /\ time (cert_not_after cert) = Ok na /\ nb <= now <= na.
Proof.
  unfold admin_validity, time_to_chrono. intros E. take_ok E as nb E1. take_ok E as na E2.
  apply map_err_Ok in E1, E2. exists nb, na. case_in E; [done|]. case_in E; [done|]. split_and!; try done; blia.
Qed.

Lemma validate_admin_cert_spec cache rq cfg der cache' r :
  validate_admin_cert cache rq cfg der = (cache', r) ->
  (cache' = cache \/ cache = None /\ exists ca_file pem, admin_ca_file cfg = Some ca_file /\
     rq_read_file rq ca_file = inl pem /\ cache' = Some (rq_pem_certs rq pem) /\ rq_pem_certs rq pem <> []) /\
  (forall dn role, r = Ok (dn, role) -> exists anchors, cache' = Some anchors /\
     admin_certificate to_lowercase cfg anchors (rq_now rq) der dn role).
Proof.
  unfold Admin.validate_admin_cert. destruct (admin_client der) as [[cert dn]|e|] eqn:Ec;
    [|intros [= <- <-]; by split; [left|]..].
  apply admin_client_Ok in Ec as (H1 & H2 & H3). destruct (admin_ca_file cfg) as [ca_file|];
    [|intros [= <- <-]; by split; [left|]].
  destruct (admin_trust_anchors cache rq ca_file) as [c anchors] eqn:Ea.
  apply admin_trust_anchors_spec in Ea as (Hc & Hok & _). intros [= <- <-]. split.
  - destruct Hc as [->|[-> (pem & ?)]]; [by left|]. right. split; [done|]. by exists ca_file, pem.
  - intros dn' role E. take_ok E as l El. exists l. split; [by apply Hok|]. take_ok E as u Es. destruct u.
    take_ok E as u Ev. destruct u. take_ok E as role' Er. apply ok_or_Ok in Er. injection E as <- <-.
    apply admin_signature_Ok in Es as (tbs & alg & spki & anchor & r & ? & ? & ? & ?).
    apply admin_validity_Ok in Ev as (nb & na & ? & ? & ?).
    exists cert, tbs, alg, spki, anchor, r, nb, na. split_and!; tauto.
Qed.

Lemma bearer_token_Some rq token :
  bearer_token rq = Some token -> rq_authorization rq = Some ("Bearer " +:+ token) /\ token <> EmptyString.
Proof.
  unfold bearer_token. destruct (rq_authorization rq) as [h|]; [|done].
  destruct (strip_prefix "Bearer " h) as [t|] eqn:E; [|done]. apply strip_prefix_Some in E as ->.
  destruct (is_empty t) eqn:Et; [done|]. intros [= <-]. split; [done|]. by intros ->.
Qed.

Lemma bearer_role_Some secrets token role :
  bearer_role secrets token = Some role ->
  match role with
  | Operator => admin_bearer_token secrets = Some token
  | Auditor => auditor_bearer_token secrets = Some token /\ admin_bearer_token secrets <> Some token
  end.
Proof.
  unfold bearer_role. destruct (admin_bearer_token secrets) as [t|]; [destruct (String.eqb_spec token t) as [<-|]|];
    (destruct (auditor_bearer_token secrets) as [u|]; [destruct (String.eqb_spec token u) as [<-|]|]);
    intros [= <-]; try done; split; congruence.
Qed.

(** C28: who administers the server.  The interface answers a caller only
    if it is enabled, and then by the configured method alone: a bearer of
    the operators' token is an operator and a bearer of the auditors' token,
    if it is another one, an auditor; or the caller presents a certificate
    that is valid now, not revoked, signed with the key of an anchor of the
    administrators, and whose subject has the role.  The anchors are those
    of the configured file, kept from the first read that succeeded. *)
Theorem admin_auth_sound cfg secrets cache rq cache' a :
  admin_auth cfg secrets cache rq = (cache', Ok a) ->
  exists c, cfg = Some c /\ admin_enabled c = true /\
  ((admin_auth_method c = AdminBearer /\ cache' = cache /\ exists token,
      rq_authorization rq = Some ("Bearer " +:+ token) /\ token <> EmptyString /\
      match admin_role a with
      | Operator => admin_bearer_token secrets = Some token
      | Auditor => auditor_bearer_token secrets = Some token /\ admin_bearer_token secrets <> Some token
      end) \/
   (admin_auth_method c = AdminMtls /\ exists der anchors, rq_peer rq = Some der /\ der <> [] /\
      cache' = Some anchors /\
      (cache = Some anchors \/ exists ca_file pem, admin_ca_file c = Some ca_file /\
         rq_read_file rq ca_file = inl pem /\ anchors = rq_pem_certs rq pem) /\
      admin_certificate to_lowercase c anchors (rq_now rq) der (admin_identity a) (admin_role a) /\
      revocation der = Ok tt)).
Proof.
  unfold Admin.admin_auth. destruct cfg as [c|]; [|done]. destruct (admin_enabled c) eqn:Hen; [|done].
  cbn [negb]. intros E. exists c. split; [done|]. split; [done|].
  case_bool_decide as Hb.
  - left. destruct (bearer_token rq) as [token|] eqn:Et.
    + apply bearer_token_Some in Et as [Ht Hne]. destruct (bearer_role secrets token) as [role|] eqn:Er.
      * injection E as <- <-. apply bearer_role_Some in Er. split; [done|]. split; [done|]. by exists token.
      * rewrite bool_decide_eq_false_2 in E by congruence. done.
    + rewrite bool_decide_eq_false_2 in E by congruence. done.
  - right. case_bool_decide as Hm; [|done]. destruct (rq_peer rq) as [[|b der]|]; [done| |done].
    destruct (validate_admin_cert cache rq c (b :: der)) as [c1 [[dn role]|e|]] eqn:Ev; [|done..].
    apply validate_admin_cert_spec in Ev as [Hc Hr]. injection E as <- E. take_ok E as u Er. destruct u.
    apply map_err_Ok in Er. injection E as <-. destruct (Hr _ _ eq_refl) as (anchors & -> & Ha).
    split; [done|]. exists (b :: der), anchors. split_and!; try done.
    destruct Hc as [<-|[-> (f & pem & ? & ? & [= ->] & _)]]; [by left|]. right. by exists f, pem.
Qed.
End Auth.

(** ** What a call changes *)

Section Effects.
Context `{HL : X509Lib}.
Variable digest : option bytes -> bytes -> string.
Variable json_object : list (string * string) -> string.
Variable b64url_encode : bytes -> string.
Variable sha256_hex : bytes -> string.
Variable rfc3339_millis : Z -> string.
Variable debug_option : option string -> string.
Variable bounds : TimeBounds.
Variable to_lowercase : string -> string.
Variable display_utc : Z -> string.

Abbreviation admin_handler := (admin_handler digest json_object b64url_encode sha256_hex rfc3339_millis debug_option
  bounds).
Abbreviation admin_serve := (admin_serve digest json_object b64url_encode sha256_hex rfc3339_millis debug_option
  bounds to_lowercase display_utc).
Abbreviation generate_otp := (generate_otp digest json_object b64url_encode sha256_hex rfc3339_millis bounds).
Abbreviation revoke_otp := (revoke_otp digest json_object).
Abbreviation revoke_cert := (revoke_cert digest json_object).

(** Only the audit trail may have grown. *)
Definition only_audited (s s' : AdminState) : Prop :=
  ad_tokens s' = ad_tokens s /\ ad_next_otp s' = ad_next_otp s /\
  certificates (ad_app s') = certificates (ad_app s) /\ pending_csrs (ad_app s') = pending_csrs (ad_app s).

(** What an operation of an operator does to the tables. *)
Definition operated (o : AdminOutside) (config : OtpConfig) (s s' : AdminState) (op : AdminOp) (ans : AdminAnswer)
  : Prop :=
  pending_csrs (ad_app s') = pending_csrs (ad_app s) /\
  match op with
  | OpGenerateOtp req => exists token expires,
      ad_tokens s' = ad_tokens s ++ [MkRow (ad_next_otp s) (hash_of sha256_hex token) (go_entity_id req)
        (text_key expires) (default (otp_max_usage config) (go_max_usage req)) 0 false (ao_db_now o)] /\
      ad_next_otp s' = ad_next_otp s + 1 /\ certificates (ad_app s') = certificates (ad_app s) /\
      ans = AnsGenerated (MkOtpResponse token (go_entity_id req) (rfc3339_millis expires)
        (default (otp_max_usage config) (go_max_usage req))) /\
      exists raw, ao_random o (entropy_bits config / 8) = inl raw /\ token = b64url_encode raw
  | OpRevokeOtp id => exists n, parse_i64 id = Ok n /\ ad_tokens s' = map (revoke_otp_row n) (ad_tokens s) /\
      ad_next_otp s' = ad_next_otp s /\ certificates (ad_app s') = certificates (ad_app s)
  | OpRevokeCert serial reason => reason ∈ valid_reasons /\ ad_tokens s' = ad_tokens s /\
      ad_next_otp s' = ad_next_otp s /\
      certificates (ad_app s') =
        map (admin_revoke_row serial (pretty reason) (format_utc (ao_now o))) (certificates (ad_app s))
  | _ => False
  end.

Lemma require_operator_None a : require_operator a = None <-> admin_role a = Operator.
Proof. unfold require_operator. case_bool_decide; naive_solver. Qed.

Lemma prepare_otp_Ok config o req token max_usage expires :
  prepare_otp b64url_encode bounds config o req = Ok (token, max_usage, expires) ->
  max_usage = default (otp_max_usage config) (go_max_usage req) /\
  exists raw, ao_random o (entropy_bits config / 8) = inl raw /\ token = b64url_encode raw.
Proof.
  unfold prepare_otp. destruct (negb _); [done|]. destruct (is_empty _); [done|]. intros E.
  take_ok E as raw E1. apply of_lib_Ok in E1. take_ok E as ex E2. injection E as <- <- <-. split; [done|]. by exists raw.
Qed.

Lemma generate_otp_spec config o s a req s' r :
  generate_otp config o s a req = (s', r) ->
  match r with
  | Ok resp => admin_role a = Operator /\ operated o config s s' (OpGenerateOtp req) (AnsGenerated resp)
  | _ => s' = s
  end.
Proof.
  unfold Admin.generate_otp. destruct (require_operator a) eqn:Ea; [by intros [= <- <-]|].
  apply require_operator_None in Ea. destruct (prepare_otp _ _ _ _ _) as [[[token max_usage] ex]|e|] eqn:Ep;
    [|by intros [= <- <-]..].
  apply prepare_otp_Ok in Ep as [-> Hraw]. destruct (ao_statement o); intros [= <- <-]; [done|]. split; [done|].
  split; [done|]. exists token, ex. by split_and!.
Qed.

Lemma revoke_otp_spec config o s a id s' r :
  revoke_otp config o s a id = (s', r) ->
  match r with
  | Ok _ => admin_role a = Operator /\ operated o config s s' (OpRevokeOtp id) AnsDone
  | _ => s' = s
  end.
Proof.
  unfold Admin.revoke_otp. destruct (require_operator a) eqn:Ea; [by intros [= <- <-]|].
  apply require_operator_None in Ea. destruct (negb _); [by intros [= <- <-]|].
  destruct (parse_i64 id) as [n|e|] eqn:En; [|by intros [= <- <-]..].
  destruct (ao_statement o); [by intros [= <- <-]|]. destruct (existsb _ _); intros [= <- <-]; [|done].
  split; [done|]. split; [done|]. exists n. by split_and!.
Qed.

(** A row that is revoked already is not touched. *)
Lemma admin_revoke_none serial reason now rows :
  existsb (admin_revokes serial) rows = false -> map (admin_revoke_row serial reason now) rows = rows.
Proof.
  intros H. rewrite <- (map_id rows) at 2. apply map_ext_in. intros r Hr. unfold admin_revoke_row.
  destruct (admin_revokes serial r) eqn:E; [|done]. rewrite <- not_true_iff_false, existsb_exists in H.
  destruct H. by exists r.
Qed.

Lemma revoke_cert_spec config o s a serial reason s' r :
  revoke_cert o s a serial reason = (s', r) ->
  match r with
  | Ok _ => admin_role a = Operator /\ operated o config s s' (OpRevokeCert serial reason) AnsDone
  | _ => s' = s
  end.
Proof.
  unfold Admin.revoke_cert. destruct (require_operator a) eqn:Ea; [by intros [= <- <-]|].
  apply require_operator_None in Ea. destruct (existsb (Z.eqb reason) _) eqn:Er; [|by intros [= <- <-]].
  cbn [negb]. assert (Hr : reason ∈ valid_reasons).
  { apply existsb_exists in Er as (x & Hx & ->%Z.eqb_eq). by apply list_elem_of_In. }
  destruct (ao_statement o); [by intros [= <- <-]|]. cbv zeta.
  destruct (existsb (admin_revokes serial) _) eqn:Ex.
  - intros [= <- <-]. split; [done|]. split; [done|]. by split_and!.
  - destruct (ao_second_statement o); [by intros [= <- <-]|]. destruct (find_cert _ _); intros [= <- <-]; [|done].
    split; [done|]. split; [done|]. split_and!; try done. cbn. by rewrite admin_revoke_none.
Qed.

Lemma admin_handler_spec config o s a op s' r :
  admin_handler config o s a op = (s', r) ->
  match r with
  | Ok ans => only_audited s s' \/ admin_role a = Operator /\ operated o config s s' op ans
  | _ => s' = s
  end.
Proof.
  destruct op as [req| |id|order q|serial|serial reason|q]; unfold Admin.admin_handler, answered.
  - destruct (generate_otp config o s a req) as [s1 r1] eqn:E. apply generate_otp_spec in E. cbn [fst snd].
    intros [= <- <-]. destruct r1; [by right|done..].
  - intros [= <- <-]. cbn [fst snd]. by destruct (list_otps config o s); [left|..].
  - destruct (revoke_otp config o s a id) as [s1 r1] eqn:E. apply revoke_otp_spec in E. cbn [fst snd].
    intros [= <- <-]. destruct r1; [by right|done..].
  - unfold list_certs. destruct (ao_statement o); intros [= <- <-]; [done|by left].
  - unfold get_cert. destruct (ao_statement o); [by intros [= <- <-]|].
    destruct (find_cert _ _); intros [= <- <-]; [by left|done].
  - destruct (revoke_cert o s a serial reason) as [s1 r1] eqn:E. apply (revoke_cert_spec config) in E. cbn [fst snd].
    intros [= <- <-]. destruct r1; [by right|done..].
  - unfold list_audit_events. destruct (ao_statement o); intros [= <- <-]; [done|by left].
Qed.

Lemma admin_serve_spec cfg secrets config revocation rq o s op s' r :
  admin_serve cfg secrets config revocation rq o s op = (s', r) ->
  match r with
  | Ok ans => only_audited s s' \/
      exists a, (admin_auth to_lowercase display_utc revocation cfg secrets (ad_anchors s) rq).2 = Ok a /\
        admin_role a = Operator /\ operated o config s s' op ans
  | _ => ad_app s' = ad_app s /\ ad_tokens s' = ad_tokens s /\ ad_next_otp s' = ad_next_otp s
  end.
Proof.
  unfold Admin.admin_serve. destruct (admin_auth _ _ _ _ _ _ _) as [anchors [a|e|]] eqn:Ea; cbn [snd];
    [|by intros [= <- <-]..].
  intros E. apply admin_handler_spec in E. destruct r as [ans|e|]; [|by rewrite E..].
  destruct E as [E|[Hop E]]; [by left|]. right. exists a. by split_and!.
Qed.

(** C29: only operators change anything.  A call to the administration
    interface that is refused changes neither tables nor audit trail; one
    that is answered changes at most the audit trail, unless its caller is
    authenticated as an operator and the operation issues a one-time
    password, for the entity asked for, unused and of which only the hash
    is kept, or revokes that password or that certificate, for a reason of
    RFC 5280.  No call removes or adds a certificate or a request. *)
Theorem admin_changes_by_operator cfg secrets config revocation rq o s op s' r :
  admin_serve cfg secrets config revocation rq o s op = (s', r) ->
  match r with
  | Ok ans => only_audited s s' \/
      exists a, (admin_auth to_lowercase display_utc revocation cfg secrets (ad_anchors s) rq).2 = Ok a /\
        admin_role a = Operator /\ operated o config s s' op ans
  | _ => ad_app s' = ad_app s /\ ad_tokens s' = ad_tokens s /\ ad_next_otp s' = ad_next_otp s
  end.
Proof. apply admin_serve_spec. Qed.
End Effects.

(** ** Examples *)

Definition example_admin_config : AdminConfig := MkAdminConfig true None AdminBearer [] [] None 3600 16 (Some "env:OPERATE"%string) (Some "env:WATCH"%string) None.
Definition example_secrets : AdminSecrets := MkAdminSecrets (Some "operate") (Some "watch").
Definition example_otp_config : OtpConfig := MkOtpConfig true 128 3600 1 OtpDb None 300.
Definition example_bounds : TimeBounds := MkTimeBounds (-8334601228800 * SECS) (8210266876799 * SECS).
Definition bearer_request (token : string) : AdminRequest :=
  MkAdminRequest (Some ("Bearer " +:+ token)) None 0 (fun _ => inr "no file") (fun _ => []).
Definition admin_outside (now : Z) : AdminOutside :=
  MkAdminOutside now (fun _ => inl (bytes_of_string "s3cret")) None None "t0" (MkAuditCall no_faults "t0").
Definition no_revocation (_ : bytes) : outcome unit string := Ok tt.
Definition admin_start : AdminState :=
  MkAdminState None (MkAppState (MkAuditDb [] 1) audit_state_new [] []) [] 1.

(** A client certificate of an administrators' CA. *)
Definition mtls_config : AdminConfig :=
  MkAdminConfig true None AdminMtls ["cn=a"%string] ["CN=B"%string] (Some "admin.pem"%string) 3600 16 None None None.
Definition mtls_request (der : bytes) : AdminRequest :=
  MkAdminRequest None (Some der) (1800000000 * SECS) (fun _ => inl [1]) (fun _ => [[48; 67; 67]; [48; 66; 66]]).
Definition example_admin_auth (rq : AdminRequest) : option (list bytes) * outcome AdminAuth Refusal :=
  admin_auth to_ascii_lowercase (fun _ => "t"%string) no_revocation (Some mtls_config) example_secrets None rq.

Example not_of_an_anchor :
  refusal_status (match (example_admin_auth (mtls_request [48; 65; 70])).2 with Err e => e | _ => unauthenticated end)
  = 403.
Proof. vm_compute. reflexivity. Qed.

Lemma admin_auth_sound_witness :
  exists anchors, (example_admin_auth (mtls_request [48; 65; 66])).1 = Some anchors /\
    admin_certificate to_ascii_lowercase mtls_config anchors (1800000000 * SECS) [48; 65; 66] "CN=A" Operator.
Proof.
  assert (H : (example_admin_auth (mtls_request [48; 65; 66])).2 = Ok (MkAdminAuth "CN=A" Operator))
    by (vm_compute; reflexivity).
  destruct (example_admin_auth (mtls_request [48; 65; 66])) as [cache' r] eqn:E. cbn [snd] in H. subst r. cbn [fst].
  destruct (admin_auth_sound to_ascii_lowercase (fun _ => "t"%string) no_revocation (Some mtls_config) example_secrets
    None (mtls_request [48; 65; 66]) cache' (MkAdminAuth "CN=A" Operator) E)
    as (c & [= <-] & _ & [[Hb _]|(_ & der & anchors & [= <-] & _ & -> & _ & Hc & _)]); [discriminate Hb|].
  exists anchors. split; [reflexivity|exact Hc].
Defined.

Definition example_admin_serve (token : string) (op : AdminOp)
  : AdminState * outcome AdminAnswer Refusal :=
  admin_serve example_digest example_json string_of_bytes string_of_bytes (fun _ => "t"%string) (default EmptyString)
    example_bounds to_ascii_lowercase (fun _ => "t"%string) (Some example_admin_config) example_secrets
    example_otp_config no_revocation (bearer_request token) (admin_outside (1000 * SECS)) admin_start op.

Lemma admin_changes_by_operator_witness :
  let op := OpGenerateOtp (MkGenerateOtp "dev-1" None (Some 2)) in
  (exists ans, (example_admin_serve "operate" op).2 = Ok ans /\
     operated string_of_bytes string_of_bytes (fun _ => "t"%string) (admin_outside (1000 * SECS)) example_otp_config
       admin_start (example_admin_serve "operate" op).1 op ans) /\
  ad_tokens (example_admin_serve "watch" op).1 = [].
Proof.
  cbv zeta. split; [|vm_compute; reflexivity].
  set (op := OpGenerateOtp _).
  assert (H : length (ad_tokens (example_admin_serve "operate" op).1) = 1%nat) by (vm_compute; reflexivity).
  assert (Hok : match (example_admin_serve "operate" op).2 with Ok _ => true | _ => false end = true)
    by (vm_compute; reflexivity).
  destruct (example_admin_serve "operate" op) as [s' r] eqn:E. cbn [fst snd] in H, Hok |- *.
  pose proof (admin_changes_by_operator example_digest example_json string_of_bytes string_of_bytes
    (fun _ => "t"%string) (default EmptyString) example_bounds to_ascii_lowercase (fun _ => "t"%string)
    (Some example_admin_config) example_secrets example_otp_config no_revocation (bearer_request "operate")
    (admin_outside (1000 * SECS)) admin_start op s' r E) as Hc.
  destruct r as [ans|e|]; [|discriminate Hok..]. exists ans. split; [reflexivity|].
  destruct Hc as [(Ht & _)|(a & _ & _ & Ho)]; [|exact Ho]. rewrite Ht in H. discriminate H.
Defined.
