(* ===== verification/AdminStatus.v ===== *)
(** * The status pages of the administration interface

    [src/routes/admin/health.rs], [src/routes/admin/cas.rs], and the liveness
    check [probe_local_ca] of [src/ha/health.rs].  The pages change nothing but
    the audit trail, in which each health check leaves an event.  OpenSSL, the
    answers of the database and of the clocks are an interface and arguments;
    JSON is not written out. *)
From S2P Require Import Prelude Words Text Secrets Hsm Errors Calendar X509 Issuance AuditLog HaPool NameMatch EnrollAuthz FailureTracker Labels BasicOtp Ocsp Revocation Admin.
Open Scope Z_scope.

(** ** The liveness of a local CA *)

(** OpenSSL: a certificate with its key and its times, and a private key. *)
Class OpensslProbe : Type := {
  OsslCert : Type;
  OsslKey : Type;
  x509_from_der : bytes -> OsslCert + string;
  x509_public_key : OsslCert -> OsslKey + string;
  private_key_from_pem : bytes -> OsslKey + string;
  public_eq : OsslKey -> OsslKey -> bool;
  x509_not_before : OsslCert -> Z;
  x509_not_after : OsslCert -> Z
}.

(** ** The pages *)

Record SubsystemHealth : Type := MkSubsystem {
  sub_name : string;
  sub_status : string;
  sub_detail : option string;
  sub_latency_ms : option Z           (* u64 *)
}.
Record SystemHealth : Type := MkSystem {
  sys_status : string;
  sys_uptime_secs : Z;
  sys_database : SubsystemHealth;
  sys_hsm : option SubsystemHealth;
  sys_ca_count : Z;
  sys_healthy_ca_count : Z;
  sys_version : string
}.
(** An entry of [GET /admin/health/ca]. *)
Record CaHealth : Type := MkCaHealth {
  ch_ca_id : string;
  ch_health : string;
  ch_latency_ms : option Z;
  ch_hsm_backed : bool
}.
Record CaSummary : Type := MkCaSummary {
  sum_id : string;
  sum_is_default : bool;
  sum_key_type : string;
  sum_hash_algorithm : string;
  sum_validity_days : Z;
  sum_health : string;
  sum_hsm_backed : bool
}.
Record CaDetail : Type := MkCaDetail {
  det_summary : CaSummary;
  det_subject_cn : string;
  det_crl_url : option string;
  det_ocsp_url : option string;
  det_cab_forum_compliant : bool
}.

(** The answer of the database to [SELECT 1] within two seconds. *)
Inductive DbAnswer : Type := DbAnswered | DbError (e : string) | DbTimeout.

(** What a page reads: the uptime, the database and how long it took, how
    long the module took, the pool, the files, the clock of OpenSSL (or its
    error), and the call to the audit trail. *)
Record StatusOutside : Type := MkStatusOutside {
  so_uptime_secs : Z;
  so_database : DbAnswer;
  so_database_ms : Z;
  so_module_ms : Z;
  so_pool : option CaPool;
  so_read_file : string -> bytes + string;
  so_utf8_error_text : bytes -> string;
  so_asn1_now : Z + string;
  so_event : AuditCall
}.

Inductive StatusOp : Type :=
  | OpHealth | OpHealthDb | OpHealthHsm | OpHealthCa
  | OpListCas | OpGetCa (id : string) | OpGetCaHealth (id : string).

Inductive StatusAnswer : Type :=
  | AnsSystem (code : Z) (h : SystemHealth)
  | AnsSubsystem (code : Z) (h : SubsystemHealth)
  | AnsCaHealths (l : list CaHealth)
  | AnsCas (l : list CaSummary)
  | AnsCa (d : CaDetail)
  | AnsCaHealth (id health : string) (latency_ms : Z).

Definition VERSION : string := "0.2.0".

(** [Debug] of a health state. *)
Definition health_text (h : HealthState) : string :=
  match h with
  | Healthy => "Healthy" | Degraded => "Degraded" | Unavailable => "Unavailable" | Recovering => "Recovering"
  end.

Section AdminStatus.
Context `{HC : Cryptoki} `{HOL : OpensslLib} `{HX : X509Lib} `{HP : OpensslProbe}.
Variable digest : option bytes -> bytes -> string.
Variable json_object : list (string * string) -> string.

(** What issuance sees of a module. *)
Definition signing_context (h : Hsm.HsmContext) : Issuance.HsmContext := fun label data hash =>
  match sign_data h label data hash with
  | Ok sig => inl sig
  | Err e => inr (hsm_error e)
  | Panic => inr EmptyString
  end.

(** The key that signs is the certificate's, or of a module with a session. *)
Definition probe_key (m : option Hsm.HsmContext) (cert : OsslCert) (key : CaSigningKey) : outcome unit string :=
  match key with
  | Pem pem =>
      let? key := of_lib (fun e => e) (private_key_from_pem pem) in
      let? public_key := of_lib (fun e => e) (x509_public_key cert) in
      if public_eq key public_key then Ok tt else Err "CA key does not match its certificate"
  | Issuance.Hsm _ _ =>
      let? h := ok_or m "HSM not configured but CA has pkcs11_uri" in map_err hsm_error (health_check h)
  end.
Definition probe_local_ca (o : StatusOutside) (m : option Hsm.HsmContext) (cfg : CaConfig) (ca : CaState)
  : outcome unit string :=
  let? key := map_err kipuka_error_to_string
    (resolve_signing_key (so_utf8_error_text o) (so_read_file o) cfg (option_map signing_context m)) in
  let? cert := of_lib (fun e => e) (x509_from_der (ca_cert_der ca)) in
  let? _ := probe_key m cert key in
  let? now := of_lib (fun e => e) (so_asn1_now o) in
  if (now <? x509_not_before cert) || (x509_not_after cert <=? now)
  then Err "CA certificate is outside its validity period" else Ok tt.

(** A CA of the configuration that is loaded and alive. *)
Definition ca_alive (o : StatusOutside) (app : AppConfig) (m : option Hsm.HsmContext) (cfg : CaConfig) : bool :=
  match cas app !! cfg_id cfg with
  | Some ca => match probe_local_ca o m cfg ca with Ok _ => true | _ => false end
  | None => false
  end.

Definition check_database_health (o : StatusOutside) : SubsystemHealth :=
  let ms := Some (so_database_ms o) in
  match so_database o with
  | DbAnswered => MkSubsystem "database" "healthy" None ms
  | DbError e => MkSubsystem "database" "unhealthy" (Some ("database unreachable: " +:+ e)) ms
  | DbTimeout => MkSubsystem "database" "unhealthy" (Some "database health check timed out (2s)"%string) ms
  end.
Definition check_hsm_health (o : StatusOutside) (m : option Hsm.HsmContext) : SubsystemHealth :=
  match m with
  | Some h =>
      match health_check h with
      | Ok _ => MkSubsystem "hsm" "healthy" (Some "HSM session active"%string) (Some (so_module_ms o))
      | Err e => MkSubsystem "hsm" "unhealthy" (Some ("HSM unreachable: " +:+ hsm_error e)) (Some (so_module_ms o))
      | Panic => MkSubsystem "hsm" "unhealthy" None None
      end
  | None => MkSubsystem "hsm" "not_configured" (Some "no HSM context available"%string) None
  end.

(** The CAs that are counted as healthy. *)
Definition healthy_ca_count (o : StatusOutside) (app : AppConfig) (m : option Hsm.HsmContext) : Z :=
  Z.of_nat
    match so_pool o with
    | Some p => length (List.filter (fun x => is_available (health x.2)) (map_to_list (statuses p)))
    | None => length (List.filter (ca_alive o app m) (ca_configs app))
    end.
Definition overall_status (db : SubsystemHealth) (healthy count : Z) : string :=
  if String.eqb (sub_status db) "unhealthy" || (healthy =? 0) && (0 <? count) then "unhealthy"
  else if String.eqb (sub_status db) "degraded" || (healthy <? count) then "degraded"
  else "healthy".

Definition health_event (s : AppState) (detail : string) (o : StatusOutside) : AppState :=
  record_audit_event digest json_object s "admin_health_check" detail (so_event o).

Definition get_health (app : AppConfig) (hsm_configured : bool) (m : option Hsm.HsmContext) (o : StatusOutside)
    (s : AppState) : AppState * StatusAnswer :=
  let db := check_database_health o in
  let hsm := if hsm_configured then Some (check_hsm_health o m) else None in
  let count := Z.of_nat (length (ca_configs app)) in
  let healthy := healthy_ca_count o app m in
  let status := overall_status db healthy count in
  (health_event s ("status=" +:+ status) o,
   AnsSystem (if String.eqb status "unhealthy" then 503 else 200)
     (MkSystem status (so_uptime_secs o) db hsm count healthy VERSION)).

Definition subsystem_code (h : SubsystemHealth) : Z := if String.eqb (sub_status h) "healthy" then 200 else 503.
Definition get_health_db (o : StatusOutside) (s : AppState) : AppState * StatusAnswer :=
  let h := check_database_health o in
  (health_event s ("subsystem=database, status=" +:+ sub_status h) o, AnsSubsystem (subsystem_code h) h).
Definition get_health_hsm (hsm_configured : bool) (m : option Hsm.HsmContext) (o : StatusOutside) (s : AppState)
  : AppState * StatusAnswer :=
  if negb hsm_configured then
    (s, AnsSubsystem 200 (MkSubsystem "hsm" "not_configured" (Some "no HSM is configured"%string) None))
  else
    let h := check_hsm_health o m in
    (health_event s ("subsystem=hsm, status=" +:+ sub_status h) o, AnsSubsystem (subsystem_code h) h).

(** The state of a CA in the pool, or of a probe without one. *)
Definition ca_health_of (app : AppConfig) (m : option Hsm.HsmContext) (o : StatusOutside) (cfg : CaConfig)
  : string * option Z :=
  match so_pool o with
  | Some p =>
      match statuses p !! cfg_id cfg with
      | Some st => (health_text (health st), Some (f64_as_u64 (latency_ema_ms st)))
      | None => ("unknown"%string, None)
      end
  | None =>
      match cas app !! cfg_id cfg with
      | Some ca =>
          match probe_local_ca o m cfg ca with
          | Ok _ => ("Healthy"%string, None)
          | _ => ("Unavailable"%string, None)
          end
      | None => ("unknown"%string, None)
      end
  end.
Definition get_health_ca (app : AppConfig) (m : option Hsm.HsmContext) (o : StatusOutside) (s : AppState)
  : AppState * StatusAnswer :=
  let l := map (fun cfg => let (h, ms) := ca_health_of app m o cfg in MkCaHealth (cfg_id cfg) h ms (is_hsm_backed cfg))
             (ca_configs app) in
  (health_event s ("subsystem=ca, count=" +:+ pretty (length l)) o, AnsCaHealths l).

(** ** [cas.rs] *)

Definition pool_health (o : StatusOutside) (id : string) : string :=
  default "unknown"%string (p ← so_pool o; st ← statuses p !! id; Some (health_text (health st))).
Definition ca_summary (o : StatusOutside) (c : CaConfig) : CaSummary :=
  MkCaSummary (cfg_id c) (cfg_is_default c) (cfg_key_type c) (cfg_hash_algorithm c) (cfg_validity_days c)
    (pool_health o (cfg_id c)) (is_hsm_backed c).
Definition list_cas (app : AppConfig) (o : StatusOutside) : StatusAnswer := AnsCas (map (ca_summary o) (ca_configs app)).
Definition get_ca_detail (app : AppConfig) (o : StatusOutside) (id : string) : outcome StatusAnswer Refusal :=
  match List.find (fun c => String.eqb (cfg_id c) id) (ca_configs app) with
  | None => Err (RefusedText 404 "CA not found")
  | Some c =>
      Ok (AnsCa (MkCaDetail (ca_summary o c) (cfg_common_name c) (cfg_crl_url c) (cfg_ocsp_url c)
        (cfg_cab_forum_compliant c)))
  end.
Definition get_ca_health (app : AppConfig) (o : StatusOutside) (id : string) : outcome StatusAnswer Refusal :=
  if negb (existsb (fun c => String.eqb (cfg_id c) id) (ca_configs app)) then Err (RefusedText 404 "CA not found")
  else
    Ok match so_pool o with
       | Some p =>
           match statuses p !! id with
           | Some st => AnsCaHealth id (health_text (health st)) (f64_as_u64 (latency_ema_ms st))
           | None => AnsCaHealth id "unknown" 0
           end
       | None => AnsCaHealth id "not_monitored" 0
       end.

Definition status_handler (app : AppConfig) (hsm_configured : bool) (m : option Hsm.HsmContext) (o : StatusOutside)
    (s : AppState) (op : StatusOp) : AppState * outcome StatusAnswer Refusal :=
  let ok r := (r.1, Ok r.2) in
  match op with
  | OpHealth => ok (get_health app hsm_configured m o s)
  | OpHealthDb => ok (get_health_db o s)
  | OpHealthHsm => ok (get_health_hsm hsm_configured m o s)
  | OpHealthCa => ok (get_health_ca app m o s)
  | OpListCas => (s, Ok (list_cas app o))
  | OpGetCa id => (s, get_ca_detail app o id)
  | OpGetCaHealth id => (s, get_ca_health app o id)
  end.

Variable to_lowercase : string -> string.
Variable display_utc : Z -> string.

(** A request to a status page: the extractor, then the handler. *)
Definition status_serve (cfg : option AdminConfig) (secrets : AdminSecrets) (app : AppConfig) (hsm_configured : bool)
    (m : option Hsm.HsmContext) (revocation : bytes -> outcome unit string) (rq : AdminRequest) (o : StatusOutside)
    (s : AdminState) (op : StatusOp) : AdminState * outcome StatusAnswer Refusal :=
  let (anchors, auth) := admin_auth to_lowercase display_utc revocation cfg secrets (ad_anchors s) rq in
  let s := MkAdminState anchors (ad_app s) (ad_tokens s) (ad_next_otp s) in
  match auth with
  | Ok _ => let (a, r) := status_handler app hsm_configured m o (ad_app s) op in (set_ad_app s a, r)
  | Err e => (s, Err e)
  | Panic => (s, Panic)
  end.

(** ** What the pages show *)

(** A CA is alive: its key is there and is the certificate's, or its module
    has a session, and the certificate is within its validity. *)
Lemma probe_local_ca_Ok o m cfg ca : probe_local_ca o m cfg ca = Ok tt <->
  exists key cert now,
    resolve_signing_key (so_utf8_error_text o) (so_read_file o) cfg (option_map signing_context m) = Ok key /\
    x509_from_der (ca_cert_der ca) = inl cert /\ so_asn1_now o = inl now /\
    x509_not_before cert <= now < x509_not_after cert /\
    match key with
    | Pem pem => exists k pub, private_key_from_pem pem = inl k /\ x509_public_key cert = inl pub /\ public_eq k pub = true
    | Issuance.Hsm _ _ => exists h, m = Some h /\ health_check h = Ok tt
    end.
Proof.
  unfold probe_local_ca. split.
  - intros H. take_ok H as key E1. apply map_err_Ok in E1. take_ok H as cert E2. apply of_lib_Ok in E2.
    take_ok H as u E3. take_ok H as now E4. apply of_lib_Ok in E4.
    destruct ((now <? _) || _) eqn:Et; [done|]. apply orb_false_iff in Et as [Hb Ha].
    exists key, cert, now. split_and!; [done..|lia|lia|]. destruct key as [pem|c l]; cbn [probe_key] in E3.
    + take_ok E3 as k F1. take_ok E3 as pub F2. apply of_lib_Ok in F1, F2. destruct (public_eq k pub) eqn:F3; [|done].
      by exists k, pub.
    + take_ok E3 as h F1. apply ok_or_Ok in F1. apply map_err_Ok in E3. destruct u. by exists h.
  - intros (key & cert & now & -> & -> & -> & Ht & Hk). cbn [map_err of_lib obind].
    assert (probe_key m cert key = Ok tt) as ->.
    { destruct key as [pem|c l]; cbn [probe_key].
      - destruct Hk as (k & pub & -> & -> & Hk). cbn [of_lib obind]. by rewrite Hk.
      - destruct Hk as (h & -> & Hk). cbn [ok_or obind]. by rewrite Hk. }
    cbn [obind]. destruct ((now <? _) || _) eqn:Et; [|done]. apply orb_true_iff in Et. lia.
Qed.

Lemma filter_full {A} (f : A -> bool) (l : list A) x :
  (length l <= length (List.filter f l))%nat -> x ∈ l -> f x = true.
Proof.
  induction l as [|y l IH]; cbn; [by intros _ ?%not_elem_of_nil|]. pose proof (filter_length_le f l) as Hle.
  destruct (f y) eqn:E; cbn; intros Hl [->|Hx]%elem_of_cons; try done; [apply IH; [lia|done]|lia..].
Qed.

(** Without a pool, a server that calls itself healthy has a database that
    answers and CAs that are all loaded and alive. *)
Lemma healthy_is_alive app hc m o s :
  so_pool o = None ->
  match (get_health app hc m o s).2 with AnsSystem _ h => sys_status h = "healthy"%string | _ => False end ->
  so_database o = DbAnswered /\
  forall cfg, cfg ∈ ca_configs app ->
    exists ca, cas app !! cfg_id cfg = Some ca /\ probe_local_ca o m cfg ca = Ok tt.
Proof.
  intros Hp. unfold get_health. cbv zeta. cbn [snd sys_status]. unfold overall_status, healthy_ca_count. rewrite Hp.
  destruct (_ || _) eqn:E1; [done|]. destruct (_ || _) eqn:E2 in |- *; [done|]. intros _.
  apply orb_false_iff in E1 as [E1 _], E2 as [_ E2]. apply Z.ltb_ge in E2. split.
  - unfold check_database_health in E1. by destruct (so_database o).
  - intros cfg Hin. enough (Ha : ca_alive o app m cfg = true).
    { unfold ca_alive in Ha. destruct (cas app !! cfg_id cfg) as [ca|]; [|done]. exists ca. split; [done|].
      by destruct (probe_local_ca o m cfg ca) as [[]| |]. }
    apply (filter_full (ca_alive o app m) (ca_configs app)); [lia|done].
Qed.

(** With a pool, the module does not matter to the status, though its page
    may say that it cannot be reached. *)
Lemma module_not_in_status app hc m hc' m' o s p :
  so_pool o = Some p ->
  match (get_health app hc m o s).2, (get_health app hc' m' o s).2 with
  | AnsSystem c h, AnsSystem c' h' => c = c' /\ sys_status h = sys_status h'
  | _, _ => False
  end.
Proof. intros Hp. unfold get_health, healthy_ca_count. cbv zeta. cbn. by rewrite Hp. Qed.

(** A page leaves one event of the trail, or none. *)
Lemma status_handler_state app hc m o s op :
  (status_handler app hc m o s op).1 = s \/
  exists detail, (status_handler app hc m o s op).1 = health_event s detail o.
Proof.
  destruct op; cbn; try (by left); try (by right; eexists).
  unfold get_health_hsm. destruct hc; [right; by eexists|by left].
Qed.

(** Nobody but an administrator sees a page. *)
Lemma status_serve_sound cfg secrets app hc m revocation rq o s op s' ans :
  status_serve cfg secrets app hc m revocation rq o s op = (s', Ok ans) ->
  exists a, (admin_auth to_lowercase display_utc revocation cfg secrets (ad_anchors s) rq).2 = Ok a.
Proof.
  unfold status_serve. destruct (admin_auth _ _ _ _ _ _ _) as [anchors [a|e|]]; [|done..]. intros _. by exists a.
Qed.
End AdminStatus.

(** ** Example *)

(** A certificate is its key, and is valid for a hundred seconds. *)
#[export] Instance example_probe : OpensslProbe := {
  OsslCert := bytes;
  OsslKey := bytes;
  x509_from_der := inl;
  x509_public_key := inl;
  private_key_from_pem := inl;
  public_eq a b := bool_decide (a = b);
  x509_not_before _ := 0;
  x509_not_after _ := 100
}.
