(* ===== verification/OtpLife.v ===== *)
(** * The life of one-time passwords

    What the handlers of Admin.v, which issue and revoke passwords, the
    clean-up task and the login of BasicOtp.v make of the table
    [otp_tokens] they share, over every interleaving of them: an entity logs
    in with a password at most as often as operators granted, and never
    again once it is revoked. *)
From S2P Require Import Prelude Words Text Errors Calendar X509 ExampleLibs Ocsp AuditLog AuditSpec FailureTracker BasicOtp Labels Revocation Admin AdminSpec.
Open Scope Z_scope.

(** ** Runs *)

(** What administration works on, of which logins use the table and the audit
    trail, and the lockouts of logins. *)
Record OtpWorld : Type := MkOtpWorld { ow_admin : AdminState; ow_tracker : FailureTracker }.
Definition ow_table (w : OtpWorld) : OtpTable := ad_tokens (ow_admin w).

(** What is observed of a run: a grant of an operator for an entity and the
    hash of a password, and a login. *)
Inductive OtpFact : Type :=
  | Granted (entity hash : string) (uses : Z)
  | Used (entity hash : string).

Definition about (entity hash e h : string) : bool := String.eqb e entity && String.eqb h hash.
Definition granted_by (entity hash : string) (f : OtpFact) : Z :=
  match f with Granted e h n => if about entity hash e h then Z.max 0 n else 0 | Used _ _ => 0 end.
Definition used_by (entity hash : string) (f : OtpFact) : Z :=
  match f with Used e h => if about entity hash e h then 1 else 0 | Granted _ _ _ => 0 end.
Fixpoint total (g : OtpFact -> Z) (l : list OtpFact) : Z :=
  match l with [] => 0 | f :: l => g f + total g l end.

Section OtpLife.
Context `{HL : X509Lib}.
Variable digest : option bytes -> bytes -> string.
Variable json_object : list (string * string) -> string.
Variable b64_decode : string -> option bytes.
Variable b64url_encode : bytes -> string.
Variable sha256_hex : bytes -> string.
Variable rfc3339_millis : Z -> string.
Variable debug_option : option string -> string.
Variable bounds : TimeBounds.
Variable to_lowercase : string -> string.
Variable display_utc : Z -> string.
Variable admin_config : option AdminConfig.
Variable secrets : AdminSecrets.
Variable otp_config : OtpConfig.

Inductive OtpEvent : Type :=
  | EvAdmin (revocation : bytes -> outcome unit string) (rq : AdminRequest) (o : AdminOutside) (op : AdminOp)
  | EvLogin (rd : Readings) (header : option string)
  | EvCleanup (error : option string) (now : Z).

Definition login_fact (header : option string) (r : option (outcome AuthResult AuthResponse)) : list OtpFact :=
  match r with
  | Some (Ok a) =>
      match header with
      | Some h =>
          match strip_prefix "Basic " h with
          | Some s =>
              match basic_credentials b64_decode s with
              | Ok (_, otp) => [Used (auth_identity a) (hash_of sha256_hex otp)]
              | _ => []
              end
          | None => []
          end
      | None => []
      end
  | _ => []
  end.

Definition grant_fact (r : outcome AdminAnswer Refusal) : list OtpFact :=
  match r with
  | Ok (AnsGenerated resp) =>
      [Granted (or_entity_id resp) (hash_of sha256_hex (or_token resp)) (or_max_usage resp)]
  | _ => []
  end.

Definition otp_step (w : OtpWorld) (ev : OtpEvent) : OtpWorld * list OtpFact :=
  match ev with
  | EvAdmin revocation rq o op =>
      let (s, r) := admin_serve digest json_object b64url_encode sha256_hex rfc3339_millis debug_option bounds
        to_lowercase display_utc admin_config secrets otp_config revocation rq o (ow_admin w) op in
      (MkOtpWorld s (ow_tracker w), grant_fact r)
  | EvLogin rd header =>
      let (app, r) := try_extract_otp digest json_object b64_decode sha256_hex
        (MkApp (otp_cfg_enabled otp_config) (ow_tracker w) (ow_table w) (ad_app (ow_admin w))) rd header in
      (MkOtpWorld (set_ad_app (set_ad_tokens (ow_admin w) (otp_tokens app) (ad_next_otp (ow_admin w))) (otp_state app))
         (failure_tracker app), login_fact header r)
  | EvCleanup error now =>
      (MkOtpWorld (set_ad_tokens (ow_admin w) (otp_cleanup error now (ow_table w)) (ad_next_otp (ow_admin w)))
         (ow_tracker w), [])
  end.

Fixpoint otp_run (w : OtpWorld) (evs : list OtpEvent) : OtpWorld * list OtpFact :=
  match evs with
  | [] => (w, [])
  | ev :: evs =>
      let (w, l) := otp_step w ev in
      let (w, l') := otp_run w evs in
      (w, l ++ l')
  end.

(** ** Uses that are left *)

Definition row_about (entity hash : string) (r : OtpRow) : bool :=
  about entity hash (row_entity r) (row_token_hash r).
Definition left_in (entity hash : string) (r : OtpRow) : Z :=
  if row_about entity hash r && negb (row_revoked r) then Z.max 0 (row_max_uses r - row_uses r) else 0.
Fixpoint uses_left (entity hash : string) (t : OtpTable) : Z :=
  match t with [] => 0 | r :: t => left_in entity hash r + uses_left entity hash t end.

Lemma left_in_nonneg e h r : 0 <= left_in e h r.
Proof. unfold left_in. destruct (_ && _); lia. Qed.
Lemma uses_left_nonneg e h t : 0 <= uses_left e h t.
Proof. induction t as [|r t IH]; cbn; [lia|]. pose proof (left_in_nonneg e h r). lia. Qed.
Lemma uses_left_app e h t1 t2 : uses_left e h (t1 ++ t2) = uses_left e h t1 + uses_left e h t2.
Proof. induction t1 as [|r t IH]; cbn; lia. Qed.
Lemma total_app g l1 l2 : total g (l1 ++ l2) = total g l1 + total g l2.
Proof. induction l1 as [|f l IH]; cbn; lia. Qed.

Lemma about_true e h a b : about e h a b = true <-> a = e /\ b = h.
Proof. unfold about. rewrite andb_true_iff, !String.eqb_eq. tauto. Qed.

Lemma uses_left_map e h g t :
  (forall r, left_in e h (g r) <= left_in e h r) -> uses_left e h (map g t) <= uses_left e h t.
Proof. intros Hg. induction t as [|r t IH]; cbn; [lia|]. specialize (Hg r). lia. Qed.

Lemma uses_left_filter e h p t : uses_left e h (List.filter p t) <= uses_left e h t.
Proof.
  induction t as [|r t IH]; cbn; [lia|]. pose proof (left_in_nonneg e h r). destruct (p r); cbn; lia.
Qed.

Lemma usable_row entity hash now r :
  usable entity hash now r = true ->
  row_entity r = entity /\ row_token_hash r = hash /\ row_revoked r = false /\ now < row_expires r /\
  row_uses r < row_max_uses r.
Proof.
  unfold usable, active_for. rewrite !andb_true_iff, !bool_decide_eq_true, negb_true_iff, !Z.ltb_lt. tauto.
Qed.

Definition consumed (entity hash : string) (now : Z) (r : OtpRow) : OtpRow :=
  if usable entity hash now r then consume_row r else r.

Lemma left_in_consumed e h entity hash now r :
  left_in e h (consumed entity hash now r) =
  left_in e h r - (if usable entity hash now r && about e h entity hash then 1 else 0).
Proof.
  unfold consumed. destruct (usable entity hash now r) eqn:E; cbn [andb]; [|lia].
  apply usable_row in E as (He & Hh & Hr & _ & Hu). unfold left_in, row_about. cbn. rewrite He, Hh, Hr.
  destruct (about e h entity hash); cbn; lia.
Qed.

(** A login takes a use of its entity and hash, and none of another. *)
Lemma uses_left_consume e h entity hash now t :
  (exists r, r ∈ t /\ usable entity hash now r = true) ->
  uses_left e h (consume entity hash now t).1 + (if about e h entity hash then 1 else 0) <= uses_left e h t.
Proof.
  intros (r & Hr & Hu). cbn [consume fst]. change (fun r => if usable entity hash now r then consume_row r else r)
    with (consumed entity hash now).
  assert (Hle : forall t, uses_left e h (map (consumed entity hash now) t) <= uses_left e h t).
  { intros t'. apply uses_left_map. intros x. rewrite left_in_consumed. destruct (_ && _); lia. }
  induction Hr as [r t'|r r' t' Hr' IH]; cbn [map uses_left]; rewrite left_in_consumed.
  - rewrite Hu. cbn [andb]. specialize (Hle t'). destruct (about e h entity hash); lia.
  - specialize (IH Hu). destruct (usable entity hash now r' && _); lia.
Qed.

(** ** Logins *)

Lemma validate_otp_result app rd entity otp app' :
  validate_otp sha256_hex app rd entity otp = (app', Ok tt) ->
  otp_tokens app' = (consume entity (hash_of sha256_hex otp) (now_validate rd) (otp_tokens app)).1 /\
  exists r, r ∈ otp_tokens app /\ usable entity (hash_of sha256_hex otp) (now_validate rd) r = true.
Proof.
  intros E. destruct (lookup_table rd) as [l|e|] eqn:El.
  3: { revert E. unfold validate_otp. rewrite El. by destruct (negb _). }
  all: destruct (validate_otp_spec sha256_hex app rd entity otp) as [[Hg Ev]|[_ [e' Ev]]]; try congruence.
  all: rewrite Ev in E; injection E as <-; split; [done|apply Hg].
Qed.

Lemma validate_otp_fails app rd entity otp app' r :
  validate_otp sha256_hex app rd entity otp = (app', r) -> r <> Ok tt -> otp_tokens app' = otp_tokens app.
Proof.
  intros E Hr. destruct (lookup_table rd) as [l|e|] eqn:El.
  3: { revert E. unfold validate_otp. rewrite El. by destruct (negb _); intros [= <- _]. }
  all: destruct (validate_otp_spec sha256_hex app rd entity otp) as [[Hg Ev]|[_ [e' Ev]]]; try congruence.
Qed.

(** A login either takes a use of a row of its entity and its password's
    hash, or leaves the table. *)
Lemma login_cases app rd header app' r :
  try_extract_otp digest json_object b64_decode sha256_hex app rd header = (app', r) ->
  (login_fact header r = [] /\ otp_tokens app' = otp_tokens app) \/
  exists entity hash, login_fact header r = [Used entity hash] /\
    otp_tokens app' = (consume entity hash (now_validate rd) (otp_tokens app)).1 /\
    exists row, row ∈ otp_tokens app /\ usable entity hash (now_validate rd) row = true.
Proof.
  unfold try_extract_otp, login_fact. destruct header as [h|]; [|intros [= <- <-]; by left].
  destruct (strip_prefix "Basic " h) as [s|]; [|intros [= <- <-]; by left].
  destruct (basic_credentials b64_decode s) as [[entity otp]|e|]; [|intros [= <- <-]; by left..].
  destruct (check _ entity _) as [t [|ra]]; [|intros [= <- <-]; by left].
  destruct (validate_otp sha256_hex (set_tracker app t) rd entity otp) as [a1 [[]|e|]] eqn:Ev.
  - apply validate_otp_result in Ev as [Ht Hrow]. intros [= <- <-]. right.
    by exists entity, (hash_of sha256_hex otp).
  - apply validate_otp_fails in Ev; [|done]. destruct (otp_refused digest json_object a1 rd entity e) as [a2 resp] eqn:Er.
    intros [= <- <-]. left. split; [done|]. pose proof (otp_refused_tokens digest json_object a1 rd entity e) as H. rewrite Er in H.
    cbn [fst] in H. by rewrite H, Ev.
  - apply validate_otp_fails in Ev; [|done]. intros [= <- <-]. by left.
Qed.

(** ** Every step *)

(** One step grants, uses, or can only take uses away. *)
Lemma otp_step_balance w ev w' l e h :
  otp_step w ev = (w', l) ->
  total (used_by e h) l + uses_left e h (ow_table w') <= total (granted_by e h) l + uses_left e h (ow_table w).
Proof.
  destruct ev as [revocation rq o op|rd header|error now]; unfold otp_step.
  - destruct (admin_serve _ _ _ _ _ _ _ _ _ _ _ _ _ _ _ _ _) as [s r] eqn:E. intros [= <- <-].
    apply admin_serve_spec in E. unfold ow_table. cbn [ow_admin].
    assert (Hn : 0 <= total (granted_by e h) (grant_fact r)).
    { destruct r as [[]| |]; cbn; try lia. destruct (about _ _ _ _); lia. }
    assert (Hu : total (used_by e h) (grant_fact r) = 0) by (by destruct r as [[]| |]).
    destruct r as [ans|e'|]; [|destruct E as (_ & -> & _); lia..].
    destruct E as [(-> & _)|(a & _ & _ & _ & E)]; [lia|]. destruct op as [req| |id| | | |]; try done.
    + destruct E as (token & ex & -> & _ & _ & -> & _). rewrite uses_left_app. cbn.
      unfold left_in, row_about. cbn. destruct (about e h (go_entity_id req) _); cbn; lia.
    + destruct E as (n & _ & -> & _). enough (uses_left e h (map (revoke_otp_row n) (ad_tokens (ow_admin w))) <=
        uses_left e h (ad_tokens (ow_admin w))) by lia.
      apply uses_left_map. intros r. unfold revoke_otp_row. destruct (row_id r =? n); [|done].
      pose proof (left_in_nonneg e h r). unfold left_in at 1. cbn. by rewrite andb_false_r.
    + destruct E as (_ & -> & _). lia.
  - destruct (try_extract_otp _ _ _ _ _ _ _) as [app r] eqn:E. intros [= <- <-]. apply login_cases in E.
    unfold ow_table. cbn [ow_admin ad_tokens set_ad_app set_ad_tokens otp_tokens] in *.
    change (ad_tokens (ow_admin w)) with (ow_table w).
    destruct E as [[-> ->]|(entity & hash & -> & -> & Hrow)]; [cbn; lia|]. cbn [total used_by granted_by].
    pose proof (uses_left_consume e h entity hash (now_validate rd) (ow_table w) Hrow) as Hc.
    unfold about in *. rewrite (String.eqb_sym entity e), (String.eqb_sym hash h) in *.
    destruct (String.eqb e entity && String.eqb h hash); lia.
  - intros [= <- <-]. unfold ow_table. cbn. unfold otp_cleanup. destruct error; [lia|].
    pose proof (uses_left_filter e h (fun r => negb (row_expires r <? text_key now)) (ad_tokens (ow_admin w))). lia.
Qed.

Lemma otp_run_balance evs : forall w w' l e h,
  otp_run w evs = (w', l) ->
  total (used_by e h) l + uses_left e h (ow_table w') <= total (granted_by e h) l + uses_left e h (ow_table w).
Proof.
  induction evs as [|ev evs IH]; intros w w' l e h; cbn [otp_run]; [intros [= <- <-]; cbn; lia|].
  destruct (otp_step w ev) as [w1 l1] eqn:E1. destruct (otp_run w1 evs) as [w2 l2] eqn:E2. intros [= <- <-].
  apply (otp_step_balance _ _ _ _ e h) in E1. apply (IH _ _ _ e h) in E2. rewrite !total_app. lia.
Qed.

Lemma otp_run_app evs1 : forall w evs2,
  otp_run w (evs1 ++ evs2) =
  let (w1, l1) := otp_run w evs1 in let (w2, l2) := otp_run w1 evs2 in (w2, l1 ++ l2).
Proof.
  induction evs1 as [|ev evs1 IH]; intros w evs2; cbn [otp_run app]; [by destruct (otp_run w evs2)|].
  destruct (otp_step w ev) as [w1 l1]. rewrite IH. destruct (otp_run w1 evs1) as [w2 l2].
  destruct (otp_run w2 evs2) as [w3 l3]. by rewrite app_assoc.
Qed.

(** ** What entities get *)

(** Nothing is left of a password whose rows are revoked or used up. *)
Lemma uses_left_none e h t :
  Forall (fun r => row_about e h r = true -> row_revoked r = true \/ row_max_uses r <= row_uses r) t ->
  uses_left e h t = 0.
Proof.
  induction 1 as [|r t Hr _ IH]; [done|]. cbn. rewrite IH. unfold left_in.
  destruct (row_about e h r); [|done]. destruct (Hr eq_refl) as [->|H]; [done|]. destruct (negb _); cbn; lia.
Qed.

(** C27: one-time passwords are good for what operators granted.  However
    calls of administrators, logins of any entities, whatever the replica
    they look at answers, and runs of the clean-up task are interleaved, an
    entity has logged in with passwords of one hash at most as often as
    operators allowed for that entity and hash (a row of the table at the
    start counts with the uses it has left); and once every row of theirs is
    revoked or used up, no login succeeds until there is a new grant. *)
Theorem otp_within_grants w evs1 w1 l1 evs2 w2 l2 e h :
  otp_run w evs1 = (w1, l1) -> otp_run w1 evs2 = (w2, l2) ->
  total (used_by e h) (l1 ++ l2) <= total (granted_by e h) (l1 ++ l2) + uses_left e h (ow_table w) /\
  (Forall (fun r => row_about e h r = true -> row_revoked r = true \/ row_max_uses r <= row_uses r) (ow_table w1) ->
   total (granted_by e h) l2 = 0 -> total (used_by e h) l2 <= 0).
Proof.
  intros E1 E2. pose proof (otp_run_balance evs1 _ _ _ e h E1) as B1. pose proof (otp_run_balance evs2 _ _ _ e h E2) as B2.
  pose proof (uses_left_nonneg e h (ow_table w2)) as Hn. rewrite !total_app. split; [lia|].
  intros Hs Hg. rewrite (uses_left_none _ _ _ Hs) in B2. lia.
Qed.
End OtpLife.

(** ** Examples *)

Definition admin_event (token : string) (now : Z) (op : AdminOp) : OtpEvent :=
  EvAdmin no_revocation (bearer_request token) (admin_outside now) op.
Definition otp_start : OtpWorld :=
  MkOtpWorld admin_start (tracker_new (to_policy lockout_default) 0).
Definition example_otp_run : OtpWorld -> list OtpEvent -> OtpWorld * list OtpFact :=
  otp_run example_digest example_json (fun s => Some (bytes_of_string s)) string_of_bytes string_of_bytes
    (fun _ => "t") (default "") example_bounds (fun s => s) (fun _ => "t") (Some example_admin_config)
    example_secrets example_otp_config.

(** The row the operator's call makes, as a replica answers it. *)
Definition granted_row : OtpRow := MkRow 1 "s3cret" "dev-1" (1000 * 1000 + 3600 * 1000) 2 0 false "t0".
Definition login_at (ms : Z) : OtpEvent :=
  EvLogin (readings_at ms [granted_row]) (Some "Basic dev-1:s3cret").
Definition grant_two : OtpEvent :=
  admin_event "operate" (1000 * SECS) (OpGenerateOtp (MkGenerateOtp "dev-1" None (Some 2))).

(** Two uses are granted: a third login fails. *)
Example two_logins :
  (example_otp_run otp_start [grant_two; login_at 1000000; login_at 1000000; login_at 1000000]).2 =
  [Granted "dev-1" "s3cret" 2; Used "dev-1" "s3cret"; Used "dev-1" "s3cret"].
Proof. vm_compute. reflexivity. Qed.

(** An auditor is refused. *)
Example auditors_grant_nothing :
  (example_otp_run otp_start
     [admin_event "watch" (1000 * SECS) (OpGenerateOtp (MkGenerateOtp "dev-1" None None)); login_at 1000000]).2 = [].
Proof. vm_compute. reflexivity. Qed.

(** A lifetime beyond the year 9999 makes a password that has expired. *)
Example too_long_a_life :
  (example_otp_run otp_start
     [admin_event "operate" (1000 * SECS) (OpGenerateOtp (MkGenerateOtp "dev-1" (Some 300000000000) (Some 2)));
      login_at 1000000]).2 = [Granted "dev-1" "s3cret" 2].
Proof. vm_compute. reflexivity. Qed.

(** And one beyond chrono's calendar ends the call in a panic. *)
Example lifetime_panics :
  (generate_otp example_digest example_json string_of_bytes string_of_bytes (fun _ => "t") example_bounds
     example_otp_config (admin_outside 0) admin_start (MkAdminAuth "admin" Operator)
     (MkGenerateOtp "dev-1" (Some (2 ^ 62)) None)).2 = Panic.
Proof. vm_compute. reflexivity. Qed.

Lemma otp_within_grants_witness :
  let r1 := example_otp_run otp_start [grant_two; login_at 1000000] in
  let r2 := example_otp_run r1.1 [admin_event "operate" (2000 * SECS) (OpRevokeOtp "1"); login_at 2000000] in
  let r3 := example_otp_run r2.1 [login_at 2000000] in
  total (used_by "dev-1" "s3cret") r1.2 = 1 /\
  total (used_by "dev-1" "s3cret") (r2.2 ++ r3.2) <= total (granted_by "dev-1" "s3cret") (r2.2 ++ r3.2) +
    uses_left "dev-1" "s3cret" (ow_table r1.1) /\
  total (used_by "dev-1" "s3cret") r3.2 <= 0.
Proof.
  cbv zeta. split; [vm_compute; reflexivity|].
  set (w0 := (example_otp_run otp_start [grant_two; login_at 1000000]).1).
  set (r2 := example_otp_run w0 _). set (r3 := example_otp_run r2.1 _).
  destruct (otp_within_grants example_digest example_json (fun s => Some (bytes_of_string s)) string_of_bytes
    string_of_bytes (fun _ => "t") (default "") example_bounds (fun s => s) (fun _ => "t") (Some example_admin_config)
    example_secrets example_otp_config w0 [admin_event "operate" (2000 * SECS) (OpRevokeOtp "1"); login_at 2000000]
    r2.1 r2.2 [login_at 2000000] r3.1 r3.2 "dev-1" "s3cret"
    (surjective_pairing _) (surjective_pairing _)) as [H1 H2].
  split; [exact H1|]. apply H2; [|vm_compute; reflexivity].
  apply (bool_decide_unpack _). vm_compute. exact I.
Defined.
