(* ===== verification/Crl.v ===== *)
(** * Certificate revocation lists

    [regenerate_crl] of [src/main.rs] and the task that calls it for every
    CA: the list of the revoked certificates of a CA, signed with its key,
    is put in the CA's cache.  The builder of the crate [synta_certificate]
    is an interface. *)
From S2P Require Import Prelude Words Text Calendar X509 AuditLog NameMatch EnrollAuthz Issuance Labels.
Open Scope Z_scope.

(** An entry: serial number, time and reason of the revocation. *)
Abbreviation CrlEntry := (bytes * string * option Z)%type.

Class CrlBuilderLib `{X509Lib} : Type := {
  (** the encoded subject of a certificate *)
  subject_to_der : Cert -> bytes + string;
  (** [CertificateListBuilder]: issuer, this update, next update, signature
      algorithm and entries; and the list of the signed part *)
  crl_build : bytes -> string -> string -> bytes -> list CrlEntry -> bytes + string;
  crl_assemble : bytes -> bytes -> bytes -> bytes + string;
  (** [hex::decode] *)
  hex_decode : string -> bytes + string
}.

(** What a call reads; [cro_null] is the text of the database driver's error
    for a NULL where a text is asked for. *)
Record CrlOutside `{X509Lib} : Type := MkCrlOutside {
  cro_query_error : option string;
  cro_null : string;
  cro_now : Z;
  cro_read_file : string -> bytes + string;
  cro_coins : Coins;
  cro_event : AuditCall
}.
Arguments MkCrlOutside {_}.

Definition sha_with_rsa (last : Z) : bytes :=
  [0x30; 0x0d; 0x06; 0x09; 0x2a; 0x86; 0x48; 0x86; 0xf7; 0x0d; 0x01; 0x01; last; 0x05; 0x00].
Definition crl_algorithm (hash_algorithm : string) : outcome bytes string :=
  if String.eqb hash_algorithm "sha256" then Ok (sha_with_rsa 0x0b)
  else if String.eqb hash_algorithm "sha384" then Ok (sha_with_rsa 0x0c)
  else if String.eqb hash_algorithm "sha512" then Ok (sha_with_rsa 0x0d)
  else if String.eqb hash_algorithm "none" then
    Ok [0x30; 0x0b; 0x06; 0x09; 0x60; 0x86; 0x48; 0x01; 0x65; 0x03; 0x04; 0x03; 0x12]
  else Err ("unsupported hash algorithm for CRL: " +:+ hash_algorithm).

(** The code of a reason's name; every other text is unspecified. *)
Definition crl_reason (r : string) : Z :=
  if String.eqb r "keyCompromise" then 1
  else if String.eqb r "cACompromise" then 2
  else if String.eqb r "affiliationChanged" then 3
  else if String.eqb r "superseded" then 4
  else if String.eqb r "cessationOfOperation" then 5
  else if String.eqb r "certificateHold" then 6
  else if String.eqb r "removeFromCRL" then 8
  else if String.eqb r "privilegeWithdrawn" then 9
  else if String.eqb r "aACompromise" then 10
  else 0.

(** [DateTime::format] with "%Y%m%d%H%M%SZ" *)
Definition format_compact (t : Z) : string :=
  let '(y, m, d) := civil_from_days (date_naive t) in
  let s := second_of_day t in
  format_year y +:+ pad 2 m +:+ pad 2 d +:+ pad 2 (s / 3600) +:+ pad 2 (s / 60 mod 60) +:+ pad 2 (s mod 60) +:+ "Z".

(** [WHERE ca_id = ? AND status = 'revoked'] *)
Definition revoked_by (ca_id : string) (r : CertRow) : bool :=
  String.eqb (cr_ca_id r) ca_id && String.eqb (cr_status r) "revoked".

Section Crl.
Context `{HL : X509Lib} `{HB : !CrlBuilderLib}.
Variable digest : option bytes -> bytes -> string.
Variable json_object : list (string * string) -> string.

(** The query's tuples [(String, String, Option<String>)]: a row without a
    time cannot be one, and then there are none. *)
Fixpoint revoked_rows (null : string) (rows : list CertRow) : outcome (list (string * string * option string)) string :=
  match rows with
  | [] => Ok []
  | r :: rows =>
      let? time := ok_or (cr_revocation_time r) null in
      let? rest := revoked_rows null rows in
      Ok ((cr_serial r, time, cr_revocation_reason r) :: rest)
  end.

Definition query_revoked (o : CrlOutside) (s : AppState) (ca_id : string)
  : outcome (list (string * string * option string)) string :=
  map_err (fun e => "DB query for revoked certs failed: " +:+ e)
    match cro_query_error o with
    | Some e => Err e
    | None => revoked_rows (cro_null o) (List.filter (revoked_by ca_id) (certificates s))
    end.

(** [hex::decode(..).unwrap_or_default()] *)
Definition crl_serial (serial_hex : string) : bytes :=
  match hex_decode serial_hex with inl b => b | inr _ => [] end.
Definition crl_entry (row : string * string * option string) : CrlEntry :=
  (crl_serial row.1.1, row.1.2, option_map crl_reason row.2).

Definition HOUR : Z := 3600 * SECS.

(** The list of a CA. *)
Definition build_crl (app : AppConfig) (o : CrlOutside) (ca : CaState)
    (rows : list (string * string * option string)) : outcome bytes string :=
  let? ca_cert := of_lib (fun e => "CA cert parse failed: " +:+ e) (cert_from_der (ca_cert_der ca)) in
  let? issuer := of_lib (fun e => "issuer Name encode failed: " +:+ e) (subject_to_der ca_cert) in
  let? sig_alg := crl_algorithm (ca_hash_algorithm ca) in
  let? tbs := of_lib (fun e => "CRL TBS build failed: " +:+ e)
    (crl_build issuer (format_compact (cro_now o)) (format_compact (cro_now o + HOUR)) sig_alg (map crl_entry rows)) in
  let? cfg := ok_or (List.find (fun c => String.eqb (cfg_id c) (ca_state_id ca)) (ca_configs app))
    ("no CaConfig for CA '" +:+ ca_state_id ca +:+ "'") in
  let? pem := of_lib (fun e => "failed to read CA key " +:+ cfg_key_file cfg +:+ ": " +:+ e)
    (cro_read_file o (cfg_key_file cfg)) in
  let? key := of_lib (fun e => "CA key parse failed: " +:+ e) (key_from_pem pem) in
  let hash := if String.eqb (ca_hash_algorithm ca) "none" then EmptyString else ca_hash_algorithm ca in
  let? sig := of_lib (fun e => "CRL signing failed: " +:+ e) (sign_tbs (as_signer (cro_coins o) key hash) tbs) in
  of_lib (fun e => "CRL assembly failed: " +:+ e) (crl_assemble tbs sig_alg sig).

(** The caches of the CAs, by identifier: list and time. *)
Abbreviation CrlCaches := (gmap string (bytes * Z)).

Definition regenerate_crl (app : AppConfig) (o : CrlOutside) (s : AppState) (caches : CrlCaches) (ca : CaState)
  : AppState * CrlCaches * outcome unit string :=
  let built :=
    let? rows := query_revoked o s (ca_state_id ca) in
    let? crl := build_crl app o ca rows in
    Ok (length rows, crl) in
  match built with
  | Ok (count, crl) =>
      let ev := with_detail (with_ca_id (audit_event_new CrlGenerate) (ca_state_id ca))
        ("CRL generated with " +:+ pretty count +:+ " revoked entries") in
      (with_audit s (record digest json_object (app_audit_db s) (app_audit s) ev (call_faults (cro_event o))
         (call_time (cro_event o))),
       <[ca_state_id ca := (crl, cro_now o)]> caches, Ok tt)
  | Err e => (s, caches, Err e)
  | Panic => (s, caches, Panic)
  end.

(** A tick of the task: every CA in its order, whatever happens to one. *)
Fixpoint refresh_crls (app : AppConfig) (o : string -> CrlOutside) (s : AppState) (caches : CrlCaches)
    (l : list CaState) : AppState * CrlCaches :=
  match l with
  | [] => (s, caches)
  | ca :: l =>
      let '(s, caches, _) := regenerate_crl app (o (ca_state_id ca)) s caches ca in
      refresh_crls app o s caches l
  end.
Definition refresh_tick (app : AppConfig) (o : string -> CrlOutside) (s : AppState) (caches : CrlCaches)
  : AppState * CrlCaches :=
  refresh_crls app o s caches (omap (fun c => cas app !! cfg_id c) (ca_configs app)).
End Crl.

Example compact_example : format_compact 0 = "19700101000000Z".
Proof. vm_compute. reflexivity. Qed.

(** * Certificate revocation lists: the theorems

    What a list that is generated contains, what a revocation
    through the administration interface becomes in it, and the one row that
    keeps any list from being generated. *)
From S2P Require Import ExampleLibs AuditSpec Ocsp FailureTracker BasicOtp Revocation Admin AdminSpec.
Open Scope Z_scope.

Section CrlSpec.
Context `{HL : X509Lib} `{HB : !CrlBuilderLib}.
Variable digest : option bytes -> bytes -> string.
Variable json_object : list (string * string) -> string.

Abbreviation regenerate_crl := (regenerate_crl digest json_object).

(** ** The rows *)

Lemma revoked_rows_Ok null rows l :
  revoked_rows null rows = Ok l ->
  Forall2 (fun r t => t.1.1 = cr_serial r /\ cr_revocation_time r = Some t.1.2 /\ t.2 = cr_revocation_reason r) rows l.
Proof.
  revert l. induction rows as [|r rows IH]; intros l; cbn [revoked_rows]; [intros [= <-]; constructor|].
  intros E. take_ok E as t E1. apply ok_or_Ok in E1. take_ok E as rest E2. injection E as <-.
  constructor; [done|by apply IH].
Qed.

Lemma revoked_rows_returns null rows : returns (revoked_rows null rows).
Proof.
  induction rows as [|r rows IH]; cbn [revoked_rows]; [done|]. destruct (cr_revocation_time r); [|done].
  cbn [ok_or obind]. destruct (revoked_rows null rows); done.
Qed.

Lemma revoked_rows_null null rows r :
  r ∈ rows -> cr_revocation_time r = None -> revoked_rows null rows = Err null.
Proof.
  intros Hr Hn. induction Hr as [r rows|r x rows _ IH]; cbn [revoked_rows].
  - by rewrite Hn.
  - destruct (cr_revocation_time x); [|done]. cbn [ok_or obind]. by rewrite IH.
Qed.

Lemma query_revoked_returns o s ca_id : returns (query_revoked o s ca_id).
Proof.
  unfold query_revoked. destruct (cro_query_error o); [done|]. pose proof (revoked_rows_returns (cro_null o)
    (List.filter (revoked_by ca_id) (certificates s))) as H. by destruct (revoked_rows _ _).
Qed.

Lemma query_revoked_Ok o s ca_id rows :
  query_revoked o s ca_id = Ok rows ->
  revoked_rows (cro_null o) (List.filter (revoked_by ca_id) (certificates s)) = Ok rows.
Proof. unfold query_revoked. intros E. apply map_err_Ok in E. by destruct (cro_query_error o). Qed.

Lemma build_crl_returns app o ca rows : returns (build_crl app o ca rows).
Proof.
  unfold build_crl. repeat (apply obind_returns; [first [apply of_lib_returns|apply ok_or_returns|idtac]|intros ? _]).
  - unfold crl_algorithm. by repeat case_match.
  - apply of_lib_returns.
Qed.

(** A generated list: for the rows, in time, under the CA's name, and signed
    with the key of its file. *)
Definition crl_for (app : AppConfig) (o : CrlOutside) (ca : CaState) (entries : list CrlEntry) (crl : bytes) : Prop :=
  exists cert issuer alg tbs cfg pem key sig,
    cert_from_der (ca_cert_der ca) = inl cert /\ subject_to_der cert = inl issuer /\
    crl_algorithm (ca_hash_algorithm ca) = Ok alg /\
    crl_build issuer (format_compact (cro_now o)) (format_compact (cro_now o + HOUR)) alg entries = inl tbs /\
    cfg ∈ ca_configs app /\ cfg_id cfg = ca_state_id ca /\ cro_read_file o (cfg_key_file cfg) = inl pem /\
    key_from_pem pem = inl key /\
    sign_tbs (as_signer (cro_coins o) key
      (if String.eqb (ca_hash_algorithm ca) "none" then EmptyString else ca_hash_algorithm ca)) tbs = inl sig /\
    crl_assemble tbs alg sig = inl crl.

Lemma build_crl_Ok app o ca rows crl :
  build_crl app o ca rows = Ok crl -> crl_for app o ca (map crl_entry rows) crl.
Proof.
  unfold build_crl. intros E. take_ok E as cert E1. take_ok E as issuer E2. take_ok E as alg E3. take_ok E as tbs E4.
  take_ok E as cfg E5. take_ok E as pem E6. take_ok E as key E7. take_ok E as sig E8.
  apply of_lib_Ok in E, E1, E2, E4, E6, E7, E8. apply ok_or_Ok, find_some in E5 as [Hin Hid].
  apply String.eqb_eq in Hid. exists cert, issuer, alg, tbs, cfg, pem, key, sig.
  split_and!; try done. by apply list_elem_of_In.
Qed.

Lemma regenerate_crl_spec app o s caches ca s' caches' r :
  regenerate_crl app o s caches ca = (s', caches', r) ->
  r <> Panic /\ certificates s' = certificates s /\ pending_csrs s' = pending_csrs s /\
  match r with
  | Ok _ => exists rows crl,
      revoked_rows (cro_null o) (List.filter (revoked_by (ca_state_id ca)) (certificates s)) = Ok rows /\
      crl_for app o ca (map crl_entry rows) crl /\ caches' = <[ca_state_id ca := (crl, cro_now o)]> caches
  | _ => s' = s /\ caches' = caches
  end.
Proof.
  unfold Crl.regenerate_crl. cbv zeta. destruct (query_revoked o s (ca_state_id ca)) as [rows|e|] eqn:Eq; cbn [obind].
  2: intros [= <- <- <-]; by split_and!.
  2: { pose proof (query_revoked_returns o s (ca_state_id ca)). by rewrite Eq in *. }
  destruct (build_crl app o ca rows) as [crl|e|] eqn:Eb; cbn [obind]; intros [= <- <- <-].
  - split_and!; try done. exists rows, crl. split_and!; [by apply query_revoked_Ok|by apply build_crl_Ok|done].
  - by split_and!.
  - pose proof (build_crl_returns app o ca rows). by rewrite Eb in *.
Qed.

(** C30: a revocation list is complete or it is not made.  When the list of a
    CA is generated it has one entry for each row of that CA that is
    revoked, in order, with its serial number and time of revocation, and
    no other; it is for this hour, under the CA's name and signed with the
    CA's key, and it is the one in the cache.  Otherwise the list of before
    stays.  No call ends in a panic or touches the certificates. *)
Theorem crl_complete app o s caches ca s' caches' r :
  regenerate_crl app o s caches ca = (s', caches', r) ->
  r <> Panic /\ certificates s' = certificates s /\
  match r with
  | Ok _ => exists entries crl,
      Forall2 (fun row e => e.1.1 = crl_serial (cr_serial row) /\
                 cr_revocation_time row = Some e.1.2 /\
                 e.2 = option_map crl_reason (cr_revocation_reason row))
        (List.filter (revoked_by (ca_state_id ca)) (certificates s)) entries /\
      crl_for app o ca entries crl /\ caches' !! ca_state_id ca = Some (crl, cro_now o) /\
      (forall other, other <> ca_state_id ca -> caches' !! other = caches !! other)
  | _ => s' = s /\ caches' = caches
  end.
Proof.
  intros E. apply regenerate_crl_spec in E as (Hp & Hc & _ & H). split; [done|]. split; [done|].
  destruct r as [u|e|]; [|done..]. destruct H as (rows & crl & Hr & Hcrl & ->). exists (map crl_entry rows), crl.
  split_and!; [|done|by rewrite lookup_insert_eq|intros other Hne; by rewrite lookup_insert_ne].
  apply revoked_rows_Ok in Hr. apply Forall2_fmap_r. eapply Forall2_impl; [exact Hr|].
  intros row t (H1 & H2 & H3). unfold crl_entry. cbn. by rewrite H1, H2, H3.
Qed.

(** ** Revocations through the administration interface *)

Lemma admin_reason_lost reason : reason ∈ valid_reasons -> crl_reason (pretty reason) = 0.
Proof.
  intros H. unfold valid_reasons in H.
  repeat (apply elem_of_cons in H as [->|H]; [vm_compute; reflexivity|]). by apply elem_of_nil in H.
Qed.

(** a certificate that an operator revokes is in the next list of its
    CA, with the time of the revocation, but whatever the reason given the
    list says unspecified: the interface stores the number of the reason and
    the list reads its name. *)
Theorem crl_of_admin_revocation app co caches ca o s admin serial reason row s1 s2 caches' :
  revoke_cert digest json_object o s admin serial reason = (s1, Ok tt) ->
  row ∈ certificates (ad_app s) -> cr_serial row = serial -> cr_status row <> "revoked"%string ->
  cr_ca_id row = ca_state_id ca ->
  regenerate_crl app co (ad_app s1) caches ca = (s2, caches', Ok tt) ->
  reason ∈ valid_reasons /\
  exists entries crl, crl_for app co ca entries crl /\ caches' !! ca_state_id ca = Some (crl, cro_now co) /\
    (crl_serial serial, format_utc (ao_now o), Some 0) ∈ entries.
Proof.
  intros Hrev Hin Hser Hst Hca Hcrl. apply (revoke_cert_spec digest json_object (fun _ => EmptyString)
    (fun _ => EmptyString) (fun _ => EmptyString) otp_config_default) in Hrev as (_ & _ & Hv & _ & _ & Hrows).
  split; [done|]. apply regenerate_crl_spec in Hcrl as (_ & _ & _ & rows & crl & Hr & Hfor & ->).
  exists (map crl_entry rows), crl. split; [done|]. split; [by rewrite lookup_insert_eq|].
  set (row' := admin_revoke_row serial (pretty reason) (format_utc (ao_now o)) row).
  assert (Hrow' : row' = MkCertRow (cr_serial row) (cr_subject_dn row) (cr_issuer_dn row) (cr_not_before row)
    (cr_not_after row) (cr_der row) (cr_ca_id row) (cr_profile row) "revoked" (Some (pretty reason))
    (Some (format_utc (ao_now o)))).
  { unfold row', admin_revoke_row, admin_revokes. rewrite Hser, String.eqb_refl.
    by destruct (String.eqb_spec (cr_status row) "revoked"). }
  assert (Hf : row' ∈ List.filter (revoked_by (ca_state_id ca)) (certificates (ad_app s1))).
  { apply list_elem_of_In, filter_In. split.
    - rewrite Hrows. apply in_map. by apply list_elem_of_In.
    - rewrite Hrow'. unfold revoked_by. cbn. by rewrite Hca, String.eqb_refl. }
  apply list_elem_of_lookup in Hf as [k Hk]. apply revoked_rows_Ok in Hr.
  destruct (Forall2_lookup_l _ _ _ _ _ Hr Hk) as (t & Ht & H1 & H2 & H3). rewrite Hrow' in H1, H2, H3. cbn in H1, H2, H3.
  apply list_elem_of_lookup. exists k. rewrite list_lookup_fmap, Ht. cbn. unfold crl_entry.
  injection H2 as H2. rewrite H1, <- H2, H3, Hser. cbn. by rewrite admin_reason_lost.
Qed.

(** ** The row that stops all lists *)

(** A revoked row of the CA without a time. *)
Definition undated (ca_id : string) (s : AppState) : Prop :=
  exists r, r ∈ certificates s /\ revoked_by ca_id r = true /\ cr_revocation_time r = None.

Lemma undated_no_crl app o s caches ca :
  undated (ca_state_id ca) s ->
  exists e, regenerate_crl app o s caches ca = (s, caches, Err e).
Proof.
  intros (r & Hin & Hr & Hn). unfold Crl.regenerate_crl, query_revoked. cbv zeta.
  destruct (cro_query_error o) as [e|]; [cbn; by eexists|].
  rewrite (revoked_rows_null _ _ r); [cbn; by eexists| |done].
  apply list_elem_of_In, filter_In. split; [by apply list_elem_of_In|done].
Qed.
End CrlSpec.

(** ** Examples *)

#[local] Instance example_crl_lib : CrlBuilderLib := {
  subject_to_der c := inl [c.1];
  crl_build issuer _ _ _ entries := inl (issuer ++ concat (map (fun e => e.1.1 ++ [default 255 e.2]) entries));
  crl_assemble tbs _ sig := inl (tbs ++ sig);
  hex_decode s := inl (bytes_of_string s)
}.

Definition crl_ca : CaState := MkCaState "main" [48; 66; 66] [] "sha256" 300 None None.
Definition crl_app : AppConfig :=
  MkAppConfig (MkEstConfig [] None [] false 3600)
    [MkCaConfig "main" true "ca.key" "ca.pem" "rsa" None 300 "sha256" None None "CA" "Example" 86400 true]
    {["main" := crl_ca]} "main" None.
Definition crl_outside : CrlOutside :=
  MkCrlOutside None "unexpected null" (2000 * SECS) (fun _ => inl [66]) tt (MkAuditCall no_faults "t2").
Definition listed_row (serial : string) : CertRow :=
  MkCertRow serial "CN=A" "CN=B" "t0" "t1" [] "main" "default" "active" None None.
Definition crl_start : AdminState :=
  MkAdminState None (MkAppState (MkAuditDb [] 1) audit_state_new [listed_row "a"; listed_row "b"] []) [] 1.
Definition revocation_outside : AdminOutside :=
  MkAdminOutside (1000 * SECS) (fun _ => inr "no") None None "t0" (MkAuditCall no_faults "t1").
Definition example_revoke (serial : string) (reason : Z) : AdminState * outcome unit Refusal :=
  revoke_cert example_digest example_json revocation_outside crl_start (MkAdminAuth "admin" Operator) serial reason.
Definition example_regenerate (s : AppState) : AppState * gmap string (bytes * Z) * outcome unit string :=
  regenerate_crl example_digest example_json crl_app crl_outside s ∅ crl_ca.

(** keyCompromise becomes 0 in the list (97 is the serial number "a"). *)
Example key_compromise_unspecified :
  (example_regenerate (ad_app (example_revoke "a" 1).1)).1.2 !! "main"%string = Some ([66; 97; 0; 66], 2000 * SECS).
Proof. vm_compute. reflexivity. Qed.

Lemma crl_complete_witness :
  let r := example_regenerate (ad_app (example_revoke "a" 1).1) in
  exists entries crl,
    Forall2 (fun row e => e.1.1 = crl_serial (cr_serial row) /\ cr_revocation_time row = Some e.1.2 /\
               e.2 = option_map crl_reason (cr_revocation_reason row))
      (List.filter (revoked_by "main") (certificates (ad_app (example_revoke "a" 1).1))) entries /\
    r.1.2 !! "main"%string = Some (crl, 2000 * SECS).
Proof.
  cbv zeta. destruct (example_regenerate (ad_app (example_revoke "a" 1).1)) as [[s' caches'] r] eqn:E.
  assert (Hok : match r with Ok _ => true | _ => false end = true).
  { apply (f_equal snd) in E. cbn [snd] in E. rewrite <- E. vm_compute. reflexivity. }
  destruct (crl_complete example_digest example_json crl_app crl_outside (ad_app (example_revoke "a" 1).1) ∅ crl_ca
    s' caches' r E) as (_ & _ & H).
  destruct r as [u|e|]; [|done..]. destruct H as (entries & crl & H1 & _ & H2 & _). by exists entries, crl.
Defined.

Lemma crl_of_admin_revocation_witness :
  (3 : Z) ∈ valid_reasons /\
  exists entries crl, crl_for crl_app crl_outside crl_ca entries crl /\
    (example_regenerate (ad_app (example_revoke "b" 3).1)).1.2 !! "main"%string = Some (crl, 2000 * SECS) /\
    (crl_serial "b", format_utc (1000 * SECS), Some 0) ∈ entries.
Proof.
  destruct (example_revoke "b" 3) as [s1 r1] eqn:E1. cbn [fst].
  assert (H1 : r1 = Ok tt) by (apply (f_equal snd) in E1; cbn [snd] in E1; rewrite <- E1; vm_compute; reflexivity).
  destruct (example_regenerate (ad_app s1)) as [[s2 caches'] r2] eqn:E2. cbn [fst snd].
  assert (H2 : r2 = Ok tt).
  { apply (f_equal snd) in E2. cbn [snd] in E2. rewrite <- E2.
    replace s1 with (example_revoke "b" 3).1 by (by rewrite E1). vm_compute. reflexivity. }
  subst r1 r2. unfold example_revoke in E1. unfold example_regenerate in E2.
  exact (crl_of_admin_revocation example_digest example_json crl_app crl_outside ∅ crl_ca revocation_outside crl_start
    (MkAdminAuth "admin" Operator) "b" 3 (listed_row "b") s1 s2 caches' E1
    ltac:(apply list_elem_of_In; right; left; reflexivity) eq_refl ltac:(discriminate) eq_refl E2).
Defined.
