(* ===== verification/Config.v ===== *)
(** * The configuration

    [src/config]: the sections that are not with the component they
    configure, the root with its validation, which looks at every section in
    turn, and the resolution of all secrets.  A section of another file is
    extended here by the fields that only start-up reads.  The [toml] and
    [url] crates and the file system are parameters. *)
From S2P Require Import Prelude Words Text Secrets Errors Calendar X509 Issuance AuditLog NameMatch EnrollAuthz FailureTracker BasicOtp HaPool StarManager Labels Ocsp Admin CmsAuth EstAuth CmsEst Cmp RenewalInfo.
Open Scope Z_scope.

(** What a validation refuses with: its text, or the constructor that
    AuditLog.v and StarManager.v have for it. *)
Inductive ConfigError : Type :=
  | Message (text : string)
  | AuditMessage (e : AuditConfigError)
  | StarMessage (e : StarConfigError).

(** ** [server.rs] *)

Record HttpServerConfig : Type := MkHttpServer {
  listen_addr : string;
  listen_port : option Z;             (* u16 *)
  unix_socket : option string;
  max_body_size : Z;                  (* usize *)
  worker_threads : Z;                 (* usize *)
  shutdown_timeout_secs : Z           (* u64 *)
}.
Definition http_server_default : HttpServerConfig := MkHttpServer "0.0.0.0:8443" None None 65536 0 30.

(** The text before the last [c] ([rfind]). *)
Fixpoint before_last (c : Ascii.ascii) (s : string) : option string :=
  match s with
  | EmptyString => None
  | String a r =>
      match before_last c r with
      | Some p => Some (String a p)
      | None => if Ascii.eqb a c then Some EmptyString else None
      end
  end.

(** [ServerConfig::effective_listen_addr]; [env] is KIPUKA_LISTEN. *)
Definition effective_listen_addr (env : option string) (c : HttpServerConfig) : string :=
  match unix_socket c with
  | Some sock => "unix:" +:+ sock
  | None =>
      match env with
      | Some a => a
      | None =>
          match listen_port c with
          | Some port =>
              match before_last ":" (listen_addr c) with
              | Some host => host +:+ ":" +:+ pretty port
              | None => listen_addr c
              end
          | None => listen_addr c
          end
      end
  end.
Definition is_unix_socket (env : option string) (c : HttpServerConfig) : bool :=
  let addr := effective_listen_addr env c in starts_with "unix:" addr || starts_with "/" addr.
Definition is_systemd_fd (env : option string) (c : HttpServerConfig) : bool :=
  starts_with "fd:" (effective_listen_addr env c).

(** ** [tls.rs] *)

Inductive ClientAuthMode : Type := Required | Optional | NoClientAuth.
#[export] Instance ClientAuthMode_eq_dec : EqDecision ClientAuthMode.
Proof. solve_decision. Defined.
Record OcspStaplingConfig : Type := MkStapling {
  stapling_enabled : bool;
  stapling_responder_url : option string;
  refresh_interval_secs : Z;          (* u64 *)
  stapling_soft_fail : bool
}.
Record TlsConfig : Type := MkTls {
  tls_enabled : bool;
  tls_cert_file : string;
  tls_key_file : string;
  client_auth : ClientAuthMode;
  tls_ca_file : string;
  min_protocol : string;
  max_protocol : string;
  ciphersuites : list string;
  ocsp_stapling : OcspStaplingConfig
}.
Definition ocsp_stapling_default : OcspStaplingConfig := MkStapling false None 14400 true.
Definition tls_default : TlsConfig :=
  MkTls false EmptyString EmptyString Optional EmptyString "1.2" "1.3" [] ocsp_stapling_default.

Definition tls_version (s : string) : bool := String.eqb s "1.2" || String.eqb s "1.3".

(** [TlsConfig::validate]; [debug] is the quoted form of a string. *)
Definition validate_tls (debug : string -> string) (c : TlsConfig) : outcome unit string :=
  if negb (tls_enabled c) then Ok tt
  else if is_empty (tls_cert_file c) then Err "[tls].cert_file must not be empty when TLS is enabled"
  else if is_empty (tls_key_file c) then Err "[tls].key_file must not be empty when TLS is enabled"
  else if negb (tls_version (min_protocol c)) then
    Err ("[tls].min_protocol must be " +:+ quoted "1.2" +:+ " or " +:+ quoted "1.3" +:+ ", got " +:+ debug (min_protocol c))
  else if negb (tls_version (max_protocol c)) then
    Err ("[tls].max_protocol must be " +:+ quoted "1.2" +:+ " or " +:+ quoted "1.3" +:+ ", got " +:+ debug (max_protocol c))
  else if String.eqb (min_protocol c) "1.3" && String.eqb (max_protocol c) "1.2" then
    Err "[tls].min_protocol (1.3) cannot exceed max_protocol (1.2)"
  else if negb (bool_decide (client_auth c = NoClientAuth)) && is_empty (tls_ca_file c) then
    Err ("[tls].ca_file must be set when client_auth is " +:+ quoted "required" +:+ " or " +:+ quoted "optional")
  else Ok tt.

(** ** [db.rs], [hsm.rs], [coap.rs], and the Dogtag client's *)

Record DbConfig : Type := MkDb {
  db_url : SecretRef;
  max_connections : option Z;         (* u32 *)
  min_connections : option Z;         (* u32 *)
  connect_timeout_secs : Z;           (* u64 *)
  max_lifetime_secs : Z;              (* u64 *)
  sqlite_wal : bool;
  run_migrations : bool
}.
Definition db_default : DbConfig := MkDb "sqlite:///var/lib/kipuka/kipuka.db" None None 30 3600 true true.

Inductive HsmProvider : Type := Entrust | Utimaco | Kryoptic | ThalesCsp | ThalesTct.
Record HsmConfig : Type := MkHsm {
  hsm_provider : HsmProvider;
  library_path : string;
  hsm_pin_ref : SecretRef;
  slot_id : option Z;                 (* u64 *)
  token_label : option string;
  hsm_pkcs11_uri : option string;
  hsm_max_sessions : Z                (* usize *)
}.

Record CoapConfig : Type := MkCoap {
  coap_enabled : bool;
  coap_listen_addr : string;
  dtls_enabled : bool;
  block_size : Z;                     (* u16 *)
  max_payload : Z;                    (* usize *)
  session_timeout_secs : Z;           (* u64 *)
  coap_max_sessions : Z               (* usize *)
}.
Definition coap_default : CoapConfig := MkCoap false "0.0.0.0:5684" true 512 65536 300 1024.
Definition VALID_BLOCK_SIZES : list Z := [16; 32; 64; 128; 256; 512; 1024].
(** [CoapConfig::validate] *)
Definition validate_coap (c : CoapConfig) : outcome unit string :=
  if negb (existsb (Z.eqb (block_size c)) VALID_BLOCK_SIZES) then
    Err ("[coap].block_size must be one of [" +:+ join ", " (map pretty VALID_BLOCK_SIZES) +:+ "], got " +:+
         pretty (block_size c))
  else if max_payload c =? 0 then Err "[coap].max_payload must be greater than 0"
  else Ok tt.

Record DogtagConfig `{UrlLib} : Type := MkDogtag {
  ca_url : Url;
  kra_url : option Url;
  agent_cert_file : string;
  agent_key_file : string;
  dogtag_ca_cert_file : string;
  profile_id : string;
  sskg_profile_id : option string;
  dogtag_timeout_secs : Z;            (* u64 *)
  retry_max : Z;                      (* u32 *)
  retry_delay_ms : Z;                 (* u64 *)
  dogtag_username : option string;
  dogtag_password : option string;
  kra_username : option string;
  kra_password : option string;
  skip_mtls : bool;
  accept_invalid_certs : bool
}.

(** ** [ha.rs]; the endpoints in the order of their keys. *)

Record HaConfig : Type := MkHa {
  ha_enabled : bool;
  ha_strategy : FailoverStrategy;
  probe_interval_secs : Z;            (* u64 *)
  probe_timeout_secs : Z;             (* u64 *)
  ha_failure_threshold : Z;           (* u32 *)
  ha_cooldown_secs : Z;               (* u64 *)
  endpoints : list (string * string)
}.

Section Validation.
Context `{HU : UrlLib}.

Definition has_ca (cas : list CaConfig) (id : string) : bool :=
  existsb (fun ca => String.eqb (cfg_id ca) id) cas.

(** The loop over the endpoints. *)
Fixpoint validate_endpoints (cas : list CaConfig) (l : list (string * string)) : outcome unit string :=
  match l with
  | [] => Ok tt
  | (id, endpoint) :: l =>
      if negb (has_ca cas id) then Err ("unknown HA CA: " +:+ id)
      else
        let? url := of_lib (fun e => e) (url_parse endpoint) in
        if negb (String.eqb (url_scheme url) "https") || bool_decide (url_host url = None)
           || negb (is_empty (url_username url)) || bool_decide (is_Some (url_password url))
        then Err "HA endpoints must use HTTPS without URL credentials"
        else validate_endpoints cas l
  end.
(** [HaConfig::validate] *)
Definition validate_ha (c : HaConfig) (cas : list CaConfig) : outcome unit string :=
  if negb (ha_enabled c) then Ok tt
  else if (probe_interval_secs c =? 0) || (probe_timeout_secs c =? 0) || (ha_failure_threshold c =? 0)
          || (ha_cooldown_secs c =? 0)
  then Err "HA timing and failure threshold values must be positive"
  else validate_endpoints cas (endpoints c).

(** ** The root *)

Record EstSection : Type := MkEstSection {
  section_est : EstConfig;
  simpleenroll : bool;
  simplereenroll : bool;
  fullcmc : bool;
  cmc_truststore_file : option string;
  serverkeygen : bool;
  csrattrs : bool;
  default_profile : option string;
  section_renewal : RenewalConfig
}.
Record CmpMacSecret : Type := MkMacSecret { mac_reference : string; secret_hex : SecretRef }.
Record CmpSection : Type := MkCmpSection {
  section_cmp : CmpConfig;
  mac_algorithm : string;
  reference_cert_profile : option string;
  section_secrets : list CmpMacSecret
}.

Record Config : Type := MkConfig {
  c_server : HttpServerConfig;
  c_tls : TlsConfig;
  c_database : DbConfig;
  c_cas : list CaConfig;
  c_est : EstSection;
  c_hsm : option HsmConfig;
  c_otp : OtpConfig;
  c_admin : option AdminConfig;
  c_audit : AuditConfig;
  c_auth_lockout : LockoutConfig;
  c_coap : option CoapConfig;
  c_cms_est : option CmsEstConfig;
  c_cmp : option CmpSection;
  c_dogtag : option DogtagConfig;
  c_star : option StarConfig;
  c_ha : option HaConfig;
  c_ocsp : OcspConfig;
  crl_refresh_interval_secs : Z       (* u64 *)
}.

(** [is_valid_ca_id]; a byte of a character beyond ASCII is none of these. *)
Definition id_start (c : Ascii.ascii) : bool :=
  let b := byte_of c in in_range 97 122 b || in_range 48 57 b.
Definition id_char (c : Ascii.ascii) : bool := id_start c || Ascii.eqb c "_" || Ascii.eqb c "-".
Fixpoint all_chars (p : Ascii.ascii -> bool) (s : string) : bool :=
  match s with EmptyString => true | String c s => p c && all_chars p s end.
Definition is_valid_ca_id (id : string) : bool :=
  match id with
  | EmptyString => false
  | String c rest => (Z.of_nat (String.length id) <=? 64) && id_start c && all_chars id_char rest
  end.

(** What the environment answers: KIPUKA_LISTEN, and whether a path exists. *)
Record ConfigWorld : Type := MkConfigWorld {
  kipuka_listen : option string;
  path_exists : string -> bool
}.

Variable debug : string -> string.

Definition check_file_exists (w : ConfigWorld) (field path : string) : outcome unit string :=
  if is_empty path || starts_with "pkcs11:" path then Ok tt
  else if path_exists w path then Ok tt
  else Err (field +:+ " path " +:+ debug path +:+ " does not exist").

Fixpoint validate_ca_ids (cas : list CaConfig) : outcome unit string :=
  match cas with
  | [] => Ok tt
  | ca :: cas =>
      if is_empty (cfg_id ca) then Err "each [[ca]] entry must have a non-empty `id` field"
      else if negb (is_valid_ca_id (cfg_id ca)) then
        Err ("CA id " +:+ debug (cfg_id ca) +:+ " must match ^[a-z0-9][a-z0-9_-]*$ (max 64 chars)")
      else validate_ca_ids cas
  end.
Fixpoint check_duplicates (seen : list string) (cas : list CaConfig) : outcome unit string :=
  match cas with
  | [] => Ok tt
  | ca :: cas =>
      if existsb (String.eqb (cfg_id ca)) seen then Err ("duplicate CA id " +:+ debug (cfg_id ca))
      else check_duplicates (cfg_id ca :: seen) cas
  end.
Definition check_default (cas : list CaConfig) : outcome unit string :=
  if (1 <? length cas)%nat then
    match List.filter cfg_is_default cas with
    | [] => Err "with multiple [[ca]] entries, exactly one must have `is_default = true`"
    | [_] => Ok tt
    | _ => Err "at most one [[ca]] entry may have `is_default = true`"
    end
  else Ok tt.

Fixpoint check_pool (cas : list CaConfig) (ids : list string) : outcome unit string :=
  match ids with
  | [] => Ok tt
  | id :: ids => if has_ca cas id then check_pool cas ids else Err ("unknown CA " +:+ id +:+ " in label ca_pool")
  end.
Fixpoint check_label_pools (c : Config) (l : list EstLabelConfig) : outcome unit string :=
  match l with
  | [] => Ok tt
  | lc :: l =>
      let? _ :=
        if bool_decide (label_ca_pool lc = []) then Ok tt
        else if negb (match c_ha c with Some ha => ha_enabled ha | None => false end) then
          Err "label ca_pool requires enabled HA"
        else if bool_decide (is_Some (label_ca_id lc)) then Err "label ca_id and ca_pool are mutually exclusive"
        else check_pool (c_cas c) (label_ca_pool lc) in
      check_label_pools c l
  end.
Fixpoint check_label_cas (c : Config) (l : list EstLabelConfig) : outcome unit string :=
  match l with
  | [] => Ok tt
  | lc :: l =>
      match label_ca_id lc with
      | Some id =>
          if has_ca (c_cas c) id then check_label_cas c l
          else Err ("EST label " +:+ debug (label_name lc) +:+ " references unknown CA id " +:+ debug id)
      | None => check_label_cas c l
      end
  end.

Definition validate_dogtag (d : DogtagConfig) : outcome unit string :=
  if negb (String.eqb (url_scheme (ca_url d)) "https") && negb (String.eqb (url_scheme (ca_url d)) "http")
  then Err "dogtag.ca_url must use HTTPS or HTTP"
  else if is_empty (agent_cert_file d) then Err "dogtag.agent_cert_file must not be empty"
  else if is_empty (agent_key_file d) then Err "dogtag.agent_key_file must not be empty"
  else if is_empty (dogtag_ca_cert_file d) then Err "dogtag.ca_cert_file must not be empty"
  else if is_empty (profile_id d) then Err "dogtag.profile_id must not be empty"
  else Ok tt.

Definition optional {A E} (o : option A) (f : A -> outcome unit E) : outcome unit E :=
  match o with Some a => f a | None => Ok tt end.
Definition text {T} : outcome T string -> outcome T ConfigError := map_err Message.

(** The checks of the CAs and of what refers to them. *)
Definition validate_cas (c : Config) : outcome unit string :=
  if bool_decide (c_cas c = []) then Err "at least one [ca] or [[ca]] entry is required"
  else
    let? _ := validate_ca_ids (c_cas c) in
    let? _ := check_duplicates [] (c_cas c) in
    let? _ := check_default (c_cas c) in
    let? _ := optional (c_ha c) (fun ha => validate_ha ha (c_cas c)) in
    check_label_pools c (labels (section_est (c_est c))).

(** The checks of the files at the end. *)
Definition validate_files (w : ConfigWorld) (t : TlsConfig) : outcome unit string :=
  if tls_enabled t then
    let? _ := check_file_exists w "[tls].cert_file" (tls_cert_file t) in
    let? _ := check_file_exists w "[tls].key_file" (tls_key_file t) in
    if is_empty (tls_ca_file t) then Ok tt else check_file_exists w "[tls].ca_file" (tls_ca_file t)
  else Ok tt.

(** [Config::validate] *)
Definition validate_config (w : ConfigWorld) (c : Config) : outcome unit ConfigError :=
  let? _ := text (validate_cas c) in
  let? _ := text (validate_tls debug (c_tls c)) in
  let? _ :=
    if tls_enabled (c_tls c) && is_unix_socket (kipuka_listen w) (c_server c)
    then Err (Message "TLS cannot be used with a Unix domain socket listener") else Ok tt in
  let? _ := text (check_label_cas c (labels (section_est (c_est c)))) in
  let? _ := text (validate_otp_config (c_otp c)) in
  let? _ := text (optional (c_admin c) validate_admin_config) in
  let? _ := map_err AuditMessage (audit_config_validate (c_audit c)) in
  let? _ := text (lockout_validate (c_auth_lockout c)) in
  let? _ := text (optional (c_coap c) validate_coap) in
  let? _ := text (optional (c_cms_est c) validate_cms_est) in
  let? _ := text (optional (c_dogtag c) validate_dogtag) in
  let? _ := map_err StarMessage (optional (c_star c) star_validate) in
  let? _ :=
    if crl_refresh_interval_secs c =? 0
    then Err (Message "crl_refresh_interval_secs must be at least 1") else Ok tt in
  text (validate_files w (c_tls c)).

(** [Config::default_ca] *)
Definition default_ca (c : Config) : outcome CaConfig string :=
  match c_cas c with
  | [ca] => Ok ca
  | cas => match List.find cfg_is_default cas with Some ca => Ok ca | None => Panic end
  end.

(** [deserialize_ca_array]: one table, or an array of them. *)
Definition single_ca (ca : CaConfig) : list CaConfig :=
  [MkCaConfig (if is_empty (cfg_id ca) then "default" else cfg_id ca) true (cfg_key_file ca) (cfg_cert_file ca)
     (cfg_key_type ca) (cfg_pkcs11_uri ca) (cfg_validity_days ca) (cfg_hash_algorithm ca) (cfg_crl_url ca)
     (cfg_ocsp_url ca) (cfg_common_name ca) (cfg_organization ca) (cfg_crl_lifetime_secs ca)
     (cfg_cab_forum_compliant ca)].

(** [Config::from_file]: the text of the file, and the [toml] crate. *)
Definition config_from_file (read : string -> string + string) (toml : string -> Config + string)
    (w : ConfigWorld) (path : string) : outcome Config ConfigError :=
  let? content := of_lib (fun e => Message ("cannot read config file '" +:+ path +:+ "': " +:+ e)) (read path) in
  let? config := of_lib (fun e => Message ("config parse error: " +:+ e)) (toml content) in
  let? _ := validate_config w config in
  Ok config.

(** ** Secrets *)

Record ResolvedSecrets : Type := MkResolved {
  resolved_db_url : string;
  hsm_pin : option string;
  resolved_admin : AdminSecrets;
  resolved_ldap_password : option string;
  cmp_mac_secrets : gmap string string;
  audit_integrity_key : option string
}.

(** An optional secret that is not empty. *)
Definition resolve_nonempty (sw : SecretWorld) (cache : SecretCache) (field : string) (s : option SecretRef)
  : SecretCache * outcome (option string) SecretError :=
  match s with
  | Some s =>
      if is_empty s then (cache, Ok None)
      else let! (cache, v) := resolve_secret sw cache field s in (cache, Ok (Some v))
  | None => (cache, Ok None)
  end.
(** One that may be. *)
Definition resolve_optional (sw : SecretWorld) (cache : SecretCache) (field : string) (s : option SecretRef)
  : SecretCache * outcome (option string) SecretError :=
  match s with
  | Some s => let! (cache, v) := resolve_secret sw cache field s in (cache, Ok (Some v))
  | None => (cache, Ok None)
  end.

Definition mac_field (reference : string) : string := "cmp.mac_secrets." +:+ reference.
Fixpoint resolve_macs (sw : SecretWorld) (cache : SecretCache) (acc : gmap string string) (l : list CmpMacSecret)
  : SecretCache * outcome (gmap string string) SecretError :=
  match l with
  | [] => (cache, Ok acc)
  | m :: l =>
      let! (cache, v) := resolve_secret sw cache (mac_field (mac_reference m)) (secret_hex m) in
      resolve_macs sw cache (<[mac_reference m := v]> acc) l
  end.

(** [SecretResolver::resolve_config] *)
Definition resolve_config (sw : SecretWorld) (cache : SecretCache) (c : Config)
  : SecretCache * outcome ResolvedSecrets SecretError :=
  let! (cache, url) := resolve_secret sw cache "database.url" (db_url (c_database c)) in
  let! (cache, pin) := resolve_nonempty sw cache "hsm.pin" (option_map hsm_pin_ref (c_hsm c)) in
  let! (cache, admin) := resolve_optional sw cache "admin.bearer_token"
    (match c_admin c with Some a => admin_bearer_ref a | None => None end) in
  let! (cache, auditor) := resolve_optional sw cache "admin.auditor_bearer_token"
    (match c_admin c with Some a => auditor_bearer_ref a | None => None end) in
  let! (cache, ldap) := resolve_nonempty sw cache "otp.ldap.bind_password"
    (if otp_cfg_enabled (c_otp c) then option_map ldap_bind_password (otp_ldap (c_otp c)) else None) in
  let! (cache, macs) := resolve_macs sw cache ∅
    (match c_cmp c with Some s => section_secrets s | None => [] end) in
  let! (cache, key) := resolve_nonempty sw cache "audit.integrity_key" (integrity_key_ref (c_audit c)) in
  (cache, Ok (MkResolved url pin (MkAdminSecrets admin auditor) ldap macs key)).

(** [persist_to_keyring]: what was written for each field, in an order of the
    map that is an argument; failures are logged. *)
Definition keyring_key (field : string) : string := "kipuka/" +:+ join "/" (split_char "." field).
Definition persist_to_keyring (sw : SecretWorld) (fields : list (string * string)) : list (string * outcome unit SecretError) :=
  map (fun p => (keyring_key p.1, store_keyring sw (keyring_key p.1) p.2)) fields.
End Validation.

Example valid_ids :
  map is_valid_ca_id [EmptyString; "Bad Id!"; "_starts_with_underscore"; "good-id"; "a123_test-ca"]%string =
  [false; false; false; true; true].
Proof. reflexivity. Qed.
Example port_replaced :
  effective_listen_addr None (MkHttpServer "[::]:8443" (Some 9443) None 65536 0 30) = "[::]:9443".
Proof. vm_compute. reflexivity. Qed.

(** * The configuration: the theorems

    What a configuration that was validated guarantees, and what
    its secrets are resolved to. *)
From S2P Require Import HsmSpec.
Open Scope Z_scope.

Section ValidationProps.
Context `{HU : UrlLib}.
Variable debug : string -> string.

(** ** The CAs *)

Definition known_ca (cas : list CaConfig) (id : string) : Prop := id ∈ map cfg_id cas.
Lemma has_ca_spec cas id : has_ca cas id = true <-> known_ca cas id.
Proof.
  unfold has_ca, known_ca. rewrite existsb_exists. setoid_rewrite String.eqb_eq. rewrite list_elem_of_fmap.
  setoid_rewrite list_elem_of_In. naive_solver.
Qed.

(** What the validation of the CAs and the labels says. *)
Record cas_ok (c : Config) : Prop := {
  ok_some : c_cas c <> [];
  ok_ids : Forall (fun ca => is_valid_ca_id (cfg_id ca) = true) (c_cas c);
  ok_unique : NoDup (map cfg_id (c_cas c));
  ok_default : (1 < length (c_cas c))%nat -> exists ca, List.filter cfg_is_default (c_cas c) = [ca];
  ok_pools : Forall (fun lc => label_ca_pool lc <> [] ->
    (exists ha, c_ha c = Some ha /\ ha_enabled ha = true) /\ label_ca_id lc = None /\
    Forall (known_ca (c_cas c)) (label_ca_pool lc)) (labels (section_est (c_est c)));
  ok_labels : Forall (fun lc => forall id, label_ca_id lc = Some id -> known_ca (c_cas c) id)
    (labels (section_est (c_est c)))
}.

Lemma validate_ca_ids_ok cas : validate_ca_ids debug cas = Ok tt ->
  Forall (fun ca => is_valid_ca_id (cfg_id ca) = true) cas.
Proof.
  induction cas as [|ca cas IH]; cbn [validate_ca_ids]; [constructor|]. destruct (is_empty _); [done|].
  destruct (is_valid_ca_id _) eqn:E; [|done]. intros H. constructor; [done|by apply IH].
Qed.
Lemma check_duplicates_ok cas seen : check_duplicates debug seen cas = Ok tt ->
  NoDup (map cfg_id cas) /\ Forall (fun ca => cfg_id ca ∉ seen) cas.
Proof.
  revert seen. induction cas as [|ca cas IH]; intros seen; cbn [check_duplicates]; [by split; constructor|].
  destruct (existsb _ _) eqn:E; [done|]. intros H. apply IH in H as [Hn Hf]. rewrite Forall_forall in Hf.
  split; constructor.
  - intros Hin. apply list_elem_of_fmap in Hin as (ca' & Ec & Hin). apply (Hf _ Hin). rewrite <- Ec. apply list_elem_of_here.
  - done.
  - intros Hin. rewrite <- not_true_iff_false, existsb_exists in E. apply E. exists (cfg_id ca).
    rewrite String.eqb_refl. by rewrite list_elem_of_In in Hin.
  - apply Forall_forall. intros ca' Hin Hs. apply (Hf _ Hin). by apply list_elem_of_further.
Qed.
Lemma check_default_ok cas : check_default cas = Ok tt -> (1 < length cas)%nat ->
  exists ca, List.filter cfg_is_default cas = [ca].
Proof.
  unfold check_default. intros H Hl. apply Nat.ltb_lt in Hl. rewrite Hl in H.
  destruct (List.filter _ _) as [|ca [|]]; try done. by exists ca.
Qed.
Lemma check_pool_ok cas ids : check_pool cas ids = Ok tt -> Forall (known_ca cas) ids.
Proof.
  induction ids as [|id ids IH]; cbn [check_pool]; [constructor|]. destruct (has_ca cas id) eqn:E; [|done].
  intros H. constructor; [by apply has_ca_spec|by apply IH].
Qed.
Lemma check_label_pools_ok c l : check_label_pools c l = Ok tt ->
  Forall (fun lc => label_ca_pool lc <> [] ->
    (exists ha, c_ha c = Some ha /\ ha_enabled ha = true) /\ label_ca_id lc = None /\
    Forall (known_ca (c_cas c)) (label_ca_pool lc)) l.
Proof.
  induction l as [|lc l IH]; cbn [check_label_pools]; [constructor|]. intros H. take_ok H as u Eu. constructor; [|by apply IH].
  case_bool_decide; [done|]. destruct (c_ha c) as [ha|]; [|done]. destruct (ha_enabled ha) eqn:Eh; [|done]. cbn [negb] in Eu.
  case_bool_decide as Hi; [done|]. intros _. split; [by exists ha|]. split; [by apply eq_None_not_Some|].
  destruct u. by apply check_pool_ok.
Qed.
Lemma check_label_cas_ok c l : check_label_cas debug c l = Ok tt ->
  Forall (fun lc => forall id, label_ca_id lc = Some id -> known_ca (c_cas c) id) l.
Proof.
  induction l as [|lc l IH]; cbn [check_label_cas]; [constructor|]. destruct (label_ca_id lc) as [id|] eqn:E.
  - destruct (has_ca _ _) eqn:Eh; [|done]. intros H. constructor; [|by apply IH]. intros id' Hi. rewrite E in Hi. injection Hi as <-. by apply has_ca_spec.
  - intros H. constructor; [by intros id'; rewrite E|by apply IH].
Qed.

Lemma text_Ok {T} (r : outcome T string) t : text r = Ok t -> r = Ok t.
Proof. unfold text. by rewrite map_err_Ok. Qed.

Lemma validate_config_cas w c : validate_config debug w c = Ok tt -> cas_ok c.
Proof.
  unfold validate_config. intros H. take_ok H as u1 E1. take_ok H as u2 E2. take_ok H as u3 E3. take_ok H as u4 E4.
  clear H E2 E3. apply text_Ok in E1, E4. unfold validate_cas in E1. case_bool_decide as Hne; [done|].
  take_ok E1 as v1 F1. take_ok E1 as v2 F2. take_ok E1 as v3 F3. take_ok E1 as v4 F4. destruct u1, u4, v1, v2, v3.
  split; [done|by apply validate_ca_ids_ok|by apply check_duplicates_ok in F2 as [? _]|by apply check_default_ok
    |by apply check_label_pools_ok|by apply check_label_cas_ok].
Qed.

Lemma filter_find {A} (f : A -> bool) (l : list A) : List.find f l = head (List.filter f l).
Proof. induction l as [|a l IH]; cbn; [done|]. by destruct (f a). Qed.

(** The default CA of such a configuration is there: the only CA, or the
    only one that is marked. *)
Lemma default_ca_ok c : cas_ok c -> exists ca, default_ca c = Ok ca /\ ca ∈ c_cas c /\
  (c_cas c = [ca] \/ (1 < length (c_cas c))%nat /\ List.filter cfg_is_default (c_cas c) = [ca]).
Proof.
  intros [Hne _ _ Hd _ _]. unfold default_ca. destruct (c_cas c) as [|a [|b l]] eqn:E; [done| |].
  - exists a. split; [done|]. split; [apply list_elem_of_here|by left].
  - destruct Hd as [ca Hca]; [cbn; lia|]. exists ca. rewrite filter_find, Hca. split; [done|]. split.
    + assert (Hin : In ca (List.filter cfg_is_default (a :: b :: l))) by (rewrite Hca; by left).
      apply filter_In in Hin as [Hin _]. by apply list_elem_of_In.
    + right. split; [cbn; lia|done].
Qed.

(** ** Secrets *)

(** What a secret is where its reference says. *)
Definition value_of (sw : SecretWorld) (field : string) (s : SecretRef) : outcome string SecretError :=
  if is_empty s then Ok EmptyString else read_secret sw field s.

(** A field that was not looked up before has its value. *)
Lemma resolve_secret_fresh sw cache field s cache' v :
  cache !! field = None -> resolve_secret sw cache field s = (cache', Ok v) ->
  value_of sw field s = Ok v /\ forall f, f <> field -> cache' !! f = cache !! f.
Proof.
  unfold resolve_secret, value_of. intros Hf. destruct (is_empty s); [by intros [= <- <-]|]. rewrite Hf.
  destruct (read_secret sw field s) as [x|e|]; intros [= <- <-]. split; [done|]. intros f Hne. by rewrite lookup_insert_ne.
Qed.
Lemma resolve_secret_other sw cache field s cache' r f :
  resolve_secret sw cache field s = (cache', r) -> f <> field -> cache' !! f = cache !! f.
Proof.
  unfold resolve_secret. destruct (is_empty s); [by intros [= <- _]|]. destruct (cache !! field); [by intros [= <- _]|].
  destruct (read_secret sw field s); intros [= <- _] Hne; [by rewrite lookup_insert_ne|done..].
Qed.

Lemma resolve_nonempty_spec sw cache field s cache' o :
  cache !! field = None -> resolve_nonempty sw cache field s = (cache', Ok o) ->
  match s with
  | Some s => if is_empty s then o = None else exists v, o = Some v /\ read_secret sw field s = Ok v
  | None => o = None
  end /\ forall f, f <> field -> cache' !! f = cache !! f.
Proof.
  unfold resolve_nonempty. intros Hf. destruct s as [s|]; [|by intros [= <- <-]].
  destruct (is_empty s) eqn:Es; [by intros [= <- <-]|].
  destruct (resolve_secret sw cache field s) as [c [v|e|]] eqn:E; cbn [sbind]; intros [= <- <-].
  apply resolve_secret_fresh in E as [Hv Ho]; [|done]. unfold value_of in Hv. rewrite Es in Hv. split; [by exists v|done].
Qed.
Lemma resolve_optional_spec sw cache field s cache' o :
  cache !! field = None -> resolve_optional sw cache field s = (cache', Ok o) ->
  match s with
  | Some s => exists v, o = Some v /\ value_of sw field s = Ok v
  | None => o = None
  end /\ forall f, f <> field -> cache' !! f = cache !! f.
Proof.
  unfold resolve_optional. intros Hf. destruct s as [s|]; [|by intros [= <- <-]].
  destruct (resolve_secret sw cache field s) as [c [v|e|]] eqn:E; cbn [sbind]; intros [= <- <-].
  apply resolve_secret_fresh in E as [Hv Ho]; [|done]. split; [by exists v|done].
Qed.

Lemma mac_field_inj a b : mac_field a = mac_field b -> a = b.
Proof. unfold mac_field. intros H. induction "cmp.mac_secrets."%string as [|c p IH]; [done|]. apply IH. by injection H. Qed.

Lemma resolve_macs_spec sw l : forall cache acc cache' m,
  NoDup (map mac_reference l) -> Forall (fun x => cache !! mac_field (mac_reference x) = None) l ->
  resolve_macs sw cache acc l = (cache', Ok m) ->
  Forall (fun x => exists v, m !! mac_reference x = Some v /\
    value_of sw (mac_field (mac_reference x)) (secret_hex x) = Ok v) l /\
  (forall r, r ∉ map mac_reference l -> m !! r = acc !! r) /\
  forall f, (forall r, f <> mac_field r) -> cache' !! f = cache !! f.
Proof.
  induction l as [|x l IH]; intros cache acc cache' m Hn Hc; cbn [resolve_macs]; [by intros [= <- <-]|].
  apply NoDup_cons in Hn as [Hx Hn]. apply Forall_cons in Hc as [Hcx Hc].
  destruct (resolve_secret _ _ _ _) as [c1 [v|e|]] eqn:E; cbn [sbind]; try done.
  apply resolve_secret_fresh in E as [Hv Ho]; [|done]. intros H. apply IH in H as (H1 & H2 & H3); [|done|].
  - split; [constructor; [|done]|split].
    + exists v. rewrite H2 by done. split; [apply lookup_insert_eq|done].
    + intros r Hr. apply not_elem_of_cons in Hr as [Hr1 Hr2]. rewrite H2 by done. by apply lookup_insert_ne.
    + intros f Hf. rewrite H3 by done. by apply Ho.
  - rewrite Forall_forall in Hc |- *. intros y Hy. rewrite Ho; [by apply Hc|]. intros Hm%mac_field_inj.
    apply Hx. rewrite <- Hm. by apply list_elem_of_fmap_2.
Qed.

(** What a resolved secret is, for one that may be missing or empty. *)
Definition nonempty_value (sw : SecretWorld) (field : string) (s : option SecretRef) (o : option string) : Prop :=
  match s with
  | Some s => if is_empty s then o = None else exists v, o = Some v /\ read_secret sw field s = Ok v
  | None => o = None
  end.
Definition optional_value (sw : SecretWorld) (field : string) (s : option SecretRef) (o : option string) : Prop :=
  match s with
  | Some s => exists v, o = Some v /\ value_of sw field s = Ok v
  | None => o = None
  end.

(** Every secret is the one its reference names.  If the secrets of a
    configuration are resolved, each is what its own backend answers for its
    own field, none is taken for another although the resolver keeps what it
    has read, and a field that is missing or turned off has none.  This needs
    the references of the shared secrets of CMP to differ, which no validation
    asks for. *)
Theorem resolved_secrets sw c cache s :
  NoDup (map mac_reference (match c_cmp c with Some x => section_secrets x | None => [] end)) ->
  resolve_config sw ∅ c = (cache, Ok s) ->
  value_of sw "database.url" (db_url (c_database c)) = Ok (resolved_db_url s) /\
  nonempty_value sw "hsm.pin" (option_map hsm_pin_ref (c_hsm c)) (hsm_pin s) /\
  optional_value sw "admin.bearer_token" (match c_admin c with Some a => admin_bearer_ref a | None => None end)
    (admin_bearer_token (resolved_admin s)) /\
  optional_value sw "admin.auditor_bearer_token" (match c_admin c with Some a => auditor_bearer_ref a | None => None end)
    (auditor_bearer_token (resolved_admin s)) /\
  nonempty_value sw "otp.ldap.bind_password"
    (if otp_cfg_enabled (c_otp c) then option_map ldap_bind_password (otp_ldap (c_otp c)) else None)
    (resolved_ldap_password s) /\
  Forall (fun x => exists v, cmp_mac_secrets s !! mac_reference x = Some v /\
    value_of sw (mac_field (mac_reference x)) (secret_hex x) = Ok v)
    (match c_cmp c with Some x => section_secrets x | None => [] end) /\
  nonempty_value sw "audit.integrity_key" (integrity_key_ref (c_audit c)) (audit_integrity_key s).
Proof.
  intros Hn H. unfold resolve_config in H.
  destruct (resolve_secret sw ∅ _ _) as [c1 [url|e|]] eqn:E1; cbn [sbind] in H; try done.
  apply resolve_secret_fresh in E1 as [H1 O1]; [|apply lookup_empty].
  destruct (resolve_nonempty sw c1 _ _) as [c2 [pin|e|]] eqn:E2; cbn [sbind] in H; try done.
  apply resolve_nonempty_spec in E2 as [H2 O2]; [|by rewrite O1].
  destruct (resolve_optional sw c2 _ _) as [c3 [admin|e|]] eqn:E3; cbn [sbind] in H; try done.
  apply resolve_optional_spec in E3 as [H3 O3]; [|by rewrite O2, O1].
  destruct (resolve_optional sw c3 _ _) as [c4 [auditor|e|]] eqn:E4; cbn [sbind] in H; try done.
  apply resolve_optional_spec in E4 as [H4 O4]; [|by rewrite O3, O2, O1].
  destruct (resolve_nonempty sw c4 _ _) as [c5 [ldap|e|]] eqn:E5; cbn [sbind] in H; try done.
  apply resolve_nonempty_spec in E5 as [H5 O5]; [|by rewrite O4, O3, O2, O1].
  destruct (resolve_macs sw c5 _ _) as [c6 [macs|e|]] eqn:E6; cbn [sbind] in H; try done.
  apply resolve_macs_spec in E6 as (H6 & _ & O6); [|done|].
  2:{ apply Forall_forall. intros x _. by rewrite O5, O4, O3, O2, O1. }
  destruct (resolve_nonempty sw c6 _ _) as [c7 [key|e|]] eqn:E7; cbn [sbind] in H; try done.
  apply resolve_nonempty_spec in E7 as [H7 _]; [|by rewrite O6, O5, O4, O3, O2, O1].
  injection H as _ <-. by split_and!.
Qed.
End ValidationProps.

(** ** Examples *)

Definition config_ca (id : string) (is_default : bool) : CaConfig :=
  MkCaConfig id is_default "ca.key" "ca.pem" "rsa-2048" None 365 "sha256" None None "CA" "Org" 3600 false.
Definition config_label (name : string) (ca : option string) (pool : list string) : EstLabelConfig :=
  MkLabelConfig name ca pool [] [] None (MkAuthzPolicy false false [] [] []) None None.
Definition config_secret (reference secret : string) : CmpMacSecret := MkMacSecret reference secret.
(** Two CAs, labels of each kind, shared secrets of CMP. *)
Definition example_root : Config :=
  MkConfig http_server_default tls_default (MkDb "env:DATABASE_URL" None None 30 3600 true true)
    [config_ca "root" true; config_ca "sub" false]
    (MkEstSection (MkEstConfig [] None [config_label "a" (Some "sub"%string) []; config_label "b" None ["root"; "sub"]%string]
       false 0) true true true None true true None (MkRenewalConfig 30 3600))
    None otp_config_default None audit_config_default lockout_default None None
    (Some (MkCmpSection (MkCmpConfig true true true true true true []) "hmac-sha256" None
       [config_secret "alice" "file:/run/alice"; config_secret "bob" "env:BOB"]))
    None None (Some (MkHa true ActivePassive 10 5 3 30 [])) ocsp_config_default 3600.
Definition example_config_world : ConfigWorld := MkConfigWorld None (fun _ => true).
Definition example_secret_world : SecretWorld :=
  MkSecretWorld (fun v => if String.eqb v "DATABASE_URL" then Some "sqlite://kipuka.db"%string
                          else if String.eqb v "BOB" then Some "0b0b"%string else None)
    (fun _ => Contents ("a1a1 "%string)) false (fun _ => inr EmptyString) (fun _ => NotStarted EmptyString)
    (fun _ _ => NotStarted EmptyString) (fun _ => EmptyString).
Example example_valid : validate_config (fun s => s) example_config_world example_root = Ok tt.
Proof. vm_compute. reflexivity. Qed.
Example duplicate_ca :
  check_duplicates (fun s => s) [] [config_ca "a" true; config_ca "a" false] = Err "duplicate CA id a".
Proof. reflexivity. Qed.
(** A second secret under one reference gets the value of the first. *)
Example duplicate_reference :
  omap_ok (fun m => m !! "alice"%string)
    (resolve_macs example_secret_world ∅ ∅ [config_secret "alice" "file:/run/alice"; config_secret "alice" "env:BOB"]).2 =
  Ok (Some "a1a1"%string).
Proof. vm_compute. reflexivity. Qed.

Lemma resolved_secrets_witness : exists cache s,
  resolve_config example_secret_world ∅ example_root = (cache, Ok s) /\
  resolved_db_url s = "sqlite://kipuka.db"%string /\
  value_of example_secret_world "database.url" "env:DATABASE_URL" = Ok (resolved_db_url s).
Proof.
  assert (Hn : NoDup (map mac_reference (match c_cmp example_root with Some x => section_secrets x | None => [] end))).
  { apply (bool_decide_unpack _). vm_compute. reflexivity. }
  destruct (resolve_config example_secret_world ∅ example_root) as [cache [s|e|]] eqn:E.
  - exists cache, s. destruct (resolved_secrets example_secret_world example_root cache s Hn E) as [H _]. cbn in H.
    split; [done|]. split; [by injection H|exact H].
  - exfalso. vm_compute in E. done.
  - exfalso. vm_compute in E. done.
Defined.
