(* ===== verification/DogtagClient.v ===== *)
(** * The client of a Dogtag CA

    [crates/kipuka-dogtag/src/lib.rs], [client.rs], [enroll.rs], [certs.rs],
    [cmc.rs] and [profiles.rs]: requests to the REST interface of a Dogtag
    CA, over HTTP.  The other side is any function from the requests it has
    been sent so far to its answer to the next one; an operation answers the
    requests that have been sent when it ends, and its result.  The crates
    [reqwest] and [serde_json] are interfaces. *)
From S2P Require Import Prelude Words Text X509 Der DerReader Issuance DogtagPool Config Enroll.
Open Scope Z_scope.

(** ** Errors and answers ([lib.rs]) *)

Inductive DogtagError : Type :=
  | HttpError (e : string)
  | ApiError (status : Z) (body : string)
  | ParseError (e : string)
  | ConfigError (e : string)
  | TlsError (e : string)
  | IoError (e : string)
  | NoHealthyBackend
  | EnrollmentRejected (reason : string)
  | EnrollmentPending (request_id : string)
  | KraError (e : string).
Definition dogtag_error_to_string (e : DogtagError) : string :=
  match e with
  | HttpError e => "HTTP request failed: " +:+ e
  | ApiError status body => "Dogtag returned HTTP " +:+ pretty status +:+ ": " +:+ body
  | ParseError e => "Failed to parse response: " +:+ e
  | ConfigError e => "Invalid configuration: " +:+ e
  | TlsError e => "TLS error: " +:+ e
  | IoError e => "I/O error: " +:+ e
  | NoHealthyBackend => "No healthy CA backend available"
  | EnrollmentRejected reason => "Enrollment rejected: " +:+ reason
  | EnrollmentPending request_id => "Enrollment pending: request_id=" +:+ request_id
  | KraError e => "KRA error: " +:+ e
  end.

(** [str::is_char_boundary] *)
Definition is_char_boundary (s : string) (n : nat) : bool :=
  if (n =? 0)%nat || (n =? String.length s)%nat then true
  else match String.get n s with Some c => negb (continuation (byte_of c)) | None => false end.
Fixpoint boundary_before (s : string) (n : nat) : nat :=
  match n with
  | O => O
  | S m => if is_char_boundary s n then n else boundary_before s m
  end.
(** [truncate_str] *)
Definition truncate_str (s : string) (max_bytes : nat) : string :=
  if (String.length s <=? max_bytes)%nat then s else String.substring 0 (boundary_before s max_bytes) s.

(** An answer: its chunks are what reading the body gives, up to an error. *)
Record HttpResponse : Type := MkHttpResponse {
  http_status : Z;                     (* u16 *)
  http_content_type : option string;
  http_content_length : option Z;      (* u64 *)
  http_chunks : list (bytes + string)
}.
Definition LIMIT : Z := 4 * 1024 * 1024.
Definition TOO_LONG : DogtagError := ParseError "backend response exceeds 4 MiB".
Fixpoint read_chunks (acc : bytes) (l : list (bytes + string)) : outcome bytes DogtagError :=
  match l with
  | [] => Ok acc
  | inr e :: _ => Err (HttpError e)
  | inl chunk :: l => if Z.max 0 (LIMIT - len acc) <? len chunk then Err TOO_LONG else read_chunks (acc ++ chunk) l
  end.
(** [bounded_bytes], [bounded_text] *)
Definition bounded_bytes (r : HttpResponse) : outcome bytes DogtagError :=
  match http_content_length r with
  | Some n => if LIMIT <? n then Err TOO_LONG else read_chunks [] (http_chunks r)
  | None => read_chunks [] (http_chunks r)
  end.
Definition bounded_text (r : HttpResponse) : outcome string DogtagError := omap_ok from_utf8_lossy (bounded_bytes r).

(** ** What is sent and parsed *)

Record ProfileInput : Type := MkInput { class_id : string; attributes : list (string * string) }.
Record EnrollmentRequest : Type := MkEnrollment {
  request_profile : string;
  renewal : bool;
  input : list ProfileInput
}.
Record EnrollmentEntry : Type := MkEntryOf {
  entry_request_id : option string;
  request_status : option string;
  cert_id : option string
}.
Record CertInfo : Type := MkCertInfo {
  cert_info_id : string;
  subject_d_n : option string;
  issuer_d_n : option string;
  cert_status : option string;
  not_valid_before : option string;
  not_valid_after : option string;
  cert_encoded : option string
}.
Record ConstraintParam : Type := MkParam { param_name : string; param_value : option string }.
Record Constraint : Type := MkConstraint { constraint_class : option string; params : list ConstraintParam }.
Record Policy : Type := MkPolicy {
  policy_id : option string;
  constraint : option Constraint;
  defaults : list Constraint
}.
Record PolicySet : Type := MkPolicySet { policy_set_id : option string; policies : list Policy }.
Record ProfileInfo : Type := MkProfileInfo {
  info_profile_id : string;
  info_name : option string;
  info_description : option string;
  info_enabled : option bool;
  info_visible : option bool
}.
Record ProfileDetail : Type := MkProfileDetail {
  detail_profile_id : string;
  detail_name : option string;
  detail_description : option string;
  detail_enabled : option bool;
  policy_sets : list PolicySet
}.

(** [serde_json]: values, and the structures that are derived. *)
Class DogtagJson : Type := {
  Json : Type;
  from_slice : bytes -> Json + string;
  json_get : Json -> string -> option Json;
  json_str : Json -> option string;
  json_array : Json -> option (list Json);
  json_u64 : Json -> option Z;
  json_text : Json -> string;
  enrollment_response : bytes -> list EnrollmentEntry + string;
  enrollment_entry : bytes -> EnrollmentEntry + string;
  cert_data_response : bytes -> option string + string;
  cert_info : bytes -> CertInfo + string;
  cert_list_response : bytes -> list CertInfo + string;
  profile_list_response : bytes -> list ProfileInfo + string;
  profile_detail : bytes -> ProfileDetail + string
}.

Inductive Payload `{DogtagJson} : Type :=
  | EmptyObject
  | EnrollmentOf (r : EnrollmentRequest)
  | Reviewed (j : Json)
  | Revocation (reason : Z)
  | RestMessage (class_name : string) (l : list (string * string))
  | FlatObject (l : list (string * string)).
Inductive HttpBody `{DogtagJson} : Type :=
  | Get (accept_json : bool)
  | PostJson (p : Payload)
  | PostBytes (content_type : string) (b : bytes).
Record HttpRequest `{DogtagJson} : Type := MkHttpRequest {
  rq_url : string;
  rq_auth : option (string * string);
  rq_body : HttpBody
}.

Arguments EmptyObject {_}.
Arguments EnrollmentOf {_}.
Arguments Reviewed {_}.
Arguments Revocation {_}.
Arguments RestMessage {_}.
Arguments FlatObject {_}.
Arguments Get {_}.
Arguments PostJson {_}.
Arguments PostBytes {_}.
Arguments MkHttpRequest {_}.

(** The files and the library that a client is made with; [reqwest] keeps the
    settings of a client to itself. *)
Record HttpSettings : Type := MkSettings {
  no_verification : bool;
  timeout : Z;
  identity_of : option (bytes * bytes);
  root_of : bytes
}.
Record ClientWorld : Type := MkClientWorld {
  cw_read : string -> bytes + string;
  identity_error : bytes -> bytes -> option string;
  certificate_error : bytes -> option string;
  build_error : HttpSettings -> option string
}.
Record DogtagClient : Type := MkClient {
  http : HttpSettings;
  base_url : string;
  basic_auth : option (string * string);
  client_retry_max : Z;     (* u32 *)
  client_retry_delay : Z
}.

Section Client.
Context `{HU : UrlLib} `{HJ : DogtagJson}.
Variable url_text : Url -> string.
Variable base64_decode : string -> bytes + string.
Variable base64_encode : bytes -> string.
(** [Debug] of a text, and [Display] of a status. *)
Variable debug : string -> string.
Variable status_text : Z -> string.

(** ** [client.rs] *)

(** The identity, the anchors and the settings of both clients. *)
Definition http_settings (w : ClientWorld) (c : DogtagConfig) (mtls : bool) (failed : string)
  : outcome HttpSettings DogtagError :=
  let? identity :=
    if mtls then
      let? cert_pem := of_lib IoError (cw_read w (agent_cert_file c)) in
      let? key_pem := of_lib IoError (cw_read w (agent_key_file c)) in
      match identity_error w cert_pem key_pem with
      | Some e => Err (TlsError ("Failed to load agent identity: " +:+ e))
      | None => Ok (Some (cert_pem, key_pem))
      end
    else Ok None in
  let? ca_pem := of_lib IoError (cw_read w (dogtag_ca_cert_file c)) in
  match certificate_error w ca_pem with
  | Some e => Err (TlsError ("Failed to load CA certificate: " +:+ e))
  | None =>
      let s := MkSettings (accept_invalid_certs c) (dogtag_timeout_secs c * SECS) identity ca_pem in
      match build_error w s with
      | Some e => Err (TlsError (failed +:+ e))
      | None => Ok s
      end
  end.
Definition is_http (u : Url) : bool := String.eqb (url_scheme u) "http".
(** [DogtagClient::new] *)
Definition client_new (w : ClientWorld) (c : DogtagConfig) : outcome DogtagClient DogtagError :=
  let? s := http_settings w c (negb (is_http (ca_url c)) && negb (skip_mtls c)) "HTTP client build failed: " in
  let? auth :=
    match dogtag_username c, dogtag_password c with
    | Some user, Some pass => Ok (Some (user, pass))
    | _, _ =>
        if is_http (ca_url c) then Err (ConfigError "username and password are required for HTTP connections")
        else Ok None
    end in
  Ok (MkClient s (trim_end_char "/" (url_text (ca_url c))) auth (retry_max c) (retry_delay_ms c * 1000000)).

Variable answer : list HttpRequest -> HttpRequest -> HttpResponse + string.

Definition send (h : list HttpRequest) (rq : HttpRequest) : list HttpRequest * (HttpResponse + string) :=
  (h ++ [rq], answer h rq).
Definition sent (h : list HttpRequest) (rq : HttpRequest) : list HttpRequest * outcome HttpResponse DogtagError :=
  let (h, r) := send h rq in (h, of_lib HttpError r).
Definition is_server_error (status : Z) : bool := (500 <=? status) && (status <? 600).

(** [request_with_retry]: [n] attempts are left. *)
Fixpoint retry_loop (n : nat) (last_error : option DogtagError) (h : list HttpRequest) (rq : HttpRequest)
  : list HttpRequest * outcome HttpResponse DogtagError :=
  match n with
  | O => (h, Err (default (ApiError 0 "All retry attempts exhausted") last_error))
  | S n =>
      let (h, r) := send h rq in
      match r with
      | inl resp =>
          if is_server_error (http_status resp) then
            match bounded_text resp with
            | Ok body => retry_loop n (Some (ApiError (http_status resp) body)) h rq
            | Err e => (h, Err e)
            | Panic => (h, Panic)
            end
          else (h, Ok resp)
      | inr e => retry_loop n (Some (HttpError e)) h rq
      end
  end.
Definition request_with_retry (c : DogtagClient) (h : list HttpRequest) (rq : HttpRequest)
  : list HttpRequest * outcome HttpResponse DogtagError :=
  retry_loop (Z.to_nat (client_retry_max c + 1)) None h rq.
Definition request (c : DogtagClient) (path : string) (b : HttpBody) : HttpRequest :=
  MkHttpRequest (base_url c +:+ path) (basic_auth c) b.
Definition get (c : DogtagClient) h (path : string) := request_with_retry c h (request c path (Get true)).
Definition get_raw (c : DogtagClient) h (path : string) := request_with_retry c h (request c path (Get false)).
Definition post_json (c : DogtagClient) h (path : string) (p : Payload) := sent h (request c path (PostJson p)).
Definition post_bytes (c : DogtagClient) h (path : string) (b : bytes) (content_type : string) :=
  sent h (request c path (PostBytes content_type b)).

(** [health_check] *)
Fixpoint check_paths (c : DogtagClient) (h : list HttpRequest) (paths : list string) : list HttpRequest * bool :=
  match paths with
  | [] => (h, false)
  | path :: paths =>
      let (h, r) := send h (request c path (Get true)) in
      match r with
      | inl resp => if is_success (http_status resp) then (h, true) else check_paths c h paths
      | inr _ => check_paths c h paths
      end
  end.
Definition client_health_check (c : DogtagClient) h := check_paths c h ["/pki/v2/info"; "/ca/rest/info"]%string.

(** [json_response] *)
Definition json_response {T} (decode : bytes -> T + string) (r : HttpResponse) : outcome T DogtagError :=
  let? body := bounded_text r in
  if negb (is_success (http_status r)) then Err (ApiError (http_status r) body)
  else
    of_lib (fun e => ParseError ("JSON parse failed (content-type: " +:+ default "unknown" (http_content_type r) +:+
                                 "): " +:+ e +:+ "; body: " +:+ truncate_str body 500))
      (decode (bytes_of_string body)).
(** [?] on a result that sends nothing. *)
Definition pure {T} (h : list HttpRequest) (r : outcome T DogtagError) : list HttpRequest * outcome T DogtagError := (h, r).

(** ** [enroll.rs]: certificates *)

Definition decode_pem_to_der (pem : string) : outcome bytes DogtagError :=
  of_lib (fun e => ParseError ("invalid base64 in certificate: " +:+ e))
    (base64_decode (join EmptyString (List.filter (fun l => negb (starts_with "-----" l)) (lines pem)))).
Definition between (open close xml : string) : option string :=
  match split_once_str open xml with
  | Some (_, r) => option_map fst (split_once_str close r)
  | None => None
  end.
Definition extract_cert_from_xml (xml : string) : option string :=
  match between "<Encoded>" "</Encoded>" xml with
  | Some pem => Some pem
  | None => between "<encoded>" "</encoded>" xml
  end.
(** What [fetch_cert_der] makes of a body. *)
Definition certificate_of_body (body : string) : outcome bytes DogtagError :=
  match cert_data_response (bytes_of_string body) with
  | inl (Some encoded) => decode_pem_to_der encoded
  | _ =>
      if contains_str "-----BEGIN CERTIFICATE-----" body then decode_pem_to_der body
      else match extract_cert_from_xml body with
           | Some pem => decode_pem_to_der pem
           | None => Err (ParseError ("cannot extract certificate from response; body: " +:+ truncate_str body 500))
           end
  end.
Definition fetch_cert_der (c : DogtagClient) (h : list HttpRequest) (cert_id : string)
  : list HttpRequest * outcome bytes DogtagError :=
  let! (h, resp) := get c h ("/ca/rest/certs/" +:+ cert_id) in
  (h, let? body := bounded_text resp in
      if negb (is_success (http_status resp)) then Err (ApiError (http_status resp) body)
      else certificate_of_body body).
(** [Some] certificate if there is an identifier to fetch it by. *)
Definition fetch_if (c : DogtagClient) (h : list HttpRequest) (cert_id : option string)
  : list HttpRequest * outcome (option bytes) DogtagError :=
  match cert_id with
  | Some id => let! (h, der) := fetch_cert_der c h id in (h, Ok (Some der))
  | None => (h, Ok None)
  end.

Definition status_of (s : string) : option EnrollStatus :=
  if String.eqb s "complete" then Some Complete
  else if String.eqb s "pending" then Some Pending
  else if String.eqb s "rejected" then Some Rejected
  else if String.eqb s "canceled" then Some Canceled
  else None.
Definition option_debug (o : option string) : string :=
  match o with Some s => "Some(" +:+ debug s +:+ ")" | None => "None" end.
(** [get_enrollment_status] *)
Definition get_enrollment_status (c : DogtagClient) (h : list HttpRequest) (request_id : string)
  : list HttpRequest * outcome EnrollResult DogtagError :=
  let! (h, resp) := get c h ("/ca/rest/certrequests/" +:+ request_id) in
  let! (h, entry) := pure h (json_response enrollment_entry resp) in
  match (match request_status entry with Some s => status_of s | None => None end) with
  | None => (h, Err (ParseError ("Unknown request status: " +:+ option_debug (request_status entry))))
  | Some Complete =>
      let! (h, der) := fetch_if c h (cert_id entry) in
      (h, Ok (MkEnrollResult request_id Complete der))
  | Some s => (h, Ok (MkEnrollResult request_id s None))
  end.

(** ** Enrollment *)

Definition submitter_info : ProfileInput :=
  MkInput "submitterInfoInputImpl"
    [("requestor_name", "kipuka EST Server"); ("requestor_email", EmptyString); ("requestor_phone", EmptyString)]%string.
Definition enrollment_of (profile_id request_type request_data : string) : EnrollmentRequest :=
  MkEnrollment profile_id false
    [MkInput "certReqInputImpl" [("cert_request_type", request_type); ("cert_request", request_data)]%string;
     submitter_info].
Definition approve_path (request_id : string) : string := "/ca/rest/agent/certrequests/" +:+ request_id +:+ "/approve".

(** The form of a pending request is read and sent back as the approval; the
    result is the answer to the approval. *)
Definition review_and_approve (c : DogtagClient) (h : list HttpRequest) (request_id : string)
  : list HttpRequest * outcome (HttpResponse + DogtagError) DogtagError :=
  let (h, review) := get c h ("/ca/rest/agent/certrequests/" +:+ request_id) in
  let! (h, payload) := pure h
    (match review with
     | Ok resp =>
         if is_success (http_status resp) then
           match json_response from_slice resp with
           | Ok body => Ok (Reviewed body)
           | Err _ => Ok EmptyObject
           | Panic => Panic
           end
         else let? _ := bounded_text resp in Ok EmptyObject
     | Err _ => Ok EmptyObject
     | Panic => Panic
     end) in
  let (h, r) := post_json c h (approve_path request_id) payload in
  match r with
  | Ok resp => (h, Ok (inl resp))
  | Err e => (h, Ok (inr e))
  | Panic => (h, Panic)
  end.
Definition field_of (j : Json) (a b : string) : option string :=
  match (match json_get j a with Some v => Some v | None => json_get j b end) with
  | Some v => json_str v
  | None => None
  end.
(** What is made of an approval that succeeded and is JSON. *)
Definition approved_result (c : DogtagClient) (h : list HttpRequest) (approved : Json)
  : list HttpRequest * outcome (EnrollStatus * option bytes) DogtagError :=
  if String.eqb (default "unknown" (field_of approved "requestStatus" "RequestStatus")) "complete" then
    let! (h, der) := fetch_if c h
      (match field_of approved "certId" "CertId" with
       | Some id => Some id
       | None => field_of approved "certificateId" "CertificateID"
       end) in
    (h, Ok (Complete, der))
  else (h, Ok (Pending, None)).
Definition auto_approve (c : DogtagClient) (h : list HttpRequest) (request_id : string)
  : list HttpRequest * outcome EnrollResult DogtagError :=
  let! (h, r) := review_and_approve c h request_id in
  match r with
  | inr _ => (h, Ok (MkEnrollResult request_id Pending None))
  | inl resp =>
      if negb (is_success (http_status resp)) then
        let! (h, _) := pure h (bounded_text resp) in (h, Ok (MkEnrollResult request_id Pending None))
      else
        let! (h, body) := pure h (bounded_bytes resp) in
        match from_slice body with
        | inr _ => get_enrollment_status c h request_id
        | inl approved =>
            let! (h, r) := approved_result c h approved in
            (h, Ok (MkEnrollResult request_id r.1 r.2))
        end
  end.
(** [enroll_certificate_with_type] *)
Definition enroll_certificate_with_type (c : DogtagClient) (h : list HttpRequest)
    (request_data profile_id request_type : string) : list HttpRequest * outcome EnrollResult DogtagError :=
  let (h, _) := post_json c h "/ca/rest/account/login" EmptyObject in
  let! (h, resp) := post_json c h "/ca/rest/certrequests"
    (EnrollmentOf (enrollment_of profile_id request_type request_data)) in
  let! (h, entries) := pure h (json_response enrollment_response resp) in
  let! (h, entry) := pure h (ok_or (head entries) (ParseError "Empty enrollment response")) in
  let! (h, request_id) := pure h (ok_or (entry_request_id entry) (ParseError "Missing request_id in response")) in
  match request_status entry with
  | None => (h, Err (ParseError "Missing request_status in response"))
  | Some text =>
      match status_of text with
      | None => (h, Err (ParseError ("Unknown request status: " +:+ text)))
      | Some Pending => auto_approve c h request_id
      | Some Complete =>
          let! (h, der) := fetch_if c h (cert_id entry) in
          (h, Ok (MkEnrollResult request_id Complete der))
      | Some s => (h, Ok (MkEnrollResult request_id s None))
      end
  end.
(** [enroll_certificate] *)
Definition enroll_certificate (c : DogtagClient) (h : list HttpRequest) (csr_pem profile_id : string) :=
  enroll_certificate_with_type c h csr_pem profile_id "pkcs10".

(** ** Server-side key generation *)

(** [urlencoded] *)
Definition hex_upper (n : Z) : string := String (byte_to_ascii (if n <? 10 then 48 + n else 55 + n)) EmptyString.
Definition url_safe (b : Z) : bool :=
  in_range 65 90 b || in_range 97 122 b || in_range 48 57 b
  || (b =? 45) || (b =? 95) || (b =? 46) || (b =? 126).
Definition urlencoded_byte (c : Ascii.ascii) : string :=
  let b := byte_of c in
  if url_safe b then String c EmptyString
  else if b =? 32 then "+"%string
  else "%" +:+ hex_upper (Z.shiftr b 4) +:+ hex_upper (Z.land b 15).
Fixpoint urlencoded (s : string) : string :=
  match s with
  | EmptyString => EmptyString
  | String c s => urlencoded_byte c +:+ urlencoded s
  end.
(** The loop of [build_approval_form]: the rest of the review is longer than
    what the next round looks at. *)
Fixpoint review_pairs (fuel : nat) (id_tag val_tag xml : string) : list (string * string) :=
  match fuel with
  | O => []
  | S fuel =>
      match split_once_str ("<" +:+ id_tag +:+ ">") xml with
      | None => []
      | Some (_, r) =>
          match split_once_str ("</" +:+ id_tag +:+ ">") r with
          | None => []
          | Some (id, after) =>
              let rest := "</" +:+ id_tag +:+ ">" +:+ after in
              let value := match between ("<" +:+ val_tag +:+ ">") ("</" +:+ val_tag +:+ ">") rest with
                           | Some v => trim v | None => EmptyString end in
              (if is_empty (trim id) then [] else [(trim id, value)]) ++ review_pairs fuel id_tag val_tag rest
          end
      end
  end.
Definition approval_fields (xml request_id : string) : list (string * string) :=
  review_pairs (String.length xml) "defId" "defVal" xml ++ review_pairs (String.length xml) "inputId" "inputVal" xml
  ++ [("requestId", request_id); ("op", "approve"); ("submit", "submit"); ("xml", "true")]%string.
Definition form_of (pairs : list (string * string)) : string :=
  join "&" (map (fun p => urlencoded p.1 +:+ "=" +:+ urlencoded p.2) pairs).
(** [build_approval_form] *)
Definition build_approval_form (xml request_id : string) : string := form_of (approval_fields xml request_id).

Record ServerKeygenResult : Type := MkKeygenResult {
  keygen_request_id : string;
  keygen_certificate : option bytes;
  keygen_pkcs12 : option string
}.
Definition keygen_request (profile_id subject_uid subject_cn p12_password key_type : string) (key_size : Z)
  : EnrollmentRequest :=
  MkEnrollment profile_id false
    [MkInput "serverKeygenInputImpl"
       [("serverSideKeygenP12Passwd", p12_password); ("keyType", key_type); ("keySize", pretty key_size)]%string;
     MkInput "subjectNameInputImpl" [("sn_uid", subject_uid); ("sn_cn", subject_cn)]%string;
     submitter_info].
Definition session_login (c : DogtagClient) (h : list HttpRequest) : list HttpRequest :=
  let (h, r) := get c h "/ca/v2/account/login" in
  match r with
  | Ok resp => if is_success (http_status resp) then h else (post_json c h "/ca/rest/account/login" EmptyObject).1
  | _ => (post_json c h "/ca/rest/account/login" EmptyObject).1
  end.
(** The approval over the agent's servlet, whose answer is the PKCS#12. *)
Definition approve_keygen (c : DogtagClient) (h : list HttpRequest) (request_id : string)
  : list HttpRequest * outcome ServerKeygenResult DogtagError :=
  let! (h, review) := get_raw c h ("/ca/agent/ca/profileReview?requestId=" +:+ request_id +:+ "&xml=true") in
  let! (h, xml) := pure h (bounded_text review) in
  if contains_str "errorReason" xml && negb (contains_str "<defId>" xml) then
    (h, Err (EnrollmentRejected ("SSKG review failed: " +:+ truncate_str xml 200)))
  else
    let! (h, resp) := post_bytes c h "/ca/agent/ca/profileProcess"
      (bytes_of_string (build_approval_form xml request_id)) "application/x-www-form-urlencoded" in
    let! (h, p12) := pure h (bounded_bytes resp) in
    if negb (is_success (http_status resp)) || (len p12 <? 100) then
      (h, Err (EnrollmentRejected ("SSKG approval failed (HTTP " +:+ status_text (http_status resp) +:+ "): " +:+
                 from_utf8_lossy (take 300 p12))))
    else (h, Ok (MkKeygenResult request_id None (Some (base64_encode p12)))).
(** The last segment of a path. *)
Definition last_segment (s : string) : string := List.last (split_char "/" s) EmptyString.
Definition string_field (j : Json) (name : string) : option string :=
  match json_get j name with Some v => json_str v | None => None end.
Definition issued_id (entry : Json) : string :=
  match string_field entry "certId" with
  | Some id => id
  | None => match string_field entry "certURL" with Some url => last_segment url | None => EmptyString end
  end.
(** [server_keygen] *)
Definition server_keygen (c : DogtagClient) (h : list HttpRequest)
    (profile_id subject_uid subject_cn p12_password key_type : string) (key_size : Z)
  : list HttpRequest * outcome ServerKeygenResult DogtagError :=
  let h := session_login c h in
  let! (h, resp) := post_json c h "/ca/rest/certrequests"
    (EnrollmentOf (keygen_request profile_id subject_uid subject_cn p12_password key_type key_size)) in
  let! (h, body) := pure h (json_response from_slice resp) in
  let! (h, entries) := pure h (ok_or (match json_get body "entries" with Some v => json_array v | None => None end)
    (ParseError "No entries in server-keygen response")) in
  let! (h, entry) := pure h (ok_or (head entries) (ParseError "Empty entries in server-keygen response")) in
  let status := default "unknown" (string_field entry "requestStatus") in
  let request_id := default EmptyString (field_of entry "requestID" "requestId") in
  if String.eqb status "pending" && negb (is_empty request_id) then approve_keygen c h request_id
  else if negb (String.eqb status "complete") then
    (h, Err (EnrollmentRejected ("status=" +:+ status +:+ ": " +:+
               default "unknown error" (string_field entry "errorMessage"))))
  else
    let id := issued_id entry in
    let! (h, der) := fetch_if c h (if is_empty id then None else Some id) in
    (h, Ok (MkKeygenResult request_id der None)).

(** ** [certs.rs] *)

Inductive RevocationReason : Type :=
  | KeyCompromise | CaCompromise | AffiliationChanged | Superseded | CessationOfOperation
  | CertificateHold | RemoveFromCrl | PrivilegeWithdrawn | AaCompromise | Unspecified.
Definition as_code (r : RevocationReason) : Z :=
  match r with
  | Unspecified => 0 | KeyCompromise => 1 | CaCompromise => 2 | AffiliationChanged => 3 | Superseded => 4
  | CessationOfOperation => 5 | CertificateHold => 6 | RemoveFromCrl => 8 | PrivilegeWithdrawn => 9 | AaCompromise => 10
  end.
Definition get_certificate (c : DogtagClient) (h : list HttpRequest) (serial : string) :=
  let! (h, resp) := get c h ("/ca/rest/certs/" +:+ serial) in pure h (json_response cert_info resp).
Definition revoke_certificate (c : DogtagClient) (h : list HttpRequest) (serial : string) (reason : RevocationReason)
  : list HttpRequest * outcome unit DogtagError :=
  let! (h, resp) := post_json c h ("/ca/rest/agent/certs/" +:+ serial +:+ "/revoke") (Revocation (as_code reason)) in
  pure h (if is_success (http_status resp) then Ok tt
          else let? body := bounded_text resp in Err (ApiError (http_status resp) body)).
Record CertFilter : Type := MkCertFilter {
  filter_subject : option string;
  filter_status : option string;
  filter_size : option Z;
  filter_start : option Z
}.
Definition query_part (name : string) (v : option string) : list string :=
  match v with Some v => [name +:+ "=" +:+ v] | None => [] end.
Definition certs_path (f : CertFilter) : string :=
  match (query_part "subject" (filter_subject f) ++ query_part "status" (filter_status f)
         ++ query_part "size" (option_map pretty (filter_size f))
         ++ query_part "start" (option_map pretty (filter_start f)))%list with
  | [] => "/ca/rest/certs"
  | parts => "/ca/rest/certs?" +:+ join "&" parts
  end.
Definition list_certificates (c : DogtagClient) (h : list HttpRequest) (f : CertFilter) :=
  let! (h, resp) := get c h (certs_path f) in pure h (json_response cert_list_response resp).

(** ** [cmc.rs] *)

Definition submit_cmc_request (c : DogtagClient) (h : list HttpRequest) (cmc_der : bytes)
  : list HttpRequest * outcome bytes DogtagError :=
  let! (h, resp) := post_bytes c h "/ca/ee/ca/profileSubmitCMCFull" cmc_der "application/pkcs7-mime" in
  pure h (if is_success (http_status resp) then bounded_bytes resp
          else let? body := bounded_text resp in Err (ApiError (http_status resp) body)).

(** ** [profiles.rs] *)

Record ProfileConstraints : Type := MkConstraints {
  key_types : list string;
  key_parameters : list string;
  key_usage : list string;
  extended_key_usage : list string;
  subject_dn_components : list string
}.
Definition key_constraint (p : ConstraintParam) (k : ProfileConstraints) : ProfileConstraints :=
  match param_value p with
  | Some v =>
      if String.eqb (param_name p) "keyType" then
        MkConstraints (key_types k ++ [v]) (key_parameters k) (key_usage k) (extended_key_usage k) (subject_dn_components k)
      else if String.eqb (param_name p) "keyParameters" then
        MkConstraints (key_types k) (key_parameters k ++ map trim (split_char "," v)) (key_usage k) (extended_key_usage k)
          (subject_dn_components k)
      else k
  | None => k
  end.
Definition usage_default (p : ConstraintParam) (k : ProfileConstraints) : ProfileConstraints :=
  if bool_decide (param_value p = Some "true"%string) then
    MkConstraints (key_types k) (key_parameters k) (key_usage k ++ [param_name p]) (extended_key_usage k)
      (subject_dn_components k)
  else k.
Definition eku_default (p : ConstraintParam) (k : ProfileConstraints) : ProfileConstraints :=
  match param_value p with
  | Some v =>
      MkConstraints (key_types k) (key_parameters k) (key_usage k) (extended_key_usage k ++ [v]) (subject_dn_components k)
  | None => k
  end.
Definition add_component (components : list string) (name : string) : list string :=
  if is_empty name || bool_decide (name ∈ components) then components else components ++ [name].
Definition component_names (v : string) : list string :=
  map (fun component => trim (default component (head (split_char "=" component)))) (split_char "," v).
Definition subject_default (p : ConstraintParam) (k : ProfileConstraints) : ProfileConstraints :=
  match param_value p with
  | Some v =>
      if String.eqb (param_name p) "name" then
        MkConstraints (key_types k) (key_parameters k) (key_usage k) (extended_key_usage k)
          (fold_left add_component (component_names v) (subject_dn_components k))
      else k
  | None => k
  end.
Definition all_params (f : ConstraintParam -> ProfileConstraints -> ProfileConstraints) (l : list ConstraintParam)
    (k : ProfileConstraints) : ProfileConstraints := fold_left (fun k p => f p k) l k.
Definition policy_default (k : ProfileConstraints) (d : Constraint) : ProfileConstraints :=
  match constraint_class d with
  | Some c =>
      if String.eqb c "keyUsageExtDefaultImpl" then all_params usage_default (params d) k
      else if String.eqb c "extendedKeyUsageExtDefaultImpl" then all_params eku_default (params d) k
      else if String.eqb c "subjectNameDefaultImpl" || String.eqb c "nsSubjectNameDefaultImpl" then
        all_params subject_default (params d) k
      else k
  | None => k
  end.
Definition policy_constraints (k : ProfileConstraints) (p : Policy) : ProfileConstraints :=
  let k := match constraint p with
           | Some c => if bool_decide (constraint_class c = Some "keyConstraintImpl"%string)
                       then all_params key_constraint (params c) k else k
           | None => k
           end in
  fold_left policy_default (defaults p) k.
(** [extract_constraints] *)
Definition extract_constraints (p : ProfileDetail) : ProfileConstraints :=
  fold_left policy_constraints (concat (map policies (policy_sets p))) (MkConstraints [] [] [] [] []).
Definition list_profiles (c : DogtagClient) (h : list HttpRequest) :=
  let! (h, resp) := get c h "/ca/rest/profiles" in pure h (json_response profile_list_response resp).
Definition get_profile (c : DogtagClient) (h : list HttpRequest) (id : string) :=
  let! (h, resp) := get c h ("/ca/rest/profiles/" +:+ id) in pure h (json_response profile_detail resp).
Definition get_profile_constraints (c : DogtagClient) (h : list HttpRequest) (id : string) :=
  let! (h, detail) := get_profile c h id in (h, Ok (extract_constraints detail)).
End Client.

(** The client as the backend of an enrollment over EST ([Enroll]): the
    clients of the pool by their names, after the requests [h]. *)
Definition rest_enroll `{DogtagJson} (base64_decode : string -> bytes + string) (debug : string -> string)
    (answer : list HttpRequest -> HttpRequest -> HttpResponse + string) (clients : string -> DogtagClient)
    (h : list HttpRequest) (name csr_pem profile_id : string) : EnrollResult + string :=
  match (enroll_certificate base64_decode debug answer (clients name) h csr_pem profile_id).2 with
  | Ok r => inl r
  | Err e => inr (dogtag_error_to_string e)
  | Panic => inr EmptyString
  end.
