(* ===== verification/DogtagClientSpec.v ===== *)
(** * The client of a Dogtag CA: theorems

    Of [DogtagClient]: what an operation sends, whatever the CA answers, and
    what its result means; the approval form; and enrollment over EST with
    such a client behind it. *)
From S2P Require Import Prelude Words Text Errors Calendar X509 ExampleLibs Der DerReader Issuance AuditLog NameMatch EnrollAuthz FailureTracker BasicOtp Transfer Labels IssuanceSpec AuditSpec EnrollSpec DogtagPool Config Enroll DogtagClient.
Open Scope Z_scope.

(** ** Texts *)

Lemma strip_prefix_cut t w y : contains_char "<" t = false ->
  strip_prefix t (w +:+ String "<" y) <> None -> strip_prefix t w <> None.
Proof.
  revert w. induction t as [|c t IH]; intros w Ht; [by destruct w|].
  cbn in Ht. apply orb_false_iff in Ht as [Hc%bool_decide_eq_false Ht]. destruct w as [|d w]; cbn.
  - by destruct (decide (c = "<"%char)).
  - case_decide; [by apply IH|done].
Qed.
(** A tag is found where it stands, if it does not occur before. *)
Lemma split_once_tag t w b : contains_char "<" t = false -> contains_str (String "<" t) w = false ->
  split_once_str (String "<" t) (w +:+ String "<" (t +:+ b)) = Some (w, b).
Proof.
  intros Ht. induction w as [|c w IH].
  - intros _. pose proof (strip_prefix_app (String "<" t) b) as E. cbn in E |- *. by rewrite E.
  - cbn. unfold starts_with. cbn. intros Hw. apply orb_false_iff in Hw as [Hc Hw]. rewrite (IH Hw). case_decide; [|done].
    destruct (strip_prefix t (w +:+ String "<" (t +:+ b))) eqn:E; [|done].
    exfalso. apply (strip_prefix_cut t w (t +:+ b)); [done|by rewrite E|]. by destruct (strip_prefix t w).
Qed.
Lemma split_once_str_Some p s a b : split_once_str p s = Some (a, b) -> s = a +:+ p +:+ b.
Proof.
  revert a. induction s as [|c s IH]; intros a; cbn.
  - destruct (strip_prefix p EmptyString) eqn:E; [|done]. intros [= <- <-]. by apply strip_prefix_Some in E.
  - destruct (strip_prefix p (String c s)) eqn:E.
    + intros [= <- <-]. by apply strip_prefix_Some in E.
    + destruct (split_once_str p s) as [[a' b']|]; [|done]. intros [= <- <-]. cbn. f_equal. by apply IH.
Qed.

(** ** What is sent *)

Section Sent.
Context `{HJ : DogtagJson}.
Variable answer : list HttpRequest -> HttpRequest -> HttpResponse + string.

Definition is_post (rq : HttpRequest) : bool := match rq_body rq with Get _ => false | _ => true end.
(** The requests that change something at the CA. *)
Definition posts (l : list HttpRequest) : list HttpRequest := List.filter is_post l.
Lemma posts_app l k : posts (l ++ k) = posts l ++ posts k.
Proof. apply List.filter_app. Qed.
(** An operation adds to what has been sent, and its changes are as [P] says. *)
Definition sends (P : list HttpRequest -> Prop) (h h' : list HttpRequest) : Prop := exists l, h' = h ++ l /\ P (posts l).
Definition reads : list HttpRequest -> list HttpRequest -> Prop := sends (eq []).
Lemma reads_refl h : reads h h.
Proof. exists []. by rewrite app_nil_r. Qed.
Lemma sends_weaken (P Q : list HttpRequest -> Prop) h h' : sends P h h' -> (forall l, P l -> Q l) -> sends Q h h'.
Proof. intros (l & -> & H) HPQ. exists l. auto. Qed.
Lemma sends_app (P Q R : list HttpRequest -> Prop) h1 h2 h3 :
  sends P h1 h2 -> sends Q h2 h3 -> (forall l k, P l -> Q k -> R (l ++ k)) -> sends R h1 h3.
Proof. intros (l & -> & Hl) (k & -> & Hk) H. exists (l ++ k). rewrite posts_app, app_assoc. auto. Qed.
Lemma reads_trans h1 h2 h3 : reads h1 h2 -> reads h2 h3 -> reads h1 h3.
Proof. intros H1 H2. eapply sends_app; [exact H1|exact H2|]. by intros ? ? <- <-. Qed.
(** After a step that only reads. *)
Lemma reads_then {T U} P h (c : list HttpRequest * outcome T DogtagError)
    (k : list HttpRequest -> T -> list HttpRequest * outcome U DogtagError) :
  reads h c.1 -> P [] -> (forall h' x, c = (h', Ok x) -> sends P h' (k h' x).1) -> sends P h (sbind c k).1.
Proof.
  destruct c as [h' [x|e|]]; cbn; intros H HP Hk.
  - eapply sends_app; [exact H|by apply Hk|]. by intros ? ? <- ?.
  - eapply sends_weaken; [exact H|]. by intros ? <-.
  - eapply sends_weaken; [exact H|]. by intros ? <-.
Qed.

Lemma then_reads {T U} P h (c : list HttpRequest * outcome T DogtagError)
    (k : list HttpRequest -> T -> list HttpRequest * outcome U DogtagError) :
  sends P h c.1 -> (forall h' x, c = (h', Ok x) -> reads h' (k h' x).1) -> sends P h (sbind c k).1.
Proof.
  destruct c as [h' [x|e|]]; cbn; intros H Hk; [|done|done].
  eapply sends_app; [exact H|by apply Hk|]. intros ? ? ? <-. by rewrite app_nil_r.
Qed.

(** The answer that a request gets after [h] is not tried again. *)
Definition final (h : list HttpRequest) (rq : HttpRequest) : bool :=
  match answer h rq with
  | inl resp => negb (is_server_error (http_status resp)) || negb (bool_decide (is_Some (outcome_ok (bounded_text resp))))
  | inr _ => false
  end.
Lemma retry_loop_spec n last h rq : exists k,
  (k <= n)%nat /\ (retry_loop answer n last h rq).1 = h ++ replicate k rq /\
  (forall j, (S j < k)%nat -> final (h ++ replicate j rq) rq = false) /\
  match (retry_loop answer n last h rq).2 with
  | Ok resp => exists j, k = S j /\ answer (h ++ replicate j rq) rq = inl resp /\ is_server_error (http_status resp) = false
  | Err e =>
      k = n /\ (n = O \/ exists j, k = S j /\ final (h ++ replicate j rq) rq = false) \/
      (exists j resp, k = S j /\ answer (h ++ replicate j rq) rq = inl resp /\ is_server_error (http_status resp) = true /\
         bounded_text resp = Err e)
  | Panic => exists j resp, k = S j /\ answer (h ++ replicate j rq) rq = inl resp /\ bounded_text resp = Panic
  end.
Proof.
  revert last h. induction n as [|n IH]; intros last h.
  { exists O. split_and!; [lia|by rewrite app_nil_r|lia|]. cbn. auto. }
  assert (forall last', final h rq = false -> exists k, (k <= S n)%nat /\
    (retry_loop answer n last' (h ++ [rq]) rq).1 = h ++ replicate k rq /\
    (forall j, (S j < k)%nat -> final (h ++ replicate j rq) rq = false) /\
    match (retry_loop answer n last' (h ++ [rq]) rq).2 with
    | Ok resp => exists j, k = S j /\ answer (h ++ replicate j rq) rq = inl resp /\ is_server_error (http_status resp) = false
    | Err e =>
        k = S n /\ (S n = O \/ exists j, k = S j /\ final (h ++ replicate j rq) rq = false) \/
        (exists j resp, k = S j /\ answer (h ++ replicate j rq) rq = inl resp /\ is_server_error (http_status resp) = true /\
         bounded_text resp = Err e)
    | Panic => exists j resp, k = S j /\ answer (h ++ replicate j rq) rq = inl resp /\ bounded_text resp = Panic
    end) as Hgo.
  { intros last' Hf. destruct (IH last' (h ++ [rq])) as (k & Hk & Hh & Hfin & Hr). exists (S k).
    assert (forall j, (h ++ [rq]) ++ replicate j rq = h ++ replicate (S j) rq) as Hs by (intros j; by rewrite <-app_assoc).
    split_and!; [lia|by rewrite Hh, Hs| |].
    { intros [|j] Hj; [by rewrite app_nil_r|]. rewrite <-Hs. apply Hfin. lia. }
    destruct (retry_loop answer n last' (h ++ [rq]) rq).2 as [resp|e|].
    - destruct Hr as (j & -> & Ha & ?). exists (S j). by rewrite <-Hs.
    - destruct Hr as [[-> Hr]|(j & resp & -> & Ha & ? & ?)].
      + left. split; [done|right]. exists n. split; [done|]. destruct Hr as [->|(j & -> & Hj)]; [by rewrite app_nil_r|].
        by rewrite <-Hs.
      + right. exists (S j), resp. by rewrite <-Hs.
    - destruct Hr as (j & resp & -> & Ha & ?). exists (S j), resp. by rewrite <-Hs. }
  cbn [retry_loop]. unfold send. unfold final in *. destruct (answer h rq) as [resp|e] eqn:Ea; [|by apply Hgo].
  destruct (is_server_error (http_status resp)) eqn:Es.
  - destruct (bounded_text resp) as [body|e|] eqn:Eb; [by apply Hgo|..];
      exists 1%nat; (split_and!; [lia|done|lia|]); cbn.
    + right. exists O, resp. by rewrite app_nil_r.
    + exists O, resp. by rewrite app_nil_r.
  - exists 1%nat. split_and!; [lia|done|lia|]. exists O. by rewrite app_nil_r.
Qed.

Lemma retry_reads n last h rq : is_post rq = false -> reads h (retry_loop answer n last h rq).1.
Proof.
  intros Hg. destruct (retry_loop_spec n last h rq) as (k & _ & -> & _). exists (replicate k rq). split; [done|].
  induction k as [|k IH]; [done|]. unfold posts in *. cbn. by rewrite Hg.
Qed.
End Sent.

Lemma read_chunks_returns acc l : returns (read_chunks acc l).
Proof. revert acc. induction l as [|[c|e] l IH]; intros acc; cbn; [done| |done]. destruct (_ <? _); [done|apply IH]. Qed.
Lemma bounded_bytes_returns r : returns (bounded_bytes r).
Proof.
  unfold bounded_bytes. destruct (http_content_length r) as [n|]; [|apply read_chunks_returns].
  destruct (LIMIT <? n); [done|apply read_chunks_returns].
Qed.
(** A body that is read is what was sent, and is within the limit. *)
Lemma read_chunks_bounded acc l b : len acc <= LIMIT -> read_chunks acc l = Ok b ->
  len b <= LIMIT /\ exists cs, l = map inl cs /\ b = acc ++ concat cs.
Proof.
  revert acc. induction l as [|[c|e] l IH]; intros acc Hacc; cbn [read_chunks]; [..|done].
  - intros [= <-]. split; [done|]. exists []. by rewrite app_nil_r.
  - destruct (Z.ltb_spec (Z.max 0 (LIMIT - len acc)) (len c)) as [|Hc]; [done|]. intros E.
    destruct (IH (acc ++ c)) as (Hb & cs & -> & ->); [unfold len in *; rewrite length_app; lia|done|].
    split; [done|]. exists (c :: cs). by rewrite <-app_assoc.
Qed.

Section Operations.
Context `{HU : UrlLib} `{HJ : DogtagJson}.
Variable base64_decode : string -> bytes + string.
Variable debug : string -> string.
Variable answer : list HttpRequest -> HttpRequest -> HttpResponse + string.

Abbreviation fetch := (fetch_cert_der base64_decode answer).
Abbreviation fetch_some := (fetch_if base64_decode answer).
Abbreviation poll := (get_enrollment_status base64_decode debug answer).
Abbreviation approve := (auto_approve base64_decode debug answer).
Abbreviation enroll := (enroll_certificate_with_type base64_decode debug answer).

Lemma get_reads c h path : reads h (get answer c h path).1.
Proof. by apply retry_reads. Qed.
Lemma get_raw_reads c h path : reads h (get_raw answer c h path).1.
Proof. by apply retry_reads. Qed.
Lemma pure_reads {T} h (r : outcome T DogtagError) : reads h (pure h r).1.
Proof. apply reads_refl. Qed.
Lemma fetch_reads c h id : reads h (fetch c h id).1.
Proof. apply reads_then; [apply get_reads|done|]. intros. apply reads_refl. Qed.
Lemma fetch_some_reads c h id : reads h (fetch_some c h id).1.
Proof.
  destruct id as [id|]; [|apply reads_refl]. apply reads_then; [apply fetch_reads|done|]. intros. apply reads_refl.
Qed.
Lemma poll_reads c h id : reads h (poll c h id).1.
Proof.
  apply reads_then; [apply get_reads|done|]. intros h1 resp _. apply reads_then; [apply pure_reads|done|].
  intros h2 entry _. destruct (match request_status entry with Some s => status_of s | None => None end) as [[]|];
    try apply reads_refl. apply reads_then; [apply fetch_some_reads|done|]. intros. apply reads_refl.
Qed.
Lemma approved_reads c h j : reads h (approved_result base64_decode answer c h j).1.
Proof.
  unfold approved_result. case_match; [|apply reads_refl].
  apply reads_then; [apply fetch_some_reads|done|]. intros. apply reads_refl.
Qed.

(** Nothing, or one approval of the request. *)
Definition approval (c : DogtagClient) (id : string) (l : list HttpRequest) : Prop :=
  l = [] \/ exists p, l = [request c (approve_path id) (PostJson p)].
Lemma review_sends c h id : sends (approval c id) h (review_and_approve answer c h id).1.
Proof.
  unfold review_and_approve. destruct (get answer c h _) as [h1 review] eqn:E.
  pose proof (get_reads c h ("/ca/rest/agent/certrequests/" +:+ id)) as Hr. rewrite E in Hr.
  assert (forall p, sends (approval c id) h (h1 ++ [request c (approve_path id) (PostJson p)])) as Hp.
  { intros p. eapply (sends_app _ (eq [_])); [exact Hr|exists [request c (approve_path id) (PostJson p)]; done|].
    intros ? ? <- <-. right. eauto. }
  unfold pure. destruct (match review with Ok _ => _ | Err _ => _ | Panic => _ end) as [p|e|]; cbn -[send].
  - specialize (Hp p). unfold post_json, sent, send. by destruct (of_lib HttpError _).
  - eapply sends_weaken; [exact Hr|]. intros ? <-. by left.
  - eapply sends_weaken; [exact Hr|]. intros ? <-. by left.
Qed.
Lemma approve_sends c h id : sends (approval c id) h (approve c h id).1.
Proof.
  apply then_reads; [apply review_sends|]. intros h1 [resp|] _; [|apply reads_refl]. destruct (negb _).
  - apply reads_then; [apply pure_reads|done|]. intros. apply reads_refl.
  - apply reads_then; [apply pure_reads|done|]. intros h2 body _. destruct (from_slice body).
    + apply reads_then; [apply approved_reads|done|]. intros. apply reads_refl.
    + apply poll_reads.
Qed.

(** ** Enrollment *)

Lemma get_ok c h path h' resp : get answer c h path = (h', Ok resp) ->
  exists h1, h' = h1 ++ [request c path (Get true)] /\ answer h1 (request c path (Get true)) = inl resp.
Proof.
  intros E. destruct (retry_loop_spec answer (Z.to_nat (client_retry_max c + 1)) None h (request c path (Get true)))
    as (k & _ & Hh & _ & Hr).
  unfold get, request_with_retry in E. rewrite E in Hh, Hr. cbn in Hh, Hr. destruct Hr as (j & -> & Ha & _).
  exists (h ++ replicate j (request c path (Get true))). split; [|done]. rewrite Hh, <-app_assoc. f_equal.
  apply replicate_S_end.
Qed.
(** The certificate is what the CA answered, last, for an identifier. *)
Definition fetched (c : DogtagClient) (h' : list HttpRequest) (cid : string) (der : bytes) : Prop :=
  exists h1 resp body, h' = h1 ++ [request c ("/ca/rest/certs/" +:+ cid) (Get true)] /\
    answer h1 (request c ("/ca/rest/certs/" +:+ cid) (Get true)) = inl resp /\ is_success (http_status resp) = true /\
    bounded_text resp = Ok body /\ certificate_of_body base64_decode body = Ok der.
Lemma fetch_ok c h cid h' der : fetch c h cid = (h', Ok der) -> fetched c h' cid der.
Proof.
  unfold fetch_cert_der. intros E. apply sbind_inv in E as [(h1 & resp & Eg & E)|(o & _ & _ & Hn)]; [|by destruct (Hn der)].
  apply get_ok in Eg as (h2 & -> & Ha). injection E as <- E. apply obind_Ok in E as (body & Eb & E).
  destruct (is_success (http_status resp)) eqn:Es; [|done]. cbn in E. by exists h2, resp, body.
Qed.
Lemma fetch_some_ok c h id h' der : fetch_some c h id = (h', Ok der) ->
  match id, der with
  | Some cid, Some der => fetched c h' cid der
  | None, None => h' = h
  | _, _ => False
  end.
Proof.
  destruct id as [cid|]; cbn [fetch_if]; [|by intros [= <- <-]].
  intros E. apply sbind_inv in E as [(h1 & d & Eg & E)|(o & _ & _ & Hn)]; [|by destruct (Hn der)].
  injection E as <- <-. by eapply fetch_ok.
Qed.

Definition entry_status (e : EnrollmentEntry) : option EnrollStatus :=
  match request_status e with Some t => status_of t | None => None end.
Definition polled (c : DogtagClient) (id : string) (cid : string) : Prop := exists h1 resp e,
  answer h1 (request c ("/ca/rest/certrequests/" +:+ id) (Get true)) = inl resp /\
  json_response enrollment_entry resp = Ok e /\ entry_status e = Some Complete /\ cert_id e = Some cid.
Lemma poll_ok c h id h' r : poll c h id = (h', Ok r) ->
  request_id r = id /\ forall der, dogtag_certificate r = Some der ->
    enroll_status r = Complete /\ exists cid, polled c id cid /\ fetched c h' cid der.
Proof.
  unfold get_enrollment_status. intros E.
  apply sbind_inv in E as [(h1 & resp & Eg & E)|(o & _ & _ & Hn)]; [|by destruct (Hn r)].
  apply get_ok in Eg as (h2 & -> & Ha).
  apply sbind_inv in E as [(h3 & e & Ee & E)|(o & _ & _ & Hn)]; [|by destruct (Hn r)]. injection Ee as <- Ee.
  fold (entry_status e) in E. destruct (entry_status e) as [st|] eqn:Est; [|done].
  destruct st; try (injection E as <- <-; by split).
  apply sbind_inv in E as [(h4 & der & Ef & E)|(o & _ & _ & Hn)]; [|by destruct (Hn r)]. injection E as <- <-.
  split; [done|]. intros d Hd. cbn in Hd. subst der. apply fetch_some_ok in Ef. destruct (cert_id e) as [cid|] eqn:Ec; [|done].
  split; [done|]. exists cid. split; [|done]. by exists h2, resp, e.
Qed.

Definition approved (c : DogtagClient) (id : string) (cid : string) : Prop := exists h1 p resp body j,
  answer h1 (request c (approve_path id) (PostJson p)) = inl resp /\ is_success (http_status resp) = true /\
  bounded_bytes resp = Ok body /\ from_slice body = inl j /\
  field_of j "requestStatus" "RequestStatus" = Some "complete"%string /\
  (field_of j "certId" "CertId" = Some cid \/
   field_of j "certId" "CertId" = None /\ field_of j "certificateId" "CertificateID" = Some cid).
Lemma review_ok c h id h' resp : review_and_approve answer c h id = (h', Ok (inl resp)) ->
  exists h1 p, answer h1 (request c (approve_path id) (PostJson p)) = inl resp.
Proof.
  unfold review_and_approve. destruct (get answer c h _) as [h1 review]. intros E.
  apply sbind_inv in E as [(h2 & p & Ep & E)|(o & _ & _ & Hn)]; [|by destruct (Hn (inl resp))].
  unfold post_json, sent, send in E. destruct (answer h2 _) as [resp'|e] eqn:Ea; [|done]. injection E as <- <-. eauto.
Qed.
Lemma approve_ok c h id h' r : approve c h id = (h', Ok r) ->
  request_id r = id /\ forall der, dogtag_certificate r = Some der ->
    enroll_status r = Complete /\ exists cid, (approved c id cid \/ polled c id cid) /\ fetched c h' cid der.
Proof.
  unfold auto_approve. intros E. apply sbind_inv in E as [(h1 & a & Er & E)|(o & _ & _ & Hn)]; [|by destruct (Hn r)].
  destruct a as [resp|]; [|by injection E as <- <-]. apply review_ok in Er as (h2 & p & Ha).
  destruct (is_success (http_status resp)) eqn:Es; cbn [negb] in E.
  2: { apply sbind_inv in E as [(h3 & b & _ & E)|(o & _ & _ & Hn)]; [|by destruct (Hn r)]. by injection E as <- <-. }
  apply sbind_inv in E as [(h3 & body & Eb & E)|(o & _ & _ & Hn)]; [|by destruct (Hn r)]. injection Eb as <- Eb.
  destruct (from_slice body) as [j|] eqn:Ej.
  2: { apply poll_ok in E as [Hid Hp]. split; [done|]. intros der Hd. destruct (Hp der Hd) as (? & cid & ? & ?). eauto. }
  apply sbind_inv in E as [(h4 & x & Ea & E)|(o & _ & _ & Hn)]; [|by destruct (Hn r)]. injection E as <- <-.
  split; [done|]. cbn. intros der Hd. unfold approved_result in Ea.
  destruct (String.eqb _ "complete") eqn:Ec; [|by injection Ea as <- <-].
  apply sbind_inv in Ea as [(h5 & d & Ef & Ea)|(o & _ & _ & Hn)]; [|by destruct (Hn x)]. injection Ea as <- <-. cbn in *.
  subst d. split; [done|]. apply fetch_some_ok in Ef.
  assert (field_of j "requestStatus" "RequestStatus" = Some "complete"%string) as Hst.
  { apply String.eqb_eq in Ec. destruct (field_of j "requestStatus" "RequestStatus"); cbn in Ec; [by subst|done]. }
  destruct (field_of j "certId" "CertId") as [cid|] eqn:E1.
  - exists cid. split; [|done]. left. exists h2, p, resp, body, j. auto 10.
  - destruct (field_of j "certificateId" "CertificateID") as [cid|] eqn:E2; [|done].
    exists cid. split; [|done]. left. exists h2, p, resp, body, j. auto 10.
Qed.

Definition rest_login (c : DogtagClient) : HttpRequest := request c "/ca/rest/account/login" (PostJson EmptyObject).
Definition submission (c : DogtagClient) (profile_id type data : string) : HttpRequest :=
  request c "/ca/rest/certrequests" (PostJson (EnrollmentOf (enrollment_of profile_id type data))).
(** What the CA answers to a submission: the entry that is looked at. *)
Definition first_entry (h : list HttpRequest) (rq : HttpRequest) : option EnrollmentEntry :=
  match answer h rq with
  | inl resp => match json_response enrollment_response resp with Ok l => head l | _ => None end
  | inr _ => None
  end.
Lemma enroll_unfold c h data profile_id type :
  let h1 := h ++ [rest_login c] in
  let rq := submission c profile_id type data in
  let h2 := h1 ++ [rq] in
  (exists e id, first_entry h1 rq = Some e /\ entry_request_id e = Some id /\
     enroll c h data profile_id type =
       match entry_status e with
       | Some Pending => approve c h2 id
       | Some Complete => let! (h, der) := fetch_some c h2 (cert_id e) in (h, Ok (MkEnrollResult id Complete der))
       | Some s => (h2, Ok (MkEnrollResult id s None))
       | None => (h2, Err (match request_status e with
                           | Some text => ParseError ("Unknown request status: " +:+ text)
                           | None => ParseError "Missing request_status in response"
                           end))
       end) \/
  (exists r, enroll c h data profile_id type = (h2, r) /\ (forall x, r <> Ok x) /\
     forall e, first_entry h1 rq = Some e -> entry_request_id e = None).
Proof.
  cbn zeta. unfold enroll_certificate_with_type, first_entry, post_json, sent, send. cbv beta iota.
  fold (rest_login c). fold (submission c profile_id type data).
  destruct (answer (h ++ [rest_login c]) (submission c profile_id type data)) as [resp|e]; cbn [of_lib sbind];
    [|right; eexists; (split_and!; [done|done|by cbn])].
  unfold pure. destruct (json_response enrollment_response resp) as [l|e|]; cbn [sbind];
    [|right; eexists; (split_and!; [done|done|by cbn])..].
  destruct l as [|e l]; cbn [head ok_or sbind];
    [right; eexists; (split_and!; [done|done|by cbn])|].
  destruct (entry_request_id e) as [id|] eqn:Eid; cbn [ok_or sbind];
    [|right; eexists; (split_and!; [done|done|by intros ? [= <-]])].
  left. exists e, id. split_and!; [done|done|]. unfold entry_status.
  destruct (request_status e) as [t|]; [|done]. by destruct (status_of t) as [[]|].
Qed.

(** What an enrollment sends. *)
Lemma enrollment_sent c h data profile_id type :
  let h1 := h ++ [rest_login c] in
  let rq := submission c profile_id type data in
  exists l, (enroll c h data profile_id type).1 = h1 ++ rq :: l /\
    match first_entry h1 rq with
    | Some e =>
        match entry_request_id e, entry_status e with
        | Some id, Some Pending => approval c id (posts l)
        | _, _ => posts l = []
        end
    | None => posts l = []
    end.
Proof.
  cbn zeta. set (h1 := h ++ [rest_login c]). set (rq := submission c profile_id type data).
  destruct (enroll_unfold c h data profile_id type) as [(e & id & He & Hid & E)|(r & E & _ & He)];
    fold h1 rq in E, He |- *; rewrite E.
  2: { exists []. split; [done|]. destruct (first_entry h1 rq) as [e|] eqn:Hf; [|done]. by rewrite (He e). }
  rewrite He, Hid. assert (forall l, h1 ++ rq :: l = (h1 ++ [rq]) ++ l) as Hs by (intros; by rewrite <-app_assoc).
  destruct (entry_status e) as [[]|].
  2: { destruct (approve_sends c (h1 ++ [rq]) id) as (l & -> & Hl). exists l. by rewrite <-Hs. }
  2,3,4: exists []; split; [done|done].
  destruct (reads_then (eq []) (h1 ++ [rq]) (fetch_some c (h1 ++ [rq]) (cert_id e))
      (fun h der => (h, Ok (MkEnrollResult id Complete der)))) as (l & -> & Hl);
    [apply fetch_some_reads|done|intros; apply reads_refl|].
  exists l. by rewrite <-Hs.
Qed.
(** What its result means. *)
Lemma enrollment_result c h data profile_id type h' r : enroll c h data profile_id type = (h', Ok r) ->
  exists e, first_entry (h ++ [rest_login c]) (submission c profile_id type data) = Some e /\
    entry_request_id e = Some (request_id r) /\
    (entry_status e = Some (enroll_status r) \/ entry_status e = Some Pending) /\
    forall der, dogtag_certificate r = Some der -> enroll_status r = Complete /\ exists cid, fetched c h' cid der /\
      (entry_status e = Some Complete /\ cert_id e = Some cid \/
       entry_status e = Some Pending /\ (approved c (request_id r) cid \/ polled c (request_id r) cid)).
Proof.
  intros E. destruct (enroll_unfold c h data profile_id type) as [(e & id & He & Hid & E')|(r' & E' & Hn & _)];
    rewrite E' in E; [|injection E as _ E; by destruct (Hn r)].
  exists e. destruct (entry_status e) as [[]|] eqn:Est; [..|done].
  - apply sbind_inv in E as [(h4 & der & Ef & E)|(o & _ & _ & Hn)]; [|by destruct (Hn r)]. injection E as <- <-. cbn.
    split_and!; [done|done|by left|]. intros d ->. apply fetch_some_ok in Ef. destruct (cert_id e) as [cid|]; [|done].
    split; [done|]. exists cid. auto.
  - apply approve_ok in E as [Hr Hd]. rewrite Hr. split_and!; [done|done|by right|].
    intros der Hder. destruct (Hd der Hder) as (? & cid & ? & ?). split; [done|]. exists cid. auto.
  - injection E as <- <-. by split_and!; [..|left|].
  - injection E as <- <-. by split_and!; [..|left|].
Qed.

(** ** Key generation *)

Variable base64_encode : bytes -> string.
Variable status_text : Z -> string.
Abbreviation keygen := (server_keygen base64_decode base64_encode status_text answer).
Definition keygen_submission c profile_id uid cn password key_type key_size : HttpRequest :=
  request c "/ca/rest/certrequests" (PostJson (EnrollmentOf (keygen_request profile_id uid cn password key_type key_size))).
Definition process (c : DogtagClient) (form : string) : HttpRequest :=
  request c "/ca/agent/ca/profileProcess" (PostBytes "application/x-www-form-urlencoded" (bytes_of_string form)).

Lemma session_login_sends c h : sends (fun l => l = [] \/ l = [rest_login c]) h (session_login answer c h).
Proof.
  unfold session_login. destruct (get answer c h _) as [h1 r] eqn:E.
  pose proof (get_reads c h "/ca/v2/account/login") as Hr. rewrite E in Hr.
  assert (sends (fun l => l = [] \/ l = [rest_login c]) h h1) as H0.
  { eapply sends_weaken; [exact Hr|]. intros ? <-. by left. }
  assert (sends (fun l => l = [] \/ l = [rest_login c]) h (h1 ++ [rest_login c])) as H1.
  { eapply (sends_app _ (eq [_])); [exact Hr|exists [rest_login c]; done|]. intros ? ? <- <-. by right. }
  destruct r as [resp| |]; [case_match|..]; try done; unfold post_json, sent, send; by destruct (of_lib HttpError _).
Qed.
Lemma approve_keygen_sends c h id :
  sends (fun l => l = [] \/ exists xml, l = [process c (build_approval_form xml id)]) h
    (approve_keygen base64_encode status_text answer c h id).1.
Proof.
  apply reads_then; [apply get_raw_reads|by left|]. intros h1 review _.
  apply reads_then; [apply pure_reads|by left|]. intros h2 xml _. case_match.
  { exists []. rewrite app_nil_r. split; [done|by left]. }
  apply then_reads.
  - unfold post_bytes, sent, send. destruct (of_lib HttpError _); (exists [process c (build_approval_form xml id)]);
      (split; [done|right; by exists xml]).
  - intros h3 resp _. apply reads_then; [apply pure_reads|done|]. intros h4 p12 _. case_match; apply reads_refl.
Qed.
(** A key is asked for once; its approval is sent at most once. *)
Lemma keygen_sent c h profile_id uid cn password key_type key_size :
  let rq := keygen_submission c profile_id uid cn password key_type key_size in
  exists pre l, (keygen c h profile_id uid cn password key_type key_size).1 = h ++ pre ++ rq :: l /\
    (posts pre = [] \/ posts pre = [rest_login c]) /\
    (posts l = [] \/ exists id xml, posts l = [process c (build_approval_form xml id)]).
Proof.
  cbn zeta. destruct (session_login_sends c h) as (pre & Hp & Hpre). exists pre.
  set (rq := keygen_submission c profile_id uid cn password key_type key_size).
  assert (sends (fun l => l = [] \/ exists id xml, l = [process c (build_approval_form xml id)]) ((h ++ pre) ++ [rq])
    (keygen c h profile_id uid cn password key_type key_size).1) as (l & -> & Hl).
  2: { exists l. split_and!; [by rewrite <-!app_assoc|done|done]. }
  unfold server_keygen, post_json, sent, send. rewrite Hp. cbv beta iota zeta.
  fold (keygen_submission c profile_id uid cn password key_type key_size). fold rq.
  destruct (of_lib HttpError (answer (h ++ pre) rq)) as [resp|e|]; cbn [sbind].
  2,3: exists []; rewrite app_nil_r; split; [done|by left].
  apply reads_then; [apply pure_reads|by left|]. intros h1 body _.
  apply reads_then; [apply pure_reads|by left|]. intros h2 entries _.
  apply reads_then; [apply pure_reads|by left|]. intros h3 entry _. case_match.
  - eapply sends_weaken; [apply approve_keygen_sends|]. intros k [->|[xml ->]]; [by left|right; eauto].
  - case_match; [exists []; rewrite app_nil_r; split; [done|by left]|].
    apply reads_then; [apply fetch_some_reads|by left|]. intros.
    exists []. rewrite app_nil_r. split; [done|by left].
Qed.
End Operations.

(** ** Requests that are tried again *)

(** A request that reads is tried until it gets an answer that counts.
    It is sent once and again as often as is configured, never more, and the
    operation ends: with the first answer that is not an error of the server,
    or with an error when all attempts have failed, or when the text of a
    server's error cannot be read, which is not tried again. *)
Theorem request_retried `{DogtagJson} answer c h rq : 0 <= client_retry_max c ->
  exists k, (1 <= k)%nat /\ Z.of_nat k <= client_retry_max c + 1 /\
    (request_with_retry answer c h rq).1 = h ++ replicate k rq /\
    (forall j, (S j < k)%nat -> final answer (h ++ replicate j rq) rq = false) /\
    let last := answer (h ++ replicate (k - 1) rq) rq in
    match (request_with_retry answer c h rq).2 with
    | Ok resp => last = inl resp /\ is_server_error (http_status resp) = false
    | Err e =>
        Z.of_nat k = client_retry_max c + 1 /\ final answer (h ++ replicate (k - 1) rq) rq = false \/
        exists resp, last = inl resp /\ is_server_error (http_status resp) = true /\ bounded_text resp = Err e
    | Panic => False
    end.
Proof.
  intros Hmax. unfold request_with_retry. set (n := Z.to_nat (client_retry_max c + 1)).
  assert (exists m, n = S m) as [m Hm] by (exists (Z.to_nat (client_retry_max c)); unfold n; lia).
  destruct (retry_loop_spec answer n None h rq) as (k & Hk & Hh & Hf & Hr). rewrite Hh.
  destruct (retry_loop answer n None h rq).2 as [resp|e|] eqn:E.
  - destruct Hr as (j & -> & Ha & Hs). exists (S j). replace (S j - 1)%nat with j by lia. split_and!; [lia|lia|done|done|done|done].
  - destruct Hr as [[-> [Hr|(j & Hj & Hr)]]|(j & resp & -> & Ha & Hs & Hb)]; [lia|..].
    + exists n. replace (n - 1)%nat with j by lia. split_and!; [lia|lia|done|done|].
      left. split; [lia|done].
    + exists (S j). replace (S j - 1)%nat with j by lia. split_and!; [lia|lia|done|done|]. right. by exists resp.
  - destruct Hr as (j & resp & _ & _ & Hb). unfold bounded_text in Hb.
    pose proof (bounded_bytes_returns resp). by destruct (bounded_bytes resp).
Qed.

(** ** The approval form *)

Lemma split_once_str_length p s a b : split_once_str p s = Some (a, b) ->
  (String.length p + String.length b <= String.length s)%nat.
Proof. intros ->%split_once_str_Some. rewrite !string_length_app. lia. Qed.
(** The loop over a review ends by itself: any fuel from the length on is enough. *)
Lemma review_pairs_enough n m id val xml : (String.length xml <= n)%nat -> (String.length xml <= m)%nat ->
  review_pairs n id val xml = review_pairs m id val xml.
Proof.
  revert m xml. induction n as [|n IH]; intros [|m] xml Hn Hm; [done|..].
  - destruct xml; [|cbn in Hn; lia]. done.
  - destruct xml; [|cbn in Hm; lia]. done.
  - cbn [review_pairs]. destruct (split_once_str ("<" +:+ id +:+ ">") xml) as [[w r]|] eqn:E1; [|done].
    destruct (split_once_str ("</" +:+ id +:+ ">") r) as [[name after]|] eqn:E2; [|done]. f_equal.
    apply split_once_str_length in E1. apply split_once_str_Some in E2 as ->.
    rewrite !string_length_app in E1. cbn in E1. apply IH; rewrite !string_length_app; cbn; lia.
Qed.

(** A review that names fields: what is between the tags, and anything around
    them in which they do not occur. *)
Inductive review (id val : string) : string -> list (string * string) -> Prop :=
  | review_end xml : contains_str ("<" +:+ id +:+ ">") xml = false -> review id val xml []
  | review_field w name m value xml l :
      contains_str ("<" +:+ id +:+ ">") w = false ->
      contains_str ("</" +:+ id +:+ ">") name = false ->
      contains_str ("<" +:+ val +:+ ">") ("</" +:+ id +:+ ">" +:+ m) = false ->
      contains_str ("</" +:+ val +:+ ">") value = false ->
      review id val (("</" +:+ id +:+ ">" +:+ m) +:+ ("<" +:+ val +:+ ">") +:+ value +:+ ("</" +:+ val +:+ ">") +:+ xml) l ->
      review id val (w +:+ ("<" +:+ id +:+ ">") +:+ name +:+ ("</" +:+ id +:+ ">" +:+ m) +:+ ("<" +:+ val +:+ ">") +:+ value
                       +:+ ("</" +:+ val +:+ ">") +:+ xml) ((name, value) :: l).
Definition trimmed_fields (l : list (string * string)) : list (string * string) :=
  List.filter (fun p => negb (is_empty p.1)) (map (fun p => (trim p.1, trim p.2)) l).

Lemma split_once_str_None p s : p <> EmptyString -> contains_str p s = false -> split_once_str p s = None.
Proof.
  intros Hp. induction s as [|c s IH]; cbn; unfold starts_with; intros [H1 H2]%orb_false_iff.
  - by destruct (strip_prefix p EmptyString).
  - destruct (strip_prefix p (String c s)); [done|]. by rewrite IH.
Qed.
Lemma split_tag id w b : contains_char "<" id = false -> contains_str ("<" +:+ id) w = false ->
  split_once_str ("<" +:+ id) (w +:+ ("<" +:+ id) +:+ b) = Some (w, b).
Proof. intros Hi Hw. by apply (split_once_tag id w b). Qed.
Lemma review_pairs_fields n id val xml l :
  contains_char "<" id = false -> contains_char "<" val = false ->
  review id val xml l -> (String.length xml <= n)%nat -> review_pairs n id val xml = trimmed_fields l.
Proof.
  intros Hid Hval Hr. revert n.
  assert (forall s, contains_char "<" s = false -> contains_char "<" (s +:+ ">") = false) as Hgt.
  { intros s Hs. rewrite contains_char_app, Hs. done. }
  assert (forall s, contains_char "<" s = false -> contains_char "<" ("/" +:+ s +:+ ">") = false) as Hsl.
  { intros s Hs. cbn. by apply Hgt. }
  induction Hr as [xml Hno|w name m value xml l Hw Hname Hm Hvalue Hr IH]; intros n Hn.
  - destruct n as [|n]; [done|]. cbn [review_pairs]. by rewrite split_once_str_None.
  - destruct n as [|n]; [rewrite !string_length_app in Hn; cbn in Hn; lia|]. cbn [review_pairs].
    rewrite (split_tag (id +:+ ">")); [|by apply Hgt|done].
    assert (forall b, name +:+ ("</" +:+ id +:+ ">" +:+ m) +:+ b = name +:+ ("<" +:+ ("/" +:+ id +:+ ">")) +:+ (m +:+ b)) as Ha.
    { intros b. cbn. by rewrite !string_app_assoc. }
    rewrite Ha. change ("</" +:+ id +:+ ">") with ("<" +:+ ("/" +:+ id +:+ ">")) at 1.
    rewrite (split_tag ("/" +:+ id +:+ ">")); [|by apply Hsl|done].
    assert (forall b, "</" +:+ id +:+ ">" +:+ (m +:+ b) = ("</" +:+ id +:+ ">" +:+ m) +:+ b) as Hb.
    { intros b. cbn. by rewrite !string_app_assoc. }
    rewrite Hb. unfold between. rewrite (split_tag (val +:+ ">")); [|by apply Hgt|done].
    change ("</" +:+ val +:+ ">") with ("<" +:+ ("/" +:+ val +:+ ">")) at 1.
    rewrite (split_tag ("/" +:+ val +:+ ">")); [|by apply Hsl|done]. cbn [option_map fst].
    rewrite IH.
    + unfold trimmed_fields. cbn [map List.filter fst]. by destruct (is_empty (trim name)).
    + do 6 (cbn in Hn; rewrite ?string_length_app in Hn; cbn; rewrite ?string_length_app). lia.
Qed.

(** [application/x-www-form-urlencoded], read back. *)
Definition hex_value (c : Ascii.ascii) : Z := let b := byte_of c in if b <? 58 then b - 48 else b - 55.
Fixpoint url_decoded (s : string) : string :=
  match s with
  | EmptyString => EmptyString
  | String c s =>
      if bool_decide (c = "%"%char) then
        match s with
        | String h (String l s) => String (byte_to_ascii (16 * hex_value h + hex_value l)) (url_decoded s)
        | _ => EmptyString
        end
      else String (if bool_decide (c = "+"%char) then " "%char else c) (url_decoded s)
  end.
Definition form_decode (body : string) : list (string * string) :=
  map (fun part => match split_once "=" part with
                   | Some (k, v) => (url_decoded k, url_decoded v)
                   | None => (url_decoded part, EmptyString)
                   end) (split_char "&" body).

(** Every byte: it is read back, and is written without separators. *)
Lemma urlencoded_byte_all : forallb (fun n =>
    let c := Ascii.ascii_of_nat n in
    let e := urlencoded_byte c in
    String.eqb (url_decoded e) (String c EmptyString) && negb (contains_char "&" e) && negb (contains_char "=" e)
    && match e with
       | String p (String _ (String _ EmptyString)) => bool_decide (p = "%"%char)
       | String d EmptyString => negb (bool_decide (d = "%"%char))
       | _ => false
       end) (seq 0 256) = true.
Proof. vm_compute. reflexivity. Qed.
Lemma urlencoded_byte_spec c : (forall r, url_decoded (urlencoded_byte c +:+ r) = String c (url_decoded r)) /\
  contains_char "&" (urlencoded_byte c) = false /\ contains_char "=" (urlencoded_byte c) = false.
Proof.
  pose proof urlencoded_byte_all as H. rewrite forallb_forall in H.
  specialize (H (Ascii.nat_of_ascii c)). rewrite Ascii.ascii_nat_embedding in H. cbv zeta in H.
  assert (In (Ascii.nat_of_ascii c) (seq 0 256)) as Hin by (apply in_seq; pose proof (Ascii.nat_ascii_bounded c); lia).
  specialize (H Hin). apply andb_true_iff in H as [H Hs]. apply andb_true_iff in H as [H He].
  apply andb_true_iff in H as [H Ha]. apply negb_true_iff in He, Ha. apply String.eqb_eq in H. split_and!; [|done|done].
  intros r. destruct (urlencoded_byte c) as [|p [|x [|y [|]]]]; try done.
  - cbn in H |- *. apply negb_true_iff in Hs. rewrite Hs in H |- *. by injection H as ->.
  - apply bool_decide_eq_true in Hs as ->. cbn in H |- *. by injection H as ->.
Qed.
Lemma urlencoded_decoded s : url_decoded (urlencoded s) = s.
Proof. induction s as [|c s IH]; [done|]. cbn. destruct (urlencoded_byte_spec c) as (-> & _). by rewrite IH. Qed.
Lemma urlencoded_plain s : contains_char "&" (urlencoded s) = false /\ contains_char "=" (urlencoded s) = false.
Proof.
  induction s as [|c s [IH1 IH2]]; [done|]. cbn. rewrite !contains_char_app.
  destruct (urlencoded_byte_spec c) as (_ & -> & ->). by rewrite IH1, IH2.
Qed.
Lemma form_of_decoded pairs : pairs <> [] -> form_decode (form_of pairs) = pairs.
Proof.
  intros Hne. unfold form_decode, form_of. rewrite split_char_join.
  - rewrite map_map. rewrite <-(map_id pairs) at 2. apply map_ext. intros [k v]. cbn [fst snd].
    rewrite (proj2 (split_once_Some _ _ (urlencoded k) (urlencoded v))); [by rewrite !urlencoded_decoded|].
    split; [done|apply urlencoded_plain].
  - by destruct pairs.
  - apply Forall_forall. intros x Hx. apply list_elem_of_fmap in Hx as ([k v] & -> & _). cbn [fst snd].
    rewrite !contains_char_app. destruct (urlencoded_plain k) as [-> _], (urlencoded_plain v) as [-> _]. done.
Qed.

(** The approval of a key generation is the review, read back.  Whatever
    the fields of a review are called and hold, and whatever stands around
    them: the form that is posted decodes to exactly them, trimmed, without
    those that have no name, and to the request's identifier and the approval.
    The loop that reads the review ends. *)
Theorem approval_form_fields xml id defs inputs :
  review "defId" "defVal" xml defs -> review "inputId" "inputVal" xml inputs ->
  form_decode (build_approval_form xml id) =
    trimmed_fields defs ++ trimmed_fields inputs ++
    [("requestId", id); ("op", "approve"); ("submit", "submit"); ("xml", "true")]%string.
Proof.
  intros Hd Hi. unfold build_approval_form. rewrite form_of_decoded.
  - unfold approval_fields. rewrite (review_pairs_fields _ "defId" "defVal" xml defs eq_refl eq_refl Hd) by done.
    by rewrite (review_pairs_fields _ "inputId" "inputVal" xml inputs eq_refl eq_refl Hi).
  - unfold approval_fields. by destruct (review_pairs _ "defId" "defVal" xml), (review_pairs _ "inputId" "inputVal" xml).
Qed.

Definition example_review : string :=
  "<r><defId> cn </defId><d/><defVal>a&b=</defVal><inputId>kt</inputId><inputVal>R S</inputVal></r>".
Lemma approval_form_fields_witness :
  form_decode (build_approval_form example_review "7") =
    [("cn", "a&b="); ("kt", "R S"); ("requestId", "7"); ("op", "approve"); ("submit", "submit"); ("xml", "true")]%string.
Proof.
  refine (approval_form_fields example_review "7" [(" cn ", "a&b=")]%string [("kt", "R S")]%string _ _).
  - refine (review_field "defId" "defVal" "<r>" " cn " "<d/>" "a&b="
      "<inputId>kt</inputId><inputVal>R S</inputVal></r>" [] _ _ _ _ _); [reflexivity..|].
    apply review_end. reflexivity.
  - refine (review_field "inputId" "inputVal" "<r><defId> cn </defId><d/><defVal>a&b=</defVal>" "kt" EmptyString "R S"
      "</r>" [] _ _ _ _ _); [reflexivity..|].
    apply review_end. reflexivity.
Defined.
(** A field without a value takes the value of the next one. *)
Example next_value :
  approval_fields "<defId>a</defId><defId>b</defId><defVal>x</defVal>" "7" =
  [("a", "x"); ("b", "x"); ("requestId", "7"); ("op", "approve"); ("submit", "submit"); ("xml", "true")]%string.
Proof. vm_compute. reflexivity. Qed.
(** References of XML are not resolved. *)
Example entity_kept :
  head (approval_fields "<defId>n</defId><defVal>A&amp;B</defVal>" "7") = Some ("n", "A&amp;B")%string.
Proof. vm_compute. reflexivity. Qed.

(** ** Behind EST *)

Section Behind.
Context `{X509Lib} `{HC : CmsOids} `{HE : Encoder} `{HJ : DogtagJson}.
Variable base64_decode : string -> bytes + string.
Variable debug : string -> string.
Variable answer : list HttpRequest -> HttpRequest -> HttpResponse + string.
Variable b64_encode : bytes -> bytes.
Variable digest : option bytes -> bytes -> string.
Variable json_object : list (string * string) -> string.

Definition request_pem (csr_der : bytes) : string :=
  "-----BEGIN CERTIFICATE REQUEST-----" +:+ LF +:+ string_of_bytes (b64_encode csr_der) +:+ LF +:+
  "-----END CERTIFICATE REQUEST-----".
Definition dogtag_row (id ca_id profile_id : string) (der : bytes) : CertRow :=
  MkCertRow id "(dogtag-issued)" "(dogtag)" EmptyString EmptyString der ca_id profile_id "active" None None.

(** C39: an enrollment that goes to Dogtag ends in the certificate that Dogtag
    issued for it, or is deferred.  Whatever the CA answers to any request:
    the request is submitted exactly once, under the configured profile, and
    the only other changes at the CA are the login before it and, only if the
    CA answers that the request is pending, at most one approval of it, by the
    server itself.  A certificate that is answered and stored is what the CA
    gave, as the last thing, for the identifier of the certificate that it
    named when it said that the request, or its approval, is complete; a
    deferred answer stores nothing. *)
Theorem dogtag_enrollment app o s csr_der ca_id identity operation s' r clients h pool profile_id :
  dogtag o = Some (MkDogtag pool (Some profile_id) (rest_enroll base64_decode debug answer clients h)) ->
  enroll_with_dogtag b64_encode digest json_object app o s csr_der ca_id identity operation = (s', r) ->
  (exists e, get_client pool = Err e /\ s' = s /\ r = Err (EServiceUnavailable ("Dogtag CA unavailable: " +:+ e))) \/
  exists name, get_client pool = Ok name /\
    let c := clients name in
    let h1 := h ++ [rest_login c] in
    let rq := submission c profile_id "pkcs10" (request_pem csr_der) in
    exists l, (enroll_certificate base64_decode debug answer c h (request_pem csr_der) profile_id).1 = h1 ++ rq :: l /\
    (posts l = [] \/ exists e id p, first_entry answer h1 rq = Some e /\ entry_request_id e = Some id /\
       entry_status e = Some Pending /\ posts l = [request c (approve_path id) (PostJson p)]) /\
    forall resp, r = Ok resp -> exists e res, first_entry answer h1 rq = Some e /\ entry_request_id e = Some (request_id res) /\
      (enroll_status res = Pending /\ resp = Some (accepted_response (disconnected_retry_after_secs (est app))) /\
         certificates s' = certificates s \/
       exists cid der pkcs7, fetched base64_decode answer c (h1 ++ rq :: l) cid der /\
         (entry_status e = Some Complete /\ cert_id e = Some cid \/
          entry_status e = Some Pending /\
            (approved answer c (request_id res) cid \/ polled answer c (request_id res) cid)) /\
         build_certs_only_pkcs7 [der] = Ok pkcs7 /\ resp = Some (certs_response b64_encode pkcs7) /\
         certificates s' =
           certificates (insert_certificate s (insert_failed o) (dogtag_row (request_id res) ca_id profile_id der)).1).
Proof.
  intros Hd E. unfold enroll_with_dogtag in E. rewrite Hd in E. cbn [dogtag_pool dogtag_profile_id dogtag_enroll] in E.
  destruct (get_client pool) as [name|e|] eqn:Eg.
  2: { left. injection E as <- <-. eauto. }
  2: { unfold get_client in Eg. by case_match. }
  right. exists name. split; [done|]. cbv zeta. fold (request_pem csr_der) in E.
  destruct (enrollment_sent base64_decode debug answer (clients name) h (request_pem csr_der) profile_id "pkcs10")
    as (l & Hh & Hl). exists l. split; [done|]. split.
  { destruct (first_entry answer _ _) as [e|]; [|by left].
    destruct (entry_request_id e) as [id|] eqn:Ei; [|by left]. destruct (entry_status e) as [[]|] eqn:Es; try by left.
    destruct Hl as [Hl|[p Hl]]; [by left|right]. exists e, id, p. auto. }
  intros resp ->. unfold rest_enroll, enroll_certificate in E.
  destruct (enroll_certificate_with_type base64_decode debug answer (clients name) h (request_pem csr_der) profile_id "pkcs10")
    as [h' res] eqn:Ee. cbn [fst snd] in *. subst h'. destruct res as [res|e|]; [|done|done].
  destruct (enrollment_result base64_decode debug answer _ _ _ _ _ _ _ Ee) as (e & He & Hi & _ & Hcert).
  exists e, res. split; [done|]. split; [done|].
  destruct (enroll_status res) eqn:Es; [right|left|..]; try done.
  - destruct (dogtag_certificate res) as [der|]; [|done]. destruct (Hcert der eq_refl) as (_ & cid & Hf & Hn).
    destruct (build_certs_only_pkcs7 [der]) as [pkcs7|x|] eqn:Eb; [|done|done]. cbn in E. injection E as <- <-.
    exists cid, der, pkcs7. by split_and!.
  - cbn in E. by injection E as <- <-.
Qed.
End Behind.

(** ** An example CA *)

(** Values of JSON: texts and objects of texts, written [k=v;k=v]. *)
Definition example_fields (b : bytes) : option (list (string * string)) :=
  mapM (split_once "=") (split_char ";" (string_of_bytes b)).
Definition example_lookup (l : list (string * string)) (k : string) : option string :=
  option_map snd (List.find (fun p => String.eqb p.1 k) l).
Definition example_object {T} (f : list (string * string) -> T) (b : bytes) : T + string :=
  match example_fields b with Some l => inl (f l) | None => inr "expected value"%string end.
Definition example_entry (l : list (string * string)) : EnrollmentEntry :=
  MkEntryOf (example_lookup l "requestId") (example_lookup l "requestStatus") (example_lookup l "certId").
#[export] Instance example_dogtag_json : DogtagJson := {
  Json := list (string * string);
  from_slice := example_object (fun l => l);
  json_get l k := if String.eqb k "entries" then Some l else option_map (fun v => [(k, v)]) (example_lookup l k);
  json_str l := match l with [(_, v)] => Some v | _ => None end;
  json_array l := Some [l];
  json_u64 _ := None;
  json_text _ := EmptyString;
  enrollment_response := example_object (fun l => [example_entry l]);
  enrollment_entry := example_object example_entry;
  cert_data_response := example_object (fun l => example_lookup l "Encoded");
  cert_info := example_object (fun l => MkCertInfo (default EmptyString (example_lookup l "id")) None None None None None None);
  cert_list_response := example_object (fun _ => []);
  profile_list_response := example_object (fun _ => []);
  profile_detail := example_object (fun l => MkProfileDetail EmptyString None None None [])
}.
Definition answered (status : Z) (body : string) : HttpResponse + string :=
  inl (MkHttpResponse status None None [inl (bytes_of_string body)]).
(** Requests wait for an approval, whose answer is a page of HTML. *)
Definition example_answer (h : list HttpRequest) (rq : HttpRequest) : HttpResponse + string :=
  let url := rq_url rq in
  if String.eqb url "http://ca/ca/rest/certrequests" then answered 200 "requestId=7;requestStatus=pending"
  else if String.eqb url "http://ca/ca/rest/agent/certrequests/7" then answered 200 "form=1"
  else if String.eqb url "http://ca/ca/rest/agent/certrequests/7/approve" then answered 200 "<html>"
  else if String.eqb url "http://ca/ca/rest/certrequests/7" then answered 200 "requestId=7;requestStatus=complete;certId=0x1"
  else if String.eqb url "http://ca/ca/rest/certs/0x1" then answered 200 ("Encoded=0AB" +:+ String "001" EmptyString)
  else inr "connection refused"%string.
Definition example_client : DogtagClient := MkClient (MkSettings false 0 None []) "http://ca" None 2 0.
Definition example_decode (s : string) : bytes + string := inl (bytes_of_string s).
Definition example_dogtag : Dogtag :=
  MkDogtag (MkDogtagPool [MkEntry "ca" Unknown None 0] 3 60) (Some "caServerCert"%string)
    (rest_enroll example_decode (fun s => s) example_answer (fun _ => example_client) []).
Definition dogtag_outside : Outside :=
  MkOutside example_call example_call false None example_now example_inputs
    (fun _ => inl [1]) (fun _ => EmptyString) (Some example_dogtag) (fun _ => Ok tt).
Lemma dogtag_enrollment_witness :
  let (s', r) := enroll_with_dogtag (fun b => b) example_digest example_json example_app dogtag_outside example_state
    [1; 2; 3] "main" "device" "simpleenroll" in
  r = Ok (Some example_response) /\
  exists l, (enroll_certificate example_decode (fun s => s) example_answer example_client []
               (request_pem (fun b => b) [1; 2; 3]) "caServerCert").1 =
    [rest_login example_client; submission example_client "caServerCert" "pkcs10" (request_pem (fun b => b) [1; 2; 3])] ++ l.
Proof.
  destruct (enroll_with_dogtag (fun b => b) example_digest example_json example_app dogtag_outside example_state
    [1; 2; 3] "main" "device" "simpleenroll") as [s' r] eqn:E.
  split; [vm_compute in E; by injection E as _ <-|].
  destruct (dogtag_enrollment example_decode (fun s => s) example_answer (fun b => b) example_digest example_json
    example_app dogtag_outside example_state [1; 2; 3] "main" "device" "simpleenroll" s' r (fun _ => example_client) []
    (dogtag_pool example_dogtag) "caServerCert" eq_refl E) as [(e & He & _)|(name & _ & l & Hl & _)].
  - discriminate He.
  - exists l. exact Hl.
Defined.
(** A rejection in the answer to the approval is reported as pending. *)
Example rejected_is_pending :
  (approved_result example_decode example_answer example_client [] [("requestStatus", "rejected")]%string).2 =
  Ok (Pending, None).
Proof. reflexivity. Qed.

Lemma request_retried_witness : 0 <= client_retry_max example_client /\
  exists k, (1 <= k)%nat /\ (request_with_retry example_answer example_client [] (rest_login example_client)).1 =
    replicate k (rest_login example_client).
Proof.
  split; [vm_compute; discriminate|].
  destruct (request_retried example_answer example_client [] (rest_login example_client)) as (k & Hk & _ & Hh & _);
    [vm_compute; discriminate|].
  exists k. split; [exact Hk|exact Hh].
Defined.
