(* ===== verification/Kra.v ===== *)
(** * The client of a key recovery authority

    [crates/kipuka-dogtag/src/kra.rs] and [kem.rs]: generation, archival,
    search and recovery of keys at Dogtag's KRA, and the wrapping of keys with
    OpenSSL.  Requests and answers are as in [DogtagClient]; the library's
    operations are an interface, one for each call, and random bytes are
    arguments. *)
From S2P Require Import Prelude Words Text X509 Der DerReader Issuance DogtagPool Config Enroll DogtagClient.
Open Scope Z_scope.

Record RequestInfo : Type := MkRequestInfo { info_request_id : option string; info_key_url : option string }.
Class KraJson `{DogtagJson} : Type := {
  key_gen_response : bytes -> option RequestInfo + string;
  recover_response : bytes -> option string + string;
  archive_response : bytes -> option RequestInfo + string
}.
(** OpenSSL: certificates and RSA, CBC, the steps of a key-wrap cipher by its
    name, and of an encapsulation. *)
Inductive Padding : Type := PKCS1 | PKCS1_OAEP.
Class KraCrypto : Type := {
  KraX509 : Type;
  KraPKey : Type;
  KraRsa : Type;
  x509_from_der : bytes -> KraX509 + string;
  x509_public_key : KraX509 -> KraPKey + string;
  pkey_rsa : KraPKey -> KraRsa + string;
  rsa_public_encrypt : KraRsa -> Padding -> bytes -> bytes -> bytes + string;
  cbc_decrypt : Z -> bytes -> bytes -> bytes -> bytes + string;
  cipher_fetch : string -> bool;
  cipher_ctx_new : bool;
  wrap_init : string -> bytes -> bool;
  wrap_update : string -> bytes -> bytes -> option bytes;
  wrap_final : string -> bytes -> bytes -> option bytes;
  unwrap_init : string -> bytes -> bool;
  unwrap_update : string -> bytes -> bytes -> option bytes;
  unwrap_final : string -> bytes -> bytes -> option bytes;
  d2i_pubkey : bytes -> option KraPKey;
  pkey_ctx_new : KraPKey -> bool;
  encapsulate_init : KraPKey -> bool;
  encapsulate_sizes : KraPKey -> bool;
  encapsulate : KraPKey -> bytes -> option (bytes * bytes)
}.

Record KraClient : Type := MkKraClient {
  kra_http : HttpSettings;
  kra_base_url : string;
  kra_basic_auth : option (string * string)
}.
Record KeyGenResult : Type := MkKeyGenResult {
  generated_key_id : string;
  generated_request_id : string;
  generated_public_key : option string;
  wrapped_private_key : option bytes
}.
Record KeySearchEntry : Type := MkKeySearchEntry {
  entry_key_id : string;
  client_key_id : string;
  entry_algorithm : string;
  entry_size : Z;                      (* u32 *)
  entry_key_status : string
}.

(** [{:x}] of an integer of 128 bits. *)
Fixpoint lower_hex_fuel (fuel : nat) (n : Z) (acc : string) : string :=
  match fuel with
  | O => acc
  | S fuel =>
      let d := n mod 16 in
      let acc := String (byte_to_ascii (if d <? 10 then 48 + d else 87 + d)) acc in
      if n / 16 =? 0 then acc else lower_hex_fuel fuel (n / 16) acc
  end.
Definition lower_hex (n : Z) : string := lower_hex_fuel 32 n EmptyString.

(** ** Wrapping keys *)

Section Wrapping.
Context `{HC : KraCrypto}.

Definition wrap_cipher (n : nat) : option string :=
  match n with
  | 16%nat => Some "AES-128-WRAP-PAD"%string
  | 24%nat => Some "AES-192-WRAP-PAD"%string
  | 32%nat => Some "AES-256-WRAP-PAD"%string
  | _ => None
  end.
Definition kra_check (ok : bool) (e : string) : outcome unit DogtagError := if ok then Ok tt else Err (KraError e).
Definition kra_some {T} (o : option T) (e : string) : outcome T DogtagError := ok_or o (KraError e).
(** [aes_kwp_unwrap] *)
Definition aes_kwp_unwrap (key wrapped : bytes) : outcome bytes DogtagError :=
  let? name := kra_some (wrap_cipher (length key)) ("Invalid KEK length " +:+ pretty (len key)) in
  let? _ := kra_check (cipher_fetch name) "AES-KWP cipher not available" in
  let? _ := kra_check cipher_ctx_new "EVP_CIPHER_CTX_new failed" in
  let? _ := kra_check (unwrap_init name key) "EVP_DecryptInit_ex failed for AES-KWP" in
  let? a := kra_some (unwrap_update name key wrapped) "AES-KWP unwrap failed (DecryptUpdate)" in
  let? b := kra_some (unwrap_final name key wrapped) "AES-KWP unwrap failed (DecryptFinal)" in
  Ok (a ++ b).
(** [aes_kwp_wrap] *)
Definition aes_kwp_wrap (kek plaintext : bytes) : outcome bytes DogtagError :=
  let? name := kra_some (wrap_cipher (length kek))
    ("Invalid KEK length " +:+ pretty (len kek) +:+ " (expected 16, 24, or 32)") in
  let? _ := kra_check (cipher_fetch name) "AES-KWP cipher not available" in
  let? _ := kra_check cipher_ctx_new "EVP_CIPHER_CTX_new failed" in
  let? _ := kra_check (wrap_init name kek) "EVP_EncryptInit_ex failed" in
  let? a := kra_some (wrap_update name kek plaintext) "EVP_EncryptUpdate failed" in
  let? b := kra_some (wrap_final name kek plaintext) "EVP_EncryptFinal_ex failed" in
  Ok (a ++ b).
(** [ml_kem_encapsulate]: the ciphertext and the shared secret. *)
Definition kra_encapsulate (transport_pub_key_der coins : bytes) : outcome (bytes * bytes) DogtagError :=
  let? key := kra_some (d2i_pubkey transport_pub_key_der) "d2i_PUBKEY failed for transport key" in
  let? _ := kra_check (pkey_ctx_new key) "EVP_PKEY_CTX_new failed" in
  let? _ := kra_check (encapsulate_init key) "EVP_PKEY_encapsulate_init failed" in
  let? _ := kra_check (encapsulate_sizes key) "EVP_PKEY_encapsulate size query failed" in
  kra_some (encapsulate key coins) "EVP_PKEY_encapsulate failed".

Variable base64_encode : bytes -> string.
(** [wrap_session_key] *)
Definition wrap_session_key (transport_cert_der session_key : bytes) (use_oaep : bool) (coins : bytes)
  : outcome string DogtagError :=
  let? cert := of_lib (fun e => KraError ("Failed to parse transport cert: " +:+ e)) (x509_from_der transport_cert_der) in
  let? key := of_lib (fun e => KraError ("Failed to extract transport public key: " +:+ e)) (x509_public_key cert) in
  let? rsa := of_lib (fun e => KraError ("Transport cert is not RSA: " +:+ e)) (pkey_rsa key) in
  let? out := of_lib (fun e => KraError ("RSA session key wrap failed: " +:+ e))
    (rsa_public_encrypt rsa (if use_oaep then PKCS1_OAEP else PKCS1) coins session_key) in
  Ok (base64_encode out).
End Wrapping.

(** ** The client *)

Section Kra.
Context `{HU : UrlLib} `{HJ : DogtagJson} `{HK : !KraJson} `{HC : KraCrypto}.
Variable url_text : Url -> string.
Variable base64_decode : string -> bytes + string.
Variable base64_encode : bytes -> string.
(** [utf8_percent_encode] of all that is not alphanumeric. *)
Variable percent_encode : string -> string.

(** [KraClient::new] *)
Definition kra_new (w : ClientWorld) (c : DogtagConfig) : outcome KraClient DogtagError :=
  let? url := ok_or (kra_url c) (ConfigError "kra_url is required for KRA operations") in
  let use_mtls := negb (is_http url) && negb (skip_mtls c) in
  let? s := http_settings w c use_mtls "KRA client build failed: " in
  let or a b := match a with Some x => Some x | None => b end in
  let? auth :=
    if use_mtls then Ok None
    else match or (kra_username c) (dogtag_username c), or (kra_password c) (dogtag_password c) with
         | Some user, Some pass => Ok (Some (user, pass))
         | _, _ =>
             if is_http url then Err (ConfigError "kra_username and kra_password are required for HTTP connections")
             else Ok None
         end in
  Ok (MkKraClient s (trim_end_char "/" (url_text url)) auth).

Variable answer : list HttpRequest -> HttpRequest -> HttpResponse + string.

Definition kra_request (c : KraClient) (path : string) (b : HttpBody) : HttpRequest :=
  MkHttpRequest (kra_base_url c +:+ path) (kra_basic_auth c) b.
Definition kra_get (c : KraClient) h (path : string) := sent answer h (kra_request c path (Get true)).
Definition kra_post (c : KraClient) h (path : string) (p : Payload) := sent answer h (kra_request c path (PostJson p)).

(** [login] *)
Definition kra_login (c : KraClient) (h : list HttpRequest) : list HttpRequest :=
  let (h, r) := kra_get c h "/kra/v2/account/login" in
  match r with
  | Ok resp => if is_success (http_status resp) then h else (kra_post c h "/kra/rest/account/login" EmptyObject).1
  | _ => (kra_post c h "/kra/rest/account/login" EmptyObject).1
  end.
Definition get_public_key (c : KraClient) (h : list HttpRequest) (key_id : string)
  : list HttpRequest * outcome string DogtagError :=
  let! (h, resp) := kra_get c h ("/kra/v2/agent/keys/" +:+ key_id) in
  let! (h, body) := pure h (json_response from_slice resp) in
  (h, kra_some (string_field body "publicKey") "No publicKey in key info response").
Definition key_class (key_type : string) : string :=
  if eq_ignore_ascii_case key_type "AES" || eq_ignore_ascii_case key_type "DESede"
  then "com.netscape.certsrv.key.SymKeyGenerationRequest"
  else "com.netscape.certsrv.key.AsymKeyGenerationRequest".
(** [generate_key]; [nanos] is the clock. *)
Definition generate_key (c : KraClient) (h : list HttpRequest) (nanos : Z) (key_type : string) (key_size : Z)
  : list HttpRequest * outcome KeyGenResult DogtagError :=
  let h := kra_login c h in
  let! (h, resp) := kra_post c h "/kra/v2/agent/keyrequests"
    (RestMessage (key_class key_type)
       [("clientKeyID", "kipuka-" +:+ lower_hex nanos); ("keyAlgorithm", key_type); ("keySize", pretty key_size);
        ("keyUsage", "wrap,unwrap")]%string) in
  let! (h, info) := pure h (json_response key_gen_response resp) in
  let! (h, info) := pure h (kra_some info "Missing request_info in response") in
  let id := match info_key_url info with Some url => last_segment url | None => EmptyString end in
  let! (h, _) := pure h (kra_check (negb (is_empty id)) "KRA response missing keyURL or key ID") in
  let! (h, public_key) := get_public_key c h id in
  (h, Ok (MkKeyGenResult id (default EmptyString (info_request_id info)) (Some public_key) None)).
(** [archive_key] *)
Definition archive_key (c : KraClient) (h : list HttpRequest) (nanos : Z) (key_data : bytes) (algorithm : string)
  : list HttpRequest * outcome string DogtagError :=
  let! (h, resp) := kra_post c h "/kra/v2/agent/keys/archive"
    (FlatObject [("clientKeyID", "kipuka-archive-" +:+ lower_hex nanos); ("dataType", "symmetricKey");
                 ("keyAlgorithm", algorithm); ("wrappedPrivateData", base64_encode key_data)]%string) in
  let! (h, info) := pure h (json_response archive_response resp) in
  (h, kra_some (match info with Some i => info_request_id i | None => None end) "No request_id in archive response").
(** [recover_key] *)
Definition recover_key (c : KraClient) (h : list HttpRequest) (key_id : string)
  : list HttpRequest * outcome bytes DogtagError :=
  let! (h, resp) := kra_post c h ("/kra/v2/agent/keys/" +:+ key_id +:+ "/recover") EmptyObject in
  let! (h, data) := pure h (json_response recover_response resp) in
  let! (h, data) := pure h (kra_some data "Missing data in recovery response") in
  (h, of_lib (fun e => KraError ("Invalid base64 in recovered key: " +:+ e)) (base64_decode data)).
(** [get_transport_cert] *)
Definition get_transport_cert (c : KraClient) (h : list HttpRequest) : list HttpRequest * outcome bytes DogtagError :=
  let! (h, resp) := kra_get c h "/kra/v2/config/cert/transport" in
  let! (h, body) := pure h (json_response from_slice resp) in
  let! (h, pem) := pure h (kra_some (string_field body "Encoded") "No Encoded field in transport cert response") in
  (h, of_lib (fun e => KraError ("Transport cert base64 decode failed: " +:+ e))
        (base64_decode (join EmptyString (List.filter (fun l => negb (starts_with "-----" l)) (lines pem))))).
(** The key in the answer to a retrieval. *)
Definition unwrap_retrieved (session_key : bytes) (body : Json) : outcome bytes DogtagError :=
  let? wrapped := kra_some (string_field body "wrappedPrivateData")
    ("No wrappedPrivateData in retrieve response: " +:+ truncate_str (json_text body) 300) in
  let? wrapped := of_lib (fun e => KraError ("Invalid base64 in wrappedPrivateData: " +:+ e)) (base64_decode wrapped) in
  match string_field body "nonceData" with
  | Some nonce =>
      let? iv := of_lib (fun e => KraError ("Invalid nonceData: " +:+ e)) (base64_decode nonce) in
      let? bits := match length session_key with
                   | 16%nat => Ok 128
                   | 32%nat => Ok 256
                   | n => Err (KraError ("Unsupported session key length " +:+ pretty n +:+ " for AES-CBC"))
                   end in
      of_lib (fun e => KraError ("AES-CBC unwrap failed: " +:+ e)) (cbc_decrypt bits session_key iv wrapped)
  | None => aes_kwp_unwrap session_key wrapped
  end.
Definition retrieval (key_id wrapped_session_key : string) : Payload :=
  RestMessage "com.netscape.certsrv.key.KeyRecoveryRequest"
    [("keyId", key_id); ("transWrappedSessionKey", wrapped_session_key)]%string.
(** [recover_key_inner], for both [recover_key_p12] and [recover_key_no_cert]:
    the certificate is not looked at. *)
Definition recover_key_inner (c : KraClient) (h : list HttpRequest) (rand : bytes + string) (coins : bytes) (key_id : string)
  : list HttpRequest * outcome bytes DogtagError :=
  let h := kra_login c h in
  let! (h, session_key) := pure h (of_lib (fun e => KraError ("Failed to generate session key: " +:+ e)) rand) in
  let! (h, transport) := get_transport_cert c h in
  let! (h, wrapped) := pure h (wrap_session_key base64_encode transport session_key false coins) in
  let! (h, resp) := kra_post c h "/kra/v2/agent/keys/retrieve" (retrieval key_id wrapped) in
  if http_status resp =? 401 then (h, Err (KraError "Recovery retrieve returned 401 — session may have expired"))
  else
    let! (h, body) := pure h (json_response from_slice resp) in
    (h, unwrap_retrieved session_key body).

(** [search_keys] *)
Definition search_entry (e : Json) : option KeySearchEntry :=
  let id := last_segment (default EmptyString (string_field e "keyURL")) in
  if is_empty id then None
  else Some (MkKeySearchEntry id (default EmptyString (string_field e "clientKeyID"))
               (default EmptyString (string_field e "algorithm"))
               (as_u32 (default 0 (match json_get e "size" with Some v => json_u64 v | None => None end)))
               (default EmptyString (string_field e "status"))).
Definition search_path (client_key_id : option string) (max_results : Z) : string :=
  "/kra/rest/agent/keys?maxResults=" +:+ pretty max_results +:+ "&status=active" +:+
  match client_key_id with Some id => "&clientKeyID=" +:+ percent_encode id | None => EmptyString end.
Definition search_keys (c : KraClient) (h : list HttpRequest) (client_key_id : option string) (max_results : Z)
  : list HttpRequest * outcome (list KeySearchEntry) DogtagError :=
  let h := kra_login c h in
  let! (h, resp) := kra_get c h (search_path client_key_id max_results) in
  let! (h, body) := pure h (json_response from_slice resp) in
  (h, Ok (omap search_entry (default [] (match json_get body "entries" with Some v => json_array v | None => None end)))).
End Kra.

(** * The client of a key recovery authority: theorems

    What a recovery sends and what it answers, with an honest authority and
    with any. *)
From S2P Require Import DogtagClientSpec.

(** What OpenSSL promises.  RSA decryption undoes encryption.  The ciphers
    AES-n-WRAP-PAD are RFC 5649, [kwp] by the cipher's name, and CBC with its
    padding is [cbc_encrypt]: a context that is set up for one direction
    gives the output of that function, or of its inverse, in two parts. *)
Class KraLaws `{KraCrypto} : Type := {
  rsa_private_decrypt : KraRsa -> Padding -> bytes -> option bytes;
  rsa_decrypts rsa p coins m out :
    rsa_public_encrypt rsa p coins m = inl out -> rsa_private_decrypt rsa p out = Some m;
  kwp : string -> bytes -> bytes -> option bytes;
  kwp_encrypts name key m a b : wrap_init name key = true ->
    wrap_update name key m = Some a -> wrap_final name key m = Some b -> kwp name key m = Some (a ++ b);
  kwp_decrypts name key m w : cipher_fetch name = true -> kwp name key m = Some w ->
    unwrap_init name key = true /\
    exists a b, unwrap_update name key w = Some a /\ unwrap_final name key w = Some b /\ a ++ b = m;
  cbc_encrypt : Z -> bytes -> bytes -> bytes -> option bytes;
  cbc_decrypts bits key iv m w : cbc_encrypt bits key iv m = Some w -> cbc_decrypt bits key iv w = inl m
}.

Section KraProps.
Context `{HJ : DogtagJson} `{HK : !KraJson} `{HC : KraCrypto} `{HL : !KraLaws}.
Variable base64_decode : string -> bytes + string.
Variable base64_encode : bytes -> string.
Variable answer : list HttpRequest -> HttpRequest -> HttpResponse + string.

Abbreviation recover := (recover_key_inner base64_decode base64_encode answer).
Definition transport_request (c : KraClient) : HttpRequest := kra_request c "/kra/v2/config/cert/transport" (Get true).
Definition kra_logins (c : KraClient) : list HttpRequest :=
  [kra_request c "/kra/v2/account/login" (Get true); kra_request c "/kra/rest/account/login" (PostJson EmptyObject)].
Definition retrieve_request (c : KraClient) (id w : string) : HttpRequest :=
  kra_request c "/kra/v2/agent/keys/retrieve" (PostJson (retrieval id w)).

Lemma kra_login_sends c h : exists l, kra_login answer c h = h ++ l /\ l `prefix_of` kra_logins c.
Proof.
  unfold kra_login, kra_get, kra_post, sent, send.
  destruct (of_lib HttpError (answer h _)) as [resp|e|]; [destruct (is_success _)|..].
  { exists [kra_request c "/kra/v2/account/login" (Get true)]. split; [done|]. by eexists [_]. }
  all: exists (kra_logins c); split; [by rewrite <-app_assoc|done].
Qed.
(** What the authority answers for its certificate. *)
Definition transport_of (answer : list HttpRequest -> HttpRequest -> HttpResponse + string) (c : KraClient) (h : list HttpRequest) (der : bytes) : Prop :=
  exists resp body pem, answer h (transport_request c) = inl resp /\ json_response from_slice resp = Ok body /\
    string_field body "Encoded" = Some pem /\
    base64_decode (join EmptyString (List.filter (fun l => negb (starts_with "-----" l)) (lines pem))) = inl der.
Lemma get_transport_spec c h :
  (get_transport_cert base64_decode answer c h).1 = h ++ [transport_request c] /\
  forall der, (get_transport_cert base64_decode answer c h).2 = Ok der <-> transport_of answer c h der.
Proof.
  unfold get_transport_cert, kra_get, sent, send, transport_of. fold (transport_request c).
  destruct (answer h (transport_request c)) as [resp|e]; cbn [of_lib sbind];
    [|split; [done|intros; split; [done|by intros (? & ? & ? & [=] & _)]]].
  unfold pure. destruct (json_response from_slice resp) as [body|e|] eqn:Eb; cbn [sbind].
  2,3: split; [done|intros; split; [done|intros (? & ? & ? & [= <-] & E & _); congruence]].
  destruct (string_field body "Encoded") as [pem|] eqn:Ep; cbn [kra_some ok_or sbind].
  2: split; [done|intros; split; [done|intros (? & ? & ? & [= <-] & E & Ef & _); congruence]].
  split; [done|]. intros der. cbn [fst snd]. split.
  - intros E. exists resp, body, pem. split_and!; [done..|]. destruct (base64_decode _); cbn in E; congruence.
  - intros (? & ? & ? & [= <-] & E & Ef & Ed). rewrite Eb in E. injection E as <-. rewrite Ep in Ef. injection Ef as <-.
    by rewrite Ed.
Qed.
Lemma wrap_session_key_Ok der sk oaep coins w : wrap_session_key base64_encode der sk oaep coins = Ok w ->
  exists cert key rsa out, x509_from_der der = inl cert /\ x509_public_key cert = inl key /\ pkey_rsa key = inl rsa /\
    rsa_public_encrypt rsa (if oaep then PKCS1_OAEP else PKCS1) coins sk = inl out /\ w = base64_encode out.
Proof.
  unfold wrap_session_key. intros E.
  destruct (x509_from_der der) as [cert|] eqn:Ec; [|done]. cbn in E.
  destruct (x509_public_key cert) as [key|] eqn:Ek; [|done]. cbn in E.
  destruct (pkey_rsa key) as [rsa|] eqn:Er; [|done]. cbn in E.
  destruct (rsa_public_encrypt rsa _ coins sk) as [out|] eqn:Eo; [|done]. cbn in E. injection E as <-. by exists cert, key, rsa, out.
Qed.

(** ** Wrapping *)

(** The cipher of a key of n bytes, if there is one for it. *)
Lemma aes_kwp_wrap_Ok key m w : aes_kwp_wrap key m = Ok w ->
  exists name, wrap_cipher (length key) = Some name /\ cipher_fetch name = true /\ cipher_ctx_new = true /\
    kwp name key m = Some w.
Proof.
  unfold aes_kwp_wrap, kra_check. intros E. destruct (wrap_cipher (length key)) as [name|]; [|done]. cbn in E.
  destruct (cipher_fetch name) eqn:Ef; [|done]. destruct cipher_ctx_new eqn:Ex; [|done]. cbn in E.
  destruct (wrap_init name key) eqn:Ei; [|done]. cbn in E.
  destruct (wrap_update name key m) as [a|] eqn:Ea; [|done]. cbn in E.
  destruct (wrap_final name key m) as [b|] eqn:Eb; [|done]. cbn in E. injection E as <-.
  exists name. split_and!; try done. by apply kwp_encrypts.
Qed.
Lemma aes_kwp_unwrap_spec key m w name :
  wrap_cipher (length key) = Some name -> cipher_fetch name = true -> cipher_ctx_new = true ->
  kwp name key m = Some w -> aes_kwp_unwrap key w = Ok m.
Proof.
  intros Hn Hf Hx Hw. destruct (kwp_decrypts _ _ _ _ Hf Hw) as (Hi & a & b & Ha & Hb & <-).
  unfold aes_kwp_unwrap, kra_check. rewrite Hn. cbn. rewrite Hf, Hx. cbn. rewrite Hi. cbn. rewrite Ha. cbn. by rewrite Hb.
Qed.
(** What was wrapped is unwrapped, under a key of any of the three lengths. *)
Lemma kwp_round_trip key m w : aes_kwp_wrap key m = Ok w -> aes_kwp_unwrap key w = Ok m.
Proof. intros (name & Hn & Hf & Hx & Hw)%aes_kwp_wrap_Ok. by eapply aes_kwp_unwrap_spec. Qed.

(** The key under the session key in an answer: by key wrapping, or by CBC if
    there is a nonce, which is the initialization vector. *)
Definition wraps_key (session_key key : bytes) (body : Json) : Prop :=
  exists text wrapped, string_field body "wrappedPrivateData" = Some text /\ base64_decode text = inl wrapped /\
    match string_field body "nonceData" with
    | None => kwp "AES-128-WRAP-PAD" session_key key = Some wrapped
    | Some nonce => exists iv, base64_decode nonce = inl iv /\ cbc_encrypt 128 session_key iv key = Some wrapped
    end.
Lemma unwrap_retrieved_spec session_key key body :
  cipher_fetch "AES-128-WRAP-PAD" = true -> cipher_ctx_new = true -> length session_key = 16%nat ->
  wraps_key session_key key body -> unwrap_retrieved base64_decode session_key body = Ok key.
Proof.
  intros Hf Hx Hlen (text & wrapped & Ht & Hw & Hn). unfold unwrap_retrieved. rewrite Ht. cbn. rewrite Hw. cbn.
  destruct (string_field body "nonceData") as [nonce|].
  - destruct Hn as (iv & Hi & Hc). rewrite Hi. cbn. rewrite Hlen. cbn. by rewrite (cbc_decrypts _ _ _ _ _ Hc).
  - eapply aes_kwp_unwrap_spec; [by rewrite Hlen|done..].
Qed.

(** An authority that has the key [key] under [id]: it shows its certificate,
    and answers a retrieval with the key wrapped, in one way or the other,
    under the session key that it decrypts. *)
Definition honest (c : KraClient) (id : string) (transport : bytes) (rsa : KraRsa) (key : bytes) : Prop :=
  (forall h, transport_of answer c h transport) /\
  (exists cert pkey, x509_from_der transport = inl cert /\ x509_public_key cert = inl pkey /\ pkey_rsa pkey = inl rsa) /\
  forall h w out sk, base64_decode w = inl out -> rsa_private_decrypt rsa PKCS1 out = Some sk -> length sk = 16%nat ->
    exists resp body, answer h (retrieve_request c id w) = inl resp /\ http_status resp <> 401 /\
      json_response from_slice resp = Ok body /\ wraps_key sk key body.

(** C40: a key is recovered, and the session key that protects it leaves the
    server only encrypted.  Whatever the authority answers, what is sent is
    the login, the request for the transport certificate and at most one
    retrieval, which carries the session key encrypted under the RSA key of
    that certificate and is otherwise independent of it.  Of an honest
    authority, which wraps the key under the session key by RFC 5649 or by
    AES-CBC with a nonce, the recovery has the key itself, for any session key
    of 16 bytes and any random padding, where OpenSSL has the cipher. *)
Theorem key_recovered c h session_key coins id :
  (exists l, (recover c h (inl session_key) coins id).1 = h ++ l /\
     exists logins, logins `prefix_of` kra_logins c /\
       (l = logins ++ [transport_request c] \/
        exists transport cert pkey rsa out,
          transport_of answer c (h ++ logins) transport /\ x509_from_der transport = inl cert /\
          x509_public_key cert = inl pkey /\ pkey_rsa pkey = inl rsa /\
          rsa_public_encrypt rsa PKCS1 coins session_key = inl out /\
          l = logins ++ [transport_request c; retrieve_request c id (base64_encode out)])) /\
  (forall transport rsa key out,
     honest c id transport rsa key -> length session_key = 16%nat ->
     cipher_fetch "AES-128-WRAP-PAD" = true -> cipher_ctx_new = true ->
     rsa_public_encrypt rsa PKCS1 coins session_key = inl out -> base64_decode (base64_encode out) = inl out ->
     (recover c h (inl session_key) coins id).2 = Ok key).
Proof.
  destruct (kra_login_sends c h) as (logins & Hl & Hpre). unfold recover_key_inner. cbv zeta. rewrite Hl.
  cbn [of_lib pure sbind].
  destruct (get_transport_spec c (h ++ logins)) as [Hs Ht].
  destruct (get_transport_cert base64_decode answer c (h ++ logins)) as [h1 r]. cbn [fst snd] in Hs, Ht. subst h1.
  split.
  - destruct r as [transport|e|]; cbn [sbind].
    2,3: eexists; split; [symmetry; apply app_assoc|]; exists logins; split; [done|by left].
    pose proof (proj1 (Ht transport) eq_refl) as Htr.
    unfold pure. destruct (wrap_session_key base64_encode transport session_key false coins) as [w|e|] eqn:Ew; cbn [sbind].
    2,3: eexists; split; [symmetry; apply app_assoc|]; exists logins; split; [done|by left].
    apply wrap_session_key_Ok in Ew as (cert & pkey & rsa & out & Hc & Hp & Hr & Ho & ->).
    exists (logins ++ [transport_request c; retrieve_request c id (base64_encode out)]). split.
    + unfold kra_post, sent, send. fold (retrieve_request c id (base64_encode out)).
      assert (((h ++ logins) ++ [transport_request c]) ++ [retrieve_request c id (base64_encode out)] =
              h ++ logins ++ [transport_request c; retrieve_request c id (base64_encode out)]) as <- by (by rewrite <-!app_assoc).
      destruct (of_lib HttpError _) as [resp|e|]; cbn [sbind]; [|done|done]. case_match; [done|].
      by destruct (json_response from_slice resp).
    + exists logins. split; [done|]. right. exists transport, cert, pkey, rsa, out. by split_and!.
  - intros transport rsa key out (Htr & (cert & pkey & Hc & Hp & Hr) & Hret) Hlen Hf Hx Ho Hb64.
    rewrite (proj2 (Ht transport) (Htr _)). cbn [sbind]. unfold pure, wrap_session_key. rewrite Hc. cbn. rewrite Hp. cbn.
    rewrite Hr. cbn. rewrite Ho. cbn -[Z.eqb].
    destruct (Hret ((h ++ logins) ++ [transport_request c]) (base64_encode out) out session_key Hb64
      (rsa_decrypts _ _ _ _ _ Ho) Hlen) as (resp & body & Ha & H401 & Hbody & Hkey).
    unfold kra_post, sent, send. fold (retrieve_request c id (base64_encode out)). rewrite Ha. cbn -[Z.eqb].
    rewrite (proj2 (Z.eqb_neq _ _) H401), Hbody. cbn. by apply unwrap_retrieved_spec.
Qed.
(** The data of an archival is not wrapped: the request carries the key in
    base64 under the name of wrapped data. *)
Lemma archive_in_the_clear c h nanos key algorithm :
  exists fields, (archive_key base64_encode answer c h nanos key algorithm).1 =
    h ++ [kra_request c "/kra/v2/agent/keys/archive" (PostJson (FlatObject fields))] /\
  ("wrappedPrivateData", base64_encode key)%string ∈ fields.
Proof.
  eexists. split.
  - unfold archive_key, kra_post, sent, send. destruct (of_lib HttpError _) as [resp|e|]; cbn [sbind]; [|reflexivity|reflexivity].
    unfold pure. destruct (json_response archive_response resp); reflexivity.
  - set_solver.
Qed.
End KraProps.

(** ** An example authority *)

#[local] Instance example_kra_json : KraJson := {
  key_gen_response := example_object (fun _ => None);
  recover_response := example_object (fun _ => None);
  archive_response := example_object (fun _ => None)
}.
(** The ciphers turn the text around, behind a mark of the cipher's name, which
    is the sixth letter of it; the output comes in two parts. *)
Definition mark_of (name : string) : Z := nth 5 (bytes_of_string name) 0.
#[local] Instance example_kra_crypto : KraCrypto := {
  KraX509 := bytes;
  KraPKey := bytes;
  KraRsa := bytes;
  x509_from_der := inl;
  x509_public_key := inl;
  pkey_rsa := inl;
  rsa_public_encrypt _ _ _ m := inl (rev m);
  cbc_decrypt _ _ iv w := inl (drop (length iv) (rev w));
  cipher_fetch _ := true;
  cipher_ctx_new := true;
  wrap_init _ _ := true;
  wrap_update name _ m := Some [mark_of name];
  wrap_final _ _ m := Some (rev m);
  unwrap_init _ _ := true;
  unwrap_update name _ w :=
    match w with x :: w => if x =? mark_of name then Some (take 1 (rev w)) else None | [] => None end;
  unwrap_final _ _ w := Some (drop 1 (rev (drop 1 w)));
  d2i_pubkey := Some;
  pkey_ctx_new _ := true;
  encapsulate_init _ := true;
  encapsulate_sizes _ := true;
  encapsulate _ _ := None
}.
#[local] Instance example_kra_laws : KraLaws.
Proof.
  refine {| rsa_private_decrypt _ _ out := Some (rev out);
            kwp name _ m := Some (mark_of name :: rev m);
            cbc_encrypt _ _ iv m := Some (rev (iv ++ m)) |}.
  - intros ? ? ? m out [= <-]. by rewrite rev_involutive.
  - by intros name key m a b _ [= <-] [= <-].
  - intros name key m w _ [= <-]. split; [done|]. exists (take 1 m), (drop 1 m).
    cbn -[take]. rewrite Z.eqb_refl, drop_0, rev_involutive. split_and!; [done..|]. by destruct m.
  - intros bits key iv m w [= <-]. cbn [cbc_decrypt example_kra_crypto]. by rewrite rev_involutive, drop_app_length.
Defined.
(** [nonce] is part of the answers. *)
Definition example_kra_answer (nonce : bool) (h : list HttpRequest) (rq : HttpRequest) : HttpResponse + string :=
  if String.eqb (rq_url rq) "http://kra/kra/v2/config/cert/transport" then answered 200 "Encoded=T"
  else if String.eqb (rq_url rq) "http://kra/kra/v2/agent/keys/retrieve" then
    answered 200 (if nonce then "wrappedPrivateData=BAN;nonceData=N" else "wrappedPrivateData=2BA")
  else answered 200 "ok=1".
Definition example_kra : KraClient := MkKraClient (MkSettings false 0 None []) "http://kra" None.
Definition example_session : bytes := replicate 16 7.
Lemma example_honest nonce : honest example_decode (example_kra_answer nonce) example_kra "5" [84] [84] [65; 66].
Proof.
  split_and!.
  - intros h. exists (MkHttpResponse 200 None None [inl (bytes_of_string "Encoded=T")]), [("Encoded", "T")]%string, "T"%string.
    split_and!; vm_compute; reflexivity.
  - by exists [84], [84].
  - intros h w out sk _ _ Hlen. destruct nonce.
    + exists (MkHttpResponse 200 None None [inl (bytes_of_string "wrappedPrivateData=BAN;nonceData=N")]),
        [("wrappedPrivateData", "BAN"); ("nonceData", "N")]%string.
      split_and!; [vm_compute; reflexivity|vm_compute; discriminate|vm_compute; reflexivity|].
      exists "BAN"%string, [66; 65; 78]. split_and!; [vm_compute; reflexivity..|]. exists [78]. split; vm_compute; reflexivity.
    + exists (MkHttpResponse 200 None None [inl (bytes_of_string "wrappedPrivateData=2BA")]),
        [("wrappedPrivateData", "2BA")]%string.
      split_and!; [vm_compute; reflexivity|vm_compute; discriminate|vm_compute; reflexivity|].
      exists "2BA"%string, [50; 66; 65]. split_and!; vm_compute; reflexivity.
Qed.
(** Either way of wrapping. *)
Lemma key_recovered_witness :
  Forall (fun nonce =>
    (recover_key_inner example_decode string_of_bytes (example_kra_answer nonce) example_kra [] (inl example_session) [] "5").2 =
      Ok [65; 66]) [true; false].
Proof.
  apply Forall_forall. intros nonce _.
  eapply (proj2 (key_recovered example_decode string_of_bytes (example_kra_answer nonce) example_kra [] example_session [] "5"));
    [exact (example_honest nonce)|reflexivity..].
Defined.
