(* ===== verification/Tls.v ===== *)
(** * The TLS listeners

    [src/tls]: the configuration of a listener's TLS from its section, the
    verification of client certificates, and the stapled OCSP response.  The
    crates [rustls] and [synta_x509_verification] and the files are
    interfaces. *)
From S2P Require Import Prelude Words Text Secrets Errors Calendar X509 Der DerReader Issuance AuditLog NameMatch EnrollAuthz Ocsp Admin Config Hsm.
Open Scope Z_scope.

(** [rustls::Error], as far as it is told apart. *)
Inductive TlsError : Type :=
  | UnsupportedSignatureAlgorithm (context : string)
  | UnsupportedSignatureAlgorithmForPublicKey (context : string)
  | BadEncoding | BadSignature
  | OtherTlsError (text : string)
  | General (text : string).
Inductive TlsVersion : Type := TLS12 | TLS13.

Class RustlsLib `{X509Lib} : Type := {
  (** the verifier of WebPKI, built over trust anchors *)
  WebPki : Type;
  root_store_add : bytes -> option string;
  PkiBuilder : Type;
  web_pki_builder : list bytes -> PkiBuilder;
  allow_unauthenticated : PkiBuilder -> PkiBuilder;
  web_pki_build : PkiBuilder -> WebPki + string;
  web_pki_verify : WebPki -> bytes -> list bytes -> Z -> unit + TlsError;
  web_pki_mandatory : WebPki -> bool;
  (** the verification of post-quantum certificates at a time in seconds *)
  OwnedStore : Type;
  owned_store : list bytes -> OwnedStore + string;
  store_verify : OwnedStore -> Cert * bytes -> list (Cert * bytes) -> Z -> unit + string;
  (** signatures of handshakes: message, certificate, scheme, signature *)
  verify_tls12 : bytes -> bytes -> SignatureScheme * bytes -> unit + TlsError;
  verify_tls13 : bytes -> bytes -> SignatureScheme * bytes -> unit + TlsError;
  verify_ml_dsa_tls13 : bytes -> bytes -> SignatureScheme * bytes -> unit + TlsError;
  supported_sig_algs : list SignatureScheme;
  cert_key_algorithm : Cert -> X509.oid;
  ml_dsa_oid : MlDsaLevel -> X509.oid;
  (** a private key of a PEM file, and a chain with its key *)
  PrivateKeyDer : Type;
  SingleCert : Type;
  with_single_cert : list bytes -> PrivateKeyDer -> SingleCert + string
}.

Section Tls.
Context `{HX : X509Lib} `{HR : !RustlsLib} `{HU : UrlLib} `{HC : Cryptoki} `{HO : OpensslLib}.

(** ** [client_verifier.rs] *)

Record SyntaClientCertVerifier : Type := MkVerifier { store : OwnedStore; classical : WebPki }.

Fixpoint add_roots (roots : list bytes) : outcome unit KipukaError :=
  match roots with
  | [] => Ok tt
  | r :: roots =>
      match root_store_add r with
      | Some e => Err (ETls ("invalid CA certificate: " +:+ e))
      | None => add_roots roots
      end
  end.
(** [SyntaClientCertVerifier::new] *)
Definition verifier_new (roots : list bytes) (required : bool) : outcome SyntaClientCertVerifier KipukaError :=
  let? s := of_lib (fun e => ETls ("client trust store: " +:+ e)) (owned_store roots) in
  let? _ := add_roots roots in
  let builder := web_pki_builder roots in
  let builder := if required then builder else allow_unauthenticated builder in
  let? c := of_lib (fun e => ETls ("client verifier build: " +:+ e)) (web_pki_build builder) in
  Ok (MkVerifier s c).

Definition client_auth_mandatory (v : SyntaClientCertVerifier) : bool := web_pki_mandatory (classical v).
Definition unsupported_algorithm (e : TlsError) : bool :=
  match e with UnsupportedSignatureAlgorithm _ | UnsupportedSignatureAlgorithmForPublicKey _ => true | _ => false end.
Fixpoint parse_certs (l : list bytes) : outcome (list (Cert * bytes)) TlsError :=
  match l with
  | [] => Ok []
  | der :: l =>
      let? c := of_lib (fun _ => BadEncoding) (cert_from_der der) in
      let? cs := parse_certs l in
      Ok ((c, der) :: cs)
  end.
(** [verify_client_cert]; the time is a [u64] of seconds. *)
Definition verify_client_cert (v : SyntaClientCertVerifier) (end_entity : bytes) (intermediates : list bytes)
    (now : Z) : outcome unit TlsError :=
  match web_pki_verify (classical v) end_entity intermediates now with
  | inl _ => Ok tt
  | inr e =>
      if unsupported_algorithm e then
        let? leaf := of_lib (fun _ => BadEncoding) (cert_from_der end_entity) in
        let? chain := parse_certs intermediates in
        if 2 ^ 63 <=? now then Err (General "TLS validation time out of range")
        else of_lib (fun e => General ("client certificate validation failed: " +:+ e))
               (store_verify (store v) (leaf, end_entity) chain now)
      else Err e
  end.
Definition of_rustls (r : unit + TlsError) : outcome unit TlsError :=
  match r with inl u => Ok u | inr e => Err e end.
(** [verify_tls12_signature], [verify_tls13_signature] *)
Definition verify_tls12_signature (message cert : bytes) (dss : SignatureScheme * bytes) : outcome unit TlsError :=
  of_rustls (verify_tls12 message cert dss).
Definition verify_tls13_signature (message cert : bytes) (dss : SignatureScheme * bytes) : outcome unit TlsError :=
  match dss.1 with
  | ML_DSA_SCHEME l =>
      let? c := of_lib (fun _ => BadEncoding) (cert_from_der cert) in
      if negb (bool_decide (cert_key_algorithm c = ml_dsa_oid l)) then Err BadSignature
      else of_rustls (verify_ml_dsa_tls13 message cert dss)
  | _ => of_rustls (verify_tls13 message cert dss)
  end.
Definition supported_verify_schemes : list SignatureScheme :=
  supported_sig_algs ++ [ML_DSA_SCHEME Dsa2; ML_DSA_SCHEME Dsa3; ML_DSA_SCHEME Dsa5].

(** ** [mod.rs]: the listener *)

(** [admin_listener_config] *)
Definition admin_listener_config (est : TlsConfig) (admin : AdminConfig) : TlsConfig :=
  MkTls (tls_enabled est) (tls_cert_file est) (tls_key_file est)
    (match admin_auth_method admin with AdminMtls => Required | _ => NoClientAuth end)
    (default (tls_ca_file est) (admin_ca_file admin))
    (min_protocol est) (max_protocol est) (ciphersuites est) (ocsp_stapling est).

(** The files: opened, and read as certificates or as a private key. *)
Record TlsFiles : Type := MkTlsFiles {
  open_error : string -> option string;
  pem_certs : string -> list bytes + string;
  pem_private_key : string -> option PrivateKeyDer + string
}.
(** [load_cert_chain] *)
Definition load_cert_chain (w : TlsFiles) (path : string) : outcome (list bytes) KipukaError :=
  match open_error w path with
  | Some e => Err (ETls ("cannot open cert file '" +:+ path +:+ "': " +:+ e))
  | None =>
      let? certs := of_lib (fun e => ETls ("cannot parse cert file '" +:+ path +:+ "': " +:+ e)) (pem_certs w path) in
      if bool_decide (certs = []) then Err (ETls ("no certificates found in '" +:+ path +:+ "'")) else Ok certs
  end.
(** [load_private_key] *)
Definition load_private_key (w : TlsFiles) (path : string) : outcome PrivateKeyDer KipukaError :=
  match open_error w path with
  | Some e => Err (ETls ("cannot open key file '" +:+ path +:+ "': " +:+ e))
  | None =>
      let? key := of_lib (fun e => ETls ("cannot parse key file '" +:+ path +:+ "': " +:+ e)) (pem_private_key w path) in
      ok_or key (ETls ("no private key found in '" +:+ path +:+ "'"))
  end.
(** [build_client_verifier], [build_optional_client_verifier] *)
Definition build_client_verifier (w : TlsFiles) (ca_file : string) (required : bool)
  : outcome SyntaClientCertVerifier KipukaError :=
  let? roots := load_cert_chain w ca_file in
  verifier_new roots required.

(** [protocol_versions] *)
Definition protocol_versions (min max : string) : outcome (list TlsVersion) KipukaError :=
  if String.eqb min "1.2" && String.eqb max "1.2" then Ok [TLS12]
  else if String.eqb min "1.2" && String.eqb max "1.3" then Ok [TLS12; TLS13]
  else if String.eqb min "1.3" && String.eqb max "1.3" then Ok [TLS13]
  else Err (ETls ("unsupported protocol version range: " +:+ min +:+ ".." +:+ max)).

(** The key of the server: of a file, or in the module. *)
Inductive ServerKey : Type :=
  | FileKey (c : SingleCert)
  | HsmKey (chain : list bytes) (k : Pkcs11SigningKey).
(** [rustls::ServerConfig] *)
Record ServerConfig : Type := MkServerConfig {
  sc_versions : list TlsVersion;
  sc_verifier : option SyntaClientCertVerifier;
  sc_key : ServerKey
}.

(** [build_server_config]; [challenge] is for [verify_tls_key]. *)
Definition build_server_config (w : TlsFiles) (challenge : bytes + string) (c : TlsConfig) (hsm : option HsmContext)
  : outcome ServerConfig KipukaError :=
  let? cert_chain := load_cert_chain w (tls_cert_file c) in
  let? versions := protocol_versions (min_protocol c) (max_protocol c) in
  let? verifier :=
    match client_auth c with
    | Required => let? v := build_client_verifier w (tls_ca_file c) true in Ok (Some v)
    | Optional => let? v := build_client_verifier w (tls_ca_file c) false in Ok (Some v)
    | NoClientAuth => Ok None
    end in
  if starts_with "pkcs11:" (tls_key_file c) then
    let? h := ok_or hsm (ETls "tls.key_file is a pkcs11: URI but [hsm] is not configured") in
    let? label := map_err (fun e => ETls ("HSM TLS key URI: " +:+ hsm_error e)) (tls_key_label h (tls_key_file c)) in
    let? leaf := ok_or (head cert_chain) (ETls "empty TLS certificate chain") in
    let? a := map_err (fun e => ETls ("HSM TLS certificate: " +:+ hsm_error e)) (certificate_algorithm leaf) in
    let? _ := map_err (fun e => ETls ("HSM TLS key validation: " +:+ hsm_error e)) (verify_tls_key h label leaf challenge) in
    Ok (MkServerConfig versions verifier (HsmKey cert_chain (MkSigningKey h label a)))
  else
    let? key := load_private_key w (tls_key_file c) in
    let? single := of_lib (fun e => ETls ("server cert config: " +:+ e)) (with_single_cert cert_chain key) in
    Ok (MkServerConfig versions verifier (FileKey single)).

(** The certificate verification of a handshake: [None], no certificate was
    sent.  What rustls does with a verifier. *)
Definition admits (c : ServerConfig) (now : Z) (peer : option (bytes * list bytes)) : bool :=
  match sc_verifier c, peer with
  | None, _ => true
  | Some v, None => negb (client_auth_mandatory v)
  | Some v, Some (leaf, chain) => is_ok (verify_client_cert v leaf chain now)
  end.

(** ** [mod.rs]: channel binding and stapling *)

(** [compute_channel_binding] *)
Definition compute_channel_binding (sha256 : bytes -> bytes) (cert_der : bytes) : bytes := sha256 cert_der.

Fixpoint is_prefix (p l : bytes) : bool :=
  match p, l with
  | [], _ => true
  | a :: p, b :: l => (a =? b) && is_prefix p l
  | _, [] => false
  end.
Fixpoint contains_window (p l : bytes) : bool :=
  is_prefix p l || match l with _ :: l => contains_window p l | [] => false end.
Definition MUST_STAPLE_OID_DER : bytes := [0x06; 0x08; 0x2b; 0x06; 0x01; 0x05; 0x05; 0x07; 0x01; 0x18].
(** [has_must_staple_extension] *)
Definition has_must_staple_extension (cert_der : bytes) : bool := contains_window MUST_STAPLE_OID_DER cert_der.
End Tls.

Section Stapling.
Context `{HX : X509Lib} `{HO : !OcspLib} `{HD : Decoder}.
Variable basic_response_from_der : bytes -> BasicResponse + string.
Variable sha256 : bytes -> bytes.

Record StapledOcspResponse : Type := MkStapled {
  response_der : bytes;
  fetched_at : Z;
  stapled_next_update : option Z
}.
Record OcspStapler : Type := MkStapler {
  stapler_config : OcspStaplingConfig;
  server_cert_der : bytes;
  issuer_cert_der : option bytes;
  response : option StapledOcspResponse
}.
(** [OcspStapler::new] *)
Definition stapler_new (c : OcspStaplingConfig) (cert : bytes) (issuer : option bytes) : OcspStapler :=
  MkStapler c cert issuer None.

(** [parse_ocsp_next_update] *)
Definition parse_ocsp_next_update (der : bytes) : option Z :=
  envelope ← outcome_ok (of_lib (fun e => e) (envelope_from_der der));
  rb ← response_bytes envelope;
  basic ← outcome_ok (of_lib (fun e => e) (basic_response_from_der rb.2));
  first ← head (responses basic);
  t ← next_update first;
  outcome_ok (time t).

(** [fetch_ocsp_response]; the URL of the certificate is not looked at
    ([extract_aia_ocsp_url] is [None]). *)
Definition fetch_ocsp_response (s : OcspStapler) (http : string -> bytes -> HttpReply) (rd : OcspReadings) (now : Z)
  : outcome StapledOcspResponse string :=
  let? url := ok_or (stapling_responder_url (stapler_config s))
    "no OCSP responder URL configured and none found in certificate AIA" in
  let? issuer := ok_or (issuer_cert_der s)
    "issuer certificate is required for OCSP stapling (second cert in chain file)" in
  let config := MkOcspConfig true (Some url) (refresh_interval_secs (stapler_config s)) 10 false
                  (stapling_soft_fail (stapler_config s)) in
  let? der := map_err (fun e => "OCSP stapling fetch failed: " +:+ ocsp_error_to_string e)
    (get_stapled_response basic_response_from_der sha256 (ocsp_client_new config) http rd (server_cert_der s) issuer) in
  Ok (MkStapled der now (parse_ocsp_next_update der)).
(** [refresh_once] *)
Definition refresh_once (s : OcspStapler) (http : string -> bytes -> HttpReply) (rd : OcspReadings) (now : Z)
  : OcspStapler :=
  let set r := MkStapler (stapler_config s) (server_cert_der s) (issuer_cert_der s) r in
  match fetch_ocsp_response s http rd now with
  | Ok r => set (Some r)
  | _ => if stapling_soft_fail (stapler_config s) then s else set None
  end.
End Stapling.

(** * The TLS listeners: the theorems

    Which clients a listener admits, with which versions, and whose
    key it serves with. *)
From S2P Require Import HsmSpec ExampleLibs.
Open Scope Z_scope.

Section TlsProps.
Context `{HX : X509Lib} `{HR : !RustlsLib} `{HU : UrlLib} `{HC : Cryptoki} `{HL : !CryptokiLaws} `{HO : OpensslLib}.

(** What a listener accepts of a client: its certificate is good for WebPKI,
    or WebPKI refuses nothing but an algorithm it does not know, and the
    post-quantum policy accepts the chain. *)
Definition acceptable (v : SyntaClientCertVerifier) (leaf : bytes) (chain : list bytes) (now : Z) : Prop :=
  web_pki_verify (classical v) leaf chain now = inl tt \/
  exists e c cs, web_pki_verify (classical v) leaf chain now = inr e /\ unsupported_algorithm e = true /\
    cert_from_der leaf = inl c /\ Forall2 (fun der p => p.2 = der /\ cert_from_der der = inl p.1) chain cs /\
    now < 2 ^ 63 /\ store_verify (store v) (c, leaf) cs now = inl tt.

Lemma parse_certs_spec l cs : parse_certs l = Ok cs <->
  Forall2 (fun der p => p.2 = der /\ cert_from_der der = inl p.1) l cs.
Proof.
  revert cs. induction l as [|der l IH]; intros cs; cbn [parse_certs].
  - split; [by intros [= <-]|]. by inversion 1.
  - destruct (cert_from_der der) as [c|e] eqn:E; cbn [of_lib obind].
    + split.
      * intros H. take_ok H as rest Er. injection H as <-. constructor; [done|by apply IH].
      * inversion 1 as [|? [c' der'] ? rest [<- Hc] Hrest]; subst. cbn in *. apply IH in Hrest as ->. cbn. rewrite Hc in E. by injection E as ->.
    + split; [done|]. inversion 1 as [|? ? ? ? [_ Hc]]; subst. congruence.
Qed.

Lemma verify_client_cert_spec v leaf chain now :
  verify_client_cert v leaf chain now = Ok tt <-> acceptable v leaf chain now.
Proof.
  unfold verify_client_cert, acceptable. destruct (web_pki_verify _ _ _ _) as [[]|e]; [split; [by left|done]|].
  destruct (unsupported_algorithm e) eqn:Eu; cycle 1.
  { split; [done|]. intros [[=]|(e' & c & cs & [= <-] & Hu & _)]. congruence. }
  split.
  - intros H. right. take_ok H as c Ec. apply of_lib_Ok in Ec. take_ok H as cs Es. apply parse_certs_spec in Es.
    destruct (2 ^ 63 <=? now) eqn:En; [done|]. apply of_lib_Ok in H. exists e, c, cs. split_and!; [done..|blia|done].
  - intros [[=]|(e' & c & cs & [= <-] & _ & -> & Hs & Hn & Hv)]. cbn [of_lib obind]. apply parse_certs_spec in Hs as ->.
    cbn [obind]. replace (2 ^ 63 <=? now) with false by blia. by rewrite Hv.
Qed.

(** A verifier is mandatory, unless its builder was told to let clients
    without a certificate in. *)
Class WebPkiLaws : Prop := {
  web_pki_mandatory_default roots v : web_pki_build (web_pki_builder roots) = inl v -> web_pki_mandatory v = true;
  web_pki_mandatory_optional roots v :
    web_pki_build (allow_unauthenticated (web_pki_builder roots)) = inl v -> web_pki_mandatory v = false
}.
Definition web_pki_over (roots : list bytes) (v : WebPki) : Prop :=
  web_pki_build (web_pki_builder roots) = inl v \/
  web_pki_build (allow_unauthenticated (web_pki_builder roots)) = inl v.

Definition pki_of (w : TlsFiles) (ca_file : string) (v : SyntaClientCertVerifier) : Prop :=
  exists roots, load_cert_chain w ca_file = Ok roots /\ roots <> [] /\ owned_store roots = inl (store v) /\
    web_pki_over roots (classical v).

Lemma load_cert_chain_nonempty w path certs : load_cert_chain w path = Ok certs -> certs <> [].
Proof.
  unfold load_cert_chain. destruct (open_error w path); [done|]. intros H. take_ok H as l El.
  case_bool_decide; [done|]. by injection H as <-.
Qed.
Lemma build_client_verifier_sound `{HW : !WebPkiLaws} w ca_file required v :
  build_client_verifier w ca_file required = Ok v -> pki_of w ca_file v /\ client_auth_mandatory v = required.
Proof.
  unfold build_client_verifier, verifier_new. intros H. take_ok H as roots Er. take_ok H as s Es. apply of_lib_Ok in Es.
  take_ok H as u Eu. take_ok H as c Ec. apply of_lib_Ok in Ec. injection H as <-. split.
  - exists roots. split_and!; [done|by eapply load_cert_chain_nonempty|done|]. destruct required; [by left|by right].
  - destruct required; [by eapply web_pki_mandatory_default|by eapply web_pki_mandatory_optional].
Qed.

Lemma protocol_versions_spec min max vs : protocol_versions min max = Ok vs ->
  (TLS12 ∈ vs <-> min = "1.2"%string) /\ (TLS13 ∈ vs <-> max = "1.3"%string).
Proof.
  unfold protocol_versions. destruct (String.eqb min "1.2") eqn:E1, (String.eqb max "1.2") eqn:E2; cbn [andb].
  all: destruct (String.eqb max "1.3") eqn:E3; cbn [andb]; try destruct (String.eqb min "1.3") eqn:E4; cbn [andb].
  all: try (by intros [=]); intros [= <-].
  all: repeat match goal with
         | H : String.eqb _ _ = true |- _ => apply String.eqb_eq in H; subst
         | H : String.eqb _ _ = false |- _ => apply String.eqb_neq in H
         end; try done.
  all: rewrite ?elem_of_cons, ?elem_of_nil; naive_solver.
Qed.
Lemma protocol_versions_total debug c : validate_tls debug c = Ok tt -> tls_enabled c = true ->
  exists vs, protocol_versions (min_protocol c) (max_protocol c) = Ok vs /\ vs <> [].
Proof.
  unfold validate_tls, tls_version, protocol_versions. intros H E. rewrite E in H. cbn [negb] in H.
  destruct (is_empty (tls_cert_file c)), (is_empty (tls_key_file c)); try done.
  destruct (String.eqb (min_protocol c) "1.2") eqn:E1, (String.eqb (min_protocol c) "1.3") eqn:E2,
    (String.eqb (max_protocol c) "1.2") eqn:E3, (String.eqb (max_protocol c) "1.3") eqn:E4;
    cbn in H |- *; try done; by eexists.
Qed.

(** C35: a listener admits the clients its section says.  It speaks exactly the
    versions from the lowest to the highest configured, so never one below TLS
    1.2, and a section that was validated names such a range.  Where client
    certificates are required nobody is admitted without one, where they are
    optional anybody is, and a certificate that is sent must be acceptable to
    the anchors of the section's file: what WebPKI refuses for any other reason
    than an unknown algorithm is refused.  The listener of the administration
    requires a certificate if administrators authenticate by one, checked
    against the administration's own anchors where they are given. *)
Theorem listener_admission `{HW : !WebPkiLaws} debug w challenge c hsm sc :
  build_server_config w challenge c hsm = Ok sc ->
  ((TLS12 ∈ sc_versions sc <-> min_protocol c = "1.2"%string) /\
   (TLS13 ∈ sc_versions sc <-> max_protocol c = "1.3"%string)) /\
  (forall now peer, admits sc now peer = true <->
     match client_auth c, peer with
     | NoClientAuth, _ | Optional, None => True
     | Required, None => False
     | _, Some (leaf, chain) => exists v, sc_verifier sc = Some v /\ acceptable v leaf chain now
     end) /\
  (forall v, sc_verifier sc = Some v -> pki_of w (tls_ca_file c) v) /\
  (validate_tls debug c = Ok tt -> tls_enabled c = true ->
   exists vs, protocol_versions (min_protocol c) (max_protocol c) = Ok vs /\ vs <> []) /\
  (forall admin, admin_auth_method admin = AdminMtls ->
   client_auth (admin_listener_config c admin) = Required /\
   forall path, admin_ca_file admin = Some path -> tls_ca_file (admin_listener_config c admin) = path).
Proof.
  intros H. unfold build_server_config in H. take_ok H as chain Ec. take_ok H as vs Ev. take_ok H as vo Eo.
  assert (Hsc : sc_versions sc = vs /\ sc_verifier sc = vo).
  { destruct (starts_with _ _).
    - take_ok H as h Eh. take_ok H as l El. take_ok H as leaf Elf. take_ok H as a Ea. take_ok H as u Eu.
      by injection H as <-.
    - take_ok H as k Ek. take_ok H as s Es. by injection H as <-. }
  destruct Hsc as [-> Evo]. split; [by eapply protocol_versions_spec|].
  assert (Hb : forall b v, build_client_verifier w (tls_ca_file c) b = Ok v -> forall now peer,
    match peer with
    | None => negb (client_auth_mandatory v) = negb b
    | Some (leaf, chain) => is_ok (verify_client_cert v leaf chain now) = true <-> acceptable v leaf chain now
    end).
  { intros b v Hv now [[leaf ch]|]; [|by apply build_client_verifier_sound in Hv as [_ ->]].
    rewrite <- verify_client_cert_spec. destruct (verify_client_cert _ _ _ _) as [[]|e|]; naive_solver. }
  split; [|split; [|split; [by intros; eapply protocol_versions_total|]]].
  - intros now peer. unfold admits. rewrite Evo. destruct (client_auth c).
    + take_ok Eo as v Ev'. injection Eo as <-. specialize (Hb _ _ Ev' now peer). destruct peer as [[leaf ch]|]; [|by rewrite Hb].
      rewrite Hb. naive_solver.
    + take_ok Eo as v Ev'. injection Eo as <-. specialize (Hb _ _ Ev' now peer). destruct peer as [[leaf ch]|]; [|by rewrite Hb].
      rewrite Hb. naive_solver.
    + injection Eo as <-. done.
  - intros v Hv. rewrite Evo in Hv. destruct (client_auth c); [| |congruence]; take_ok Eo as v' Ev'; injection Eo as E;
      rewrite <- E in Hv; injection Hv as <-; by eapply build_client_verifier_sound.
  - intros admin Ha. unfold admin_listener_config. rewrite Ha. split; [done|]. intros path ->. done.
Qed.

(** C36: the key in a module is the certificate's.  A listener whose key is
    named by a URI comes up only if the URI selects one private key of the
    token, and a signature of fresh bytes by that very key verifies under the
    key of the listener's certificate.  It then signs every handshake with
    that key, in the first of the client's schemes that fits the key, and in
    no other way than the scheme says. *)
Theorem module_key_is_certificates w challenge c hsm sc chain k :
  build_server_config w challenge c hsm = Ok sc -> sc_key sc = HsmKey chain k ->
  exists h leaf params p n o bytes public scheme md sig, hsm = Some h /\ sk_hsm k = h /\ head chain = Some leaf /\
    load_cert_chain w (tls_cert_file c) = Ok chain /\
    parse_uri (tls_key_file c) = Ok params /\ context h = Some p /\ session h = Some n /\
    (forall o', selected p n params o' <-> o' = o) /\
    certificate_public_key leaf = inl public /\ probe_scheme (sk_algorithm k) = Some (scheme, md) /\
    challenge = inl bytes /\ tls_signature p n o bytes scheme sig /\ verify_oneshot public md sig bytes = inl true /\
    forall offered s message answer, choose_scheme k offered = Some s -> signer_sign k s message = Ok answer ->
      (exists supported i, supported_schemes (sk_algorithm k) = Some supported /\ s ∈ supported /\
        offered !! i = Some s /\ forall j, (j < i)%nat -> exists y, offered !! j = Some y /\ y ∉ supported) /\
      tls_signature p n o message s answer.
Proof.
  intros H Hk. unfold build_server_config in H. take_ok H as chain' Ec. take_ok H as vs Ev. take_ok H as vo Eo.
  destruct (starts_with _ _); [|take_ok H as key Ekey; take_ok H as s Es; injection H as <-; done].
  take_ok H as h Eh. apply ok_or_Ok in Eh. take_ok H as l El. apply map_err_Ok in El.
  take_ok H as leaf Elf. apply ok_or_Ok in Elf. take_ok H as a Ea. apply map_err_Ok in Ea.
  take_ok H as u Eu. apply map_err_Ok in Eu. injection H as <-. cbn [sc_key] in Hk. injection Hk as <- <-.
  pose proof Eu as Ev2. unfold verify_tls_key in Ev2. rewrite Ea in Ev2. cbn [obind] in Ev2.
  destruct (probe_scheme a) as [[scheme md]|] eqn:Ep; [|done].
  take_ok Ev2 as b Eb. apply of_lib_Ok in Eb. take_ok Ev2 as sig Es. take_ok Ev2 as public Epub. apply of_lib_Ok in Epub.
  take_ok Ev2 as ok Eok. apply of_lib_Ok in Eok. destruct ok; [|done].
  destruct (tls_key_signs _ _ _ _ _ _ El Es) as (params & p & n & o & Hpar & Hp & Hn & Ho & Hsig).
  exists h, leaf, params, p, n, o, b, public, scheme, md, sig. split_and!; try done.
  intros offered s message answer Hc Hs. split.
  - unfold choose_scheme in Hc. cbn [sk_algorithm] in Hc. cbn [sk_algorithm]. destruct (supported_schemes a) as [sup|]; [|done].
    destruct (find_first (fun s => bool_decide (s ∈ sup)) offered) as [(i & x & Hx & Hi & Hin & Hj)|[Hx _]];
      rewrite Hx in Hc; [injection Hc as ->|done]. apply bool_decide_eq_true in Hin.
    exists sup, i. split_and!; [done..|]. intros j Hlt. destruct (Hj j Hlt) as (y & Hy & Hn').
    apply bool_decide_eq_false in Hn'. by exists y.
  - unfold signer_sign in Hs. cbn in Hs. apply map_err_Ok in Hs.
    destruct (tls_key_signs _ _ _ _ _ _ El Hs) as (params' & p' & n' & o' & Hpar' & Hp' & Hn' & Ho' & Hsig'). simplify_eq.
    rewrite Hpar in Hpar'. injection Hpar' as <-. replace o with o'; [done|]. apply Ho. by apply Ho'.
Qed.

(** A signature of a handshake under ML-DSA counts only for a certificate of
    that very parameter set. *)
Lemma ml_dsa_certificate message cert l sig :
  verify_tls13_signature message cert (ML_DSA_SCHEME l, sig) = Ok tt ->
  exists c, cert_from_der cert = inl c /\ cert_key_algorithm c = ml_dsa_oid l /\
    verify_ml_dsa_tls13 message cert (ML_DSA_SCHEME l, sig) = inl tt.
Proof.
  unfold verify_tls13_signature. cbn [fst]. intros H. take_ok H as c Ec. apply of_lib_Ok in Ec.
  case_bool_decide; cbn [negb] in H; [|done]. exists c. split_and!; [done..|].
  by destruct (verify_ml_dsa_tls13 _ _ _) as [[]|].
Qed.
End TlsProps.

(** ** Stapling *)

Section StaplingProps.
Context `{HX : X509Lib} `{HO : !OcspLib} `{HD : Decoder}.
Variable basic_response_from_der : bytes -> BasicResponse + string.
Variable sha256 : bytes -> bytes.

(** A stapler without a URL of its own never has a response. *)
Lemma stapling_needs_url s http rd now : stapling_responder_url (stapler_config s) = None -> response s = None ->
  response (refresh_once basic_response_from_der sha256 s http rd now) = None.
Proof. unfold refresh_once, fetch_ocsp_response. intros -> Hn. cbn. by destruct (stapling_soft_fail _). Qed.

(** Refreshes that fail leave the response as it is where failing is soft,
    whatever time its next update was due. *)
Lemma soft_fail_keeps s l :
  stapling_soft_fail (stapler_config s) = true ->
  Forall (fun i : (string -> bytes -> HttpReply) * OcspReadings * Z =>
    forall r, fetch_ocsp_response basic_response_from_der sha256 s i.1.1 i.1.2 i.2 <> Ok r) l ->
  run_steps (fun s i => refresh_once basic_response_from_der sha256 s i.1.1 i.1.2 i.2) s l = s.
Proof.
  intros Hs H. induction H as [|[[http rd] now] l H _ IH]; [done|]. cbn in *.
  unfold refresh_once at 2. destruct (fetch_ocsp_response _ _ _ _ _ _) as [r|e|]; [by destruct (H r)|by rewrite Hs..].
Qed.
End StaplingProps.

(** ** Examples *)

(** WebPKI accepts certificates whose first byte is 1, and does not know the
    algorithm of those with a 9, which the post-quantum policy accepts. *)
#[local] Instance example_rustls : RustlsLib := {
  WebPki := bool;
  root_store_add _ := None;
  PkiBuilder := bool;
  web_pki_builder _ := true;
  allow_unauthenticated _ := false;
  web_pki_build := inl;
  web_pki_verify _ leaf _ _ :=
    match leaf with
    | 1 :: _ => inl tt
    | 9 :: _ => inr (UnsupportedSignatureAlgorithm EmptyString)
    | _ => inr (OtherTlsError "UnknownIssuer")
    end;
  web_pki_mandatory required := required;
  OwnedStore := unit;
  owned_store _ := inl tt;
  store_verify _ _ _ _ := inl tt;
  verify_tls12 _ _ _ := inl tt;
  verify_tls13 _ _ _ := inl tt;
  verify_ml_dsa_tls13 _ _ _ := inl tt;
  supported_sig_algs := [];
  cert_key_algorithm _ := [];
  ml_dsa_oid _ := [];
  PrivateKeyDer := unit;
  SingleCert := unit;
  with_single_cert _ _ := inl tt
}.
#[local] Instance example_web_pki : WebPkiLaws.
Proof. split; by intros roots v [= <-]. Defined.
Definition example_files : TlsFiles := MkTlsFiles (fun _ => None) (fun _ => inl [[1; 2; 3]]) (fun _ => inl (Some tt)).
Definition example_tls : TlsConfig :=
  MkTls true "cert.pem" "pkcs11:id=%00%ff;type=private" Required "clients.pem" "1.2" "1.3" [] ocsp_stapling_default.
Definition example_server : ServerConfig :=
  MkServerConfig [TLS12; TLS13] (Some (MkVerifier tt true))
    (HsmKey [[1; 2; 3]] (MkSigningKey example_hsm "TLS;key" (Rsa 2048))).
Definition example_build : outcome ServerConfig KipukaError :=
  build_server_config example_files (inl [4; 4]) example_tls (Some example_hsm).
Lemma example_built : example_build = Ok example_server.
Proof. vm_compute. reflexivity. Qed.

Lemma listener_admission_witness :
  admits example_server 0 None = false /\ admits example_server 0 (Some ([1], [])) = true /\
  admits example_server 0 (Some ([9], [])) = false /\ TLS12 ∈ sc_versions example_server.
Proof.
  destruct (listener_admission (fun s => s) example_files (inl [4; 4]) example_tls (Some example_hsm) example_server
    example_built) as ([H1 _] & _).
  split; [reflexivity|]. split; [reflexivity|]. split; [reflexivity|]. apply H1. reflexivity.
Defined.
Lemma module_key_is_certificates_witness :
  let k := MkSigningKey example_hsm "TLS;key" (Rsa 2048) in
  sc_key example_server = HsmKey [[1; 2; 3]] k /\
  choose_scheme k [OtherScheme 1; RSA_PKCS1 Sha_256] = Some (RSA_PKCS1 Sha_256) /\
  exists p n o, tls_signature p n o [8; 9] (RSA_PKCS1 Sha_256) [1; 8; 9].
Proof.
  cbv zeta. split; [reflexivity|]. split; [vm_compute; reflexivity|].
  destruct (module_key_is_certificates example_files (inl [4; 4]) example_tls (Some example_hsm) example_server [[1; 2; 3]]
    (MkSigningKey example_hsm "TLS;key" (Rsa 2048)) example_built eq_refl)
    as (h & leaf & params & p & n & o & b & public & scheme & md & sig & _ & _ & _ & _ & _ & _ & _ & _ & _ & _ & _ & _ & _ & H).
  exists p, n, o. refine (proj2 (H [OtherScheme 1; RSA_PKCS1 Sha_256] _ [8; 9] [1; 8; 9] _ _)); vm_compute; reflexivity.
Defined.
