(* ===== verification/Service.v ===== *)
(** * The server as a whole

    The calls that change the server's state, over HTTP ([est_router] of
    [src/routes/est.rs], [build_router] of [src/routes/mod.rs],
    [admin_router] of [src/routes/admin/mod.rs]), over CoAP, from the tasks
    that renew orders, refresh revocation lists and clean up, and at the end
    of [run] ([src/main.rs]), as one transition function: a call, with
    everything it reads from outside, takes the state to the next.  Every
    event that the server records goes to one audit trail. *)
From S2P Require Import Prelude Words Text Hsm Errors Calendar X509 Der DerReader Issuance AuditLog NameMatch EnrollAuthz FailureTracker BasicOtp Transfer HaPool CsrAttrs Enroll Labels Ocsp Revocation CmsAuth EstAuth Cmc KeyGen ServerKeygen CmsEst Cmp CoapBlock CoapRouter CoapServer CoapBridge StarManager StarRoutes RenewalInfo Admin AdminStatus Crl.
Open Scope Z_scope.

(** The parts of the configuration that are read when a call comes, and the
    module. *)
Record ServiceConfig `{Cryptoki} : Type := MkService {
  sv_app : AppConfig;
  sv_cmp : option CmpConfig;
  sv_star : option StarConfig;
  sv_renewal : RenewalConfig;
  sv_admin : option AdminConfig;
  sv_secrets : AdminSecrets;
  sv_otp : OtpConfig;
  sv_hsm_configured : bool;
  sv_module : option Hsm.HsmContext
}.
Arguments MkService {_}.

(** The state: what requests work on, the lockouts of logins, the one-time
    passwords and the next of their identifiers, the administrators' anchors,
    and the lists of the CAs. *)
Record ServerState : Type := MkServer {
  sv_state : StarState;
  sv_tracker : FailureTracker;
  sv_tokens : OtpTable;
  sv_next_otp : Z;
  sv_anchors : option (list bytes);
  sv_crls : gmap string (bytes * Z)
}.
Definition set_sv_state (s : ServerState) (st : StarState) : ServerState :=
  MkServer st (sv_tracker s) (sv_tokens s) (sv_next_otp s) (sv_anchors s) (sv_crls s).
Definition set_sv_tokens (s : ServerState) (t : OtpTable) : ServerState :=
  MkServer (sv_state s) (sv_tracker s) t (sv_next_otp s) (sv_anchors s) (sv_crls s).
(** The tables and the audit trail. *)
Definition tables (s : ServerState) : AppState := st_app (sv_state s).
(** What a login works on, and its result put back. *)
Definition login_view (enabled : bool) (s : ServerState) : OtpApp :=
  MkApp enabled (sv_tracker s) (sv_tokens s) (tables s).
Definition put_login (s : ServerState) (a : OtpApp) : ServerState :=
  MkServer (set_app (sv_state s) (otp_state a)) (failure_tracker a) (otp_tokens a) (sv_next_otp s) (sv_anchors s)
    (sv_crls s).
(** What administration works on, and its result put back. *)
Definition admin_view (s : ServerState) : AdminState :=
  MkAdminState (sv_anchors s) (tables s) (sv_tokens s) (sv_next_otp s).
Definition put_admin (s : ServerState) (a : AdminState) : ServerState :=
  MkServer (set_app (sv_state s) (ad_app a)) (sv_tracker s) (ad_tokens a) (ad_next_otp a) (ad_anchors a) (sv_crls s).

Section Service.
Context `{HL : X509Lib} `{HC : CmsOids} `{HE : Encoder} `{HA : !AttributeOids} `{HD : Decoder}
  `{HO : !OcspLib} `{HR : !CrlLib} `{HM : !CmsLib} `{HB : !CmcLib} `{HP : !CmpLib}
  `{HK : KeyGenLib} `{HS : !SskgLib} `{HT : StarText} `{HW : RenewalText}
  `{HQ : !CrlBuilderLib} `{HY : Cryptoki} `{HSL : !OpensslLib} `{HPR : OpensslProbe}.
Variable authz_reason : AuthzError -> string.
Variable debug : string -> string.
Variable to_lowercase : string -> string.
Variable b64_encode : bytes -> bytes.
Variable b64_decode : bytes -> bytes + string.
Variable sha2 : OwfKind -> bytes -> bytes.
Variable hmac : OwfKind -> bytes -> bytes -> bytes + string.
Variable resolved_secrets : gmap string string.
Variable secret_decode : string -> bytes + string.
Variable digest : option bytes -> bytes -> string.
Variable json_object : list (string * string) -> string.
Variable credentials_decode : string -> option bytes.
Variable b64url_encode : bytes -> string.
Variable sha256_hex : bytes -> string.
Variable rfc3339_millis : Z -> string.
Variable debug_option : option string -> string.
Variable display_utc : Z -> string.
Variable bounds : TimeBounds.

(** A call: its route, what it comes with, and what it reads. *)
Inductive Call : Type :=
  | CallCacerts (o : Outside) (l : LabelExtractor)
  | CallSimpleenroll (o : Outside) (auth : AuthResult) (l : LabelExtractor) (body : bytes)
  | CallSimplereenroll (o : Outside) (auth : AuthResult) (l : LabelExtractor) (body : bytes)
  | CallServerkeygen (o : SskgOutside) (auth : AuthResult) (l : LabelExtractor) (body : bytes)
  | CallFullcmc (o : CmcOutside) (auth : AuthResult) (l : LabelExtractor) (body : bytes)
  | CallCms (o : CmsOutside EncCoins) (op : CmsOperation) (l : LabelExtractor) (body : bytes)
  | CallCmp (o : CmpOutside) (body : bytes)
  | CallRenewalInfo (o : RenewalOutside) (cert_id : string)
  | CallStarOrder (o : StarOutside) (auth : AuthResult) (l : LabelExtractor) (headers : gmap string bytes) (body : bytes)
  | CallStarCancel (auth : AuthResult) (id : string) (update : option string) (db_now now : Z) (event : AuditCall)
  | CallCoap (w : CallWorld) (pool : option CaPool) (op : EstOperation) (label : option string) (payload : bytes)
      (content_format : option Z) (client_cert : option ClientCertInfo)
  (** a spawned event of the CoAP handler is written *)
  | CallCoapAudit (a : SpawnedAudit) (c : AuditCall)
  (** a cycle of the renewal task: what it reads for each order, and the clock
      of its clean-up and of its choice *)
  | CallRenewal (w : string -> RenewalReads) (now due : Z).

Definition serve_request (cfg : ServiceConfig) (s : StarState) (call : Call) : StarState :=
  let app := sv_app cfg in
  let a := st_app s in
  match call with
  | CallCacerts o l => set_app s (get_cacerts b64_encode digest json_object app o a l).1
  | CallSimpleenroll o auth l body =>
      set_app s (post_simpleenroll authz_reason b64_encode b64_decode digest json_object app o a auth l body).1
  | CallSimplereenroll o auth l body =>
      set_app s (post_simplereenroll authz_reason debug to_lowercase b64_encode b64_decode digest json_object
        app o a auth l body).1
  | CallServerkeygen o auth l body =>
      set_app s (post_serverkeygen authz_reason b64_encode b64_decode digest json_object app o a auth l body).1
  | CallFullcmc o auth l body =>
      set_app s (post_fullcmc authz_reason b64_encode b64_decode digest json_object app o a auth l body).1
  | CallCms o op l body =>
      set_app s (cms_est_router authz_reason to_lowercase b64_encode digest json_object app o op a l body).1
  | CallCmp o body =>
      set_app s (post_cmp sha2 hmac resolved_secrets secret_decode digest json_object app (sv_cmp cfg) o a body).1
  | CallRenewalInfo o cert_id =>
      set_app s (get_renewal_info digest json_object (sv_renewal cfg) o a cert_id).1
  | CallStarOrder o auth l headers body =>
      (post_star_order authz_reason b64_encode b64_decode digest json_object app (sv_star cfg) o s auth l headers body).1
  | CallStarCancel auth id update db_now now event =>
      (delete_star_order digest json_object (sv_star cfg) s auth id update db_now now event).1
  | CallCoap w pool op label payload cf cert =>
      set_app s (bridge_app (coap_handle authz_reason to_lowercase debug digest json_object app (fun _ => w)
        (MkBridge a pool [] 0) op label payload cf cert).1)
  | CallCoapAudit ev c => set_app s (run_spawned digest json_object a ev c)
  | CallRenewal w now due => (renewal_tick digest json_object app w now due s).1
  end.

(** The calls of the protocols, the attempts to log in with a one-time
    password, the calls of administrators and their status pages, the ticks
    of the tasks, and the event of the shutdown. *)
Inductive ServerCall : Type :=
  | Request (call : Call)
  | LoginAttempt (rd : Readings) (header : option string)
  | AdminCall (revocation : bytes -> outcome unit string) (rq : AdminRequest) (o : AdminOutside) (op : AdminOp)
  | StatusCall (revocation : bytes -> outcome unit string) (rq : AdminRequest) (o : StatusOutside) (op : StatusOp)
  | CrlTick (o : string -> CrlOutside)
  | CleanupTick (error : option string) (now : Z)
  | Shutdown (event : AuditCall).

(** A call of an administrator, with its answer. *)
Definition serve_admin (cfg : ServiceConfig) (s : ServerState) (revocation : bytes -> outcome unit string)
    (rq : AdminRequest) (o : AdminOutside) (op : AdminOp) : ServerState * outcome AdminAnswer Refusal :=
  let (a, r) := admin_serve digest json_object b64url_encode sha256_hex rfc3339_millis debug_option bounds
    to_lowercase display_utc (sv_admin cfg) (sv_secrets cfg) (sv_otp cfg) revocation rq o (admin_view s) op in
  (put_admin s a, r).

Definition stop_event : AuditEvent := with_detail (audit_event_new CaStop) "kipuka EST server stopped".

Definition serve (cfg : ServiceConfig) (s : ServerState) (call : ServerCall) : ServerState :=
  match call with
  | Request call => set_sv_state s (serve_request cfg (sv_state s) call)
  | LoginAttempt rd header =>
      put_login s (try_extract_otp digest json_object credentials_decode sha256_hex
        (login_view (otp_cfg_enabled (sv_otp cfg)) s) rd header).1
  | AdminCall revocation rq o op => (serve_admin cfg s revocation rq o op).1
  | StatusCall revocation rq o op =>
      put_admin s (status_serve digest json_object to_lowercase display_utc (sv_admin cfg) (sv_secrets cfg) (sv_app cfg)
        (sv_hsm_configured cfg) (sv_module cfg) revocation rq o (admin_view s) op).1
  | CrlTick o =>
      let (a, crls) := refresh_tick digest json_object (sv_app cfg) o (tables s) (sv_crls s) in
      MkServer (set_app (sv_state s) a) (sv_tracker s) (sv_tokens s) (sv_next_otp s) (sv_anchors s) crls
  | CleanupTick error now => set_sv_tokens s (otp_cleanup error now (sv_tokens s))
  | Shutdown event =>
      set_sv_state s (set_app (sv_state s) (with_audit (tables s)
        (record digest json_object (app_audit_db (tables s)) (app_audit (tables s)) stop_event (call_faults event)
           (call_time event))))
  end.

Definition serve_all (cfg : ServiceConfig) : ServerState -> list ServerCall -> ServerState :=
  run_steps (serve cfg).
End Service.
