(* ===== verification/ServiceSpec.v ===== *)
(** * Invariants of the whole server

    Of Service.v: every call, of any protocol, is a sequence of four kinds of
    change, so what those preserve holds of the server in every state it
    reaches. *)
From S2P Require Import Prelude Words Text Hsm HsmSpec Errors Calendar X509 Der ExampleLibs DerReader Issuance IssuanceSpec AuditLog AuditSpec NameMatch EnrollAuthz FailureTracker BasicOtp Transfer HaPool CsrAttrs Enroll EnrollSpec Labels Ocsp Revocation CmsAuth EstAuth Cmc KeyGen ServerKeygen CmsEst Cmp CoapBlock CoapRouter CoapServer CoapBridge StarManager StarRoutes RenewalInfo Admin AdminSpec AdminStatus OtpLife Crl Service OcspSpec ReaderExample RevocationSpec CmsAuthSpec CmcSpec ServerKeygenSpec CmpSpec StarRoutesSpec.
Open Scope Z_scope.
#[local] Existing Instance example_crl_lib.

(** A row stays as it is, or is revoked; once revoked it stays as it is. *)
Definition revoked_with (r : CertRow) (reason time : option string) : CertRow :=
  MkCertRow (cr_serial r) (cr_subject_dn r) (cr_issuer_dn r) (cr_not_before r) (cr_not_after r) (cr_der r)
    (cr_ca_id r) (cr_profile r) "revoked" reason time.
Definition row_later (a b : CertRow) : Prop :=
  b = a \/ cr_status a <> "revoked"%string /\ exists reason time, b = revoked_with a reason time.

Lemma row_later_trans a b c : row_later a b -> row_later b c -> row_later a c.
Proof.
  intros [->|[Ha (x & y & ->)]] Hc; [done|]. destruct Hc as [->|[Hb _]]; [by right; eauto|]. by destruct Hb.
Qed.
Lemma row_later_serial a b : row_later a b -> cr_serial b = cr_serial a.
Proof. by intros [->|[_ (x & y & ->)]]. Qed.

Lemma revoke_row_later x r : row_later r (revoke_row x r).
Proof.
  unfold revoke_row. destruct (String.eqb (cr_serial r) x); [|by left].
  destruct (decide (cr_status r = "revoked"%string)) as [E|E]; [left|right; split; [done|by do 2 eexists]].
  rewrite <- E at 1. by destruct r.
Qed.
Lemma admin_revoke_row_later x reason now r : row_later r (admin_revoke_row x reason now r).
Proof.
  unfold admin_revoke_row, admin_revokes. destruct (String.eqb (cr_serial r) x); [|by left]. cbn [andb].
  destruct (String.eqb_spec (cr_status r) "revoked"); cbn [negb]; [by left|]. right. split; [done|]. by do 2 eexists.
Qed.

(** A row that is active has no time of revocation. *)
Definition active_status (r : CertRow) : Prop := cr_status r = "active"%string /\ cr_revocation_time r = None.

Section Changes.
Variable digest : option bytes -> bytes -> string.
Variable json_object : list (string * string) -> string.

(** ** The changes *)

Inductive change : AppState -> AppState -> Prop :=
  | change_audit s op :
      change s (with_audit s (audit_op_step digest json_object (app_audit_db s) (app_audit s) op))
  | change_insert s row : Forall (fun q => cr_serial q <> cr_serial row) (certificates s) ->
      active_status row -> change s (set_certificates s (certificates s ++ [row]))
  | change_revoke s f : (forall r, row_later r (f r)) ->
      change s (set_certificates s (map f (certificates s)))
  | change_queue s l : change s (set_pending s (pending_csrs s ++ l)).
Definition changes : AppState -> AppState -> Prop := rtc change.

Lemma changes_refl s : changes s s.
Proof. apply rtc_refl. Qed.
Lemma changes_trans s1 s2 s3 : changes s1 s2 -> changes s2 s3 -> changes s1 s3.
Proof. unfold changes. intros H1 H2. by etrans. Qed.
Lemma changes_once s1 s2 : change s1 s2 -> changes s1 s2.
Proof. apply rtc_once. Qed.

(** ** The steps of handlers *)

Lemma event_changes s ty d c : changes s (record_audit_event digest json_object s ty d c).
Proof. apply changes_once. exact (change_audit s (AuditRecord _ (call_faults c) (call_time c))). Qed.
Lemma actor_event_changes s ty a d c : changes s (record_audit_event_with_actor digest json_object s ty a d c).
Proof. apply changes_once. exact (change_audit s (AuditRecord _ (call_faults c) (call_time c))). Qed.

Lemma checked_changes s ev f ts db st r :
  record_checked digest json_object (app_audit_db s) (app_audit s) ev f ts = (db, st, r) ->
  changes s (with_audit s (db, st)).
Proof.
  intros E. apply changes_once. pose proof (change_audit s (AuditRecord ev f ts)) as H.
  cbn [audit_op_step] in H. unfold record in H. by rewrite E in H.
Qed.

Lemma admission_changes s i op c s' r :
  admit_enrollment digest json_object s i op c = (s', r) -> changes s s'.
Proof.
  unfold admit_enrollment. destruct (record_checked _ _ _ _ _ _ _) as [[db st] ra] eqn:E. intros [= <- _].
  by eapply checked_changes.
Qed.

Lemma insert_changes s failed row s' b :
  active_status row -> insert_certificate s failed row = (s', b) -> changes s s'.
Proof.
  intros Hst. unfold insert_certificate. destruct (failed || existsb _ _) eqn:E; intros [= <- <-]; [apply changes_refl|].
  apply changes_once, change_insert; [|done]. apply orb_false_iff in E as [_ E]. apply Forall_forall. intros q Hq Heq.
  rewrite <- not_true_iff_false, existsb_exists in E. apply E. exists q.
  split; [by apply list_elem_of_In|]. by apply String.eqb_eq.
Qed.

Context `{X509Lib}.
Lemma persist_on_changes s f ca_id p r s' res :
  persist_certificate_on s f ca_id p r = (s', res) -> changes s s'.
Proof.
  unfold persist_certificate_on. destruct (cert_from_der _) as [cert|e]; [|intros [= <- _]; apply changes_refl].
  destruct (insert_certificate _ _ _) as [s1 b] eqn:E. apply insert_changes in E; [|done].
  by destruct b; intros [= <- _].
Qed.

Lemma persist_changes s f c ca_id p r s' res :
  persist_certificate digest json_object s f c ca_id p r = (s', res) -> changes s s'.
Proof.
  unfold persist_certificate. destruct (persist_certificate_on _ _ _ _ _) as [s1 r1] eqn:E.
  apply persist_on_changes in E. destruct r1 as [[]|e|]; [|by intros [= <- _]..].
  destruct (record_checked _ _ _ _ _ _ _) as [[db st] ra] eqn:Er. intros [= <- _].
  eapply changes_trans; [exact E|]. by eapply checked_changes.
Qed.

(** One issuance record in a transaction, committed or not. *)
Lemma transaction_changes s tx_db ca d f ts st r :
  record_issuance_in_transaction digest json_object (app_audit_db s) (app_audit s) ca d f ts = (tx_db, st, r) ->
  match r with
  | Ok _ => forall db st' r', commit_issuance (app_audit_db s) tx_db st f = (db, st', r') ->
      changes s (with_audit s (db, st'))
  | _ => changes s (with_audit s (app_audit_db s, st))
  end.
Proof.
  intros E. pose proof (change_audit s (AuditIssue [(ca, d, ts)] f)) as Hc.
  cbn [audit_op_step] in Hc. unfold issue_transaction in Hc. cbn [issue_records] in Hc. rewrite E in Hc.
  destruct r as [[]|e|]; [|by apply changes_once..]. intros db st' r' Ec. rewrite Ec in Hc. by apply changes_once.
Qed.
End Changes.

(** ** Invariants *)

(** The serial number is unique, the status one of the two, and of an active
    row there is no time of revocation; the identifiers
    of the trail are in order, and if it drops nothing its chain verifies. *)
Record well_formed (digest : option bytes -> bytes -> string) (s : AppState) : Prop := {
  wf_serials : NoDup (map cr_serial (certificates s));
  wf_status : Forall (fun r => active_status r \/ cr_status r = "revoked"%string) (certificates s);
  wf_ids : ids_ok (app_audit_db s);
  wf_chain : keeps_rows (audit_config (app_audit s)) ->
    verify_rows digest (app_audit s) None (audit_rows (app_audit_db s)) = None
}.

(** What may happen to a state: nothing is removed. *)
Record evolves (s s' : AppState) : Prop := {
  ev_rows : exists old new, certificates s' = old ++ new /\ Forall2 row_later (certificates s) old;
  ev_queue : pending_csrs s `prefix_of` pending_csrs s';
  ev_setup : same_setup (app_audit s) (app_audit s');
  ev_trail : keeps_rows (audit_config (app_audit s)) -> ids_ok (app_audit_db s) ->
    audit_rows (app_audit_db s) `prefix_of` audit_rows (app_audit_db s')
}.

Lemma revoke_row_serial x r : cr_serial (revoke_row x r) = cr_serial r.
Proof. apply row_later_serial, revoke_row_later. Qed.

Lemma rows_later_refl l : Forall2 row_later l l.
Proof. induction l; constructor; [by left|done]. Qed.

Lemma evolves_refl s : evolves s s.
Proof.
  split; [|done..]. exists (certificates s), []. rewrite app_nil_r. split; [done|apply rows_later_refl].
Qed.

Section Invariants.
Variable digest : option bytes -> bytes -> string.
Variable json_object : list (string * string) -> string.
Abbreviation change := (change digest json_object).
Abbreviation well_formed := (well_formed digest).

(** What a sequence of writes does to the trail. *)
Lemma writes_trail st db db' :
  rtc (one_write digest json_object st) db db' -> ids_ok db ->
  ids_ok db' /\ (keeps_rows (audit_config st) ->
    audit_rows db `prefix_of` audit_rows db' /\
    (verify_rows digest st None (audit_rows db) = None -> verify_rows digest st None (audit_rows db') = None)).
Proof.
  induction 1 as [db|a b c Hw _ IH]; intros Hi; [done|].
  assert (Hb : ids_ok b).
  { destruct Hw as (st' & ev & f & ts & _ & E). by destruct (write_event_spec _ _ _ _ _ _ _ _ Hi E) as [? _]. }
  destruct (IH Hb) as [Hc Hk]. split; [done|]. intros Hkeep. destruct (Hk Hkeep) as [Hp Hv].
  destruct (one_write_appends digest json_object st a b Hkeep Hi Hw) as [_ (r & Hr & Hok)]. rewrite Hr in *. split.
  - etrans; [by apply prefix_app_r|exact Hp].
  - intros Ha. apply Hv, verify_rows_snoc. by split.
Qed.

Lemma change_inv s s' : change s s' -> well_formed s -> well_formed s' /\ evolves s s'.
Proof.
  intros Hch [Hn Hst Hids Hchain]. destruct Hch as [s op|s row Hf Hrow|s f Hlater|s l].
  - destruct (op_step_writes digest json_object (app_audit_db s) (app_audit s) op) as [Hset Hw].
    destruct (audit_op_step digest json_object (app_audit_db s) (app_audit s) op) as [db st]. cbn [fst snd] in Hset, Hw.
    destruct (writes_trail _ _ _ Hw Hids) as [Hids' Hk]. pose proof Hset as [Hcfg Hkey]. split; split; cbn; try done.
    + intros Hkeep. rewrite Hcfg in Hkeep. destruct (Hk Hkeep) as [_ Hv].
      apply (verify_rows_key digest (app_audit s)); [done|]. by apply Hv, Hchain.
    + exists (certificates s), []. rewrite app_nil_r. split; [done|apply rows_later_refl].
    + intros Hkeep _. by apply (Hk Hkeep).
  - split; split; cbn; try done.
    + rewrite map_app. apply NoDup_app. split; [done|]. split; [|apply NoDup_singleton].
      intros x Hx ->%list_elem_of_singleton. apply list_elem_of_fmap in Hx as (q & Hq & Hin).
      rewrite Forall_forall in Hf. by apply (Hf q Hin).
    + apply Forall_app. split; [done|]. apply Forall_singleton. by left.
    + exists (certificates s), [row]. split; [done|apply rows_later_refl].
  - split; split; cbn; try done.
    + rewrite map_map. erewrite map_ext; [exact Hn|]. intros r. apply row_later_serial, Hlater.
    + apply Forall_map. eapply Forall_impl; [exact Hst|]. intros r Hr.
      destruct (Hlater r) as [->|[_ (x & y & ->)]]; [done|by right].
    + exists (map f (certificates s)), []. rewrite app_nil_r. split; [done|].
      clear -Hlater. induction (certificates s); constructor; [apply Hlater|done].
  - split; split; cbn; try done.
    + exists (certificates s), []. rewrite app_nil_r. split; [done|apply rows_later_refl].
    + by apply prefix_app_r.
Qed.

Lemma evolves_trans s1 s2 s3 :
  ids_ok (app_audit_db s2) -> evolves s1 s2 -> evolves s2 s3 -> evolves s1 s3.
Proof.
  intros Hi [(o1 & n1 & E1 & F1) Q1 S1 T1] [(o2 & n2 & E2 & F2) Q2 S2 T2]. split.
  - rewrite E1 in F2. apply Forall2_app_inv_l in F2 as (a & b & Fa & Fb & ->). exists a, (b ++ n2).
    split; [by rewrite E2, app_assoc|]. clear -F1 Fa. revert a Fa. induction F1 as [|x y l l' Hxy _ IH]; intros a Fa.
    + by apply Forall2_nil_inv_l in Fa as ->.
    + apply Forall2_cons_inv_l in Fa as (z & a' & Hz & Fa & ->). constructor; [by eapply row_later_trans|by apply IH].
  - by etrans.
  - by eapply same_setup_trans.
  - intros Hk Hi1. etrans; [by apply T1|]. apply T2; [|done]. destruct S1 as [-> _]. exact Hk.
Qed.

Lemma changes_inv s s' : changes digest json_object s s' -> well_formed s -> well_formed s' /\ evolves s s'.
Proof.
  induction 1 as [s|a b c Hab _ IH]; intros Hw; [split; [done|apply evolves_refl]|].
  destruct (change_inv _ _ Hab Hw) as [Hwb Hev]. destruct (IH Hwb) as [Hwc Hev']. split; [done|].
  eapply evolves_trans; [apply Hwb|done..].
Qed.
End Invariants.

(** ** Every call is such a sequence *)

Section Handlers.
Context `{HL : X509Lib} `{HC : CmsOids} `{HE : Encoder} `{HA : !AttributeOids} `{HD : Decoder}
  `{HO : !OcspLib} `{HR : !CrlLib} `{HM : !CmsLib} `{HB : !CmcLib} `{HP : !CmpLib}
  `{HK : KeyGenLib} `{HS : !SskgLib} `{HT : StarText} `{HW : RenewalText}
  `{HQ : !CrlBuilderLib} `{HY : Cryptoki} `{HSL : !OpensslLib} `{HPR : OpensslProbe}.
Variable authz_reason : AuthzError -> string.
Variable debug : string -> string.
Variable to_lowercase : string -> string.
Variable b64_encode : bytes -> bytes.
Variable b64_decode : bytes -> bytes + string.
Variable sha2 : OwfKind -> bytes -> bytes.
Variable hmac : OwfKind -> bytes -> bytes -> bytes + string.
Variable resolved_secrets : gmap string string.
Variable secret_decode : string -> bytes + string.
Variable digest : option bytes -> bytes -> string.
Variable json_object : list (string * string) -> string.
Variable credentials_decode : string -> option bytes.
Variable b64url_encode : bytes -> string.
Variable sha256_hex : bytes -> string.
Variable rfc3339_millis : Z -> string.
Variable debug_option : option string -> string.
Variable display_utc : Z -> string.
Variable bounds : TimeBounds.

Abbreviation changes := (changes digest json_object).

(** A handler's result: what it did to the state. *)
Definition runs {T} (s : AppState) (r : AppState * T) : Prop := changes s r.1.

Lemma runs_sbind {T U E} s (c : AppState * outcome T E) (k : AppState -> T -> AppState * outcome U E) :
  runs s c -> (forall s1 t, runs s1 (k s1 t)) -> runs s (sbind c k).
Proof.
  unfold runs. intros Hc Hk. destruct c as [s1 [t|e|]]; cbn [sbind fst] in *; [|done..].
  eapply changes_trans; [exact Hc|apply Hk].
Qed.
Lemma runs_pure {T} s (x : T) : runs s (s, x).
Proof. apply changes_refl. Qed.
Lemma runs_trans {T} s s1 (r : AppState * T) : changes s s1 -> runs s1 r -> runs s r.
Proof. apply changes_trans. Qed.

(** Chain the steps whose equations are at hand, from the last state back. *)
Ltac chain :=
  lazymatch goal with
  | |- changes ?s ?s => apply changes_refl
  | |- changes _ (record_audit_event _ _ _ _ _ _) => eapply changes_trans; [|apply event_changes]; chain
  | |- changes _ (record_audit_event_with_actor _ _ _ _ _ _ _) =>
      eapply changes_trans; [|apply actor_event_changes]; chain
  | |- changes _ (fst (insert_certificate ?s ?f ?r)) =>
      eapply changes_trans; [|eapply (insert_changes _ _ s f r); [by split|apply surjective_pairing]]; chain
  | |- changes _ (set_pending _ _) => eapply changes_trans; [|apply changes_once, change_queue]; chain
  | E : ?f = (?s1, _) |- changes _ ?s1 =>
      eapply changes_trans;
        [|first [exact (admission_changes _ _ _ _ _ _ _ _ E) | exact (persist_changes _ _ _ _ _ _ _ _ _ _ E)
                |exact (persist_on_changes _ _ _ _ _ _ _ _ _ E)
                |eapply insert_changes; [|exact E]; by split
                |match goal with H : runs _ f |- _ => unfold runs in H; rewrite E in H; exact H end]]; chain
  | |- _ => idtac
  end.
Ltac take_branches :=
  repeat match goal with
  | |- context [match obind ?c ?k with _ => _ end] => destruct (obind c k) eqn:?
  | |- context [match ?x with _ => _ end] =>
      lazymatch x with context [match _ with _ => _ end] => fail | _ => destruct x eqn:? end
  end.
Ltac follow := unfold runs; cbv zeta; take_branches; cbn [fst]; chain.

Lemma get_cacerts_runs app o s l : runs s (get_cacerts b64_encode digest json_object app o s l).
Proof. unfold get_cacerts. follow. Qed.

Lemma issue_or_forward_runs app o s csr ca i op :
  runs s (issue_or_forward b64_encode digest json_object app o s csr ca i op).
Proof.
  assert (Hd : runs s (enroll_with_dogtag b64_encode digest json_object app o s csr ca i op))
    by (unfold enroll_with_dogtag; follow).
  unfold issue_or_forward. destruct (enroll_with_dogtag _ _ _ _ _ _ _ _ _ _) as [s1 [[resp|]|e|]]; try exact Hd.
  eapply runs_trans; [exact Hd|]. clear. unfold direct_signing. follow.
Qed.

Lemma simpleenroll_runs app o s auth l body :
  runs s (post_simpleenroll authz_reason b64_encode b64_decode digest json_object app o s auth l body).
Proof.
  unfold post_simpleenroll. cbv zeta.
  destruct (admit_enrollment _ _ _ _ _ _) as [s1 [[]|e|]] eqn:E; [|follow..].
  apply admission_changes in E. eapply runs_trans; [exact E|]. clear E.
  unfold defer. pose proof (issue_or_forward_runs app o s1) as Hi. follow. all: apply Hi.
Qed.

Lemma simplereenroll_runs app o s auth l body :
  runs s (post_simplereenroll authz_reason debug to_lowercase b64_encode b64_decode digest json_object app o s auth l body).
Proof.
  unfold post_simplereenroll. cbv zeta. destruct (auth_method auth); try apply runs_pure.
  destruct (admit_enrollment _ _ _ _ _ _) as [s1 [[]|e|]] eqn:E; [|follow..].
  apply admission_changes in E. eapply runs_trans; [exact E|]. clear E.
  pose proof (issue_or_forward_runs app o s1) as Hi. follow. all: apply Hi.
Qed.

Lemma serverkeygen_runs app o s auth l body :
  runs s (post_serverkeygen authz_reason b64_encode b64_decode digest json_object app o s auth l body).
Proof.
  unfold post_serverkeygen. cbv zeta.
  destruct (admit_enrollment _ _ _ _ _ _) as [s1 [[]|e|]] eqn:E; [|follow..].
  apply admission_changes in E. eapply runs_trans; [exact E|]. clear E.
  destruct (decode_template _ _ _) as [csr|e|]; [|apply runs_pure..].
  destruct (authorize_csr_der _ _ _ _ _ _) as [[]|e|]; [|follow..].
  destruct (get_ca _ _) as [ca|]; [|apply runs_pure]. destruct (sk_dogtag o) as [d|].
  - unfold dogtag_keygen. destruct (sskg_enroll d csr _) as [[[[r pr] cn] pw]|e|]; [|apply runs_pure..].
    destruct (pkcs12_b64 r); [follow|].
    assert (Hk : runs s1 (from_kra digest json_object o s1 d r (label_ca l) (auth_identity auth) cn)).
    { unfold from_kra.
      follow. }
    destruct (from_kra _ _ _ _ _ _ _ _ _) as [s2 keyed]. eapply runs_trans; [exact Hk|]. clear Hk. follow.
  - unfold software_keygen. follow.
Qed.

(** *** CMC and CMS *)

Lemma process_entries_runs entries ca key p policy ca_id i l : forall n s t,
  runs s (process_entries authz_reason digest json_object entries n s t ca key p policy ca_id i l).
Proof.
  induction l as [|e l IH]; intros n s t; cbn [process_entries]; [apply runs_pure|].
  assert (He : runs s (process_entry authz_reason digest json_object (entries n) s t ca key p policy ca_id i e)).
  { unfold process_entry. follow. }
  destruct (process_entry _ _ _ _ _ _ _ _ _ _ _ _ _) as [s1 [t1|x|]]; [|exact He..].
  eapply runs_trans; [exact He|apply IH].
Qed.

Lemma fullcmc_runs app o s auth l body :
  runs s (post_fullcmc authz_reason b64_encode b64_decode digest json_object app o s auth l body).
Proof.
  unfold post_fullcmc. cbv zeta.
  destruct (admit_enrollment _ _ _ _ _ _) as [s1 [[]|e|]] eqn:E; [|follow..].
  apply admission_changes in E. eapply runs_trans; [exact E|]. clear E.
  destruct (accept_fullcmc _ _ _ _) as [der|e|]; [|apply runs_pure..]. destruct (fc_dogtag o); [follow|].
  destruct (get_ca _ _) as [ca|]; [|apply runs_pure].
  unfold local_fullcmc. cbv zeta. destruct (prepare_cmc _ _ _ _ _) as [[[data key] reqs]|e|]; [|apply runs_pure..].
  match goal with |- context [process_entries _ _ _ ?en ?n ?s ?t ?ca ?k ?p ?po ?ci ?i ?l] =>
    pose proof (process_entries_runs en ca k p po ci i l n s t) as Hp end.
  destruct (process_entries _ _ _ _ _ _ _ _ _ _ _ _ _ _) as [s2 [t|e|]]; [|exact Hp..].
  eapply runs_trans; [exact Hp|]. clear Hp. follow.
Qed.

Lemma issue_from_csr_runs app io s ca_id csr :
  runs s (issue_certificate_from_csr digest json_object app io s ca_id csr).
Proof.
  unfold issue_certificate_from_csr. apply runs_sbind; [apply runs_pure|]. intros s1 [name r].
  apply runs_sbind; [|intros; apply runs_pure].
  match goal with |- runs s1 ?c => destruct c as [s2 x] eqn:E end. by apply persist_changes in E.
Qed.

Lemma authorize_or_deny_runs s o op l i csr :
  runs s (authorize_or_deny authz_reason digest json_object s o op l i csr).
Proof. unfold authorize_or_deny, denied. follow. Qed.

Lemma finish_cms_runs s o op ca_id i content : runs s (finish_cms digest json_object s o op ca_id i content).
Proof. unfold finish_cms. follow. Qed.

Lemma issue_or_deny_runs app s o op l i csr : runs s (issue_or_deny digest json_object app s o op l i csr).
Proof.
  unfold issue_or_deny. pose proof (issue_from_csr_runs app (ce_issue o 0) s (label_ca l) csr) as H.
  destruct (issue_certificate_from_csr _ _ _ _ _ _ _) as [s1 [c|e|]]; [exact H| |exact H].
  eapply runs_trans; [exact H|]. clear H. unfold denied. follow.
Qed.

Lemma cms_enroll_runs app o op s l cfg r i :
  runs s (cms_enroll authz_reason to_lowercase digest json_object app o op s l cfg r i).
Proof.
  unfold cms_enroll. do 2 (apply runs_sbind; [apply runs_pure|intros ? _]).
  apply runs_sbind; [apply authorize_or_deny_runs|intros ? _].
  apply runs_sbind; [apply issue_or_deny_runs|intros ? cert].
  apply runs_sbind; [apply runs_pure|intros ? content]. apply finish_cms_runs.
Qed.

Lemma cms_keygen_runs app o s l cfg r i :
  runs s (post_cms_serverkeygen authz_reason b64_encode digest json_object app o s l cfg r i).
Proof.
  unfold post_cms_serverkeygen. apply runs_sbind; [apply authorize_or_deny_runs|intros ? _].
  apply runs_sbind; [apply runs_pure|intros ? [g csr]]. apply runs_sbind; [apply issue_from_csr_runs|intros ? cert].
  apply runs_sbind; [apply runs_pure|intros ? content]. apply finish_cms_runs.
Qed.

Lemma cms_entries_runs app ios l i es : forall n s t,
  runs s (cms_entries authz_reason digest json_object app ios n s l i t es).
Proof.
  induction es as [|e es IH]; intros n s t; cbn [cms_entries]; [apply runs_pure|].
  apply runs_sbind; [|intros; apply IH]. unfold cms_entry. destruct (request_type e =? 0); [|apply runs_pure].
  apply runs_sbind; [apply runs_pure|intros s1 _].
  pose proof (issue_from_csr_runs app (ios n) s1 (label_ca l) (request_der e)) as H.
  by destruct (issue_certificate_from_csr _ _ _ _ _ _ _) as [s2 [c|x|]].
Qed.

Lemma cms_fullcmc_runs app o s l cfg r i :
  runs s (post_cms_fullcmc authz_reason digest json_object app o s l cfg r i).
Proof.
  unfold post_cms_fullcmc. apply runs_sbind; [apply runs_pure|intros ? [data reqs]].
  apply runs_sbind; [apply cms_entries_runs|intros ? t]. apply runs_sbind; [apply runs_pure|intros ? content].
  apply finish_cms_runs.
Qed.

Lemma cms_runs app o op s l body :
  runs s (cms_est_router authz_reason to_lowercase b64_encode digest json_object app o op s l body).
Proof.
  unfold cms_est_router. apply runs_sbind; [apply runs_pure|intros s1 [[cfg r] auth]].
  apply runs_sbind.
  - match goal with |- runs s1 ?c => destruct c as [s2 x] eqn:E end. by apply admission_changes in E.
  - intros s2 _. destruct op; [apply cms_enroll_runs|apply cms_enroll_runs|apply cms_keygen_runs|apply cms_fullcmc_runs].
Qed.

(** *** CMP *)

Lemma revoke_all_runs o snd details : forall i s, runs s (revoke_all digest json_object o s snd i details).
Proof.
  induction details as [|d ds IH]; intros i s; cbn [revoke_all]; [apply runs_pure|]. cbv zeta.
  match goal with |- context [obind ?c ?k] => destruct (obind c k) as [serial|e|] end; [|apply runs_pure..].
  destruct (update_error o i); [apply runs_pure|].
  set (s1 := record_audit_event _ _ _ _ _ _).
  assert (Hs : changes s s1).
  { eapply changes_trans; [apply changes_once, change_revoke; intros r; apply revoke_row_later|apply event_changes]. }
  pose proof (IH (S i) s1) as H. destruct (revoke_all _ _ _ s1 _ _ _) as [s2 [x|e|]]; (eapply runs_trans; [exact Hs|]); exact H.
Qed.

Lemma cmp_runs app cmp o s body :
  runs s (post_cmp sha2 hmac resolved_secrets secret_decode digest json_object app cmp o s body).
Proof.
  unfold post_cmp. cbv zeta. destruct cmp as [config|]; [|apply runs_pure].
  destruct (negb _); [apply runs_pure|]. destruct (accept_cmp _ _ _ _ _ _ _ _ _) as [[req rt]|e|]; [|apply runs_pure..].
  destruct (admit_enrollment _ _ _ _ _ _) as [s1 [[]|e|]] eqn:E; [|follow..].
  apply admission_changes in E. eapply runs_trans; [exact E|]. clear E.
  assert (He : forall ty, runs s1 (process_enrollment_request digest json_object app o s1 req ty)).
  { intros ty. unfold process_enrollment_request. follow. }
  assert (Hr : runs s1 (process_revocation_request digest json_object o s1 req)).
  { unfold process_revocation_request. cbv zeta. destruct (protection req) as [alg cert|alg]; [|apply runs_pure].
    match goal with |- context [obind ?c ?k] => destruct (obind c k) as [details|e|] end; [|apply runs_pure..].
    pose proof (revoke_all_runs o (sender req) details 0 s1) as H.
    by destruct (revoke_all _ _ _ _ _ _ _) as [s2 [x|e|]]. }
  assert (Hd : runs s1 (dispatch_cmp digest json_object app config o s1 req)).
  { unfold dispatch_cmp. destruct (message_type req); try apply runs_pure; try exact Hr;
      (destruct (negb _); [apply runs_pure|]); first [apply He|exact Hr]. }
  destruct (dispatch_cmp _ _ _ _ _ _ _) as [s2 [b|e|]]; [|exact Hd..]. eapply runs_trans; [exact Hd|].
  clear Hd He Hr. follow.
Qed.

Lemma renewal_info_runs config o s cert_id :
  runs s (get_renewal_info digest json_object config o s cert_id).
Proof. unfold get_renewal_info. follow. Qed.

(** *** STAR *)

Lemma set_app_app s a : st_app (set_app s a) = a.
Proof. done. Qed.

Lemma commit_order_changes o s row cert i ca_id p r s' res :
  commit_order digest json_object o s row cert i ca_id p r = (s', res) -> changes (st_app s) (st_app s').
Proof.
  unfold commit_order. cbv zeta. destruct (so_begin o); [intros [= <- _]; apply changes_refl|].
  match goal with |- context [obind ?c ?k] => destruct (obind c k) as [[orders certs]|e|] end;
    [|intros [= <- _]; apply changes_refl..].
  destruct (persist_certificate_on _ _ _ _ _) as [tx [[]|e|]] eqn:Ep; [|intros [= <- _]; apply changes_refl..].
  pose proof (persist_on_spec _ _ _ _ _ _ _ Ep) as (Hdb & Hau & _).
  apply (persist_on_changes digest json_object) in Ep.
  destruct (record_issuance_in_transaction _ _ _ _ _ _ _ _) as [[tx_db st] rr] eqn:Er.
  pose proof Er as Er'. rewrite Hdb, Hau in Er'. apply transaction_changes in Er, Er'.
  destruct rr as [[]|e|]; [|intros [= <- _]; exact Er'..].
  rewrite Hdb in Er. destruct (commit_issuance _ _ _ _) as [[db st'] [[]|e|]]; intros [= <- _].
  - eapply changes_trans; [exact Ep|]. exact (Er _ _ _ eq_refl).
  - exact (Er' _ _ _ eq_refl).
  - exact (Er' _ _ _ eq_refl).
Qed.

Lemma star_order_changes app star o s auth l h body :
  changes (st_app s)
    (st_app (post_star_order authz_reason b64_encode b64_decode digest json_object app star o s auth l h body).1).
Proof.
  unfold post_star_order. match goal with |- context [match obind ?c ?k with _ => _ end] =>
    destruct (obind c k) as [[c' m]|e|] end;
    [|apply changes_refl..].
  destruct (requested_order _ _) as [interval days].
  destruct (prepare_order _ _ _ _ _ _ _ _) as [[[[csr ca] key] p]|e|]; [|apply changes_refl..].
  destruct (admit_enrollment _ _ _ _ _ _) as [a ra] eqn:E. apply admission_changes in E.
  destruct ra as [[]|e|]; [|exact E..]. eapply changes_trans; [exact E|]. clear E.
  unfold place_order. destruct (of_lib _ _) as [pt|e|]; [|apply changes_refl..].
  destruct (create_order _ _ _ _ _ _ _ _ _ _ _) as [m1 [order|e|]]; [|apply changes_refl..].
  assert (Hi : changes a (st_app (issue_order digest json_object o (set_manager (set_app s a) m1) m1 order csr ca key p
    interval (auth_identity auth) (label_ca l)).1)).
  { unfold issue_order. destruct (map_err _ _) as [r|e|]; [|apply changes_refl..]. cbv zeta.
    destruct (commit_order _ _ _ _ _ _ _ _ _ _) as [s1 rc] eqn:Ec. apply commit_order_changes in Ec.
    destruct rc as [[]|e|]; [|exact Ec..]. by destruct (store_renewed_certificate _ _ _) as [m2 [[]|e|]]. }
  destruct (issue_order _ _ _ _ _ _ _ _ _ _ _ _ _) as [s1 [r|e|]]; [exact Hi| |exact Hi].
  by destruct (star_manager s1).
Qed.

Lemma star_cancel_changes star s auth id u t now ev :
  changes (st_app s) (st_app (delete_star_order digest json_object star s auth id u t now ev).1).
Proof.
  unfold delete_star_order. cbv zeta. match goal with |- context [obind ?c ?k] => destruct (obind c k) as [m|e|] end;
    [|apply changes_refl..].
  destruct (cancel_order _ _ _) as [m1 [[]|e|]]; [apply event_changes|apply changes_refl..].
Qed.

Lemma renew_order_changes f s id o cert issuer p :
  changes (st_app s) (st_app (renew_order digest json_object f s id o cert issuer p)).
Proof.
  assert (Ht : changes (st_app s) (st_app (renewal_tables digest json_object f s o cert issuer p).1)).
  { unfold renewal_tables. cbv zeta. destruct (update_order _ _ _) as [orders n].
    destruct (insert_certificate _ _ _) as [tx b] eqn:Ei.
    pose proof (insert_certificate_result _ _ _ _ _ Ei) as (Hdb & Hau & _).
    apply (insert_changes digest json_object) in Ei; [|done].
    match goal with |- context [obind ?c ?k] => destruct (obind c k) as [tx'|e|] eqn:Eo end; [|apply changes_refl..].
    assert (tx' = tx) as ->.
    { do 4 (apply obind_Ok_1 in Eo as (? & _ & Eo)). destruct b; [|done]. by injection Eo. }
    destruct (record_issuance_in_transaction _ _ _ _ _ _ _ _) as [[tx_db st] rr] eqn:Er.
    pose proof Er as Er'. rewrite Hdb, Hau in Er'. apply transaction_changes in Er, Er'.
    destruct rr as [[]|e|]; [|exact Er'..].
    rewrite Hdb in Er. destruct (commit_issuance _ _ _ _) as [[db st'] [[]|e|]].
    - eapply changes_trans; [exact Ei|]. exact (Er _ _ _ eq_refl).
    - exact (Er' _ _ _ eq_refl).
    - exact (Er' _ _ _ eq_refl). }
  unfold renew_order. destruct (renewal_tables _ _ _ _ _ _ _ _) as [s1 [[]|e|]]; [|exact Ht..].
  by destruct (star_manager s1).
Qed.

Lemma renew_admitted_changes app w s id o ca p :
  changes (st_app s) (st_app (renew_admitted digest json_object app w s id o ca p).1).
Proof.
  unfold renew_admitted. repeat case_match; subst; try apply changes_refl. apply renew_order_changes.
Qed.

(** The admission of a renewal, then the renewal. *)
Lemma renew_stored_changes app w s id :
  changes (st_app s) (st_app (renew_stored digest json_object app w s id).1).
Proof.
  unfold renew_stored. destruct (m ← star_manager s; _) as [o|]; [|apply changes_refl].
  destruct (negb _); [apply changes_refl|]. destruct (cas app !! _) as [ca|]; [|apply changes_refl].
  destruct (rn_profile w _) as [p|e]; [|apply changes_refl].
  destruct (record_checked _ _ _ _ _ _ _) as [[db st] r] eqn:E. apply checked_changes in E.
  destruct r as [u|e|]; [|exact E..].
  eapply changes_trans; [exact E|].
  pose proof (renew_admitted_changes app w (set_app s (with_audit (st_app s) (db, st))) id o ca (renewal_profile p o)) as H.
  by rewrite set_app_app in H.
Qed.

Lemma renew_each_changes app w ids : forall s,
  changes (st_app s) (st_app (renew_each digest json_object app w s ids).1).
Proof.
  induction ids as [|id ids IH]; intros s; cbn [renew_each]; [apply changes_refl|].
  pose proof (renew_stored_changes app (w id) s id) as H.
  destruct (renew_stored _ _ _ _ _ _) as [s1 alive]. destruct alive; [|exact H].
  eapply changes_trans; [exact H|apply IH].
Qed.

Lemma renewal_tick_changes app w now due s :
  changes (st_app s) (st_app (renewal_tick digest json_object app w now due s).1).
Proof.
  unfold renewal_tick. destruct (star_manager s) as [m|]; [|apply changes_refl].
  exact (renew_each_changes app w _ (set_manager s (cleanup_expired m now).1)).
Qed.

(** *** CoAP *)

Lemma coap_runs app w h op label payload cf cert :
  changes (bridge_app h) (bridge_app
    (coap_handle authz_reason to_lowercase debug digest json_object app w h op label payload cf cert).1).
Proof.
  unfold coap_handle. cbv zeta. destruct (negb _); [apply changes_refl|].
  assert (Ha : forall s s1 r, (if is_enrollment op then admit_request digest json_object app (w (calls h)) s label cert
    else (s, Ok tt)) = (s1, r) -> changes s s1).
  { intros s s1 r. destruct (is_enrollment op); [|intros [= <- _]; apply changes_refl]. unfold admit_request.
    destruct cert as [c|]; [|intros [= <- _]; apply changes_refl].
    destruct (mtls_excluded app label); [intros [= <- _]; apply changes_refl|].
    destruct (map_err _ _) as [u|e|]; [|intros [= <- _]; apply changes_refl..].
    destruct (admit_enrollment _ _ _ _ _ _) as [s2 ra] eqn:E. intros [= <- _]. by apply admission_changes in E. }
  destruct (if is_enrollment op then _ else _) as [s1 ad] eqn:E. apply Ha in E. clear Ha.
  destruct ad as [u|e|]; [|exact E..].
  assert (He : forall s pool, changes s (handle_simpleenroll authz_reason debug digest json_object app (w (calls h)) s pool
    payload label cert).1.1).
  { intros s pool. unfold handle_simpleenroll. take_branches; cbn [fst]; try apply changes_refl.
    all: match goal with E : persist_certificate _ _ _ _ _ _ _ _ = _ |- _ => by apply persist_changes in E end. }
  destruct (run_operation _ _ _ _ _ _ _ _ _ _ _ _ _) as [[s2 pool] res] eqn:Er. cbn.
  eapply changes_trans; [exact E|].
  assert (Hr : (run_operation authz_reason to_lowercase debug digest json_object app (w (calls h)) s1 (bridge_pool h) op
    label payload cert).1.1 = s2) by (by rewrite Er). rewrite <- Hr. clear -He.
  unfold run_operation. destruct op.
  - destruct (handle_cacerts _ _ _ _). apply changes_refl.
  - apply He.
  - unfold handle_simplereenroll. destruct cert as [c|]; [|apply changes_refl].
    pose proof (He s1 (bridge_pool h)) as H. by destruct (handle_simpleenroll _ _ _ _ _ _ _ _ _ _ _) as [[s3 p] r].
  - apply changes_refl.
  - destruct (handle_csrattrs _ _ _ _ _). apply changes_refl.
Qed.

(** *** Administration and tasks *)

Lemma admin_handler_changes config o s a op :
  changes (ad_app s) (ad_app (admin_handler digest json_object b64url_encode sha256_hex rfc3339_millis debug_option
    bounds config o s a op).1).
Proof.
  destruct op as [req| |id|order q|serial|serial reason|q]; unfold admin_handler, answered; cbn [fst].
  - unfold generate_otp. destruct (require_operator a); [apply changes_refl|].
    destruct (prepare_otp _ _ _ _ _) as [[[token n] ex]|e|]; [|apply changes_refl..].
    destruct (ao_statement o); [apply changes_refl|]. apply event_changes.
  - apply changes_refl.
  - unfold revoke_otp. follow. all: first [apply changes_refl|apply event_changes].
  - unfold list_certs. follow. all: first [apply changes_refl|apply event_changes].
  - unfold get_cert. follow. all: first [apply changes_refl|apply event_changes].
  - unfold revoke_cert. cbv zeta. destruct (require_operator a); [apply changes_refl|].
    destruct (negb _); [apply changes_refl|]. destruct (ao_statement o); [apply changes_refl|].
    destruct (existsb (admin_revokes serial) _).
    + eapply changes_trans; [|apply event_changes]. apply changes_once, change_revoke.
      intros r. apply admin_revoke_row_later.
    + destruct (ao_second_statement o); [apply changes_refl|].
      destruct (find_cert _ _); [apply event_changes|apply changes_refl].
  - unfold list_audit_events. follow. all: first [apply changes_refl|apply actor_event_changes].
Qed.

Lemma admin_serve_changes cfg secrets config revocation rq o s op :
  changes (ad_app s) (ad_app (admin_serve digest json_object b64url_encode sha256_hex rfc3339_millis debug_option
    bounds to_lowercase display_utc cfg secrets config revocation rq o s op).1).
Proof.
  unfold admin_serve. destruct (admin_auth _ _ _ _ _ _ _) as [anchors [a|e|]]; [|apply changes_refl..].
  apply (admin_handler_changes config o (MkAdminState anchors (ad_app s) (ad_tokens s) (ad_next_otp s))).
Qed.

Lemma status_serve_changes cfg secrets app hc m revocation rq o s op :
  changes (ad_app s) (ad_app (status_serve digest json_object to_lowercase display_utc cfg secrets app hc m revocation
    rq o s op).1).
Proof.
  unfold status_serve. destruct (admin_auth _ _ _ _ _ _ _) as [anchors [a|e|]]; [|apply changes_refl..].
  destruct (status_handler_state digest json_object app hc m o (ad_app s) op) as [H|[d H]];
    cbn [ad_app]; destruct (status_handler _ _ _ _ _ _ _ _) as [x res]; cbn [fst] in H; subst x;
    [apply changes_refl|apply event_changes].
Qed.

Lemma login_changes app rd header :
  changes (otp_state app)
    (otp_state (try_extract_otp digest json_object credentials_decode sha256_hex app rd header).1).
Proof.
  apply (try_extract_otp_records digest json_object credentials_decode sha256_hex (changes (otp_state app)));
    [|apply changes_refl].
  intros s ty actor d c H. eapply changes_trans; [exact H|apply actor_event_changes].
Qed.

Lemma regenerate_crl_changes app o s caches ca :
  changes s (regenerate_crl digest json_object app o s caches ca).1.1.
Proof.
  unfold regenerate_crl. cbv zeta. destruct (obind _ _) as [[count crl]|e|]; [|apply changes_refl..].
  apply changes_once. exact (change_audit digest json_object s (AuditRecord _ (call_faults (cro_event o))
    (call_time (cro_event o)))).
Qed.

Lemma refresh_crls_changes app o l : forall s caches,
  changes s (refresh_crls digest json_object app o s caches l).1.
Proof.
  induction l as [|ca l IH]; intros s caches; cbn [refresh_crls]; [apply changes_refl|].
  pose proof (regenerate_crl_changes app (o (ca_state_id ca)) s caches ca) as H.
  destruct (regenerate_crl _ _ _ _ _ _ _) as [[s1 caches1] r]. eapply changes_trans; [exact H|apply IH].
Qed.

(** ** The invariant *)

Abbreviation serve_request := (serve_request authz_reason debug to_lowercase b64_encode b64_decode sha2 hmac
  resolved_secrets secret_decode digest json_object).
Abbreviation serve := (serve authz_reason debug to_lowercase b64_encode b64_decode sha2 hmac resolved_secrets
  secret_decode digest json_object credentials_decode b64url_encode sha256_hex rfc3339_millis debug_option
  display_utc bounds).
Abbreviation serve_all := (serve_all authz_reason debug to_lowercase b64_encode b64_decode sha2 hmac
  resolved_secrets secret_decode digest json_object credentials_decode b64url_encode sha256_hex rfc3339_millis
  debug_option display_utc bounds).

Lemma serve_request_changes cfg s call : changes (st_app s) (st_app (serve_request cfg s call)).
Proof.
  destruct call; unfold Service.serve_request; cbv zeta; rewrite ?set_app_app;
    first [apply get_cacerts_runs|apply simpleenroll_runs|apply simplereenroll_runs|apply serverkeygen_runs
          |apply fullcmc_runs|apply cms_runs|apply cmp_runs|apply renewal_info_runs|apply star_order_changes|apply star_cancel_changes
          |apply renewal_tick_changes|idtac].
  - apply (coap_runs (sv_app cfg) (fun _ => w) (MkBridge (st_app s) pool [] 0)).
  - unfold run_spawned. destruct (is_empty _); [apply event_changes|apply actor_event_changes].
Qed.

Lemma put_admin_tables s a : tables (put_admin s a) = ad_app a.
Proof. apply set_app_app. Qed.

Lemma serve_changes cfg s call : changes (tables s) (tables (serve cfg s call)).
Proof.
  destruct call as [call|rd header|revocation rq o op|revocation rq o op|o|error now|event]; unfold Service.serve.
  - apply serve_request_changes.
  - exact (login_changes (login_view (otp_cfg_enabled (sv_otp cfg)) s) rd header).
  - pose proof (admin_serve_changes (sv_admin cfg) (sv_secrets cfg) (sv_otp cfg) revocation rq o (admin_view s) op) as H.
    unfold serve_admin. by destruct (admin_serve _ _ _ _ _ _ _ _ _ _ _ _ _ _ _ _ _).
  - apply (status_serve_changes (sv_admin cfg) (sv_secrets cfg) (sv_app cfg) (sv_hsm_configured cfg) (sv_module cfg)
      revocation rq o (admin_view s) op).
  - pose proof (refresh_crls_changes (sv_app cfg) o (omap (fun c => cas (sv_app cfg) !! cfg_id c)
      (ca_configs (sv_app cfg))) (tables s) (sv_crls s)) as H. fold (refresh_tick digest json_object
      (sv_app cfg) o (tables s) (sv_crls s)) in H.
    by destruct (refresh_tick _ _ _ _ _ _) as [a crls].
  - apply changes_refl.
  - apply changes_once.
    exact (change_audit digest json_object (tables s) (AuditRecord stop_event (call_faults event) (call_time event))).
Qed.

Lemma serve_all_changes cfg calls : forall s, changes (tables s) (tables (serve_all cfg s calls)).
Proof.
  induction calls as [|c calls IH]; intros s; [apply changes_refl|].
  eapply changes_trans; [apply (serve_changes cfg s c)|apply IH].
Qed.

(** C1: the server's tables stay well-formed.  Whatever calls the server
    has answered or refused, over EST, CMS, CMP, STAR or CoAP, for a renewal
    window or by an administrator, whatever logins were tried, cycles of
    renewals and other tasks have run and health checks were made, all of
    which write to the one audit trail, up to the shutdown, and with any
    statement failing at any point: no two rows of
    certificates have one serial number, each is active, without a time of
    revocation, or revoked, and the
    audit trail's identifiers are unique and, unless its policy is to drop
    records, its chain verifies.  And nothing that is there at one time is
    gone later: rows of certificates stay, revoked at most and once revoked
    as they are, queued requests stay, and so do the records of a trail that
    drops none. *)
Theorem service_well_formed cfg s calls1 calls2 :
  well_formed digest (tables s) ->
  well_formed digest (tables (serve_all cfg s (calls1 ++ calls2))) /\
  evolves (tables (serve_all cfg s calls1)) (tables (serve_all cfg s (calls1 ++ calls2))).
Proof.
  intros Hw. unfold Service.serve_all. rewrite run_steps_app.
  destruct (changes_inv _ _ _ _ (serve_all_changes cfg calls1 s) Hw) as [Hw1 _].
  exact (changes_inv _ _ _ _ (serve_all_changes cfg calls2 (serve_all cfg s calls1)) Hw1).
Qed.
End Handlers.

(** ** Examples *)

#[local] Existing Instance example_keygen_lib.
#[local] Existing Instance example_sskg_lib.
#[local] Existing Instance example_cmp_lib.
#[local] Instance service_cmc_lib : CmcLib := cmc_lib_of example_cms_lib.

#[local] Instance service_renewal_text : RenewalText := {
  b64url_decode s := inl (bytes_of_string s);
  parse_from_rfc3339 _ := None;
  parse_naive _ _ := None;
  rfc3339_secs := format_utc;
  window_json a b := a +:+ b;
  min_utc := 0
}.

Definition service_config : ServiceConfig :=
  MkService EnrollSpec.example_app (Some CmpSpec.cmp_config) None (MkRenewalConfig 30 3600)
    (Some example_admin_config) AdminSpec.example_secrets example_otp_config false None.
Definition service_start : ServerState :=
  MkServer (MkStarState example_state None [] []) (tracker_new (to_policy lockout_default) 0) [] 1 None ∅.
Definition example_serve_all : ServerState -> list ServerCall -> ServerState :=
  serve_all (fun _ => EmptyString) (fun s => s) to_ascii_lowercase (fun b => b) inl (fun _ b => [checksum b])
    (fun _ k b => inl (k ++ [checksum b])) CmpSpec.example_secrets (fun h => inl (bytes_of_string h)) example_digest
    example_json (fun s => Some (bytes_of_string s)) string_of_bytes string_of_bytes (fun _ => "t"%string)
    (default EmptyString) (fun _ => "t"%string) example_bounds service_config.

(** Two enrollments, the second of which gets the serial number of the
    first and is not stored, and the revocation by the owner. *)
Definition enroll_call : Call := CallSimpleenroll example_outside example_caller example_label example_body.
Definition wrong_login : ServerCall := LoginAttempt (readings_at 5 []) (Some "Basic dev-1:wrong"%string).
Definition revoke_call : Call := CallCmp CmpSpec.cmp_outside (signed_request [1] (BRr [2])).

Lemma example_state_well_formed : well_formed example_digest example_state.
Proof.
  split; cbn; [apply NoDup_nil; done|apply Forall_nil; done| |done].
  split; cbn; [apply NoDup_nil; done|apply Forall_nil; done].
Qed.

Lemma service_well_formed_witness :
  let calls1 := [Request enroll_call; Request enroll_call] in
  let calls2 := [Request revoke_call; wrong_login; Shutdown quiet_event] in
  let s1 := example_serve_all service_start calls1 in
  let s2 := example_serve_all service_start (calls1 ++ calls2) in
  well_formed example_digest (tables service_start) /\
  map cr_status (certificates (tables s1)) = ["active"%string] /\
  map cr_status (certificates (tables s2)) = ["revoked"%string] /\
  take 2 (map ar_event_type (rev (audit_rows (app_audit_db (tables s2))))) = ["ca.stop"; "auth.failure"]%string /\
  well_formed example_digest (tables s2) /\ evolves (tables s1) (tables s2).
Proof.
  split; [exact example_state_well_formed|]. split; [vm_compute; reflexivity|].
  split; [vm_compute; reflexivity|]. split; [vm_compute; reflexivity|].
  exact (service_well_formed (fun _ => EmptyString) (fun s => s) to_ascii_lowercase (fun b => b) inl
    (fun _ b => [checksum b]) (fun _ k b => inl (k ++ [checksum b])) CmpSpec.example_secrets
    (fun h => inl (bytes_of_string h)) example_digest example_json (fun s => Some (bytes_of_string s))
    string_of_bytes string_of_bytes (fun _ => "t"%string) (default EmptyString) (fun _ => "t"%string) example_bounds
    service_config service_start [Request enroll_call; Request enroll_call]
    [Request revoke_call; wrong_login; Shutdown quiet_event] example_state_well_formed).
Defined.

(** * What holds of the server over any calls

    A revocation over CMP ends the revocation lists of its CA, whatever the
    server does afterwards. *)

(** ** The row that stops the lists of a CA *)

(** Once there, it stays. *)
Lemma evolves_undated ca_id s s' : evolves s s' -> undated ca_id s -> undated ca_id s'.
Proof.
  intros [(old & new & Hc & Hf) _ _ _] (r & Hin & Hr & Hn).
  apply list_elem_of_lookup in Hin as [i Hi]. destruct (Forall2_lookup_l _ _ _ _ _ Hf Hi) as (r' & Hi' & Hl).
  assert (r' = r) as ->.
  { destruct Hl as [->|[Hne _]]; [done|]. unfold revoked_by in Hr. apply andb_true_iff in Hr as [_ Hr].
    by apply String.eqb_eq in Hr. }
  exists r. split_and!; try done. rewrite Hc. apply elem_of_app. left. apply list_elem_of_lookup. by exists i.
Qed.

Section Calls.
Context `{HL : X509Lib} `{HC : CmsOids} `{HE : Encoder} `{HA : !AttributeOids} `{HD : Decoder}
  `{HO : !OcspLib} `{HR : !CrlLib} `{HM : !CmsLib} `{HB : !CmcLib} `{HP : !CmpLib}
  `{HK : KeyGenLib} `{HS : !SskgLib} `{HT : StarText} `{HW : RenewalText}
  `{HQ : !CrlBuilderLib} `{HY : Cryptoki} `{HSL : !OpensslLib} `{HPR : OpensslProbe} `{Hle : !EncoderLaws}.
Variable authz_reason : AuthzError -> string.
Variable debug : string -> string.
Variable to_lowercase : string -> string.
Variable b64_encode : bytes -> bytes.
Variable b64_decode : bytes -> bytes + string.
Variable sha2 : OwfKind -> bytes -> bytes.
Variable hmac : OwfKind -> bytes -> bytes -> bytes + string.
Variable resolved_secrets : gmap string string.
Variable secret_decode : string -> bytes + string.
Variable digest : option bytes -> bytes -> string.
Variable json_object : list (string * string) -> string.
Variable credentials_decode : string -> option bytes.
Variable b64url_encode : bytes -> string.
Variable sha256_hex : bytes -> string.
Variable rfc3339_millis : Z -> string.
Variable debug_option : option string -> string.
Variable display_utc : Z -> string.
Variable bounds : TimeBounds.

Abbreviation serve := (serve authz_reason debug to_lowercase b64_encode b64_decode sha2 hmac resolved_secrets
  secret_decode digest json_object credentials_decode b64url_encode sha256_hex rfc3339_millis debug_option
  display_utc bounds).
Abbreviation serve_all := (serve_all authz_reason debug to_lowercase b64_encode b64_decode sha2 hmac
  resolved_secrets secret_decode digest json_object credentials_decode b64url_encode sha256_hex rfc3339_millis
  debug_option display_utc bounds).

Lemma revoke_listed_cases serials r : revoke_listed serials r = r \/ revoke_listed serials r = as_revoked r.
Proof. unfold revoke_listed. destruct (listed serials r); [by right|by left]. Qed.

(** What a CMP message does to a row. *)
Lemma post_cmp_row app cmp o s body i row :
  certificates s !! i = Some row ->
  let s' := (post_cmp sha2 hmac resolved_secrets secret_decode digest json_object app cmp o s body).1 in
  certificates s' !! i = Some row \/ certificates s' !! i = Some (as_revoked row).
Proof.
  intros Hi. destruct (post_cmp _ _ _ _ _ _ _ _ _ _ _) as [s' r] eqn:E. cbn [fst].
  apply post_cmp_run in E as [[-> _]|(config & m & req & rt & _ & _ & _ & _ & _ & _ & Hor)]; [by left|].
  destruct Hor as [(-> & _)|(s1 & s2 & res & (Hc1 & _) & Hd & -> & _)]; [by left|].
  apply dispatch_cmp_spec in Hd as (_ & _ & Hp & _). rewrite <- Hc1 in Hi.
  assert (Hmap : forall serials, certificates s2 = map (revoke_listed serials) (certificates s1) ->
    certificates s2 !! i = Some row \/ certificates s2 !! i = Some (as_revoked row)).
  { intros serials ->. rewrite list_lookup_fmap, Hi.
    cbn [fmap option_fmap option_map]. destruct (revoke_listed_cases serials row) as [->| ->]; [by left|by right]. }
  destruct Hp as [->|[He|(_ & details & serials & _ & _ & Hc)]]; [by left| |by eapply Hmap].
  unfold effect in He. destruct (message_type req); try (rewrite He; by left);
    try (destruct He as (x & _ & -> & _); left; by apply lookup_app_l_Some).
  destruct He as (details & serials & _ & _ & Hc). by eapply Hmap.
Qed.

(** With such a row, no tick makes a list for the CA. *)
Lemma refresh_crls_undated app o ca_id l : forall s caches,
  well_formed digest s -> undated ca_id s ->
  (refresh_crls digest json_object app o s caches l).2 !! ca_id = caches !! ca_id.
Proof.
  induction l as [|ca l IH]; intros s caches Hw Hu; cbn [refresh_crls]; [done|].
  pose proof (regenerate_crl_changes digest json_object app (o (ca_state_id ca)) s caches ca) as Hch.
  destruct (regenerate_crl _ _ _ _ _ _ _) as [[s1 caches1] r] eqn:E. cbn [fst] in Hch.
  destruct (changes_inv _ _ _ _ Hch Hw) as [Hw1 Hev]. rewrite IH; [|done|by eapply evolves_undated].
  destruct (decide (ca_state_id ca = ca_id)) as [<-|Hne].
  - destruct (undated_no_crl digest json_object app (o (ca_state_id ca)) s caches ca Hu) as [e He]. congruence.
  - apply regenerate_crl_spec in E as (_ & _ & _ & H).
    destruct r as [u|e|]; [destruct H as (rows & crl & _ & _ & ->); by rewrite lookup_insert_ne|by destruct H as [_ ->]..].
Qed.

Lemma serve_undated cfg s call ca_id :
  well_formed digest (tables s) -> undated ca_id (tables s) ->
  sv_crls (serve cfg s call) !! ca_id = sv_crls s !! ca_id.
Proof.
  intros Hw Hu. destruct call as [call|rd header|revocation rq o op|revocation rq o op|o|error now|event]; unfold Service.serve; try done.
  { unfold serve_admin. by destruct (admin_serve _ _ _ _ _ _ _ _ _ _ _ _ _ _ _ _ _). }
  pose proof (refresh_crls_undated (sv_app cfg) o ca_id (omap (fun c => cas (sv_app cfg) !! cfg_id c)
    (ca_configs (sv_app cfg))) (tables s) (sv_crls s) Hw Hu) as H.
  fold (refresh_tick digest json_object (sv_app cfg) o (tables s) (sv_crls s)) in H.
  by destruct (refresh_tick _ _ _ _ _ _) as [a crls].
Qed.

Lemma serve_inv cfg s call :
  well_formed digest (tables s) ->
  well_formed digest (tables (serve cfg s call)) /\ evolves (tables s) (tables (serve cfg s call)).
Proof.
  intros Hw. exact (changes_inv _ _ _ _ (serve_changes authz_reason debug to_lowercase b64_encode b64_decode sha2 hmac
    resolved_secrets secret_decode digest json_object credentials_decode b64url_encode sha256_hex rfc3339_millis
    debug_option display_utc bounds cfg s call) Hw).
Qed.
Lemma serve_all_inv cfg calls s :
  well_formed digest (tables s) ->
  well_formed digest (tables (serve_all cfg s calls)) /\ evolves (tables s) (tables (serve_all cfg s calls)).
Proof.
  intros Hw. exact (changes_inv _ _ _ _ (serve_all_changes authz_reason debug to_lowercase b64_encode b64_decode sha2
    hmac resolved_secrets secret_decode digest json_object credentials_decode b64url_encode sha256_hex rfc3339_millis
    debug_option display_utc bounds cfg calls s) Hw).
Qed.

Lemma serve_all_undated cfg ca_id calls : forall s,
  well_formed digest (tables s) -> undated ca_id (tables s) ->
  undated ca_id (tables (serve_all cfg s calls)) /\ sv_crls (serve_all cfg s calls) !! ca_id = sv_crls s !! ca_id.
Proof.
  induction calls as [|c calls IH]; intros s Hw Hu; [done|].
  destruct (serve_inv cfg s c Hw) as [Hw1 Hev]. rewrite <- (serve_undated cfg s c ca_id Hw Hu).
  apply (IH (serve cfg s c)); [done|]. by eapply evolves_undated.
Qed.

(** C31: a revocation over CMP ends the revocation lists of its CA.  If a CMP
    message revokes a certificate, then whatever calls follow, the CA's list
    in the cache stays the one from before, without that certificate, and
    the generation of another fails: the message sets no time of revocation,
    and the query of the list cannot read a row without one. *)
Theorem cmp_revocation_ends_lists cfg s o body i row calls :
  let s1 := serve cfg s (Request (CallCmp o body)) in
  let s2 := serve_all cfg s1 calls in
  well_formed digest (tables s) ->
  certificates (tables s) !! i = Some row -> cr_status row = "active"%string ->
  certificates (tables s1) !! i <> Some row ->
  sv_crls s2 !! cr_ca_id row = sv_crls s !! cr_ca_id row /\
  forall ca co caches, ca_state_id ca = cr_ca_id row ->
    exists e, regenerate_crl digest json_object (sv_app cfg) co (tables s2) caches ca = (tables s2, caches, Err e).
Proof.
  intros s1 s2 Hw Hi Hst Hne. destruct (serve_inv cfg s (Request (CallCmp o body)) Hw) as [Hw1 _].
  assert (Hu : undated (cr_ca_id row) (tables s1)).
  { destruct (post_cmp_row (sv_app cfg) (sv_cmp cfg) o (tables s) body i row Hi) as [H|H]; [by destruct Hne|].
    exists (as_revoked row). split; [|split; [unfold revoked_by; cbn; by rewrite String.eqb_refl|]].
    - apply list_elem_of_lookup. by exists i.
    - pose proof (wf_status _ _ Hw) as Hf.
      rewrite Forall_lookup in Hf. destruct (Hf i row Hi) as [[_ Ht]|Hr]; [done|congruence]. }
  destruct (serve_all_undated cfg _ calls s1 Hw1 Hu) as [Hu2 Hcache]. split; [exact Hcache|].
  intros ca co caches Hca. apply undated_no_crl. by rewrite Hca.
Qed.

End Calls.

(** ** Examples *)

#[local] Existing Instance example_keygen_lib.
#[local] Existing Instance example_sskg_lib.
#[local] Existing Instance example_cmp_lib.
#[local] Existing Instance service_cmc_lib.
#[local] Existing Instance service_renewal_text.

Definition enrolled : ServerState := example_serve_all service_start [Request enroll_call].
Lemma enrolled_well_formed : well_formed example_digest (tables enrolled).
Proof.
  unfold enrolled, example_serve_all.
  exact (proj1 (serve_all_inv _ _ _ _ _ _ _ _ _ _ _ _ _ _ _ _ _ _ service_config [Request enroll_call] service_start
    example_state_well_formed)).
Qed.

(** The administrators' list of the CA, made before, is the last one. *)
Definition after_tick : ServerState :=
  MkServer (sv_state enrolled) (sv_tracker enrolled) (sv_tokens enrolled) 1 None {["main"%string := ([7], 0)]}.
Definition enrolled_row : CertRow :=
  match certificates (tables enrolled) with r :: _ => r | [] => listed_row EmptyString end.

Lemma cmp_revocation_ends_lists_witness :
  let s1 := example_serve_all after_tick [Request revoke_call] in
  let s2 := example_serve_all s1 [CrlTick (fun _ => crl_outside)] in
  map cr_status (certificates (tables s2)) = ["revoked"%string] /\
  sv_crls s2 !! cr_ca_id enrolled_row = sv_crls after_tick !! cr_ca_id enrolled_row.
Proof.
  cbv zeta. split; [vm_compute; reflexivity|].
  refine (proj1 (cmp_revocation_ends_lists (fun _ => EmptyString) (fun s => s) to_ascii_lowercase (fun b => b) inl
    (fun _ b => [checksum b]) (fun _ k b => inl (k ++ [checksum b])) CmpSpec.example_secrets
    (fun h => inl (bytes_of_string h)) example_digest example_json (fun s => Some (bytes_of_string s))
    string_of_bytes string_of_bytes (fun _ => "t"%string) (default EmptyString) (fun _ => "t"%string) example_bounds
    service_config after_tick CmpSpec.cmp_outside (signed_request [1] (BRr [2])) 0 enrolled_row
    [CrlTick (fun _ => crl_outside)] enrolled_well_formed _ _ _));
    [vm_compute; reflexivity|vm_compute; reflexivity|].
  assert (H : option_map cr_status (certificates (tables (example_serve_all after_tick [Request revoke_call])) !! 0%nat) =
    Some "revoked"%string) by (vm_compute; reflexivity).
  intros E. change (certificates (tables (example_serve_all after_tick [Request revoke_call])) !! 0%nat =
    Some enrolled_row) in E. rewrite E in H. vm_compute in H. discriminate H.
Defined.
