(* ===== verification/AuditReview.v ===== *)
(** * A review of the audit trail

    An auditor reads the trail page by page through [GET /admin/audit]
    ([list_audit_events] of [src/routes/admin/audit.rs]), while the server
    goes on answering calls of Service.v.  Each page that is answered leaves an
    event of its own in the trail, at the front of what the next page is cut
    from: what a review sees, and when it ends. *)
From S2P Require Import Prelude Words Text Hsm HsmSpec Errors Calendar X509 Der ExampleLibs DerReader Issuance IssuanceSpec AuditLog AuditSpec NameMatch EnrollAuthz FailureTracker BasicOtp Transfer HaPool CsrAttrs Enroll EnrollSpec Labels Ocsp Revocation CmsAuth EstAuth Cmc KeyGen ServerKeygen CmsEst Cmp CoapBlock CoapRouter CoapServer CoapBridge StarManager StarRoutes RenewalInfo Admin AdminSpec AdminStatus OtpLife Crl Service OcspSpec ReaderExample RevocationSpec CmsAuthSpec CmcSpec ServerKeygenSpec CmpSpec StarRoutesSpec ServiceSpec.
Open Scope Z_scope.

Section Review.
Context `{HL : X509Lib} `{HC : CmsOids} `{HE : Encoder} `{HA : !AttributeOids} `{HD : Decoder}
  `{HO : !OcspLib} `{HR : !CrlLib} `{HM : !CmsLib} `{HB : !CmcLib} `{HP : !CmpLib}
  `{HK : KeyGenLib} `{HS : !SskgLib} `{HT : StarText} `{HW : RenewalText}
  `{HQ : !CrlBuilderLib} `{HY : Cryptoki} `{HSL : !OpensslLib} `{HPR : OpensslProbe} `{Hle : !EncoderLaws}.
Variable authz_reason : AuthzError -> string.
Variable debug : string -> string.
Variable to_lowercase : string -> string.
Variable b64_encode : bytes -> bytes.
Variable b64_decode : bytes -> bytes + string.
Variable sha2 : OwfKind -> bytes -> bytes.
Variable hmac : OwfKind -> bytes -> bytes -> bytes + string.
Variable resolved_secrets : gmap string string.
Variable secret_decode : string -> bytes + string.
Variable digest : option bytes -> bytes -> string.
Variable json_object : list (string * string) -> string.
Variable credentials_decode : string -> option bytes.
Variable b64url_encode : bytes -> string.
Variable sha256_hex : bytes -> string.
Variable rfc3339_millis : Z -> string.
Variable debug_option : option string -> string.
Variable display_utc : Z -> string.
Variable bounds : TimeBounds.

Abbreviation serve := (serve authz_reason debug to_lowercase b64_encode b64_decode sha2 hmac resolved_secrets
  secret_decode digest json_object credentials_decode b64url_encode sha256_hex rfc3339_millis debug_option
  display_utc bounds).
Abbreviation serve_all := (serve_all authz_reason debug to_lowercase b64_encode b64_decode sha2 hmac
  resolved_secrets secret_decode digest json_object credentials_decode b64url_encode sha256_hex rfc3339_millis
  debug_option display_utc bounds).

Abbreviation serve_admin := (serve_admin to_lowercase digest json_object b64url_encode sha256_hex rfc3339_millis
  debug_option display_utc bounds).

(** ** The client *)

(** Page j of the events the query asks for. *)
Definition paged (q : ListAuditQuery) (limit j : nat) : ListAuditQuery :=
  MkListAudit (la_event_type q) (la_actor q) (Z.of_nat limit) (Z.of_nat (j * limit)).

(** A request of the client: the calls the server answers before it, what it
    comes with, and what it reads. *)
Record Visit : Type := MkVisit {
  v_before : list ServerCall;
  v_revocation : bytes -> outcome unit string;
  v_request : AdminRequest;
  v_outside : AdminOutside
}.

(** The client asks for page after page, newest events first, until one is
    short, again for one that is refused, and gives up at an offset that has
    no 32 bits.  The pages, and whether the last was short. *)
Fixpoint review (cfg : ServiceConfig) (q : ListAuditQuery) (limit j : nat) (s : ServerState) (visits : list Visit)
  : ServerState * list (list AuditEventSummary) * bool :=
  match visits with
  | [] => (s, [], false)
  | v :: visits =>
      if 2 ^ 32 <=? Z.of_nat (j * limit) then (s, [], false)
      else
        let s := serve_all cfg s (v_before v) in
        match serve_admin cfg s (v_revocation v) (v_request v) (v_outside v) (OpListAudit (paged q limit j)) with
        | (s, Ok (AnsEvents l)) =>
            if (length l <? limit)%nat then (s, [l], true)
            else let '(s, pages, ended) := review cfg q limit (S j) s visits in (s, l :: pages, ended)
        | (s, _) => review cfg q limit j s visits
        end
  end.

(** The events of the query, as one page would show them. *)
Definition trail (q : ListAuditQuery) (s : ServerState) : list AuditEventSummary :=
  map audit_summary (rev (List.filter (reviewed q) (audit_rows (app_audit_db (tables s))))).
Definition keeps_all (s : ServerState) : Prop := keeps_rows (audit_config (app_audit (tables s))).

(** A request of an administrator that the database answers. *)
Definition answerable (cfg : ServiceConfig) (v : Visit) : Prop :=
  ao_statement (v_outside v) = None /\
  forall anchors, exists a,
    (admin_auth to_lowercase display_utc (v_revocation v) (sv_admin cfg) (sv_secrets cfg) anchors (v_request v)).2 = Ok a.

(** ** One page *)

(** The calls of the client are calls of the server. *)
Lemma visit_inv cfg s v q limit j s2 r :
  well_formed digest (tables s) -> keeps_all s ->
  serve_admin cfg (serve_all cfg s (v_before v)) (v_revocation v) (v_request v) (v_outside v)
    (OpListAudit (paged q limit j)) = (s2, r) ->
  let s1 := serve_all cfg s (v_before v) in
  well_formed digest (tables s2) /\ keeps_all s2 /\
  trail q s `suffix_of` trail q s1 /\ trail q s1 `suffix_of` trail q s2.
Proof.
  intros Hw Hk E s1.
  assert (Hgrow : forall a b : ServerState, evolves (tables a) (tables b) -> well_formed digest (tables a) -> keeps_all a ->
    keeps_all b /\ trail q a `suffix_of` trail q b).
  { intros a b [_ _ [Hc _] Ht] Hwa Hka. split; [unfold keeps_all; by rewrite Hc|].
    destruct (Ht Hka (wf_ids _ _ Hwa)) as [new Hn]. unfold trail. rewrite Hn, List.filter_app, rev_app_distr, map_app.
    by eexists. }
  pose proof (serve_all_inv authz_reason debug to_lowercase b64_encode b64_decode sha2 hmac resolved_secrets
    secret_decode digest json_object credentials_decode b64url_encode sha256_hex rfc3339_millis debug_option
    display_utc bounds cfg (v_before v) s Hw) as [Hw1 Hev1]. fold s1 in Hw1, Hev1.
  pose proof (serve_inv authz_reason debug to_lowercase b64_encode b64_decode sha2 hmac resolved_secrets
    secret_decode digest json_object credentials_decode b64url_encode sha256_hex rfc3339_millis debug_option
    display_utc bounds cfg s1 (AdminCall (v_revocation v) (v_request v) (v_outside v) (OpListAudit (paged q limit j))) Hw1)
    as [Hw2 Hev2].
  cbn [Service.serve] in Hw2, Hev2. fold s1 in E. rewrite E in Hw2, Hev2. cbn [fst] in Hw2, Hev2.
  destruct (Hgrow _ _ Hev1 Hw Hk) as [Hk1 T1]. destruct (Hgrow _ _ Hev2 Hw1 Hk1) as [Hk2 T2]. by split_and!.
Qed.

(** A page that is answered is cut from the trail. *)
Lemma visit_page cfg s v q limit j s2 l : (limit <= 1000)%nat ->
  serve_admin cfg s (v_revocation v) (v_request v) (v_outside v) (OpListAudit (paged q limit j)) = (s2, Ok (AnsEvents l)) ->
  l = take limit (drop (j * limit) (trail q s)).
Proof.
  intros Hl. unfold serve_admin, admin_serve. destruct (admin_auth _ _ _ _ _ _ _) as [anchors [a|e|]]; [|by intros [= _ ?]..].
  cbn [admin_handler]. unfold answered, list_audit_events. destruct (ao_statement _); [by intros [= _ ?]|].
  cbn [fst snd ad_app admin_view]. intros [= _ <-]. unfold list_audit_from_db, page, trail. cbn [la_limit la_offset paged].
  rewrite Z.min_l by lia. rewrite !Nat2Z.id. by rewrite <- firstn_map, <- skipn_map.
Qed.
Lemma visit_answered cfg s v q limit j : answerable cfg v ->
  exists s2 l, serve_admin cfg s (v_revocation v) (v_request v) (v_outside v) (OpListAudit (paged q limit j)) =
    (s2, Ok (AnsEvents l)).
Proof.
  intros [Hs Ha]. destruct (Ha (sv_anchors s)) as [a E]. unfold serve_admin, admin_serve. cbn [ad_anchors admin_view].
  destruct (admin_auth _ _ _ _ _ _ _) as [anchors r]. cbn [snd] in E. subst r. cbn [admin_handler].
  unfold answered, list_audit_events. rewrite Hs. cbn [fst snd]. by do 2 eexists.
Qed.

(** And leaves at most one event. *)
Lemma record_appends db st ev f ts : keeps_rows (audit_config st) -> ids_ok db ->
  exists new, audit_rows (record digest json_object db st ev f ts).1 = audit_rows db ++ new /\ (length new <= 1)%nat.
Proof.
  intros Hk Hi. enough (H : (record digest json_object db st ev f ts).1 = db \/
    one_write digest json_object st db (record digest json_object db st ev f ts).1).
  { destruct H as [->|H]; [exists []; rewrite app_nil_r; cbn; split; [done|lia]|].
    destruct (one_write_appends _ _ _ _ _ Hk Hi H) as [_ (r & Hr & _)]. exists [r]. by split. }
  unfold record, record_checked, record_inner.
  destruct (negb (enabled (audit_config st))); [by left|]. destruct (is_halted st); [by left|].
  destruct (f_begin f); [by left|].
  destruct (AuditLog.write_event _ _ db st ev f ts) as [db' [[]|e|]] eqn:Ew; [|by left..].
  repeat case_match; simplify_eq; cbn; first [by left|right; by exists st, ev, f, ts].
Qed.
Lemma visit_appends cfg s v q limit j s2 r : well_formed digest (tables s) -> keeps_all s ->
  serve_admin cfg s (v_revocation v) (v_request v) (v_outside v) (OpListAudit (paged q limit j)) = (s2, r) ->
  (length (trail q s2) <= S (length (trail q s)))%nat.
Proof.
  intros Hw Hk. unfold serve_admin, admin_serve.
  destruct (admin_auth _ _ _ _ _ _ _) as [anchors [a|e|]]; [|intros [= <- _]; unfold trail; rewrite put_admin_tables; cbn; lia..].
  cbn [admin_handler]. unfold answered, list_audit_events.
  destruct (ao_statement _); intros [= <- _]; unfold trail; rewrite put_admin_tables; [cbn; lia|].
  cbn [fst ad_app set_ad_app admin_view]. unfold record_audit_event_with_actor. cbv zeta. cbn [app_audit_db with_audit].
  match goal with |- context [record _ _ ?db ?st ?ev ?f ?ts] =>
    destruct (record_appends db st ev f ts Hk (wf_ids _ _ Hw)) as (new & Hn & Hlen) end.
  rewrite Hn, List.filter_app, rev_app_distr, !length_map, length_app, !length_rev.
  pose proof (filter_length_le (reviewed q) new). lia.
Qed.

(** ** The whole review *)

Lemma page_elem {A} n j (l : list A) k x :
  l !! k = Some x -> (j * n <= k)%nat -> (k < S j * n)%nat -> x ∈ take n (drop (j * n) l).
Proof.
  intros Hx Hlo Hhi. apply list_elem_of_lookup. exists (k - j * n)%nat.
  rewrite lookup_take_lt by lia. rewrite lookup_drop. by replace (j * n + (k - j * n))%nat with k by lia.
Qed.

(** Where an event stands in a trail that has grown at its front. *)
Lemma suffix_lookup {A} (f l : list A) p x :
  f `suffix_of` l -> f !! p = Some x -> l !! (length l - length f + p)%nat = Some x.
Proof.
  intros [e ->] Hp. rewrite length_app, lookup_app_r by lia. rewrite <- Hp. f_equal. lia.
Qed.

(** An event that is not on the pages so far will be. *)
Lemma review_covers cfg q limit visits : (limit <= 1000)%nat -> forall j s s' pages f p x,
  well_formed digest (tables s) -> keeps_all s ->
  f `suffix_of` trail q s -> f !! p = Some x -> (j * limit <= length (trail q s) - length f + p)%nat ->
  review cfg q limit j s visits = (s', pages, true) -> x ∈ concat pages.
Proof.
  intros Hl. induction visits as [|v visits IH]; intros j s s' pages f p x Hw Hk Hf Hp Hj; cbn [review]; [done|].
  destruct (2 ^ 32 <=? _); [done|]. destruct (serve_admin _ _ _ _ _ _) as [s2 r] eqn:E.
  destruct (visit_inv _ _ _ _ _ _ _ _ Hw Hk E) as (Hw2 & Hk2 & T1 & T2).
  assert (Hf1 : f `suffix_of` trail q (serve_all cfg s (v_before v))) by (by etrans).
  assert (Hf2 : f `suffix_of` trail q s2) by (by etrans).
  pose proof (suffix_length _ _ T1) as L1. pose proof (suffix_length _ _ T2) as L2.
  pose proof (suffix_length _ _ Hf) as L0.
  assert (Hagain : review cfg q limit j s2 visits = (s', pages, true) -> x ∈ concat pages).
  { apply (IH j s2 s' pages f p x Hw2 Hk2 Hf2 Hp). lia. }
  destruct r as [[]|e|]; try exact Hagain. clear Hagain. apply visit_page in E; [|done].
  pose proof (suffix_lookup _ _ _ _ Hf1 Hp) as Hx. pose proof (lookup_lt_Some _ _ _ Hx) as Hlt.
  set (k := (length (trail q (serve_all cfg s (v_before v))) - length f + p)%nat) in *.
  assert (Hin : (k < S j * limit)%nat -> x ∈ l) by (intros Hk'; rewrite E; apply (page_elem _ _ _ k); [done|lia|done]).
  destruct (Nat.ltb_spec (length l) limit) as [Hs|Hs].
  - intros [= _ <-]. cbn. rewrite app_nil_r. apply Hin. rewrite E, length_take, length_drop in Hs. lia.
  - destruct (review _ _ _ _ _ _) as [[s3 pages'] ended] eqn:Er. intros [= _ <- ->]. cbn [concat]. apply elem_of_app.
    destruct (decide (k < S j * limit)%nat) as [H|H]; [left; by apply Hin|]. right.
    eapply (IH (S j) s2 s3 pages' f p x Hw2 Hk2 Hf2 Hp); [|exact Er]. unfold k in H. lia.
Qed.

(** A review that has not ended has filled its pages. *)
Lemma review_goes_on cfg q limit visits : (limit <= 1000)%nat -> forall j s s' pages,
  well_formed digest (tables s) -> keeps_all s ->
  review cfg q limit j s visits = (s', pages, false) ->
  (j * limit <= length (trail q s) -> (j + length pages) * limit <= length (trail q s'))%nat /\
  (Forall (answerable cfg) visits -> Z.of_nat ((j + length visits) * limit) <= 2 ^ 32 -> (0 < limit)%nat ->
   length pages = length visits) /\
  (Forall (fun v => v_before v = []) visits -> (length (trail q s') <= length (trail q s) + length visits)%nat).
Proof.
  intros Hl. induction visits as [|v visits IH]; intros j s s' pages Hw Hk; cbn [review].
  { intros [= <- <-]. cbn. split_and!; [lia|done|lia]. }
  destruct (2 ^ 32 <=? _) eqn:Eo.
  { intros [= <- <-]. cbn [length]. split_and!; [lia| |lia]. intros _ Hb Hp. exfalso. apply Z.leb_le in Eo. nia. }
  destruct (serve_admin _ _ _ _ _ _) as [s2 r] eqn:E. pose proof E as E'.
  destruct (visit_inv _ _ _ _ _ _ _ _ Hw Hk E) as (Hw2 & Hk2 & T1 & T2).
  pose proof (suffix_length _ _ T1) as L1. pose proof (suffix_length _ _ T2) as L2.
  assert (Hq : v_before v = [] -> (length (trail q s2) <= S (length (trail q s)))%nat).
  { intros Hb. rewrite Hb in E. cbn [Service.serve_all run_steps fold_left] in E.
    exact (visit_appends _ _ _ _ _ _ _ _ Hw Hk E). }
  assert (Hagain : (forall l, r <> Ok (AnsEvents l)) -> review cfg q limit j s2 visits = (s', pages, false) ->
    (j * limit <= length (trail q s) -> (j + length pages) * limit <= length (trail q s'))%nat /\
    (Forall (answerable cfg) (v :: visits) -> Z.of_nat ((j + length (v :: visits)) * limit) <= 2 ^ 32 -> (0 < limit)%nat ->
     length pages = length (v :: visits)) /\
    (Forall (fun v => v_before v = []) (v :: visits) ->
     (length (trail q s') <= length (trail q s) + length (v :: visits))%nat)).
  { intros Hr Er. destruct (IH _ _ _ _ Hw2 Hk2 Er) as (H1 & _ & H3). cbn [length]. split_and!.
    - intros Hj. apply H1. lia.
    - intros [Ha _]%Forall_cons. exfalso. destruct (visit_answered _ (serve_all cfg s (v_before v)) _ q limit j Ha) as (x & l & E2).
      rewrite E in E2. injection E2 as _ ->. by destruct (Hr l).
    - intros [Hb Hbs]%Forall_cons. specialize (Hq Hb). specialize (H3 Hbs). lia. }
  destruct r as [[]|e|]; try (apply Hagain; discriminate). clear Hagain. apply visit_page in E; [|done].
  destruct (Nat.ltb_spec (length l) limit) as [Hs|Hs]; [done|].
  destruct (review _ _ _ _ _ _) as [[s3 pages'] ended] eqn:Er. intros [= -> <- ->].
  destruct (IH _ _ _ _ Hw2 Hk2 Er) as (H1 & H2 & H3). cbn [length]. split_and!.
  - intros Hj. rewrite E, length_take, length_drop in Hs.
    replace (j + S (length pages'))%nat with (S j + length pages')%nat by lia. apply H1. lia.
  - intros [_ Ha]%Forall_cons Hb Hp. rewrite H2; [done|done| |done].
    by replace (S j + length visits)%nat with (j + S (length visits))%nat by lia.
  - intros [Hb Hbs]%Forall_cons. specialize (Hq Hb). specialize (H3 Hbs). lia.
Qed.

End Review.

(** ** Examples *)

#[local] Existing Instances example_keygen_lib example_sskg_lib example_cmp_lib service_cmc_lib service_renewal_text
  example_crl_lib.

Definition enrolled_server : ServerState := example_serve_all service_start [Request enroll_call].
Definition all_events : ListAuditQuery := MkListAudit None None 50 0.
Lemma enrolled_server_ok : well_formed example_digest (tables enrolled_server).
Proof.
  unfold enrolled_server, example_serve_all.
  exact (proj1 (serve_all_inv _ _ _ _ _ _ _ _ _ _ _ _ _ _ _ _ _ _ service_config [Request enroll_call] service_start
    example_state_well_formed)).
Qed.

Definition auditor_visit (before : list ServerCall) : Visit :=
  MkVisit before no_revocation (bearer_request "watch") (admin_outside (1000 * SECS)).
Definition example_review (limit : nat) (visits : list Visit)
  : ServerState * list (list AuditEventSummary) * bool :=
  review (fun _ => EmptyString) (fun s => s) to_ascii_lowercase (fun b => b) inl (fun _ b => [checksum b])
    (fun _ k b => inl (k ++ [checksum b])) CmpSpec.example_secrets (fun h => inl (bytes_of_string h)) example_digest
    example_json (fun s => Some (bytes_of_string s)) string_of_bytes string_of_bytes (fun _ => "t"%string)
    (default EmptyString) (fun _ => "t"%string) example_bounds service_config all_events limit 0 enrolled_server visits.
Definition pages_of (r : ServerState * list (list AuditEventSummary) * bool) : list (list Z) * bool :=
  (map (map as_id) r.1.2, r.2).

(** Between the pages, the owner revokes over CMP and a login is refused: the
    pages overlap, and nothing is missed. *)
Definition busy_visits : list Visit :=
  [auditor_visit []; auditor_visit [Request revoke_call]; auditor_visit [wrong_login]] ++ repeat (auditor_visit []) 5.
Example busy_review : pages_of (example_review 2 busy_visits) =
  ([[2; 1]; [4; 3]; [4; 3]; [3; 2]; [2; 1]; [1]], true).
Proof. vm_compute. reflexivity. Qed.

(** With pages of one event, each page has moved on by the event that the one
    before left: the client sees one event for ever. *)
Example endless_review : pages_of (example_review 1 (repeat (auditor_visit []) 40)) = (repeat [2] 40, false).
Proof. vm_compute. reflexivity. Qed.

