(* ===== verification/StarService.v ===== *)
(** * The orders of the whole server

    That every call of Service.v keeps what StarRestart.v relies on: the rows
    of the orders and of their certificates belong together, and back what is
    in memory. *)
From S2P Require Import Prelude Words Text Hsm Errors Calendar X509 Der DerReader Issuance AuditLog AuditSpec NameMatch EnrollAuthz FailureTracker BasicOtp Transfer HaPool CsrAttrs Enroll Labels Ocsp Revocation CmsAuth EstAuth Cmc KeyGen ServerKeygen CmsEst Cmp CoapBlock CoapRouter CoapServer CoapBridge StarManager StarSpec StarRoutes StarRoutesSpec StarRestart RenewalInfo Admin AdminStatus Crl Service ServiceSpec.
Open Scope Z_scope.

Section StarService.
Context `{HL : X509Lib} `{HC : CmsOids} `{HE : Encoder} `{HA : !AttributeOids} `{HD : Decoder}
  `{HO : !OcspLib} `{HR : !CrlLib} `{HM : !CmsLib} `{HB : !CmcLib} `{HP : !CmpLib}
  `{HK : KeyGenLib} `{HS : !SskgLib} `{HT : StarText} `{HW : RenewalText}
  `{HQ : !CrlBuilderLib} `{HY : Cryptoki} `{HSL : !OpensslLib} `{HPR : OpensslProbe} `{Htime : !TimeTextLaws}.
Variable authz_reason : AuthzError -> string.
Variable debug : string -> string.
Variable to_lowercase : string -> string.
Variable b64_encode : bytes -> bytes.
Variable b64_decode : bytes -> bytes + string.
Variable sha2 : OwfKind -> bytes -> bytes.
Variable hmac : OwfKind -> bytes -> bytes -> bytes + string.
Variable resolved_secrets : gmap string string.
Variable secret_decode : string -> bytes + string.
Variable digest : option bytes -> bytes -> string.
Variable json_object : list (string * string) -> string.
Variable credentials_decode : string -> option bytes.
Variable b64url_encode : bytes -> string.
Variable sha256_hex : bytes -> string.
Variable rfc3339_millis : Z -> string.
Variable debug_option : option string -> string.
Variable display_utc : Z -> string.
Variable bounds : TimeBounds.

Abbreviation serve := (serve authz_reason debug to_lowercase b64_encode b64_decode sha2 hmac resolved_secrets
  secret_decode digest json_object credentials_decode b64url_encode sha256_hex rfc3339_millis debug_option
  display_utc bounds).
Abbreviation serve_all := (serve_all authz_reason debug to_lowercase b64_encode b64_decode sha2 hmac
  resolved_secrets secret_decode digest json_object credentials_decode b64url_encode sha256_hex rfc3339_millis
  debug_option display_utc bounds).

(** ** What holds *)

(** The bounds of a configuration that was validated; its fields are u64. *)
Definition bounds_ok (c : StarConfig) : Prop := 0 <= min_renewal_interval_secs c /\ max_renewal_interval_secs c < 2 ^ 64.
Definition stars_ok (s : StarState) : Prop :=
  tables_inv (star_orders s) (star_certificates s) /\
  forall m, star_manager s = Some m -> bounds_ok (star_config m) /\ star_inv (star_config m) s.

Record server_ok (s : ServerState) : Prop := {
  ok_tables : well_formed digest (tables s);
  ok_stars : stars_ok (sv_state s)
}.

(** Every order has room for n renewals in its 32-bit number. *)
Definition counted (n : nat) (s : StarState) : Prop :=
  forall m id o, star_manager s = Some m -> get_order m id = Some o -> current_renewals o + Z.of_nat n < 2 ^ 32.

(** What is asked of calls: the identifier of a new order is not in use, the
    database's clock can be read, an order's call does not panic, and the
    numbers of renewals are not exhausted. *)
Definition call_orderly (cfg : ServiceConfig) (s : ServerState) (call : ServerCall) : Prop :=
  match call with
  | Request (CallStarOrder o auth l headers body) =>
      call_ok authz_reason b64_encode b64_decode digest json_object (sv_star cfg) (sv_state s)
        (CallPost (sv_app cfg) o auth l headers body)
  | Request (CallRenewal w now due) =>
      forall m, star_manager (sv_state s) = Some m ->
        counted (length (orders_needing_renewal_at (cleanup_expired m now).1 due)) (sv_state s)
  | _ => True
  end.
Fixpoint calls_orderly (cfg : ServiceConfig) (s : ServerState) (calls : list ServerCall) : Prop :=
  match calls with
  | [] => True
  | call :: calls => call_orderly cfg s call /\ calls_orderly cfg (serve cfg s call) calls
  end.

(** ** Renewals *)

Lemma counted_le n m s : (m <= n)%nat -> counted n s -> counted m s.
Proof. intros Hle Hc mg id o Hm Ho. specialize (Hc mg id o Hm Ho). lia. Qed.

Lemma renew_order_manager f s id o cert issuer p m :
  star_manager s = Some m ->
  let s' := renew_order digest json_object f s id o cert issuer p in
  star_manager s' = Some m \/ star_manager s' = Some (store_renewed_certificate m id cert).1.
Proof.
  intros Hm. cbv zeta. unfold renew_order. destruct (renewal_tables _ _ _ _ _ _ _ _) as [s1 r] eqn:E.
  assert (Hm1 : star_manager s1 = Some m).
  { destruct r as [[]|e|]; [by apply renewal_tables_spec in E as [-> _]|by apply renewal_tables_failed in E as [-> _]..]. }
  destruct r as [[]|e|]; [|by left..]. rewrite Hm1. by right.
Qed.

(** One order of the cycle. *)
Lemma renew_stored_step app w s id c n :
  bounds_ok c -> star_inv c s -> counted (S n) s ->
  let s' := (renew_stored digest json_object app w s id).1 in star_inv c s' /\ counted n s'.
Proof.
  intros [Hmin Hmax] Hinv Hc. cbv zeta. assert (Hc' : counted n s) by (eapply counted_le; [|done]; lia).
  unfold renew_stored. destruct (star_manager s) as [m|] eqn:Hm; cbn [mbind option_bind]; [|done].
  destruct (get_order m id) as [o|] eqn:Ho; [|done].
  case_bool_decide as Ha; cbn [negb]; [|done].
  destruct (cas app !! _) as [ca|]; [|done]. destruct (rn_profile w _) as [p|e]; [|done].
  destruct (record_checked _ _ _ _ _ _ _) as [[db st] r]. set (s1 := set_app s _).
  assert (H1 : star_inv c s1 /\ counted n s1) by (split; [by eapply same_inv|done]).
  destruct r as [u|e|]; [|done..]. unfold renew_admitted. destruct (List.find _ _) as [cc|]; [|done].
  destruct (resolve_signing_key _ _ _ _) as [key|e|]; [|done..].
  destruct (Issuance.issue_certificate _ _ _ _ _ _ _ _) as [res|e|]; [|done..].
  destruct (cert_from_der _) as [issuer|e]; [|done]. cbn [fst].
  pose proof (Hc m id o Hm Ho) as Hlt.
  assert (Hu : u32 (current_renewals o)).
  { destruct Hinv as (_ & m0 & Hm0 & _ & Hb). rewrite Hm in Hm0. injection Hm0 as <-.
    destruct (Hb id o Ho) as [_ [(row & _ & Hrow) _]]. apply Hrow. }
  assert (Hnum : as_u32 (current_renewals o + 1) = current_renewals o + 1)
    by (unfold u32 in Hu; apply Z.mod_small; lia).
  split.
  - eapply renewed_backed with (m := m); try done; first [exact (proj1 H1)|lia].
  - destruct (renew_order_manager (rn_faults w) s1 id o (next_certificate o id res) (format_dn (cert_subject issuer))
      (profile_name (renewal_profile p o)) m Hm) as [E|E]; intros m' i o' Hm' Ho'; rewrite E in Hm'; injection Hm' as <-.
    + exact (proj2 H1 m i o' Hm Ho').
    + apply store_lookup in Ho' as [Ho'|(o1 & -> & Ho1 & _ & ->)]; [exact (proj2 H1 m i o' Hm Ho')|].
      change (get_order m id = Some o1) in Ho1. rewrite Ho in Ho1. injection Ho1 as <-.
      destruct (covers_lifetime _ o); cbn [with_status with_certificate current_renewals]; lia.
Qed.

Lemma renew_each_inv app w ids c : bounds_ok c -> forall s,
  star_inv c s -> counted (length ids) s -> star_inv c (renew_each digest json_object app w s ids).1.
Proof.
  intros Hb. induction ids as [|id ids IH]; intros s Hinv Hc; cbn [renew_each]; [done|].
  pose proof (renew_stored_step app (w id) s id c (length ids) Hb Hinv Hc) as [H1 H2].
  destruct (renew_stored _ _ _ _ _ _) as [s1 alive]. destruct alive; [|done]. by apply IH.
Qed.

Lemma renewal_tick_inv app w now due s c : bounds_ok c -> star_inv c s ->
  (forall m, star_manager s = Some m -> counted (length (orders_needing_renewal_at (cleanup_expired m now).1 due)) s) ->
  star_inv c (renewal_tick digest json_object app w now due s).1.
Proof.
  intros Hb Hinv Hc. unfold renewal_tick. destruct (star_manager s) as [m|] eqn:Hm; [|done].
  apply renew_each_inv; [done|by apply cleanup_inv|]. intros m' id o [= <-] Ho.
  apply (Hc m eq_refl m id o Hm). apply star_cleanup_lookup in Ho as [Ho _]; [done|].
  destruct Hinv as (_ & m0 & Hm0 & _ & Hback). rewrite Hm in Hm0. injection Hm0 as <-.
  intros i x Hx. by apply Hback in Hx as [? _].
Qed.

(** ** Every call *)

Lemma stars_ok_same s s' : stars_ok s -> star_manager s' = star_manager s -> star_orders s' = star_orders s ->
  star_certificates s' = star_certificates s -> stars_ok s'.
Proof.
  intros [Ht Hm] E1 E2 E3. split; [by rewrite E2, E3|]. intros m Hm'. rewrite E1 in Hm'. destruct (Hm m Hm') as [Hb Hi].
  split; [done|by eapply same_inv].
Qed.

(** A call that keeps the invariant of any configuration. *)
Lemma stars_ok_step s s' : stars_ok s ->
  (star_manager s = None -> star_manager s' = None /\ star_orders s' = star_orders s /\
     star_certificates s' = star_certificates s) ->
  (forall c, bounds_ok c -> star_inv c s -> star_inv c s') -> stars_ok s'.
Proof.
  intros [Ht Hm] Hnone Hkeep. destruct (star_manager s) as [m|] eqn:E.
  - destruct (Hm m eq_refl) as [Hb Hi]. apply (Hkeep _ Hb) in Hi as (Ht' & m' & Hm' & Hc & Hi). split; [done|].
    intros m2 Hm2. rewrite Hm' in Hm2. injection Hm2 as <-. rewrite Hc. split; [done|]. split; [done|]. by exists m'.
  - destruct (Hnone eq_refl) as (E1 & E2 & E3). split; [by rewrite E2, E3|]. rewrite E1. done.
Qed.

Lemma star_call_none star s (call : star_call) : star_manager s = None ->
  match call with CallRenew _ _ _ _ _ _ => False | _ => True end ->
  star_do authz_reason b64_encode b64_decode digest json_object star s call = s.
Proof.
  intros Hn. destruct call as [app o auth l headers body|auth id upd t now ev|f id o cert issuer p|now]; intros Hk;
    cbn [star_do]; [| |done|by rewrite Hn].
  - unfold post_star_order, manager_of. rewrite Hn. destruct (star_config_of star); done.
  - unfold delete_star_order, manager_of. rewrite Hn. destruct (star_config_of star); done.
Qed.
Lemma star_call_ok star s call : match call with CallRenew _ _ _ _ _ _ => False | _ => True end ->
  call_ok authz_reason b64_encode b64_decode digest json_object star s call -> stars_ok s ->
  stars_ok (star_do authz_reason b64_encode b64_decode digest json_object star s call).
Proof.
  intros Hk Hok Hs. apply (stars_ok_step s); [done| |].
  - intros Hn. by rewrite star_call_none.
  - intros c [Hmin Hmax] Hi. by apply star_do_inv.
Qed.

Lemma serve_stars cfg s call : call_orderly cfg s call -> stars_ok (sv_state s) -> stars_ok (sv_state (serve cfg s call)).
Proof.
  intros Hok Hs.
  destruct call as [call|rd header|revocation rq o op|revocation rq o op|o|error now|event]; unfold Service.serve;
    try (by eapply stars_ok_same).
  - cbn [sv_state set_sv_state]. destruct call; unfold serve_request; try (by eapply stars_ok_same).
    + exact (star_call_ok (sv_star cfg) _ (CallPost (sv_app cfg) o auth l headers body) I Hok Hs).
    + exact (star_call_ok (sv_star cfg) _ (CallDelete auth id update db_now now event) I I Hs).
    + apply (stars_ok_step (sv_state s)); [done| |].
      * intros Hn. unfold renewal_tick. by rewrite Hn.
      * intros c Hb Hi. by apply renewal_tick_inv.
  - unfold serve_admin. destruct (admin_serve _ _ _ _ _ _ _ _ _ _ _ _ _ _ _ _ _). by eapply stars_ok_same.
  - destruct (refresh_tick _ _ _ _ _ _). by eapply stars_ok_same.
Qed.

(** The server stays as it should be, over any calls. *)
Lemma serve_all_ok cfg calls : forall s, server_ok s -> calls_orderly cfg s calls -> server_ok (serve_all cfg s calls).
Proof.
  induction calls as [|call calls IH]; intros s Hs; cbn [calls_orderly]; [done|]. intros [Hc Hcs].
  apply (IH (serve cfg s call)); [|done]. destruct Hs as [Hw Hstars]. split; [|by apply serve_stars].
  apply (serve_inv authz_reason debug to_lowercase b64_encode b64_decode sha2 hmac resolved_secrets
    secret_decode digest json_object credentials_decode b64url_encode sha256_hex rfc3339_millis debug_option
    display_utc bounds cfg s call Hw).
Qed.
End StarService.
