(* ===== verification/Startup.v ===== *)
(** * The start of the server

    [run] of [src/main.rs] up to the first request, with [AppStateBuilder]
    ([src/state.rs]) and [build_manager] ([src/ha/mod.rs]): from the file of
    the configuration to the state that the other files start from.  The
    database, the libraries and the operating system are interfaces or
    answers. *)
From S2P Require Import Prelude Words Text CoapBlock CoapRouter CoapServer CoapBridge Cmc ServerKeygen Secrets Schema Errors Calendar X509 Der DerReader Issuance AuditLog NameMatch EnrollAuthz FailureTracker BasicOtp Transfer HaPool DogtagPool CsrAttrs Enroll Labels Ocsp Revocation CmsAuth EstAuth KeyGen CmsEst Cmp StarManager StarRoutes RenewalInfo Hsm Admin AdminStatus Crl Config Tls Service.
Open Scope Z_scope.

Inductive StartError : Type :=
  | BadConfig (e : ConfigError)
  | BadSecret (e : SecretError)
  | BadStart (text : string)
  | BadKipuka (e : KipukaError)
  | BadStar (e : StarError).

(** The rows of the tables that the server reads, and the next identifier of
    a one-time password. *)
Record StoredTables : Type := MkStored {
  stored_audit : AuditDb;
  stored_certificates : list CertRow;
  stored_pending : list PendingCsr;
  stored_orders : list StarOrderRow;
  stored_star_certificates : list StarCertTableRow;
  stored_tokens : OtpTable;
  stored_next_otp : Z
}.
(** What a server leaves in them. *)
Definition tables_of (s : ServerState) : StoredTables :=
  MkStored (app_audit_db (tables s)) (certificates (tables s)) (pending_csrs (tables s)) (star_orders (sv_state s))
    (star_certificates (sv_state s)) (sv_tokens s) (sv_next_otp s).

Section Startup.
Context `{HX : X509Lib} `{HOL : !OcspLib} `{HR : !RustlsLib} `{HU : UrlLib} `{HC : Cryptoki} `{HO : OpensslLib}
  `{HG : GssLib} `{HS : SqlBackend} `{HT : StarText}.
Variable alphanumeric : string -> option nat.
Variable debug : string -> string.
Variable digest : option bytes -> bytes -> string.
Variable json_object : list (string * string) -> string.
Variable cert_signature_algorithm : Cert -> X509.oid.

(** What the outside answers: files, the database, modules, Kerberos, ports,
    the clock, and the event of the start. *)
Record BootWorld : Type := MkBoot {
  boot_config : ConfigWorld;
  boot_read_text : string -> string + string;
  boot_toml : string -> Config + string;
  boot_secrets : SecretWorld;
  boot_keyring_order : SecretCache -> list (string * string);
  boot_connect : string -> SqlDb + string;
  boot_connect_ro : option string -> option string;
  boot_tables : SqlDb -> StoredTables;
  boot_files : TlsFiles;
  boot_read : string -> bytes + string;
  boot_first_cert : bytes -> option bytes + string;
  boot_dogtag : DogtagConfig -> string + string;
  boot_gssapi : bool;
  boot_gss_cred : AdminGssapiConfig -> GssCred + string;
  boot_reactivate : StarOrder -> option string;
  boot_challenge : bytes + string;
  boot_bind : string -> option string;
  boot_event : AuditCall;
  boot_now : Z
}.

(** ** The CAs *)

(** The state of a CA with its chain. *)
Definition ca_state (c : CaConfig) (cert_der : bytes) (chain : list bytes) : CaState :=
  MkCaState (cfg_id c) cert_der chain
    (if starts_with "ml-dsa" (cfg_key_type c) then "none"%string else cfg_hash_algorithm c)
    (cfg_validity_days c) (cfg_crl_url c) (cfg_ocsp_url c).
Definition load_ca (w : TlsFiles) (c : CaConfig) : outcome CaState string :=
  match open_error w (cfg_cert_file c) with
  | Some e => Err ("failed to open CA cert " +:+ cfg_cert_file c +:+ ": " +:+ e)
  | None =>
      let? chain := of_lib (fun e => "failed to parse CA cert " +:+ cfg_cert_file c +:+ ": " +:+ e)
        (pem_certs w (cfg_cert_file c)) in
      match chain with
      | [] => Err ("no certificates found in " +:+ cfg_cert_file c)
      | der :: _ => Ok (ca_state c der chain)
      end
  end.
(** The loop over the CAs; [n] is how many there are. *)
Fixpoint load_cas (w : TlsFiles) (n : nat) (m : gmap string CaState) (default_id : string) (l : list CaConfig)
  : outcome (gmap string CaState * string) string :=
  match l with
  | [] => Ok (m, default_id)
  | c :: l =>
      let? s := load_ca w c in
      load_cas w n (<[cfg_id c := s]> m)
        (if cfg_is_default c || (n =? 1)%nat then cfg_id c else default_id) l
  end.

(** ** The pool of CAs *)

Fixpoint connections_of (endpoints : list (string * string)) (priority : Z) (l : list CaConfig) : list CaConnection :=
  match l with
  | [] => []
  | c :: l =>
      MkCa (cfg_id c)
        (match List.find (fun p => String.eqb p.1 (cfg_id c)) endpoints with
         | Some p => p.2 | None => "local:" +:+ cfg_id c end)
        1 (as_u32 priority)
      :: connections_of endpoints (priority + 1) l
  end.
(** The pool of [build_manager]; a pool that rejects has no queue. *)
Definition build_manager (c : Config) : option CaPool :=
  match c_ha c with
  | Some ha =>
      if ha_enabled ha
      then Some (pool_new (connections_of (endpoints ha) 0 (c_cas c))
                   (MkPoolConfig (ha_strategy ha) Reject (ha_failure_threshold ha) (ha_cooldown_secs ha * SECS) 0 0 0))
      else None
  | None => None
  end.

(** ** The module *)

Definition provider_of (p : Config.HsmProvider) : Providers.HsmProvider :=
  match p with
  | Config.Entrust => Providers.Entrust | Config.Utimaco => Providers.Utimaco | Config.Kryoptic => Providers.Kryoptic
  | Config.ThalesCsp => Providers.ThalesCsp | Config.ThalesTct => Providers.ThalesTct
  end.
Definition init_hsm (c : HsmConfig) (pin : option string) : outcome Hsm.HsmContext string :=
  let err {T} p (r : outcome T HsmError) := map_err (fun e => p +:+ hsm_error e) r in
  let? p := err "PKCS#11 library load failed: " (context_new (library_path c)) in
  let? s :=
    match slot_id c, Config.token_label c with
    | Some id, _ => err "PKCS#11 slot: " (slot_by_id (Some p) id)
    | None, Some label => err ("HSM slot lookup by label '" +:+ label +:+ "' failed: ") (slot_by_label (Some p) label)
    | None, None => err "HSM slot enumeration failed: " (find_first_slot (Some p))
    end in
  let (p, n) := open_session true p s in
  let? n := err "PKCS#11 session open failed: " n in
  let? pin := ok_or pin "HSM is configured but no PIN was resolved" in
  let (p, r) := login User p n pin in
  let? _ := err "PKCS#11 login failed: " r in
  Ok (hsm_context_new p (provider_of (hsm_provider c)) s n).
(** ** Kerberos *)

(** [init_gssapi_cred] *)
Definition init_gssapi_cred (w : BootWorld) (placeholder : GssCred) (c : Config) : outcome (option GssCred * bool) string :=
  match c_admin c with
  | Some (MkAdminConfig _ _ _ _ _ _ _ _ _ _ (Some g)) =>
      let require := admin_require_crypto_verification g in
      if boot_gssapi w then
        let? cred := of_lib (fun e => e) (boot_gss_cred w g) in
        Ok (Some cred, require)
      else Ok (Some placeholder, require)
  | _ => Ok (None, true)
  end.
Variable placeholder : GssCred.

(** ** [run] *)

(** What has been written when the start ends, as it may fail. *)
Record BootEffects : Type := MkEffects {
  written : list (string * outcome unit SecretError);
  database : option SqlDb;
  audited : option (AuditDb * AuditState);
  orders_left : option (list StarOrderRow)
}.
Record Started : Type := MkStarted {
  started_config : Config;
  started_secrets : ResolvedSecrets;
  started_service : ServiceConfig;
  started_state : ServerState;
  started_pool : option CaPool;
  started_gss : GssConfig;
  started_dogtag : option DogtagPool;
  started_binding : option bytes;
  started_listener : option ServerConfig;
  started_admin_listener : option ServerConfig
}.

(** A failure ends the start; nothing more is written. *)
Definition fails {T} (e : BootEffects) (r : outcome T StartError) : BootEffects * outcome T StartError := (e, r).
Definition started_text {T} : outcome T string -> outcome T StartError := map_err BadStart.

Definition cmp_of (s : CmpSection) : CmpConfig :=
  MkCmpConfig (cmp_enabled (section_cmp s)) (allow_ir (section_cmp s)) (allow_cr (section_cmp s))
    (allow_kur (section_cmp s)) (allow_rr (section_cmp s)) (allow_mac_protection (section_cmp s))
    (map mac_reference (section_secrets s)).
Definition service_of (c : Config) (s : ResolvedSecrets) (cas : gmap string CaState) (default_id : string)
    (hsm : option Hsm.HsmContext) : ServiceConfig :=
  MkService (MkAppConfig (section_est (c_est c)) (c_cas c) cas default_id (option_map signing_context hsm))
    (option_map cmp_of (c_cmp c)) (c_star c) (section_renewal (c_est c)) (c_admin c) (resolved_admin s) (c_otp c)
    (bool_decide (is_Some (c_hsm c))) hsm.

(** The tables, with the trail after the record of the start. *)
Definition opened (stored : StoredTables) (audit : AuditDb * AuditState) : StarState :=
  MkStarState (MkAppState audit.1 audit.2 (stored_certificates stored) (stored_pending stored)) None
    (stored_orders stored) (stored_star_certificates stored).
(** The orders are read back, if STAR is on; those that go on are made active
    in their table first. *)
Definition restore_stars (w : BootWorld) (c : Config) (s : StarState) : StarState * outcome unit StartError :=
  match c_star c with
  | Some star =>
      if star_enabled star then
        let (s, r) := restart (boot_reactivate w) star s (boot_now w) in (s, map_err BadStar r)
      else (s, Ok tt)
  | None => (s, Ok tt)
  end.
(** The state a start makes of them: new lockouts, the one-time passwords of
    the table, and neither anchors nor lists. *)
Definition state_of (w : BootWorld) (c : Config) (stored : StoredTables) (s : StarState) : ServerState :=
  MkServer s (tracker_new (to_policy (c_auth_lockout c)) (boot_now w)) (stored_tokens stored) (stored_next_otp stored)
    None ∅.

(** The files that the CoAP server needs. *)
Definition check_coap (w : BootWorld) (c : Config) : outcome unit string :=
  match c_coap c with
  | Some coap =>
      if coap_enabled coap then
        let read what path :=
          of_lib (fun e => "CoAP/DTLS: failed to read " +:+ what +:+ " '" +:+ path +:+ "': " +:+ e) (boot_read w path) in
        let? _ := read "server certificate" (tls_cert_file (c_tls c)) in
        let? _ := read "server private key" (tls_key_file (c_tls c)) in
        let? _ := read "CA certificate" (tls_ca_file (c_tls c)) in
        Ok tt
      else Ok tt
  | None => Ok tt
  end.
Definition tls_channel_binding (w : BootWorld) (c : Config) (cred : option GssCred) : outcome (option bytes) string :=
  if tls_enabled (c_tls c) then
    let? file := of_lib (fun e => e) (boot_read w (tls_cert_file (c_tls c))) in
    let? first := of_lib (fun e => e) (boot_first_cert w file) in
    let? cert := ok_or first "empty TLS certificate file" in
    match server_end_point cert_signature_algorithm cert with
    | Ok b => Ok (Some b)
    | Err e => match cred with Some _ => Err e | None => Ok None end
    | Panic => Panic
    end
  else Ok None.
Definition bind_error (w : BootWorld) (addr : string) (text : string -> string) : outcome unit string :=
  match boot_bind w addr with Some e => Err (text e) | None => Ok tt end.
Definition admin_listener (w : BootWorld) (c : Config) (hsm : option Hsm.HsmContext) : outcome (option ServerConfig) StartError :=
  match c_admin c with
  | Some admin =>
      if admin_enabled admin then
        match admin_auth_method admin with
        | AdminBasic | AdminGssapi =>
            Err (BadStart ("admin authentication supports explicit mtls or bearer; basic/gssapi admin roles are not "
              +:+ "implemented"))
        | _ =>
            match admin_listen_addr admin with
            | Some addr =>
                if negb (tls_enabled (c_tls c)) then Err (BadStart "separate admin listener requires TLS")
                else
                  let? sc := map_err BadKipuka
                    (build_server_config (boot_files w) (boot_challenge w) (admin_listener_config (c_tls c) admin) hsm) in
                  let? _ := started_text (bind_error w addr (fun e => "admin listener " +:+ addr +:+ ": " +:+ e)) in
                  Ok (Some sc)
            | None => Ok None
            end
        end
      else Ok None
  | None => Ok None
  end.
Definition main_listener (w : BootWorld) (c : Config) (hsm : option Hsm.HsmContext) : outcome (option ServerConfig) StartError :=
  let addr := effective_listen_addr (kipuka_listen (boot_config w)) (c_server c) in
  let? sc :=
    if tls_enabled (c_tls c) then
      let? sc := map_err BadKipuka (build_server_config (boot_files w) (boot_challenge w) (c_tls c) hsm) in
      Ok (Some sc)
    else Ok None in
  let? _ := started_text (bind_error w addr (fun e => "cannot bind to " +:+ addr +:+ ": " +:+ e)) in
  Ok sc.

(** What comes after the tables are there. *)
Definition boot_server (w : BootWorld) (c : Config) (secrets : ResolvedSecrets) (e : BootEffects) (stored : StoredTables)
  : BootEffects * outcome Started StartError :=
  let! (e, cas) := fails e (started_text (load_cas (boot_files w) (length (c_cas c)) ∅ EmptyString (c_cas c))) in
  let! (e, hsm) := fails e
    (match c_hsm c with
     | Some h => omap_ok Some (started_text (init_hsm h (hsm_pin secrets)))
     | None => Ok None
     end) in
  let! (e, dogtag) := fails e
    (match c_dogtag c with
     | Some d =>
         started_text (map_err (fun t => "Dogtag pool init failed: " +:+ t)
           (let? client := of_lib (fun t => t) (boot_dogtag w d) in
            omap_ok Some (dogtag_pool_new [client] 3 60)))
     | None => Ok None
     end) in
  let audit := record digest json_object (stored_audit stored)
                 (audit_from_config (c_audit c) (option_map bytes_of_string (audit_integrity_key secrets)))
                 (with_detail (audit_event_new CaStart) "kipuka EST server starting")
                 (call_faults (boot_event w)) (call_time (boot_event w)) in
  let! (e, gss) := fails (MkEffects (written e) (database e) (Some audit) None) (started_text (init_gssapi_cred w placeholder c)) in
  let (stars, restored) := restore_stars w c (opened stored audit) in
  let! (e, _) := fails (MkEffects (written e) (database e) (audited e) (Some (star_orders stars))) restored in
  let! (e, _) := fails e (started_text (check_coap w c)) in
  let! (e, binding) := fails e (started_text (tls_channel_binding w c gss.1)) in
  let! (e, admin) := fails e (admin_listener w c hsm) in
  let! (e, main) := fails e (main_listener w c hsm) in
  (e, Ok (MkStarted c secrets (service_of c secrets cas.1 cas.2 hsm) (state_of w c stored stars)
            (build_manager c) (MkGss (boot_gssapi w) gss.1 gss.2) dogtag binding main admin)).

(** [run]: nothing if the configuration is only checked. *)
Definition run (w : BootWorld) (path : string) (check_config : bool) : BootEffects * outcome (option Started) StartError :=
  let e := MkEffects [] None None None in
  let! (e, c) := fails e (map_err BadConfig
    (config_from_file debug (boot_read_text w) (boot_toml w) (boot_config w) path)) in
  if check_config then (e, Ok None)
  else
    let (cache, secrets) := resolve_config (boot_secrets w) ∅ c in
    let! (e, secrets) := fails e (map_err BadSecret secrets) in
    let e := MkEffects
      (if sw_interactive (boot_secrets w)
       then persist_to_keyring (boot_secrets w) (boot_keyring_order w cache) else []) None None None in
    let! (e, db) := fails e (of_lib BadStart (boot_connect w (resolved_db_url secrets))) in
    let kind := kind_from_url (resolved_db_url secrets) in
    let (db, migrated) :=
      if Config.run_migrations (c_database c) then Schema.run_migrations alphanumeric kind db else (db, Ok tt) in
    let e := MkEffects (written e) (Some db) None None in
    let! (e, _) := fails e (map_err BadKipuka migrated) in
    let! (e, _) := fails e
      (match boot_connect_ro w (ro_url kind (resolved_db_url secrets)) with
       | Some t => Err (BadStart t)
       | None => Ok tt
       end) in
    let! (e, s) := boot_server w c secrets e (boot_tables w db) in
    (e, Ok (Some s)).
End Startup.

(** * The start of the server: the theorems

    What a server that has started guarantees to the requests, and that a
    restart continues where the server before ended: certificates, the audit
    chain, orders and one-time passwords, with calls before and after. *)
From S2P Require Import ExampleLibs IssuanceSpec AuditSpec HsmSpec OcspSpec ReaderExample EstAuthSpec RevocationSpec CmsAuthSpec CmcSpec ServerKeygenSpec CmpSpec AdminSpec StarRoutesSpec StarRestart EnrollSpec ServiceSpec StarService.
Open Scope Z_scope.
#[local] Existing Instances example_sql example_columns example_rustls example_web_pki example_crl_lib.

Lemma sbind_Ok_2 {S T U E} (c : S * outcome T E) (k : S -> T -> S * outcome U E) s' u :
  sbind c k = (s', Ok u) -> exists s t, c = (s, Ok t) /\ k s t = (s', Ok u).
Proof. destruct c as [s [t|e|]]; cbn; naive_solver. Qed.
Tactic Notation "step_ok" hyp(H) "as" ident(e) ident(t) ident(E) :=
  apply sbind_Ok_2 in H; destruct H as (e & t & E & H).

(** ** The CAs *)

Section Cas.
Context `{HX : X509Lib} `{HR : !RustlsLib}.

Lemma load_ca_spec w c s : load_ca w c = Ok s ->
  exists der chain, open_error w (cfg_cert_file c) = None /\ pem_certs w (cfg_cert_file c) = inl (der :: chain) /\
    s = ca_state c der (der :: chain).
Proof.
  unfold load_ca. destruct (open_error _ _); [done|]. intros H. take_ok H as chain E. apply of_lib_Ok in E.
  destruct chain as [|der chain]; [done|]. injection H as <-. by exists der, chain.
Qed.

Definition marked (n : nat) (c : CaConfig) : bool := cfg_is_default c || (n =? 1)%nat.
Lemma load_cas_spec w n l : forall m d m' d', NoDup (map cfg_id l) -> load_cas w n m d l = Ok (m', d') ->
  (forall c, c ∈ l -> exists s, load_ca w c = Ok s /\ m' !! cfg_id c = Some s) /\
  (forall id, id ∉ map cfg_id l -> m' !! id = m !! id) /\
  d' = match last (List.filter (marked n) l) with Some c => cfg_id c | None => d end.
Proof.
  induction l as [|c l IH]; intros m d m' d' Hn; cbn [load_cas].
  - intros [= <- <-]. split_and!; [|done|done]. by intros c Hc%not_elem_of_nil.
  - apply NoDup_cons in Hn as [Hc Hn]. intros H. take_ok H as s Es. apply IH in H as (H1 & H2 & H3); [|done].
    split_and!.
    + intros c' Hc'. apply elem_of_cons in Hc' as [->|Hc']; [|by apply H1]. exists s. split; [done|].
      rewrite H2 by done. by rewrite lookup_insert_eq.
    + intros id Hid. apply not_elem_of_cons in Hid as [Hne Hid]. rewrite H2 by done. by rewrite lookup_insert_ne.
    + rewrite H3. cbn [List.filter]. unfold marked at 2.
      destruct (List.filter (marked n) l) as [|x xs] eqn:Ef; [by destruct (_ || _)|].
      destruct (_ || _); [|done]. by destruct (last (x :: xs)) eqn:El; [rewrite last_cons_cons, El|apply last_None in El].
Qed.

(** The CAs of a configuration that was validated: each is there under its
    identifier, nothing else is, and the default is the one the configuration
    names. *)
Lemma cas_loaded `{UrlLib} w c m d : cas_ok c ->
  load_cas w (length (c_cas c)) ∅ EmptyString (c_cas c) = Ok (m, d) ->
  (forall ca, ca ∈ c_cas c -> exists s, load_ca w ca = Ok s /\ m !! cfg_id ca = Some s) /\
  (forall id s, m !! id = Some s -> known_ca (c_cas c) id) /\
  exists ca, default_ca c = Ok ca /\ ca ∈ c_cas c /\ cfg_id ca = d.
Proof.
  intros Hok Hl. apply load_cas_spec in Hl as (H1 & H2 & H3); [|apply Hok]. split_and!; [done| |].
  - intros id s Hs. destruct (decide (id ∈ map cfg_id (c_cas c))); [done|]. rewrite H2 in Hs by done.
    by rewrite lookup_empty in Hs.
  - destruct (default_ca_ok c Hok) as (ca & Hd & Hin & Hcase). exists ca. split_and!; [done..|].
    rewrite H3. destruct Hcase as [->|[Hlen Hf]]; [cbn; unfold marked; by rewrite orb_true_r|].
    rewrite (filter_ext (marked (length (c_cas c))) cfg_is_default); [by rewrite Hf|].
    intros x. unfold marked. replace (length (c_cas c) =? 1)%nat with false; [apply orb_false_r|].
    symmetry. apply Nat.eqb_neq. lia.
Qed.
End Cas.

Lemma connections_ids endpoints p l : map ca_id (connections_of endpoints p l) = map cfg_id l.
Proof. revert p. induction l as [|c l IH]; intros p; cbn; [done|]. by rewrite IH. Qed.

(** ** The start *)

Section StartupProps.
Context `{HX : X509Lib} `{HOL : !OcspLib} `{HR : !RustlsLib} `{HU : UrlLib} `{HC : Cryptoki} `{HO : OpensslLib}
  `{HG : GssLib} `{HS : SqlBackend} `{HT : StarText}.
Variable alphanumeric : string -> option nat.
Variable debug : string -> string.
Variable digest : option bytes -> bytes -> string.
Variable json_object : list (string * string) -> string.
Variable cert_signature_algorithm : Cert -> X509.oid.
Variable placeholder : GssCred.
Abbreviation run := (run alphanumeric debug digest json_object cert_signature_algorithm placeholder).
Abbreviation boot_server := (boot_server digest json_object cert_signature_algorithm placeholder).

(** What a start that succeeds has done. *)
Lemma boot_server_ok w c secrets e stored e' s :
  boot_server w c secrets e stored = (e', Ok s) ->
  exists cas default_id hsm stars,
    load_cas (boot_files w) (length (c_cas c)) ∅ EmptyString (c_cas c) = Ok (cas, default_id) /\
    match c_hsm c with Some h => exists x, init_hsm h (hsm_pin secrets) = Ok x /\ hsm = Some x | None => hsm = None end /\
    admin_listener w c hsm = Ok (started_admin_listener s) /\ main_listener w c hsm = Ok (started_listener s) /\
    started_config s = c /\ started_secrets s = secrets /\ started_service s = service_of c secrets cas default_id hsm /\
    started_pool s = build_manager c /\ database e' = database e /\ audited e' = Some (record digest json_object (stored_audit stored)
      (audit_from_config (c_audit c) (option_map bytes_of_string (audit_integrity_key secrets)))
      (with_detail (audit_event_new CaStart) "kipuka EST server starting")
      (call_faults (boot_event w)) (call_time (boot_event w))) /\
    forall a, audited e' = Some a ->
      restore_stars w c (opened stored a) = (stars, Ok tt) /\ orders_left e' = Some (star_orders stars) /\
      started_state s = state_of w c stored stars.
Proof.
  unfold Startup.boot_server, fails, started_text. intros H.
  step_ok H as e1 cas E1. injection E1 as <- E1. apply map_err_Ok in E1. destruct cas as [cas d].
  step_ok H as e2 hsm E2. injection E2 as <- E2.
  step_ok H as e3 dogtag E3. injection E3 as <- E3. cbv zeta in H.
  step_ok H as e4 gss E4. injection E4 as <- E4.
  destruct (restore_stars _ _ _) as [stars restored] eqn:E5.
  step_ok H as e5 u5 E5'. injection E5' as <- ->. destruct u5.
  step_ok H as e6 u6 E6. injection E6 as <- E6.
  step_ok H as e7 binding E7. injection E7 as <- E7.
  step_ok H as e8 adm E8. injection E8 as <- E8.
  step_ok H as e9 mn E9. injection E9 as <- E9.
  injection H as <- <-. exists cas, d, hsm, stars. cbn. split_and!; try done.
  - destruct (c_hsm c) as [h|]; [|by injection E2]. destruct (init_hsm h _) as [x|x|]; cbn in E2; try done.
    exists x. split; [done|by injection E2].
  - by intros a [= <-].
Qed.

Lemma run_ok w path e s : run w path false = (e, Ok (Some s)) ->
  exists secrets cache db0 db e1,
    config_from_file debug (boot_read_text w) (boot_toml w) (boot_config w) path = Ok (started_config s) /\
    validate_config debug (boot_config w) (started_config s) = Ok tt /\
    resolve_config (boot_secrets w) ∅ (started_config s) = (cache, Ok secrets) /\
    boot_connect w (resolved_db_url secrets) = inl db0 /\
    (if Config.run_migrations (c_database (started_config s))
     then Schema.run_migrations alphanumeric (kind_from_url (resolved_db_url secrets)) db0 = (db, Ok tt) else db = db0) /\
    database e1 = Some db /\
    boot_server w (started_config s) secrets e1 (boot_tables w db) = (e, Ok s).
Proof.
  unfold Startup.run. intros H. unfold fails in H. step_ok H as e1 c E1. injection E1 as <- E1. apply map_err_Ok in E1. pose proof E1 as Ef.
  unfold config_from_file in E1. take_ok E1 as content F1. take_ok E1 as c' F2. take_ok E1 as u F3. injection E1 as <-.
  destruct u. destruct (resolve_config _ _ _) as [cache secrets] eqn:Er.
  step_ok H as e2 sec E2. injection E2 as <- E2. apply map_err_Ok in E2. subst secrets.
  step_ok H as e3 db0 E3. injection E3 as <- E3. apply of_lib_Ok in E3. cbv zeta in H.
  destruct (if Config.run_migrations _ then _ else _) as [db migrated] eqn:Em.
  step_ok H as e4 u4 E4. injection E4 as <- E4. apply map_err_Ok in E4.
  step_ok H as e5 u5 E5. injection E5 as <- E5.
  step_ok H as e6 s' E6. injection H as <- <-.
  pose proof (boot_server_ok _ _ _ _ _ _ _ E6) as (_ & _ & _ & _ & _ & _ & _ & _ & Hc & _).
  rewrite Hc. exists sec, cache, db0, db. eexists. split_and!; [done..| | |exact E6]; [|done].
  destruct u4. subst migrated. destruct (Config.run_migrations _); [done|by injection Em].
Qed.

(** C33: a server that has started can serve every label.  The configuration
    was validated, every CA of it is loaded from its file under its own
    identifier, and the default CA exists and is the only or the marked one:
    the panic of the code that looks it up is not reached.  Whatever label a
    request names, and whatever the state of the pool, no request is answered
    that the label's CA is unknown: an unknown label is not found, a pool
    without a healthy CA says so, and every other label resolves to a CA that
    is loaded, its own one if it names one and the default one if not. *)
Theorem started_serves_labels w path e s quote name pool :
  run w path false = (e, Ok (Some s)) ->
  match pool, started_pool s with
  | Some p, Some p0 => HaPool.connections p = HaPool.connections p0
  | None, None => True
  | _, _ => False
  end ->
  let app := sv_app (started_service s) in
  (exists ca st, default_ca (started_config s) = Ok ca /\ cfg_id ca = default_ca_id app /\
     get_ca app (default_ca_id app) = Some st /\ load_ca (boot_files w) ca = Ok st) /\
  (forall ca, ca ∈ c_cas (started_config s) ->
     exists st, load_ca (boot_files w) ca = Ok st /\ get_ca app (cfg_id ca) = Some st) /\
  match (resolve quote app pool name).2 with
  | Ok l => is_Some (get_ca app (label_ca l)) /\
      (forall n lc, name = Some n -> n <> EmptyString -> find_label app n = Some lc -> label_ca_pool lc = [] ->
        label_ca l = default (default_ca_id app) (label_ca_id lc))
  | Err ENotFound => exists n, name = Some n /\ n <> EmptyString /\ find_label app n = None
  | Err (EServiceUnavailable _) => exists n lc, name = Some n /\ find_label app n = Some lc /\ label_ca_pool lc <> []
  | _ => False
  end.
Proof.
  intros Hrun Hpool app. apply run_ok in Hrun as (secrets & cache & db0 & db & e1 & _ & Hval & _ & _ & _ & _ & Hboot).
  apply validate_config_cas in Hval.
  destruct (boot_server_ok _ _ _ _ _ _ _ Hboot) as (m & d & hsm & stars & Hl & _ & _ & _ & _ & _ & Hs & Hp & _).
  assert (Happ : app = sv_app (service_of (started_config s) secrets m d hsm)) by (unfold app; by rewrite Hs).
  destruct (cas_loaded _ _ _ _ Hval Hl) as (H1 & _ & ca & Hd & Hin & Hid).
  assert (Hget : forall id, get_ca app id = m !! id) by (intros id; by rewrite Happ).
  assert (Hdef : default_ca_id app = d) by by rewrite Happ.
  assert (Hknown : forall id, known_ca (c_cas (started_config s)) id -> is_Some (get_ca app id)).
  { intros id Hk. apply list_elem_of_fmap in Hk as (x & -> & Hx). destruct (H1 _ Hx) as (st & _ & Hst).
    rewrite Hget. by exists st. }
  assert (Hdk : is_Some (get_ca app (default_ca_id app))).
  { apply Hknown. rewrite Hdef, <- Hid. by apply list_elem_of_fmap_2. }
  split; [|split].
  - destruct (H1 _ Hin) as (st & Hst & Hm). exists ca, st. rewrite Hget, Hdef, <- Hid. by split_and!.
  - intros x Hx. destruct (H1 _ Hx) as (st & Hst & Hm). exists st. by rewrite Hget.
  - unfold resolve. destruct name as [n|]; [|split; [exact Hdk|done]].
    destruct (is_empty n) eqn:En.
    { split; [exact Hdk|]. intros n' lc [= <-] Hne. by destruct n. }
    assert (Hne : n <> EmptyString) by (by intros ->).
    destruct (find_label app n) as [lc|] eqn:Ef; [|cbn; by exists n].
    assert (Hlc : lc ∈ labels (section_est (c_est (started_config s)))).
    { unfold find_label in Ef. rewrite Happ in Ef. apply find_some in Ef as [Hf _]. by apply list_elem_of_In. }
    destruct Hval as [_ _ _ _ Hpools Hlabels]. rewrite Forall_forall in Hpools, Hlabels.
    destruct (label_ca_pool lc) as [|a l] eqn:Epool.
    + assert (Hk : is_Some (get_ca app (default (default_ca_id app) (label_ca_id lc)))).
      { destruct (label_ca_id lc) as [id|] eqn:Ei; cbn [default]; [|exact Hdk]. apply Hknown. by apply (Hlabels _ Hlc). }
      cbn [snd obind]. destruct Hk as [st Hst]. rewrite Hst. cbn. split; [by exists st|].
      intros n' lc' [= <-] _ Hf' _. rewrite Ef in Hf'. by injection Hf' as <-.
    + destruct pool as [p|]; [|cbn; exists n, lc; by rewrite Epool].
      destruct (select_allowed p (a :: l)) as [p' o] eqn:Esel.
      destruct o as [conn|]; [|cbn; exists n, lc; by rewrite Epool].
      cbn [snd obind]. assert (Hk : is_Some (get_ca app (ca_id conn))).
      { apply Hknown. pose proof (select_allowed_sound p (a :: l) conn) as Hsel. rewrite Esel in Hsel. specialize (Hsel eq_refl).
        apply elem_of_filter_bool in Hsel as [Hin' _]. destruct (started_pool s) as [p0|] eqn:Ep0; [|done].
        rewrite Hpool in Hin'. unfold build_manager in Hp. destruct (c_ha _) as [ha|]; [|done].
        destruct (ha_enabled ha); [|done]. injection Hp as ->. cbn [HaPool.connections pool_new] in Hin'.
        unfold known_ca. rewrite <- (connections_ids (endpoints ha) 0). by apply list_elem_of_fmap_2. }
      destruct Hk as [st Hst]. rewrite Hst. cbn. split; [by exists st|].
      intros n' lc' [= <-] _ Hf' He. rewrite Ef in Hf'. injection Hf' as <-. by rewrite Epool in He.
Qed.

End StartupProps.

Section Restarts.
Context `{HL : X509Lib} `{HC : CmsOids} `{HE : Encoder} `{HA : !AttributeOids} `{HD : Decoder}
  `{HO : !OcspLib} `{HR : !CrlLib} `{HM : !CmsLib} `{HB : !CmcLib} `{HP : !CmpLib}
  `{HK : KeyGenLib} `{HS : !SskgLib} `{HT : StarText} `{HW : RenewalText}
  `{HQ : !CrlBuilderLib} `{HY : Cryptoki} `{HSL : !OpensslLib} `{HPR : OpensslProbe} `{Htime : !TimeTextLaws}
  `{HRU : !RustlsLib} `{HU : UrlLib} `{HG : GssLib} `{HSQ : SqlBackend}.
Variable alphanumeric : string -> option nat.
Variable cert_signature_algorithm : Cert -> X509.oid.
Variable placeholder : GssCred.
Variable authz_reason : AuthzError -> string.
Variable debug : string -> string.
Variable to_lowercase : string -> string.
Variable b64_encode : bytes -> bytes.
Variable b64_decode : bytes -> bytes + string.
Variable sha2 : OwfKind -> bytes -> bytes.
Variable hmac : OwfKind -> bytes -> bytes -> bytes + string.
Variable resolved_secrets : gmap string string.
Variable secret_decode : string -> bytes + string.
Variable digest : option bytes -> bytes -> string.
Variable json_object : list (string * string) -> string.
Variable credentials_decode : string -> option bytes.
Variable b64url_encode : bytes -> string.
Variable sha256_hex : bytes -> string.
Variable rfc3339_millis : Z -> string.
Variable debug_option : option string -> string.
Variable display_utc : Z -> string.
Variable bounds : TimeBounds.

Abbreviation run := (run alphanumeric debug digest json_object cert_signature_algorithm placeholder).
Abbreviation server_ok := (server_ok digest).
Abbreviation calls_orderly := (calls_orderly authz_reason debug to_lowercase b64_encode b64_decode sha2 hmac
  resolved_secrets secret_decode digest json_object credentials_decode b64url_encode sha256_hex rfc3339_millis
  debug_option display_utc bounds).
Abbreviation serve_all := (serve_all authz_reason debug to_lowercase b64_encode b64_decode sha2 hmac
  resolved_secrets secret_decode digest json_object credentials_decode b64url_encode sha256_hex rfc3339_millis
  debug_option display_utc bounds).

(** ** What a start finds *)

(** A database of the current version is not migrated. *)
Lemma current_not_migrated kind db : SCHEMA_VERSION <= current_version db ->
  Schema.run_migrations alphanumeric kind db = (db, Ok tt).
Proof.
  intros Hv. unfold Schema.run_migrations, pending. unfold SCHEMA_VERSION in Hv.
  repeat match goal with |- context [current_version db <? ?v] =>
    replace (current_version db <? v) with false by (symmetry; apply Z.ltb_ge; lia); cbn [sbind] end.
  done.
Qed.

(** The tables as the last server left them, under the audit setup of the one
    that starts. *)
Definition reopened (prev : AppState) (audit : AuditState) : AppState :=
  MkAppState (app_audit_db prev) audit (certificates prev) (pending_csrs prev).
Lemma reopened_well_formed prev audit : same_setup (app_audit prev) audit ->
  well_formed digest prev -> well_formed digest (reopened prev audit) /\ evolves prev (reopened prev audit).
Proof.
  intros [Hcfg Hkey] [Hn Hst Hi Hch]. split; split; cbn; try done.
  - intros Hk. rewrite Hcfg in Hk. apply (verify_rows_key digest (app_audit prev)); [done|]. by apply Hch.
  - exists (certificates prev), []. rewrite app_nil_r. split; [done|apply rows_later_refl].
Qed.
(** And after the record of the start. *)
Lemma opened_ok prev audit ev f ts : same_setup (app_audit (tables prev)) audit -> well_formed digest (tables prev) ->
  let s := st_app (opened (tables_of prev) (record digest json_object (app_audit_db (tables prev)) audit ev f ts)) in
  well_formed digest s /\ evolves (tables prev) s.
Proof.
  intros Hset Hwf s. destruct (reopened_well_formed _ _ Hset Hwf) as [Hr He].
  assert (Hc : changes digest json_object (reopened (tables prev) audit) s) by
    (apply changes_once; exact (change_audit _ _ (reopened (tables prev) audit) (AuditRecord ev f ts))).
  destruct (changes_inv _ _ _ _ Hc Hr) as [Hw Hev]. split; [done|]. eapply evolves_trans; [apply Hr|done..].
Qed.

(** The orders are read back from the tables that a server left. *)
Lemma restored_ok w c s s' :
  star_manager s = None -> tables_inv (star_orders s) (star_certificates s) ->
  (forall star, c_star c = Some star -> bounds_ok star) -> restore_stars w c s = (s', Ok tt) ->
  stars_ok s' /\ st_app s' = st_app s /\ star_certificates s' = star_certificates s /\
  Forall2 row_restored (star_orders s) (star_orders s') /\
  forall star o, c_star c = Some star -> star_enabled star = true ->
    backed (star_orders s) (star_certificates s) o -> boot_now w < lifetime_end o ->
    exists m' o', star_manager s' = Some m' /\ get_order m' (order_id o) = Some o' /\ same_order o o'.
Proof.
  intros Hm Ht Hb. unfold restore_stars.
  assert (Hid : (forall star, c_star c = Some star -> star_enabled star = false) -> (s, Ok tt : outcome unit StartError) = (s', Ok tt) ->
    stars_ok s' /\ st_app s' = st_app s /\ star_certificates s' = star_certificates s /\
    Forall2 row_restored (star_orders s) (star_orders s') /\
    forall star o, c_star c = Some star -> star_enabled star = true ->
      backed (star_orders s) (star_certificates s) o -> boot_now w < lifetime_end o ->
      exists m' o', star_manager s' = Some m' /\ get_order m' (order_id o) = Some o' /\ same_order o o').
  { intros Hoff [= <-]. split; [split; [done|by rewrite Hm]|]. split_and!; try done; [apply rows_restored_refl|].
    intros star o Hs Hon. by rewrite (Hoff _ Hs) in Hon. }
  destruct (c_star c) as [star|] eqn:Ec; [|by apply Hid]. destruct (star_enabled star) eqn:Een.
  2: { apply Hid. by intros ? [= <-]. }
  clear Hid. destruct (restart _ star s (boot_now w)) as [s1 r] eqn:Er. intros E.
  assert (r = Ok tt /\ s1 = s') as [-> ->] by (destruct r as [[]|e|]; naive_solver).
  destruct (restart_rows _ _ _ _ _ _ Er) as (Hrows & Hc & Ha). apply restart_Ok in Er.
  destruct (restart_spec star s (boot_now w) Ht) as (s2 & m' & Er2 & Hm' & Hi & Hall).
  rewrite Er in Er2. injection Er2 as <-. pose proof Hi as (Ht' & m2 & Hm2 & Hcfg & _).
  split_and!; try done.
  - split; [done|]. intros m3 Hm3. rewrite Hm2 in Hm3. injection Hm3 as <-. rewrite Hcfg. split; [by apply Hb|done].
  - intros star' o _ _ Ho Hlt. destruct (Hall o Ho Hlt) as (o' & Ho' & Hs). by exists m', o'.
Qed.

(** Nobody is locked out by lockouts that have just begun; a name that is too
    long always is. *)
Lemma new_tracker_allows p t0 entity now : Z.of_nat (String.length entity) <= MAX_IDENTITY ->
  (check (tracker_new p t0) entity now).2 = Allowed.
Proof.
  intros Hlen. unfold check. destruct (negb _); [done|]. cbn [records tracker_new].
  replace (if _ <=? _ then _ else _) with (tracker_new p t0) by (rewrite map_size_empty; by case_match).
  replace (MAX_IDENTITY <? _) with false by (symmetry; apply Z.ltb_ge; lia).
  cbn [records tracker_new]. by rewrite lookup_empty.
Qed.

(** C34: a restart continues where the server ended.  Let a server stop, after
    whatever calls, and another start on the database it left, under the same
    audit setup; STAR orders may be read back, and the record of the start may
    fail.  Then, after whatever calls the new server serves: its tables are
    well-formed and grew from the ones that were left, so nothing recorded,
    issued or revoked before is lost, and the audit chain goes on over the
    restart; the orders' tables and memory fit.  At the start, every order
    that had not ended is in memory again and serves the same certificates,
    and rows of orders differ only in that one taken for complete is active.
    A one-time password is good as it was.  Locked accounts are not kept:
    lockouts begin anew. *)
Theorem restart_continues w path e s db prev calls :
  run w path false = (e, Ok (Some s)) ->
  (forall url, boot_connect w url = inl db) -> SCHEMA_VERSION <= current_version db ->
  boot_tables w db = tables_of prev -> server_ok prev ->
  same_setup (app_audit (tables prev)) (audit_from_config (c_audit (started_config s))
    (option_map bytes_of_string (audit_integrity_key (started_secrets s)))) ->
  (forall star, c_star (started_config s) = Some star -> bounds_ok star) ->
  calls_orderly (started_service s) (started_state s) calls ->
  let now := serve_all (started_service s) (started_state s) calls in
  server_ok now /\ evolves (tables prev) (tables now) /\
  Forall2 row_restored (star_orders (sv_state prev)) (star_orders (sv_state (started_state s))) /\
  (forall star m id o, c_star (started_config s) = Some star -> star_enabled star = true ->
    star_manager (sv_state prev) = Some m -> get_order m id = Some o -> boot_now w < lifetime_end o ->
    exists m' o', star_manager (sv_state (started_state s)) = Some m' /\ get_order m' id = Some o' /\
      same_order o o' /\ forall t, get_current_certificate m' id t = get_current_certificate m id t) /\
  (forall rd entity otp enabled, Z.of_nat (String.length entity) <= MAX_IDENTITY ->
    (check (sv_tracker (started_state s)) entity (now_check rd)).2 = Allowed /\
    ((check (sv_tracker prev) entity (now_check rd)).2 = Allowed ->
     (otp_good sha256_hex (login_view enabled (started_state s)) rd entity otp <->
      otp_good sha256_hex (login_view enabled prev) rd entity otp))).
Proof.
  intros Hrun Hdb Hver Htab [Hwf Hstars] Hset Hb Hcalls now.
  apply run_ok in Hrun as (secrets & cache & db0 & db' & e1 & _ & _ & _ & Hconn & Hmig & _ & Hboot).
  rewrite Hdb in Hconn. injection Hconn as <-.
  assert (db' = db) as -> by (destruct (Config.run_migrations _); [rewrite current_not_migrated in Hmig by done; congruence|done]).
  rewrite Htab in Hboot.
  apply boot_server_ok in Hboot as (m & d & hsm & stars & _ & _ & _ & _ & _ & Hsec & _ & _ & _ & Haud & Hst).
  destruct (Hst _ Haud) as (Hres & _ & Hs). clear Hst. rewrite Hsec in Hset.
  pose proof Hstars as [Ht Hmem].
  destruct (restored_ok w _ (opened (tables_of prev) _) _ eq_refl Ht Hb Hres) as (Hok & Happ & _ & Hrows & Hlive).
  destruct (opened_ok prev _ (with_detail (audit_event_new CaStart) "kipuka EST server starting")
    (call_faults (boot_event w)) (call_time (boot_event w)) Hset Hwf) as [Hw Hev].
  assert (Htabs : tables (started_state s) = st_app stars) by (by rewrite Hs).
  assert (Hstart : server_ok (started_state s)).
  { split; [rewrite Htabs, Happ; exact Hw|by rewrite Hs]. }
  split; [by apply serve_all_ok|]. split; [|split; [|split]].
  - eapply evolves_trans with (s2 := tables (started_state s)); [apply Hstart|rewrite Htabs, Happ; exact Hev|].
    eapply serve_all_inv. apply Hstart.
  - rewrite Hs. exact Hrows.
  - intros star mem id o Hc Hon Hm Ho Hlt. destruct (Hmem mem Hm) as [_ (_ & m0 & Hm0 & _ & Hback)].
    rewrite Hm in Hm0. injection Hm0 as <-. destruct (Hback id o Ho) as [Hid Hbk].
    destruct (Hlive star o Hc Hon Hbk Hlt) as (m' & o' & Hm' & Ho' & Hsame). exists m', o'. rewrite Hid in Ho'.
    rewrite Hs. split_and!; try done. intros t. by eapply same_order_served.
  - intros rd entity otp enabled Hlen. rewrite Hs. split; [by apply new_tracker_allows|].
    intros Hal. unfold otp_good, login_view. cbn [failure_tracker otp_enabled otp_tokens sv_tracker sv_tokens state_of tables_of stored_tokens].
    rewrite Hal, new_tracker_allows by done. done.
Qed.
End Restarts.

(** ** Examples *)

#[local] Existing Instances example_keygen_lib example_sskg_lib example_cmp_lib service_cmc_lib service_renewal_text.

(** The last server has placed and renewed an order, has a one-time password,
    and an entity that is locked out. *)
Definition locked_tracker : FailureTracker :=
  Nat.iter 5 (fun t => (FailureTracker.record_failure t "dev-1" 5).1) (tracker_new (to_policy lockout_default) 0).
Definition last_server : ServerState := MkServer star_renewed locked_tracker [example_row] 2 None ∅.
Example last_server_locks : (check locked_tracker "dev-1" 5).2 <> Allowed.
Proof. vm_compute. discriminate. Qed.

(** A configuration in a file, two CAs in another, and the database that
    server left, a day later. *)
Definition star_root : Config :=
  match example_root with
  | MkConfig a b c d e f g h i j k l m n _ p q r => MkConfig a b c d e f g h i j k l m n (Some star_example) p q r
  end.
Definition example_boot : BootWorld (HU := example_url) (HS := example_sql) :=
  MkBoot example_config_world (fun _ => inl "config"%string) (fun _ => inl star_root) example_secret_world (fun _ => [])
    (fun _ => inl version6) (fun _ => None) (fun _ => tables_of last_server) example_files (fun _ => inl []) (fun _ => inl None)
    (fun _ => inl "client"%string) false (fun _ => inr EmptyString) (fun _ => None) (inl []) (fun _ => None)
    (MkAuditCall no_faults "t0") (example_now + DAY).
Definition example_run :=
  run (HS := example_sql) ascii_only (fun s => s) example_digest example_json (fun _ => []) tt example_boot "kipuka.toml" false.
Definition boot_resolves (name ca : string) : bool :=
  match example_run.2 with
  | Ok (Some s) =>
      match (resolve (fun s => s) (sv_app (started_service s)) (started_pool s) (Some name)).2 with
      | Ok l => String.eqb (label_ca l) ca
      | _ => false
      end
  | _ => false
  end.
Example labels_resolve : boot_resolves "a" "sub" && boot_resolves "b" "root" = true.
Proof. vm_compute. reflexivity. Qed.

Lemma started_serves_labels_witness : exists e s l, example_run = (e, Ok (Some s)) /\
  (resolve (fun s => s) (sv_app (started_service s)) (started_pool s) (Some "a"%string)).2 = Ok l /\
  label_ca l = "sub"%string /\ is_Some (get_ca (sv_app (started_service s)) (label_ca l)).
Proof.
  pose proof labels_resolve as Hb. apply andb_prop in Hb as [Hb _]. unfold boot_resolves in Hb.
  destruct example_run as [e [[s|]|x|]] eqn:E; cbn [snd] in Hb; try discriminate Hb.
  exists e, s. unfold example_run in E.
  assert (Hpool : match started_pool s, started_pool s with
    | Some p, Some p0 => HaPool.connections p = HaPool.connections p0 | None, None => True | _, _ => False end)
    by (destruct (started_pool s); [reflexivity|exact I]).
  pose proof (started_serves_labels (HG := example_gss) (HS := example_sql) ascii_only (fun s => s) example_digest example_json (fun _ => []) tt
    example_boot "kipuka.toml" e s (fun s => s) (Some "a"%string) (started_pool s) E Hpool) as (_ & _ & H).
  destruct (resolve _ _ _ _).2 as [l|x|]; try discriminate Hb.
  exists l. split; [reflexivity|]. split; [reflexivity|]. split; [by apply String.eqb_eq|]. exact (proj1 H).
Defined.

Definition boot_setup_kept (r : BootEffects * outcome (option Started) StartError) : bool :=
  match r with
  | (_, Ok (Some s)) => bool_decide (audit_integrity_key (started_secrets s) = None)
  | _ => false
  end.
Example boot_setup : boot_setup_kept example_run = true.
Proof. vm_compute. reflexivity. Qed.
Lemma example_run_config e s : example_run = (e, Ok (Some s)) -> started_config s = star_root.
Proof.
  intros E. unfold example_run in E. apply run_ok in E as (secrets & cache & db0 & db & e1 & Hf & _). unfold config_from_file in Hf.
  take_ok Hf as content F1. take_ok Hf as c F2. take_ok Hf as u F3. injection Hf as <-. by apply of_lib_Ok in F2 as [= <-].
Qed.

Lemma last_server_ok : server_ok example_digest last_server.
Proof.
  split.
  - refine (proj1 (changes_inv example_digest example_json example_state (tables last_server) _ example_state_well_formed)).
    unfold tables, last_server. cbn [sv_state]. unfold star_renewed, star_do.
    eapply changes_trans; [|apply renew_order_changes]. unfold star_placed, example_post_star.
    change example_state with (st_app star_start) at 1. apply star_order_changes.
  - assert (Hb : bounds_ok star_example) by (split; [vm_compute; discriminate|vm_compute; reflexivity]).
    pose proof (reachable_inv _ _ _ _ _ _ _ _ (proj1 Hb) (proj2 Hb) example_reachable) as Hi.
    pose proof Hi as (Ht & m & Hm & Hc & _). split; [exact Ht|]. intros m' Hm'. change (star_manager star_renewed = Some m') in Hm'.
    rewrite Hm in Hm'. injection Hm' as <-. rewrite Hc. by split.
Qed.

Definition example_serves (cfg : ServiceConfig) : ServerState -> list ServerCall -> ServerState :=
  Service.serve_all (fun _ => EmptyString) (fun s => s) to_ascii_lowercase (fun b => b) inl (fun _ b => [checksum b])
    (fun _ k b => inl (k ++ [checksum b])) CmpSpec.example_secrets (fun h => inl (bytes_of_string h)) example_digest
    example_json (fun s => Some (bytes_of_string s)) string_of_bytes string_of_bytes (fun _ => "t"%string)
    (default EmptyString) (fun _ => "t"%string) example_bounds cfg.
Definition last_order : StarOrder := default placed_memory (mem ← star_manager star_renewed; get_order mem "7f").
Example last_order_there : (mem ← star_manager star_renewed; get_order mem "7f") = Some last_order.
Proof. vm_compute. reflexivity. Qed.
Example last_order_lives : boot_now example_boot < lifetime_end last_order.
Proof. vm_compute. reflexivity. Qed.

Lemma restart_continues_witness : exists e s m' o',
  let calls := [wrong_login; Shutdown quiet_event] in
  example_run = (e, Ok (Some s)) /\
  evolves (tables last_server) (tables (example_serves (started_service s) (started_state s) calls)) /\
  star_manager (sv_state (started_state s)) = Some m' /\ get_order m' "7f" = Some o' /\ same_order last_order o' /\
  (check (sv_tracker (started_state s)) "dev-1" 5).2 = Allowed.
Proof.
  pose proof boot_setup as Hb. unfold boot_setup_kept in Hb.
  destruct example_run as [e [[s|]|x|]] eqn:E; try discriminate Hb. apply bool_decide_eq_true in Hb.
  pose proof (example_run_config e s E) as Hcfg. unfold example_run in E.
  destruct (restart_continues (HG := example_gss) (HSQ := example_sql) ascii_only (fun _ => []) tt (fun _ => EmptyString) (fun s => s)
    to_ascii_lowercase (fun b => b) inl (fun _ b => [checksum b]) (fun _ k b => inl (k ++ [checksum b]))
    CmpSpec.example_secrets (fun h => inl (bytes_of_string h)) example_digest example_json
    (fun s => Some (bytes_of_string s)) string_of_bytes string_of_bytes (fun _ => "t"%string) (default EmptyString)
    (fun _ => "t"%string) example_bounds example_boot "kipuka.toml" e s version6 last_server
    [wrong_login; Shutdown quiet_event] E) as (_ & Hev & _ & Hstar & Hotp).
  - intros url. reflexivity.
  - vm_compute. discriminate.
  - reflexivity.
  - exact last_server_ok.
  - rewrite Hcfg, Hb. split; reflexivity.
  - rewrite Hcfg. intros star Hs. injection Hs as <-. split; [vm_compute; discriminate|vm_compute; reflexivity].
  - repeat split.
  - pose proof last_order_there as Ho. destruct (star_manager star_renewed) as [m|] eqn:Em; [|discriminate Ho].
    destruct (Hstar star_example m "7f" last_order) as (m' & o' & Hm' & Ho' & Hsame & _);
      [by rewrite Hcfg|reflexivity|exact Em|exact Ho|exact last_order_lives|].
    exists e, s, m', o'. split; [reflexivity|]. split; [exact Hev|]. split; [exact Hm'|]. split; [exact Ho'|].
    split; [exact Hsame|]. refine (proj1 (Hotp (readings_at 5 []) "dev-1"%string EmptyString true _)). vm_compute. discriminate.
Defined.
